(* ===== verification/_CoqProject ===== *)
-Q . S2P
Prelude.v
Bytes.v
Text.v
Durations.v
Crypto.v
CryptoReplay.v
CryptoRecord.v
Framing.v
Handshake.v
Frame.v
Reassembly.v
ReassemblyFacts.v
ReassemblyRuns.v
Sender.v
SenderFacts.v
SenderRuns.v
H264.v
Traffic.v
SeiTransport.v
EndToEnd.v
Adapters.v
Muxconn.v
MuxFacts.v
MuxRuns.v
Control.v
VpWire.v
VpWriter.v
VpRtp.v
VpTrack.v
VpTransport.v
VpPeersFacts.v
VpLinkFacts.v
Server.v
ServerFacts.v
ServerRuns.v
ServerProps.v
Reconnect.v
Supervisor.v
Socks.v
SocksFacts.v
NetAddr.v
SessionConfig.v
SessionRun.v
SessionFacts.v
SessionProps.v
CopyLoop.v
Client.v
ClientFacts.v
ClientProps.v
JitsiBridge.v
JitsiFacts.v
JitsiSignals.v
ConfigFile.v
ClientRun.v
Command.v
VideoTransport.v
VideoFacts.v
IceServers.v
JitsiText.v
Logging.v
Providers.v
EngineConn.v
Protect.v
ProtectNet.v
Redact.v
JitsiRun.v
Goolom.v
GoolomRun.v
GoolomFacts.v
GoolomQueue.v
Livekit.v
LivekitTracks.v
JitsiMedia.v
LegacyWire.v
LegacyVp8.v
LegacyFacts.v
Mobile.v
MobileFacts.v
MobileCore.v
Latency.v
