(* ===== verification/Prelude.v ===== *)
(** * olcrtc: a verification of the tunnel core

    olcrtc carries a SOCKS5 tunnel through the media or data channel of a video
    conference.  The program is Go, under src/native/olcrtc; paths below are
    relative to its internal/.  This library translates the parts that carry the
    tunnel into executable definitions and proves what makes them correct.

    ** The program and its model

    From the application down to the conference and up again:

    - an application speaks SOCKS5 to the client, which sends the target as a JSON
      request on a fresh stream; the server dials it, possibly through another
      proxy (client/socks.go, client/tunnel.go, server/egress.go).  [Socks],
      [SocksFacts]; then two loops copy between the connection and the stream
      (tunnelcore/copy.go).  [CopyLoop];
    - the client keeps one session, reconnects, falls back and shuts down (client/client.go, link.go, health.go).
      [Client], [ClientFacts], [ClientProps]; the device id and its file, one tunnel with the replies the application
      sees, and the evidence about the link are [ClientRun];
    - streams are multiplexed by smux (a library) over a byte stream made of sealed
      records (muxconn/conn.go).  [Muxconn] with the shared buffer pool as an
      explicit store, [MuxFacts], [MuxRuns];
    - records are sealed and opened by the record layer with its replay cache
      (crypto/chacha.go).  [Crypto], [CryptoReplay], [CryptoRecord];
    - a session starts with the handshake and lives under the ping/pong of the control
      stream, both in length-prefixed frames (framing, handshake,
      control).  [Framing], [Handshake], [Control];
    - the server keeps one session per peer, or a single session
      (server/*.go, tunnelcore/session.go, tunnelcore/control.go).  [Server], [ServerFacts], [ServerRuns],
      [ServerProps];
    - transports carry the records.  The ack-based ones split a record into
      fragments, retransmit and reassemble (transport/common).  [Frame], [Reassembly],
      [ReassemblyFacts], [ReassemblyRuns], [Sender], [SenderFacts], [SenderRuns];
      seichannel hides frames in H264 SEI units: [H264], [SeiTransport],
      and [EndToEnd] puts sender, carrier and receiver together; payload limit and pacing
      are [Traffic];
    - vp8channel runs KCP (a library) over VP8 samples: [VpWire] (packet
      formats and pools), [VpWriter] (paced writers), [VpRtp], [VpTrack] (RTP
      to samples), [VpTransport], [VpPeersFacts], [VpLinkFacts] (planes, peer table,
      routing, epochs); its predecessor, kept for old servers (src/native/mobilecore/legacyvp8channel), is
      [LegacyWire] (formats, batching, writer, reader), [LegacyVp8], [LegacyFacts] (binding
      to a peer, resets, Close);
    - videochannel draws the frames as images and sends them as video (transport/videochannel): [VideoTransport], [VideoFacts]
      over the same sender and reassembler; the datachannel transport and the video session only pass on to the
      engine, with fallbacks where it lacks an interface (transport/datachannel, common/session.go): [Adapters];
    - an engine joins the conference and reconnects (engine/reconnect.go): [Reconnect].
      engine/jitsi: [JitsiBridge], [JitsiFacts] (the bridge channel and its epochs), [JitsiText] (nicknames, hosts,
      candidates), [JitsiRun] (Connect, reconnect, negotiation, Close), [JitsiSignals] (the payload of
      bridge messages, the session signal, keep-alives), [JitsiMedia] (the lines of a peer connection); engine/goolom: [Goolom]
      (signaling), [GoolomRun] (life cycle), [GoolomQueue] (the send workers), [GoolomFacts]; engine/livekit:
      [Livekit], [LivekitTracks] (video tracks, with engine/video.go); without a tunnel, pkg/olcrtc/engineconn reads and
      writes an engine as a connection: [EngineConn];
    - the sockets that internal/protect makes go through the protector (protect/protect.go, pionnet.go), and which the
      program opens without it: [Protect]; requests are retried, interfaces and
      addresses resolved (protect/protect.go, pionnet*.go): [ProtectNet]; error texts are redacted: [Redact]; which log lines
      get out (logger, cmd/olcrtc): [Logging];
      ICE servers (engine/iceservers.go): [NetAddr], [IceServers]; the services that issue the credentials (auth,
      engine/builtin): [Providers];
    - a configuration file is read ([ConfigFile]) and the command decides what to run ([Command]);
      a configuration is completed, validated and started (app/session, runtime):
      [Durations], [SessionConfig], [SessionRun], [SessionFacts], [SessionProps]; the supervisor
      moves between profiles (supervisor): [Supervisor];
    - on a phone the settings and the life of the client are in mobile/ ([Mobile], [MobileFacts]) and in
      src/native/mobilecore/mobilecore.go ([MobileCore]); latency tests and the protector of the phone
      are [Latency].

    [Bytes] and [Text] hold the Go standard library the formats use (big
    endian, CRC-32, FNV, hex), this file the Go data model.

    ** How Go is modelled

    A function with an error result returns [outcome]; integers are [Z] with every
    wrap-around written out ([u8] to [i64]); a slice access out of range is [Panic].
    Code under a mutex is one step.  Goroutines are interleaved as explicit
    sequences of such steps: events of [send_step], of a connection, of the transport, and
    the action lists of the server, and for Connect, reconnect and Close of the engines the operations each thread has
    still to do; the lock-free counter of the record layer is taken at
    the level of single atomic instructions.  Objects that are shared by pointer
    (pooled buffers, peer sessions, KCP runtimes, server resources) live in stores indexed by allocation number,
    so that aliasing and leaks can be stated.  Time is an argument.

    What is not in the repository is an interface: [CipherSuite] with [CipherLaws]
    (XChaCha20-Poly1305, HKDF), [HandshakeJSON] and [ConnectJSON] with their laws
    (encoding/json on the message types, which replaces invalid UTF-8), [VP8Codec] with [VP8Laws] (pion's payloader),
    [NetIP] with [NetIPLaws] (textual IP addresses), [URLs] and [WebURL] (net/url), [WebAPI] (the services), [FloatConv] with [FloatConvLaws]
    (JSON numbers), [OS] and [Yaml] (files and their decoder), [Resolver] (name lookup), [RequestURI] (net/url again), [TileFrame] and [VisualLib] (the image codecs).
    [RecordLayer] with [RecordLaws] is the contract between the record layer and the mux connection: its clients
    are proved against it and [KeySet] is its instance.  Every theorem over an
    interface has a witness at a concrete instance.

    Loops that are not structural recurse on fuel: the length of the input for the scanners of
    [H264] and [Durations], where every round consumes a byte; the length of the script for the loops of
    [Reconnect], [Supervisor] and the rotation; running out is a result of its own, and shown
    impossible where the loop must end.

    ** What is proved

    - Records: no counter is accepted twice, the replay cache refines a set
      specification, client and server understand each other, a failed open changes
      nothing, no two records share a nonce under any interleaving.
    - Ack transports: a complete message is delivered exactly once and intact in any
      order of arrival; [Send] ends, success means all fragments acknowledged and, end to
      end, delivered as long as the peer evicts no partial message; codec and access unit round trips.
    - Mux: buffers are never shared, the stream is FIFO, written bytes are read back.
    - Handshake and control: both ends agree, replies of other sessions are refused, a
      silent peer is detected and a live one is not dropped without cause.
    - vp8channel: frames reach only the session they are addressed to, runtimes are bounded
      and released by [vp_Close] but for control runtimes attached to a closed session, tracks
      deliver samples through reordering, the writer keeps the order, retries control frames and
      puts them first, one rebuild per restarted peer.
    - Server: shutdown releases every resource in every interleaving, data streams and target
      connections included, but for streams accepted while it stops, which end with their session;
      a peer gets its own frames and is served only after its handshake.
    - SOCKS5: targets survive the tunnel, both ends of the protocol agree, and credentials are
      enforced.
    - Configuration: what validation accepts is accepted by [Run], with every value in range, and every
      smux frame fits its transport.  The supervisor is round robin; a dead provider is reported.
    - Client: sessions never leak unless a shutdown overlaps an attempt, a reconnect ends, waiters are woken.
    - Copy loops: what is written is what was read, in order; counts, closing of both ends and return
      under every interleaving.
    - Engines: a jitsi client hears only its confirmed peer and is joined at most once; goolom accepts signaling only as
      sent and releases what it opened, where Close meets no reconnect; video tracks are offered in every room and connection;
      a raw connection is the stream the engine received.
    - Sockets: every data socket made through internal/protect is protected before use, whatever protector is in
      force; requests are sent at most three
      times with their whole body; interfaces are grouped by name; addresses have the family asked for; redaction hides values.
    - Command and mobile: only configurations that can start are run; the runtime has one generation at a time.
    - Defects, as theorems: acknowledged but undeliverable messages, a leaked control runtime,
      a race between restarts, a failed handshake that drops all peers, a stale reinstall that
      closes the live session, sessions reported open after their end, cut host names, fragment sizes that lose
      every full frame, a late death report that kills a fresh client session, sessions opened or installed after shutdown, a message lost to
      eviction after its fragments were acknowledged, an IPv6 listen address that is validated and refused, a
      suppressed fallback, a full epoch table that shuts out new jitsi clients, ended tracks that use up the video decoders,
      rooms, sessions and peer connections of the engines that outlive Close, a legacy mode and a
      keepalive setting without effect, a probe that stops the tunnel, a legacy client bound to no peer, four goolom workers
      that reorder the stream, unprotected lookups, tracks lost or published twice, a fresh client session that is reported in
      trouble, gaps of the redaction, and a start that puts a replaced protector back.

    ** What is not modelled

    The libraries (KCP, smux, pion, LiveKit, j, yaml, json) are parameters or what they answer; HTTP itself, image codecs,
    the construction of pion tracks and settings, telemetry upload and the capability table of goolom, the formatting of log
    lines, the cgo command, the public wrappers that copy their options and the build are I/O or forwarding and are left out.

    ** This file

    Notation, the Go data model and automation shared by all files. *)

From stdpp Require Export base numbers list gmap strings sets.

#[export] Set Default Goal Selector "!".

(** ** Go results

    A Go function returning [(T, error)] is modelled by [outcome E T]:
    [Ok] is a nil error, [Err] one of the package's sentinel errors (the
    wrapping text added by [fmt.Errorf] is dropped, [errors.Is] sees only the
    sentinel), and [Panic] a run-time panic such as an index out of range. *)

Inductive outcome (E A : Type) : Type :=
| Ok (a : A)
| Err (e : E)
| Panic.

Arguments Ok {E A} a.
Arguments Err {E A} e.
Arguments Panic {E A}.

#[export] Instance outcome_eq_dec `{EqDecision E, EqDecision A} :
  EqDecision (outcome E A).
Proof. solve_decision. Defined.

Definition obind {E A B} (c : outcome E A) (k : A -> outcome E B) : outcome E B :=
  match c with
  | Ok a => k a
  | Err e => Err e
  | Panic => Panic
  end.

Declare Scope go_scope.
Delimit Scope go_scope with go.

Notation "'let*' x ':=' c 'in' k" := (obind c (fun x => k))
  (at level 10, x pattern, c at level 100, k at level 200)
  : go_scope.

Open Scope Z_scope.
Open Scope go_scope.

(** [is_ok] is the Go idiom [err == nil]. *)
Definition is_ok {E A} (c : outcome E A) : bool :=
  match c with Ok _ => true | _ => false end.

(** ** Machine integers

    Go integers are [Z] values; every operation that can leave the width of
    its type is wrapped explicitly. *)

Definition u8 (z : Z) : Z := z mod 2 ^ 8.
Definition u16 (z : Z) : Z := z mod 2 ^ 16.
Definition u32 (z : Z) : Z := z mod 2 ^ 32.
Definition u64 (z : Z) : Z := z mod 2 ^ 64.
Definition i64 (z : Z) : Z := (z + 2 ^ 63) mod 2 ^ 64 - 2 ^ 63.

Definition max_u64 : Z := 2 ^ 64 - 1.

Abbreviation is_byte b := (0 <= b < 256).
Abbreviation is_u16 z := (0 <= z < 65536).
Abbreviation is_u32 z := (0 <= z < 4294967296).
Abbreviation is_u64 z := (0 <= z < 18446744073709551616).

(** A Go byte slice; an element is meant to be in [0, 256). *)
Abbreviation bytes := (list Z).
Abbreviation byte_list l := (Forall (fun b => is_byte b) l).

(** [len s]. *)
Abbreviation len l := (Z.of_nat (length l)).

Lemma u8_range z : is_byte (u8 z).
Proof. unfold u8. change (2 ^ 8) with 256. apply Z.mod_pos_bound. lia. Qed.
Lemma u16_range z : is_u16 (u16 z).
Proof. unfold u16. change (2 ^ 16) with 65536. apply Z.mod_pos_bound. lia. Qed.
Lemma u32_range z : is_u32 (u32 z).
Proof. unfold u32. change (2 ^ 32) with 4294967296. apply Z.mod_pos_bound. lia. Qed.
Lemma u64_range z : is_u64 (u64 z).
Proof. unfold u64. change (2 ^ 64) with 18446744073709551616. apply Z.mod_pos_bound. lia. Qed.

Lemma u16_small z : is_u16 z -> u16 z = z.
Proof. intros. unfold u16. apply Z.mod_small. change (2 ^ 16) with 65536. lia. Qed.
Lemma u32_small z : is_u32 z -> u32 z = z.
Proof. intros. unfold u32. apply Z.mod_small. change (2 ^ 32) with 4294967296. lia. Qed.
Lemma u64_small z : is_u64 z -> u64 z = z.
Proof.
  intros. unfold u64. apply Z.mod_small. change (2 ^ 64) with 18446744073709551616. lia.
Qed.

Lemma i64_small z : - 2 ^ 63 <= z < 2 ^ 63 -> i64 z = z.
Proof.
  intros. unfold i64. rewrite Z.mod_small; [lia|].
  change (2 ^ 64) with (2 * 2 ^ 63). lia.
Qed.

(** ** Slices

    [slice s lo hi] is [s[lo:hi]] and [index s i] is [s[i]].  Both panic
    outside the length of [s].  (Go lets a slice expression reach into the
    capacity; no code modelled here relies on it, so reaching past the length
    is counted as a fault.) *)

Definition slice {E A} (s : list A) (lo hi : Z) : outcome E (list A) :=
  if (0 <=? lo) && (lo <=? hi) && (hi <=? len s)
  then Ok (take (Z.to_nat (hi - lo)) (drop (Z.to_nat lo) s))
  else Panic.

Definition slice_from {E A} (s : list A) (lo : Z) : outcome E (list A) :=
  slice s lo (len s).

Definition index {E A} (s : list A) (i : Z) : outcome E A :=
  if 0 <=? i
  then match s !! Z.to_nat i with Some a => Ok a | None => Panic end
  else Panic.

(** [write_at off src s] overwrites [s] from offset [off] with [src]: the
    effect of [binary.BigEndian.PutUint32(s[off:], v)] and of
    [copy(s[off:], src)] when [src] fits. *)
Definition write_at {A} (off : nat) (src s : list A) : list A :=
  take off s ++ src ++ drop (off + length src) s.

Lemma length_write_at {A} off (src s : list A) :
  (off + length src <= length s)%nat -> length (write_at off src s) = length s.
Proof.
  intros. unfold write_at. rewrite !length_app, length_take, length_drop. lia.
Qed.

Lemma write_at_app {A} off (a src b : list A) :
  length a = off -> write_at off src (a ++ b) = (a ++ src) ++ drop (length src) b.
Proof.
  intros <-. unfold write_at. rewrite take_app_length, <- app_assoc. do 2 f_equal.
  rewrite drop_app_add'; [done|lia].
Qed.

Lemma slice_ok {E A} (s : list A) lo hi :
  0 <= lo <= hi -> hi <= len s ->
  @slice E A s lo hi = Ok (take (Z.to_nat (hi - lo)) (drop (Z.to_nat lo) s)).
Proof.
  intros. unfold slice.
  replace ((0 <=? lo) && (lo <=? hi) && (hi <=? len s)) with true; [done|].
  symmetry. rewrite !andb_true_iff, !Z.leb_le. lia.
Qed.

Lemma slice_from_ok {E A} (s : list A) lo :
  0 <= lo <= len s -> @slice_from E A s lo = Ok (drop (Z.to_nat lo) s).
Proof.
  intros. unfold slice_from. rewrite slice_ok by lia.
  f_equal. apply take_ge. rewrite length_drop. lia.
Qed.

Lemma index_lookup {E A} (s : list A) i x :
  0 <= i -> s !! Z.to_nat i = Some x -> @index E A s i = Ok x.
Proof. intros Hi Hx. unfold index. rewrite (proj2 (Z.leb_le 0 i) Hi). by rewrite Hx. Qed.

Lemma index_in_range {E A} (s : list A) i :
  0 <= i < len s -> exists x, s !! Z.to_nat i = Some x /\ @index E A s i = Ok x.
Proof.
  intros Hi. destruct (lookup_lt_is_Some_2 s (Z.to_nat i)) as [x Hx]; [lia|].
  exists x. split; [done|]. apply index_lookup; [lia|done].
Qed.

(** ** Booleans of the code

    [bool_to_Prop] turns the boolean tests of the modelled code, in the goal or
    in the hypotheses, into the propositions they decide. *)

Ltac bool_to_Prop :=
  repeat match goal with
    | H : negb _ = true |- _ => apply negb_true_iff in H
    | H : negb _ = false |- _ => apply negb_false_iff in H
    | H : _ && _ = true |- _ => apply andb_true_iff in H as [? ?]
    | H : _ || _ = false |- _ => apply orb_false_iff in H as [? ?]
    | H : _ || _ = true |- _ => apply orb_true_iff in H
    | H : _ && _ = false |- _ => apply andb_false_iff in H
    | H : (_ <=? _) = true |- _ => apply Z.leb_le in H
    | H : (_ <=? _) = false |- _ => apply Z.leb_gt in H
    | H : (_ <? _) = true |- _ => apply Z.ltb_lt in H
    | H : (_ <? _) = false |- _ => apply Z.ltb_ge in H
    | H : (_ =? _) = true |- _ => apply Z.eqb_eq in H
    | H : (_ =? _) = false |- _ => apply Z.eqb_neq in H
    | H : bool_decide _ = true |- _ => apply bool_decide_eq_true in H
    | H : bool_decide _ = false |- _ => apply bool_decide_eq_false in H
    end.

(** [case_if] splits on the first [if] of the goal (or of a hypothesis) over a
    boolean and translates the equation it leaves. *)
Ltac case_if :=
  match goal with
  | |- context [if ?b then _ else _] => destruct b eqn:?
  | H : context [if ?b then _ else _] |- _ => destruct b eqn:?
  end; bool_to_Prop.

Ltac break_match :=
  match goal with
  | |- context [match ?x with _ => _ end] => destruct x eqn:?
  | H : context [match ?x with _ => _ end] |- _ => destruct x eqn:?
  end.

(** Inverts an equation between [outcome]s or pairs. *)
Ltac inv_ok :=
  repeat match goal with
    | H : Ok _ = Ok _ |- _ => injection H as H; subst
    | H : Err _ = Err _ |- _ => injection H as H; subst
    | H : Ok _ = Err _ |- _ => discriminate H
    | H : Err _ = Ok _ |- _ => discriminate H
    | H : Panic = _ |- _ => discriminate H
    | H : _ = Panic |- _ => discriminate H
    | H : (_, _) = (_, _) |- _ => injection H; clear H; intros; subst
    | H : Some _ = Some _ |- _ => injection H as H; subst
    end.

Create HintDb go discriminated.
#[export] Hint Resolve u8_range u16_range u32_range u64_range : go.
#[export] Hint Resolve Z.le_refl Nat.le_refl : go.

(** ** Lists *)

Section lists.
Context {A : Type}.
Implicit Types (l k : list A).

Lemma len_app l k : len (l ++ k) = len l + len k.
Proof. rewrite length_app. lia. Qed.

Lemma len_nonneg l : 0 <= len l.
Proof. lia. Qed.

Lemma take_app_exact n l k : length l = n -> take n (l ++ k) = l.
Proof. intros <-. apply take_app_length. Qed.

Lemma drop_app_exact n l k : length l = n -> drop n (l ++ k) = k.
Proof. intros <-. apply drop_app_length. Qed.

Lemma take_drop_slice n m l :
  (n <= m)%nat -> take m l = take n l ++ take (m - n) (drop n l).
Proof.
  intros. rewrite take_take_drop. f_equal. lia.
Qed.
Lemma take_drop_length n l : take n l ++ drop (length (take n l)) l = l.
Proof.
  rewrite length_take. destruct (decide (n <= length l)%nat).
  - rewrite Nat.min_l by lia. apply take_drop.
  - rewrite Nat.min_r, take_ge, drop_ge by lia. apply app_nil_r.
Qed.
End lists.

(** What is left of a list without one entry. *)
Lemma delete_in {A} (l : list A) i x : x ∈ delete i l -> x ∈ l.
Proof. intros H. eapply elem_of_submseteq; [exact H|]. apply sublist_submseteq, sublist_delete. Qed.

Lemma in_delete {A} (l : list A) i x y : l !! i = Some y -> x ∈ l -> x = y \/ x ∈ delete i l.
Proof. intros E Hx. rewrite <- (take_drop_middle _ _ _ E) in Hx. rewrite delete_take_drop. rewrite elem_of_app, elem_of_cons in Hx. rewrite elem_of_app. naive_solver. Qed.

Lemma filter_ne_perm (b : nat) (l : list nat) :
  NoDup l -> b ∈ l -> l ≡ₚ b :: filter (fun x => x <> b) l.
Proof.
  intros Hn Hb. apply NoDup_Permutation; [done| |].
  - constructor; [rewrite list_elem_of_filter; naive_solver|by apply NoDup_filter].
  - intros x. rewrite elem_of_cons, list_elem_of_filter. destruct (decide (x = b)); naive_solver.
Qed.
