(* ===== verification/Bytes.v ===== *)
(** * Bytes: the parts of Go's standard library the wire formats use

    [encoding/binary] (big endian), [hash/crc32] (IEEE and Castagnoli),
    [hash/fnv] (32-bit FNV-1a), [encoding/hex] and the [%08x] /
    [strconv.ParseUint(_, 16, 32)] pair.  Everything is executable; the lemmas
    are the round trips and the error-detection facts that the components
    need. *)

From S2P Require Import Prelude.

(** ** encoding/binary, big endian *)

(** [be_put n v]: the [n] bytes [binary.BigEndian.PutUint(8n)] stores. *)
Fixpoint be_put (n : nat) (v : Z) : bytes :=
  match n with
  | O => []
  | S n' => u8 (Z.shiftr v (8 * Z.of_nat n')) :: be_put n' v
  end.

(** [be_get l]: the value [binary.BigEndian.Uint(8 * len l)] reads. *)
Definition be_get (l : bytes) : Z :=
  fold_left (fun acc b => acc * 256 + b) l 0.

Lemma length_be_put n v : length (be_put n v) = n.
Proof. induction n; simpl; congruence. Qed.

Lemma be_put_bytes n v : byte_list (be_put n v).
Proof. induction n; simpl; constructor; auto with go. Qed.

Lemma u8_shiftr v n : u8 (Z.shiftr v (8 * Z.of_nat n)) = (v / 256 ^ Z.of_nat n) mod 256.
Proof.
  unfold u8. rewrite Z.shiftr_div_pow2 by lia.
  rewrite Z.pow_mul_r by lia. done.
Qed.

Lemma fold_be_put n v acc :
  fold_left (fun acc b => acc * 256 + b) (be_put n v) acc
  = acc * 256 ^ Z.of_nat n + v mod 256 ^ Z.of_nat n.
Proof.
  revert acc. induction n as [|n IH]; intros acc; simpl be_put.
  - simpl. rewrite Z.mod_1_r. lia.
  - simpl fold_left. rewrite IH, u8_shiftr.
    rewrite Nat2Z.inj_succ, Z.pow_succ_r by lia.
    rewrite (Z.mul_comm 256 (256 ^ Z.of_nat n)).
    rewrite Z.rem_mul_r by (try apply Z.pow_nonzero; lia). lia.
Qed.

Lemma be_get_put_mod n v : be_get (be_put n v) = v mod 256 ^ Z.of_nat n.
Proof. unfold be_get. rewrite fold_be_put. lia. Qed.

Lemma be_get_put n v : 0 <= v < 256 ^ Z.of_nat n -> be_get (be_put n v) = v.
Proof. intros. rewrite be_get_put_mod. by apply Z.mod_small. Qed.

Lemma be_get_put16 v : is_u16 v -> be_get (be_put 2 v) = v.
Proof. intros. by apply be_get_put. Qed.
Lemma be_get_put32 v : is_u32 v -> be_get (be_put 4 v) = v.
Proof. intros. by apply be_get_put. Qed.
Lemma be_get_put64 v : is_u64 v -> be_get (be_put 8 v) = v.
Proof. intros. by apply be_get_put. Qed.

Lemma be_get_snoc l b : be_get (l ++ [b]) = be_get l * 256 + b.
Proof. unfold be_get. by rewrite fold_left_app. Qed.

Lemma be_get_range l : byte_list l -> 0 <= be_get l < 256 ^ len l.
Proof.
  induction l as [|b l IH] using rev_ind; intros Hl; [done|].
  apply Forall_app in Hl as [Hl Hb]. rewrite Forall_singleton in Hb.
  rewrite be_get_snoc, len_app, Z.pow_add_r by lia.
  specialize (IH Hl). change (256 ^ len [b]) with 256.
  revert IH. generalize (256 ^ len l), (be_get l). lia.
Qed.

Lemma be_put_snoc n v : be_put (S n) v = be_put n (v / 256) ++ [v mod 256].
Proof.
  induction n as [|n IH].
  - simpl. unfold u8. by rewrite Z.shiftr_0_r.
  - change (be_put (S (S n)) v) with
      (u8 (Z.shiftr v (8 * Z.of_nat (S n))) :: be_put (S n) v).
    rewrite IH. simpl. f_equal. rewrite !u8_shiftr.
    rewrite Z.div_div by lia. f_equal. f_equal.
    rewrite Nat2Z.inj_succ, Z.pow_succ_r by lia. lia.
Qed.

Lemma be_put_get l : byte_list l -> be_put (length l) (be_get l) = l.
Proof.
  induction l as [|b l IH] using rev_ind; intros Hl; [done|].
  apply Forall_app in Hl as [Hl Hb]. rewrite Forall_singleton in Hb.
  rewrite length_app. simpl length. rewrite Nat.add_1_r, be_put_snoc, be_get_snoc.
  rewrite Z.div_add_l, (Z.div_small b), Z.add_0_r by lia.
  replace ((be_get l * 256 + b) mod 256) with b; [by rewrite IH|].
  symmetry. rewrite Z.add_comm, Z.mod_add by lia. by apply Z.mod_small.
Qed.

Lemma be_get_inj l k :
  byte_list l -> byte_list k -> length l = length k -> be_get l = be_get k -> l = k.
Proof.
  intros Hl Hk Hlen Heq. rewrite <- (be_put_get l), <- (be_put_get k) by done.
  by rewrite Hlen, Heq.
Qed.

#[export] Hint Resolve be_put_bytes length_be_put : go.

(** ** hash/crc32

    The reflected, table-free form of the checksum: the table lookup of the
    Go code processes the same eight shifts at once. *)

Definition crc_IEEE : Z := 0xEDB88320.
Definition crc_Castagnoli : Z := 0x82F63B78.

Definition crc_shift (poly c : Z) : Z :=
  if Z.odd c then Z.lxor (Z.shiftr c 1) poly else Z.shiftr c 1.

Definition crc_step (poly c b : Z) : Z :=
  Nat.iter 8 (crc_shift poly) (Z.lxor c b).

Definition crc32 (poly : Z) (data : bytes) : Z :=
  Z.lxor (fold_left (crc_step poly) data 0xFFFFFFFF) 0xFFFFFFFF.

(** [crc32.ChecksumIEEE] and [crc32.Checksum(_, Castagnoli)]. *)
Definition ChecksumIEEE : bytes -> Z := crc32 crc_IEEE.
Definition ChecksumCastagnoli : bytes -> Z := crc32 crc_Castagnoli.

(** The check values of the CRC catalogue, over the ASCII digits 1..9. *)
Example crc32_check_values :
  ChecksumIEEE [49;50;51;52;53;54;55;56;57] = 0xCBF43926 /\
  ChecksumCastagnoli [49;50;51;52;53;54;55;56;57] = 0xE3069283.
Proof. vm_compute. done. Qed.

Lemma u32_bits z : 0 <= z -> is_u32 z <-> Z.land z (Z.ones 32) = z.
Proof.
  intros Hz. rewrite Z.land_ones by lia. change (2 ^ 32) with 4294967296.
  split; [apply Z.mod_small|]. intros <-. apply Z.mod_pos_bound. lia.
Qed.

Lemma land_lxor_distr a b m : Z.land (Z.lxor a b) m = Z.lxor (Z.land a m) (Z.land b m).
Proof.
  apply Z.bits_inj'. intros n _. rewrite !Z.lxor_spec, !Z.land_spec, Z.lxor_spec.
  by destruct (Z.testbit a n), (Z.testbit b n), (Z.testbit m n).
Qed.

Lemma lxor_u32 a b : is_u32 a -> is_u32 b -> is_u32 (Z.lxor a b).
Proof.
  intros Ha Hb. apply u32_bits.
  - apply Z.lxor_nonneg. lia.
  - rewrite land_lxor_distr.
    by rewrite (proj1 (u32_bits a ltac:(lia)) Ha), (proj1 (u32_bits b ltac:(lia)) Hb).
Qed.

Lemma shiftr1_u32 c : is_u32 c -> 0 <= Z.shiftr c 1 < 2 ^ 31.
Proof.
  intros. rewrite Z.shiftr_div_pow2 by lia. change (2 ^ 1) with 2.
  change (2 ^ 31) with 2147483648. split; [apply Z.div_pos|apply Z.div_lt_upper_bound]; lia.
Qed.

Lemma shiftr1_testbit31 c : is_u32 c -> Z.testbit (Z.shiftr c 1) 31 = false.
Proof.
  intros H. apply shiftr1_u32 in H. rewrite <- (Z.mod_small _ _ H).
  by apply Z.mod_pow2_bits_high.
Qed.

(** A polynomial of degree 32 in reflected form has its top bit set. *)
Definition crc_poly_ok (poly : Z) : Prop := is_u32 poly /\ Z.testbit poly 31 = true.

Lemma crc_IEEE_ok : crc_poly_ok crc_IEEE.
Proof. split; [unfold crc_IEEE; lia|done]. Qed.
Lemma crc_Castagnoli_ok : crc_poly_ok crc_Castagnoli.
Proof. split; [unfold crc_Castagnoli; lia|done]. Qed.
#[export] Hint Resolve crc_IEEE_ok crc_Castagnoli_ok : go.

Section crc.
Context (poly : Z) (Hpoly : crc_poly_ok poly).

Lemma crc_shift_u32 c : is_u32 c -> is_u32 (crc_shift poly c).
Proof.
  intros Hc. pose proof (shiftr1_u32 c Hc). change (2 ^ 31) with 2147483648 in *.
  unfold crc_shift. destruct (Z.odd c); [|lia].
  apply lxor_u32; [lia|apply Hpoly].
Qed.

Lemma crc_shift_testbit c : is_u32 c -> Z.testbit (crc_shift poly c) 31 = Z.odd c.
Proof.
  intros Hc. unfold crc_shift. destruct (Z.odd c).
  - by rewrite Z.lxor_spec, shiftr1_testbit31, (proj2 Hpoly).
  - by apply shiftr1_testbit31.
Qed.

Lemma crc_shift_inj c d :
  is_u32 c -> is_u32 d -> crc_shift poly c = crc_shift poly d -> c = d.
Proof.
  intros Hc Hd Heq.
  assert (Hodd : Z.odd c = Z.odd d).
  { by rewrite <- (crc_shift_testbit c Hc), <- (crc_shift_testbit d Hd), Heq. }
  unfold crc_shift in Heq. rewrite Hodd in Heq.
  assert (Hs : Z.shiftr c 1 = Z.shiftr d 1).
  { destruct (Z.odd d); [|done].
    by rewrite <- (Z.lxor_0_r (Z.shiftr c 1)), <- (Z.lxor_0_r (Z.shiftr d 1)),
      <- (Z.lxor_nilpotent poly), <- !Z.lxor_assoc, Heq. }
  rewrite <- !Z.div2_spec in Hs.
  rewrite (Z.div2_odd c), (Z.div2_odd d). by rewrite Hs, Hodd.
Qed.

Lemma crc_iter_u32 n c : is_u32 c -> is_u32 (Nat.iter n (crc_shift poly) c).
Proof. intros Hc. induction n; [done|]. simpl. by apply crc_shift_u32. Qed.

Lemma crc_iter_inj n c d :
  is_u32 c -> is_u32 d ->
  Nat.iter n (crc_shift poly) c = Nat.iter n (crc_shift poly) d -> c = d.
Proof.
  intros Hc Hd. induction n as [|n IH]; [done|]. simpl. intros Heq.
  apply IH. apply crc_shift_inj; [by apply crc_iter_u32..|done].
Qed.

Lemma crc_step_u32 c b : is_u32 c -> is_byte b -> is_u32 (crc_step poly c b).
Proof. intros. apply crc_iter_u32, lxor_u32; lia. Qed.

Lemma crc_fold_u32 data c :
  byte_list data -> is_u32 c -> is_u32 (fold_left (crc_step poly) data c).
Proof.
  revert c. induction data as [|b data IH]; intros c Hd Hc; [done|].
  inversion Hd; subst. simpl. apply IH; [done|]. by apply crc_step_u32.
Qed.

Lemma crc32_range data : byte_list data -> is_u32 (crc32 poly data).
Proof. intros. apply lxor_u32; [|lia]. apply crc_fold_u32; [done|lia]. Qed.

Lemma lxor_cancel_l a b c : Z.lxor a b = Z.lxor a c -> b = c.
Proof.
  intros H. rewrite <- (Z.lxor_0_l b), <- (Z.lxor_0_l c), <- (Z.lxor_nilpotent a).
  by rewrite !Z.lxor_assoc, H.
Qed.

Lemma crc_step_inj_byte c b b' :
  is_u32 c -> is_byte b -> is_byte b' -> crc_step poly c b = crc_step poly c b' -> b = b'.
Proof.
  intros Hc Hb Hb' Heq. apply (lxor_cancel_l c).
  apply (crc_iter_inj 8); [apply lxor_u32; lia..|exact Heq].
Qed.

Lemma crc_step_inj_state c d b :
  is_u32 c -> is_u32 d -> is_byte b -> crc_step poly c b = crc_step poly d b -> c = d.
Proof.
  intros Hc Hd Hb Heq. apply (lxor_cancel_l b). rewrite !(Z.lxor_comm b).
  apply (crc_iter_inj 8); [apply lxor_u32; lia..|exact Heq].
Qed.

Lemma crc_fold_inj data c d :
  byte_list data -> is_u32 c -> is_u32 d ->
  fold_left (crc_step poly) data c = fold_left (crc_step poly) data d -> c = d.
Proof.
  revert c d. induction data as [|b data IH]; intros c d Hdata Hc Hd Heq; [done|].
  inversion Hdata; subst. simpl in Heq. apply (crc_step_inj_state c d b); [done..|].
  apply IH; [done|by apply crc_step_u32..|done].
Qed.

(** Two inputs that differ in exactly one byte have different checksums. *)
Lemma crc32_detects_one_byte pre b b' post :
  byte_list pre -> byte_list post -> is_byte b -> is_byte b' -> b <> b' ->
  crc32 poly (pre ++ b :: post) <> crc32 poly (pre ++ b' :: post).
Proof.
  intros Hpre Hpost Hb Hb' Hne Heq. apply Hne. unfold crc32 in Heq.
  rewrite !(Z.lxor_comm _ 0xFFFFFFFF) in Heq. apply lxor_cancel_l in Heq.
  rewrite !fold_left_app in Heq. simpl in Heq.
  set (c := fold_left (crc_step poly) pre 0xFFFFFFFF) in *.
  assert (Hc : is_u32 c) by (apply crc_fold_u32; [done|lia]).
  apply (crc_step_inj_byte c); [done..|].
  apply (crc_fold_inj post); [done|by apply crc_step_u32..|done].
Qed.
End crc.
