(* ===== verification/Text.v ===== *)
(** * Text: hash/fnv, encoding/hex and strconv on Go strings

    A Go string is a Rocq [string]; [string_bytes] is the conversion
    [[]byte(s)]. *)

From S2P Require Import Prelude Bytes.

Definition ascii_Z (a : Ascii.ascii) : Z := Z.of_N (Ascii.N_of_ascii a).

Fixpoint string_bytes (s : string) : bytes :=
  match s with
  | EmptyString => []
  | String a s' => ascii_Z a :: string_bytes s'
  end.

Lemma ascii_Z_range a : is_byte (ascii_Z a).
Proof. unfold ascii_Z. pose proof (Ascii.N_ascii_bounded a). lia. Qed.

Lemma string_bytes_range s : byte_list (string_bytes s).
Proof. induction s; simpl; constructor; auto using ascii_Z_range. Qed.

(** The conversion [string(b)]. *)
Fixpoint bytes_string (l : bytes) : string :=
  match l with
  | [] => EmptyString
  | b :: l => String (Ascii.ascii_of_N (Z.to_N b)) (bytes_string l)
  end.

Lemma bytes_string_bytes s : bytes_string (string_bytes s) = s.
Proof.
  induction s as [|a s IH]; [done|]. cbn [string_bytes bytes_string]. rewrite IH. f_equal. unfold ascii_Z.
  by rewrite N2Z.id, Ascii.ascii_N_embedding.
Qed.

(** ** UTF-8 in encoding/json

    A Go string may hold any bytes.  [json.Marshal] reads it rune by rune with [utf8.DecodeRune] and writes U+FFFD for every
    byte that begins no valid encoding; what [json.Unmarshal] returns is the text so coerced. *)

Definition cont_byte (b : Z) : bool := (128 <=? b) && (b <=? 191).

(** The two-byte beginnings of the longer encodings; overlong forms, surrogates and values above U+10FFFF are not valid. *)
Definition rune2 (a b : Z) : bool := (194 <=? a) && (a <=? 223) && cont_byte b.
Definition rune3 (a b : Z) : bool :=
  ((a =? 224) && (160 <=? b) && (b <=? 191)) || ((225 <=? a) && (a <=? 239) && negb (a =? 237) && cont_byte b) ||
  ((a =? 237) && (128 <=? b) && (b <=? 159)).
Definition rune4 (a b : Z) : bool :=
  ((a =? 240) && (144 <=? b) && (b <=? 191)) || ((241 <=? a) && (a <=? 243) && cont_byte b) || ((a =? 244) && (128 <=? b) && (b <=? 143)).

Definition replacement : bytes := [239; 191; 189].

Fixpoint utf8_coerce (s : bytes) : bytes :=
  match s with
  | [] => []
  | a :: s1 =>
      if a <? 128 then a :: utf8_coerce s1
      else
        match s1 with
        | b :: s2 =>
            if rune2 a b then a :: b :: utf8_coerce s2
            else
              match s2 with
              | c :: s3 =>
                  if rune3 a b && cont_byte c then a :: b :: c :: utf8_coerce s3
                  else
                    match s3 with
                    | d :: s4 =>
                        if rune4 a b && cont_byte c && cont_byte d then a :: b :: c :: d :: utf8_coerce s4
                        else replacement ++ utf8_coerce s1
                    | [] => replacement ++ utf8_coerce s1
                    end
              | [] => replacement ++ utf8_coerce s1
              end
        | [] => replacement
        end
  end.

Definition utf8_valid (s : bytes) : Prop := utf8_coerce s = s.
Definition coerce_string (s : string) : string := bytes_string (utf8_coerce (string_bytes s)).

Lemma utf8_ascii s : Forall (fun b => b < 128) s -> utf8_valid s.
Proof.
  unfold utf8_valid. induction 1 as [|b s Hb _ IH]; [done|]. cbn [utf8_coerce]. rewrite (proj2 (Z.ltb_lt b 128)) by lia. by rewrite IH.
Qed.

Lemma coerce_valid s : utf8_valid (string_bytes s) -> coerce_string s = s.
Proof. unfold coerce_string, utf8_valid. intros ->. apply bytes_string_bytes. Qed.

Example utf8_coerce_values :
  utf8_valid [226; 130; 172] /\ utf8_valid [240; 159; 152; 128] /\ utf8_coerce [97; 255; 98] = [97; 239; 191; 189; 98] /\
  utf8_coerce [237; 160; 128] = replacement ++ replacement ++ replacement /\ utf8_coerce [192; 128] = replacement ++ replacement.
Proof. by vm_compute. Qed.

(** ** hash/fnv: [New32a], [Write], [Sum32] *)

Definition fnv32a_offset : Z := 2166136261.
Definition fnv32a_prime : Z := 16777619.

Definition fnv32a (data : bytes) : Z :=
  fold_left (fun h b => u32 (Z.lxor h b * fnv32a_prime)) data fnv32a_offset.

Lemma fnv32a_range data : is_u32 (fnv32a data).
Proof.
  unfold fnv32a. induction data as [|b data IH] using rev_ind.
  - simpl. unfold fnv32a_offset. lia.
  - rewrite fold_left_app. apply u32_range.
Qed.

(** ** Hexadecimal digits *)

Definition hex_char (d : Z) : Ascii.ascii :=
  Ascii.ascii_of_N (Z.to_N (if d <? 10 then 48 + d else 87 + d)).

Definition from_hex_char (a : Ascii.ascii) : option Z :=
  let c := ascii_Z a in
  if (48 <=? c) && (c <=? 57) then Some (c - 48)
  else if (97 <=? c) && (c <=? 102) then Some (c - 87)
  else if (65 <=? c) && (c <=? 70) then Some (c - 55)
  else None.

Lemma from_hex_char_hex d : 0 <= d < 16 -> from_hex_char (hex_char d) = Some d.
Proof.
  intros Hd.
  assert (HF : forallb (fun d => bool_decide (from_hex_char (hex_char d) = Some d))
                 (seqZ 0 16) = true) by (vm_compute; done).
  rewrite forallb_forall in HF. specialize (HF d).
  rewrite <- list_elem_of_In, elem_of_seqZ in HF.
  specialize (HF ltac:(lia)). by bool_to_Prop.
Qed.

Lemma from_hex_char_range a d : from_hex_char a = Some d -> 0 <= d < 16.
Proof. unfold from_hex_char. repeat case_if; intros; simplify_eq; lia. Qed.

(** ** encoding/hex *)

Fixpoint hex_EncodeToString (l : bytes) : string :=
  match l with
  | [] => EmptyString
  | b :: l' =>
      String (hex_char (Z.shiftr b 4)) (String (hex_char (Z.land b 15)) (hex_EncodeToString l'))
  end.

Fixpoint hex_DecodeString (s : string) : option bytes :=
  match s with
  | EmptyString => Some []
  | String a (String b s') =>
      match from_hex_char a, from_hex_char b, hex_DecodeString s' with
      | Some hi, Some lo, Some l => Some (Z.lor (Z.shiftl hi 4) lo :: l)
      | _, _, _ => None
      end
  | String _ EmptyString => None
  end.

Lemma hex_char_ascii d : 0 <= d < 16 -> ascii_Z (hex_char d) < 128.
Proof.
  intros Hd. assert (HF : forallb (fun d => ascii_Z (hex_char d) <? 128) (seqZ 0 16) = true) by (vm_compute; done).
  rewrite forallb_forall in HF. specialize (HF d). rewrite <- list_elem_of_In, elem_of_seqZ in HF. specialize (HF ltac:(lia)). lia.
Qed.

Lemma nibbles b : is_byte b ->
  0 <= Z.shiftr b 4 < 16 /\ 0 <= Z.land b 15 < 16 /\
  Z.lor (Z.shiftl (Z.shiftr b 4) 4) (Z.land b 15) = b.
Proof.
  intros Hb.
  assert (HF : forallb (fun b => (0 <=? Z.shiftr b 4) && (Z.shiftr b 4 <? 16) &&
            (0 <=? Z.land b 15) && (Z.land b 15 <? 16) &&
            (Z.lor (Z.shiftl (Z.shiftr b 4) 4) (Z.land b 15) =? b)) (seqZ 0 256) = true)
    by (vm_compute; done).
  rewrite forallb_forall in HF. specialize (HF b).
  rewrite <- list_elem_of_In, elem_of_seqZ in HF.
  specialize (HF ltac:(lia)). bool_to_Prop. done.
Qed.

Lemma hex_decode_encode l : byte_list l -> hex_DecodeString (hex_EncodeToString l) = Some l.
Proof.
  induction 1 as [|b l Hb Hl IH]; [done|].
  destruct (nibbles b Hb) as (? & ? & Hlor).
  cbn [hex_EncodeToString hex_DecodeString].
  by rewrite !from_hex_char_hex, IH, Hlor.
Qed.

Lemma hex_valid l : byte_list l -> coerce_string (hex_EncodeToString l) = hex_EncodeToString l.
Proof.
  intros Hl. apply coerce_valid, utf8_ascii. induction Hl as [|b l Hb _ IH]; cbn [hex_EncodeToString string_bytes]; [constructor|].
  destruct (nibbles b Hb) as (? & ? & _). by repeat constructor; [apply hex_char_ascii..|].
Qed.

Lemma hex_decode_length s l :
  hex_DecodeString s = Some l -> String.length s = (2 * length l)%nat.
Proof.
  revert l. induction s as [s IH] using (induction_ltof1 _ String.length).
  destruct s as [|a [|b s]]; intros l Hl; simpl in Hl; simplify_eq; [done|].
  repeat break_match; simplify_eq. simpl.
  rewrite (IH s) with (l := l0); [lia| |done]. unfold ltof. simpl. lia.
Qed.

(** ** [fmt.Sprintf("%0nx", v)] for a value of [n] hex digits *)

Fixpoint format_hex (n : nat) (v : Z) : string :=
  match n with
  | O => EmptyString
  | S n' => String (hex_char (Z.land (Z.shiftr v (4 * Z.of_nat n')) 15)) (format_hex n' v)
  end.

(** ** [strconv.ParseUint(s, 16, 32)] *)

Inductive num_error := ErrSyntax | ErrRange.

Fixpoint parse_hex_digits (s : string) (acc maxVal : Z) : outcome num_error Z :=
  match s with
  | EmptyString => Ok acc
  | String a s' =>
      match from_hex_char a with
      | None => Err ErrSyntax
      | Some d =>
          if maxVal <? acc * 16 + d then Err ErrRange
          else parse_hex_digits s' (acc * 16 + d) maxVal
      end
  end.

Definition ParseUint16_32 (s : string) : outcome num_error Z :=
  match s with
  | EmptyString => Err ErrSyntax
  | _ => parse_hex_digits s 0 (2 ^ 32 - 1)
  end.

Lemma nibble_div v n : Z.land (Z.shiftr v (4 * Z.of_nat n)) 15 = (v / 16 ^ Z.of_nat n) mod 16.
Proof.
  change 15 with (Z.ones 4). rewrite Z.land_ones, Z.shiftr_div_pow2 by lia.
  by rewrite Z.pow_mul_r by lia.
Qed.

Lemma parse_format_hex n v acc maxVal :
  0 <= acc -> acc * 16 ^ Z.of_nat n + v mod 16 ^ Z.of_nat n <= maxVal ->
  parse_hex_digits (format_hex n v) acc maxVal
  = Ok (acc * 16 ^ Z.of_nat n + v mod 16 ^ Z.of_nat n).
Proof.
  revert acc. induction n as [|n IH]; intros acc Hacc Hmax.
  - simpl. rewrite Z.mod_1_r. f_equal. lia.
  - cbn [format_hex parse_hex_digits]. rewrite nibble_div.
    set (d := (v / 16 ^ Z.of_nat n) mod 16).
    assert (Hd : 0 <= d < 16) by (apply Z.mod_pos_bound; lia).
    rewrite from_hex_char_hex by done.
    assert (Hp : 0 < 16 ^ Z.of_nat n) by (apply Z.pow_pos_nonneg; lia).
    assert (Hm := Z.mod_pos_bound v (16 ^ Z.of_nat n) Hp).
    assert (Hstep : acc * 16 ^ Z.of_nat (S n) + v mod 16 ^ Z.of_nat (S n)
                    = (acc * 16 + d) * 16 ^ Z.of_nat n + v mod 16 ^ Z.of_nat n).
    { rewrite Nat2Z.inj_succ, Z.pow_succ_r by lia.
      rewrite (Z.mul_comm 16 (16 ^ Z.of_nat n)), Z.rem_mul_r by lia. fold d. lia. }
    rewrite Hstep in Hmax |- *.
    rewrite (proj2 (Z.ltb_ge _ _)) by nia. apply IH; [lia|done].
Qed.

Lemma ParseUint_format v : is_u32 v -> ParseUint16_32 (format_hex 8 v) = Ok v.
Proof.
  intros Hv. unfold ParseUint16_32.
  change (parse_hex_digits (format_hex 8 v) 0 (2 ^ 32 - 1) = Ok v).
  rewrite parse_format_hex; change (16 ^ Z.of_nat 8) with 4294967296.
  - by rewrite Z.mul_0_l, Z.mod_small.
  - lia.
  - change (2 ^ 32) with 4294967296. rewrite Z.mod_small; lia.
Qed.

Lemma parse_hex_digits_range s acc m v :
  0 <= acc <= m -> parse_hex_digits s acc m = Ok v -> 0 <= v <= m.
Proof.
  revert acc. induction s as [|a s IH]; intros acc Hacc Hv; simpl in Hv.
  - by inv_ok.
  - destruct (from_hex_char a) eqn:Ha; [|done]. apply from_hex_char_range in Ha.
    case_if; [done|]. eapply IH; [|done]. lia.
Qed.

Lemma ParseUint_range s v : ParseUint16_32 s = Ok v -> is_u32 v.
Proof.
  unfold ParseUint16_32. destruct s; [done|]. intros H.
  apply parse_hex_digits_range in H; change (2 ^ 32) with 4294967296 in *; lia.
Qed.

(** [strings.ToLower], as far as it decides whether the result is one of the ASCII words the
    program compares with: outside ASCII, only U+0130 has a letter of theirs as its lower case. *)
Fixpoint ToLower (s : bytes) : bytes :=
  match s with
  | [] => []
  | 196 :: 176 :: s => 105 :: ToLower s
  | a :: s => (if (65 <=? a) && (a <=? 90) then a + 32 else a) :: ToLower s
  end.
