(* ===== verification/Durations.v ===== *)
(** * Durations: time.ParseDuration

    The part of Go's package time the configuration relies on, with its 64-bit
    arithmetic.  Fractions are computed in float64 as Go does, on
    the Standard Library's specification of binary64 ([SpecFloat]). *)

From Stdlib Require Import SpecFloat.
From S2P Require Import Prelude Bytes Text.

(** ** float64 *)

Definition f64_of_Z (z : Z) : spec_float := binary_normalize 53 1024 z 0 false.
Definition f64_mul : spec_float -> spec_float -> spec_float := SFmul 53 1024.
Definition f64_div : spec_float -> spec_float -> spec_float := SFdiv 53 1024.

(** [uint64(x)] for a finite [x] that is not negative: truncation. *)
Definition f64_to_u64 (x : spec_float) : Z :=
  match x with
  | S754_finite _ m e => u64 (Z.shiftl (Zpos m) e)
  | _ => 0
  end.

(** ** Scanning *)

Definition is_digit (c : Z) : bool := (48 <=? c) && (c <=? 57).

(** [leadingInt]: [None] is errLeadingInt. *)
Fixpoint leadingInt_from (x : Z) (s : bytes) : option (Z * bytes) :=
  match s with
  | [] => Some (x, [])
  | c :: s' =>
      if negb (is_digit c) then Some (x, s)
      else if 2 ^ 63 / 10 <? x then None
      else
        let x := u64 (x * 10 + c - 48) in
        if 2 ^ 63 <? x then None else leadingInt_from x s'
  end.

Definition leadingInt (s : bytes) : option (Z * bytes) := leadingInt_from 0 s.

Fixpoint leadingFraction_from (x : Z) (scale : spec_float) (overflow : bool) (s : bytes)
  : Z * spec_float * bytes :=
  match s with
  | [] => (x, scale, [])
  | c :: s' =>
      if negb (is_digit c) then (x, scale, s)
      else if overflow then leadingFraction_from x scale true s'
      else if (2 ^ 63 - 1) / 10 <? x then leadingFraction_from x scale true s'
      else
        let y := u64 (x * 10 + c - 48) in
        if 2 ^ 63 <? y then leadingFraction_from x scale true s'
        else leadingFraction_from y (f64_mul scale (f64_of_Z 10)) false s'
  end.

Definition leadingFraction (s : bytes) : Z * spec_float * bytes :=
  leadingFraction_from 0 (f64_of_Z 1) false s.

(** The longest prefix without a digit or a period, and the rest. *)
Fixpoint span_unit (s : bytes) : bytes * bytes :=
  match s with
  | [] => ([], [])
  | c :: s' =>
      if (c =? 46) || is_digit c then ([], s)
      else let '(u, r) := span_unit s' in (c :: u, r)
  end.

(** [unitMap]; the two micro signs are U+00B5 and U+03BC. *)
Definition unitMap (u : bytes) : option Z :=
  if bool_decide (u = string_bytes "ns") then Some 1
  else if bool_decide (u = string_bytes "us") then Some 1000
  else if bool_decide (u = [194; 181; 115]) then Some 1000
  else if bool_decide (u = [206; 188; 115]) then Some 1000
  else if bool_decide (u = string_bytes "ms") then Some 1000000
  else if bool_decide (u = string_bytes "s") then Some 1000000000
  else if bool_decide (u = string_bytes "m") then Some 60000000000
  else if bool_decide (u = string_bytes "h") then Some 3600000000000
  else None.

(** One round of the loop: a number with its unit; the value in nanoseconds and
    the rest of the text. *)
Definition duration_term (s : bytes) : option (Z * bytes) :=
  match s with
  | [] => None
  | c :: _ =>
      if negb ((c =? 46) || is_digit c) then None
      else
        match leadingInt s with
        | None => None
        | Some (v, s1) =>
            let pre := negb (Nat.eqb (length s) (length s1)) in
            let '(f, scale, s2, post) :=
              match s1 with
              | 46 :: s1' =>
                  let '(f, scale, s2) := leadingFraction s1' in
                  (f, scale, s2, negb (Nat.eqb (length s1') (length s2)))
              | _ => (0, f64_of_Z 1, s1, false)
              end in
            if negb pre && negb post then None
            else
              let '(u, s3) := span_unit s2 in
              match u with
              | [] => None
              | _ =>
                  match unitMap u with
                  | None => None
                  | Some unit =>
                      if 2 ^ 63 / unit <? v then None
                      else
                        let v := u64 (v * unit) in
                        let v' := if 0 <? f
                                  then u64 (v + f64_to_u64 (f64_mul (f64_of_Z f)
                                                              (f64_div (f64_of_Z unit) scale)))
                                  else v in
                        if (0 <? f) && (2 ^ 63 <? v') then None else Some (v', s3)
                  end
              end
        end
  end.

(** The loop over the terms; every round consumes its unit, so the length of the
    text is enough fuel. *)
Fixpoint duration_terms (fuel : nat) (d : Z) (s : bytes) : option Z :=
  match s, fuel with
  | [], _ => Some d
  | _, O => None
  | _, S fuel =>
      match duration_term s with
      | None => None
      | Some (v, s') =>
          let d := u64 (d + v) in
          if 2 ^ 63 <? d then None else duration_terms fuel d s'
      end
  end.

Definition duration_sign (s : bytes) : bool * bytes :=
  match s with
  | c :: s' => if (c =? 45) || (c =? 43) then (c =? 45, s') else (false, s)
  | [] => (false, [])
  end.

Definition ParseDuration (text : string) : option Z :=
  let '(neg, s) := duration_sign (string_bytes text) in
  if bool_decide (s = [48]) then Some 0
  else if bool_decide (s = []) then None
  else
    match duration_terms (length s) 0 s with
    | None => None
    | Some d =>
        if neg then Some (i64 (- i64 d))
        else if 2 ^ 63 - 1 <? d then None else Some (i64 d)
    end.

(** ** Facts *)

Lemma i64_range z : - 2 ^ 63 <= i64 z < 2 ^ 63.
Proof. unfold i64. pose proof (Z.mod_pos_bound (z + 2 ^ 63) (2 ^ 64)). lia. Qed.

Lemma ParseDuration_range s d : ParseDuration s = Some d -> - 2 ^ 63 <= d < 2 ^ 63.
Proof.
  unfold ParseDuration. destruct (duration_sign _) as [neg t].
  repeat case_match; intros; simplify_eq; auto using i64_range; lia.
Qed.

Lemma leadingInt_from_suffix x s v r : leadingInt_from x s = Some (v, r) -> (length r <= length s)%nat.
Proof.
  revert x. induction s as [|c s IH]; intros x; cbn [leadingInt_from].
  - intros [= <- <-]. done.
  - repeat case_match; intros; simplify_eq; cbn; [lia|].
    match goal with H : leadingInt_from _ _ = _ |- _ => apply IH in H; lia end.
Qed.

Lemma leadingFraction_from_suffix x sc o s :
  (length (leadingFraction_from x sc o s).2 <= length s)%nat.
Proof.
  revert x sc o. induction s as [|c s IH]; intros x sc o; cbn [leadingFraction_from]; [done|].
  repeat case_match; cbn; try lia; etrans; try apply IH; lia.
Qed.

Lemma span_unit_suffix s : length s = (length (span_unit s).1 + length (span_unit s).2)%nat.
Proof.
  induction s as [|c s IH]; cbn; [done|]. case_match; [done|].
  destruct (span_unit s). cbn in *. lia.
Qed.

(** Every round consumes text: the fuel of [ParseDuration] is enough. *)
Lemma duration_term_shrinks s v r : duration_term s = Some (v, r) -> (length r < length s)%nat.
Proof.
  unfold duration_term. destruct s as [|c s]; [done|]. case_match; [done|].
  destruct (leadingInt (c :: s)) as [[v0 s1]|] eqn:Hi; [|done].
  apply leadingInt_from_suffix in Hi.
  set (mid := match s1 with 46 :: _ => _ | _ => _ end).
  assert (Hm : (length mid.1.2 <= length s1)%nat).
  { unfold mid. repeat case_match; cbn; try lia.
    match goal with H : leadingFraction ?t = _ |- _ =>
      pose proof (leadingFraction_from_suffix 0 (f64_of_Z 1) false t) as Hf;
      unfold leadingFraction in H; rewrite H in Hf; cbn in Hf; lia end. }
  destruct mid as [[[f scale] s2] post]. cbn [fst snd] in Hm. case_match; [done|].
  pose proof (span_unit_suffix s2) as Hs. destruct (span_unit s2) as [u s3].
  cbn [fst snd] in Hs. destruct u as [|b u]; [done|]. cbn [length] in Hs.
  repeat case_match; intros; simplify_eq; lia.
Qed.

Lemma duration_terms_fuel n m d s :
  (length s <= n)%nat -> (length s <= m)%nat -> duration_terms n d s = duration_terms m d s.
Proof.
  revert m d s. induction n as [|n IH]; intros m d s Hn Hm.
  - destruct s; [by destruct m|cbn in Hn; lia].
  - destruct s as [|c s]; [by destruct m|]. destruct m as [|m]; [cbn in Hm; lia|].
    cbn [duration_terms]. destruct (duration_term (c :: s)) as [[v r]|] eqn:Ht; [|done].
    apply duration_term_shrinks in Ht. case_match; [done|]. apply IH; lia.
Qed.

Example ParseDuration_units :
  map ParseDuration ["1h15m30.918273645s"; "-1.5h"; "100ms"; "0"; ".5s"; "10"; ""; "3000000h"; "1d"]
  = [Some 4530918273645; Some (-5400000000000); Some 100000000; Some 0; Some 500000000; None; None;
     None; None].
Proof. vm_compute. reflexivity. Qed.
