(* ===== verification/Crypto.v ===== *)
(** * Crypto: the v2 record layer (internal/crypto/chacha.go)

    [KeySet] owns one directional sender (key, nonce prefix, counter) and the
    replay cache of the receiving direction.  XChaCha20-Poly1305 and HKDF come
    from golang.org/x/crypto and are parameters of the model ([CipherSuite]);
    random bytes are arguments.  Operations of the cache run under its mutex and
    are atomic steps here; the lock-free counter is treated at the level of its
    individual atomic instructions in [CounterRace]. *)

From S2P Require Import Prelude Bytes Text.

(** ** golang.org/x/crypto *)

Definition KeySize : Z := 32.
Definition NonceSizeX : Z := 24.
Definition Overhead : Z := 16.

(** [aead_seal key nonce plaintext aad] is what [chacha20poly1305.NewX(key)]'s
    [Seal] appends to its destination, [aead_open] the plaintext its [Open]
    appends, [None] for an authentication failure; [hkdf_key psk label] the 32
    bytes read from [hkdf.New(sha256.New, psk, nil, label)]. *)
Class CipherSuite : Type := {
  aead_seal : bytes -> bytes -> bytes -> bytes -> bytes;
  aead_open : bytes -> bytes -> bytes -> bytes -> option bytes;
  hkdf_key : bytes -> bytes -> option bytes;
}.

(** The documented contract of [cipher.AEAD]: [Open] inverts [Seal] under the
    same key, nonce and additional data, the ciphertext is [Overhead] bytes
    longer than the plaintext; [hkdf] yields the requested number of bytes. *)
Class CipherLaws (C : CipherSuite) : Prop := {
  aead_open_seal key nonce pt aad :
    aead_open key nonce (aead_seal key nonce pt aad) aad = Some pt;
  aead_seal_length key nonce pt aad :
    len (aead_seal key nonce pt aad) = len pt + Overhead;
  hkdf_key_length psk label key :
    hkdf_key psk label = Some key -> len key = KeySize;
}.

(** ** Constants and errors *)

(* go: crypto/chacha.go 26-33 recordMagic *)
Definition recordMagic : bytes := [79; 76; 67; 50].
(* go: crypto/chacha.go 27-27 clientToServerLabel *)
Definition clientToServerLabel : bytes := string_bytes "olcrtc/v2/client-to-server".
(* go: crypto/chacha.go 28-28 serverToClientLabel *)
Definition serverToClientLabel : bytes := string_bytes "olcrtc/v2/server-to-client".
(* go: crypto/chacha.go 30-30 noncePrefixSize *)
Definition noncePrefixSize : Z := NonceSizeX - 8.
(* go: crypto/chacha.go 31-31 recordHeaderSize *)
Definition recordHeaderSize : Z := len recordMagic + 8 + noncePrefixSize.
(* go: crypto/chacha.go 32-32 replayWindowSize *)
Definition replayWindowSize : Z := 64.
(* go: crypto/chacha.go 33-33 maxReplaySenders *)
Definition maxReplaySenders : Z := 256.
(* go: crypto/chacha.go 35-36 WireOverhead *)
Definition WireOverhead : Z := recordHeaderSize + Overhead.

(* go: crypto/chacha.go 39-59 Err* *)
Inductive crypto_error :=
| ErrInvalidKeySize
| ErrInvalidRole
| ErrRecordTooShort
| ErrBadRecordMagic
| ErrInvalidCounter
| ErrAuthentication
| ErrReplayDuplicate
| ErrReplayTooOld
| ErrCounterExhausted
| ErrDerive
| ErrCipherInit
| ErrRandom.

#[export] Instance crypto_error_eq_dec : EqDecision crypto_error.
Proof. solve_decision. Defined.

(* go: crypto/chacha.go 75-83 Role *)
Inductive Role := Client | Server | OtherRole (r : Z).

(** ** Replay window *)

(* go: crypto/chacha.go 103-108 replayState *)
Record replayState := ReplayState {
  highest : Z;
  seen : Z;
}.

(** [lru] is the [container/list], front first.  A list element holds the
    [*replayState] whose [prefix] never changes, so the element is represented
    by that prefix, and the map by prefix holds the mutable fields. *)
(* go: crypto/chacha.go 110-114 replayCache *)
Record replayCache := ReplayCache {
  senders : gmap bytes replayState;
  lru : list bytes;
}.

(** [list.MoveToFront] of the element of [p], and [list.Remove] of the back. *)
Definition MoveToFront (p : bytes) (l : list bytes) : list bytes :=
  p :: filter (fun q => q <> p) l.
Definition RemoveBack (l : list bytes) : list bytes := take (length l - 1) l.

(* go: crypto/chacha.go 292-304 insert *)
Definition insert_sender (r : replayCache) (prefix : bytes) (counter : Z)
  : replayCache * outcome crypto_error unit :=
  let fresh := ReplayState counter 1 in
  if maxReplaySenders <=? Z.of_nat (size (senders r)) then
    match last (lru r) with
    | None => (r, Panic)
    | Some oldest =>
        (ReplayCache (<[prefix := fresh]> (delete oldest (senders r)))
                     (prefix :: RemoveBack (lru r)), Ok tt)
    end
  else (ReplayCache (<[prefix := fresh]> (senders r)) (prefix :: lru r), Ok tt).

(* go: crypto/chacha.go 260-290 accept *)
Definition accept (r : replayCache) (prefix : bytes) (counter : Z)
  : replayCache * outcome crypto_error unit :=
  match senders r !! prefix with
  | None => insert_sender r prefix counter
  | Some state =>
      if highest state <? counter then
        let shift := u64 (counter - highest state) in
        let seen' := if replayWindowSize <=? shift then 1
                     else Z.lor (u64 (Z.shiftl (seen state) shift)) 1 in
        (ReplayCache (<[prefix := ReplayState counter seen']> (senders r))
                     (MoveToFront prefix (lru r)), Ok tt)
      else
        let age := u64 (highest state - counter) in
        if replayWindowSize <=? age then (r, Err ErrReplayTooOld)
        else
          let mask := u64 (Z.shiftl 1 age) in
          if negb (Z.land (seen state) mask =? 0) then (r, Err ErrReplayDuplicate)
          else
            (ReplayCache
               (<[prefix := ReplayState (highest state) (Z.lor (seen state) mask)]> (senders r))
               (MoveToFront prefix (lru r)), Ok tt)
  end.

(** ** Key sets *)

(* go: crypto/chacha.go 97-123 KeySet *)
Record KeySet := MkKeySet {
  send_aead : bytes;
  send_prefix : bytes;
  send_counter : Z;
  receive_aead : bytes;
  replay : replayCache;
}.

Definition set_counter (k : KeySet) (c : Z) : KeySet :=
  MkKeySet (send_aead k) (send_prefix k) c (receive_aead k) (replay k).
Definition set_replay (k : KeySet) (r : replayCache) : KeySet :=
  MkKeySet (send_aead k) (send_prefix k) (send_counter k) (receive_aead k) r.

(** The counter as one uninterrupted run of the compare-and-swap loop. *)
(* go: crypto/chacha.go 213-223 nextCounter *)
Definition nextCounter (counter : Z) : outcome crypto_error Z :=
  if counter =? max_u64 then Err ErrCounterExhausted else Ok (counter + 1).

(** [spare] is the memory between [len(dst)] and [cap(dst)]. *)
(* go: crypto/chacha.go 206-211 appendSpace *)
Definition appendSpace (dst spare : bytes) (size : Z) : bytes :=
  if size <=? len spare then dst ++ take (Z.to_nat size) spare
  else dst ++ replicate (Z.to_nat size) 0.

Section keyset.
Context `{C : CipherSuite}.

(* go: crypto/chacha.go 141-147 deriveKey *)
Definition deriveKey (psk label : bytes) : outcome crypto_error bytes :=
  match hkdf_key psk label with
  | Some key => Ok key
  | None => Err ErrDerive
  end.

(** [chacha20poly1305.NewX]: the key itself stands for the AEAD. *)
Definition NewX (key : bytes) : outcome crypto_error bytes :=
  if len key =? KeySize then Ok key else Err ErrCipherInit.

(** [rnd] is the result of [rand.Read] on the sender prefix. *)
(* go: crypto/chacha.go 149-176 newKeySetForRole *)
Definition newKeySetForRole (clientKey serverKey : bytes) (role : Role) (rnd : option bytes)
  : outcome crypto_error KeySet :=
  let* (sendKey, receiveKey) :=
    match role with
    | Client => Ok (clientKey, serverKey)
    | Server => Ok (serverKey, clientKey)
    | OtherRole _ => Err ErrInvalidRole
    end in
  let* sendAEAD := NewX sendKey in
  let* receiveAEAD := NewX receiveKey in
  match rnd with
  | None => Err ErrRandom
  | Some prefix => Ok (MkKeySet sendAEAD prefix 0 receiveAEAD (ReplayCache ∅ []))
  end.

(* go: crypto/chacha.go 125-139 NewKeySet *)
Definition NewKeySet (psk : bytes) (role : Role) (rnd : option bytes)
  : outcome crypto_error KeySet :=
  if negb (len psk =? KeySize) then Err ErrInvalidKeySize
  else
    let* clientKey := deriveKey psk clientToServerLabel in
    let* serverKey := deriveKey psk serverToClientLabel in
    newKeySetForRole clientKey serverKey role rnd.

(* go: crypto/chacha.go 183-204 SealInto *)
Definition SealInto (k : KeySet) (dst spare plaintext aad : bytes)
  : KeySet * outcome crypto_error bytes :=
  match nextCounter (send_counter k) with
  | Ok counter =>
      let base := length dst in
      let recordLen := recordHeaderSize + len plaintext + Overhead in
      let out := appendSpace dst spare recordLen in
      let out := write_at base recordMagic out in
      let out := write_at (base + length recordMagic) (be_put 8 counter) out in
      let out := write_at (base + length recordMagic + 8) (send_prefix k) out in
      let nonce := send_prefix k ++ be_put 8 counter in
      (set_counter k counter,
       Ok (take (base + Z.to_nat recordHeaderSize) out
           ++ aead_seal (send_aead k) nonce plaintext aad))
  | Err e => (k, Err e)
  | Panic => (k, Panic)
  end.

(* go: crypto/chacha.go 178-181 Seal *)
Definition Seal (k : KeySet) (plaintext aad : bytes) : KeySet * outcome crypto_error bytes :=
  SealInto k [] [] plaintext aad.

(** Everything [OpenInto] does before it consults the replay cache. *)
(* go: crypto/chacha.go 232-253 OpenInto *)
Definition openRecord (k : KeySet) (record aad : bytes)
  : outcome crypto_error (bytes * Z * bytes) :=
  if len record <? WireOverhead then Err ErrRecordTooShort
  else
    let* magic := slice record 0 (len recordMagic) in
    if negb (bool_decide (magic = recordMagic)) then Err ErrBadRecordMagic
    else
      let* tail := slice_from record (len recordMagic) in
      let* counterBytes := slice tail 0 8 in
      let counter := be_get counterBytes in
      if counter =? 0 then Err ErrInvalidCounter
      else
        let* prefix := slice record (len recordMagic + 8) recordHeaderSize in
        let nonce := prefix ++ be_put 8 counter in
        let* body := slice_from record recordHeaderSize in
        match aead_open (receive_aead k) nonce body aad with
        | None => Err ErrAuthentication
        | Some plaintext => Ok (prefix, counter, plaintext)
        end.

(* go: crypto/chacha.go 230-258 OpenInto *)
Definition OpenInto (k : KeySet) (dst record aad : bytes)
  : KeySet * outcome crypto_error bytes :=
  match openRecord k record aad with
  | Err e => (k, Err e)
  | Panic => (k, Panic)
  | Ok (prefix, counter, plaintext) =>
      match accept (replay k) prefix counter with
      | (r, Ok _) => (set_replay k r, Ok (dst ++ plaintext))
      | (r, Err e) => (set_replay k r, Err e)
      | (r, Panic) => (set_replay k r, Panic)
      end
  end.

(* go: crypto/chacha.go 225-228 Open *)
Definition Open (k : KeySet) (record aad : bytes) : KeySet * outcome crypto_error bytes :=
  OpenInto k [] record aad.
End keyset.
