(* ===== verification/CryptoReplay.v ===== *)
(** * CryptoReplay: the replay cache refines a set-based specification

    The specification keeps, for every tracked sender, the set of all counters
    accepted since the sender was (re)admitted, together with the recency order
    used for eviction.  The implementation keeps a maximum and a 64-bit mask.
    This file proves the cache invariant, the simulation between the two, and
    that no counter is accepted twice while its sender stays tracked. *)

From S2P Require Import Prelude Bytes Crypto.

(** ** Specification *)

Record replaySpec := ReplaySpec {
  accepted : gmap bytes (gset Z);
  order : list bytes;
}.

Definition set_max (A : gset Z) : Z := foldr Z.max 0 (elements A).

(** What an ideal 64-entry window answers for counter [c]. *)
Definition verdict (A : gset Z) (c : Z) : outcome crypto_error unit :=
  if set_max A <? c then Ok tt
  else if replayWindowSize <=? set_max A - c then Err ErrReplayTooOld
  else if bool_decide (c ∈ A) then Err ErrReplayDuplicate
  else Ok tt.

Definition spec_accept (a : replaySpec) (p : bytes) (c : Z)
  : replaySpec * outcome crypto_error unit :=
  match accepted a !! p with
  | None =>
      let victim := if maxReplaySenders <=? len (order a) then last (order a) else None in
      let keep := match victim with None => accepted a | Some q => delete q (accepted a) end in
      let rest := match victim with None => order a | Some _ => RemoveBack (order a) end in
      (ReplaySpec (<[p := {[c]}]> keep) (p :: rest), Ok tt)
  | Some A =>
      match verdict A c with
      | Ok _ => (ReplaySpec (<[p := {[c]} ∪ A]> (accepted a)) (MoveToFront p (order a)), Ok tt)
      | e => (a, e)
      end
  end.

(** ** Cache invariant *)

Record cache_ok (r : replayCache) : Prop := {
  co_nodup : NoDup (lru r);
  co_dom : forall p, p ∈ lru r <-> is_Some (senders r !! p);
  co_bound : len (lru r) <= maxReplaySenders;
}.

Lemma empty_cache_ok : cache_ok (ReplayCache ∅ []).
Proof.
  split; simpl; [constructor| |done].
  intros p. rewrite lookup_empty. split; [set_solver|by intros []].
Qed.

Lemma cache_size r : cache_ok r -> size (senders r) = length (lru r).
Proof.
  intros [Hnd Hdom _]. rewrite <- size_dom.
  replace (dom (senders r)) with (list_to_set (lru r) : gset bytes).
  - by apply size_list_to_set.
  - apply set_eq. intros p. by rewrite elem_of_list_to_set, elem_of_dom, Hdom.
Qed.

Lemma MoveToFront_in p q l : p ∈ l -> q ∈ MoveToFront p l <-> q ∈ l.
Proof.
  intros Hp. unfold MoveToFront. rewrite elem_of_cons, list_elem_of_filter.
  destruct (decide (q = p)); naive_solver.
Qed.

Lemma MoveToFront_NoDup p l : NoDup l -> NoDup (MoveToFront p l).
Proof.
  intros. constructor; [|by apply NoDup_filter].
  rewrite list_elem_of_filter. naive_solver.
Qed.

Lemma MoveToFront_length p l : NoDup l -> p ∈ l -> length (MoveToFront p l) = length l.
Proof.
  intros Hnd Hp. apply Permutation_length, NoDup_Permutation; auto using MoveToFront_NoDup.
  intros q. by apply MoveToFront_in.
Qed.

Lemma RemoveBack_snoc l p : RemoveBack (l ++ [p]) = l.
Proof. unfold RemoveBack. rewrite length_app. simpl. apply take_app_exact. lia. Qed.

(** [last l = Some p] in the form the list lemmas want. *)
Lemma last_snoc_inv (l : list bytes) p : last l = Some p -> exists l', l = l' ++ [p].
Proof. rewrite last_Some. eauto. Qed.

Lemma insert_ok r p c :
  cache_ok r -> senders r !! p = None ->
  cache_ok (insert_sender r p c).1 /\ (insert_sender r p c).2 = Ok tt.
Proof.
  intros Hok Hp. assert (Hsize := cache_size r Hok). destruct Hok as [Hnd Hdom Hb].
  assert (Hnotin : p ∉ lru r) by (rewrite Hdom, Hp; by intros []).
  unfold insert_sender. case_if.
  - destruct (last (lru r)) as [q|] eqn:Hlast.
    + apply last_snoc_inv in Hlast as [l Hl].
      split; [|done]. simpl. rewrite Hl in *. rewrite RemoveBack_snoc.
      apply NoDup_app in Hnd as (Hndl & Hq & _).
      split; simpl.
      * constructor; [set_solver|done].
      * intros x. rewrite elem_of_cons.
        destruct (decide (x = p)) as [->|Hxp]; [simplify_map_eq; naive_solver|].
        rewrite lookup_insert_ne by done. specialize (Hdom x).
        destruct (decide (x = q)) as [->|Hxq]; [simplify_map_eq; set_solver|].
        rewrite lookup_delete_ne by done. rewrite <- Hdom. set_solver.
      * rewrite length_app in Hb. simpl in *. lia.
    + apply last_None in Hlast. rewrite Hlast in Hsize. unfold maxReplaySenders in *.
      simpl in Hsize. lia.
  - split; [|done]. split; simpl.
    + by constructor.
    + intros x. rewrite elem_of_cons, Hdom.
      destruct (decide (x = p)) as [->|]; simplify_map_eq; naive_solver.
    + lia.
Qed.

Lemma insert_sender_lookup r p c r' :
  insert_sender r p c = (r', Ok tt) -> senders r' !! p = Some (ReplayState c 1).
Proof.
  unfold insert_sender. case_if; [destruct (last (lru r)); [|done]|];
    intros Hr; inv_ok; apply lookup_insert_eq.
Qed.

Lemma update_ok r p st st' :
  cache_ok r -> senders r !! p = Some st ->
  cache_ok (ReplayCache (<[p := st']> (senders r)) (MoveToFront p (lru r))).
Proof.
  intros [Hnd Hdom Hb] Hp.
  assert (Hin : p ∈ lru r) by (rewrite Hdom; eauto).
  split; cbn [lru senders].
  - by apply MoveToFront_NoDup.
  - intros x. rewrite MoveToFront_in, Hdom by done.
    destruct (decide (x = p)) as [->|]; simplify_map_eq; naive_solver.
  - rewrite MoveToFront_length by done. done.
Qed.

Lemma accept_keeps_ok r p c : cache_ok r -> cache_ok (accept r p c).1.
Proof.
  intros Hok. unfold accept. destruct (senders r !! p) eqn:Hp.
  - repeat case_if; simpl; eauto using update_ok.
  - by apply insert_ok.
Qed.

(** The cache never panics: a full cache has a back element to evict. *)
Lemma accept_no_panic r p c : cache_ok r -> (accept r p c).2 <> Panic.
Proof.
  intros Hok. unfold accept. destruct (senders r !! p) eqn:Hp.
  - repeat case_if; simpl; congruence.
  - by rewrite (proj2 (insert_ok r p c Hok Hp)).
Qed.

(** A refused counter leaves the cache as it was. *)
Lemma accept_error_inert r p c e : (accept r p c).2 = Err e -> (accept r p c).1 = r.
Proof.
  unfold accept, insert_sender. destruct (senders r !! p); repeat case_if; try done.
  by destruct (last (lru r)).
Qed.

(** ** The window *)

Record window (st : replayState) (A : gset Z) : Prop := {
  w_max : highest st ∈ A;
  w_all x : x ∈ A -> 0 <= x <= highest st;
  w_u64 : is_u64 (highest st);
  w_bits i : 0 <= i < 64 -> Z.testbit (seen st) i = bool_decide (highest st - i ∈ A);
}.

Lemma set_max_window st A : window st A -> set_max A = highest st.
Proof.
  intros [Hin Hall _ _].
  assert (Hgen : forall l, (forall x, x ∈ l -> 0 <= x <= highest st) ->
            0 <= foldr Z.max 0 l /\ (l = [] \/ foldr Z.max 0 l <= highest st) /\
            forall x, x ∈ l -> x <= foldr Z.max 0 l).
  { induction l as [|y l IH]; intros Hl; simpl; [set_solver|].
    destruct IH as (H0 & Hle & Hge); [set_solver|].
    assert (Hy := Hl y ltac:(set_solver)).
    split_and!; [lia| |].
    - right. destruct Hle as [->|]; simpl; lia.
    - intros x [->|Hx%Hge]%elem_of_cons; lia. }
  destruct (Hgen (elements A)) as (_ & Hle & Hge).
  { intros x Hx. apply Hall. by apply elem_of_elements. }
  apply elem_of_elements in Hin. specialize (Hge _ Hin). unfold set_max.
  destruct Hle as [Hnil|]; [rewrite Hnil in Hin; set_solver|lia].
Qed.

Lemma testbit_1 i : 0 <= i -> Z.testbit 1 i = bool_decide (i = 0).
Proof.
  intros. change 1 with (2 ^ 0). rewrite Z.pow2_bits_eqb by lia.
  case_bool_decide; [by subst|]. apply Z.eqb_neq. lia.
Qed.

Lemma land_mask_zero s age :
  0 <= age < 64 -> (Z.land s (u64 (Z.shiftl 1 age)) =? 0) = negb (Z.testbit s age).
Proof.
  intros Hage.
  assert (Hm : u64 (Z.shiftl 1 age) = 2 ^ age).
  { rewrite Z.shiftl_1_l. apply Z.mod_small. split; [apply Z.pow_nonneg; lia|].
    apply Z.pow_lt_mono_r; lia. }
  rewrite Hm. destruct (Z.testbit s age) eqn:Hs; simpl.
  - apply Z.eqb_neq. intros H0. apply (f_equal (fun z => Z.testbit z age)) in H0.
    rewrite Z.land_spec, Hs, Z.pow2_bits_true, Z.bits_0 in H0 by lia. done.
  - apply Z.eqb_eq, Z.bits_inj'. intros n Hn. rewrite Z.land_spec, Z.bits_0.
    rewrite Z.pow2_bits_eqb by lia. destruct (Z.eqb_spec age n); [subst; by rewrite Hs|].
    by rewrite andb_false_r.
Qed.

Lemma window_fresh c : is_u64 c -> window (ReplayState c 1) {[c]}.
Proof.
  intros Hc. split; simpl; [set_solver|intros x Hx; apply elem_of_singleton in Hx; lia|done|].
  intros i Hi. rewrite testbit_1 by lia. apply bool_decide_ext.
  rewrite elem_of_singleton. lia.
Qed.

Lemma bool_decide_union_l (c x : Z) (A : gset Z) :
  x ∈ A -> bool_decide (x ∈ ({[c]} ∪ A : gset Z)) = true.
Proof. intros. apply bool_decide_eq_true. set_solver. Qed.

Lemma window_advance st A c :
  window st A -> is_u64 c -> highest st < c ->
  window (ReplayState c
            (if replayWindowSize <=? u64 (c - highest st) then 1
             else Z.lor (u64 (Z.shiftl (seen st) (u64 (c - highest st)))) 1))
         ({[c]} ∪ A).
Proof.
  intros [Hin Hall Hu Hbits] Hc Hlt.
  rewrite (u64_small (c - highest st)) by lia.
  split; simpl; [set_solver| |done|].
  - intros x Hx. apply elem_of_union in Hx as [Hx%elem_of_singleton|Hx%Hall]; lia.
  - intros i Hi.
    assert (Hout : i < c - highest st ->
              bool_decide (c - i ∈ ({[c]} ∪ A : gset Z)) = bool_decide (i = 0)).
    { intros Hsh. apply bool_decide_ext. rewrite elem_of_union, elem_of_singleton.
      split; [|lia]. intros [?|Hx%Hall]; lia. }
    unfold replayWindowSize. case_if.
    + rewrite testbit_1, Hout; [done|lia..].
    + rewrite Z.lor_spec, testbit_1 by lia. unfold u64.
      rewrite Z.mod_pow2_bits_low, Z.shiftl_spec by lia.
      destruct (decide (i < c - highest st)) as [Hsh|Hsh].
      * rewrite Z.testbit_neg_r, Hout by lia. done.
      * rewrite Hbits by lia.
        replace (highest st - (i - (c - highest st))) with (c - i) by lia.
        rewrite (bool_decide_eq_false_2 (i = 0)), orb_false_r by lia.
        apply bool_decide_ext. rewrite elem_of_union, elem_of_singleton.
        split; [tauto|]. intros [|]; [lia|done].
Qed.

Lemma window_fill st A c :
  window st A -> 0 <= c <= highest st -> highest st - c < 64 -> c ∉ A ->
  window (ReplayState (highest st) (Z.lor (seen st) (u64 (Z.shiftl 1 (highest st - c)))))
         ({[c]} ∪ A).
Proof.
  intros [Hin Hall Hu Hbits] Hc Hage Hnew.
  split; simpl; [set_solver| |done|].
  - intros x Hx. apply elem_of_union in Hx as [Hx%elem_of_singleton|Hx%Hall]; lia.
  - intros i Hi. rewrite Z.lor_spec, Hbits by lia. unfold u64.
    rewrite Z.mod_pow2_bits_low, Z.shiftl_spec by lia.
    destruct (decide (i = highest st - c)) as [->|Hne].
    + rewrite Z.sub_diag. change (Z.testbit 1 0) with true. rewrite orb_true_r. symmetry.
      apply bool_decide_eq_true. set_solver by lia.
    + assert (Hb : Z.testbit 1 (i - (highest st - c)) = false).
      { destruct (decide (0 <= i - (highest st - c))); [|apply Z.testbit_neg_r; lia].
        rewrite testbit_1 by lia. apply bool_decide_eq_false. lia. }
      rewrite Hb, orb_false_r. apply bool_decide_ext. rewrite elem_of_union, elem_of_singleton.
      split; [tauto|]. intros [|]; [lia|done].
Qed.

(** ** Simulation *)

Record refines (r : replayCache) (a : replaySpec) : Prop := {
  rf_ok : cache_ok r;
  rf_order : order a = lru r;
  rf_map p :
    match senders r !! p, accepted a !! p with
    | Some st, Some A => window st A
    | None, None => True
    | _, _ => False
    end;
}.

Lemma refines_empty : refines (ReplayCache ∅ []) (ReplaySpec ∅ []).
Proof. split; [apply empty_cache_ok|done|]. intros p. simpl. by rewrite !lookup_empty. Qed.

Lemma refines_update r a p st st' A A' :
  refines r a -> senders r !! p = Some st -> accepted a !! p = Some A ->
  window st' A' ->
  refines (ReplayCache (<[p := st']> (senders r)) (MoveToFront p (lru r)))
          (ReplaySpec (<[p := A']> (accepted a)) (MoveToFront p (order a))).
Proof.
  intros [Hok Hord Hmap] Hp HA Hw. split; cbn [lru senders order accepted].
  - by eapply update_ok.
  - by rewrite Hord.
  - intros q. destruct (decide (q = p)) as [->|]; simplify_map_eq; [done|apply Hmap].
Qed.

(** The verdict of the mask-based code is the verdict of the specification. *)
Lemma verdict_window st A c :
  window st A -> is_u64 c ->
  verdict A c =
    if highest st <? c then Ok tt
    else if replayWindowSize <=? u64 (highest st - c) then Err ErrReplayTooOld
    else if negb (Z.land (seen st) (u64 (Z.shiftl 1 (u64 (highest st - c)))) =? 0)
    then Err ErrReplayDuplicate else Ok tt.
Proof.
  intros Hw Hc. unfold verdict. rewrite (set_max_window st A Hw).
  destruct Hw as [Hin Hall Hu Hbits]. case_if; [done|].
  rewrite (u64_small (highest st - c)) by lia.
  destruct (replayWindowSize <=? highest st - c) eqn:Hage; [done|].
  unfold replayWindowSize in Hage. bool_to_Prop.
  rewrite land_mask_zero, negb_involutive, Hbits by lia.
  by replace (highest st - (highest st - c)) with c by lia.
Qed.

Lemma accept_sim r a p c :
  refines r a -> is_u64 c ->
  (accept r p c).2 = (spec_accept a p c).2 /\
  refines (accept r p c).1 (spec_accept a p c).1.
Proof.
  intros Href Hc. destruct Href as [Hok Hord Hmap] eqn:Heq. clear Heq.
  assert (Hp := Hmap p). unfold accept, spec_accept.
  destruct (senders r !! p) as [st|] eqn:Hs, (accepted a !! p) as [A|] eqn:HA; try done.
  - rewrite (verdict_window st A c Hp Hc).
    assert (Hmax := set_max_window st A Hp).
    case_if.
    { split; [done|]. eapply refines_update; [done..|]. by apply window_advance. }
    rewrite (u64_small (highest st - c)) by (destruct Hp; lia).
    destruct (replayWindowSize <=? highest st - c) eqn:Hage; [done|].
    unfold replayWindowSize in Hage. bool_to_Prop.
    rewrite land_mask_zero, negb_involutive by lia.
    destruct (Z.testbit (seen st) (highest st - c)) eqn:Hbit; [done|].
    split; [done|]. eapply refines_update; [done..|].
    apply window_fill; [done|lia|done|].
    rewrite (w_bits _ _ Hp), bool_decide_eq_false in Hbit by lia.
    by replace (highest st - (highest st - c)) with c in Hbit by lia.
  - destruct (insert_ok r p c Hok Hs) as [Hok' Hres]. split; [done|].
    revert Hok' Hres. unfold insert_sender.
    rewrite Hord, (cache_size r Hok). case_if.
    + destruct (last (lru r)) as [q|]; [|done]. intros Hok' _.
      split; cbn [lru senders order accepted]; [done|done|].
      intros x. destruct (decide (x = p)) as [->|]; simplify_map_eq; [by apply window_fresh|].
      destruct (decide (x = q)) as [->|]; simplify_map_eq; [done|apply Hmap].
    + intros Hok' _. split; cbn [lru senders order accepted]; [done|done|].
      intros x. destruct (decide (x = p)) as [->|]; simplify_map_eq; [by apply window_fresh|].
      apply Hmap.
Qed.

(** ** Runs *)

Fixpoint run_accepts (r : replayCache) (ops : list (bytes * Z))
  : replayCache * list (outcome crypto_error unit) :=
  match ops with
  | [] => (r, [])
  | (p, c) :: ops' =>
      let '(r', res) := accept r p c in
      let '(r'', out) := run_accepts r' ops' in (r'', res :: out)
  end.

Fixpoint run_spec (a : replaySpec) (ops : list (bytes * Z))
  : replaySpec * list (outcome crypto_error unit) :=
  match ops with
  | [] => (a, [])
  | (p, c) :: ops' =>
      let '(a', res) := spec_accept a p c in
      let '(a'', out) := run_spec a' ops' in (a'', res :: out)
  end.

Lemma run_sim ops r a :
  refines r a -> Forall (fun o => is_u64 o.2) ops ->
  (run_accepts r ops).2 = (run_spec a ops).2 /\
  refines (run_accepts r ops).1 (run_spec a ops).1.
Proof.
  revert r a. induction ops as [|[p c] ops IH]; intros r a Href Hops; [done|].
  inversion Hops as [|? ? Hc Hrest]; subst. simpl in Hc |- *.
  destruct (accept_sim r a p c Href Hc) as [Hres Href'].
  destruct (accept r p c) as [r' res], (spec_accept a p c) as [a' res']. simpl in *. subst res'.
  destruct (IH r' a' Href' Hrest) as [Hout Hfin].
  destruct (run_accepts r' ops) as [? ?], (run_spec a' ops) as [? ?]. simpl in *.
  by subst.
Qed.

(** ** No counter is accepted twice *)

Lemma seen_rejected r a p c A :
  refines r a -> is_u64 c -> accepted a !! p = Some A -> c ∈ A ->
  (accept r p c).2 = Err ErrReplayDuplicate \/ (accept r p c).2 = Err ErrReplayTooOld.
Proof.
  intros Href Hc HA Hin. rewrite (proj1 (accept_sim r a p c Href Hc)).
  unfold spec_accept. rewrite HA.
  pose proof (rf_map _ _ Href p) as Hw. rewrite HA in Hw.
  destruct (senders r !! p) as [st|]; [|done].
  unfold verdict. rewrite (set_max_window st A Hw).
  pose proof (w_all _ _ Hw c Hin).
  rewrite (proj2 (Z.ltb_ge _ _)), (bool_decide_eq_true_2 _ Hin) by lia.
  case_if; auto.
Qed.

Lemma spec_accept_records a p c :
  (spec_accept a p c).2 = Ok tt ->
  exists A, accepted (spec_accept a p c).1 !! p = Some A /\ c ∈ A.
Proof.
  unfold spec_accept. destruct (accepted a !! p) as [A|].
  - destruct (verdict A c); [|done..]. intros _. simpl. rewrite lookup_insert_eq.
    eexists. split; [done|set_solver].
  - intros _. simpl. rewrite lookup_insert_eq. eexists. split; [done|set_solver].
Qed.

Lemma spec_accept_monotone r a p q c d A :
  refines r a -> is_u64 d -> accepted a !! p = Some A -> c ∈ A ->
  p ∈ lru (accept r q d).1 ->
  exists A', accepted (spec_accept a q d).1 !! p = Some A' /\ c ∈ A'.
Proof.
  intros Href Hd HA Hin Htrack.
  destruct (accept_sim r a q d Href Hd) as [_ Href'].
  rewrite (co_dom _ (rf_ok _ _ Href')) in Htrack.
  pose proof (rf_map _ _ Href' p) as Hp. destruct Htrack as [st Hst]. rewrite Hst in Hp.
  revert Hp. unfold spec_accept. destruct (decide (q = p)) as [->|Hne].
  - rewrite HA. destruct (verdict A d); simpl; [|rewrite HA; eauto..].
    rewrite lookup_insert_eq. intros _. eexists. split; [done|set_solver].
  - destruct (accepted a !! q) as [B|].
    + destruct (verdict B d); simpl; [|rewrite HA; eauto..].
      rewrite lookup_insert_ne, HA by done. eauto.
    + simpl. rewrite lookup_insert_ne by done.
      destruct (if maxReplaySenders <=? len (order a) then last (order a) else None) as [x|];
        [|rewrite HA; eauto].
      rewrite lookup_delete. case_decide; [done|]. rewrite HA. eauto.
Qed.

(** Sender [p] stays in the cache at every point of the run. *)
Fixpoint tracked (p : bytes) (r : replayCache) (ops : list (bytes * Z)) : Prop :=
  p ∈ lru r /\
  match ops with
  | [] => True
  | (q, d) :: ops' => tracked p (accept r q d).1 ops'
  end.

Lemma tracked_rejects ops r a p c A :
  refines r a -> is_u64 c -> Forall (fun o => is_u64 o.2) ops ->
  accepted a !! p = Some A -> c ∈ A -> tracked p r ops ->
  exists e, (accept (run_accepts r ops).1 p c).2 = Err e.
Proof.
  revert r a A. induction ops as [|[q d] ops IH]; intros r a A Href Hc Hops HA Hin Htr.
  - destruct (seen_rejected r a p c A Href Hc HA Hin) as [H|H]; simpl; eauto.
  - inversion Hops as [|? ? Hd Hrest]; subst. destruct Htr as [_ Htr]. simpl in Hd.
    assert (Hp : p ∈ lru (accept r q d).1) by (destruct ops as [|[] ?]; apply Htr).
    destruct (spec_accept_monotone r a p q c d A Href Hd HA Hin Hp) as (A' & HA' & Hin').
    destruct (accept_sim r a q d Href Hd) as [_ Href'].
    specialize (IH _ _ A' Href' Hc Hrest HA' Hin' Htr). simpl.
    destruct (accept r q d) as [r' res]. simpl in *.
    by destruct (run_accepts r' ops).
Qed.

(** ** Properties *)

(** C2: over any sequence of records, the cache answers exactly what the
    set-based specification answers: a counter is accepted iff it is above every
    counter accepted from that sender, or inside the 64-entry window and new. *)
Theorem replay_cache_refines_spec (ops : list (bytes * Z)) :
  Forall (fun o => is_u64 o.2) ops ->
  (run_accepts (ReplayCache ∅ []) ops).2 = (run_spec (ReplaySpec ∅ []) ops).2.
Proof. intros. by apply run_sim; [apply refines_empty|]. Qed.

Lemma replay_cache_refines_spec_witness :
  (run_accepts (ReplayCache ∅ []) [([1], 5); ([1], 3); ([1], 5); ([1], 80); ([1], 3)]).2
  = [Ok tt; Ok tt; Err ErrReplayDuplicate; Ok tt; Err ErrReplayTooOld].
Proof.
  rewrite replay_cache_refines_spec; [vm_compute; reflexivity|].
  repeat constructor; simpl; lia.
Defined.

(** C1: once a record was accepted, the same (sender, counter) pair is refused
    for as long as the sender stays in the cache, whatever else arrives. *)
Theorem no_counter_accepted_twice (history ops : list (bytes * Z)) (p : bytes) (c : Z) :
  Forall (fun o => is_u64 o.2) (history ++ (p, c) :: ops) ->
  let r0 := (run_accepts (ReplayCache ∅ []) history).1 in
  (accept r0 p c).2 = Ok tt ->
  tracked p (accept r0 p c).1 ops ->
  exists e, (accept (run_accepts (accept r0 p c).1 ops).1 p c).2 = Err e.
Proof.
  intros Hall r0 Hok Htr. apply Forall_app in Hall as [Hh Hall].
  inversion Hall as [|? ? Hc Hops]; subst. simpl in Hc.
  destruct (run_sim history _ _ refines_empty Hh) as [_ Href]. fold r0 in Href.
  set (a0 := (run_spec (ReplaySpec ∅ []) history).1) in *.
  destruct (accept_sim r0 a0 p c Href Hc) as [Hres Href'].
  rewrite Hres in Hok. destruct (spec_accept_records a0 p c Hok) as (A & HA & Hin).
  by eapply tracked_rejects.
Qed.

Lemma no_counter_accepted_twice_witness :
  exists e, (accept (run_accepts (ReplayCache ∅ [])
                       [([1], 7); ([1], 9); ([2], 7); ([1], 8)]).1 [1] 9).2 = Err e.
Proof.
  apply (no_counter_accepted_twice [([1], 7)] [([2], 7); ([1], 8)] [1] 9).
  - repeat constructor; simpl; lia.
  - vm_compute. reflexivity.
  - repeat split; vm_compute; set_solver.
Defined.

(** Whatever is received, the cache tracks at most 256 senders, its LRU
    list and its map hold the same senders, and no operation panics. *)
Theorem replay_cache_bounded (ops : list (bytes * Z)) :
  let '(r, out) := run_accepts (ReplayCache ∅ []) ops in
  cache_ok r /\ Z.of_nat (size (senders r)) <= maxReplaySenders /\ Forall (fun o => o <> Panic) out.
Proof.
  assert (Hgen : forall r, cache_ok r ->
    cache_ok (run_accepts r ops).1 /\ Forall (fun o => o <> Panic) (run_accepts r ops).2).
  { induction ops as [|[p c] ops IH]; intros r Hok; [by split|]. simpl.
    pose proof (accept_keeps_ok r p c Hok) as Hok'. pose proof (accept_no_panic r p c Hok).
    destruct (accept r p c) as [r' res]. simpl in *. destruct (IH r' Hok') as [H1 H2].
    destruct (run_accepts r' ops). by split; [|constructor]. }
  destruct (Hgen _ empty_cache_ok) as [H1 H2].
  destruct (run_accepts _ ops) as [r out]. simpl in *.
  split_and!; [done| |done]. rewrite cache_size by done. apply H1.
Qed.
