(* ===== verification/CryptoRecord.v ===== *)
(** * CryptoRecord: sealing and opening records, and the nonce counter *)

From S2P Require Import Prelude Bytes Text Crypto CryptoReplay.

(** ** The layout [SealInto] produces *)

Section record.
Context `{C : CipherSuite} `{L : !CipherLaws C}.

Definition record_of (key prefix : bytes) (counter : Z) (pt aad : bytes) : bytes :=
  recordMagic ++ be_put 8 counter ++ prefix
  ++ aead_seal key (prefix ++ be_put 8 counter) pt aad.

Lemma SealInto_layout k dst spare pt aad :
  len (send_prefix k) = noncePrefixSize -> send_counter k < max_u64 ->
  SealInto k dst spare pt aad =
    (set_counter k (send_counter k + 1),
     Ok (dst ++ record_of (send_aead k) (send_prefix k) (send_counter k + 1) pt aad)).
Proof.
  intros Hp Hc. unfold SealInto, nextCounter.
  rewrite (proj2 (Z.eqb_neq _ _)) by lia. f_equal. f_equal.
  set (n := send_counter k + 1). unfold record_of.
  assert (Hspace : exists space, appendSpace dst spare (recordHeaderSize + len pt + Overhead)
                                 = dst ++ space /\ (28 <= length space)%nat).
  { unfold appendSpace, recordHeaderSize, noncePrefixSize, NonceSizeX, Overhead. simpl len.
    case_if; eexists; (split; [done|]); [rewrite length_take|rewrite length_replicate]; lia. }
  destruct Hspace as (space & -> & Hlen).
  assert (Hp' : length (send_prefix k) = 16%nat)
    by (unfold noncePrefixSize, NonceSizeX in Hp; lia).
  rewrite write_at_app by done.
  rewrite write_at_app by (rewrite length_app; lia).
  rewrite write_at_app by (rewrite !length_app, length_be_put; lia).
  rewrite take_app_exact; [rewrite <- !app_assoc; done|].
  rewrite !length_app, length_be_put, Hp'.
  change (Z.to_nat recordHeaderSize) with 28%nat. simpl (length recordMagic). lia.
Qed.

(** Opening a record of that layout reaches the replay cache with its prefix,
    counter and plaintext. *)
Lemma openRecord_of k key prefix counter pt aad :
  len prefix = noncePrefixSize -> 0 < counter <= max_u64 -> receive_aead k = key ->
  openRecord k (record_of key prefix counter pt aad) aad = Ok (prefix, counter, pt).
Proof.
  intros Hp Hc Hkey. unfold openRecord.
  set (ct := aead_seal key (prefix ++ be_put 8 counter) pt aad).
  assert (Hct : len ct = len pt + Overhead) by apply aead_seal_length.
  assert (Hlen : len (record_of key prefix counter pt aad) = 44 + len pt).
  { unfold record_of. fold ct. rewrite !len_app, length_be_put, Hct, Hp.
    unfold noncePrefixSize, NonceSizeX, Overhead. simpl (len recordMagic). lia. }
  assert (Hp' : length prefix = 16%nat)
    by (unfold noncePrefixSize, NonceSizeX in Hp; lia).
  assert (Hd12 : drop 12 (record_of key prefix counter pt aad) = prefix ++ ct).
  { unfold record_of. fold ct. rewrite app_assoc, drop_app_exact; [done|].
    by rewrite length_app, length_be_put. }
  unfold WireOverhead, recordHeaderSize, noncePrefixSize, NonceSizeX, Overhead in *.
  change (len recordMagic) with 4 in *.
  rewrite (proj2 (Z.ltb_ge _ _)) by lia.
  rewrite slice_ok by lia. cbn [obind].
  replace (take _ _) with recordMagic; [|symmetry; by apply take_app_exact].
  rewrite bool_decide_eq_true_2 by done. cbn [negb].
  rewrite slice_from_ok by lia. cbn [obind].
  replace (drop (Z.to_nat 4) _) with (be_put 8 counter ++ prefix ++ ct);
    [|symmetry; by apply drop_app_exact].
  rewrite slice_ok by (rewrite ?len_app, ?length_be_put; lia). cbn [obind].
  rewrite drop_0. rewrite take_app_exact by apply length_be_put.
  rewrite be_get_put64 by (unfold max_u64 in Hc; lia).
  rewrite (proj2 (Z.eqb_neq _ _)) by lia.
  rewrite slice_ok by lia. cbn [obind].
  change (Z.to_nat (4 + 8)) with 12%nat. rewrite Hd12, take_app_exact by done.
  rewrite slice_from_ok by lia. cbn [obind].
  change (Z.to_nat (4 + 8 + (24 - 8))) with (12 + 16)%nat.
  rewrite <- drop_drop, Hd12, drop_app_exact by done.
  unfold ct. by rewrite Hkey, aead_open_seal.
Qed.

Lemma OpenInto_of k dst key prefix counter pt aad r :
  len prefix = noncePrefixSize -> 0 < counter <= max_u64 -> receive_aead k = key ->
  accept (replay k) prefix counter = (r, Ok tt) ->
  OpenInto k dst (record_of key prefix counter pt aad) aad = (set_replay k r, Ok (dst ++ pt)).
Proof. intros. unfold OpenInto. rewrite openRecord_of by done. by rewrite H2. Qed.

(** Every range the parser slices is inside the record. *)
Lemma openRecord_no_panic k record aad : openRecord k record aad <> Panic.
Proof.
  unfold openRecord. case_if; [done|].
  unfold WireOverhead, recordHeaderSize, noncePrefixSize, NonceSizeX, Overhead in *.
  change (len recordMagic) with 4 in *.
  rewrite slice_ok by lia. cbn [obind]. case_if; [done|].
  rewrite slice_from_ok by lia. cbn [obind].
  rewrite slice_ok by (rewrite ?length_drop; lia). cbn [obind]. case_if; [done|].
  rewrite slice_ok by lia. cbn [obind].
  rewrite slice_from_ok by lia. cbn [obind]. by destruct (aead_open _ _ _ _).
Qed.

(** ** Runs of a sender and of a receiver *)

Fixpoint seal_all (k : KeySet) (msgs : list (bytes * bytes))
  : KeySet * list (outcome crypto_error bytes) :=
  match msgs with
  | [] => (k, [])
  | (pt, aad) :: msgs' =>
      let '(k', rec) := Seal k pt aad in
      let '(k'', out) := seal_all k' msgs' in (k'', rec :: out)
  end.

Fixpoint open_all (k : KeySet) (recs : list (outcome crypto_error bytes)) (aads : list bytes)
  : KeySet * list (outcome crypto_error bytes) :=
  match recs, aads with
  | Ok rec :: recs', aad :: aads' =>
      let '(k', pt) := Open k rec aad in
      let '(k'', out) := open_all k' recs' aads' in (k'', pt :: out)
  | _, _ => (k, [])
  end.

(** The receiver has at most seen counters up to the sender's current one. *)
Definition in_step (ks kr : KeySet) : Prop :=
  len (send_prefix ks) = noncePrefixSize /\ receive_aead kr = send_aead ks /\
  0 <= send_counter ks /\ cache_ok (replay kr) /\
  forall st, senders (replay kr) !! send_prefix ks = Some st -> highest st <= send_counter ks.

Lemma accept_next r p c :
  cache_ok r -> (forall st, senders r !! p = Some st -> highest st <= c) ->
  exists r', accept r p (c + 1) = (r', Ok tt) /\ cache_ok r' /\
    forall st, senders r' !! p = Some st -> highest st <= c + 1.
Proof.
  intros Hok Hle. pose proof (accept_keeps_ok r p (c + 1) Hok) as Hok'.
  unfold accept in *. destruct (senders r !! p) as [st|] eqn:Hs.
  - specialize (Hle st eq_refl). rewrite (proj2 (Z.ltb_lt _ _)) in * by lia.
    eexists. split; [done|]. split; [done|]. intros st'. cbn [senders].
    rewrite lookup_insert_eq. intros ?; simplify_eq. simpl. lia.
  - destruct (insert_ok r p (c + 1) Hok Hs) as [_ Hres].
    destruct (insert_sender r p (c + 1)) as [r' o] eqn:Hi. simpl in *. subst o.
    eexists. split; [done|]. split; [done|]. intros st'.
    rewrite (insert_sender_lookup _ _ _ _ Hi). intros ?; simplify_eq; simpl; lia.
Qed.

Lemma seal_open_step ks kr pt aad :
  in_step ks kr -> send_counter ks < max_u64 ->
  exists rec kr', Seal ks pt aad = (set_counter ks (send_counter ks + 1), Ok rec) /\
    Open kr rec aad = (kr', Ok pt) /\ in_step (set_counter ks (send_counter ks + 1)) kr'.
Proof.
  intros (Hp & Hkey & Hc & Hok & Hle) Hmax.
  destruct (accept_next (replay kr) (send_prefix ks) (send_counter ks) Hok Hle)
    as (r' & Hacc & Hok' & Hle').
  eexists _, _. split; [|split].
  - unfold Seal. by rewrite SealInto_layout.
  - unfold Open. simpl app. by apply OpenInto_of; [|lia|..].
  - split_and!; simpl; [done|done|lia|done|done].
Qed.

Lemma seal_open_all msgs ks kr :
  in_step ks kr -> send_counter ks + len msgs <= max_u64 ->
  (open_all kr (seal_all ks msgs).2 (map snd msgs)).2 = map (fun m => Ok m.1) msgs.
Proof.
  revert ks kr. induction msgs as [|[pt aad] msgs IH]; intros ks kr Hin Hmax; [done|].
  simpl length in Hmax.
  destruct (seal_open_step ks kr pt aad Hin ltac:(lia)) as (rec & kr' & Hs & Ho & Hin').
  simpl. rewrite Hs. specialize (IH _ kr' Hin'). simpl in IH.
  destruct (seal_all _ msgs) as [ks'' out]. simpl in *. rewrite Ho.
  destruct (open_all kr' out (map snd msgs)) as [kr'' pts]. simpl in *.
  rewrite IH by lia. done.
Qed.
End record.

(** ** The lock-free counter, instruction by instruction

    [nextCounter] is a load followed by a compare-and-swap, retried on failure.
    [counter_step] interleaves those instructions for any number of concurrent callers;
    [issued] records the values returned so far, latest first. *)

Module CounterRace.

(* go: crypto/chacha.go 213-223 nextCounter *)
Inductive counter_pc :=
| AtLoad
| AtSwap (current : Z).

Record state := State {
  counter : Z;
  threads : gmap nat counter_pc;
  issued : list Z;
}.

(* go: crypto/chacha.go 213-223 nextCounter *)
Inductive counter_step : state -> state -> Prop :=
| step_load s t :
    threads s !! t = Some AtLoad -> counter s <> max_u64 ->
    counter_step s (State (counter s) (<[t := AtSwap (counter s)]> (threads s)) (issued s))
| step_exhausted s t :
    threads s !! t = Some AtLoad -> counter s = max_u64 ->
    counter_step s s
| step_swap s t current :
    threads s !! t = Some (AtSwap current) -> counter s = current ->
    counter_step s (State (u64 (current + 1)) (<[t := AtLoad]> (threads s))
                  (u64 (current + 1) :: issued s))
| step_retry s t current :
    threads s !! t = Some (AtSwap current) -> counter s <> current ->
    counter_step s (State (counter s) (<[t := AtLoad]> (threads s)) (issued s)).

Record inv (s : state) : Prop := {
  inv_range : 0 <= counter s <= max_u64;
  inv_loaded t current : threads s !! t = Some (AtSwap current) -> 0 <= current < max_u64;
  inv_issued : Forall (fun c => 0 < c <= counter s) (issued s);
  inv_nodup : NoDup (issued s);
}.

Lemma step_inv s s' : counter_step s s' -> inv s -> inv s'.
Proof.
  intros Hs [Hr Hl Hi Hn]. destruct Hs as [s t Ht Hne|s t Ht He|s t cur Ht He|s t cur Ht Hne].
  - split; simpl; [done| |done|done]. intros t' cur.
    rewrite lookup_insert. case_decide; [intros [= <-]; unfold max_u64 in *; lia|apply Hl].
  - by split.
  - specialize (Hl _ _ Ht) as Hcur. unfold max_u64 in *. rewrite u64_small by lia.
    split; simpl; unfold max_u64; [lia| | |].
    + intros t' cur'. rewrite lookup_insert. case_decide; [done|apply Hl].
    + constructor; [lia|]. eapply Forall_impl; [done|]. simpl. lia.
    + constructor; [|done]. rewrite Forall_forall in Hi. intros Hin%Hi. lia.
  - split; simpl; [done| |done|done]. intros t' cur'.
    rewrite lookup_insert. case_decide; [done|apply Hl].
Qed.

Lemma reachable_inv s s' : rtc counter_step s s' -> inv s -> inv s'.
Proof. induction 1; eauto using step_inv. Qed.

(** An uninterrupted call behaves like the sequential [nextCounter]. *)
Lemma uninterrupted s t c :
  threads s !! t = Some AtLoad -> 0 <= counter s <= max_u64 ->
  nextCounter (counter s) = Ok c ->
  rtc counter_step s (State c (threads s) (c :: issued s)).
Proof.
  unfold nextCounter. case_if; [done|]. intros Ht Hc Hok. inv_ok.
  eapply rtc_l; [by apply (step_load s t)|].
  eapply rtc_l; [eapply (step_swap _ t); [apply lookup_insert_eq|done]|].
  simpl. unfold max_u64 in *. rewrite u64_small by lia.
  rewrite insert_insert_eq, insert_id by done. apply rtc_refl.
Qed.

End CounterRace.

(** ** Properties *)

(** A cipher suite that satisfies the contract, for concrete runs: the tag is a
    checksum of everything that must be authenticated. *)
Definition toy_tag (key nonce pt aad : bytes) : bytes :=
  be_put 16 (ChecksumIEEE (key ++ nonce ++ aad ++ pt)).

#[local] Instance toy_suite : CipherSuite := {|
  aead_seal key nonce pt aad := pt ++ toy_tag key nonce pt aad;
  aead_open key nonce ct aad :=
    let pt := take (length ct - 16) ct in
    if bool_decide (drop (length ct - 16) ct = toy_tag key nonce pt aad) then Some pt else None;
  hkdf_key psk label := Some (take 32 (label ++ psk ++ replicate 32 0));
|}.

#[local] Instance toy_laws : CipherLaws toy_suite.
Proof.
  split.
  - intros. cbn [aead_open aead_seal toy_suite].
    assert (Hn : (length (pt ++ toy_tag key nonce pt aad) - 16)%nat = length pt).
    { rewrite length_app. unfold toy_tag. rewrite length_be_put. lia. }
    rewrite Hn.
    rewrite take_app_length, drop_app_length. by rewrite bool_decide_eq_true_2.
  - intros. cbn [aead_seal toy_suite]. rewrite len_app. unfold toy_tag. by rewrite length_be_put.
  - intros psk label key H. cbn [hkdf_key toy_suite] in H.
    assert (Hk : key = take 32 (label ++ psk ++ replicate 32 0)) by congruence.
    rewrite Hk, length_take, !length_app, length_replicate. unfold KeySize. lia.
Qed.

Lemma NewKeySet_inv `{C : CipherSuite} psk role rnd k :
  NewKeySet psk role rnd = Ok k ->
  exists ck sk prefix, deriveKey psk clientToServerLabel = Ok ck /\
    deriveKey psk serverToClientLabel = Ok sk /\ rnd = Some prefix /\
    (role = Client /\ k = MkKeySet ck prefix 0 sk (ReplayCache ∅ []) \/
     role = Server /\ k = MkKeySet sk prefix 0 ck (ReplayCache ∅ [])).
Proof.
  unfold NewKeySet, newKeySetForRole. case_if; [done|].
  destruct (deriveKey psk clientToServerLabel) as [ck| |]; [|done..]. cbn [obind].
  destruct (deriveKey psk serverToClientLabel) as [sk| |]; [|done..]. cbn [obind].
  destruct role; cbn [obind]; [| |done]; unfold NewX;
    (case_if; [|done]); cbn [obind]; (case_if; [|done]); cbn [obind];
    (destruct rnd as [prefix|]; [|done]); intros; inv_ok; exists ck, sk, prefix; auto 10.
Qed.

(** C3: a client and a server that derive their key sets from the same PSK
    understand each other: every record the client seals opens at the server, in
    order, to the plaintext that was sealed, as long as the 64-bit counter lasts. *)
Theorem client_to_server_roundtrip `{C : CipherSuite} `{L : !CipherLaws C}
    (psk pc ps : bytes) (kc ks : KeySet) (msgs : list (bytes * bytes)) :
  len pc = noncePrefixSize ->
  NewKeySet psk Client (Some pc) = Ok kc -> NewKeySet psk Server (Some ps) = Ok ks ->
  len msgs <= max_u64 ->
  (open_all ks (seal_all kc msgs).2 (map snd msgs)).2 = map (fun m => Ok m.1) msgs.
Proof.
  intros Hp Hc Hs Hlen.
  apply NewKeySet_inv in Hc as (ck & sk & prefix & Hck & Hsk & ? & [[_ ->]|[? _]]); [|done].
  apply NewKeySet_inv in Hs as (ck' & sk' & prefix' & Hck' & Hsk' & ? & [[? _]|[_ ->]]); [done|].
  simplify_eq. apply seal_open_all; [|done].
  rewrite Hck in Hck'. inv_ok. split_and!; simpl; auto using empty_cache_ok; [lia|].
  intros st. by rewrite lookup_empty.
Qed.

Lemma client_to_server_roundtrip_witness :
  exists kc ks,
    NewKeySet (replicate 32 7) Client (Some (replicate 16 1)) = Ok kc /\
    NewKeySet (replicate 32 7) Server (Some (replicate 16 2)) = Ok ks /\
    (open_all ks (seal_all kc [([1; 2; 3], [9]); ([], [9])]).2 [[9]; [9]]).2
    = [Ok [1; 2; 3]; Ok []].
Proof.
  eexists _, _. split; [reflexivity|]. split; [reflexivity|].
  apply (client_to_server_roundtrip (replicate 32 7) (replicate 16 1) (replicate 16 2)
           _ _ [([1; 2; 3], [9]); ([], [9])]).
  - reflexivity.
  - reflexivity.
  - reflexivity.
  - unfold max_u64. simpl. lia.
Defined.

(** A record that does not open leaves the key set exactly as it was (bad
    header, failed authentication and replay alike), and no input panics. *)
Theorem failed_open_is_inert `{C : CipherSuite} (k : KeySet) (dst record aad : bytes) :
  cache_ok (replay k) ->
  let '(k', res) := OpenInto k dst record aad in
  res <> Panic /\ cache_ok (replay k') /\ (is_ok res = false -> k' = k).
Proof.
  intros Hok. unfold OpenInto.
  destruct (openRecord k record aad) as [[[prefix counter] pt]|e|] eqn:Ho.
  - pose proof (accept_keeps_ok (replay k) prefix counter Hok) as Hok'.
    pose proof (accept_no_panic (replay k) prefix counter Hok) as Hnp.
    pose proof (accept_error_inert (replay k) prefix counter) as Hin.
    destruct (accept (replay k) prefix counter) as [r [[]|e|]]; simpl in *; [by split_and!| |done].
    split_and!; [done|done|]. intros _. rewrite (Hin e eq_refl). by destruct k.
  - by split_and!.
  - by apply openRecord_no_panic in Ho.
Qed.

Lemma failed_open_is_inert_witness :
  let k := MkKeySet [] [] 0 [] (ReplayCache ∅ []) in
  OpenInto k [] (replicate 44 0) [] = (k, Err ErrBadRecordMagic) /\
  (let '(k', res) := OpenInto k [] (replicate 44 0) [] in
   res <> Panic /\ cache_ok (replay k') /\ (is_ok res = false -> k' = k)).
Proof. split; [reflexivity|]. apply failed_open_is_inert, empty_cache_ok. Defined.

(** C39: however many goroutines seal concurrently and however their loads and
    compare-and-swaps interleave, the counters they obtain are pairwise
    distinct, positive and never wrap, so no nonce is used twice. *)
Theorem sealed_counters_unique (threads0 : gmap nat CounterRace.counter_pc) (s : CounterRace.state) :
  (forall t p, threads0 !! t = Some p -> p = CounterRace.AtLoad) ->
  rtc CounterRace.counter_step (CounterRace.State 0 threads0 []) s ->
  NoDup (CounterRace.issued s) /\
  Forall (fun c => 0 < c <= max_u64) (CounterRace.issued s).
Proof.
  intros Hstart Hrun. apply CounterRace.reachable_inv in Hrun as [Hr _ Hi Hn].
  - split; [done|]. eapply Forall_impl; [done|]. simpl. lia.
  - split; simpl; [unfold max_u64; lia| |done|constructor].
    intros t cur Ht. apply Hstart in Ht. done.
Qed.

Lemma sealed_counters_unique_witness :
  let th : gmap nat CounterRace.counter_pc := {[0%nat := CounterRace.AtLoad; 1%nat := CounterRace.AtLoad]} in
  exists s, rtc CounterRace.counter_step (CounterRace.State 0 th []) s /\
    CounterRace.issued s = [2; 1] /\ NoDup (CounterRace.issued s) /\
    Forall (fun c => 0 < c <= max_u64) (CounterRace.issued s).
Proof.
  intros th.
  assert (Hrun : rtc CounterRace.counter_step (CounterRace.State 0 th [])
                   (CounterRace.State 2 th [2; 1])).
  { etransitivity; [by apply (CounterRace.uninterrupted _ 0%nat 1)|].
    by apply (CounterRace.uninterrupted (CounterRace.State 1 th [1]) 1%nat 2). }
  eexists. split; [exact Hrun|]. split; [reflexivity|].
  apply (sealed_counters_unique th); [|exact Hrun].
  intros t p Ht. unfold th in Ht.
  apply lookup_insert_Some in Ht as [[_ <-]|[_ Ht]]; [done|].
  apply lookup_singleton_Some in Ht as [_ <-]. done.
Defined.
