(* ===== verification/Framing.v ===== *)
(** * Framing: length-prefixed frames (internal/framing/framing.go)

    An [io.Reader] is the list of bytes it will still deliver before EOF.  An
    [io.Writer] is the list of bytes written so far plus a script saying which
    of the coming [Write] calls fail, and after how many bytes. *)

From S2P Require Import Prelude Bytes.

Inductive framing_error := ErrFrameTooLarge | ErrFrameRead | ErrFrameWrite | ErrFrameMarshal.

#[export] Instance framing_error_eq_dec : EqDecision framing_error.
Proof. solve_decision. Defined.

(** ** io.Reader and io.Writer *)

(** [io.ReadFull(r, buf)] with [len(buf) = n]: EOF or a short read is an error,
    and then the stream is used up. *)
Definition ReadFull (r : bytes) (n : Z) : bytes * outcome framing_error bytes :=
  if len r <? n then ([], Err ErrFrameRead)
  else (drop (Z.to_nat n) r, Ok (take (Z.to_nat n) r)).

Record writer := Writer {
  sink : bytes;
  script : list (option nat);
}.

Definition io_Write (w : writer) (p : bytes) : writer * bool :=
  match script w with
  | [] => (Writer (sink w ++ p) [], true)
  | None :: s => (Writer (sink w ++ p) s, true)
  | Some n :: s => (Writer (sink w ++ take n p) s, false)
  end.

(** ** The frame codec *)

(* go: framing/framing.go 29-43 WriteBytes *)
Definition WriteBytes (w : writer) (body : bytes) (maxSize : Z)
  : writer * outcome framing_error unit :=
  if (0 <? maxSize) && (maxSize <? len body) then (w, Err ErrFrameTooLarge)
  else
    let hdr := be_put 4 (u32 (len body)) in
    match io_Write w hdr with
    | (w1, false) => (w1, Err ErrFrameWrite)
    | (w1, true) =>
        match io_Write w1 body with
        | (w2, false) => (w2, Err ErrFrameWrite)
        | (w2, true) => (w2, Ok tt)
        end
    end.

(** [json.Marshal] is the argument [marshal]; it can fail. *)
(* go: framing/framing.go 20-27 WriteJSON *)
Definition WriteJSON {M} (marshal : M -> option bytes) (w : writer) (msg : M) (maxSize : Z)
  : writer * outcome framing_error unit :=
  match marshal msg with
  | None => (w, Err ErrFrameMarshal)
  | Some body => WriteBytes w body maxSize
  end.

(* go: framing/framing.go 45-60 ReadBytes *)
Definition ReadBytes (r : bytes) (maxSize : Z) : bytes * outcome framing_error bytes :=
  match ReadFull r 4 with
  | (r1, Ok hdr) =>
      let n := be_get hdr in
      if (0 <? maxSize) && (u32 maxSize <? n) then (r1, Err ErrFrameTooLarge)
      else ReadFull r1 n
  | (r1, e) => (r1, e)
  end.

(** ** Facts *)

(** The bytes of one frame. *)
Definition frame (body : bytes) : bytes := be_put 4 (u32 (len body)) ++ body.

Lemma WriteBytes_ok w body maxSize :
  script w = [] -> (0 < maxSize -> len body <= maxSize) ->
  WriteBytes w body maxSize = (Writer (sink w ++ frame body) [], Ok tt).
Proof.
  intros Hs Hle. unfold WriteBytes, io_Write. rewrite Hs. simpl script.
  case_if; [lia|]. cbn [sink script]. unfold frame. by rewrite app_assoc.
Qed.

Lemma WriteBytes_frame w body maxSize w' :
  WriteBytes w body maxSize = (w', Ok tt) -> sink w' = sink w ++ frame body.
Proof.
  unfold WriteBytes, io_Write. case_if; [done|]. unfold frame.
  destruct (script w) as [|[n|] s]; cbn [script sink]; [| |destruct s as [|[m|] s]]; try done;
    intros; inv_ok; cbn [sink]; by rewrite <- ?app_assoc.
Qed.

Lemma ReadFull_app a r n : len a = n -> ReadFull (a ++ r) n = (r, Ok a).
Proof.
  intros <-. unfold ReadFull. rewrite len_app. case_if; [lia|].
  rewrite Nat2Z.id. by rewrite drop_app_length, take_app_length.
Qed.

Lemma ReadFull_Ok r n r' b : 0 <= n ->
  ReadFull r n = (r', Ok b) -> r = b ++ r' /\ len b = n.
Proof.
  intros Hn. unfold ReadFull. case_if; [done|]. intros. inv_ok.
  rewrite take_drop, length_take. split; [done|lia].
Qed.

Lemma ReadBytes_frame body r maxSize :
  len body < 2 ^ 32 -> (0 < maxSize -> len body <= u32 maxSize) ->
  ReadBytes (frame body ++ r) maxSize = (r, Ok body).
Proof.
  intros H32 Hmax. unfold ReadBytes, frame. rewrite <- app_assoc.
  rewrite ReadFull_app by done.
  change (2 ^ 32) with 4294967296 in H32.
  rewrite (u32_small (len body)) by lia. rewrite be_get_put32 by lia.
  case_if; [lia|]. by apply ReadFull_app.
Qed.

Lemma ReadBytes_Ok r maxSize r' body :
  byte_list r -> ReadBytes r maxSize = (r', Ok body) ->
  r = frame body ++ r' /\ (0 < maxSize -> len body <= maxSize) /\ len body < 2 ^ 32.
Proof.
  intros Hb. unfold ReadBytes. destruct (ReadFull r 4) as [r1 [hdr|e|]] eqn:H1; [|done..].
  apply ReadFull_Ok in H1 as [-> Hhdr]; [|lia].
  apply Forall_app in Hb as [Hbh Hb].
  pose proof (be_get_range hdr Hbh) as Hrange. rewrite Hhdr in Hrange.
  change (256 ^ 4) with 4294967296 in Hrange.
  case_if; [done|]. intros H2. apply ReadFull_Ok in H2 as [-> Hbody]; [|lia].
  split_and!.
  - unfold frame. rewrite Hbody, u32_small by lia.
    rewrite <- (Nat2Z.id 4) at 1. change (Z.of_nat 4) with 4. rewrite <- Hhdr, Nat2Z.id.
    by rewrite be_put_get, <- app_assoc.
  - intros Hpos. destruct Heqb; bool_to_Prop; [lia|].
    assert (u32 maxSize <= maxSize) by (apply Z.mod_le; [lia|done]). lia.
  - change (2 ^ 32) with 4294967296. lia.
Qed.

(** A frame boundary is at least four bytes further on. *)
Lemma ReadBytes_consumes r maxSize :
  is_ok (ReadBytes r maxSize).2 = true -> (length (ReadBytes r maxSize).1 + 4 <= length r)%nat.
Proof.
  unfold ReadBytes, ReadFull. case_if; [done|].
  case_if; [done|]. case_if; [done|]. intros _. simpl. rewrite !length_drop. lia.
Qed.

(** ** Writing and reading whole streams *)

Fixpoint write_all (w : writer) (bodies : list bytes) (maxSize : Z)
  : writer * outcome framing_error unit :=
  match bodies with
  | [] => (w, Ok tt)
  | b :: rest =>
      match WriteBytes w b maxSize with
      | (w', Ok _) => write_all w' rest maxSize
      | (w', e) => (w', e)
      end
  end.

Fixpoint read_n (r : bytes) (n : nat) (maxSize : Z) : bytes * list (outcome framing_error bytes) :=
  match n with
  | O => (r, [])
  | S n' =>
      let '(r', b) := ReadBytes r maxSize in
      let '(r'', out) := read_n r' n' maxSize in (r'', b :: out)
  end.

Lemma write_all_sink bodies w maxSize w' :
  write_all w bodies maxSize = (w', Ok tt) -> sink w' = sink w ++ concat (map frame bodies).
Proof.
  revert w. induction bodies as [|b bodies IH]; intros w; simpl.
  - intros. inv_ok. by rewrite app_nil_r.
  - destruct (WriteBytes w b maxSize) as [w1 [[]|e|]] eqn:Hw; [|done..].
    intros Hrest. rewrite (IH w1 Hrest), (WriteBytes_frame _ _ _ _ Hw). by rewrite <- app_assoc.
Qed.

(** ** Properties *)

(** Whatever sequence of bodies a peer managed to write, the other side
    reads back exactly that sequence, and the bytes that follow stay unread. *)
Theorem frames_roundtrip (bodies : list bytes) (maxSize : Z) (w' : writer) (rest : bytes) :
  Forall (fun b => len b <= maxSize) bodies -> 0 < maxSize < 2 ^ 32 ->
  write_all (Writer [] []) bodies maxSize = (w', Ok tt) ->
  read_n (sink w' ++ rest) (length bodies) maxSize = (rest, map Ok bodies).
Proof.
  intros Hall Hmax Hw. apply write_all_sink in Hw. simpl in Hw. rewrite Hw. clear Hw w'.
  induction Hall as [|b bodies Hb Hall IH]; [done|].
  cbn [map concat length read_n].
  rewrite <- app_assoc. rewrite ReadBytes_frame; [by rewrite IH|lia|].
  intros _. change (2 ^ 32) with 4294967296 in Hmax. rewrite u32_small; lia.
Qed.

Lemma frames_roundtrip_witness :
  write_all (Writer [] []) [[1; 2]; []; [3]] 16
    = (Writer [0; 0; 0; 2; 1; 2; 0; 0; 0; 0; 0; 0; 0; 1; 3] [], Ok tt) /\
  read_n ([0; 0; 0; 2; 1; 2; 0; 0; 0; 0; 0; 0; 0; 1; 3] ++ [9]) 3 16
    = ([9], [Ok [1; 2]; Ok []; Ok [3]]).
Proof.
  split; [reflexivity|].
  apply (frames_roundtrip [[1; 2]; []; [3]] 16
           (Writer [0; 0; 0; 2; 1; 2; 0; 0; 0; 0; 0; 0; 0; 1; 3] []) [9]).
  - repeat constructor; simpl; lia.
  - lia.
  - reflexivity.
Defined.

(** A reader never returns a body above the configured limit, and a header
    announcing more is refused with only the four header bytes consumed. *)
Theorem ReadBytes_bounded (r : bytes) (maxSize : Z) :
  byte_list r -> 0 < maxSize < 2 ^ 32 ->
  match ReadBytes r maxSize with
  | (r', Ok body) => len body <= maxSize /\ r = frame body ++ r'
  | (r', Err ErrFrameTooLarge) => r' = drop 4 r /\ maxSize < be_get (take 4 r)
  | (_, Err _) => len r < 4 \/ len r < 4 + be_get (take 4 r)
  | (_, Panic) => False
  end.
Proof.
  intros Hb Hmax. destruct (ReadBytes r maxSize) as [r' [body|e|]] eqn:Hr.
  - apply ReadBytes_Ok in Hr as (Hr & Hle & _); [|done]. split; [apply Hle; lia|done].
  - revert Hr. unfold ReadBytes, ReadFull. change (2 ^ 32) with 4294967296 in Hmax.
    rewrite (u32_small maxSize) by lia. change (Z.to_nat 4) with 4%nat.
    case_if; [intros; inv_ok; left; lia|].
    case_if; [intros; inv_ok; split; [done|lia]|].
    case_if; [|done]. intros; inv_ok. right. rewrite length_drop in *. lia.
  - revert Hr. unfold ReadBytes, ReadFull. repeat case_if; done.
Qed.

Lemma ReadBytes_bounded_witness :
  ReadBytes [0; 1; 0; 1; 7; 7] 65536 = ([7; 7], Err ErrFrameTooLarge) /\
  match ReadBytes [0; 1; 0; 1; 7; 7] 65536 with
  | (r', Ok body) => len body <= 65536 /\ [0; 1; 0; 1; 7; 7] = frame body ++ r'
  | (r', Err ErrFrameTooLarge) =>
      r' = drop 4 [0; 1; 0; 1; 7; 7] /\ 65536 < be_get (take 4 [0; 1; 0; 1; 7; 7])
  | (_, Err _) => 6 < 4 \/ 6 < 4 + be_get (take 4 [0; 1; 0; 1; 7; 7])
  | (_, Panic) => False
  end.
Proof.
  split; [reflexivity|]. apply (ReadBytes_bounded [0; 1; 0; 1; 7; 7] 65536).
  - repeat constructor; lia.
  - lia.
Defined.
