(* ===== verification/Handshake.v ===== *)
(** * Handshake: the session handshake (internal/handshake/handshake.go)

    JSON values are handled through [HandshakeJSON], the encoder and the four
    decoders the package uses on the control stream ([Hello], [Welcome],
    [Reject] and the anonymous probe of [readReply]); its laws say that decoding
    an encoded message yields the fields that were encoded, with strings coerced to valid UTF-8 and claims
    converted to the types JSON knows.  The stream is the
    reader/writer model of [Framing].  [auth] and the random challenge are
    arguments. *)

From S2P Require Import Prelude Bytes Text Framing.

(* go: handshake/handshake.go 32-34 ProtoVersion *)
Definition ProtoVersion : Z := 3.
(* go: handshake/handshake.go 36-39 challengeSize *)
Definition challengeSize : Z := 16.
(* go: handshake/handshake.go 41-44 MaxMessageSize *)
Definition HsMaxMessageSize : Z := 64 * 1024.

(* go: handshake/handshake.go 50-60 MsgType *)
Definition TypeHello : string := "CLIENT_HELLO".
(* go: handshake/handshake.go 50-60 MsgType *)
Definition TypeWelcome : string := "SERVER_WELCOME".
(* go: handshake/handshake.go 50-60 MsgType *)
Definition TypeReject : string := "SERVER_REJECT".

(** [claims] is Go's [map[string]any]; a nil map reads like an empty one. *)
Section messages.
Context {claims : Type}.

(* go: handshake/handshake.go 62-69 Hello *)
Record Hello := MkHello {
  hVersion : Z;
  hType : string;
  hDeviceID : string;
  hChallenge : string;
  hClaims : claims;
}.
End messages.
Arguments Hello : clear implicits.

(* go: handshake/handshake.go 71-78 Welcome *)
Record Welcome := MkWelcome {
  wVersion : Z;
  wType : string;
  wSessionID : string;
  wPeerID : string;
  wChallenge : string;
}.

(* go: handshake/handshake.go 80-86 Reject *)
Record Reject := MkReject {
  rVersion : Z;
  rType : string;
  rReason : string;
  rChallenge : string;
}.

(* go: handshake/handshake.go 144-147 probe *)
Record Probe := MkProbe {
  pType : string;
  pChallenge : string;
}.

(* go: handshake/handshake.go 88-102 Err* *)
Inductive hs_error :=
| ErrRejected (reason : string)
| ErrProtocolVersion (got : Z)
| ErrUnexpectedMessage (got : string)
| ErrChallengeMismatch
| ErrChallengeRequired
| ErrHsParse
| ErrHsFraming (e : framing_error)
| ErrHsAuth (reason : string)
| ErrHsRandom.

(** ** encoding/json on the message types *)

(** [claims_wire]: what encoding and decoding make of a claims map; numbers become float64, for instance. *)
Class HandshakeJSON (claims : Type) : Type := {
  claims_wire : claims -> claims;
  MarshalHello : Hello claims -> option bytes;
  MarshalWelcome : Welcome -> option bytes;
  MarshalReject : Reject -> option bytes;
  UnmarshalHello : bytes -> option (Hello claims);
  UnmarshalWelcome : bytes -> option Welcome;
  UnmarshalReject : bytes -> option Reject;
  UnmarshalProbe : bytes -> option Probe;
}.

(** A message as the other end decodes it: encoding/json replaces what is not UTF-8. *)
Definition hello_wire {claims} `{HandshakeJSON claims} (h : Hello claims) : Hello claims :=
  MkHello (hVersion h) (coerce_string (hType h)) (coerce_string (hDeviceID h)) (coerce_string (hChallenge h)) (claims_wire (hClaims h)).
Definition welcome_wire (w : Welcome) : Welcome :=
  MkWelcome (wVersion w) (coerce_string (wType w)) (coerce_string (wSessionID w)) (coerce_string (wPeerID w)) (coerce_string (wChallenge w)).
Definition reject_wire (r : Reject) : Reject :=
  MkReject (rVersion r) (coerce_string (rType r)) (coerce_string (rReason r)) (coerce_string (rChallenge r)).

Class HandshakeJSONLaws {claims} (J : HandshakeJSON claims) : Prop := {
  json_hello h b : MarshalHello h = Some b -> UnmarshalHello b = Some (hello_wire h);
  json_welcome w b : MarshalWelcome w = Some b ->
    UnmarshalWelcome b = Some (welcome_wire w) /\
    UnmarshalProbe b = Some (MkProbe (wType (welcome_wire w)) (wChallenge (welcome_wire w)));
  json_reject r b : MarshalReject r = Some b ->
    UnmarshalReject b = Some (reject_wire r) /\
    UnmarshalProbe b = Some (MkProbe (rType (reject_wire r)) (rChallenge (reject_wire r)));
}.

Section handshake.
Context {claims : Type} {J : HandshakeJSON claims}.

(* go: handshake/handshake.go 263-268 writeFrame *)
Definition hs_writeFrame {M} (marshal : M -> option bytes) (w : writer) (msg : M)
  : writer * outcome hs_error unit :=
  match WriteJSON marshal w msg HsMaxMessageSize with
  | (w', Ok _) => (w', Ok tt)
  | (w', Err e) => (w', Err (ErrHsFraming e))
  | (w', Panic) => (w', Panic)
  end.

(* go: handshake/handshake.go 270-276 readFrame *)
Definition hs_readFrame (r : bytes) : bytes * outcome hs_error bytes :=
  match ReadBytes r HsMaxMessageSize with
  | (r', Ok body) => (r', Ok body)
  | (r', Err e) => (r', Err (ErrHsFraming e))
  | (r', Panic) => (r', Panic)
  end.

(** [rnd] is what [rand.Read] put into the 16 bytes, [None] when it failed. *)
(* go: handshake/handshake.go 194-201 newChallenge *)
Definition newChallenge (rnd : option bytes) : outcome hs_error string :=
  match rnd with
  | None => Err ErrHsRandom
  | Some raw => Ok (hex_EncodeToString raw)
  end.

(* go: handshake/handshake.go 258-261 validChallenge *)
Definition validChallenge (challenge : string) : bool :=
  match hex_DecodeString challenge with
  | None => false
  | Some decoded => len decoded =? challengeSize
  end.

(* go: handshake/handshake.go 168-181 parseWelcome *)
Definition parseWelcome (raw : bytes) (challenge : string) : outcome hs_error (string * string) :=
  match UnmarshalWelcome raw with
  | None => Err ErrHsParse
  | Some w =>
      if negb (wVersion w =? ProtoVersion) then Err (ErrProtocolVersion (wVersion w))
      else if negb (bool_decide (wChallenge w = challenge)) then Err ErrChallengeMismatch
      else Ok (wSessionID w, wPeerID w)
  end.

(* go: handshake/handshake.go 183-192 parseReject *)
Definition parseReject (raw : bytes) (challenge : string) : hs_error :=
  match UnmarshalReject raw with
  | None => ErrHsParse
  | Some r =>
      if negb (bool_decide (rChallenge r = challenge)) then ErrChallengeMismatch
      else ErrRejected (rReason r)
  end.

(** [None] stands for [matched == false]: the frame answers another client. *)
(* go: handshake/handshake.go 138-166 readReply *)
Definition readReply (rw : bytes) (challenge : string)
  : bytes * option (outcome hs_error (string * string)) :=
  match hs_readFrame rw with
  | (rw', Err e) => (rw', Some (Err e))
  | (rw', Panic) => (rw', Some Panic)
  | (rw', Ok raw) =>
      match UnmarshalProbe raw with
      | None => (rw', Some (Err ErrHsParse))
      | Some probe =>
          if negb (bool_decide (pChallenge probe = challenge)) then (rw', None)
          else if bool_decide (pType probe = TypeWelcome) then
            (rw', Some (parseWelcome raw challenge))
          else if bool_decide (pType probe = TypeReject) then
            (rw', Some (Err (parseReject raw challenge)))
          else (rw', Some (Err (ErrUnexpectedMessage (pType probe))))
      end
  end.

(** The loop of [Client]; [None] only when [fuel] runs out. *)
(* go: handshake/handshake.go 128-135 Client *)
Fixpoint client_loop (fuel : nat) (rw : bytes) (challenge : string)
  : option (bytes * outcome hs_error (string * string)) :=
  match fuel with
  | O => None
  | S fuel' =>
      match readReply rw challenge with
      | (rw', None) => client_loop fuel' rw' challenge
      | (rw', Some reply) => Some (rw', reply)
      end
  end.

(** Every round that goes on consumed a frame of at least four bytes, so the
    input length bounds the number of rounds. *)
(* go: handshake/handshake.go 110-136 Client *)
Definition ClientHandshake (rnd : option bytes) (w : writer) (r : bytes)
    (deviceID : string) (cl : claims)
  : writer * option (bytes * outcome hs_error (string * string)) :=
  match newChallenge rnd with
  | Err e => (w, Some (r, Err e))
  | Panic => (w, Some (r, Panic))
  | Ok challenge =>
      let hello := MkHello ProtoVersion TypeHello deviceID challenge cl in
      match hs_writeFrame MarshalHello w hello with
      | (w', Err e) => (w', Some (r, Err e))
      | (w', Panic) => (w', Some (r, Panic))
      | (w', Ok _) => (w', client_loop (S (length r)) r challenge)
      end
  end.

(** [auth] answers a session id or the text of its error. *)
Definition AuthFunc : Type := string -> claims -> outcome string string.

(* go: handshake/handshake.go 203-256 Server *)
Definition ServerHandshake (auth : AuthFunc) (peerID : string) (w : writer) (r : bytes)
  : writer * bytes * outcome hs_error (Hello claims * string) :=
  let reject w reason challenge :=
    (hs_writeFrame MarshalReject w (MkReject ProtoVersion TypeReject reason challenge)).1 in
  match hs_readFrame r with
  | (r', Err e) => (w, r', Err e)
  | (r', Panic) => (w, r', Panic)
  | (r', Ok raw) =>
      match UnmarshalHello raw with
      | None => (reject w "malformed hello" "", r', Err ErrHsParse)
      | Some h =>
          if negb (bool_decide (hType h = TypeHello)) then
            (reject w "expected CLIENT_HELLO" "", r', Err (ErrUnexpectedMessage (hType h)))
          else if negb (hVersion h =? ProtoVersion) then
            (reject w "protocol version mismatch" (hChallenge h), r',
             Err (ErrProtocolVersion (hVersion h)))
          else if negb (validChallenge (hChallenge h)) then
            (reject w "invalid handshake challenge" (hChallenge h), r', Err ErrChallengeRequired)
          else
            match auth (hDeviceID h) (hClaims h) with
            | Panic => (w, r', Panic)
            | Err reason => (reject w reason (hChallenge h), r', Err (ErrHsAuth reason))
            | Ok sessionID =>
                match hs_writeFrame MarshalWelcome w
                        (MkWelcome ProtoVersion TypeWelcome sessionID peerID (hChallenge h)) with
                | (w', Err e) => (w', r', Err e)
                | (w', Panic) => (w', r', Panic)
                | (w', Ok _) => (w', r', Ok (h, sessionID))
                end
            end
      end
  end.
End handshake.

(** ** Facts *)

Section facts.
Context {claims : Type} {J : HandshakeJSON claims}.

Lemma hs_readFrame_frame body r :
  len body <= HsMaxMessageSize -> hs_readFrame (frame body ++ r) = (r, Ok body).
Proof.
  unfold HsMaxMessageSize. intros H. unfold hs_readFrame.
  rewrite ReadBytes_frame; [done|change (2 ^ 32) with 4294967296; lia|].
  intros _. rewrite u32_small; unfold HsMaxMessageSize; lia.
Qed.

Lemma hs_readFrame_Ok r r' raw :
  byte_list r -> hs_readFrame r = (r', Ok raw) ->
  r = frame raw ++ r' /\ len raw <= HsMaxMessageSize /\ byte_list r'.
Proof.
  intros Hb. unfold hs_readFrame.
  destruct (ReadBytes r HsMaxMessageSize) as [r1 [b|e|]] eqn:Hr; [|done..].
  intros. inv_ok. apply ReadBytes_Ok in Hr as (-> & Hle & _); [|done].
  apply Forall_app in Hb as [_ Hb]. split_and!; [done|apply Hle; done|done].
Qed.

Lemma hs_writeFrame_Ok {M} (marshal : M -> option bytes) w msg w' :
  hs_writeFrame marshal w msg = (w', Ok tt) ->
  exists body, marshal msg = Some body /\ sink w' = sink w ++ frame body /\
    len body <= HsMaxMessageSize.
Proof.
  unfold hs_writeFrame, WriteJSON. destruct (marshal msg) as [body|]; [|done].
  destruct (WriteBytes w body HsMaxMessageSize) as [w1 [[]|e|]] eqn:Hw; [|done..].
  intros. inv_ok. exists body. split_and!; [done|by eapply WriteBytes_frame|].
  revert Hw. unfold WriteBytes. case_if; [done|]. intros _.
  destruct Heqb as [Hf|]; bool_to_Prop; [unfold HsMaxMessageSize in Hf; lia|lia].
Qed.

(** On a stream that does not fail, a message is either written as one whole
    frame or not at all. *)
Lemma hs_writeFrame_cases {M} (marshal : M -> option bytes) w msg :
  script w = [] ->
  (exists body, marshal msg = Some body /\
     hs_writeFrame marshal w msg = (Writer (sink w ++ frame body) [], Ok tt)) \/
  (exists e, hs_writeFrame marshal w msg = (w, Err e)).
Proof.
  intros Hs. unfold hs_writeFrame, WriteJSON. destruct (marshal msg) as [body|]; [|by eauto].
  destruct (decide (len body <= HsMaxMessageSize)).
  - left. exists body. by rewrite WriteBytes_ok.
  - right. unfold WriteBytes. rewrite (proj2 (Z.ltb_lt HsMaxMessageSize _)) by lia. by eauto.
Qed.

(** The loop terminates: a round without an answer shortens the input. *)
Lemma readReply_consumes rw challenge rw' :
  readReply rw challenge = (rw', None) -> (length rw' < length rw)%nat.
Proof.
  unfold readReply, hs_readFrame.
  pose proof (ReadBytes_consumes rw HsMaxMessageSize) as Hc.
  destruct (ReadBytes rw HsMaxMessageSize) as [r1 [b|e|]]; simpl in Hc; [|done..].
  specialize (Hc eq_refl). destruct (UnmarshalProbe b); [|done].
  repeat case_if; intros; inv_ok; done || lia.
Qed.

Lemma client_loop_total fuel rw challenge :
  (length rw < fuel)%nat -> is_Some (client_loop fuel rw challenge).
Proof.
  revert rw. induction fuel as [|fuel IH]; intros rw Hf; [lia|]. simpl.
  destruct (readReply rw challenge) as [rw' [reply|]] eqn:Hr; [by eexists|].
  apply IH. apply readReply_consumes in Hr. lia.
Qed.

(** A frame whose challenge is not ours is skipped. *)
Definition foreign (challenge : string) (raw : bytes) : Prop :=
  len raw <= HsMaxMessageSize /\
  exists probe, UnmarshalProbe raw = Some probe /\ pChallenge probe <> challenge.

Lemma client_loop_skips foreigns rest challenge fuel :
  Forall (foreign challenge) foreigns ->
  (length (concat (map frame foreigns) ++ rest) < fuel)%nat ->
  exists fuel', (length rest < fuel')%nat /\
    client_loop fuel (concat (map frame foreigns) ++ rest) challenge
    = client_loop fuel' rest challenge.
Proof.
  intros Hall. revert fuel.
  induction Hall as [|raw foreigns (Hlen & probe & Hp & Hne) Hall IH]; intros fuel Hf.
  - by exists fuel.
  - destruct fuel as [|fuel]; [lia|].
    change (concat (map frame (raw :: foreigns))) with (frame raw ++ concat (map frame foreigns)) in *.
    rewrite <- app_assoc in Hf |- *. rewrite length_app in Hf.
    destruct (IH fuel) as (fuel' & Hf' & Heq).
    { unfold frame in Hf at 1. rewrite length_app, length_be_put in Hf. lia. }
    exists fuel'. split; [done|]. rewrite <- Heq. cbn [client_loop].
    unfold readReply. rewrite hs_readFrame_frame by done. rewrite Hp.
    by rewrite bool_decide_eq_false_2.
Qed.
End facts.

Lemma validChallenge_new raw :
  byte_list raw -> len raw = challengeSize -> validChallenge (hex_EncodeToString raw) = true.
Proof. intros Hb Hl. unfold validChallenge. rewrite hex_decode_encode by done. by rewrite Hl. Qed.

Lemma validChallenge_length c : validChallenge c = true -> String.length c = 32%nat.
Proof.
  unfold validChallenge. destruct (hex_DecodeString c) as [d|] eqn:Hd; [|done].
  intros H. bool_to_Prop. apply hex_decode_length in Hd. unfold challengeSize in H. lia.
Qed.

(** ** A codec that satisfies the laws, for concrete runs

    Every message is the tuple (version, type, challenge, field, field), written
    out bit by bit. *)

Fixpoint pos_bytes (p : positive) : bytes :=
  match p with
  | xH => [2]
  | xO p' => 0 :: pos_bytes p'
  | xI p' => 1 :: pos_bytes p'
  end.

Fixpoint bytes_pos (l : bytes) : option positive :=
  match l with
  | [] => None
  | b :: l' =>
      if b =? 2 then Some xH
      else match bytes_pos l' with
           | None => None
           | Some p => Some (if b =? 1 then xI p else xO p)
           end
  end.

Lemma bytes_pos_bytes p : bytes_pos (pos_bytes p) = Some p.
Proof. induction p as [p IH|p IH|]; simpl; [by rewrite IH..|done]. Qed.

Definition tuple : Type := Z * string * string * string * string.
Definition tuple_bytes (t : tuple) : bytes := pos_bytes (encode t).
Definition bytes_tuple (b : bytes) : option tuple := bytes_pos b ≫= decode.

Lemma bytes_tuple_bytes t : bytes_tuple (tuple_bytes t) = Some t.
Proof.
  unfold bytes_tuple, tuple_bytes. rewrite bytes_pos_bytes. simpl. apply decode_encode.
Qed.

#[local] Instance toy_json : HandshakeJSON unit := {|
  claims_wire u := u;
  MarshalHello h :=
    Some (tuple_bytes (hVersion h, coerce_string (hType h), coerce_string (hChallenge h), coerce_string (hDeviceID h), ""%string));
  MarshalWelcome w :=
    Some (tuple_bytes (wVersion w, coerce_string (wType w), coerce_string (wChallenge w), coerce_string (wSessionID w), coerce_string (wPeerID w)));
  MarshalReject r :=
    Some (tuple_bytes (rVersion r, coerce_string (rType r), coerce_string (rChallenge r), coerce_string (rReason r), ""%string));
  UnmarshalHello b := (fun '(v, t, c, a, _) => MkHello v t a c tt) <$> bytes_tuple b;
  UnmarshalWelcome b := (fun '(v, t, c, a, d) => MkWelcome v t a d c) <$> bytes_tuple b;
  UnmarshalReject b := (fun '(v, t, c, a, _) => MkReject v t a c) <$> bytes_tuple b;
  UnmarshalProbe b := (fun '(v, t, c, a, _) => MkProbe t c) <$> bytes_tuple b;
|}.

#[local] Instance toy_json_laws : HandshakeJSONLaws toy_json.
Proof.
  split.
  - intros [v t d c []] b [= <-]. unfold UnmarshalHello. simpl. by rewrite bytes_tuple_bytes.
  - intros [v t a d c] b [= <-]. simpl. by rewrite bytes_tuple_bytes.
  - intros [v t a c] b [= <-]. simpl. by rewrite bytes_tuple_bytes.
Qed.

(** ** Properties *)

(** What the client makes of the reply that answers it. *)
Lemma client_reads_reply {claims} {J : HandshakeJSON claims} (c : string) (foreigns : list bytes) (body rest : bytes) (reply : outcome hs_error (string * string)) :
  Forall (foreign c) foreigns -> (forall r, readReply (frame body ++ r) c = (r, Some reply)) ->
  client_loop (S (length (concat (map frame foreigns) ++ frame body ++ rest))) (concat (map frame foreigns) ++ frame body ++ rest) c = Some (rest, reply).
Proof.
  intros Hfor Hread. destruct (client_loop_skips foreigns (frame body ++ rest) c
              (S (length (concat (map frame foreigns) ++ frame body ++ rest))) Hfor ltac:(lia)) as (fuel & Hfuel & ->).
  destruct fuel as [|fuel]; [lia|]. cbn [client_loop]. by rewrite Hread.
Qed.

Section agreement.
Context {claims : Type} {J : HandshakeJSON claims} {L : HandshakeJSONLaws J}.

Lemma readReply_welcome sid peerID c wb r :
  coerce_string c = c -> MarshalWelcome (MkWelcome ProtoVersion TypeWelcome sid peerID c) = Some wb -> len wb <= HsMaxMessageSize ->
  readReply (frame wb ++ r) c = (r, Some (Ok (coerce_string sid, coerce_string peerID))).
Proof.
  intros Hc Hwb Hlen. unfold readReply. rewrite hs_readFrame_frame by done. destruct (json_welcome _ _ Hwb) as [Hun ->].
  unfold parseWelcome. rewrite Hun. cbn [welcome_wire pChallenge pType wVersion wType wSessionID wPeerID wChallenge]. rewrite Hc.
  change (coerce_string TypeWelcome) with TypeWelcome. rewrite !(bool_decide_eq_true_2 (c = c)) by done.
  by rewrite bool_decide_eq_true_2, Z.eqb_refl.
Qed.

Lemma readReply_reject reason c rb r :
  coerce_string c = c -> MarshalReject (MkReject ProtoVersion TypeReject reason c) = Some rb -> len rb <= HsMaxMessageSize ->
  readReply (frame rb ++ r) c = (r, Some (Err (ErrRejected (coerce_string reason)))).
Proof.
  intros Hc Hrb Hlen. unfold readReply. rewrite hs_readFrame_frame by done. destruct (json_reject _ _ Hrb) as [Hun ->].
  unfold parseReject. rewrite Hun. cbn [reject_wire pChallenge pType rVersion rType rReason rChallenge]. rewrite Hc.
  change (coerce_string TypeReject) with TypeReject. by rewrite !(bool_decide_eq_true_2 (c = c)).
Qed.

(** C6: a client and a server that meet in a shared room agree.  The server reads the client's hello as JSON carries it (text that is not
    UTF-8 is replaced, claims have the types of JSON) and asks [auth] about that device and those claims.  If [auth] gives a
    session, the server reports that session, and the client gets its identifier and the server's peer identifier;
    if [auth] refuses, the server reports the refusal, and the client is rejected with that reason.  This holds however many replies
    meant for other clients arrive first, for replies that can be encoded within the limit of 64 KiB; a welcome that cannot
    is an error of the server. *)
Theorem handshake_agreement
    (auth : AuthFunc (claims := claims)) (raw : bytes) (deviceID peerID : string) (cl : claims)
    (wc : writer) (foreigns : list bytes) (more rest : bytes)
    (Hraw : byte_list raw) (Hlen : len raw = challengeSize)
    (Hwc : hs_writeFrame MarshalHello (Writer [] []) (MkHello ProtoVersion TypeHello deviceID (hex_EncodeToString raw) cl) = (wc, Ok tt))
    (Hfor : Forall (foreign (hex_EncodeToString raw)) foreigns) :
  let c := hex_EncodeToString raw in
  let server := ServerHandshake auth peerID (Writer [] []) (sink wc ++ more) in
  let client := (ClientHandshake (Some raw) (Writer [] []) (concat (map frame foreigns) ++ sink server.1.1 ++ rest) deviceID cl).2 in
  server.1.2 = more /\
  match auth (coerce_string deviceID) (claims_wire cl) with
  | Ok sid =>
      (forall b, MarshalWelcome (MkWelcome ProtoVersion TypeWelcome sid peerID c) = Some b -> len b <= HsMaxMessageSize ->
         server.2 = Ok (hello_wire (MkHello ProtoVersion TypeHello deviceID c cl), sid) /\
         client = Some (rest, Ok (coerce_string sid, coerce_string peerID))) /\
      (sink server.1.1 = [] -> exists e, server.2 = Err e)
  | Err reason =>
      server.2 = Err (ErrHsAuth reason) /\
      forall b, MarshalReject (MkReject ProtoVersion TypeReject reason c) = Some b -> len b <= HsMaxMessageSize ->
        client = Some (rest, Err (ErrRejected (coerce_string reason)))
  | Panic => server.2 = Panic
  end.
Proof.
  intros c server client. unfold client. clear client. destruct server as [[ws rs] res] eqn:Hsrv. cbn [fst snd].
  set (hello := MkHello ProtoVersion TypeHello deviceID c cl). fold c in Hwc, Hfor. fold hello in Hwc.
  set (client := (ClientHandshake _ _ _ _ _).2). subst server.
  assert (Hc : coerce_string c = c) by by apply hex_valid.
  assert (Hclient : client = client_loop (S (length (concat (map frame foreigns) ++ sink ws ++ rest))) (concat (map frame foreigns) ++ sink ws ++ rest) c).
  { unfold client, ClientHandshake, newChallenge. fold c hello. by rewrite Hwc. }
  clearbody client. subst client. apply hs_writeFrame_Ok in Hwc as (hb & Hhb & Hsink & Hhlen). simpl in Hsink.
  unfold ServerHandshake in Hsrv. rewrite Hsink, hs_readFrame_frame, (json_hello _ _ Hhb) in Hsrv by done.
  unfold hello in Hsrv. cbn [hello_wire hType hVersion hChallenge hDeviceID hClaims] in Hsrv. rewrite Hc in Hsrv.
  change (coerce_string TypeHello) with TypeHello in Hsrv. rewrite bool_decide_eq_true_2, Z.eqb_refl in Hsrv by done.
  unfold c in Hsrv. rewrite validChallenge_new in Hsrv by done. fold c in Hsrv. cbn [negb] in Hsrv.
  destruct (auth _ _) as [sid|reason|].
  - destruct (hs_writeFrame_cases MarshalWelcome (Writer [] []) (MkWelcome ProtoVersion TypeWelcome sid peerID c) eq_refl)
      as [(b & Hb & E)|[e E]]; rewrite E in Hsrv; injection Hsrv as <- <- <-; (split; [done|]); split.
    + intros b' Hb' Hl. rewrite Hb' in Hb. injection Hb as ->. split; [unfold hello_wire; simpl; by rewrite Hc|].
      apply client_reads_reply; [done|]. intros r. by apply readReply_welcome.
    + simpl. intros Hs. pose proof (f_equal length Hs) as Hs'. unfold frame in Hs'. rewrite length_app, length_be_put in Hs'. simpl in Hs'. lia.
    + intros b Hb Hl. unfold hs_writeFrame, WriteJSON in E. by rewrite Hb, WriteBytes_ok in E.
    + intros _. by exists e.
  - injection Hsrv as <- <- <-. split; [done|]. split; [done|]. intros b Hb Hl.
    unfold hs_writeFrame, WriteJSON. rewrite Hb, WriteBytes_ok by done. apply client_reads_reply; [done|]. intros r. by apply readReply_reject.
  - injection Hsrv as <- <- <-. done.
Qed.
End agreement.

(** Whatever bytes arrive, the client returns, and if it reports success
    then the reply it took is a version-3 welcome carrying its own fresh
    challenge, preceded only by frames that carry another challenge. *)
Theorem client_accepts_only_own_reply {claims} {J : HandshakeJSON claims}
    (raw : bytes) (w : writer) (r : bytes) (deviceID : string) (cl : claims) :
  byte_list r ->
  exists r' res,
    (ClientHandshake (Some raw) w r deviceID cl).2 = Some (r', res) /\
    forall sid pid, res = Ok (sid, pid) ->
      exists foreigns body welcome,
        r = concat (map frame foreigns) ++ frame body ++ r' /\
        Forall (foreign (hex_EncodeToString raw)) foreigns /\
        UnmarshalWelcome body = Some welcome /\ wVersion welcome = ProtoVersion /\
        wChallenge welcome = hex_EncodeToString raw /\
        wSessionID welcome = sid /\ wPeerID welcome = pid.
Proof.
  intros Hr. unfold ClientHandshake, newChallenge. set (c := hex_EncodeToString raw).
  destruct (hs_writeFrame _ w _) as [w' [[]|e|]]; cbn [snd];
    [|eexists _, _; split; [done|]; intros; congruence..].
  destruct (client_loop_total (S (length r)) r c ltac:(lia)) as [[r' res] Hl].
  exists r', res. split; [done|]. intros sid pid ->.
  remember (S (length r)) as fuel eqn:Hfuel. clear Hfuel. revert r Hr Hl.
  induction fuel as [|fuel IH]; intros r Hr Hl; [done|].
  cbn [client_loop] in Hl. destruct (readReply r c) as [r1 [reply|]] eqn:Hrep.
  - inv_ok. unfold readReply in Hrep. destruct (hs_readFrame r) as [r2 [body|e|]] eqn:Hf;
      [|done..].
    apply hs_readFrame_Ok in Hf as (-> & Hlen & _); [|done].
    destruct (UnmarshalProbe body) as [probe|]; [|done].
    case_if; [done|]. case_if; [|case_if; done]. inv_ok.
    unfold parseWelcome in *. destruct (UnmarshalWelcome body) as [wel|] eqn:Hun; [|done].
    case_if; [done|]. case_if; [done|]. inv_ok.
    exists [], body, wel. simpl. by split_and!; [constructor|..].
  - unfold readReply in Hrep. destruct (hs_readFrame r) as [r2 [body|e|]] eqn:Hf; [|done..].
    apply hs_readFrame_Ok in Hf as (-> & Hlen & Hb2); [|done].
    destruct (UnmarshalProbe body) as [probe|] eqn:Hp; [|done].
    case_if; [|repeat case_if; done]. inv_ok.
    destruct (IH r1 Hb2 Hl) as (fs & body' & wel & -> & Hfs & Hrest).
    exists (body :: fs), body', wel. split.
    + cbn [map concat]. by rewrite <- app_assoc.
    + split; [|done]. constructor; [|done]. split; [done|]. by exists probe.
Qed.

Definition demo_raw : bytes := replicate 16 171.
Definition demo_auth : AuthFunc (claims := unit) := fun _ _ => Ok "sess-1"%string.
Definition demo_hello : writer :=
  (hs_writeFrame MarshalHello (Writer [] [])
     (MkHello ProtoVersion TypeHello "dev" (hex_EncodeToString demo_raw) tt)).1.
Definition demo_server : writer * bytes * outcome hs_error (Hello unit * string) :=
  ServerHandshake demo_auth "0000002a" (Writer [] []) (sink demo_hello).
Definition demo_foreign : bytes :=
  tuple_bytes (3, TypeWelcome, "another challenge"%string, "sess-9"%string, "00000001"%string).

Lemma handshake_agreement_witness :
  (ClientHandshake (Some demo_raw) (Writer [] [])
     (concat (map frame [demo_foreign]) ++ sink demo_server.1.1 ++ []) "dev" tt).2
  = Some ([], Ok ("sess-1", "0000002a")%string).
Proof.
  pose proof (handshake_agreement demo_auth demo_raw "dev" "0000002a" tt demo_hello [demo_foreign] [] []) as H.
  destruct H as [_ [H _]].
  - repeat constructor; lia.
  - reflexivity.
  - vm_compute. reflexivity.
  - constructor; [|constructor]. split; [vm_compute; discriminate|].
    exists (MkProbe TypeWelcome "another challenge"). split; [vm_compute; reflexivity|]. vm_compute. discriminate.
  - rewrite (app_nil_r (sink demo_hello)) in H. exact (proj2 (H _ eq_refl ltac:(vm_compute; discriminate))).
Defined.

Lemma client_accepts_only_own_reply_witness :
  exists r' res,
    (ClientHandshake (Some demo_raw) (Writer [] []) (sink demo_server.1.1) "dev" tt).2
      = Some (r', res) /\
    forall sid pid, res = Ok (sid, pid) ->
      exists foreigns body welcome,
        sink demo_server.1.1 = concat (map frame foreigns) ++ frame body ++ r' /\
        Forall (foreign (hex_EncodeToString demo_raw)) foreigns /\
        UnmarshalWelcome body = Some welcome /\ wVersion welcome = ProtoVersion /\
        wChallenge welcome = hex_EncodeToString demo_raw /\
        wSessionID welcome = sid /\ wPeerID welcome = pid.
Proof.
  apply (client_accepts_only_own_reply demo_raw (Writer [] []) (sink demo_server.1.1) "dev" tt).
  apply (bool_decide_unpack _). vm_compute. exact I.
Defined.

(** The server reports success only for a version-3 CLIENT_HELLO with a
    well-formed 128-bit challenge that [auth] accepted, and then it has written
    exactly one frame, the welcome echoing that challenge; every other hello
    leaves at most one reject frame on the wire. *)
Theorem server_success_is_justified {claims} {J : HandshakeJSON claims}
    (auth : AuthFunc (claims := claims)) (peerID : string) (w w' : writer) (r r' : bytes)
    (res : outcome hs_error (Hello claims * string)) :
  script w = [] ->
  ServerHandshake auth peerID w r = (w', r', res) ->
  match res with
  | Ok (h, sid) =>
      hType h = TypeHello /\ hVersion h = ProtoVersion /\ validChallenge (hChallenge h) = true /\
      auth (hDeviceID h) (hClaims h) = Ok sid /\
      exists body, MarshalWelcome
        (MkWelcome ProtoVersion TypeWelcome sid peerID (hChallenge h)) = Some body /\
        sink w' = sink w ++ frame body
  | _ => sink w' = sink w \/
         exists reason c body, MarshalReject (MkReject ProtoVersion TypeReject reason c) = Some body
           /\ sink w' = sink w ++ frame body
  end.
Proof.
  intros Hs. assert (Hrej : forall reason c,
    let w1 := (hs_writeFrame MarshalReject w (MkReject ProtoVersion TypeReject reason c)).1 in
    sink w1 = sink w \/
    exists reason c body, MarshalReject (MkReject ProtoVersion TypeReject reason c) = Some body
      /\ sink w1 = sink w ++ frame body).
  { intros reason c.
    destruct (hs_writeFrame_cases MarshalReject w (MkReject ProtoVersion TypeReject reason c) Hs)
      as [(body & Hb & ->)|[e ->]]; simpl; eauto 10. }
  unfold ServerHandshake. destruct (hs_readFrame r) as [r1 [raw|e|]];
    [|intros; inv_ok; by left..].
  destruct (UnmarshalHello raw) as [h|]; [|intros; inv_ok; apply Hrej].
  case_if; [intros; inv_ok; apply Hrej|]. case_if; [intros; inv_ok; apply Hrej|].
  case_if; [intros; inv_ok; apply Hrej|].
  destruct (auth (hDeviceID h) (hClaims h)) as [sid|reason|] eqn:Ha;
    [|intros; inv_ok; apply Hrej|intros; inv_ok; by left].
  destruct (hs_writeFrame_cases MarshalWelcome w
              (MkWelcome ProtoVersion TypeWelcome sid peerID (hChallenge h)) Hs)
    as [(body & Hb & ->)|[e ->]]; intros; inv_ok; simpl; eauto 10.
Qed.

Lemma server_success_is_justified_witness :
  exists body, MarshalWelcome
    (MkWelcome ProtoVersion TypeWelcome "sess-1" "0000002a" (hex_EncodeToString demo_raw))
    = Some body /\ sink demo_server.1.1 = [] ++ frame body.
Proof.
  refine (proj2 (proj2 (proj2 (proj2
    (server_success_is_justified demo_auth "0000002a" (Writer [] []) demo_server.1.1
       (sink demo_hello) [] (Ok (MkHello ProtoVersion TypeHello "dev"
          (hex_EncodeToString demo_raw) tt, "sess-1"%string)) _ _))))).
  - reflexivity.
  - vm_compute. reflexivity.
Defined.
