(* ===== verification/Frame.v ===== *)
(** * Frame: the wire codec of the ack-based video transports
    (internal/transport/common/frame.go, binding.go) *)

From S2P Require Import Prelude Bytes Text.

(* go: transport/common/frame.go 42-46 FrameMagic *)
Definition FrameMagic : Z := 0x4f4c5643.
(* go: transport/common/frame.go 45-46 FrameVersion *)
Definition FrameVersion : Z := 5.
(* go: transport/common/frame.go 48-49 FrameTypeData *)
Definition FrameTypeData : Z := 1.
(* go: transport/common/frame.go 50-51 FrameTypeAck *)
Definition FrameTypeAck : Z := 2.
(* go: transport/common/frame.go 52-53 FrameTypeHello *)
Definition FrameTypeHello : Z := 3.
(* go: transport/common/frame.go 55-56 RoleAny *)
Definition RoleAny : Z := 0.
(* go: transport/common/frame.go 57-58 RoleServer *)
Definition RoleServer : Z := 1.
(* go: transport/common/frame.go 59-60 RoleClient *)
Definition RoleClient : Z := 2.

(** Header offsets. *)
(* go: transport/common/frame.go 63-77 frameHelloLen *)
Definition frameHelloLen : Z := 11.
(* go: transport/common/frame.go 63-77 frameAckLen *)
Definition frameAckLen : Z := 21.
(* go: transport/common/frame.go 63-77 frameDataHdrLen *)
Definition frameDataHdrLen : Z := 31.

(* go: transport/common/frame.go 79-94 Err* *)
Inductive frame_error :=
| ErrFrameTooShort
| ErrUnexpectedMagic
| ErrUnexpectedVersion
| ErrAckTooShort
| ErrDataTooShort
| ErrHelloTooShort
| ErrUnexpectedFrameType.

(* go: transport/common/frame.go 96-103 LocalRole *)
Definition LocalRole (deviceID : string) : Z :=
  if bool_decide (deviceID = ""%string) then RoleServer else RoleClient.

(* go: transport/common/frame.go 105-111 RemoteRole *)
Definition RemoteRole (deviceID : string) : Z :=
  if bool_decide (deviceID = ""%string) then RoleClient else RoleServer.

(* go: transport/common/frame.go 113-127 Frame *)
Record Frame := MkFrame {
  fType : Z;
  fRole : Z;
  fBinding : Z;
  fSeq : Z;
  fCRC : Z;
  fTotalLen : Z;
  fFragIdx : Z;
  fFragTotal : Z;
  fFragCRC : Z;
  fPayload : bytes;
}.

(* go: transport/common/frame.go 129-136 AcceptedBy *)
Definition AcceptedBy (f : Frame) (remoteRole binding : Z) : bool :=
  let roleOK := (fRole f =? RoleAny) || (fRole f =? remoteRole) in
  let bindingOK := (fBinding f =? 0) || (fBinding f =? binding) in
  roleOK && bindingOK.

(* go: transport/common/binding.go 5-28 BindingToken *)
Definition BindingToken (channelID roomURL : string) : Z :=
  let source := if bool_decide (channelID = ""%string) then roomURL else channelID in
  let token := fnv32a (string_bytes source) in
  if token =? 0 then 1 else token.

(** ** Encoding *)

(* go: transport/common/frame.go 138-145 putFrameHeader *)
Definition putFrameHeader (out : bytes) (typ role binding : Z) : bytes :=
  let out := write_at 0 (be_put 4 FrameMagic) out in
  let out := write_at 4 [FrameVersion] out in
  let out := write_at 5 [typ] out in
  let out := write_at 6 [role] out in
  write_at 7 (be_put 4 binding) out.

(* go: transport/common/frame.go 147-164 EncodeData *)
Definition EncodeData (role binding seq crc totalLen fragIdx fragTotal : Z) (payload : bytes)
  : bytes :=
  let out := replicate (31 + length payload) 0 in
  let out := putFrameHeader out FrameTypeData role binding in
  let out := write_at 11 (be_put 4 seq) out in
  let out := write_at 15 (be_put 4 crc) out in
  let out := write_at 19 (be_put 4 (u32 totalLen)) out in
  let out := write_at 23 (be_put 2 (u16 fragIdx)) out in
  let out := write_at 25 (be_put 2 (u16 fragTotal)) out in
  let out := write_at 27 (be_put 4 (ChecksumIEEE payload)) out in
  write_at 31 payload out.

(* go: transport/common/frame.go 166-174 EncodeAck *)
Definition EncodeAck (role binding seq crc fragIdx : Z) : bytes :=
  let out := replicate 21 0 in
  let out := putFrameHeader out FrameTypeAck role binding in
  let out := write_at 11 (be_put 4 seq) out in
  let out := write_at 15 (be_put 4 crc) out in
  write_at 19 (be_put 2 fragIdx) out.

(* go: transport/common/frame.go 176-181 EncodeHello *)
Definition EncodeHello (role binding : Z) : bytes :=
  putFrameHeader (replicate 11 0) FrameTypeHello role binding.

(** ** Decoding *)

(** [binary.BigEndian.Uint32(data[lo:hi])] and [Uint16]. *)
Definition uint_at {E} (data : bytes) (lo hi : Z) : outcome E Z :=
  let* b := slice data lo hi in Ok (be_get b).

(* go: transport/common/frame.go 211-222 validateFrameHeader *)
Definition validateFrameHeader (data : bytes) : outcome frame_error unit :=
  if len data <? 6 then Err ErrFrameTooShort
  else
    let* magic := uint_at data 0 4 in
    if negb (magic =? FrameMagic) then Err ErrUnexpectedMagic
    else
      let* version := index data 4 in
      if negb (version =? FrameVersion) then Err ErrUnexpectedVersion else Ok tt.

(* go: transport/common/frame.go 224-235 shortFrameError *)
Definition shortFrameError (typ : Z) : frame_error :=
  if typ =? FrameTypeAck then ErrAckTooShort
  else if typ =? FrameTypeData then ErrDataTooShort
  else if typ =? FrameTypeHello then ErrHelloTooShort
  else ErrUnexpectedFrameType.

(* go: transport/common/frame.go 237-245 decodeAckBody *)
Definition decodeAckBody (f : Frame) (data : bytes) : outcome frame_error Frame :=
  if len data <? frameAckLen then Err ErrAckTooShort
  else
    let* seq := uint_at data 11 15 in
    let* crc := uint_at data 15 19 in
    let* fragIdx := uint_at data 19 21 in
    Ok (MkFrame (fType f) (fRole f) (fBinding f) seq crc (fTotalLen f) fragIdx
                (fFragTotal f) (fFragCRC f) (fPayload f)).

(* go: transport/common/frame.go 247-259 decodeDataBody *)
Definition decodeDataBody (f : Frame) (data : bytes) : outcome frame_error Frame :=
  if len data <? frameDataHdrLen then Err ErrDataTooShort
  else
    let* seq := uint_at data 11 15 in
    let* crc := uint_at data 15 19 in
    let* totalLen := uint_at data 19 23 in
    let* fragIdx := uint_at data 23 25 in
    let* fragTotal := uint_at data 25 27 in
    let* fragCRC := uint_at data 27 31 in
    let* payload := slice_from data frameDataHdrLen in
    Ok (MkFrame (fType f) (fRole f) (fBinding f) seq crc totalLen fragIdx
                fragTotal fragCRC payload).

(* go: transport/common/frame.go 183-209 DecodeFrame *)
Definition DecodeFrame (data : bytes) : outcome frame_error Frame :=
  let* _ := validateFrameHeader data in
  let* typ := index data 5 in
  if len data <? frameHelloLen then Err (shortFrameError typ)
  else
    let* role := index data 6 in
    let* binding := uint_at data 7 11 in
    let f := MkFrame typ role binding 0 0 0 0 0 0 [] in
    if typ =? FrameTypeHello then Ok f
    else if typ =? FrameTypeAck then decodeAckBody f data
    else if typ =? FrameTypeData then decodeDataBody f data
    else Err ErrUnexpectedFrameType.

(** ** Layout facts *)

Definition frame_prefix (typ role binding : Z) : bytes :=
  be_put 4 FrameMagic ++ [FrameVersion; typ; role] ++ be_put 4 binding.

Definition data_frame (role binding seq crc totalLen fragIdx fragTotal fragCRC : Z)
    (payload : bytes) : bytes :=
  frame_prefix FrameTypeData role binding
  ++ (be_put 4 seq ++ be_put 4 crc ++ be_put 4 totalLen ++ be_put 2 fragIdx ++ be_put 2 fragTotal
      ++ be_put 4 fragCRC ++ payload).

Lemma EncodeData_layout role binding seq crc totalLen fragIdx fragTotal payload :
  EncodeData role binding seq crc totalLen fragIdx fragTotal payload
  = data_frame role binding seq crc (u32 totalLen) (u16 fragIdx) (u16 fragTotal)
      (ChecksumIEEE payload) payload.
Proof.
  unfold EncodeData, putFrameHeader, data_frame, frame_prefix.
  generalize (ChecksumIEEE payload), (u32 totalLen), (u16 fragIdx), (u16 fragTotal).
  intros fc tl fi ft. cbn -[u8 FrameMagic Z.shiftr].
  repeat f_equal. rewrite drop_0. simpl. rewrite drop_ge; [by rewrite app_nil_r|].
  by rewrite length_replicate.
Qed.

Lemma EncodeAck_layout role binding seq crc fragIdx :
  EncodeAck role binding seq crc fragIdx
  = frame_prefix FrameTypeAck role binding ++ be_put 4 seq ++ be_put 4 crc ++ be_put 2 fragIdx ++ [].
Proof. unfold EncodeAck, putFrameHeader, frame_prefix. done. Qed.

Lemma EncodeHello_layout role binding :
  EncodeHello role binding = frame_prefix FrameTypeHello role binding ++ [].
Proof. unfold EncodeHello, putFrameHeader, frame_prefix. done. Qed.

Lemma uint_at_ok {E} (data : bytes) lo hi :
  0 <= lo <= hi -> hi <= len data ->
  @uint_at E data lo hi = Ok (be_get (take (Z.to_nat (hi - lo)) (drop (Z.to_nat lo) data))).
Proof. intros. unfold uint_at. by rewrite slice_ok. Qed.

(** A field written with [be_put] at offset [lo] is read back. *)
Lemma uint_at_field {E} (n : nat) (pre post : bytes) (v lo hi : Z) :
  len pre = lo -> hi = lo + Z.of_nat n -> 0 <= v < 256 ^ Z.of_nat n ->
  @uint_at E (pre ++ be_put n v ++ post) lo hi = Ok v.
Proof.
  intros <- -> Hv. rewrite uint_at_ok by (rewrite ?len_app, ?length_be_put; lia).
  replace (len pre + Z.of_nat n - len pre) with (Z.of_nat n) by lia.
  rewrite !Nat2Z.id, drop_app_length, take_app_exact by apply length_be_put.
  by rewrite be_get_put.
Qed.

(** The shared prefix is read back and the body decoder of the type runs. *)
Lemma DecodeFrame_prefix typ role binding rest :
  is_u32 binding ->
  DecodeFrame (frame_prefix typ role binding ++ rest) =
    let data := frame_prefix typ role binding ++ rest in
    let f := MkFrame typ role binding 0 0 0 0 0 0 [] in
    if typ =? FrameTypeHello then Ok f
    else if typ =? FrameTypeAck then decodeAckBody f data
    else if typ =? FrameTypeData then decodeDataBody f data
    else Err ErrUnexpectedFrameType.
Proof.
  intros Hb. set (data := frame_prefix typ role binding ++ rest).
  assert (Hlen : len data = 11 + len rest)
    by (unfold data, frame_prefix; rewrite !len_app, !length_be_put; simpl length; lia).
  unfold DecodeFrame, validateFrameHeader, frameHelloLen. rewrite Hlen. case_if; [lia|].
  replace (@uint_at frame_error data 0 4) with (@Ok frame_error _ FrameMagic); cycle 1.
  { symmetry. unfold data, frame_prefix. rewrite <- app_assoc.
    by apply (uint_at_field 4 []). }
  cbn [obind]. rewrite Z.eqb_refl. cbn [negb].
  rewrite (index_lookup data 4 FrameVersion) by done. cbn [obind negb].
  change (FrameVersion =? FrameVersion) with true. cbn [negb obind].
  rewrite (index_lookup data 5 typ) by done. cbn [obind]. case_if; [lia|].
  rewrite (index_lookup data 6 role) by done. cbn [obind].
  replace (@uint_at frame_error data 7 11) with (@Ok frame_error _ binding); [done|].
  symmetry. unfold data, frame_prefix.
  rewrite (app_assoc (be_put 4 FrameMagic)), <- (app_assoc _ (be_put 4 binding)).
  by apply (uint_at_field 4).
Qed.

(** Reads the next field of [pre ++ be_put n v ++ post] and moves on to [post]. *)
Ltac next_field n :=
  match goal with
  | |- context [uint_at (?pre ++ be_put _ ?v ++ ?post) _ _] =>
      rewrite (uint_at_field n pre post v) by (rewrite ?len_app, ?length_be_put; done);
      cbn [obind]; rewrite ?(app_assoc pre (be_put n v) post)
  end.

Lemma DecodeFrame_data role binding seq crc tl fi ft fc payload :
  is_u32 binding -> is_u32 seq -> is_u32 crc -> is_u32 tl -> is_u16 fi -> is_u16 ft -> is_u32 fc ->
  DecodeFrame (data_frame role binding seq crc tl fi ft fc payload)
  = Ok (MkFrame FrameTypeData role binding seq crc tl fi ft fc payload).
Proof.
  intros Hb Hs Hc Ht Hi Hn Hf. unfold data_frame. rewrite DecodeFrame_prefix by done.
  cbv zeta. change (FrameTypeData =? FrameTypeHello) with false.
  change (FrameTypeData =? FrameTypeAck) with false.
  change (FrameTypeData =? FrameTypeData) with true. cbv iota.
  unfold decodeDataBody, frameDataHdrLen. cbn [fType fRole fBinding].
  set (P := frame_prefix FrameTypeData role binding).
  assert (HP : len P = 11) by done.
  case_if; [rewrite !len_app, !length_be_put in *; lia|].
  do 3 next_field 4%nat. do 2 next_field 2%nat. next_field 4%nat.
  rewrite slice_from_ok by (rewrite !len_app, !length_be_put; lia). cbn [obind].
  by rewrite drop_app_exact.
Qed.

Lemma DecodeFrame_ack role binding seq crc fi :
  is_u32 binding -> is_u32 seq -> is_u32 crc -> is_u16 fi ->
  DecodeFrame (EncodeAck role binding seq crc fi)
  = Ok (MkFrame FrameTypeAck role binding seq crc 0 fi 0 0 []).
Proof.
  intros Hb Hs Hc Hi. rewrite EncodeAck_layout, DecodeFrame_prefix by done.
  cbv zeta. change (FrameTypeAck =? FrameTypeHello) with false.
  change (FrameTypeAck =? FrameTypeAck) with true. cbv iota.
  unfold decodeAckBody, frameAckLen. cbn [fType fRole fBinding fTotalLen fFragTotal fFragCRC fPayload].
  set (P := frame_prefix FrameTypeAck role binding).
  assert (HP : len P = 11) by done.
  case_if; [rewrite !len_app, !length_be_put in *; simpl in *; lia|].
  do 2 next_field 4%nat. by next_field 2%nat.
Qed.

Lemma DecodeFrame_hello role binding :
  is_u32 binding ->
  DecodeFrame (EncodeHello role binding)
  = Ok (MkFrame FrameTypeHello role binding 0 0 0 0 0 0 []).
Proof. intros Hb. by rewrite EncodeHello_layout, DecodeFrame_prefix. Qed.

Lemma DecodeFrame_no_panic data : DecodeFrame data <> Panic.
Proof.
  unfold DecodeFrame, validateFrameHeader, decodeAckBody, decodeDataBody.
  unfold frameHelloLen, frameAckLen, frameDataHdrLen.
  case_if; [done|]. rewrite uint_at_ok by lia. cbn [obind]. case_if; [done|].
  destruct (index_in_range (E := frame_error) data 4 ltac:(lia)) as (v & _ & ->). cbn [obind].
  case_if; [done|]. cbn [obind].
  destruct (index_in_range (E := frame_error) data 5 ltac:(lia)) as (t & _ & ->). cbn [obind].
  case_if; [done|].
  destruct (index_in_range (E := frame_error) data 6 ltac:(lia)) as (r & _ & ->). cbn [obind].
  rewrite uint_at_ok by lia. cbn [obind]. case_if; [done|]. case_if; [|case_if; [|done]].
  - case_if; [done|]. by rewrite !uint_at_ok by lia.
  - case_if; [done|]. rewrite !uint_at_ok by lia. cbn [obind]. by rewrite slice_from_ok by lia.
Qed.

(** The [n] bytes at offset [k] are the encoding of the field read there. *)
Lemma field_at (k n : nat) (data : bytes) :
  byte_list data -> (k + n <= length data)%nat ->
  be_put n (be_get (take n (drop k data))) ++ drop (k + n) data = drop k data.
Proof.
  intros Hb Hn. rewrite <- drop_drop. etransitivity; [|apply (take_drop n)]. f_equal.
  rewrite <- (be_put_get (take n (drop k data))) at 2 by (by apply Forall_take, Forall_drop).
  rewrite length_take, length_drop. f_equal. lia.
Qed.

(** A data frame is determined by its decoded fields. *)
Lemma DecodeFrame_data_inv data f :
  byte_list data -> DecodeFrame data = Ok f -> fType f = FrameTypeData ->
  data = data_frame (fRole f) (fBinding f) (fSeq f) (fCRC f) (fTotalLen f) (fFragIdx f)
           (fFragTotal f) (fFragCRC f) (fPayload f) /\
  is_u32 (fTotalLen f) /\ is_u16 (fFragIdx f) /\ is_u16 (fFragTotal f).
Proof.
  intros Hb. unfold DecodeFrame, validateFrameHeader, frameHelloLen.
  case_if; [done|]. rewrite uint_at_ok by lia. cbn [obind]. case_if; [done|].
  destruct (index_in_range (E := frame_error) data 4 ltac:(lia)) as (v & Hv & ->). cbn [obind].
  case_if; [done|]. cbn [obind].
  destruct (index_in_range (E := frame_error) data 5 ltac:(lia)) as (t & Ht & ->). cbn [obind].
  case_if; [done|].
  destruct (index_in_range (E := frame_error) data 6 ltac:(lia)) as (r & Hr & ->). cbn [obind].
  rewrite uint_at_ok by lia. cbn [obind]. case_if; [intros; inv_ok; done|].
  case_if.
  { unfold decodeAckBody, frameAckLen. case_if; [done|]. rewrite !uint_at_ok by lia.
    cbn [obind]. intros; inv_ok. done. }
  case_if; [|done]. unfold decodeDataBody, frameDataHdrLen. case_if; [done|].
  rewrite !uint_at_ok by lia. cbn [obind]. rewrite slice_from_ok by lia. cbn [obind].
  intros Hok _. inv_ok.
  cbn [fType fRole fBinding fSeq fCRC fTotalLen fFragIdx fFragTotal fFragCRC fPayload].
  assert (E : data = be_put 4 (be_get (take 4 (drop 0 data))) ++ FrameVersion :: FrameTypeData :: r ::
    be_put 4 (be_get (take 4 (drop 7 data))) ++ be_put 4 (be_get (take 4 (drop 11 data))) ++
    be_put 4 (be_get (take 4 (drop 15 data))) ++ be_put 4 (be_get (take 4 (drop 19 data))) ++
    be_put 2 (be_get (take 2 (drop 23 data))) ++ be_put 2 (be_get (take 2 (drop 25 data))) ++
    be_put 4 (be_get (take 4 (drop 27 data))) ++ drop 31 data).
  { rewrite (field_at 27 4), (field_at 25 2), (field_at 23 2), (field_at 19 4), (field_at 15 4),
      (field_at 11 4), (field_at 7 4) by (done || lia).
    rewrite <- (drop_S data r 6 Hr), <- (drop_S data FrameTypeData 5 Ht),
      <- (drop_S data FrameVersion 4 Hv).
    by rewrite (field_at 0 4) by (done || lia). }
  assert (HR : forall k n, (k + n <= length data)%nat ->
            0 <= be_get (take n (drop k data)) < 256 ^ Z.of_nat n).
  { intros k n Hk. pose proof (be_get_range (take n (drop k data))
      ltac:(by apply Forall_take, Forall_drop)) as HR.
    rewrite length_take, length_drop, Nat.min_l in HR by lia. done. }
  split; [|exact (conj (HR 19%nat 4%nat ltac:(lia))
                    (conj (HR 23%nat 2%nat ltac:(lia)) (HR 25%nat 2%nat ltac:(lia))))].
  rewrite E at 1. unfold data_frame, frame_prefix.
  match goal with H : be_get _ = FrameMagic |- _ =>
    change (be_get (take 4 (drop 0 data)) = FrameMagic) in H; rewrite H end.
  rewrite <- !app_assoc. done.
Qed.

(** ** Properties *)

(** Decoding inverts encoding for all three frame types: every field and
    the payload of a data frame, an acknowledgement and a hello come back. *)
Theorem frame_codec_roundtrip (role binding seq crc totalLen fragIdx fragTotal : Z) (payload : bytes) :
  is_u32 binding -> is_u32 seq -> is_u32 crc -> is_u32 totalLen -> is_u16 fragIdx ->
  is_u16 fragTotal -> byte_list payload ->
  DecodeFrame (EncodeData role binding seq crc totalLen fragIdx fragTotal payload)
    = Ok (MkFrame FrameTypeData role binding seq crc totalLen fragIdx fragTotal
            (ChecksumIEEE payload) payload) /\
  DecodeFrame (EncodeAck role binding seq crc fragIdx)
    = Ok (MkFrame FrameTypeAck role binding seq crc 0 fragIdx 0 0 []) /\
  DecodeFrame (EncodeHello role binding)
    = Ok (MkFrame FrameTypeHello role binding 0 0 0 0 0 0 []).
Proof.
  intros. split_and!; [|by apply DecodeFrame_ack|by apply DecodeFrame_hello].
  rewrite EncodeData_layout, u32_small, !u16_small by done.
  apply DecodeFrame_data; auto. apply crc32_range; auto with go.
Qed.

Lemma frame_codec_roundtrip_witness :
  DecodeFrame (EncodeData RoleClient 77 1 2 3 0 1 [104; 105; 33])
    = Ok (MkFrame FrameTypeData RoleClient 77 1 2 3 0 1 (ChecksumIEEE [104; 105; 33]) [104; 105; 33]) /\
  DecodeFrame (EncodeAck RoleClient 77 1 2 0)
    = Ok (MkFrame FrameTypeAck RoleClient 77 1 2 0 0 0 0 []) /\
  DecodeFrame (EncodeHello RoleClient 77)
    = Ok (MkFrame FrameTypeHello RoleClient 77 0 0 0 0 0 0 []).
Proof.
  apply (frame_codec_roundtrip RoleClient 77 1 2 3 0 1 [104; 105; 33]); try lia.
  repeat constructor; lia.
Defined.

(** No byte string makes the decoder index out of range, and the data
    frames it accepts are exactly the canonical encodings: re-encoding the decoded
    fields of a frame whose fragment checksum matches gives the same bytes. *)
Theorem DecodeFrame_total_and_canonical (data : bytes) :
  byte_list data ->
  DecodeFrame data <> Panic /\
  forall f, DecodeFrame data = Ok f -> fType f = FrameTypeData ->
    fFragCRC f = ChecksumIEEE (fPayload f) ->
    EncodeData (fRole f) (fBinding f) (fSeq f) (fCRC f) (fTotalLen f) (fFragIdx f)
      (fFragTotal f) (fPayload f) = data.
Proof.
  intros Hb. split; [apply DecodeFrame_no_panic|]. intros f Hf Ht Hcrc.
  rewrite EncodeData_layout, <- Hcrc.
  destruct (DecodeFrame_data_inv data f Hb Hf Ht) as (E & ? & ? & ?).
  rewrite u32_small, !u16_small by done. by symmetry.
Qed.

Lemma DecodeFrame_total_and_canonical_witness :
  let data := EncodeData RoleServer 9 4 5 2 0 1 [7; 8] in
  DecodeFrame data <> Panic /\
  forall f, DecodeFrame data = Ok f -> fType f = FrameTypeData ->
    fFragCRC f = ChecksumIEEE (fPayload f) ->
    EncodeData (fRole f) (fBinding f) (fSeq f) (fCRC f) (fTotalLen f) (fFragIdx f)
      (fFragTotal f) (fPayload f) = data.
Proof.
  apply (DecodeFrame_total_and_canonical (EncodeData RoleServer 9 4 5 2 0 1 [7; 8])).
  apply (bool_decide_unpack _). vm_compute. exact I.
Defined.

(** Two pairs that share a room stay apart: the binding token is never the
    wildcard zero, a frame stamped with one token is refused by a receiver holding
    a different one, and no side accepts a frame of its own role. *)
Theorem binding_isolates_sessions (channel room channel' room' device : string) (f : Frame) :
  fBinding f = BindingToken channel room ->
  is_u32 (BindingToken channel room) /\ BindingToken channel room <> 0 /\
  (BindingToken channel room <> BindingToken channel' room' ->
   AcceptedBy f (RemoteRole device) (BindingToken channel' room') = false) /\
  (fRole f = LocalRole device ->
   AcceptedBy f (RemoteRole device) (BindingToken channel' room') = false).
Proof.
  intros Hf.
  assert (Hr : is_u32 (BindingToken channel room) /\ BindingToken channel room <> 0).
  { unfold BindingToken. pose proof (fnv32a_range
      (string_bytes (if bool_decide (channel = ""%string) then room else channel))).
    case_if; lia. }
  destruct Hr as [Hr Hz]. split_and!; [lia|lia|done| |]; unfold AcceptedBy; rewrite Hf.
  - intros Hne. rewrite (proj2 (Z.eqb_neq _ 0) Hz), (proj2 (Z.eqb_neq _ _) Hne).
    apply andb_false_r.
  - intros ->. unfold LocalRole, RemoteRole. by case_bool_decide.
Qed.

Lemma binding_isolates_sessions_witness :
  let f := MkFrame FrameTypeHello RoleClient (BindingToken "alpha" "") 0 0 0 0 0 0 [] in
  is_u32 (BindingToken "alpha" "") /\ BindingToken "alpha" "" <> 0 /\
  (BindingToken "alpha" "" <> BindingToken "beta" "" ->
   AcceptedBy f (RemoteRole "") (BindingToken "beta" "") = false) /\
  (fRole f = LocalRole "" ->
   AcceptedBy f (RemoteRole "") (BindingToken "beta" "") = false).
Proof.
  apply (binding_isolates_sessions "alpha" "" "beta" "" ""
           (MkFrame FrameTypeHello RoleClient (BindingToken "alpha" "") 0 0 0 0 0 0 [])).
  reflexivity.
Defined.
