(* ===== verification/Reassembly.v ===== *)
(** * Reassembly: fragments and the reassembler
    (internal/transport/common/common.go)

    A nil slice of [frags] is [None]; an [*InboundMessage] lives in the map
    [inbound] only, so the pointer [upsert] returns is the entry at the
    fragment's sequence number.  The mutex makes every [Push] atomic. *)

From S2P Require Import Prelude Bytes.

(** ** Fragmentation *)

(** The loop of [FragmentPayload]; [len data] rounds are enough because every
    round advances [start] by at least one byte. *)
(* go: transport/common/common.go 45-53 FragmentPayload *)
Fixpoint fragment_loop (fuel : nat) (data : bytes) (maxSize start : Z) : list bytes :=
  match fuel with
  | O => []
  | S fuel' =>
      if start <? len data then
        let stop := start + maxSize in
        let stop := if len data <? stop then len data else stop in
        take (Z.to_nat (stop - start)) (drop (Z.to_nat start) data)
          :: fragment_loop fuel' data maxSize (start + maxSize)
      else []
  end.

(* go: transport/common/common.go 32-54 FragmentPayload *)
Definition FragmentPayload (data : bytes) (maxSize : Z) : list bytes :=
  if len data =? 0 then [[]]
  else if maxSize <=? 0 then [data]
  else fragment_loop (length data) data maxSize 0.

(** ** Fragments *)

(* go: transport/common/common.go 56-68 MaxMessageLen *)
Definition MaxMessageLen : Z := 256 * 1024.
(* go: transport/common/common.go 68-70 MaxFragments *)
Definition MaxFragments : Z := 4096.

(* go: transport/common/common.go 72-82 Fragment *)
Record Fragment := MkFragment {
  gSeq : Z;
  gCRC : Z;
  gTotalLen : Z;
  gFragIdx : Z;
  gFragTotal : Z;
  gFragCRC : Z;
  gPayload : bytes;
}.

(* go: transport/common/common.go 84-90 WithPayloadCRC *)
Definition WithPayloadCRC (f : Fragment) : Fragment :=
  MkFragment (gSeq f) (gCRC f) (gTotalLen f) (gFragIdx f) (gFragTotal f)
             (ChecksumIEEE (gPayload f)) (gPayload f).

(* go: transport/common/common.go 92-112 valid *)
Definition valid (f : Fragment) : bool :=
  if (gFragTotal f =? 0) || (MaxFragments <? gFragTotal f) || (gFragTotal f <=? gFragIdx f)
  then false
  else if MaxMessageLen <? gTotalLen f then false
  else if Z.max (gTotalLen f) 1 <? gFragTotal f then false
  else if gTotalLen f <? len (gPayload f) then false
  else ChecksumIEEE (gPayload f) =? gFragCRC f.

(** ** The reassembler *)

(* go: transport/common/common.go 114-123 InboundMessage *)
Record InboundMessage := MkInbound {
  mTotalLen : Z;
  mCRC : Z;
  mFrags : list (option bytes);
  mRemain : Z;
  mAdded : Z;
}.

(* go: transport/common/common.go 125-145 Reassembler *)
Record Reassembler := MkReassembler {
  inbound : gmap Z InboundMessage;
  delivered : gmap Z Z;
  previous : gmap Z Z;
  maxRecent : Z;
  maxPending : Z;
  addCounter : Z;
}.

(* go: transport/common/common.go 147-161 NewReassembler *)
Definition NewReassembler (n : Z) : Reassembler :=
  let n := if n <=? 0 then 256 else n in
  MkReassembler ∅ ∅ ∅ n n 0.

(* go: transport/common/common.go 163-174 Reset *)
Definition ResetReassembler (r : Reassembler) : Reassembler :=
  MkReassembler ∅ ∅ ∅ (maxRecent r) (maxPending r) 0.

Definition set_inbound (r : Reassembler) (m : gmap Z InboundMessage) : Reassembler :=
  MkReassembler m (delivered r) (previous r) (maxRecent r) (maxPending r) (addCounter r).

(** [ResultDelivered] carries the reassembled payload, the second result of
    [Push] in the code. *)
(* go: transport/common/common.go 176-191 Result *)
Inductive Result :=
| ResultIgnore
| ResultPartial
| ResultDuplicate
| ResultDelivered (data : bytes).

(* go: transport/common/common.go 216-222 alreadyDelivered *)
Definition alreadyDelivered (r : Reassembler) (f : Fragment) : bool :=
  match delivered r !! gSeq f with
  | Some crc => crc =? gCRC f
  | None =>
      match previous r !! gSeq f with
      | Some crc => crc =? gCRC f
      | None => false
      end
  end.

(** The scan over the map; Go visits the entries in an unspecified order. *)
(* go: transport/common/common.go 253-265 evictOldestIfFull *)
Fixpoint scan_oldest (keep : Z) (entries : list (Z * InboundMessage)) (found : option (Z * Z))
  : option (Z * Z) :=
  match entries with
  | [] => found
  | (seq, m) :: rest =>
      let found' :=
        if seq =? keep then found
        else match found with
             | None => Some (seq, mAdded m)
             | Some (_, oldestAdded) =>
                 if mAdded m <? oldestAdded then Some (seq, mAdded m) else found
             end in
      scan_oldest keep rest found'
  end.

(* go: transport/common/common.go 245-269 evictOldestIfFull *)
Definition evictOldestIfFull (r : Reassembler) (keep : Z) : Reassembler :=
  if (maxPending r <=? 0) || (Z.of_nat (size (inbound r)) <=? maxPending r) then r
  else match scan_oldest keep (map_to_list (inbound r)) None with
       | Some (oldestSeq, _) => set_inbound r (delete oldestSeq (inbound r))
       | None => r
       end.

(* go: transport/common/common.go 224-243 upsert *)
Definition upsert (r : Reassembler) (f : Fragment) : Reassembler * InboundMessage :=
  let fresh :=
    let added := u64 (addCounter r + 1) in
    let msg := MkInbound (gTotalLen f) (gCRC f)
                 (replicate (Z.to_nat (gFragTotal f)) None) (gFragTotal f) added in
    let r1 := MkReassembler (<[gSeq f := msg]> (inbound r)) (delivered r) (previous r)
                (maxRecent r) (maxPending r) added in
    (evictOldestIfFull r1 (gSeq f), msg) in
  match inbound r !! gSeq f with
  | Some msg =>
      if (mCRC msg =? gCRC f) && (mTotalLen msg =? gTotalLen f)
         && (len (mFrags msg) =? gFragTotal f)
      then (r, msg)
      else fresh
  | None => fresh
  end.

(* go: transport/common/common.go 271-279 storeChunk *)
Definition storeChunk (msg : InboundMessage) (f : Fragment) : outcome Empty_set InboundMessage :=
  let* slot := index (mFrags msg) (gFragIdx f) in
  match slot with
  | Some _ => Ok msg
  | None =>
      Ok (MkInbound (mTotalLen msg) (mCRC msg)
            (<[Z.to_nat (gFragIdx f) := Some (gPayload f)]> (mFrags msg))
            (mRemain msg - 1) (mAdded msg))
  end.

(** The bytes of a slot; a nil slice has length zero. *)
Definition slot_bytes (s : option bytes) : bytes := default [] s.

(* go: transport/common/common.go 306-313 assemble *)
Fixpoint assemble_loop (frags : list (option bytes)) (size : Z) (out : bytes) : bytes :=
  match frags with
  | [] => out
  | frag :: rest =>
      if size <? len out + len (slot_bytes frag)
      then out ++ take (Z.to_nat (size - len out)) (slot_bytes frag)
      else assemble_loop rest size (out ++ slot_bytes frag)
  end.

(* go: transport/common/common.go 295-314 assemble *)
Definition assemble (msg : InboundMessage) : bytes :=
  let size := foldr (fun frag n => len (slot_bytes frag) + n) 0 (mFrags msg) in
  let size := if mTotalLen msg <? size then mTotalLen msg else size in
  assemble_loop (mFrags msg) size [].

(* go: transport/common/common.go 281-293 deliver *)
Definition deliverMsg (r : Reassembler) (seq : Z) (msg : InboundMessage) : Reassembler * Result :=
  let r := set_inbound r (delete seq (inbound r)) in
  let data := assemble msg in
  if negb (ChecksumIEEE data =? mCRC msg) then (r, ResultIgnore)
  else
    let '(del, prev) :=
      if maxRecent r <=? Z.of_nat (size (delivered r)) then (∅, delivered r)
      else (delivered r, previous r) in
    (MkReassembler (inbound r) (<[seq := mCRC msg]> del) prev (maxRecent r) (maxPending r)
                   (addCounter r),
     ResultDelivered data).

(* go: transport/common/common.go 193-214 Push *)
Definition Push (r : Reassembler) (f : Fragment) : Reassembler * outcome Empty_set Result :=
  if negb (valid f) then (r, Ok ResultIgnore)
  else if alreadyDelivered r f then (r, Ok ResultDuplicate)
  else
    let '(r1, msg) := upsert r f in
    match storeChunk msg f with
    | Panic => (r1, Panic)
    | Err e => (r1, Err e)
    | Ok msg' =>
        let r2 := set_inbound r1 (<[gSeq f := msg']> (inbound r1)) in
        if 0 <? mRemain msg' then (r2, Ok ResultPartial)
        else let '(r3, res) := deliverMsg r2 (gSeq f) msg' in (r3, Ok res)
    end.

(** ** Fragmentation facts *)

Lemma fragment_loop_spec fuel data maxSize start :
  0 < maxSize -> 0 <= start -> (Z.to_nat (len data - start) <= fuel)%nat ->
  concat (fragment_loop fuel data maxSize start) = drop (Z.to_nat start) data /\
  Forall (fun c => 0 < len c <= maxSize) (fragment_loop fuel data maxSize start) /\
  len (fragment_loop fuel data maxSize start) = (Z.max 0 (len data - start) + maxSize - 1) / maxSize.
Proof.
  intros Hm. revert start. induction fuel as [|fuel IH]; intros start Hs Hf; cbn [fragment_loop].
  - split; [|split].
    + simpl. symmetry. apply drop_ge. lia.
    + constructor.
    + rewrite Z.max_l by lia. symmetry. apply Z.div_small. lia.
  - case_if.
    + destruct (IH (start + maxSize) ltac:(lia) ltac:(lia)) as (Hc & Ha & Hl).
      set (stop := if len data <? start + maxSize then len data else start + maxSize).
      assert (Hstop : stop = Z.min (len data) (start + maxSize)) by (unfold stop; case_if; lia).
      split; [|split].
      * cbn [concat]. rewrite Hc. rewrite Hstop.
        destruct (decide (len data <= start + maxSize)).
        -- rewrite (drop_ge _ (Z.to_nat (start + maxSize))) by lia. rewrite app_nil_r.
           apply take_ge. rewrite length_drop. lia.
        -- replace (Z.to_nat (start + maxSize))
             with (Z.to_nat start + Z.to_nat (Z.min (len data) (start + maxSize) - start))%nat by lia.
           rewrite <- drop_drop. apply take_drop.
      * constructor; [|done]. rewrite length_take, length_drop. lia.
      * cbn [length]. rewrite Nat2Z.inj_succ, Hl.
        replace (Z.max 0 (len data - start) + maxSize - 1)
          with (len data - start - 1 + 1 * maxSize) by lia.
        rewrite Z.div_add by lia.
        destruct (decide (len data <= start + maxSize)).
        -- rewrite Z.max_l by lia. rewrite !Z.div_small by lia. lia.
        -- rewrite Z.max_r by lia.
           replace (len data - (start + maxSize) + maxSize - 1) with (len data - start - 1) by lia.
           lia.
    + split; [|split].
      * symmetry. apply drop_ge. lia.
      * constructor.
      * rewrite Z.max_l by lia. symmetry. apply Z.div_small. lia.
Qed.

Lemma FragmentPayload_nonempty data maxSize : FragmentPayload data maxSize <> [].
Proof.
  unfold FragmentPayload. case_if; [done|]. case_if; [done|].
  destruct data; [done|]. cbn [fragment_loop length]. case_if; [done|]. simpl in *. lia.
Qed.

(** Fragmenting loses and reorders nothing: the fragments concatenate to
    the message, none exceeds the configured size, there is always at least one,
    and for a positive size there are exactly ceil(len/size) of them. *)
Theorem FragmentPayload_partition (data : bytes) (maxSize : Z) :
  concat (FragmentPayload data maxSize) = data /\
  FragmentPayload data maxSize <> [] /\
  (0 < maxSize ->
     Forall (fun c => len c <= maxSize) (FragmentPayload data maxSize) /\
     len (FragmentPayload data maxSize) = Z.max 1 ((len data + maxSize - 1) / maxSize)).
Proof.
  split; [|split; [apply FragmentPayload_nonempty|]]; unfold FragmentPayload; case_if.
  - simpl. symmetry. apply nil_length_inv. lia.
  - case_if; [simpl; apply app_nil_r|].
    destruct (fragment_loop_spec (length data) data maxSize 0) as [Hc _]; [lia..|].
    by rewrite Hc.
  - intros Hm. split; [repeat constructor; simpl; lia|]. simpl length.
    rewrite Z.div_small by lia. done.
  - intros Hm. case_if; [lia|].
    destruct (fragment_loop_spec (length data) data maxSize 0) as (_ & Ha & Hl); [lia..|].
    split; [eapply Forall_impl; [done|]; simpl; lia|].
    rewrite Hl, Z.sub_0_r, Z.max_r by lia.
    assert (1 <= (len data + maxSize - 1) / maxSize) by (apply Z.div_le_lower_bound; lia).
    lia.
Qed.
