(* ===== verification/ReassemblyFacts.v ===== *)
(** * ReassemblyFacts: invariant, completeness, integrity and deduplication of
    the reassembler *)

From S2P Require Import Prelude Bytes Reassembly.

(** ** Well-formedness *)

Definition missing (frags : list (option bytes)) : Z :=
  len (filter (fun s => s = None) frags).

Record msg_shape (m : InboundMessage) : Prop := {
  ms_count : 0 < len (mFrags m) <= MaxFragments;
  ms_remain : mRemain m = missing (mFrags m);
  ms_total : 0 <= mTotalLen m <= MaxMessageLen;
  ms_slots : Forall (fun s => len (slot_bytes s) <= mTotalLen m) (mFrags m);
}.

Record reasm_ok (r : Reassembler) : Prop := {
  ro_recent : 0 < maxRecent r;
  ro_pending : maxPending r = maxRecent r;
  ro_inbound_size : Z.of_nat (size (inbound r)) <= maxPending r;
  ro_delivered_size : Z.of_nat (size (delivered r)) <= maxRecent r;
  ro_previous_size : Z.of_nat (size (previous r)) <= maxRecent r;
  ro_msgs : map_Forall (fun _ m => msg_shape m /\ 0 < mRemain m) (inbound r);
}.

(** A fragment as the decoder produces it: unsigned fields. *)
Definition frag_typed (f : Fragment) : Prop :=
  0 <= gTotalLen f /\ 0 <= gFragIdx f /\ 0 <= gFragTotal f.

Lemma valid_inv f : valid f = true ->
  gFragTotal f <> 0 /\ gFragTotal f <= MaxFragments /\ gFragIdx f < gFragTotal f /\
  gTotalLen f <= MaxMessageLen /\ gFragTotal f <= Z.max (gTotalLen f) 1 /\
  len (gPayload f) <= gTotalLen f /\ ChecksumIEEE (gPayload f) = gFragCRC f.
Proof.
  unfold valid. repeat (case_if; [done|]). intros. bool_to_Prop. lia.
Qed.

Lemma missing_nonneg frags : 0 <= missing frags.
Proof. unfold missing. lia. Qed.

Lemma missing_cons s frags :
  missing (s :: frags) = (if decide (s = None) then 1 else 0) + missing frags.
Proof. unfold missing. rewrite filter_cons. case_decide; cbn [length]; lia. Qed.

Lemma missing_replicate n : missing (replicate n None) = Z.of_nat n.
Proof.
  induction n as [|n IH]; [done|]. simpl replicate. rewrite missing_cons, IH.
  rewrite decide_True by done. lia.
Qed.

Lemma missing_insert frags i p :
  frags !! i = Some None -> missing (<[i := Some p]> frags) = missing frags - 1.
Proof.
  revert i. induction frags as [|s frags IH]; intros [|i] Hi; simplify_eq/=.
  - rewrite !missing_cons. rewrite decide_False, decide_True by done. lia.
  - rewrite !missing_cons, IH by done. lia.
Qed.

Lemma missing_zero frags : missing frags = 0 <-> Forall is_Some frags.
Proof.
  induction frags as [|s frags IH]; [done|].
  rewrite missing_cons, Forall_cons. pose proof (missing_nonneg frags).
  case_decide; split.
  - lia.
  - intros [[] _]. congruence.
  - intros. split; [destruct s; [by eexists|done]|apply IH; lia].
  - intros [_ ?]. rewrite (proj2 IH) by done. lia.
Qed.

(** ** Eviction *)

Lemma scan_oldest_in keep entries found s a :
  scan_oldest keep entries found = Some (s, a) ->
  found = Some (s, a) \/ (s <> keep /\ exists m, (s, m) ∈ entries).
Proof.
  revert found. induction entries as [|[q m] entries IH]; intros found H; [by left|].
  simpl in H. apply IH in H as [H|[? [m' ?]]].
  - case_if; [by left|]. destruct found as [[q' a']|]; [case_if|]; simplify_eq; auto;
      right; split; [done| |done|]; exists m; left.
  - right. split; [done|]. exists m'. by right.
Qed.

Lemma scan_oldest_some keep entries found :
  is_Some found \/ (exists s m, s <> keep /\ (s, m) ∈ entries) ->
  is_Some (scan_oldest keep entries found).
Proof.
  revert found. induction entries as [|[q m] entries IH]; intros found H; simpl.
  - destruct H as [?|(? & ? & _ & Hin)]; [done|]. by apply elem_of_nil in Hin.
  - apply IH. destruct (Z.eqb_spec q keep) as [->|Hne].
    + destruct H as [?|(s & m' & Hs & Hin)]; [by left|].
      apply elem_of_cons in Hin as [?|Hin]; [simplify_eq|]. right. eauto.
    + left. destruct found as [[q' a']|]; [case_if|]; by eexists.
Qed.

Lemma evict_delivered r keep :
  delivered (evictOldestIfFull r keep) = delivered r /\
  previous (evictOldestIfFull r keep) = previous r /\
  maxRecent (evictOldestIfFull r keep) = maxRecent r /\
  maxPending (evictOldestIfFull r keep) = maxPending r.
Proof.
  unfold evictOldestIfFull. case_if; [done|]. by destruct (scan_oldest _ _ _) as [[? ?]|].
Qed.

Lemma evict_inbound r keep :
  inbound (evictOldestIfFull r keep) !! keep = inbound r !! keep /\
  inbound (evictOldestIfFull r keep) ⊆ inbound r.
Proof.
  unfold evictOldestIfFull. case_if; [done|].
  destruct (scan_oldest _ _ _) as [[s a]|] eqn:Hs; [|done].
  apply scan_oldest_in in Hs as [?|[Hne _]]; [done|]. simpl.
  split; [by rewrite lookup_delete_ne|apply delete_subseteq].
Qed.

Lemma evict_size r keep :
  0 < maxPending r -> Z.of_nat (size (inbound r)) <= maxPending r + 1 ->
  is_Some (inbound r !! keep) ->
  Z.of_nat (size (inbound (evictOldestIfFull r keep))) <= maxPending r.
Proof.
  intros Hp Hs Hkeep. unfold evictOldestIfFull. case_if; [lia|].
  assert (Hex : exists s m, s <> keep /\ (s, m) ∈ map_to_list (inbound r)).
  { assert (Hne : delete keep (inbound r) <> ∅).
    { intros He. apply map_size_empty_iff in He. rewrite map_size_delete in He.
      destruct Hkeep as [m Hm]. rewrite Hm in He. lia. }
    apply map_choose in Hne as (s & m & Hm). apply lookup_delete_Some in Hm as [? ?].
    exists s, m. split; [done|]. by apply elem_of_map_to_list. }
  destruct (scan_oldest_some keep (map_to_list (inbound r)) None (or_intror Hex)) as [[s a] Ho].
  rewrite Ho. apply scan_oldest_in in Ho as [?|[_ [m Hin]]]; [done|].
  apply elem_of_map_to_list in Hin. simpl. rewrite map_size_delete, Hin. lia.
Qed.

(** Entries carry distinct insertion stamps, so the entry evicted does not
    depend on the order in which Go visits the map. *)
Lemma scan_oldest_min keep entries found s a :
  scan_oldest keep entries found = Some (s, a) ->
  (forall q b, found = Some (q, b) -> a <= b) /\
  Forall (fun e => e.1 <> keep -> a <= mAdded e.2) entries /\
  (found = Some (s, a) \/ exists m, (s, m) ∈ entries /\ s <> keep /\ mAdded m = a).
Proof.
  revert found. induction entries as [|[q m] entries IH]; intros found H; simpl in H.
  - subst. split_and!; [intros; by simplify_eq|done|by left].
  - apply IH in H as (Hf & Ha & Hc). case_if.
    + subst. split_and!; [done|constructor; [done|done]|].
      destruct Hc as [?|(m' & ? & ? & ?)]; [by left|]. right. exists m'. split; [by right|done].
    + destruct found as [[q' b']|]; [case_if|].
      * specialize (Hf _ _ eq_refl). split_and!; [intros; simplify_eq; lia|constructor; done|].
        right. destruct Hc as [?|(m' & ? & ? & ?)]; [simplify_eq; exists m|exists m'];
          split; [by left|done|by right|done].
      * specialize (Hf _ _ eq_refl). split_and!; [intros; by simplify_eq| |].
        -- constructor; [simpl; lia|done].
        -- destruct Hc as [?|(m' & ? & ? & ?)]; [by left|]. right. exists m'. split; [by right|done].
      * specialize (Hf _ _ eq_refl). split_and!; [done|constructor; done|].
        right. destruct Hc as [?|(m' & ? & ? & ?)]; [simplify_eq; exists m|exists m'];
          split; [by left|done|by right|done].
Qed.

Lemma scan_oldest_order_independent keep entries entries' :
  entries ≡ₚ entries' ->
  (forall e1 e2, e1 ∈ entries -> e2 ∈ entries -> mAdded e1.2 = mAdded e2.2 -> e1 = e2) ->
  scan_oldest keep entries None = scan_oldest keep entries' None.
Proof.
  intros Hperm Hinj.
  assert (Hsome : forall l l', l ≡ₚ l' ->
            is_Some (scan_oldest keep l None) -> is_Some (scan_oldest keep l' None)).
  { intros l l' Hp [[s a] Hs]. apply scan_oldest_in in Hs as [?|[? [m Hin]]]; [done|].
    apply scan_oldest_some. right. exists s, m. split; [done|]. by rewrite <- Hp. }
  destruct (scan_oldest keep entries None) as [[s a]|] eqn:H1,
    (scan_oldest keep entries' None) as [[s' a']|] eqn:H2.
  - apply scan_oldest_min in H1 as (_ & Hm1 & [?|(m & Hin & Hs & Ha)]); [done|].
    apply scan_oldest_min in H2 as (_ & Hm2 & [?|(m' & Hin' & Hs' & Ha')]); [done|].
    rewrite Forall_forall in Hm1, Hm2. rewrite <- Hperm in Hin'.
    specialize (Hm1 _ Hin' Hs'). rewrite Hperm in Hin. specialize (Hm2 _ Hin Hs).
    rewrite <- Hperm in Hin. simpl in *.
    assert ((s, m) = (s', m')) by (apply Hinj; [done..|simpl; lia]). simplify_eq. done.
  - destruct (Hsome entries entries' Hperm) as [? ?]; [by rewrite H1|]. congruence.
  - destruct (Hsome entries' entries) as [? ?]; [done|by rewrite H2|]. congruence.
  - done.
Qed.

(** ** [Push] preserves the invariant and never faults *)

(** What [upsert] hands to [storeChunk]: an entry of the fragment's shape, in
    the table under the fragment's sequence number. *)
Record upsert_post (r r1 : Reassembler) (f : Fragment) (msg : InboundMessage) : Prop := {
  up_ok : reasm_ok r1;
  up_entry : inbound r1 !! gSeq f = Some msg;
  up_shape : msg_shape msg;
  up_count : len (mFrags msg) = gFragTotal f;
  up_total : mTotalLen msg = gTotalLen f;
  up_crc : mCRC msg = gCRC f;
  up_delivered : delivered r1 = delivered r;
  up_previous : previous r1 = previous r;
  up_recent : maxRecent r1 = maxRecent r;
  up_pending : maxPending r1 = maxPending r;
}.

Lemma fresh_shape f added :
  frag_typed f -> valid f = true ->
  let msg := MkInbound (gTotalLen f) (gCRC f)
               (replicate (Z.to_nat (gFragTotal f)) None) (gFragTotal f) added in
  msg_shape msg /\ 0 < mRemain msg /\ len (mFrags msg) = gFragTotal f.
Proof.
  intros (? & ? & ?) Hv. apply valid_inv in Hv as (? & ? & ? & ? & ? & ? & ?). simpl.
  rewrite length_replicate. split_and!; [constructor|lia|lia]; simpl.
  - rewrite length_replicate. lia.
  - rewrite missing_replicate. lia.
  - lia.
  - apply Forall_replicate. simpl. lia.
Qed.

Lemma upsert_spec r f :
  reasm_ok r -> frag_typed f -> valid f = true ->
  upsert_post r (upsert r f).1 f (upsert r f).2.
Proof.
  intros Hr Ht Hv. unfold upsert.
  set (added := u64 (addCounter r + 1)).
  set (msg := MkInbound (gTotalLen f) (gCRC f) (replicate (Z.to_nat (gFragTotal f)) None)
                (gFragTotal f) added).
  set (r1 := MkReassembler (<[gSeq f:=msg]> (inbound r)) (delivered r) (previous r)
                (maxRecent r) (maxPending r) added).
  assert (Hfresh : upsert_post r (evictOldestIfFull r1 (gSeq f)) f msg).
  { destruct (evict_delivered r1 (gSeq f)) as (Hd & Hp & Hm & Hn).
    destruct (evict_inbound r1 (gSeq f)) as (Hkeep & Hsub).
    destruct (fresh_shape f added Ht Hv) as (Hshape & Hrem & Hcnt). destruct Hr.
    assert (Hentry : inbound r1 !! gSeq f = Some msg) by apply lookup_insert_eq.
    assert (Hsize : Z.of_nat (size (inbound (evictOldestIfFull r1 (gSeq f)))) <= maxPending r).
    { apply (evict_size r1 (gSeq f)); [simpl; lia| |by rewrite Hentry]. simpl.
      rewrite map_size_insert. destruct (inbound r !! gSeq f); simpl; lia. }
    constructor; try done; [|by rewrite Hkeep].
    constructor; rewrite ?Hm, ?Hn, ?Hd, ?Hp; try done.
    intros q m Hq. pose proof (lookup_weaken _ _ _ _ Hq Hsub) as Hq1.
    simpl in Hq1. apply lookup_insert_Some in Hq1 as [[_ <-]|[_ Hq1]]; [by split|by eapply ro_msgs0]. }
  destruct (inbound r !! gSeq f) as [m|] eqn:Hm; [|done].
  destruct (_ && _) eqn:Hc; [|done]. bool_to_Prop.
  destruct (ro_msgs r Hr _ _ Hm) as [Hshape _]. by constructor.
Qed.

Lemma storeChunk_spec f msg :
  frag_typed f -> valid f = true -> msg_shape msg ->
  len (mFrags msg) = gFragTotal f -> mTotalLen msg = gTotalLen f ->
  exists msg', storeChunk msg f = Ok msg' /\ msg_shape msg' /\
    mTotalLen msg' = mTotalLen msg /\ mCRC msg' = mCRC msg /\
    mFrags msg' = (match mFrags msg !! Z.to_nat (gFragIdx f) with
                   | Some None => <[Z.to_nat (gFragIdx f) := Some (gPayload f)]> (mFrags msg)
                   | _ => mFrags msg
                   end).
Proof.
  intros (? & ? & ?) Hv Hs Hc Htot. apply valid_inv in Hv as (? & ? & ? & ? & ? & ? & ?).
  unfold storeChunk.
  destruct (index_in_range (E:=Empty_set) (mFrags msg) (gFragIdx f)) as (slot & Hslot & Hidx); [lia|].
  rewrite Hidx, Hslot. cbn [obind]. destruct slot as [p|]; [eauto 10|].
  eexists. split; [done|]. split_and!; [|done..].
  destruct Hs. constructor; simpl.
  - by rewrite length_insert.
  - rewrite missing_insert by done. lia.
  - done.
  - apply Forall_insert; [done|]. simpl. lia.
Qed.

Lemma assemble_loop_length frags size out :
  len out <= size -> len (assemble_loop frags size out) <= size.
Proof.
  revert out. induction frags as [|s frags IH]; intros out H; [done|].
  cbn [assemble_loop]. case_if.
  - rewrite len_app, length_take. lia.
  - apply IH. rewrite len_app. lia.
Qed.

Lemma slots_size_nonneg frags :
  0 <= foldr (fun frag n => len (slot_bytes frag) + n) 0 frags.
Proof. induction frags; simpl; lia. Qed.

Lemma assemble_length msg : 0 <= mTotalLen msg -> len (assemble msg) <= mTotalLen msg.
Proof.
  intros. unfold assemble. pose proof (slots_size_nonneg (mFrags msg)).
  etrans; [apply assemble_loop_length; simpl; case_if; lia|]. case_if; lia.
Qed.

(** The three ways in which [deliverMsg] can leave the table. *)
Lemma deliverMsg_spec r seq msg :
  let rd := set_inbound r (delete seq (inbound r)) in
  (ChecksumIEEE (assemble msg) <> mCRC msg /\ deliverMsg r seq msg = (rd, ResultIgnore)) \/
  (ChecksumIEEE (assemble msg) = mCRC msg /\
   exists del prev,
     deliverMsg r seq msg =
       (MkReassembler (delete seq (inbound r)) (<[seq := mCRC msg]> del) prev (maxRecent r)
          (maxPending r) (addCounter r), ResultDelivered (assemble msg)) /\
     ((Z.of_nat (size (delivered r)) < maxRecent r /\ del = delivered r /\ prev = previous r) \/
      (maxRecent r <= Z.of_nat (size (delivered r)) /\ del = ∅ /\ prev = delivered r))).
Proof.
  intros rd. unfold deliverMsg. fold rd. case_if; [left; done|right]. split; [done|].
  change (delivered rd) with (delivered r). change (maxRecent rd) with (maxRecent r).
  case_if; eexists _, _; (split; [reflexivity|]); auto.
Qed.

Lemma deliverMsg_ok r seq msg :
  reasm_ok (set_inbound r (delete seq (inbound r))) -> reasm_ok (deliverMsg r seq msg).1.
Proof.
  intros Hr. destruct (deliverMsg_spec r seq msg) as [[_ ->]|(_ & del & prev & -> & Hcase)]; [done|].
  destruct Hr; simpl in *. constructor; simpl; try done.
  - destruct Hcase as [(? & -> & ->)|(? & -> & ->)]; rewrite map_size_insert.
    + destruct (_ !! _); simpl; lia.
    + rewrite lookup_empty, map_size_empty. lia.
  - by destruct Hcase as [(? & -> & ->)|(? & -> & ->)].
Qed.

Lemma reasm_ok_set r seq m :
  reasm_ok r -> is_Some (inbound r !! seq) -> msg_shape m ->
  0 < mRemain m -> reasm_ok (set_inbound r (<[seq := m]> (inbound r))).
Proof.
  intros [] [m0 Hm0] Hs Hrem. constructor; simpl; try done.
  - rewrite map_size_insert, Hm0. simpl. lia.
  - by apply map_Forall_insert_2.
Qed.

Lemma reasm_ok_delete r seq :
  reasm_ok r -> reasm_ok (set_inbound r (delete seq (inbound r))).
Proof.
  intros []. constructor; simpl; try done.
  - rewrite map_size_delete. destruct (_ !! _); simpl; lia.
  - by apply map_Forall_delete.
Qed.

(** [Push] split into its four branches, with the entry [upsert] returns and
    the entry [storeChunk] leaves. *)
Inductive push_view (r : Reassembler) (f : Fragment) :
  Reassembler * outcome Empty_set Result -> Prop :=
| pv_ignored : valid f = false -> push_view r f (r, Ok ResultIgnore)
| pv_duplicate : valid f = true -> alreadyDelivered r f = true ->
    push_view r f (r, Ok ResultDuplicate)
| pv_partial r1 msg msg' :
    valid f = true -> alreadyDelivered r f = false ->
    upsert r f = (r1, msg) -> upsert_post r r1 f msg ->
    storeChunk msg f = Ok msg' -> msg_shape msg' -> 0 < mRemain msg' ->
    push_view r f (set_inbound r1 (<[gSeq f := msg']> (inbound r1)), Ok ResultPartial)
| pv_complete r1 msg msg' r3 res :
    valid f = true -> alreadyDelivered r f = false ->
    upsert r f = (r1, msg) -> upsert_post r r1 f msg ->
    storeChunk msg f = Ok msg' -> msg_shape msg' -> mRemain msg' = 0 ->
    mCRC msg' = gCRC f -> mTotalLen msg' = gTotalLen f ->
    deliverMsg (set_inbound r1 (<[gSeq f := msg']> (inbound r1))) (gSeq f) msg' = (r3, res) ->
    push_view r f (r3, Ok res).

Lemma Push_view r f : reasm_ok r -> frag_typed f -> push_view r f (Push r f).
Proof.
  intros Hr Ht. unfold Push. destruct (valid f) eqn:Hv; [|by constructor]. cbn [negb].
  destruct (alreadyDelivered r f) eqn:Had; [by constructor|].
  pose proof (upsert_spec r f Hr Ht Hv) as Hup.
  destruct (upsert r f) as [r1 msg] eqn:Hu. simpl in Hup.
  destruct (storeChunk_spec f msg Ht Hv (up_shape _ _ _ _ Hup) (up_count _ _ _ _ Hup)
              (up_total _ _ _ _ Hup)) as (msg' & Hst & Hsh & Htot & Hcrc & _).
  rewrite Hst. case_if; [by eapply pv_partial|].
  assert (mRemain msg' = 0).
  { rewrite (ms_remain _ Hsh) in *. pose proof (missing_nonneg (mFrags msg')). lia. }
  destruct (deliverMsg _ _ _) as [r3 res] eqn:Hd.
  eapply pv_complete; try done.
  - rewrite Hcrc. apply Hup.
  - rewrite Htot. apply Hup.
Qed.

Lemma Push_ok r f :
  reasm_ok r -> frag_typed f ->
  reasm_ok (Push r f).1 /\ exists res, (Push r f).2 = Ok res.
Proof.
  intros Hr Ht. destruct (Push_view r f Hr Ht) as
    [?|? ?|r1 msg msg' ? ? ? Hup ? ? ?|r1 msg msg' r3 res ? ? ? Hup ? ? ? ? ? Hd]; simpl; eauto.
  - split; [|eauto]. apply reasm_ok_set; [apply Hup| |done..].
    rewrite (up_entry _ _ _ _ Hup). by eexists.
  - split; [|eauto]. change r3 with (r3, res).1. rewrite <- Hd. apply deliverMsg_ok.
    assert (He : set_inbound (set_inbound r1 (<[gSeq f:=msg']> (inbound r1)))
                   (delete (gSeq f) (inbound (set_inbound r1 (<[gSeq f:=msg']> (inbound r1)))))
                 = set_inbound r1 (delete (gSeq f) (inbound r1))).
    { unfold set_inbound. simpl. by rewrite delete_insert_eq. }
    rewrite He. apply reasm_ok_delete, Hup.
Qed.

Lemma Reset_ok r : reasm_ok r -> reasm_ok (ResetReassembler r).
Proof.
  intros []. constructor; simpl; rewrite ?map_size_empty; try lia. apply map_Forall_empty.
Qed.

Lemma NewReassembler_ok n : reasm_ok (NewReassembler n).
Proof.
  unfold NewReassembler. constructor; simpl; rewrite ?map_size_empty;
    try (case_if; lia). apply map_Forall_empty.
Qed.
