(* ===== verification/ReassemblyRuns.v ===== *)
(** * ReassemblyRuns: what a sequence of pushes delivers

    Bounded memory, integrity of a delivered message, and exactly-once delivery
    of a message whose fragments arrive in any order, duplicated, and mixed
    with the fragments of other messages. *)

From S2P Require Import Prelude Bytes Reassembly ReassemblyFacts.

(** The results of pushing a sequence of fragments. *)
Fixpoint push_all (r : Reassembler) (fs : list Fragment)
  : Reassembler * list (outcome Empty_set Result) :=
  match fs with
  | [] => (r, [])
  | f :: fs' =>
      let '(r1, res) := Push r f in
      let '(r2, rest) := push_all r1 fs' in
      (r2, res :: rest)
  end.

Lemma push_all_cons r f fs :
  push_all r (f :: fs) =
    ((push_all (Push r f).1 fs).1, (Push r f).2 :: (push_all (Push r f).1 fs).2).
Proof. cbn [push_all]. destruct (Push r f) as [r1 res]. simpl. by destruct (push_all r1 fs). Qed.

Lemma push_all_ok r fs :
  reasm_ok r -> Forall frag_typed fs ->
  reasm_ok (push_all r fs).1 /\ Forall (fun o => exists res, o = Ok res) (push_all r fs).2.
Proof.
  revert r. induction fs as [|f fs IH]; intros r Hr Hfs; [split; [done|constructor]|].
  apply Forall_cons in Hfs as [Hf Hfs]. rewrite push_all_cons. simpl.
  destruct (Push_ok r f Hr Hf) as [Hr1 Hres]. destruct (IH _ Hr1 Hfs). auto.
Qed.

Lemma Push_caps r f :
  reasm_ok r -> frag_typed f -> maxRecent (Push r f).1 = maxRecent r.
Proof.
  intros Hr Ht. destruct (Push_view r f Hr Ht) as
    [?|? ?|r1 msg msg' ? ? ? Hup ? ? ?|r1 msg msg' r3 res ? ? ? Hup ? ? ? ? ? Hd]; simpl; try done.
  - apply Hup.
  - revert Hd. destruct (deliverMsg_spec (set_inbound r1 (<[gSeq f:=msg']> (inbound r1)))
      (gSeq f) msg') as [[_ ->]|(_ & del & prev & -> & _)]; intros; simplify_eq; simpl; apply Hup.
Qed.

Lemma push_all_caps r fs :
  reasm_ok r -> Forall frag_typed fs -> maxRecent (push_all r fs).1 = maxRecent r.
Proof.
  revert r. induction fs as [|f fs IH]; intros r Hr Hfs; [done|].
  apply Forall_cons in Hfs as [Hf Hfs]. rewrite push_all_cons. simpl.
  destruct (Push_ok r f Hr Hf) as [Hr1 _]. by rewrite IH, Push_caps.
Qed.

(** Whatever fragments an unauthenticated participant sends, the
    reassembler never panics and its state stays bounded: at most the configured
    number of incomplete messages, each with at most 4096 slots that hold at most
    the announced (at most 256 KiB) length, and two halves of the dedup window of
    at most that many entries; no complete message stays in the table. *)
Theorem reassembler_bounded (n : Z) (fs : list Fragment) (Hfs : Forall frag_typed fs) :
  let '(r, results) := push_all (NewReassembler n) fs in
  let cap := if n <=? 0 then 256 else n in
  Forall (fun o => o <> Panic) results /\
  Z.of_nat (size (inbound r)) <= cap /\
  Z.of_nat (size (delivered r)) <= cap /\ Z.of_nat (size (previous r)) <= cap /\
  map_Forall (fun _ m =>
    0 < len (mFrags m) <= 4096 /\ mTotalLen m <= 262144 /\
    Forall (fun s => len (slot_bytes s) <= mTotalLen m) (mFrags m) /\
    0 < mRemain m /\ mRemain m = missing (mFrags m)) (inbound r).
Proof.
  destruct (push_all_ok (NewReassembler n) fs (NewReassembler_ok n) Hfs) as [Hr Hres].
  pose proof (push_all_caps (NewReassembler n) fs (NewReassembler_ok n) Hfs) as Hcap.
  destruct (push_all _ _) as [r results]. simpl in *.
  assert (Hc : maxRecent r = if n <=? 0 then 256 else n)
    by (rewrite Hcap; unfold NewReassembler; simpl; by case_if).
  destruct Hr as [? Hp ? ? ? Hm]. rewrite <- Hc. split_and!; try lia.
  - eapply Forall_impl; [done|]. intros o [res ->]. done.
  - intros s m Hs. destruct (Hm s m Hs) as [[? ? ? ?] ?]. unfold MaxFragments, MaxMessageLen in *.
    split_and!; auto; lia.
Qed.

Lemma reassembler_bounded_witness :
  let '(r, results) :=
    push_all (NewReassembler 2)
      [WithPayloadCRC (MkFragment 1 7 10 0 2 0 [1; 2]); MkFragment 2 7 4294967295 0 2 0 [];
       WithPayloadCRC (MkFragment 3 7 10 1 2 0 [1; 2]);
       WithPayloadCRC (MkFragment 4 7 10 1 3 0 [1; 2])] in
  let cap := if 2 <=? 0 then 256 else 2 in
  Forall (fun o => o <> Panic) results /\
  Z.of_nat (size (inbound r)) <= cap /\
  Z.of_nat (size (delivered r)) <= cap /\ Z.of_nat (size (previous r)) <= cap /\
  map_Forall (fun _ m =>
    0 < len (mFrags m) <= 4096 /\ mTotalLen m <= 262144 /\
    Forall (fun s => len (slot_bytes s) <= mTotalLen m) (mFrags m) /\
    0 < mRemain m /\ mRemain m = missing (mFrags m)) (inbound r).
Proof.
  apply (reassembler_bounded 2).
  repeat constructor; unfold frag_typed; simpl; lia.
Defined.

(** ** Integrity *)

Lemma alreadyDelivered_insert inb del prev n p c f :
  alreadyDelivered (MkReassembler inb (<[gSeq f := gCRC f]> del) prev n p c) f = true.
Proof. unfold alreadyDelivered. simpl. rewrite lookup_insert_eq. lia. Qed.

(** A delivered message is whole and within the announced size: when [Push]
    delivers, the data's checksum is the one the fragment announces, its length
    is at most the announced (capped) one, the message was not delivered within
    the dedup window before, its table entry is gone, and any further fragment
    of it pushed next is answered as a duplicate without changing the state. *)
Theorem delivered_message_is_intact (r r' : Reassembler) (f : Fragment) (data : bytes)
    (Hr : reasm_ok r) (Ht : frag_typed f)
    (Hpush : Push r f = (r', Ok (ResultDelivered data))) :
  ChecksumIEEE data = gCRC f /\ len data <= gTotalLen f /\ gTotalLen f <= 262144 /\
  alreadyDelivered r f = false /\ inbound r' !! gSeq f = None /\
  (forall g, valid g = true -> gSeq g = gSeq f -> gCRC g = gCRC f ->
     Push r' g = (r', Ok ResultDuplicate)).
Proof.
  pose proof (Push_view r f Hr Ht) as Hview. rewrite Hpush in Hview.
  inversion Hview as [| | |r1 msg msg' r3 res Hv Had Hu Hup Hst Hsh Hrem Hcrc Htot Hd]; subst; clear Hview.
  destruct (deliverMsg_spec (set_inbound r1 (<[gSeq f:=msg']> (inbound r1))) (gSeq f) msg')
    as [[_ He]|(Hsum & del & prev & He & _)]; rewrite He in Hd; simplify_eq.
  apply valid_inv in Hv as (? & ? & ? & ? & ? & ? & ?).
  unfold MaxMessageLen in *. rewrite Hcrc in *. split_and!; try done.
  - rewrite <- Htot. apply assemble_length. apply (ms_total _ Hsh).
  - simpl. apply lookup_delete_eq.
  - intros g Hg Hs Hc. unfold Push. rewrite Hg. cbn [negb].
    rewrite <- Hs, <- Hc, alreadyDelivered_insert. done.
Qed.

Lemma delivered_message_is_intact_witness :
  exists r' data, ChecksumIEEE data = ChecksumIEEE [5; 6] /\ len data <= 2 /\
    inbound r' !! 9 = None.
Proof.
  pose (f := WithPayloadCRC (MkFragment 9 (ChecksumIEEE [5; 6]) 2 0 1 0 [5; 6])).
  destruct (Push (NewReassembler 4) f) as [r' o] eqn:Hp.
  assert (Ho : o = Ok (ResultDelivered [5; 6])).
  { change o with (r', o).2. rewrite <- Hp. vm_compute. reflexivity. }
  subst o. exists r', [5; 6].
  destruct (delivered_message_is_intact (NewReassembler 4) r' f [5; 6]
    (NewReassembler_ok 4) ltac:(unfold frag_typed; simpl; lia) Hp) as (Hc & Hl & _ & _ & Hn & _).
  auto.
Defined.

(** ** Exactly-once delivery *)

(** How one push moves the two halves of the dedup window. *)
Definition dedup_move (r r' : Reassembler) (q : Z) : Prop :=
  (delivered r' = delivered r /\ previous r' = previous r) \/
  (exists c, Z.of_nat (size (delivered r)) < maxRecent r /\
     delivered r' = <[q := c]> (delivered r) /\ previous r' = previous r) \/
  (exists c, maxRecent r <= Z.of_nat (size (delivered r)) /\
     delivered r' = <[q := c]> ∅ /\ previous r' = delivered r).

Lemma evict_none r keep (K : gset Z) :
  dom (inbound r) ⊆ K -> Z.of_nat (size K) <= maxPending r ->
  evictOldestIfFull r keep = r.
Proof.
  intros Hd Hk. unfold evictOldestIfFull.
  apply subseteq_size in Hd. rewrite size_dom in Hd.
  by rewrite (proj2 (Z.leb_le _ (maxPending r))), orb_true_r by lia.
Qed.

Lemma upsert_other r f (K : gset Z) :
  dom (inbound r) ⊆ K -> gSeq f ∈ K -> Z.of_nat (size K) <= maxPending r ->
  (forall q, q <> gSeq f -> inbound (upsert r f).1 !! q = inbound r !! q) /\
  dom (inbound (upsert r f).1) ⊆ K.
Proof.
  intros Hd Hf Hk. unfold upsert.
  set (msg := MkInbound _ _ _ _ _).
  rewrite (evict_none _ _ K); [|simpl; rewrite dom_insert; set_solver|done].
  assert (H : (forall q, q <> gSeq f -> (<[gSeq f:=msg]> (inbound r)) !! q = inbound r !! q) /\
              dom (<[gSeq f:=msg]> (inbound r)) ⊆ K)
    by (split; [intros; by apply lookup_insert_ne|rewrite dom_insert; set_solver]).
  destruct (inbound r !! gSeq f); [|done]. by destruct (_ && _).
Qed.

(** A push leaves every other sequence number's entry alone while the pending
    set fits, and moves the dedup window only at its own sequence number. *)
Lemma Push_frame r f (K : gset Z) :
  reasm_ok r -> frag_typed f ->
  dom (inbound r) ⊆ K -> gSeq f ∈ K -> Z.of_nat (size K) <= maxRecent r ->
  (forall q, q <> gSeq f -> inbound (Push r f).1 !! q = inbound r !! q) /\
  dom (inbound (Push r f).1) ⊆ K /\ dedup_move r (Push r f).1 (gSeq f).
Proof.
  intros Hr Ht Hd Hf Hk. rewrite <- (ro_pending _ Hr) in Hk.
  destruct (upsert_other r f K Hd Hf Hk) as [Hq Hdom].
  destruct (Push_view r f Hr Ht) as
    [?|? ?|r1 msg msg' ? ? Hu Hup ? ? ?|r1 msg msg' r3 res ? ? Hu Hup ? ? ? Hcrc ? Hdel]; simpl.
  - split_and!; [done..|by left].
  - split_and!; [done..|by left].
  - rewrite Hu in Hq, Hdom. simpl in *. split_and!.
    + intros q Hne. rewrite lookup_insert_ne by done. auto.
    + rewrite dom_insert. set_solver.
    + left. split; apply Hup.
  - rewrite Hu in Hq, Hdom. simpl in *.
    assert (Hin : (forall q, q <> gSeq f ->
        delete (gSeq f) (<[gSeq f:=msg']> (inbound r1)) !! q = inbound r !! q) /\
        dom (delete (gSeq f) (<[gSeq f:=msg']> (inbound r1))) ⊆ K).
    { split; [intros q Hne; rewrite lookup_delete_ne, lookup_insert_ne by done; auto|].
      rewrite dom_delete, dom_insert. set_solver. }
    destruct Hin as [Hin1 Hin2]. destruct Hup as [_ _ _ _ _ _ Hdl Hpv Hrc _].
    destruct (deliverMsg_spec (set_inbound r1 (<[gSeq f:=msg']> (inbound r1))) (gSeq f) msg')
      as [[_ He]|(_ & del & prev & He & Hcase)]; rewrite He in Hdel; simplify_eq; simpl.
    + split_and!; [done..|]. left. done.
    + split_and!; [done..|]. right. simpl in Hcase.
      rewrite Hdl, Hpv, Hrc in Hcase.
      destruct Hcase as [(? & -> & ->)|(? & -> & ->)]; [left|right]; exists (mCRC msg');
        done.
Qed.

Section message.
Context (seq : Z) (chunks : list bytes).

Let n : nat := length chunks.
Let crc : Z := ChecksumIEEE (concat chunks).

(** The fragment a sender makes of chunk [i]. *)
Definition msg_fragment (i : nat) : Fragment :=
  WithPayloadCRC (MkFragment seq (ChecksumIEEE (concat chunks)) (len (concat chunks))
    (Z.of_nat i) (len chunks) 0 (default [] (chunks !! i))).

(** What a sender may put on the wire. *)
Definition sendable : Prop :=
  chunks <> [] /\ len chunks <= MaxFragments /\
  len (concat chunks) <= MaxMessageLen /\ len chunks <= Z.max (len (concat chunks)) 1.

Lemma chunk_length i c : chunks !! i = Some c -> len c <= len (concat chunks).
Proof.
  clear. revert i. induction chunks as [|c' l IH]; intros [|i] H; simplify_eq/=.
  - rewrite len_app. lia.
  - rewrite len_app. specialize (IH _ H). lia.
Qed.

Lemma msg_fragment_valid i : sendable -> (i < n)%nat -> valid (msg_fragment i) = true.
Proof.
  intros (_ & H1 & H2 & H3) Hi. unfold valid, msg_fragment. simpl.
  destruct (lookup_lt_is_Some_2 chunks i Hi) as [c Hc]. rewrite Hc. simpl.
  pose proof (chunk_length _ _ Hc). repeat (case_if; [unfold n in *; lia|]). lia.
Qed.

Lemma msg_fragment_typed i : frag_typed (msg_fragment i).
Proof. unfold frag_typed. simpl. lia. Qed.

(** The slots after the indices [S] have arrived. *)
Definition partial (S : gset nat) : list (option bytes) :=
  imap (fun i c => if decide (i ∈ S) then Some c else None) chunks.

Lemma partial_lookup S i :
  partial S !! i = (fun c => if decide (i ∈ S) then Some c else None) <$> chunks !! i.
Proof. apply list_lookup_imap. Qed.

Lemma partial_length S : length (partial S) = n.
Proof. apply length_imap. Qed.

Lemma partial_empty : partial ∅ = replicate n None.
Proof.
  apply list_eq. intros i. rewrite partial_lookup. unfold n.
  destruct (chunks !! i) as [c|] eqn:Hc; simpl.
  - symmetry. apply lookup_replicate. split; [done|]. by eapply lookup_lt_Some.
  - symmetry. apply lookup_replicate_None. by apply lookup_ge_None_1.
Qed.

(** What [storeChunk] makes of the slots. *)
Lemma partial_store S i :
  (i < n)%nat ->
  match partial S !! i with
  | Some None => <[i := Some (default [] (chunks !! i))]> (partial S)
  | _ => partial S
  end = partial ({[i]} ∪ S).
Proof.
  intros Hi. destruct (lookup_lt_is_Some_2 chunks i Hi) as [c Hc].
  rewrite partial_lookup, Hc. simpl. case_decide as Hin.
  - f_equal. set_solver.
  - apply list_eq. intros j. rewrite partial_lookup. destruct (decide (j = i)) as [->|Hne].
    + rewrite list_lookup_insert_eq by (rewrite partial_length; done).
      rewrite Hc. simpl. by rewrite decide_True by set_solver.
    + rewrite list_lookup_insert_ne, partial_lookup by done.
      destruct (chunks !! j); [|done]. simpl. f_equal. repeat case_decide; set_solver.
Qed.

Lemma partial_complete S :
  missing (partial S) = 0 <-> forall i, (i < n)%nat -> i ∈ S.
Proof.
  rewrite missing_zero, Forall_lookup. split.
  - intros H i Hi. destruct (lookup_lt_is_Some_2 chunks i Hi) as [c Hc].
    specialize (H i). rewrite partial_lookup, Hc in H. simpl in H.
    destruct (decide (i ∈ S)); [done|]. specialize (H _ eq_refl). by destruct H.
  - intros H i s. rewrite partial_lookup. intros Hs.
    destruct (chunks !! i) as [c|] eqn:Hc; simplify_eq/=.
    rewrite decide_True; [by eexists|]. apply H. by eapply lookup_lt_Some.
Qed.

Lemma partial_full S : (forall i, (i < n)%nat -> i ∈ S) -> partial S = Some <$> chunks.
Proof.
  intros H. apply list_eq. intros i. rewrite partial_lookup, list_lookup_fmap.
  destruct (chunks !! i) as [c|] eqn:Hc; [|done]. simpl.
  rewrite decide_True; [done|]. apply H. by eapply lookup_lt_Some.
Qed.
End message.

Lemma assemble_loop_full chunks size out :
  len out + len (concat chunks) <= size ->
  assemble_loop (Some <$> chunks) size out = out ++ concat chunks.
Proof.
  revert out. induction chunks as [|c l IH]; intros out H; simpl.
  - by rewrite app_nil_r.
  - simpl in H. rewrite len_app in H. case_if; [lia|].
    rewrite IH; [by rewrite app_assoc|]. rewrite len_app. lia.
Qed.

Lemma assemble_full msg chunks :
  mFrags msg = Some <$> chunks -> mTotalLen msg = len (concat chunks) ->
  assemble msg = concat chunks.
Proof.
  intros Hf Ht. unfold assemble. rewrite Hf, Ht.
  assert (Hs : foldr (fun frag n => len (slot_bytes frag) + n) 0 (Some <$> chunks)
               = len (concat chunks)).
  { clear. induction chunks as [|c l IH]; [done|].
    rewrite fmap_cons. cbn [foldr concat]. rewrite len_app, IH. done. }
  rewrite Hs, Z.ltb_irrefl. by apply assemble_loop_full.
Qed.

Lemma all_or_missing (n : nat) (S : gset nat) :
  (forall j, (j < n)%nat -> j ∈ S) \/ (exists j, (j < n)%nat /\ j ∉ S).
Proof.
  induction n as [|n [IH|(j & ? & ?)]]; [left; lia| |right; exists j; split; [lia|done]].
  destruct (decide (n ∈ S)).
  - left. intros j Hj. destruct (decide (j = n)) as [->|]; [done|]. apply IH. lia.
  - right. exists n. split; [lia|done].
Qed.

Section exactly_once.
Context (seq : Z) (chunks : list bytes) (K : gset Z).
Hypothesis Hsend : sendable chunks.

Let crc : Z := ChecksumIEEE (concat chunks).
Let frag := msg_fragment seq chunks.

(** The entry of the message once the indices [S] have arrived. *)
Definition entry_is (r : Reassembler) (S : gset nat) : Prop :=
  match inbound r !! seq with
  | None => S = ∅
  | Some m => mTotalLen m = len (concat chunks) /\ mCRC m = crc /\ mFrags m = partial chunks S
  end.

Record receiving (r : Reassembler) (S : gset nat) : Prop := {
  rc_ok : reasm_ok r;
  rc_dom : dom (inbound r) ⊆ K;
  rc_fit : Z.of_nat (size K) <= maxRecent r;
  rc_entry : entry_is r S;
  rc_fresh : alreadyDelivered r (frag 0%nat) = false;
}.

(** Delivered, and still inside the dedup window: at most one rotation away,
    because a second one needs as many other sequence numbers as the window
    holds. *)
Record received (r : Reassembler) : Prop := {
  rd_ok : reasm_ok r;
  rd_dom : dom (inbound r) ⊆ K;
  rd_fit : Z.of_nat (size K) <= maxRecent r;
  rd_window : delivered r !! seq = Some crc \/
    (delivered r !! seq = None /\ previous r !! seq = Some crc /\
     dom (delivered r) ⊆ K ∖ {[seq]});
}.

Lemma upsert_genuine r S i :
  receiving r S -> (i < length chunks)%nat ->
  mFrags (upsert r (frag i)).2 = partial chunks S.
Proof.
  intros [_ _ _ He _] Hi. unfold upsert. unfold entry_is in He.
  change (gSeq (frag i)) with seq. destruct (inbound r !! seq) as [m|].
  - destruct He as (Ht & Hc & Hf). change (gCRC (frag i)) with crc.
    change (gTotalLen (frag i)) with (len (concat chunks)).
    change (gFragTotal (frag i)) with (len chunks).
    rewrite Ht, Hc, Hf, partial_length, !Z.eqb_refl. done.
  - subst S. simpl. rewrite partial_empty. by rewrite Nat2Z.id.
Qed.

Lemma store_genuine r S i msg msg' :
  receiving r S -> (i < length chunks)%nat ->
  (upsert r (frag i)).2 = msg -> storeChunk msg (frag i) = Ok msg' ->
  mFrags msg' = partial chunks ({[i]} ∪ S) /\ mTotalLen msg' = len (concat chunks) /\
  mCRC msg' = crc.
Proof.
  intros Hrc Hi <- Hst.
  pose proof (msg_fragment_typed seq chunks i) as Ht. fold frag in Ht.
  pose proof (msg_fragment_valid seq chunks i Hsend Hi) as Hv. fold frag in Hv.
  pose proof (upsert_spec r (frag i) (rc_ok _ _ Hrc) Ht Hv) as Hup.
  destruct (storeChunk_spec (frag i) _ Ht Hv (up_shape _ _ _ _ Hup) (up_count _ _ _ _ Hup)
    (up_total _ _ _ _ Hup)) as (m2 & Hst2 & _ & Htot & Hcrc & Hf2).
  rewrite Hst in Hst2. simplify_eq. rewrite Hf2, (upsert_genuine r S i Hrc Hi), Htot, Hcrc.
  split_and!; [|apply Hup..].
  change (gFragIdx (frag i)) with (Z.of_nat i). rewrite Nat2Z.id. by apply partial_store.
Qed.

Lemma receiving_genuine r S i :
  receiving r S -> (i < length chunks)%nat -> seq ∈ K ->
  ((exists j, (j < length chunks)%nat /\ j ∉ {[i]} ∪ S) /\
     receiving (Push r (frag i)).1 ({[i]} ∪ S) /\ (Push r (frag i)).2 = Ok ResultPartial) \/
  ((forall j, (j < length chunks)%nat -> j ∈ {[i]} ∪ S) /\
     received (Push r (frag i)).1 /\ (Push r (frag i)).2 = Ok (ResultDelivered (concat chunks))).
Proof.
  intros Hrc Hi HK. pose proof (rc_ok _ _ Hrc) as Hr.
  pose proof (msg_fragment_typed seq chunks i) as Ht. fold frag in Ht.
  pose proof (msg_fragment_valid seq chunks i Hsend Hi) as Hv. fold frag in Hv.
  destruct (Push_frame r (frag i) K Hr Ht (rc_dom _ _ Hrc) HK (rc_fit _ _ Hrc)) as (_ & Hdom & _).
  destruct (Push_ok r (frag i) Hr Ht) as [Hok _].
  pose proof (Push_caps r (frag i) Hr Ht) as Hcap.
  pose proof (fun msg msg' => store_genuine r S i msg msg' Hrc Hi) as Hnew.
  destruct (Push_view r (frag i) Hr Ht) as
    [?|? Had|r1 msg msg' ? Had Hu Hup Hst Hsh Hrem|r1 msg msg' r3 res ? Had Hu Hup Hst Hsh Hrem ? ? Hdel];
    cbn [fst snd] in *.
  - congruence.
  - pose proof (rc_fresh _ _ Hrc) as Hfresh. unfold alreadyDelivered in *. simpl in *. congruence.
  - rewrite Hu in Hnew. simpl in Hnew. destruct (Hnew _ _ eq_refl Hst) as (Hf' & Ht' & Hc').
    left. split_and!; [| |done].
    + rewrite (ms_remain _ Hsh), Hf' in Hrem.
      destruct (all_or_missing (length chunks) ({[i]} ∪ S)) as [Hall|?]; [|done].
      apply (proj2 (partial_complete chunks _)) in Hall. lia.
    + constructor; [done|done|pose proof (rc_fit _ _ Hrc); simpl in *; lia| |].
      * unfold entry_is. simpl. change (gSeq (frag i)) with seq. by rewrite lookup_insert_eq.
      * pose proof (rc_fresh _ _ Hrc) as Hfresh. unfold alreadyDelivered in *. simpl in *.
        by rewrite (up_delivered _ _ _ _ Hup), (up_previous _ _ _ _ Hup).
  - rewrite Hu in Hnew. simpl in Hnew. destruct (Hnew _ _ eq_refl Hst) as (Hf' & Ht' & Hc').
    right. rewrite (ms_remain _ Hsh), Hf' in Hrem. pose proof (proj1 (partial_complete chunks _) Hrem) as Hall.
    split; [done|].
    assert (Has : assemble msg' = concat chunks)
      by (apply assemble_full; [rewrite Hf'; by apply partial_full|done]).
    destruct (deliverMsg_spec (set_inbound r1 (<[gSeq (frag i):=msg']> (inbound r1)))
      (gSeq (frag i)) msg') as [[Hbad _]|(_ & del & prev & He & _)].
    + rewrite Has, Hc' in Hbad. done.
    + rewrite He in Hdel. rewrite Has in Hdel. simplify_eq. split; [|done].
      constructor; [done|done|pose proof (rc_fit _ _ Hrc); simpl in *; lia|]. left. simpl.
      change (gSeq (frag i)) with seq. rewrite Hc'. apply lookup_insert_eq.
Qed.

Lemma receiving_other r S f :
  receiving r S -> frag_typed f -> gSeq f ∈ K -> gSeq f <> seq -> receiving (Push r f).1 S.
Proof.
  intros Hrc Ht Hin Hne. pose proof (rc_ok _ _ Hrc) as Hr.
  destruct (Push_frame r f K Hr Ht (rc_dom _ _ Hrc) Hin (rc_fit _ _ Hrc)) as (Hq & Hdom & Hmove).
  constructor; [by apply Push_ok|done|rewrite Push_caps by done; apply Hrc| |].
  - unfold entry_is. rewrite Hq by done. apply Hrc.
  - pose proof (rc_fresh _ _ Hrc) as Hfresh. unfold alreadyDelivered in *. simpl in *.
    destruct Hmove as [(-> & ->)|[(c & _ & -> & ->)|(c & _ & -> & ->)]];
      rewrite ?lookup_insert_ne, ?lookup_empty by done; [done..|].
    destruct (delivered r !! seq); done.
Qed.

Lemma received_genuine r i :
  received r -> (i < length chunks)%nat ->
  (Push r (frag i)).1 = r /\ (Push r (frag i)).2 = Ok ResultDuplicate.
Proof.
  intros Hrd Hi. unfold Push.
  pose proof (msg_fragment_valid seq chunks i Hsend Hi) as Hv. fold frag in Hv. rewrite Hv. cbn [negb].
  assert (Had : alreadyDelivered r (frag i) = true).
  { unfold alreadyDelivered. simpl. fold crc.
    destruct (rd_window _ Hrd) as [->|(-> & -> & _)]; apply Z.eqb_refl. }
  by rewrite Had.
Qed.

Lemma received_other r f :
  received r -> frag_typed f -> seq ∈ K -> gSeq f ∈ K -> gSeq f <> seq -> received (Push r f).1.
Proof.
  intros Hrd Ht Hseq Hin Hne. pose proof (rd_ok _ Hrd) as Hr.
  destruct (Push_frame r f K Hr Ht (rd_dom _ Hrd) Hin (rd_fit _ Hrd)) as (Hq & Hdom & Hmove).
  constructor; [by apply Push_ok|done|rewrite Push_caps by done; apply Hrd|].
  pose proof (rd_fit _ Hrd) as Hfit.
  destruct (rd_window _ Hrd) as [Hw|(Hd & Hp & Hsub)];
    destruct Hmove as [(-> & ->)|[(c & _ & -> & ->)|(c & Hfull & -> & ->)]].
  - by left.
  - left. by rewrite lookup_insert_ne.
  - right. rewrite lookup_insert_ne, lookup_empty by done. split_and!; [done..|].
    rewrite dom_insert, dom_empty. set_solver.
  - right. done.
  - right. rewrite lookup_insert_ne by done. split_and!; [done..|].
    rewrite dom_insert. set_solver.
  - exfalso. apply subseteq_size in Hsub. rewrite size_dom in Hsub.
    rewrite size_difference in Hsub by set_solver. rewrite size_singleton in Hsub.
    assert (0 < size K)%nat; [|lia].
    apply Nat.neq_0_lt_0, size_non_empty_iff. set_solver.
Qed.

(** The fragments of a run: those with the message's sequence number are the
    message's own, and no run meets more sequence numbers than [K]. *)
Definition run_of (fs : list Fragment) : Prop :=
  Forall (fun f => frag_typed f /\ gSeq f ∈ K /\
    (gSeq f = seq -> exists i, (i < length chunks)%nat /\ f = frag i)) fs.

Lemma received_run r fs :
  received r -> seq ∈ K -> run_of fs ->
  Forall2 (fun f o => gSeq f = seq -> o = Ok ResultDuplicate) fs (push_all r fs).2.
Proof.
  intros Hrd Hseq Hrun. revert r Hrd.
  induction Hrun as [|f fs (Ht & Hin & Hgen) Hrun IH]; intros r Hrd; [constructor|].
  rewrite push_all_cons. simpl. destruct (decide (gSeq f = seq)) as [He|Hne].
  - destruct (Hgen He) as (i & Hi & ->).
    destruct (received_genuine r i Hrd Hi) as [Hst Hres].
    constructor; [by rewrite Hres|]. rewrite Hst. by apply IH.
  - constructor; [done|]. apply IH. by apply received_other.
Qed.

Lemma receiving_run r S fs :
  receiving r S -> seq ∈ K -> run_of fs ->
  (exists i, (i < length chunks)%nat /\ i ∉ S) ->
  (forall i, (i < length chunks)%nat -> i ∈ S \/ frag i ∈ fs) ->
  exists pre f post rs1 rs2,
    fs = pre ++ f :: post /\ gSeq f = seq /\
    (push_all r fs).2 = rs1 ++ Ok (ResultDelivered (concat chunks)) :: rs2 /\
    Forall2 (fun f o => gSeq f = seq -> o = Ok ResultPartial) pre rs1 /\
    Forall2 (fun f o => gSeq f = seq -> o = Ok ResultDuplicate) post rs2.
Proof.
  intros Hrc Hseq Hrun. revert r S Hrc.
  induction Hrun as [|f fs (Ht & Hin & Hgen) Hrun IH]; intros r S Hrc Hmiss Hall.
  - destruct Hmiss as (i & Hi & Hni). destruct (Hall i Hi) as [|Hn]; [done|].
    by apply elem_of_nil in Hn.
  - rewrite push_all_cons. simpl. destruct (decide (gSeq f = seq)) as [He|Hne].
    + destruct (Hgen He) as (i & Hi & ->).
      destruct (receiving_genuine r S i Hrc Hi Hseq) as [(Hm & Hrc' & Hres)|(_ & Hrd & Hres)].
      * destruct (IH _ _ Hrc' Hm) as (pre & g & post & rs1 & rs2 & -> & Hg & -> & Hp & Hq).
        { intros j Hj. destruct (Hall j Hj) as [?|Hj']; [set_solver|].
          apply elem_of_cons in Hj' as [He'|?]; [|by right]. left.
          unfold frag, msg_fragment, WithPayloadCRC in He'. injection He' as Hij _ _.
          apply Nat2Z.inj in Hij. set_solver. }
        exists (frag i :: pre), g, post, (Ok ResultPartial :: rs1), rs2.
        rewrite Hres. split_and!; [done..|constructor; done|done].
      * exists [], (frag i), fs, [], (push_all (Push r (frag i)).1 fs).2.
        rewrite Hres. split_and!; [done..|by apply received_run].
    + destruct (IH (Push r f).1 S) as (pre & g & post & rs1 & rs2 & -> & Hg & Hr & Hp & Hq);
        [by apply receiving_other|done| |].
      { intros j Hj. destruct (Hall j Hj) as [?|Hj']; [by left|].
        apply elem_of_cons in Hj' as [He'|?]; [|by right]. subst f. done. }
      exists (f :: pre), g, post, ((Push r f).2 :: rs1), rs2. rewrite Hr.
      split_and!; [done..|constructor; done|done].
Qed.
End exactly_once.

Lemma complete_run_delivers (seq : Z) (chunks : list bytes)
    (r : Reassembler) (fs : list Fragment)
    (Hr : reasm_ok r) (Hsend : sendable chunks)
    (Hnew : inbound r !! seq = None)
    (Hfresh : alreadyDelivered r (msg_fragment seq chunks 0) = false)
    (Htyped : Forall frag_typed fs)
    (Hgenuine : Forall (fun f => gSeq f = seq ->
       exists i, (i < length chunks)%nat /\ f = msg_fragment seq chunks i) fs)
    (Hall : forall i, (i < length chunks)%nat -> msg_fragment seq chunks i ∈ fs)
    (Hfit : Z.of_nat (size (dom (inbound r) ∪ list_to_set (gSeq <$> fs) : gset Z))
            <= maxRecent r) :
  exists pre f post rs1 rs2,
    fs = pre ++ f :: post /\ gSeq f = seq /\
    (push_all r fs).2 = rs1 ++ Ok (ResultDelivered (concat chunks)) :: rs2 /\
    Forall2 (fun f o => gSeq f = seq -> o = Ok ResultPartial) pre rs1 /\
    Forall2 (fun f o => gSeq f = seq -> o = Ok ResultDuplicate) post rs2.
Proof.
  assert (Hpos : (0 < length chunks)%nat)
    by (destruct Hsend as [Hne _]; destruct chunks; [done|simpl; lia]).
  set (K := dom (inbound r) ∪ list_to_set (gSeq <$> fs) : gset Z) in *.
  assert (HK : forall f, f ∈ fs -> gSeq f ∈ K).
  { intros f Hf. apply elem_of_union_r, elem_of_list_to_set, list_elem_of_fmap. eauto. }
  apply (receiving_run seq chunks K Hsend r ∅).
  - constructor; [done|set_solver|done| |done]. unfold entry_is. by rewrite Hnew.
  - apply (HK (msg_fragment seq chunks 0)). by apply Hall.
  - unfold run_of. rewrite Forall_forall in *. intros f Hf. auto.
  - exists 0%nat. split; [done|set_solver].
  - auto.
Qed.

(** C4: a message is delivered exactly once whatever the order.  Push all its
    fragments, in any order, any number of times, mixed with the fragments of
    any other messages (well-formed or not): as long as the sequence numbers in
    play fit the window, the message comes out once, byte for byte; every fragment
    of it before that is answered as partial and every one after as a duplicate. *)
Theorem message_delivered_exactly_once (seq : Z) (chunks : list bytes)
    (r : Reassembler) (fs : list Fragment)
    (Hr : reasm_ok r) (Hsend : sendable chunks)
    (Hnew : inbound r !! seq = None)
    (Hfresh : alreadyDelivered r (msg_fragment seq chunks 0) = false)
    (Htyped : Forall frag_typed fs)
    (Hgenuine : Forall (fun f => gSeq f = seq ->
       exists i, (i < length chunks)%nat /\ f = msg_fragment seq chunks i) fs)
    (Hall : forall i, (i < length chunks)%nat -> msg_fragment seq chunks i ∈ fs)
    (Hfit : Z.of_nat (size (dom (inbound r) ∪ list_to_set (gSeq <$> fs) : gset Z))
            <= maxRecent r) :
  exists pre f post rs1 rs2,
    fs = pre ++ f :: post /\ gSeq f = seq /\
    (push_all r fs).2 = rs1 ++ Ok (ResultDelivered (concat chunks)) :: rs2 /\
    Forall2 (fun f o => gSeq f = seq -> o = Ok ResultPartial) pre rs1 /\
    Forall2 (fun f o => gSeq f = seq -> o = Ok ResultDuplicate) post rs2.
Proof. by apply complete_run_delivers. Qed.

Lemma message_delivered_exactly_once_witness :
  let chunks := [[1; 2]; [3]] in
  let f := msg_fragment 7 chunks in
  let fs := [f 1%nat; WithPayloadCRC (MkFragment 9 4 10 0 3 0 [8]); f 1%nat; f 0%nat; f 1%nat] in
  exists pre g post rs1 rs2,
    fs = pre ++ g :: post /\ gSeq g = 7 /\
    (push_all (NewReassembler 4) fs).2 = rs1 ++ Ok (ResultDelivered (concat chunks)) :: rs2 /\
    Forall2 (fun f o => gSeq f = 7 -> o = Ok ResultPartial) pre rs1 /\
    Forall2 (fun f o => gSeq f = 7 -> o = Ok ResultDuplicate) post rs2.
Proof.
  intros chunks f fs.
  apply (message_delivered_exactly_once 7 chunks (NewReassembler 4) fs).
  - apply NewReassembler_ok.
  - unfold sendable. split; [done|]. vm_compute. split_and!; discriminate.
  - reflexivity.
  - reflexivity.
  - repeat constructor; unfold frag_typed; simpl; lia.
  - repeat constructor; intros H; try discriminate H; try (exists 0%nat; split; [simpl; lia|done]);
      exists 1%nat; (split; [simpl; lia|done]).
  - intros [|[|i]] Hi; [unfold fs; set_solver|unfold fs; set_solver|simpl in Hi; lia].
  - vm_compute. discriminate.
Defined.
