(* ===== verification/Sender.v ===== *)
(** * Sender: acknowledgement tracking, the outbound queue pair and the
    retransmitting sender (internal/transport/common/ack.go, outbound.go,
    sender.go)

    [Send] holds the sender's mutex, so one call is in flight at a time; it runs
    beside the transport's receive loop (which calls [Resolve] and [Ack]) and its
    writer loop (which calls [Next]).  The call is a program counter moved by
    [send_step], one event at a time: an event is either a step of the call
    itself or something another goroutine does in between. *)

From S2P Require Import Prelude Bytes Frame Reassembly.

(** ** Acknowledgement tracking *)

(** [wNotify] is the one-slot channel [notify]: [true] when a tick is buffered. *)
(* go: transport/common/ack.go 22-30 AckWaiter *)
Record AckWaiter := MkWaiter {
  wCRC : Z;
  wTotal : Z;
  wAcked : list bool;
  wRemaining : Z;
  wNotify : bool;
}.

(** The map [pending]; a waiter is reached through it or through the [Send]
    call that registered it, under the same sequence number. *)
(* go: transport/common/ack.go 5-20 AckTracker *)
Definition AckTracker : Type := gmap Z AckWaiter.

(* go: transport/common/ack.go 32-35 NewAckTracker *)
Definition NewAckTracker : AckTracker := ∅.

(* go: transport/common/ack.go 37-51 Register *)
Definition Register (t : AckTracker) (seq crc total : Z) : AckTracker :=
  <[seq := MkWaiter crc total (replicate (Z.to_nat total) false) total false]> t.

(* go: transport/common/ack.go 53-58 Unregister *)
Definition Unregister (t : AckTracker) (seq : Z) : AckTracker := delete seq t.

(** The part of [Mark] on the waiter; [None] when nothing is flipped. *)
(* go: transport/common/ack.go 71-83 Mark *)
Definition mark_waiter (w : AckWaiter) (crc fragIdx : Z) : outcome Empty_set (option AckWaiter) :=
  if negb (wCRC w =? crc) || (fragIdx <? 0) || (wTotal w <=? fragIdx) then Ok None
  else
    let* done := index (wAcked w) fragIdx in
    if (done : bool) then Ok None
    else Ok (Some (MkWaiter (wCRC w) (wTotal w) (<[Z.to_nat fragIdx := true]> (wAcked w))
                     (wRemaining w - 1) true)).

(* go: transport/common/ack.go 60-84 Mark *)
Definition Mark (t : AckTracker) (seq crc fragIdx : Z) : outcome Empty_set (AckTracker * bool) :=
  match t !! seq with
  | None => Ok (t, false)
  | Some w =>
      let* r := mark_waiter w crc fragIdx in
      match r with
      | None => Ok (t, false)
      | Some w' => Ok (<[seq := w']> t, true)
      end
  end.

(* go: transport/common/ack.go 86-97 Pending *)
Fixpoint pending_from (i : Z) (acked : list bool) : list Z :=
  match acked with
  | [] => []
  | ok :: rest => if (ok : bool) then pending_from (i + 1) rest else i :: pending_from (i + 1) rest
  end.

(* go: transport/common/ack.go 86-97 Pending *)
Definition Pending (w : AckWaiter) : list Z := pending_from 0 (wAcked w).

(* go: transport/common/ack.go 99-104 Done *)
Definition Done (w : AckWaiter) : bool := wRemaining w =? 0.

(** ** The outbound queue pair *)

(* go: transport/common/outbound.go 3-8 outboundDataQueueSize *)
Definition outboundDataQueueSize : Z := 256.
(* go: transport/common/outbound.go 3-8 outboundAckQueueSize *)
Definition outboundAckQueueSize : Z := 64.

(* go: transport/common/outbound.go 10-19 OutboundQueue *)
Record OutboundQueue := MkQueue {
  qData : list bytes;
  qAcks : list bytes;
  qClosed : bool;
}.

(* go: transport/common/outbound.go 21-30 NewOutboundQueue *)
Definition NewOutboundQueue : OutboundQueue := MkQueue [] [] false.

(** A [select] takes any of its ready cases; [coin] is the runtime's choice. *)
Definition select_ready {A} (coin : nat) (ready : list A) : option A :=
  ready !! (coin mod length ready)%nat.

(** What a receive case of [Next] yields: the frame (or [None] for the close
    signal) and the queue after it. *)
Definition case_closed (q : OutboundQueue) : list (option bytes * OutboundQueue) :=
  if qClosed q then [(None, q)] else [].
Definition case_ack (q : OutboundQueue) : list (option bytes * OutboundQueue) :=
  match qAcks q with [] => [] | f :: fs => [(Some f, MkQueue (qData q) fs (qClosed q))] end.
Definition case_data (q : OutboundQueue) : list (option bytes * OutboundQueue) :=
  match qData q with [] => [] | f :: fs => [(Some f, MkQueue fs (qAcks q) (qClosed q))] end.

(** [NextStop] is [(nil, false)] and [NextIdle] is [(nil, true)]. *)
Inductive next_result :=
| NextFrame (frame : bytes)
| NextStop
| NextIdle.

(** [q2] is the queue the second [select] finds: the first one's, as left by
    whatever other goroutines did in between. *)
(* go: transport/common/outbound.go 32-58 Next *)
Definition Next (coin1 coin2 : nat) (q q2 : OutboundQueue) : next_result * OutboundQueue :=
  match select_ready coin1 (case_closed q ++ case_ack q) with
  | Some (None, q') => (NextStop, q')
  | Some (Some frame, q') => (NextFrame frame, q')
  | None =>
      match select_ready coin2 (case_closed q2 ++ case_ack q2 ++ case_data q2) with
      | Some (None, q') => (NextStop, q')
      | Some (Some frame, q') => (NextFrame frame, q')
      | None => (NextIdle, q2)
      end
  end.

(** [None] while the channel is full.  A close that arrives between the two
    [select]s leads to the outcome of the call before or after the close. *)
(* go: transport/common/outbound.go 60-84 Enqueue *)
Definition Enqueue (q : OutboundQueue) (frame : bytes) (priority : bool)
  : option (option OutboundQueue) :=
  if qClosed q then Some None
  else if priority then
    if len (qAcks q) <? outboundAckQueueSize
    then Some (Some (MkQueue (qData q) (qAcks q ++ [frame]) false)) else None
  else
    if len (qData q) <? outboundDataQueueSize
    then Some (Some (MkQueue (qData q ++ [frame]) (qAcks q) false)) else None.

(** ** The sender *)

(* go: transport/common/sender.go 16-17 maxAckTimeout *)
Definition maxAckTimeout : Z := 30 * 1000000000.

(* go: transport/common/sender.go 19-36 SenderConfig *)
Record SenderConfig := MkSenderConfig {
  cfgRole : Z;
  cfgBinding : Z;
  cfgFragmentSize : Z;
  cfgMaxAttempts : Z;
  cfgFrameInterval : Z;
  cfgBatchSize : Z;
  cfgAckFloor : Z;
}.

(* go: transport/common/sender.go 38-53 Sender *)
Record Sender := MkSender {
  sCfg : SenderConfig;
  sQueue : OutboundQueue;
  sAcks : AckTracker;
  sSeq : Z;
}.

(* go: transport/common/sender.go 55-58 NewSender *)
Definition NewSender (cfg : SenderConfig) (q : OutboundQueue) : Sender :=
  MkSender cfg q NewAckTracker 0.

Definition set_queue (s : Sender) (q : OutboundQueue) : Sender :=
  MkSender (sCfg s) q (sAcks s) (sSeq s).
Definition set_acks (s : Sender) (t : AckTracker) : Sender :=
  MkSender (sCfg s) (sQueue s) t (sSeq s).

(* go: transport/common/sender.go 154-175 PerAttemptAckTimeout *)
Definition PerAttemptAckTimeout (fragments batchSize frameInterval floor : Z) : Z :=
  let batchSize := if batchSize <=? 0 then 1 else batchSize in
  let drainTicks := Z.quot (i64 (i64 (fragments + batchSize) - 1)) batchSize in
  let estimated := i64 (i64 (drainTicks * frameInterval) * 3) in
  if estimated <? floor then floor
  else if maxAckTimeout <? estimated then maxAckTimeout
  else estimated.

(* go: transport/common/sender.go 106-109 Resolve *)
Definition Resolve (s : Sender) (seq crc fragIdx : Z) : outcome Empty_set Sender :=
  let* r := Mark (sAcks s) seq crc fragIdx in Ok (set_acks s r.1).

(** [None] while the ack channel is full. *)
(* go: transport/common/sender.go 111-115 Ack *)
Definition Ack (s : Sender) (seq crc fragIdx : Z) : option Sender :=
  match Enqueue (sQueue s) (EncodeAck (cfgRole (sCfg s)) (cfgBinding (sCfg s)) seq crc fragIdx) true with
  | None => None
  | Some None => Some s
  | Some (Some q) => Some (set_queue s q)
  end.

(* go: transport/common/sender.go 117-120 Hello *)
Definition SenderHello (s : Sender) : bytes := EncodeHello (cfgRole (sCfg s)) (cfgBinding (sCfg s)).

(** *** One call of [Send] *)

(** The error result: nil, [ErrAckTimeout] or the queue's [closedErr]. *)
Inductive send_result := SendOk | SendAckTimeout | SendClosed.

(** Where the call stands; [rem] counts the attempts after the current one. *)
Inductive send_pc :=
| PQueue (rem : nat) (todo : list Z)   (* in queueFragments, [todo] still to queue *)
| PTop (rem : nat)                     (* at the top of await's loop *)
| PSelect (rem : nat)                  (* blocked in await's select *)
| PAfter (rem : nat)                   (* await returned (false, nil) *)
| PReturn (r : send_result).

Record send_call := MkCall {
  cSeq : Z;
  cCRC : Z;
  cTotalLen : Z;
  cFrags : list bytes;
  cPc : send_pc;
}.

Definition set_pc (c : send_call) (pc : send_pc) : send_call :=
  MkCall (cSeq c) (cCRC c) (cTotalLen c) (cFrags c) pc.

(** The head of the attempt loop: the next attempt, or the end of the budget. *)
(* go: transport/common/sender.go 84-84 Send *)
Definition next_attempt (rem : nat) (pending : list Z) : send_pc :=
  match rem with
  | O => PReturn SendAckTimeout
  | S rem' => PQueue rem' pending
  end.

(** Leaving [Send] runs the deferred [Unregister]. *)
(* go: transport/common/sender.go 71-72 Send *)
Definition send_return (s : Sender) (c : send_call) (r : send_result) : Sender * send_call :=
  (set_acks s (Unregister (sAcks s) (cSeq c)), set_pc c (PReturn r)).

(** [Send] up to the first round of its loop. *)
(* go: transport/common/sender.go 63-84 Send *)
Definition SendStart (s : Sender) (data : bytes) : Sender * send_call :=
  let seq := u32 (sSeq s + 1) in
  let crc := ChecksumIEEE data in
  let fragments := FragmentPayload data (cfgFragmentSize (sCfg s)) in
  let pending := Z.of_nat <$> List.seq 0 (length fragments) in
  let s := MkSender (sCfg s) (sQueue s) (Register (sAcks s) seq crc (len fragments)) seq in
  let c pc := MkCall seq crc (len data) fragments pc in
  match next_attempt (Z.to_nat (cfgMaxAttempts (sCfg s))) pending with
  | PReturn r => send_return s (c (PReturn r)) r
  | pc => (s, c pc)
  end.

(* go: transport/common/sender.go 122-132 queueFragments *)
Definition fragment_frame (cfg : SenderConfig) (c : send_call) (idx : Z)
  : outcome Empty_set bytes :=
  let* fragment := index (cFrags c) idx in
  Ok (EncodeData (cfgRole cfg) (cfgBinding cfg) (cSeq c) (cCRC c) (cTotalLen c) idx
        (len (cFrags c)) fragment).

(** Something that happens: a step of the call ([EvRun]; [EvNotify], [EvTimer]
    and [EvClosed] when its select takes that case), or an ack arriving, the
    writer taking a frame, the transport closing, an ack being queued. *)
Inductive event :=
| EvRun
| EvNotify
| EvTimer
| EvClosed
| EvAck (seq crc fragIdx : Z)
| EvNext (coin1 coin2 : nat)
| EvClose
| EvSendAck (seq crc fragIdx : Z).

(** [None]: the event cannot happen in this state. *)
(* go: transport/common/sender.go 60-152 Send *)
Definition send_step (s : Sender) (c : send_call) (ev : event) : option (Sender * send_call) :=
  let waiter := sAcks s !! cSeq c in
  match ev, cPc c with
  | EvRun, PQueue rem [] => Some (s, set_pc c (PTop rem))
  | EvRun, PQueue rem (idx :: todo) =>
      match fragment_frame (sCfg s) c idx with
      | Ok frame =>
          match Enqueue (sQueue s) frame false with
          | None => None
          | Some None => Some (send_return s c SendClosed)
          | Some (Some q) => Some (set_queue s q, set_pc c (PQueue rem todo))
          end
      | _ => None
      end
  | EvRun, PTop rem =>
      match waiter with
      | Some w => if Done w then Some (send_return s c SendOk) else Some (s, set_pc c (PSelect rem))
      | None => None
      end
  | EvNotify, PSelect rem =>
      match waiter with
      | Some w =>
          if wNotify w then
            let w' := MkWaiter (wCRC w) (wTotal w) (wAcked w) (wRemaining w) false in
            Some (set_acks s (<[cSeq c := w']> (sAcks s)), set_pc c (PTop rem))
          else None
      | None => None
      end
  | EvTimer, PSelect rem =>
      match waiter with
      | Some w => if Done w then Some (send_return s c SendOk) else Some (s, set_pc c (PAfter rem))
      | None => None
      end
  | EvClosed, PSelect rem =>
      if qClosed (sQueue s) then Some (send_return s c SendClosed) else None
  | EvRun, PAfter rem =>
      match waiter with
      | Some w =>
          match Pending w with
          | [] => Some (send_return s c SendOk)
          | pending =>
              match next_attempt rem pending with
              | PReturn r => Some (send_return s c r)
              | pc => Some (s, set_pc c pc)
              end
          end
      | None => None
      end
  | EvAck seq crc fragIdx, _ =>
      match Resolve s seq crc fragIdx with Ok s' => Some (s', c) | _ => None end
  | EvNext coin1 coin2, _ =>
      Some (set_queue s (Next coin1 coin2 (sQueue s) (sQueue s)).2, c)
  | EvClose, _ =>
      Some (set_queue s (MkQueue (qData (sQueue s)) (qAcks (sQueue s)) true), c)
  | EvSendAck seq crc fragIdx, _ =>
      match Ack s seq crc fragIdx with Some s' => Some (s', c) | None => None end
  | _, _ => None
  end.

(** ** Inbound fragments *)

(* go: transport/common/sender.go 177-206 DeliverFragment *)
Definition frame_fragment (f : Frame) : Fragment :=
  MkFragment (fSeq f) (fCRC f) (fTotalLen f) (fFragIdx f) (fFragTotal f) (fFragCRC f) (fPayload f).

(** The calls made: [onData data] and [ack seq crc fragIdx]. *)
Record delivery := MkDelivery {
  dData : option bytes;
  dAck : option (Z * Z * Z);
}.

(* go: transport/common/sender.go 177-206 DeliverFragment *)
Definition DeliverFragment (r : Reassembler) (frame : Frame)
  : Reassembler * outcome Empty_set delivery :=
  let '(r', res) := Push r (frame_fragment frame) in
  let ack := Some (fSeq frame, fCRC frame, fFragIdx frame) in
  (r', let* result := res in
       match result with
       | ResultDelivered data => Ok (MkDelivery (Some data) ack)
       | ResultPartial | ResultDuplicate => Ok (MkDelivery None ack)
       | ResultIgnore => Ok (MkDelivery None None)
       end).
