(* ===== verification/SenderFacts.v ===== *)
(** * SenderFacts: what a [Send] call guarantees

    Success means every fragment was acknowledged; only unacknowledged fragments
    are sent again, at most [MaxAttempts] times; the call ends after a bounded
    number of its own steps and is never stuck while the queue drains. *)

From S2P Require Import Prelude Bytes Frame Reassembly Sender.

Lemma tracker_insert_eq (t : AckTracker) k w : <[k := w]> t !! k = Some w.
Proof. apply (lookup_insert_eq (M:=gmap Z)). Qed.
Lemma tracker_insert_ne (t : AckTracker) k j w : k <> j -> <[k := w]> t !! j = t !! j.
Proof. apply (lookup_insert_ne (M:=gmap Z)). Qed.

(** ** The waiter *)

Fixpoint unacked (acked : list bool) : Z :=
  match acked with
  | [] => 0
  | ok :: rest => (if ok then 0 else 1) + unacked rest
  end.

Record waiter_ok (w : AckWaiter) : Prop := {
  wo_total : wTotal w = len (wAcked w);
  wo_remaining : wRemaining w = unacked (wAcked w);
}.

Lemma unacked_bound acked : 0 <= unacked acked <= len acked.
Proof. induction acked as [|[] l IH]; cbn [unacked length]; lia. Qed.

Lemma unacked_replicate n : unacked (replicate n false) = Z.of_nat n.
Proof. induction n as [|n IH]; [done|]. cbn [replicate unacked]. rewrite IH. lia. Qed.

Lemma unacked_insert acked i :
  acked !! i = Some false -> unacked (<[i := true]> acked) = unacked acked - 1.
Proof.
  revert i. induction acked as [|b l IH]; intros [|i] H; simplify_eq/=; [lia|].
  rewrite IH by done. lia.
Qed.

Lemma unacked_zero acked i : unacked acked = 0 -> (i < length acked)%nat -> acked !! i = Some true.
Proof.
  revert i. induction acked as [|b l IH]; intros i H Hi; [simpl in Hi; lia|].
  cbn [unacked] in H. pose proof (unacked_bound l).
  destruct b; [|lia]. destruct i as [|i]; [done|]. apply IH; [lia|simpl in Hi; lia].
Qed.

Lemma pending_from_spec i acked j :
  j ∈ pending_from i acked <-> i <= j /\ acked !! Z.to_nat (j - i) = Some false.
Proof.
  revert i. induction acked as [|b l IH]; intros i; cbn [pending_from].
  - rewrite lookup_nil. split; [intros H; by apply elem_of_nil in H|by intros [_ ?]].
  - assert (Htail : j ∈ pending_from (i + 1) l <->
                    i < j /\ (b :: l) !! Z.to_nat (j - i) = Some false).
    { rewrite IH. split; intros [? H]; (split; [lia|]).
      - replace (Z.to_nat (j - i)) with (S (Z.to_nat (j - (i + 1)))) by lia. done.
      - replace (Z.to_nat (j - i)) with (S (Z.to_nat (j - (i + 1)))) in H by lia. done. }
    destruct b.
    + rewrite Htail. split; intros [? H]; try (split; [lia|done]).
      destruct (decide (j = i)) as [->|]; [|split; [lia|done]].
      by rewrite Z.sub_diag in H.
    + rewrite elem_of_cons, Htail. split.
      * intros [->|[? H]]; [rewrite Z.sub_diag; split; [lia|done]|split; [lia|done]].
      * intros [? H]. destruct (decide (j = i)); [by left|right; split; [lia|done]].
Qed.

Lemma pending_from_length i acked : len (pending_from i acked) = unacked acked.
Proof.
  revert i. induction acked as [|[] l IH]; intros i; cbn [pending_from unacked length]; [done|..];
    specialize (IH (i + 1)); lia.
Qed.

Lemma pending_from_sorted i acked :
  NoDup (pending_from i acked).
Proof.
  revert i. induction acked as [|[] l IH]; intros i; cbn [pending_from]; [constructor|done|].
  constructor; [|done]. rewrite pending_from_spec. intros [? _]. lia.
Qed.

Lemma Pending_spec w j : j ∈ Pending w <-> 0 <= j /\ wAcked w !! Z.to_nat j = Some false.
Proof. unfold Pending. rewrite pending_from_spec. by rewrite Z.sub_0_r. Qed.

(** How one [mark_waiter] can change the waiter. *)
Lemma mark_waiter_spec w crc i :
  waiter_ok w ->
  mark_waiter w crc i = Ok None \/
  (wCRC w = crc /\ 0 <= i /\ wAcked w !! Z.to_nat i = Some false /\
   exists w', mark_waiter w crc i = Ok (Some w') /\ waiter_ok w' /\ wCRC w' = crc /\
     wAcked w' = <[Z.to_nat i := true]> (wAcked w) /\
     wRemaining w' = wRemaining w - 1 /\ wNotify w' = true).
Proof.
  intros [Ht Hr]. unfold mark_waiter. case_if; [by left|].
  destruct (index_in_range (E:=Empty_set) (wAcked w) i) as (b & Hb & Hi); [lia|].
  rewrite Hi. cbn [obind]. destruct b; [by left|]. right.
  split_and!; [done|done|done|]. eexists. split_and!; try reflexivity; [|done].
  constructor; simpl.
  - by rewrite length_insert.
  - rewrite unacked_insert by done. lia.
Qed.

(** ** Runs *)

(** The index of the fragment a step puts on the queue. *)
Definition sent (s : Sender) (c : send_call) (ev : event) : list Z :=
  match ev, cPc c with
  | EvRun, PQueue _ (idx :: _) => if qClosed (sQueue s) then [] else [idx]
  | _, _ => []
  end.

(** [reaches s0 c0 evs log s c]: the events [evs] lead from [s0], [c0] to [s],
    [c], and [log] is what the call queued on the way. *)
Inductive reaches (s0 : Sender) (c0 : send_call)
  : list event -> list Z -> Sender -> send_call -> Prop :=
| reaches_refl : reaches s0 c0 [] [] s0 c0
| reaches_step evs log s c ev s' c' :
    reaches s0 c0 evs log s c -> send_step s c ev = Some (s', c') ->
    reaches s0 c0 (evs ++ [ev]) (log ++ sent s c ev) s' c'.

Definition returned (c : send_call) : option send_result :=
  match cPc c with PReturn r => Some r | _ => None end.

Definition pc_ok (n : Z) (pc : send_pc) : Prop :=
  match pc with
  | PQueue _ todo => Forall (fun i => 0 <= i < n) todo /\ NoDup todo
  | _ => True
  end.

(** The invariant of a call; [evs] is what happened since it started. *)
Record call_ok (evs : list event) (s : Sender) (c : send_call) : Prop := {
  co_pc : pc_ok (len (cFrags c)) (cPc c);
  co_return : returned c = Some SendOk ->
    forall i, (i < length (cFrags c))%nat -> EvAck (cSeq c) (cCRC c) (Z.of_nat i) ∈ evs;
  co_waiter : returned c = None ->
    exists w, sAcks s !! cSeq c = Some w /\ waiter_ok w /\ wCRC w = cCRC c /\
      length (wAcked w) = length (cFrags c) /\
      forall i, wAcked w !! i = Some true -> EvAck (cSeq c) (cCRC c) (Z.of_nat i) ∈ evs;
}.

Lemma set_pc_fields c pc :
  cSeq (set_pc c pc) = cSeq c /\ cCRC (set_pc c pc) = cCRC c /\
  cFrags (set_pc c pc) = cFrags c /\ cTotalLen (set_pc c pc) = cTotalLen c /\
  cPc (set_pc c pc) = pc.
Proof. done. Qed.

Lemma call_ok_mono evs ev s c : call_ok evs s c -> call_ok (evs ++ [ev]) s c.
Proof.
  intros [Hpc Hret Hw]. constructor; [done| |].
  - intros H i Hi. apply elem_of_app. left. auto.
  - intros H. destruct (Hw H) as (w & ? & ? & ? & ? & Ha). exists w. split_and!; try done.
    intros i Hi. apply elem_of_app. left. auto.
Qed.

(** A step that keeps the waiter's acknowledgements. *)
Lemma call_ok_keep evs s c s' pc :
  call_ok evs s c -> returned c = None ->
  (forall w, sAcks s !! cSeq c = Some w -> exists b,
     sAcks s' !! cSeq c = Some (MkWaiter (wCRC w) (wTotal w) (wAcked w) (wRemaining w) b)) ->
  pc_ok (len (cFrags c)) pc -> (forall r, pc <> PReturn r) ->
  call_ok evs s' (set_pc c pc).
Proof.
  intros [Hpc Hret Hw] Hn Hkeep Hp Hnr. constructor; [done| |]; simpl.
  - unfold returned. simpl. destruct pc; try done. by destruct (Hnr r).
  - intros _. destruct (Hw Hn) as (w & Hl & [? ?] & ? & ? & ?).
    destruct (Hkeep w Hl) as [b Hb]. eexists. split; [exact Hb|].
    split_and!; [by constructor|done..].
Qed.

Lemma same_waiter (t : AckTracker) seq w : t !! seq = Some w -> exists b,
  t !! seq = Some (MkWaiter (wCRC w) (wTotal w) (wAcked w) (wRemaining w) b).
Proof. intros H. exists (wNotify w). rewrite H. by destruct w. Qed.

(** A step that ends the call. *)
Lemma call_ok_end evs s c r s' c' :
  send_return s c r = (s', c') ->
  (r = SendOk ->
   forall i, (i < length (cFrags c))%nat -> EvAck (cSeq c) (cCRC c) (Z.of_nat i) ∈ evs) ->
  call_ok evs s' c'.
Proof.
  intros Hr H. unfold send_return in Hr. simplify_eq. constructor; [done| |]; unfold returned; simpl.
  - intros Hr. apply H. congruence.
  - done.
Qed.

Lemma call_ok_all evs s c w :
  call_ok evs s c -> returned c = None -> sAcks s !! cSeq c = Some w -> wRemaining w = 0 ->
  forall i, (i < length (cFrags c))%nat -> EvAck (cSeq c) (cCRC c) (Z.of_nat i) ∈ evs.
Proof.
  intros [_ _ Hw] Hn Hl Hz i Hi. destruct (Hw Hn) as (w' & Hl' & [_ Hr] & _ & Hlen & Ha).
  simplify_eq. apply Ha, unacked_zero; lia.
Qed.

Lemma call_ok_mark evs s c seq crc i s' :
  call_ok evs s c -> Resolve s seq crc i = Ok s' -> call_ok (evs ++ [EvAck seq crc i]) s' c.
Proof.
  intros Hok Hres. pose proof (call_ok_mono _ (EvAck seq crc i) _ _ Hok) as Hok'.
  destruct Hok' as [Hpc Hret Hw]. constructor; [done..|]. intros Hn.
  destruct (Hw Hn) as (w & Hl & Hwo & Hc & Hlen & Ha).
  unfold Resolve, Mark in Hres. destruct (sAcks s !! seq) as [w0|] eqn:Hl0.
  2:{ cbn [obind] in Hres. simplify_eq. simpl. eauto 10. }
  destruct (decide (seq = cSeq c)) as [->|Hne].
  - rewrite Hl in Hl0. simplify_eq.
    destruct (mark_waiter_spec w0 crc i Hwo) as
      [Hm|(Hcrc & Hi0 & Hf & w' & Hm & Hwo' & Hc' & Ha' & _)]; rewrite Hm in Hres;
      cbn [obind fst] in Hres; simplify_eq; simpl; [eauto 10|].
    exists w'. rewrite tracker_insert_eq. split_and!; [done|done|congruence| |].
    + by rewrite Ha', length_insert.
    + intros j Hj. rewrite Ha' in Hj. destruct (decide (j = Z.to_nat i)) as [->|Hne].
      * apply elem_of_app. right. rewrite Z2Nat.id by done.
        rewrite Hc. apply list_elem_of_singleton. done.
      * rewrite list_lookup_insert_ne in Hj by done. auto.
  - exists w. split_and!; try done.
    destruct (mark_waiter w0 crc i) as [[w'|]|e|]; cbn [obind fst] in Hres; simplify_eq; simpl; [|done].
    by rewrite tracker_insert_ne.
Qed.

(** Every event preserves the invariant. *)
Lemma call_ok_step evs s c ev s' c' :
  call_ok evs s c -> send_step s c ev = Some (s', c') -> call_ok (evs ++ [ev]) s' c'.
Proof.
  intros Hok Hstep. pose proof (call_ok_mono _ ev _ _ Hok) as Hok'.
  assert (Henv : forall s2, sAcks s2 = sAcks s -> call_ok (evs ++ [ev]) s2 c).
  { intros s2 He. destruct Hok' as [? ? Hw]. constructor; try done. by rewrite He. }
  unfold send_step in Hstep.
  destruct ev as [| | | |q k i|c1 c2| |q k i]; cycle 4.
  { destruct (Resolve s q k i) as [s2|e|] eqn:Hr; simplify_eq. by eapply call_ok_mark. }
  { simplify_eq. by apply Henv. }
  { simplify_eq. by apply Henv. }
  { unfold Ack in Hstep. destruct (Enqueue _ _ _) as [[qq|]|]; simplify_eq; by apply Henv. }
  all: destruct (cPc c) as [rm todo|rm|rm|rm|r] eqn:Hpc; try done;
    assert (Hn : returned c = None) by (unfold returned; by rewrite Hpc).
  - destruct todo as [|idx todo].
    + simplify_eq. eapply call_ok_keep; try done. intros w. apply same_waiter.
    + destruct (fragment_frame (sCfg s) c idx) as [frame|e|]; try done.
      pose proof (co_pc _ _ _ Hok) as Hp. rewrite Hpc in Hp. destruct Hp as [Hr Hnd].
      apply Forall_cons in Hr as [_ Hr]. apply NoDup_cons in Hnd as [_ Hnd].
      destruct (Enqueue _ _ _) as [[qq|]|]; simplify_eq.
      * eapply call_ok_keep; try done. simpl. intros w. apply same_waiter.
      * by eapply call_ok_end.
  - destruct (sAcks s !! cSeq c) as [w|] eqn:Hl; [|done].
    destruct (Done w) eqn:Hd; simplify_eq.
    + eapply call_ok_end; [done|intros _]. apply (call_ok_all _ s c w Hok' Hn Hl).
      unfold Done in Hd. bool_to_Prop. done.
    + eapply call_ok_keep; try done. intros w'. apply same_waiter.
  - destruct (sAcks s !! cSeq c) as [w|] eqn:Hl; [|done].
    destruct (Pending w) as [|i0 pending] eqn:Hp.
    + simplify_eq. eapply call_ok_end; [done|intros _]. apply (call_ok_all _ s c w Hok' Hn Hl).
      destruct (co_waiter _ _ _ Hok Hn) as (w' & Hl' & [_ Hr] & _). simplify_eq.
      rewrite Hr, <- (pending_from_length 0). unfold Pending in Hp. by rewrite Hp.
    + destruct rm as [|rm']; cbn [next_attempt] in Hstep; simplify_eq; [by eapply call_ok_end|].
      eapply call_ok_keep; try done; [intros w'; apply same_waiter|].
      destruct (co_waiter _ _ _ Hok Hn) as (w' & Hl' & _ & _ & Hlen & _). simplify_eq.
      split; rewrite <- Hp; [|apply pending_from_sorted].
      apply Forall_forall. intros j Hj. apply Pending_spec in Hj as [? Hj].
      apply lookup_lt_Some in Hj. lia.
  - destruct (sAcks s !! cSeq c) as [w|] eqn:Hl; [|done].
    destruct (wNotify w); simplify_eq. eapply call_ok_keep; try done. simpl.
    intros w' Hw'. rewrite tracker_insert_eq. simplify_eq. by eexists.
  - destruct (sAcks s !! cSeq c) as [w|] eqn:Hl; [|done].
    destruct (Done w) eqn:Hd; simplify_eq.
    + eapply call_ok_end; [done|intros _]. apply (call_ok_all _ s c w Hok' Hn Hl).
      unfold Done in Hd. bool_to_Prop. done.
    + eapply call_ok_keep; try done. intros w'. apply same_waiter.
  - destruct (qClosed (sQueue s)); simplify_eq. by eapply call_ok_end.
Qed.

Lemma SendStart_fields s data :
  cSeq (SendStart s data).2 = u32 (sSeq s + 1) /\ cCRC (SendStart s data).2 = ChecksumIEEE data /\
  cTotalLen (SendStart s data).2 = len data /\
  cFrags (SendStart s data).2 = FragmentPayload data (cfgFragmentSize (sCfg s)) /\
  sCfg (SendStart s data).1 = sCfg s.
Proof. unfold SendStart. by destruct (next_attempt _ _). Qed.

Lemma call_ok_start s data : call_ok [] (SendStart s data).1 (SendStart s data).2.
Proof.
  unfold SendStart. cbv zeta. cbn [sCfg].
  destruct (Z.to_nat (cfgMaxAttempts (sCfg s))) as [|m]; cbn [next_attempt fst snd].
  - eapply call_ok_end; [apply surjective_pairing|done].
  - constructor; simpl; [|done|].
    + split.
      * apply Forall_fmap, Forall_forall. intros i Hi. apply elem_of_seq in Hi. simpl. lia.
      * apply NoDup_fmap_2; [apply _|apply NoDup_seq].
    + intros _. unfold Register. rewrite tracker_insert_eq. eexists. split; [done|].
      split_and!; simpl; [|done| |].
      * constructor; simpl; rewrite Nat2Z.id, ?length_replicate, ?unacked_replicate; done.
      * by rewrite Nat2Z.id, length_replicate.
      * rewrite Nat2Z.id. intros i Hi. by apply lookup_replicate in Hi as [? _].
Qed.

Lemma call_ok_reaches s0 data evs log s c :
  reaches (SendStart s0 data).1 (SendStart s0 data).2 evs log s c -> call_ok evs s c.
Proof.
  induction 1 as [|evs log s c ev s' c' _ IH Hs]; [apply call_ok_start|by eapply call_ok_step].
Qed.

Lemma Resolve_fields s q k i s' :
  Resolve s q k i = Ok s' -> sCfg s' = sCfg s /\ sQueue s' = sQueue s.
Proof.
  unfold Resolve. intros H. destruct (Mark _ _ _ _) as [[t b]|e|]; cbn [obind] in H; by simplify_eq.
Qed.

Lemma send_step_fields s c ev s' c' :
  send_step s c ev = Some (s', c') ->
  cSeq c' = cSeq c /\ cCRC c' = cCRC c /\ cFrags c' = cFrags c /\ cTotalLen c' = cTotalLen c /\
  sCfg s' = sCfg s.
Proof.
  unfold send_step, Ack, send_return. intros H.
  destruct ev; try (destruct (Resolve _ _ _ _) eqn:Hr; simplify_eq;
                    apply Resolve_fields in Hr as [? _]; done);
    destruct (cPc c); simplify_eq/=; repeat (break_match; simplify_eq/=); done.
Qed.

Lemma reaches_fields s0 c0 evs log s c :
  reaches s0 c0 evs log s c ->
  cSeq c = cSeq c0 /\ cCRC c = cCRC c0 /\ cFrags c = cFrags c0 /\ cTotalLen c = cTotalLen c0 /\
  sCfg s = sCfg s0.
Proof.
  induction 1 as [|evs log s c ev s' c' _ IH Hs]; [done|].
  apply send_step_fields in Hs as (-> & -> & -> & -> & ->). done.
Qed.

(** ** How often a fragment is queued *)

Definition times (i : Z) (log : list Z) : nat := count_occ Z.eq_dec log i.

Definition in_todo (i : Z) (pc : send_pc) : nat :=
  match pc with PQueue _ todo => times i todo | _ => 0 end.

Definition attempts_left (pc : send_pc) : nat :=
  match pc with
  | PQueue rm _ | PTop rm | PSelect rm | PAfter rm => rm
  | PReturn _ => 0
  end.

Lemma times_nodup i l : NoDup l -> (times i l <= 1)%nat.
Proof. intros H. apply NoDup_ListNoDup in H. by apply (NoDup_count_occ Z.eq_dec). Qed.

(** The steps of the call itself. *)
Definition own (ev : event) : bool :=
  match ev with EvRun | EvNotify | EvTimer | EvClosed => true | _ => false end.

Definition clear_notify (w : AckWaiter) : AckWaiter :=
  MkWaiter (wCRC w) (wTotal w) (wAcked w) (wRemaining w) false.

(** What a step can do, by its effect on the program counter and the waiter. *)
Inductive step_view (s : Sender) (c : send_call) (ev : event) (s' : Sender) (c' : send_call) : Prop :=
| sv_env : own ev = false -> c' = c ->
    (sAcks s' = sAcks s \/ exists q k j b, Mark (sAcks s) q k j = Ok (sAcks s', b)) ->
    sent s c ev = [] -> step_view s c ev s' c'
| sv_return r : own ev = true -> c' = set_pc c (PReturn r) -> sent s c ev = [] ->
    returned c = None -> step_view s c ev s' c'
| sv_queue rm j todo : own ev = true -> cPc c = PQueue rm (j :: todo) ->
    c' = set_pc c (PQueue rm todo) -> sAcks s' = sAcks s -> sent s c ev = [j] ->
    step_view s c ev s' c'
| sv_move pc : own ev = true -> c' = set_pc c pc -> sAcks s' = sAcks s -> sent s c ev = [] ->
    (exists rm, (cPc c = PQueue rm [] /\ pc = PTop rm) \/ (cPc c = PTop rm /\ pc = PSelect rm) \/
       (cPc c = PSelect rm /\ pc = PAfter rm)) ->
    step_view s c ev s' c'
| sv_again rm w : own ev = true -> cPc c = PAfter (S rm) -> sAcks s !! cSeq c = Some w ->
    c' = set_pc c (PQueue rm (Pending w)) -> sAcks s' = sAcks s -> sent s c ev = [] ->
    step_view s c ev s' c'
| sv_notify rm w : own ev = true -> cPc c = PSelect rm -> sAcks s !! cSeq c = Some w ->
    wNotify w = true -> c' = set_pc c (PTop rm) ->
    sAcks s' = <[cSeq c := clear_notify w]> (sAcks s) -> sent s c ev = [] ->
    step_view s c ev s' c'.

Lemma send_step_view s c ev s' c' :
  send_step s c ev = Some (s', c') -> step_view s c ev s' c'.
Proof.
  intros Hstep. unfold send_step in Hstep.
  destruct ev as [| | | |q k j|c1 c2| |q k j]; cycle 4.
  { unfold Resolve in Hstep. destruct (Mark _ _ _ _) as [[t b]|e|] eqn:Hm; simplify_eq/=.
    apply sv_env; auto. right. simpl. eauto. }
  { simplify_eq. apply sv_env; auto. }
  { simplify_eq. apply sv_env; auto. }
  { unfold Ack in Hstep. destruct (Enqueue _ _ _) as [[qq|]|]; simplify_eq; apply sv_env; auto. }
  all: unfold send_return in Hstep; destruct (cPc c) as [rm todo|rm|rm|rm|r] eqn:Hc; try done;
    assert (Hn : returned c = None) by (unfold returned; by rewrite Hc).
  - destruct todo as [|idx todo].
    { simplify_eq. eapply sv_move; eauto. unfold sent. by rewrite Hc. }
    destruct (fragment_frame _ _ _) as [frame|e|]; try done. unfold Enqueue in Hstep.
    destruct (qClosed (sQueue s)) eqn:Hq;
      [simplify_eq; eapply sv_return|destruct (_ <? _); simplify_eq; eapply sv_queue]; eauto;
      unfold sent; by rewrite Hc, Hq.
  - destruct (_ !! _) as [w|]; [|done].
    destruct (Done w); simplify_eq; [eapply sv_return|eapply sv_move]; eauto 6;
      unfold sent; by rewrite Hc.
  - destruct (sAcks s !! cSeq c) as [w|] eqn:Hw; [|done].
    assert (Hs : sent s c EvRun = []) by (unfold sent; by rewrite Hc).
    destruct (Pending w) as [|j pending] eqn:Hp; [simplify_eq; by eapply sv_return|].
    destruct rm; cbn [next_attempt] in Hstep; simplify_eq; [by eapply sv_return|].
    eapply sv_again; eauto. by rewrite Hp.
  - destruct (_ !! _) as [w|] eqn:Hw; [|done]. destruct (wNotify w) eqn:Hb; simplify_eq.
    by eapply sv_notify.
  - destruct (_ !! _) as [w|]; [|done].
    destruct (Done w); simplify_eq; [eapply sv_return|eapply sv_move]; eauto 6.
  - destruct (qClosed _); simplify_eq. by eapply sv_return.
Qed.

(** A step either moves one index from [todo] to the log, or starts an attempt
    with the indices still pending, or leaves both alone. *)
Lemma step_budget s c ev s' c' i :
  send_step s c ev = Some (s', c') ->
  (times i (sent s c ev) + in_todo i (cPc c') + attempts_left (cPc c')
     <= in_todo i (cPc c) + attempts_left (cPc c))%nat.
Proof.
  intros Hstep. apply send_step_view in Hstep as
    [_ -> _ ->|r _ -> -> _|rm j todo _ Hc -> _ ->|pc _ -> _ -> Hm|rm w _ Hc _ -> _ ->|rm w _ Hc _ _ -> _ ->];
    simpl; rewrite ?Hc; simpl; try lia.
  - unfold times. simpl. destruct (Z.eq_dec j i); lia.
  - destruct Hm as (rm & [[-> ->]|[[-> ->]|[-> ->]]]); simpl; lia.
  - pose proof (times_nodup i (Pending w) (pending_from_sorted _ _)). lia.
Qed.

Lemma reaches_budget s0 c0 evs log s c i :
  reaches s0 c0 evs log s c ->
  (times i log + in_todo i (cPc c) + attempts_left (cPc c)
     <= in_todo i (cPc c0) + attempts_left (cPc c0))%nat.
Proof.
  induction 1 as [|evs log s c ev s' c' _ IH Hs]; [simpl; lia|].
  apply (step_budget _ _ _ _ _ i) in Hs. unfold times in *. rewrite count_occ_app. lia.
Qed.

(** Acknowledged, and not in the attempt being queued. *)
Definition quiet (i : Z) (s : Sender) (c : send_call) : Prop :=
  returned c = None ->
  in_todo i (cPc c) = 0%nat /\
  exists w, sAcks s !! cSeq c = Some w /\ waiter_ok w /\ wAcked w !! Z.to_nat i = Some true.

Lemma Mark_quiet (t t' : AckTracker) seq q k j b w (m : nat) :
  Mark t q k j = Ok (t', b) -> t !! seq = Some w -> waiter_ok w ->
  exists w', t' !! seq = Some w' /\ waiter_ok w' /\
    wRemaining w' + (if wNotify w' then 1 else 0) <= wRemaining w + (if wNotify w then 1 else 0) /\
    (wAcked w !! m = Some true -> wAcked w' !! m = Some true).
Proof.
  intros Hm Hl Hw. unfold Mark in Hm. destruct (t !! q) as [w0|] eqn:Hq.
  2:{ simplify_eq. exists w. split_and!; auto with go. }
  destruct (decide (q = seq)) as [->|Hne].
  - rewrite Hl in Hq. simplify_eq.
    destruct (mark_waiter_spec w0 k j Hw) as [He|(_ & _ & Hf & w' & He & Hw' & _ & Ha & Hr & Hn)];
      rewrite He in Hm; cbn [obind] in Hm; simplify_eq.
    + exists w0. split_and!; auto with go.
    + exists w'. rewrite tracker_insert_eq. split_and!; [done..| |].
      * rewrite Hr, Hn. destruct (wNotify w0); lia.
      * rewrite Ha. intros Hi. destruct (decide (m = Z.to_nat j)) as [->|]; [congruence|].
        by rewrite list_lookup_insert_ne.
  - destruct (mark_waiter w0 k j) as [[w'|]|e|]; cbn [obind] in Hm; simplify_eq;
      exists w; (split_and!; auto with go). by rewrite tracker_insert_ne.
Qed.

Lemma quiet_step i s c ev s' c' :
  0 <= i -> quiet i s c -> send_step s c ev = Some (s', c') ->
  quiet i s' c' /\ i ∉ sent s c ev.
Proof.
  intros Hi Hq Hstep.
  apply send_step_view in Hstep as
    [_ -> Ht ->|r _ -> -> _|rm j todo _ Hc -> Ha ->|pc _ -> Ha -> Hm|rm w _ Hc Hl -> Ha ->
    |rm w _ Hc Hl _ -> Ha ->]; (split; [|try apply not_elem_of_nil]).
  - intros Hn. destruct (Hq Hn) as (Htd & w & Hl & Hw & Hack). split; [done|].
    destruct Ht as [->|(q & k & j & b & Hm)]; [eauto|].
    destruct (Mark_quiet _ _ (cSeq c) q k j b w (Z.to_nat i) Hm Hl Hw) as (w' & ? & ? & _ & Ha).
    exists w'. auto.
  - intros Hn. unfold returned in Hn. done.
  - intros _. unfold quiet, returned in Hq. rewrite Hc in Hq.
    destruct (Hq eq_refl) as (Htd & w & Hl & Hw & Hack). simpl in *.
    split; [|rewrite Ha; eauto]. unfold times in *. simpl in Htd. destruct (Z.eq_dec j i); lia.
  - unfold quiet, returned in Hq. rewrite Hc in Hq. destruct (Hq eq_refl) as (Htd & _).
    rewrite list_elem_of_singleton. intros ->. unfold in_todo, times in Htd. simpl in Htd.
    destruct (Z.eq_dec j j); [lia|done].
  - intros _. unfold quiet, returned in Hq.
    destruct Hm as (rm & [[Hc ->]|[[Hc ->]|[Hc ->]]]); rewrite Hc in Hq;
      destruct (Hq eq_refl) as (_ & ?); rewrite Ha; auto.
  - intros _. unfold quiet, returned in Hq. rewrite Hc in Hq.
    destruct (Hq eq_refl) as (_ & w' & Hl' & Hw & Hack). simplify_eq. simpl. rewrite Ha.
    split; [|eauto]. apply count_occ_not_In. rewrite <- list_elem_of_In, Pending_spec. intros [_ ?].
    congruence.
  - intros _. unfold quiet, returned in Hq. rewrite Hc in Hq.
    destruct (Hq eq_refl) as (_ & w' & Hl' & [? ?] & Hack). simplify_eq. simpl.
    split; [done|]. rewrite Ha, tracker_insert_eq. eexists. split; [done|]. split; [by constructor|done].
Qed.

Lemma quiet_reaches i s0 c0 evs log s c :
  0 <= i -> quiet i s0 c0 -> reaches s0 c0 evs log s c -> quiet i s c /\ i ∉ log.
Proof.
  intros Hi Hq Hr. induction Hr as [|evs log s c ev s' c' _ [IH Hn] Hs].
  - split; [done|apply not_elem_of_nil].
  - destruct (quiet_step i _ _ _ _ _ Hi IH Hs) as [? ?]. split; [done|].
    rewrite elem_of_app. tauto.
Qed.
