(* ===== verification/SenderRuns.v ===== *)
(** * SenderRuns: the guarantees of [Send], of the queue pair and of the ack
    budget *)

From S2P Require Import Prelude Bytes Frame Reassembly Sender SenderFacts.

(** ** Success *)

(** [Send] returns nil only when every fragment of this very message was
    acknowledged: whatever acks arrive, whatever the writer does and whenever the
    transport closes, the run up to a nil result contains, for each fragment
    index, an acknowledgement that carries the message's sequence number and
    checksum. *)
Theorem send_ok_means_all_acked (s0 : Sender) (data : bytes) (evs : list event) (log : list Z)
    (s : Sender) (c : send_call)
    (Hrun : reaches (SendStart s0 data).1 (SendStart s0 data).2 evs log s c)
    (Hret : returned c = Some SendOk) (i : nat)
    (Hi : (i < length (FragmentPayload data (cfgFragmentSize (sCfg s0))))%nat) :
  EvAck (u32 (sSeq s0 + 1)) (ChecksumIEEE data) (Z.of_nat i) ∈ evs.
Proof.
  pose proof (call_ok_reaches _ _ _ _ _ _ Hrun) as Hok.
  destruct (reaches_fields _ _ _ _ _ _ Hrun) as (Hs & Hc & Hf & _).
  destruct (SendStart_fields s0 data) as (Hs0 & Hc0 & _ & Hf0 & _).
  rewrite <- Hs0, <- Hs, <- Hc0, <- Hc. apply (co_return _ _ _ Hok Hret). by rewrite Hf, Hf0.
Qed.

(** An executable run, for the witnesses. *)
Fixpoint run_events (s : Sender) (c : send_call) (evs : list event)
  : option (list Z * Sender * send_call) :=
  match evs with
  | [] => Some ([], s, c)
  | ev :: evs' =>
      match send_step s c ev with
      | Some (s', c') =>
          match run_events s' c' evs' with
          | Some (log, s2, c2) => Some (sent s c ev ++ log, s2, c2)
          | None => None
          end
      | None => None
      end
  end.

Lemma run_events_reaches s0 c0 evs0 log0 s c evs log s' c' :
  reaches s0 c0 evs0 log0 s c -> run_events s c evs = Some (log, s', c') ->
  reaches s0 c0 (evs0 ++ evs) (log0 ++ log) s' c'.
Proof.
  revert evs0 log0 s c log. induction evs as [|ev evs IH]; intros evs0 log0 s c log Hr H.
  - simpl in H. simplify_eq. by rewrite !app_nil_r.
  - cbn [run_events] in H. destruct (send_step s c ev) as [[s1 c1]|] eqn:Hs; [|done].
    destruct (run_events s1 c1 evs) as [[[l s2] c2]|] eqn:Hrun; simplify_eq.
    rewrite cons_middle, !app_assoc. eapply IH; [|done]. by eapply reaches_step.
Qed.

Definition toy_cfg : SenderConfig := MkSenderConfig RoleClient 7 2 3 1 1 10.
Definition toy_sender : Sender := NewSender toy_cfg NewOutboundQueue.
Definition toy_data : bytes := [1; 2; 3].
Definition toy_crc : Z := ChecksumIEEE toy_data.

(** Two fragments; the first ack is lost, the second attempt resends it. *)
Definition toy_events : list event :=
  [EvRun; EvRun; EvRun; EvRun; EvAck 1 toy_crc 1; EvNotify; EvRun; EvTimer; EvRun; EvRun; EvRun;
   EvRun; EvAck 1 toy_crc 0; EvNext 0 0; EvNotify; EvRun].

Lemma send_ok_means_all_acked_witness : EvAck 1 toy_crc 0 ∈ toy_events.
Proof.
  destruct (run_events (SendStart toy_sender toy_data).1 (SendStart toy_sender toy_data).2 toy_events)
    as [[[log s] c]|] eqn:Hrun; [|exfalso; revert Hrun; vm_compute; discriminate].
  assert (Hret : returned c = Some SendOk).
  { change c with (log, s, c).2. revert Hrun. vm_compute. intros H. injection H as <- <- <-. done. }
  apply (send_ok_means_all_acked toy_sender toy_data toy_events log s c
    (run_events_reaches _ _ [] [] _ _ _ _ _ _ (reaches_refl _ _) Hrun) Hret 0%nat).
  vm_compute. lia.
Defined.

(** ** Retransmission *)

Lemma SendStart_budget s0 data i :
  (in_todo i (cPc (SendStart s0 data).2) + attempts_left (cPc (SendStart s0 data).2)
     <= Z.to_nat (cfgMaxAttempts (sCfg s0)))%nat.
Proof.
  unfold SendStart. cbv zeta. cbn [sCfg].
  destruct (Z.to_nat (cfgMaxAttempts (sCfg s0))) as [|m]; cbn [next_attempt fst snd].
  - simpl. lia.
  - cbn [cPc in_todo attempts_left].
    pose proof (times_nodup i (Z.of_nat <$> List.seq 0 (length (FragmentPayload data
      (cfgFragmentSize (sCfg s0)))))) as H.
    specialize (H (NoDup_fmap_2 _ _ (NoDup_seq _ _))). lia.
Qed.

(** Retransmission is bounded and selective: during a [Send] no fragment is
    queued more than [MaxAttempts] times, and from any moment at which a fragment
    is acknowledged and not in the batch being queued, it is never queued again. *)
Theorem retransmits_only_missing (s0 : Sender) (data : bytes) (evs : list event) (log : list Z)
    (s : Sender) (c : send_call)
    (Hrun : reaches (SendStart s0 data).1 (SendStart s0 data).2 evs log s c) (i : Z)
    (Hi : 0 <= i) :
  (times i log <= Z.to_nat (cfgMaxAttempts (sCfg s0)))%nat /\
  (forall w, sAcks s !! cSeq c = Some w -> wAcked w !! Z.to_nat i = Some true ->
     in_todo i (cPc c) = 0%nat ->
     forall evs' log' s' c', reaches s c evs' log' s' c' -> i ∉ log').
Proof.
  split.
  - pose proof (reaches_budget _ _ _ _ _ _ i Hrun). pose proof (SendStart_budget s0 data i). lia.
  - intros w Hl Ha Htd evs' log' s' c' Hr.
    pose proof (call_ok_reaches _ _ _ _ _ _ Hrun) as Hok.
    eapply quiet_reaches; [done| |done]. intros Hn.
    destruct (co_waiter _ _ _ Hok Hn) as (w' & Hl' & Hw & _). simplify_eq. eauto.
Qed.

Lemma retransmits_only_missing_witness :
  (times 1%Z [0; 1; 0]%Z <= 3)%nat.
Proof.
  destruct (run_events (SendStart toy_sender toy_data).1 (SendStart toy_sender toy_data).2 toy_events)
    as [[[log s] c]|] eqn:Hrun; [|exfalso; revert Hrun; vm_compute; discriminate].
  assert (Hlog : log = [0; 1; 0]).
  { change log with (log, s, c).1.1. revert Hrun. vm_compute. intros H. by injection H as <- <- <-. }
  rewrite <- Hlog.
  apply (retransmits_only_missing toy_sender toy_data toy_events log s c
    (run_events_reaches _ _ [] [] _ _ _ _ _ _ (reaches_refl _ _) Hrun) 1). lia.
Defined.

(** ** Termination and progress *)

Definition owned (evs : list event) : Z := len (filter (fun ev => own ev = true) evs).

Definition waiter_weight (s : Sender) (c : send_call) : Z :=
  match sAcks s !! cSeq c with
  | Some w => 3 * (wRemaining w + (if wNotify w then 1 else 0))
  | None => 0
  end.

(** What is left to do: every step of the call makes it smaller and no other
    event makes it larger.  An attempt takes at most [n + 6] steps apart from the
    wake-ups, and there are at most as many wake-ups as fragments acknowledged. *)
Definition work (s : Sender) (c : send_call) : Z :=
  let n := len (cFrags c) in
  match cPc c with
  | PQueue rm todo => Z.of_nat rm * (n + 6) + 5 + len todo + waiter_weight s c
  | PTop rm => Z.of_nat rm * (n + 6) + 4 + waiter_weight s c
  | PSelect rm => Z.of_nat rm * (n + 6) + 3 + waiter_weight s c
  | PAfter rm => Z.of_nat rm * (n + 6) + 2 + waiter_weight s c
  | PReturn _ => 0
  end.

Lemma waiter_weight_eq s s' c pc :
  sAcks s' = sAcks s -> waiter_weight s' (set_pc c pc) = waiter_weight s c.
Proof. unfold waiter_weight. by intros ->. Qed.

Lemma waiter_weight_nonneg evs s c :
  call_ok evs s c -> returned c = None -> 0 <= waiter_weight s c.
Proof.
  intros Hok Hn. destruct (co_waiter _ _ _ Hok Hn) as (w & Hl & [_ Hr] & _).
  unfold waiter_weight. rewrite Hl, Hr. pose proof (unacked_bound (wAcked w)).
  destruct (wNotify w); lia.
Qed.

Lemma work_env evs s c s' :
  call_ok evs s c ->
  (sAcks s' = sAcks s \/ exists q k j b, Mark (sAcks s) q k j = Ok (sAcks s', b)) ->
  work s' c <= work s c.
Proof.
  intros Hok Ht. assert (Hw : returned c = None -> waiter_weight s' c <= waiter_weight s c).
  { intros Hn. unfold waiter_weight. destruct Ht as [->|(q & k & j & b & Hm)]; [lia|].
    destruct (co_waiter _ _ _ Hok Hn) as (w & Hl & Hw & _).
    destruct (Mark_quiet _ _ _ _ _ _ _ _ 0%nat Hm Hl Hw) as (w' & -> & _ & Hle & _).
    rewrite Hl. lia. }
  unfold work, returned in *. destruct (cPc c); try lia; specialize (Hw eq_refl); lia.
Qed.

Lemma work_step evs s c ev s' c' :
  call_ok evs s c -> send_step s c ev = Some (s', c') ->
  work s' c' + (if own ev then 1 else 0) <= work s c.
Proof.
  intros Hok Hstep.
  pose proof (waiter_weight_nonneg evs s c Hok) as Hnn.
  apply send_step_view in Hstep as
    [Ho -> Ht _|r Ho -> _ Hn|rm j todo Ho Hc -> Ha _|pc Ho -> Ha _ Hm|rm w Ho Hc Hl -> Ha _
    |rm w Ho Hc Hl Hb -> Ha _]; rewrite Ho.
  - pose proof (work_env evs s c s' Hok Ht). lia.
  - specialize (Hnn Hn). unfold work, returned in *. cbn [cPc set_pc]. destruct (cPc c); try done; lia.
  - unfold work. rewrite Hc. cbn [cPc set_pc cFrags]. rewrite (waiter_weight_eq s) by done. simpl. lia.
  - unfold work. destruct Hm as (rm & [[Hc ->]|[[Hc ->]|[Hc ->]]]); rewrite Hc;
      cbn [cPc set_pc cFrags]; rewrite (waiter_weight_eq s) by done; simpl length; lia.
  - unfold work. rewrite Hc. cbn [cPc set_pc cFrags]. rewrite (waiter_weight_eq s) by done.
    assert (Hn : returned c = None) by (unfold returned; by rewrite Hc).
    destruct (co_waiter _ _ _ Hok Hn) as (w' & Hl' & _ & _ & Hlen & _). rewrite Hl in Hl'. simplify_eq.
    pose proof (pending_from_length 0 (wAcked w')). pose proof (unacked_bound (wAcked w')).
    unfold Pending. lia.
  - unfold work. rewrite Hc. cbn [cPc set_pc cFrags]. unfold waiter_weight. cbn [cSeq].
    rewrite Ha, tracker_insert_eq, Hl, Hb. cbn [clear_notify wRemaining wNotify]. lia.
Qed.

Lemma work_nonneg evs s c : call_ok evs s c -> 0 <= work s c.
Proof.
  intros Hok. pose proof (waiter_weight_nonneg evs s c Hok) as Hnn.
  unfold work, returned in *. destruct (cPc c); try specialize (Hnn eq_refl); lia.
Qed.

Lemma reaches_work s0 data evs log s c :
  reaches (SendStart s0 data).1 (SendStart s0 data).2 evs log s c ->
  work s c + owned evs <= work (SendStart s0 data).1 (SendStart s0 data).2.
Proof.
  induction 1 as [|evs log s c ev s' c' Hr IH Hs]; [unfold owned; simpl; lia|].
  apply (work_step evs) in Hs; [|by eapply call_ok_reaches].
  unfold owned in *. rewrite filter_app, len_app, filter_cons, filter_nil.
  destruct (own ev); simpl in *; lia.
Qed.

Lemma work_start s0 data :
  let n := len (FragmentPayload data (cfgFragmentSize (sCfg s0))) in
  work (SendStart s0 data).1 (SendStart s0 data).2
    <= Z.max 0 (cfgMaxAttempts (sCfg s0)) * (n + 6) + 3 * n.
Proof.
  intros n. unfold SendStart. cbv zeta. cbn [sCfg].
  destruct (Z.to_nat (cfgMaxAttempts (sCfg s0))) as [|m] eqn:Hm; cbn [next_attempt fst snd].
  - rewrite Z.max_l by lia. change (work _ _) with 0. lia.
  - unfold work. cbn [cPc cFrags]. rewrite length_fmap, length_seq.
    unfold waiter_weight. cbn [sAcks cSeq]. unfold Register. rewrite tracker_insert_eq.
    cbn [wRemaining wNotify]. fold n. nia.
Qed.

(** [Send] ends: it takes at most [MaxAttempts * (n + 6) + 3 * n] steps of
    its own for a message of [n] fragments, however many acks, writer ticks or
    other events are interleaved; and while it has not returned it can take one,
    except when the data queue is full and the transport open. *)
Theorem send_terminates (s0 : Sender) (data : bytes) (evs : list event) (log : list Z)
    (s : Sender) (c : send_call)
    (Hrun : reaches (SendStart s0 data).1 (SendStart s0 data).2 evs log s c) :
  let n := len (FragmentPayload data (cfgFragmentSize (sCfg s0))) in
  owned evs <= Z.max 0 (cfgMaxAttempts (sCfg s0)) * (n + 6) + 3 * n /\
  (returned c = None ->
   (exists ev, own ev = true /\ is_Some (send_step s c ev)) \/
   (qClosed (sQueue s) = false /\ 256 <= len (qData (sQueue s)))).
Proof.
  intros n. pose proof (call_ok_reaches _ _ _ _ _ _ Hrun) as Hok. split.
  - pose proof (reaches_work _ _ _ _ _ _ Hrun). pose proof (work_start s0 data) as Hw.
    cbv zeta in Hw. fold n in Hw. pose proof (work_nonneg _ _ _ Hok). lia.
  - intros Hn. destruct (co_waiter _ _ _ Hok Hn) as (w & Hl & _).
    pose proof (co_pc _ _ _ Hok) as Hpc.
    unfold returned in Hn. destruct (cPc c) as [rm [|j todo]|rm|rm|rm|r] eqn:Hc; try done.
    + left. exists EvRun. split; [done|]. unfold send_step. rewrite Hc. by eexists.
    + destruct Hpc as [Hr _]. apply Forall_cons in Hr as [Hj _].
      destruct (index_in_range (E:=Empty_set) (cFrags c) j) as (p & _ & Hp); [lia|].
      destruct (qClosed (sQueue s)) eqn:Hq; [|destruct (decide (256 <= len (qData (sQueue s))))];
        [left|by right|left]; exists EvRun; (split; [done|]); unfold send_step, fragment_frame, Enqueue;
        rewrite Hc, Hp, Hq; cbn [obind]; [by eexists|].
      rewrite (proj2 (Z.ltb_lt _ outboundDataQueueSize)) by (unfold outboundDataQueueSize; lia).
      by eexists.
    + left. exists EvRun. split; [done|]. unfold send_step. rewrite Hc, Hl. destruct (Done w); by eexists.
    + left. exists EvTimer. split; [done|]. unfold send_step. rewrite Hc, Hl. destruct (Done w); by eexists.
    + left. exists EvRun. split; [done|]. unfold send_step. rewrite Hc, Hl.
      destruct (Pending w); [by eexists|]. destruct rm; by eexists.
Qed.

Lemma send_terminates_witness :
  owned toy_events <= Z.max 0 3 * (2 + 6) + 3 * 2.
Proof.
  destruct (run_events (SendStart toy_sender toy_data).1 (SendStart toy_sender toy_data).2 toy_events)
    as [[[log s] c]|] eqn:Hrun; [|exfalso; revert Hrun; vm_compute; discriminate].
  apply (send_terminates toy_sender toy_data toy_events log s c
    (run_events_reaches _ _ [] [] _ _ _ _ _ _ (reaches_refl _ _) Hrun)).
Defined.

(** ** The queue pair *)

Lemma select_ready_in {A} coin (ready : list A) x : select_ready coin ready = Some x -> x ∈ ready.
Proof. apply list_elem_of_lookup_2. Qed.

Lemma select_ready_none {A} coin (ready : list A) : select_ready coin ready = None -> ready = [].
Proof.
  unfold select_ready. intros H. apply lookup_ge_None in H.
  destruct ready as [|x l]; [done|]. cbn [length] in H.
  pose proof (Nat.mod_upper_bound coin (S (length l))). lia.
Qed.

(** What a ready case says about the queue. *)
Lemma ready_cases q x :
  x ∈ case_closed q ++ case_ack q ++ case_data q ->
  (x = (None, q) /\ qClosed q = true) \/
  (exists f, x.1 = Some f /\ qAcks q = f :: qAcks x.2 /\ qData x.2 = qData q /\
     (x ∈ case_ack q)) \/
  (exists f, x.1 = Some f /\ qData q = f :: qData x.2 /\ qAcks x.2 = qAcks q).
Proof.
  unfold case_closed, case_ack, case_data. rewrite !elem_of_app. intros [H|[H|H]].
  - destruct (qClosed q); rewrite ?list_elem_of_singleton, ?elem_of_nil in H; [|done]. by left.
  - destruct (qAcks q) as [|f fs] eqn:Ha; rewrite ?list_elem_of_singleton, ?elem_of_nil in H; [done|].
    subst x. right; left. exists f. simpl. by rewrite list_elem_of_singleton.
  - destruct (qData q) as [|f fs] eqn:Ha; rewrite ?list_elem_of_singleton, ?elem_of_nil in H; [done|].
    subst x. right; right. exists f. by simpl.
Qed.

(** The writer serves acks first and loses nothing.  Whatever the runtime's
    choices: an ack queued when [Next] starts on an open transport is the frame
    returned; a frame returned is the oldest of its channel and the other channel
    is untouched, and it is a data frame only if no ack was queued at the start;
    [Next] stops only when the transport is closing and reports idle only when
    both channels are empty. *)
Theorem Next_acks_first (coin1 coin2 : nat) (q q2 : OutboundQueue) :
  let '(res, q') := Next coin1 coin2 q q2 in
  (forall a rest, qAcks q = a :: rest -> qClosed q = false ->
     res = NextFrame a /\ q' = MkQueue (qData q) rest false) /\
  (forall f, res = NextFrame f ->
     (qAcks q = f :: qAcks q' /\ qData q' = qData q) \/
     (qAcks q = [] /\ ((qAcks q2 = f :: qAcks q' /\ qData q' = qData q2) \/
                       (qData q2 = f :: qData q' /\ qAcks q' = qAcks q2)))) /\
  (res = NextStop -> qClosed q = true \/ qClosed q2 = true) /\
  (res = NextIdle -> qAcks q = [] /\ qAcks q2 = [] /\ qData q2 = [] /\ q' = q2).
Proof.
  unfold Next. destruct (select_ready coin1 (case_closed q ++ case_ack q)) as [[o q']|] eqn:H1.
  - pose proof (select_ready_in _ _ _ H1) as Hin.
    destruct (ready_cases q (o, q')) as [[He Hc]|[(f & Hf & Ha & Hd & _)|(f & Hf & Hd & Ha)]].
    { apply elem_of_app in Hin. rewrite !elem_of_app. tauto. }
    + simplify_eq. split_and!; [intros; congruence|done|by left|done].
    + simpl in *. subst o. split_and!; [|intros; simplify_eq; by left|done|done].
      intros a rest Hq Hc. rewrite Ha in Hq. simplify_eq. split; [done|].
      apply elem_of_app in Hin as [Hin|Hin].
      { unfold case_closed in Hin. rewrite Hc in Hin. by apply elem_of_nil in Hin. }
      unfold case_ack in Hin. rewrite Ha in Hin. apply list_elem_of_singleton in Hin.
      injection Hin as Hin. rewrite Hin, Hc. done.
    + simpl in *. subst o. exfalso. apply (f_equal length) in Hd. cbn [length] in Hd.
      apply elem_of_app in Hin as [Hin|Hin]; unfold case_closed, case_ack in Hin.
      * destruct (qClosed q); [apply list_elem_of_singleton in Hin; by simplify_eq|by apply elem_of_nil in Hin].
      * destruct (qAcks q); [by apply elem_of_nil in Hin|]. apply list_elem_of_singleton in Hin.
        simplify_eq/=. lia.
  - apply select_ready_none, app_nil in H1 as [H1c H1a].
    assert (Hq : qAcks q = []) by (unfold case_ack in H1a; by destruct (qAcks q)).
    destruct (select_ready coin2 _) as [[o q']|] eqn:H2.
    + apply select_ready_in, ready_cases in H2
        as [[He Hc]|[(f & Hf & Ha & Hd & _)|(f & Hf & Hd & Ha)]]; simpl in *; simplify_eq;
        (split_and!; [intros; congruence| |intros; simplify_eq; auto|done]); intros g Hg; simplify_eq; auto.
    + apply select_ready_none, app_nil in H2 as [_ H2]. apply app_nil in H2 as [H2a H2d].
      unfold case_ack, case_data in *. split_and!; [intros; congruence|done|done|].
      intros _. by destruct (qAcks q2), (qData q2).
Qed.

(** The ack budget is sane on 64-bit durations.  With a floor up to 30 s the
    wait of one attempt is always between the floor and 30 s, even when the
    estimate overflows; and for message sizes and intervals that do not, it is at
    least three times the time the writer needs to drain the message, unless the
    cap is hit. *)
Theorem ack_budget_bounds (fragments batchSize frameInterval floor : Z)
    (Hfloor : floor <= maxAckTimeout) :
  let t := PerAttemptAckTimeout fragments batchSize frameInterval floor in
  floor <= t <= maxAckTimeout /\
  (0 < fragments -> 0 < batchSize -> 0 <= frameInterval ->
   fragments + batchSize < 2 ^ 62 -> 3 * ((fragments + batchSize - 1) * frameInterval) < 2 ^ 62 ->
   t = maxAckTimeout \/
   3 * (Z.quot (fragments + batchSize - 1) batchSize * frameInterval) <= t).
Proof.
  intros t. unfold t, PerAttemptAckTimeout. clear t. cbv zeta. split.
  { set (e := i64 (i64 _ * 3)). clearbody e.
    destruct (Z.ltb_spec e floor), (Z.ltb_spec maxAckTimeout e); lia. }
  intros Hf Hb Hi H1 H2. rewrite (proj2 (Z.leb_gt batchSize 0)) by lia.
  rewrite (i64_small (fragments + batchSize)), (i64_small (_ - 1)) by lia.
  set (d := Z.quot (fragments + batchSize - 1) batchSize).
  assert (Hd : 0 <= d <= fragments + batchSize - 1).
  { unfold d. rewrite Z.quot_div_nonneg by lia. split; [apply Z.div_pos; lia|].
    apply Z.div_le_upper_bound; nia. }
  assert (Hp : 0 <= d * frameInterval <= (fragments + batchSize - 1) * frameInterval) by nia.
  rewrite (i64_small (d * frameInterval)), i64_small by lia.
  destruct (Z.ltb_spec (d * frameInterval * 3) floor); [right; lia|].
  destruct (Z.ltb_spec maxAckTimeout (d * frameInterval * 3)); [by left|right; lia].
Qed.

Lemma ack_budget_bounds_witness :
  let t := PerAttemptAckTimeout 100 64 33333333 3000000000 in
  3000000000 <= t <= maxAckTimeout.
Proof. apply (ack_budget_bounds 100 64 33333333 3000000000). vm_compute. discriminate. Defined.
