(* ===== verification/H264.v ===== *)
(** * H264: payloads carried in SEI units of H264 access units
    (internal/transport/seichannel/h264.go)

    Functions that append to [dst] take and return it; the emulation counter
    [*zeroCount] is threaded explicitly.  Loops over positions recurse on the
    fuel [length data], which bounds them because every round moves the position
    forward; running out of it is a separate result, shown unreachable. *)

From S2P Require Import Prelude Text.

(* go: transport/seichannel/h264.go 9-18 Err* *)
Inductive sei_error := ErrSEIPayloadTruncated | ErrSEIValueTruncated.

(* go: transport/seichannel/h264.go 20-26 videoSEIUUID *)
Definition videoSEIUUID : bytes :=
  [0x5d; 0xc0; 0x3b; 0xa8; 0x45; 0x0f; 0x4b; 0x55; 0x9a; 0x77; 0x1f; 0x91; 0x6c; 0x5b; 0x07; 0x39].

(* go: transport/seichannel/h264.go 244-250 mustDecodeHex *)
Definition mustDecodeHex (value : string) : outcome Empty_set bytes :=
  match hex_DecodeString value with Some data => Ok data | None => Panic end.

(** The package's constants, decoded when it is loaded. *)
Definition loaded (c : outcome Empty_set bytes) : bytes :=
  match c with Ok data => data | _ => [] end.

(* go: transport/seichannel/h264.go 27-28 baseSPS *)
Definition baseSPS : bytes :=
  loaded (mustDecodeHex "6742c00addec0440000003004000000300a3c489e0").
(* go: transport/seichannel/h264.go 29-30 basePPS *)
Definition basePPS : bytes := loaded (mustDecodeHex "68ce0fc8").
(* go: transport/seichannel/h264.go 31-32 baseIDR *)
Definition baseIDR : bytes := loaded (mustDecodeHex "6588843a2628000902e0").

Lemma constants_load :
  mustDecodeHex "6742c00addec0440000003004000000300a3c489e0" = Ok baseSPS /\
  mustDecodeHex "68ce0fc8" = Ok basePPS /\ mustDecodeHex "6588843a2628000902e0" = Ok baseIDR.
Proof. vm_compute. done. Qed.

(** ** Writing *)

(* go: transport/seichannel/h264.go 130-142 appendEscapedByte *)
Definition appendEscapedByte (dst : bytes) (value : Z) (zeroCount : Z) : bytes * Z :=
  let '(dst, zeroCount) :=
    if (2 <=? zeroCount) && (value <=? 0x03) then (dst ++ [0x03], 0) else (dst, zeroCount) in
  let dst := dst ++ [value] in
  if value =? 0 then (dst, zeroCount + 1) else (dst, 0).

(* go: transport/seichannel/h264.go 123-128 appendEscapedBytes *)
Fixpoint appendEscapedBytes (dst src : bytes) (zeroCount : Z) : bytes * Z :=
  match src with
  | [] => (dst, zeroCount)
  | value :: rest =>
      let '(dst, zeroCount) := appendEscapedByte dst value zeroCount in
      appendEscapedBytes dst rest zeroCount
  end.

(** [value / 255] rounds of the loop; [fuel] is that many. *)
(* go: transport/seichannel/h264.go 115-121 appendEscapedSEIValue *)
Fixpoint escaped_value_loop (fuel : nat) (dst : bytes) (value zeroCount : Z) : bytes * Z :=
  match fuel with
  | S fuel' =>
      if 0xff <=? value then
        let '(dst, zeroCount) := appendEscapedByte dst 0xff zeroCount in
        escaped_value_loop fuel' dst (value - 0xff) zeroCount
      else appendEscapedByte dst (u8 value) zeroCount
  | O => appendEscapedByte dst (u8 value) zeroCount
  end.

(* go: transport/seichannel/h264.go 115-121 appendEscapedSEIValue *)
Definition appendEscapedSEIValue (dst : bytes) (value zeroCount : Z) : bytes * Z :=
  escaped_value_loop (Z.to_nat (value / 0xff)) dst value zeroCount.

(* go: transport/seichannel/h264.go 106-113 appendEscapedSEIRBSP *)
Definition appendEscapedSEIRBSP (dst payload : bytes) : bytes :=
  let '(dst, zeroCount) := appendEscapedSEIValue dst 5 0 in
  let '(dst, zeroCount) :=
    appendEscapedSEIValue dst (len videoSEIUUID + len payload) zeroCount in
  let '(dst, zeroCount) := appendEscapedBytes dst videoSEIUUID zeroCount in
  let '(dst, zeroCount) := appendEscapedBytes dst payload zeroCount in
  (appendEscapedByte dst 0x80 zeroCount).1.

(* go: transport/seichannel/h264.go 210-213 appendStartCode *)
Definition appendStartCode (dst nalu : bytes) : bytes := (dst ++ [0; 0; 0; 1]) ++ nalu.

(** The capacity of [dst] decides only whether the array is reused. *)
(* go: transport/seichannel/h264.go 35-56 buildVideoAccessUnitInto *)
Definition buildVideoAccessUnit (payload : bytes) : bytes :=
  let out := appendStartCode [] baseSPS in
  let out := appendStartCode out basePPS in
  let out :=
    if 0 <? len payload then appendEscapedSEIRBSP (out ++ [0; 0; 0; 1; 6]) payload else out in
  appendStartCode out baseIDR.

(** ** The reference escaping, and its inverse *)

(* go: transport/seichannel/h264.go 218-229 escapeRBSP *)
Fixpoint escape_loop (zeroCount : Z) (rbsp : bytes) : bytes :=
  match rbsp with
  | [] => []
  | b :: rest =>
      if (2 <=? zeroCount) && (b <=? 0x03)
      then 0x03 :: b :: escape_loop (if b =? 0 then 1 else 0) rest
      else b :: escape_loop (if b =? 0 then zeroCount + 1 else 0) rest
  end.

(* go: transport/seichannel/h264.go 215-231 escapeRBSP *)
Definition escapeRBSP (rbsp : bytes) : bytes := escape_loop 0 rbsp.

(** [p2], [p1] are [rbsp[i-2]] and [rbsp[i-1]], where those exist. *)
(* go: transport/seichannel/h264.go 235-240 unescapeRBSP *)
Fixpoint unescape_loop (p2 p1 : option Z) (rbsp : bytes) : bytes :=
  match rbsp with
  | [] => []
  | b :: rest =>
      if (b =? 0x03) && bool_decide (p1 = Some 0) && bool_decide (p2 = Some 0)
      then unescape_loop p1 (Some b) rest
      else b :: unescape_loop p1 (Some b) rest
  end.

(* go: transport/seichannel/h264.go 233-242 unescapeRBSP *)
Definition unescapeRBSP (rbsp : bytes) : bytes := unescape_loop None None rbsp.

(** ** Reading *)

(* go: transport/seichannel/h264.go 195-208 consumeSEIValue *)
Fixpoint consume_loop (fuel : nat) (data : bytes) (pos value : Z) : outcome sei_error (Z * Z) :=
  if len data <=? pos then Err ErrSEIValueTruncated
  else
    let* b := index data pos in
    let pos := pos + 1 in
    let value := value + b in
    if negb (b =? 0xff) then Ok (value, pos)
    else match fuel with O => Panic | S fuel' => consume_loop fuel' data pos value end.

(* go: transport/seichannel/h264.go 195-208 consumeSEIValue *)
Definition consumeSEIValue (data : bytes) (pos : Z) : outcome sei_error (Z * Z) :=
  consume_loop (length data) data pos 0.

(* go: transport/seichannel/h264.go 144-185 extractTransportSEI *)
Fixpoint sei_loop (fuel : nat) (data : bytes) (pos : Z) (out : list bytes)
  : outcome sei_error (list bytes) :=
  if negb (pos <? len data) then Ok out
  else
    let* b := index data pos in
    if (b =? 0x80) && (pos =? len data - 1) then Ok out
    else
      let* t := consumeSEIValue data pos in
      let* z := consumeSEIValue data t.2 in
      let payloadType := t.1 in
      let payloadSize := z.1 in
      let pos := z.2 in
      if len data <? pos + payloadSize then Err ErrSEIPayloadTruncated
      else
        let* payload := slice data pos (pos + payloadSize) in
        let pos := pos + payloadSize in
        let found :=
          negb (negb (payloadType =? 5) || (len payload <? len videoSEIUUID)) &&
          bool_decide (take 16 payload = videoSEIUUID) in
        let out := if found then out ++ [drop 16 payload] else out in
        match fuel with O => Panic | S fuel' => sei_loop fuel' data pos out end.

(* go: transport/seichannel/h264.go 144-185 extractTransportSEI *)
Definition extractTransportSEI (rbsp : bytes) : outcome sei_error (list bytes) :=
  let data := unescapeRBSP rbsp in
  sei_loop (length data) data 0 [].

(** [rest] is [data[i:]]; [None] is the result [(-1, 0)]. *)
(* go: transport/seichannel/h264.go 91-104 findStartCode *)
Fixpoint findStartCode (i : Z) (rest : bytes) : option (Z * Z) :=
  match rest with
  | a :: (b :: c :: tl) as rest' =>
      if negb (a =? 0) || negb (b =? 0) then findStartCode (i + 1) rest'
      else if c =? 1 then Some (i, 3)
      else match tl with
           | d :: _ => if (c =? 0) && (d =? 1) then Some (i, 4) else findStartCode (i + 1) rest'
           | [] => findStartCode (i + 1) rest'
           end
  | _ => None
  end.

(** [None] is the result with [ok] false. *)
(* go: transport/seichannel/h264.go 78-89 nextAnnexBNAL *)
Definition nextAnnexBNAL (data : bytes) (pos : Z) : outcome sei_error (option (bytes * Z)) :=
  match findStartCode pos (drop (Z.to_nat pos) data) with
  | None => Ok None
  | Some (start, prefixLen) =>
      let nalStart := start + prefixLen in
      let next :=
        match findStartCode nalStart (drop (Z.to_nat nalStart) data) with
        | Some (next, _) => next
        | None => len data
        end in
      let* nal := slice data nalStart next in
      Ok (Some (nal, next))
  end.

(* go: transport/seichannel/h264.go 58-76 extractVideoPayloads *)
Fixpoint extract_loop (fuel : nat) (accessUnit : bytes) (pos : Z) (payloads : list bytes)
  : outcome sei_error (list bytes) :=
  let* r := nextAnnexBNAL accessUnit pos in
  match r with
  | None => Ok payloads
  | Some (nal, next) =>
      let* payloads :=
        if len nal <? 2 then Ok payloads
        else
          let* hdr := index nal 0 in
          if negb (Z.land hdr 0x1f =? 6) then Ok payloads
          else
            let* body := slice_from nal 1 in
            match extractTransportSEI body with
            | Ok found => Ok (payloads ++ found)
            | Err _ => Ok payloads
            | Panic => Panic
            end in
      match fuel with O => Panic | S fuel' => extract_loop fuel' accessUnit next payloads end
  end.

(* go: transport/seichannel/h264.go 58-76 extractVideoPayloads *)
Definition extractVideoPayloads (accessUnit : bytes) : outcome sei_error (list bytes) :=
  extract_loop (length accessUnit) accessUnit 0 [].

(** ** What is proved: round trip, emulation prevention and totality of the SEI
    carrier *)

(** ** Appending is escaping *)

(** The counter after escaping [l]. *)
Fixpoint escape_count (zeroCount : Z) (l : bytes) : Z :=
  match l with
  | [] => zeroCount
  | b :: rest =>
      escape_count (if (2 <=? zeroCount) && (b <=? 3) then (if b =? 0 then 1 else 0)
                    else (if b =? 0 then zeroCount + 1 else 0)) rest
  end.

Lemma escape_loop_app zc l k :
  escape_loop zc (l ++ k) = escape_loop zc l ++ escape_loop (escape_count zc l) k.
Proof.
  revert zc. induction l as [|b l IH]; intros zc; [done|].
  cbn [app escape_loop escape_count]. destruct ((2 <=? zc) && (b <=? 3)); by rewrite IH.
Qed.

Lemma appendEscapedByte_spec dst b zc :
  appendEscapedByte dst b zc = (dst ++ escape_loop zc [b], escape_count zc [b]).
Proof.
  unfold appendEscapedByte. cbn [escape_loop escape_count].
  destruct ((2 <=? zc) && (b <=? 3)), (b =? 0); rewrite <- ?app_assoc; done.
Qed.

Lemma appendEscapedBytes_spec dst src zc :
  appendEscapedBytes dst src zc = (dst ++ escape_loop zc src, escape_count zc src).
Proof.
  revert dst zc. induction src as [|b l IH]; intros dst zc.
  - by rewrite app_nil_r.
  - cbn [appendEscapedBytes]. rewrite appendEscapedByte_spec, IH, <- app_assoc.
    change (b :: l) with ([b] ++ l). by rewrite escape_loop_app.
Qed.

(** The SEI length coding of [value]. *)
Definition sei_value (value : Z) : bytes :=
  replicate (Z.to_nat (value / 255)) 255 ++ [value mod 255].

Lemma appendEscapedSEIValue_spec dst value zc :
  0 <= value ->
  appendEscapedSEIValue dst value zc =
    (dst ++ escape_loop zc (sei_value value), escape_count zc (sei_value value)).
Proof.
  intros Hv. unfold appendEscapedSEIValue, sei_value.
  set (q := Z.to_nat (value / 255)).
  assert (Hq : value = 255 * Z.of_nat q + value mod 255).
  { unfold q. rewrite Z2Nat.id by (apply Z.div_pos; lia). apply Z.div_mod. lia. }
  pose proof (Z.mod_pos_bound value 255 ltac:(lia)) as Hm.
  revert dst zc Hq. generalize (value mod 255) Hm. clearbody q. intros m Hm'.
  clear Hm. revert value Hv. induction q as [|q IH]; intros value Hv dst zc Hq; cbn [escaped_value_loop].
  - assert (value = m) as -> by lia. rewrite appendEscapedByte_spec.
    unfold u8. by rewrite Z.mod_small by lia.
  - rewrite (proj2 (Z.leb_le 255 value)) by lia.
    rewrite appendEscapedByte_spec, (IH (value - 255)) by lia. cbn [replicate app].
    rewrite <- app_assoc. change (255 :: replicate q 255 ++ [m]) with ([255] ++ (replicate q 255 ++ [m])).
    by rewrite (escape_loop_app zc [255]).
Qed.

Definition sei_rbsp (payload : bytes) : bytes :=
  sei_value 5 ++ sei_value (16 + len payload) ++ videoSEIUUID ++ payload ++ [0x80].

Lemma appendEscapedSEIRBSP_spec dst payload :
  appendEscapedSEIRBSP dst payload = dst ++ escapeRBSP (sei_rbsp payload).
Proof.
  unfold appendEscapedSEIRBSP, escapeRBSP, sei_rbsp. change (len videoSEIUUID) with 16.
  rewrite appendEscapedSEIValue_spec by lia. rewrite appendEscapedSEIValue_spec by lia.
  rewrite !appendEscapedBytes_spec, appendEscapedByte_spec. cbn [fst].
  rewrite !escape_loop_app, <- !app_assoc. done.
Qed.

(** ** Unescaping inverts escaping *)

(** What the counter says about the two bytes written last. *)
Definition counts (zc : Z) (p2 p1 : option Z) : Prop :=
  (zc = 0 /\ p1 <> Some 0) \/ (zc = 1 /\ p1 = Some 0 /\ p2 <> Some 0) \/
  (zc = 2 /\ p1 = Some 0 /\ p2 = Some 0).

Lemma unescape_escape_loop zc p2 p1 l :
  counts zc p2 p1 -> byte_list l -> unescape_loop p2 p1 (escape_loop zc l) = l.
Proof.
  intros Hc Hb. revert zc p2 p1 Hc. induction Hb as [|b l Hb _ IH]; intros zc p2 p1 Hc; [done|].
  cbn [escape_loop]. destruct ((2 <=? zc) && (b <=? 3)) eqn:He; bool_to_Prop.
  - destruct Hc as [[? ?]|[(? & ? & ?)|(-> & -> & ->)]]; [lia..|].
    cbn [unescape_loop]. rewrite (bool_decide_eq_false_2 (Some 3 = Some 0)) by congruence.
    rewrite andb_false_r. cbn. f_equal. apply IH.
    destruct (Z.eqb_spec b 0) as [->|]; [right; left; done|]. left. split; [done|congruence].
  - cbn [unescape_loop].
    assert (Hno : (b =? 3) && bool_decide (p1 = Some 0) && bool_decide (p2 = Some 0) = false).
    { rewrite !andb_false_iff, !bool_decide_eq_false, Z.eqb_neq. unfold counts in Hc. naive_solver lia. }
    rewrite Hno. f_equal. apply IH. unfold counts in *.
    destruct (Z.eqb_spec b 0) as [->|]; [|left; split; [done|congruence]].
    destruct Hc as [[-> ?]|[(-> & -> & ?)|(-> & _)]]; [auto..|]. destruct He; lia.
Qed.

Lemma unescape_escape l : byte_list l -> unescapeRBSP (escapeRBSP l) = l.
Proof. apply unescape_escape_loop. left. done. Qed.

(** ** No start code inside an escaped unit *)

(** No position holds two zero bytes and a byte below 3. *)
Fixpoint no_emulation (p2 p1 : option Z) (l : bytes) : Prop :=
  match l with
  | [] => True
  | b :: rest => ~ (p2 = Some 0 /\ p1 = Some 0 /\ b <= 2) /\ no_emulation p1 (Some b) rest
  end.

Lemma escape_no_emulation zc p2 p1 l :
  counts zc p2 p1 -> byte_list l -> no_emulation p2 p1 (escape_loop zc l).
Proof.
  intros Hc Hb. revert zc p2 p1 Hc. induction Hb as [|b l Hb _ IH]; intros zc p2 p1 Hc; [done|].
  cbn [escape_loop]. destruct ((2 <=? zc) && (b <=? 3)) eqn:He; bool_to_Prop.
  - cbn [no_emulation]. split_and!; [lia|naive_solver|]. apply IH.
    destruct (Z.eqb_spec b 0) as [->|]; [right; left; split_and!; [done..|congruence]|].
    left. split; [done|congruence].
  - cbn [no_emulation]. unfold counts in *. split; [naive_solver lia|]. apply IH. unfold counts.
    destruct (Z.eqb_spec b 0) as [->|]; [|left; split; [done|congruence]].
    destruct Hc as [[-> ?]|[(-> & -> & ?)|(-> & _)]]; [auto..|]. destruct He; lia.
Qed.

(** A unit the scanner cannot split: no emulation, and it ends in a non-zero
    byte. *)
Definition unit_ok (nal : bytes) : Prop :=
  no_emulation None None nal /\ exists l b, nal = l ++ [b] /\ b <> 0.

Lemma find_cons i a b c tl :
  findStartCode i (a :: b :: c :: tl) =
    if negb (a =? 0) || negb (b =? 0) then findStartCode (i + 1) (b :: c :: tl)
    else if c =? 1 then Some (i, 3)
    else match tl with
         | d :: _ => if (c =? 0) && (d =? 1) then Some (i, 4) else findStartCode (i + 1) (b :: c :: tl)
         | [] => findStartCode (i + 1) (b :: c :: tl)
         end.
Proof. reflexivity. Qed.

Lemma find_in_unit p2 p1 nal rest i :
  no_emulation p2 p1 nal -> (exists l b, nal = l ++ [b] /\ b <> 0) \/ nal = [] ->
  findStartCode i (nal ++ 0 :: 0 :: 0 :: 1 :: rest) = Some (i + len nal, 4).
Proof.
  revert p2 p1 i. induction nal as [|a nal IH]; intros p2 p1 i Hne Hend.
  - simpl. by rewrite Z.add_0_r.
  - assert (Hend' : (exists l b, nal = l ++ [b] /\ b <> 0) \/ nal = []).
    { destruct Hend as [(l & b & He & Hb)|]; [|done]. destruct l as [|a' l]; simplify_eq/=; [by right|].
      left. eauto. }
    assert (Hrec : findStartCode (i + 1) (nal ++ 0 :: 0 :: 0 :: 1 :: rest) = Some (i + len (a :: nal), 4)).
    { rewrite (IH p1 (Some a)); [|apply Hne|done]. f_equal. f_equal. cbn [length]. lia. }
    destruct nal as [|b [|c nal]].
    + assert (a <> 0) as Ha.
      { destruct Hend as [(l & b & He & Hb)|?]; [|done]. destruct l as [|? [|]]; by simplify_eq/=. }
      cbn [app]; rewrite find_cons. rewrite (proj2 (Z.eqb_neq a 0) Ha). exact Hrec.
    + assert (b <> 0) as Hb.
      { destruct Hend as [(l & b' & He & Hb)|?]; [|done]. destruct l as [|? [|? []]]; by simplify_eq/=. }
      cbn [app]; rewrite find_cons. rewrite (proj2 (Z.eqb_neq b 0) Hb), orb_true_r. exact Hrec.
    + destruct Hne as (_ & _ & Hc & _). cbn [app]; rewrite find_cons.
      destruct (Z.eqb_spec a 0) as [->|]; [|exact Hrec].
      destruct (Z.eqb_spec b 0) as [->|]; [|exact Hrec]. cbn [negb orb].
      assert (2 < c) by (destruct (decide (c <= 2)); [exfalso; by apply Hc|lia]).
      rewrite (proj2 (Z.eqb_neq c 1)), (proj2 (Z.eqb_neq c 0)) by lia. cbn [andb].
      destruct nal; exact Hrec.
Qed.

Lemma find_none p2 p1 nal i : no_emulation p2 p1 nal -> findStartCode i nal = None.
Proof.
  revert p2 p1 i. induction nal as [|a [|b [|c nal]] IH]; intros p2 p1 i H; [done..|].
  rewrite find_cons. rewrite (IH p1 (Some a)) by apply H.
  destruct H as (_ & _ & Hc & _).
  destruct (Z.eqb_spec a 0) as [->|]; [|done]. destruct (Z.eqb_spec b 0) as [->|]; [|done].
  assert (2 < c) by (destruct (decide (c <= 2)); [exfalso; by apply Hc|lia]).
  rewrite (proj2 (Z.eqb_neq c 1)), (proj2 (Z.eqb_neq c 0)) by lia. by destruct nal.
Qed.

(** ** Scanning a sequence of units *)

Definition units (nals : list bytes) : bytes := concat ((fun n => [0; 0; 0; 1] ++ n) <$> nals).

(** What one unit adds to the payloads found. *)
Definition yields (nal : bytes) (found : list bytes) : Prop :=
  exists h b body, nal = h :: b :: body /\
    ((Z.land h 0x1f <> 6 /\ found = []) \/
     (Z.land h 0x1f = 6 /\ extractTransportSEI (b :: body) = Ok found)).

Lemma next_unit pre nal nals :
  unit_ok nal ->
  nextAnnexBNAL (pre ++ units (nal :: nals)) (len pre) =
    Ok (Some (nal, len (pre ++ [0; 0; 0; 1] ++ nal))).
Proof.
  intros [Hne Hend]. unfold nextAnnexBNAL, units. rewrite fmap_cons. cbn [concat]. fold (units nals).
  rewrite Nat2Z.id, drop_app_length, <- !app_assoc. cbn [app].
  rewrite find_cons. cbn [Z.eqb Pos.eqb negb orb andb].
  replace (Z.to_nat (len pre + 4)) with (length pre + 4)%nat by lia.
  rewrite drop_app_add. cbn [drop]. rewrite drop_0.
  assert (Hnext : match findStartCode (len pre + 4) (nal ++ units nals) with
                  | Some (next, _) => next
                  | None => len (pre ++ 0 :: 0 :: 0 :: 1 :: nal ++ units nals) end
                  = len (pre ++ 0 :: 0 :: 0 :: 1 :: nal)).
  { destruct nals as [|nal' nals].
    - unfold units. cbn [fmap list_fmap concat]. rewrite app_nil_r. by rewrite (find_none None None).
    - unfold units. rewrite fmap_cons. cbn [concat app].
      rewrite (find_in_unit None None) by auto. rewrite len_app. cbn [length]. lia. }
  rewrite Hnext. rewrite slice_ok by (rewrite ?length_app; cbn [length]; rewrite ?length_app; lia).
  cbn [obind]. do 3 f_equal.
  replace (Z.to_nat (len pre + 4)) with (length pre + 4)%nat by lia.
  rewrite drop_app_add. cbn [drop]. rewrite drop_0. apply take_app_exact.
  rewrite length_app. cbn [length]. lia.
Qed.

Lemma extract_units fuel pre nals founds acc :
  Forall unit_ok nals -> Forall2 yields nals founds -> (length nals <= fuel)%nat ->
  extract_loop fuel (pre ++ units nals) (len pre) acc = Ok (acc ++ concat founds).
Proof.
  intros Hok Hy. revert fuel pre acc Hok.
  induction Hy as [|nal found nals founds Hf Hy IH]; intros fuel pre acc Hok Hfuel.
  - unfold units. cbn [fmap list_fmap concat]. rewrite !app_nil_r.
    destruct fuel; cbn [extract_loop]; unfold nextAnnexBNAL;
      rewrite Nat2Z.id, drop_all; done.
  - apply Forall_cons in Hok as [Hn Hok]. destruct fuel as [|fuel]; [simpl in Hfuel; lia|].
    cbn [extract_loop]. rewrite next_unit by done. cbn [obind].
    destruct Hf as (h & b & body & -> & Hcase).
    rewrite (proj2 (Z.ltb_ge _ 2)) by (cbn [length]; lia). cbn [index obind].
    change (index (h :: b :: body) 0) with (Ok (E:=sei_error) h). cbn [obind].
    rewrite slice_from_ok by (cbn [length]; lia). cbn [obind]. change (drop (Z.to_nat 1) (h :: b :: body))
      with (b :: body).
    assert (Hres : (if negb (Z.land h 31 =? 6) then Ok acc
                    else match extractTransportSEI (b :: body) with
                         | Ok found0 => Ok (acc ++ found0) | Err _ => Ok acc | Panic => Panic end)
                   = Ok (E:=sei_error) (acc ++ found)).
    { destruct Hcase as [[Hh ->]|[-> ->]]; [|done].
      by rewrite (proj2 (Z.eqb_neq _ 6) Hh), app_nil_r. }
    rewrite Hres. cbn [obind concat].
    replace (pre ++ units ((h :: b :: body) :: nals))
      with ((pre ++ [0; 0; 0; 1] ++ h :: b :: body) ++ units nals).
    + rewrite IH by (done || (simpl in Hfuel; lia)). by rewrite <- app_assoc.
    + unfold units. rewrite fmap_cons. cbn [concat]. by rewrite <- !app_assoc.
Qed.

(** ** Reading one SEI message back *)

Lemma consume_loop_spec fuel pre v post acc :
  0 <= v -> (Z.to_nat (v / 255) <= fuel)%nat ->
  consume_loop fuel (pre ++ sei_value v ++ post) (len pre) acc =
    Ok (acc + v, len pre + len (sei_value v)).
Proof.
  unfold sei_value. intros Hv Hf.
  assert (Hq : v = 255 * Z.of_nat (Z.to_nat (v / 255)) + v mod 255).
  { rewrite Z2Nat.id by (apply Z.div_pos; lia). apply Z.div_mod. lia. }
  pose proof (Z.mod_pos_bound v 255 ltac:(lia)) as Hm.
  revert Hf Hq Hm. generalize (Z.to_nat (v / 255)) as q. generalize (v mod 255) as m. intros m q.
  clear Hv. revert fuel pre acc v. induction q as [|q IH]; intros fuel pre acc v Hf Hq Hm.
  - assert (v = m) as -> by lia. cbn [replicate app length].
    assert (Hi : index (E:=sei_error) (pre ++ m :: post) (len pre) = Ok m).
    { apply index_lookup; [lia|]. rewrite Nat2Z.id. by apply list_lookup_middle. }
    destruct fuel; cbn [consume_loop];
      rewrite (proj2 (Z.leb_gt _ (len pre))) by (rewrite len_app; cbn [length]; lia);
      rewrite Hi; cbn [obind]; rewrite (proj2 (Z.eqb_neq m 255)) by lia; done.
  - destruct fuel as [|fuel]; [lia|].
    cbn [consume_loop replicate app].
    rewrite (proj2 (Z.leb_gt _ (len pre))) by (rewrite len_app; cbn [length]; lia).
    rewrite (index_lookup _ _ 255) by (lia || (rewrite Nat2Z.id; by apply list_lookup_middle)).
    cbn [obind Z.eqb Pos.eqb negb].
    replace (pre ++ 255 :: (replicate q 255 ++ [m]) ++ post)
      with ((pre ++ [255]) ++ (replicate q 255 ++ [m]) ++ post) by (by rewrite <- app_assoc).
    replace (len pre + 1) with (len (pre ++ [255])) by (rewrite len_app; done).
    rewrite (IH fuel (pre ++ [255]) (acc + 255) (v - 255)) by lia.
    f_equal. f_equal; [lia|]. rewrite len_app. cbn [length]. lia.
Qed.

Lemma consumeSEIValue_spec pre v post :
  0 <= v ->
  consumeSEIValue (pre ++ sei_value v ++ post) (len pre) = Ok (v, len pre + len (sei_value v)).
Proof.
  intros Hv. unfold consumeSEIValue. rewrite consume_loop_spec; [done..|].
  rewrite !length_app. unfold sei_value. rewrite length_app, length_replicate. lia.
Qed.

Lemma sei_value_bytes v : byte_list (sei_value v).
Proof.
  unfold sei_value. apply Forall_app. split; [apply Forall_replicate; lia|].
  apply Forall_singleton. pose proof (Z.mod_pos_bound v 255). lia.
Qed.

Lemma sei_rbsp_bytes payload : byte_list payload -> byte_list (sei_rbsp payload).
Proof.
  intros Hb. unfold sei_rbsp. rewrite !Forall_app. split_and!; try apply sei_value_bytes; try done.
  - unfold videoSEIUUID. repeat (apply Forall_cons; split; [lia|]). by apply Forall_nil.
  - apply Forall_singleton. lia.
Qed.

Lemma extract_sei_rbsp payload :
  byte_list payload -> extractTransportSEI (escapeRBSP (sei_rbsp payload)) = Ok [payload].
Proof.
  intros Hb. unfold extractTransportSEI. rewrite unescape_escape.
  2:{ by apply sei_rbsp_bytes. }
  set (data := sei_rbsp payload).
  set (v := 16 + len payload).
  assert (Hd : data = [5] ++ sei_value v ++ (videoSEIUUID ++ payload) ++ [0x80])
    by (unfold data, sei_rbsp; rewrite <- !app_assoc; reflexivity).
  assert (Hlen : len data = 1 + len (sei_value v) + v + 1)
    by (rewrite Hd, !len_app; change (len videoSEIUUID) with 16; cbn [length]; unfold v; lia).
  pose proof (consumeSEIValue_spec [] 5 (sei_value v ++ (videoSEIUUID ++ payload) ++ [0x80])) as Hc1.
  pose proof (consumeSEIValue_spec [5] v ((videoSEIUUID ++ payload) ++ [0x80])) as Hc2.
  change ([] ++ sei_value 5 ++ ?x) with ([5] ++ x) in Hc1. rewrite <- Hd in Hc1, Hc2.
  destruct (length data) as [|[|fuel]] eqn:Hfuel; [lia..|]. cbn [sei_loop].
  rewrite (proj2 (Z.ltb_lt 0 _)) by lia. cbn [negb].
  rewrite (index_lookup data 0 5) by (lia || (by rewrite Hd)). cbn [obind Z.eqb Pos.eqb andb].
  change (len []) with 0 in Hc1. rewrite Hc1 by lia. cbn [obind fst snd].
  change (0 + len (sei_value 5)) with (len [5]). rewrite Hc2 by lia. cbn [obind fst snd].
  change (len [5]) with 1. rewrite (proj2 (Z.ltb_ge _ _)) by lia.
  rewrite slice_ok by lia. cbn [obind].
  assert (Hs : take (Z.to_nat (1 + len (sei_value v) + v - (1 + len (sei_value v))))
                 (drop (Z.to_nat (1 + len (sei_value v))) data) = videoSEIUUID ++ payload).
  { rewrite Hd, app_assoc, drop_app_exact by (rewrite length_app; cbn [length]; lia).
    apply take_app_exact. rewrite length_app. change (length videoSEIUUID) with 16%nat. lia. }
  rewrite Hs. change (5 =? 5) with true. cbn [negb orb].
  rewrite (proj2 (Z.ltb_ge _ (len videoSEIUUID))) by (rewrite len_app; lia).
  rewrite (take_app_exact 16), (drop_app_exact 16) by done.
  rewrite bool_decide_eq_true_2 by done. cbn [negb andb app].
  rewrite (proj2 (Z.ltb_lt _ (len data))) by lia. cbn [negb].
  rewrite (index_lookup data _ 0x80).
  - cbn [obind]. rewrite (proj2 (Z.eqb_eq _ (len data - 1))) by lia. done.
  - lia.
  - rewrite Hd, !app_assoc. rewrite lookup_app_r; rewrite !length_app; change (length videoSEIUUID) with 16%nat;
      cbn [length]; [|lia].
    replace (_ - _)%nat with 0%nat by lia. done.
Qed.

(** ** The whole access unit *)

Ltac check_unit l b :=
  split; [vm_compute; repeat (split; [intros (? & ? & ?); (discriminate || congruence)|]); exact I
         |exists l, b; split; [reflexivity|discriminate]].

Lemma baseSPS_unit : unit_ok baseSPS.
Proof. check_unit (take 20 baseSPS) 224. Qed.
Lemma basePPS_unit : unit_ok basePPS.
Proof. check_unit (take 3 basePPS) 200. Qed.
Lemma baseIDR_unit : unit_ok baseIDR.
Proof. check_unit (take 9 baseIDR) 224. Qed.

Definition sei_unit (payload : bytes) : bytes := 6 :: escapeRBSP (sei_rbsp payload).

Lemma sei_unit_ok payload : byte_list payload -> unit_ok (sei_unit payload).
Proof.
  intros Hb. split.
  - unfold sei_unit. cbn [no_emulation]. split; [naive_solver|]. apply escape_no_emulation.
    + left. done.
    + by apply sei_rbsp_bytes.
  - unfold sei_unit, escapeRBSP, sei_rbsp. rewrite !app_assoc, escape_loop_app.
    cbn [escape_loop]. rewrite (proj2 (Z.leb_gt 128 3)), andb_false_r by lia.
    eexists (6 :: _), 128. split; [reflexivity|lia].
Qed.

Lemma build_units payload :
  payload <> [] ->
  buildVideoAccessUnit payload = units [baseSPS; basePPS; sei_unit payload; baseIDR].
Proof.
  intros Hne. unfold buildVideoAccessUnit.
  rewrite (proj2 (Z.ltb_lt 0 (len payload))) by (destruct payload; [done|cbn [length]; lia]).
  rewrite appendEscapedSEIRBSP_spec. unfold appendStartCode, units, sei_unit.
  cbn [fmap list_fmap concat]. rewrite <- !app_assoc, app_nil_r. reflexivity.
Qed.

Lemma yields_other nal h b body :
  nal = h :: b :: body -> Z.land h 31 <> 6 -> yields nal [].
Proof. intros -> Hh. exists h, b, body. auto. Qed.

Lemma yields_sei payload : byte_list payload -> yields (sei_unit payload) [payload].
Proof.
  intros Hb. pose proof (extract_sei_rbsp payload Hb) as He. unfold sei_unit.
  destruct (escapeRBSP (sei_rbsp payload)) as [|b body].
  - vm_compute in He. discriminate He.
  - exists 6, b, body. auto.
Qed.

(** What goes into an access unit comes out of it: the receiver's scan of
    the unit built around a non-empty payload finds exactly that payload, and
    finds nothing in the idle unit; the payload bytes never form a start code,
    and unescaping inverts escaping for every byte string. *)
Theorem access_unit_roundtrip (payload : bytes) (Hb : byte_list payload) :
  extractVideoPayloads (buildVideoAccessUnit payload)
    = Ok (if bool_decide (payload = []) then [] else [payload]) /\
  (forall i, findStartCode i (6 :: escapeRBSP (sei_rbsp payload)) = None) /\
  unescapeRBSP (escapeRBSP payload) = payload.
Proof.
  split; [|split; [|by apply unescape_escape]].
  - case_bool_decide as Hp; [subst payload; vm_compute; reflexivity|].
    rewrite build_units by done. unfold extractVideoPayloads.
    apply (extract_units _ [] _ [[]; []; [payload]; []] []).
    + repeat (apply Forall_cons; split); auto using baseSPS_unit, basePPS_unit, baseIDR_unit, sei_unit_ok.
    + repeat apply Forall2_cons_2; [| |by apply yields_sei| |by constructor];
        (eapply yields_other; [vm_compute; reflexivity|vm_compute; discriminate]).
    + unfold units. cbn [fmap list_fmap concat]. rewrite !length_app. cbn [length]. lia.
  - intros i. apply (find_none None None). by apply sei_unit_ok.
Qed.

Lemma access_unit_roundtrip_witness :
  extractVideoPayloads (buildVideoAccessUnit [0; 0; 1; 0; 0; 0; 3]) = Ok [[0; 0; 1; 0; 0; 0; 3]].
Proof.
  apply (access_unit_roundtrip [0; 0; 1; 0; 0; 0; 3]). repeat constructor; lia.
Defined.

(** ** Totality on arbitrary input *)

Lemma unescape_bytes p2 p1 l : byte_list l -> byte_list (unescape_loop p2 p1 l).
Proof.
  intros H. revert p2 p1. induction H as [|b l Hb _ IH]; intros p2 p1; [done|].
  cbn [unescape_loop]. case_if; [apply IH|]. constructor; [done|apply IH].
Qed.

Lemma consume_total fuel data pos value :
  byte_list data -> 0 <= pos -> 0 <= value -> len data - pos <= Z.of_nat fuel ->
  match consume_loop fuel data pos value with
  | Ok (v, pos') => 0 <= v /\ pos < pos' <= len data
  | Err _ => True
  | Panic => False
  end.
Proof.
  intros Hb. revert pos value. induction fuel as [|fuel IH]; intros pos value Hp Hv Hf;
    cbn [consume_loop]; case_if; [done|lia|done|].
  destruct (index_in_range (E:=sei_error) data pos) as (b & Hl & ->); [lia|]. cbn [obind].
  apply (Forall_lookup_1 _ _ _ _ Hb) in Hl.
  case_if; [lia|]. specialize (IH (pos + 1) (value + b)).
  destruct (consume_loop fuel data (pos + 1) (value + b)) as [[v pos']|e|]; [|done|].
  - destruct IH; lia.
  - apply IH; lia.
Qed.

Lemma sei_loop_total fuel data pos out :
  byte_list data -> 0 <= pos -> len data - pos <= Z.of_nat fuel ->
  Forall (fun p => byte_list p /\ len p <= len data) out ->
  match sei_loop fuel data pos out with
  | Ok found => Forall (fun p => byte_list p /\ len p <= len data) found
  | Err _ => True
  | Panic => False
  end.
Proof.
  intros Hb. revert pos out. induction fuel as [|fuel IH]; intros pos out Hp Hf Ho;
    cbn [sei_loop]; (case_if; [done|]); [lia|].
  destruct (index_in_range (E:=sei_error) data pos) as (b & _ & ->); [lia|]. cbn [obind].
  case_if; [done|].
  pose proof (consume_total (length data) data pos 0 Hb) as H1. unfold consumeSEIValue.
  destruct (consume_loop (length data) data pos 0) as [[t p1]|e|]; [|done|apply H1; lia].
  cbn [obind fst snd]. destruct H1 as [Ht Hp1]; [lia..|].
  pose proof (consume_total (length data) data p1 0 Hb) as H2.
  destruct (consume_loop (length data) data p1 0) as [[z p2]|e|]; [|done|apply H2; lia].
  cbn [obind fst snd]. destruct H2 as [Hz Hp2]; [lia..|].
  case_if; [done|]. rewrite slice_ok by lia. cbn [obind]. apply IH; [lia..|].
  case_if; [|done]. apply Forall_app. split; [done|]. apply Forall_singleton. split.
  - by apply Forall_drop, Forall_take, Forall_drop.
  - rewrite length_drop, length_take, length_drop. lia.
Qed.

Lemma unescape_length p2 p1 l : (length (unescape_loop p2 p1 l) <= length l)%nat.
Proof.
  revert p2 p1. induction l as [|b l IH]; intros p2 p1; [done|]. cbn [unescape_loop].
  specialize (IH p1 (Some b)). case_if; cbn [length]; lia.
Qed.

Lemma find_bounds i rest s p :
  findStartCode i rest = Some (s, p) -> i <= s /\ 3 <= p /\ s + p <= i + len rest.
Proof.
  revert i. induction rest as [|a [|b [|c tl]] IH]; intros i H; [done..|].
  rewrite find_cons in H.
  assert (Hrec : findStartCode (i + 1) (b :: c :: tl) = Some (s, p) ->
                 i <= s /\ 3 <= p /\ s + p <= i + len (a :: b :: c :: tl)).
  { intros Hr. apply IH in Hr as (? & ? & Hr). cbn [length] in *. lia. }
  case_if; [auto|]. case_if; [simplify_eq; cbn [length]; lia|].
  destruct tl as [|d tl]; [auto|]. case_if; [|auto]. simplify_eq. cbn [length]. lia.
Qed.

Lemma extract_loop_total fuel data pos acc :
  byte_list data -> 0 <= pos <= len data -> len data - pos <= Z.of_nat fuel ->
  Forall (fun p => byte_list p /\ len p <= len data) acc ->
  exists found, extract_loop fuel data pos acc = Ok found /\
    Forall (fun p => byte_list p /\ len p <= len data) found.
Proof.
  intros Hb. revert pos acc. induction fuel as [|fuel IH]; intros pos acc Hp Hf Ha;
    cbn [extract_loop]; unfold nextAnnexBNAL;
    (destruct (findStartCode pos _) as [[s p]|] eqn:Hs; [|by eexists]);
    apply find_bounds in Hs as (Hs1 & Hs2 & Hs3); rewrite length_drop in Hs3; [lia|].
  set (next := match findStartCode (s + p) _ with Some (n, _) => n | None => len data end).
  assert (Hn : s + p <= next <= len data).
  { unfold next. destruct (findStartCode (s + p) _) as [[n q]|] eqn:Hn; [|lia].
    apply find_bounds in Hn. rewrite length_drop in Hn. lia. }
  rewrite slice_ok by lia. cbn [obind].
  set (nal := take _ _).
  assert (Hnal : byte_list nal /\ len nal <= len data).
  { split; [by apply Forall_take, Forall_drop|]. unfold nal. rewrite length_take, length_drop. lia. }
  clearbody nal. case_if; [apply IH; [lia..|done]|].
  destruct (index_in_range (E:=sei_error) nal 0) as (h & _ & ->); [lia|]. cbn [obind].
  case_if; [apply IH; [lia..|done]|]. rewrite slice_from_ok by lia. cbn [obind].
  unfold extractTransportSEI.
  pose proof (unescape_length None None (drop (Z.to_nat 1) nal)) as Hul. rewrite length_drop in Hul.
  pose proof (sei_loop_total (length (unescapeRBSP (drop (Z.to_nat 1) nal)))
    (unescapeRBSP (drop (Z.to_nat 1) nal)) 0 []) as Ht.
  specialize (Ht (unescape_bytes _ _ _ (Forall_drop _ _ _ (proj1 Hnal))) ltac:(lia) ltac:(lia) (Forall_nil_2 _)).
  destruct (sei_loop _ _ _ _) as [found|e|]; [|apply IH; [lia..|done]|done].
  cbn [obind]. apply IH; [lia..|]. apply Forall_app. split; [done|].
  eapply Forall_impl; [exact Ht|]. intros q [? ?]. split; [done|]. unfold unescapeRBSP in *. lia.
Qed.

(** The scanner is total on whatever an SFU forwards: for every byte string
    it returns (no loop runs for ever, no index is out of range), and every
    payload it finds is no longer than the input. *)
Theorem extractVideoPayloads_total (data : bytes) (Hb : byte_list data) :
  exists found, extractVideoPayloads data = Ok found /\
    Forall (fun p => byte_list p /\ len p <= len data) found.
Proof. apply extract_loop_total; [done|lia..|constructor]. Qed.

Lemma extractVideoPayloads_total_witness :
  exists found, extractVideoPayloads [0; 0; 1; 6; 5; 255; 0; 0; 0; 1; 6] = Ok found /\
    Forall (fun p => byte_list p /\ len p <= len [0; 0; 1; 6; 5; 255; 0; 0; 0; 1; 6]) found.
Proof.
  apply (extractVideoPayloads_total [0; 0; 1; 6; 5; 255; 0; 0; 0; 1; 6]).
  repeat constructor; lia.
Defined.
