(* ===== verification/Traffic.v ===== *)
(** * Traffic: payload cap and pacing of the bulk data path
    (internal/transport/traffic.go, transport.go)

    A nil [*Shaper] is [None].  [rand.Int64N] is a draw [rnd] handed in by the
    caller; it panics when its bound is not positive. *)

From S2P Require Import Prelude.

(* go: transport/transport.go 35-45 Features *)
Record Features := MkFeatures { MaxPayloadSize : Z }.

(* go: transport/transport.go 160-165 MaxFPS *)
Definition MaxFPS : Z := 240.

(* go: transport/transport.go 167-176 NormalizeFPS *)
Definition NormalizeFPS (fps def : Z) : Z :=
  if fps <=? 0 then def else if MaxFPS <? fps then MaxFPS else fps.

(* go: transport/transport.go 178-183 TrafficConfig *)
Record TrafficConfig := MkTraffic {
  tcMaxPayloadSize : Z;
  tcMinDelay : Z;
  tcMaxDelay : Z;
}.

(* go: transport/traffic.go 14-29 Shaper *)
Record Shaper := MkShaper {
  shMaxPayloadSize : Z;
  shMinDelay : Z;
  shMaxDelay : Z;
}.

(* go: transport/traffic.go 31-47 NewShaper *)
Definition NewShaper (cfg : TrafficConfig) (features : Features) : option Shaper :=
  let cap :=
    if (0 <? tcMaxPayloadSize cfg) && (0 <? MaxPayloadSize features)
       && (MaxPayloadSize features <? tcMaxPayloadSize cfg)
    then MaxPayloadSize features else tcMaxPayloadSize cfg in
  if (cap <=? 0) && (tcMinDelay cfg <=? 0) && (tcMaxDelay cfg <=? 0) then None
  else Some (MkShaper cap (tcMinDelay cfg) (tcMaxDelay cfg)).

(* go: transport/traffic.go 84-91 nextDelay *)
Definition nextDelay (s : Shaper) (rnd : Z -> Z) : outcome Empty_set Z :=
  if shMaxDelay s <=? shMinDelay s then Ok (shMinDelay s)
  else
    let bound := i64 (shMaxDelay s - shMinDelay s) in
    if bound <=? 0 then Panic else Ok (i64 (shMinDelay s + rnd bound)).

(** What [Send] does: refuse the payload, or wait and hand it to [send]. *)
Inductive shaped := ShapedTooLarge | ShapedSend (delay : Z).

(* go: transport/traffic.go 49-68 Send *)
Definition ShaperSend (s : option Shaper) (rnd : Z -> Z) (data : bytes) : outcome Empty_set shaped :=
  match s with
  | None => Ok (ShapedSend 0)
  | Some s =>
      if (0 <? shMaxPayloadSize s) && (shMaxPayloadSize s <? len data) then Ok ShapedTooLarge
      else
        let* delay := nextDelay s rnd in
        Ok (ShapedSend (if 0 <? delay then delay else 0))
  end.

(* go: transport/traffic.go 70-82 Features *)
Definition ShaperFeatures (s : option Shaper) (f : Features) : Features :=
  match s with
  | None => f
  | Some s =>
      if shMaxPayloadSize s <=? 0 then f
      else if (MaxPayloadSize f =? 0) || (shMaxPayloadSize s <? MaxPayloadSize f)
           then MkFeatures (shMaxPayloadSize s) else f
  end.

(** The limit a shaped transport advertises is the one it enforces.  For a
    transport that can carry [f] bytes, the advertised maximum never exceeds [f]
    nor a configured cap; every payload within it passes the shaper after a
    pacing delay between the configured bounds, and with a configured cap every
    larger payload is refused. *)
Theorem shaper_limit_honest (cfg : TrafficConfig) (f : Z) (rnd : Z -> Z) (data : bytes)
    (Hf : 0 < f) (Hmin : 0 <= tcMinDelay cfg) (Hmax : tcMaxDelay cfg < 2 ^ 63)
    (Hmin' : tcMinDelay cfg < 2 ^ 63)
    (Hrnd : forall n, 0 < n -> 0 <= rnd n < n) :
  let s := NewShaper cfg (MkFeatures f) in
  let limit := MaxPayloadSize (ShaperFeatures s (MkFeatures f)) in
  0 < limit <= f /\ (0 < tcMaxPayloadSize cfg -> limit <= tcMaxPayloadSize cfg) /\
  (len data <= limit -> exists delay, ShaperSend s rnd data = Ok (ShapedSend delay) /\
     (tcMinDelay cfg <= delay \/ s = None) /\ 0 <= delay <= Z.max (tcMinDelay cfg) (tcMaxDelay cfg)) /\
  (0 < tcMaxPayloadSize cfg -> limit < len data -> ShaperSend s rnd data = Ok ShapedTooLarge).
Proof.
  intros s limit. unfold limit, s. clear s limit. unfold NewShaper. cbn [MaxPayloadSize].
  set (cap := if _ && _ && _ then f else tcMaxPayloadSize cfg).
  assert (Hcap : cap = if (0 <? tcMaxPayloadSize cfg) then Z.min f (tcMaxPayloadSize cfg)
                       else tcMaxPayloadSize cfg).
  { unfold cap. rewrite (proj2 (Z.ltb_lt 0 f) Hf). destruct (0 <? tcMaxPayloadSize cfg); [|done].
    cbn [andb]. case_if; lia. }
  clearbody cap.
  assert (Hdelay : forall sh, shMinDelay sh = tcMinDelay cfg -> shMaxDelay sh = tcMaxDelay cfg ->
            exists d, nextDelay sh rnd = Ok d /\ tcMinDelay cfg <= d <= Z.max (tcMinDelay cfg) (tcMaxDelay cfg)).
  { intros sh Hm HM. unfold nextDelay. rewrite Hm, HM. case_if; [eexists; split; [done|lia]|].
    rewrite i64_small by lia. case_if; [lia|].
    specialize (Hrnd (tcMaxDelay cfg - tcMinDelay cfg)). rewrite i64_small by lia.
    eexists. split; [done|lia]. }
  destruct ((cap <=? 0) && (tcMinDelay cfg <=? 0) && (tcMaxDelay cfg <=? 0)) eqn:Hnone.
  - bool_to_Prop. cbn [ShaperFeatures MaxPayloadSize]. destruct (Z.ltb_spec 0 (tcMaxPayloadSize cfg));
      split_and!; try lia. intros _. exists 0. split_and!; [done|auto|lia..].
  - clear Hnone. set (sh := MkShaper cap (tcMinDelay cfg) (tcMaxDelay cfg)).
    destruct (Hdelay sh eq_refl eq_refl) as (d & Hd & Hd'). unfold ShaperSend, ShaperFeatures.
    rewrite Hd. cbn [obind shMaxPayloadSize MaxPayloadSize sh].
    destruct (Z.ltb_spec 0 (tcMaxPayloadSize cfg)).
    + destruct (cap <=? 0) eqn:?; bool_to_Prop; [lia|].
      rewrite (proj2 (Z.eqb_neq f 0)) by lia. cbn [orb].
      rewrite (proj2 (Z.ltb_lt 0 cap)) by lia. cbn [andb].
      split_and!; try (case_if; cbn [MaxPayloadSize]; lia).
      * intros Hle. rewrite (proj2 (Z.ltb_ge cap (len data))) by (case_if; cbn [MaxPayloadSize] in Hle; lia).
        eexists. split; [done|]. case_if; lia.
      * intros _ Hgt. rewrite (proj2 (Z.ltb_lt cap (len data))); [done|].
        case_if; cbn [MaxPayloadSize] in Hgt; lia.
    + rewrite (proj2 (Z.leb_le cap 0)) by lia. rewrite (proj2 (Z.ltb_ge 0 cap)) by lia.
      cbn [andb MaxPayloadSize]. split_and!; try lia. intros _. eexists. split; [done|]. case_if; lia.
Qed.

Lemma shaper_limit_honest_witness :
  let s := NewShaper (MkTraffic 5000 3 9) (MkFeatures 4096) in
  MaxPayloadSize (ShaperFeatures s (MkFeatures 4096)) <= 4096.
Proof.
  apply (shaper_limit_honest (MkTraffic 5000 3 9) 4096 (fun n => n - 1) []); simpl; try lia.
Defined.
