(* ===== verification/SeiTransport.v ===== *)
(** * SeiTransport: the seichannel transport
    (internal/transport/seichannel/transport.go, options.go)

    The engine session, the video track and the RTP sample builder are not part
    of the source; a handler returns the calls it makes on the sender and on the
    application, in order.  The engine's [CanSend] is a parameter. *)

From S2P Require Import Prelude Bytes Frame Reassembly Sender H264 Traffic.

(* go: transport/seichannel/options.go 9-15 Options *)
Record SeiOptions := MkSeiOptions {
  oFPS : Z;
  oBatchSize : Z;
  oFragmentSize : Z;
  oAckTimeoutMS : Z;
}.

(* go: transport/seichannel/transport.go 27-39 defaultFragmentSize *)
Definition sei_defaults : SeiOptions := MkSeiOptions 30 64 900 3000.

(* go: transport/seichannel/options.go 20-33 withDefaults *)
Definition sei_withDefaults (o : SeiOptions) : SeiOptions :=
  MkSeiOptions
    (NormalizeFPS (oFPS o) (oFPS sei_defaults))
    (if oBatchSize o <=? 0 then oBatchSize sei_defaults else oBatchSize o)
    (if oFragmentSize o <=? 0 then oFragmentSize sei_defaults else oFragmentSize o)
    (if oAckTimeoutMS o <=? 0 then oAckTimeoutMS sei_defaults else oAckTimeoutMS o).

(* go: transport/seichannel/transport.go 33-37 maxSendAttempts *)
Definition sei_maxSendAttempts : Z := 4.

(* go: transport/seichannel/transport.go 50-73 streamTransport *)
Record SeiTransport := MkSei {
  tSender : Sender;
  tReassembler : Reassembler;
  tClosed : bool;
  tPeerReady : bool;
  tFragmentSize : Z;
  tFrameInterval : Z;
  tBatchSize : Z;
  tRemoteRole : Z;
  tBindingToken : Z;
  tShaper : option Shaper;
}.

(* go: transport/seichannel/transport.go 242-247 Features *)
Definition SeiFeatures (shaper : option Shaper) (fragmentSize : Z) : Features :=
  ShaperFeatures shaper (MkFeatures (fragmentSize * 8)).

(** [time.Second / FPS] and [AckTimeoutMS * time.Millisecond], in nanoseconds;
    [Features] of the transport under construction sees a nil shaper. *)
(* go: transport/seichannel/transport.go 119-155 newStreamTransport *)
Definition newStreamTransport (deviceID channelID roomURL : string) (traffic : TrafficConfig)
    (opts : SeiOptions) : SeiTransport :=
  let frameInterval := Z.quot 1000000000 (oFPS opts) in
  let binding := BindingToken channelID roomURL in
  let cfg := MkSenderConfig (LocalRole deviceID) binding (oFragmentSize opts) sei_maxSendAttempts
               frameInterval (oBatchSize opts) (i64 (oAckTimeoutMS opts * 1000000)) in
  MkSei (NewSender cfg NewOutboundQueue) (NewReassembler 256) false false
    (oFragmentSize opts) frameInterval (oBatchSize opts) (RemoteRole deviceID) binding
    (NewShaper traffic (SeiFeatures None (oFragmentSize opts))).

(* go: transport/seichannel/transport.go 232-235 resetPeerState *)
Definition resetPeerState (t : SeiTransport) : SeiTransport :=
  MkSei (tSender t) (ResetReassembler (tReassembler t)) (tClosed t) false (tFragmentSize t)
    (tFrameInterval t) (tBatchSize t) (tRemoteRole t) (tBindingToken t) (tShaper t).

(* go: transport/seichannel/transport.go 237-240 CanSend *)
Definition sei_CanSend (t : SeiTransport) (streamCanSend : bool) : bool :=
  negb (tClosed t) && tPeerReady t && streamCanSend.

(* go: transport/seichannel/transport.go 174-193 send *)
Inductive sei_send_error := SeiTooLarge | SeiClosed | SeiAckTimeout | SeiFragments.

(** [Send] up to the call of [Sender.Send]: what is refused before it. *)
(* go: transport/seichannel/transport.go 174-193 send *)
Definition sei_SendStart (t : SeiTransport) (rnd : Z -> Z) (data : bytes)
  : outcome sei_send_error (SeiTransport * send_call) :=
  match ShaperSend (tShaper t) rnd data with
  | Ok ShapedTooLarge => Err SeiTooLarge
  | Ok (ShapedSend _) =>
      if tClosed t then Err SeiClosed
      else
        let '(s, c) := SendStart (tSender t) data in
        Ok (MkSei s (tReassembler t) (tClosed t) (tPeerReady t) (tFragmentSize t)
              (tFrameInterval t) (tBatchSize t) (tRemoteRole t) (tBindingToken t) (tShaper t), c)
  | _ => Panic
  end.

(** How the result of [Sender.Send] is reported. *)
(* go: transport/seichannel/transport.go 184-192 send *)
Definition sei_send_result (r : send_result) : outcome sei_send_error unit :=
  match r with
  | SendOk => Ok tt
  | SendAckTimeout => Err SeiAckTimeout
  | SendClosed => Err SeiFragments
  end.

(** [close(closeCh)] also closes the queue; the second call does nothing. *)
(* go: transport/seichannel/transport.go 195-207 Close *)
Definition sei_Close (t : SeiTransport) : SeiTransport :=
  if tClosed t then t
  else
    let q := sQueue (tSender t) in
    MkSei (set_queue (tSender t) (MkQueue (qData q) (qAcks q) true)) (tReassembler t) true
      (tPeerReady t) (tFragmentSize t) (tFrameInterval t) (tBatchSize t) (tRemoteRole t)
      (tBindingToken t) (tShaper t).

(** ** Writing *)

(** One tick: up to [batchSize] queued frames, or one idle unit when nothing is
    queued.  The result is false when the transport is closing. *)
(* go: transport/seichannel/transport.go 272-294 writeBatch *)
Fixpoint write_batch (n : nat) (first : bool) (coins : list (nat * nat)) (q : OutboundQueue)
    (idle : bytes) : list bytes * OutboundQueue * bool :=
  match n with
  | O => ([], q, true)
  | S n' =>
      let c := default (0, 0)%nat (head coins) in
      match Next c.1 c.2 q q with
      | (NextStop, q') => ([], q', false)
      | (NextIdle, q') => (if first then [idle] else [], q', true)
      | (NextFrame payload, q') =>
          let '(samples, q'', ok) := write_batch n' false (tail coins) q' idle in
          (buildVideoAccessUnit payload :: samples, q'', ok)
      end
  end.

(* go: transport/seichannel/transport.go 249-294 writerLoop *)
Definition writeBatch (t : SeiTransport) (coins : list (nat * nat))
  : list bytes * OutboundQueue * bool :=
  write_batch (Z.to_nat (tBatchSize t)) true coins (sQueue (tSender t))
    (buildVideoAccessUnit (SenderHello (tSender t))).

(** ** Reading *)

(** The calls a received sample leads to. *)
Inductive rx_call :=
| CallData (data : bytes)
| CallAck (seq crc fragIdx : Z)
| CallResolve (seq crc fragIdx : Z).

(* go: transport/seichannel/transport.go 350-356 handleInboundFrame *)
Definition inbound_calls (d : delivery) : list rx_call :=
  match dData d with Some data => [CallData data] | None => [] end ++
  match dAck d with Some (seq, crc, i) => [CallAck seq crc i] | None => [] end.

Definition set_reasm (t : SeiTransport) (r : Reassembler) : SeiTransport :=
  MkSei (tSender t) r (tClosed t) true (tFragmentSize t) (tFrameInterval t) (tBatchSize t)
    (tRemoteRole t) (tBindingToken t) (tShaper t).

(** The body of [handleSample]'s loop. *)
(* go: transport/seichannel/transport.go 328-348 handleSample *)
Definition handle_payload (t : SeiTransport) (payload : bytes)
  : outcome Empty_set (SeiTransport * list rx_call) :=
  match DecodeFrame payload with
  | Panic => Panic
  | Err _ => Ok (t, [])
  | Ok frame =>
      if negb (AcceptedBy frame (tRemoteRole t) (tBindingToken t)) then Ok (t, [])
      else if fType frame =? FrameTypeAck then
        Ok (set_reasm t (tReassembler t), [CallResolve (fSeq frame) (fCRC frame) (fFragIdx frame)])
      else if fType frame =? FrameTypeData then
        let '(r, d) := DeliverFragment (tReassembler t) frame in
        let* d := d in
        Ok (set_reasm t r, inbound_calls d)
      else Ok (set_reasm t (tReassembler t), [])
  end.

(* go: transport/seichannel/transport.go 328-348 handleSample *)
Fixpoint handle_payloads (t : SeiTransport) (payloads : list bytes)
  : outcome Empty_set (SeiTransport * list rx_call) :=
  match payloads with
  | [] => Ok (t, [])
  | p :: rest =>
      let* r := handle_payload t p in
      let* r' := handle_payloads r.1 rest in
      Ok (r'.1, r.2 ++ r'.2)
  end.

(* go: transport/seichannel/transport.go 320-348 handleSample *)
Definition handleSample (t : SeiTransport) (sample : bytes)
  : outcome Empty_set (SeiTransport * list rx_call) :=
  if tClosed t then Ok (t, [])
  else
    match extractVideoPayloads sample with
    | Ok payloads => handle_payloads t payloads
    | _ => Panic
    end.
