(* ===== verification/EndToEnd.v ===== *)
(** * EndToEnd: sender, carrier and receiver of the seichannel together

    A [Send] that returns nil has had its message handed to the application of
    the peer, provided nobody forges frames of that message or acks for it. *)

From S2P Require Import Prelude Bytes Frame Reassembly ReassemblyFacts ReassemblyRuns Sender SenderFacts SenderRuns H264 Traffic SeiTransport.

(** ** The receiving side *)

(** The fragment a payload carries to the reassembler, if any. *)
Definition payload_fragment (role binding : Z) (p : bytes) : option Fragment :=
  match DecodeFrame p with
  | Ok frame =>
      if AcceptedBy frame role binding && (fType frame =? FrameTypeData)
      then Some (frame_fragment frame) else None
  | _ => None
  end.

Lemma payload_fragment_typed role binding p f :
  byte_list p -> payload_fragment role binding p = Some f -> frag_typed f.
Proof.
  intros Hb. unfold payload_fragment. destruct (DecodeFrame p) as [frame|e|] eqn:Hd; [|done..].
  destruct (_ && _) eqn:Ha; [|done]. intros [= <-]. bool_to_Prop.
  destruct (DecodeFrame_data_inv p frame Hb Hd) as (_ & ? & ? & ?); [done|].
  unfold frag_typed. simpl. lia.
Qed.

(** One payload is one push, or none. *)
Lemma handle_payload_spec t p :
  byte_list p -> reasm_ok (tReassembler t) ->
  exists t' calls, handle_payload t p = Ok (t', calls) /\
    tClosed t' = tClosed t /\ tRemoteRole t' = tRemoteRole t /\ tBindingToken t' = tBindingToken t /\
    match payload_fragment (tRemoteRole t) (tBindingToken t) p with
    | None => tReassembler t' = tReassembler t /\
        Forall (fun c => exists q k i, c = CallResolve q k i) calls
    | Some f => exists res, Push (tReassembler t) f = (tReassembler t', Ok res) /\
        calls = match res with
                | ResultDelivered d => [CallData d; CallAck (gSeq f) (gCRC f) (gFragIdx f)]
                | ResultPartial | ResultDuplicate => [CallAck (gSeq f) (gCRC f) (gFragIdx f)]
                | ResultIgnore => []
                end
    end.
Proof.
  intros Hb Hr. pose proof (payload_fragment_typed (tRemoteRole t) (tBindingToken t) p) as Htyped.
  unfold handle_payload. unfold payload_fragment in *. pose proof (DecodeFrame_no_panic p) as Hnp.
  destruct (DecodeFrame p) as [frame|e|] eqn:Hd; [|eauto 12|done].
  destruct (AcceptedBy frame _ _) eqn:Ha; cbn [negb andb] in *; [|eauto 12].
  destruct (Z.eqb_spec (fType frame) FrameTypeAck) as [He|_].
  { rewrite He. change (FrameTypeAck =? FrameTypeData) with false. cbv iota.
    eexists _, _. split_and!; [done..|]. apply Forall_singleton. eauto. }
  destruct (fType frame =? FrameTypeData); [|eexists _, _; split_and!; [done..|constructor]].
  specialize (Htyped _ Hb eq_refl). unfold DeliverFragment.
  destruct (Push_ok _ _ Hr Htyped) as [_ [res Hres]].
  destruct (Push (tReassembler t) (frame_fragment frame)) as [r' o] eqn:Hp. simpl in Hres. subst o.
  cbn [obind]. destruct res; cbn [obind];
    (eexists _, _; split_and!; [done..|]; eexists; split; done).
Qed.

(** What a sequence of payloads does to the reassembler and which calls it makes. *)
Lemma handle_payloads_spec t ps :
  Forall (fun p => byte_list p) ps -> reasm_ok (tReassembler t) ->
  let fs := omap (payload_fragment (tRemoteRole t) (tBindingToken t)) ps in
  exists t' calls, handle_payloads t ps = Ok (t', calls) /\
    (forall d, Ok (ResultDelivered d) ∈ (push_all (tReassembler t) fs).2 -> CallData d ∈ calls) /\
    (forall q k i, CallAck q k i ∈ calls ->
       exists f, f ∈ fs /\ gSeq f = q /\ gCRC f = k /\ gFragIdx f = i) /\
    Forall frag_typed fs.
Proof.
  intros Hps. revert t. induction Hps as [|p ps Hp _ IH]; intros t Hr fs.
  - exists t, []. split; [done|]. subst fs. simpl. split_and!.
    + intros d H. by apply elem_of_nil in H.
    + intros q k i H. by apply elem_of_nil in H.
    + constructor.
  - destruct (handle_payload_spec t p Hp Hr) as (t1 & c1 & H1 & _ & Hrole & Hbind & Hcase).
    cbn [handle_payloads]. rewrite H1. cbn [obind fst snd]. subst fs. cbn [omap list_omap].
    destruct (payload_fragment (tRemoteRole t) (tBindingToken t) p) as [f|] eqn:Hf.
    + pose proof (payload_fragment_typed _ _ _ _ Hp Hf) as Ht.
      destruct Hcase as (res & Hpush & ->).
      destruct (Push_ok _ _ Hr Ht) as [Hr1 _]. rewrite Hpush in Hr1. simpl in Hr1.
      destruct (IH t1 Hr1) as (t' & calls & H2 & Hdata & Hack & Htys). rewrite Hrole, Hbind in *.
      eexists t', _. rewrite H2. split; [done|]. rewrite push_all_cons, Hpush. cbn [fst snd]. split_and!.
      * intros d Hd. apply elem_of_app. apply elem_of_cons in Hd as [Hd|Hd]; [left|right; auto].
        simplify_eq. left.
      * intros q k i Hc. apply elem_of_app in Hc as [Hc|Hc].
        -- exists f. split; [left|].
           destruct res; rewrite ?elem_of_cons, ?elem_of_nil in Hc; naive_solver.
        -- destruct (Hack q k i Hc) as (g & Hg & ?). exists g. split; [by right|done].
      * by constructor.
    + destruct Hcase as [Hre Hres]. rewrite <- Hre in Hr.
      destruct (IH t1 Hr) as (t' & calls & H2 & Hdata & Hack & Htys). rewrite Hrole, Hbind, Hre in *.
      eexists t', _. rewrite H2. split; [done|]. split_and!; [|
        |done].
      * intros d Hd. apply elem_of_app. right. auto.
      * intros q k i Hc. apply elem_of_app in Hc as [Hc|Hc]; [|auto].
        rewrite Forall_forall in Hres. by destruct (Hres _ Hc) as (? & ? & ? & ?).
Qed.

(** Samples, one after the other, as the track reader hands them over. *)
Fixpoint handle_samples (t : SeiTransport) (samples : list bytes)
  : outcome Empty_set (SeiTransport * list rx_call) :=
  match samples with
  | [] => Ok (t, [])
  | s :: rest =>
      let* r := handleSample t s in
      let* r' := handle_samples r.1 rest in
      Ok (r'.1, r.2 ++ r'.2)
  end.

(** The payloads found in a sequence of samples. *)
Definition payloads_of (samples : list bytes) : list bytes :=
  concat ((fun s => match extractVideoPayloads s with Ok ps => ps | _ => [] end) <$> samples).

Lemma payloads_of_bytes samples :
  Forall (fun s => byte_list s) samples -> Forall (fun p => byte_list p) (payloads_of samples).
Proof.
  induction 1 as [|s samples Hs _ IH]; [constructor|].
  unfold payloads_of. rewrite fmap_cons. cbn [concat]. apply Forall_app. split; [|done].
  destruct (extract_loop_total (length s) s 0 [] Hs) as (found & He & Hf); [lia..|constructor|].
  unfold extractVideoPayloads. rewrite He. eapply Forall_impl; [done|]. by intros p [? _].
Qed.

Lemma handle_payloads_app t ps qs :
  handle_payloads t (ps ++ qs) =
    (let* r := handle_payloads t ps in
     let* r' := handle_payloads r.1 qs in Ok (r'.1, r.2 ++ r'.2)).
Proof.
  revert t. induction ps as [|p ps IH]; intros t; cbn [app handle_payloads obind].
  - cbn [fst snd app]. by destruct (handle_payloads t qs) as [[? ?]|e|].
  - destruct (handle_payload t p) as [r|e|]; cbn [obind]; [|done..]. rewrite IH.
    destruct (handle_payloads r.1 ps) as [r1|e|]; cbn [obind fst snd]; [|done..].
    destruct (handle_payloads r1.1 qs) as [r2|e|]; cbn [obind fst snd]; [|done..].
    by rewrite app_assoc.
Qed.

Lemma handle_payload_open t p t' calls : handle_payload t p = Ok (t', calls) -> tClosed t' = tClosed t.
Proof.
  unfold handle_payload. destruct (DecodeFrame p) as [f|e|]; [|by intros; simplify_eq|done].
  case_if; [by intros; simplify_eq|]. case_if; [by intros; simplify_eq|].
  case_if; [|by intros; simplify_eq]. destruct (DeliverFragment _ _) as [r [d|e|]]; cbn [obind]; [|done..].
  by intros; simplify_eq.
Qed.

Lemma handle_payloads_open t ps t' calls :
  handle_payloads t ps = Ok (t', calls) -> tClosed t' = tClosed t.
Proof.
  revert t calls. induction ps as [|p ps IH]; intros t calls H; cbn [handle_payloads] in H; [by simplify_eq|].
  destruct (handle_payload t p) as [[t1 c1]|e|] eqn:H1; cbn [obind fst snd] in H; [|done..].
  destruct (handle_payloads t1 ps) as [[t2 c2]|e|] eqn:H2; cbn [obind fst snd] in H; [|done..].
  simplify_eq. rewrite (IH _ _ H2). by eapply handle_payload_open.
Qed.

Lemma handle_samples_payloads t samples :
  tClosed t = false -> Forall (fun s => byte_list s) samples ->
  handle_samples t samples = handle_payloads t (payloads_of samples).
Proof.
  intros Hc Hs. revert t Hc. induction Hs as [|s samples Hs _ IH]; intros t Hc; [done|].
  cbn [handle_samples]. unfold payloads_of. rewrite fmap_cons. cbn [concat]. rewrite handle_payloads_app.
  unfold handleSample. rewrite Hc.
  destruct (extract_loop_total (length s) s 0 [] Hs) as (found & He & Hf); [lia..|constructor|].
  unfold extractVideoPayloads. rewrite He.
  destruct (handle_payloads t found) as [[t1 c1]|e|] eqn:H1; cbn [obind fst snd]; [|done..].
  apply handle_payloads_open in H1. rewrite IH by congruence. done.
Qed.

(** ** The sending side *)

Lemma concat_length_ge (l : list bytes) :
  Forall (fun c => 0 < len c) l -> len l <= len (concat l).
Proof.
  induction 1 as [|c l Hc _ IH]; [done|]. cbn [concat length]. rewrite len_app. lia.
Qed.

Lemma fragments_sendable data size :
  len data <= MaxMessageLen -> len (FragmentPayload data size) <= MaxFragments ->
  sendable (FragmentPayload data size) /\ concat (FragmentPayload data size) = data.
Proof.
  intros Hd Hn.
  assert (Hc : concat (FragmentPayload data size) = data /\
               len (FragmentPayload data size) <= Z.max (len data) 1).
  { unfold FragmentPayload. case_if.
    - split; [|simpl; lia]. symmetry. apply nil_length_inv. lia.
    - case_if; [split; [apply app_nil_r|simpl; lia]|].
      destruct (fragment_loop_spec (length data) data size 0) as (Hc & Hf & _); [lia..|].
      rewrite drop_0 in Hc. split; [done|].
      pose proof (concat_length_ge (fragment_loop (length data) data size 0)) as H.
      rewrite Hc in H. etrans; [apply H|lia].
      eapply Forall_impl; [done|]. simpl. lia. }
  destruct Hc as [Hc Hm]. split; [|done]. unfold sendable. rewrite Hc.
  split_and!; [apply FragmentPayload_nonempty|done..].
Qed.

(** A frame the sender queues for chunk [i]. *)
Definition wire_frame (cfg : SenderConfig) (seq : Z) (data : bytes) (i : nat) : bytes :=
  let chunks := FragmentPayload data (cfgFragmentSize cfg) in
  EncodeData (cfgRole cfg) (cfgBinding cfg) seq (ChecksumIEEE data) (len data) (Z.of_nat i)
    (len chunks) (default [] (chunks !! i)).

Lemma chunk_bytes (l : list bytes) i : byte_list (concat l) -> byte_list (default [] (l !! i)).
Proof.
  revert i. induction l as [|c l IH]; intros [|i] H; cbn [concat] in H; try constructor;
    apply Forall_app in H as [? ?]; simpl; auto.
Qed.

Lemma wire_frame_fragment cfg seq data i role binding f :
  byte_list data ->
  is_u32 (cfgBinding cfg) -> is_u32 seq -> len data <= MaxMessageLen ->
  len (FragmentPayload data (cfgFragmentSize cfg)) <= MaxFragments ->
  (i < length (FragmentPayload data (cfgFragmentSize cfg)))%nat ->
  payload_fragment role binding (wire_frame cfg seq data i) = Some f ->
  f = msg_fragment seq (FragmentPayload data (cfgFragmentSize cfg)) i.
Proof.
  intros Hby Hb Hs Hd Hn Hi. destruct (fragments_sendable _ _ Hd Hn) as [_ Hc].
  pose proof (chunk_bytes (FragmentPayload data (cfgFragmentSize cfg)) i) as Hck. rewrite Hc in Hck.
  unfold MaxMessageLen, MaxFragments in *. unfold payload_fragment, wire_frame.
  rewrite EncodeData_layout, u32_small, !u16_small by lia.
  rewrite DecodeFrame_data; auto; try lia; try (apply crc32_range; auto with go; lia).
  destruct (_ && _); [|done]. intros [= <-].
  unfold msg_fragment, WithPayloadCRC, frame_fragment. simpl. by rewrite Hc.
Qed.

(** A [Send] that returned nil, seen from the payloads the peer received. *)
Lemma payloads_deliver (s0 : Sender) (data : bytes) (evs : list event) (log : list Z)
    (s : Sender) (c : send_call) (t : SeiTransport) (ps : list bytes)
    (Hrun : reaches (SendStart s0 data).1 (SendStart s0 data).2 evs log s c)
    (Hret : returned c = Some SendOk)
    (Hbytes : byte_list data) (Hbind : is_u32 (cfgBinding (sCfg s0)))
    (Hlen : len data <= MaxMessageLen)
    (Hcount : len (FragmentPayload data (cfgFragmentSize (sCfg s0))) <= MaxFragments)
    (Hpb : Forall (fun p => byte_list p) ps) (Hr : reasm_ok (tReassembler t))
    (Hown : forall p f, p ∈ ps -> payload_fragment (tRemoteRole t) (tBindingToken t) p = Some f ->
       gSeq f = u32 (sSeq s0 + 1) ->
       exists i, (i < length (FragmentPayload data (cfgFragmentSize (sCfg s0))))%nat /\
         p = wire_frame (sCfg s0) (u32 (sSeq s0 + 1)) data i)
    (Hnew : inbound (tReassembler t) !! u32 (sSeq s0 + 1) = None)
    (Hfresh : delivered (tReassembler t) !! u32 (sSeq s0 + 1) = None /\
              previous (tReassembler t) !! u32 (sSeq s0 + 1) = None)
    (Hfit : Z.of_nat (size (dom (inbound (tReassembler t)) ∪ list_to_set (gSeq <$>
              omap (payload_fragment (tRemoteRole t) (tBindingToken t)) ps) : gset Z))
            <= maxRecent (tReassembler t)) :
  exists t' calls, handle_payloads t ps = Ok (t', calls) /\
    ((forall i, EvAck (u32 (sSeq s0 + 1)) (ChecksumIEEE data) i ∈ evs ->
        CallAck (u32 (sSeq s0 + 1)) (ChecksumIEEE data) i ∈ calls) ->
     CallData data ∈ calls).
Proof.
  set (seq := u32 (sSeq s0 + 1)) in *.
  set (chunks := FragmentPayload data (cfgFragmentSize (sCfg s0))) in *.
  assert (Hseq : is_u32 seq) by apply u32_range.
  destruct (fragments_sendable data (cfgFragmentSize (sCfg s0)) Hlen Hcount) as [Hsend Hconcat].
  fold chunks in Hsend, Hconcat.
  destruct (handle_payloads_spec t ps Hpb Hr)
    as (t' & calls & Hh & Hdata & Hack & Htyped).
  set (fs := omap (payload_fragment (tRemoteRole t) (tBindingToken t)) ps) in *.
  exists t', calls. split; [done|]. intros Hacks. apply Hdata.
  assert (Hgen : Forall (fun f => gSeq f = seq ->
            exists i, (i < length chunks)%nat /\ f = msg_fragment seq chunks i) fs).
  { apply Forall_forall. intros f Hf Hq. apply list_elem_of_omap in Hf as (p & Hp & Hpf).
    destruct (Hown p f Hp Hpf Hq) as (i & Hi & ->). exists i. split; [done|].
    by eapply wire_frame_fragment. }
  assert (Hall : forall i, (i < length chunks)%nat -> msg_fragment seq chunks i ∈ fs).
  { intros i Hi. pose proof (call_ok_reaches _ _ _ _ _ _ Hrun) as Hok.
    destruct (reaches_fields _ _ _ _ _ _ Hrun) as (Es & Ec & Ef & _).
    destruct (SendStart_fields s0 data) as (Es0 & Ec0 & _ & Ef0 & _).
    pose proof (co_return _ _ _ Hok Hret i) as He. rewrite Ef, Ef0, Es, Es0, Ec, Ec0 in He.
    destruct (Hack _ _ _ (Hacks _ (He Hi))) as (f & Hf & Hq & _ & Hidx).
    rewrite Forall_forall in Hgen. destruct (Hgen f Hf Hq) as (j & Hj & ->).
    simpl in Hidx. apply Nat2Z.inj in Hidx. by subst j. }
  destruct (complete_run_delivers seq chunks (tReassembler t) fs Hr Hsend Hnew) as
    (pre & f & post & rs1 & rs2 & _ & _ & -> & _); [|done..|].
  - unfold alreadyDelivered. simpl. destruct Hfresh as [-> ->]. done.
  - rewrite Hconcat. apply elem_of_app. right. left.
Qed.

(** A peer that remembers one partial message at a time.  The first fragment of
    a message of two is acked; a fragment of another message evicts it; the
    second fragment is acked too, and the message is never delivered. *)
Example evicted_message_is_lost :
  let cfg := toy_cfg in
  let t := MkSei (NewSender cfg NewOutboundQueue) (NewReassembler 1) false false 2 1 1 RoleClient 7 None in
  let frames := [wire_frame cfg 1 toy_data 0; wire_frame cfg 2 toy_data 0; wire_frame cfg 1 toy_data 1] in
  len (FragmentPayload toy_data (cfgFragmentSize cfg)) = 2 /\
  exists t' calls, handle_payloads t frames = Ok (t', calls) /\
    CallAck 1 (ChecksumIEEE toy_data) 0 ∈ calls /\ CallAck 1 (ChecksumIEEE toy_data) 1 ∈ calls /\
    CallData toy_data ∉ calls.
Proof.
  split; [vm_compute; reflexivity|].
  eexists _, _. split; [vm_compute; reflexivity|].
  split_and!; [left|right; right; left|].
  intros H. repeat (apply elem_of_cons in H as [H|H]; [discriminate H|]). by apply elem_of_nil in H.
Qed.

(** C5: a [Send] that reports success delivered.  Run the sender with any
    interleaving of acks, timers, writer ticks and queue activity until it
    returns nil, on a message of at most [MaxMessageLen] bytes in at most
    [MaxFragments] fragments.  Let the peer's open transport receive any samples
    (reordered, duplicated, lost, mixed with other traffic and with garbage) in
    which frames under this sequence number are the sender's own.  Suppose the
    sequence number is new to the peer (neither partly received nor among the
    delivered ones it remembers), and the sequence numbers partly received plus
    those the samples carry are at most [maxRecent], so that no partial message is
    evicted (a message evicted after its fragments were acked would be lost: see
    [evicted_message_is_lost]).  Then, if the acks the sender saw are ones the
    peer's transport sent, the peer's transport has passed exactly this message to
    its application. *)
Theorem send_ok_means_delivered (s0 : Sender) (data : bytes) (evs : list event) (log : list Z)
    (s : Sender) (c : send_call) (t : SeiTransport) (samples : list bytes)
    (Hrun : reaches (SendStart s0 data).1 (SendStart s0 data).2 evs log s c)
    (Hret : returned c = Some SendOk)
    (Hbytes : byte_list data) (Hbind : is_u32 (cfgBinding (sCfg s0)))
    (Hlen : len data <= MaxMessageLen)
    (Hcount : len (FragmentPayload data (cfgFragmentSize (sCfg s0))) <= MaxFragments)
    (Hsamples : Forall (fun s => byte_list s) samples)
    (Hopen : tClosed t = false) (Hr : reasm_ok (tReassembler t))
    (Hown : forall p f, p ∈ payloads_of samples ->
       payload_fragment (tRemoteRole t) (tBindingToken t) p = Some f ->
       gSeq f = u32 (sSeq s0 + 1) ->
       exists i, (i < length (FragmentPayload data (cfgFragmentSize (sCfg s0))))%nat /\
         p = wire_frame (sCfg s0) (u32 (sSeq s0 + 1)) data i)
    (Hnew : inbound (tReassembler t) !! u32 (sSeq s0 + 1) = None)
    (Hfresh : delivered (tReassembler t) !! u32 (sSeq s0 + 1) = None /\
              previous (tReassembler t) !! u32 (sSeq s0 + 1) = None)
    (Hfit : Z.of_nat (size (dom (inbound (tReassembler t)) ∪ list_to_set (gSeq <$>
              omap (payload_fragment (tRemoteRole t) (tBindingToken t)) (payloads_of samples))
              : gset Z)) <= maxRecent (tReassembler t)) :
  exists t' calls, handle_samples t samples = Ok (t', calls) /\
    ((forall i, EvAck (u32 (sSeq s0 + 1)) (ChecksumIEEE data) i ∈ evs ->
        CallAck (u32 (sSeq s0 + 1)) (ChecksumIEEE data) i ∈ calls) ->
     CallData data ∈ calls).
Proof.
  rewrite handle_samples_payloads by done. pose proof (payloads_of_bytes _ Hsamples) as Hpb.
  by eapply payloads_deliver.
Qed.

Definition toy_receiver : SeiTransport :=
  MkSei (NewSender toy_cfg NewOutboundQueue) (NewReassembler 4) false false 2 1 1 RoleClient 7 None.
Definition toy_frame (i : nat) : bytes := wire_frame toy_cfg 1 toy_data i.
Definition toy_samples : list bytes :=
  [buildVideoAccessUnit (toy_frame 1); [0; 0; 1; 6; 5]; buildVideoAccessUnit (toy_frame 0);
   buildVideoAccessUnit (toy_frame 1)].

Lemma toy_payloads : payloads_of toy_samples = [toy_frame 1; toy_frame 0; toy_frame 1].
Proof. vm_compute. reflexivity. Qed.

Lemma send_ok_means_delivered_witness :
  exists t' calls, handle_samples toy_receiver toy_samples = Ok (t', calls) /\
    ((forall i, EvAck 1 toy_crc i ∈ toy_events -> CallAck 1 toy_crc i ∈ calls) ->
     CallData toy_data ∈ calls).
Proof.
  destruct (run_events (SendStart toy_sender toy_data).1 (SendStart toy_sender toy_data).2 toy_events)
    as [[[log s] c]|] eqn:Hrun; [|exfalso; revert Hrun; vm_compute; discriminate].
  assert (Hret : returned c = Some SendOk).
  { change c with (log, s, c).2. revert Hrun. vm_compute. intros H. injection H as <- <- <-. done. }
  apply (send_ok_means_delivered toy_sender toy_data toy_events log s c toy_receiver toy_samples
    (run_events_reaches _ _ [] [] _ _ _ _ _ _ (reaches_refl _ _) Hrun) Hret).
  - repeat constructor; lia.
  - simpl. lia.
  - vm_compute. discriminate.
  - vm_compute. discriminate.
  - vm_compute. repeat constructor; discriminate.
  - reflexivity.
  - apply NewReassembler_ok.
  - intros p f Hp _ _. rewrite toy_payloads in Hp.
    rewrite !elem_of_cons, elem_of_nil in Hp.
    destruct Hp as [->|[->|[->|[]]]]; [exists 1%nat|exists 0%nat|exists 1%nat]; (split; [vm_compute; lia|reflexivity]).
  - reflexivity.
  - split; reflexivity.
  - vm_compute. discriminate.
Defined.

(** ** Silence after Close, and isolation *)

(** A closed transport is silent and a foreign frame is inert.  After
    [Close] no sample reaches the application, marks the peer ready or moves the
    reassembler, nothing can be sent, and a second [Close] changes nothing; and a
    payload whose frame carries another session's binding or the wrong role makes
    no call and changes nothing, open or not. *)
Theorem closed_or_foreign_is_inert (t : SeiTransport) (sample p : bytes) (frame : Frame)
    (streamCanSend : bool) (rnd : Z -> Z) (data : bytes)
    (Hd : DecodeFrame p = Ok frame)
    (Hforeign : AcceptedBy frame (tRemoteRole t) (tBindingToken t) = false)
    (Hshaper : tShaper t = None) :
  handleSample (sei_Close t) sample = Ok (sei_Close t, []) /\
  sei_CanSend (sei_Close t) streamCanSend = false /\
  sei_SendStart (sei_Close t) rnd data = Err SeiClosed /\
  qClosed (sQueue (tSender (sei_Close t))) || tClosed t = true /\
  sei_Close (sei_Close t) = sei_Close t /\
  handle_payload t p = Ok (t, []).
Proof.
  assert (Hc : tClosed (sei_Close t) = true) by (unfold sei_Close; by destruct (tClosed t) eqn:?).
  assert (Hs : tShaper (sei_Close t) = None) by (unfold sei_Close; by destruct (tClosed t) eqn:?).
  split_and!.
  - unfold handleSample. by rewrite Hc.
  - unfold sei_CanSend. by rewrite Hc.
  - unfold sei_SendStart. rewrite Hs. cbn [ShaperSend]. by rewrite Hc.
  - unfold sei_Close. destruct (tClosed t); [apply orb_true_r|done].
  - unfold sei_Close at 1. by rewrite Hc.
  - unfold handle_payload. by rewrite Hd, Hforeign.
Qed.

Lemma closed_or_foreign_is_inert_witness :
  handleSample (sei_Close toy_receiver) (buildVideoAccessUnit (toy_frame 0))
    = Ok (sei_Close toy_receiver, []) /\
  handle_payload toy_receiver (EncodeHello RoleClient 8) = Ok (toy_receiver, []).
Proof.
  pose (frame := MkFrame FrameTypeHello RoleClient 8 0 0 0 0 0 0 []).
  destruct (closed_or_foreign_is_inert toy_receiver (buildVideoAccessUnit (toy_frame 0))
    (EncodeHello RoleClient 8) frame true (fun _ => 0) [] eq_refl eq_refl eq_refl)
    as (H1 & _ & _ & _ & _ & H2).
  split; [exact H1|exact H2].
Defined.

(** ** The limit of the guarantee *)

(** A forged first fragment of the toy message: right header, right fragment
    checksum, wrong payload. *)
Definition forged_frame : bytes :=
  EncodeData RoleClient 7 1 toy_crc 3 0 2 [9; 9].

Definition poisoned_samples : list bytes :=
  buildVideoAccessUnit <$> [forged_frame; toy_frame 0; toy_frame 1; toy_frame 1].

(** Fragment 0 is acknowledged, fragment 1 is not and is sent again. *)
Definition poisoned_events : list event :=
  [EvRun; EvRun; EvRun; EvRun; EvAck 1 toy_crc 0; EvNotify; EvRun; EvTimer; EvRun; EvRun; EvRun;
   EvRun; EvAck 1 toy_crc 1; EvNotify; EvRun].

(** The delivery guarantee needs unforged frames: one injected fragment
    with the message's public header and its own valid checksum loses the
    message for good.  The whole-message checksum fails at the last fragment, the
    entry is dropped, the other fragments stay acknowledged, and the
    retransmission of the last fragment opens a new entry and is acknowledged:
    [Send] returns nil on acks the receiver really sent, and nothing reaches the
    application. *)
Theorem poisoned_message_reported_delivered :
  exists log s c t' calls,
    reaches (SendStart toy_sender toy_data).1 (SendStart toy_sender toy_data).2 poisoned_events log s c /\
    returned c = Some SendOk /\ log = [0; 1; 1] /\
    handle_samples toy_receiver poisoned_samples = Ok (t', calls) /\
    (forall q k i, EvAck q k i ∈ poisoned_events -> CallAck q k i ∈ calls) /\
    (forall d, CallData d ∉ calls).
Proof.
  destruct (run_events (SendStart toy_sender toy_data).1 (SendStart toy_sender toy_data).2 poisoned_events)
    as [[[log s] c]|] eqn:Hrun; [|exfalso; revert Hrun; vm_compute; discriminate].
  pose proof (run_events_reaches _ _ [] [] _ _ _ _ _ _ (reaches_refl _ _) Hrun) as Hreach.
  assert (Hr : returned c = Some SendOk /\ log = [0; 1; 1]).
  { revert Hrun. vm_compute. intros H. injection H as <- <- <-. done. }
  destruct (handle_samples toy_receiver poisoned_samples) as [[t' calls]|e|] eqn:Hh;
    [|by destruct e|exfalso; revert Hh; vm_compute; discriminate].
  assert (Hcalls : calls = [CallAck 1 toy_crc 0; CallAck 1 toy_crc 0; CallAck 1 toy_crc 1]).
  { revert Hh. vm_compute. intros H. injection H as <- <-. done. }
  exists log, s, c, t', calls. destruct Hr as [Hr1 Hr2]. split; [exact Hreach|].
  split; [exact Hr1|]. split; [exact Hr2|]. split; [reflexivity|]. rewrite Hcalls.
  clear Hh Hrun Hreach. split.
  - intros q k i H. unfold poisoned_events in H. clear Hcalls. revert H. generalize toy_crc. intros k0 H.
    repeat (apply elem_of_cons in H as [H|H];
            [discriminate H || (injection H as -> -> ->; rewrite !elem_of_cons; tauto)|]).
    apply elem_of_nil in H. destruct H.
  - intros d H. repeat (apply elem_of_cons in H as [H|H]; [discriminate H|]).
    apply elem_of_nil in H. destruct H.
Qed.
