(* ===== verification/Adapters.v ===== *)
(** * Adapters: the transports that only pass on to the engine
    (internal/transport/datachannel/transport.go, internal/transport/common/session.go and lifecycle.go,
    the contracts of internal/engine/engine.go)

    An engine is a state with the operations of engine.Session, and with the optional interfaces it implements.  The
    datachannel transport and the video session are such an engine seen through other names; what they add is the shaper,
    the fallbacks where an interface is missing, and the callback of a reconnect. *)

From S2P Require Import Prelude Bytes Text Traffic.

(** ** Engines *)

(** [S] is the state of the engine and [E] its errors; callbacks are numbers. *)
(* go: engine/engine.go 63-87 Session *)
Record engine (S E : Type) := MkEngine {
  en_Connect : S -> S * option E;
  en_Send : bytes -> S -> S * option E;
  en_Close : S -> S * option E;
  en_SetReconnectCallback : nat -> S -> S;
  en_SetShouldReconnect : nat -> S -> S;
  en_SetEndedCallback : nat -> S -> S;
  en_WatchConnection : S -> S;
  en_CanSend : S -> bool;
  en_SubscriberCanSend : S -> bool;
  en_Reconnect : string -> S -> S;
  (* PeerSession, PeerIdentity, PeerResetter, PeerReadySession *)
  en_SendTo : option (bytes -> bytes -> S -> S * option E);
  en_identity : option ((S -> bytes) * (bytes -> S -> S * option E));
  en_ResetPeer : option (S -> S);
  en_WaitForPeer : option (S -> S * option E);
  (* VideoTrackCapable *)
  en_video : option ((nat -> S -> S * option E) * (nat -> S -> S))
}.

Arguments en_Connect {S E}. Arguments en_Send {S E}. Arguments en_Close {S E}. Arguments en_SetReconnectCallback {S E}.
Arguments en_SetShouldReconnect {S E}. Arguments en_SetEndedCallback {S E}. Arguments en_WatchConnection {S E}.
Arguments en_CanSend {S E}. Arguments en_SubscriberCanSend {S E}. Arguments en_Reconnect {S E}. Arguments en_SendTo {S E}.
Arguments en_identity {S E}. Arguments en_ResetPeer {S E}. Arguments en_WaitForPeer {S E}. Arguments en_video {S E}.

Inductive tr_error (E : Type) := TrEngine (e : E) | TrTooLarge | TrIdentityUnsupported | TrVideoUnsupported.

Arguments TrEngine {E}. Arguments TrTooLarge {E}. Arguments TrIdentityUnsupported {E}. Arguments TrVideoUnsupported {E}.

(** [fmt.Errorf] around an error of the engine. *)
Definition wrapped {S E} (r : S * option E) : S * outcome (tr_error E) unit :=
  (r.1, match r.2 with None => Ok tt | Some e => Err (TrEngine e) end).

(** ** The datachannel transport *)

Section datachannel.
Context {S E : Type} (en : engine S E).

(* go: transport/datachannel/transport.go 12-12 defaultMaxPayloadSize *)
Definition dc_defaultMaxPayloadSize : Z := 12 * 1024.

(** The transport: the engine's state and the shaper. *)
(* go: transport/datachannel/transport.go 21-26 streamTransport *)
Record dc := MkDc { dcEngine : S; dcShaper : option Shaper }.

(* go: transport/datachannel/transport.go 144-147 Features *)
Definition dc_Features (shaper : option Shaper) : Features := ShaperFeatures shaper (MkFeatures dc_defaultMaxPayloadSize).

(** The features of the transport under construction have no shaper yet. *)
(* go: transport/datachannel/transport.go 28-39 New *)
Definition dc_New (traffic : TrafficConfig) (s : S) : dc := MkDc s (NewShaper traffic (dc_Features None)).

Definition dc_with (t : dc) (r : S * outcome (tr_error E) unit) : dc * outcome (tr_error E) unit := (MkDc r.1 (dcShaper t), r.2).

(* go: transport/datachannel/transport.go 41-47 Connect *)
Definition dc_Connect (t : dc) : dc * outcome (tr_error E) unit := dc_with t (wrapped (en_Connect en (dcEngine t))).

(* go: transport/datachannel/transport.go 54-59 send *)
Definition dc_send (data : bytes) (s : S) : S * outcome (tr_error E) unit := wrapped (en_Send en data s).

(* go: transport/datachannel/transport.go 68-77 sendTo *)
Definition dc_sendTo (peer data : bytes) (s : S) : S * outcome (tr_error E) unit :=
  match en_SendTo en with None => dc_send data s | Some f => wrapped (f peer data s) end.

(** The shaper in front of a send; [rnd] draws the delay. *)
Definition shaped_send (send : bytes -> S -> S * outcome (tr_error E) unit) (rnd : Z -> Z) (data : bytes) (t : dc) : dc * outcome (tr_error E) unit :=
  match ShaperSend (dcShaper t) rnd data with
  | Ok ShapedTooLarge => (t, Err TrTooLarge)
  | Ok (ShapedSend _) => dc_with t (send data (dcEngine t))
  | Err e => match e with end
  | Panic => (t, Panic)
  end.

(* go: transport/datachannel/transport.go 49-52 Send *)
Definition dc_Send (rnd : Z -> Z) (data : bytes) (t : dc) : dc * outcome (tr_error E) unit := shaped_send dc_send rnd data t.

(* go: transport/datachannel/transport.go 61-66 SendTo *)
Definition dc_SendTo (rnd : Z -> Z) (peer data : bytes) (t : dc) : dc * outcome (tr_error E) unit := shaped_send (dc_sendTo peer) rnd data t.

(* go: transport/datachannel/transport.go 79-83 SupportsPeerRouting *)
Definition dc_SupportsPeerRouting : bool := match en_SendTo en with Some _ => true | None => false end.

(* go: transport/datachannel/transport.go 85-92 LocalPeerID *)
Definition dc_LocalPeerID (t : dc) : bytes := match en_identity en with Some (local, _) => local (dcEngine t) | None => [] end.

(* go: transport/datachannel/transport.go 94-104 ConfirmPeer *)
Definition dc_ConfirmPeer (peer : bytes) (t : dc) : dc * outcome (tr_error E) unit :=
  match en_identity en with
  | None => (t, Err TrIdentityUnsupported)
  | Some (_, confirm) => dc_with t (wrapped (confirm peer (dcEngine t)))
  end.

(* go: transport/datachannel/transport.go 106-112 Close *)
Definition dc_Close (t : dc) : dc * outcome (tr_error E) unit := dc_with t (wrapped (en_Close en (dcEngine t))).

(* go: transport/datachannel/transport.go 114-119 ResetPeer *)
Definition dc_ResetPeer (t : dc) : dc :=
  match en_ResetPeer en with Some f => MkDc (f (dcEngine t)) (dcShaper t) | None => t end.

(* go: transport/datachannel/transport.go 126-129 CanSend *)
Definition dc_CanSend (t : dc) : bool := en_CanSend en (dcEngine t).

(* go: transport/datachannel/transport.go 131-142 WaitForPeer *)
Definition dc_WaitForPeer (t : dc) : dc * outcome (tr_error E) unit :=
  match en_WaitForPeer en with Some f => dc_with t (wrapped (f (dcEngine t))) | None => (t, Ok tt) end.

(** What reaches the engine of the payloads that are sent one after the other: those within the advertised limit, unchanged and in
    order; the transport stops nowhere. *)
Definition dc_sends (rnd : Z -> Z) (t : dc) (payloads : list bytes) : dc := fold_left (fun t data => (dc_Send rnd data t).1) payloads t.
Definition engine_sends (s : S) (payloads : list bytes) : S := fold_left (fun s data => (en_Send en data s).1) payloads s.
Definition fits (shaper : option Shaper) (data : bytes) : bool :=
  match shaper with None => true | Some s => (shMaxPayloadSize s <=? 0) || (len data <=? shMaxPayloadSize s) end.

Lemma dc_Send_fits rnd data t :
  (forall n, 0 < n -> 0 <= rnd n < n) ->
  match dcShaper t with Some s => 0 <= shMinDelay s /\ shMinDelay s <= shMaxDelay s < 2 ^ 63 | None => True end ->
  dc_Send rnd data t = if fits (dcShaper t) data then dc_with t (dc_send data (dcEngine t)) else (t, Err TrTooLarge).
Proof.
  intros Hr Hd. unfold dc_Send, shaped_send, ShaperSend, fits. destruct (dcShaper t) as [s|]; [|done].
  destruct (Z.ltb_spec 0 (shMaxPayloadSize s)), (Z.leb_spec (shMaxPayloadSize s) 0); try lia; cbn [andb orb].
  - destruct (Z.ltb_spec (shMaxPayloadSize s) (len data)), (Z.leb_spec (len data) (shMaxPayloadSize s)); try lia; [done|].
    unfold nextDelay. destruct (Z.leb_spec (shMaxDelay s) (shMinDelay s)); [done|]. rewrite i64_small by lia.
    by rewrite (proj2 (Z.leb_gt _ 0)) by lia.
  - unfold nextDelay. destruct (Z.leb_spec (shMaxDelay s) (shMinDelay s)); [done|]. rewrite i64_small by lia.
    by rewrite (proj2 (Z.leb_gt _ 0)) by lia.
Qed.

Lemma dc_sends_filter rnd t payloads :
  (forall n, 0 < n -> 0 <= rnd n < n) ->
  match dcShaper t with Some s => 0 <= shMinDelay s /\ shMinDelay s <= shMaxDelay s < 2 ^ 63 | None => True end ->
  dcEngine (dc_sends rnd t payloads) = engine_sends (dcEngine t) (List.filter (fits (dcShaper t)) payloads) /\
  dcShaper (dc_sends rnd t payloads) = dcShaper t.
Proof.
  intros Hr. revert t. induction payloads as [|d ds IH]; intros t Hd; [done|]. cbn [dc_sends fold_left List.filter].
  fold (dc_sends rnd (dc_Send rnd d t).1 ds). rewrite (dc_Send_fits rnd d t Hr Hd). destruct (fits (dcShaper t) d); [|by apply IH].
  by apply (IH (dc_with t (dc_send d (dcEngine t))).1).
Qed.

(** Every payload within the limit the transport advertises is handed to the engine unchanged, once and in order, whatever the engine
    answered before; larger ones are refused before they reach it. *)
Theorem datachannel_forwards (rnd : Z -> Z) (traffic : TrafficConfig) (s : S) (payloads : list bytes) :
  (forall n, 0 < n -> 0 <= rnd n < n) -> 0 <= tcMinDelay traffic -> tcMinDelay traffic <= tcMaxDelay traffic < 2 ^ 63 ->
  let t := dc_New traffic s in
  (MaxPayloadSize (dc_Features (dcShaper t)) <= dc_defaultMaxPayloadSize) /\
  dcEngine (dc_sends rnd t payloads) = engine_sends s (List.filter (fits (dcShaper t)) payloads) /\
  (forall data, len data <= MaxPayloadSize (dc_Features (dcShaper t)) -> fits (dcShaper t) data = true).
Proof.
  intros Hr Hd0 Hd t. split; [|split].
  - unfold t, dc_New, dc_Features, dc_defaultMaxPayloadSize. simpl. unfold NewShaper. simpl.
    repeat case_match; simpl; repeat case_match; simpl; lia.
  - apply (dc_sends_filter rnd t payloads Hr). unfold t, dc_New, NewShaper. cbn [dcShaper].
    destruct (_ && (tcMinDelay traffic <=? 0) && _); cbn [shMinDelay shMaxDelay]; [done|lia].
  - intros data. unfold fits, dc_Features, dc_defaultMaxPayloadSize. destruct (dcShaper t) as [sh|]; [|done]. simpl.
    destruct (Z.leb_spec (shMaxPayloadSize sh) 0); [done|]. simpl.
    destruct (Z.ltb_spec (shMaxPayloadSize sh) (12 * 1024)); simpl; intros Hl; apply Z.leb_le; lia.
Qed.

End datachannel.

(** ** The session of the video transports *)

Section video.
Context {S E : Type} (en : engine S E).

(** Without video tracks the session is closed again. *)
(* go: transport/common/session.go 49-58 NewEngineVideoSession *)
Definition NewEngineVideoSession (s : S) : S * outcome (tr_error E) unit :=
  match en_video en with Some _ => (s, Ok tt) | None => ((en_Close en s).1, Err TrVideoUnsupported) end.

(* go: transport/common/session.go 60-66 Connect *)
Definition vs_Connect (s : S) : S * outcome (tr_error E) unit := wrapped (en_Connect en s).

(* go: transport/common/session.go 68-74 Close *)
Definition vs_Close (s : S) : S * outcome (tr_error E) unit := wrapped (en_Close en s).

(* go: transport/common/session.go 76-79 SetReconnectCallback *)
Definition vs_SetReconnectCallback (cb : nat) (s : S) : S := en_SetReconnectCallback en cb s.

(* go: transport/common/session.go 90-91 CanSend *)
Definition vs_CanSend (s : S) : bool := en_CanSend en s.

(* go: transport/common/session.go 93-94 SubscriberCanSend *)
Definition vs_SubscriberCanSend (s : S) : bool := en_SubscriberCanSend en s.

(* go: transport/common/session.go 99-105 AddTrack *)
Definition vs_AddTrack (track : nat) (s : S) : S * outcome (tr_error E) unit :=
  match en_video en with Some (add, _) => wrapped (add track s) | None => (s, Panic) end.

(* go: transport/common/session.go 107-110 SetTrackHandler *)
Definition vs_SetTrackHandler (cb : nat) (s : S) : outcome (tr_error E) S :=
  match en_video en with Some (_, set) => Ok (set cb s) | None => Panic end.

(** A session that was built never meets an engine without tracks. *)
Lemma video_session_total (s : S) :
  (NewEngineVideoSession s).2 = Ok tt ->
  forall track cb s', (vs_AddTrack track s').2 <> Panic /\ vs_SetTrackHandler cb s' <> Panic.
Proof.
  unfold NewEngineVideoSession, vs_AddTrack, vs_SetTrackHandler. destruct (en_video en) as [[add set]|]; [|done].
  intros _ track cb s'. split; [|done]. unfold wrapped. simpl. by destruct (add track s').2.
Qed.

End video.

(** ** The pass-throughs of every transport *)

(* go: transport/common/lifecycle.go 7-34 Lifecycle *)
Definition TransportLifecycle {S E} (en : engine S E) : (nat -> S -> S) * (nat -> S -> S) * (S -> S) * (string -> S -> S) :=
  (en_SetShouldReconnect en, en_SetEndedCallback en, en_WatchConnection en, en_Reconnect en).
