(* ===== verification/Muxconn.v ===== *)
(** * Muxconn: the byte stream over the record layer (internal/muxconn/conn.go)

    Plaintext buffers come from a process-wide [sync.Pool] and are passed around
    by pointer, so the model keeps the shared store: a box is a [*[]byte], [Mem]
    holds the contents and capacity of every box and the list of pooled ones, and
    a connection holds box addresses.  Boxes held by other connections of the
    process are [others]; their owners may overwrite or release them at any
    time.

    [Conn] is written against the record layer's interface [RecordLayer]; the
    instance for [KeySet] is at the end of the file. *)

From S2P Require Import Prelude Crypto.

(** ** The interface of the record layer *)

(** [KeySet] as [Conn] uses it; [None] is any error. *)
Class RecordLayer (K : Type) : Type := {
  rl_seal : K -> bytes -> bytes -> K * option bytes;
  rl_open : K -> bytes -> bytes -> K * option bytes;
}.

(** What the stream relies on: a receiver paired with a sender opens the next
    record the sender seals, and they stay paired, for as many records as the
    sender has left. *)
Class RecordLaws (K : Type) `{RecordLayer K} : Type := {
  rl_paired : K -> K -> Prop;
  rl_left : K -> Z;
  rl_next ks kr pt aad :
    rl_paired ks kr -> 0 < rl_left ks ->
    exists ks' rec kr', rl_seal ks pt aad = (ks', Some rec) /\ rl_open kr rec aad = (kr', Some pt) /\
      rl_paired ks' kr' /\ rl_left ks' = rl_left ks - 1;
}.

(** ** Buffers *)

(* go: muxconn/conn.go 71-77 inboundQueue *)
Definition inboundQueue : Z := 128.
(* go: muxconn/conn.go 79-84 pooledFrameCap *)
Definition pooledFrameCap : Z := 64 * 1024.
(* go: muxconn/conn.go 86-91 writeReadyTimeout *)
Definition writeReadyTimeout : Z := 30 * 1000000000.
(* go: muxconn/conn.go 93-96 decryptLogInterval *)
Definition decryptLogInterval : Z := 30 * 1000000000.

Record Box := MkBox { boxData : bytes; boxCap : Z }.

Record Mem := MkMem {
  boxes : gmap nat Box;
  pool : list nat;
  others : list nat;
  nextBox : nat;
}.

Definition box_data (m : Mem) (b : nat) : bytes :=
  match boxes m !! b with Some x => boxData x | None => [] end.
Definition box_cap (m : Mem) (b : nat) : Z :=
  match boxes m !! b with Some x => boxCap x | None => 0 end.

Definition set_box (m : Mem) (b : nat) (x : Box) : Mem :=
  MkMem (<[b := x]> (boxes m)) (pool m) (others m) (nextBox m).

(** [pick] is what the pool hands out: one of its buffers, or a new one (it may
    have dropped any of them). *)
(* go: muxconn/conn.go 104-119 acquireFrameBuf *)
Definition acquireFrameBuf (m : Mem) (pick : option nat) : Mem * nat :=
  match pick ≫= fun i => pool m !! i with
  | Some b =>
      let rest := filter (fun b' => b' <> b) (pool m) in
      (MkMem (<[b := MkBox [] (box_cap m b)]> (boxes m)) rest (others m) (nextBox m), b)
  | None =>
      let b := nextBox m in
      (MkMem (<[b := MkBox [] pooledFrameCap]> (boxes m)) (pool m) (others m) (S b), b)
  end.

(* go: muxconn/conn.go 121-132 releaseFrameBuf *)
Definition releaseFrameBuf (m : Mem) (b : nat) : Mem :=
  if pooledFrameCap * 2 <? box_cap m b then m
  else MkMem (<[b := MkBox [] (box_cap m b)]> (boxes m)) (pool m ++ [b]) (others m) (nextBox m).

(** ** The connection *)

Section conn.
Context {K : Type} `{RL : RecordLayer K}.

(** [cLeft] is [leftoverBuf] with the offset at which [leftover] starts in it;
    [cFlight] is the buffer a [Push] in progress holds, and whether it has passed
    the check of [closed].  [cClosed] is the atomic flag, [cDone] whether
    [closeCh] is closed. *)
(* go: muxconn/conn.go 134-171 Conn *)
Record Conn := MkConn {
  cKeys : K;
  cAad : bytes;
  cIn : list nat;
  cClosed : bool;
  cDone : bool;
  cLeft : option (nat * nat);
  cFlight : option (nat * bool);
  cFails : Z;
  cLogged : Z;
  cLogAt : Z;
}.

(* go: muxconn/conn.go 180-191 New *)
Definition NewConn (keys : K) (aad : bytes) : Conn :=
  MkConn keys aad [] false false None None 0 0 0.

Definition set_in (c : Conn) (q : list nat) : Conn :=
  MkConn (cKeys c) (cAad c) q (cClosed c) (cDone c) (cLeft c) (cFlight c) (cFails c) (cLogged c) (cLogAt c).
Definition set_left (c : Conn) (l : option (nat * nat)) : Conn :=
  MkConn (cKeys c) (cAad c) (cIn c) (cClosed c) (cDone c) l (cFlight c) (cFails c) (cLogged c) (cLogAt c).
Definition set_flight (c : Conn) (k : K) (f : option (nat * bool)) : Conn :=
  MkConn k (cAad c) (cIn c) (cClosed c) (cDone c) (cLeft c) f (cFails c) (cLogged c) (cLogAt c).
Definition set_closed (c : Conn) (cl dn : bool) : Conn :=
  MkConn (cKeys c) (cAad c) (cIn c) cl dn (cLeft c) (cFlight c) (cFails c) (cLogged c) (cLogAt c).

(** The slice [leftover]. *)
Definition leftover (m : Mem) (c : Conn) : bytes :=
  match cLeft c with Some (b, off) => drop off (box_data m b) | None => [] end.

(** The second result is the count a summary line reports, if one is logged. *)
(* go: muxconn/conn.go 284-307 noteDecryptFailure *)
Definition noteDecryptFailure (c : Conn) (now : Z) : Conn * option Z :=
  let total := u64 (cFails c + 1) in
  let upd logged at_ := MkConn (cKeys c) (cAad c) (cIn c) (cClosed c) (cDone c) (cLeft c) (cFlight c)
                          total logged at_ in
  if total =? 1 then (upd total now, Some 1)
  else if i64 (now - cLogAt c) <? decryptLogInterval then (upd (cLogged c) (cLogAt c), None)
  else (upd total now, Some (u64 (total - cLogged c))).

(** [Push] up to the decrypted buffer; [grow] is the capacity [append] allocates
    when the plaintext does not fit. *)
(* go: muxconn/conn.go 264-272 Push *)
Definition push_open (m : Mem) (c : Conn) (pick : option nat) (grow now : Z) (ciphertext : bytes)
  : Mem * Conn :=
  let '(m, b) := acquireFrameBuf m pick in
  let '(k, r) := rl_open (cKeys c) ciphertext (cAad c) in
  match r with
  | None => (releaseFrameBuf m b, (noteDecryptFailure (set_flight c k None) now).1)
  | Some pt =>
      let cap := if len pt <=? box_cap m b then box_cap m b else grow in
      (set_box m b (MkBox pt cap), set_flight c k (Some (b, false)))
  end.

(* go: muxconn/conn.go 273-276 Push *)
Definition push_check (m : Mem) (c : Conn) : option (Mem * Conn) :=
  match cFlight c with
  | Some (b, false) =>
      if cClosed c then Some (releaseFrameBuf m b, set_flight c (cKeys c) None)
      else Some (m, set_flight c (cKeys c) (Some (b, true)))
  | _ => None
  end.

(* go: muxconn/conn.go 277-278 Push *)
Definition push_send (m : Mem) (c : Conn) : option (Mem * Conn) :=
  match cFlight c with
  | Some (b, true) =>
      if len (cIn c) <? inboundQueue
      then Some (m, set_flight (set_in c (cIn c ++ [b])) (cKeys c) None)
      else None
  | _ => None
  end.

(* go: muxconn/conn.go 279-281 Push *)
Definition push_abort (m : Mem) (c : Conn) : option (Mem * Conn) :=
  match cFlight c with
  | Some (b, true) =>
      if cDone c then Some (releaseFrameBuf m b, set_flight c (cKeys c) None) else None
  | _ => None
  end.

(** [None] while the select blocks: nothing queued and not closed. *)
(* go: muxconn/conn.go 355-376 takeFrame *)
Definition takeFrame (c : Conn) : option (option nat * list nat) :=
  match cIn c with
  | b :: rest => Some (Some b, rest)
  | [] => if cDone c then Some (None, []) else None
  end.

(* go: muxconn/conn.go 378-383 recycleIfDrained *)
Definition recycleIfDrained (m : Mem) (c : Conn) : Mem * Conn :=
  match cLeft c with
  | Some (b, off) =>
      if len (leftover m c) =? 0 then (releaseFrameBuf m b, set_left c None) else (m, c)
  | None => (m, c)
  end.

(** The loop that drains queued frames; one round takes one frame, so [length
    (cIn c)] rounds are enough. *)
(* go: muxconn/conn.go 330-352 Read *)
Fixpoint read_more (fuel : nat) (m : Mem) (c : Conn) (size : Z) (out : bytes) : Mem * Conn * bytes :=
  match fuel with
  | O => (m, c, out)
  | S fuel' =>
      if (len out <? size) && (len (leftover m c) =? 0) then
        match cIn c with
        | [] => (m, c, out)
        | b :: rest =>
            let data := box_data m b in
            let chunk := take (Z.to_nat (size - len out)) data in
            let c := set_in c rest in
            if len chunk <? len data
            then read_more fuel' m (set_left c (Some (b, length chunk))) size (out ++ chunk)
            else read_more fuel' (releaseFrameBuf m b) c size (out ++ chunk)
        end
      else (m, c, out)
  end.

(** [ReadEOF] is [errReadClosed]. *)
Inductive read_result := ReadOk (data : bytes) | ReadEOF.

(** [size] is [len(p)]; [None] while blocked. *)
(* go: muxconn/conn.go 309-353 Read *)
Definition Read (m : Mem) (c : Conn) (size : Z) : option (Mem * Conn * read_result) :=
  if size =? 0 then Some (m, c, ReadOk [])
  else
    let first :=
      if len (leftover m c) =? 0 then
        match takeFrame c with
        | None => None
        | Some (None, _) => Some (c, true)
        | Some (Some b, rest) => Some (set_left (set_in c rest) (Some (b, 0%nat)), false)
        end
      else Some (c, false) in
    match first with
    | None => None
    | Some (c, true) => Some (m, c, ReadEOF)
    | Some (c, false) =>
        let chunk := take (Z.to_nat size) (leftover m c) in
        let c := match cLeft c with
                 | Some (b, off) => set_left c (Some (b, off + length chunk)%nat)
                 | None => c
                 end in
        let '(m, c) := recycleIfDrained m c in
        let '(m, c, out) := read_more (length (cIn c)) m c size chunk in
        Some (m, c, ReadOk out)
    end.

(** [Close]: the flag, the channel, then the drain, frame by frame; the once
    guard makes later calls do nothing. *)
(* go: muxconn/conn.go 449-460 Close *)
Definition close_flag (c : Conn) : Conn := set_closed c true (cDone c).
(* go: muxconn/conn.go 454-456 Close *)
Definition close_chan (c : Conn) : option Conn :=
  if cClosed c then Some (set_closed c true true) else None.
(* go: muxconn/conn.go 462-471 drainInbound *)
Definition drain_one (m : Mem) (c : Conn) : option (Mem * Conn) :=
  match cIn c with
  | b :: rest => if cDone c then Some (releaseFrameBuf m b, set_in c rest) else None
  | [] => None
  end.

(** ** Writing *)

Inductive write_error := WErrClosed | WErrTimeout | WErrEncrypt | WErrSend.

(** One poll of the wait loops: the flag and [canSend()], as they are read. *)
Record poll := MkPoll { pClosed : bool; pCanSend : bool }.

(** Which case the slow loop's select takes. *)
Inductive wake := WakeClosed | WakeDeadline | WakeTick.

(* go: muxconn/conn.go 418-426 waitSendReady *)
Fixpoint fast_spin (polls : list poll) : option (outcome write_error unit) :=
  match polls with
  | [] => None
  | p :: rest =>
      if pClosed p then Some (Err WErrClosed)
      else if pCanSend p then Some (Ok tt)
      else fast_spin rest
  end.

(** [None] when the script of polls and wake-ups ends before the loop does. *)
(* go: muxconn/conn.go 432-446 waitSendReady *)
Fixpoint slow_poll (script : list (poll * wake)) : option (outcome write_error unit) :=
  match script with
  | [] => None
  | (p, w) :: rest =>
      if pClosed p then Some (Err WErrClosed)
      else if pCanSend p then Some (Ok tt)
      else match w with
           | WakeClosed => Some (Err WErrClosed)
           | WakeDeadline => Some (Err WErrTimeout)
           | WakeTick => slow_poll rest
           end
  end.

(* go: muxconn/conn.go 402-447 waitSendReady *)
Definition waitSendReady (polls : list poll) (script : list (poll * wake))
  : option (outcome write_error unit) :=
  match fast_spin (take 16 polls) with
  | Some r => Some r
  | None => slow_poll script
  end.

(** The record handed to [send], with its result. *)
(* go: muxconn/conn.go 385-400 Write *)
Definition Write (c : Conn) (ready : outcome write_error unit) (sendOk : bool) (p : bytes)
  : Conn * option bytes * outcome write_error Z :=
  match ready with
  | Err e => (c, None, Err e)
  | Panic => (c, None, Panic)
  | Ok _ =>
      let '(k, r) := rl_seal (cKeys c) p (cAad c) in
      let c := set_flight c k (cFlight c) in
      match r with
      | None => (c, None, Err WErrEncrypt)
      | Some enc => (c, Some enc, if sendOk then Ok (len p) else Err WErrSend)
      end
  end.

(** ** The process around a connection *)

(** What can happen: the steps of [Push], [Read] and [Close] on this connection,
    and what the other users of the pool do. *)
Inductive mux_event :=
| MvOpen (pick : option nat) (grow now : Z) (ciphertext : bytes)
| MvCheck
| MvSend
| MvAbort
| MvRead (size : Z)
| MvCloseFlag
| MvCloseChan
| MvDrain
| MvOtherAcquire (pick : option nat)
| MvOtherWrite (b : nat) (x : Box)
| MvOtherRelease (b : nat).

Definition mux_step (m : Mem) (c : Conn) (ev : mux_event) : option (Mem * Conn * bytes) :=
  let out r := match r with Some (m, c) => Some (m, c, []) | None => None end in
  match ev with
  | MvOpen pick grow now ct =>
      match cFlight c with None => out (Some (push_open m c pick grow now ct)) | Some _ => None end
  | MvCheck => out (push_check m c)
  | MvSend => out (push_send m c)
  | MvAbort => out (push_abort m c)
  | MvRead size =>
      match Read m c size with
      | Some (m, c, ReadOk data) => Some (m, c, data)
      | Some (m, c, ReadEOF) => Some (m, c, [])
      | None => None
      end
  | MvCloseFlag => Some (m, close_flag c, [])
  | MvCloseChan => match close_chan c with Some c => Some (m, c, []) | None => None end
  | MvDrain => out (drain_one m c)
  | MvOtherAcquire pick =>
      let '(m, b) := acquireFrameBuf m pick in
      Some (MkMem (boxes m) (pool m) (b :: others m) (nextBox m), c, [])
  | MvOtherWrite b x => if bool_decide (b ∈ others m) then Some (set_box m b x, c, []) else None
  | MvOtherRelease b =>
      if bool_decide (b ∈ others m)
      then Some (releaseFrameBuf (MkMem (boxes m) (pool m) (filter (fun b' => b' <> b) (others m))
                                    (nextBox m)) b, c, [])
      else None
  end.
End conn.

Arguments Conn K : clear implicits.
