(* ===== verification/MuxFacts.v ===== *)
(** * MuxFacts: buffer ownership and stream integrity of a connection *)

From S2P Require Import Prelude Bytes Crypto CryptoReplay CryptoRecord Muxconn.

(** ** Ownership of pooled buffers *)

(** The pool and the holders [H] share no box, and none is yet to be allocated. *)
Definition mem_ok (m : Mem) (H : list nat) : Prop :=
  NoDup (pool m ++ H) /\ Forall (fun b => (b < nextBox m)%nat) (pool m ++ H).

Lemma mem_ok_perm m H H' : H ≡ₚ H' -> mem_ok m H -> mem_ok m H'.
Proof. intros Hp [Hn Hf]. split; by rewrite <- Hp. Qed.

(** Contents of the boxes in [H] are the same in both memories. *)
Definition keeps (m m' : Mem) (H : list nat) : Prop :=
  Forall (fun b => box_data m' b = box_data m b) H.

Lemma box_data_insert m b x b' p o n :
  b' <> b -> box_data (MkMem (<[b := x]> (boxes m)) p o n) b' = box_data m b'.
Proof. intros. unfold box_data. simpl. by rewrite lookup_insert_ne. Qed.

Lemma keeps_insert m b x p o n H : b ∉ H -> keeps m (MkMem (<[b := x]> (boxes m)) p o n) H.
Proof.
  intros Hb. apply Forall_forall. intros b' Hin. apply box_data_insert. by intros ->.
Qed.

Lemma acquire_ok m pick H :
  mem_ok m H ->
  mem_ok (acquireFrameBuf m pick).1 ((acquireFrameBuf m pick).2 :: H) /\
  keeps m (acquireFrameBuf m pick).1 H /\
  others (acquireFrameBuf m pick).1 = others m /\
  (acquireFrameBuf m pick).2 ∉ H.
Proof.
  intros [Hn Hf]. unfold acquireFrameBuf.
  destruct (pick ≫= _) as [b|] eqn:Hp; simpl.
  - assert (Hb : b ∈ pool m).
    { destruct pick as [i|]; [|done]. simpl in Hp. by eapply list_elem_of_lookup_2. }
    apply NoDup_app in Hn as (Hn1 & Hdisj & Hn2).
    apply Forall_app in Hf as [Hf1 Hf2].
    assert (Hbh : b ∉ H) by (by apply Hdisj). split; [|split; [by apply keeps_insert|done]].
    split; simpl.
    + apply NoDup_app. split_and!; [by apply NoDup_filter| |by constructor].
      intros x Hx. apply list_elem_of_filter in Hx as [Hxb Hx]. rewrite elem_of_cons.
      intros [->|?]; [done|]. by eapply Hdisj.
    + apply Forall_app. split; [|constructor].
      * rewrite Forall_forall in *. intros x Hx. apply list_elem_of_filter in Hx as [_ Hx]. auto.
      * rewrite Forall_forall in Hf1. by apply Hf1.
      * done.
  - assert (Hfresh : nextBox m ∉ pool m ++ H).
    { intros Hin. rewrite Forall_forall in Hf. specialize (Hf _ Hin). simpl in Hf. lia. }
    split; [|split; [apply keeps_insert; set_solver|split; [done|set_solver]]]. split; simpl.
    + rewrite <- Permutation_middle. by constructor.
    + rewrite <- Permutation_middle. constructor; [lia|]. eapply Forall_impl; [done|]. simpl. lia.
Qed.

Lemma release_ok m b H :
  mem_ok m (b :: H) ->
  mem_ok (releaseFrameBuf m b) H /\ keeps m (releaseFrameBuf m b) H /\
  others (releaseFrameBuf m b) = others m.
Proof.
  intros [Hn Hf]. unfold releaseFrameBuf.
  assert (Hbh : b ∉ H). { apply NoDup_app in Hn as (_ & _ & Hn). by apply NoDup_cons in Hn as [? _]. }
  case_if.
  - rewrite <- Permutation_middle in Hn, Hf. apply NoDup_cons in Hn as [_ Hn].
    apply Forall_cons in Hf as [_ Hf]. split; [done|]. split; [by apply Forall_forall|done].
  - split; [|split; [by apply keeps_insert|done]]. split; simpl; rewrite <- app_assoc; done.
Qed.

Lemma keeps_refl m H : keeps m m H.
Proof. by apply Forall_forall. Qed.

Lemma keeps_trans m1 m2 m3 H : keeps m1 m2 H -> keeps m2 m3 H -> keeps m1 m3 H.
Proof.
  unfold keeps. rewrite !Forall_forall. intros H1 H2 b Hb. by rewrite H2, H1.
Qed.

Lemma keeps_sub m m' H H' : (forall b, b ∈ H' -> b ∈ H) -> keeps m m' H -> keeps m m' H'.
Proof. unfold keeps. rewrite !Forall_forall. auto. Qed.

Lemma keeps_concat m m' (q : list nat) : keeps m m' q -> concat (box_data m' <$> q) = concat (box_data m <$> q).
Proof. induction 1 as [|b q Hb _ IH]; [done|]. rewrite !fmap_cons. cbn [concat]. by rewrite Hb, IH. Qed.

(** ** The connection *)

Section facts.
Context {K : Type} `{RL : RecordLayer K}.
Implicit Types c : Conn K.

Definition left_box c : list nat := match cLeft c with Some (b, _) => [b] | None => [] end.
Definition flight_box c : list nat := match cFlight c with Some (b, _) => [b] | None => [] end.

(** The boxes a connection holds, and everything outside the pool. *)
Definition held c : list nat := left_box c ++ cIn c ++ flight_box c.
Definition holders m c : list nat := others m ++ held c.

Record conn_ok (m : Mem) c : Prop := {
  ck_mem : mem_ok m (holders m c);
  ck_left : forall b off, cLeft c = Some (b, off) -> (off < length (box_data m b))%nat;
  ck_queue : len (cIn c) <= inboundQueue;
}.

(** The bytes accepted and not yet read. *)
Definition pending_bytes (m : Mem) c : bytes := leftover m c ++ concat (box_data m <$> cIn c).

Lemma leftover_nil m c : conn_ok m c -> len (leftover m c) = 0 -> cLeft c = None.
Proof.
  intros Hok Hl. unfold leftover in Hl. destruct (cLeft c) as [[b off]|] eqn:Hc; [|done].
  pose proof (ck_left _ _ Hok _ _ Hc). rewrite length_drop in Hl. lia.
Qed.

Lemma keeps_pending m m' c : keeps m m' (held c) -> pending_bytes m' c = pending_bytes m c /\
  (forall b off, cLeft c = Some (b, off) -> box_data m' b = box_data m b).
Proof.
  intros Hk. unfold keeps, held, left_box in Hk. rewrite !Forall_app in Hk. destruct Hk as (H1 & H2 & _).
  assert (Hl : forall b off, cLeft c = Some (b, off) -> box_data m' b = box_data m b).
  { intros b off Hc. rewrite Hc in H1. rewrite Forall_singleton in H1. done. }
  split; [|done]. unfold pending_bytes. rewrite (keeps_concat m m') by done. f_equal.
  unfold leftover. destruct (cLeft c) as [[b off]|]; [|done]. by erewrite Hl.
Qed.

Lemma keeps_flight m m' c : keeps m m' (held c) -> keeps m m' (flight_box c).
Proof. apply keeps_sub. intros b ?. unfold held. rewrite !elem_of_app. auto. Qed.

(** A step that changes neither the connection's boxes nor who holds them. *)
Lemma conn_ok_keeps m m' c :
  conn_ok m c -> keeps m m' (held c) -> mem_ok m' (holders m' c) -> conn_ok m' c.
Proof.
  intros [? Hl ?] Hk Hm. constructor; [done| |done]. intros b off Hc.
  destruct (keeps_pending _ _ _ Hk) as [_ Hd]. rewrite (Hd _ _ Hc). by eapply Hl.
Qed.

(** Taking the head frame out of the queue and releasing it. *)
Lemma release_head m c b rest :
  conn_ok m c -> cIn c = b :: rest ->
  conn_ok (releaseFrameBuf m b) (set_in c rest) /\
  pending_bytes (releaseFrameBuf m b) (set_in c rest) = leftover m c ++ concat (box_data m <$> rest) /\
  keeps m (releaseFrameBuf m b) (flight_box c).
Proof.
  intros [Hm Hl Hq] Hin.
  assert (Hp : holders m c ≡ₚ b :: others m ++ held (set_in c rest)).
  { unfold holders, held, flight_box. simpl. rewrite Hin. change (left_box (set_in c rest)) with (left_box c).
    rewrite !app_assoc, <- !app_assoc. simpl.
    rewrite (app_assoc (others m)), (app_assoc (others m) (left_box c)). symmetry. apply Permutation_middle. }
  destruct (release_ok m b (others m ++ held (set_in c rest))) as (Hm' & Hk & Ho).
  { by eapply mem_ok_perm. }
  assert (Hkh : keeps m (releaseFrameBuf m b) (held (set_in c rest))).
  { eapply keeps_sub; [|done]. intros x ?. apply elem_of_app. by right. }
  destruct (keeps_pending _ _ _ Hkh) as [Hpend Hd].
  split; [|split; [by rewrite Hpend|by apply (keeps_flight _ _ _ Hkh)]].
  constructor.
  - unfold holders. by rewrite Ho.
  - intros b' off Hc. rewrite (Hd _ _ Hc). by eapply Hl.
  - simpl. rewrite Hin in Hq. simpl in Hq. lia.
Qed.

Lemma read_more_spec fuel m c size out :
  conn_ok m c -> len out <= size ->
  let '(m', c', out') := read_more fuel m c size out in
  conn_ok m' c' /\ out' ++ pending_bytes m' c' = out ++ pending_bytes m c /\
  len out <= len out' <= size /\
  cFlight c' = cFlight c /\ cKeys c' = cKeys c /\ cAad c' = cAad c /\ keeps m m' (flight_box c).
Proof.
  revert m c out. induction fuel as [|fuel IH]; intros m c out Hok Hlen; cbn [read_more].
  - split_and!; [done..|lia|lia|done|done|done|apply keeps_refl].
  - destruct ((len out <? size) && (len (leftover m c) =? 0)) eqn:Hcond;
      [|split_and!; [done..|lia|lia|done|done|done|apply keeps_refl]].
    bool_to_Prop. pose proof (leftover_nil m c Hok ltac:(done)) as Hleft.
    destruct (cIn c) as [|b rest] eqn:Hin; [split_and!; [done..|lia|lia|done|done|done|apply keeps_refl]|].
    set (data := box_data m b). set (chunk := take (Z.to_nat (size - len out)) data).
    assert (Hpend : pending_bytes m c = data ++ concat (box_data m <$> rest)).
    { unfold pending_bytes, leftover. rewrite Hleft, Hin. done. }
    assert (Hcl : len chunk <= size - len out) by (unfold chunk; rewrite length_take; lia).
    case_if.
    + assert (Hok' : conn_ok m (set_left (set_in c rest) (Some (b, length chunk)))).
      { destruct Hok as [Hm Hl Hq]. constructor.
        - eapply mem_ok_perm; [|exact Hm]. unfold holders, held, left_box, flight_box. simpl.
          rewrite Hleft, Hin. done.
        - simpl. intros b' off [= <- <-]. fold data. lia.
        - simpl. rewrite Hin in Hq. simpl in Hq. lia. }
      specialize (IH _ _ (out ++ chunk) Hok'). rewrite len_app in IH.
      destruct (read_more fuel _ _ _ _) as [[m' c'] out'].
      destruct IH as (? & He & ? & ? & ? & ? & ?); [lia|]. split_and!; try done; try lia.
      rewrite He, Hpend, <- app_assoc. f_equal.
      unfold pending_bytes, leftover. simpl. fold data. rewrite app_assoc. f_equal.
      unfold chunk. apply take_drop_length.
    + destruct (release_head m c b rest Hok Hin) as (Hok' & Hp' & Hkf).
      unfold leftover in Hp'. rewrite Hleft in Hp'. cbn [app] in Hp'.
      specialize (IH _ _ (out ++ chunk) Hok'). rewrite len_app in IH.
      destruct (read_more fuel _ _ _ _) as [[m' c'] out'].
      destruct IH as (? & He & ? & ? & ? & ? & Hkr); [lia|]. split_and!; try done; try lia;
        [|by eapply keeps_trans].
      rewrite He, Hpend, Hp', <- app_assoc. do 2 f_equal.
      unfold chunk. apply take_ge. unfold chunk in Heqb0. rewrite length_take in Heqb0. lia.
Qed.
End facts.

Section steps.
Context {K : Type} `{RL : RecordLayer K}.
Implicit Types c : Conn K.

(** The first copy of [Read]: from the buffer in hand, recycling it when it is
    used up. *)
Lemma consume_left m c b off size :
  mem_ok m (holders m c) -> len (cIn c) <= inboundQueue ->
  cLeft c = Some (b, off) -> (off <= length (box_data m b))%nat -> 0 <= size ->
  let chunk := take (Z.to_nat size) (leftover m c) in
  let r := recycleIfDrained m (set_left c (Some (b, off + length chunk)%nat)) in
  conn_ok r.1 r.2 /\ chunk ++ pending_bytes r.1 r.2 = pending_bytes m c /\
  cFlight r.2 = cFlight c /\ cKeys r.2 = cKeys c /\ cAad r.2 = cAad c /\ keeps m r.1 (flight_box c).
Proof.
  intros Hm Hq Hleft Hoff Hsize chunk r.
  assert (Hl : leftover m c = drop off (box_data m b)) by (unfold leftover; by rewrite Hleft).
  set (c1 := set_left c (Some (b, off + length chunk)%nat)) in *.
  assert (Hl1 : leftover m c1 = drop (length chunk) (leftover m c)).
  { rewrite Hl, drop_drop. done. }
  assert (Hchunk : chunk ++ leftover m c1 = leftover m c) by (rewrite Hl1; apply take_drop_length).
  assert (Hhold : holders m c1 = holders m c).
  { unfold holders, held, left_box, flight_box. simpl. by rewrite Hleft. }
  unfold r, recycleIfDrained. cbn [cLeft c1 set_left]. case_if; cbn [fst snd].
  - assert (Hperm : holders m c1 ≡ₚ b :: others m ++ held (set_left c1 None)).
    { unfold holders, held, left_box. simpl. symmetry. apply Permutation_middle. }
    destruct (release_ok m b (others m ++ held (set_left c1 None))) as (Hm' & Hk & Ho).
    { eapply mem_ok_perm; [exact Hperm|by rewrite Hhold]. }
    assert (Hkh : keeps m (releaseFrameBuf m b) (held (set_left c1 None))).
    { eapply keeps_sub; [|done]. intros x ?. apply elem_of_app. by right. }
    destruct (keeps_pending _ _ _ Hkh) as [Hpend _].
    split_and!; [constructor|..]; try done.
    + unfold holders. by rewrite Ho.
    + rewrite Hpend. unfold pending_bytes at 1. cbn [leftover cLeft set_left cIn c1 app].
      unfold pending_bytes. rewrite <- Hchunk.
      assert (leftover m c1 = []) as -> by (apply nil_length_inv; lia). by rewrite app_nil_r.
    + exact (keeps_flight _ _ _ Hkh).
  - split_and!; [constructor|..]; try done.
    + by rewrite Hhold.
    + intros b' off' [= <- <-]. rewrite Hl1, Hl, !length_drop in *. lia.
    + unfold pending_bytes. rewrite app_assoc, Hchunk. done.
    + apply keeps_refl.
Qed.

Lemma Read_spec m c size :
  conn_ok m c -> 0 <= size ->
  match Read m c size with
  | None => cIn c = [] /\ cDone c = false /\ pending_bytes m c = [] /\ size <> 0
  | Some (m', c', ReadEOF) => m' = m /\ c' = c /\ cIn c = [] /\ cDone c = true /\ pending_bytes m c = []
  | Some (m', c', ReadOk data) =>
      conn_ok m' c' /\ data ++ pending_bytes m' c' = pending_bytes m c /\ len data <= size /\
      cFlight c' = cFlight c /\ cKeys c' = cKeys c /\ cAad c' = cAad c /\ keeps m m' (flight_box c)
  end.
Proof.
  intros Hok Hsize. unfold Read. case_if; [split_and!; try done; apply keeps_refl|].
  destruct (len (leftover m c) =? 0) eqn:Hempty; bool_to_Prop.
  - pose proof (leftover_nil m c Hok Hempty) as Hleft. unfold takeFrame.
    assert (Hpend : pending_bytes m c = concat (box_data m <$> cIn c)).
    { unfold pending_bytes, leftover. by rewrite Hleft. }
    destruct (cIn c) as [|b rest] eqn:Hin.
    { destruct (cDone c) eqn:Hd; split_and!; try done. }
    set (c1 := set_left (set_in c rest) (Some (b, 0%nat))).
    destruct (consume_left m c1 b 0 size) as (Hok1 & Hp1 & Hf1 & Hk1 & Ha1 & Hkf1).
    { eapply mem_ok_perm; [|apply Hok]. unfold holders, held, left_box, flight_box. simpl.
      by rewrite Hleft, Hin. }
    { pose proof (ck_queue _ _ Hok). rewrite Hin in *. simpl in *. lia. }
    { done. } { lia. } { done. }
    assert (Hpc : pending_bytes m c1 = pending_bytes m c).
    { rewrite Hpend. unfold pending_bytes, leftover. simpl. by rewrite drop_0. }
    cbn [cLeft c1 set_left cFlight cKeys cAad set_in] in *.
    destruct (recycleIfDrained _ _) as [m1 c2]. cbn [fst snd] in *.
    pose proof (read_more_spec (length (cIn c2)) m1 c2 size (take (Z.to_nat size) (leftover m c1)) Hok1) as Hr.
    destruct (read_more _ _ _ _ _) as [[m' c'] out'].
    destruct Hr as (? & He & ? & ? & ? & ? & Hkr); [rewrite length_take; lia|].
    split_and!; [done| |lia|congruence..|]; [rewrite He, Hp1; done|].
    eapply keeps_trans; [exact Hkf1|]. unfold flight_box in *. by rewrite Hf1 in Hkr.
  - destruct (cLeft c) as [[b off]|] eqn:Hleft; [|unfold leftover in Hempty; rewrite Hleft in Hempty; done].
    destruct (consume_left m c b off size) as (Hok1 & Hp1 & Hf1 & Hk1 & Ha1 & Hkf1); try done.
    { apply Hok. } { apply Hok. } { pose proof (ck_left _ _ Hok _ _ Hleft). lia. }
    destruct (recycleIfDrained _ _) as [m1 c2]. cbn [fst snd] in *.
    pose proof (read_more_spec (length (cIn c2)) m1 c2 size (take (Z.to_nat size) (leftover m c)) Hok1) as Hr.
    destruct (read_more _ _ _ _ _) as [[m' c'] out'].
    destruct Hr as (? & He & ? & ? & ? & ? & Hkr); [rewrite length_take; lia|].
    split_and!; [done| |lia|congruence..|]; [rewrite He, Hp1; done|].
    eapply keeps_trans; [exact Hkf1|]. unfold flight_box in *. by rewrite Hf1 in Hkr.
Qed.

(** The plaintext a step puts into the queue. *)
Definition accepted (m : Mem) c (ev : mux_event) : bytes :=
  match ev, cFlight c with
  | MvSend, Some (b, true) => box_data m b
  | _, _ => []
  end.

Lemma release_flight m c b fl :
  conn_ok m c -> cFlight c = Some (b, fl) ->
  conn_ok (releaseFrameBuf m b) (set_flight c (cKeys c) None) /\
  pending_bytes (releaseFrameBuf m b) (set_flight c (cKeys c) None) = pending_bytes m c.
Proof.
  intros Hok Hf. set (c' := set_flight c (cKeys c) None).
  assert (Hp : holders m c ≡ₚ b :: others m ++ held c').
  { unfold holders, held, flight_box. simpl. rewrite Hf, app_nil_r.
    change (left_box c') with (left_box c). rewrite !app_assoc. symmetry. apply Permutation_cons_append. }
  destruct (release_ok m b (others m ++ held c')) as (Hm' & Hk & Ho).
  { eapply mem_ok_perm; [exact Hp|apply Hok]. }
  assert (Hkh : keeps m (releaseFrameBuf m b) (held c')).
  { eapply keeps_sub; [|done]. intros x ?. apply elem_of_app. by right. }
  destruct (keeps_pending _ _ _ Hkh) as [Hpend Hdl]. split; [|by rewrite Hpend].
  constructor; [unfold holders; by rewrite Ho| |apply Hok].
  intros b' off Hc. rewrite (Hdl _ _ Hc). by eapply (ck_left _ _ Hok).
Qed.

Lemma push_open_ok m c pick grow now ct :
  conn_ok m c -> cFlight c = None ->
  let r := push_open m c pick grow now ct in
  conn_ok r.1 r.2 /\ pending_bytes r.1 r.2 = pending_bytes m c.
Proof.
  intros Hok Hf. unfold push_open.
  destruct (acquire_ok m pick (holders m c) (ck_mem _ _ Hok)) as (Hm1 & Hk1 & Ho1 & Hfresh).
  destruct (acquireFrameBuf m pick) as [m1 b]. cbn [fst snd] in *.
  assert (Hheld : forall x, x ∈ held c -> x ∈ holders m c) by (intros x ?; apply elem_of_app; by right).
  destruct (rl_open (cKeys c) ct (cAad c)) as [k [pt|]]; cbn [fst snd].
  - set (m2 := set_box m1 b _). set (c' := set_flight c k (Some (b, false))).
    assert (Hk : keeps m m2 (held c)).
    { eapply keeps_trans; [by eapply keeps_sub|]. apply keeps_insert. auto. }
    destruct (keeps_pending _ _ _ Hk) as [Hpend Hdl]. split; [|exact Hpend].
    constructor; [|intros b' off Hc; rewrite (Hdl _ _ Hc); by eapply (ck_left _ _ Hok)|apply Hok].
    unfold holders. change (others m2) with (others m1). rewrite Ho1.
    eapply mem_ok_perm; [|exact Hm1]. unfold holders, held, flight_box. simpl. rewrite Hf, app_nil_r.
    change (left_box c') with (left_box c). rewrite !app_assoc. apply Permutation_cons_append.
  - destruct (release_ok m1 b (holders m c) Hm1) as (Hm2 & Hk2 & Ho2).
    assert (Hk : keeps m (releaseFrameBuf m1 b) (held c)).
    { eapply keeps_sub; [exact Hheld|]. by eapply keeps_trans. }
    destruct (keeps_pending _ _ _ Hk) as [Hpend Hdl].
    set (c' := (noteDecryptFailure _ _).1).
    assert (Hc' : cLeft c' = cLeft c /\ cIn c' = cIn c /\ cFlight c' = None).
    { unfold c', noteDecryptFailure. by repeat case_if. }
    destruct Hc' as (E1 & E2 & E3).
    assert (Hheld' : held c' = held c).
    { unfold held, left_box, flight_box. by rewrite E1, E2, E3, Hf. }
    split.
    + constructor.
      * unfold holders. rewrite Hheld', Ho2, Ho1. exact Hm2.
      * rewrite E1. intros b' off Hc. rewrite (Hdl _ _ Hc). by eapply (ck_left _ _ Hok).
      * rewrite E2. apply Hok.
    + rewrite <- Hpend. unfold pending_bytes, leftover. by rewrite E1, E2.
Qed.
End steps.
