(* ===== verification/MuxRuns.v ===== *)
(** * MuxRuns: what a connection guarantees in every interleaving *)

From S2P Require Import Prelude Bytes Crypto CryptoReplay CryptoRecord Muxconn MuxFacts.

Section runs.
Context {K : Type} `{RL : RecordLayer K}.
Implicit Types c : Conn K.

Lemma holders_disjoint m c b : conn_ok m c -> b ∈ others m -> b ∉ held c.
Proof.
  intros [[Hn _] _ _] Hb. apply NoDup_app in Hn as (_ & _ & Hn).
  apply NoDup_app in Hn as (_ & Hd & _). by apply Hd.
Qed.

(** The other users of the pool cannot disturb this connection. *)
Lemma others_step m c ev m' c' out :
  conn_ok m c -> mux_step m c ev = Some (m', c', out) ->
  match ev with MvOtherAcquire _ | MvOtherWrite _ _ | MvOtherRelease _ => True | _ => False end ->
  c' = c /\ out = [] /\ conn_ok m' c /\ pending_bytes m' c = pending_bytes m c /\
  keeps m m' (flight_box c).
Proof.
  intros Hok Hstep Hev.
  assert (Hfin : forall m2, keeps m m2 (held c) -> mem_ok m2 (holders m2 c) ->
            conn_ok m2 c /\ pending_bytes m2 c = pending_bytes m c /\ keeps m m2 (flight_box c)).
  { intros m2 Hk Hm2. split; [by eapply conn_ok_keeps|]. destruct (keeps_pending _ _ _ Hk).
    split; [done|by apply keeps_flight]. }
  assert (Hheld : forall x, x ∈ held c -> x ∈ holders m c) by (intros x ?; apply elem_of_app; by right).
  destruct ev as [| | | | | | | |pick|b x|b]; try done; cbn [mux_step] in Hstep.
  - destruct (acquire_ok m pick (holders m c) (ck_mem _ _ Hok)) as (Hm1 & Hk1 & Ho1 & _).
    destruct (acquireFrameBuf m pick) as [m1 b]. cbn [fst snd] in *.
    injection Hstep as <- <- <-.
    split; [done|]. split; [done|]. apply Hfin.
    + eapply keeps_sub; [exact Hheld|]. exact Hk1.
    + unfold holders. simpl. rewrite Ho1. exact Hm1.
  - case_bool_decide as Hb; [|done]. injection Hstep as <- <- <-. split; [done|]. split; [done|]. apply Hfin.
    + apply keeps_insert. by eapply holders_disjoint.
    + apply Hok.
  - case_bool_decide as Hb; [|done]. injection Hstep as <- <- <-. split; [done|]. split; [done|].
    set (m1 := MkMem _ _ _ _).
    assert (Hperm : holders m c ≡ₚ b :: holders m1 c).
    { unfold holders. simpl. rewrite app_comm_cons. apply Permutation_app; [|done].
      destruct (ck_mem _ _ Hok) as [Hn _]. apply NoDup_app in Hn as (_ & _ & Hn).
      apply NoDup_app in Hn as (Hn & _ & _). by apply filter_ne_perm. }
    destruct (release_ok m1 b (holders m1 c)) as (Hm2 & Hk2 & Ho2).
    { eapply (mem_ok_perm m1); [exact Hperm|]. apply Hok. }
    apply Hfin.
    + eapply keeps_sub; [|exact Hk2]. intros x ?. apply elem_of_app. by right.
    + unfold holders in *. by rewrite Ho2.
Qed.

Lemma mux_step_ok m c ev m' c' out :
  conn_ok m c -> mux_step m c ev = Some (m', c', out) ->
  (forall size, ev = MvRead size -> 0 <= size) ->
  conn_ok m' c' /\
  (ev <> MvDrain -> out ++ pending_bytes m' c' = pending_bytes m c ++ accepted m c ev).
Proof.
  intros Hok Hstep Hsize.
  destruct ev as [pick grow now ct| | | |size| | | |pick|b x|b];
    try (destruct (others_step m c _ m' c' out Hok Hstep I) as (-> & -> & Hok' & Hp & _);
         split; [done|]; intros _; rewrite Hp; cbn [accepted app]; by rewrite app_nil_r);
    cbn [mux_step] in Hstep.
  - destruct (cFlight c) eqn:Hf; [done|]. destruct (push_open_ok m c pick grow now ct Hok Hf) as [H1 H2].
    destruct (push_open _ _ _ _ _ _) as [m1 c1]. injection Hstep as <- <- <-. cbn [fst snd] in *.
    split; [done|]. intros _. rewrite H2. cbn [accepted app]. by rewrite app_nil_r.
  - unfold push_check in Hstep. cbn [accepted]. destruct (cFlight c) as [[b [|]]|] eqn:Hf; try done.
    destruct (cClosed c); injection Hstep as <- <- <-.
    + destruct (release_flight m c b false Hok Hf) as [H1 H2].
      split; [done|]. intros _. rewrite H2. cbn [app]. by rewrite app_nil_r.
    + assert (Hh : held (set_flight c (cKeys c) (Some (b, true))) = held c).
      { unfold held, flight_box. simpl. by rewrite Hf. }
      split; [|intros _; cbn [app]; by rewrite app_nil_r].
      destruct Hok. constructor; [unfold holders; by rewrite Hh|done|done].
  - unfold push_send in Hstep. cbn [accepted]. destruct (cFlight c) as [[b [|]]|] eqn:Hf; try done.
    destruct (len (cIn c) <? inboundQueue) eqn:Hroom; [|done]. injection Hstep as <- <- <-. bool_to_Prop.
    split.
    + destruct Hok as [Hm Hl Hq]. constructor; [|done|].
      * eapply mem_ok_perm; [|exact Hm]. unfold holders, held, flight_box. simpl.
        rewrite Hf, app_nil_r. done.
      * simpl. rewrite len_app. simpl. lia.
    + intros _. unfold pending_bytes. cbn [app cIn set_flight set_in].
      change (leftover m _) with (leftover m c) at 1. rewrite fmap_app, concat_app. simpl.
      by rewrite app_nil_r, app_assoc.
  - unfold push_abort in Hstep. cbn [accepted]. destruct (cFlight c) as [[b [|]]|] eqn:Hf; try done.
    destruct (cDone c); [|done]. injection Hstep as <- <- <-. destruct (release_flight m c b true Hok Hf) as [H1 H2].
    split; [done|]. intros _. rewrite H2. cbn [app]. by rewrite app_nil_r.
  - pose proof (Read_spec m c size Hok (Hsize _ eq_refl)) as Hr. cbn [accepted]. rewrite app_nil_r.
    destruct (Read m c size) as [[[m1 c1] [data|]]|]; [| |done]; injection Hstep as <- <- <-.
    + destruct Hr as (? & ? & _). auto.
    + destruct Hr as (-> & -> & _). auto.
  - injection Hstep as <- <- <-. split; [|intros _; cbn [accepted app]; by rewrite app_nil_r].
    destruct Hok. by constructor.
  - unfold close_chan in Hstep. destruct (cClosed c); [|done]. injection Hstep as <- <- <-.
    split; [|intros _; cbn [accepted app]; by rewrite app_nil_r]. destruct Hok. by constructor.
  - unfold drain_one in Hstep. destruct (cIn c) as [|b rest] eqn:Hin; [done|].
    destruct (cDone c); [|done]. injection Hstep as <- <- <-. split; [|done]. by apply (release_head m c b rest).
Qed.

(** A run from a fresh connection in any process: what was accepted and what was
    read, in order. *)
Inductive mux_run (m0 : Mem) (c0 : Conn K) : list mux_event -> bytes -> bytes -> Mem -> Conn K -> Prop :=
| mr_start : mux_run m0 c0 [] [] [] m0 c0
| mr_step evs ins outs m c ev m' c' out :
    mux_run m0 c0 evs ins outs m c -> mux_step m c ev = Some (m', c', out) ->
    (forall size, ev = MvRead size -> 0 <= size) ->
    mux_run m0 c0 (evs ++ [ev]) (ins ++ accepted m c ev) (outs ++ out) m' c'.

Lemma NewConn_ok m0 (keys : K) aad : mem_ok m0 (others m0) -> conn_ok m0 (NewConn keys aad).
Proof.
  intros H. constructor; [|done|simpl; unfold inboundQueue; lia].
  unfold holders, held, left_box, flight_box. simpl. by rewrite app_nil_r.
Qed.

Lemma mux_run_ok m0 c0 evs ins outs m c :
  conn_ok m0 c0 -> mux_run m0 c0 evs ins outs m c ->
  conn_ok m c /\ (MvDrain ∉ evs -> outs ++ pending_bytes m c = pending_bytes m0 c0 ++ ins).
Proof.
  intros H0 Hr. induction Hr as [|evs ins outs m c ev m' c' out Hr [IH1 IH2] Hs Hsz].
  - split; [done|]. intros _. by rewrite app_nil_r.
  - destruct (mux_step_ok _ _ _ _ _ _ IH1 Hs Hsz) as [H1 H2]. split; [done|]. intros Hd.
    rewrite elem_of_app, list_elem_of_singleton in Hd.
    rewrite <- app_assoc, H2, app_assoc, IH2, app_assoc; [done|naive_solver..].
Qed.

Lemma read_more_flags fuel m c size out :
  cClosed (read_more fuel m c size out).1.2 = cClosed c /\
  cDone (read_more fuel m c size out).1.2 = cDone c.
Proof.
  revert m c out. induction fuel as [|fuel IH]; intros m c out; [done|]. cbn [read_more].
  case_if; [|done]. destruct (cIn c); [done|]. case_if.
  - destruct (IH m (set_left (set_in c l) (Some (n, length (take (Z.to_nat (size - len out))
      (box_data m n))))) (out ++ take (Z.to_nat (size - len out)) (box_data m n))) as [-> ->]. done.
  - destruct (IH (releaseFrameBuf m n) (set_in c l) (out ++ take (Z.to_nat (size - len out))
      (box_data m n))) as [-> ->]. done.
Qed.

Lemma Read_flags m c size m' c' r :
  Read m c size = Some (m', c', r) -> cClosed c' = cClosed c /\ cDone c' = cDone c.
Proof.
  unfold Read. case_if; [intros; by simplify_eq|].
  assert (Hrest : forall c1, cClosed c1 = cClosed c -> cDone c1 = cDone c ->
    (let chunk := take (Z.to_nat size) (leftover m c1) in
     let c2 := match cLeft c1 with
               | Some (b, off) => set_left c1 (Some (b, off + length chunk)%nat)
               | None => c1
               end in
     let '(m3, c3) := recycleIfDrained m c2 in
     let '(m4, c4, out) := read_more (length (cIn c3)) m3 c3 size chunk in
     Some (m4, c4, ReadOk out)) = Some (m', c', r) -> cClosed c' = cClosed c /\ cDone c' = cDone c).
  { intros c1 H1 H2. cbv zeta.
    set (c2 := match cLeft c1 with Some (b, off) => set_left c1 _ | None => c1 end).
    assert (H3 : cClosed c2 = cClosed c /\ cDone c2 = cDone c) by (unfold c2; by destruct (cLeft c1) as [[]|]).
    assert (H4 : cClosed (recycleIfDrained m c2).2 = cClosed c /\ cDone (recycleIfDrained m c2).2 = cDone c).
    { unfold recycleIfDrained. destruct (cLeft c2) as [[]|]; [case_if|]; done. }
    destruct (recycleIfDrained m c2) as [m3 c3]. cbn [snd] in H4.
    pose proof (read_more_flags (length (cIn c3)) m3 c3 size (take (Z.to_nat size) (leftover m c1))) as H5.
    destruct (read_more _ _ _ _ _) as [[m4 c4] out]. cbn [fst snd] in H5. intros [= <- <- <-].
    destruct H4, H5. split; congruence. }
  case_if; [|by apply Hrest]. unfold takeFrame. destruct (cIn c) as [|b rest]; [destruct (cDone c) eqn:?|].
  - intros; by simplify_eq.
  - done.
  - by apply Hrest.
Qed.

(** Everything decrypted and not yet read, the buffer in [Push]'s hands
    included. *)
Definition flight_bytes (m : Mem) c : bytes := concat (box_data m <$> flight_box c).
Definition total_bytes (m : Mem) c : bytes := pending_bytes m c ++ flight_bytes m c.

(** The plaintext a step decrypts. *)
Definition opened c (ev : mux_event) : bytes :=
  match ev with
  | MvOpen _ _ _ ct => default [] (rl_open (cKeys c) ct (cAad c)).2
  | _ => []
  end.

Lemma push_open_flight m c pick grow now ct :
  flight_bytes (push_open m c pick grow now ct).1 (push_open m c pick grow now ct).2
    = default [] (rl_open (cKeys c) ct (cAad c)).2 /\
  cKeys (push_open m c pick grow now ct).2 = (rl_open (cKeys c) ct (cAad c)).1 /\
  cAad (push_open m c pick grow now ct).2 = cAad c /\
  cClosed (push_open m c pick grow now ct).2 = cClosed c /\
  cDone (push_open m c pick grow now ct).2 = cDone c.
Proof.
  unfold push_open. destruct (acquireFrameBuf m pick) as [m1 b].
  destruct (rl_open (cKeys c) ct (cAad c)) as [k [pt|]]; cbn [fst snd default].
  - unfold flight_bytes, flight_box, box_data. simpl. rewrite lookup_insert_eq. simpl.
    by rewrite app_nil_r.
  - unfold noteDecryptFailure. by repeat case_if.
Qed.

(** While the connection is open, nothing is lost, duplicated or reordered. *)
Lemma mux_step_total m c ev m' c' out :
  conn_ok m c -> cClosed c = false -> cDone c = false ->
  mux_step m c ev = Some (m', c', out) -> (forall size, ev = MvRead size -> 0 <= size) ->
  out ++ total_bytes m' c' = total_bytes m c ++ opened c ev /\
  cAad c' = cAad c /\ cDone c' = false /\
  (ev <> MvCloseFlag -> cClosed c' = false) /\
  cKeys c' = match ev with MvOpen _ _ _ ct => (rl_open (cKeys c) ct (cAad c)).1 | _ => cKeys c end.
Proof.
  intros Hok Hcl Hdn Hstep Hsize.
  destruct (mux_step_ok m c ev m' c' out Hok Hstep Hsize) as [_ Hp].
  assert (Hsame : ev <> MvDrain -> accepted m c ev = [] -> opened c ev = [] ->
            flight_box c' = flight_box c -> keeps m m' (flight_box c) ->
            out ++ total_bytes m' c' = total_bytes m c ++ opened c ev).
  { intros Hnd Ha Ho Hf Hk. unfold total_bytes. rewrite app_assoc, Hp, Ha, Ho by done.
    rewrite !app_nil_r. f_equal. unfold flight_bytes. rewrite Hf. by apply keeps_concat. }
  destruct ev as [pick grow now ct| | | |size| | | |pick|b x|b];
    try (destruct (others_step m c _ m' c' out Hok Hstep I) as (-> & _ & _ & _ & Hk);
         split_and!; try done; by apply Hsame); cbn [mux_step] in Hstep.
  - destruct (cFlight c) eqn:Hf; [done|].
    destruct (push_open_flight m c pick grow now ct) as (H1 & H2 & H3 & H4 & H5).
    destruct (push_open _ _ _ _ _ _) as [m1 c1]. injection Hstep as <- <- <-. cbn [fst snd] in *.
    split_and!; try congruence. unfold total_bytes. rewrite H1, app_assoc, Hp by done.
    cbn [accepted opened]. rewrite app_nil_r. f_equal.
    unfold flight_bytes, flight_box. rewrite Hf. by rewrite app_nil_r.
  - unfold push_check in Hstep. rewrite Hcl in Hstep. destruct (cFlight c) as [[b [|]]|] eqn:Hf; try done.
    injection Hstep as <- <- <-. split_and!; try done. apply Hsame; try done; [|apply keeps_refl].
    unfold flight_box. simpl. by rewrite Hf.
  - unfold push_send in Hstep. destruct (cFlight c) as [[b [|]]|] eqn:Hf; try done.
    destruct (len (cIn c) <? inboundQueue); [|done]. injection Hstep as <- <- <-.
    split_and!; try done. unfold total_bytes. rewrite app_assoc, Hp by done. cbn [accepted opened].
    unfold flight_bytes, flight_box. simpl. rewrite Hf. simpl. by rewrite !app_nil_r.
  - unfold push_abort in Hstep. rewrite Hdn in Hstep. by destruct (cFlight c) as [[b [|]]|].
  - pose proof (Read_spec m c size Hok (Hsize _ eq_refl)) as Hr.
    destruct (Read m c size) as [[[m1 c1] [data|]]|] eqn:HR; [| |done]; injection Hstep as <- <- <-.
    + destruct Hr as (_ & _ & _ & Hf & Hk & Ha & Hkf).
      destruct (Read_flags _ _ _ _ _ _ HR) as [Hc1 Hd1].
      split_and!; try congruence. apply Hsame; try done. unfold flight_box. by rewrite Hf.
    + destruct Hr as (-> & -> & _). split_and!; try done. apply Hsame; try done. apply keeps_refl.
  - injection Hstep as <- <- <-. split_and!; try done. apply Hsame; try done. apply keeps_refl.
  - unfold close_chan in Hstep. by rewrite Hcl in Hstep.
  - unfold drain_one in Hstep. rewrite Hdn in Hstep. by destruct (cIn c).
Qed.
End runs.

(** ** Properties *)

(** C7: a connection is a FIFO byte queue on buffers nobody else can touch.  In
    every interleaving of [Push] (step by step), [Read], [Close] and of the other
    users of the process-wide pool, who may overwrite any buffer they hold: no
    buffer is in the pool twice, or in the pool while the connection still holds
    it, or held by two parties; the queue stays within its capacity; and until
    [Close] drains it, the bytes read followed by the bytes still pending are the
    plaintexts queued, in order, whatever sizes [Read] was called with. *)
Theorem mux_stream_fifo {K : Type} `{RL : RecordLayer K} (m0 : Mem) (keys : K) (aad : bytes)
    (evs : list mux_event) (ins outs : bytes) (m : Mem) (c : Conn K)
    (Hm0 : mem_ok m0 (others m0))
    (Hrun : mux_run m0 (NewConn keys aad) evs ins outs m c) :
  NoDup (pool m ++ others m ++ held c) /\ len (cIn c) <= 128 /\
  (MvDrain ∉ evs -> outs ++ pending_bytes m c = ins).
Proof.
  destruct (mux_run_ok _ _ _ _ _ _ _ (NewConn_ok m0 keys aad Hm0) Hrun) as [Hok Hfifo].
  split_and!; [apply Hok|apply Hok|]. intros Hd. by rewrite (Hfifo Hd).
Qed.

(** The records a connection hands to its transport for a sequence of writes. *)
Fixpoint write_all {K} `{RL : RecordLayer K} (c : Conn K) (ps : list bytes) : Conn K * list (option bytes) :=
  match ps with
  | [] => (c, [])
  | p :: ps' =>
      let '(c1, rec, _) := Write c (Ok tt) true p in
      let '(c2, recs) := write_all c1 ps' in (c2, rec :: recs)
  end.

Lemma write_all_snoc {K} `{RL : RecordLayer K} (c : Conn K) ps p :
  write_all c (ps ++ [p]) =
    ((Write (write_all c ps).1 (Ok tt) true p).1.1,
     (write_all c ps).2 ++ [(Write (write_all c ps).1 (Ok tt) true p).1.2]).
Proof.
  revert c. induction ps as [|q ps IH]; intros c; cbn [app write_all fst snd].
  - destruct (Write c (Ok tt) true p) as [[c1 rec] r]. done.
  - destruct (Write c (Ok tt) true q) as [[c1 rec] r]. rewrite IH. by destruct (write_all c1 ps).
Qed.

Lemma write_all_aad {K} `{RL : RecordLayer K} (c : Conn K) ps : cAad (write_all c ps).1 = cAad c.
Proof.
  revert c. induction ps as [|q ps IH]; intros c; cbn [write_all]; [done|].
  pose proof (eq_refl (cAad (Write c (Ok tt) true q).1.1)) as He. revert He. unfold Write at 2.
  destruct (rl_seal (cKeys c) q (cAad c)) as [k [enc|]]; cbn [fst]; intros He;
    destruct (Write c (Ok tt) true q) as [[c1 rec] r]; cbn [fst] in He; specialize (IH c1);
    destruct (write_all c1 ps); cbn [fst] in *; simpl in He; congruence.
Qed.

Lemma Write_seals {K} `{RL : RecordLayer K} (c : Conn K) p k rec :
  rl_seal (cKeys c) p (cAad c) = (k, Some rec) ->
  (Write c (Ok tt) true p).1.2 = Some rec /\ cKeys (Write c (Ok tt) true p).1.1 = k.
Proof. intros H. unfold Write. by rewrite H. Qed.

(** The records handed to [Push], in order. *)
Definition pushed_records (evs : list mux_event) : list bytes :=
  omap (fun ev => match ev with MvOpen _ _ _ ct => Some ct | _ => None end) evs.

Section roundtrip.
Context {K : Type} `{RL : RecordLayer K} `{!RecordLaws K}.
Context (ks kr : K) (aad : bytes) (ps : list bytes) (m0 : Mem).
Hypothesis Hpair : rl_paired ks kr.
Hypothesis Hleft : len ps <= rl_left ks.
Hypothesis Hm0 : mem_ok m0 (others m0).

Let w : Conn K := NewConn ks aad.
Let recs : list (option bytes) := (write_all w ps).2.

(** Sender and receiver after [n] records. *)
Record in_sync (n : nat) (c : Conn K) (tot : bytes) : Prop := {
  is_bound : (n <= length ps)%nat;
  is_pair : rl_paired (cKeys (write_all w (take n ps)).1) (cKeys c);
  is_left : rl_left (cKeys (write_all w (take n ps)).1) = rl_left ks - Z.of_nat n;
  is_aad : cAad c = aad;
  is_bytes : tot = concat (take n ps);
}.

Lemma write_all_length (c : Conn K) l : length (write_all c l).2 = length l.
Proof.
  revert c. induction l as [|p l IH]; intros c; [done|]. cbn [write_all].
  destruct (Write c (Ok tt) true p) as [[c1 rec] r]. specialize (IH c1).
  destruct (write_all c1 l). simpl in *. lia.
Qed.

Lemma recs_lookup n p :
  ps !! n = Some p ->
  recs !! n = Some (Write (write_all w (take n ps)).1 (Ok tt) true p).1.2.
Proof.
  intros Hp. unfold recs.
  assert (Hd : ps = (take n ps ++ [p]) ++ drop (S n) ps).
  { by rewrite <- app_assoc, <- cons_middle, take_drop_middle. }
  rewrite Hd at 1. generalize (drop (S n) ps). intros rest.
  assert (Hpre : forall (c : Conn K) l l2, take (length l) (write_all c (l ++ l2)).2 = (write_all c l).2).
  { intros c l. revert c. induction l as [|q l IH]; intros c l2; [done|]. cbn [app write_all].
    destruct (Write c (Ok tt) true q) as [[c1 rec] r]. specialize (IH c1 l2).
    destruct (write_all c1 (l ++ l2)), (write_all c1 l). simpl in *. by rewrite IH. }
  specialize (Hpre w (take n ps ++ [p]) rest).
  assert (Hn : length (take n ps) = n) by (rewrite length_take; apply lookup_lt_Some in Hp; lia).
  rewrite <- (lookup_take_lt _ (length (take n ps ++ [p]))) by (rewrite length_app; simpl; lia).
  rewrite Hpre, write_all_snoc. cbn [snd].
  rewrite lookup_app_r by (rewrite write_all_length; lia).
  by rewrite write_all_length, Hn, Nat.sub_diag.
Qed.

Lemma in_sync_open n c tot ct :
  in_sync n c tot -> recs !! n = Some (Some ct) ->
  exists p, rl_open (cKeys c) ct (cAad c) = ((rl_open (cKeys c) ct (cAad c)).1, Some p) /\
    forall c', cKeys c' = (rl_open (cKeys c) ct (cAad c)).1 -> cAad c' = cAad c ->
      in_sync (S n) c' (tot ++ p).
Proof.
  intros [Hb Hp Hl Ha Ht] Hrec.
  assert (Hn : (n < length ps)%nat).
  { apply lookup_lt_Some in Hrec. unfold recs in Hrec. by rewrite write_all_length in Hrec. }
  destruct (lookup_lt_is_Some_2 ps n Hn) as [p Hpn]. pose proof (recs_lookup n p Hpn) as Hr.
  destruct (rl_next _ _ p aad Hp) as (ks' & rec & kr' & Hs & Ho & Hp' & Hl'); [lia|].
  assert (Haw : cAad (write_all w (take n ps)).1 = aad) by (by rewrite write_all_aad).
  destruct (Write_seals (write_all w (take n ps)).1 p ks' rec) as [Hw1 Hw2]; [by rewrite Haw|].
  rewrite Hw1, Hrec in Hr. assert (ct = rec) as -> by congruence. exists p. rewrite Ha, Ho. split; [done|].
  cbn [fst]. intros c' Hk Ha'. constructor; try done.
  - rewrite (take_S_r _ _ _ Hpn), write_all_snoc. cbn [fst]. by rewrite Hw2, Hk.
  - rewrite (take_S_r _ _ _ Hpn), write_all_snoc. cbn [fst]. rewrite Hw2. lia.
  - rewrite (take_S_r _ _ _ Hpn), concat_app, Ht. simpl. by rewrite app_nil_r.
Qed.

Lemma roundtrip_run evs ins outs m c :
  mux_run m0 (NewConn kr aad) evs ins outs m c ->
  MvCloseFlag ∉ evs ->
  Some <$> pushed_records evs = take (length (pushed_records evs)) recs ->
  cClosed c = false /\ cDone c = false /\
  in_sync (length (pushed_records evs)) c (outs ++ total_bytes m c).
Proof.
  intros Hr. induction Hr as [|evs ins outs m c ev m' c' out Hr IH Hs Hsz]; intros Hcl Hrec.
  - split_and!; [done..|]. constructor; simpl; try done; lia.
  - rewrite elem_of_app, list_elem_of_singleton in Hcl.
    unfold pushed_records in *. rewrite omap_app, fmap_app, length_app in *.
    set (old := omap _ evs) in *. set (new := omap _ [ev]) in *.
    assert (Hold : Some <$> old = take (length old) recs).
    { apply (f_equal (take (length old))) in Hrec.
      rewrite take_app_exact, take_take, Nat.min_l in Hrec by (rewrite ?length_fmap; lia). done. }
    destruct IH as (H1 & H2 & H3); [tauto|done|].
    destruct (mux_run_ok _ _ _ _ _ _ _ (NewConn_ok m0 kr aad Hm0) Hr) as [Hok _].
    destruct (mux_step_total m c ev m' c' out Hok H1 H2 Hs Hsz) as (Ht & Ha & Hd & Hc & Hk).
    split; [apply Hc; naive_solver|]. split; [done|]. rewrite <- app_assoc, Ht, app_assoc.
    destruct ev as [pick grow now ct| | | | | | | | | |];
      try (subst new; cbn [opened omap list_omap length]; rewrite Nat.add_0_r, app_nil_r;
           destruct H3; constructor; congruence).
    assert (Hct : recs !! length old = Some (Some ct)).
    { apply (f_equal (fun l => l !! length old)) in Hrec. subst new. simpl in Hrec.
      rewrite lookup_app_r, length_fmap, Nat.sub_diag in Hrec by (rewrite length_fmap; lia).
      rewrite lookup_take_lt in Hrec by lia. done. }
    destruct (in_sync_open _ _ _ _ H3 Hct) as (p & Hop & Hnext).
    cbn [opened]. rewrite Hop. cbn [snd default]. subst new. simpl length.
    rewrite Nat.add_1_r. apply Hnext; [by rewrite Hk|done].
Qed.
End roundtrip.

(** C8: the tunnel's byte stream round-trips through the record layer.  Take a
    writing and a reading connection over paired key sets; hand the records of
    the writes to the reader's [Push] in order, interleaved in any way with
    [Read]s of any sizes and with other users of the buffer pool: the bytes read,
    followed by those still inside the connection, are exactly the
    concatenation of the writes whose records have arrived. *)
Theorem mux_roundtrip {K : Type} `{RL : RecordLayer K} `{!RecordLaws K}
    (ks kr : K) (aad : bytes) (ps : list bytes) (m0 : Mem)
    (evs : list mux_event) (ins outs : bytes) (m : Mem) (c : Conn K)
    (Hpair : rl_paired ks kr) (Hleft : len ps <= rl_left ks) (Hm0 : mem_ok m0 (others m0))
    (Hrun : mux_run m0 (NewConn kr aad) evs ins outs m c) (Hopen : MvCloseFlag ∉ evs)
    (Hrecs : Some <$> pushed_records evs =
             take (length (pushed_records evs)) (write_all (NewConn ks aad) ps).2) :
  outs ++ total_bytes m c = concat (take (length (pushed_records evs)) ps).
Proof.
  destruct (roundtrip_run ks kr aad ps m0 Hpair Hleft Hm0 evs ins outs m c Hrun Hopen Hrecs)
    as (_ & _ & [_ _ _ _ He]). exact He.
Qed.

(** The record layer of [Crypto] implements the interface. *)
Definition opt {E A} (o : outcome E A) : option A := match o with Ok a => Some a | _ => None end.

#[export] Instance keyset_layer `{C : CipherSuite} : RecordLayer KeySet := {|
  rl_seal k pt aad := ((SealInto k [] [] pt aad).1, opt (SealInto k [] [] pt aad).2);
  rl_open k rec aad := ((OpenInto k [] rec aad).1, opt (OpenInto k [] rec aad).2);
|}.

#[export] Program Instance keyset_laws `{C : CipherSuite} `{L : !CipherLaws C} : RecordLaws KeySet := {|
  rl_paired := in_step;
  rl_left k := max_u64 - send_counter k;
|}.
Next Obligation.
  intros C L ks kr pt aad Hp Hl.
  destruct (seal_open_step ks kr pt aad Hp ltac:(lia)) as (rec & kr' & Hs & Ho & Hp').
  exists (set_counter ks (send_counter ks + 1)), rec, kr'.
  unfold rl_seal, rl_open, keyset_layer. unfold Seal in Hs. unfold Open in Ho. rewrite Hs, Ho.
  split_and!; [done..|]. simpl. lia.
Qed.

(** An in-memory instance of the interface, for the witness: a record is the
    plaintext. *)
Definition plain_layer : RecordLayer unit := {|
  rl_seal _ pt _ := (tt, Some pt);
  rl_open _ rec _ := (tt, Some rec);
|}.

Fixpoint run_mux {K} `{RL : RecordLayer K} (m : Mem) (c : Conn K) (evs : list mux_event)
  : option (bytes * bytes * Mem * Conn K) :=
  match evs with
  | [] => Some ([], [], m, c)
  | ev :: evs' =>
      match mux_step m c ev with
      | Some (m', c', out) =>
          match run_mux m' c' evs' with
          | Some (ins, outs, m2, c2) => Some (accepted m c ev ++ ins, out ++ outs, m2, c2)
          | None => None
          end
      | None => None
      end
  end.

Lemma run_mux_run {K} `{RL : RecordLayer K} m0 (c0 : Conn K) evs0 i0 o0 m c evs ins outs m' c' :
  mux_run m0 c0 evs0 i0 o0 m c -> run_mux m c evs = Some (ins, outs, m', c') ->
  Forall (fun ev => forall size, ev = MvRead size -> 0 <= size) evs ->
  mux_run m0 c0 (evs0 ++ evs) (i0 ++ ins) (o0 ++ outs) m' c'.
Proof.
  intros Hr H Hf. revert evs0 i0 o0 m c ins outs Hr H.
  induction Hf as [|ev evs Hev _ IH]; intros evs0 i0 o0 m c ins outs Hr H; cbn [run_mux] in H.
  - simplify_eq. by rewrite !app_nil_r.
  - destruct (mux_step m c ev) as [[[m1 c1] out]|] eqn:Hs; [|done].
    destruct (run_mux m1 c1 evs) as [[[[i2 o2] m2] c2]|] eqn:Hrun; [|done]. simplify_eq.
    rewrite cons_middle, !app_assoc. eapply IH; [|done]. by eapply mr_step.
Qed.

Definition toy_mem : Mem := MkMem ∅ [] [] 0.
Definition toy_mux_events : list mux_event :=
  [MvOpen None 0 0 [1; 2; 3]; MvCheck; MvSend; MvRead 2; MvOtherAcquire None;
   MvOpen (Some 0%nat) 0 0 [4]; MvOtherWrite 1 (MkBox [9; 9] 65536); MvCheck; MvSend; MvRead 5;
   MvOpen (Some 0%nat) 0 0 [5; 6]].

Lemma mux_stream_fifo_witness :
  exists m c, mux_run (RL := plain_layer) toy_mem (NewConn tt []) toy_mux_events [1; 2; 3; 4] [1; 2; 3; 4] m c /\
    NoDup (pool m ++ others m ++ held c) /\
    (MvDrain ∉ toy_mux_events -> [1; 2; 3; 4] ++ pending_bytes m c = [1; 2; 3; 4]).
Proof.
  destruct (run_mux (RL := plain_layer) toy_mem (NewConn tt []) toy_mux_events)
    as [[[[ins outs] m] c]|] eqn:Hrun; [|exfalso; revert Hrun; vm_compute; discriminate].
  assert (Hio : ins = [1; 2; 3; 4] /\ outs = [1; 2; 3; 4]).
  { revert Hrun. vm_compute. intros H. injection H as <- <- <- <-. done. }
  destruct Hio as [-> ->]. exists m, c.
  assert (Hr : mux_run (RL := plain_layer) toy_mem (NewConn tt []) toy_mux_events
                 [1; 2; 3; 4] [1; 2; 3; 4] m c).
  { apply (run_mux_run toy_mem _ [] [] [] _ _ _ _ _ _ _ (mr_start _ _) Hrun).
    repeat constructor; intros size Hs; try discriminate Hs; injection Hs as <-; lia. }
  assert (Hm : mem_ok toy_mem (others toy_mem)) by (split; constructor).
  destruct (mux_stream_fifo (RL := plain_layer) toy_mem tt [] toy_mux_events _ _ m c Hm Hr)
    as (H1 & _ & H2).
  split; [exact Hr|]. split; [exact H1|exact H2].
Defined.

(** Another one, whose sender has a budget of records. *)
Definition counted_layer : RecordLayer Z := {|
  rl_seal k pt _ := (k - 1, Some pt);
  rl_open k rec _ := (k, Some rec);
|}.

Lemma counted_laws : @RecordLaws Z counted_layer.
Proof.
  refine (@Build_RecordLaws Z counted_layer (fun _ _ => True) (fun k => k) _).
  intros ks kr pt aad _ _. exists (ks - 1), pt, kr. done.
Defined.

Lemma mux_roundtrip_witness :
  exists (outs : bytes) (m : Mem) (c : Conn Z),
    outs ++ total_bytes m c = concat (take 3 [[1; 2; 3]; [4]; [5; 6]; [7]]).
Proof.
  destruct (run_mux (RL := counted_layer) toy_mem (NewConn 10 []) toy_mux_events)
    as [[[[ins outs] m] c]|] eqn:Hrun; [|exfalso; revert Hrun; vm_compute; discriminate].
  exists outs, m, c.
  apply (@mux_roundtrip Z counted_layer counted_laws 10 10 [] [[1; 2; 3]; [4]; [5; 6]; [7]] toy_mem
    toy_mux_events ins outs m c).
  - exact I.
  - vm_compute. discriminate.
  - split; constructor.
  - apply (run_mux_run toy_mem _ [] [] [] _ _ _ _ _ _ _ (mr_start _ _) Hrun).
    repeat constructor; intros size Hs; try discriminate Hs; injection Hs as <-; lia.
  - unfold toy_mux_events. intros H.
    repeat (apply elem_of_cons in H as [H|H]; [discriminate H|]). apply elem_of_nil in H. destruct H.
  - reflexivity.
Defined.

Lemma read_more_prefix {K} (fuel : nat) (m : Mem) (c : Conn K) (size : Z) (out : bytes) :
  exists more, (read_more fuel m c size out).2 = out ++ more.
Proof.
  revert m c out. induction fuel as [|fuel IH]; intros m c out; cbn [read_more].
  - exists []. by rewrite app_nil_r.
  - case_if; [|exists []; by rewrite app_nil_r]. destruct (cIn c) as [|b rest];
      [exists []; by rewrite app_nil_r|].
    case_if; (edestruct IH as [more He]; rewrite He, <- app_assoc; eauto).
Qed.

(** A [Read] that returns nothing met an empty record. *)
Lemma Read_empty {K} `{RL : RecordLayer K} (m : Mem) (c : Conn K) size m' c' :
  0 < size -> Read m c size = Some (m', c', ReadOk []) ->
  exists b rest, cIn c = b :: rest /\ box_data m b = [].
Proof.
  intros Hsize Hread. unfold Read in Hread. case_if; [lia|].
  assert (Hcut : forall (l : bytes), take (Z.to_nat size) l = [] -> l = []).
  { intros [|x l] H; [done|]. destruct (Z.to_nat size) eqn:?; [lia|done]. }
  destruct (len (leftover m c) =? 0) eqn:Hz; bool_to_Prop.
  - unfold takeFrame in Hread. destruct (cIn c) as [|b rest] eqn:Hin; [by destruct (cDone c)|].
    exists b, rest. split; [done|].
    destruct (recycleIfDrained _ _) as [m1 c1].
    destruct (read_more_prefix (length (cIn c1)) m1 c1 size
      (take (Z.to_nat size) (leftover m (set_left (set_in c rest) (Some (b, 0%nat)))))) as [more He].
    destruct (read_more _ _ _ _ _) as [[m2 c2] out]. injection Hread as _ _ ->.
    cbn [snd] in He. symmetry in He. apply app_nil in He as [He _]. apply Hcut in He.
    unfold leftover in He. simpl in He. by rewrite drop_0 in He.
  - destruct (recycleIfDrained _ _) as [m1 c1].
    destruct (read_more_prefix (length (cIn c1)) m1 c1 size (take (Z.to_nat size) (leftover m c)))
      as [more He].
    destruct (read_more _ _ _ _ _) as [[m2 c2] out]. injection Hread as _ _ ->.
    cbn [snd] in He. symmetry in He. apply app_nil in He as [He _]. apply Hcut in He.
    rewrite He in Hz. done.
Qed.

Lemma fast_spin_ready polls :
  fast_spin polls = Some (Ok tt) -> exists q, q ∈ polls /\ pClosed q = false /\ pCanSend q = true.
Proof.
  induction polls as [|q l IH]; [done|]. cbn [fast_spin]. case_if; [done|]. case_if.
  - intros _. exists q. split; [left|done].
  - intros H. destruct (IH H) as (q' & ? & ?). exists q'. split; [by right|done].
Qed.

Lemma slow_poll_ready script :
  slow_poll script = Some (Ok tt) ->
  exists q w, (q, w) ∈ script /\ pClosed q = false /\ pCanSend q = true.
Proof.
  induction script as [|[q w] script IH]; [done|]. cbn [slow_poll]. case_if; [done|]. case_if.
  - intros _. exists q, w. split; [left|done].
  - destruct w; [done..|]. intros H. destruct (IH H) as (q' & w & ? & ?). exists q', w.
    split; [by right|done].
Qed.

(** The contract of [Read] and of the wait before a write.  On any state a
    connection can reach, a [Read] into a non-empty buffer blocks only while
    nothing is pending and the connection is open, reports end-of-file only when
    it is closed and nothing is left, and otherwise returns at most the buffer's
    size, a prefix of what is pending, and at least one byte unless the next
    record was empty, in which case it can return zero bytes and no error.  A
    write goes ahead only on a poll that saw the connection open and the
    transport ready; otherwise nothing is sealed, so no counter is used. *)
Theorem mux_read_contract {K : Type} `{RL : RecordLayer K} (m : Mem) (c : Conn K) (size : Z)
    (p : bytes) (polls : list poll) (script : list (poll * wake)) (r : outcome write_error unit)
    (Hok : conn_ok m c) (Hsize : 0 < size) (Hwait : waitSendReady polls script = Some r) :
  match Read m c size with
  | None => cDone c = false /\ pending_bytes m c = []
  | Some (_, _, ReadEOF) => cDone c = true /\ pending_bytes m c = []
  | Some (m', c', ReadOk data) =>
      len data <= size /\ data ++ pending_bytes m' c' = pending_bytes m c /\
      (data = [] -> exists b rest, cIn c = b :: rest /\ box_data m b = [])
  end /\
  (r = Ok tt -> exists poll, pClosed poll = false /\ pCanSend poll = true /\
     (poll ∈ polls \/ exists w, (poll, w) ∈ script)) /\
  (r <> Ok tt -> (Write c r true p).1 = (c, None)).
Proof.
  split; [|split].
  - pose proof (Read_spec m c size Hok ltac:(lia)) as Hr.
    destruct (Read m c size) as [[[m' c'] [data|]]|] eqn:Hread; [|naive_solver..].
    destruct Hr as (_ & ? & ? & _). split_and!; [done..|]. intros ->. by eapply Read_empty.
  - intros ->. unfold waitSendReady in Hwait.
    destruct (fast_spin (take 16 polls)) as [r'|] eqn:Hf.
    + simplify_eq. destruct (fast_spin_ready _ Hf) as (q & Hq & ? & ?). exists q.
      split_and!; [done..|]. left. rewrite <- (take_drop 16 polls). apply elem_of_app. by left.
    + destruct (slow_poll_ready _ Hwait) as (q & w & ? & ? & ?). eauto 6.
  - intros Hne. destruct r as [[]|e|]; [done|done|done].
Qed.

Lemma mux_read_contract_witness :
  let m := MkMem {[0%nat := MkBox [] 65536]} [] [] 1 in
  let c := set_in (NewConn tt []) [0%nat] in
  conn_ok m c /\ Read m c 5 = Some (releaseFrameBuf m 0, set_in c [], ReadOk []) /\
  (exists b rest, cIn c = b :: rest /\ box_data m b = []).
Proof.
  intros m c.
  assert (Hok : conn_ok m c).
  { constructor; [|done|simpl; unfold inboundQueue; lia]. split; simpl; repeat constructor. set_solver. }
  assert (Hr : Read m c 5 = Some (releaseFrameBuf m 0, set_in c [], ReadOk [])) by reflexivity.
  split; [exact Hok|]. split; [exact Hr|].
  pose proof (mux_read_contract (RL := plain_layer) m c 5 [1] [MkPoll true false] [] (Err WErrClosed)
    Hok ltac:(lia) eq_refl) as H.
  rewrite Hr in H. apply H. reflexivity.
Defined.
