(* ===== verification/Control.v ===== *)
(** * Control: the liveness protocol of the control stream
    (internal/control/control.go)

    Three goroutines share [state] under its mutex: the probe loop calls
    [sendProbe] on every tick, the read loop [handleReadMessage] on every
    message, the write loop drains [out].  Each call is one step here; times are
    the readings of [s.now()], in nanoseconds on the monotonic clock.  JSON is
    the pair [marshal], [unmarshal]. *)

From S2P Require Import Prelude Bytes Framing.

(* go: control/control.go 24-25 ProtoVersion *)
Definition CtlProtoVersion : Z := 1.
(* go: control/control.go 26-27 MaxMessageSize *)
Definition CtlMaxMessageSize : Z := 16 * 1024.
(* go: control/control.go 28-29 DefaultInterval *)
Definition DefaultInterval : Z := 10 * 1000000000.
(* go: control/control.go 30-41 DefaultTimeout *)
Definition DefaultTimeout : Z := 15 * 1000000000.
(* go: control/control.go 42-44 DefaultFailures *)
Definition DefaultFailures : Z := 4.

(* go: control/control.go 50-57 TypePing *)
Definition TypePing : string := "CONTROL_PING".
(* go: control/control.go 50-57 TypePong *)
Definition TypePong : string := "CONTROL_PONG".
(* go: control/control.go 50-57 TypeClose *)
Definition TypeClose : string := "CONTROL_CLOSE".

(* go: control/control.go 59-70 Err* *)
Inductive ctl_error :=
| ErrUnhealthy (missed : Z)
| ErrClosedByPeer
| ErrCtlVersion (got : Z)
| ErrCtlUnexpected (got : string)
| ErrCtlParse
| ErrCtlFraming (e : framing_error)
| ErrCanceled.

(* go: control/control.go 72-78 Message *)
Record Message := MkMessage {
  cmVersion : Z;
  cmType : string;
  cmSeq : Z;
  cmSent : Z;
}.

(* go: control/control.go 80-85 Health *)
Record Health := MkHealth { hSeq : Z; hRTT : Z; hLastSeen : Z }.

(* go: control/control.go 99-111 Config *)
Record CtlConfig := MkCtlConfig {
  ccInterval : Z;
  ccTimeout : Z;
  ccFailures : Z;
}.

(* go: control/control.go 113-124 withDefaults *)
Definition ctl_withDefaults (cfg : CtlConfig) : CtlConfig :=
  MkCtlConfig
    (if ccInterval cfg <=? 0 then DefaultInterval else ccInterval cfg)
    (if ccTimeout cfg <=? 0 then DefaultTimeout else ccTimeout cfg)
    (if ccFailures cfg <=? 0 then DefaultFailures else ccFailures cfg).

(** [out] is the channel of 16 messages. *)
(* go: control/control.go 158-169 state *)
Record ctl_state := MkCtl {
  ctlCfg : CtlConfig;
  ctlPending : gmap Z Z;
  ctlNextSeq : Z;
  ctlFailures : Z;
  ctlOut : list Message;
}.

(* go: control/control.go 128-139 Run *)
Definition ctl_start (cfg : CtlConfig) : ctl_state := MkCtl (ctl_withDefaults cfg) ∅ 0 0 [].

(** The callbacks a step makes. *)
Inductive ctl_call := OnPong (h : Health) | OnMissedPong (missed : Z) | OnUnhealthy (missed : Z).

(** [canceled]: the context is done and the select takes that case; [None] while
    the channel is full and it does not. *)
(* go: control/control.go 299-306 enqueue *)
Definition ctl_enqueue (s : ctl_state) (canceled : bool) (msg : Message)
  : option (outcome ctl_error ctl_state) :=
  if canceled then Some (Err ErrCanceled)
  else if len (ctlOut s) <? 16
  then Some (Ok (MkCtl (ctlCfg s) (ctlPending s) (ctlNextSeq s) (ctlFailures s) (ctlOut s ++ [msg])))
  else None.

(** The pings of the pending map that have timed out at [now]. *)
Definition overdue (s : ctl_state) (now : Z) : gmap Z Z :=
  filter (fun p => ccTimeout (ctlCfg s) <= now - p.2) (ctlPending s).

(** The critical section: expire, count, and either give up or register the next
    ping.  The result is the ping to enqueue, with the callbacks. *)
(* go: control/control.go 237-268 sendProbe *)
Definition probe_section (s : ctl_state) (now : Z)
  : ctl_state * list ctl_call * outcome ctl_error Message :=
  let missedNow := Z.of_nat (size (overdue s now)) in
  let pending := filter (fun p => ~ ccTimeout (ctlCfg s) <= now - p.2) (ctlPending s) in
  let missed := ctlFailures s + missedNow in
  let note := if 0 <? missedNow then [OnMissedPong missed] else [] in
  if ccFailures (ctlCfg s) <=? missed then
    (MkCtl (ctlCfg s) pending (ctlNextSeq s) missed (ctlOut s),
     note ++ [OnUnhealthy missed], Err (ErrUnhealthy missed))
  else
    let seq := u64 (ctlNextSeq s + 1) in
    (MkCtl (ctlCfg s) (<[seq := now]> pending) seq missed (ctlOut s), note,
     Ok (MkMessage CtlProtoVersion TypePing seq now)).

(* go: control/control.go 237-276 sendProbe *)
Definition sendProbe (s : ctl_state) (now : Z) (canceled : bool)
  : option (ctl_state * list ctl_call * outcome ctl_error unit) :=
  let '(s1, calls, r) := probe_section s now in
  match r with
  | Ok ping =>
      match ctl_enqueue s1 canceled ping with
      | None => None
      | Some (Ok s2) => Some (s2, calls, Ok tt)
      | Some (Err e) => Some (s1, calls, Err e)
      | Some Panic => Some (s1, calls, Panic)
      end
  | Err e => Some (s1, calls, Err e)
  | Panic => Some (s1, calls, Panic)
  end.

(* go: control/control.go 278-297 handlePong *)
Definition handlePong (s : ctl_state) (now : Z) (msg : Message) : ctl_state * list ctl_call :=
  match ctlPending s !! cmSeq msg with
  | None => (s, [])
  | Some sent =>
      (MkCtl (ctlCfg s) (delete (cmSeq msg) (ctlPending s)) (ctlNextSeq s) 0 (ctlOut s),
       [OnPong (MkHealth (cmSeq msg) (now - sent) now)])
  end.

(* go: control/control.go 208-219 enqueuePong *)
Definition enqueuePong (s : ctl_state) (canceled : bool) (ping : Message)
  : option (outcome ctl_error ctl_state) :=
  ctl_enqueue s canceled (MkMessage CtlProtoVersion TypePong (cmSeq ping) (cmSent ping)).

(* go: control/control.go 194-206 handleReadMessage *)
Definition handleReadMessage (s : ctl_state) (now : Z) (canceled : bool) (msg : Message)
  : option (ctl_state * list ctl_call * outcome ctl_error unit) :=
  if bool_decide (cmType msg = TypePing) then
    match enqueuePong s canceled msg with
    | None => None
    | Some (Ok s') => Some (s', [], Ok tt)
    | Some (Err e) => Some (s, [], Err e)
    | Some Panic => Some (s, [], Panic)
    end
  else if bool_decide (cmType msg = TypePong) then
    let '(s', calls) := handlePong s now msg in Some (s', calls, Ok tt)
  else if bool_decide (cmType msg = TypeClose) then Some (s, [], Err ErrClosedByPeer)
  else Some (s, [], Err (ErrCtlUnexpected (cmType msg))).

Section wire.
Context (marshal : Message -> option bytes) (unmarshal : bytes -> option Message).

(* go: control/control.go 324-337 parseMessage *)
Definition parseMessage (raw : bytes) : outcome ctl_error Message :=
  match unmarshal raw with
  | None => Err ErrCtlParse
  | Some msg =>
      if negb (cmVersion msg =? CtlProtoVersion) then Err (ErrCtlVersion (cmVersion msg))
      else if negb (bool_decide (cmType msg = TypePing)) && negb (bool_decide (cmType msg = TypePong))
              && negb (bool_decide (cmType msg = TypeClose))
      then Err (ErrCtlUnexpected (cmType msg))
      else Ok msg
  end.

(* go: control/control.go 344-349 writeFrame *)
Definition ctl_writeFrame (w : writer) (msg : Message) : writer * outcome ctl_error unit :=
  match WriteJSON marshal w msg CtlMaxMessageSize with
  | (w', Ok _) => (w', Ok tt)
  | (w', Err e) => (w', Err (ErrCtlFraming e))
  | (w', Panic) => (w', Panic)
  end.

(* go: control/control.go 339-342 SendClose *)
Definition SendClose (w : writer) : writer * outcome ctl_error unit :=
  ctl_writeFrame w (MkMessage CtlProtoVersion TypeClose 0 0).

(* go: control/control.go 351-357 readFrame *)
Definition ctl_readFrame (r : bytes) : bytes * outcome ctl_error bytes :=
  match ReadBytes r CtlMaxMessageSize with
  | (r', Ok body) => (r', Ok body)
  | (r', Err e) => (r', Err (ErrCtlFraming e))
  | (r', Panic) => (r', Panic)
  end.

(** One round of the read loop on the stream [r]. *)
(* go: control/control.go 171-192 readLoop *)
Definition read_round (s : ctl_state) (now : Z) (canceled : bool) (r : bytes)
  : option (ctl_state * bytes * list ctl_call * outcome ctl_error unit) :=
  match ctl_readFrame r with
  | (r', Ok raw) =>
      match parseMessage raw with
      | Ok msg =>
          match handleReadMessage s now canceled msg with
          | None => None
          | Some (s', calls, res) => Some (s', r', calls, res)
          end
      | Err e => Some (s, r', [], Err e)
      | Panic => Some (s, r', [], Panic)
      end
  | (r', Err e) => Some (s, r', [], Err (if canceled then ErrCanceled else e))
  | (r', Panic) => Some (s, r', [], Panic)
  end.

(** One round of the write loop; [picked] is whether the select takes the done
    case, [canceled] the state of the context after a failed write. *)
(* go: control/control.go 308-322 writeLoop *)
Definition write_round (s : ctl_state) (picked canceled : bool) (w : writer)
  : option (ctl_state * writer * outcome ctl_error unit) :=
  if picked then Some (s, w, Err ErrCanceled)
  else match ctlOut s with
  | [] => None
  | msg :: rest =>
      let s' := MkCtl (ctlCfg s) (ctlPending s) (ctlNextSeq s) (ctlFailures s) rest in
      match ctl_writeFrame w msg with
      | (w', Ok _) => Some (s', w', Ok tt)
      | (w', Err e) => Some (s', w', Err (if canceled then ErrCanceled else e))
      | (w', Panic) => Some (s', w', Panic)
      end
  end.
End wire.

(** ** What is proved: soundness and completeness of the liveness verdict *)

(** What happened, in order: a ping registered, a ping that timed out, a ping
    answered. *)
Inductive beat := BSent (seq t : Z) | BMissed (seq t : Z) | BPong (seq t : Z).

Inductive ctl_event := CvProbe (now : Z) | CvMessage (now : Z) (msg : Message).

Definition probe_beats (s : ctl_state) (now : Z) : list beat :=
  ((fun p => BMissed p.1 now) <$> map_to_list (overdue s now)) ++
  match (probe_section s now).2 with
  | Ok ping => [BSent (cmSeq ping) now]
  | _ => []
  end.

Definition pong_beats (s : ctl_state) (now : Z) (msg : Message) : list beat :=
  match ctlPending s !! cmSeq msg with Some _ => [BPong (cmSeq msg) now] | None => [] end.

(** The history of a run up to a point where the probe loop has not given up. *)
Inductive ctl_run (cfg : CtlConfig) : list beat -> ctl_state -> Prop :=
| cr_start : ctl_run cfg [] (ctl_start cfg)
| cr_probe tr s now s' calls ping :
    ctl_run cfg tr s -> probe_section s now = (s', calls, Ok ping) ->
    ctl_run cfg (tr ++ probe_beats s now) s'
| cr_pong tr s now msg :
    ctl_run cfg tr s -> ctl_run cfg (tr ++ pong_beats s now msg) (handlePong s now msg).1
| cr_out tr s out :
    ctl_run cfg tr s ->
    ctl_run cfg tr (MkCtl (ctlCfg s) (ctlPending s) (ctlNextSeq s) (ctlFailures s) out).

(** Pings missed since the last answered one. *)
Fixpoint streak (acc : Z) (tr : list beat) : Z :=
  match tr with
  | [] => acc
  | BMissed _ _ :: tr' => streak (acc + 1) tr'
  | BPong _ _ :: tr' => streak 0 tr'
  | BSent _ _ :: tr' => streak acc tr'
  end.

Definition is_sent (b : beat) : bool := match b with BSent _ _ => true | _ => false end.
Definition sent_count (tr : list beat) : nat := length (filter (fun b => is_sent b = true) tr).

Lemma streak_app acc tr tr' : streak acc (tr ++ tr') = streak (streak acc tr) tr'.
Proof. revert acc. induction tr as [|[] tr IH]; intros acc; simpl; auto. Qed.

Lemma streak_missed acc (l : list (Z * Z)) now :
  streak acc ((fun p => BMissed p.1 now) <$> l) = acc + len l.
Proof. revert acc. induction l as [|p l IH]; intros acc; simpl; [lia|]. rewrite IH. lia. Qed.

(** The invariant of a run. *)
Record ctl_ok (cfg : CtlConfig) (tr : list beat) (s : ctl_state) : Prop := {
  co_cfg : ctlCfg s = ctl_withDefaults cfg;
  co_failures : ctlFailures s = streak 0 tr;
  co_next : ctlNextSeq s = Z.of_nat (sent_count tr);
  co_seqs : forall q t, (BSent q t ∈ tr \/ BMissed q t ∈ tr \/ BPong q t ∈ tr) -> 1 <= q <= ctlNextSeq s;
  co_pending : forall q t, ctlPending s !! q = Some t ->
    BSent q t ∈ tr /\ forall t', BMissed q t' ∉ tr /\ BPong q t' ∉ tr;
  co_missed : forall q t, BMissed q t ∈ tr ->
    (exists t0, BSent q t0 ∈ tr /\ ccTimeout (ctlCfg s) <= t - t0) /\ forall t', BPong q t' ∉ tr;
}.

Lemma probe_section_ok s now s' calls ping :
  probe_section s now = (s', calls, Ok ping) ->
  ctlCfg s' = ctlCfg s /\ ctlFailures s' = ctlFailures s + Z.of_nat (size (overdue s now)) /\
  ctlNextSeq s' = u64 (ctlNextSeq s + 1) /\ cmSeq ping = ctlNextSeq s' /\
  ctlPending s' = <[ctlNextSeq s' := now]>
    (filter (fun p => ~ ccTimeout (ctlCfg s) <= now - p.2) (ctlPending s)) /\
  ctlFailures s' < ccFailures (ctlCfg s).
Proof.
  unfold probe_section. case_if; [done|]. intros [= <- <- <-]. simpl. done.
Qed.

Lemma overdue_lookup s now q t :
  overdue s now !! q = Some t <-> ctlPending s !! q = Some t /\ ccTimeout (ctlCfg s) <= now - t.
Proof. unfold overdue. by rewrite map_lookup_filter_Some. Qed.

Lemma probe_beats_elem s now b :
  b ∈ probe_beats s now <->
  (exists q t, b = BMissed q now /\ overdue s now !! q = Some t) \/
  (exists ping, (probe_section s now).2 = Ok ping /\ b = BSent (cmSeq ping) now).
Proof.
  unfold probe_beats. rewrite elem_of_app, list_elem_of_fmap. split.
  - intros [([q t] & -> & Hin)|Hb]; [left|right].
    + apply elem_of_map_to_list in Hin. eauto.
    + destruct (probe_section s now).2 as [ping|e|]; [|by apply elem_of_nil in Hb..].
      apply list_elem_of_singleton in Hb. eauto.
  - intros [(q & t & -> & Hq)|(ping & Hp & ->)]; [left|right].
    + exists (q, t). split; [done|]. by apply elem_of_map_to_list.
    + rewrite Hp. by apply list_elem_of_singleton.
Qed.

Lemma sent_count_app tr tr' : sent_count (tr ++ tr') = (sent_count tr + sent_count tr')%nat.
Proof. unfold sent_count. by rewrite filter_app, length_app. Qed.

Lemma sent_count_probe s now s' calls ping :
  probe_section s now = (s', calls, Ok ping) -> sent_count (probe_beats s now) = 1%nat.
Proof.
  intros H. unfold probe_beats. rewrite H. cbn [snd]. rewrite sent_count_app.
  assert (Hz : forall l : list (Z * Z), sent_count ((fun p => BMissed p.1 now) <$> l) = 0%nat).
  { induction l as [|p l IH]; [done|]. unfold sent_count in *. rewrite fmap_cons, filter_cons_False by done. done. }
  rewrite Hz. done.
Qed.

Lemma ctl_ok_probe cfg tr s now s' calls ping :
  ctl_ok cfg tr s -> Z.of_nat (sent_count tr) < max_u64 ->
  probe_section s now = (s', calls, Ok ping) -> ctl_ok cfg (tr ++ probe_beats s now) s'.
Proof.
  intros [Hcfg Hf Hn Hs Hp Hm] Hlt Hsec.
  destruct (probe_section_ok _ _ _ _ _ Hsec) as (E1 & E2 & E3 & E4 & E5 & _).
  assert (Hnx : ctlNextSeq s' = ctlNextSeq s + 1).
  { rewrite E3. apply u64_small. unfold max_u64 in Hlt. lia. }
  assert (Hbeat : forall b, b ∈ probe_beats s now <->
    (exists q t, b = BMissed q now /\ overdue s now !! q = Some t) \/ b = BSent (ctlNextSeq s') now).
  { intros b. rewrite probe_beats_elem, Hsec, <- E4. cbn [snd].
    split; (intros [H|H]; [by left|right]); [by destruct H as (? & [= <-] & ->)|eauto]. }
  assert (Hold : forall q t, overdue s now !! q = Some t -> 1 <= q <= ctlNextSeq s).
  { intros q t Ho. apply overdue_lookup in Ho as [Ho _]. destruct (Hp q t Ho) as [Hb _]. eapply Hs. eauto. }
  constructor.
  - congruence.
  - rewrite E2, Hf, streak_app. unfold probe_beats. rewrite Hsec. cbn [snd].
    rewrite streak_app, streak_missed. cbn [streak]. by rewrite length_map_to_list.
  - rewrite Hnx, Hn, sent_count_app, (sent_count_probe _ _ _ _ _ Hsec). lia.
  - intros q t. rewrite Hnx, !elem_of_app, !Hbeat. intros H.
    destruct H as [[H|H]|[[H|H]|[H|H]]];
      try (assert (1 <= q <= ctlNextSeq s) by (eapply Hs; eauto); lia);
      destruct H as [(q' & t' & He & Ho)|He]; simplify_eq; try (apply Hold in Ho; lia).
    assert (0 <= ctlNextSeq s) by (rewrite Hn; lia). lia.
  - intros q t. rewrite E5, lookup_insert_Some, map_lookup_filter_Some. setoid_rewrite elem_of_app.
    setoid_rewrite Hbeat. intros [[<- <-]|(Hne & Hpq & Hto)].
    + split; [auto|]. intros t'. rewrite Hnx. split; intros [H|H].
      * assert (1 <= ctlNextSeq s + 1 <= ctlNextSeq s) by (eapply Hs; eauto). lia.
      * destruct H as [(q & t & He & Ho)|He]; [|done]. injection He as <- _. apply Hold in Ho. lia.
      * assert (1 <= ctlNextSeq s + 1 <= ctlNextSeq s) by (eapply Hs; eauto). lia.
      * destruct H as [(q & t & He & Ho)|He]; done.
    + destruct (Hp q t Hpq) as [Hb Hno]. split; [auto|]. intros t'. specialize (Hno t').
      split; intros [H|H]; [tauto| |tauto|].
      * destruct H as [(q' & t2 & He & Ho)|He]; [|done]. simplify_eq.
        apply overdue_lookup in Ho as [Ho1 Ho2]. simpl in Hto. rewrite Hpq in Ho1. injection Ho1 as <-. by apply Hto.
      * destruct H as [(q' & t2 & He & Ho)|He]; done.
  - intros q t. rewrite E1. setoid_rewrite elem_of_app. setoid_rewrite Hbeat. intros [H|H].
    + destruct (Hm q t H) as [(t0 & ? & ?) Hno]. split; [eauto|]. intros t' [Hin|Hin]; [by eapply Hno|].
      destruct Hin as [(? & ? & ? & ?)|?]; done.
    + destruct H as [(q' & t2 & He & Ho)|He]; [|done]. simplify_eq.
      apply overdue_lookup in Ho as [Ho1 Ho2]. destruct (Hp q' t2 Ho1) as [Hb Hno].
      split; [eauto|]. intros t' [Hin|Hin]; [by eapply Hno|].
      destruct Hin as [(? & ? & ? & ?)|?]; done.
Qed.

Lemma ctl_ok_pong cfg tr s now msg :
  ctl_ok cfg tr s -> ctl_ok cfg (tr ++ pong_beats s now msg) (handlePong s now msg).1.
Proof.
  intros [Hcfg Hf Hn Hs Hp Hm]. unfold pong_beats, handlePong.
  destruct (ctlPending s !! cmSeq msg) as [sent|] eqn:Hl; cbn [fst]; [|rewrite app_nil_r; by constructor].
  destruct (Hp _ _ Hl) as [Hb Hno].
  constructor; simpl; try done.
  - by rewrite streak_app.
  - rewrite sent_count_app. unfold sent_count at 2. rewrite filter_cons_False by done. simpl. lia.
  - intros q t. rewrite !elem_of_app, !list_elem_of_singleton. intros H.
    destruct H as [[H|H]|[[H|H]|[H|H]]]; try done; try (by eapply Hs; eauto).
    injection H as -> _. eapply Hs. eauto.
  - intros q t. rewrite lookup_delete_Some. setoid_rewrite elem_of_app.
    setoid_rewrite list_elem_of_singleton. intros [Hne Hq]. destruct (Hp q t Hq) as [Hsn Hno'].
    split; [auto|]. intros t'. specialize (Hno' t').
    split; intros [H|H]; [tauto|done|tauto|]. injection H as -> _. done.
  - intros q t. setoid_rewrite elem_of_app. setoid_rewrite list_elem_of_singleton.
    intros [H|H]; [|done]. destruct (Hm q t H) as [(t0 & ? & ?) Hno']. split; [eauto|].
    intros t' [Hin|Hin]; [by eapply Hno'|]. simplify_eq. by destruct (Hno t).
Qed.

Lemma ctl_run_ok cfg tr s :
  ctl_run cfg tr s -> Z.of_nat (sent_count tr) < max_u64 -> ctl_ok cfg tr s.
Proof.
  induction 1 as [|tr s now s' calls ping _ IH Hsec|tr s now msg _ IH|tr s out _ IH]; intros Hlt.
  - constructor; simpl; try done.
    + intros q t H. rewrite !elem_of_nil in H. tauto.
    + intros q t H. by apply elem_of_nil in H.
  - rewrite sent_count_app, (sent_count_probe _ _ _ _ _ Hsec) in Hlt.
    eapply ctl_ok_probe; [apply IH; lia|lia|done].
  - rewrite sent_count_app in Hlt. apply ctl_ok_pong, IH. lia.
  - destruct (IH Hlt). by constructor.
Qed.

(** ** Properties *)

(** A link is declared dead only for cause.  In every interleaving of
    probes and incoming messages, [sendProbe] returns [ErrUnhealthy] only when the
    number of pings missed since the last answered one has reached the
    configured threshold, and it reports exactly that number; and every ping
    counted as missed was sent at least the timeout before it was counted and was
    never answered. *)
Theorem unhealthy_only_for_cause (cfg : CtlConfig) (tr : list beat) (s : ctl_state) (now missed : Z)
    (Hrun : ctl_run cfg tr s) (Hlen : Z.of_nat (sent_count tr) < max_u64)
    (Hbad : (probe_section s now).2 = Err (ErrUnhealthy missed)) :
  let tr' := tr ++ probe_beats s now in
  missed = streak 0 tr' /\ ccFailures (ctl_withDefaults cfg) <= missed /\
  OnUnhealthy missed ∈ (probe_section s now).1.2 /\
  forall q t, BMissed q t ∈ tr' ->
    (exists t0, BSent q t0 ∈ tr /\ ccTimeout (ctl_withDefaults cfg) <= t - t0) /\
    (forall t', BPong q t' ∉ tr).
Proof.
  intros tr'. destruct (ctl_run_ok _ _ _ Hrun Hlen) as [Hcfg Hf _ _ Hp Hm].
  assert (Hbeats : probe_beats s now = (fun p => BMissed p.1 now) <$> map_to_list (overdue s now)).
  { unfold probe_beats. rewrite Hbad. apply app_nil_r. }
  unfold probe_section in *. rewrite Hcfg in *.
  destruct (ccFailures (ctl_withDefaults cfg) <=? _) eqn:Hge; cbn [fst snd] in *; [|done].
  injection Hbad as Hmiss. bool_to_Prop. subst tr'. rewrite Hbeats.
  rewrite streak_app, streak_missed, length_map_to_list, <- Hf.
  split_and!; [done|lia|rewrite elem_of_app, list_elem_of_singleton; right; congruence|].
  intros q t. rewrite elem_of_app, list_elem_of_fmap. intros [Hin|([q' t2] & He & Hin)].
  - destruct (Hm q t Hin). auto.
  - injection He as -> ->. apply elem_of_map_to_list, overdue_lookup in Hin as [Hin1 Hin2].
    destruct (Hp _ _ Hin1) as [? Hno]. rewrite Hcfg in Hin2. split; [eauto|]. intros t'. apply Hno.
Qed.

(** The probes of a peer that stays silent. *)
Fixpoint silent_probes (s : ctl_state) (ts : list Z) : list (outcome ctl_error Message) :=
  match ts with
  | [] => []
  | t :: ts' => (probe_section s t).2 :: silent_probes (probe_section s t).1.1 ts'
  end.

(** After the probes [ts] of a silent peer: every ping is either counted or
    pending, and a pending one is one of [ts]. *)
Record silent_ok (cfg : CtlConfig) (ts : list Z) (s : ctl_state) : Prop := {
  so_cfg : ctlCfg s = ctl_withDefaults cfg;
  so_next : ctlNextSeq s = len ts;
  so_count : ctlFailures s + Z.of_nat (size (ctlPending s)) = len ts;
  so_pending : forall q t, ctlPending s !! q = Some t -> 1 <= q /\ ts !! Z.to_nat (q - 1) = Some t;
}.

Lemma partition_size s now :
  Z.of_nat (size (ctlPending s)) = Z.of_nat (size (overdue s now)) +
    Z.of_nat (size (filter (fun p => ~ ccTimeout (ctlCfg s) <= now - p.2) (ctlPending s))).
Proof.
  unfold overdue. rewrite <- Nat2Z.inj_add, <- map_size_disj_union.
  - by rewrite map_filter_union_complement.
  - apply map_disjoint_filter_complement.
Qed.

Lemma silent_ok_step cfg ts s t s' calls ping :
  silent_ok cfg ts s -> len ts < max_u64 ->
  probe_section s t = (s', calls, Ok ping) -> silent_ok cfg (ts ++ [t]) s'.
Proof.
  intros [Hcfg Hn Hc Hp] Hlt Hsec.
  destruct (probe_section_ok _ _ _ _ _ Hsec) as (E1 & E2 & E3 & _ & E5 & _).
  assert (Hnx : ctlNextSeq s' = len ts + 1).
  { rewrite E3, Hn. apply u64_small. unfold max_u64 in Hlt. lia. }
  assert (Hfresh : filter (fun p : Z * Z => ~ ccTimeout (ctlCfg s) <= t - p.2) (ctlPending s)
                     !! ctlNextSeq s' = None).
  { apply eq_None_not_Some. intros [x Hx]. apply map_lookup_filter_Some in Hx as [Hx _].
    destruct (Hp _ _ Hx) as [_ Hl]. apply lookup_lt_Some in Hl. lia. }
  constructor.
  - congruence.
  - rewrite Hnx, len_app. simpl. lia.
  - rewrite E2, E5, map_size_insert, Hfresh, len_app. pose proof (partition_size s t). simpl. lia.
  - intros q x. rewrite E5, lookup_insert_Some, map_lookup_filter_Some. intros [[<- <-]|(_ & Hx & _)].
    + rewrite Hnx. split; [lia|]. replace (Z.to_nat (len ts + 1 - 1)) with (length ts) by lia.
      by apply list_lookup_middle.
    + destruct (Hp _ _ Hx) as [? Hl]. split; [done|]. by apply lookup_app_l_Some.
Qed.

(** A map whose entries are distinct positions of a list, all satisfying [P]. *)
Lemma positions_bound (P : Z -> Prop) `{!forall t, Decision (P t)} (ts : list Z) (m : gmap Z Z) :
  (forall q t, m !! q = Some t -> 1 <= q /\ ts !! Z.to_nat (q - 1) = Some t /\ P t) ->
  (size m <= length (filter P ts))%nat.
Proof.
  revert m. induction ts as [|x ts IH] using rev_ind; intros m Hm.
  - destruct (decide (m = ∅)) as [->|Hne]; [done|]. apply map_choose in Hne as (q & t & Hq).
    destruct (Hm q t Hq) as (_ & Hl & _). by rewrite lookup_nil in Hl.
  - set (n := len ts + 1). specialize (IH (delete n m)).
    rewrite filter_app, length_app, filter_cons, filter_nil.
    assert (Hd : (size (delete n m) <= length (filter P ts))%nat).
    { apply IH. intros q t Hq. apply lookup_delete_Some in Hq as [Hne Hq].
      destruct (Hm q t Hq) as (? & Hl & ?). split_and!; [done| |done].
      pose proof (lookup_lt_Some _ _ _ Hl) as Hlt. rewrite length_app in Hlt. simpl in Hlt.
      rewrite lookup_app_l in Hl by lia. done. }
    rewrite map_size_delete in Hd. destruct (m !! n) as [t|] eqn:Hn; simpl in Hd; [|lia].
    destruct (Hm n t Hn) as (_ & Hl & HP). unfold n in Hl.
    replace (Z.to_nat (len ts + 1 - 1)) with (length ts) in Hl by lia.
    rewrite list_lookup_middle in Hl by done. injection Hl as ->. rewrite decide_True by done. simpl. lia.
Qed.

(** Pings still young at [now] are at most as many as the young probe times. *)
Lemma young_bound cfg ts s now :
  silent_ok cfg ts s ->
  Z.of_nat (size (filter (fun p => ~ ccTimeout (ctlCfg s) <= now - p.2) (ctlPending s)))
    <= len (filter (fun t => ~ ccTimeout (ctlCfg s) <= now - t) ts).
Proof.
  intros [_ _ _ Hp]. apply inj_le, positions_bound.
  intros q t Hq. apply map_lookup_filter_Some in Hq as [Hq HP]. destruct (Hp _ _ Hq). auto.
Qed.

Lemma filter_complement_len (P : Z -> Prop) `{!forall t, Decision (P t)} (l : list Z) :
  len (filter P l) + len (filter (fun t => ~ P t) l) = len l.
Proof.
  induction l as [|x l IH]; [done|]. rewrite !filter_cons.
  destruct (decide (P x)); [rewrite decide_False by tauto|rewrite decide_True by done];
    cbn [length]; lia.
Qed.

(** C40: a silent peer is found out.  If a peer answers nothing and the probe
    loop ticks at times [ts] and then at [now], then as soon as the configured
    number of those pings is older than the timeout at [now], one of the probes
    up to and including the one at [now] has returned [ErrUnhealthy], whatever
    the spacing of the ticks. *)
Theorem silent_peer_detected (cfg : CtlConfig) (ts : list Z) (now : Z)
    (Hlen : len ts < max_u64)
    (Hold : ccFailures (ctl_withDefaults cfg) <=
            len (filter (fun t => ccTimeout (ctl_withDefaults cfg) <= now - t) ts)) :
  exists missed, Err (ErrUnhealthy missed) ∈ silent_probes (ctl_start cfg) (ts ++ [now]).
Proof.
  assert (Hgen : forall pre post s, silent_ok cfg pre s -> pre ++ post = ts ->
            (exists missed, Err (ErrUnhealthy missed) ∈ silent_probes s (post ++ [now]))).
  { intros pre post. revert pre. induction post as [|t post IH]; intros pre s Hok Hts.
    - rewrite app_nil_r in Hts. subst pre. cbn [app silent_probes].
      exists (ctlFailures s + Z.of_nat (size (overdue s now))). apply list_elem_of_singleton.
      destruct Hok as [Hcfg Hn Hc Hp] eqn:E. pose proof (young_bound cfg ts s now Hok) as Hy.
      pose proof (partition_size s now) as Hps.
      pose proof (filter_complement_len (fun t => ccTimeout (ctlCfg s) <= now - t) ts) as Hfc.
      unfold probe_section. rewrite Hcfg in *.
      rewrite (proj2 (Z.leb_le _ (ctlFailures s + Z.of_nat (size (overdue s now))))); [done|lia].
    - cbn [app silent_probes]. destruct (probe_section s t) as [[s1 calls] r] eqn:Hsec.
      cbn [fst snd]. destruct r as [ping|e|].
      + destruct (IH (pre ++ [t]) s1) as [missed Hin].
        * eapply silent_ok_step; [done| |done]. subst ts. rewrite len_app in Hlen. lia.
        * by rewrite <- app_assoc.
        * exists missed. by right.
      + unfold probe_section in Hsec. case_if; [|done]. injection Hsec as _ _ <-.
        eexists. left.
      + unfold probe_section in Hsec. by case_if. }
  apply (Hgen [] ts); [|done]. by constructor.
Qed.

Lemma silent_peer_detected_witness :
  exists missed, Err (ErrUnhealthy missed)
    ∈ silent_probes (ctl_start (MkCtlConfig 10 15 2)) ([0; 10; 20] ++ [30]).
Proof.
  apply (silent_peer_detected (MkCtlConfig 10 15 2) [0; 10; 20] 30).
  - vm_compute. reflexivity.
  - vm_compute. discriminate.
Defined.

Lemma unhealthy_only_for_cause_witness :
  2 = streak 0 ([BSent 1 0; BSent 2 10] ++ [BMissed 1 30; BMissed 2 30]).
Proof.
  pose (cfg := MkCtlConfig 10 15 2).
  pose (s1 := (probe_section (ctl_start cfg) 0).1.1). pose (s2 := (probe_section s1 10).1.1).
  assert (H1 : ctl_run cfg ([] ++ probe_beats (ctl_start cfg) 0) s1).
  { eapply cr_probe; [apply cr_start|]. vm_compute. reflexivity. }
  assert (H2 : ctl_run cfg (([] ++ probe_beats (ctl_start cfg) 0) ++ probe_beats s1 10) s2).
  { eapply cr_probe; [exact H1|]. vm_compute. reflexivity. }
  destruct (unhealthy_only_for_cause cfg _ s2 30 2 H2) as (Hs & _).
  - vm_compute. reflexivity.
  - vm_compute. reflexivity.
  - vm_compute in Hs. vm_compute. exact Hs.
Defined.

(** The JSON body of one message survives the wire: it fits the frame and is read
    back as it was. *)
Definition json_carries (marshal : Message -> option bytes) (unmarshal : bytes -> option Message)
    (m : Message) : Prop :=
  exists body, marshal m = Some body /\ unmarshal body = Some m /\ len body <= CtlMaxMessageSize.

Lemma ctl_frame_carries marshal unmarshal m s now canceled :
  json_carries marshal unmarshal m ->
  cmVersion m = CtlProtoVersion -> cmType m = TypePing \/ cmType m = TypePong ->
  exists w, ctl_writeFrame marshal (Writer [] []) m = (w, Ok tt) /\
    read_round unmarshal s now canceled (sink w) =
      match handleReadMessage s now canceled m with
      | None => None
      | Some (s', calls, res) => Some (s', [], calls, res)
      end.
Proof.
  intros (body & Hm & Hu & Hl) Hv Ht. unfold CtlMaxMessageSize in Hl.
  unfold ctl_writeFrame, WriteJSON, CtlMaxMessageSize. rewrite Hm.
  rewrite WriteBytes_ok by (done || lia). eexists. split; [done|]. cbn [sink app].
  unfold read_round, ctl_readFrame, CtlMaxMessageSize. rewrite <- (app_nil_r (frame body)).
  rewrite ReadBytes_frame by (try (intros _; vm_compute (u32 _)); lia).
  unfold parseMessage. rewrite Hu, Hv. by destruct Ht as [-> | ->].
Qed.

(** A live peer keeps the link alive, end to end on the wire.  A ping
    registered by one side and framed to the other is parsed there and answered
    with a pong of the same sequence number; back at the first side the pong,
    framed and parsed in turn, clears the ping, resets the failure count to zero
    and reports the elapsed time, whatever was missed before. *)
Theorem ping_answered_resets (marshal : Message -> option bytes) (unmarshal : bytes -> option Message)
    (a b : ctl_state) (t0 t1 t2 : Z) (a1 : ctl_state) (calls : list ctl_call) (ping : Message)
    (Hprobe : probe_section a t0 = (a1, calls, Ok ping))
    (Hping : json_carries marshal unmarshal ping)
    (Hpong : json_carries marshal unmarshal
               (MkMessage CtlProtoVersion TypePong (cmSeq ping) (cmSent ping)))
    (Hroom : len (ctlOut b) < 16) :
  exists b' pong a2 wire1 wire2,
    ctl_writeFrame marshal (Writer [] []) ping = (wire1, Ok tt) /\
    read_round unmarshal b t1 false (sink wire1) = Some (b', [], [], Ok tt) /\
    ctlOut b' = ctlOut b ++ [pong] /\
    ctl_writeFrame marshal (Writer [] []) pong = (wire2, Ok tt) /\
    read_round unmarshal a1 t2 false (sink wire2) =
      Some (a2, [], [OnPong (MkHealth (cmSeq ping) (t2 - t0) t2)], Ok tt) /\
    ctlFailures a2 = 0 /\ ctlPending a2 !! cmSeq ping = None.
Proof.
  destruct (probe_section_ok _ _ _ _ _ Hprobe) as (_ & _ & _ & E4 & E5 & _).
  assert (Hkind : cmVersion ping = CtlProtoVersion /\ cmType ping = TypePing).
  { unfold probe_section in Hprobe. case_if; [done|]. by injection Hprobe as _ _ <-. }
  destruct Hkind as [Hv Ht].
  destruct (ctl_frame_carries _ _ _ b t1 false Hping Hv (or_introl Ht)) as (w1 & Hw1 & Hr1).
  destruct (ctl_frame_carries _ _ _ a1 t2 false Hpong eq_refl (or_intror eq_refl)) as (w2 & Hw2 & Hr2).
  eexists _, _, _, w1, w2. split; [exact Hw1|]. rewrite Hr1.
  unfold handleReadMessage at 1. rewrite Ht, bool_decide_eq_true_2 by done.
  unfold enqueuePong, ctl_enqueue. rewrite (proj2 (Z.ltb_lt _ 16)) by lia.
  split; [reflexivity|]. split; [reflexivity|]. split; [exact Hw2|]. rewrite Hr2.
  unfold handleReadMessage, handlePong.
  rewrite (bool_decide_eq_false_2 (_ = TypePing)), (bool_decide_eq_true_2 (_ = TypePong)) by done.
  cbn [cmSeq]. rewrite E5, E4, lookup_insert_eq. split; [reflexivity|].
  split; [reflexivity|]. cbn [ctlPending]. apply lookup_delete_eq.
Qed.

Lemma ping_answered_resets_witness :
  exists b' pong a2 wire1 wire2,
    ctl_writeFrame (fun m => Some (if bool_decide (cmType m = TypePing) then [1] else [2]))
      (Writer [] []) (MkMessage 1 TypePing 1 5) = (wire1, Ok tt) /\
    read_round (fun raw => Some (MkMessage 1 (if bool_decide (raw = [1]) then TypePing else TypePong) 1 5))
      (ctl_start (MkCtlConfig 10 15 2)) 6 false (sink wire1) = Some (b', [], [], Ok tt) /\
    ctlOut b' = [pong] /\
    ctl_writeFrame (fun m => Some (if bool_decide (cmType m = TypePing) then [1] else [2]))
      (Writer [] []) pong = (wire2, Ok tt) /\
    read_round (fun raw => Some (MkMessage 1 (if bool_decide (raw = [1]) then TypePing else TypePong) 1 5))
      (probe_section (ctl_start (MkCtlConfig 10 15 2)) 5).1.1 9 false (sink wire2) =
      Some (a2, [], [OnPong (MkHealth 1 (9 - 5) 9)], Ok tt) /\
    ctlFailures a2 = 0 /\ ctlPending a2 !! 1 = None.
Proof.
  apply (ping_answered_resets _ _ (ctl_start (MkCtlConfig 10 15 2)) (ctl_start (MkCtlConfig 10 15 2))
           5 6 9 _ [] (MkMessage 1 TypePing 1 5)).
  - reflexivity.
  - exists [1]. repeat split; vm_compute; (reflexivity || discriminate).
  - exists [2]. repeat split; vm_compute; (reflexivity || discriminate).
  - vm_compute. reflexivity.
Defined.
