(* ===== verification/VpWire.v ===== *)
(** * VpWire: the byte formats of the vp8channel transport
    (internal/transport/vp8channel: wire.go, epoch.go, kcpconn.go, and the
    batching half of writer.go)

    A KCP packet leaves through [WriteTo], which puts the epoch header in front
    and a CRC behind it; [batchSampleFrom] packs several such frames into one VP8
    sample; on the other side [parseEpochHeader], [splitKCPPayload] and
    [kcp_deliver] undo the three steps.  A packet buffer has one owner at a time
    (it travels through a channel), so it is passed by value; its backing array is
    kept, because a recycled buffer still holds the bytes of its previous use. *)

From S2P Require Import Prelude Bytes Text Frame.

(** ** Epoch header *)

(* go: transport/vp8channel/wire.go 8-14 vp8Keepalive *)
Definition vp8Keepalive : bytes :=
  [0x30; 0x01; 0x00; 0x9d; 0x01; 0x2a; 0x10; 0x00;
   0x10; 0x00; 0x00; 0x47; 0x08; 0x85; 0x85; 0x88;
   0x99; 0x84; 0x88; 0xfc].

(* go: transport/vp8channel/wire.go 34-39 epochHdrLen *)
Definition epochHdrLen : Z := 36.
(* go: transport/vp8channel/wire.go 40-44 controlEpochFlag *)
Definition controlEpochFlag : Z := 0x80000000.
(* go: transport/vp8channel/wire.go 46-48 kcpBatchMagic *)
Definition kcpBatchMagic : bytes := [79; 76; 75; 66].
(* go: transport/vp8channel/transport.go 54-54 defaultMaxPayloadSize *)
Definition vp8MaxPayloadSize : Z := 60 * 1024.

(* go: transport/vp8channel/epoch.go 33-39 epochCRC *)
Definition epochCRC (token src dst : Z) : Z :=
  let buf := replicate 12 0 in
  let buf := write_at 0 (be_put 4 token) buf in
  let buf := write_at 4 (be_put 4 src) buf in
  let buf := write_at 8 (be_put 4 dst) buf in
  ChecksumIEEE buf.

(* go: transport/vp8channel/epoch.go 21-31 buildEpochHeaderTo *)
Definition buildEpochHeaderTo (token src dst : Z) : bytes :=
  let hdr := replicate 36 0 in
  let hdr := write_at 0 vp8Keepalive hdr in
  let hdr := write_at 20 (be_put 4 token) hdr in
  let hdr := write_at 24 (be_put 4 src) hdr in
  let hdr := write_at 28 (be_put 4 dst) hdr in
  write_at 32 (be_put 4 (epochCRC token src dst)) hdr.

(* go: transport/vp8channel/epoch.go 17-19 buildEpochHeader *)
Definition buildEpochHeader (token src : Z) : bytes := buildEpochHeaderTo token src 0.

(** The last component is the Go [ok]. *)
(* go: transport/vp8channel/epoch.go 41-52 parseEpochHeader *)
Definition parseEpochHeader (frame : bytes) : outcome Empty_set (Z * Z * Z * bool) :=
  if len frame <? epochHdrLen then Ok (0, 0, 0, false)
  else
    let* token := uint_at frame 20 24 in
    let* src := uint_at frame 24 28 in
    let* dst := uint_at frame 28 32 in
    let* gotCRC := uint_at frame 32 36 in
    Ok (token, src, dst, gotCRC =? epochCRC token src dst).

(* go: transport/vp8channel/epoch.go 60-65 channelBindingToken *)
Definition channelBindingToken (channelID roomURL : string) : Z := BindingToken channelID roomURL.

(** [raw] is what [rand.Read] delivered, [None] when it failed and the clock
    [nano] is used. *)
(* go: transport/vp8channel/epoch.go 67-85 randomEpoch *)
Definition randomEpoch (raw : option bytes) (nano : Z) : Z :=
  match raw with
  | None => let e := Z.ldiff (u32 nano) controlEpochFlag in if e =? 0 then 1 else e
  | Some b => let e := Z.ldiff (be_get b) controlEpochFlag in if e =? 0 then 1 else e
  end.

(** ** Batches *)

(** The loop over the length-prefixed packets; the calls of [deliver], in order. *)
Fixpoint split_loop (fuel : nat) (rest : bytes) : list bytes :=
  match fuel with
  | O => []
  | S fuel =>
      if len rest =? 0 then []
      else if len rest <? 2 then []
      else
        let size := be_get (take 2 rest) in
        let rest := drop 2 rest in
        if (size =? 0) || (len rest <? size) then []
        else take (Z.to_nat size) rest :: split_loop fuel (drop (Z.to_nat size) rest)
  end.

(** A round consumes at least three bytes, so the length is enough fuel. *)
(* go: transport/vp8channel/wire.go 57-77 splitKCPPayload *)
Definition splitKCPPayload (payload : bytes) : list bytes :=
  if (len payload <? 4) || negb (bool_decide (take 4 payload = kcpBatchMagic)) then [payload]
  else let rest := drop 4 payload in split_loop (length rest) rest.

(* go: transport/vp8channel/writer.go 296-304 appendBatchPacket *)
Definition appendBatchPacket (dst packet : bytes) : bytes :=
  if 65535 <? len packet then dst
  else dst ++ be_put 2 (u16 (len packet)) ++ packet.

(** ** Packet buffers *)

(** [pbMem] is the backing array, [pbLen] the length of the slice over it,
    [pbPool] the size class of the pool it goes back to. *)
(* go: transport/vp8channel/kcpconn.go 77-80 packetBuffer *)
Record packetBuffer := MkPacket { pbMem : bytes; pbLen : Z; pbPool : option nat }.

(** [packet.data]. *)
Definition pb_data (p : packetBuffer) : bytes := take (Z.to_nat (pbLen p)) (pbMem p).

(** The four pools of one connection. *)
Abbreviation pools := (list (list packetBuffer)).

(* go: transport/vp8channel/kcpconn.go 82-95 packetBufferClass *)
Definition packetBufferClass (size : Z) : nat * Z * bool :=
  if size <=? 256 then (0%nat, 256, true)
  else if size <=? 512 then (1%nat, 512, true)
  else if size <=? 1024 then (2%nat, 1024, true)
  else if size <=? 1536 then (3%nat, 1536, true)
  else (0%nat, size, false).

(** [pick] is the entry [sync.Pool.Get] returns; a pool may also come back empty
    whatever was put into it. *)
(* go: transport/vp8channel/kcpconn.go 97-112 acquirePacketBuffer *)
Definition acquirePacketBuffer (ps : pools) (size : Z) (pick : option nat)
  : outcome Empty_set (pools * packetBuffer) :=
  let '(class, capacity, pooled) := packetBufferClass size in
  if negb pooled then Ok (ps, MkPacket (replicate (Z.to_nat size) 0) size None)
  else
    let pool := default [] (ps !! class) in
    match pick ≫= (pool !!.) with
    | Some packet =>
        if size <=? len (pbMem packet)
        then Ok (<[class := delete (default O pick) pool]> ps, MkPacket (pbMem packet) size (Some class))
        else Panic
    | None => Ok (ps, MkPacket (replicate (Z.to_nat capacity) 0) size (Some class))
    end.

(* go: transport/vp8channel/kcpconn.go 114-122 release *)
Definition pb_release (ps : pools) (p : packetBuffer) : pools :=
  match pbPool p with
  | None => ps
  | Some class => <[class := MkPacket (pbMem p) 0 None :: default [] (ps !! class)]> ps
  end.

(** [copy(p.data[off:], src)]. *)
Definition pb_copy (p : packetBuffer) (off : nat) (src : bytes) : packetBuffer :=
  MkPacket (write_at off (take (Z.to_nat (pbLen p) - off) src) (pbMem p)) (pbLen p) (pbPool p).

(** ** The packet connection under KCP *)

(* go: transport/vp8channel/kcpconn.go 23-23 wireCRCLen *)
Definition wireCRCLen : Z := 4.
(* go: transport/vp8channel/kcpconn.go 25-26 warnInterval *)
Definition warnInterval : Z := 5 * 1000000000.

(** A nil deadline is [None]; times are nanoseconds. *)
(* go: transport/vp8channel/kcpconn.go 44-75 kcpConn *)
Record kcpConn := MkKcpConn {
  kcIn : list packetBuffer;
  kcInCap : Z;
  kcInPools : pools;
  kcOutPools : pools;
  kcClosed : bool;
  kcHdr : bytes;
  kcDropped : Z;
  kcCorrupt : Z;
  kcTruncated : Z;
  kcLastWarn : Z;
  kcReadDeadline : option Z;
  kcWriteDeadline : option Z;
}.

(* go: transport/vp8channel/kcpconn.go 132-144 newKCPConn *)
Definition newKCPConn (inboundCap : Z) (epochHdr : bytes) : kcpConn :=
  MkKcpConn [] (if inboundCap <=? 0 then 1024 else inboundCap) [[]; []; []; []] [[]; []; []; []]
    false epochHdr 0 0 0 0 None None.

Definition kc_set_in (c : kcpConn) (q : list packetBuffer) (ps : pools) : kcpConn :=
  MkKcpConn q (kcInCap c) ps (kcOutPools c) (kcClosed c) (kcHdr c) (kcDropped c) (kcCorrupt c)
    (kcTruncated c) (kcLastWarn c) (kcReadDeadline c) (kcWriteDeadline c).
Definition kc_set_out_pools (c : kcpConn) (ps : pools) : kcpConn :=
  MkKcpConn (kcIn c) (kcInCap c) (kcInPools c) ps (kcClosed c) (kcHdr c) (kcDropped c) (kcCorrupt c)
    (kcTruncated c) (kcLastWarn c) (kcReadDeadline c) (kcWriteDeadline c).
Definition kc_count (c : kcpConn) (dropped corrupt truncated warn : Z) : kcpConn :=
  MkKcpConn (kcIn c) (kcInCap c) (kcInPools c) (kcOutPools c) (kcClosed c) (kcHdr c) dropped corrupt
    truncated warn (kcReadDeadline c) (kcWriteDeadline c).

(* go: transport/vp8channel/kcpconn.go 124-130 setHeader *)
Definition setHeader (c : kcpConn) (hdr : bytes) : kcpConn :=
  MkKcpConn (kcIn c) (kcInCap c) (kcInPools c) (kcOutPools c) (kcClosed c) hdr (kcDropped c) (kcCorrupt c)
    (kcTruncated c) (kcLastWarn c) (kcReadDeadline c) (kcWriteDeadline c).

(** The time of the last warning after this call; the text goes to the log. *)
(* go: transport/vp8channel/kcpconn.go 178-191 warnRateLimitedf *)
Definition warnRateLimited (c : kcpConn) (now : Z) : Z :=
  if now - kcLastWarn c <? warnInterval then kcLastWarn c else now.

(** [preferClosed] is the case [select] takes when both are ready. *)
(* go: transport/vp8channel/kcpconn.go 146-176 deliver *)
Definition kcp_deliver (c : kcpConn) (pick : option nat) (preferClosed : bool) (now : Z) (payload : bytes)
  : outcome Empty_set kcpConn :=
  if len payload <? wireCRCLen
  then Ok (kc_count c (kcDropped c) (u64 (kcCorrupt c + 1)) (kcTruncated c) (kcLastWarn c))
  else
    let* body := slice payload 0 (len payload - wireCRCLen) in
    let* want := uint_at payload (len payload - wireCRCLen) (len payload) in
    if negb (ChecksumCastagnoli body =? want)
    then Ok (kc_count c (kcDropped c) (u64 (kcCorrupt c + 1)) (kcTruncated c) (kcLastWarn c))
    else
      let* got := acquirePacketBuffer (kcInPools c) (len body) pick in
      let '(ps, packet) := got in
      let packet := pb_copy packet 0 body in
      let room := len (kcIn c) <? kcInCap c in
      if room && negb (kcClosed c && preferClosed)
      then Ok (kc_set_in c (kcIn c ++ [packet]) ps)
      else
        let c := kc_set_in c (kcIn c) (pb_release ps packet) in
        if kcClosed c then Ok c
        else Ok (kc_count c (u64 (kcDropped c + 1)) (kcCorrupt c) (kcTruncated c) (warnRateLimited c now)).

(** The select cases of [ReadFrom] and [WriteTo]. *)
Inductive kcp_case := CaseQueue | CaseClosed | CaseTimer.

Inductive kcp_error := ErrNetClosed | ErrTimeout.

Definition expired (deadline : option Z) (now : Z) : bool :=
  match deadline with Some d => d - now <=? 0 | None => false end.

(** [None]: the case taken is not ready.  The timer case is ready only when a
    deadline is set. *)
(* go: transport/vp8channel/kcpconn.go 193-227 ReadFrom *)
Definition ReadFrom (c : kcpConn) (size now : Z) (which : kcp_case)
  : option (kcpConn * outcome kcp_error bytes) :=
  if expired (kcReadDeadline c) now then Some (c, Err ErrTimeout)
  else match which with
  | CaseQueue =>
      match kcIn c with
      | [] => None
      | packet :: rest =>
          let got := take (Z.to_nat size) (pb_data packet) in
          let c' := kc_set_in c rest (pb_release (kcInPools c) packet) in
          let c' := if len got <? pbLen packet
                    then kc_count c' (kcDropped c') (kcCorrupt c') (u64 (kcTruncated c' + 1))
                           (warnRateLimited c' now)
                    else c' in
          Some (c', Ok got)
      end
  | CaseClosed => if kcClosed c then Some (c, Err ErrNetClosed) else None
  | CaseTimer => if kcReadDeadline c then Some (c, Err ErrTimeout) else None
  end.

(** The frame [WriteTo] builds in the buffer it acquired. *)
Definition fill_packet (packet : packetBuffer) (hdr p : bytes) : packetBuffer :=
  let packet := pb_copy packet 0 hdr in
  let packet := pb_copy packet 36 p in
  pb_copy packet (36 + length p) (be_put 4 (ChecksumCastagnoli p)).

(** [out] is the queue shared with the paced writer, of capacity [outCap]. *)
(* go: transport/vp8channel/kcpconn.go 229-265 WriteTo *)
Definition WriteTo (c : kcpConn) (out : list packetBuffer) (outCap : Z) (pick : option nat)
    (p : bytes) (now : Z) (which : kcp_case)
  : option (outcome Empty_set (kcpConn * list packetBuffer * outcome kcp_error Z)) :=
  match acquirePacketBuffer (kcOutPools c) (epochHdrLen + len p + wireCRCLen) pick with
  | Ok (ps, packet) =>
      let packet := fill_packet packet (kcHdr c) p in
      let c := kc_set_out_pools c ps in
      if expired (kcWriteDeadline c) now then Some (Ok (c, out, Err ErrTimeout))
      else match which with
      | CaseQueue =>
          if len out <? outCap then Some (Ok (c, out ++ [packet], Ok (len p))) else None
      | CaseClosed =>
          if kcClosed c
          then Some (Ok (kc_set_out_pools c (pb_release ps packet), out, Err ErrNetClosed)) else None
      | CaseTimer =>
          if kcWriteDeadline c
          then Some (Ok (kc_set_out_pools c (pb_release ps packet), out, Err ErrTimeout)) else None
      end
  | Err e => Some (Err e)
  | Panic => Some Panic
  end.

(* go: transport/vp8channel/kcpconn.go 267-270 Close *)
Definition kcp_Close (c : kcpConn) : kcpConn :=
  MkKcpConn (kcIn c) (kcInCap c) (kcInPools c) (kcOutPools c) true (kcHdr c) (kcDropped c) (kcCorrupt c)
    (kcTruncated c) (kcLastWarn c) (kcReadDeadline c) (kcWriteDeadline c).

(* go: transport/vp8channel/kcpconn.go 280-285 SetReadDeadline *)
Definition SetReadDeadline (c : kcpConn) (t : option Z) : kcpConn :=
  MkKcpConn (kcIn c) (kcInCap c) (kcInPools c) (kcOutPools c) (kcClosed c) (kcHdr c) (kcDropped c)
    (kcCorrupt c) (kcTruncated c) (kcLastWarn c) t (kcWriteDeadline c).

(* go: transport/vp8channel/kcpconn.go 287-292 SetWriteDeadline *)
Definition SetWriteDeadline (c : kcpConn) (t : option Z) : kcpConn :=
  MkKcpConn (kcIn c) (kcInCap c) (kcInPools c) (kcOutPools c) (kcClosed c) (kcHdr c) (kcDropped c)
    (kcCorrupt c) (kcTruncated c) (kcLastWarn c) (kcReadDeadline c) t.

(* go: transport/vp8channel/kcpconn.go 274-278 SetDeadline *)
Definition SetDeadline (c : kcpConn) (t : option Z) : kcpConn := SetWriteDeadline (SetReadDeadline c t) t.

(** ** Packing queued frames into one sample *)

(* go: transport/vp8channel/writer.go 236-238 canBatch *)
Definition canBatch (batchSize : Z) (frame : bytes) : bool :=
  (epochHdrLen <? len frame) && (1 <? batchSize).

(** The loop of [batchSampleFrom]: [n] more packets may still be added.  The
    result is the sample, the frame that did not fit, and the rest of the queue.
    The [Panic] outcome of the slices is excluded by the length tests. *)
Fixpoint batch_loop (n : nat) (src : list packetBuffer) (sample : bytes)
  : bytes * option packetBuffer * list packetBuffer :=
  match n with
  | O => (sample, None, src)
  | S n =>
      match src with
      | [] => (sample, None, [])
      | frame :: src' =>
          if len (pb_data frame) <=? epochHdrLen then batch_loop n src' sample
          else
            let payload := drop 36 (pb_data frame) in
            if vp8MaxPayloadSize <? len sample + 2 + len payload
            then (sample, Some frame, src')
            else batch_loop n src' (appendBatchPacket sample payload)
      end
  end.

(** [prepareBatchBuffer] only chooses the storage the sample is built in.  The
    frames that leave the queue here are released to their pools. *)
(* go: transport/vp8channel/writer.go 240-281 batchSampleFrom *)
Definition batchSampleFrom (batchSize : Z) (src : list packetBuffer) (first : packetBuffer)
  : bytes * option packetBuffer * list packetBuffer :=
  if negb (canBatch batchSize (pb_data first)) then (pb_data first, None, src)
  else
    let sample := take 36 (pb_data first) in
    let sample := sample ++ kcpBatchMagic in
    let sample := appendBatchPacket sample (drop 36 (pb_data first)) in
    batch_loop (Z.to_nat (batchSize - 1)) src sample.

(** ** What is proved: the vp8channel formats round-trip

    The epoch header, the packet pools, one frame through [WriteTo] and
    [kcp_deliver], and batches through [batchSampleFrom] and
    [splitKCPPayload]. *)

(** ** The epoch header *)

Lemma epochCRC_fields token src dst :
  epochCRC token src dst = ChecksumIEEE (be_put 4 token ++ be_put 4 src ++ be_put 4 dst).
Proof. reflexivity. Qed.

Lemma epochCRC_range token src dst : is_u32 (epochCRC token src dst).
Proof.
  rewrite epochCRC_fields. apply crc32_range; auto with go.
  rewrite !Forall_app. auto using be_put_bytes.
Qed.

Lemma epoch_header_layout token src dst :
  buildEpochHeaderTo token src dst =
    vp8Keepalive ++ be_put 4 token ++ be_put 4 src ++ be_put 4 dst ++
    be_put 4 (epochCRC token src dst).
Proof. unfold buildEpochHeaderTo. generalize (epochCRC token src dst). reflexivity. Qed.

Lemma buildEpochHeader_to token src : buildEpochHeader token src = buildEpochHeaderTo token src 0.
Proof. reflexivity. Qed.

Lemma epoch_header_length token src dst : length (buildEpochHeaderTo token src dst) = 36%nat.
Proof. by rewrite epoch_header_layout, !length_app, !length_be_put. Qed.

Lemma parse_epoch_header token src dst rest :
  is_u32 token -> is_u32 src -> is_u32 dst ->
  parseEpochHeader (buildEpochHeaderTo token src dst ++ rest) = Ok (token, src, dst, true).
Proof.
  intros Ht Hs Hd. unfold parseEpochHeader, epochHdrLen.
  rewrite len_app, epoch_header_length. case_if; [lia|].
  pose proof (epochCRC_range token src dst) as Hc.
  rewrite epoch_header_layout, <- !app_assoc.
  do 4 next_field 4%nat. by rewrite Z.eqb_refl.
Qed.

Lemma parse_epoch_total frame : exists r, parseEpochHeader frame = Ok r.
Proof.
  unfold parseEpochHeader, epochHdrLen. case_if; [by eexists|].
  rewrite !uint_at_ok by lia. cbn [obind]. by eexists.
Qed.

(** ** Packet pools *)

(** The capacity of class [i]. *)
Definition class_cap (i : nat) : nat := nth i [256; 512; 1024; 1536]%nat O.

Definition pools_ok (ps : pools) : Prop :=
  length ps = 4%nat /\
  forall i pool p, ps !! i = Some pool -> p ∈ pool -> length (pbMem p) = class_cap i.

Definition packet_ok (p : packetBuffer) : Prop :=
  0 <= pbLen p <= len (pbMem p) /\
  match pbPool p with Some i => (i < 4)%nat /\ length (pbMem p) = class_cap i | None => True end.

Lemma class_cap_ge size i capacity :
  packetBufferClass size = (i, capacity, true) ->
  (i < 4)%nat /\ capacity = Z.of_nat (class_cap i) /\ size <= capacity.
Proof.
  unfold packetBufferClass. repeat case_if; intros [= <- <-]; simpl; repeat split; lia.
Qed.

Lemma pools_ok_replace ps i pool :
  pools_ok ps -> (forall p, p ∈ pool -> length (pbMem p) = class_cap i) ->
  pools_ok (<[i := pool]> ps).
Proof.
  intros [Hl Hp] Hnew. split; [by rewrite length_insert|]. intros j q p Hj Hin.
  apply list_lookup_insert_Some in Hj as [(<- & <- & _)|[_ Hj]]; [by apply Hnew|by eapply Hp].
Qed.

Lemma pool_members ps i p : pools_ok ps -> p ∈ default [] (ps !! i) -> length (pbMem p) = class_cap i.
Proof.
  intros [_ Hp] Hin. destruct (ps !! i) as [pool|] eqn:Hi; [by eapply Hp|].
  by apply elem_of_nil in Hin.
Qed.

(** The pools never hand out a buffer that is too small: acquiring does not
    panic, and gives a well-formed buffer of the length asked for. *)
Lemma pool_acquire_ok ps size pick :
  pools_ok ps -> 0 <= size ->
  exists ps' p, acquirePacketBuffer ps size pick = Ok (ps', p) /\
    pools_ok ps' /\ packet_ok p /\ pbLen p = size.
Proof.
  intros Hok Hs. unfold acquirePacketBuffer.
  destruct (packetBufferClass size) as [[i capacity] pooled] eqn:Hc.
  destruct pooled; cbn [negb]; cycle 1.
  { eexists _, _. split; [done|]. unfold packet_ok. cbn [pbLen pbMem pbPool].
    rewrite length_replicate, ?Nat2Z.id. repeat split; (done || lia || apply Hok). }
  apply class_cap_ge in Hc as (Hi & -> & Hcap).
  destruct (pick ≫= (default [] (ps !! i) !!.)) as [p|] eqn:Hp; cycle 1.
  { eexists _, _. split; [done|]. unfold packet_ok. cbn [pbLen pbMem pbPool].
    rewrite length_replicate, ?Nat2Z.id. repeat split; (done || lia || apply Hok). }
  destruct pick as [k|]; [|done]. cbn in Hp. pose proof (list_elem_of_lookup_2 _ _ _ Hp) as Hin.
  pose proof (pool_members _ _ _ Hok Hin) as Hlen. rewrite Hlen.
  case_if; [|lia]. eexists _, _. split; [done|]. split_and!; [| |done].
  - apply pools_ok_replace; [done|]. intros q Hq. apply (pool_members ps i q Hok).
    eapply elem_of_submseteq; [exact Hq|]. apply sublist_submseteq, sublist_delete.
  - unfold packet_ok. cbn [pbLen pbMem pbPool]. rewrite Hlen. repeat split; (done || lia).
Qed.

Lemma pool_release_ok ps p : pools_ok ps -> packet_ok p -> pools_ok (pb_release ps p).
Proof.
  intros Hok [_ Hp]. unfold pb_release. destruct (pbPool p) as [i|]; [|done].
  apply pools_ok_replace; [done|]. intros q [->|Hq]%elem_of_cons; [apply Hp|].
  by apply (pool_members ps i q Hok).
Qed.

(** ** Filling a buffer *)

Lemma pb_copy_ok p off src :
  packet_ok p -> Z.of_nat off + len src <= pbLen p ->
  packet_ok (pb_copy p off src) /\ pbLen (pb_copy p off src) = pbLen p /\
  pb_data (pb_copy p off src) =
    take off (pb_data p) ++ src ++ drop (off + length src) (pb_data p).
Proof.
  intros [Hlen Hpool] Hfit. unfold pb_copy, pb_data, packet_ok. cbn [pbLen pbMem pbPool].
  rewrite (take_ge src) by lia. rewrite !length_write_at by lia.
  split; [by split|]. split; [done|].
  unfold write_at. set (n := Z.to_nat (pbLen p)).
  rewrite take_app, length_take, Nat.min_l by lia. rewrite !take_take.
  rewrite Nat.min_r, Nat.min_l by lia. f_equal.
  rewrite take_app, (take_ge src) by lia. f_equal.
  rewrite skipn_firstn_comm. f_equal. lia.
Qed.

Lemma fill_packet_ok p hdr body :
  packet_ok p -> length hdr = 36%nat -> pbLen p = epochHdrLen + len body + wireCRCLen ->
  packet_ok (fill_packet p hdr body) /\
  pb_data (fill_packet p hdr body) = hdr ++ body ++ be_put 4 (ChecksumCastagnoli body).
Proof.
  intros Hp Hhdr Hlen. unfold epochHdrLen, wireCRCLen in Hlen.
  assert (Hdata : len (pb_data p) = pbLen p).
  { unfold pb_data. rewrite length_take. destruct Hp as [? _]. lia. }
  unfold fill_packet. set (crc := be_put 4 (ChecksumCastagnoli body)).
  assert (Hcrc : length crc = 4%nat) by apply length_be_put.
  destruct (pb_copy_ok p 0 hdr Hp) as (H1 & L1 & D1); [lia|].
  destruct (pb_copy_ok (pb_copy p 0 hdr) 36 body H1) as (H2 & L2 & D2); [lia|].
  destruct (pb_copy_ok (pb_copy (pb_copy p 0 hdr) 36 body) (36 + length body) crc H2)
    as (H3 & L3 & D3); [lia|].
  split; [exact H3|]. rewrite take_0 in D1. cbn [app Nat.add] in D1.
  rewrite D1, (take_app_exact 36 hdr) in D2 by done. rewrite app_assoc in D2.
  rewrite D2, (take_app_exact _ (hdr ++ body)) in D3 by (rewrite length_app; lia).
  rewrite D3, drop_ge, app_nil_r; [by rewrite <- app_assoc|].
  rewrite length_app, (length_app hdr body), length_drop, length_app, length_drop. lia.
Qed.

(** ** One packet through the connection *)

(** The wire form of a KCP packet, without its epoch header. *)
Definition sealed (p : bytes) : bytes := p ++ be_put 4 (ChecksumCastagnoli p).

Definition conn_ok (c : kcpConn) : Prop :=
  pools_ok (kcInPools c) /\ pools_ok (kcOutPools c) /\ length (kcHdr c) = 36%nat /\
  Forall packet_ok (kcIn c).

Lemma newKCPConn_ok cap token src dst : conn_ok (newKCPConn cap (buildEpochHeaderTo token src dst)).
Proof.
  assert (H : pools_ok [[]; []; []; []]).
  { split; [done|]. intros [|[|[|[|i]]]] pool p; simpl; intros [= <-] Hin;
      by apply elem_of_nil in Hin. }
  split_and!; [exact H|exact H|apply epoch_header_length|constructor].
Qed.

(** A write that queues its packet queues the header, the packet and its CRC,
    whatever the recycled buffer held before. *)
Lemma WriteTo_frame c out outCap pick p now c' out' n :
  conn_ok c ->
  WriteTo c out outCap pick p now CaseQueue = Some (Ok (c', out', Ok n)) ->
  exists frame, out' = out ++ [frame] /\ packet_ok frame /\
    pb_data frame = kcHdr c ++ sealed p /\ n = len p /\
    conn_ok c' /\ kcHdr c' = kcHdr c /\ len out < outCap.
Proof.
  intros (Hin & Hout & Hhdr & Hq). unfold WriteTo.
  destruct (pool_acquire_ok (kcOutPools c) (epochHdrLen + len p + wireCRCLen) pick Hout)
    as (ps & b & -> & Hps & Hb & Hbl); [unfold epochHdrLen, wireCRCLen; lia|].
  case_if; [done|]. case_if; [|done]. intros [= <- <- <-].
  destruct (fill_packet_ok b (kcHdr c) p Hb Hhdr Hbl) as [Hf Hd].
  eexists. split; [done|]. by split_and!.
Qed.

Lemma ChecksumCastagnoli_range p : byte_list p -> is_u32 (ChecksumCastagnoli p).
Proof. apply crc32_range. auto with go. Qed.

(** How the checksum splits from the body. *)
Lemma deliver_view c pick pc now body crc :
  length crc = 4%nat ->
  kcp_deliver c pick pc now (body ++ crc) =
    if negb (ChecksumCastagnoli body =? be_get crc)
    then Ok (kc_count c (kcDropped c) (u64 (kcCorrupt c + 1)) (kcTruncated c) (kcLastWarn c))
    else
      let* got := acquirePacketBuffer (kcInPools c) (len body) pick in
      let '(ps, packet) := got in
      let packet := pb_copy packet 0 body in
      if (len (kcIn c) <? kcInCap c) && negb (kcClosed c && pc)
      then Ok (kc_set_in c (kcIn c ++ [packet]) ps)
      else
        let c := kc_set_in c (kcIn c) (pb_release ps packet) in
        if kcClosed c then Ok c
        else Ok (kc_count c (u64 (kcDropped c + 1)) (kcCorrupt c) (kcTruncated c) (warnRateLimited c now)).
Proof.
  intros Hcrc. unfold kcp_deliver, wireCRCLen. rewrite len_app, Hcrc.
  case_if; [lia|]. replace (len body + Z.of_nat 4 - 4) with (len body) by lia.
  rewrite slice_ok, uint_at_ok by (rewrite ?len_app; lia). cbn [obind].
  replace (len body + Z.of_nat 4 - len body) with 4 by lia. rewrite Z.sub_0_r, Nat2Z.id.
  rewrite drop_0, take_app_length, drop_app_length, (take_ge crc) by (simpl; lia). done.
Qed.

(** An intact packet reaches the queue when there is room and the connection is
    open, and only its bytes. *)
Lemma deliver_sealed c pick pc now p :
  conn_ok c -> byte_list p -> len (kcIn c) < kcInCap c -> kcClosed c = false ->
  exists c' frame, kcp_deliver c pick pc now (sealed p) = Ok c' /\
    kcIn c' = kcIn c ++ [frame] /\ pb_data frame = p /\ conn_ok c' /\
    kcInCap c' = kcInCap c /\ kcClosed c' = false /\ kcCorrupt c' = kcCorrupt c.
Proof.
  intros (Hin & Hout & Hhdr & Hq) Hb Hroom Hopen. unfold sealed.
  rewrite deliver_view by apply length_be_put.
  rewrite be_get_put32, Z.eqb_refl by (by apply ChecksumCastagnoli_range). cbn [negb].
  destruct (pool_acquire_ok (kcInPools c) (len p) pick Hin) as (ps & b & -> & Hps & Hbuf & Hbl); [lia|].
  cbn [obind]. rewrite Hopen, (proj2 (Z.ltb_lt _ _) Hroom). cbn [andb negb].
  destruct (pb_copy_ok b 0 p Hbuf) as (Hf & Hfl & Hd); [lia|].
  eexists _, _. split; [done|]. split; [done|]. split_and!; try done.
  - rewrite Hd. cbn [take app Nat.add]. rewrite drop_ge, app_nil_r; [done|].
    unfold pb_data. rewrite length_take. lia.
  - split_and!; [done..|]. apply Forall_app. split; [done|]. by constructor.
Qed.

(** A packet that differs from the one sent in a single byte, wherever it is,
    the checksum included, never reaches the queue. *)
Lemma deliver_corrupted c pick pc now p pre b b' post :
  byte_list p -> sealed p = pre ++ b :: post -> is_byte b' -> b <> b' ->
  kcp_deliver c pick pc now (pre ++ b' :: post) =
    Ok (kc_count c (kcDropped c) (u64 (kcCorrupt c + 1)) (kcTruncated c) (kcLastWarn c)).
Proof.
  intros Hp Hs Hb' Hne.
  assert (Hbytes : byte_list (pre ++ b :: post)).
  { rewrite <- Hs. apply Forall_app. auto using be_put_bytes. }
  apply Forall_app in Hbytes as [Hpre [Hb Hpost]%Forall_cons_iff].
  pose proof (be_get_put32 _ (ChecksumCastagnoli_range p Hp)) as Hget.
  assert (Hcases : (exists mid, p = pre ++ b :: mid /\ post = mid ++ be_put 4 (ChecksumCastagnoli p)) \/
            (exists a, pre = p ++ a /\ be_put 4 (ChecksumCastagnoli p) = a ++ b :: post)).
  { unfold sealed in Hs. apply app_eq_inv in Hs as [([|x mid] & Hpre' & Hk)|(a & Ha & Hk)].
    - right. exists []. rewrite app_nil_r in *. by split.
    - left. exists mid. injection Hk as <- Hpost'. by split.
    - right. by exists a. }
  destruct Hcases as [(mid & Hmid & ->)|(a & -> & Ha)].
  - rewrite app_comm_cons, app_assoc, deliver_view by apply length_be_put.
    rewrite Hget. case_if; [done|]. exfalso. rewrite Hmid in Heqb0. revert Heqb0.
    apply Forall_app in Hpost as [Hpost _].
    apply not_eq_sym, crc32_detects_one_byte; auto with go.
  - rewrite <- app_assoc.
    assert (Hla : length (a ++ b' :: post) = 4%nat).
    { pose proof (length_be_put 4 (ChecksumCastagnoli p)) as Hx. rewrite Ha in Hx.
      rewrite length_app in *. done. }
    apply Forall_app in Hpre as [_ Hpa].
    rewrite deliver_view by done. case_if; [done|]. exfalso.
    assert (Heq : a ++ b' :: post = a ++ b :: post).
    { apply be_get_inj.
      - apply Forall_app. split; [done|]. by constructor.
      - apply Forall_app. split; [done|]. by constructor.
      - by rewrite !length_app.
      - by rewrite <- Ha, Hget. }
    apply app_inv_head in Heq. by injection Heq as ->.
Qed.

(** ** Batches *)

(** The length-prefixed form of one packet in a batch. *)
Definition prefixed (p : bytes) : bytes := be_put 2 (len p) ++ p.

Definition batchable (p : bytes) : Prop := 0 < len p <= 65535.

Lemma append_prefixed dst p : batchable p -> appendBatchPacket dst p = dst ++ prefixed p.
Proof.
  intros Hp. unfold appendBatchPacket. case_if; [unfold batchable in *; lia|].
  unfold prefixed. rewrite u16_small; [done|]. unfold batchable in *; lia.
Qed.

Lemma split_prefixed packets fuel :
  Forall batchable packets -> (length (concat (map prefixed packets)) <= fuel)%nat ->
  split_loop fuel (concat (map prefixed packets)) = packets.
Proof.
  intros Hall. revert fuel. induction Hall as [|p packets Hp Hall IH]; intros fuel Hf.
  { by destruct fuel. }
  cbn [map concat] in *. change (prefixed p) with (be_put 2 (len p) ++ p) in Hf. rewrite !length_app, length_be_put in Hf.
  destruct fuel as [|fuel]; [lia|]. cbn [split_loop].
  unfold batchable in Hp. 
  set (tail := concat (map prefixed packets)) in *.
  change (prefixed p) with (be_put 2 (len p) ++ p). rewrite <- !app_assoc.
  rewrite !len_app, !length_be_put. case_if; [lia|]. case_if; [lia|].
  rewrite take_app_exact, drop_app_exact by apply length_be_put.
  rewrite be_get_put16 by lia. rewrite len_app. case_if.
  { destruct Heqb1; bool_to_Prop; lia. }
  rewrite Nat2Z.id, take_app_length, drop_app_length. f_equal. apply IH. lia.
Qed.

Lemma split_batch packets :
  Forall batchable packets ->
  splitKCPPayload (kcpBatchMagic ++ concat (map prefixed packets)) = packets.
Proof.
  intros Hall. unfold splitKCPPayload. rewrite len_app. case_if.
  - destruct Heqb as [Hx|Hx]; bool_to_Prop; [simpl in Hx; lia|]. by rewrite take_app_exact in Hx.
  - rewrite drop_app_exact by done. by apply split_prefixed.
Qed.

Lemma split_single p : take 4 p <> kcpBatchMagic -> splitKCPPayload p = [p].
Proof. intros Hp. unfold splitKCPPayload. case_if; [done|]. by bool_to_Prop. Qed.

(** The part of a queued frame behind its epoch header. *)
Definition frame_payload (f : packetBuffer) : bytes := drop 36 (pb_data f).

Lemma batchable_long f : batchable (frame_payload f) -> epochHdrLen < len (pb_data f).
Proof. unfold batchable, frame_payload, epochHdrLen. rewrite length_drop. lia. Qed.

Lemma batch_loop_spec n src sample sample' pending src' :
  Forall (fun f => batchable (frame_payload f)) src ->
  batch_loop n src sample = (sample', pending, src') ->
  exists used, src = used ++ option_list pending ++ src' /\
    sample' = sample ++ concat (map prefixed (map frame_payload used)) /\
    (len sample <= vp8MaxPayloadSize -> len sample' <= vp8MaxPayloadSize).
Proof.
  revert src sample. induction n as [|n IH]; intros src sample Hsrc; cbn [batch_loop].
  { intros [= <- <- <-]. exists []. cbn. by rewrite app_nil_r. }
  destruct src as [|f src]; [intros [= <- <- <-]; exists []; cbn; by rewrite app_nil_r|].
  apply Forall_cons_iff in Hsrc as [Hf Hsrc]. pose proof (batchable_long f Hf).
  case_if; [lia|]. change (drop 36 (pb_data f)) with (frame_payload f). case_if.
  { intros [= <- <- <-]. exists []. cbn. by rewrite app_nil_r. }
  rewrite append_prefixed by done. intros Hloop.
  destruct (IH _ _ Hsrc Hloop) as (used & -> & -> & Hmax). exists (f :: used).
  split; [done|]. split; [cbn [map concat]; by rewrite <- app_assoc|].
  intros Hle. apply Hmax. rewrite len_app. unfold prefixed. rewrite len_app, length_be_put. lia.
Qed.

(** One sample carries a non-empty prefix of the queue, in order, under the
    header of its first frame; the frame that did not fit and the rest of the
    queue stay. *)
Lemma batchSampleFrom_spec batchSize src first sample pending src' :
  Forall (fun f => batchable (frame_payload f)) (first :: src) ->
  (batchSize <= 1 -> take 4 (frame_payload first) <> kcpBatchMagic) ->
  batchSampleFrom batchSize src first = (sample, pending, src') ->
  exists used, src = used ++ option_list pending ++ src' /\
    take 36 sample = take 36 (pb_data first) /\
    splitKCPPayload (drop 36 sample) = map frame_payload (first :: used) /\
    (len (pb_data first) + 6 <= vp8MaxPayloadSize -> len sample <= vp8MaxPayloadSize).
Proof.
  intros [Hf Hsrc]%Forall_cons_iff Hmagic. pose proof (batchable_long first Hf) as Hlong.
  unfold batchSampleFrom, canBatch. rewrite (proj2 (Z.ltb_lt _ _) Hlong). cbn [andb].
  case_if.
  { intros [= <- <- <-]. exists []. split_and!; [done..| |lia].
    apply split_single. apply Hmagic. lia. }
  set (hdr := take 36 (pb_data first)). unfold epochHdrLen in Hlong.
  assert (Hhdr : length hdr = 36%nat) by (unfold hdr; rewrite length_take; lia).
  change (drop 36 (pb_data first)) with (frame_payload first).
  rewrite append_prefixed by done. intros Hloop.
  destruct (batch_loop_spec _ _ _ _ _ _ Hsrc Hloop) as (used & -> & -> & Hmax). exists used.
  split; [done|]. rewrite <- !app_assoc. split; [by rewrite take_app_exact|]. split.
  - rewrite drop_app_exact by done.
    apply (split_batch (frame_payload first :: map frame_payload used)).
    constructor; [done|]. apply Forall_app in Hsrc as [Hused _]. by rewrite Forall_fmap.
  - intros Hle. rewrite <- !app_assoc in Hmax. apply Hmax.
    assert (len (pb_data first) = 36 + len (frame_payload first)).
    { unfold frame_payload. rewrite length_drop. lia. }
    unfold prefixed. rewrite !len_app, length_be_put, Hhdr. simpl length. lia.
Qed.
