(* ===== verification/VpWriter.v ===== *)
(** * VpWriter: the paced writers of the vp8channel transport
    (internal/transport/vp8channel/writer.go)

    On every tick of the frame clock [writerLoop] emits a keyframe when one is
    due, then all queued control frames, then one sample of bulk data.  A write
    to the video track succeeds or fails; [ok i] is the result of the [i]-th
    write.  The log of writes is kept as a ghost, with what each write was for. *)

From S2P Require Import Prelude Bytes Text Frame VpWire.

(* go: transport/vp8channel/transport.go 69-69 keepaliveIdlePeriod *)
Definition keepaliveIdlePeriod : Z := 100 * 1000000.
(* go: transport/vp8channel/transport.go 70-73 forceKeepalivePeriod *)
Definition forceKeepalivePeriod : Z := 2 * 1000000000.

Inductive sample_tag := Keepalive | ControlSample | DataSample.

#[export] Instance sample_tag_eq_dec : EqDecision sample_tag.
Proof. solve_decision. Defined.

Record sent := MkSent { sTag : sample_tag; sData : bytes; sOk : bool }.

(** [wsControl] and [wsData] are the queues [p.control.out] and [p.data.out]. *)
(* go: transport/vp8channel/writer.go 10-23 writerState *)
Record writerState := MkWriter {
  wsKeepaliveEvery : Z;
  wsIdleTicks : Z;
  wsForceEvery : Z;
  wsSinceKeepalive : Z;
  wsPendingControl : option packetBuffer;
  wsPendingData : option packetBuffer;
  wsControl : list packetBuffer;
  wsData : list packetBuffer;
  wsLog : list sent;
}.

Definition ws_counters (w : writerState) (idle since : Z) : writerState :=
  MkWriter (wsKeepaliveEvery w) idle (wsForceEvery w) since (wsPendingControl w) (wsPendingData w)
    (wsControl w) (wsData w) (wsLog w).
Definition ws_control (w : writerState) (pending : option packetBuffer) (q : list packetBuffer)
  : writerState :=
  MkWriter (wsKeepaliveEvery w) (wsIdleTicks w) (wsForceEvery w) (wsSinceKeepalive w) pending
    (wsPendingData w) q (wsData w) (wsLog w).
Definition ws_data (w : writerState) (pending : option packetBuffer) (q : list packetBuffer)
  : writerState :=
  MkWriter (wsKeepaliveEvery w) (wsIdleTicks w) (wsForceEvery w) (wsSinceKeepalive w)
    (wsPendingControl w) pending (wsControl w) q (wsLog w).

Section writer.
Context (ok : nat -> bool) (batchSize : Z).

(** Writes are serialized by [writeMu]. *)
(* go: transport/vp8channel/writer.go 34-62 writeSampleLocked *)
Definition writeSample (w : writerState) (tag : sample_tag) (data : bytes) : writerState * bool :=
  let r := ok (length (wsLog w)) in
  (MkWriter (wsKeepaliveEvery w) (wsIdleTicks w) (wsForceEvery w) (wsSinceKeepalive w)
     (wsPendingControl w) (wsPendingData w) (wsControl w) (wsData w)
     (wsLog w ++ [MkSent tag data r]), r).

(** [hdr] is [p.epochHeader()] at the time of the call. *)
(* go: transport/vp8channel/writer.go 64-78 forceKeepalive *)
Definition forceKeepalive (w : writerState) (hdr : bytes) : writerState :=
  let w := ws_counters w (wsIdleTicks w) (wsSinceKeepalive w + 1) in
  if wsForceEvery w <=? wsSinceKeepalive w
  then (writeSample (ws_counters w (wsIdleTicks w) 0) Keepalive hdr).1
  else w.

(** The loop of [drainControl] on the queue as it is at the tick. *)
Fixpoint drain_control_loop (q : list packetBuffer) (w : writerState) : writerState * bool :=
  match q with
  | [] => (w, true)
  | frame :: q' =>
      let w := ws_control (ws_counters w 0 (wsSinceKeepalive w)) None q' in
      match writeSample w ControlSample (pb_data frame) with
      | (w, false) => (ws_control w (Some frame) q', false)
      | (w, true) => drain_control_loop q' w
      end
  end.

(* go: transport/vp8channel/writer.go 80-103 drainControl *)
Definition drainControl (w : writerState) : writerState * bool :=
  match wsPendingControl w with
  | Some frame =>
      match writeSample w ControlSample (pb_data frame) with
      | (w, false) => (w, false)
      | (w, true) => drain_control_loop (wsControl w) (ws_control w None (wsControl w))
      end
  | None => drain_control_loop (wsControl w) w
  end.

(** The next bulk frame: the one left over from the last batch, else the head of
    the queue. *)
Definition next_data (pending : option packetBuffer) (q : list packetBuffer)
  : option (packetBuffer * list packetBuffer) :=
  match pending, q with
  | Some frame, _ => Some (frame, q)
  | None, frame :: q' => Some (frame, q')
  | None, [] => None
  end.

(* go: transport/vp8channel/writer.go 105-134 drainData *)
Definition drainData (w : writerState) (hdr : bytes) : writerState :=
  match next_data (wsPendingData w) (wsData w) with
  | None =>
      let w := ws_counters w (wsIdleTicks w + 1) (wsSinceKeepalive w) in
      if wsKeepaliveEvery w <=? wsIdleTicks w
      then (writeSample (ws_counters w 0 (wsSinceKeepalive w)) Keepalive hdr).1
      else w
  | Some (frame, q) =>
      let w := ws_counters w 0 (wsSinceKeepalive w) in
      if negb (canBatch batchSize (pb_data frame))
      then (writeSample (ws_data w None q) DataSample (pb_data frame)).1
      else
        let '(sample, pending, q') := batchSampleFrom batchSize q frame in
        (writeSample (ws_data w pending q') DataSample sample).1
  end.

(* go: transport/vp8channel/writer.go 153-162 writerLoop *)
Definition writer_tick (w : writerState) (hdr : bytes) : writerState :=
  let w := forceKeepalive w hdr in
  match drainControl w with
  | (w, false) => w
  | (w, true) => drainData w hdr
  end.

(* go: transport/vp8channel/writer.go 136-147 writerLoop *)
Definition writer_start (frameInterval : Z) : writerState :=
  MkWriter (Z.max (keepaliveIdlePeriod / frameInterval) 1) 0
    (Z.max (forceKeepalivePeriod / frameInterval) 1) 0 None None [] [] [].

(** What happens to the writer: KCP queues frames, and the clock ticks. *)
Inductive writer_event := EnqControl (f : packetBuffer) | EnqData (f : packetBuffer) | Tick (hdr : bytes).

Definition writer_step (w : writerState) (ev : writer_event) : writerState :=
  match ev with
  | EnqControl f => ws_control w (wsPendingControl w) (wsControl w ++ [f])
  | EnqData f => ws_data w (wsPendingData w) (wsData w ++ [f])
  | Tick hdr => writer_tick w hdr
  end.

Definition writer_run (w : writerState) (evs : list writer_event) : writerState :=
  fold_left writer_step evs w.

(** One tick of a server-side pump, which serves the queue [out] of one peer on
    the same track. *)
(* go: transport/vp8channel/writer.go 195-233 peerWriterPump *)
Definition pump_tick (keyframeEvery ticks : Z) (pending : option packetBuffer) (out : list packetBuffer)
    (hdr : bytes) (w : writerState)
  : Z * option packetBuffer * list packetBuffer * writerState :=
  let ticks := ticks + 1 in
  let '(ticks, w) :=
    if keyframeEvery <=? ticks then (0, (writeSample w Keepalive hdr).1) else (ticks, w) in
  match next_data pending out with
  | None => (ticks, None, out, w)
  | Some (frame, out) =>
      if negb (canBatch batchSize (pb_data frame))
      then (ticks, None, out, (writeSample w DataSample (pb_data frame)).1)
      else
        let '(sample, pending, out) := batchSampleFrom batchSize out frame in
        (ticks, pending, out, (writeSample w DataSample sample).1)
  end.

(** ** Accounting *)

Definition of_tag (t : sample_tag) (l : list sent) : list sent := filter (fun s => sTag s = t) l.

(** What still waits in the writer. *)
Definition control_waiting (w : writerState) : list bytes :=
  map pb_data (option_list (wsPendingControl w) ++ wsControl w).
Definition data_waiting (w : writerState) : list bytes :=
  map frame_payload (option_list (wsPendingData w) ++ wsData w).

Definition enqueued_control (evs : list writer_event) : list bytes :=
  concat (map (fun ev => match ev with EnqControl f => [pb_data f] | _ => [] end) evs).
Definition enqueued_data (evs : list writer_event) : list bytes :=
  concat (map (fun ev => match ev with EnqData f => [frame_payload f] | _ => [] end) evs).

Lemma of_tag_app t l k : of_tag t (l ++ k) = of_tag t l ++ of_tag t k.
Proof. apply filter_app. Qed.

(** The accounts of a log: the control frames that got through; and of the data
    samples the packets as the receiver splits them, of all the samples handed to
    the track and of those whose write succeeded or failed.  The code ignores the
    error of a data write ([_ = w.writeSample(sample)]) and does not retry it. *)
Definition sample_packets (s : sent) : list bytes := splitKCPPayload (drop 36 (sData s)).
Definition through (l : list sent) : list bytes :=
  map sData (filter (fun s => sOk s = true) (of_tag ControlSample l)).
Definition offered (l : list sent) : list bytes :=
  concat (map sample_packets (of_tag DataSample l)).
Definition written (r : bool) (l : list sent) : list bytes :=
  concat (map sample_packets (filter (fun s => sOk s = r) (of_tag DataSample l))).

Lemma through_app l k : through (l ++ k) = through l ++ through k.
Proof. unfold through. by rewrite of_tag_app, filter_app, map_app. Qed.
Lemma offered_app l k : offered (l ++ k) = offered l ++ offered k.
Proof. unfold offered. by rewrite of_tag_app, map_app, concat_app. Qed.

Lemma through_cons d l : through (MkSent ControlSample d true :: l) = d :: through l.
Proof. reflexivity. Qed.

Lemma offered_one d b : offered [MkSent DataSample d b] = splitKCPPayload (drop 36 d).
Proof.
  unfold offered. change (of_tag DataSample [MkSent DataSample d b]) with [MkSent DataSample d b].
  cbn [map concat]. apply app_nil_r.
Qed.

Definition tagged (t : sample_tag) (l : list sent) : Prop := Forall (fun s => sTag s = t) l.

Lemma of_tag_other t u l : tagged u l -> t <> u -> of_tag t l = [].
Proof.
  intros Hl Hne. induction Hl as [|s l Hs Hl IH]; [done|]. unfold of_tag in *.
  rewrite filter_cons_False; [done|congruence].
Qed.
Lemma through_other u l : tagged u l -> ControlSample <> u -> through l = [].
Proof. intros Hl Hne. unfold through. by rewrite (of_tag_other _ u). Qed.
Lemma offered_other u l : tagged u l -> DataSample <> u -> offered l = [].
Proof. intros Hl Hne. unfold offered. by rewrite (of_tag_other _ u). Qed.

(** The samples of successful writes and those of failed ones are the samples. *)
Lemma written_sublist (r : bool) (l : list sent) : written r l `sublist_of` offered l.
Proof.
  unfold written, offered. induction (of_tag DataSample l) as [|s ss IH]; [done|].
  destruct (decide (sOk s = r)).
  - rewrite filter_cons_True by done. cbn [map concat]. by apply sublist_app.
  - rewrite filter_cons_False by done. cbn [map concat]. by apply sublist_inserts_l.
Qed.
Lemma written_split (l : list sent) : written true l ++ written false l ≡ₚ offered l.
Proof.
  unfold written, offered. induction (of_tag DataSample l) as [|s ss IH]; [done|].
  cbn [map concat]. rewrite <- IH. destruct (sOk s) eqn:Hs.
  - rewrite filter_cons_True, filter_cons_False by congruence. cbn [map concat]. by rewrite app_assoc.
  - rewrite filter_cons_False, filter_cons_True by congruence. cbn [map concat].
    rewrite !app_assoc. apply Permutation_app_tail, Permutation_app_comm.
Qed.
Lemma written_all (l : list sent) :
  Forall (fun s => sTag s = DataSample -> sOk s = true) l -> written true l = offered l.
Proof.
  intros Hl. unfold written, offered. do 2 f_equal. rewrite Forall_forall in Hl.
  assert (H : forall s, s ∈ of_tag DataSample l -> sOk s = true)
    by (intros s [Ht Hs]%list_elem_of_filter; by apply Hl).
  induction (of_tag DataSample l) as [|s ss IH]; [done|].
  rewrite filter_cons_True by (apply H; left). f_equal. apply IH. intros x Hx. apply H. by right.
Qed.

(** What a part of a tick leaves alone. *)
Definition same_control (w w' : writerState) : Prop :=
  wsPendingControl w' = wsPendingControl w /\ wsControl w' = wsControl w.
Definition same_data (w w' : writerState) : Prop :=
  wsPendingData w' = wsPendingData w /\ wsData w' = wsData w.

Lemma forceKeepalive_spec w hdr :
  exists new, wsLog (forceKeepalive w hdr) = wsLog w ++ new /\ tagged Keepalive new /\
    same_control w (forceKeepalive w hdr) /\ same_data w (forceKeepalive w hdr).
Proof.
  unfold forceKeepalive. case_if.
  - eexists [_]. split; [done|]. by repeat constructor.
  - exists []. rewrite app_nil_r. by repeat constructor.
Qed.

(** [drainControl] moves control frames from the waiting to the through side
    without losing or reordering any, and drains them all unless a write fails. *)
Lemma drain_control_loop_spec q w w' b :
  drain_control_loop q w = (w', b) -> wsPendingControl w = None -> wsControl w = q ->
  exists new, wsLog w' = wsLog w ++ new /\ tagged ControlSample new /\ same_data w w' /\
    through new ++ control_waiting w' = control_waiting w /\
    (b = true -> control_waiting w' = []).
Proof.
  revert w. induction q as [|f q IH]; intros w; cbn [drain_control_loop].
  { intros [= <- <-] Hp Hq. exists []. rewrite app_nil_r. unfold control_waiting.
    rewrite Hp, Hq. by repeat constructor. }
  intros Hloop Hp Hq.
  assert (Hwait : control_waiting w = pb_data f :: map pb_data q).
  { unfold control_waiting. by rewrite Hp, Hq. }
  unfold writeSample in Hloop. cbn in Hloop. destruct (ok (length (wsLog w))).
  - apply IH in Hloop as (new & Hlog & Htag & Hsame & Hacc & Hdone); [|done..].
    cbn in Hlog. eexists (MkSent ControlSample (pb_data f) true :: new).
    rewrite Hlog, <- app_assoc. split_and!; [done|by constructor|apply Hsame..| |done].
    rewrite Hwait. unfold control_waiting in Hacc at 2. cbn in Hacc. rewrite <- Hacc.
    by rewrite through_cons.
  - injection Hloop as <- <-. eexists [_]. split; [done|]. split; [by repeat constructor|].
    by rewrite Hwait.
Qed.

Lemma drainControl_spec w w' b :
  drainControl w = (w', b) ->
  exists new, wsLog w' = wsLog w ++ new /\ tagged ControlSample new /\ same_data w w' /\
    through new ++ control_waiting w' = control_waiting w /\
    (b = true -> control_waiting w' = []).
Proof.
  unfold drainControl. destruct (wsPendingControl w) as [f|] eqn:Hp.
  - unfold writeSample. cbn. destruct (ok (length (wsLog w))).
    + intros Hloop. apply drain_control_loop_spec in Hloop
        as (new & Hlog & Htag & Hsame & Hacc & Hdone); [|done..].
      cbn in Hlog. eexists (MkSent ControlSample (pb_data f) true :: new).
      rewrite Hlog, <- app_assoc. split_and!; [done|by constructor|apply Hsame..| |done].
      unfold control_waiting in Hacc at 2. cbn in Hacc. 
      assert (control_waiting w = pb_data f :: map pb_data (wsControl w)) as ->
        by (unfold control_waiting; by rewrite Hp).
      rewrite <- Hacc. by rewrite through_cons.
    + intros [= <- <-]. eexists [_]. by repeat constructor.
  - intros Hloop. by apply drain_control_loop_spec in Hloop.
Qed.

(** The frames KCP queues for bulk data. *)
Definition frame_ok (f : packetBuffer) : Prop :=
  batchable (frame_payload f) /\ (batchSize <= 1 -> take 4 (frame_payload f) <> kcpBatchMagic).

Definition data_frames_ok (w : writerState) : Prop :=
  Forall frame_ok (option_list (wsPendingData w) ++ wsData w).

(** The sample taken from the bulk queue holds a non-empty prefix of it. *)
Lemma next_sample_spec pending q f q1 :
  next_data pending q = Some (f, q1) -> option_list pending ++ q = f :: q1.
Proof. destruct pending, q; cbn; intros; by simplify_eq. Qed.

Lemma drainData_spec w hdr :
  data_frames_ok w ->
  exists new, wsLog (drainData w hdr) = wsLog w ++ new /\ same_control w (drainData w hdr) /\
    (tagged DataSample new \/ tagged Keepalive new) /\
    offered new ++ data_waiting (drainData w hdr) = data_waiting w /\
    data_frames_ok (drainData w hdr) /\
    (data_waiting w <> [] -> offered new <> []) /\
    Forall (fun s => exists f, f ∈ option_list (wsPendingData w) ++ wsData w /\
              take 36 (sData s) = take 36 (pb_data f)) (of_tag DataSample new) /\
    (forall f, f ∈ option_list (wsPendingData (drainData w hdr)) ++ wsData (drainData w hdr) ->
               f ∈ option_list (wsPendingData w) ++ wsData w).
Proof.
  unfold data_frames_ok, data_waiting. intros Hok. unfold drainData.
  destruct (next_data (wsPendingData w) (wsData w)) as [[f q]|] eqn:Hn; cycle 1.
  { assert (Hnil : option_list (wsPendingData w) ++ wsData w = [])
      by (destruct (wsPendingData w), (wsData w); done).
    case_if.
    - eexists [_]. split; [done|]. cbn. rewrite Hnil. repeat split; try done.
      right. by repeat constructor.
    - exists []. rewrite app_nil_r. cbn. rewrite Hnil. repeat split; try done. left. by constructor. }
  apply next_sample_spec in Hn. rewrite Hn in *. apply Forall_cons_iff in Hok as [[Hf Hmagic] Hq].
  cbn [map]. case_if.
  - eexists [_]. split; [done|]. split; [done|]. split; [left; by repeat constructor|].
    rewrite offered_one. change (drop 36 (pb_data f)) with (frame_payload f).
    rewrite split_single; cycle 1.
    { apply Hmagic. pose proof (batchable_long f Hf).
      unfold canBatch in Heqb. bool_to_Prop. destruct Heqb; bool_to_Prop; lia. }
    split_and!; [done..| |].
    + constructor; [|constructor]. exists f. split; [left|done].
    + intros g Hg. by right.
  - destruct (batchSampleFrom batchSize q f) as [[sample pending] q'] eqn:Hb.
    destruct (batchSampleFrom_spec batchSize q f sample pending q') as (used & -> & Hhdr & Hsplit & _);
      [constructor; [done|]; eapply Forall_impl; [exact Hq|by intros ? []]|done|done|].
    eexists [_]. split; [done|]. split; [done|]. split; [left; by repeat constructor|].
    rewrite offered_one, Hsplit. apply Forall_app in Hq as [_ Hq].
    cbn [writeSample fst wsPendingData wsData ws_data map app]. rewrite (map_app _ used).
    split_and!; [done..| |].
    + constructor; [|constructor]. exists f. split; [left|done].
    + intros g Hg. right. apply elem_of_app. by right.
Qed.

(** ** Whole ticks and runs *)

Lemma writer_tick_spec w hdr :
  data_frames_ok w ->
  exists ka ctl rest, wsLog (writer_tick w hdr) = wsLog w ++ ka ++ ctl ++ rest /\
    tagged Keepalive ka /\ tagged ControlSample ctl /\ (tagged DataSample rest \/ tagged Keepalive rest) /\
    through ctl ++ control_waiting (writer_tick w hdr) = control_waiting w /\
    offered rest ++ data_waiting (writer_tick w hdr) = data_waiting w /\
    data_frames_ok (writer_tick w hdr) /\
    (rest <> [] -> control_waiting (writer_tick w hdr) = []).
Proof.
  intros Hok. unfold writer_tick.
  destruct (forceKeepalive_spec w hdr) as (ka & Hlog1 & Htag1 & [Hc1 Hc2] & [Hd1 Hd2]).
  set (w1 := forceKeepalive w hdr) in *.
  assert (Hwait1 : control_waiting w1 = control_waiting w) by (unfold control_waiting; by rewrite Hc1, Hc2).
  assert (Hdat1 : data_waiting w1 = data_waiting w) by (unfold data_waiting; by rewrite Hd1, Hd2).
  destruct (drainControl w1) as [w2 b] eqn:Hdrain.
  apply drainControl_spec in Hdrain as (ctl & Hlog2 & Htag2 & [Hs1 Hs2] & Hacc & Hdone).
  assert (Hdat2 : data_waiting w2 = data_waiting w)
    by (rewrite <- Hdat1; unfold data_waiting; by rewrite Hs1, Hs2).
  assert (Hok2 : data_frames_ok w2)
    by (unfold data_frames_ok in *; by rewrite Hs1, Hs2, Hd1, Hd2).
  exists ka, ctl. destruct b.
  - destruct (drainData_spec w2 hdr Hok2) as (rest & Hlog3 & [Hk1 Hk2] & Htag3 & Hacc3 & Hok3 & _).
    assert (Hwait3 : control_waiting (drainData w2 hdr) = control_waiting w2)
      by (unfold control_waiting; by rewrite Hk1, Hk2).
    exists rest. rewrite Hlog3, Hlog2, Hlog1, <- !app_assoc, Hwait3, Hacc, Hacc3. split_and!; auto.
  - exists []. rewrite Hlog2, Hlog1, app_nil_r, <- app_assoc, Hacc. split_and!; auto; try done.
    left. constructor.
Qed.

Lemma writer_tick_accounts w hdr :
  data_frames_ok w ->
  through (wsLog (writer_tick w hdr)) ++ control_waiting (writer_tick w hdr)
    = through (wsLog w) ++ control_waiting w /\
  offered (wsLog (writer_tick w hdr)) ++ data_waiting (writer_tick w hdr)
    = offered (wsLog w) ++ data_waiting w /\
  data_frames_ok (writer_tick w hdr).
Proof.
  intros Hok. destruct (writer_tick_spec w hdr Hok)
    as (ka & ctl & rest & Hlog & Hka & Hctl & Hrest & Hc & Hd & Hok' & _).
  assert (Hr : through rest = []).
  { destruct Hrest; [by apply (through_other DataSample)|by apply (through_other Keepalive)]. }
  split_and!; [..|done]; rewrite Hlog.
  - rewrite !through_app, (through_other Keepalive ka), Hr, app_nil_r by done.
    cbn [app]. by rewrite <- app_assoc, Hc.
  - rewrite !offered_app, (offered_other Keepalive ka), (offered_other ControlSample ctl) by done.
    cbn [app]. by rewrite <- app_assoc, Hd.
Qed.

Lemma writer_run_accounts evs w :
  data_frames_ok w -> (forall f, EnqData f ∈ evs -> frame_ok f) ->
  through (wsLog (writer_run w evs)) ++ control_waiting (writer_run w evs)
    = through (wsLog w) ++ control_waiting w ++ enqueued_control evs /\
  offered (wsLog (writer_run w evs)) ++ data_waiting (writer_run w evs)
    = offered (wsLog w) ++ data_waiting w ++ enqueued_data evs /\
  data_frames_ok (writer_run w evs).
Proof.
  revert w. induction evs as [|ev evs IH]; intros w Hok Hevs.
  { cbn. by rewrite !app_nil_r. }
  assert (Hstep : through (wsLog (writer_step w ev)) ++ control_waiting (writer_step w ev) =
            through (wsLog w) ++ control_waiting w ++ enqueued_control [ev] /\
            offered (wsLog (writer_step w ev)) ++ data_waiting (writer_step w ev) =
            offered (wsLog w) ++ data_waiting w ++ enqueued_data [ev] /\
            data_frames_ok (writer_step w ev)).
  { destruct ev as [f|f|hdr]; cbn [writer_step].
    - unfold control_waiting, data_waiting. cbn. rewrite (app_assoc _ (wsControl w)), !map_app.
      rewrite !app_nil_r. split_and!; [by rewrite <- ?app_assoc|done|done].
    - unfold control_waiting, data_waiting, data_frames_ok. cbn.
      rewrite (app_assoc _ (wsData w)), !app_nil_r. split_and!; [done| |].
      + by rewrite (map_app _ (_ ++ _)).
      + rewrite Forall_app. split; [done|]. constructor; [apply Hevs; left|constructor].
    - unfold enqueued_control, enqueued_data. cbn. rewrite !app_nil_r. by apply writer_tick_accounts. }
  destruct Hstep as (H1 & H2 & H3).
  destruct (IH (writer_step w ev) H3) as (I1 & I2 & I3); [intros f Hf; apply Hevs; by right|].
  cbn [writer_run fold_left]. fold (writer_run (writer_step w ev) evs). rewrite I1, I2.
  rewrite !app_assoc, H1, H2. unfold enqueued_control, enqueued_data. cbn [map concat].
  rewrite <- !app_assoc, !app_nil_r || idtac. by rewrite <- !app_assoc.
Qed.
End writer.

(** ** Properties *)

(** C12: the paced writer keeps what it is given in
    order, and control traffic goes first.  However frames are queued (bulk frames
    carrying packets of 1 to 65535 bytes, and not starting with the batch mark when
    batching is off), whenever the clock ticks and whichever writes to the track
    fail: the control frames that got through, followed by those still waiting, are
    exactly the control frames queued, in order (a failed one is kept and retried).
    The packets a receiver splits out of the data samples handed to the track,
    followed by those still waiting, are exactly the packets queued, in order, each
    in one sample; a data sample whose write fails is not retried, so the packets
    written are those in order less the ones of the failed samples, and all of them
    when no data write failed.  Within a tick bulk data is written after the control
    frames, and only when none is left waiting. *)
Theorem writer_lossless_control_first (ok : nat -> bool) (batchSize interval : Z)
    (evs : list writer_event) (Hevs : forall f, EnqData f ∈ evs -> frame_ok batchSize f) :
  let w := writer_run ok batchSize (writer_start interval) evs in
  through (wsLog w) ++ control_waiting w = enqueued_control evs /\
  offered (wsLog w) ++ data_waiting w = enqueued_data evs /\
  written true (wsLog w) `sublist_of` offered (wsLog w) /\
  written true (wsLog w) ++ written false (wsLog w) ≡ₚ offered (wsLog w) /\
  (Forall (fun s => sTag s = DataSample -> sOk s = true) (wsLog w) ->
   written true (wsLog w) = offered (wsLog w)) /\
  forall hdr, exists ka ctl rest,
    wsLog (writer_tick ok batchSize w hdr) = wsLog w ++ ka ++ ctl ++ rest /\
    tagged Keepalive ka /\ tagged ControlSample ctl /\
    (tagged DataSample rest \/ tagged Keepalive rest) /\
    (rest <> [] -> control_waiting (writer_tick ok batchSize w hdr) = []).
Proof.
  intros w. destruct (writer_run_accounts ok batchSize evs (writer_start interval))
    as (Hc & Hd & Hok); [constructor|done|].
  split; [exact Hc|]. split; [exact Hd|].
  split_and!; [apply written_sublist|apply written_split|apply written_all|]. intros hdr.
  destruct (writer_tick_spec ok batchSize w hdr Hok)
    as (ka & ctl & rest & Hlog & H1 & H2 & H3 & _ & _ & _ & H4).
  by exists ka, ctl, rest.
Qed.

(** The second write, of a data sample, fails: its packet is lost, the next one is
    written, and the control frame whose first write failed is written again. *)
Lemma writer_lossless_control_first_witness :
  let f := MkPacket (repeat 7 36 ++ [1; 2; 3; 4; 5]) 41 None in
  let g := MkPacket (repeat 7 36 ++ [6; 7; 8; 9]) 40 None in
  let w := writer_run (fun i => negb (Nat.eqb i 0) && negb (Nat.eqb i 2)) 8 (writer_start 33333333)
             [EnqControl f; EnqData f; Tick []; Tick []; EnqData g; Tick []] in
  offered (wsLog w) ++ data_waiting w = [[1; 2; 3; 4; 5]; [6; 7; 8; 9]] /\
  written true (wsLog w) = [[6; 7; 8; 9]] /\ written false (wsLog w) = [[1; 2; 3; 4; 5]] /\
  map sTag (wsLog w) = [ControlSample; ControlSample; DataSample; DataSample].
Proof.
  intros f g w.
  destruct (writer_lossless_control_first (fun i => negb (Nat.eqb i 0) && negb (Nat.eqb i 2)) 8 33333333
              [EnqControl f; EnqData f; Tick []; Tick []; EnqData g; Tick []]) as (_ & Hd & _).
  - assert (Hinj : forall x y, EnqData x = EnqData y -> x = y) by (by intros x y [=]).
    intros h Hh. assert (h = f \/ h = g) as [-> | ->].
    { repeat (apply elem_of_cons in Hh as [Hh|Hh];
        [first [discriminate Hh|left; exact (Hinj _ _ Hh)|right; exact (Hinj _ _ Hh)]|]).
      by apply elem_of_nil in Hh. }
    all: split; [split; vm_compute; congruence|intros ?; lia].
  - split; [exact Hd|]. split_and!; vm_compute; reflexivity.
Defined.
