(* ===== verification/VpRtp.v ===== *)
(** * VpRtp: from RTP packets to VP8 frames
    (internal/transport/vp8channel/rtp_reader.go)

    [reorderBuffer] puts the packets of a track back into sequence order,
    [processRTPPacket] joins the packets of a frame.  The VP8 payload descriptor
    is read by pion's [codecs.VP8Packet], the argument [vp8Unmarshal]: the S bit
    and the rest of the payload, or an error. *)

From S2P Require Import Prelude Bytes VpWire.

(** The fields of [rtp.Packet] the code reads. *)
Record RtpPacket := MkRtp { rSeq : Z; rMarker : bool; rPayload : bytes }.

(* go: transport/vp8channel/rtp_reader.go 11-16 reorderWindow *)
Definition reorderWindow : Z := 256.
(* go: transport/vp8channel/rtp_reader.go 18-21 maxRetainedRTPPayloadCap *)
Definition maxRetainedRTPPayloadCap : Z := 2 * 1024.
(* go: transport/vp8channel/rtp_reader.go 23-29 maxAssembledFrameSize *)
Definition maxAssembledFrameSize : Z := 4 * vp8MaxPayloadSize.

(* go: transport/vp8channel/rtp_reader.go 31-37 seqLess *)
Definition seqLess (a b : Z) : bool := negb (Z.land (u16 (a - b)) 0x8000 =? 0).

(** A buffered packet with the capacity of its payload buffer, and a free one. *)
Record held := MkHeld { hPkt : RtpPacket; hCap : Z }.

(** [rbFree] lists the capacities of the free packets, the next one to be reused
    first. *)
(* go: transport/vp8channel/rtp_reader.go 39-50 reorderBuffer *)
Record reorderBuffer := MkReorder {
  rbPkts : gmap Z held;
  rbFree : list Z;
  rbNextSeq : Z;
  rbStarted : bool;
}.

(* go: transport/vp8channel/rtp_reader.go 52-54 newReorderBuffer *)
Definition newReorderBuffer : reorderBuffer := MkReorder ∅ [] 0 false.

(** The copy has the header and the payload of the original. *)
(* go: transport/vp8channel/rtp_reader.go 97-113 clone *)
Definition rb_clone (free : list Z) (pkt : RtpPacket) : list Z * held :=
  let '(free, cap) := match free with c :: rest => (rest, c) | [] => ([], 0) end in
  (free, MkHeld pkt (if cap <? len (rPayload pkt) then len (rPayload pkt) else cap)).

(* go: transport/vp8channel/rtp_reader.go 115-123 recycle *)
Definition rb_recycle (free : list Z) (h : held) : list Z :=
  (if maxRetainedRTPPayloadCap <? hCap h then 0 else hCap h) :: free.

(** The loop of [skipToOldest] over the keys in the order of the iteration. *)
Definition oldest_of (keys : list Z) : option Z :=
  fold_left (fun acc seq =>
    match acc with
    | None => Some seq
    | Some oldest => if seqLess seq oldest then Some seq else Some oldest
    end) keys None.

(* go: transport/vp8channel/rtp_reader.go 125-137 skipToOldest *)
Definition skipToOldest (b : reorderBuffer) (keys : list Z) : reorderBuffer :=
  MkReorder (rbPkts b) (rbFree b) (default 0 (oldest_of keys)) (rbStarted b).

(** Each round takes one packet out of the map. *)
Fixpoint drain_loop (fuel : nat) (b : reorderBuffer) : reorderBuffer * list RtpPacket :=
  match fuel with
  | O => (b, [])
  | S fuel =>
      match rbPkts b !! rbNextSeq b with
      | None => (b, [])
      | Some h =>
          let b := MkReorder (delete (rbNextSeq b) (rbPkts b)) (rb_recycle (rbFree b) h)
                     (u16 (rbNextSeq b + 1)) (rbStarted b) in
          let '(b, out) := drain_loop fuel b in (b, hPkt h :: out)
      end
  end.

(** The packets handed to [deliver], in order. *)
(* go: transport/vp8channel/rtp_reader.go 83-95 drain *)
Definition rb_drain (b : reorderBuffer) : reorderBuffer * list RtpPacket :=
  drain_loop (size (rbPkts b)) b.

(** The order in which [range] visits a map is not specified: it is the argument
    [iter], any enumeration of the keys. *)
Definition map_range (iter : gmap Z held -> list Z) : Prop :=
  forall m, iter m ≡ₚ (map_to_list m).*1.

(* go: transport/vp8channel/rtp_reader.go 56-81 push *)
Definition rb_push (iter : gmap Z held -> list Z) (b : reorderBuffer) (pkt : RtpPacket)
  : reorderBuffer * list RtpPacket :=
  let b := if rbStarted b then b else MkReorder (rbPkts b) (rbFree b) (rSeq pkt) true in
  if seqLess (rSeq pkt) (rbNextSeq b) then (b, [])
  else
    let free := match rbPkts b !! rSeq pkt with Some old => rb_recycle (rbFree b) old | None => rbFree b end in
    let '(free, copy) := rb_clone free pkt in
    let b := MkReorder (<[rSeq pkt := copy]> (rbPkts b)) free (rbNextSeq b) (rbStarted b) in
    let b := if reorderWindow <? Z.of_nat (size (rbPkts b)) then skipToOldest b (iter (rbPkts b)) else b in
    rb_drain b.

(** ** Frame assembly *)

(* go: transport/vp8channel/rtp_reader.go 139-145 vp8FrameState *)
Record vp8FrameState := MkFrameState {
  fsBuf : bytes;
  fsLastSeq : Z;
  fsHaveLastSeq : bool;
  fsValid : bool;
}.

Definition frame_state0 : vp8FrameState := MkFrameState [] 0 false false.

Section assembly.
Context (vp8Unmarshal : bytes -> option (bool * bytes)).

(* go: transport/vp8channel/rtp_reader.go 147-196 processRTPPacket *)
Definition processRTPPacket (s : vp8FrameState) (pkt : RtpPacket) : vp8FrameState * option bytes :=
  let gap := fsHaveLastSeq s && negb (rSeq pkt =? u16 (fsLastSeq s + 1)) in
  let valid := if gap then false else fsValid s in
  let buf := if gap then [] else fsBuf s in
  match vp8Unmarshal (rPayload pkt) with
  | None => (MkFrameState [] (rSeq pkt) true false, None)
  | Some (start, payload) =>
      let buf := if start then [] else buf in
      let valid := if start then true else valid in
      if negb valid then (MkFrameState buf (rSeq pkt) true valid, None)
      else if maxAssembledFrameSize <? len buf + len payload
      then (MkFrameState [] (rSeq pkt) true false, None)
      else
        let buf := buf ++ payload in
        if negb (rMarker pkt) then (MkFrameState buf (rSeq pkt) true valid, None)
        else (MkFrameState [] (rSeq pkt) true false,
              if epochHdrLen <=? len buf then Some buf else None)
  end.

(** The frames of the packets [pkts], in order. *)
Fixpoint process_all (s : vp8FrameState) (pkts : list RtpPacket) : vp8FrameState * list bytes :=
  match pkts with
  | [] => (s, [])
  | pkt :: rest =>
      let '(s, frame) := processRTPPacket s pkt in
      let '(s, frames) := process_all s rest in
      (s, option_list frame ++ frames)
  end.

(** One packet read from a track: reorder, assemble, and the frames handed to
    [handleIncomingFrame]. *)
(* go: transport/vp8channel/rtp_reader.go 219-250 readVP8Track *)
Definition track_read (iter : gmap Z held -> list Z) (st : reorderBuffer * vp8FrameState)
    (pkt : RtpPacket) : (reorderBuffer * vp8FrameState) * list bytes :=
  let '(b, s) := st in
  let '(b, ordered) := rb_push iter b pkt in
  let '(s, frames) := process_all s ordered in
  ((b, s), frames).

Fixpoint track_run (iter : gmap Z held -> list Z) (st : reorderBuffer * vp8FrameState)
    (pkts : list RtpPacket) : (reorderBuffer * vp8FrameState) * list bytes :=
  match pkts with
  | [] => (st, [])
  | pkt :: rest =>
      let '(st, frames) := track_read iter st pkt in
      let '(st, more) := track_run iter st rest in
      (st, frames ++ more)
  end.
End assembly.

(** A whole run of the reorder buffer. *)
Fixpoint rb_run (iter : gmap Z held -> list Z) (b : reorderBuffer) (pkts : list RtpPacket)
  : reorderBuffer * list RtpPacket :=
  match pkts with
  | [] => (b, [])
  | pkt :: rest =>
      let '(b, out) := rb_push iter b pkt in
      let '(b, more) := rb_run iter b rest in
      (b, out ++ more)
  end.

(** ** What is proved: sequence numbers, the reorder buffer and frame assembly *)

(** ** Serial arithmetic *)

Lemma u16_mod z : u16 z = z mod 65536.
Proof. reflexivity. Qed.

Lemma land_bit15 x : is_u16 x -> negb (Z.land x 0x8000 =? 0) = (32768 <=? x).
Proof.
  intros Hx.
  assert (Hbit : Z.testbit x 15 = (32768 <=? x)).
  { destruct (32768 <=? x) eqn:E; bool_to_Prop.
    - apply Z.testbit_true; [lia|]. change (2 ^ 15) with 32768.
      replace (x / 32768) with 1; [done|]. apply (Z.div_unique _ _ _ (x - 32768)); lia.
    - apply Z.testbit_false; [lia|]. change (2 ^ 15) with 32768. rewrite Z.div_small by lia. done. }
  rewrite <- Hbit. change 0x8000 with (2 ^ 15). destruct (Z.testbit x 15) eqn:E.
  - destruct (Z.land x (2 ^ 15) =? 0) eqn:E2; [|done]. bool_to_Prop.
    pose proof (Z.land_spec x (2 ^ 15) 15) as Hs. rewrite E2, Z.bits_0, E in Hs. done.
  - replace (Z.land x (2 ^ 15)) with 0; [done|]. symmetry. apply Z.bits_inj'. intros n Hn.
    rewrite Z.land_spec, Z.bits_0, Z.pow2_bits_eqb by lia.
    destruct (Z.eqb_spec 15 n); [subst; by rewrite E|by rewrite andb_false_r].
Qed.

Lemma seqLess_off a b : seqLess a b = (32768 <=? u16 (a - b)).
Proof. unfold seqLess. apply land_bit15, u16_range. Qed.

(** The offset of a sequence number ahead of [n]. *)
Definition off (n k : Z) : Z := u16 (k - n).

Lemma off_range n k : is_u16 (off n k).
Proof. apply u16_range. Qed.

Lemma off_unwrap n k : is_u16 k -> k = u16 (n + off n k).
Proof.
  intros Hk. unfold off. rewrite !u16_mod, Zplus_mod_idemp_r.
  replace (n + (k - n)) with k by lia. symmetry. by apply Z.mod_small.
Qed.

Lemma off_shift n d k : off (u16 (n + d)) k = u16 (off n k - d).
Proof.
  unfold off. rewrite !u16_mod, Zminus_mod_idemp_r, Zminus_mod_idemp_l. f_equal. lia.
Qed.

Lemma off_self n : off n (u16 n) = 0.
Proof. unfold off. rewrite !u16_mod, Zminus_mod_idemp_l, Z.sub_diag. done. Qed.

(** Inside the window ahead of [n], serial order is the order of the offsets. *)
Lemma seqLess_window n a b :
  off n a < 32768 -> off n b < 32768 -> seqLess a b = (off n a <? off n b).
Proof.
  intros Ha Hb. rewrite seqLess_off.
  pose proof (off_range n a). pose proof (off_range n b).
  assert (He : u16 (a - b) = u16 (off n a - off n b)).
  { unfold off. rewrite !u16_mod, Zminus_mod_idemp_r, Zminus_mod_idemp_l. f_equal. lia. }
  rewrite He. destruct (off n a <? off n b) eqn:E; bool_to_Prop.
  - replace (u16 (off n a - off n b)) with (off n a - off n b + 65536); [apply Z.leb_le; lia|].
    rewrite u16_mod. symmetry. rewrite <- (Z.mod_add _ 1) by lia. apply Z.mod_small. lia.
  - rewrite u16_small by lia. apply Z.leb_gt. lia.
Qed.

(** ** The oldest buffered sequence number *)

Lemma oldest_of_spec n keys acc :
  Forall (fun k => off n k < 32768) keys -> off n acc < 32768 ->
  exists o, fold_left (fun acc seq =>
      match acc with
      | None => Some seq
      | Some oldest => if seqLess seq oldest then Some seq else Some oldest
      end) keys (Some acc) = Some o /\ (o = acc \/ o ∈ keys) /\
    off n o <= off n acc /\ forall k, k ∈ keys -> off n o <= off n k.
Proof.
  intros Hkeys. revert acc. induction Hkeys as [|k keys Hk Hkeys IH]; intros acc Hacc; cbn [fold_left].
  { exists acc. split_and!; [done|by left|lia|]. intros k Hk. by apply elem_of_nil in Hk. }
  rewrite (seqLess_window n) by done.
  destruct (off n k <? off n acc) eqn:E; bool_to_Prop.
  - destruct (IH k Hk) as (o & Ho & Hin & Hle & Hmin). exists o. split_and!; [done| |lia|].
    + right. destruct Hin as [->|Hin]; [left|by right].
    + intros x [->|Hx]%elem_of_cons; [done|by apply Hmin].
  - destruct (IH acc Hacc) as (o & Ho & Hin & Hle & Hmin). exists o. split_and!; [done| |done|].
    + destruct Hin as [->|Hin]; [by left|right; by right].
    + intros x [->|Hx]%elem_of_cons; [lia|by apply Hmin].
Qed.

Lemma oldest_of_min n keys :
  keys <> [] -> Forall (fun k => off n k < 32768) keys ->
  exists o, oldest_of keys = Some o /\ o ∈ keys /\ forall k, k ∈ keys -> off n o <= off n k.
Proof.
  intros Hne Hall. destruct keys as [|k keys]; [done|]. apply Forall_cons_iff in Hall as [Hk Hall].
  destruct (oldest_of_spec n keys k Hall Hk) as (o & Ho & Hin & Hle & Hmin).
  exists o. split_and!; [done| |].
  - destruct Hin as [->|Hin]; [left|by right].
  - intros x [->|Hx]%elem_of_cons; [done|by apply Hmin].
Qed.

(** ** What always holds of the buffer *)

(** The packets a buffer may hold ahead of [rbNextSeq]. *)
Record window_ok (b : reorderBuffer) : Prop := {
  wo_next : is_u16 (rbNextSeq b);
  wo_keys : forall k h, rbPkts b !! k = Some h ->
    is_u16 k /\ rSeq (hPkt h) = k /\ off (rbNextSeq b) k < 32768;
  wo_caps : Forall (fun c => 0 <= c <= maxRetainedRTPPayloadCap) (rbFree b);
  wo_pos : forall k h, rbPkts b !! k = Some h -> 0 <= hCap h;
}.

Record reorder_ok (b : reorderBuffer) : Prop := {
  ro_window : window_ok b;
  ro_hole : rbPkts b !! rbNextSeq b = None;
  ro_size : Z.of_nat (size (rbPkts b)) <= reorderWindow;
  ro_mem : Z.of_nat (length (rbFree b) + size (rbPkts b)) <= reorderWindow + 1;
  ro_fresh : rbStarted b = false -> rbPkts b = ∅;
}.

(** A list of packets that advances from [n]: each is at or ahead of the position
    the previous one left. *)
Fixpoint advances (n : Z) (l : list RtpPacket) : Prop :=
  match l with
  | [] => True
  | p :: rest => off n (rSeq p) < 32768 /\ advances (u16 (rSeq p + 1)) rest
  end.

Definition next_after (n : Z) (l : list RtpPacket) : Z :=
  match last l with Some p => u16 (rSeq p + 1) | None => n end.

Lemma next_after_cons n p l : next_after n (p :: l) = next_after (u16 (rSeq p + 1)) l.
Proof.
  unfold next_after. destruct l as [|q l]; [done|].
  rewrite last_cons_cons. destruct (last (q :: l)) eqn:E; [done|]. by apply last_None in E.
Qed.

Lemma drain_step_window b h :
  window_ok b -> rbPkts b !! rbNextSeq b = Some h ->
  window_ok (MkReorder (delete (rbNextSeq b) (rbPkts b)) (rb_recycle (rbFree b) h)
               (u16 (rbNextSeq b + 1)) (rbStarted b)).
Proof.
  intros Hw Hh. destruct Hw as [Hn Hk Hc Hp]. split; cbn [rbPkts rbNextSeq rbFree].
  - apply u16_range.
  - intros k g [Hne Hg]%lookup_delete_Some. destruct (Hk k g Hg) as (H16 & Hseq & Hoff).
    split_and!; [lia..|done|]. rewrite off_shift. pose proof (off_range (rbNextSeq b) k).
    rewrite u16_small; [lia|]. split; [|lia]. destruct (decide (off (rbNextSeq b) k = 0)) as [H0|]; [|lia].
    exfalso. apply Hne. rewrite (off_unwrap (rbNextSeq b) k H16), H0, Z.add_0_r. by rewrite u16_small.
  - unfold rb_recycle, maxRetainedRTPPayloadCap in *. constructor; [|done].
    case_if; [lia|]. specialize (Hp _ _ Hh). lia.
  - intros k g [_ Hg]%lookup_delete_Some. by eapply Hp.
Qed.

(** Draining empties the head of the window: what comes out advances from the
    current position, every packet comes from the map, and the total number of
    packet objects stays. *)
Lemma drain_loop_spec fuel b b' out :
  drain_loop fuel b = (b', out) -> (size (rbPkts b) <= fuel)%nat -> window_ok b ->
  window_ok b' /\ rbPkts b' !! rbNextSeq b' = None /\ advances (rbNextSeq b) out /\
  rbNextSeq b' = next_after (rbNextSeq b) out /\
  (length (rbFree b') + size (rbPkts b') = length (rbFree b) + size (rbPkts b))%nat /\
  (size (rbPkts b') + length out = size (rbPkts b))%nat /\ rbStarted b' = rbStarted b /\
  Forall (fun p => exists h, rbPkts b !! rSeq p = Some h /\ hPkt h = p) out /\
  rbPkts b' ⊆ rbPkts b.
Proof.
  revert b b' out. induction fuel as [|fuel IH]; intros b b' out Hd Hf Hw; cbn [drain_loop] in Hd.
  - injection Hd as <- <-. assert (rbPkts b = ∅) as He by (apply map_size_empty_inv; lia).
    rewrite He, lookup_empty. cbn. split_and!; (done || lia).
  - destruct (rbPkts b !! rbNextSeq b) as [h|] eqn:Hh.
    2:{ injection Hd as <- <-. cbn. split_and!; (done || lia). }
    destruct (drain_loop fuel _) as [b1 out1] eqn:Hd1. injection Hd as <- <-.
    pose proof (drain_step_window b h Hw Hh) as Hw1.
    pose proof (map_size_delete_Some _ _ (mk_is_Some _ _ Hh)) as Hsz.
    assert (Hpos : (0 < size (rbPkts b))%nat).
    { destruct (size (rbPkts b)) eqn:E; [|lia]. apply map_size_empty_inv in E. by rewrite E in Hh. }
    apply IH in Hd1; [|cbn [rbPkts]; lia|done].
    destruct Hd1 as (W & Hole & Hadv & Hnext & Hmem & Hcnt & Hst & Hfrom & Hsub).
    cbn [rbPkts rbNextSeq rbFree rbStarted rb_recycle length] in *.
    destruct (wo_keys b Hw _ _ Hh) as (H16 & Hseq & Hoff). 
    split_and!; [done|done|cbn; rewrite Hseq; done|rewrite next_after_cons, Hseq; done|lia|lia|done| |].
    + constructor.
      * exists h. by rewrite Hseq.
      * eapply Forall_impl; [exact Hfrom|]. intros p (g & Hg & Hp).
        apply lookup_delete_Some in Hg as [_ Hg]. by exists g.
    + etrans; [exact Hsub|]. apply delete_subseteq.
Qed.

Lemma drain_nonempty b h : rbPkts b !! rbNextSeq b = Some h -> (rb_drain b).2 <> [].
Proof.
  intros Hh. unfold rb_drain. destruct (size (rbPkts b)) eqn:E.
  - apply map_size_empty_inv in E. by rewrite E in Hh.
  - cbn [drain_loop]. rewrite Hh. by destruct (drain_loop _ _).
Qed.

Lemma advances_from n m out :
  advances m out -> Forall (fun p => off n (rSeq p) < 32768) out -> advances n out.
Proof. destruct out; [done|]. cbn. intros [_ H] Hall. by apply Forall_cons_iff in Hall as [? _]. Qed.

Lemma map_range_elem iter (m : gmap Z held) k : map_range iter -> k ∈ iter m <-> is_Some (m !! k).
Proof.
  intros Hi. rewrite (Hi m), list_elem_of_fmap. split.
  - intros ([k' h] & -> & Hin). apply elem_of_map_to_list in Hin. by exists h.
  - intros [h Hh]. exists (k, h). split; [done|]. by apply elem_of_map_to_list.
Qed.

(** Skipping ahead: the new position is a buffered packet, and every buffered
    packet stays within the window ahead of it. *)
Lemma skip_window iter b :
  map_range iter -> window_ok b -> rbPkts b <> ∅ ->
  window_ok (skipToOldest b (iter (rbPkts b))) /\
  is_Some (rbPkts b !! rbNextSeq (skipToOldest b (iter (rbPkts b)))).
Proof.
  intros Hi Hw Hne.
  assert (Hall : Forall (fun k => off (rbNextSeq b) k < 32768) (iter (rbPkts b))).
  { apply Forall_forall. intros k Hk. apply (map_range_elem iter) in Hk as [h Hh]; [|done].
    by apply (wo_keys b Hw k h). }
  assert (Hnil : iter (rbPkts b) <> []).
  { intros E. apply Hne, map_to_list_empty_iff. apply (fmap_nil_inv fst).
    apply Permutation_nil. by rewrite <- (Hi (rbPkts b)), E. }
  destruct (oldest_of_min (rbNextSeq b) _ Hnil Hall) as (o & Ho & Hin & Hmin).
  unfold skipToOldest. rewrite Ho. cbn [default from_option id rbNextSeq].
  pose proof (proj1 (map_range_elem iter _ o Hi) Hin) as [ho Hho].
  destruct (wo_keys b Hw o ho Hho) as (Ho16 & _ & Hooff).
  split; [|by exists ho]. split; cbn [rbPkts rbNextSeq rbFree]; [done| |apply (wo_caps b Hw)|apply (wo_pos b Hw)].
  intros k h Hh. destruct (wo_keys b Hw k h Hh) as (Hk16 & Hseq & Hoff). split_and!; [lia..|done|].
  assert (Hle : off (rbNextSeq b) o <= off (rbNextSeq b) k)
    by (apply Hmin, (map_range_elem iter); [done|by exists h]).
  rewrite (off_unwrap (rbNextSeq b) o Ho16), off_shift.
  pose proof (off_range (rbNextSeq b) o). pose proof (off_range (rbNextSeq b) k).
  rewrite u16_small; lia.
Qed.

(** Where the buffer stands when [pkt] arrives. *)
Definition position (b : reorderBuffer) (pkt : RtpPacket) : Z :=
  if rbStarted b then rbNextSeq b else rSeq pkt.

Definition started_at (b : reorderBuffer) (pkt : RtpPacket) : reorderBuffer :=
  if rbStarted b then b else MkReorder (rbPkts b) (rbFree b) (rSeq pkt) true.

Lemma started_at_ok b pkt :
  reorder_ok b -> is_u16 (rSeq pkt) ->
  reorder_ok (started_at b pkt) /\ rbPkts (started_at b pkt) = rbPkts b /\
  rbFree (started_at b pkt) = rbFree b /\
  rbNextSeq (started_at b pkt) = position b pkt /\ rbStarted (started_at b pkt) = true.
Proof.
  intros Hb H16. unfold started_at, position. destruct (rbStarted b) eqn:Hs; [done|].
  pose proof (ro_fresh b Hb Hs) as He. split_and!; try done. destruct Hb as [[] ? ? ? ?].
  split; cbn [rbPkts rbNextSeq rbFree rbStarted]; try done.
  - split; cbn [rbPkts rbNextSeq rbFree]; try done. intros k h Hh. by rewrite He in Hh.
  - by rewrite He.
Qed.

(** Storing the copy. *)
Definition rb_store (b : reorderBuffer) (pkt : RtpPacket) : reorderBuffer :=
  let free := match rbPkts b !! rSeq pkt with Some old => rb_recycle (rbFree b) old | None => rbFree b end in
  let '(free, copy) := rb_clone free pkt in
  MkReorder (<[rSeq pkt := copy]> (rbPkts b)) free (rbNextSeq b) (rbStarted b).

Lemma rb_store_ok b pkt :
  reorder_ok b -> is_u16 (rSeq pkt) -> off (rbNextSeq b) (rSeq pkt) < 32768 ->
  window_ok (rb_store b pkt) /\ rbNextSeq (rb_store b pkt) = rbNextSeq b /\
  rbStarted (rb_store b pkt) = rbStarted b /\
  Z.of_nat (size (rbPkts (rb_store b pkt))) <= reorderWindow + 1 /\
  Z.of_nat (length (rbFree (rb_store b pkt)) + size (rbPkts (rb_store b pkt))) <= reorderWindow + 1 /\
  (exists c, rbPkts (rb_store b pkt) = <[rSeq pkt := MkHeld pkt c]> (rbPkts b)).
Proof.
  intros Hb H16 Hoff. destruct Hb as [Hw Hhole Hsize Hmem _]. destruct Hw as [Hn Hk Hc Hp].
  unfold rb_store, rb_clone.
  set (free := match rbPkts b !! rSeq pkt with Some old => rb_recycle (rbFree b) old | None => rbFree b end).
  assert (Hfree : Forall (fun c => 0 <= c <= maxRetainedRTPPayloadCap) free /\
            (length free + size (rbPkts b) <= length (rbFree b) + size (rbPkts b) +
               (if rbPkts b !! rSeq pkt then 1 else 0))%nat /\
            size (<[rSeq pkt := MkHeld pkt 0]> (rbPkts b)) =
              (size (rbPkts b) + if rbPkts b !! rSeq pkt then 0 else 1)%nat).
  { subst free. rewrite map_size_insert. destruct (rbPkts b !! rSeq pkt) as [old|] eqn:E.
    - split_and!; [|unfold rb_recycle; cbn [length]; lia|unfold id; lia]. constructor; [|done].
      unfold maxRetainedRTPPayloadCap. specialize (Hp _ _ E). case_if; lia.
    - split_and!; [done|lia|cbn; lia]. }
  destruct Hfree as (Hf & Hfl & Hsz).
  assert (Hsz' : forall c, size (<[rSeq pkt := MkHeld pkt c]> (rbPkts b)) =
            size (<[rSeq pkt := MkHeld pkt 0]> (rbPkts b))) by (intros; by rewrite !map_size_insert).
  clearbody free. unfold reorderWindow in *.
  set (c0 := match free with c :: rest => (rest, c) | [] => ([], 0) end).
  destruct c0 as [free' cap0] eqn:Hc0. subst c0.
  assert (Hfree' : Forall (fun c => 0 <= c <= maxRetainedRTPPayloadCap) free' /\ 0 <= cap0 /\
            (length free' = pred (length free))%nat).
  { destruct free as [|c f]; injection Hc0 as <- <-; [done|]. apply Forall_cons_iff in Hf as [? ?].
    split_and!; [done|lia|done]. }
  destruct Hfree' as (Hf' & Hcap0 & Hfl').
  cbn [rbPkts rbNextSeq rbFree rbStarted]. rewrite Hsz', Hsz.
  split_and!; [|done|done| | |by eexists].
  - split; cbn [rbPkts rbNextSeq rbFree]; [done| |done|].
    + intros k h [(<- & <-)|[_ Hh]]%lookup_insert_Some; [by split|by apply Hk].
    + intros k h [(<- & <-)|[_ Hh]]%lookup_insert_Some; [cbn; case_if; lia|by eapply Hp].
  - destruct (rbPkts b !! rSeq pkt); lia.
  - rewrite Hfl'. destruct (rbPkts b !! rSeq pkt); lia.
Qed.

Lemma rb_push_unfold iter b pkt :
  rb_push iter b pkt =
    let b := started_at b pkt in
    if seqLess (rSeq pkt) (rbNextSeq b) then (b, [])
    else
      let b := rb_store b pkt in
      let b := if reorderWindow <? Z.of_nat (size (rbPkts b)) then skipToOldest b (iter (rbPkts b)) else b in
      rb_drain b.
Proof.
  unfold rb_push, rb_store. fold (started_at b pkt). cbn zeta.
  by destruct (rb_clone _ pkt).
Qed.

(** One packet keeps the buffer well formed; what comes out advances from where
    the buffer stood, ends where it now stands, and consists of packets that came
    in. *)
Lemma rb_push_ok iter b pkt b' out :
  map_range iter -> reorder_ok b -> is_u16 (rSeq pkt) -> rb_push iter b pkt = (b', out) ->
  reorder_ok b' /\ advances (position b pkt) out /\
  rbNextSeq b' = next_after (position b pkt) out /\ rbStarted b' = true /\
  Forall (fun p => p = pkt \/ exists k h, rbPkts b !! k = Some h /\ hPkt h = p) out /\
  (forall k h, rbPkts b' !! k = Some h -> hPkt h = pkt \/ exists k' h', rbPkts b !! k' = Some h' /\ hPkt h' = hPkt h).
Proof.
  intros Hi Hb H16. rewrite rb_push_unfold. cbn zeta.
  destruct (started_at_ok b pkt Hb H16) as (Hb1 & Hp1 & Hf1 & Hn1 & Hs1).
  set (b1 := started_at b pkt) in *. rewrite seqLess_off, <- Hn1. fold (off (rbNextSeq b1) (rSeq pkt)).
  case_if.
  { intros [= <- <-]. split_and!; try done. intros k h Hh. right. exists k, h. by rewrite <- Hp1. }
  assert (Hoff : off (rbNextSeq b1) (rSeq pkt) < 32768) by lia.
  destruct (rb_store_ok b1 pkt Hb1 H16 Hoff) as (Hw2 & Hn2 & Hs2 & Hsz2 & Hm2 & c & Hp2).
  set (b2 := rb_store b1 pkt) in *. 
  set (b3 := if reorderWindow <? Z.of_nat (size (rbPkts b2)) then _ else b2).
  assert (Hb3 : window_ok b3 /\ rbPkts b3 = rbPkts b2 /\ rbFree b3 = rbFree b2 /\ rbStarted b3 = true /\
            (reorderWindow < Z.of_nat (size (rbPkts b2)) -> is_Some (rbPkts b3 !! rbNextSeq b3)) /\
            (b3 = b2 \/ is_Some (rbPkts b3 !! rbNextSeq b3))).
  { subst b3. case_if; [|split_and!; try done; [congruence|intros; lia|by left]].
    assert (Hne : rbPkts b2 <> ∅) by (intros E; rewrite E, map_size_empty in Heqb1; vm_compute in Heqb1; done).
    destruct (skip_window iter b2 Hi Hw2 Hne) as [Hw3 Hin3].
    split_and!; try done; [cbn; congruence|by right]. }
  destruct Hb3 as (Hw3 & Hp3 & Hf3 & Hs3 & Hfull & Hskip). clearbody b3.
  intros Hd. assert (Hout : is_Some (rbPkts b3 !! rbNextSeq b3) -> out <> []).
  { intros [h Hh]. pose proof (drain_nonempty b3 h Hh) as Hne. by rewrite Hd in Hne. }
  unfold rb_drain in Hd. apply drain_loop_spec in Hd; [|lia|done].
  destruct Hd as (W & Hole & Hadv & Hnext & Hmem & Hcnt & Hst & Hfrom & Hsub).
  rewrite Hp3, ?Hf3 in *. unfold reorderWindow in *.
  assert (Hin : forall k h, rbPkts b2 !! k = Some h ->
            hPkt h = pkt \/ exists k' h', rbPkts b !! k' = Some h' /\ hPkt h' = hPkt h).
  { intros k h Hh. rewrite Hp2 in Hh. apply lookup_insert_Some in Hh as [[_ <-]|[_ Hh]]; [by left|].
    right. exists k, h. by rewrite <- Hp1. }
  split_and!.
  - split; unfold reorderWindow; try done; [|lia|congruence].
    destruct (decide (256 < Z.of_nat (size (rbPkts b2)))) as [Hbig|]; [|lia].
    specialize (Hout (Hfull Hbig)). destruct out; [done|]. cbn [length] in Hcnt. lia.
  - apply (advances_from _ (rbNextSeq b3)); [done|]. eapply Forall_impl; [exact Hfrom|].
    intros p (h & Hh & _). rewrite <- Hn2. by apply (wo_keys b2 Hw2 (rSeq p) h).
  - rewrite Hnext. destruct Hskip as [->|Hsome]; [by rewrite Hn2|].
    specialize (Hout Hsome). destruct out as [|p out]; [done|]. by rewrite !next_after_cons.
  - congruence.
  - eapply Forall_impl; [exact Hfrom|]. intros p (h & Hh & <-).
    destruct (Hin _ _ Hh) as [->|(k' & h' & ? & ?)]; [by left|right; by exists k', h'].
  - intros k h Hh. by apply (Hin k), (lookup_weaken _ _ _ _ Hh Hsub).
Qed.

Lemma advances_app n l k : advances n l -> advances (next_after n l) k -> advances n (l ++ k).
Proof.
  revert n. induction l as [|p l IH]; intros n Hl Hk; [done|]. cbn in *.
  rewrite next_after_cons in Hk. destruct Hl. split; [done|by apply IH].
Qed.

Lemma next_after_app n l k : next_after n (l ++ k) = next_after (next_after n l) k.
Proof.
  revert n. induction l as [|p l IH]; intros n; [done|]. cbn [app]. by rewrite !next_after_cons, IH.
Qed.

Lemma rb_run_ok iter pkts b b' out :
  map_range iter -> reorder_ok b -> rbStarted b = true -> Forall (fun p => is_u16 (rSeq p)) pkts ->
  rb_run iter b pkts = (b', out) ->
  reorder_ok b' /\ advances (rbNextSeq b) out /\ rbNextSeq b' = next_after (rbNextSeq b) out /\
  Forall (fun p => p ∈ pkts \/ exists k h, rbPkts b !! k = Some h /\ hPkt h = p) out.
Proof.
  intros Hi. revert b out. induction pkts as [|pkt pkts IH]; intros b out Hb Hs H16; cbn [rb_run].
  { intros [= <- <-]. split_and!; [done..|]. constructor. }
  apply Forall_cons_iff in H16 as [Hp16 H16].
  destruct (rb_push iter b pkt) as [b1 out1] eqn:Hpush.
  destruct (rb_run iter b1 pkts) as [b2 out2] eqn:Hrun. intros [= <- <-].
  apply rb_push_ok in Hpush as (Hb1 & Hadv & Hnext & Hs1 & Hin & Hkeep); [|done..].
  unfold position in *. rewrite Hs in *.
  destruct (IH b1 out2 Hb1 Hs1 H16 Hrun) as (Hb2 & Hadv2 & Hnext2 & Hin2). rewrite Hnext in *.
  split_and!; [done|by apply advances_app|by rewrite next_after_app|]. apply Forall_app. split.
  - eapply Forall_impl; [exact Hin|]. intros p [->|H]; [left; left|by right].
  - eapply Forall_impl; [exact Hin2|]. intros p [H|(k & h & Hh & <-)]; [left; by right|].
    destruct (Hkeep k h Hh) as [->|(k' & h' & ? & ?)]; [left; left|right; by exists k', h'].
Qed.

Lemma newReorderBuffer_ok : reorder_ok newReorderBuffer.
Proof.
  split; cbn [rbPkts rbNextSeq rbFree rbStarted newReorderBuffer]; done.
Qed.

Lemma advances_serial n l i p q :
  advances n l -> l !! i = Some p -> l !! S i = Some q -> seqLess (rSeq p) (rSeq q) = true.
Proof.
  revert n i. induction l as [|x l IH]; intros n i Ha Hp Hq; [done|]. cbn in Ha. destruct Ha as [_ Ha].
  destruct i as [|i]; [|by eapply IH]. cbn in Hp. injection Hp as ->.
  destruct l as [|y l]; [done|]. cbn in Hq. injection Hq as ->. cbn in Ha. destruct Ha as [Ha _].
  rewrite seqLess_off. pose proof (off_range (u16 (rSeq p + 1)) (rSeq q)) as Hr.
  assert (He : u16 (rSeq p - rSeq q) = 65535 - off (u16 (rSeq p + 1)) (rSeq q)).
  { unfold off in *. rewrite !u16_mod in *. rewrite Zminus_mod_idemp_r in *.
    replace (rSeq p - rSeq q) with (- (rSeq q - (rSeq p + 1)) + -1) by lia.
    set (d := rSeq q - (rSeq p + 1)) in *.
    pose proof (Z.div_mod d 65536). symmetry. apply (Z.mod_unique _ _ (- (d / 65536) - 1)); lia. }
  rewrite He. apply Z.leb_le. lia.
Qed.

(** The reorder buffer is bounded and never goes back.  Whatever packets a
    track delivers, in whatever order, with losses, repeats and wrap-around, and
    however the map is iterated: at most 256 packets are held and 257 packet
    objects exist, no idle one pinning more than two KiB; every packet handed on
    is one that arrived, and each precedes the next in serial order, so none is
    handed on twice in a row or after a newer one. *)
Theorem reorder_buffer_safe (iter : gmap Z held -> list Z) (pkts : list RtpPacket)
    (b : reorderBuffer) (out : list RtpPacket)
    (Hiter : map_range iter) (H16 : Forall (fun p => is_u16 (rSeq p)) pkts)
    (Hrun : rb_run iter newReorderBuffer pkts = (b, out)) :
  Z.of_nat (size (rbPkts b)) <= 256 /\
  Z.of_nat (length (rbFree b) + size (rbPkts b)) <= 257 /\
  Forall (fun c => 0 <= c <= 2048) (rbFree b) /\
  Forall (fun p => p ∈ pkts) out /\
  forall i p q, out !! i = Some p -> out !! S i = Some q -> seqLess (rSeq p) (rSeq q) = true.
Proof.
  destruct pkts as [|pkt pkts]; cbn [rb_run] in Hrun.
  { injection Hrun as <- <-. cbn. split_and!; (lia || constructor || done). }
  apply Forall_cons_iff in H16 as [Hp16 H16].
  destruct (rb_push iter newReorderBuffer pkt) as [b1 out1] eqn:Hpush.
  destruct (rb_run iter b1 pkts) as [b2 out2] eqn:Hrun2. injection Hrun as <- <-.
  apply rb_push_ok in Hpush as (Hb1 & Hadv & Hnext & Hs1 & Hin & Hkeep);
    [|done|apply newReorderBuffer_ok|done].
  destruct (rb_run_ok iter pkts b1 b2 out2 Hiter Hb1 Hs1 H16 Hrun2) as (Hb2 & Hadv2 & Hnext2 & Hin2).
  destruct Hb2 as [Hw _ Hsize Hmem _]. rewrite Hnext in *.
  split_and!; [done|done|apply (wo_caps _ Hw)| |].
  - apply Forall_app. split.
    + eapply Forall_impl; [exact Hin|]. intros p [->|(k & h & Hh & _)]; [left|].
      cbn in Hh. by rewrite lookup_empty in Hh.
    + eapply Forall_impl; [exact Hin2|]. intros p [H|(k & h & Hh & <-)]; [by right|].
      destruct (Hkeep k h Hh) as [->|(k' & h' & Hh' & _)]; [left|].
      cbn in Hh'. by rewrite lookup_empty in Hh'.
  - intros i p q. eapply advances_serial, advances_app; done.
Qed.

Definition keys_of (m : gmap Z held) : list Z := (map_to_list m).*1.

Lemma reorder_buffer_safe_witness :
  let pk s := MkRtp s false [] in
  let r := rb_run keys_of newReorderBuffer (pk <$> [65534; 0; 65535; 65534; 1]) in
  map rSeq r.2 = [65534; 65535; 0; 1] /\ Z.of_nat (size (rbPkts r.1)) <= 256.
Proof.
  intros pk r. destruct r as [b out] eqn:Hr.
  destruct (reorder_buffer_safe keys_of (pk <$> [65534; 0; 65535; 65534; 1]) b out) as [Hs _].
  - by intros m.
  - repeat constructor; cbn; lia.
  - exact Hr.
  - split; [|exact Hs]. change out with (b, out).2. rewrite <- Hr. vm_compute. reflexivity.
Defined.
