(* ===== verification/VpTrack.v ===== *)
(** * VpTrack: a video track delivers the samples written to it

    The reorder buffer undoes any bounded reordering of the packets, and the
    assembler turns the packets of a sample back into the sample. *)

From S2P Require Import Prelude Bytes VpWire VpRtp.

(** ** Unwrapped sequence numbers *)

Lemma off_u16 next j : 0 <= j - next < 65536 -> off (u16 next) (u16 j) = j - next.
Proof.
  intros Hj. unfold off. rewrite !u16_mod, Zminus_mod_idemp_r, Zminus_mod_idemp_l.
  by apply Z.mod_small.
Qed.

Lemma u16_inj i j : -65536 < i - j < 65536 -> u16 i = u16 j -> i = j.
Proof.
  intros Hd He. rewrite !u16_mod in He.
  pose proof (Z.div_mod i 65536). pose proof (Z.div_mod j 65536).
  assert (i / 65536 = j / 65536) by lia. lia.
Qed.

Lemma size_keys_le {V} (m : gmap Z V) (l : list Z) :
  (forall k, is_Some (m !! k) -> k ∈ l) -> (size m <= length l)%nat.
Proof.
  intros Hk. rewrite <- length_map_to_list, <- (length_fmap fst).
  apply submseteq_length, NoDup_submseteq; [apply NoDup_fst_map_to_list|].
  intros k ([k' v] & -> & Hin)%list_elem_of_fmap. apply Hk. exists v. by apply elem_of_map_to_list.
Qed.

Section order.
Context (iter : gmap Z held -> list Z) (Hiter : map_range iter).
(** The packet with unwrapped sequence number [i]. *)
Context (pk : Z -> RtpPacket) (Hpk : forall i, rSeq (pk i) = u16 i).

(** The buffer holds exactly the packets of [A] from [next] on. *)
Record holds (A : list Z) (next : Z) (b : reorderBuffer) : Prop := {
  ho_next : rbNextSeq b = u16 next;
  ho_near : forall j, j ∈ A -> j < next + 32768;
  ho_sound : forall k h, rbPkts b !! k = Some h ->
    exists j, j ∈ A /\ next <= j /\ k = u16 j /\ hPkt h = pk j;
  ho_full : forall j, j ∈ A -> next <= j -> exists h, rbPkts b !! u16 j = Some h /\ hPkt h = pk j;
}.

Lemma holds_next_in A next b : holds A next b -> is_Some (rbPkts b !! u16 next) <-> next ∈ A.
Proof.
  intros H. split.
  - intros [h Hh]. destruct (ho_sound _ _ _ H _ _ Hh) as (j & Hj & Hle & He & _).
    assert (next = j) as ->; [|done]. pose proof (ho_near _ _ _ H j Hj). apply u16_inj; [lia|done].
  - intros Hin. destruct (ho_full _ _ _ H next Hin) as (h & Hh & _); [lia|]. by exists h.
Qed.

Lemma drain_holds fuel A next b b' out :
  drain_loop fuel b = (b', out) -> (size (rbPkts b) <= fuel)%nat -> holds A next b ->
  exists next', next <= next' /\ out = map pk (seqZ next (next' - next)) /\
    (forall j, next <= j < next' -> j ∈ A) /\ next' ∉ A /\ holds A next' b'.
Proof.
  revert next b out. induction fuel as [|fuel IH]; intros next b out Hd Hf Hh; cbn [drain_loop] in Hd.
  - injection Hd as <- <-. assert (rbPkts b = ∅) as He by (apply map_size_empty_inv; lia).
    exists next. rewrite Z.sub_diag. split_and!; [lia|done|lia| |done].
    intros Hin%(holds_next_in _ _ _ Hh). rewrite He in Hin. by destruct Hin.
  - rewrite (ho_next _ _ _ Hh) in Hd. destruct (rbPkts b !! u16 next) as [h|] eqn:Hlook; cycle 1.
    { injection Hd as <- <-. exists next. rewrite Z.sub_diag. split_and!; [lia|done|lia| |done].
      intros Hin%(holds_next_in _ _ _ Hh). rewrite Hlook in Hin. by destruct Hin. }
    pose proof (proj1 (holds_next_in _ _ _ Hh) (mk_is_Some _ _ Hlook)) as Hin.
    pose proof (map_size_delete_Some _ _ (mk_is_Some _ _ Hlook)) as Hsz.
    assert (Hpos : (0 < size (rbPkts b))%nat).
    { destruct (size (rbPkts b)) eqn:E; [|lia]. apply map_size_empty_inv in E. by rewrite E in Hlook. }
    destruct (drain_loop fuel _) as [b1 out1] eqn:Hd1. injection Hd as <- <-.
    apply (IH (next + 1)) in Hd1 as (next' & Hle & -> & Hall & Hnot & Hh'); [|cbn [rbPkts]; lia|].
    + exists next'. split_and!; [lia| | |done|done].
      * rewrite (seqZ_cons next) by lia. cbn [map]. f_equal; [|do 2 f_equal; lia].
        destruct (ho_full _ _ _ Hh next Hin) as (h' & Hh2 & Heq); [lia|]. congruence.
      * intros j Hj. destruct (decide (j = next)) as [->|]; [done|]. apply Hall. lia.
    + split; cbn [rbPkts rbNextSeq].
      * rewrite !u16_mod, Zplus_mod_idemp_l. done.
      * intros j Hj. pose proof (ho_near _ _ _ Hh j Hj). lia.
      * intros k g [Hne Hg]%lookup_delete_Some.
        destruct (ho_sound _ _ _ Hh k g Hg) as (j & Hj & Hle & -> & Heq). exists j.
        split_and!; [done| |done|done]. destruct (decide (j = next)) as [->|]; [done|lia].
      * intros j Hj Hle. destruct (ho_full _ _ _ Hh j Hj) as (g & Hg & Heq); [lia|]. exists g.
        split; [|done]. rewrite lookup_delete_ne; [done|]. intros E.
        pose proof (ho_near _ _ _ Hh j Hj). apply u16_inj in E; lia.
Qed.

(** One arrival: the packets that became contiguous come out in order. *)
Lemma push_holds A next i b b' out :
  reorder_ok b -> rbStarted b = true -> holds A next b -> next <= i < next + 32768 ->
  (i = next \/ Forall (fun j => j < next + 256) (i :: A)) -> next ∉ A ->
  rb_push iter b (pk i) = (b', out) ->
  exists next', next <= next' /\ out = map pk (seqZ next (next' - next)) /\
    (forall j, next <= j < next' -> j ∈ i :: A) /\ next' ∉ i :: A /\ holds (i :: A) next' b' /\
    reorder_ok b' /\ rbStarted b' = true.
Proof.
  intros Hb Hs Hh Hi Hsmall Hnext Hpush.
  assert (H16 : is_u16 (rSeq (pk i))) by (rewrite Hpk; apply u16_range).
  pose proof (rb_push_ok iter b (pk i) b' out Hiter Hb H16 Hpush) as (Hb' & _ & _ & Hs' & _).
  rewrite rb_push_unfold in Hpush. cbn zeta in Hpush. unfold started_at in Hpush. rewrite Hs in Hpush.
  rewrite seqLess_off in Hpush. fold (off (rbNextSeq b) (rSeq (pk i))) in Hpush.
  rewrite (ho_next _ _ _ Hh), Hpk, off_u16 in Hpush by lia.
  rewrite (proj2 (Z.leb_gt 32768 (i - next))) in Hpush by lia.
  destruct (rb_store_ok b (pk i) Hb H16) as (Hw & Hn2 & Hs2 & _ & _ & c & Hp2).
  { rewrite (ho_next _ _ _ Hh), Hpk, off_u16; lia. }
  set (b2 := rb_store b (pk i)) in *. rewrite Hpk in Hp2.
  assert (Hh2 : holds (i :: A) next b2).
  { split.
    - by rewrite Hn2, (ho_next _ _ _ Hh).
    - intros j [->|Hj]%elem_of_cons; [lia|by apply (ho_near _ _ _ Hh)].
    - intros k h Hk. rewrite Hp2 in Hk. apply lookup_insert_Some in Hk as [[<- <-]|[_ Hk]].
      + exists i. split_and!; [left|lia|done|done].
      + destruct (ho_sound _ _ _ Hh k h Hk) as (j & Hj & ? & ? & ?). exists j. split_and!; try done. by right.
    - intros j Hj Hle. rewrite Hp2. destruct (decide (j = i)) as [->|Hne].
      + rewrite lookup_insert_eq. by eexists.
      + apply elem_of_cons in Hj as [->|Hj]; [done|].
        pose proof (ho_near _ _ _ Hh j Hj). rewrite lookup_insert_ne; [by apply (ho_full _ _ _ Hh)|].
        intros E. apply u16_inj in E; lia. }
  set (b3 := if reorderWindow <? Z.of_nat (size (rbPkts b2)) then _ else b2) in Hpush.
  assert (Hh3 : holds (i :: A) next b3 /\ rbPkts b3 = rbPkts b2).
  { subst b3. case_if; [|done]. split; [|done]. destruct Hsmall as [->|Hsmall]; cycle 1.
    - exfalso. assert (Hle : (size (rbPkts b2) <= length (u16 <$> seqZ next 256))%nat).
      { apply size_keys_le. intros k [h Hk]. destruct (ho_sound _ _ _ Hh2 k h Hk) as (j & Hj & ? & -> & _).
        apply list_elem_of_fmap. exists j. split; [done|]. apply elem_of_seqZ. split; [lia|].
        by apply (proj1 (Forall_forall _ _) Hsmall j Hj). }
      rewrite length_fmap, length_seqZ in Hle. unfold reorderWindow in *. lia.
    - assert (Hin : is_Some (rbPkts b2 !! u16 next)) by (apply (holds_next_in _ _ _ Hh2); left).
      assert (Hne : iter (rbPkts b2) <> []).
      { intros E. pose proof (proj2 (map_range_elem iter _ (u16 next) Hiter) Hin) as Hx.
        rewrite E in Hx. by apply elem_of_nil in Hx. }
      destruct (oldest_of_min (u16 next) (iter (rbPkts b2)) Hne) as (o & Ho & Hoin & Hmin).
      { apply Forall_forall. intros k Hk. apply (map_range_elem iter) in Hk as [h Hk]; [|done].
        rewrite <- (ho_next _ _ _ Hh2). by apply (wo_keys b2 Hw k h). }
      assert (o = u16 next) as ->.
      { specialize (Hmin (u16 next) (proj2 (map_range_elem iter _ _ Hiter) Hin)).
        rewrite (off_u16 next next) in Hmin by lia. pose proof (off_range (u16 next) o).
        apply (map_range_elem iter) in Hoin as [ho Hho]; [|done].
        destruct (ho_sound _ _ _ Hh2 _ _ Hho) as (j & Hj & Hjle & -> & _). f_equal.
        pose proof (ho_near _ _ _ Hh2 j Hj). rewrite off_u16 in Hmin by lia. lia. }
      unfold skipToOldest. rewrite Ho. cbn [default from_option id].
      destruct Hh2 as [E1 E2 E3 E4]. split; done. }
  destruct Hh3 as [Hh3 Hp3]. clearbody b3. unfold rb_drain in Hpush.
  apply (drain_holds _ (i :: A) next) in Hpush as (next' & ? & ? & ? & ? & ?); [|lia|done].
  by exists next'.
Qed.

(** A bounded reordering of [base .. base+n-1] that starts with [base]: no packet
    arrives more than 128 places away from its own. *)
Record reordering (base n : Z) (l : list Z) : Prop := {
  re_perm : l ≡ₚ seqZ base n;
  re_near : forall k i, l !! k = Some i -> -128 <= i - (base + Z.of_nat k) <= 128;
}.

Lemma reordering_pos base n l pre post j :
  reordering base n l -> l = pre ++ post -> base <= j < base + n -> j ∉ pre ->
  len pre - 128 <= j - base.
Proof.
  intros Hr Hl Hj Hnot. assert (Hin : j ∈ l) by (rewrite (re_perm _ _ _ Hr); by apply elem_of_seqZ).
  apply list_elem_of_lookup in Hin as [k Hk].
  destruct (decide (k < length pre)%nat) as [Hlt|].
  - exfalso. apply Hnot. rewrite Hl, lookup_app_l in Hk by done. by eapply list_elem_of_lookup_2.
  - pose proof (re_near _ _ _ Hr k j Hk). lia.
Qed.

Lemma order_run base n l pre post next b b' out :
  reordering base n l -> l = pre ++ post -> holds pre next b -> reorder_ok b -> rbStarted b = true ->
  base <= next -> next ∉ pre -> (forall j, base <= j < next -> j ∈ pre) ->
  rb_run iter b (map pk post) = (b', out) ->
  out = map pk (seqZ next (base + n - next)).
Proof.
  intros Hr. revert pre next b out. induction post as [|i post IH];
    intros pre next b out Hl Hh Hb Hs Hbase Hnot Hall; cbn [map rb_run].
  - intros [= <- <-]. rewrite app_nil_r in Hl. subst pre.
    destruct (decide (next < base + n)) as [Hlt|].
    + exfalso. apply Hnot. rewrite (re_perm _ _ _ Hr). apply elem_of_seqZ. lia.
    + by rewrite seqZ_nil by lia.
  - destruct (rb_push iter b (pk i)) as [b1 out1] eqn:Hpush.
    destruct (rb_run iter b1 (map pk post)) as [b2 out2] eqn:Hrun. intros [= <- <-].
    assert (Hnd : NoDup l) by (rewrite (re_perm _ _ _ Hr); apply NoDup_seqZ).
    assert (Hlen : forall j, j ∈ l -> base <= j < base + n)
      by (intros j Hj; rewrite (re_perm _ _ _ Hr) in Hj; by apply elem_of_seqZ).
    assert (Hi : base <= i < base + n) by (apply Hlen; rewrite Hl; apply elem_of_app; right; left).
    assert (Hinew : i ∉ pre).
    { rewrite Hl in Hnd. apply NoDup_app in Hnd as (_ & Hd & _). intros Hin. apply (Hd i Hin). left. }
    assert (Hile : next <= i).
    { destruct (decide (next <= i)); [done|]. exfalso. apply Hinew, Hall. lia. }
    assert (Hpos : forall j, j ∈ i :: pre -> j - base <= len pre + 128).
    { intros j [->|Hj]%elem_of_cons.
      - assert (l !! length pre = Some i) as Hx by (rewrite Hl; by rewrite list_lookup_middle).
        pose proof (re_near _ _ _ Hr _ _ Hx). lia.
      - apply list_elem_of_lookup in Hj as [k Hk]. pose proof (lookup_lt_Some _ _ _ Hk).
        assert (l !! k = Some j) as Hx by (rewrite Hl; by rewrite lookup_app_l).
        pose proof (re_near _ _ _ Hr _ _ Hx). lia. }
    pose proof (reordering_pos base n l pre (i :: post) next Hr Hl) as Hlate.
    specialize (Hlate ltac:(lia) Hnot).
    pose proof (Hpos i ltac:(left)) as Hipos.
    destruct (push_holds pre next i b b1 out1) as (next' & Hle & -> & Hin' & Hnot' & Hh' & Hb1 & Hs1);
      [done|done|done|lia| |done|done|].
    { destruct (decide (i = next)) as [|Hne]; [by left|right]. apply Forall_forall. intros j Hj.
      specialize (Hpos j Hj).
      assert (Hx : next ∉ pre ++ [i]) by (rewrite not_elem_of_app, list_elem_of_singleton; by split).
      assert (Hl2 : l = (pre ++ [i]) ++ post) by (by rewrite <- app_assoc).
      pose proof (reordering_pos base n l _ post next Hr Hl2 ltac:(lia) Hx) as Hy.
      rewrite len_app in Hy. cbn [length] in Hy. lia. }
    assert (Hmem : forall j, j ∈ pre ++ [i] <-> j ∈ i :: pre).
    { intros j. by rewrite (Permutation_app_comm pre [i]). }
    assert (Hle' : next' <= base + n).
    { destruct (decide (next' <= base + n)) as [|Hgt]; [done|]. exfalso.
      assert (Hx : base + n ∈ i :: pre).
      { destruct (decide (next <= base + n)); [apply Hin'; lia|]. right. apply Hall. lia. }
      assert (base + n ∈ l) as Hy.
      { rewrite Hl. apply elem_of_app. apply elem_of_cons in Hx as [->|Hx]; [right; left|by left]. }
      specialize (Hlen _ Hy). lia. }
    rewrite (IH (pre ++ [i]) next' b1 out2); cycle 1.
    + by rewrite <- app_assoc.
    + destruct Hh' as [E1 E2 E3 E4]. split; [done|..].
      * intros j Hj. by apply E2, Hmem.
      * intros k h Hk. destruct (E3 k h Hk) as (j & Hj & ?). exists j. by rewrite Hmem.
      * intros j Hj. by apply E4, Hmem.
    + done.
    + done.
    + lia.
    + by rewrite Hmem.
    + intros j Hj. apply Hmem. destruct (decide (j < next)); [right; apply Hall; lia|apply Hin'; lia].
    + done.
    + rewrite <- map_app. f_equal. replace (base + n - next) with ((next' - next) + (base + n - next')) by lia.
      rewrite seqZ_app by lia. do 2 f_equal. lia.
Qed.

Lemma order_restored base n l b out :
  reordering base n l -> l !! 0%nat = Some base ->
  rb_run iter newReorderBuffer (map pk l) = (b, out) -> out = map pk (seqZ base n).
Proof.
  intros Hr H0. destruct l as [|i l]; [done|]. cbn in H0. injection H0 as ->. intros Hrun.
  assert (H16 : is_u16 (rSeq (pk base))) by (rewrite Hpk; apply u16_range).
  destruct (started_at_ok newReorderBuffer (pk base) newReorderBuffer_ok H16) as (Hb1 & Hp1 & _ & Hn1 & Hs1).
  set (b1 := started_at newReorderBuffer (pk base)) in *.
  replace n with (base + n - base) by lia.
  apply (order_run base n (base :: l) [] (base :: l) base b1 b out Hr); try done.
  - split; cbn; [apply Hpk| | |].
    + intros j Hj. by apply elem_of_nil in Hj.
    + intros k h Hk. by rewrite lookup_empty in Hk.
    + intros j Hj. by apply elem_of_nil in Hj.
  - apply not_elem_of_nil.
  - intros; lia.
Qed.
End order.

(** ** Frame assembly *)

Section assembly.
Context (vp8Unmarshal : bytes -> option (bool * bytes)).

(** Packets that belong to one frame: the first starts it, the sequence numbers
    are consecutive, no later one starts another and only the last may carry the
    marker; [buf] is what they carry. *)
Inductive joined : list RtpPacket -> bytes -> Prop :=
| joined_start p x : vp8Unmarshal (rPayload p) = Some (true, x) -> joined [p] x
| joined_more seg q p buf x :
    joined (seg ++ [q]) buf -> rMarker q = false -> rSeq p = u16 (rSeq q + 1) ->
    vp8Unmarshal (rPayload p) = Some (false, x) -> joined ((seg ++ [q]) ++ [p]) (buf ++ x).

Definition whole_frame (seg : list RtpPacket) (frame : bytes) : Prop :=
  joined seg frame /\ (exists p, last seg = Some p /\ rMarker p = true) /\
  epochHdrLen <= len frame <= maxAssembledFrameSize.

(** The assembler after the packets [done]. *)
Record assembling (done : list RtpPacket) (s : vp8FrameState) : Prop := {
  as_bound : len (fsBuf s) <= maxAssembledFrameSize;
  as_last : fsHaveLastSeq s = true -> exists q, last done = Some q /\ fsLastSeq s = rSeq q;
  as_valid : fsValid s = true -> exists pre seg q,
    done = pre ++ seg ++ [q] /\ joined (seg ++ [q]) (fsBuf s) /\ rMarker q = false /\
    fsLastSeq s = rSeq q /\ fsHaveLastSeq s = true;
}.

Lemma process_assembling done s pkt s' frame :
  assembling done s -> processRTPPacket vp8Unmarshal s pkt = (s', frame) ->
  assembling (done ++ [pkt]) s' /\
  (forall f, frame = Some f -> exists pre seg, done ++ [pkt] = pre ++ seg /\ whole_frame seg f).
Proof.
  intros Hs. unfold processRTPPacket.
  set (gap := fsHaveLastSeq s && negb (rSeq pkt =? u16 (fsLastSeq s + 1))).
  assert (Hreset : assembling (done ++ [pkt]) (MkFrameState [] (rSeq pkt) true false)).
  { split; cbn; [unfold maxAssembledFrameSize, vp8MaxPayloadSize; lia| |done].
    intros _. exists pkt. by rewrite last_snoc. }
  destruct (vp8Unmarshal (rPayload pkt)) as [[start x]|] eqn:Hu; [|by intros [= <- <-]].
  set (buf := if start then [] else if gap then [] else fsBuf s).
  set (valid := if start then true else if gap then false else fsValid s).
  destruct valid eqn:Hv; cbn [negb]; cycle 1.
  { intros [= <- <-]. split; [|done]. split; cbn; [| |done].
    - subst buf. pose proof (as_bound _ _ Hs). unfold maxAssembledFrameSize, vp8MaxPayloadSize in *.
      destruct start, gap; cbn; lia.
    - intros _. exists pkt. by rewrite last_snoc. }
  case_if; [by intros [= <- <-]|].
  assert (Hj : exists pre seg, done ++ [pkt] = pre ++ seg ++ [pkt] /\ joined (seg ++ [pkt]) (buf ++ x)).
  { subst valid buf. destruct start.
    - exists done, []. split; [done|]. by constructor.
    - destruct gap eqn:Hgap; [done|].
      destruct (as_valid _ _ Hs Hv) as (pre & seg & q & -> & Hjoin & Hm & Hlast & Hhave).
      exists pre, (seg ++ [q]). split; [by rewrite <- !app_assoc|]. constructor; [done|done| |done].
      subst gap. rewrite Hhave in Hgap. cbn in Hgap. bool_to_Prop. congruence. }
  destruct Hj as (pre & seg & Hdone & Hjoin). rewrite <- len_app in *.
  destruct (rMarker pkt) eqn:Hm; cbn [negb]; intros [= <- <-].
  - split; [done|]. intros f Hf. case_if; [|done]. injection Hf as <-.
    exists pre, (seg ++ [pkt]). split; [done|]. split; [done|].
    split; [exists pkt; by rewrite last_snoc|done].
  - split; [|done]. split; cbn; [done| |].
    + intros _. exists pkt. by rewrite last_snoc.
    + intros _. by exists pre, seg, pkt.
Qed.

Lemma process_all_assembling pkts done s s' frames :
  assembling done s -> process_all vp8Unmarshal s pkts = (s', frames) ->
  assembling (done ++ pkts) s' /\
  Forall (fun f => exists pre seg post, done ++ pkts = pre ++ seg ++ post /\ whole_frame seg f) frames.
Proof.
  revert done s frames. induction pkts as [|pkt pkts IH]; intros done s frames Hs; cbn [process_all].
  { intros [= <- <-]. rewrite app_nil_r. split; [done|constructor]. }
  destruct (processRTPPacket vp8Unmarshal s pkt) as [s1 f] eqn:Hp.
  destruct (process_all vp8Unmarshal s1 pkts) as [s2 fs] eqn:Hrest. intros [= <- <-].
  destruct (process_assembling _ _ _ _ _ Hs Hp) as [Hs1 Hf].
  destruct (IH _ _ _ Hs1 Hrest) as [Hs2 Hfs]. rewrite <- app_assoc in Hs2, Hfs. split; [done|].
  apply Forall_app. split; [|done]. destruct f as [f|]; [|constructor].
  constructor; [|constructor]. destruct (Hf f eq_refl) as (pre & seg & He & Hw).
  exists pre, seg, pkts. split; [|done]. by rewrite (app_assoc pre), <- He, <- app_assoc.
Qed.
End assembly.

(** A frame is handed on only whole.  Whatever packets the assembler is fed,
    every frame it returns is the concatenation of what a run of consecutive
    packets carried, the first with the start bit, no other with it, only the last
    with the marker, and its length is between that of the epoch header and the
    cap; and what it buffers in between never exceeds the cap. *)
Theorem assembled_frames_whole (vp8Unmarshal : bytes -> option (bool * bytes)) (pkts : list RtpPacket) :
  let r := process_all vp8Unmarshal frame_state0 pkts in
  Forall (fun f => exists pre seg post, pkts = pre ++ seg ++ post /\ whole_frame vp8Unmarshal seg f) r.2 /\
  len (fsBuf r.1) <= maxAssembledFrameSize.
Proof.
  intros r. destruct r as [s frames] eqn:Hr.
  destruct (process_all_assembling vp8Unmarshal pkts [] frame_state0 s frames) as [Hs Hf]; [|done|].
  - split; cbn; [vm_compute; discriminate|done|done].
  - split; [exact Hf|apply (as_bound _ _ _ Hs)].
Qed.

(** ** Samples through a track *)

(** pion's VP8 payloader and depayloader. *)
Class VP8Codec : Type := {
  vp8Unmarshal : bytes -> option (bool * bytes);
  vp8Payload : bytes -> list bytes;
}.

(** A sample is cut into payloads that carry it piece by piece, the first one
    marked as the start of the partition. *)
Class VP8Laws (C : VP8Codec) : Prop := {
  vp8_splits s : s <> [] -> exists p0 ps c0 cs,
    vp8Payload s = p0 :: ps /\ vp8Unmarshal p0 = Some (true, c0) /\
    Forall2 (fun p c => vp8Unmarshal p = Some (false, c)) ps cs /\ s = c0 ++ concat cs;
}.

(** The packetizer numbers the packets and sets the marker on the last one of a
    sample. *)
Fixpoint packets_of (seq : Z) (payloads : list bytes) : list RtpPacket :=
  match payloads with
  | [] => []
  | [p] => [MkRtp (u16 seq) true p]
  | p :: rest => MkRtp (u16 seq) false p :: packets_of (seq + 1) rest
  end.

Fixpoint track_packets `{VP8Codec} (seq : Z) (samples : list bytes) : list RtpPacket :=
  match samples with
  | [] => []
  | s :: rest =>
      let pkts := packets_of seq (vp8Payload s) in pkts ++ track_packets (seq + len pkts) rest
  end.

Lemma packets_of_length seq payloads : length (packets_of seq payloads) = length payloads.
Proof.
  revert seq. induction payloads as [|p [|q ps] IH]; intros seq; [done..|].
  cbn [packets_of length] in *. by rewrite IH.
Qed.

Lemma packets_of_seq seq payloads k p :
  packets_of seq payloads !! k = Some p -> rSeq p = u16 (seq + Z.of_nat k).
Proof.
  revert seq k. induction payloads as [|x [|y ps] IH]; intros seq k; [done| |].
  - destruct k; cbn; [|done]. intros [= <-]. by rewrite Z.add_0_r.
  - destruct k as [|k]; cbn [packets_of lookup list_lookup].
    + intros [= <-]. by rewrite Z.add_0_r.
    + intros Hk. rewrite (IH _ _ Hk). f_equal. lia.
Qed.

Lemma packets_of_cons seq p q ps :
  packets_of seq (p :: q :: ps) = MkRtp (u16 seq) false p :: packets_of (seq + 1) (q :: ps).
Proof. reflexivity. Qed.

Lemma u16_succ seq : u16 (u16 (seq - 1) + 1) = u16 seq.
Proof. rewrite !u16_mod, Zplus_mod_idemp_l. f_equal. lia. Qed.

Section track.
Context `{C : VP8Codec} `{L : !VP8Laws C}.

Lemma track_packets_seq seq samples k p :
  track_packets seq samples !! k = Some p -> rSeq p = u16 (seq + Z.of_nat k).
Proof.
  revert seq k. induction samples as [|s samples IH]; intros seq k; [done|]. cbn [track_packets].
  intros [Hk|[Hge Hk]]%lookup_app_Some; [by eapply packets_of_seq|].
  rewrite (IH _ _ Hk). f_equal. lia.
Qed.

(** The rest of a sample after its first packet. *)
Lemma process_rest ps cs seq buf :
  ps <> [] -> Forall2 (fun p c => vp8Unmarshal p = Some (false, c)) ps cs ->
  epochHdrLen <= len (buf ++ concat cs) <= maxAssembledFrameSize ->
  process_all vp8Unmarshal (MkFrameState buf (u16 (seq - 1)) true true) (packets_of seq ps) =
    (MkFrameState [] (u16 (seq + len ps - 1)) true false, [buf ++ concat cs]).
Proof.
  intros Hne Hall. revert seq buf Hne. induction Hall as [|p c ps cs Hp Hall IH]; intros seq buf Hne Hlen.
  { done. }
  assert (Hstep : len buf + len c <= maxAssembledFrameSize).
  { cbn [concat] in Hlen. rewrite !len_app in Hlen. lia. }
  destruct ps as [|q ps].
  - apply Forall2_nil_inv_l in Hall as ->. cbn [packets_of process_all concat length].
    unfold processRTPPacket. cbn [fsHaveLastSeq fsLastSeq fsValid fsBuf rSeq rMarker rPayload].
    rewrite u16_succ, Z.eqb_refl, Hp. cbn [andb negb]. case_if; [lia|].
    cbn [concat] in Hlen. rewrite app_nil_r in *. rewrite (proj2 (Z.leb_le _ _)) by apply Hlen.
    replace (seq + Z.of_nat 1 - 1) with seq by lia. by rewrite ?app_nil_r.
  - rewrite packets_of_cons. cbn [process_all]. unfold processRTPPacket at 1.
    cbn [fsHaveLastSeq fsLastSeq fsValid fsBuf rSeq rMarker rPayload].
    rewrite u16_succ, Z.eqb_refl, Hp. cbn [andb negb]. case_if; [lia|].
    replace (u16 seq) with (u16 (seq + 1 - 1)) by (f_equal; lia).
    cbn [concat] in Hlen |- *. rewrite app_assoc in Hlen |- *.
    rewrite (IH (seq + 1) (buf ++ c)) by done. cbn [option_list app length].
    by replace (seq + 1 + Z.of_nat (S (length ps)) - 1) with (seq + Z.of_nat (S (S (length ps))) - 1) by lia.
Qed.

(** The packets of a sample give the sample back, whatever came before. *)
Lemma process_sample s seq sample :
  epochHdrLen <= len sample <= maxAssembledFrameSize ->
  exists s', process_all vp8Unmarshal s (packets_of seq (vp8Payload sample)) = (s', [sample]).
Proof.
  intros Hlen. destruct (vp8_splits sample) as (p0 & ps & c0 & cs & -> & Hu & Hall & Hs).
  { intros ->. unfold epochHdrLen in Hlen. cbn in Hlen. lia. }
  assert (Hc0 : len c0 <= maxAssembledFrameSize) by (rewrite Hs, len_app in Hlen; lia).
  destruct ps as [|q ps]; [|rewrite packets_of_cons]; cbn [process_all].
  - apply Forall2_nil_inv_l in Hall as ->. cbn [packets_of process_all concat] in *. rewrite app_nil_r in Hs. subst c0.
    unfold processRTPPacket. cbn [rPayload rMarker rSeq]. rewrite Hu. cbn [negb].
    change (len (@nil Z)) with 0. case_if; [lia|]. cbn [app].
    rewrite (proj2 (Z.leb_le _ _)) by apply Hlen. by eexists.
  - unfold processRTPPacket at 1. cbn [rPayload rMarker rSeq]. rewrite Hu. cbn [negb].
    change (len (@nil Z)) with 0. case_if; [lia|]. cbn [app].
    replace (u16 seq) with (u16 (seq + 1 - 1)) by (f_equal; lia).
    rewrite (process_rest (q :: ps) cs (seq + 1) c0) by (done || by rewrite <- Hs). cbn [option_list app].
    rewrite <- Hs. by eexists.
Qed.

Lemma process_all_app f s pkts more :
  process_all f s (pkts ++ more) =
    let '(s1, a) := process_all f s pkts in
    let '(s2, b) := process_all f s1 more in (s2, a ++ b).
Proof.
  revert s. induction pkts as [|p pkts IH]; intros s; cbn [app process_all].
  - by destruct (process_all f s more).
  - destruct (processRTPPacket f s p) as [s1 o]. rewrite IH.
    destruct (process_all f s1 pkts) as [s2 a]. destruct (process_all f s2 more) as [s3 b].
    by rewrite app_assoc.
Qed.

Lemma process_samples samples s seq :
  Forall (fun x => epochHdrLen <= len x <= maxAssembledFrameSize) samples ->
  (process_all vp8Unmarshal s (track_packets seq samples)).2 = samples.
Proof.
  intros Hall. revert s seq. induction Hall as [|x samples Hx Hall IH]; intros s seq; [done|].
  cbn [track_packets]. rewrite process_all_app.
  destruct (process_sample s seq x Hx) as [s1 ->].
  specialize (IH s1 (seq + len (packets_of seq (vp8Payload x)))).
  destruct (process_all _ s1 _) as [s2 b]. cbn in IH |- *. by rewrite IH.
Qed.

Lemma track_run_eq f iter b s pkts :
  (track_run f iter (b, s) pkts).2 = (process_all f s (rb_run iter b pkts).2).2.
Proof.
  revert b s. induction pkts as [|p pkts IH]; intros b s; [done|]. cbn [track_run rb_run].
  unfold track_read. destruct (rb_push iter b p) as [b1 out] eqn:Hp.
  destruct (process_all f s out) as [s1 frames] eqn:Hf.
  destruct (rb_run iter b1 pkts) as [b2 more] eqn:Hr. cbn [snd]. rewrite process_all_app, Hf.
  specialize (IH b1 s1). rewrite Hr in IH. cbn [snd] in IH.
  destruct (track_run f iter (b1, s1) pkts) as [st x]. cbn [snd] in *. rewrite IH.
  by destruct (process_all f s1 more).
Qed.

(** The packets in the order in which they arrive. *)
Definition arrivals (base : Z) (sent : list RtpPacket) (order : list Z) : list RtpPacket :=
  omap (fun i => sent !! Z.to_nat (i - base)) order.

Lemma track_roundtrip iter base samples order :
  map_range iter ->
  Forall (fun x => epochHdrLen <= len x <= maxAssembledFrameSize) samples ->
  reordering base (len (track_packets base samples)) order -> order !! 0%nat = Some base ->
  (track_run vp8Unmarshal iter (newReorderBuffer, frame_state0)
     (arrivals base (track_packets base samples) order)).2 = samples.
Proof.
  intros Hi Hall Hr H0. set (sent := track_packets base samples) in *.
  set (pk := fun i => if base <=? i then
                        match sent !! Z.to_nat (i - base) with Some p => p | None => MkRtp (u16 i) false [] end
                      else MkRtp (u16 i) false []).
  assert (Hpk : forall i, rSeq (pk i) = u16 i).
  { intros i. unfold pk. case_if; [|done]. destruct (sent !! _) eqn:E; [|done].
    rewrite (track_packets_seq _ _ _ _ E). f_equal. lia. }
  assert (Hin : forall i, i ∈ order -> sent !! Z.to_nat (i - base) = Some (pk i)).
  { intros i Hi'. rewrite (re_perm _ _ _ Hr) in Hi'. apply elem_of_seqZ in Hi' as [Hle Hlt].
    unfold pk. rewrite (proj2 (Z.leb_le _ _) Hle).
    destruct (lookup_lt_is_Some_2 sent (Z.to_nat (i - base))) as [p ->]; [lia|done]. }
  assert (Harr : arrivals base sent order = map pk order).
  { unfold arrivals. clear -Hin. induction order as [|i order IH]; [done|]. cbn [omap list_omap map].
    rewrite Hin by left. f_equal. apply IH. intros j Hj. apply Hin. by right. }
  rewrite Harr, track_run_eq. destruct (rb_run iter newReorderBuffer (map pk order)) as [b out] eqn:Hrun.
  apply (order_restored iter Hi pk Hpk base (len sent) order b out Hr H0) in Hrun as ->.
  cbn [snd]. transitivity (process_all vp8Unmarshal frame_state0 sent).2;
    [|by apply process_samples].
  do 2 f_equal. apply list_eq. intros k.
  destruct (decide (k < length sent)%nat) as [Hk|Hk].
  - destruct (lookup_lt_is_Some_2 sent k Hk) as [p Hp]. rewrite Hp.
    change (map pk) with (fmap (M := list) pk). rewrite list_lookup_fmap, lookup_seqZ_lt by lia. cbn.
    unfold pk. rewrite (proj2 (Z.leb_le _ _)) by lia.
    replace (Z.to_nat (base + Z.of_nat k - base)) with k by lia. by rewrite Hp.
  - change (map pk) with (fmap (M := list) pk). rewrite list_lookup_fmap, lookup_seqZ_ge by lia.
    symmetry. apply lookup_ge_None_2. lia.
Qed.
End track.

(** C11: a video track delivers what was written to it, through reordering.  Samples
    of a size the writer can produce are packetized with consecutive sequence
    numbers starting anywhere (wrap-around included); if the network loses nothing,
    the first packet arrives first and no packet arrives more than 128 places away
    from its own, the reader hands on exactly those samples, in order, whatever the
    iteration order of the reorder map. *)
Theorem video_track_roundtrip `{C : VP8Codec} `{L : !VP8Laws C}
    (iter : gmap Z held -> list Z) (base : Z) (samples : list bytes) (order : list Z)
    (Hiter : map_range iter)
    (Hsize : Forall (fun x => epochHdrLen <= len x <= maxAssembledFrameSize) samples)
    (Horder : reordering base (len (track_packets base samples)) order)
    (Hfirst : order !! 0%nat = Some base) :
  (track_run vp8Unmarshal iter (newReorderBuffer, frame_state0)
     (arrivals base (track_packets base samples) order)).2 = samples.
Proof. by apply track_roundtrip. Qed.

#[local] Instance toy_codec : VP8Codec := {|
  vp8Unmarshal l := match l with
    | 1 :: x => Some (true, x)
    | 0 :: x => Some (false, x)
    | _ => None
    end;
  vp8Payload s := if (20 <? len s) then [1 :: take 20 s; 0 :: drop 20 s] else [1 :: s];
|}.

#[local] Instance toy_codec_laws : VP8Laws toy_codec.
Proof.
  constructor. intros s Hs. cbn. case_if.
  - exists (1 :: take 20 s), [0 :: drop 20 s], (take 20 s), [drop 20 s].
    split_and!; [done|done|by repeat constructor|]. cbn. by rewrite app_nil_r, take_drop.
  - exists (1 :: s), [], s, []. split_and!; [done|done|constructor|]. by rewrite app_nil_r.
Qed.

Lemma video_track_roundtrip_witness :
  (track_run vp8Unmarshal keys_of (newReorderBuffer, frame_state0)
     (arrivals 65534 (track_packets 65534 [repeat 1 36; repeat 2 40]) [65534; 65536; 65537; 65535])).2
  = [repeat 1 36; repeat 2 40].
Proof.
  apply (video_track_roundtrip keys_of 65534 [repeat 1 36; repeat 2 40] [65534; 65536; 65537; 65535]).
  - by intros m.
  - repeat constructor; vm_compute; discriminate.
  - split.
    + change (len (track_packets 65534 [repeat 1 36; repeat 2 40])) with 4.
      change (seqZ 65534 4) with [65534; 65535; 65536; 65537]. constructor.
      symmetry. apply (Permutation_cons_append [65536; 65537] 65535).
    + intros [|[|[|[|k]]]] i; cbn; intros [= <-]; lia.
  - reflexivity.
Defined.
