(* ===== verification/VpTransport.v ===== *)
(** * VpTransport: sessions, planes and routing of the vp8channel transport
    (internal/transport/vp8channel: kcp.go, peers.go, inbound.go, control.go,
    transport.go)

    KCP itself is a library: a runtime is its packet connection plus the byte
    stream handed to the KCP session.  Runtimes and peer sessions are objects with
    identity (they are reached from planes, from the table and from callers), so
    they live in stores indexed by allocation number.  Each operation that holds
    one of the code's locks throughout is one definition; [peerControlFor],
    [restartPlanes] and [Close], which take several locks in turn, are given as
    their parts and as the composition, and a run has both: the whole operation
    undisturbed ([vp_event]), or its parts with anything in between ([vp_part]). *)

From S2P Require Import Prelude Bytes Text Framing Frame VpWire.

(** ** KCP runtimes *)

(* go: transport/vp8channel/kcp.go 36-47 kcpMaxMessage *)
Definition kcpMaxMessage : Z := 8 * 1024 * 1024.
(* go: transport/vp8channel/transport.go 67-67 inboundQueueSize *)
Definition inboundQueueSize : Z := 4096.
(* go: transport/vp8channel/transport.go 57-61 outboundQueueSize *)
Definition outboundQueueSize : Z := 1536.

(** [rtWritten] is the byte stream given to [sess.Write]. *)
(* go: transport/vp8channel/kcp.go 53-62 kcpRuntime *)
Record kcpRuntime := MkRt { rtConn : kcpConn; rtWritten : bytes; rtClosed : bool }.

Inductive vp_error :=
| ErrKCPMessageTooLarge | ErrKCPWrite | ErrVpClosed | ErrVpPeerID | ErrInvalidPeerID.

(** [kcpOk] is whether the KCP session takes the write. *)
(* go: transport/vp8channel/kcp.go 137-165 send *)
Definition rt_send (rt : kcpRuntime) (kcpOk : bool) (msg : bytes) : kcpRuntime * outcome vp_error unit :=
  if kcpMaxMessage <? len msg then (rt, Err ErrKCPMessageTooLarge)
  else
    let buf := be_put 4 (u32 (len msg)) ++ msg in
    if kcpOk then (MkRt (rtConn rt) (rtWritten rt ++ buf) (rtClosed rt), Ok tt)
    else (rt, Err ErrKCPWrite).

(** The messages handed to [onData] from the stream [r], until it ends or breaks.
    A round consumes at least four bytes. *)
Fixpoint kcp_read_loop (fuel : nat) (r : bytes) : list bytes :=
  match fuel with
  | O => []
  | S fuel =>
      match ReadFull r 4 with
      | (r1, Ok hdr) =>
          let size := be_get hdr in
          if size =? 0 then kcp_read_loop fuel r1
          else if kcpMaxMessage <? size then []
          else match ReadFull r1 size with
               | (r2, Ok payload) => payload :: kcp_read_loop fuel r2
               | _ => []
               end
      | _ => []
      end
  end.

(* go: transport/vp8channel/kcp.go 101-124 readLoop *)
Definition kcp_readLoop (r : bytes) : list bytes := kcp_read_loop (S (length r)) r.

(* go: transport/vp8channel/kcp.go 167-172 close *)
Definition rt_close (rt : kcpRuntime) : kcpRuntime := MkRt (kcp_Close (rtConn rt)) (rtWritten rt) true.

(** ** State *)

(* go: transport/vp8channel/kcp.go 174-194 kcpPlane *)
Record kcpPlane := MkPlane {
  plOut : list packetBuffer;
  plRt : option nat;
  plClosed : bool;
  plOnce : bool;
}.

(** [out] and [done] of the code only matter to the writer pump. *)
(* go: transport/vp8channel/peers.go 32-53 peerSession *)
Record peerSession := MkSession {
  psEpoch : Z;
  psData : nat;
  psControl : option nat;
  psLastSeen : Z;
  psClosed : bool;
}.

(* go: transport/vp8channel/peers.go 26-29 maxPeers *)
Definition maxPeers : Z := 64.
(* go: transport/vp8channel/peers.go 13-21 peerIdleTTL *)
Definition peerIdleTTL : Z := 3 * 60 * 1000000000.

(** The epochs and flags of the link. *)
Record vpLink := MkLink {
  lkLocal : Z;
  lkPeer : Z;
  lkConfirmed : bool;
  lkLastFrame : Z;
  lkRestarting : bool;
  lkUnhealthy : bool;
}.

(** [vpSessions] and [vpPeers] are the session objects and [peerTable];
    [vpReconnects] counts the calls of [stream.Reconnect]. *)
(* go: transport/vp8channel/transport.go 94-169 streamTransport *)
Record vp8 := MkVp {
  vpServer : bool;
  vpToken : Z;
  vpGrace : Z;
  vpLk : vpLink;
  vpRts : list kcpRuntime;
  vpData : kcpPlane;
  vpControl : kcpPlane;
  vpSessions : list peerSession;
  vpPeers : gmap Z nat;
  vpPeersClosed : bool;
  vpClosed : bool;
  vpReconnects : Z;
}.

Definition set_link (p : vp8) (l : vpLink) : vp8 :=
  MkVp (vpServer p) (vpToken p) (vpGrace p) l (vpRts p) (vpData p) (vpControl p) (vpSessions p)
    (vpPeers p) (vpPeersClosed p) (vpClosed p) (vpReconnects p).
Definition set_rts (p : vp8) (r : list kcpRuntime) : vp8 :=
  MkVp (vpServer p) (vpToken p) (vpGrace p) (vpLk p) r (vpData p) (vpControl p) (vpSessions p)
    (vpPeers p) (vpPeersClosed p) (vpClosed p) (vpReconnects p).
Definition set_plane (p : vp8) (control : bool) (pl : kcpPlane) : vp8 :=
  MkVp (vpServer p) (vpToken p) (vpGrace p) (vpLk p) (vpRts p)
    (if control then vpData p else pl) (if control then pl else vpControl p) (vpSessions p)
    (vpPeers p) (vpPeersClosed p) (vpClosed p) (vpReconnects p).
Definition get_plane (p : vp8) (control : bool) : kcpPlane := if control then vpControl p else vpData p.
Definition set_peers (p : vp8) (s : list peerSession) (t : gmap Z nat) (closed : bool) : vp8 :=
  MkVp (vpServer p) (vpToken p) (vpGrace p) (vpLk p) (vpRts p) (vpData p) (vpControl p) s
    t closed (vpClosed p) (vpReconnects p).

Definition upd_session (p : vp8) (sid : nat) (f : peerSession -> peerSession) : vp8 :=
  set_peers p (alter f sid (vpSessions p)) (vpPeers p) (vpPeersClosed p).
Definition upd_rt (p : vp8) (id : nat) (f : kcpRuntime -> kcpRuntime) : vp8 :=
  set_rts p (alter f id (vpRts p)).

(** What the environment decides during a call: the clock, whether KCP sessions
    start, the order in which [range] visits the table, and the pool and [select]
    choices of the packet connections. *)
Record vp_env := MkEnv {
  eNow : Z;
  eStart : bool;
  eRange : list Z;
  ePick : nat -> option nat;
  ePrefer : bool;
}.

(** ** Headers *)

(* go: transport/vp8channel/epoch.go 87-91 epochHeader *)
Definition epochHeader (p : vp8) : bytes := buildEpochHeader (vpToken p) (lkLocal (vpLk p)).
(* go: transport/vp8channel/epoch.go 93-103 controlEpochValue *)
Definition controlEpochValue (p : vp8) : Z := Z.lor (lkLocal (vpLk p)) controlEpochFlag.
(* go: transport/vp8channel/epoch.go 105-108 controlEpochHeader *)
Definition controlEpochHeader (p : vp8) : bytes := buildEpochHeader (vpToken p) (controlEpochValue p).

Definition set_local (l : vpLink) (e : Z) : vpLink :=
  MkLink e (lkPeer l) (lkConfirmed l) (lkLastFrame l) (lkRestarting l) (lkUnhealthy l).

(** [draws] are the results of [randomEpoch], drawn until one differs; [None] while
    they do not. *)
(* go: transport/vp8channel/epoch.go 110-123 rotateEpochHeader *)
Definition rotateEpochHeader (p : vp8) (draws : list Z) : option (vp8 * bytes) :=
  match filter (fun e => e <> lkLocal (vpLk p)) draws with
  | [] => None
  | e :: _ => Some (set_link p (set_local (vpLk p) e), buildEpochHeader (vpToken p) e)
  end.

(** ** Starting and stopping runtimes *)

(* go: transport/vp8channel/kcp.go 64-99 startKCP *)
Definition startKCP (p : vp8) (env : vp_env) (hdr : bytes) : vp8 * option nat :=
  if eStart env
  then (set_rts p (vpRts p ++ [MkRt (newKCPConn inboundQueueSize hdr) [] false]),
        Some (length (vpRts p)))
  else (p, None).

Definition close_rt (p : vp8) (id : nat) : vp8 := upd_rt p id rt_close.

Definition close_opt (p : vp8) (id : option nat) : vp8 :=
  match id with Some i => close_rt p i | None => p end.

(* go: transport/vp8channel/kcp.go 215-240 start *)
Definition plane_start (p : vp8) (control : bool) (env : vp_env) (hdr : bytes) : vp8 :=
  let pl := get_plane p control in
  if plOnce pl then p
  else if plClosed pl then set_plane p control (MkPlane (plOut pl) (plRt pl) true true)
  else match startKCP p env hdr with
       | (p, Some id) => set_plane p control (MkPlane (plOut pl) (Some id) false true)
       | (p, None) => set_plane p control (MkPlane (plOut pl) (plRt pl) false true)
       end.

(* go: transport/vp8channel/kcp.go 242-280 restart *)
Definition plane_restart (p : vp8) (control : bool) (env : vp_env) (hdr : bytes) : vp8 :=
  let pl := get_plane p control in
  if plClosed pl then p
  else
    let p := close_opt (set_plane p control (MkPlane [] None false (plOnce pl))) (plRt pl) in
    match startKCP p env hdr with
    | (p, Some id) => set_plane p control (MkPlane [] (Some id) false (plOnce pl))
    | (p, None) => p
    end.

(* go: transport/vp8channel/kcp.go 282-291 close *)
Definition plane_close (p : vp8) (control : bool) : vp8 :=
  let pl := get_plane p control in
  close_opt (set_plane p control (MkPlane (plOut pl) (plRt pl) true (plOnce pl))) (plRt pl).

(** ** The peer table *)

Definition touch (now : Z) (s : peerSession) : peerSession :=
  MkSession (psEpoch s) (psData s) (psControl s) now (psClosed s).

(* go: transport/vp8channel/peers.go 73-90 close *)
Definition session_close (p : vp8) (sid : nat) : vp8 :=
  match vpSessions p !! sid with
  | None => p
  | Some s =>
      if psClosed s then p
      else
        let p := close_rt p (psData s) in
        let p := close_opt p (psControl s) in
        upd_session p sid (fun s => MkSession (psEpoch s) (psData s) None (psLastSeen s) true)
  end.

(* go: transport/vp8channel/peers.go 117-128 get *)
Definition peers_get (p : vp8) (now epoch : Z) : vp8 * option nat :=
  match vpPeers p !! epoch with
  | Some sid => (upd_session p sid (touch now), Some sid)
  | None => (p, None)
  end.

(** The loop over the table in the order [keys]. *)
Definition older_peer (p : vp8) (acc : option (Z * nat * Z)) (epoch : Z) : option (Z * nat * Z) :=
  match vpPeers p !! epoch ≫= fun sid => (fun s => (sid, psLastSeen s)) <$> vpSessions p !! sid with
  | None => acc
  | Some (sid, seen) =>
      match acc with
      | None => Some (epoch, sid, seen)
      | Some (_, _, oldest) => if seen <? oldest then Some (epoch, sid, seen) else acc
      end
  end.

Definition oldest_peer (p : vp8) (keys : list Z) : option (Z * nat * Z) :=
  fold_left (older_peer p) keys None.

(* go: transport/vp8channel/peers.go 165-185 evictOldestLocked *)
Definition evictOldestLocked (p : vp8) (keys : list Z) : vp8 :=
  match oldest_peer p keys with
  | None => p
  | Some (epoch, sid, _) =>
      session_close (set_peers p (vpSessions p) (delete epoch (vpPeers p)) (vpPeersClosed p)) sid
  end.

(* go: transport/vp8channel/peers.go 130-163 add *)
Definition peers_add (p : vp8) (env : vp_env) (sid : nat) (epoch : Z) : vp8 * bool :=
  if vpPeersClosed p then (p, false)
  else if bool_decide (is_Some (vpPeers p !! epoch)) then (p, false)
  else
    let p := if maxPeers <=? Z.of_nat (size (vpPeers p)) then evictOldestLocked p (eRange env) else p in
    let p := upd_session p sid (touch (eNow env)) in
    (set_peers p (vpSessions p) (<[epoch := sid]> (vpPeers p)) (vpPeersClosed p), true).

(** The sessions idle since before [cutoff]. *)
Definition idle_before (p : vp8) (cutoff : Z) (sid : nat) : bool :=
  match vpSessions p !! sid with Some s => psLastSeen s <? cutoff | None => false end.
Definition stale_peers (p : vp8) (cutoff : Z) : gmap Z nat :=
  filter (fun e => idle_before p cutoff e.2 = true) (vpPeers p).

Definition close_sessions (p : vp8) (sids : list nat) : vp8 := fold_left session_close sids p.

(* go: transport/vp8channel/peers.go 187-208 sweep *)
Definition peers_sweep (p : vp8) (now ttl : Z) : vp8 :=
  let stale := stale_peers p (now - ttl) in
  close_sessions (set_peers p (vpSessions p) (vpPeers p ∖ stale) (vpPeersClosed p))
    (map_to_list stale).*2.

(* go: transport/vp8channel/peers.go 210-222 closeAll *)
Definition peers_closeAll (p : vp8) : vp8 :=
  close_sessions (set_peers p (vpSessions p) ∅ true) (map_to_list (vpPeers p)).*2.

(* go: transport/vp8channel/peers.go 232-234 formatPeerID *)
Definition formatPeerID (epoch : Z) : string := format_hex 8 epoch.
(* go: transport/vp8channel/peers.go 236-243 parsePeerID *)
Definition parsePeerID (peerID : string) : outcome vp_error Z :=
  match ParseUint16_32 peerID with Ok v => Ok v | _ => Err ErrVpPeerID end.

(** The whole check-then-create sequence runs under [createMu]. *)
(* go: transport/vp8channel/peers.go 245-298 peerSessionFor *)
Definition peerSessionFor (p : vp8) (env : vp_env) (epoch : Z) : vp8 * option nat :=
  match peers_get p (eNow env) epoch with
  | (p, Some sid) => (p, Some sid)
  | (p, None) =>
      let hdr := buildEpochHeaderTo (vpToken p) (lkLocal (vpLk p)) epoch in
      match startKCP p env hdr with
      | (p, None) => (p, None)
      | (p, Some data) =>
          let sid := length (vpSessions p) in
          let p := set_peers p (vpSessions p ++ [MkSession epoch data None 0 false])
                     (vpPeers p) (vpPeersClosed p) in
          match peers_add p env sid epoch with
          | (p, false) => (session_close p sid, None)
          | (p, true) => (p, Some sid)
          end
      end
  end.

(** The half of [peerControlFor] that runs under the session's [controlMu]. *)
(* go: transport/vp8channel/peers.go 309-338 peerControlFor *)
Definition attachControl (p : vp8) (env : vp_env) (sid : nat) (epoch : Z) : vp8 * option nat :=
  match vpSessions p !! sid with
  | None => (p, None)
  | Some s =>
      match psControl s with
      | Some id => (p, Some id)
      | None =>
          let hdr := buildEpochHeaderTo (vpToken p) (Z.lor (lkLocal (vpLk p)) controlEpochFlag)
                       (Z.lor epoch controlEpochFlag) in
          match startKCP p env hdr with
          | (p, None) => (p, None)
          | (p, Some id) =>
              (upd_session p sid (fun s => MkSession (psEpoch s) (psData s) (Some id) (psLastSeen s) (psClosed s)),
               Some id)
          end
      end
  end.

(* go: transport/vp8channel/peers.go 300-308 peerControlFor *)
Definition peerControlFor (p : vp8) (env : vp_env) (epoch : Z) : vp8 * option nat :=
  match peerSessionFor p env epoch with
  | (p, None) => (p, None)
  | (p, Some sid) => attachControl p env sid epoch
  end.

(** ** Inbound frames *)

(** The packets of one payload, one after the other. *)
Fixpoint deliver_packets (env : vp_env) (i : nat) (c : kcpConn) (packets : list bytes)
  : outcome Empty_set kcpConn :=
  match packets with
  | [] => Ok c
  | x :: rest =>
      let* c := kcp_deliver c (ePick env i) (ePrefer env) (eNow env) x in
      deliver_packets env (S i) c rest
  end.

(* go: transport/vp8channel/wire.go 50-55 deliverKCPPayload *)
Definition deliverKCPPayload (p : vp8) (env : vp_env) (rt : option nat) (payload : bytes)
  : outcome Empty_set vp8 :=
  match rt ≫= fun id => (fun r => (id, r)) <$> vpRts p !! id with
  | None => Ok p
  | Some (id, r) =>
      if len payload =? 0 then Ok p
      else
        let* c := deliver_packets env 0 (rtConn r) (splitKCPPayload payload) in
        Ok (upd_rt p id (fun r => MkRt c (rtWritten r) (rtClosed r)))
  end.

(* go: transport/vp8channel/inbound.go 46-56 acceptsDst *)
Definition acceptsDst (p : vp8) (dst : Z) : bool :=
  (dst =? 0) || (dst =? lkLocal (vpLk p)) || (dst =? Z.lor (lkLocal (vpLk p)) controlEpochFlag).

(* go: transport/vp8channel/inbound.go 77-98 maybePeerRestart *)
Definition maybePeerRestart (p : vp8) (now src : Z) : vp8 :=
  let l := vpLk p in
  if negb (lkUnhealthy l) then p
  else if vpGrace p <=? 0 then p
  else if (lkLastFrame l =? 0) || (now - lkLastFrame l <? vpGrace p) then p
  else if lkRestarting l then p
  else
    MkVp (vpServer p) (vpToken p) (vpGrace p)
      (MkLink (lkLocal l) (lkPeer l) (lkConfirmed l) (lkLastFrame l) true (lkUnhealthy l))
      (vpRts p) (vpData p) (vpControl p) (vpSessions p) (vpPeers p) (vpPeersClosed p) (vpClosed p)
      (vpReconnects p + 1).

(* go: transport/vp8channel/inbound.go 58-75 handleSinglePeerData *)
Definition handleSinglePeerData (p : vp8) (env : vp_env) (src : Z) (payload : bytes)
  : outcome Empty_set vp8 :=
  let l := vpLk p in
  if negb (lkConfirmed l) then Ok p
  else if negb (src =? lkPeer l) then Ok (maybePeerRestart p (eNow env) src)
  else
    let p := set_link p (MkLink (lkLocal l) (lkPeer l) (lkConfirmed l) (eNow env) (lkRestarting l)
                           (lkUnhealthy l)) in
    if len payload =? 0 then Ok p else deliverKCPPayload p env (plRt (vpData p)) payload.

(* go: transport/vp8channel/inbound.go 100-112 handlePeerFrame *)
Definition handlePeerFrame (p : vp8) (env : vp_env) (peerEpoch : Z) (payload : bytes)
  : outcome Empty_set vp8 :=
  match peerSessionFor p env peerEpoch with
  | (p, None) => Ok p
  | (p, Some sid) =>
      if len payload =? 0 then Ok p
      else deliverKCPPayload p env (psData <$> vpSessions p !! sid) payload
  end.

(* go: transport/vp8channel/control.go 75-106 handleControlFrame *)
Definition handleControlFrame (p : vp8) (env : vp_env) (src dst : Z) (payload : bytes)
  : outcome Empty_set vp8 :=
  if len payload =? 0 then Ok p
  else if vpServer p then
    let '(p, rt) := peerControlFor p env (Z.ldiff src controlEpochFlag) in
    deliverKCPPayload p env rt payload
  else if negb (dst =? controlEpochValue p) then Ok p
  else deliverKCPPayload p env (plRt (vpControl p)) payload.

(* go: transport/vp8channel/inbound.go 9-44 handleIncomingFrame *)
Definition handleIncomingFrame (p : vp8) (env : vp_env) (frame : bytes) : outcome Empty_set vp8 :=
  let* hdr := parseEpochHeader frame in
  let '(token, src, dst, valid) := hdr in
  if negb valid then Ok p
  else if negb (token =? vpToken p) then Ok p
  else
    let* payload := slice_from frame epochHdrLen in
    if (src =? lkLocal (vpLk p)) || (src =? Z.lor (lkLocal (vpLk p)) controlEpochFlag) then Ok p
    else if negb (acceptsDst p dst) then Ok p
    else if negb (Z.land src controlEpochFlag =? 0) then handleControlFrame p env src dst payload
    else if vpServer p then handlePeerFrame p env src payload
    else handleSinglePeerData p env src payload.

(** ** Operations of the upper layer *)

(* go: transport/vp8channel/transport.go 304-312 sendVia *)
Definition sendVia (p : vp8) (rt : option nat) (kcpOk : bool) (data : bytes)
  : vp8 * outcome vp_error unit :=
  if vpClosed p then (p, Err ErrVpClosed)
  else match rt ≫= fun id => (fun r => (id, r)) <$> vpRts p !! id with
       | None => (p, Err ErrVpClosed)
       | Some (id, r) => let '(r', res) := rt_send r kcpOk data in (upd_rt p id (fun _ => r'), res)
       end.

(* go: transport/vp8channel/transport.go 293-295 send *)
Definition vp_send (p : vp8) (kcpOk : bool) (data : bytes) : vp8 * outcome vp_error unit :=
  sendVia p (plRt (vpData p)) kcpOk data.

(* go: transport/vp8channel/control.go 8-12 ControlSend *)
Definition ControlSend (p : vp8) (kcpOk : bool) (data : bytes) : vp8 * outcome vp_error unit :=
  sendVia p (plRt (vpControl p)) kcpOk data.

(* go: transport/vp8channel/transport.go 328-336 peerDataFor *)
Definition peerDataFor (p : vp8) (env : vp_env) (epoch : Z) : vp8 * option nat :=
  match peers_get p (eNow env) epoch with
  | (p, None) => (p, None)
  | (p, Some sid) => (p, psData <$> vpSessions p !! sid)
  end.

(** [control] chooses the runtime: [peerControlFor] or [peerDataFor]. *)
(* go: transport/vp8channel/transport.go 314-326 sendToPeer *)
Definition sendToPeer (p : vp8) (env : vp_env) (control : bool) (peerID : string) (kcpOk : bool)
    (data : bytes) : vp8 * outcome vp_error unit :=
  if vpClosed p then (p, Err ErrVpClosed)
  else match parsePeerID peerID with
       | Ok epoch =>
           let '(p, rt) := if control then peerControlFor p env epoch else peerDataFor p env epoch in
           sendVia p rt kcpOk data
       | Err e => (p, Err e)
       | Panic => (p, Panic)
       end.

(* go: transport/vp8channel/transport.go 348-367 ConfirmPeer *)
Definition ConfirmPeer (p : vp8) (now : Z) (peerID : string) : vp8 * outcome vp_error unit :=
  match parsePeerID peerID with
  | Ok epoch =>
      if (epoch =? 0) || negb (Z.land epoch controlEpochFlag =? 0) then (p, Err ErrInvalidPeerID)
      else
        let hdr := buildEpochHeaderTo (vpToken p) (lkLocal (vpLk p)) epoch in
        let p := match plRt (vpData p) with
                 | Some id => upd_rt p id (fun r => MkRt (setHeader (rtConn r) hdr) (rtWritten r) (rtClosed r))
                 | None => p
                 end in
        (set_link p (MkLink (lkLocal (vpLk p)) epoch true now false (lkUnhealthy (vpLk p))), Ok tt)
  | Err e => (p, Err e)
  | Panic => (p, Panic)
  end.

(** The steps of [restartPlanes], each under its own lock. *)
Definition forget_peer (p : vp8) : vp8 :=
  let l := vpLk p in
  set_link p (MkLink (lkLocal l) 0 false (lkLastFrame l) (lkRestarting l) (lkUnhealthy l)).

(* go: transport/vp8channel/transport.go 399-408 restartPlanes *)
Definition restartPlanes (p : vp8) (env : vp_env) (draws : list Z) : option vp8 :=
  match rotateEpochHeader (forget_peer p) draws with
  | None => None
  | Some (p, hdr) =>
      let p := plane_restart p false env hdr in
      Some (plane_restart p true env (controlEpochHeader p))
  end.

(* go: transport/vp8channel/transport.go 410-415 NotifyLinkHealth *)
Definition NotifyLinkHealth (p : vp8) (unhealthy : bool) : vp8 :=
  let l := vpLk p in
  set_link p (MkLink (lkLocal l) (lkPeer l) (lkConfirmed l) (lkLastFrame l) (lkRestarting l) unhealthy).

(** The part of [Connect] after the provider is up. *)
(* go: transport/vp8channel/transport.go 256-286 Connect *)
Definition vp_Connect (p : vp8) (env : vp_env) : vp8 :=
  let p := plane_start p false env (epochHeader p) in
  plane_start p true env (controlEpochHeader p).

(* go: transport/vp8channel/transport.go 369-386 Close *)
Definition vp_Close (p : vp8) : vp8 :=
  if vpClosed p then p
  else
    let p := MkVp (vpServer p) (vpToken p) (vpGrace p) (vpLk p) (vpRts p) (vpData p) (vpControl p)
               (vpSessions p) (vpPeers p) (vpPeersClosed p) true (vpReconnects p) in
    peers_closeAll (plane_close (plane_close p false) true).

(* go: transport/vp8channel/transport.go 445-449 ready *)
Definition vp_ready (p : vp8) (rt : option nat) (providerReady : bool) : bool :=
  negb (vpClosed p) && bool_decide (is_Some rt) && providerReady.

(* go: transport/vp8channel/transport.go 451-455 CanSend *)
Definition vp_CanSend (p : vp8) (providerReady : bool) : bool :=
  vp_ready p (plRt (vpData p)) providerReady &&
  (len (plOut (vpData p)) <? outboundQueueSize * 90 / 100).

(* go: transport/vp8channel/transport.go 213-245 newStreamTransport *)
Definition newVp8 (server : bool) (channelID roomURL : string) (epoch : Z) : vp8 :=
  MkVp server (channelBindingToken channelID roomURL) (6 * 1000000000)
    (MkLink epoch 0 false 0 false false) [] (MkPlane [] None false false) (MkPlane [] None false false)
    [] ∅ false false 0.

(** ** Runs *)

(** The parts of the operations that take several locks one after the other, each
    of which may find the state changed by others since the part before:
    [peerControlFor] (the session is looked up or made, then a control runtime is
    attached to it), what its callers then do with the runtime they got (deliver or
    send), [restartPlanes] (forget the peer, rotate the epoch, restart each plane with
    a header read before) and [Close] (set the flag, close each plane, close the
    table). *)
Inductive vp_part :=
| PtSession (env : vp_env) (epoch : Z)
| PtAttach (env : vp_env) (sid : nat) (epoch : Z)
| PtDeliver (env : vp_env) (rt : option nat) (payload : bytes)
| PtSendVia (rt : option nat) (kcpOk : bool) (data : bytes)
| PtForget
| PtRotate (draws : list Z)
| PtPlaneRestart (control : bool) (env : vp_env) (hdr : bytes)
| PtMarkClosed
| PtPlaneClose (control : bool)
| PtCloseAll.

(** The flag [closed] of [Close]. *)
Definition mark_closed (p : vp8) : vp8 :=
  MkVp (vpServer p) (vpToken p) (vpGrace p) (vpLk p) (vpRts p) (vpData p) (vpControl p)
    (vpSessions p) (vpPeers p) (vpPeersClosed p) true (vpReconnects p).

Definition part_step (p : vp8) (pt : vp_part) : option vp8 :=
  match pt with
  | PtSession env epoch => Some (peerSessionFor p env epoch).1
  | PtAttach env sid epoch => Some (attachControl p env sid epoch).1
  | PtDeliver env rt payload =>
      match deliverKCPPayload p env rt payload with Ok p' => Some p' | _ => None end
  | PtSendVia rt kcpOk data => Some (sendVia p rt kcpOk data).1
  | PtForget => Some (forget_peer p)
  | PtRotate draws => fst <$> rotateEpochHeader p draws
  | PtPlaneRestart control env hdr => Some (plane_restart p control env hdr)
  | PtMarkClosed => Some (mark_closed p)
  | PtPlaneClose control => Some (plane_close p control)
  | PtCloseAll => Some (peers_closeAll p)
  end.

Inductive vp_event :=
| EvFrame (env : vp_env) (frame : bytes)
| EvConnect (env : vp_env)
| EvConfirm (now : Z) (peerID : string)
| EvRestart (env : vp_env) (draws : list Z)
| EvHealth (unhealthy : bool)
| EvSweep (now : Z)
| EvSend (kcpOk : bool) (data : bytes)
| EvControlSend (kcpOk : bool) (data : bytes)
| EvSendTo (env : vp_env) (control : bool) (peerID : string) (kcpOk : bool) (data : bytes)
| EvClose
| EvPart (pt : vp_part).

(** The [range] order of an environment enumerates the table it is used on. *)
Definition vp_step (p : vp8) (ev : vp_event) : option vp8 :=
  match ev with
  | EvFrame env frame => match handleIncomingFrame p env frame with Ok p' => Some p' | _ => None end
  | EvConnect env => Some (vp_Connect p env)
  | EvConfirm now peerID => Some (ConfirmPeer p now peerID).1
  | EvRestart env draws => restartPlanes p env draws
  | EvHealth unhealthy => Some (NotifyLinkHealth p unhealthy)
  | EvSweep now => Some (peers_sweep p now peerIdleTTL)
  | EvSend kcpOk data => Some (vp_send p kcpOk data).1
  | EvControlSend kcpOk data => Some (ControlSend p kcpOk data).1
  | EvSendTo env control peerID kcpOk data => Some (sendToPeer p env control peerID kcpOk data).1
  | EvClose => Some (vp_Close p)
  | EvPart pt => part_step p pt
  end.
