(* ===== verification/VpPeersFacts.v ===== *)
(** * VpPeersFacts: who owns which KCP runtime

    The peer table is bounded, holds one live session per epoch, and every
    runtime that is still open is reachable from a plane or from a session of the
    table, so closing the transport closes them all.  The exception is a control
    runtime attached to a session that had already been closed. *)

From S2P Require Import Prelude Bytes Text Framing Frame VpWire VpTransport.

(** ** The invariant *)

Definition session_holds (s : peerSession) (id : nat) : Prop :=
  psControl s = Some id \/ psClosed s = false /\ psData s = id.

(** [id] is reached from a plane or from a session. *)
Definition owned (p : vp8) (id : nat) : Prop :=
  plRt (vpData p) = Some id \/ plRt (vpControl p) = Some id \/
  exists sid s, vpSessions p !! sid = Some s /\ session_holds s id.

(** The sessions [D] are being added to the table or were just removed from it. *)
Record vp_inv (D : list nat) (p : vp8) : Prop := {
  vi_bound : Z.of_nat (size (vpPeers p)) <= maxPeers;
  vi_table : forall e sid, vpPeers p !! e = Some sid ->
    exists s, vpSessions p !! sid = Some s /\ psEpoch s = e /\ psClosed s = false;
  vi_owned : forall id r, vpRts p !! id = Some r -> rtClosed r = false -> owned p id;
  vi_peers_closed : vpPeersClosed p = true -> vpPeers p = ∅;
  vi_plane : forall c id r, plClosed (get_plane p c) = true -> plRt (get_plane p c) = Some id ->
    vpRts p !! id = Some r -> rtClosed r = true;
  vi_live : forall sid s, vpSessions p !! sid = Some s -> psClosed s = false ->
    sid ∈ D \/ exists e, vpPeers p !! e = Some sid;
  vi_valid : forall c id, plRt (get_plane p c) = Some id -> (id < length (vpRts p))%nat;
  vi_once : forall c, plOnce (get_plane p c) = false -> plRt (get_plane p c) = None;
}.

(** ** What does not matter to ownership *)

(** The part of a session and of a transport the invariant is about. *)
Definition session_core (s : peerSession) := (psEpoch s, psData s, psControl s, psClosed s).

Record same_shape (p p' : vp8) : Prop := {
  ss_rts : map rtClosed (vpRts p') = map rtClosed (vpRts p);
  ss_sessions : map session_core (vpSessions p') = map session_core (vpSessions p);
  ss_peers : vpPeers p' = vpPeers p;
  ss_planes : forall c, plRt (get_plane p' c) = plRt (get_plane p c) /\
                        plClosed (get_plane p' c) = plClosed (get_plane p c) /\
                        (plOnce (get_plane p' c) = false -> plOnce (get_plane p c) = false);
  ss_flag : vpPeersClosed p' = vpPeersClosed p;
}.

Lemma same_shape_refl p : same_shape p p.
Proof. by split. Qed.

Lemma same_shape_trans p q r : same_shape p q -> same_shape q r -> same_shape p r.
Proof.
  intros [A1 A2 A3 A4 A5] [B1 B2 B3 B4 B5]. split; try congruence.
  intros c. destruct (A4 c) as (? & ? & ?), (B4 c) as (? & ? & ?). split_and!; [congruence..|auto].
Qed.

Lemma map_lookup_back {A B} (f : A -> B) l l' i x :
  map f l' = map f l -> l' !! i = Some x -> exists y, l !! i = Some y /\ f y = f x.
Proof.
  intros He Hx. apply (f_equal (.!! i)) in He. change (map f) with (fmap (M := list) f) in He.
  rewrite !list_lookup_fmap, Hx in He. cbn in He. destruct (l !! i) as [y|]; [|done].
  exists y. split; [done|]. cbn in He. by injection He as ->.
Qed.

Lemma session_core_holds s s' id : session_core s = session_core s' -> session_holds s id -> session_holds s' id.
Proof. unfold session_core, session_holds. intros [= _ E2 E3 E4]. by rewrite E2, E3, E4. Qed.

Lemma vp_inv_shape D p p' : same_shape p p' -> vp_inv D p -> vp_inv D p'.
Proof.
  intros [Hr Hs Hp Hpl Hpc] [I1 I2 I3 I4 I5 I6 I7 I8].
  destruct (Hpl false) as (Hd1 & Hd2 & _). destruct (Hpl true) as (Hc1 & Hc2 & _).
  cbn in Hd1, Hd2, Hc1, Hc2.
  split; rewrite ?Hp, ?Hpc; try done.
  - intros e sid He. destruct (I2 e sid He) as (s & Hsid & Hep & Hcl).
    destruct (map_lookup_back session_core _ _ sid s (eq_sym Hs) Hsid) as (s' & Hs' & Heq).
    exists s'. unfold session_core in Heq. injection Heq as Ha _ _ Hb. split_and!; congruence.
  - intros id r Hid Hopen. destruct (map_lookup_back rtClosed _ _ id r Hr Hid) as (r' & Hr' & Heq).
    destruct (I3 id r' Hr' ltac:(congruence)) as [?|[?|(sid & s & Hsid & Hh)]];
      [left; congruence|right; left; congruence|right; right].
    destruct (map_lookup_back session_core _ _ sid s (eq_sym Hs) Hsid) as (s' & Hs' & Hcore).
    exists sid, s'. split; [done|]. by apply (session_core_holds s).
  - intros c id r Hcl Hid Hrt. destruct (Hpl c) as (E1 & E2 & _). rewrite E1 in Hid. rewrite E2 in Hcl.
    destruct (map_lookup_back rtClosed _ _ id r Hr Hrt) as (r' & Hr' & Heq).
    rewrite <- Heq. by eapply I5.
  - intros sid s' Hs' Hcl. destruct (map_lookup_back session_core _ _ sid s' Hs Hs') as (s & Hsid & Heq).
    apply (I6 sid s Hsid). unfold session_core in Heq. injection Heq as _ _ _ ->. done.
  - intros c id Hid. destruct (Hpl c) as [E1 _]. rewrite E1 in Hid.
    apply (f_equal length) in Hr. rewrite !length_map in Hr. rewrite Hr. by apply (I7 c).
  - intros c Ho. destruct (Hpl c) as (E1 & _ & E3). rewrite E1. auto.
Qed.

Lemma map_alter_same {A B} (f : A -> B) (g : A -> A) i l :
  (forall x, f (g x) = f x) -> map f (alter g i l) = map f l.
Proof.
  intros Hfg. apply list_eq. intros j. change (map f) with (fmap (M := list) f).
  rewrite !list_lookup_fmap. destruct (decide (i = j)) as [->|Hne].
  - rewrite list_lookup_alter_eq. destruct (l !! j); cbn; [by rewrite Hfg|done].
  - by rewrite list_lookup_alter_ne.
Qed.

Lemma upd_rt_shape p id f : (forall r, rtClosed (f r) = rtClosed r) -> same_shape p (upd_rt p id f).
Proof. intros Hf. split; try done. cbn. by apply map_alter_same. Qed.

Lemma upd_session_shape p sid f :
  (forall s, session_core (f s) = session_core s) -> same_shape p (upd_session p sid f).
Proof. intros Hf. split; try done. cbn. by apply map_alter_same. Qed.

Lemma set_link_shape p l : same_shape p (set_link p l).
Proof. by split. Qed.

(** ** Closing *)

Lemma close_rt_lookup p id j r :
  vpRts (close_rt p id) !! j = Some r -> rtClosed r = false -> j <> id /\ vpRts p !! j = Some r.
Proof.
  cbn. intros Hj Hopen. destruct (decide (id = j)) as [->|Hne].
  - rewrite list_lookup_alter_eq in Hj. destruct (vpRts p !! j); [|done]. cbn in Hj.
    by injection Hj as <-.
  - rewrite list_lookup_alter_ne in Hj by done. done.
Qed.

Lemma close_rt_mono p id j r :
  vpRts p !! j = Some r -> exists r', vpRts (close_rt p id) !! j = Some r' /\
    (rtClosed r = true -> rtClosed r' = true).
Proof.
  intros Hj. cbn. destruct (decide (id = j)) as [->|Hne].
  - rewrite list_lookup_alter_eq, Hj. cbn. by eexists.
  - rewrite list_lookup_alter_ne by done. by exists r.
Qed.

Lemma close_rt_closed p id j r :
  vpRts (close_rt p id) !! j = Some r -> (j = id \/ forall r0, vpRts p !! j = Some r0 -> rtClosed r0 = true) ->
  rtClosed r = true.
Proof.
  cbn. destruct (decide (id = j)) as [->|Hne].
  - rewrite list_lookup_alter_eq. destruct (vpRts p !! j); [|done]. cbn. by intros [= <-].
  - rewrite list_lookup_alter_ne by done. intros Hj [->|H]; [done|by eapply H].
Qed.

(** Closing one more runtime keeps the invariant. *)
Lemma close_rt_inv D p id : vp_inv D p -> vp_inv D (close_rt p id).
Proof.
  intros [I1 I2 I3 I4 I5 I6 I7 I8]. split; try done.
  - intros j r Hj Hopen. apply close_rt_lookup in Hj as [_ Hj]; [|done]. by apply (I3 j r).
  - intros c j r Hcl Hj Hr. eapply close_rt_closed; [exact Hr|]. right. intros r0 Hr0. by eapply I5.
  - intros c j Hj. cbn. rewrite length_alter. by apply (I7 c).
Qed.

Lemma close_opt_inv D p id : vp_inv D p -> vp_inv D (close_opt p id).
Proof. destruct id; [apply close_rt_inv|done]. Qed.

Lemma close_opt_lookup p id j r :
  vpRts (close_opt p id) !! j = Some r -> rtClosed r = false -> id <> Some j /\ vpRts p !! j = Some r.
Proof.
  destruct id as [i|]; cbn [close_opt]; [|by intros].
  intros Hj Hopen. apply close_rt_lookup in Hj as [Hne Hj]; [|done]. split; [congruence|done].
Qed.

Lemma close_opt_fields p id :
  vpPeers (close_opt p id) = vpPeers p /\ vpSessions (close_opt p id) = vpSessions p /\
  vpData (close_opt p id) = vpData p /\ vpControl (close_opt p id) = vpControl p /\
  vpPeersClosed (close_opt p id) = vpPeersClosed p /\ vpClosed (close_opt p id) = vpClosed p.
Proof. by destruct id. Qed.

(** Closing a session that is no longer in the table settles what it held. *)
Lemma session_close_inv D p sid :
  vp_inv (sid :: D) p -> (forall e, vpPeers p !! e <> Some sid) -> vp_inv D (session_close p sid).
Proof.
  intros Hinv Hout. unfold session_close. destruct (vpSessions p !! sid) as [s|] eqn:Hs; cycle 1.
  { destruct Hinv as [I1 I2 I3 I4 I5 I6 I7 I8]. split; try done. intros sid' s' Hs' Hcl'.
    destruct (I6 sid' s' Hs' Hcl') as [[->|?]%elem_of_cons|?]; [congruence|by left|by right]. }
  destruct (psClosed s) eqn:Hcl.
  { destruct Hinv as [I1 I2 I3 I4 I5 I6 I7 I8]. split; try done. intros sid' s' Hs' Hcl'.
    destruct (I6 sid' s' Hs' Hcl') as [[->|?]%elem_of_cons|?]; [congruence|by left|by right]. }
  pose proof (close_opt_inv _ _ (psControl s) (close_rt_inv _ _ (psData s) Hinv)) as Hinv2.
  pose proof (close_opt_fields (close_rt p (psData s)) (psControl s)) as (E1 & E2 & E3 & E4 & E5 & E6).
  set (p2 := close_opt (close_rt p (psData s)) (psControl s)) in *.
  destruct Hinv2 as [I1 I2 I3 I4 I5 I6 I7 I8]. split; try done.
  - intros e sid' He. destruct (I2 e sid' He) as (s' & Hs' & He' & Hc'). exists s'. split; [|done].
    cbn. rewrite list_lookup_alter_ne; [done|]. intros <-. apply (Hout e).
    change (vpPeers p) with (vpPeers (close_rt p (psData s))). rewrite <- E1. exact He.
  - intros id r Hid Hopen. cbn in Hid. pose proof Hid as Hid2.
    apply close_opt_lookup in Hid2 as [Hne1 Hid2]; [|done].
    apply close_rt_lookup in Hid2 as [Hne2 _]; [|done].
    destruct (I3 id r Hid Hopen) as [?|[?|(sid' & s' & Hs' & Hh)]]; [by left|by right; left|].
    right; right. exists sid', s'.
    assert (sid' <> sid) as Hns.
    { intros ->. rewrite E2 in Hs'. cbn in Hs'. rewrite Hs in Hs'. injection Hs' as <-.
      destruct Hh as [?|[_ ?]]; congruence. }
    split; [by cbn; rewrite list_lookup_alter_ne|done].
  - cbn. intros sid' s' Hs' Hcl'. destruct (decide (sid = sid')) as [<-|Hne].
    { rewrite list_lookup_alter_eq, E2 in Hs'. cbn in Hs'. rewrite Hs in Hs'. by injection Hs' as <-. }
    rewrite list_lookup_alter_ne in Hs' by done.
    destruct (I6 sid' s' Hs' Hcl') as [[->|?]%elem_of_cons|?]; [done|by left|by right].
Qed.

Lemma session_close_peers p sid :
  vpPeers (session_close p sid) = vpPeers p /\ vpPeersClosed (session_close p sid) = vpPeersClosed p /\
  vpClosed (session_close p sid) = vpClosed p /\
  vpData (session_close p sid) = vpData p /\ vpControl (session_close p sid) = vpControl p /\
  (forall j, j <> sid -> vpSessions (session_close p sid) !! j = vpSessions p !! j) /\
  length (vpSessions (session_close p sid)) = length (vpSessions p).
Proof.
  unfold session_close. destruct (vpSessions p !! sid) as [s|]; [|done].
  destruct (psClosed s); [done|]. cbn.
  pose proof (close_opt_fields (close_rt p (psData s)) (psControl s)) as (-> & -> & -> & -> & -> & ->).
  split_and!; try done; [|by rewrite length_alter].
  intros j Hj. by rewrite list_lookup_alter_ne.
Qed.

Lemma close_sessions_inv D p sids :
  vp_inv (sids ++ D) p -> Forall (fun sid => forall e, vpPeers p !! e <> Some sid) sids ->
  vp_inv D (close_sessions p sids).
Proof.
  revert p. induction sids as [|sid sids IH]; intros p Hinv Hout; [done|].
  apply Forall_cons_iff in Hout as [Hsid Hout]. cbn. apply IH.
  - by apply session_close_inv.
  - destruct (session_close_peers p sid) as (-> & _). done.
Qed.

Lemma close_sessions_peers p sids :
  vpPeers (close_sessions p sids) = vpPeers p /\ vpPeersClosed (close_sessions p sids) = vpPeersClosed p /\
  vpClosed (close_sessions p sids) = vpClosed p.
Proof.
  revert p. induction sids as [|sid sids IH]; intros p; [done|].
  change (close_sessions p (sid :: sids)) with (close_sessions (session_close p sid) sids).
  destruct (IH (session_close p sid)) as (E1 & E2 & E3).
  destruct (session_close_peers p sid) as (F1 & F2 & F3 & _). split_and!; congruence.
Qed.

(** ** Adding and removing peers *)

(** A session taken out of the table is held by whoever took it out. *)
Lemma delete_inv D p e sid closed :
  vp_inv D p -> vpPeers p !! e = Some sid -> (closed = vpPeersClosed p) ->
  vp_inv (sid :: D) (set_peers p (vpSessions p) (delete e (vpPeers p)) closed) /\
  (forall e', delete e (vpPeers p) !! e' <> Some sid).
Proof.
  intros [I1 I2 I3 I4 I5 I6 I7 I8] He ->. split.
  - split; cbn; try done.
    + pose proof (map_size_delete_Some _ _ (mk_is_Some _ _ He)) as Hsz. lia.
    + intros e' sid' [_ He']%lookup_delete_Some. by apply I2.
    + intros Hc. by rewrite (I4 Hc), delete_empty.
    + intros sid' s Hs Hcl. destruct (I6 sid' s Hs Hcl) as [?|[e' He']]; [left; by right|].
      destruct (decide (sid' = sid)) as [->|Hne]; [left; left|right]. exists e'.
      rewrite lookup_delete_ne; [done|]. intros <-. congruence.
  - intros e' [Hne He']%lookup_delete_Some.
    destruct (I2 e sid He) as (s & Hs & Hep & _). destruct (I2 e' sid He') as (s' & Hs' & Hep' & _).
    congruence.
Qed.

(** Every pick of the loop is an entry of the table. *)
Lemma oldest_peer_in p keys e sid seen :
  oldest_peer p keys = Some (e, sid, seen) -> vpPeers p !! e = Some sid.
Proof.
  unfold oldest_peer.
  assert (Hgen : forall acc, (forall e sid seen, acc = Some (e, sid, seen) -> vpPeers p !! e = Some sid) ->
    forall e sid seen, fold_left (older_peer p) keys acc = Some (e, sid, seen) -> vpPeers p !! e = Some sid).
  { induction keys as [|k keys IH]; intros acc Hacc e0 sid0 seen0; cbn [fold_left]; [by apply Hacc|].
    apply IH. intros e1 sid1 seen1. unfold older_peer.
    destruct (vpPeers p !! k) as [sk|] eqn:Hk; cbn; [|by apply Hacc].
    destruct (vpSessions p !! sk); cbn; [|by apply Hacc].
    destruct acc as [[[a b] c]|]; [case_if|].
    - intros [= <- <- _]. done.
    - by apply Hacc.
    - intros [= <- <- _]. done. }
  by apply Hgen.
Qed.

Lemma oldest_peer_some D p keys e sid :
  vp_inv D p -> e ∈ keys -> vpPeers p !! e = Some sid -> oldest_peer p keys <> None.
Proof.
  intros Hinv Hin He. destruct (vi_table _ _ Hinv e sid He) as (s & Hs & _). unfold oldest_peer.
  assert (Hgen : forall acc, acc <> None \/ e ∈ keys -> fold_left (older_peer p) keys acc <> None);
    [|by apply Hgen; right].
  clear Hin. induction keys as [|k keys IH]; intros acc Hacc; cbn [fold_left].
  { destruct Hacc as [?|Hx]; [done|by apply elem_of_nil in Hx]. }
  apply IH. destruct Hacc as [Ha|[->|Hin]%elem_of_cons]; [left| |by right].
  - unfold older_peer. destruct (vpPeers p !! k) as [sk|]; cbn; [|done].
    destruct (vpSessions p !! sk); cbn; [|done]. destruct acc as [[[? ?] ?]|]; [by case_if|done].
  - left. unfold older_peer. rewrite He. cbn. rewrite Hs. cbn.
    destruct acc as [[[? ?] ?]|]; [by case_if|done].
Qed.

(** The order in which [range] visits the table. *)
Definition env_ok (p : vp8) (env : vp_env) : Prop := eRange env ≡ₚ (map_to_list (vpPeers p)).*1.

Lemma evict_inv D p env :
  vp_inv D p -> env_ok p env -> vpPeers p <> ∅ ->
  vp_inv D (evictOldestLocked p (eRange env)) /\
  (size (vpPeers (evictOldestLocked p (eRange env))) < size (vpPeers p))%nat /\
  vpPeers (evictOldestLocked p (eRange env)) ⊆ vpPeers p /\
  vpPeersClosed (evictOldestLocked p (eRange env)) = vpPeersClosed p /\
  (exists e sid, vpPeers p !! e = Some sid /\
     (forall j, j <> sid -> vpSessions (evictOldestLocked p (eRange env)) !! j = vpSessions p !! j)).
Proof.
  intros Hinv Henv Hne. destruct (map_choose _ Hne) as (e0 & sid0 & He0).
  assert (Hsome : oldest_peer p (eRange env) <> None).
  { eapply (oldest_peer_some D p _ e0 sid0); [done| |done].
    rewrite Henv. apply list_elem_of_fmap. exists (e0, sid0). split; [done|]. by apply elem_of_map_to_list. }
  unfold evictOldestLocked. destruct (oldest_peer p (eRange env)) as [[[e sid] seen]|] eqn:Ho; [|done].
  apply oldest_peer_in in Ho. destruct (delete_inv D p e sid _ Hinv Ho eq_refl) as [Hdel Hout].
  set (q := set_peers p (vpSessions p) (delete e (vpPeers p)) (vpPeersClosed p)) in *.
  destruct (session_close_peers q sid) as (E1 & E2 & _ & _ & _ & E6 & _). rewrite E1, E2.
  split_and!; [by apply session_close_inv| | |done|].
  - cbn. pose proof (map_size_delete_Some _ _ (mk_is_Some _ _ Ho)) as Hsz.
    assert (size (vpPeers p) <> 0%nat) by (by intros ?%map_size_empty_inv). lia.
  - cbn. apply delete_subseteq.
  - exists e, sid. split; [done|]. intros j Hj. by rewrite E6.
Qed.

Lemma touch_shape p sid now : same_shape p (upd_session p sid (touch now)).
Proof. by apply upd_session_shape. Qed.

(** A new session goes into the table, or is closed. *)
Lemma peers_add_inv p env sid s epoch :
  vp_inv [sid] p -> env_ok p env -> vpSessions p !! sid = Some s -> psEpoch s = epoch -> psClosed s = false ->
  (forall e, vpPeers p !! e <> Some sid) ->
  match peers_add p env sid epoch with
  | (p', true) => vp_inv [] p' /\ vpPeers p' !! epoch = Some sid /\ is_Some (vpSessions p' !! sid)
  | (p', false) => p' = p
  end.
Proof.
  intros Hinv Henv Hs Hep Hcl Hout. unfold peers_add. destruct (vpPeersClosed p) eqn:Hpc; [done|].
  case_if; [done|]. apply eq_None_not_Some in Heqb.
  set (p1 := if maxPeers <=? Z.of_nat (size (vpPeers p)) then evictOldestLocked p (eRange env) else p).
  assert (H1 : vp_inv [sid] p1 /\ Z.of_nat (size (vpPeers p1)) < maxPeers /\ vpPeers p1 ⊆ vpPeers p /\
            vpPeersClosed p1 = false /\ vpSessions p1 !! sid = Some s).
  { subst p1. case_if; cycle 1.
    { split_and!; try done. }
    assert (Hne : vpPeers p <> ∅).
    { intros E. rewrite E, map_size_empty in *. unfold maxPeers in *. lia. }
    destruct (evict_inv [sid] p env Hinv Henv Hne) as (A & B & C & E & e & sid' & He & F).
    pose proof (vi_bound _ _ Hinv). split_and!; [done|lia|done|congruence|].
    rewrite F; [done|]. intros <-. by apply (Hout e). }
  destruct H1 as (Hinv1 & Hsz & Hsub & Hpc1 & Hs1). clearbody p1.
  set (p2 := upd_session p1 sid (touch (eNow env))).
  assert (Hinv2 : vp_inv [sid] p2) by (eapply vp_inv_shape; [apply touch_shape|done]).
  assert (Hs2 : vpSessions p2 !! sid = Some (touch (eNow env) s)).
  { cbn. by rewrite list_lookup_alter_eq, Hs1. }
  assert (Hnone : vpPeers p2 !! epoch = None).
  { cbn. destruct (vpPeers p1 !! epoch) eqn:E; [|done].
    rewrite (lookup_weaken _ _ _ _ E Hsub) in Heqb. done. }
  assert (Hsz2 : Z.of_nat (size (vpPeers p2)) < maxPeers) by done.
  assert (Hpc2 : vpPeersClosed p2 = false) by done.
  clearbody p2. destruct Hinv2 as [I1 I2 I3 I4 I5 I6 I7 I8]. split; [|split].
  - split; cbn; try done.
    + rewrite map_size_insert_None by done. lia.
    + intros e sid' [(<- & <-)|[_ He]]%lookup_insert_Some; [|by apply I2].
      exists (touch (eNow env) s). by split_and!.
    + intros Hx. congruence.
    + intros sid' s' Hs' Hcl'. right.
      destruct (I6 sid' s' Hs' Hcl') as [->%list_elem_of_singleton|[e He]].
      * exists epoch. by rewrite lookup_insert_eq.
      * exists e. rewrite lookup_insert_ne; [done|]. intros ->. congruence.
  - cbn. apply lookup_insert_eq.
  - cbn. by eexists.
Qed.

(** ** Starting runtimes *)

(** A runtime just started, before anything reaches it. *)
Definition fresh_rt (p p' : vp8) (hdr : bytes) : Prop :=
  p' = set_rts p (vpRts p ++ [MkRt (newKCPConn inboundQueueSize hdr) [] false]).

Lemma startKCP_cases p env hdr p' r :
  startKCP p env hdr = (p', r) ->
  (r = None /\ p' = p) \/ (r = Some (length (vpRts p)) /\ fresh_rt p p' hdr).
Proof. unfold startKCP. destruct (eStart env); intros [= <- <-]; [by right|by left]. Qed.

Lemma fresh_open p p' hdr id r :
  fresh_rt p p' hdr -> vpRts p' !! id = Some r -> rtClosed r = false ->
  id = length (vpRts p) \/ vpRts p !! id = Some r.
Proof.
  intros ->. cbn. intros [Hid|[Hge Hid]]%lookup_app_Some _; [by right|left].
  destruct (id - length (vpRts p))%nat eqn:E; [lia|done].
Qed.

(** Ownership only grows when the stores grow at their end. *)
Lemma owned_mono p p' id :
  plRt (vpData p') = plRt (vpData p) -> plRt (vpControl p') = plRt (vpControl p) ->
  (forall sid s, vpSessions p !! sid = Some s -> session_holds s id ->
     exists s', vpSessions p' !! sid = Some s' /\ session_holds s' id) ->
  owned p id -> owned p' id.
Proof.
  intros E1 E2 E4 [?|[?|(sid & s & Hs & Hh)]]; [left; congruence|right; left; congruence|].
  right; right. exists sid. by apply (E4 sid s).
Qed.

Lemma planes_fresh p p' hdr :
  fresh_rt p p' hdr ->
  (forall c id r, plClosed (get_plane p c) = true -> plRt (get_plane p c) = Some id ->
     vpRts p !! id = Some r -> rtClosed r = true) ->
  (forall c id, plRt (get_plane p c) = Some id -> (id < length (vpRts p))%nat) ->
  forall c id r, plClosed (get_plane p' c) = true -> plRt (get_plane p' c) = Some id ->
     vpRts p' !! id = Some r -> rtClosed r = true.
Proof.
  intros -> Hold Hlt c id r. change (get_plane (set_rts p _) c) with (get_plane p c). cbn.
  intros Hc Hid Hr. pose proof (Hlt c id Hid). rewrite lookup_app_l in Hr by done. by eapply Hold.
Qed.

Lemma peers_get_inv D p now epoch p' r :
  vp_inv D p -> peers_get p now epoch = (p', r) ->
  vp_inv D p' /\ same_shape p p' /\
  match r with Some sid => vpPeers p' !! epoch = Some sid | None => p' = p /\ vpPeers p !! epoch = None end.
Proof.
  intros Hinv. unfold peers_get. destruct (vpPeers p !! epoch) as [sid|] eqn:He; intros [= <- <-].
  - split_and!; [by eapply vp_inv_shape; [apply touch_shape|]|apply touch_shape|done].
  - split_and!; [done|apply same_shape_refl|done|done].
Qed.

(** A new session holds the runtime started for it. *)
Lemma new_session_inv p p' hdr epoch :
  vp_inv [] p -> fresh_rt p p' hdr ->
  vp_inv [length (vpSessions p)]
    (set_peers p' (vpSessions p' ++ [MkSession epoch (length (vpRts p)) None 0 false])
       (vpPeers p') (vpPeersClosed p')).
Proof.
  intros Hinv Hf. pose proof Hinv as [I1 I2 I3 I4 I5 I6 I7 I8].
  pose proof (planes_fresh p p' hdr Hf I5 I7) as Hpl. unfold fresh_rt in Hf. subst p'. split; cbn; try done.
  - intros e sid He. destruct (I2 e sid He) as (s & Hs & ?). exists s.
    split; [|done]. by rewrite lookup_app_l by (by eapply lookup_lt_Some).
  - intros id r Hid Hopen. destruct (fresh_open p _ hdr id r eq_refl Hid Hopen) as [->|Hold].
    + right; right. eexists _, _. split; [cbn; by rewrite list_lookup_middle|by right].
    + eapply (owned_mono p); [done..| |by apply (I3 id r)].
      intros sid s Hs Hh. cbn. exists s. by rewrite lookup_app_l by (by eapply lookup_lt_Some).
  - intros sid s [Hs|[Hge Hs]]%lookup_app_Some Hcl.
    + destruct (I6 sid s Hs Hcl) as [Hx|?]; [by apply elem_of_nil in Hx|by right].
    + left. apply lookup_lt_Some in Hs. cbn in Hs. apply list_elem_of_singleton. lia.
  - intros c id Hid. rewrite length_app. cbn. pose proof (I7 c id Hid). lia.
Qed.

(** A frame of a peer finds its session, or makes the only one for its epoch. *)
Lemma peerSessionFor_inv p env epoch p' r :
  vp_inv [] p -> env_ok p env -> peerSessionFor p env epoch = (p', r) ->
  vp_inv [] p' /\ (forall sid, r = Some sid -> vpPeers p' !! epoch = Some sid).
Proof.
  intros Hinv Henv. unfold peerSessionFor.
  destruct (peers_get p (eNow env) epoch) as [p0 r0] eqn:Hget.
  destruct (peers_get_inv [] p _ _ _ _ Hinv Hget) as (Hinv0 & Hsh & Hr0).
  destruct r0 as [sid|]; [intros [= <- <-]; split; [done|by intros ? [= <-]]|].
  destruct Hr0 as [-> Hnone].
  destruct (startKCP p env _) as [p1 [data|]] eqn:Hst; cycle 1.
  { intros [= <- <-]. apply startKCP_cases in Hst as [[_ ->]|[? _]]; [by split|done]. }
  apply startKCP_cases in Hst as [[? _]|[[= ->] Hf]]; [done|].
  pose proof (new_session_inv p p1 _ epoch Hinv Hf) as Hinv1.
  assert (Hlen : vpSessions p1 = vpSessions p) by (by rewrite Hf).
  rewrite Hlen in *. set (s := MkSession epoch (length (vpRts p)) None 0 false) in *.
  set (p2 := set_peers p1 (vpSessions p ++ [s]) (vpPeers p1) (vpPeersClosed p1)) in *.
  assert (Hs : vpSessions p2 !! length (vpSessions p) = Some s).
  { cbn. by rewrite list_lookup_middle. }
  assert (Hout : forall e, vpPeers p2 !! e <> Some (length (vpSessions p))).
  { intros e He. subst p2. rewrite Hf in He. cbn in He. destruct (vi_table _ _ Hinv e _ He) as (s' & Hs' & _).
    apply lookup_lt_Some in Hs'. lia. }
  assert (Henv2 : env_ok p2 env) by (subst p2; rewrite Hf; exact Henv).
  pose proof (peers_add_inv p2 env _ s epoch Hinv1 Henv2 Hs eq_refl eq_refl Hout) as Hadd.
  destruct (peers_add p2 env (length (vpSessions p)) epoch) as [p3 b]. destruct b; intros [= <- <-].
  - destruct Hadd as (? & ? & _). split; [done|by intros ? [= <-]].
  - subst p3. split; [by apply session_close_inv|done].
Qed.

(** A control runtime is attached to any session, open or closed. *)
Lemma attachControl_inv p env sid epoch p' r :
  vp_inv [] p -> attachControl p env sid epoch = (p', r) -> vp_inv [] p'.
Proof.
  intros Hinv. unfold attachControl. pose proof Hinv as [I1 I2 I3 I4 I5 I6 I7 I8].
  destruct (vpSessions p !! sid) as [s|] eqn:Hs; [|by intros [= <- <-]].
  destruct (psControl s) as [id|] eqn:Hc; [by intros [= <- <-]|].
  destruct (startKCP p env _) as [p1 [id|]] eqn:Hst; cycle 1.
  { intros [= <- <-]. by apply startKCP_cases in Hst as [[_ ->]|[? _]]. }
  apply startKCP_cases in Hst as [[? _]|[[= ->] Hf]]; [done|]. intros [= <- _].
  pose proof (planes_fresh p p1 _ Hf I5 I7) as Hpl.
  set (g := fun s => MkSession (psEpoch s) (psData s) (Some (length (vpRts p))) (psLastSeen s) (psClosed s)).
  assert (Hlook : forall j s0, vpSessions p !! j = Some s0 ->
            alter g sid (vpSessions p) !! j = Some (if decide (j = sid) then g s0 else s0)).
  { intros j s0 Hj. destruct (decide (j = sid)) as [->|Hne].
    - by rewrite list_lookup_alter_eq, Hj.
    - by rewrite list_lookup_alter_ne. }
  unfold fresh_rt in Hf. subst p1. split; cbn; try done.
  - intros e sid' He'. destruct (I2 e sid' He') as (s' & Hs' & Hep' & Hcl').
    rewrite (Hlook _ _ Hs'). eexists. split; [done|]. by case_decide.
  - intros id r0 Hid Hopen. destruct (fresh_open p _ _ id r0 eq_refl Hid Hopen) as [->|Hold].
    + right; right. exists sid, (g s). split; [|by left]. cbn. by rewrite (Hlook _ _ Hs), decide_True.
    + eapply (owned_mono p); [done..| |by apply (I3 id r0)]. intros sid' s' Hs' Hh.
      cbn. rewrite (Hlook _ _ Hs'). eexists. split; [done|]. case_decide as Hd; [|done]. subst sid'.
      rewrite Hs in Hs'. injection Hs' as <-. destruct Hh as [Hh|Hh]; [congruence|by right].
  - intros j s0 Hj Hcl. destruct (decide (j = sid)) as [->|Hne].
    + rewrite list_lookup_alter_eq, Hs in Hj. cbn in Hj. injection Hj as <-. by apply (I6 sid s).
    + rewrite list_lookup_alter_ne in Hj by done. by apply (I6 j s0).
  - intros c id Hid. rewrite length_app. cbn. pose proof (I7 c id Hid). lia.
Qed.

Lemma peerControlFor_inv p env epoch p' r :
  vp_inv [] p -> env_ok p env -> peerControlFor p env epoch = (p', r) -> vp_inv [] p'.
Proof.
  intros Hinv Henv. unfold peerControlFor.
  destruct (peerSessionFor p env epoch) as [p1 [sid|]] eqn:Hp.
  - destruct (peerSessionFor_inv _ _ _ _ _ Hinv Henv Hp) as [Hinv1 Hin].
    intros Ha. eapply attachControl_inv; [exact Hinv1|exact Ha].
  - intros [= <- <-]. by destruct (peerSessionFor_inv _ _ _ _ _ Hinv Henv Hp).
Qed.

(** ** Planes *)

Lemma plane_set_get p c pl : get_plane (set_plane p c pl) c = pl.
Proof. by destruct c. Qed.

(** Installing a runtime just started as the one of an open plane. *)
Lemma install_inv D p p' hdr c out :
  vp_inv D p -> fresh_rt p p' hdr -> plClosed (get_plane p c) = false ->
  (forall id r, plRt (get_plane p c) = Some id -> vpRts p !! id = Some r -> rtClosed r = true) ->
  vp_inv D (set_plane p' c (MkPlane out (Some (length (vpRts p))) false true)).
Proof.
  intros [I1 I2 I3 I4 I5 I6 I7 I8] Hf Hcl Hold. unfold fresh_rt in Hf. subst p'. split; try done.
  - intros id r Hid Hopen. destruct (fresh_open p _ hdr id r eq_refl Hid Hopen) as [->|Hr].
    + destruct c; [right; left; done|left; done].
    + destruct (I3 id r Hr Hopen) as [?|[?|?]]; destruct c;
        try (by left); try (by right; left); try (by right; right).
      * specialize (Hold id r H Hr). congruence.
      * specialize (Hold id r H Hr). congruence.
  - intros c' id r Hc' Hid Hr. destruct (decide (c' = c)) as [->|Hne].
    + rewrite plane_set_get in Hc'. done.
    + assert (Hg : get_plane p c' = get_plane (set_plane (set_rts p (vpRts p ++
        [MkRt (newKCPConn inboundQueueSize hdr) [] false])) c (MkPlane out (Some (length (vpRts p))) false true)) c')
        by (by destruct c, c').
      rewrite <- Hg in Hc', Hid. pose proof (I7 c' id Hid). cbn in Hr.
      rewrite lookup_app_l in Hr by done. by eapply I5.
  - intros c' id Hid. cbn. rewrite length_app. cbn. destruct (decide (c' = c)) as [->|Hne].
    + rewrite plane_set_get in Hid. cbn in Hid. injection Hid as <-. lia.
    + assert (plRt (get_plane p c') = Some id) as Hid' by (by destruct c, c'). pose proof (I7 c' id Hid'). lia.
  - intros c'. pose proof (I8 c'). by destruct c, c'.
Qed.

Lemma plane_start_inv p c env hdr : vp_inv [] p -> vp_inv [] (plane_start p c env hdr).
Proof.
  intros Hinv. unfold plane_start. destruct (plOnce (get_plane p c)) eqn:Ho; [done|].
  pose proof (vi_once _ _ Hinv c Ho) as Hnone. destruct (plClosed (get_plane p c)) eqn:Hcl.
  { eapply vp_inv_shape; [|exact Hinv]. split; try done. intros c'. destruct c, c'; cbn in *; done. }
  destruct (startKCP p env hdr) as [p1 [id|]] eqn:Hst.
  - apply startKCP_cases in Hst as [[? _]|[[= ->] Hf]]; [done|].
    eapply install_inv; [done|exact Hf|done|]. intros id r Hid. congruence.
  - apply startKCP_cases in Hst as [[_ ->]|[? _]]; [|done].
    eapply vp_inv_shape; [|exact Hinv]. split; try done. intros c'. destruct c, c'; cbn in *; done.
Qed.

(** A plane whose runtime is taken away and closed. *)
Lemma plane_drop_inv D p c out :
  vp_inv D p -> plClosed (get_plane p c) = false ->
  vp_inv D (close_opt (set_plane p c (MkPlane out None false true)) (plRt (get_plane p c))).
Proof.
  intros Hinv Hcl. pose proof Hinv as [I1 I2 I3 I4 I5 I6 I7 I8].
  pose proof (close_opt_fields (set_plane p c (MkPlane out None false true)) (plRt (get_plane p c)))
    as (E1 & E2 & E3 & E4 & E5 & E6).
  split; rewrite ?E1, ?E2, ?E5, ?E6; try done.
  - intros id r Hid Hopen. apply close_opt_lookup in Hid as [Hne Hid]; [|done].
    unfold owned. rewrite E2, E3, E4.
    destruct (I3 id r Hid Hopen) as [?|[?|?]]; destruct c; cbn in *; auto; congruence.
  - intros c' id r Hc' Hid Hr.
    assert (Hg : get_plane (close_opt (set_plane p c (MkPlane out None false true)) (plRt (get_plane p c))) c' =
              get_plane (set_plane p c (MkPlane out None false true)) c').
    { unfold get_plane at 1 3. rewrite E3, E4. done. }
    rewrite Hg in Hc', Hid. destruct (decide (c' = c)) as [->|Hne]; [by rewrite plane_set_get in Hid|].
    assert (get_plane (set_plane p c (MkPlane out None false true)) c' = get_plane p c') as Hg2
      by (by destruct c, c').
    rewrite Hg2 in Hc', Hid. destruct (rtClosed r) eqn:Hopen; [done|].
    apply close_opt_lookup in Hr as [_ Hr]; [|done]. by rewrite <- Hopen; eapply I5.
  - intros c' id Hid.
    assert (Hl : length (vpRts (close_opt (set_plane p c (MkPlane out None false true)) (plRt (get_plane p c)))) =
              length (vpRts p)).
    { destruct (plRt (get_plane p c)); cbn; [by rewrite length_alter|done]. }
    rewrite Hl. unfold get_plane at 1 in Hid. rewrite E3, E4 in Hid.
    apply (I7 c'). destruct c, c'; cbn in *; try done.
  - intros c'. pose proof (I8 c') as H8. destruct (plRt (get_plane p c)), c, c'; cbn in *; auto.
Qed.

Lemma plane_restart_inv p c env hdr :
  vp_inv [] p -> plOnce (get_plane p c) = true -> vp_inv [] (plane_restart p c env hdr).
Proof.
  intros Hinv Honce. unfold plane_restart. destruct (plClosed (get_plane p c)) eqn:Hcl; [done|].
  rewrite Honce. pose proof (plane_drop_inv [] p c [] Hinv Hcl) as Hinv1. set (p1 := close_opt _ _) in *.
  assert (Hg : get_plane p1 c = MkPlane [] None false true).
  { subst p1. unfold get_plane at 1.
    destruct (close_opt_fields (set_plane p c (MkPlane [] None false true))
                (plRt (get_plane p c))) as (_ & _ & -> & -> & _). by destruct c. }
  destruct (startKCP p1 env hdr) as [p2 [id|]] eqn:Hst.
  - apply startKCP_cases in Hst as [[? _]|[[= ->] Hf]]; [done|].
    eapply install_inv; [exact Hinv1|exact Hf|by rewrite Hg|]. rewrite Hg. done.
  - by apply startKCP_cases in Hst as [[_ ->]|[? _]].
Qed.

Lemma plane_close_inv D p c :
  vp_inv D p ->
  vp_inv D (plane_close p c) /\ plClosed (get_plane (plane_close p c) c) = true /\
  (forall c', plClosed (get_plane p c') = true -> plClosed (get_plane (plane_close p c) c') = true) /\
  vpPeersClosed (plane_close p c) = vpPeersClosed p /\ vpPeers (plane_close p c) = vpPeers p.
Proof.
  intros Hinv. unfold plane_close. set (pl := get_plane p c).
  set (q := set_plane p c (MkPlane (plOut pl) (plRt pl) true (plOnce pl))).
  pose proof (close_opt_fields q (plRt pl)) as (E1 & E2 & E3 & E4 & E5 & E6).
  assert (Hget : forall c', get_plane (close_opt q (plRt pl)) c' = get_plane q c')
    by (intros c'; unfold get_plane; by rewrite E3, E4).
  assert (Hq : forall c', plRt (get_plane q c') = plRt (get_plane p c') /\
                plOnce (get_plane q c') = plOnce (get_plane p c')) by (by intros []; destruct c).
  assert (Hlen : length (vpRts (close_opt q (plRt pl))) = length (vpRts p)).
  { destruct (plRt pl); cbn; [by rewrite length_alter|done]. }
  pose proof Hinv as [I1 I2 I3 I4 I5 I6 I7 I8].
  split; [|rewrite !Hget; split_and!; [by destruct c| |by rewrite E5|by rewrite E1]].
  2:{ intros c'. rewrite Hget. destruct c, c'; cbn; done. }
  split; rewrite ?E1, ?E2, ?E5, ?E6; try done.
  - intros id r Hid Hopen. apply close_opt_lookup in Hid as [_ Hid]; [|done].
    unfold owned. rewrite E2, E3, E4.
    assert (plRt (vpData q) = plRt (vpData p)) as -> by exact (proj1 (Hq false)).
    assert (plRt (vpControl q) = plRt (vpControl p)) as -> by exact (proj1 (Hq true)).
    by apply (I3 id r).
  - intros c' id r Hc' Hid Hr. rewrite Hget in Hc', Hid. destruct (rtClosed r) eqn:Hopen; [done|].
    apply close_opt_lookup in Hr as [Hne Hr]; [|done]. destruct (Hq c') as [Hx _]. rewrite Hx in Hid.
    destruct (decide (c' = c)) as [->|Hnc]; [subst pl; congruence|].
    rewrite <- Hopen. eapply (I5 c'); [|done..]. destruct c, c'; cbn in *; done.
  - intros c' id. rewrite Hget, Hlen. destruct (Hq c') as [-> _]. apply I7.
  - intros c'. rewrite Hget. destruct (Hq c') as [-> ->]. apply I8.
Qed.

(** Taking several entries out of the table at once. *)
Lemma remove_inv p (gone : gmap Z nat) closed :
  vp_inv [] p -> gone ⊆ vpPeers p -> (closed = true -> vpPeers p ∖ gone = ∅) ->
  (vpPeersClosed p = true -> closed = true) ->
  vp_inv ((map_to_list gone).*2 ++ []) (set_peers p (vpSessions p) (vpPeers p ∖ gone) closed) /\
  Forall (fun sid => forall e, (vpPeers p ∖ gone) !! e <> Some sid) (map_to_list gone).*2.
Proof.
  intros Hinv Hsub Hcl Hmono. pose proof Hinv as [I1 I2 I3 I4 I5 I6 I7 I8]. rewrite app_nil_r. split.
  - split; cbn; try done.
    + assert (size (vpPeers p ∖ gone) <= size (vpPeers p))%nat; [|lia].
      apply map_subseteq_size, map_subseteq_spec. by intros e sid [? _]%lookup_difference_Some.
    + intros e sid [He _]%lookup_difference_Some. by apply I2.
    + intros sid s Hs Hcl'. destruct (I6 sid s Hs Hcl') as [Hx|[e He]]; [by apply elem_of_nil in Hx|].
      destruct (gone !! e) as [sid'|] eqn:Hg.
      * left. apply list_elem_of_fmap. exists (e, sid). split; [done|]. apply elem_of_map_to_list.
        rewrite (lookup_weaken _ _ _ _ Hg Hsub) in He. congruence.
      * right. exists e. apply lookup_difference_Some. by split.
  - apply Forall_forall. intros sid ([e sid'] & -> & Hin)%list_elem_of_fmap e' [He' Hno]%lookup_difference_Some.
    apply elem_of_map_to_list in Hin. cbn in *. pose proof (lookup_weaken _ _ _ _ Hin Hsub) as He.
    destruct (I2 e sid' He) as (s & Hs & Hep & _). destruct (I2 e' sid' He') as (s' & Hs' & Hep' & _).
    assert (e = e') by congruence. subst. congruence.
Qed.

Lemma sweep_inv p now ttl : vp_inv [] p -> vp_inv [] (peers_sweep p now ttl).
Proof.
  intros Hinv. unfold peers_sweep.
  destruct (remove_inv p (stale_peers p (now - ttl)) (vpPeersClosed p) Hinv) as [A B].
  - apply map_filter_subseteq.
  - intros Hc. rewrite (vi_peers_closed _ _ Hinv Hc). apply map_empty. intros i.
    apply lookup_difference_None. by left.
  - done.
  - by apply close_sessions_inv.
Qed.

Lemma closeAll_inv p : vp_inv [] p ->
  vp_inv [] (peers_closeAll p) /\ vpPeersClosed (peers_closeAll p) = true /\ vpPeers (peers_closeAll p) = ∅.
Proof.
  intros Hinv. unfold peers_closeAll.
  destruct (remove_inv p (vpPeers p) true Hinv) as [A B]; [done| |done|].
  { intros _. apply map_difference_diag. }
  rewrite map_difference_diag in A, B.
  destruct (close_sessions_peers (set_peers p (vpSessions p) ∅ true) (map_to_list (vpPeers p)).*2)
    as (-> & -> & _). split; [by apply close_sessions_inv|done].
Qed.

Lemma close_sessions_planes p sids :
  vpData (close_sessions p sids) = vpData p /\ vpControl (close_sessions p sids) = vpControl p.
Proof.
  revert p. induction sids as [|sid sids IH]; intros p; [done|].
  change (close_sessions p (sid :: sids)) with (close_sessions (session_close p sid) sids).
  destruct (IH (session_close p sid)) as [-> ->].
  by destruct (session_close_peers p sid) as (_ & _ & _ & -> & -> & _).
Qed.

Lemma closeAll_planes p :
  vpData (peers_closeAll p) = vpData p /\ vpControl (peers_closeAll p) = vpControl p.
Proof. apply (close_sessions_planes (set_peers p (vpSessions p) ∅ true)). Qed.

Lemma mark_closed_shape p : same_shape p (mark_closed p).
Proof. by split. Qed.

(** Both planes and the table are closed: what [Close] leaves behind. *)
Definition shut (p : vp8) : Prop :=
  plClosed (vpData p) = true /\ plClosed (vpControl p) = true /\ vpPeersClosed p = true.

Lemma vp_Close_inv p : vp_inv [] p -> vp_inv [] (vp_Close p) /\ (vpClosed p = false -> shut (vp_Close p)).
Proof.
  intros Hinv. unfold vp_Close. destruct (vpClosed p) eqn:Hc; [done|]. fold (mark_closed p).
  assert (Hm : vp_inv [] (mark_closed p)) by (eapply vp_inv_shape; [apply mark_closed_shape|done]).
  destruct (plane_close_inv [] _ false Hm) as (A1 & A2 & _).
  destruct (plane_close_inv [] _ true A1) as (B1 & B2 & B3 & _). specialize (B3 false A2).
  destruct (closeAll_inv _ B1) as (C1 & C2 & C3). split; [done|]. intros _.
  destruct (closeAll_planes (plane_close (plane_close (mark_closed p) false) true)) as [Hd Hct].
  unfold shut. by rewrite Hd, Hct.
Qed.

(** ** The other operations leave ownership alone *)

Lemma deliverKCPPayload_shape p env rt payload p' :
  deliverKCPPayload p env rt payload = Ok p' -> same_shape p p'.
Proof.
  unfold deliverKCPPayload. destruct (_ ≫= _) as [[id r]|]; [|intros [= <-]; apply same_shape_refl].
  case_if; [intros [= <-]; apply same_shape_refl|].
  destruct (deliver_packets env 0 (rtConn r) _) as [c|e|]; cbn; [|done..].
  intros [= <-]. by apply upd_rt_shape.
Qed.

Lemma maybePeerRestart_shape p now src : same_shape p (maybePeerRestart p now src).
Proof. unfold maybePeerRestart. repeat case_if; by split. Qed.

Lemma sendVia_shape p rt kcpOk data : same_shape p (sendVia p rt kcpOk data).1.
Proof.
  unfold sendVia. destruct (vpClosed p); [apply same_shape_refl|].
  destruct (_ ≫= _) as [[id r]|] eqn:Hr; [|apply same_shape_refl].
  destruct rt as [i|]; [|done]. cbn in Hr. destruct (vpRts p !! i) as [r0|] eqn:Hi; [|done].
  cbn in Hr. injection Hr as <- <-.
  destruct (rt_send r0 kcpOk data) as [r' res] eqn:Hs. cbn.
  assert (Hcl : rtClosed r' = rtClosed r0).
  { unfold rt_send in Hs. case_if; [by injection Hs as <- <-|]. destruct kcpOk; by injection Hs as <- <-. }
  split; try done. cbn. apply list_eq. intros j. change (map rtClosed) with (fmap (M := list) rtClosed).
  rewrite !list_lookup_fmap. destruct (decide (i = j)) as [->|Hne].
  - rewrite list_lookup_alter_eq, Hi. cbn. by rewrite Hcl.
  - by rewrite list_lookup_alter_ne.
Qed.

Lemma ConfirmPeer_shape p now peerID : same_shape p (ConfirmPeer p now peerID).1.
Proof.
  unfold ConfirmPeer. destruct (parsePeerID peerID) as [e|e|]; try apply same_shape_refl.
  case_if; [apply same_shape_refl|]. cbn [fst]. eapply same_shape_trans; [|apply set_link_shape].
  destruct (plRt (vpData p)); [by apply upd_rt_shape|apply same_shape_refl].
Qed.

(** A frame at most finds or makes a session and its control runtime; what it does
    besides leaves ownership alone. *)
Lemma handleIncomingFrame_parts p env frame p' :
  handleIncomingFrame p env frame = Ok p' ->
  exists q, same_shape q p' /\
    (q = p \/ (exists e, q = (peerSessionFor p env e).1) \/ exists e, q = (peerControlFor p env e).1).
Proof.
  assert (Hp : forall q, p = q -> exists q', same_shape q' q /\
    (q' = p \/ (exists e, q' = (peerSessionFor p env e).1) \/ exists e, q' = (peerControlFor p env e).1)).
  { intros q <-. exists p. split; [apply same_shape_refl|by left]. }
  unfold handleIncomingFrame.
  destruct (parseEpochHeader frame) as [[[[token src] dst] valid]|e|]; cbn [obind]; [|done..].
  case_if; [intros [= <-]; by apply Hp|]. case_if; [intros [= <-]; by apply Hp|].
  destruct (slice_from frame epochHdrLen) as [payload|e|]; cbn [obind]; [|done..].
  case_if; [intros [= <-]; by apply Hp|]. case_if; [intros [= <-]; by apply Hp|]. case_if.
  - unfold handleControlFrame. case_if; [intros [= <-]; by apply Hp|]. case_if.
    + destruct (peerControlFor p env _) as [p1 rt] eqn:Hc. intros Hd. exists p1.
      split; [by eapply deliverKCPPayload_shape|]. right; right. eexists. by rewrite Hc.
    + case_if; [intros [= <-]; by apply Hp|]. intros Hd. exists p.
      split; [by eapply deliverKCPPayload_shape|by left].
  - case_if.
    + unfold handlePeerFrame. destruct (peerSessionFor p env src) as [p1 o] eqn:Hs. intros Hd.
      exists p1. split; [|right; left; exists src; by rewrite Hs].
      destruct o; [|injection Hd as <-; apply same_shape_refl].
      case_if; [injection Hd as <-; apply same_shape_refl|by eapply deliverKCPPayload_shape].
    + intros Hd. exists p. split; [|by left]. unfold handleSinglePeerData in Hd.
      case_if; [injection Hd as <-; apply same_shape_refl|].
      case_if; [injection Hd as <-; apply maybePeerRestart_shape|].
      case_if; [injection Hd as <-; apply set_link_shape|].
      eapply same_shape_trans; [apply set_link_shape|by eapply deliverKCPPayload_shape].
Qed.

Lemma handleIncomingFrame_inv p env frame p' :
  vp_inv [] p -> env_ok p env -> handleIncomingFrame p env frame = Ok p' -> vp_inv [] p'.
Proof.
  intros Hinv Henv (q & Hsh & Hq)%handleIncomingFrame_parts. eapply vp_inv_shape; [exact Hsh|].
  destruct Hq as [->|[[e ->]|[e ->]]]; [done| |].
  - destruct (peerSessionFor p env e) as [q r] eqn:Hp. by destruct (peerSessionFor_inv _ _ _ _ _ Hinv Henv Hp).
  - destruct (peerControlFor p env e) as [q r] eqn:Hp. by apply (peerControlFor_inv _ _ _ _ _ Hinv Henv Hp).
Qed.

(** The environment an event hands in enumerates the table; planes are restarted
    only after [Connect] started them; a control runtime is attached to a session
    that [peerSessionFor] returned for its epoch before. *)
Definition part_ok (p : vp8) (pt : vp_part) : Prop :=
  match pt with
  | PtSession env _ => env_ok p env
  | PtAttach _ sid epoch => exists s, vpSessions p !! sid = Some s /\ psEpoch s = epoch
  | PtPlaneRestart c _ _ => plOnce (get_plane p c) = true
  | _ => True
  end.

Definition event_ok (p : vp8) (ev : vp_event) : Prop :=
  match ev with
  | EvFrame env _ | EvSendTo env _ _ _ _ => env_ok p env
  | EvRestart _ _ => plOnce (vpData p) = true /\ plOnce (vpControl p) = true
  | EvPart pt => part_ok p pt
  | _ => True
  end.

Inductive vp_run (p0 : vp8) : list vp_event -> vp8 -> Prop :=
| vr_start : vp_run p0 [] p0
| vr_step evs p ev p' :
    vp_run p0 evs p -> event_ok p ev -> vp_step p ev = Some p' -> vp_run p0 (evs ++ [ev]) p'.

Lemma plane_restart_once p c env hdr c' : plOnce (get_plane (plane_restart p c env hdr) c') = plOnce (get_plane p c').
Proof.
  unfold plane_restart. destruct (plClosed (get_plane p c)); [done|].
  unfold startKCP, close_opt, close_rt, upd_rt, get_plane.
  destruct (eStart env), c, c', (plRt (vpControl p)), (plRt (vpData p)); done.
Qed.

Lemma rotate_shape p draws q hdr : rotateEpochHeader p draws = Some (q, hdr) -> same_shape p q.
Proof. unfold rotateEpochHeader. destruct (filter _ draws); [done|]. intros [= <- _]. by split. Qed.

Lemma part_step_inv p pt p' : vp_inv [] p -> part_ok p pt -> part_step p pt = Some p' -> vp_inv [] p'.
Proof.
  intros Hinv Hok. destruct pt; cbn [part_step]; cbn [part_ok] in Hok.
  - intros [= <-]. destruct (peerSessionFor p env epoch) as [q r] eqn:Hp.
    by destruct (peerSessionFor_inv _ _ _ _ _ Hinv Hok Hp).
  - intros [= <-]. destruct (attachControl p env sid epoch) as [q r] eqn:Ha. by eapply attachControl_inv.
  - destruct (deliverKCPPayload p env rt payload) eqn:Hd; [|done..]. intros [= <-].
    eapply vp_inv_shape; [by eapply deliverKCPPayload_shape|done].
  - intros [= <-]. eapply vp_inv_shape; [apply sendVia_shape|done].
  - intros [= <-]. eapply vp_inv_shape; [apply set_link_shape|done].
  - destruct (rotateEpochHeader p draws) as [[q hdr]|] eqn:Hr; [|done]. intros [= <-].
    eapply vp_inv_shape; [by eapply rotate_shape|done].
  - intros [= <-]. by apply plane_restart_inv.
  - intros [= <-]. eapply vp_inv_shape; [apply mark_closed_shape|done].
  - intros [= <-]. by apply plane_close_inv.
  - intros [= <-]. by apply closeAll_inv.
Qed.

Lemma vp_step_inv p ev p' : vp_inv [] p -> event_ok p ev -> vp_step p ev = Some p' -> vp_inv [] p'.
Proof.
  intros Hinv Hev. destruct ev as [env frame|env|now peerID|env draws|u|now|ok data|ok data|env ct peerID ok data| |pt];
    cbn [vp_step]; cbn [event_ok] in Hev.
  - destruct (handleIncomingFrame p env frame) as [q|e|] eqn:Hf; [|done..]. intros [= <-].
    by eapply handleIncomingFrame_inv.
  - intros [= <-]. unfold vp_Connect. by apply plane_start_inv, plane_start_inv.
  - intros [= <-]. eapply vp_inv_shape; [apply ConfirmPeer_shape|done].
  - unfold restartPlanes. destruct (rotateEpochHeader (forget_peer p) draws) as [[q hdr]|] eqn:Hr; [|done].
    intros [= <-]. assert (Hsh : same_shape p q) by 
      by (eapply same_shape_trans; [apply set_link_shape|exact (rotate_shape _ _ _ _ Hr)]).
    assert (Honce : forall c, plOnce (get_plane q c) = true).
    { unfold rotateEpochHeader in Hr. destruct (filter _ draws) as [|e es]; [done|].
      injection Hr as <- _. destruct Hev. by intros []. }
    apply plane_restart_inv; [apply plane_restart_inv|]; [by eapply vp_inv_shape|done|].
    rewrite plane_restart_once. done.
  - intros [= <-]. eapply vp_inv_shape; [apply set_link_shape|done].
  - intros [= <-]. by apply sweep_inv.
  - intros [= <-]. eapply vp_inv_shape; [apply sendVia_shape|done].
  - intros [= <-]. eapply vp_inv_shape; [apply sendVia_shape|done].
  - intros [= <-]. unfold sendToPeer. destruct (vpClosed p); [done|].
    destruct (parsePeerID peerID) as [e|e|]; [|done..]. destruct ct.
    + destruct (peerControlFor p env e) as [q rt] eqn:Hp.
      eapply vp_inv_shape; [apply sendVia_shape|]. by eapply peerControlFor_inv.
    + unfold peerDataFor. destruct (peers_get p (eNow env) e) as [q r] eqn:Hg.
      destruct (peers_get_inv [] p _ _ _ _ Hinv Hg) as (Hq & _).
      destruct r; (eapply vp_inv_shape; [apply sendVia_shape|done]).
  - intros [= <-]. by apply vp_Close_inv.
  - by apply part_step_inv.
Qed.

Lemma newVp8_inv server channel room epoch : vp_inv [] (newVp8 server channel room epoch).
Proof. by split; intros; try done; destruct c. Qed.

Lemma vp_run_inv p0 evs p : vp_inv [] p0 -> vp_run p0 evs p -> vp_inv [] p.
Proof. intros H0. induction 1 as [|evs p ev p' Hrun IH Hev Hst]; [done|]. by eapply vp_step_inv. Qed.

(** ** Properties *)

(** ** Control runtimes attached too late *)

(** [id] is the control runtime of session [sid], which is closed. *)
Definition late_control (p : vp8) (sid id : nat) : Prop :=
  exists s, vpSessions p !! sid = Some s /\ psClosed s = true /\ psControl s = Some id.

Definition no_new_late (p p' : vp8) : Prop := forall sid id, late_control p' sid id -> late_control p sid id.

#[local] Instance no_new_late_preorder : PreOrder no_new_late.
Proof. split; [by intros p sid id|]. intros p q r H1 H2 sid id H. by apply H1, H2. Qed.

Lemma same_sessions_late p p' : vpSessions p' = vpSessions p -> no_new_late p p'.
Proof. intros He sid id (s & Hs & H). exists s. by rewrite <- He. Qed.

Lemma shape_late p p' : same_shape p p' -> no_new_late p p'.
Proof.
  intros Hsh sid id (s' & Hs' & Hcl & Hc).
  destruct (map_lookup_back session_core _ _ sid s' (ss_sessions _ _ Hsh) Hs') as (s & Hs & Heq).
  exists s. unfold session_core in Heq. injection Heq as _ _ E1 E2. split_and!; congruence.
Qed.

Lemma session_close_late p sid : no_new_late p (session_close p sid).
Proof.
  intros sid' id (s' & Hs' & Hcl & Hc). unfold session_close in Hs'.
  destruct (vpSessions p !! sid) as [s|] eqn:Hs; [|by exists s']. destruct (psClosed s); [by exists s'|].
  cbn in Hs'. destruct (close_opt_fields (close_rt p (psData s)) (psControl s)) as (_ & E & _).
  rewrite E in Hs'. cbn in Hs'. destruct (decide (sid = sid')) as [<-|Hne].
  - rewrite list_lookup_alter_eq, Hs in Hs'. cbn in Hs'. by injection Hs' as <-.
  - rewrite list_lookup_alter_ne in Hs' by done. by exists s'.
Qed.

Lemma close_sessions_late p sids : no_new_late p (close_sessions p sids).
Proof.
  revert p. induction sids as [|sid sids IH]; intros p; [done|].
  etrans; [apply session_close_late|apply IH].
Qed.

Lemma peers_add_late p env sid epoch : no_new_late p (peers_add p env sid epoch).1.
Proof.
  unfold peers_add. destruct (vpPeersClosed p); [done|]. case_if; [done|]. cbn [fst].
  set (q := if maxPeers <=? _ then _ else p). trans (upd_session q sid (touch (eNow env)));
    [|by apply same_sessions_late].
  trans q; [|apply shape_late, touch_shape]. subst q. case_if; [|done].
  unfold evictOldestLocked. destruct (oldest_peer p (eRange env)) as [[[? ?] ?]|]; [|done].
  etrans; [|apply session_close_late]. by apply same_sessions_late.
Qed.

Lemma peerSessionFor_late p env epoch : no_new_late p (peerSessionFor p env epoch).1.
Proof.
  unfold peerSessionFor, peers_get. destruct (vpPeers p !! epoch); [apply shape_late, touch_shape|].
  unfold startKCP. destruct (eStart env); [|done].
  set (q := set_peers _ _ _ _). assert (Hq : no_new_late p q).
  { intros sid id (s & [Hs|[_ Hs]]%lookup_app_Some & Hcl & Hc); [by exists s|].
    destruct (_ - _)%nat; [|done]. injection Hs as <-. done. }
  pose proof (peers_add_late q env (length (vpSessions p)) epoch) as Ha.
  cbn [vpSessions set_rts]. destruct (peers_add q env _ epoch) as [q' []]; cbn [fst] in *.
  - by etrans.
  - etrans; [exact Hq|]. etrans; [exact Ha|apply session_close_late].
Qed.

(** What a control runtime is attached to decides whether it comes too late. *)
Lemma attachControl_late p env sid epoch sid' id :
  late_control (attachControl p env sid epoch).1 sid' id ->
  late_control p sid' id \/ sid' = sid /\ exists s, vpSessions p !! sid = Some s /\ psClosed s = true.
Proof.
  unfold attachControl. destruct (vpSessions p !! sid) as [s|] eqn:Hs; [|by left].
  destruct (psControl s); [by left|]. unfold startKCP. destruct (eStart env); [|by left].
  intros (s' & Hs' & Hcl & Hc). cbn in Hs'. destruct (decide (sid = sid')) as [<-|Hne].
  - rewrite list_lookup_alter_eq, Hs in Hs'. cbn in Hs'. injection Hs' as <-. right.
    split; [done|]. by exists s.
  - rewrite list_lookup_alter_ne in Hs' by done. left. by exists s'.
Qed.

(** Undisturbed, [peerControlFor] attaches to a session of the table. *)
Lemma peerControlFor_late p env epoch :
  vp_inv [] p -> env_ok p env -> no_new_late p (peerControlFor p env epoch).1.
Proof.
  intros Hinv Henv. unfold peerControlFor. pose proof (peerSessionFor_late p env epoch) as H1.
  destruct (peerSessionFor p env epoch) as [p1 [sid|]] eqn:Hp; [|done].
  destruct (peerSessionFor_inv _ _ _ _ _ Hinv Henv Hp) as [Hinv1 Hin].
  destruct (vi_table _ _ Hinv1 _ _ (Hin sid eq_refl)) as (s & Hs & _ & Hop).
  intros sid' id [Hl|(_ & s' & Hs' & Hcl)]%attachControl_late; [by apply H1|congruence].
Qed.

Lemma close_opt_sessions p id : vpSessions (close_opt p id) = vpSessions p.
Proof. by destruct id. Qed.

Lemma plane_op_sessions p c env hdr :
  vpSessions (plane_start p c env hdr) = vpSessions p /\
  vpSessions (plane_restart p c env hdr) = vpSessions p /\ vpSessions (plane_close p c) = vpSessions p.
Proof.
  unfold plane_start, plane_restart, plane_close, startKCP.
  destruct (plOnce _), (plClosed _), (eStart env); cbn; by rewrite ?close_opt_sessions.
Qed.

Lemma closeAll_late p : no_new_late p (peers_closeAll p).
Proof. etrans; [|apply close_sessions_late]. by apply same_sessions_late. Qed.

Lemma vp_Close_late p : no_new_late p (vp_Close p).
Proof.
  unfold vp_Close. destruct (vpClosed p); [done|]. etrans; [|apply closeAll_late].
  pose (e := MkEnv 0 false [] (fun _ => None) false).
  apply same_sessions_late. by rewrite !(proj2 (proj2 (plane_op_sessions _ _ e []))).
Qed.

Lemma sendToPeer_late p env ct peerID ok data :
  vp_inv [] p -> env_ok p env -> no_new_late p (sendToPeer p env ct peerID ok data).1.
Proof.
  intros Hinv Henv. unfold sendToPeer. destruct (vpClosed p); [done|].
  destruct (parsePeerID peerID) as [e|e|]; [|done..]. destruct ct.
  - pose proof (peerControlFor_late p env e Hinv Henv) as Hq.
    destruct (peerControlFor p env e) as [q rt]. etrans; [exact Hq|apply shape_late, sendVia_shape].
  - unfold peerDataFor. destruct (peers_get p (eNow env) e) as [q r] eqn:Hg.
    destruct (peers_get_inv [] p _ _ _ _ Hinv Hg) as (_ & Hsh & _).
    destruct r; (etrans; [apply shape_late, Hsh|apply shape_late, sendVia_shape]).
Qed.

(** Only the second half of [peerControlFor], run when the session has already been
    closed, leaves a control runtime on a closed session. *)
Lemma vp_step_late p ev p' sid id :
  vp_inv [] p -> event_ok p ev -> vp_step p ev = Some p' -> late_control p' sid id ->
  late_control p sid id \/
  (exists env e, ev = EvPart (PtAttach env sid e)) /\ exists s, vpSessions p !! sid = Some s /\ psClosed s = true.
Proof.
  intros Hinv Hev Hst Hl.
  assert (Hold : no_new_late p p' -> late_control p sid id \/
    (exists env e, ev = EvPart (PtAttach env sid e)) /\ exists s, vpSessions p !! sid = Some s /\ psClosed s = true).
  { intros H. left. by apply H. }
  destruct ev as [env frame|env|now peerID|env draws|u|now|ok data|ok data|env ct peerID ok data| |pt];
    cbn [vp_step] in Hst; cbn [event_ok] in Hev.
  - apply Hold. destruct (handleIncomingFrame p env frame) as [q|e|] eqn:Hf; [|done..].
    injection Hst as <-. apply handleIncomingFrame_parts in Hf as (r & Hsh & Hr).
    etrans; [|by apply shape_late]. destruct Hr as [->|[[e ->]|[e ->]]];
      [done|apply peerSessionFor_late|by apply peerControlFor_late].
  - apply Hold. injection Hst as <-. apply same_sessions_late. unfold vp_Connect.
    by rewrite !(proj1 (plane_op_sessions _ _ _ _)).
  - apply Hold. injection Hst as <-. apply shape_late, ConfirmPeer_shape.
  - apply Hold. unfold restartPlanes in Hst.
    destruct (rotateEpochHeader (forget_peer p) draws) as [[q hdr]|] eqn:Hr; [|done]. injection Hst as <-.
    etrans; [|apply same_sessions_late; by rewrite !(proj1 (proj2 (plane_op_sessions _ _ _ _)))].
    etrans; [|apply shape_late; exact (rotate_shape _ _ _ _ Hr)]. by apply same_sessions_late.
  - apply Hold. injection Hst as <-. by apply same_sessions_late.
  - apply Hold. injection Hst as <-. etrans; [|apply close_sessions_late]. by apply same_sessions_late.
  - apply Hold. injection Hst as <-. apply shape_late, sendVia_shape.
  - apply Hold. injection Hst as <-. apply shape_late, sendVia_shape.
  - apply Hold. injection Hst as <-. by apply sendToPeer_late.
  - apply Hold. injection Hst as <-. apply vp_Close_late.
  - pose (e0 := MkEnv 0 false [] (fun _ => None) false).
    destruct pt; cbn [part_step] in Hst.
    all: try (injection Hst as <-; first
      [apply attachControl_late in Hl as [?|[-> ?]]; [by left|right; split; [by eexists _, _|done]]|apply Hold]).
    + apply peerSessionFor_late.
    + apply Hold. destruct (deliverKCPPayload p env rt payload) eqn:Hd; [|done..]. injection Hst as <-.
      by eapply shape_late, deliverKCPPayload_shape.
    + apply shape_late, sendVia_shape.
    + by apply same_sessions_late.
    + apply Hold. destruct (rotateEpochHeader p draws) as [[q hdr]|] eqn:Hr; [|done]. injection Hst as <-.
      by eapply shape_late, rotate_shape.
    + apply same_sessions_late, plane_op_sessions.
    + by apply same_sessions_late.
    + apply same_sessions_late. exact (proj2 (proj2 (plane_op_sessions p control e0 []))).
    + apply closeAll_late.
Qed.

(** A late control runtime was attached, in the run, to a session that was closed
    by then. *)
Definition attached_late (p0 : vp8) (evs : list vp_event) (sid : nat) : Prop :=
  exists pre env e post q s, evs = pre ++ EvPart (PtAttach env sid e) :: post /\ vp_run p0 pre q /\
    vpSessions q !! sid = Some s /\ psClosed s = true.

Lemma vp_run_late p0 evs p sid id :
  vp_inv [] p0 -> (forall sid id, ~ late_control p0 sid id) -> vp_run p0 evs p ->
  late_control p sid id -> attached_late p0 evs sid.
Proof.
  intros Hinv0 Hno. induction 1 as [|evs q ev q' Hrun IH Hev Hst]; [by intros ?%Hno|].
  intros Hl. pose proof (vp_run_inv _ _ _ Hinv0 Hrun) as Hinv.
  destruct (vp_step_late _ _ _ _ _ Hinv Hev Hst Hl) as [Hold|[(env & e & ->) (s & Hs & Hcl)]].
  - destruct (IH Hold) as (pre & env & e & post & r & s & -> & H). exists pre, env, e, (post ++ [ev]), r, s.
    by rewrite <- app_assoc.
  - exists evs, env, e, [], q, s. done.
Qed.

(** Everything a transport can reach. *)
Definition reachable_ids (p : vp8) : list nat :=
  option_list (plRt (vpData p)) ++ option_list (plRt (vpControl p)) ++
  concat (map (fun sid => match vpSessions p !! sid with
                          | Some s => psData s :: option_list (psControl s)
                          | None => []
                          end) (map_to_list (vpPeers p)).*2).

Lemma owned_reachable p id :
  vp_inv [] p -> owned p id -> id ∈ reachable_ids p \/ exists sid, late_control p sid id.
Proof.
  unfold reachable_ids. intros Hinv [->|[->|(sid & s & Hs & Hh)]].
  - left. left.
  - left. apply elem_of_app. right. apply elem_of_app. left. left.
  - destruct (psClosed s) eqn:Hcl.
    { right. exists sid, s. destruct Hh as [?|[? _]]; [done|congruence]. }
    left. destruct (vi_live _ _ Hinv sid s Hs Hcl) as [Hx|[e He]]; [by apply elem_of_nil in Hx|].
    apply elem_of_app. right. apply elem_of_app. right.
    apply list_elem_of_In, in_concat. eexists. split.
    + apply in_map_iff. exists sid. split; [reflexivity|]. apply list_elem_of_In, list_elem_of_fmap.
      exists (e, sid). split; [done|]. by apply elem_of_map_to_list.
    + rewrite Hs. apply list_elem_of_In. destruct Hh as [->|[_ <-]]; [right; left|left].
Qed.

Lemma reachable_length p : (length (reachable_ids p) <= 2 + 2 * size (vpPeers p))%nat.
Proof.
  unfold reachable_ids. rewrite !length_app, <- (length_map_to_list (vpPeers p)).
  generalize (map_to_list (vpPeers p)) as l. intros l.
  assert (Ho : forall o : option nat, (length (option_list o) <= 1)%nat) by (intros []; cbn; lia).
  pose proof (Ho (plRt (vpData p))). pose proof (Ho (plRt (vpControl p))).
  assert (Hl : (length (concat (map (fun sid => match vpSessions p !! sid with
            | Some s => psData s :: option_list (psControl s) | None => [] end) l.*2)) <= 2 * length l)%nat); [|lia].
  induction l as [|[e sid] l IH]; [done|]. cbn [fmap list_fmap map concat length snd].
  rewrite length_app. pose proof IH as IH'. cbn in IH'. 
  destruct (vpSessions p !! sid) as [s|]; cbn [length]; [pose proof (Ho (psControl s))|]; cbn in *; lia.
Qed.

(** C10: peers and KCP runtimes are bounded and released.  Let a transport go through
    anything: frames, sends to any peer, restarts after it has connected, sweeps,
    close, each undisturbed or, for those that take several locks in turn
    ([peerControlFor], [restartPlanes], [Close]), broken into its parts with anything
    else in between.  At most 64 peers are tracked, each epoch by one live session of
    that epoch.  Apart from control runtimes attached to a session that had already
    been closed, never more than 130 KCP runtimes are open (two planes, and a bulk and a
    control one for each peer), and once both planes and the table are closed, as the
    [Close] that takes effect leaves them, every runtime ever started is closed.
    The exception is the code's: such a runtime stays open (see
    [late_control_attach_leaks]), a session has at most one, and there is none unless
    in this run the second half of a [peerControlFor] came after its session was
    closed. *)
Theorem runtimes_bounded_and_released (server : bool) (channel room : string) (epoch : Z)
    (evs : list vp_event) (p : vp8)
    (Hrun : vp_run (newVp8 server channel room epoch) evs p) :
  Z.of_nat (size (vpPeers p)) <= 64 /\
  (forall e sid, vpPeers p !! e = Some sid ->
     exists s, vpSessions p !! sid = Some s /\ psEpoch s = e /\ psClosed s = false) /\
  (forall ids, NoDup ids ->
     (forall id, id ∈ ids -> (exists r, vpRts p !! id = Some r /\ rtClosed r = false) /\
                             forall sid, ~ late_control p sid id) ->
     len ids <= 130) /\
  (shut p -> forall id r, vpRts p !! id = Some r -> rtClosed r = true \/ exists sid, late_control p sid id) /\
  (vpClosed p = false -> shut (vp_Close p)) /\
  (forall sid id, late_control p sid id -> attached_late (newVp8 server channel room epoch) evs sid) /\
  (forall sid id id', late_control p sid id -> late_control p sid id' -> id = id').
Proof.
  pose proof (newVp8_inv server channel room epoch) as Hinv0.
  pose proof (vp_run_inv _ _ _ Hinv0 Hrun) as Hinv.
  pose proof Hinv as [I1 I2 I3 I4 I5 I6 I7 I8]. unfold maxPeers in I1. split_and!; [done|done| | | | |].
  - intros ids Hnd Hopen. assert (Hle : (length ids <= length (reachable_ids p))%nat).
    { apply submseteq_length, NoDup_submseteq; [done|]. intros id Hid.
      destruct (Hopen id Hid) as [(r & Hr & Hcl) Hno].
      destruct (owned_reachable p id Hinv (I3 id r Hr Hcl)) as [?|[sid Hl]]; [done|by apply Hno in Hl]. }
    pose proof (reachable_length p). lia.
  - intros (Hd & Hct & Hp) id r Hr. destruct (rtClosed r) eqn:Hcl; [by left|right].
    destruct (I3 id r Hr Hcl) as [Hx|[Hx|(sid & s & Hs & Hh)]].
    + pose proof (I5 false id r Hd Hx Hr). congruence.
    + pose proof (I5 true id r Hct Hx Hr). congruence.
    + destruct (psClosed s) eqn:Hsc.
      * exists sid, s. destruct Hh as [?|[? _]]; [done|congruence].
      * destruct (I6 sid s Hs Hsc) as [Hx|[e He]]; [by apply elem_of_nil in Hx|]. by rewrite (I4 Hp) in He.
  - by apply vp_Close_inv.
  - intros sid id Hl. eapply vp_run_late; [exact Hinv0| |exact Hrun|exact Hl]. by intros ? ? (? & ? & _).
  - intros sid id id' (s & Hs & _ & H1) (s' & Hs' & _ & H2). congruence.
Qed.

(** A control session attached too late is never released.  The second half of
    [peerControlFor] runs after the session has been looked up; if the transport is
    closed in between, it still starts a runtime, which is reachable from neither a
    plane nor the table and which closing the transport again does not release. *)
Theorem late_control_attach_leaks (channel room : string) (local epoch : Z) (evs : list vp_event)
    (p : vp8) (sid : nat) (s : peerSession) (env : vp_env)
    (Hrun : vp_run (newVp8 true channel room local) evs p) (Hclosed : vpClosed p = true) (Hshut : shut p)
    (Hs : vpSessions p !! sid = Some s) (Hnone : psControl s = None) (Hstart : eStart env = true) :
  exists p' id r, attachControl p env sid epoch = (p', Some id) /\
    vpRts p' !! id = Some r /\ rtClosed r = false /\ id ∉ reachable_ids p' /\ vp_Close p' = p'.
Proof.
  pose proof (vp_run_inv _ _ _ (newVp8_inv true channel room local) Hrun) as Hinv.
  destruct Hshut as (_ & _ & Hpc). pose proof (vi_peers_closed _ _ Hinv Hpc) as Hempty.
  unfold attachControl, startKCP. rewrite Hs, Hnone, Hstart. eexists _, _, _. split; [done|].
  split; [cbn; by rewrite list_lookup_middle|]. split; [done|]. split.
  - unfold reachable_ids. cbn. rewrite Hempty, map_to_list_empty, app_nil_r.
    assert (Hlt : forall c, length (vpRts p) ∉ option_list (plRt (get_plane p c))).
    { intros c Hx. destruct (plRt (get_plane p c)) as [i|] eqn:Hi; [|by apply elem_of_nil in Hx].
      apply list_elem_of_singleton in Hx as <-. pose proof (vi_valid _ _ Hinv c _ Hi). lia. }
    intros [Hx|Hx]%elem_of_app; [by apply (Hlt false)|by apply (Hlt true)].
  - unfold vp_Close. cbn. by rewrite Hclosed.
Qed.

(** A frame of the peer with epoch 7, addressed to everyone. *)
Definition hello_frame : bytes := buildEpochHeader (channelBindingToken "room" "") 7 ++ [1; 2; 3; 4; 5].
Definition calm_env : vp_env := MkEnv 1000 true [] (fun _ => None) false.


Definition demo_open : vp8 :=
  default (newVp8 true "room" "" 9) (vp_step (newVp8 true "room" "" 9) (EvFrame calm_env hello_frame)).
Definition demo_closed : vp8 := vp_Close demo_open.

Lemma demo_run :
  vp_run (newVp8 true "room" "" 9) (([] ++ [EvFrame calm_env hello_frame]) ++ [EvClose]) demo_closed.
Proof.
  eapply (vr_step _ _ demo_open); [|exact I|reflexivity].
  eapply vr_step; [apply vr_start|apply Permutation_refl|vm_compute; reflexivity].
Qed.

(** The same, with a control frame whose session is closed between the two halves
    of [peerControlFor]. *)
Definition demo_late : vp8 := (attachControl demo_closed calm_env 0 7).1.

Lemma demo_late_run :
  vp_run (newVp8 true "room" "" 9)
    ((([] ++ [EvFrame calm_env hello_frame]) ++ [EvClose]) ++ [EvPart (PtAttach calm_env 0 7)]) demo_late.
Proof.
  eapply vr_step; [exact demo_run| |reflexivity]. exists (MkSession 7 0 None 1000 true).
  split; vm_compute; reflexivity.
Qed.

Lemma demo_shut : shut demo_closed.
Proof. split_and!; vm_compute; reflexivity. Qed.

Lemma runtimes_bounded_and_released_witness :
  shut demo_closed /\ length (vpRts demo_closed) = 1%nat /\
  (forall id r, vpRts demo_closed !! id = Some r -> rtClosed r = true) /\
  late_control demo_late 0 1 /\
  forall id r, vpRts demo_late !! id = Some r -> rtClosed r = true \/ exists sid, late_control demo_late sid id.
Proof.
  destruct (runtimes_bounded_and_released true "room" "" 9 _ _ demo_run) as (_ & _ & _ & Hall & _).
  destruct (runtimes_bounded_and_released true "room" "" 9 _ _ demo_late_run) as (_ & _ & _ & Hall' & _).
  split; [exact demo_shut|]. split; [vm_compute; reflexivity|]. split; [|split].
  - intros id r Hr. destruct (Hall demo_shut id r Hr) as [?|(sid & s & Hs & _ & Hc)]; [assumption|].
    exfalso. assert (Hl : forallb (fun s => match psControl s with None => true | _ => false end)
                            (vpSessions demo_closed) = true) by (vm_compute; reflexivity).
    rewrite forallb_forall in Hl. specialize (Hl s). rewrite Hc in Hl.
    discriminate Hl. exact (proj1 (list_elem_of_In _ _) (list_elem_of_lookup_2 _ sid _ Hs)).
  - exists (MkSession 7 0 (Some 1%nat) 1000 true). split_and!; vm_compute; reflexivity.
  - apply Hall'. split_and!; vm_compute; reflexivity.
Defined.

Lemma late_control_attach_leaks_witness :
  exists p' id r, attachControl demo_closed calm_env 0 7 = (p', Some id) /\
    vpRts p' !! id = Some r /\ rtClosed r = false /\ id ∉ reachable_ids p' /\ vp_Close p' = p'.
Proof.
  apply (late_control_attach_leaks "room" "" 9 7 _ demo_closed 0%nat (MkSession 7 0 None 1000 true)
           calm_env demo_run); [vm_compute; reflexivity|exact demo_shut|vm_compute; reflexivity..].
Defined.
