(* ===== verification/VpLinkFacts.v ===== *)
(** * VpLinkFacts: routing and epochs of the vp8channel transport

    Which frames reach which runtime, when the provider is rebuilt, and which
    epoch the planes are stamped with. *)

From S2P Require Import Prelude Bytes Text Framing Frame VpWire VpTransport VpPeersFacts.

(** ** What opening and closing sessions leaves alone *)

(** The link state stays, and so does the inbound queue of every runtime. *)
Record quiet (p p' : vp8) : Prop := {
  qu_link : vpLk p' = vpLk p;
  qu_count : vpReconnects p' = vpReconnects p;
  qu_conf : vpServer p' = vpServer p /\ vpToken p' = vpToken p /\ vpGrace p' = vpGrace p;
  qu_planes : vpData p' = vpData p /\ vpControl p' = vpControl p;
  qu_inbox : forall id r, vpRts p !! id = Some r ->
    exists r', vpRts p' !! id = Some r' /\ kcIn (rtConn r') = kcIn (rtConn r) /\
      kcHdr (rtConn r') = kcHdr (rtConn r);
}.

#[export] Instance quiet_refl : Reflexive quiet.
Proof. intros p. split; try done. intros id r Hr. by exists r. Qed.

#[export] Instance quiet_trans : Transitive quiet.
Proof.
  intros p q r [A1 A2 (A3 & A4 & A5) [A6 A7] A8] [B1 B2 (B3 & B4 & B5) [B6 B7] B8].
  split; try congruence; [split_and!; congruence|split; congruence|].
  intros id x Hx. destruct (A8 id x Hx) as (y & Hy & E1 & E2). destruct (B8 id y Hy) as (z & Hz & E3 & E4).
  exists z. split_and!; congruence.
Qed.

Lemma upd_rt_quiet p id f :
  (forall r, kcIn (rtConn (f r)) = kcIn (rtConn r) /\ kcHdr (rtConn (f r)) = kcHdr (rtConn r)) ->
  quiet p (upd_rt p id f).
Proof.
  intros Hf. split; try done. intros j r Hr. cbn. destruct (decide (id = j)) as [->|Hne].
  - rewrite list_lookup_alter_eq, Hr. cbn. by eexists.
  - rewrite list_lookup_alter_ne by done. by exists r.
Qed.

Lemma set_peers_quiet p s t c : quiet p (set_peers p s t c).
Proof. split; try done. intros id r Hr. by exists r. Qed.

Lemma close_opt_quiet p id : quiet p (close_opt p id).
Proof. destruct id; [by apply upd_rt_quiet|reflexivity]. Qed.

Lemma session_close_quiet p sid : quiet p (session_close p sid).
Proof.
  unfold session_close. destruct (vpSessions p !! sid) as [s|]; [|reflexivity].
  destruct (psClosed s); [reflexivity|].
  etrans; [apply (close_opt_quiet p (Some (psData s)))|]. cbn [close_opt].
  etrans; [apply (close_opt_quiet _ (psControl s))|]. apply set_peers_quiet.
Qed.

Lemma close_sessions_quiet p sids : quiet p (close_sessions p sids).
Proof.
  revert p. induction sids as [|sid sids IH]; intros p; [reflexivity|].
  etrans; [apply session_close_quiet|apply IH].
Qed.

Lemma startKCP_quiet p env hdr : quiet p (startKCP p env hdr).1.
Proof.
  unfold startKCP. destruct (eStart env); [|reflexivity]. cbn. split; try done.
  intros id r Hr. exists r. split; [|done]. cbn. by rewrite lookup_app_l by (by eapply lookup_lt_Some).
Qed.

Lemma peers_get_quiet p now e : quiet p (peers_get p now e).1.
Proof. unfold peers_get. destruct (vpPeers p !! e); [apply set_peers_quiet|reflexivity]. Qed.

Lemma evict_quiet p keys : quiet p (evictOldestLocked p keys).
Proof.
  unfold evictOldestLocked. destruct (oldest_peer p keys) as [[[e sid] seen]|]; [|reflexivity].
  etrans; [apply set_peers_quiet|apply session_close_quiet].
Qed.

Lemma peers_add_quiet p env sid e : quiet p (peers_add p env sid e).1.
Proof.
  unfold peers_add. destruct (vpPeersClosed p); [reflexivity|]. case_if; [reflexivity|]. cbn [fst].
  etrans; [|apply set_peers_quiet]. etrans; [|apply set_peers_quiet].
  case_if; [apply evict_quiet|reflexivity].
Qed.

Lemma peerSessionFor_quiet p env e : quiet p (peerSessionFor p env e).1.
Proof.
  unfold peerSessionFor. pose proof (peers_get_quiet p (eNow env) e) as H0.
  destruct (peers_get p (eNow env) e) as [p0 [sid|]]; [done|]. cbn [fst] in H0.
  pose proof (startKCP_quiet p0 env (buildEpochHeaderTo (vpToken p0) (lkLocal (vpLk p0)) e)) as H1.
  destruct (startKCP p0 env _) as [p1 [d|]]; cbn [fst] in H1; [|by etrans].
  set (p2 := set_peers p1 _ _ _). pose proof (peers_add_quiet p2 env (length (vpSessions p1)) e) as H2.
  destruct (peers_add p2 env _ e) as [p3 b]. cbn [fst] in H2.
  assert (quiet p p3) by (etrans; [exact H0|]; etrans; [exact H1|]; etrans; [apply set_peers_quiet|exact H2]).
  destruct b; cbn [fst]; [done|]. etrans; [done|apply session_close_quiet].
Qed.

Lemma attachControl_quiet p env sid e : quiet p (attachControl p env sid e).1.
Proof.
  unfold attachControl. destruct (vpSessions p !! sid) as [s|]; [|reflexivity].
  destruct (psControl s); [reflexivity|].
  pose proof (startKCP_quiet p env (buildEpochHeaderTo (vpToken p) (Z.lor (lkLocal (vpLk p)) controlEpochFlag)
                       (Z.lor e controlEpochFlag))) as H1.
  destruct (startKCP p env _) as [p1 [id|]]; [|done]. cbn [fst] in *. etrans; [done|apply set_peers_quiet].
Qed.

Lemma peerControlFor_quiet p env e : quiet p (peerControlFor p env e).1.
Proof.
  unfold peerControlFor. pose proof (peerSessionFor_quiet p env e) as H1.
  destruct (peerSessionFor p env e) as [p1 [sid|]]; [|done]. etrans; [exact H1|apply attachControl_quiet].
Qed.

(** ** Routing *)

(** Delivering a payload touches the inbound queue of one runtime. *)
Lemma deliver_only p env rt payload p' id r r' :
  deliverKCPPayload p env rt payload = Ok p' -> vpRts p !! id = Some r -> vpRts p' !! id = Some r' ->
  kcIn (rtConn r') <> kcIn (rtConn r) -> rt = Some id.
Proof.
  unfold deliverKCPPayload. intros Hd Hr Hr' Hne.
  destruct rt as [i|]; cbn in Hd; [|injection Hd as <-; congruence].
  destruct (vpRts p !! i) as [ri|] eqn:Hi; cbn in Hd; [|injection Hd as <-; congruence].
  case_if; [injection Hd as <-; congruence|].
  destruct (deliver_packets env 0 (rtConn ri) _) as [c|e|]; cbn in Hd; [|done..]. injection Hd as <-.
  cbn in Hr'. destruct (decide (i = id)) as [->|Hx]; [done|].
  rewrite list_lookup_alter_ne in Hr' by done. congruence.
Qed.

Lemma deliver_shape_peers p env rt payload p' :
  deliverKCPPayload p env rt payload = Ok p' -> vpPeers p' = vpPeers p /\ vpSessions p' = vpSessions p.
Proof.
  unfold deliverKCPPayload. destruct (_ ≫= _) as [[i r]|]; [|by intros [= <-]].
  case_if; [by intros [= <-]|]. destruct (deliver_packets _ _ _ _); cbn; [|done..]. by intros [= <-].
Qed.

Lemma attachControl_result p env sid e p' id :
  attachControl p env sid e = (p', Some id) ->
  vpPeers p' = vpPeers p /\ exists s, vpSessions p' !! sid = Some s /\ psControl s = Some id.
Proof.
  unfold attachControl. destruct (vpSessions p !! sid) as [s|] eqn:Hs; [|done].
  destruct (psControl s) as [i|] eqn:Hc; [intros [= <- <-]; split; [done|by exists s]|].
  destruct (startKCP p env _) as [p1 [i|]] eqn:Hst; [|done].
  apply startKCP_cases in Hst as [[? _]|[[= ->] Hf]]; [done|]. intros [= <- <-].
  unfold fresh_rt in Hf. subst p1. split; [done|]. eexists. split.
  - cbn. by rewrite list_lookup_alter_eq, Hs.
  - done.
Qed.

(** The runtime a frame with source [src] and destination [dst] may reach. *)
Definition route (p p' : vp8) (src dst : Z) (id : nat) : Prop :=
  if vpServer p then
    exists sid s, vpPeers p' !! Z.ldiff src controlEpochFlag = Some sid /\ vpSessions p' !! sid = Some s /\
      (if Z.land src controlEpochFlag =? 0 then psData s = id else psControl s = Some id)
  else if Z.land src controlEpochFlag =? 0
  then lkConfirmed (vpLk p) = true /\ src = lkPeer (vpLk p) /\ plRt (vpData p) = Some id
  else dst = Z.lor (lkLocal (vpLk p)) controlEpochFlag /\ plRt (vpControl p) = Some id.

(** A data epoch has no flag to remove. *)
Lemma ldiff_flag src : Z.land src controlEpochFlag = 0 -> Z.ldiff src controlEpochFlag = src.
Proof.
  intros H. apply Z.bits_inj'. intros n Hn. rewrite Z.ldiff_spec.
  pose proof (f_equal (fun z => Z.testbit z n) H) as Hb. cbn beta in Hb. rewrite Z.land_spec, Z.bits_0 in Hb.
  destruct (Z.testbit src n); [|done]. cbn in *. by rewrite Hb.
Qed.

Lemma server_control_route p env src dst payload p' id r r' :
  vp_inv [] p -> env_ok p env -> vpServer p = true -> Z.land src controlEpochFlag <> 0 ->
  handleControlFrame p env src dst payload = Ok p' ->
  vpRts p !! id = Some r -> vpRts p' !! id = Some r' -> kcIn (rtConn r') <> kcIn (rtConn r) ->
  route p p' src dst id.
Proof.
  intros Hinv Henv Hsrv Hflag. unfold handleControlFrame. case_if; [intros [= <-]; congruence|].
  rewrite Hsrv. pose proof (peerControlFor_quiet p env (Z.ldiff src controlEpochFlag)) as Hq.
  destruct (peerControlFor p env (Z.ldiff src controlEpochFlag)) as [p1 rt] eqn:Hc. cbn [fst] in Hq.
  intros Hd Hr Hr' Hne. destruct (qu_inbox _ _ Hq id r Hr) as (r1 & Hr1 & E1 & _).
  rewrite <- E1 in Hne. pose proof (deliver_only _ _ _ _ _ _ _ _ Hd Hr1 Hr' Hne) as ->.
  unfold route. rewrite Hsrv, (proj2 (Z.eqb_neq _ _) Hflag).
  unfold peerControlFor in Hc. destruct (peerSessionFor p env _) as [p0 [sid|]] eqn:Hp; [|done].
  destruct (peerSessionFor_inv _ _ _ _ _ Hinv Henv Hp) as [_ Hin].
  destruct (attachControl_result _ _ _ _ _ _ Hc) as (E2 & s & Hs & Hctl).
  destruct (deliver_shape_peers _ _ _ _ _ Hd) as [-> ->]. exists sid, s. rewrite E2. split_and!; [|done..].
  by apply Hin.
Qed.

Lemma server_data_route p env src dst payload p' id r r' :
  vp_inv [] p -> env_ok p env -> vpServer p = true -> Z.land src controlEpochFlag = 0 ->
  handlePeerFrame p env src payload = Ok p' ->
  vpRts p !! id = Some r -> vpRts p' !! id = Some r' -> kcIn (rtConn r') <> kcIn (rtConn r) ->
  route p p' src dst id.
Proof.
  intros Hinv Henv Hsrv Hflag. unfold handlePeerFrame. pose proof (peerSessionFor_quiet p env src) as Hq.
  destruct (peerSessionFor p env src) as [p1 [sid|]] eqn:Hp; cbn [fst] in Hq;
    intros Hd Hr Hr' Hne; destruct (qu_inbox _ _ Hq id r Hr) as (r1 & Hr1 & E1 & _); rewrite <- E1 in Hne;
    [|injection Hd as <-; congruence].
  case_if; [injection Hd as <-; congruence|].
  pose proof (deliver_only _ _ _ _ _ _ _ _ Hd Hr1 Hr' Hne) as Hrt.
  unfold route. rewrite Hsrv, (proj2 (Z.eqb_eq _ _) Hflag), ldiff_flag by done.
  destruct (peerSessionFor_inv _ _ _ _ _ Hinv Henv Hp) as [_ Hin].
  destruct (deliver_shape_peers _ _ _ _ _ Hd) as [-> ->].
  destruct (vpSessions p1 !! sid) as [s|] eqn:Hs; [|done]. exists sid, s. split_and!; [by apply Hin|done|].
  cbn in Hrt. by injection Hrt.
Qed.

Lemma client_route p env src dst payload p' id r r' :
  vpServer p = false ->
  (if Z.land src controlEpochFlag =? 0 then handleSinglePeerData p env src payload
   else handleControlFrame p env src dst payload) = Ok p' ->
  vpRts p !! id = Some r -> vpRts p' !! id = Some r' -> kcIn (rtConn r') <> kcIn (rtConn r) ->
  route p p' src dst id.
Proof.
  intros Hsrv. unfold route. rewrite Hsrv. case_if.
  - unfold handleSinglePeerData. case_if; [intros [= <-]; congruence|].
    case_if; [unfold maybePeerRestart; repeat case_if; intros [= <-]; cbn; congruence|].
    case_if; [intros [= <-]; cbn; congruence|]. intros Hd Hr Hr' Hne.
    pose proof (deliver_only _ _ _ _ _ _ _ _ Hd Hr Hr' Hne) as Hrt. by split_and!.
  - unfold handleControlFrame. rewrite Hsrv. case_if; [intros [= <-]; congruence|].
    case_if; [intros [= <-]; congruence|]. intros Hd Hr Hr' Hne.
    pose proof (deliver_only _ _ _ _ _ _ _ _ Hd Hr Hr' Hne) as Hrt. by split.
Qed.

(** C9: a frame reaches only the session it belongs to.  If a frame adds to the
    inbound queue of a runtime, then its header is intact and carries our token, it
    is not an echo of our own epoch, and it is addressed to everyone or to us; on
    the server the runtime is the bulk (or control) one of the session of the
    sender's epoch; on the client it is the bulk one, and the sender is the
    authenticated peer, or the control one, and the frame names our control epoch. *)
Theorem frame_reaches_only_its_session (server : bool) (channel room : string) (epoch : Z)
    (evs : list vp_event) (p p' : vp8) (env : vp_env) (frame : bytes) (id : nat) (r r' : kcpRuntime)
    (Hrun : vp_run (newVp8 server channel room epoch) evs p) (Henv : env_ok p env)
    (Hframe : handleIncomingFrame p env frame = Ok p')
    (Hr : vpRts p !! id = Some r) (Hr' : vpRts p' !! id = Some r')
    (Hnew : kcIn (rtConn r') <> kcIn (rtConn r)) :
  exists src dst, parseEpochHeader frame = Ok (vpToken p, src, dst, true) /\
    src <> lkLocal (vpLk p) /\ src <> Z.lor (lkLocal (vpLk p)) controlEpochFlag /\
    (dst = 0 \/ dst = lkLocal (vpLk p) \/ dst = Z.lor (lkLocal (vpLk p)) controlEpochFlag) /\
    route p p' src dst id.
Proof.
  pose proof (vp_run_inv _ _ _ (newVp8_inv server channel room epoch) Hrun) as Hinv.
  unfold handleIncomingFrame in Hframe.
  destruct (parseEpochHeader frame) as [[[[token src] dst] valid]|e|]; cbn [obind] in Hframe; [|done..].
  destruct valid; cbn [negb] in Hframe; [|injection Hframe as <-; congruence].
  destruct (token =? vpToken p) eqn:Ht; cbn [negb] in Hframe; [|injection Hframe as <-; congruence].
  destruct (slice_from frame epochHdrLen) as [payload|e|]; cbn [obind] in Hframe; [|done..].
  destruct ((src =? _) || _) eqn:Hsrc; [injection Hframe as <-; congruence|].
  destruct (acceptsDst p dst) eqn:Hdst; cbn [negb] in Hframe; [|injection Hframe as <-; congruence].
  unfold acceptsDst in Hdst. bool_to_Prop. subst token. exists src, dst. split_and!; [done..| |].
  - destruct Hdst as [Hx|?]; bool_to_Prop; [|by right; right].
    destruct Hx; bool_to_Prop; [by left|by right; left].
  - destruct (Z.land src controlEpochFlag =? 0) eqn:Hflag; cbn [negb] in Hframe; bool_to_Prop;
      destruct (vpServer p) eqn:Hsrv.
    + by eapply (server_data_route p env src dst payload).
    + eapply (client_route p env src dst payload); [done| |done..].
      by rewrite (proj2 (Z.eqb_eq _ _) Hflag).
    + by eapply (server_control_route p env src dst payload).
    + eapply (client_route p env src dst payload); [done| |done..].
      by rewrite (proj2 (Z.eqb_neq _ _) Hflag).
Qed.

Lemma frame_reaches_only_its_session_witness :
  exists p' r r', vpServer demo_open = true /\
    handleIncomingFrame demo_open (MkEnv 1001 true [7] (fun _ => None) false)
      (buildEpochHeader (vpToken demo_open) 7 ++ sealed [1; 2; 3]) = Ok p' /\
    vpRts demo_open !! 0%nat = Some r /\ vpRts p' !! 0%nat = Some r' /\
    kcIn (rtConn r') <> kcIn (rtConn r) /\
    exists src dst, parseEpochHeader (buildEpochHeader (vpToken demo_open) 7 ++ sealed [1; 2; 3])
                    = Ok (vpToken demo_open, src, dst, true) /\ src <> 9.
Proof.
  pose (env := MkEnv 1001 true [7] (fun _ => None) false).
  pose (fr := buildEpochHeader (vpToken demo_open) 7 ++ sealed [1; 2; 3]).
  pose (p' := match handleIncomingFrame demo_open env fr with Ok q => q | _ => demo_open end).
  pose (rt := MkRt (newKCPConn inboundQueueSize []) [] false).
  assert (Hrun : vp_run (newVp8 true "room" "" 9) ([] ++ [EvFrame calm_env hello_frame]) demo_open).
  { eapply vr_step; [apply vr_start|apply Permutation_refl|vm_compute; reflexivity]. }
  assert (Hf : handleIncomingFrame demo_open env fr = Ok p') by (vm_compute; reflexivity).
  exists p', (nth 0 (vpRts demo_open) rt), (nth 0 (vpRts p') rt).
  assert (H1 : vpRts demo_open !! 0%nat = Some (nth 0 (vpRts demo_open) rt)) by (vm_compute; reflexivity).
  assert (H2 : vpRts p' !! 0%nat = Some (nth 0 (vpRts p') rt)) by (vm_compute; reflexivity).
  assert (H3 : kcIn (rtConn (nth 0 (vpRts p') rt)) <> kcIn (rtConn (nth 0 (vpRts demo_open) rt)))
    by (vm_compute; discriminate).
  destruct (frame_reaches_only_its_session true "room" "" 9 _ demo_open p' env fr 0%nat _ _ Hrun
              (Permutation_refl _) Hf H1 H2 H3) as (src & dst & Hp & Hs & _).
  split; [vm_compute; reflexivity|]. split; [exact Hf|]. split; [exact H1|]. split; [exact H2|].
  split; [exact H3|]. exists src, dst. split; [exact Hp|]. intros ->. apply Hs. vm_compute. reflexivity.
Defined.

(** ** Rebuilding the provider *)

(** The part of the link state that decides about rebuilding. *)
Definition same_guard (p p' : vp8) : Prop :=
  vpReconnects p' = vpReconnects p /\ lkRestarting (vpLk p') = lkRestarting (vpLk p) /\
  lkConfirmed (vpLk p') = lkConfirmed (vpLk p).

Lemma quiet_guard p p' : quiet p p' -> same_guard p p'.
Proof. intros [A B _ _ _]. unfold same_guard. by rewrite A, B. Qed.

Lemma deliver_guard p env rt payload p' : deliverKCPPayload p env rt payload = Ok p' ->
  vpLk p' = vpLk p /\ vpReconnects p' = vpReconnects p.
Proof.
  unfold deliverKCPPayload. destruct (_ ≫= _) as [[i r]|]; [|by intros [= <-]].
  case_if; [by intros [= <-]|]. destruct (deliver_packets _ _ _ _); cbn; [|done..]. by intros [= <-].
Qed.

(** The one place that asks for a rebuild, and its conditions. *)
Definition rebuilds (p p' : vp8) (now : Z) : Prop :=
  vpReconnects p' = vpReconnects p + 1 /\ lkRestarting (vpLk p) = false /\ lkRestarting (vpLk p') = true /\
  lkConfirmed (vpLk p) = true /\ lkConfirmed (vpLk p') = true /\ lkUnhealthy (vpLk p) = true /\
  vpGrace p <= now - lkLastFrame (vpLk p) /\ vpServer p = false.

Lemma handleIncomingFrame_guard p env frame p' :
  handleIncomingFrame p env frame = Ok p' -> same_guard p p' \/ rebuilds p p' (eNow env).
Proof.
  assert (Hsame : same_guard p p) by done.
  unfold handleIncomingFrame.
  destruct (parseEpochHeader frame) as [[[[token src] dst] valid]|e|]; cbn [obind]; [|done..].
  case_if; [intros [= <-]; by left|]. case_if; [intros [= <-]; by left|].
  destruct (slice_from frame epochHdrLen) as [payload|e|]; cbn [obind]; [|done..].
  case_if; [intros [= <-]; by left|]. case_if; [intros [= <-]; by left|]. case_if.
  - intros Hgo. left. revert Hgo. unfold handleControlFrame. case_if; [by intros [= <-]|]. destruct (vpServer p).
    + pose proof (peerControlFor_quiet p env (Z.ldiff src controlEpochFlag)) as Hq.
      destruct (peerControlFor p env _) as [p1 rt]. intros Hd. apply deliver_guard in Hd as [E1 E2].
      cbn [fst] in Hq. destruct (quiet_guard _ _ Hq) as (A & B & C). unfold same_guard. by rewrite E1, E2.
    + case_if; [by intros [= <-]|]. intros Hd. apply deliver_guard in Hd as [E1 E2].
      unfold same_guard. by rewrite E1, E2.
  - destruct (vpServer p) eqn:Hsrv.
    + intros Hgo. left. revert Hgo. unfold handlePeerFrame. pose proof (peerSessionFor_quiet p env src) as Hq.
      destruct (peerSessionFor p env src) as [p1 [sid|]]; cbn [fst] in Hq; apply quiet_guard in Hq as (A & B & C);
        [|by intros [= <-]].
      case_if; [by intros [= <-]|]. intros Hd. apply deliver_guard in Hd as [E1 E2].
      unfold same_guard. by rewrite E1, E2.
    + unfold handleSinglePeerData. case_if; [intros [= <-]; by left|]. case_if.
      * intros [= <-]. unfold maybePeerRestart. repeat (case_if; [by left|]).
        right. unfold rebuilds. cbn. by split_and!.
      * intros Hgo. left. revert Hgo. case_if; [by intros [= <-]|]. intros Hd. apply deliver_guard in Hd as [E1 E2].
        unfold same_guard. by rewrite E1, E2.
Qed.

Definition same_link (p p' : vp8) : Prop :=
  vpLk p' = vpLk p /\ vpReconnects p' = vpReconnects p /\ vpToken p' = vpToken p.

Lemma quiet_link p p' : quiet p p' -> same_link p p'.
Proof. intros [A B (_ & C & _) _ _]. by split. Qed.

Lemma plane_start_link p c env hdr : same_link p (plane_start p c env hdr).
Proof.
  unfold plane_start, startKCP. destruct (plOnce (get_plane p c)), (plClosed (get_plane p c)), (eStart env); by split.
Qed.

Lemma plane_restart_link p c env hdr : same_link p (plane_restart p c env hdr).
Proof.
  unfold plane_restart, startKCP. destruct (plClosed (get_plane p c)); [by split|].
  destruct (plRt (get_plane p c)), (eStart env); by split.
Qed.

Lemma sendVia_link p rt ok data : same_link p (sendVia p rt ok data).1.
Proof.
  unfold sendVia. destruct (vpClosed p); [by split|]. destruct (_ ≫= _) as [[i r]|]; [|by split].
  destruct (rt_send r ok data). by split.
Qed.

Lemma plane_close_link p c : same_link p (plane_close p c).
Proof. unfold plane_close. destruct c; cbn; destruct (plRt _); by split. Qed.

Lemma closeAll_quiet p : quiet p (peers_closeAll p).
Proof. unfold peers_closeAll. etrans; [apply set_peers_quiet|apply close_sessions_quiet]. Qed.

Lemma vp_Close_link p : same_link p (vp_Close p).
Proof.
  unfold vp_Close. destruct (vpClosed p); [by split|]. fold (mark_closed p).
  destruct (plane_close_link (mark_closed p) false) as (A1 & A2 & A3).
  destruct (plane_close_link (plane_close (mark_closed p) false) true) as (B1 & B2 & B3).
  destruct (quiet_link _ _ (closeAll_quiet (plane_close (plane_close (mark_closed p) false) true))) as (C1 & C2 & C3).
  unfold same_link. by rewrite C1, C2, C3, B1, B2, B3, A1, A2, A3.
Qed.

Lemma rotate_link p draws q hdr :
  rotateEpochHeader p draws = Some (q, hdr) ->
  exists e, e <> lkLocal (vpLk p) /\ q = set_link p (set_local (vpLk p) e) /\ hdr = buildEpochHeader (vpToken p) e.
Proof.
  unfold rotateEpochHeader. destruct (filter _ draws) as [|e es] eqn:Hf; [done|]. intros [= <- <-].
  exists e. split; [|done]. assert (Hin : e ∈ filter (fun e => e <> lkLocal (vpLk p)) draws) by (rewrite Hf; left).
  by apply list_elem_of_filter in Hin as [? _].
Qed.

(** How many times a peer was authenticated. *)
Definition is_confirm (ev : vp_event) : bool :=
  match ev with EvConfirm _ peerID =>
    match parsePeerID peerID with Ok e => negb ((e =? 0) || negb (Z.land e controlEpochFlag =? 0)) | _ => false end
  | _ => false end.
Definition confirms (evs : list vp_event) : Z := len (filter (fun ev => is_confirm ev = true) evs).

Lemma confirms_snoc evs ev : confirms (evs ++ [ev]) = confirms evs + (if is_confirm ev then 1 else 0).
Proof.
  unfold confirms. rewrite filter_app, len_app. f_equal. cbn.
  destruct (is_confirm ev) eqn:E; [rewrite decide_True by done|rewrite decide_False by congruence]; done.
Qed.

Lemma part_step_guard p pt p' :
  part_step p pt = Some p' ->
  match pt with
  | PtForget => vpReconnects p' = vpReconnects p /\ lkRestarting (vpLk p') = lkRestarting (vpLk p) /\
                lkConfirmed (vpLk p') = false
  | _ => same_guard p p'
  end.
Proof.
  assert (Hlink : forall q, same_link p q -> same_guard p q) by (intros q (A & B & _); unfold same_guard; by rewrite A, B).
  destruct pt; cbn [part_step].
  - intros [= <-]. apply quiet_guard, peerSessionFor_quiet.
  - intros [= <-]. apply quiet_guard, attachControl_quiet.
  - destruct (deliverKCPPayload p env rt payload) eqn:Hd; [|done..]. intros [= <-].
    apply deliver_guard in Hd as [A B]. unfold same_guard. by rewrite A, B.
  - intros [= <-]. apply Hlink, sendVia_link.
  - by intros [= <-].
  - destruct (rotateEpochHeader p draws) as [[q hdr]|] eqn:Hr; [|done]. intros [= <-].
    by apply rotate_link in Hr as (e & _ & -> & _).
  - intros [= <-]. apply Hlink, plane_restart_link.
  - by intros [= <-].
  - intros [= <-]. apply Hlink, plane_close_link.
  - intros [= <-]. apply quiet_guard, closeAll_quiet.
Qed.

Lemma vp_step_guard p ev p' :
  vp_step p ev = Some p' ->
  match ev with
  | EvFrame env _ => same_guard p p' \/ rebuilds p p' (eNow env)
  | EvConfirm _ _ => if is_confirm ev
                     then vpReconnects p' = vpReconnects p /\ lkRestarting (vpLk p') = false
                     else same_guard p p'
  | EvRestart _ _ => vpReconnects p' = vpReconnects p /\ lkRestarting (vpLk p') = lkRestarting (vpLk p) /\
                     lkConfirmed (vpLk p') = false
  | EvPart PtForget => vpReconnects p' = vpReconnects p /\ lkRestarting (vpLk p') = lkRestarting (vpLk p) /\
                       lkConfirmed (vpLk p') = false
  | _ => same_guard p p'
  end.
Proof.
  assert (Hlink : forall q, same_link p q -> same_guard p q) by (intros q (A & B & _); unfold same_guard; by rewrite A, B).
  destruct ev as [env frame|env|now peerID|env draws|u|now|ok data|ok data|env ct peerID ok data| |pt];
    cbn [vp_step].
  - destruct (handleIncomingFrame p env frame) as [q|e|] eqn:Hf; [|done..]. intros [= <-].
    by eapply handleIncomingFrame_guard.
  - intros [= <-]. apply Hlink. unfold vp_Connect.
    destruct (plane_start_link p false env (epochHeader p)) as (A & B & C).
    set (q := plane_start p false env (epochHeader p)) in *.
    destruct (plane_start_link q true env (controlEpochHeader q)) as (A' & B' & C').
    split_and!; congruence.
  - intros [= <-]. cbn [is_confirm]. unfold ConfirmPeer. destruct (parsePeerID peerID) as [e|e|]; [|done..].
    destruct ((e =? 0) || _); cbn [negb fst]; [done|]. by destruct (plRt (vpData p)).
  - unfold restartPlanes. destruct (rotateEpochHeader (forget_peer p) draws) as [[q hdr]|] eqn:Hr; [|done].
    intros [= <-]. apply rotate_link in Hr as (e & _ & -> & _). set (q := set_link _ _).
    destruct (plane_restart_link q false env hdr) as (A & B & C).
    set (q2 := plane_restart q false env hdr) in *.
    destruct (plane_restart_link q2 true env (controlEpochHeader q2)) as (A' & B' & C').
    rewrite A', B', A, B. done.
  - intros [= <-]. done.
  - intros [= <-]. apply Hlink, quiet_link. unfold peers_sweep.
    etrans; [apply set_peers_quiet|apply close_sessions_quiet].
  - intros [= <-]. apply Hlink, sendVia_link.
  - intros [= <-]. apply Hlink, sendVia_link.
  - intros [= <-]. apply Hlink. unfold sendToPeer. destruct (vpClosed p); [done|].
    destruct (parsePeerID peerID) as [e|e|]; [|done..].
    assert (Hq : quiet p (if ct then peerControlFor p env e else peerDataFor p env e).1).
    { destruct ct; [apply peerControlFor_quiet|]. unfold peerDataFor.
      pose proof (peers_get_quiet p (eNow env) e) as H. by destruct (peers_get p (eNow env) e) as [q [sid|]]. }
    destruct (if ct then _ else _) as [q rt]. cbn [fst] in Hq. apply quiet_link in Hq as (A & B & C).
    destruct (sendVia_link q rt ok data) as (A' & B' & C'). split_and!; congruence.
  - intros [= <-]. apply Hlink, vp_Close_link.
  - apply part_step_guard.
Qed.

(** The provider is rebuilt at most once per authenticated peer, and only with
    cause.  In every run the transport asks for a rebuild at most as often as a peer
    was authenticated; a frame that makes it ask found an authenticated peer, no
    rebuild under way, the link reported unhealthy by the control plane, and the
    peer silent for at least the grace period. *)
Theorem rebuild_once_per_peer (server : bool) (channel room : string) (epoch : Z)
    (evs : list vp_event) (p : vp8) (Hrun : vp_run (newVp8 server channel room epoch) evs p) :
  vpReconnects p <= confirms evs /\
  forall env frame p', handleIncomingFrame p env frame = Ok p' -> vpReconnects p' <> vpReconnects p ->
    rebuilds p p' (eNow env).
Proof.
  split; cycle 1.
  { intros env frame p' Hf Hne. apply handleIncomingFrame_guard in Hf as [[? _]|?]; [congruence|done]. }
  assert (Hinv : vpReconnects p <= confirms evs /\
            (lkRestarting (vpLk p) = false -> lkConfirmed (vpLk p) = true -> vpReconnects p + 1 <= confirms evs) /\
            (lkRestarting (vpLk p) = false -> confirms evs = 0 \/ vpReconnects p + 1 <= confirms evs) /\
            (lkConfirmed (vpLk p) = true -> 1 <= confirms evs)); [|apply Hinv].
  induction Hrun as [|evs q ev q' Hrun IH Hev Hst].
  { split_and!; [done|done|by left|done]. }
  destruct IH as (I1 & I2 & I3 & I4). rewrite confirms_snoc. apply vp_step_guard in Hst.
  assert (Hpos : 0 <= confirms evs) by apply len_nonneg.
  assert (Hsame : same_guard q q' -> is_confirm ev = false \/ is_confirm ev = true ->
            vpReconnects q' <= confirms evs /\
            (lkRestarting (vpLk q') = false -> lkConfirmed (vpLk q') = true -> vpReconnects q' + 1 <= confirms evs) /\
            (lkRestarting (vpLk q') = false -> confirms evs = 0 \/ vpReconnects q' + 1 <= confirms evs) /\
            (lkConfirmed (vpLk q') = true -> 1 <= confirms evs)).
  { intros (A & B & C) _. rewrite A, B, C. done. }
  destruct ev as [env frame|env|now peerID|env draws|u|now|ok data|ok data|env ct peerID ok data| |pt];
    cbn [is_confirm]; rewrite ?Z.add_0_r; try (by apply Hsame; [|left]).
  - destruct Hst as [Hg|(A & B & C & D & E & _)]; [by apply Hsame; [|left]|].
    rewrite A, C, E. specialize (I2 B D). split_and!; [lia|done|done|by intros _; apply I4].
  - fold (is_confirm (EvConfirm now peerID)). destruct (is_confirm (EvConfirm now peerID)).
    + destruct Hst as [A B]. rewrite A. split_and!; lia.
    + rewrite Z.add_0_r. by apply Hsame; [|left].
  - destruct Hst as (A & B & C). rewrite A, B, C. split_and!; done.
  - destruct pt; try (by apply Hsame; [|left]). destruct Hst as (A & B & C). rewrite A, B, C. split_and!; done.
Qed.

(** A client that authenticated epoch 7, lost its link, and hears epoch 8 seven
    seconds later. *)
Definition late_env : vp_env := MkEnv 7000001000 true [] (fun _ => None) false.
Definition stranger_frame : bytes := buildEpochHeader (channelBindingToken "room" "") 8.
Definition demo_client : vp8 := (ConfirmPeer (newVp8 false "room" "" 9) 1000 "00000007").1.
Definition demo_lost : vp8 := NotifyLinkHealth demo_client true.
Definition demo_rebuilt : vp8 := default demo_lost (vp_step demo_lost (EvFrame late_env stranger_frame)).

Lemma rebuild_once_per_peer_witness :
  vpReconnects demo_rebuilt = 1 /\ vpReconnects demo_rebuilt <= 1 /\ rebuilds demo_lost demo_rebuilt 7000001000.
Proof.
  assert (H1 : vp_run (newVp8 false "room" "" 9) ([] ++ [EvConfirm 1000 "00000007"]) demo_client)
    by (eapply vr_step; [apply vr_start|exact I|vm_compute; reflexivity]).
  assert (H2 : vp_run (newVp8 false "room" "" 9) (([] ++ [EvConfirm 1000 "00000007"]) ++ [EvHealth true]) demo_lost)
    by (eapply vr_step; [exact H1|exact I|reflexivity]).
  assert (Hf : handleIncomingFrame demo_lost late_env stranger_frame = Ok demo_rebuilt)
    by (vm_compute; reflexivity).
  assert (H3 : vp_run (newVp8 false "room" "" 9)
            ((([] ++ [EvConfirm 1000 "00000007"]) ++ [EvHealth true]) ++ [EvFrame late_env stranger_frame]) demo_rebuilt)
    by (eapply vr_step; [exact H2|apply Permutation_refl|vm_compute; reflexivity]).
  split; [vm_compute; reflexivity|]. split.
  - destruct (rebuild_once_per_peer false "room" "" 9 _ _ H3) as [Hle _]. vm_compute in Hle. vm_compute. exact Hle.
  - destruct (rebuild_once_per_peer false "room" "" 9 _ _ H2) as [_ Hr].
    apply (Hr late_env stranger_frame demo_rebuilt Hf). vm_compute. discriminate.
Defined.

(** ** Epochs and headers *)

(** The headers the planes put on their frames follow the local epoch. *)
Record stamped (p : vp8) : Prop := {
  st_data : forall id r, plClosed (vpData p) = false -> plRt (vpData p) = Some id -> vpRts p !! id = Some r ->
    exists dst, (dst = 0 \/ dst = lkPeer (vpLk p)) /\
      kcHdr (rtConn r) = buildEpochHeaderTo (vpToken p) (lkLocal (vpLk p)) dst;
  st_control : forall id r, plClosed (vpControl p) = false -> plRt (vpControl p) = Some id ->
    vpRts p !! id = Some r -> kcHdr (rtConn r) = controlEpochHeader p;
  st_distinct : forall id, plRt (vpData p) = Some id -> plRt (vpControl p) <> Some id;
}.

(** What keeps the stamps: same epochs, same planes, same headers. *)
Lemma stamped_keep p p' :
  vp_inv [] p -> stamped p -> vpToken p' = vpToken p ->
  lkLocal (vpLk p') = lkLocal (vpLk p) -> lkPeer (vpLk p') = lkPeer (vpLk p) ->
  (forall c, plRt (get_plane p' c) = plRt (get_plane p c) /\
     (plClosed (get_plane p' c) = false -> plClosed (get_plane p c) = false)) ->
  (forall id r, vpRts p !! id = Some r ->
     exists r', vpRts p' !! id = Some r' /\ kcHdr (rtConn r') = kcHdr (rtConn r)) ->
  stamped p'.
Proof.
  intros Hinv [S1 S2 S3] Ht Hl Hpe Hpl Hr.
  destruct (Hpl false) as [D1 D2], (Hpl true) as [C1 C2]. cbn in D1, D2, C1, C2.
  assert (Hback : forall c id r', plRt (get_plane p c) = Some id -> vpRts p' !! id = Some r' ->
            exists r, vpRts p !! id = Some r /\ kcHdr (rtConn r') = kcHdr (rtConn r)).
  { intros c id r' Hid Hr'. pose proof (vi_valid _ _ Hinv c id Hid) as Hlt.
    apply lookup_lt_is_Some_2 in Hlt as [r Hrr]. exists r. split; [done|].
    destruct (Hr id r Hrr) as (r2 & Hr2 & E). congruence. }
  split.
  - intros id r' Hc Hid Hr'. rewrite D1 in Hid. destruct (Hback false id r' Hid Hr') as (r & Hrr & E).
    destruct (S1 id r (D2 Hc) Hid Hrr) as (dst & Hdst & Hh). exists dst. rewrite Hl, Hpe, Ht, E. done.
  - intros id r' Hc Hid Hr'. rewrite C1 in Hid. destruct (Hback true id r' Hid Hr') as (r & Hrr & E).
    unfold controlEpochHeader, controlEpochValue. rewrite Hl, Ht, E. exact (S2 id r (C2 Hc) Hid Hrr).
  - intros id. rewrite D1, C1. apply S3.
Qed.

Lemma stamped_quiet p p' : vp_inv [] p -> stamped p -> quiet p p' -> stamped p'.
Proof.
  intros Hinv Hst [A B (C1 & C2 & C3) [D1 D2] E]. eapply stamped_keep; try done; rewrite ?A; try done.
  - intros c. unfold get_plane. by rewrite D1, D2.
  - intros id r Hr. destruct (E id r Hr) as (r' & ? & _ & ?). by exists r'.
Qed.

Lemma kcp_deliver_hdr c pick pc now x c' : kcp_deliver c pick pc now x = Ok c' -> kcHdr c' = kcHdr c.
Proof.
  unfold kcp_deliver. case_if; [by intros [= <-]|].
  destruct (slice x 0 _) as [body|e|]; cbn [obind]; [|done..].
  destruct (uint_at x _ _) as [want|e|]; cbn [obind]; [|done..]. case_if; [by intros [= <-]|].
  destruct (acquirePacketBuffer _ _ _) as [[ps pkt]|e|]; cbn [obind]; [|done..].
  case_if; [by intros [= <-]|]. case_if; by intros [= <-].
Qed.

Lemma deliver_packets_hdr env i c ps c' : deliver_packets env i c ps = Ok c' -> kcHdr c' = kcHdr c.
Proof.
  revert i c. induction ps as [|x ps IH]; intros i c; cbn [deliver_packets]; [by intros [= <-]|].
  destruct (kcp_deliver c _ _ _ x) as [c1|e|] eqn:Hd; cbn [obind]; [|done..]. intros H.
  rewrite (IH _ _ H). by eapply kcp_deliver_hdr.
Qed.

Lemma stamped_deliver p env rt payload p' :
  vp_inv [] p -> stamped p -> deliverKCPPayload p env rt payload = Ok p' -> stamped p'.
Proof.
  intros Hinv Hst. unfold deliverKCPPayload.
  destruct rt as [i|]; cbn; [|by intros [= <-]]. destruct (vpRts p !! i) as [r|] eqn:Hr; cbn; [|by intros [= <-]].
  case_if; [by intros [= <-]|]. destruct (deliver_packets env 0 (rtConn r) _) as [c|e|] eqn:Hd; cbn; [|done..].
  intros [= <-]. eapply stamped_keep; try done. intros id r0 Hr0. cbn. destruct (decide (i = id)) as [->|Hne].
  - rewrite list_lookup_alter_eq, Hr0. eexists. split; [done|]. cbn.
    rewrite (deliver_packets_hdr _ _ _ _ _ Hd). congruence.
  - rewrite list_lookup_alter_ne by done. by exists r0.
Qed.

Lemma stamped_link p l :
  vp_inv [] p -> stamped p -> lkLocal l = lkLocal (vpLk p) -> lkPeer l = lkPeer (vpLk p) -> stamped (set_link p l).
Proof. intros. eapply stamped_keep; try done. intros id r Hr. by exists r. Qed.

(** The runtime of plane [c] has header [hdr]. *)
Definition plane_header (p : vp8) (c : bool) (ok : bytes -> Prop) : Prop :=
  forall id r, plClosed (get_plane p c) = false -> plRt (get_plane p c) = Some id -> vpRts p !! id = Some r ->
    ok (kcHdr (rtConn r)).

Definition planes_distinct (p : vp8) : Prop := forall id, plRt (vpData p) = Some id -> plRt (vpControl p) <> Some id.

(** What starting or restarting plane [c] with header [hdr] does: the plane is left
    as it was, loses its runtime, or gets a new one with that header. *)
Lemma plane_change_view p c p' hdr :
  (exists env, p' = plane_restart p c env hdr) \/
  (exists env, p' = plane_start p c env hdr /\ plRt (get_plane p c) = None) ->
  vp_inv [] p -> planes_distinct p ->
  plane_header p' c (fun h => h = hdr) /\ planes_distinct p' /\
  (forall ok, plane_header p (negb c) ok -> plane_header p' (negb c) ok).
Proof.
  intros Hop Hinv Hd.
  assert (Hview : (get_plane p' (negb c) = get_plane p (negb c)) /\
    (forall id r', vpRts p' !! id = Some r' -> (id < length (vpRts p))%nat ->
       exists r, vpRts p !! id = Some r /\ kcHdr (rtConn r') = kcHdr (rtConn r)) /\
    (plClosed (get_plane p' c) = true /\ plRt (get_plane p' c) = plRt (get_plane p c) \/
     plRt (get_plane p' c) = None \/
     plRt (get_plane p' c) = Some (length (vpRts p)) /\
       forall r, vpRts p' !! length (vpRts p) = Some r -> kcHdr (rtConn r) = hdr)).
  { destruct Hop as [[env ->]|[env [-> Hnone]]].
    - unfold plane_restart. destruct (plClosed (get_plane p c)) eqn:Hcl.
      { split_and!; [done| |by left]. intros id r' Hr' _. by exists r'. }
      set (q := close_opt _ _).
      assert (Hq : (forall c', get_plane q c' = get_plane (set_plane p c (MkPlane [] None false (plOnce (get_plane p c)))) c') /\
                length (vpRts q) = length (vpRts p) /\
                forall id r', vpRts q !! id = Some r' ->
                  exists r, vpRts p !! id = Some r /\ kcHdr (rtConn r') = kcHdr (rtConn r)).
      { subst q. destruct (plRt (get_plane p c)) as [i|]; cbn [close_opt].
        - split_and!; [done|cbn; by rewrite length_alter|]. intros id r' Hr'. cbn in Hr'.
          destruct (decide (i = id)) as [->|Hne].
          + rewrite list_lookup_alter_eq in Hr'. destruct (vpRts p !! id) as [r|]; [|done].
            cbn in Hr'. injection Hr' as <-. by exists r.
          + rewrite list_lookup_alter_ne in Hr' by done. by exists r'.
        - split_and!; [done|done|]. intros id r' Hr'. by exists r'. }
      destruct Hq as (Hg & Hl & Hr). unfold startKCP. destruct (eStart env).
      + split_and!.
        * destruct c; [exact (Hg false)|exact (Hg true)].
        * intros id r' Hr' Hlt. cbn in Hr'. rewrite lookup_app_l in Hr' by lia. by apply Hr.
        * right; right. split; [rewrite plane_set_get; cbn; by rewrite Hl|].
          intros r. cbn. rewrite <- Hl, list_lookup_middle by done. by intros [= <-].
      + split_and!; [rewrite Hg; by destruct c| |right; left; rewrite Hg; by destruct c].
        intros id r' Hr' _. by apply Hr.
    - unfold plane_start. destruct (plOnce (get_plane p c)).
      { split_and!; [done| |by right; left]. intros id r' Hr' _. by exists r'. }
      destruct (plClosed (get_plane p c)) eqn:Hcl.
      { split_and!; [by destruct c| |left; rewrite plane_set_get; done]. intros id r' Hr' _. by exists r'. }
      unfold startKCP. destruct (eStart env).
      + split_and!; [by destruct c| |].
        * intros id r' Hr' Hlt. cbn in Hr'. rewrite lookup_app_l in Hr' by lia. by exists r'.
        * right; right. split; [by rewrite plane_set_get|]. intros r. cbn.
          rewrite list_lookup_middle by done. by intros [= <-].
      + split_and!; [by destruct c| |right; left; rewrite plane_set_get; done].
        intros id r' Hr' _. by exists r'. }
  destruct Hview as (Ho & Hr & Hc). split_and!.
  - intros id r Hcl Hid Hrr. destruct Hc as [[Hx _]|[Hx|[Hx Hh]]]; [congruence..|].
    rewrite Hx in Hid. injection Hid as <-. by apply Hh.
  - unfold planes_distinct in *. intros id H1 H2.
    assert (Hlt : forall c', plRt (get_plane p c') = Some id -> id <> length (vpRts p)).
    { intros c' Hx. pose proof (vi_valid _ _ Hinv c' id Hx). lia. }
    pose proof (Hlt false) as Hl1. pose proof (Hlt true) as Hl2. cbn in Hl1, Hl2.
    destruct c; cbn in *; rewrite Ho in *;
      (destruct Hc as [[_ Hx]|[Hx|[Hx _]]]; [rewrite Hx in *; by eapply Hd|congruence|]);
      [rewrite H2 in Hx; injection Hx as ->; by apply Hl1|rewrite H1 in Hx; injection Hx as ->; by apply Hl2].
  - intros ok Hok id r' Hcl Hid Hr'. rewrite Ho in Hcl, Hid.
    destruct (Hr id r' Hr') as (r & Hrr & E); [by apply (vi_valid _ _ Hinv (negb c))|].
    rewrite E. by apply (Hok id r).
Qed.

#[local] Opaque buildEpochHeaderTo buildEpochHeader.

Lemma stamped_iff p :
  stamped p <->
  plane_header p false (fun h => exists dst, (dst = 0 \/ dst = lkPeer (vpLk p)) /\
     h = buildEpochHeaderTo (vpToken p) (lkLocal (vpLk p)) dst) /\
  plane_header p true (fun h => h = controlEpochHeader p) /\ planes_distinct p.
Proof. split; [by intros [A B C]|intros (A & B & C); by split]. Qed.

Lemma stamped_start p c env :
  vp_inv [] p -> stamped p ->
  stamped (plane_start p c env (if c then controlEpochHeader p else epochHeader p)).
Proof.
  intros Hinv Hst. destruct (plOnce (get_plane p c)) eqn:Ho.
  { unfold plane_start. by rewrite Ho. }
  pose proof (vi_once _ _ Hinv c Ho) as Hnone.
  set (hdr := if c then _ else _). pose proof (proj1 (stamped_iff p) Hst) as (A & B & C).
  destruct (plane_change_view p c (plane_start p c env hdr) hdr) as (H1 & H2 & H3);
    [right; by exists env|done|done|].
  destruct (plane_start_link p c env hdr) as (L1 & _ & L3). apply stamped_iff.
  unfold controlEpochHeader, controlEpochValue. rewrite L1, L3. destruct c; cbn [negb] in H3.
  - split; [apply H3, A|]. split; [exact H1|exact H2].
  - split; [|split; [apply H3, B|exact H2]].
    intros id r X Y Z. exists 0. split; [by left|]. exact (H1 id r X Y Z).
Qed.

Lemma stamped_restart p env draws p' :
  vp_inv [] p -> stamped p -> plOnce (vpData p) = true -> plOnce (vpControl p) = true ->
  restartPlanes p env draws = Some p' -> stamped p'.
Proof.
  intros Hinv Hst Ho1 Ho2. unfold restartPlanes.
  destruct (rotateEpochHeader (forget_peer p) draws) as [[q hdr]|] eqn:Hr; [|done]. intros [= <-].
  apply rotate_link in Hr as (e & _ & -> & ->).
  change (vpToken (forget_peer p)) with (vpToken p).
  set (q := set_link (forget_peer p) (set_local (vpLk (forget_peer p)) e)).
  assert (Hhdr : epochHeader q = buildEpochHeader (vpToken p) e).
  { unfold epochHeader. by change (lkLocal (vpLk q)) with e. }
  rewrite <- Hhdr. clear Hhdr.
  assert (Hinvq : vp_inv [] q).
  { apply (vp_inv_shape [] (forget_peer p)); [apply set_link_shape|].
    by apply (vp_inv_shape [] p); [apply set_link_shape|]. }
  assert (Hdq : planes_distinct q) by exact (st_distinct _ Hst).
  destruct (plane_change_view q false (plane_restart q false env (epochHeader q)) (epochHeader q))
    as (H1 & H2 & _); [left; by exists env|done|done|].
  pose proof (plane_restart_inv q false env (epochHeader q) Hinvq Ho1) as Hinv2.
  destruct (plane_restart_link q false env (epochHeader q)) as (L1 & _ & L3).
  set (q2 := plane_restart q false env (epochHeader q)) in *.
  destruct (plane_change_view q2 true (plane_restart q2 true env (controlEpochHeader q2)) (controlEpochHeader q2))
    as (H1' & H2' & H3'); [left; by exists env|done|done|].
  destruct (plane_restart_link q2 true env (controlEpochHeader q2)) as (L1' & _ & L3').
  set (q3 := plane_restart q2 true env (controlEpochHeader q2)) in *. clearbody q3.
  assert (Hch : controlEpochHeader q3 = controlEpochHeader q2).
  { unfold controlEpochHeader, controlEpochValue. by rewrite L1', L3'. }
  apply (proj2 (stamped_iff q3)). rewrite L1', L3', Hch. split; [|split; [exact H1'|exact H2']].
  apply H3'. intros id r X Y Z. exists 0. split; [by left|]. rewrite L1, L3. exact (H1 id r X Y Z).
Qed.

Lemma stamped_confirm p now peerID : vp_inv [] p -> stamped p -> stamped (ConfirmPeer p now peerID).1.
Proof.
  intros Hinv Hst. unfold ConfirmPeer. destruct (parsePeerID peerID) as [e|x|]; [|done..].
  case_if; [done|]. cbn [fst]. destruct Hst as [S1 S2 S3].
  destruct (plRt (vpData p)) as [i|] eqn:Hi; cycle 1.
  { split; cbn.
    - intros id r _ Hx. congruence.
    - intros id r Hc Hid Hr. exact (S2 id r Hc Hid Hr).
    - intros id Hx. congruence. }
  split; cbn.
  - intros id r _ Hid. rewrite Hi in Hid. injection Hid as <-. rewrite list_lookup_alter_eq.
    destruct (vpRts p !! i); [|done]. cbn. intros [= <-]. exists e. split; [by right|done].
  - intros id r Hc Hid. rewrite list_lookup_alter_ne; [intros Hr; exact (S2 id r Hc Hid Hr)|].
    intros ->. by apply (S3 id).
  - intros id. rewrite Hi. exact (S3 id).
Qed.

Lemma stamped_frame p env frame p' :
  vp_inv [] p -> env_ok p env -> stamped p -> handleIncomingFrame p env frame = Ok p' -> stamped p'.
Proof.
  intros Hinv Henv Hst. unfold handleIncomingFrame.
  destruct (parseEpochHeader frame) as [[[[token src] dst] valid]|e|]; cbn [obind]; [|done..].
  case_if; [by intros [= <-]|]. case_if; [by intros [= <-]|].
  destruct (slice_from frame epochHdrLen) as [payload|e|]; cbn [obind]; [|done..].
  case_if; [by intros [= <-]|]. case_if; [by intros [= <-]|]. case_if.
  - unfold handleControlFrame. case_if; [by intros [= <-]|]. case_if.
    + pose proof (peerControlFor_quiet p env (Z.ldiff src controlEpochFlag)) as Hq.
      destruct (peerControlFor p env _) as [p1 rt] eqn:Hp. cbn [fst] in Hq.
      apply stamped_deliver; [by eapply peerControlFor_inv|by eapply stamped_quiet].
    + case_if; [by intros [= <-]|]. by apply stamped_deliver.
  - case_if.
    + unfold handlePeerFrame. pose proof (peerSessionFor_quiet p env src) as Hq.
      destruct (peerSessionFor p env src) as [p1 [sid|]] eqn:Hp; cbn [fst] in Hq;
        destruct (peerSessionFor_inv _ _ _ _ _ Hinv Henv Hp) as [Hinv1 _];
        pose proof (stamped_quiet _ _ Hinv Hst Hq) as Hst1; [|by intros [= <-]].
      case_if; [by intros [= <-]|]. by apply stamped_deliver.
    + unfold handleSinglePeerData. case_if; [by intros [= <-]|]. case_if.
      * intros [= <-]. unfold maybePeerRestart. repeat (case_if; [done|]).
        eapply stamped_keep; try done. intros id r Hr. by exists r.
      * set (q := set_link p _). assert (Hq : stamped q) by (by apply stamped_link).
        case_if; [by intros [= <-]|]. apply stamped_deliver; [|done].
        eapply vp_inv_shape; [apply set_link_shape|done].
Qed.

Lemma stamped_sendVia p rt ok data : vp_inv [] p -> stamped p -> stamped (sendVia p rt ok data).1.
Proof.
  intros Hq Hs. unfold sendVia. destruct (vpClosed p); [done|].
  destruct rt as [i|]; cbn; [|done]. destruct (vpRts p !! i) as [r|] eqn:Hr; cbn; [|done].
  destruct (rt_send r ok data) as [r' res] eqn:Hrs. cbn. eapply stamped_keep; try done.
  intros id r0 Hr0. cbn. destruct (decide (i = id)) as [->|Hne].
  - rewrite list_lookup_alter_eq, Hr0. eexists. split; [done|]. unfold rt_send in Hrs.
    rewrite Hr in Hr0. injection Hr0 as <-. case_if; [by injection Hrs as <- _|]. destruct ok; by injection Hrs as <- _.
  - rewrite list_lookup_alter_ne by done. by exists r0.
Qed.

Lemma stamped_plane_close p c : vp_inv [] p -> stamped p -> stamped (plane_close p c).
Proof.
  intros Hinv Hst. destruct (plane_close_link p c) as (L1 & L2 & L3).
  unfold plane_close in *. set (pl := get_plane p c) in *.
  set (q := set_plane p c (MkPlane (plOut pl) (plRt pl) true (plOnce pl))) in *.
  eapply (stamped_keep p); [exact Hinv|exact Hst|exact L3|by rewrite L1|by rewrite L1| |].
  - intros c'. destruct (qu_planes _ _ (close_opt_quiet q (plRt pl))) as [E1 E2].
    unfold get_plane at 1 3. rewrite E1, E2. by destruct c, c'.
  - intros id r Hr. destruct (qu_inbox _ _ (close_opt_quiet q (plRt pl)) id r Hr) as (r' & ? & _ & ?). by exists r'.
Qed.

Lemma stamped_Close p : vp_inv [] p -> stamped p -> stamped (vp_Close p).
Proof.
  intros Hinv Hst. unfold vp_Close. destruct (vpClosed p) eqn:Hc; [done|]. fold (mark_closed p).
  assert (Hm : vp_inv [] (mark_closed p)) by (eapply vp_inv_shape; [apply mark_closed_shape|done]).
  assert (Hsm : stamped (mark_closed p)) by (eapply (stamped_keep p); try done; intros id r Hr; by exists r).
  destruct (plane_close_inv [] _ false Hm) as [A1 _]. destruct (plane_close_inv [] _ true A1) as [B1 _].
  eapply stamped_quiet; [exact B1| |apply closeAll_quiet]. by do 2 (apply stamped_plane_close; [done|]).
Qed.

(** The parts of [restartPlanes] leave the stamps behind until the last is done. *)
Definition undisturbed (ev : vp_event) : Prop :=
  match ev with
  | EvPart PtForget | EvPart (PtRotate _) | EvPart (PtPlaneRestart _ _ _) => False
  | _ => True
  end.

Lemma stamped_part p pt p' :
  vp_inv [] p -> stamped p -> undisturbed (EvPart pt) -> part_step p pt = Some p' -> stamped p'.
Proof.
  intros Hinv Hst Hun. destruct pt; cbn [part_step]; try done.
  - intros [= <-]. eapply stamped_quiet; [done..|apply peerSessionFor_quiet].
  - intros [= <-]. eapply stamped_quiet; [done..|apply attachControl_quiet].
  - destruct (deliverKCPPayload p env rt payload) eqn:Hd; [|done..]. intros [= <-]. by eapply stamped_deliver.
  - intros [= <-]. by apply stamped_sendVia.
  - intros [= <-]. eapply (stamped_keep p); try done. intros id r Hr. by exists r.
  - intros [= <-]. by apply stamped_plane_close.
  - intros [= <-]. eapply stamped_quiet; [done..|apply closeAll_quiet].
Qed.

Lemma stamped_step p ev p' :
  vp_inv [] p -> stamped p -> event_ok p ev -> undisturbed ev -> vp_step p ev = Some p' -> stamped p'.
Proof.
  intros Hinv Hst Hev Hun.
  destruct ev as [env frame|env|now peerID|env draws|u|now|ok data|ok data|env ct peerID ok data| |pt];
    cbn [vp_step]; cbn [event_ok] in Hev.
  - destruct (handleIncomingFrame p env frame) as [q|e|] eqn:Hf; [|done..]. intros [= <-].
    by eapply stamped_frame.
  - intros [= <-]. unfold vp_Connect. apply (stamped_start _ true); [by apply plane_start_inv|].
    by apply (stamped_start _ false).
  - intros [= <-]. by apply stamped_confirm.
  - destruct Hev. intros Hr. by eapply stamped_restart.
  - intros [= <-]. by apply stamped_link.
  - intros [= <-]. eapply stamped_quiet; [done|done|]. unfold peers_sweep.
    etrans; [apply set_peers_quiet|apply close_sessions_quiet].
  - intros [= <-]. by apply stamped_sendVia.
  - intros [= <-]. by apply stamped_sendVia.
  - intros [= <-]. unfold sendToPeer. destruct (vpClosed p); [done|].
    destruct (parsePeerID peerID) as [e|e|]; [|done..]. destruct ct.
    + pose proof (peerControlFor_quiet p env e) as Hq. destruct (peerControlFor p env e) as [q rt] eqn:Hp.
      apply stamped_sendVia; [by eapply peerControlFor_inv|by eapply stamped_quiet].
    + unfold peerDataFor. pose proof (peers_get_quiet p (eNow env) e) as Hq.
      destruct (peers_get p (eNow env) e) as [q r] eqn:Hg.
      destruct (peers_get_inv [] p _ _ _ _ Hinv Hg) as (Hi & _).
      cbn [fst] in Hq. destruct r; (apply stamped_sendVia; [done|exact (stamped_quiet p q Hinv Hst Hq)]).
  - intros [= <-]. by apply stamped_Close.
  - by apply stamped_part.
Qed.

(** ** Data and control epochs *)

(** A data epoch has its high bit clear. *)
Abbreviation is_epoch e := (0 < e < 2147483648).

Lemma land_flag e : is_epoch e -> Z.land e controlEpochFlag = 0.
Proof.
  intros He. apply Z.bits_inj'. intros n Hn. rewrite Z.land_spec, Z.bits_0.
  change controlEpochFlag with (2 ^ 31). rewrite Z.pow2_bits_eqb by lia.
  destruct (Z.eqb_spec 31 n) as [<-|]; [|by rewrite andb_false_r].
  rewrite (Z.bits_above_log2 e 31); [done|lia|]. apply Z.log2_lt_pow2; [lia|]. change (2 ^ 31) with 2147483648. lia.
Qed.

Lemma lor_flag e : is_epoch e -> Z.lor e controlEpochFlag = e + 2147483648.
Proof. intros He. by rewrite <- Z.add_nocarry_lor by (by apply land_flag). Qed.

Lemma randomEpoch_is_epoch raw nano :
  (forall b, raw = Some b -> byte_list b /\ length b = 4%nat) -> is_epoch (randomEpoch raw nano).
Proof.
  assert (Hgen : forall v, is_u32 v -> is_epoch (let e := Z.ldiff v controlEpochFlag in if e =? 0 then 1 else e)).
  { intros v Hv. cbn zeta.
    assert (Hmod : Z.ldiff v controlEpochFlag = v mod 2 ^ 31).
    { rewrite <- Z.land_ones by lia. apply Z.bits_inj'. intros n Hn.
      rewrite Z.ldiff_spec, Z.land_spec.
      change controlEpochFlag with (2 ^ 31). rewrite Z.pow2_bits_eqb by lia.
      destruct (decide (n < 31)).
      - rewrite Z.ones_spec_low by lia. destruct (Z.eqb_spec 31 n); [lia|done].
      - rewrite Z.ones_spec_high, andb_false_r by lia.
        destruct (Z.eqb_spec 31 n) as [<-|]; [by rewrite andb_false_r|]. cbn. rewrite andb_true_r.
        apply Z.bits_above_log2; [lia|]. destruct (decide (v = 0)) as [->|]; [cbn; lia|].
        assert (Z.log2 v < 32); [|lia]. apply Z.log2_lt_pow2; [lia|]. change (2 ^ 32) with 4294967296. lia. }
    rewrite Hmod. pose proof (Z.mod_pos_bound v (2 ^ 31)) as Hb. change (2 ^ 31) with 2147483648 in *.
    case_if; lia. }
  intros Hraw. unfold randomEpoch. destruct raw as [b|]; apply Hgen; [|apply u32_range].
  destruct (Hraw b eq_refl) as [Hb Hl]. pose proof (be_get_range b Hb) as Hr. rewrite Hl in Hr. exact Hr.
Qed.

(** The two planes follow the local epoch.  After any sequence of operations in
    which each restart is undisturbed, as long as a plane is open, every packet of the
    bulk plane is stamped with our current data epoch and addressed to everyone or to
    the authenticated peer, and every packet of the control plane with our current
    control epoch, so the other side can correlate the two. *)
Theorem planes_follow_local_epoch (server : bool) (channel room : string) (epoch : Z)
    (evs : list vp_event) (p : vp8) (Hrun : vp_run (newVp8 server channel room epoch) evs p)
    (Hwhole : Forall undisturbed evs) :
  (forall id r, plClosed (vpData p) = false -> plRt (vpData p) = Some id -> vpRts p !! id = Some r ->
     exists dst, (dst = 0 \/ dst = lkPeer (vpLk p)) /\
       kcHdr (rtConn r) = buildEpochHeaderTo (vpToken p) (lkLocal (vpLk p)) dst) /\
  (forall id r, plClosed (vpControl p) = false -> plRt (vpControl p) = Some id -> vpRts p !! id = Some r ->
     kcHdr (rtConn r) = buildEpochHeaderTo (vpToken p) (Z.lor (lkLocal (vpLk p)) controlEpochFlag) 0).
Proof.
  assert (Hst : stamped p).
  { induction Hrun as [|evs q ev q' Hrun IH Hev Hs]; [by split|].
    apply Forall_app in Hwhole as [Hold [Hnew _]%Forall_cons_iff].
    eapply stamped_step; [|by apply IH|done..]. by eapply vp_run_inv; [apply newVp8_inv|]. }
  destruct Hst as [A B _]. split; [exact A|exact B].
Qed.

Lemma plane_restart_open p c env hdr c' :
  plClosed (get_plane (plane_restart p c env hdr) c') = plClosed (get_plane p c').
Proof.
  unfold plane_restart. destruct (plClosed (get_plane p c)) eqn:Hc; [done|].
  unfold startKCP, close_opt, close_rt, upd_rt. unfold get_plane in *.
  destruct (eStart env), c, c', (plRt (vpControl p)), (plRt (vpData p)); cbn in *; congruence.
Qed.

Lemma plane_restart_new p c env hdr :
  plClosed (get_plane p c) = false -> eStart env = true ->
  exists id r, plRt (get_plane (plane_restart p c env hdr) c) = Some id /\
    vpRts (plane_restart p c env hdr) !! id = Some r /\ kcHdr (rtConn r) = hdr.
Proof.
  intros Hc Hs. unfold plane_restart, startKCP. rewrite Hc, Hs. rewrite plane_set_get.
  eexists _, _. split; [done|]. split; [cbn; by rewrite list_lookup_middle|done].
Qed.

(** A frame for somebody else changes nothing. *)
Lemma foreign_dst_dropped p env src dst x :
  is_u32 (vpToken p) -> is_u32 src -> is_u32 dst -> acceptsDst p dst = false ->
  handleIncomingFrame p env (buildEpochHeaderTo (vpToken p) src dst ++ x) = Ok p.
Proof.
  intros Ht Hs Hd Ha. unfold handleIncomingFrame. rewrite parse_epoch_header by done. cbn [obind negb].
  rewrite Z.eqb_refl. cbn [negb].
  rewrite slice_from_ok by (unfold epochHdrLen; rewrite len_app, epoch_header_length; lia). cbn [obind].
  case_if; [done|]. by rewrite Ha.
Qed.

Lemma rotate_one p e q hdr :
  rotateEpochHeader p [e] = Some (q, hdr) ->
  e <> lkLocal (vpLk p) /\ q = set_link p (set_local (vpLk p) e) /\ hdr = buildEpochHeader (vpToken p) e.
Proof.
  unfold rotateEpochHeader. destruct (decide (e <> lkLocal (vpLk p))) as [Hne|Heq].
  - rewrite filter_cons_True by done. by intros [= <- <-].
  - by rewrite filter_cons_False by done.
Qed.

(** Two restarts at once can split the planes.  The header of the control plane
    is computed before the lock that installs it is taken: when a second restart
    runs to completion in between, the transport ends up with the second epoch but
    with a control plane stamped with the first one, and every reply addressed to
    that stamp is dropped on arrival. *)
Theorem restart_race_splits_planes (server : bool) (channel room : string) (epoch : Z)
    (evs : list vp_event) (p p1 p3 : vp8) (env : vp_env) (e1 e2 : Z) (h1 : bytes)
    (Hrun : vp_run (newVp8 server channel room epoch) evs p) (Htoken : is_u32 (vpToken p))
    (Hopen : plClosed (vpControl p) = false) (Hstart : eStart env = true)
    (He1 : is_epoch e1) (He2 : is_epoch e2)
    (Hfirst : rotateEpochHeader (forget_peer p) [e1] = Some (p1, h1))
    (Hsecond : restartPlanes (plane_restart p1 false env h1) env [e2] = Some p3) :
  let p4 := plane_restart p3 true env (controlEpochHeader (plane_restart p1 false env h1)) in
  controlEpochValue p4 = Z.lor e2 controlEpochFlag /\
  (exists id r, plRt (vpControl p4) = Some id /\ vpRts p4 !! id = Some r /\
     kcHdr (rtConn r) = buildEpochHeaderTo (vpToken p4) (Z.lor e1 controlEpochFlag) 0) /\
  forall env' src x, is_u32 src ->
    handleIncomingFrame p4 env' (buildEpochHeaderTo (vpToken p4) src (Z.lor e1 controlEpochFlag) ++ x) = Ok p4.
Proof.
  intros p4. apply rotate_one in Hfirst as (_ & Hp1 & Hh1).
  set (p2 := plane_restart p1 false env h1) in *.
  destruct (plane_restart_link p1 false env h1) as (L2 & _ & T2). fold p2 in L2, T2.
  assert (Hl2 : lkLocal (vpLk p2) = e1) by (by rewrite L2, Hp1).
  assert (Ht2 : vpToken p2 = vpToken p) by (by rewrite T2, Hp1).
  assert (Ho2 : plClosed (get_plane p2 true) = false).
  { subst p2. rewrite plane_restart_open, Hp1. exact Hopen. }
  clearbody p2. unfold restartPlanes in Hsecond.
  destruct (rotateEpochHeader (forget_peer p2) [e2]) as [[q h]|] eqn:Hr; [|done].
  apply rotate_one in Hr as (Hne & Hq & Hh). cbn in Hne. injection Hsecond as Hp3.
  set (q2 := plane_restart q false env h) in *.
  destruct (plane_restart_link q false env h) as (L3 & _ & T3). fold q2 in L3, T3.
  assert (Ho3 : plClosed (get_plane q2 true) = false).
  { subst q2. rewrite plane_restart_open, Hq. exact Ho2. }
  clearbody q2. destruct (plane_restart_link q2 true env (controlEpochHeader q2)) as (L4 & _ & T4).
  rewrite Hp3 in L4, T4.
  assert (Ho4 : plClosed (get_plane p3 true) = false) by (by rewrite <- Hp3, plane_restart_open).
  destruct (plane_restart_link p3 true env (controlEpochHeader p2)) as (L5 & _ & T5).
  destruct (plane_restart_new p3 true env (controlEpochHeader p2) Ho4 Hstart) as (id & r & N1 & N2 & N3).
  fold p4 in L5, T5, N1, N2. clearbody p4.
  assert (Hl4 : lkLocal (vpLk p4) = e2) by (by rewrite L5, L4, L3, Hq).
  assert (Ht4 : vpToken p4 = vpToken p) by (by rewrite T5, T4, T3, Hq).
  split; [unfold controlEpochValue; by rewrite Hl4|]. split.
  - exists id, r. split; [exact N1|]. split; [exact N2|]. rewrite N3.
    unfold controlEpochHeader, controlEpochValue. rewrite Hl2, Ht2, Ht4. apply buildEpochHeader_to.
  - intros env' src x Hsrc. apply foreign_dst_dropped; [by rewrite Ht4|done|rewrite lor_flag by done; lia|].
    unfold acceptsDst. rewrite Hl4, !lor_flag by done.
    rewrite Hl2 in Hne.
    repeat (apply orb_false_iff; split); apply Z.eqb_neq; lia.
Qed.

(** A client that has just connected, with epoch 9. *)
Definition demo_conn : vp8 := vp_Connect (newVp8 false "room" "" 9) calm_env.

Lemma demo_conn_run : vp_run (newVp8 false "room" "" 9) ([] ++ [EvConnect calm_env]) demo_conn.
Proof. eapply vr_step; [apply vr_start|exact I|reflexivity]. Qed.

Lemma planes_follow_local_epoch_witness :
  exists r, plRt (vpControl demo_conn) = Some 1%nat /\ vpRts demo_conn !! 1%nat = Some r /\
    kcHdr (rtConn r) = buildEpochHeaderTo (vpToken demo_conn)
                         (Z.lor (lkLocal (vpLk demo_conn)) controlEpochFlag) 0.
Proof.
  pose (rt := MkRt (newKCPConn inboundQueueSize (controlEpochHeader (newVp8 false "room" "" 9))) [] false).
  exists rt. assert (Hr : vpRts demo_conn !! 1%nat = Some rt) by (vm_compute; reflexivity).
  split; [vm_compute; reflexivity|]. split; [exact Hr|].
  destruct (planes_follow_local_epoch false "room" "" 9 _ _ demo_conn_run) as [_ Hc]; [by repeat constructor|].
  apply (Hc 1%nat rt); [vm_compute; reflexivity..|exact Hr].
Defined.

Lemma restart_race_splits_planes_witness :
  exists p1 h1 p3, rotateEpochHeader (forget_peer demo_conn) [5] = Some (p1, h1) /\
    restartPlanes (plane_restart p1 false calm_env h1) calm_env [6] = Some p3 /\
    controlEpochValue (plane_restart p3 true calm_env (controlEpochHeader (plane_restart p1 false calm_env h1)))
      = Z.lor 6 controlEpochFlag.
Proof.
  pose (q := default (demo_conn, []) (rotateEpochHeader (forget_peer demo_conn) [5])).
  pose (p3 := default demo_conn (restartPlanes (plane_restart q.1 false calm_env q.2) calm_env [6])).
  assert (H1 : rotateEpochHeader (forget_peer demo_conn) [5] = Some (q.1, q.2)) by (vm_compute; reflexivity).
  assert (H2 : restartPlanes (plane_restart q.1 false calm_env q.2) calm_env [6] = Some p3)
    by (vm_compute; reflexivity).
  exists q.1, q.2, p3. split; [exact H1|]. split; [exact H2|].
  apply (restart_race_splits_planes false "room" "" 9 _ demo_conn q.1 p3 calm_env 5 6 q.2 demo_conn_run);
    [vm_compute; split; [discriminate|reflexivity]|vm_compute; reflexivity..|lia|lia|exact H1|exact H2].
Defined.
