(* ===== verification/Server.v ===== *)
(** * Server: sessions of the tunnel server
    (internal/server: server.go, link.go, serve.go, health.go, peer.go and the
    session pairs of internal/tunnelcore/session.go)

    Connections, smux sessions, control streams and control contexts are resources
    with an allocation number; [svOpen] holds those that were opened and not closed.
    The data streams a session accepts, and the connections to their targets, are
    numbered on their own; [dsOpen] holds those not closed yet.
    Peers are objects with identity, kept in a store and reached from the table.
    A goroutine is the list of the actions it has still to do.  What the code does
    under [sessMu], [peersMu] or a peer's own mutex is one action; goroutines
    interleave between actions.  A goroutine that loops over several peers is
    represented by one goroutine per peer, which allows more interleavings than
    the code has.  Logging, health snapshots and deadlines are left out; what the
    server tells its callers is recorded in [svLog].  smux is a library: whether a
    constructor succeeds, what [AcceptStream] returns, the result of the handshake
    on a stream and the end of a control loop are inputs of the step. *)

From S2P Require Import Prelude.

(* go: server/peer.go 23-29 maxPeerSessions *)
Definition maxPeerSessions : Z := 128.

(** ** Session pairs *)

(* go: tunnelcore/session.go 29-35 SessionPair *)
Record SessionPair := MkPair {
  prDataConn : nat;
  prDataSession : nat;
  prControlConn : option nat;
  prControlSession : nat;
}.

(* go: tunnelcore/session.go 117-120 HasIsolatedControl *)
Definition HasIsolatedControl (p : SessionPair) : bool := bool_decide (prControlConn p <> None).

Definition opt_list {A} (o : option A) : list A := match o with Some a => [a] | None => [] end.

(* go: tunnelcore/session.go 122-135 CloseConns *)
Definition CloseConns (p : SessionPair) : list nat := prDataConn p :: opt_list (prControlConn p).

(** What [Close] closes, in order. *)
(* go: tunnelcore/session.go 137-153 Close *)
Definition pair_Close (p : SessionPair) : list nat :=
  [prDataSession p] ++
  (if bool_decide (prControlSession p = prDataSession p) then [] else [prControlSession p]) ++
  CloseConns p.

(** ** State *)

(* go: server/peer.go 46-63 peerSession *)
Record srvPeer := MkPeer {
  spID : string;
  spHasReady : bool;
  spReady : bool;
  spHandshakeOnce : bool;
  spCloseOnce : bool;
  spConn : option nat;
  spSession : option nat;
  spControlConn : option nat;
  spControlSess : option nat;
  spControlStrm : option nat;
  spControlStop : option nat;
  spSid : string;
  spDevice : string;
  spClosed : bool;
}.

(* go: server/peer.go 151-159 teardown *)
Record teardown := MkTeardown {
  tdConn : option nat;
  tdSession : option nat;
  tdControlConn : option nat;
  tdControlSess : option nat;
  tdControlStrm : option nat;
  tdControlStop : option nat;
  tdSid : string;
}.

(** The session of a server without peer routing. *)
Record single := MkSingle {
  sgPair : option SessionPair;
  sgConn : option nat;
  sgSession : option nat;
  sgControlConn : option nat;
  sgControlSess : option nat;
  sgControlStrm : option nat;
  sgControlStop : option nat;
  sgSid : string;
  sgDevice : string;
}.

Definition no_single : single := MkSingle None None None None None None None "" "".

(** What the callers of the server see. *)
Inductive srv_call :=
| LHandshake (pid : nat) (sid device : string)
| LOpen (sid device : string)
| LClose (sid reason : string)
| LPush (conn : nat) (data : bytes)
| LServe (pid : nat) (sid : string)
| LServeSingle (session : nat) (sid : string)
| LResetPeer
| LReconnect.

(** On whose behalf [acceptHandshake] runs: a peer without a control plane, the
    goroutine of the control session, or the accept loop itself. *)
Inductive owner := OPeer (pid : nat) | OControl | OServe.

(** What a goroutine has still to do. *)
Inductive action :=
| AAcceptPeer (pid retry : nat)
| AHandshakePeer (pid retry stream : nat)
| AOnOpen (sid device : string)
| ATrackOpen (sid device : string)
| ASetControl (pid stream : nat)
| AExpire (pid : nat)
| AServe (pid : nat)
| AWait (pid : nat)
| AEstablished (pid stream : nat) (sid device : string)
| ALoop (pid session : nat) (sid : string)
| AHandleStream (pid session stream : nat) (sid : string)
| ARun (pid stream : nat)
| ARelease (stream : nat)
| ARemove (pid : nat) (reason : string)
| AClose (pid : nat) (reason : string)
| AClosing (td : teardown) (reason : string)
| AOnClose (sid reason : string)
| ATrackClose (sid reason : string)
| ADetach
| AInstallControl
| ASpawn (task : list action)
| APushData (pid : nat) (data : bytes)
| APushControl (pid : nat) (data : bytes)
| AAcceptSession (who : owner) (session retry : nat)
| AHandshake (who : owner) (session retry stream : nat)
| AReinstall (dead : option nat)
| AReplace (dead : option nat)
| ASwap (dead : option nat) (replacement : SessionPair)
| ASetSingle (session stream : nat) (sid device : string)
| AStartControl (session stream : nat)
| ARunSingle (session stream : nat)
| AServeSingle
| AAcceptSingle (session : nat)
| AHandleSingle (session stream : nat)
| AReadRequest (stream : nat)
| ARelay (stream conn : nat)
| AWatch (stream : nat)
| ACloseData (r : nat)
| AStartReset
| AReconnect.

(** Which interfaces the transport implements. *)
Record srvConfig := MkSrvConfig {
  scPeerLn : bool;
  scPeerControl : bool;
  scControlPlane : bool;
}.

(** Data streams and target connections.  [dsRefused] is a ghost: the streams that
    were accepted when the server was stopping, with their session; [goTracked]
    starts no handler for them, and nobody but the session closes them. *)
Record dataStreams := MkData {
  dsOpen : gset nat;
  dsNext : nat;
  dsRefused : list (nat * nat);
}.

(* go: server/server.go 45-86 Server *)
Record server := MkServer {
  svCfg : srvConfig;
  svPeers : gmap nat srvPeer;
  svNextPeer : nat;
  svTable : gmap string nat;
  svStats : gmap string string;
  svSingle : single;
  svDone : bool;
  svOpen : gset nat;
  svNextRes : nat;
  svTasks : list (list action);
  svLog : list srv_call;
  svData : dataStreams;
}.

(* go: server/server.go 139-147 Run *)
Definition newServer (cfg : srvConfig) : server :=
  MkServer cfg ∅ 0 ∅ ∅ no_single false ∅ 0 [] [] (MkData ∅ 0 []).

Definition set_peers (s : server) (m : gmap nat srvPeer) : server :=
  MkServer (svCfg s) m (svNextPeer s) (svTable s) (svStats s) (svSingle s) (svDone s) (svOpen s)
    (svNextRes s) (svTasks s) (svLog s) (svData s).
Definition set_table (s : server) (t : gmap string nat) : server :=
  MkServer (svCfg s) (svPeers s) (svNextPeer s) t (svStats s) (svSingle s) (svDone s) (svOpen s)
    (svNextRes s) (svTasks s) (svLog s) (svData s).
Definition set_stats (s : server) (m : gmap string string) : server :=
  MkServer (svCfg s) (svPeers s) (svNextPeer s) (svTable s) m (svSingle s) (svDone s) (svOpen s)
    (svNextRes s) (svTasks s) (svLog s) (svData s).
Definition set_single (s : server) (g : single) : server :=
  MkServer (svCfg s) (svPeers s) (svNextPeer s) (svTable s) (svStats s) g (svDone s) (svOpen s)
    (svNextRes s) (svTasks s) (svLog s) (svData s).
Definition set_open (s : server) (o : gset nat) (n : nat) : server :=
  MkServer (svCfg s) (svPeers s) (svNextPeer s) (svTable s) (svStats s) (svSingle s) (svDone s) o n
    (svTasks s) (svLog s) (svData s).
Definition set_tasks (s : server) (ts : list (list action)) : server :=
  MkServer (svCfg s) (svPeers s) (svNextPeer s) (svTable s) (svStats s) (svSingle s) (svDone s)
    (svOpen s) (svNextRes s) ts (svLog s) (svData s).
Definition say (s : server) (c : srv_call) : server :=
  MkServer (svCfg s) (svPeers s) (svNextPeer s) (svTable s) (svStats s) (svSingle s) (svDone s)
    (svOpen s) (svNextRes s) (svTasks s) (svLog s ++ [c]) (svData s).

(** Opening the next resource, and closing some; closing twice does nothing. *)
Definition open_res (s : server) : server * nat :=
  (set_open s ({[svNextRes s]} ∪ svOpen s) (S (svNextRes s)), svNextRes s).
Definition close_res (s : server) (rs : list nat) : server :=
  set_open s (svOpen s ∖ list_to_set rs) (svNextRes s).

(** The same for data streams and target connections. *)
Definition set_data (s : server) (d : dataStreams) : server :=
  MkServer (svCfg s) (svPeers s) (svNextPeer s) (svTable s) (svStats s) (svSingle s) (svDone s)
    (svOpen s) (svNextRes s) (svTasks s) (svLog s) d.
Definition open_data (s : server) : server * nat :=
  let d := svData s in
  (set_data s (MkData ({[dsNext d]} ∪ dsOpen d) (S (dsNext d)) (dsRefused d)), dsNext d).
Definition close_data (s : server) (r : nat) : server :=
  let d := svData s in set_data s (MkData (dsOpen d ∖ {[r]}) (dsNext d) (dsRefused d)).

Definition upd_peer (s : server) (pid : nat) (f : srvPeer -> srvPeer) : server :=
  set_peers s (alter f pid (svPeers s)).

(** ** Peers *)

(* go: server/peer.go 65-71 newPeerSession *)
Definition srv_newPeerSession (peerID : string) (needsControl : bool) : srvPeer :=
  MkPeer peerID needsControl false false false None None None None None None "" "" false.

(* go: server/peer.go 73-77 signalReady *)
Definition signalReady (p : srvPeer) : srvPeer :=
  if spHasReady p then
    MkPeer (spID p) (spHasReady p) true (spHandshakeOnce p) (spCloseOnce p) (spConn p) (spSession p)
      (spControlConn p) (spControlSess p) (spControlStrm p) (spControlStop p) (spSid p) (spDevice p)
      (spClosed p)
  else p.

(* go: server/peer.go 89-98 setHandshake *)
Definition setHandshake (p : srvPeer) (sid device : string) : option srvPeer :=
  if spClosed p then None
  else Some (MkPeer (spID p) (spHasReady p) (spReady p) (spHandshakeOnce p) (spCloseOnce p) (spConn p)
               (spSession p) (spControlConn p) (spControlSess p) (spControlStrm p) (spControlStop p)
               sid device (spClosed p)).

(* go: server/peer.go 100-109 attachData *)
Definition attachData (p : srvPeer) (conn session : nat) : option srvPeer :=
  if spClosed p || bool_decide (spConn p <> None) || bool_decide (spSession p <> None) then None
  else Some (MkPeer (spID p) (spHasReady p) (spReady p) (spHandshakeOnce p) (spCloseOnce p)
               (Some conn) (Some session) (spControlConn p) (spControlSess p) (spControlStrm p)
               (spControlStop p) (spSid p) (spDevice p) (spClosed p)).

(* go: server/peer.go 129-138 attachControl *)
Definition srv_attachControl (p : srvPeer) (conn session : nat) : option srvPeer :=
  if spClosed p || bool_decide (spControlConn p <> None) || bool_decide (spControlSess p <> None)
  then None
  else Some (MkPeer (spID p) (spHasReady p) (spReady p) (spHandshakeOnce p) (spCloseOnce p) (spConn p)
               (spSession p) (Some conn) (Some session) (spControlStrm p) (spControlStop p) (spSid p)
               (spDevice p) (spClosed p)).

(* go: server/peer.go 140-149 setControl *)
Definition setControl (p : srvPeer) (stream stop : nat) : option srvPeer :=
  if spClosed p then None
  else Some (MkPeer (spID p) (spHasReady p) (spReady p) (spHandshakeOnce p) (spCloseOnce p) (spConn p)
               (spSession p) (spControlConn p) (spControlSess p) (Some stream) (Some stop) (spSid p)
               (spDevice p) (spClosed p)).

(* go: server/peer.go 79-81 startHandshake *)
Definition startHandshake (p : srvPeer) : srvPeer * bool :=
  (MkPeer (spID p) (spHasReady p) (spReady p) true (spCloseOnce p) (spConn p) (spSession p)
     (spControlConn p) (spControlSess p) (spControlStrm p) (spControlStop p) (spSid p) (spDevice p)
     (spClosed p), negb (spHandshakeOnce p)).

(* go: server/peer.go 161-170 closeSnapshot *)
Definition closeSnapshot (p : srvPeer) : srvPeer * teardown :=
  (MkPeer (spID p) (spHasReady p) (spReady p) (spHandshakeOnce p) true (spConn p) (spSession p)
     (spControlConn p) (spControlSess p) (spControlStrm p) (spControlStop p) (spSid p) (spDevice p)
     true,
   MkTeardown (spConn p) (spSession p) (spControlConn p) (spControlSess p) (spControlStrm p)
     (spControlStop p) (spSid p)).

(** ** Admission *)

(* go: server/peer.go 258-275 mayAdmitPeerLocked *)
Definition mayAdmitPeerLocked (s : server) (existing : option nat) : bool :=
  if svDone s then false
  else match existing with
       | Some _ => true
       | None => Z.of_nat (size (svTable s)) <? maxPeerSessions
       end.

(** A new peer object; it is not in the table yet. *)
Definition alloc_peer (s : server) (p : srvPeer) : server * nat :=
  (MkServer (svCfg s) (<[svNextPeer s := p]> (svPeers s)) (S (svNextPeer s)) (svTable s) (svStats s)
     (svSingle s) (svDone s) (svOpen s) (svNextRes s) (svTasks s) (svLog s) (svData s), svNextPeer s).

(** A muxconn and, when the constructor succeeds, an smux session over it. *)
Definition open_session (s : server) (smux_ok : bool) : server * option (nat * nat) :=
  let '(s, conn) := open_res s in
  if smux_ok then let '(s, session) := open_res s in (s, Some (conn, session))
  else (close_res s [conn], None).

(** The peer, and the goroutines the caller starts after releasing the lock. *)
(* go: server/peer.go 315-351 getPeerSession *)
Definition getPeerSession (s : server) (peerID : string) (smux_ok : bool)
  : server * option nat * list action :=
  if bool_decide (peerID = "") || negb (scPeerLn (svCfg s)) then (s, None, [])
  else
    let found := svTable s !! peerID in
    let has_conn := match found with
                    | Some pid => bool_decide ((svPeers s !! pid) ≫= spConn <> None)
                    | None => false
                    end in
    if has_conn then (s, found, [])
    else if negb (mayAdmitPeerLocked s found) then (s, None, [])
    else
      match open_session s smux_ok with
      | (s, None) => (s, None, [])
      | (s, Some (conn, session)) =>
          let '(s, pid) :=
            match found with
            | Some pid => (s, pid)
            | None =>
                let '(s, pid) := alloc_peer s (srv_newPeerSession peerID (scPeerControl (svCfg s))) in
                (set_table s (<[peerID := pid]> (svTable s)), pid)
            end in
          match (svPeers s !! pid) ≫= fun p => attachData p conn session with
          | None => (close_res s [session; conn], Some pid, [])
          | Some p => (set_peers s (<[pid := p]> (svPeers s)), Some pid, [ASpawn [AServe pid]])
          end
      end.

(* go: server/peer.go 186-236 getOrCreatePeerControlSession *)
Definition getOrCreatePeerControlSession (s : server) (peerID : string) (smux_ok : bool)
  : server * option nat * list action :=
  if bool_decide (peerID = "") || negb (scPeerControl (svCfg s)) then (s, None, [])
  else
    let found := svTable s !! peerID in
    let has_control := match found with
                       | Some pid => bool_decide ((svPeers s !! pid) ≫= spControlConn <> None)
                       | None => false
                       end in
    if has_control then (s, found, [])
    else if bool_decide (found = None) && negb (mayAdmitPeerLocked s None) then (s, None, [])
    else
      match open_session s smux_ok with
      | (s, None) => (s, None, [])
      | (s, Some (conn, session)) =>
          let '(s, pid) :=
            match found with
            | Some pid => (s, pid)
            | None => alloc_peer s (srv_newPeerSession peerID true)
            end in
          match (svPeers s !! pid) ≫= fun p => srv_attachControl p conn session with
          | None => (close_res s [session; conn], Some pid, [])
          | Some p =>
              let '(p, first) := startHandshake p in
              let s := set_table (set_peers s (<[pid := p]> (svPeers s))) (<[peerID := pid]> (svTable s)) in
              (s, Some pid,
               if first then [ASpawn [AAcceptPeer pid 0]; ASpawn [AExpire pid]] else [])
          end
      end.

(** ** Pairs of sessions *)

(* go: tunnelcore/session.go 37-77 NewSessionPair *)
Definition NewSessionPair (s : server) (data_ok control_ok : bool) : server * option SessionPair :=
  let '(s, dataConn) := open_res s in
  let '(s, controlConn) :=
    if scControlPlane (svCfg s) then let '(s, c) := open_res s in (s, Some c) else (s, None) in
  if negb data_ok then (close_res s (dataConn :: opt_list controlConn), None)
  else
    let '(s, dataSession) := open_res s in
    match controlConn with
    | None => (s, Some (MkPair dataConn dataSession None dataSession))
    | Some c =>
        if control_ok then
          let '(s, controlSession) := open_res s in
          (s, Some (MkPair dataConn dataSession (Some c) controlSession))
        else (close_res s [c], Some (MkPair dataConn dataSession None dataSession))
    end.

(* go: server/link.go 274-284 installPairLocked *)
Definition installPairLocked (g : single) (p : SessionPair) : single :=
  MkSingle (Some p) (Some (prDataConn p)) (Some (prDataSession p)) (prControlConn p)
    (if HasIsolatedControl p then Some (prControlSession p) else None)
    (sgControlStrm g) (sgControlStop g) (sgSid g) (sgDevice g).

(* go: server/link.go 261-272 closeServerPair *)
Definition closeServerPair (p : option SessionPair) (session controlSession : option nat) : list nat :=
  match p with
  | Some p => pair_Close p
  | None =>
      opt_list session ++
      (if bool_decide (controlSession = session) then [] else opt_list controlSession)
  end.

(* go: server/link.go 218-220 staleReinstall *)
Definition staleReinstall (g : single) (dead : option nat) : bool :=
  bool_decide (dead <> None) && bool_decide (dead <> sgSession g) &&
  bool_decide (dead <> sgControlSess g).

(** ** Closing a peer *)

(* go: server/peer.go 492-505 removePeer *)
Definition removePeer (s : server) (pid : nat) (reason : string) : server * list action :=
  match svPeers s !! pid with
  | None => (s, [])
  | Some p =>
      if bool_decide (svTable s !! spID p = Some pid)
      then (set_table s (delete (spID p) (svTable s)), [AClose pid reason])
      else (s, [])
  end.

(* go: server/peer.go 507-510 closePeerSession *)
Definition closePeer_begin (s : server) (pid : nat) (reason : string) : server * list action :=
  match svPeers s !! pid with
  | None => (s, [])
  | Some p =>
      if spCloseOnce p then (s, [])
      else let '(p, td) := closeSnapshot p in
           (set_peers s (<[pid := signalReady p]> (svPeers s)), [AClosing td reason])
  end.

(* go: server/peer.go 511-533 closePeerSession *)
Definition closePeer_finish (s : server) (td : teardown) (reason : string) : server * list action :=
  (close_res s (opt_list (tdControlStop td) ++ opt_list (tdControlStrm td) ++
                opt_list (tdControlSess td) ++ opt_list (tdControlConn td) ++
                opt_list (tdSession td) ++ opt_list (tdConn td)),
   if bool_decide (tdSid td = "") then [] else [AOnClose (tdSid td) reason; ATrackClose (tdSid td) reason]).

(* go: server/peer.go 537-544 trackPeerOpen *)
Definition trackPeerOpen (s : server) (sid device : string) : server :=
  set_stats s (<[sid := device]> (svStats s)).

(* go: server/peer.go 546-559 trackPeerClose *)
Definition trackPeerClose (s : server) (sid : string) : server := set_stats s (delete sid (svStats s)).

(** The two callbacks for a session that ended; the empty identifier means that
    there was none. *)
Definition ended (sid reason : string) : list action :=
  if bool_decide (sid = "") then [] else [AOnClose sid reason; ATrackClose sid reason].

Definition close_all (table : gmap string nat) (reason : string) : list (list action) :=
  (fun e => [AClose e.2 reason]) <$> map_to_list table.

(* go: server/link.go 175-216 detachPeerRouting *)
Definition detachPeerRouting (s : server) : server * list action * list (list action) :=
  let g := svSingle s in
  let s' := set_single (set_table s ∅) no_single in
  (close_res s'
     (opt_list (sgControlStop g) ++ opt_list (sgControlStrm g) ++
      closeServerPair (sgPair g) (sgSession g) (sgControlSess g) ++
      match sgPair g with
      | None => opt_list (sgConn g) ++ opt_list (sgControlConn g)
      | Some _ => []
      end),
   ended (sgSid g) "reconnect", close_all (svTable s) "reconnect").

(* go: server/link.go 286-326 closeSession *)
Definition closeSession (s : server) : server * list action * list (list action) :=
  let g := svSingle s in
  let s' := set_single (set_table s ∅) no_single in
  (close_res s'
     (opt_list (sgControlStop g) ++
      match sgPair g with
      | Some p => pair_Close p
      | None => closeServerPair None (sgSession g) (sgControlSess g) ++
                opt_list (sgConn g) ++ opt_list (sgControlConn g)
      end),
   ended (sgSid g) "closed", close_all (svTable s) "closed").

(* go: server/link.go 167-173 reinstallPeerRouting *)
Definition reinstallPeerRouting : list action := [ADetach; AInstallControl].

(* go: server/link.go 111-115 reinstallSession *)
Definition reinstallSession (s : server) (dead : option nat) : list action :=
  if scPeerLn (svCfg s) then reinstallPeerRouting else [AReinstall dead].

(* go: server/link.go 98-109 handleReconnect *)
Definition handleReconnect (s : server) : list action :=
  if scPeerLn (svCfg s) then reinstallPeerRouting else reinstallSession s (sgSession (svSingle s)).

(* go: server/link.go 222-259 swapSession *)
Definition swapSession (s : server) (dead : option nat) (replacement : SessionPair)
  : server * list action :=
  let g := svSingle s in
  if scPeerLn (svCfg s) || staleReinstall g dead
  then (close_res s (pair_Close replacement), [])
  else
    let g' := installPairLocked g replacement in
    let g' := MkSingle (sgPair g') (sgConn g') (sgSession g') (sgControlConn g') (sgControlSess g')
                None None "" "" in
    (close_res (set_single s g')
       (opt_list (sgControlStop g) ++ closeServerPair (sgPair g) (sgSession g) (sgControlSess g) ++
        opt_list (sgControlStrm g)),
     ended (sgSid g) "reconnect" ++
     (if HasIsolatedControl replacement
      then [ASpawn [AAcceptSession OControl (prControlSession replacement) 0]] else [])).

(** ** Steps *)

(** What the environment answers to the action at hand. *)
Inductive answer :=
| Go
| Smux (data_ok control_ok : bool)
| AcceptFails (cancelled : bool)
| Accepted
| HsOk (sid device : string)
| HsTooLarge
| HsFails
| TimerFires
| ReadyCloses
| DoneCloses
| RunEnds (cancelled : bool)
| Cancelled
| NoRequest
| DialFails
| ProxyFails
| Connected.

(* go: server/serve.go 135-135 maxStaleRetries *)
Definition maxStaleRetries : nat := 3.

(** State, what the goroutine goes on with, goroutines started. *)
Abbreviation stepped := (server * list action * list (list action))%type.

Definition goes_on (s : server) (acts : list action) : option stepped := Some (s, acts, []).

(** [servePeer] from the point where the session identifier is known. *)
(* go: server/peer.go 417-422 servePeer *)
Definition enter_loop (p : srvPeer) (pid : nat) : list action :=
  match spSession p with Some session => [ALoop pid session (spSid p)] | None => [] end.

(** What the callers of [acceptHandshake] do when it fails, and when it succeeds. *)
Definition owner_fails (who : owner) : list action :=
  match who with OPeer pid => [ARemove pid "handshake failed"] | OControl => [] | OServe => [AServeSingle] end.
Definition owner_succeeds (who : owner) (session stream : nat) (sid device : string) : list action :=
  match who with
  | OPeer pid => [AEstablished pid stream sid device]
  | OControl => [ASetSingle session stream sid device; AStartControl session stream]
  | OServe => [ASetSingle session stream sid device; AStartControl session stream; AAcceptSingle session]
  end.

(* go: server/peer.go 353-393 acceptPeerHandshake *)
Definition acceptPeerHandshake (s : server) (a : action) (ans : answer) : option stepped :=
  match a, ans with
  | AAcceptPeer pid retry, AcceptFails cancelled =>
      match (svPeers s !! pid) ≫= spControlSess with
      | None => goes_on s []
      | Some _ => goes_on s (if cancelled then [] else [ARemove pid "handshake failed"])
      end
  | AAcceptPeer pid retry, Accepted =>
      match (svPeers s !! pid) ≫= spControlSess with
      | None => goes_on s []
      | Some _ => let '(s, stream) := open_res s in goes_on s [AHandshakePeer pid retry stream]
      end
  | AHandshakePeer pid retry stream, HsOk sid device =>
      match (svPeers s !! pid) ≫= fun p => setHandshake p sid device with
      | None => goes_on (close_res s [stream]) []
      | Some p =>
          goes_on (say (set_peers s (<[pid := signalReady p]> (svPeers s))) (LHandshake pid sid device))
            [AOnOpen sid device; ATrackOpen sid device; ASetControl pid stream]
      end
  | AHandshakePeer pid retry stream, HsTooLarge =>
      goes_on (close_res s [stream])
        (if (retry <? maxStaleRetries)%nat then [AAcceptPeer pid (S retry)]
         else [ARemove pid "handshake failed"])
  | AHandshakePeer pid retry stream, HsFails =>
      goes_on (close_res s [stream]) [ARemove pid "handshake failed"]
  | _, _ => None
  end.

(* go: server/serve.go 131-168 acceptHandshake *)
Definition acceptHandshake (s : server) (a : action) (ans : answer) : option stepped :=
  let gives_up s who session := goes_on (say s LResetPeer) (reinstallSession s (Some session) ++ owner_fails who) in
  match a, ans with
  | AAcceptSession who session retry, AcceptFails cancelled =>
      if cancelled then goes_on s (owner_fails who) else gives_up s who session
  | AAcceptSession who session retry, Accepted =>
      let '(s, stream) := open_res s in goes_on s [AHandshake who session retry stream]
  | AHandshake who session retry stream, HsOk sid device =>
      goes_on s ([AOnOpen sid device; ATrackOpen sid device] ++
                 owner_succeeds who session stream sid device)
  | AHandshake who session retry stream, HsTooLarge =>
      let s := close_res s [stream] in
      if (retry <? maxStaleRetries)%nat then goes_on s [AAcceptSession who session (S retry)]
      else gives_up s who session
  | AHandshake who session retry stream, HsFails => gives_up (close_res s [stream]) who session
  | _, _ => None
  end.

(* go: server/peer.go 395-411 startPeerControlLoop *)
Definition startPeerControlLoop (s : server) (pid stream : nat) : server * list action :=
  let '(s, stop) := open_res s in
  match (svPeers s !! pid) ≫= fun p => setControl p stream stop with
  | None => (close_res s [stop; stream], [])
  | Some p => (set_peers s (<[pid := p]> (svPeers s)), [ASpawn [ARun pid stream]])
  end.

(* go: server/peer.go 242-256 expirePeerHandshake *)
Definition expirePeerHandshake (s : server) (pid : nat) (ans : answer) : option stepped :=
  match svPeers s !! pid, ans with
  | Some p, ReadyCloses => if spReady p then goes_on s [] else None
  | Some p, DoneCloses => if svDone s then goes_on s [] else None
  | Some p, TimerFires =>
      goes_on s (if bool_decide (spSid p = "") then [ARemove pid "handshake timeout"] else [])
  | _, _ => None
  end.

(* go: server/peer.go 472-490 waitPeerHandshake *)
Definition waitPeerHandshake (s : server) (pid : nat) (ans : answer) : option stepped :=
  match svPeers s !! pid, ans with
  | Some p, ReadyCloses =>
      if spReady p then goes_on s (if bool_decide (spSid p = "") then [] else enter_loop p pid) else None
  | Some p, TimerFires => goes_on s [ARemove pid "handshake timeout"]
  | Some p, DoneCloses => if svDone s then goes_on s [ARemove pid "closed"] else None
  | _, _ => None
  end.

(** The head of [servePeer], with the head of [establishPeerSession]. *)
(* go: server/peer.go 413-420 servePeer *)
Definition servePeer (s : server) (pid : nat) : list action :=
  match svPeers s !! pid with
  | None => []
  | Some p =>
      if bool_decide (spSid p = "") then
        if spHasReady p then [AWait pid]
        else match spSession p with Some session => [AAcceptSession (OPeer pid) session 0] | None => [] end
      else enter_loop p pid
  end.

(* go: server/peer.go 446-466 establishPeerSession *)
Definition establishPeerSession (s : server) (pid stream : nat) (sid device : string)
  : server * list action :=
  match (svPeers s !! pid) ≫= fun p => setHandshake p sid device with
  | None => (close_res s [stream], [])
  | Some p =>
      let s := say (set_peers s (<[pid := p]> (svPeers s))) (LHandshake pid sid device) in
      let '(s, acts) := startPeerControlLoop s pid stream in
      (s, acts ++ match svPeers s !! pid with Some p => enter_loop p pid | None => [] end)
  end.

(* go: server/peer.go 423-436 servePeer *)
Definition serve_loop (s : server) (pid session : nat) (sid : string) (ans : answer) : option stepped :=
  match ans with
  | DoneCloses => if svDone s then goes_on s [] else None
  | AcceptFails _ => goes_on s (if svDone s then [] else [ARemove pid "closed"])
  | Accepted =>
      let '(s, stream) := open_data s in
      goes_on s [ASpawn [AHandleStream pid session stream sid]; ALoop pid session sid]
  | _ => None
  end.

(** The session identifier the stream is served under. *)
(* go: server/serve.go 194-196 handleStream *)
Definition handleStream (s : server) (sid : string) : string :=
  if bool_decide (sid = "") then sgSid (svSingle s) else sid.

(** What [handleStream] does from its first line on: the request is read, and the
    deferred [stream.Close] runs last, whatever happens; the goroutine that
    closes the stream when the context ends is not tracked. *)
(* go: server/serve.go 192-229 handleStream *)
Definition handle_tasks (stream : nat) : list action * list (list action) :=
  ([AReadRequest stream; ACloseData stream], [[AWatch stream]]).

(** The request ends without a [connect] command (the stream breaks, times out or
    sends too much), or is dispatched.  The connection to the target, or to the
    proxy, is closed by [dial] itself when the proxy refuses, else by the deferred
    [conn.Close] of [relay_dispatch]. *)
(* go: server/egress.go 43-88 dispatch *)
Definition relay_dispatch (s : server) (stream : nat) (ans : answer) : option stepped :=
  match ans with
  | NoRequest | DialFails => goes_on s []
  | ProxyFails => let '(s, conn) := open_data s in goes_on s [ACloseData conn]
  | Connected => let '(s, conn) := open_data s in goes_on s [ARelay stream conn; ACloseData conn]
  | _ => None
  end.

(* go: server/serve.go 197-206 handleStream *)
Definition watch_stream (s : server) (stream : nat) (ans : answer) : option stepped :=
  match ans with
  | Cancelled => goes_on (close_data s stream) []
  | Go => goes_on s []
  | _ => None
  end.

(* go: server/link.go 78-96 installControlSession *)
Definition installControlSession (s : server) (smux_ok : bool) : server * list action :=
  if scPeerControl (svCfg s) || negb (scControlPlane (svCfg s)) then (s, [])
  else
    match open_session s smux_ok with
    | (s, None) => (s, [])
    | (s, Some (conn, session)) =>
        let g := svSingle s in
        (set_single s (MkSingle (sgPair g) (sgConn g) (sgSession g) (Some conn) (Some session)
                         (sgControlStrm g) (sgControlStop g) (sgSid g) (sgDevice g)),
         [ASpawn [AAcceptSession OControl session 0]])
    end.

(* go: server/link.go 59-76 installSession *)
Definition installSession (s : server) (data_ok control_ok : bool) : server * list action :=
  match NewSessionPair s data_ok control_ok with
  | (s, None) => (s, [])
  | (s, Some p) =>
      (set_single s (installPairLocked (svSingle s) p),
       if HasIsolatedControl p then [ASpawn [AAcceptSession OControl (prControlSession p) 0]] else [])
  end.

(* go: server/link.go 116-137 reinstallSession *)
Definition reinstall_close (s : server) : server :=
  let g := svSingle s in
  close_res s match sgPair g with
              | Some p => pair_Close p
              | None => opt_list (sgConn g) ++ opt_list (sgControlConn g)
              end.

(* go: server/link.go 138-153 reinstallSession *)
Definition reinstall_replace (s : server) (dead : option nat) (data_ok control_ok : bool)
  : server * list action :=
  match NewSessionPair s data_ok control_ok with
  | (s, None) => (s, [])
  | (s, Some p) => (s, [ASwap dead p])
  end.

(* go: server/serve.go 178-190 acceptSingletonHandshake *)
Definition acceptSingleton_set (s : server) (sid device : string) : server :=
  let g := svSingle s in
  set_single s (MkSingle (sgPair g) (sgConn g) (sgSession g) (sgControlConn g) (sgControlSess g)
                  (sgControlStrm g) (sgControlStop g) sid device).

(* go: server/health.go 13-38 startControlLoop *)
Definition startControlLoop (s : server) (session stream : nat) : server * list (list action) :=
  let '(s, stop) := open_res s in
  let g := svSingle s in
  (set_single s (MkSingle (sgPair g) (sgConn g) (sgSession g) (sgControlConn g) (sgControlSess g)
                   (Some stream) (Some stop) (sgSid g) (sgDevice g)),
   [[ARunSingle session stream]]).

(** One round of the accept loop; [None] while it waits for a state change. *)
(* go: server/serve.go 61-80 serveSingle *)
Definition serveSingle (s : server) (ans : answer) : option stepped :=
  let g := svSingle s in
  match ans, sgSession g with
  | Cancelled, _ => goes_on s []
  | Go, Some session =>
      let ready := bool_decide (sgSid g <> "") in
      if negb ready && bool_decide (sgControlConn g <> None) then None
      else goes_on s (if ready then [AAcceptSingle session] else [AAcceptSession OServe session 0])
  | _, _ => None
  end.

(* go: server/serve.go 81-103 handleAcceptError *)
Definition accept_single (s : server) (session : nat) (ans : answer) : option stepped :=
  match ans with
  | AcceptFails true => goes_on s []
  | AcceptFails false =>
      let hadSession := bool_decide (sgSid (svSingle s) <> "") in
      goes_on s (reinstallSession s (Some session) ++
                 (if hadSession then [AReconnect] else []) ++ [AServeSingle])
  | Accepted =>
      let '(s, stream) := open_data s in goes_on s [ASpawn [AHandleSingle session stream]; AServeSingle]
  | _ => None
  end.

(** The end of a control loop: [ControlRunner.Run] and the two [OnDeath]s. *)
(* go: tunnelcore/control.go 33-46 Run *)
Definition run_ends (s : server) (death : list action) (stream : nat) (ans : answer) : option stepped :=
  match ans with
  | RunEnds cancelled => goes_on s ((if cancelled then [] else death) ++ [ARelease stream])
  | _ => None
  end.

(** [ASpawn] is [goTracked]: nothing starts once the server is stopping. *)
(* go: server/peer.go 289-304 goTracked *)
Definition goTracked (s : server) (task : list action) : list (list action) :=
  if svDone s then [] else [task].

(** A stream whose handler is not started stays with its session. *)
Definition refuse (s : server) (task : list action) : server :=
  let add session stream :=
    let d := svData s in set_data s (MkData (dsOpen d) (dsNext d) (dsRefused d ++ [(session, stream)])) in
  if svDone s then
    match task with
    | [AHandleStream _ session stream _] => add session stream
    | [AHandleSingle session stream] => add session stream
    | _ => s
    end
  else s.

(** The conn of a peer as [PushData] finds it. *)
Definition push_to (s : server) (conn : option nat) (data : bytes) : server :=
  match conn with Some c => say s (LPush c data) | None => s end.

Definition with_acts (r : server * list action) : option stepped := Some (r.1, r.2, []).

(** One action of a goroutine. *)
Definition act (s : server) (a : action) (ans : answer) : option stepped :=
  match a with
  | AAcceptPeer _ _ | AHandshakePeer _ _ _ => acceptPeerHandshake s a ans
  | AAcceptSession _ _ _ | AHandshake _ _ _ _ => acceptHandshake s a ans
  | AExpire pid => expirePeerHandshake s pid ans
  | AWait pid => waitPeerHandshake s pid ans
  | ALoop pid session sid => serve_loop s pid session sid ans
  | AReadRequest stream => relay_dispatch s stream ans
  | AWatch stream => watch_stream s stream ans
  | AServeSingle => serveSingle s ans
  | AAcceptSingle session => accept_single s session ans
  | ARun pid stream => run_ends s [ARemove pid "liveness"] stream ans
  | ARunSingle session stream =>
      run_ends s ([AStartReset] ++ reinstallSession s (Some session) ++ [AReconnect]) stream ans
  | AInstallControl =>
      match ans with Smux ok _ => with_acts (installControlSession s ok) | _ => None end
  | AReplace dead =>
      match ans with Smux ok cok => with_acts (reinstall_replace s dead ok cok) | _ => None end
  | _ =>
      match ans with
      | Go =>
          match a with
          | AOnOpen sid device => goes_on (say s (LOpen sid device)) []
          | ATrackOpen sid device => goes_on (trackPeerOpen s sid device) []
          | ASetControl pid stream => with_acts (startPeerControlLoop s pid stream)
          | AServe pid => goes_on s (servePeer s pid)
          | AEstablished pid stream sid device => with_acts (establishPeerSession s pid stream sid device)
          | AHandleStream pid _ stream sid =>
              let '(acts, ts) := handle_tasks stream in
              Some (say s (LServe pid (handleStream s sid)), acts, ts)
          | ARelay _ _ => goes_on s []
          | ACloseData r => goes_on (close_data s r) []
          | ARelease stream => goes_on (close_res s [stream]) []
          | ARemove pid reason => with_acts (removePeer s pid reason)
          | AClose pid reason => with_acts (closePeer_begin s pid reason)
          | AClosing td reason => with_acts (closePeer_finish s td reason)
          | AOnClose sid reason => goes_on (say s (LClose sid reason)) []
          | ATrackClose sid reason => goes_on (trackPeerClose s sid) []
          | ADetach => Some (detachPeerRouting s)
          | ASpawn task => Some (refuse s task, [], goTracked s task)
          | APushData pid data => goes_on (push_to s ((svPeers s !! pid) ≫= spConn) data) []
          | APushControl pid data => goes_on (push_to s ((svPeers s !! pid) ≫= spControlConn) data) []
          | AReinstall dead => goes_on (reinstall_close s) [AReplace dead]
          | ASwap dead replacement => with_acts (swapSession s dead replacement)
          | ASetSingle session stream sid device => goes_on (acceptSingleton_set s sid device) []
          | AStartControl session stream =>
              let '(s, started) := startControlLoop s session stream in Some (s, [], started)
          | AHandleSingle session stream =>
              let '(acts, ts) := handle_tasks stream in
              Some (say s (LServeSingle session (sgSid (svSingle s))), acts, ts)
          | AStartReset => goes_on (say s LResetPeer) []
          | AReconnect => goes_on (say s LReconnect) []
          | _ => None
          end
      | _ => None
      end
  end.

(** What can happen to a server: a data or control frame of a peer arrives, the
    provider reconnected, the [done] channel is closed, [closeSession] runs (from
    [shutdown] or when the context ends), the link comes up, or a goroutine does
    its next action. *)
Inductive srv_event :=
| EvPeerData (peerID : string) (data : bytes) (smux_ok : bool)
| EvPeerControl (peerID : string) (data : bytes) (smux_ok : bool)
| EvProvider
| EvDone
| EvCloseSession
| EvBringUp (data_ok control_ok : bool)
| EvTask (i : nat) (ans : answer).

Definition add_tasks (s : server) (ts : list (list action)) : server :=
  set_tasks s (svTasks s ++ ts).

(* go: server/peer.go 306-313 onPeerData *)
Definition onPeerData (s : server) (peerID : string) (data : bytes) (smux_ok : bool) : server :=
  match getPeerSession s peerID smux_ok with
  | (s', None, acts) => set_tasks (push_to s' (sgConn (svSingle s')) data) (svTasks s ++ [acts])
  | (s', Some pid, acts) => set_tasks s' (svTasks s ++ [acts ++ [APushData pid data]])
  end.

(* go: server/peer.go 176-184 onPeerControlData *)
Definition onPeerControlData (s : server) (peerID : string) (data : bytes) (smux_ok : bool) : server :=
  match getOrCreatePeerControlSession s peerID smux_ok with
  | (s', None, acts) => set_tasks s' (svTasks s ++ [acts])
  | (s', Some pid, acts) => set_tasks s' (svTasks s ++ [acts ++ [APushControl pid data]])
  end.

(** The sessions [bringUpLink] installs; [serve] starts after it. *)
(* go: server/link.go 45-49 bringUpLink *)
Definition bringUpLink (s : server) (data_ok control_ok : bool) : server :=
  if scPeerLn (svCfg s) then
    let '(s, acts) := installControlSession s data_ok in add_tasks s [acts]
  else
    let '(s, acts) := installSession s data_ok control_ok in add_tasks s [acts; [AServeSingle]].

Definition with_tasks (r : stepped) : server :=
  let '(s, acts, ts) := r in add_tasks s ([acts] ++ ts).

Definition srv_step (s : server) (ev : srv_event) : option server :=
  match ev with
  | EvPeerData peerID data ok => Some (onPeerData s peerID data ok)
  | EvPeerControl peerID data ok => Some (onPeerControlData s peerID data ok)
  | EvProvider => Some (add_tasks s [handleReconnect s])
  | EvDone =>
      Some (MkServer (svCfg s) (svPeers s) (svNextPeer s) (svTable s) (svStats s) (svSingle s) true
              (svOpen s) (svNextRes s) (svTasks s) (svLog s) (svData s))
  | EvCloseSession => Some (with_tasks (closeSession s))
  | EvBringUp ok cok => Some (bringUpLink s ok cok)
  | EvTask i ans =>
      match svTasks s !! i with
      | Some (a :: rest) =>
          match act s a ans with
          | Some (s', acts, ts) =>
              Some (set_tasks s' (<[i := acts ++ rest]> (svTasks s) ++ ts))
          | None => None
          end
      | _ => None
      end
  end.

Fixpoint srv_run (s : server) (evs : list srv_event) : option server :=
  match evs with
  | [] => Some s
  | ev :: rest => match srv_step s ev with Some s' => srv_run s' rest | None => None end
  end.

(** Every goroutine has finished. *)
Definition quiescent (s : server) : Prop := Forall (fun t => t = []) (svTasks s).
