(* ===== verification/ServerFacts.v ===== *)
(** * ServerFacts: the invariant of a server that routes by peer

    The invariant speaks about the multiset of actions the goroutines have still
    to do: every open resource belongs to a peer that is not closed or to an
    action that will close it, every peer that is not closed is in the table or
    about to be closed, and the right to install a peer's control stream exists
    at most once. *)

From S2P Require Import Prelude Server.

(** The transports that route by peer: with a control plane per peer
    (vp8channel) or without any control plane (datachannel). *)
Definition peer_mode (c : srvConfig) : Prop :=
  scPeerLn c = true /\ (scPeerControl c = true \/ scControlPlane c = false).

Definition peer_res (p : srvPeer) : list nat :=
  opt_list (spControlStop p) ++ opt_list (spControlStrm p) ++ opt_list (spControlSess p) ++
  opt_list (spControlConn p) ++ opt_list (spSession p) ++ opt_list (spConn p).

Definition td_res (td : teardown) : list nat :=
  opt_list (tdControlStop td) ++ opt_list (tdControlStrm td) ++ opt_list (tdControlSess td) ++
  opt_list (tdControlConn td) ++ opt_list (tdSession td) ++ opt_list (tdConn td).

(** The resources an action is going to close or hand on. *)
Definition holding (a : action) : list nat :=
  match a with
  | AHandshakePeer _ _ r | ASetControl _ r | AEstablished _ r _ _ | AHandshake _ _ _ r | ARelease r => [r]
  | AClosing td _ => td_res td
  | _ => []
  end.

(** The right to install the control stream of [pid]. *)
Definition leaf_token (c : srvConfig) (pid : nat) (a : action) : nat :=
  let one (pid' : nat) := if bool_decide (pid' = pid) then 1%nat else 0%nat in
  match a with
  | AAcceptPeer pid' _ | AHandshakePeer pid' _ _ | ASetControl pid' _
  | AEstablished pid' _ _ _ | AAcceptSession (OPeer pid') _ _ | AHandshake (OPeer pid') _ _ _ => one pid'
  | AServe pid' => if scPeerControl c then 0%nat else one pid'
  | _ => 0%nat
  end.

Definition token (c : srvConfig) (pid : nat) (a : action) : nat :=
  match a with ASpawn [b] => leaf_token c pid b | _ => leaf_token c pid a end.

Definition tokens (c : srvConfig) (pid : nat) (l : list action) : nat := sum_list_with (token c pid) l.

(** The stream is installed already, or the right to do so was not yet given. *)
Definition used (p : srvPeer) : nat :=
  (match spControlStrm p, spControlStop p with None, None => 0 | _, _ => 1 end +
   (if (if spHasReady p then spHandshakeOnce p else bool_decide (spConn p <> None)) then 0 else 1))%nat.

Definition shaken (s : server) (pid : nat) (sid : string) : Prop :=
  exists device, LHandshake pid sid device ∈ svLog s.

Definition received (h : list srv_event) (control : bool) (peerID : string) (data : bytes) : Prop :=
  exists ok, (if control then EvPeerControl peerID data ok else EvPeerData peerID data ok) ∈ h.

(** An action of a server that routes by peer, and what is known when it is due. *)
Definition leaf_ok (h : list srv_event) (s : server) (a : action) : Prop :=
  match a with
  | AAcceptPeer pid _ | AHandshakePeer pid _ _ | ASetControl pid _ | AExpire pid | AServe pid
  | AWait pid | ARun pid _ | ARemove pid _ | AEstablished pid _ _ _
  | AAcceptSession (OPeer pid) _ _ | AHandshake (OPeer pid) _ _ _ => is_Some (svPeers s !! pid)
  | AClose pid _ => exists p, svPeers s !! pid = Some p /\ svTable s !! spID p <> Some pid
  | APushData pid data => exists p, svPeers s !! pid = Some p /\ received h false (spID p) data
  | APushControl pid data => exists p, svPeers s !! pid = Some p /\ received h true (spID p) data
  | ALoop pid _ sid => is_Some (svPeers s !! pid) /\ shaken s pid sid
  | AHandleStream pid _ _ sid => shaken s pid sid
  | AClosing td _ => tdSid td <> "" -> exists pid, shaken s pid (tdSid td)
  | AOnClose sid _ => exists pid, shaken s pid sid
  | AOnOpen _ _ | ATrackOpen _ _ | ATrackClose _ _ | ARelease _ | ADetach | AInstallControl
  | AStartReset | AReconnect | AReadRequest _ | ARelay _ _ | AWatch _ | ACloseData _ => True
  | _ => False
  end.

Definition act_ok (h : list srv_event) (s : server) (a : action) : Prop :=
  match a with ASpawn [b] => leaf_ok h s b /\ holding b = [] | ASpawn _ => False | _ => leaf_ok h s a end.

Definition log_ok (h : list srv_event) (s : server) (c : srv_call) : Prop :=
  match c with
  | LServe pid sid => shaken s pid sid
  | LClose sid _ => exists pid, shaken s pid sid
  | LPush conn data => exists pid p, svPeers s !! pid = Some p /\
      ((spConn p = Some conn /\ received h false (spID p) data) \/
       (spControlConn p = Some conn /\ received h true (spID p) data))
  | LServeSingle _ _ => False
  | _ => True
  end.

Definition peer_conns (p : srvPeer) : list nat := opt_list (spConn p) ++ opt_list (spControlConn p).

Record srv_inv (h : list srv_event) (s : server) (l : list action) : Prop := {
  iv_mode : peer_mode (svCfg s);
  iv_single : svSingle s = no_single;
  iv_size : Z.of_nat (size (svTable s)) <= maxPeerSessions;
  iv_next : forall pid p, svPeers s !! pid = Some p -> (pid < svNextPeer s)%nat;
  iv_table : forall k pid, svTable s !! k = Some pid ->
    exists p, svPeers s !! pid = Some p /\ spID p = k /\ spCloseOnce p = false;
  iv_peer : forall pid p, svPeers s !! pid = Some p ->
    spClosed p = spCloseOnce p /\ spHasReady p = scPeerControl (svCfg s) /\
    (spSid p <> "" -> shaken s pid (spSid p)) /\
    Forall (fun c => (c < svNextRes s)%nat) (peer_conns p) /\
    (tokens (svCfg s) pid l + used p <= 1)%nat /\
    (spCloseOnce p = false ->
     svTable s !! spID p = Some pid \/ exists reason, AClose pid reason ∈ l);
  iv_disjoint : forall pid pid' p p' c, svPeers s !! pid = Some p -> svPeers s !! pid' = Some p' ->
    c ∈ peer_conns p -> c ∈ peer_conns p' -> pid = pid';
  iv_own : forall r, r ∈ svOpen s -> (exists a, a ∈ l /\ r ∈ holding a) \/
    exists pid p, svPeers s !! pid = Some p /\ spCloseOnce p = false /\ r ∈ peer_res p;
  iv_acts : Forall (act_ok h s) l;
  iv_log : Forall (log_ok h s) (svLog s);
}.

(** ** What later states keep *)

Record peer_later (p p' : srvPeer) : Prop := {
  pl_id : spID p' = spID p;
  pl_ready : spHasReady p' = spHasReady p;
  pl_conn : forall c, spConn p = Some c -> spConn p' = Some c;
  pl_control : forall c, spControlConn p = Some c -> spControlConn p' = Some c;
}.

#[export] Instance peer_later_refl : Reflexive peer_later.
Proof. by constructor. Qed.

Record later (s s' : server) : Prop := {
  lt_peers : forall pid p, svPeers s !! pid = Some p ->
    exists p', svPeers s' !! pid = Some p' /\ peer_later p p';
  lt_table : forall pid p, svPeers s !! pid = Some p ->
    svTable s !! spID p <> Some pid -> svTable s' !! spID p <> Some pid;
  lt_log : forall c, c ∈ svLog s -> c ∈ svLog s';
}.

#[export] Instance later_refl : Reflexive later.
Proof. constructor; eauto using peer_later_refl. Qed.

Lemma shaken_later s s' pid sid : later s s' -> shaken s pid sid -> shaken s' pid sid.
Proof. intros Hl (d & Hd). exists d. by apply (lt_log _ _ Hl). Qed.

Lemma received_app h ev ctl id data : received h ctl id data -> received (h ++ [ev]) ctl id data.
Proof. intros (ok & Hok). exists ok. apply elem_of_app. by left. Qed.

Lemma leaf_ok_later h s s' a : later s s' -> leaf_ok h s a -> leaf_ok h s' a.
Proof.
  intros Hl. assert (Hp : forall pid, is_Some (svPeers s !! pid) -> is_Some (svPeers s' !! pid)).
  { intros pid (p & Hp). apply (lt_peers _ _ Hl) in Hp as (p' & -> & _). eauto. }
  destruct a; simpl; eauto using shaken_later; try (destruct who; by eauto).
  1: intros [? ?]; eauto using shaken_later.
  - intros (p & Hpp & Ht). pose proof (lt_table _ _ Hl _ _ Hpp Ht) as Ht'.
    apply (lt_peers _ _ Hl) in Hpp as (p' & -> & Hpl). exists p'. by rewrite (pl_id _ _ Hpl).
  - intros Hs Hne. destruct (Hs Hne) as (pid & Hsh). eauto using shaken_later.
  - intros (pid & Hsh). eauto using shaken_later.
  - intros (p & Hpp & Hr). apply (lt_peers _ _ Hl) in Hpp as (p' & -> & Hpl). exists p'.
    by rewrite (pl_id _ _ Hpl).
  - intros (p & Hpp & Hr). apply (lt_peers _ _ Hl) in Hpp as (p' & -> & Hpl). exists p'.
    by rewrite (pl_id _ _ Hpl).
Qed.

Lemma act_ok_later h s s' a : later s s' -> act_ok h s a -> act_ok h s' a.
Proof.
  intros Hl. destruct a; try by apply leaf_ok_later.
  destruct task as [|b [|? ?]]; simpl; [done| |done]. intros [Hb ?]. eauto using leaf_ok_later.
Qed.

Lemma log_ok_later h s s' c : later s s' -> log_ok h s c -> log_ok h s' c.
Proof.
  intros Hl. destruct c; simpl; eauto using shaken_later.
  - intros (pid & Hsh). eauto using shaken_later.
  - intros (pid & p & Hp & Hd). apply (lt_peers _ _ Hl) in Hp as (p' & Hp' & Hpl).
    exists pid, p'. split; [done|]. rewrite (pl_id _ _ Hpl).
    destruct Hd as [[Hc Hr]|[Hc Hr]]; [left|right]; split; try done.
    + by apply (pl_conn _ _ Hpl).
    + by apply (pl_control _ _ Hpl).
Qed.

Lemma act_ok_history h ev s a : act_ok h s a -> act_ok (h ++ [ev]) s a.
Proof.
  assert (Hleaf : forall b, leaf_ok h s b -> leaf_ok (h ++ [ev]) s b).
  { intros b. destruct b; simpl; try done; intros (p & ? & ?); exists p; eauto using received_app. }
  destruct a; try by apply Hleaf.
  destruct task as [|b [|? ?]]; simpl; [done| |done]. intros [Hb ?]. auto.
Qed.

Lemma log_ok_history h ev s c : log_ok h s c -> log_ok (h ++ [ev]) s c.
Proof.
  destruct c; simpl; try done. intros (pid & p & Hp & [[Hc Hr]|[Hc Hr]]); exists pid, p;
    eauto using received_app.
Qed.

(** ** Tokens *)

Lemma tokens_app c pid l k : tokens c pid (l ++ k) = (tokens c pid l + tokens c pid k)%nat.
Proof. apply sum_list_with_app. Qed.

Lemma tokens_perm c pid l k : l ≡ₚ k -> tokens c pid l = tokens c pid k.
Proof. induction 1; simpl; lia. Qed.

(** Nobody holds a token of a peer that does not exist. *)
Lemma tokens_unknown h s c pid l :
  svPeers s !! pid = None -> Forall (act_ok h s) l -> tokens c pid l = 0%nat.
Proof.
  intros Hn. assert (Hleaf : forall b, leaf_ok h s b -> leaf_token c pid b = 0%nat).
  { assert (Hne : forall n, is_Some (svPeers s !! n) -> bool_decide (n = pid) = false).
    { intros n [? Hs]. apply bool_decide_eq_false. congruence. }
    intros b. destruct b; simpl; try done; try (by intros ->%Hne).
    - intros ->%Hne. by destruct (scPeerControl c).
    - destruct who; [by intros ->%Hne|done|done].
    - destruct who; [by intros ->%Hne|done|done]. }
  induction 1 as [|a l Ha _ IH]; [done|]. simpl. rewrite IH, Nat.add_0_r.
  destruct a; try by apply Hleaf. destruct task as [|b [|? ?]]; simpl in *; [done| |done].
  apply Hleaf, Ha.
Qed.

(** ** Primitive changes *)

Lemma inv_perm h s l k : l ≡ₚ k -> srv_inv h s l -> srv_inv h s k.
Proof.
  intros Hp [Hm Hs Hz Hn Ht Hpe Hd Ho Ha Hl]. split; try done.
  - intros pid p Hpp. rewrite <- (tokens_perm _ _ _ _ Hp). setoid_rewrite <- Hp. by apply Hpe.
  - intros r Hr. setoid_rewrite <- Hp. by apply Ho.
  - by rewrite <- Hp.
Qed.

Lemma inv_history h ev s l : srv_inv h s l -> srv_inv (h ++ [ev]) s l.
Proof.
  intros [Hm Hs Hz Hn Ht Hpe Hd Ho Ha Hl]. split; try done.
  - eapply Forall_impl; [exact Ha|]. intros. by apply act_ok_history.
  - eapply Forall_impl; [exact Hl|]. intros. by apply log_ok_history.
Qed.

(** Replacing the actions [a] by the actions [b]. *)
Lemma inv_exchange h s a b l :
  srv_inv h s (a ++ l) -> Forall (act_ok h s) b ->
  (forall pid, (tokens (svCfg s) pid b <= tokens (svCfg s) pid a)%nat) ->
  (forall r x, r ∈ svOpen s -> x ∈ a -> r ∈ holding x -> exists y, y ∈ b /\ r ∈ holding y) ->
  (forall pid reason, AClose pid reason ∈ a -> exists reason', AClose pid reason' ∈ b) ->
  srv_inv h s (b ++ l).
Proof.
  intros [Hm Hs Hz Hn Ht Hpe Hd Ho Ha Hl] Hb Htok Hhold Hclose. split; try done.
  - intros pid p Hp. destruct (Hpe pid p Hp) as (H1 & H2 & H3 & H4 & H5 & H6).
    repeat split; try done.
    + specialize (Htok pid). rewrite tokens_app in *. lia.
    + intros Hc. destruct (H6 Hc) as [?|(re & Hin)]; [by left|right].
      apply elem_of_app in Hin as [Hin|Hin].
      * destruct (Hclose _ _ Hin) as (re' & ?). exists re'. apply elem_of_app. by left.
      * exists re. apply elem_of_app. by right.
  - intros r Hr. destruct (Ho r Hr) as [(x & Hx & Hrx)|?]; [left|by right].
    apply elem_of_app in Hx as [Hx|Hx].
    + destruct (Hhold _ _ Hr Hx Hrx) as (y & ? & ?). exists y. split; [apply elem_of_app; by left|done].
    + exists x. split; [apply elem_of_app; by right|done].
  - apply Forall_app in Ha as [_ Ha]. by apply Forall_app.
Qed.

(** Changes of the state that leave peers, table and actions alone. *)
Lemma inv_state h s s' l :
  srv_inv h s l -> svCfg s' = svCfg s -> svPeers s' = svPeers s -> svNextPeer s' = svNextPeer s ->
  svTable s' = svTable s -> svSingle s' = svSingle s -> (svNextRes s <= svNextRes s')%nat ->
  (forall r, r ∈ svOpen s' -> r ∈ svOpen s \/ exists a, a ∈ l /\ r ∈ holding a) ->
  (exists new, svLog s' = svLog s ++ new /\ Forall (log_ok h s') new) ->
  srv_inv h s' l.
Proof.
  intros [Hm Hs Hz Hn Ht Hpe Hd Ho Ha Hl] Hc Hp Hnp Htb Hsg Hnr Hop (new & Hlog & Hnew).
  assert (Hlt : later s s').
  { constructor.
    - intros pid p Hpp. exists p. rewrite Hp. split; [done|reflexivity].
    - intros pid p _. by rewrite Htb.
    - intros c Hin. rewrite Hlog. apply elem_of_app. by left. }
  split; try (by rewrite ?Hc, ?Hsg, ?Hp, ?Htb, ?Hnp).
  - intros pid p. rewrite Hp, Hc, Htb. intros Hpp.
    destruct (Hpe pid p Hpp) as (H1 & H2 & H3 & H4 & H5 & H6). repeat split; try done.
    + intros Hne. apply (shaken_later s); auto.
    + eapply Forall_impl; [exact H4|]. simpl. lia.
  - intros r Hr. rewrite Hp. destruct (Hop r Hr) as [Hr'|?]; [by apply Ho|by left].
  - eapply Forall_impl; [exact Ha|]. intros a. by apply act_ok_later.
  - rewrite Hlog. apply Forall_app. split; [|done].
    eapply Forall_impl; [exact Hl|]. intros c. by apply log_ok_later.
Qed.

Lemma inv_say h s l c : srv_inv h s l -> log_ok h (say s c) c -> srv_inv h (say s c) l.
Proof.
  intros Hi Hc. apply (inv_state h s _ l Hi); try done; [by left|].
  exists [c]. split; [done|]. by constructor.
Qed.

Lemma inv_stats h s l m : srv_inv h s l -> srv_inv h (set_stats s m) l.
Proof.
  intros Hi. apply (inv_state h s _ l Hi); try done; [by left|]. exists []. by rewrite app_nil_r.
Qed.

Lemma inv_tasks h s l ts : srv_inv h s l -> srv_inv h (set_tasks s ts) l.
Proof.
  intros Hi. apply (inv_state h s _ l Hi); try done; [by left|]. exists []. by rewrite app_nil_r.
Qed.

Lemma inv_data h s l d : srv_inv h s l -> srv_inv h (set_data s d) l.
Proof.
  intros Hi. apply (inv_state h s _ l Hi); try done; [by left|]. exists []. by rewrite app_nil_r.
Qed.

Lemma inv_close h s l rs : srv_inv h s l -> srv_inv h (close_res s rs) l.
Proof.
  intros Hi. apply (inv_state h s _ l Hi); try done.
  - intros r Hr. left. simpl in Hr. set_solver.
  - exists []. by rewrite app_nil_r.
Qed.

(** A resource just opened belongs to whoever will release it. *)
Lemma inv_open h s l :
  srv_inv h s l -> srv_inv h (open_res s).1 (ARelease (svNextRes s) :: l).
Proof.
  intros Hi. assert (Hi' : srv_inv h s (ARelease (svNextRes s) :: l)).
  { apply (inv_exchange h s [] [_] l); [done|repeat constructor|..]; simpl.
    - lia.
    - by intros r x _ []%elem_of_nil.
    - by intros pid reason []%elem_of_nil. }
  apply (inv_state h s _ _ Hi'); try done; simpl; [lia| |].
  - intros r [->%elem_of_singleton|?]%elem_of_union; [right|by left].
    eexists. split; [by left|]. by left.
  - exists []. by rewrite app_nil_r.
Qed.

(** ** Changing one peer *)

(** [p'] may replace [p] as peer [pid] while the actions [a] give way to [b]. *)
Record peer_change (h : list srv_event) (s : server) (pid : nat) (p p' : srvPeer)
    (a b : list action) : Prop := {
  pc_later : peer_later p p';
  pc_closed : spClosed p' = spCloseOnce p';
  pc_once : spCloseOnce p = true -> spCloseOnce p' = true;
  pc_detached : spCloseOnce p' = false \/ svTable s !! spID p <> Some pid;
  pc_sid : spSid p' <> "" -> shaken s pid (spSid p');
  pc_conns : forall c, c ∈ peer_conns p' -> c ∈ peer_conns p \/
    ((c < svNextRes s)%nat /\
     forall pid2 p2, pid2 <> pid -> svPeers s !! pid2 = Some p2 -> c ∉ peer_conns p2);
  pc_tokens : (tokens (svCfg s) pid b + used p' <= tokens (svCfg s) pid a + used p)%nat;
  pc_others : forall pid2, pid2 <> pid -> (tokens (svCfg s) pid2 b <= tokens (svCfg s) pid2 a)%nat;
  pc_acts : Forall (act_ok h (set_peers s (<[pid := p']> (svPeers s)))) b;
  pc_own : forall r, r ∈ svOpen s ->
    (exists x, x ∈ a /\ r ∈ holding x) \/ (spCloseOnce p = false /\ r ∈ peer_res p) ->
    (exists y, y ∈ b /\ r ∈ holding y) \/ (spCloseOnce p' = false /\ r ∈ peer_res p');
  pc_close : forall pid2 reason, AClose pid2 reason ∈ a ->
    (exists reason', AClose pid2 reason' ∈ b) \/ (pid2 = pid /\ spCloseOnce p' = true);
}.

Lemma later_peer s pid p p' :
  svPeers s !! pid = Some p -> peer_later p p' -> later s (set_peers s (<[pid := p']> (svPeers s))).
Proof.
  intros Hp Hl. constructor; simpl; try done.
  intros pid2 p2 Hp2. destruct (decide (pid2 = pid)) as [->|Hne].
  - rewrite lookup_insert_eq. exists p'. split; [done|]. by simplify_eq.
  - rewrite lookup_insert_ne by done. exists p2. split; [done|reflexivity].
Qed.

Lemma inv_peer h s pid p p' a b l :
  srv_inv h s (a ++ l) -> svPeers s !! pid = Some p -> peer_change h s pid p p' a b ->
  srv_inv h (set_peers s (<[pid := p']> (svPeers s))) (b ++ l).
Proof.
  intros [Hm Hs Hz Hn Ht Hpe Hd Ho Ha Hl] Hp [C1 C2 C3 C4 C5 C6 C7 C8 C9 C10 C11].
  pose proof (later_peer s pid p p' Hp C1) as Hlt.
  assert (Hconns : forall pid2 p2 c, <[pid := p']> (svPeers s) !! pid2 = Some p2 -> c ∈ peer_conns p2 ->
            (exists p0, svPeers s !! pid2 = Some p0 /\ c ∈ peer_conns p0) \/ (pid2 = pid /\ (c < svNextRes s)%nat /\
            forall pid3 p3, pid3 <> pid -> svPeers s !! pid3 = Some p3 -> c ∉ peer_conns p3)).
  { intros pid2 p2 c [[<- <-]|[Hne Hl2]]%lookup_insert_Some Hc; [|eauto].
    destruct (C6 c Hc) as [?|[? ?]]; eauto 6. }
  split; try done; simpl.
  - intros pid2 p2 [[<- <-]|[_ ?]]%lookup_insert_Some; eauto.
  - intros k pid2 Hk. destruct (Ht k pid2 Hk) as (p2 & Hp2 & Hid & Hc).
    destruct (decide (pid2 = pid)) as [->|Hne].
    + rewrite lookup_insert_eq. simplify_eq. exists p'. rewrite (pl_id _ _ C1).
      split_and!; [done|done|]. by destruct C4.
    + rewrite lookup_insert_ne by done. eauto.
  - intros pid2 p2 [[<- <-]|[Hne Hp2]]%lookup_insert_Some.
    + destruct (Hpe pid p Hp) as (H1 & H2 & H3 & H4 & H5 & H6).
      rewrite (pl_ready _ _ C1), (pl_id _ _ C1). split_and!; [done|done|exact C5|..].
      * apply Forall_forall. intros c Hc. destruct (C6 c Hc) as [Hc'|[? _]]; [|done].
        by eapply Forall_forall in H4.
      * rewrite tokens_app in *. lia.
      * intros Hc'. destruct (spCloseOnce p) eqn:Hcp; [by rewrite C3 in Hc'|].
        destruct (H6 eq_refl) as [?|(re & Hin)]; [by left|right].
        apply elem_of_app in Hin as [Hin|Hin].
        -- destruct (C11 _ _ Hin) as [(re' & ?)|[_ ?]]; [|congruence].
           exists re'. apply elem_of_app. by left.
        -- exists re. apply elem_of_app. by right.
    + destruct (Hpe pid2 p2 Hp2) as (H1 & H2 & H3 & H4 & H5 & H6).
      split_and!; [done|done|exact H3|exact H4|..].
      * specialize (C8 pid2). rewrite tokens_app in *. assert (pid2 <> pid) by done. lia.
      * intros Hc. destruct (H6 Hc) as [?|(re & Hin)]; [by left|right].
        apply elem_of_app in Hin as [Hin|Hin].
        -- destruct (C11 _ _ Hin) as [(re' & ?)|[-> _]]; [|done].
           exists re'. apply elem_of_app. by left.
        -- exists re. apply elem_of_app. by right.
  - intros pid1 pid2 p1 p2 c Hp1 Hp2 Hc1 Hc2.
    destruct (Hconns _ _ _ Hp1 Hc1) as [(q1 & ? & ?)|(-> & ? & Hx1)],
      (Hconns _ _ _ Hp2 Hc2) as [(q2 & ? & ?)|(-> & ? & Hx2)]; [by eapply Hd| | |done].
    + destruct (decide (pid1 = pid)) as [|Hne]; [done|]. by destruct (Hx2 _ _ Hne ltac:(eassumption)).
    + destruct (decide (pid2 = pid)) as [|Hne]; [done|]. by destruct (Hx1 _ _ Hne ltac:(eassumption)).
  - intros r Hr.
    assert (Hcase : (exists x, x ∈ l /\ r ∈ holding x) \/
              ((exists x, x ∈ a /\ r ∈ holding x) \/ (spCloseOnce p = false /\ r ∈ peer_res p)) \/
              (exists pid2 p2, pid2 <> pid /\ svPeers s !! pid2 = Some p2 /\ spCloseOnce p2 = false /\ r ∈ peer_res p2)).
    { destruct (Ho r Hr) as [(x & [Hx|Hx]%elem_of_app & ?)|(pid2 & p2 & Hp2 & ? & ?)];
        [by eauto 6|by eauto|].
      destruct (decide (pid2 = pid)) as [->|Hne]; [simplify_eq; auto|]. right; right. by eauto 8. }
    destruct Hcase as [(x & ? & ?)|[Hx|(pid2 & p2 & Hne & ? & ? & ?)]].
    + left. exists x. split; [apply elem_of_app; by right|done].
    + destruct (C10 r Hr Hx) as [(y & ? & ?)|[? ?]].
      * left. exists y. split; [apply elem_of_app; by left|done].
      * right. exists pid, p'. by rewrite lookup_insert_eq.
    + right. exists pid2, p2. by rewrite lookup_insert_ne by done.
  - apply Forall_app in Ha as [_ Ha]. apply Forall_app. split; [done|].
    eapply Forall_impl; [exact Ha|]. intros x. by apply act_ok_later.
  - eapply Forall_impl; [exact Hl|]. intros c. by apply log_ok_later.
Qed.

(** ** Changing the table *)

(** Peers leave the table only to be closed. *)
Lemma inv_untable h s t b l :
  srv_inv h s l -> t ⊆ svTable s ->
  (forall k pid, svTable s !! k = Some pid -> t !! k = Some pid \/ exists reason, AClose pid reason ∈ b) ->
  (forall x, x ∈ b -> exists k pid reason, x = AClose pid reason /\ svTable s !! k = Some pid /\ t !! k = None) ->
  srv_inv h (set_table s t) (b ++ l).
Proof.
  intros [Hm Hs Hz Hn Ht Hpe Hd Ho Ha Hl] Hsub Hleft Hb.
  assert (Hin : forall k pid, t !! k = Some pid -> svTable s !! k = Some pid).
  { intros k pid Hk. by eapply lookup_weaken. }
  assert (Hlt : later s (set_table s t)).
  { constructor; simpl; [intros pid p Hp; exists p; split; [done|reflexivity]| |done].
    intros pid p Hp Hne Hk. by apply Hne, Hin. }
  assert (Htok : forall c pid, tokens c pid b = 0%nat).
  { intros c pid. clear Hleft. induction b as [|x b IH]; [done|]. simpl. rewrite IH.
    - destruct (Hb x) as (k & pid2 & re & -> & _); [by left|]. done.
    - intros y Hy. apply Hb. by right. }
  split; try done; simpl.
  - apply map_subseteq_size in Hsub. lia.
  - intros k pid Hk. by apply Ht, Hin.
  - intros pid p Hp. destruct (Hpe pid p Hp) as (H1 & H2 & H3 & H4 & H5 & H6).
    split_and!; try done.
    + by rewrite tokens_app, Htok.
    + intros Hc. destruct (H6 Hc) as [Hk|(re & ?)].
      * destruct (Hleft _ _ Hk) as [?|(re & ?)]; [by left|right].
        exists re. apply elem_of_app. by left.
      * right. exists re. apply elem_of_app. by right.
  - intros r Hr. destruct (Ho r Hr) as [(x & ? & ?)|?]; [left|by right].
    exists x. split; [apply elem_of_app; by right|done].
  - apply Forall_app. split.
    + apply Forall_forall. intros x Hx. destruct (Hb x Hx) as (k & pid & re & -> & Hk & Hnk).
      destruct (Ht k pid Hk) as (p & Hp & Hid & _). exists p. split; [done|]. simpl.
      rewrite Hid. congruence.
    + eapply Forall_impl; [exact Ha|]. intros x. by apply act_ok_later.
Qed.

Lemma inv_remove h s pid reason l :
  srv_inv h s l -> srv_inv h (removePeer s pid reason).1 ((removePeer s pid reason).2 ++ l).
Proof.
  intros Hi. unfold removePeer. destruct (svPeers s !! pid) as [p|] eqn:Hp; [|done].
  case_bool_decide as Hk; [|done]. simpl. apply (inv_untable h s _ [_] l Hi).
  - apply delete_subseteq.
  - intros k pid' Hk'. destruct (decide (k = spID p)) as [->|Hne].
    + right. exists reason. simplify_eq. by left.
    + left. by rewrite lookup_delete_ne.
  - intros x ->%list_elem_of_singleton. exists (spID p), pid, reason. by rewrite lookup_delete_eq.
Qed.

Lemma concat_close_all t reason :
  concat (close_all t reason) = (fun e => AClose e.2 reason) <$> map_to_list t.
Proof. unfold close_all. induction (map_to_list t) as [|e l IH]; [done|]. cbn. by f_equal. Qed.

Lemma inv_empty_table h s reason l :
  srv_inv h s l -> srv_inv h (set_table s ∅) (concat (close_all (svTable s) reason) ++ l).
Proof.
  intros Hi. rewrite concat_close_all. apply (inv_untable h s _ _ l Hi).
  - apply map_empty_subseteq.
  - intros k pid Hk. right. exists reason. apply list_elem_of_fmap. exists (k, pid).
    split; [done|]. by apply elem_of_map_to_list.
  - intros x ([k pid] & -> & Hk)%list_elem_of_fmap. exists k, pid, reason.
    by apply elem_of_map_to_list in Hk.
Qed.

(** A new peer enters the table. *)
Lemma inv_admit h s k l :
  srv_inv h s l -> svTable s !! k = None -> Z.of_nat (size (svTable s)) < maxPeerSessions ->
  srv_inv h (set_table (alloc_peer s (srv_newPeerSession k (scPeerControl (svCfg s)))).1
               (<[k := svNextPeer s]> (svTable s))) l.
Proof.
  intros [Hm Hs Hz Hn Ht Hpe Hd Ho Ha Hl] Hk Hsz.
  set (p0 := srv_newPeerSession k (scPeerControl (svCfg s))).
  set (s' := set_table (alloc_peer s p0).1 (<[k := svNextPeer s]> (svTable s))).
  assert (Hnew : svPeers s !! svNextPeer s = None).
  { destruct (svPeers s !! svNextPeer s) as [p|] eqn:E; [|done]. apply Hn in E. lia. }
  assert (Hlt : later s s').
  { constructor; simpl; [| |done].
    - intros pid p Hp. exists p. rewrite lookup_insert_ne by congruence. split; [done|reflexivity].
    - intros pid p Hp Hne. destruct (decide (k = spID p)) as [->|Hne2].
      + rewrite lookup_insert_eq. intros [= Heq]. congruence.
      + by rewrite lookup_insert_ne. }
  split; try done; subst s'; simpl.
  - rewrite map_size_insert_None by done. lia.
  - intros pid p [[<- _]|[_ Hp]]%lookup_insert_Some; [lia|]. apply Hn in Hp. lia.
  - intros k' pid [[<- <-]|[Hne Hk']]%lookup_insert_Some.
    + exists p0. by rewrite lookup_insert_eq.
    + destruct (Ht _ _ Hk') as (p & Hp & ? & ?). exists p. split; [|done].
      rewrite lookup_insert_ne; [done|congruence].
  - intros pid p [[<- <-]|[Hne Hp]]%lookup_insert_Some.
    + split_and!; try done; simpl.
      * rewrite (tokens_unknown h s) by done. unfold used. simpl.
        destruct (scPeerControl (svCfg s)); simpl; lia.
      * intros _. left. by rewrite lookup_insert_eq.
    + destruct (Hpe pid p Hp) as (H1 & H2 & H3 & H4 & H5 & H6). split_and!; try done.
      intros Hc. destruct (H6 Hc) as [Hid|?]; [left|by right].
      rewrite lookup_insert_ne; [done|congruence].
  - intros pid1 pid2 p1 p2 c [[<- <-]|[_ Hp1]]%lookup_insert_Some
      [[<- <-]|[_ Hp2]]%lookup_insert_Some Hc1 Hc2; try (by apply elem_of_nil in Hc1);
      try (by apply elem_of_nil in Hc2). by eapply Hd.
  - intros r Hr. destruct (Ho r Hr) as [?|(pid & p & Hp & ? & ?)]; [by left|right].
    exists pid, p. rewrite lookup_insert_ne by congruence. done.
  - eapply Forall_impl; [exact Ha|]. intros x. by apply act_ok_later.
  - eapply Forall_impl; [exact Hl|]. intros c. by apply log_ok_later.
Qed.
