(* ===== verification/ServerRuns.v ===== *)
(** * ServerRuns: what a server that routes by peer guarantees in every
    interleaving *)

From S2P Require Import Prelude Server ServerFacts.

(** The action at the head is replaced by [acts], the state stays. *)
Lemma inv_goes_on h s a acts l :
  srv_inv h s (a :: l) -> Forall (act_ok h s) acts ->
  (forall pid, (tokens (svCfg s) pid acts <= token (svCfg s) pid a)%nat) ->
  (forall r, r ∈ svOpen s -> r ∈ holding a -> exists y, y ∈ acts /\ r ∈ holding y) ->
  (forall pid reason, a <> AClose pid reason) ->
  srv_inv h s (acts ++ l).
Proof.
  intros Hi Ha Ht Hh Hc. apply (inv_exchange h s [a] acts l Hi Ha).
  - intros pid. simpl. rewrite Nat.add_0_r. apply Ht.
  - intros r x Hr ->%list_elem_of_singleton. by apply Hh.
  - intros pid reason Heq%list_elem_of_singleton. by destruct (Hc pid reason).
Qed.

Lemma head_ok h s a l : srv_inv h s (a :: l) -> act_ok h s a.
Proof. intros Hi. pose proof (iv_acts _ _ _ Hi) as H. by apply Forall_cons in H as [? _]. Qed.

(** ** Actions that only move on *)

Ltac by_act_ok := simpl in *; rewrite ?Forall_cons, ?Forall_nil; simpl in *; intuition eauto.

Ltac moves_on Hi :=
  apply (inv_goes_on _ _ _ _ _ Hi);
  [ by_act_ok
  | intros ?; simpl; repeat case_bool_decide; lia
  | simpl; set_solver
  | done ].

Lemma enter_loop_ok h s pid p l :
  srv_inv h s l -> svPeers s !! pid = Some p -> shaken s pid (spSid p) ->
  Forall (act_ok h s) (enter_loop p pid) /\ (forall c pid', tokens c pid' (enter_loop p pid) = 0%nat).
Proof.
  intros Hi Hp Hs. unfold enter_loop. destruct (spSession p); [|by split; [constructor|]].
  split; [|done]. rewrite Forall_cons, Forall_nil. simpl. eauto.
Qed.

Lemma serve_inv h s pid l :
  srv_inv h s (AServe pid :: l) -> srv_inv h s (servePeer s pid ++ l).
Proof.
  intros Hi. unfold servePeer. destruct (svPeers s !! pid) as [p|] eqn:Hp; [|by moves_on Hi].
  destruct (iv_peer _ _ _ Hi pid p Hp) as (_ & Hr & Hs & _). case_bool_decide as Hsid.
  - rewrite Hr. destruct (scPeerControl (svCfg s)) eqn:Hc; [by moves_on Hi|].
    destruct (spSession p); [|by moves_on Hi].
    apply (inv_goes_on _ _ _ _ _ Hi); [by_act_ok| |simpl; set_solver|done].
    intros pid'. simpl. rewrite Hc. lia.
  - destruct (enter_loop_ok _ _ _ _ _ Hi Hp (Hs Hsid)) as [H1 H2].
    apply (inv_goes_on _ _ _ _ _ Hi H1); [|simpl; set_solver|done]. intros pid'. rewrite H2. lia.
Qed.

Lemma wait_inv h s pid ans s' acts ts l :
  srv_inv h s (AWait pid :: l) -> waitPeerHandshake s pid ans = Some (s', acts, ts) ->
  srv_inv h s' (acts ++ concat ts ++ l).
Proof.
  intros Hi. unfold waitPeerHandshake, goes_on.
  destruct (svPeers s !! pid) as [p|] eqn:Hp; [|by destruct ans].
  destruct ans; try done.
  - intros [= <- <- <-]. by moves_on Hi.
  - destruct (spReady p); [|done]. intros [= <- <- <-]. case_bool_decide as Hsid; [by moves_on Hi|].
    destruct (iv_peer _ _ _ Hi pid p Hp) as (_ & _ & Hs & _).
    destruct (enter_loop_ok _ _ _ _ _ Hi Hp (Hs Hsid)) as [H1 H2].
    apply (inv_goes_on _ _ _ _ _ Hi H1); [|simpl; set_solver|done]. intros pid'. rewrite H2. simpl. lia.
  - destruct (svDone s); [|done]. intros [= <- <- <-]. by moves_on Hi.
Qed.

Lemma expire_inv h s pid ans s' acts ts l :
  srv_inv h s (AExpire pid :: l) -> expirePeerHandshake s pid ans = Some (s', acts, ts) ->
  srv_inv h s' (acts ++ concat ts ++ l).
Proof.
  intros Hi. unfold expirePeerHandshake, goes_on.
  destruct (svPeers s !! pid) as [p|] eqn:Hp; [|by destruct ans].
  destruct ans; try done.
  - intros [= <- <- <-]. case_bool_decide; by moves_on Hi.
  - destruct (spReady p); [|done]. intros [= <- <- <-]. by moves_on Hi.
  - destruct (svDone s); [|done]. intros [= <- <- <-]. by moves_on Hi.
Qed.

Lemma loop_inv h s pid session sid ans s' acts ts l :
  srv_inv h s (ALoop pid session sid :: l) -> serve_loop s pid session sid ans = Some (s', acts, ts) ->
  srv_inv h s' (acts ++ concat ts ++ l).
Proof.
  intros Hi. pose proof (head_ok _ _ _ _ Hi) as Hs. unfold serve_loop, goes_on.
  destruct ans; try done.
  - intros [= <- <- <-]. destruct (svDone s); by moves_on Hi.
  - intros [= <- <- <-]. apply inv_data. by moves_on Hi.
  - destruct (svDone s); [|done]. intros [= <- <- <-]. by moves_on Hi.
Qed.

(** ** The handshake of a peer *)

(** Closing the stream the head action holds. *)
Lemma inv_close_head h s a r acts l :
  srv_inv h s (a :: l) -> holding a = [r] -> Forall (act_ok h s) acts ->
  (forall pid, (tokens (svCfg s) pid acts <= token (svCfg s) pid a)%nat) ->
  srv_inv h (close_res s [r]) (acts ++ l).
Proof.
  intros Hi Hr Ha Ht. apply (inv_goes_on h _ a acts l); [by apply inv_close|done|done| |].
  - rewrite Hr. simpl. set_solver.
  - intros pid reason ->. done.
Qed.

(** An action that accepts a stream goes on with an action that holds it. *)
Lemma inv_accept h s a b l :
  srv_inv h s (a :: l) -> (forall pid reason, a <> AClose pid reason) -> holding a = [] ->
  act_ok h (open_res s).1 b ->
  (forall pid, (token (svCfg s) pid b <= token (svCfg s) pid a)%nat) ->
  svNextRes s ∈ holding b -> srv_inv h (open_res s).1 (b :: l).
Proof.
  intros Hi Hc Ha Hb Ht Hh.
  apply (inv_exchange h (open_res s).1 [ARelease (svNextRes s); a] [b] l); [by apply inv_open|..].
  - by apply Forall_singleton.
  - intros pid. simpl. specialize (Ht pid). lia.
  - intros r x _ [->| ->%list_elem_of_singleton]%elem_of_cons; [|rewrite Ha; set_solver].
    simpl. intros ->%list_elem_of_singleton. exists b. split; [by left|done].
  - intros pid reason [?|Heq%list_elem_of_singleton]%elem_of_cons; [done|]. by destruct (Hc pid reason).
Qed.

Lemma opt_list_elem {A} (o : option A) x : x ∈ opt_list o <-> o = Some x.
Proof. destruct o; simpl; set_solver. Qed.

(** The outcome of a handshake is recorded in the peer. *)
Lemma handshake_inv h s pid p p' sid device a b l :
  srv_inv h s (a :: l) -> svPeers s !! pid = Some p -> setHandshake p sid device = Some p' ->
  (forall pid' reason, a <> AClose pid' reason) ->
  Forall (leaf_ok h s) b -> (forall t, ASpawn t ∉ b) ->
  (forall pid', (tokens (svCfg s) pid' b <= token (svCfg s) pid' a)%nat) ->
  (forall r, r ∈ holding a -> exists y, y ∈ b /\ r ∈ holding y) ->
  forall p'', p'' = p' \/ p'' = signalReady p' ->
  srv_inv h (say (set_peers s (<[pid := p'']> (svPeers s))) (LHandshake pid sid device)) (b ++ l).
Proof.
  intros Hi Hp Hset Hnc Hb Hns Htok Hhold p'' Hp''.
  set (s1 := say s (LHandshake pid sid device)).
  assert (Hi1 : srv_inv h s1 ([a] ++ l)) by by apply inv_say.
  unfold setHandshake in Hset. destruct (spClosed p) eqn:Hcl; [done|]. simplify_eq.
  destruct (iv_peer _ _ _ Hi pid p Hp) as (Hco & _).
  change (say (set_peers s (<[pid := p'']> (svPeers s))) (LHandshake pid sid device))
    with (set_peers s1 (<[pid := p'']> (svPeers s1))).
  assert (Hlt : later s (set_peers s1 (<[pid := p'']> (svPeers s1)))).
  { assert (Hpl : peer_later p p'').
    { destruct Hp'' as [->| ->]; unfold signalReady; simpl; [by constructor|].
      destruct (spHasReady p) eqn:E; constructor; simpl; congruence. }
    pose proof (later_peer s1 pid p p'' Hp Hpl) as Hl. constructor.
    - exact (lt_peers _ _ Hl).
    - exact (lt_table _ _ Hl).
    - intros c Hc. apply (lt_log _ _ Hl). simpl. apply elem_of_app. by left. }
  apply (inv_peer h s1 pid p p'' [a] b l Hi1 Hp).
  assert (Hsh : shaken s1 pid sid).
  { exists device. simpl. apply elem_of_app. right. by left. }
  assert (Hb' : Forall (act_ok h (set_peers s1 (<[pid := p'']> (svPeers s1)))) b).
  { apply Forall_forall. intros x Hx. eapply Forall_forall in Hb; [|exact Hx].
    destruct x; try exact (leaf_ok_later _ _ _ _ Hlt Hb). by destruct (Hns task). }
  assert (Hfin : forall q, q = p'' -> spID q = spID p -> spHasReady q = spHasReady p -> spConn q = spConn p ->
            spControlConn q = spControlConn p -> spClosed q = spClosed p -> spCloseOnce q = spCloseOnce p ->
            spSid q = sid -> spControlStrm q = spControlStrm p -> spControlStop q = spControlStop p ->
            spHandshakeOnce q = spHandshakeOnce p -> spSession q = spSession p ->
            spControlSess q = spControlSess p ->
            peer_change h s1 pid p p'' [a] b).
  { intros q <- E1 E2 E3 E4 E5 E6 E7 E8 E9 E10 E11 E12.
    assert (Hres : peer_res q = peer_res p) by (unfold peer_res; congruence).
    assert (Hused : used q = used p) by (unfold used; by rewrite E2, E3, E8, E9, E10).
    split; try done.
    - by constructor; rewrite ?E1, ?E2, ?E3, ?E4.
    - congruence.
    - by rewrite E6.
    - left. congruence.
    - by rewrite E7.
    - intros c Hc. left. unfold peer_conns in *. by rewrite E3, E4 in Hc.
    - rewrite Hused. simpl. specialize (Htok pid). lia.
    - intros pid2 _. simpl. specialize (Htok pid2). lia.
    - intros r Hr [(x & ->%list_elem_of_singleton & Hx)|[? ?]]; [left; by apply Hhold|right].
      by rewrite E6, Hres.
    - intros pid2 re Heq%list_elem_of_singleton. by destruct (Hnc pid2 re). }
  destruct Hp'' as [->| ->]; unfold signalReady in *; simpl in *; 
    [by apply (Hfin _ eq_refl)|].
  destruct (spHasReady p) eqn:Hr; apply (Hfin _ eq_refl); simpl; congruence.
Qed.

Lemma accept_peer_inv h s a ans s' acts ts l :
  srv_inv h s (a :: l) -> acceptPeerHandshake s a ans = Some (s', acts, ts) ->
  srv_inv h s' (acts ++ concat ts ++ l).
Proof.
  intros Hi. pose proof (head_ok _ _ _ _ Hi) as Hok. unfold acceptPeerHandshake, goes_on.
  destruct a; try done; destruct ans; try done; simpl in Hok.
  - destruct (_ ≫= spControlSess); intros [= <- <- <-]; [|by moves_on Hi].
    destruct cancelled; by moves_on Hi.
  - destruct (_ ≫= spControlSess); intros [= <- <- <-]; [|by moves_on Hi].
    apply (inv_accept h s _ _ l Hi); try done. by left.
  - destruct Hok as [p Hp]. rewrite Hp. simpl.
    destruct (setHandshake p sid device) as [p'|] eqn:Hset; intros [= <- <- <-].
    + eapply (handshake_inv h s pid p p' sid device _ [_; _; _] l Hi Hp Hset); [done| | | | |by right].
      * rewrite !Forall_cons, Forall_nil. simpl. eauto.
      * intros t. set_solver.
      * intros pid'. simpl. lia.
      * intros r Hr. simpl in Hr. exists (ASetControl pid stream). split; [set_solver|done].
    + eapply inv_close_head; [exact Hi|done|constructor|simpl; lia].
  - intros [= <- <- <-]. destruct (retry <? maxStaleRetries)%nat.
    + eapply inv_close_head; [exact Hi|done|by_act_ok|simpl; lia].
    + eapply inv_close_head; [exact Hi|done|by_act_ok|simpl; lia].
  - intros [= <- <- <-]. eapply inv_close_head; [exact Hi|done|by_act_ok|simpl; lia].
Qed.

(** ** The control stream of a peer *)

Lemma control_inv h s pid stream l :
  srv_inv h s (ASetControl pid stream :: l) ->
  srv_inv h (startPeerControlLoop s pid stream).1 ((startPeerControlLoop s pid stream).2 ++ l).
Proof.
  intros Hi. destruct (head_ok _ _ _ _ Hi) as [p Hp].
  pose proof (inv_open _ _ _ Hi) as Ho. unfold startPeerControlLoop. simpl. rewrite Hp. simpl.
  set (s1 := (open_res s).1) in *. set (stop := svNextRes s) in *.
  destruct (iv_peer _ _ _ Hi pid p Hp) as (Hco & Hrd & Hsid & _ & Htok & _).
  simpl in Htok. rewrite bool_decide_true in Htok by done.
  unfold setControl. destruct (spClosed p) eqn:Hcl; simpl.
  - apply (inv_exchange h _ [ARelease stop; ASetControl pid stream] [] l); [by apply inv_close|..].
    + constructor.
    + intros pid'. simpl. lia.
    + intros r x Hr [->| ->%list_elem_of_singleton]%elem_of_cons; simpl in *; set_solver.
    + set_solver.
  - set (p' := MkPeer _ _ _ _ _ _ _ _ _ _ _ _ _ _).
    assert (Hnone : spControlStrm p = None /\ spControlStop p = None).
    { unfold used in Htok. destruct (spControlStrm p), (spControlStop p); simpl in Htok; try lia. done. }
    destruct Hnone as [Hn1 Hn2].
    apply (inv_peer h s1 pid p p' [ARelease stop; ASetControl pid stream] [_] l); [done|done|].
    split; try done.
    + left. simpl. congruence.
    + intros c Hc. by left.
    + simpl. rewrite bool_decide_true by done. unfold used. rewrite Hn1, Hn2. simpl. lia.
    + intros pid2 Hne. simpl. case_bool_decide; lia.
    + apply Forall_singleton. simpl. split; [|done]. rewrite lookup_insert_eq. eauto.
    + intros r _ Hr. right. simpl. split; [congruence|]. unfold peer_res in *. simpl. rewrite Hn1, Hn2 in Hr.
      simpl in Hr. destruct Hr as [(x & [->| ->%list_elem_of_singleton]%elem_of_cons & Hr)|[_ Hr]];
        simpl in *; set_solver.
    + set_solver.
Qed.

Lemma establish_inv h s pid stream sid device l :
  srv_inv h s (AEstablished pid stream sid device :: l) ->
  srv_inv h (establishPeerSession s pid stream sid device).1
    ((establishPeerSession s pid stream sid device).2 ++ l).
Proof.
  intros Hi. destruct (head_ok _ _ _ _ Hi) as [p Hp]. unfold establishPeerSession. rewrite Hp. simpl.
  destruct (setHandshake p sid device) as [p'|] eqn:Hset.
  2: { eapply inv_close_head; [exact Hi|done|constructor|simpl; lia]. }
  set (s1 := say (set_peers s (<[pid := p']> (svPeers s))) (LHandshake pid sid device)).
  assert (H1 : srv_inv h s1 ([ASetControl pid stream] ++ l)).
  { eapply (handshake_inv h s pid p p' sid device _ [_] l Hi Hp Hset); [done| | | | |by left].
    - by_act_ok.
    - set_solver.
    - intros pid'. simpl. lia.
    - intros r Hr. simpl in Hr. eexists. split; [by left|done]. }
  pose proof (control_inv _ _ _ _ _ H1) as H2.
  assert (Hkeep : shaken (startPeerControlLoop s1 pid stream).1 pid sid /\
            forall q, svPeers (startPeerControlLoop s1 pid stream).1 !! pid = Some q -> spSid q = sid).
  { assert (Hs1 : spSid p' = sid) by (unfold setHandshake in Hset; destruct (spClosed p); by simplify_eq).
    assert (Hsh : LHandshake pid sid device ∈ svLog s1) by (simpl; set_solver).
    unfold startPeerControlLoop. simpl. rewrite lookup_insert_eq. simpl.
    destruct (setControl p' stream (svNextRes s)) as [p2|] eqn:Hc; simpl.
    - split; [by exists device|]. intros q. rewrite lookup_insert_eq. intros [= <-].
      unfold setControl in Hc. destruct (spClosed p'); by simplify_eq.
    - split; [by exists device|]. intros q. rewrite lookup_insert_eq. by intros [= <-]. }
  destruct (startPeerControlLoop s1 pid stream) as [s2 acts2] eqn:E2. simpl in *.
  destruct Hkeep as [Hsh Hsid].
  destruct (svPeers s2 !! pid) as [q|] eqn:Hq; [|by rewrite app_nil_r].
  destruct (enter_loop_ok h s2 pid q _ H2 Hq) as [Hok Htk]; [by rewrite (Hsid q eq_refl)|].
  rewrite <- app_assoc. apply (inv_perm h s2 (enter_loop q pid ++ acts2 ++ l)).
  { by rewrite !app_assoc, (Permutation_app_comm (enter_loop q pid)). }
  apply (inv_exchange h s2 [] (enter_loop q pid) (acts2 ++ l)); [done|done|..].
  - intros pid'. by rewrite Htk.
  - set_solver.
  - set_solver.
Qed.

(** ** The handshake of a peer without a control plane *)

Lemma accept_session_inv h s a ans s' acts ts l :
  srv_inv h s (a :: l) -> acceptHandshake s a ans = Some (s', acts, ts) ->
  srv_inv h s' (acts ++ concat ts ++ l).
Proof.
  intros Hi. pose proof (head_ok _ _ _ _ Hi) as Hok. destruct (iv_mode _ _ _ Hi) as [Hln _].
  assert (Hgive : forall s0 pid session b, srv_inv h s0 (b :: l) -> svCfg s0 = svCfg s ->
            is_Some (svPeers s0 !! pid) -> (forall r, r ∈ svOpen s0 -> r ∉ holding b) ->
            (forall pid reason, b <> AClose pid reason) ->
            srv_inv h (say s0 LResetPeer)
              ((reinstallSession s0 (Some session) ++ owner_fails (OPeer pid)) ++ l)).
  { intros s0 pid session b Hi0 Hcfg Hpid Hh Hb. unfold reinstallSession. rewrite Hcfg, Hln.
    eapply (inv_goes_on h _ b); [by apply inv_say| | | |done].
    - by_act_ok.
    - simpl. lia.
    - intros r Hr Hrb. by destruct (Hh r Hr). }
  unfold acceptHandshake, goes_on.
  destruct a; try done; destruct who; try done; destruct ans; try done; simpl in Hok.
  - destruct cancelled; intros [= <- <- <-]; [by moves_on Hi|].
    apply (Hgive s _ _ _ Hi); [done|done| |done]. intros r _. apply not_elem_of_nil.
  - intros [= <- <- <-]. apply (inv_accept h s _ _ l Hi); try done. by left.
  - intros [= <- <- <-]. apply (inv_goes_on _ _ _ _ _ Hi); [by_act_ok|simpl; lia| |done].
    intros r _ Hr. exists (AEstablished pid stream sid device). split; [simpl; set_solver|done].
  - destruct (retry <? maxStaleRetries)%nat; intros [= <- <- <-].
    + eapply inv_close_head; [exact Hi|done|by_act_ok|simpl; lia].
    + eapply Hgive; [by apply inv_close|done|done| |done]. simpl. set_solver.
  - intros [= <- <- <-]. eapply Hgive; [by apply inv_close|done|done| |done]. simpl. set_solver.
Qed.

(** ** Closing *)

Lemma set_peers_id s : set_peers s (svPeers s) = s.
Proof. by destruct s. Qed.

Lemma close_begin_inv h s pid reason l :
  srv_inv h s (AClose pid reason :: l) ->
  srv_inv h (closePeer_begin s pid reason).1 ((closePeer_begin s pid reason).2 ++ l).
Proof.
  intros Hi. destruct (head_ok _ _ _ _ Hi) as (p & Hp & Hdet). unfold closePeer_begin. rewrite Hp.
  destruct (iv_peer _ _ _ Hi pid p Hp) as (Hco & Hrd & Hsid & _).
  destruct (spCloseOnce p) eqn:Honce; simpl.
  - rewrite <- (set_peers_id s), <- (insert_id (svPeers s) pid p) at 1 by done.
    apply (inv_peer h s pid p p [AClose pid reason] [] l Hi Hp). split; try done.
    + congruence.
    + by right.
    + auto.
    + intros r _ [(x & ->%list_elem_of_singleton & Hx)|[? _]]; [by apply elem_of_nil in Hx|congruence].
    + intros pid2 re [= -> _]%list_elem_of_singleton. by right.
  - set (p1 := MkPeer _ _ _ _ _ _ _ _ _ _ _ _ _ _).
    assert (Hsig : exists b, signalReady p1 =
              MkPeer (spID p) (spHasReady p) b (spHandshakeOnce p) true (spConn p) (spSession p)
                (spControlConn p) (spControlSess p) (spControlStrm p) (spControlStop p) (spSid p)
                (spDevice p) true).
    { unfold signalReady. subst p1. simpl. destruct (spHasReady p) eqn:E; eauto. }
    destruct Hsig as [b ->].
    apply (inv_peer h s pid p _ [AClose pid reason] [_] l Hi Hp). split; try done.
    + by right.
    + auto.
    + apply Forall_singleton. simpl. intros Hne. exists pid. by apply (Hsid Hne).
    + intros r _ [(x & ->%list_elem_of_singleton & Hx)|[_ Hr]]; [by apply elem_of_nil in Hx|].
      left. eexists. split; [by left|]. done.
    + intros pid2 re [= -> _]%list_elem_of_singleton. by right.
Qed.

Lemma close_finish_inv h s td reason l :
  srv_inv h s (AClosing td reason :: l) ->
  srv_inv h (closePeer_finish s td reason).1 ((closePeer_finish s td reason).2 ++ l).
Proof.
  intros Hi. pose proof (head_ok _ _ _ _ Hi) as Hok. unfold closePeer_finish. simpl.
  eapply (inv_goes_on h _ (AClosing td reason)); [by apply inv_close| | | |done].
  - case_bool_decide; by_act_ok.
  - case_bool_decide; simpl; lia.
  - simpl. unfold td_res. set_solver.
Qed.

(** Taking the whole table down; there is no session outside the table. *)
Lemma inv_take_down h s rs reason l :
  srv_inv h s l ->
  srv_inv h (close_res (set_single (set_table s ∅) no_single) rs)
    (concat (close_all (svTable s) reason) ++ l).
Proof.
  intros Hi. apply inv_close. pose proof (inv_empty_table h s reason l Hi) as He.
  apply (inv_state h _ _ _ He); try done; simpl.
  - symmetry. by apply (iv_single _ _ _ Hi).
  - by left.
  - exists []. by rewrite app_nil_r.
Qed.

Lemma inv_drop h s a l :
  srv_inv h s (a :: l) -> holding a = [] -> (forall pid reason, a <> AClose pid reason) -> srv_inv h s l.
Proof.
  intros Hi Ha Hc. apply (inv_goes_on h s a [] l Hi); [constructor|simpl; lia| |done].
  rewrite Ha. set_solver.
Qed.

Lemma push_inv h s l conn data :
  srv_inv h s l -> (forall c, conn = Some c -> log_ok h (say s (LPush c data)) (LPush c data)) ->
  srv_inv h (push_to s conn data) l.
Proof. intros Hi Hc. destruct conn as [c|]; [|done]. apply inv_say; [done|]. by apply Hc. Qed.

Lemma refuse_inv h s task l : srv_inv h s l -> srv_inv h (refuse s task) l.
Proof.
  intros Hi. unfold refuse. destruct (svDone s); [|done].
  destruct task as [|[] [|? ?]]; try done; by apply inv_data.
Qed.

(** ** One action *)

Lemma act_inv h s a ans s' acts ts l :
  srv_inv h s (a :: l) -> act s a ans = Some (s', acts, ts) -> srv_inv h s' (acts ++ concat ts ++ l).
Proof.
  intros Hi Hact. pose proof (head_ok _ _ _ _ Hi) as Hok.
  pose proof (iv_single _ _ _ Hi) as Hsg. destruct (iv_mode _ _ _ Hi) as [Hln Hctl].
  destruct a; try done; simpl in Hact;
    try (by apply (accept_peer_inv _ _ _ _ _ _ _ _ Hi Hact));
    try (by apply (accept_session_inv _ _ _ _ _ _ _ _ Hi Hact));
    try (by apply (expire_inv _ _ _ _ _ _ _ _ Hi Hact));
    try (by apply (wait_inv _ _ _ _ _ _ _ _ Hi Hact));
    try (by apply (loop_inv _ _ _ _ _ _ _ _ _ _ Hi Hact));
    unfold run_ends, relay_dispatch, watch_stream, open_data, goes_on, with_acts in Hact;
    destruct ans; try done; simpl in Hact; simplify_eq; simpl.
  - apply (inv_drop h _ (AOnOpen sid device)); [by apply inv_say|done|done].
  - apply (inv_drop h _ (ATrackOpen sid device)); [by apply inv_stats|done|done].
  - by apply control_inv.
  - by apply serve_inv.
  - by apply establish_inv.
  - apply (inv_goes_on h _ (AHandleStream pid session stream sid)
      [AReadRequest stream; ACloseData stream; AWatch stream] l);
      [|by repeat constructor|simpl; lia|simpl; set_solver|done]. apply inv_say; [done|].
    assert (Heq : handleStream s sid = sid) by (unfold handleStream; rewrite Hsg; case_bool_decide; done).
    simpl. rewrite Heq. destruct Hok as (d & Hd). exists d. simpl. set_solver.
  - destruct cancelled; simplify_eq.
    + apply (inv_goes_on _ _ _ [ARelease stream] l Hi); [by_act_ok|simpl; lia|simpl; set_solver|done].
    + apply (inv_goes_on _ _ _ [ARemove pid _; ARelease stream] l Hi);
        [by_act_ok|simpl; lia|simpl; set_solver|done].
  - eapply (inv_close_head h s _ stream [] l Hi); [done|constructor|simpl; lia].
  - apply inv_remove. by apply (inv_drop h _ _ _ Hi).
  - by apply close_begin_inv.
  - by apply close_finish_inv.
  - apply (inv_drop h _ (AOnClose sid reason)); [|done|done]. apply inv_say; [done|].
    destruct Hok as (pid & d & Hd). exists pid, d. simpl. set_solver.
  - apply (inv_drop h _ (ATrackClose sid reason)); [by apply inv_stats|done|done].
  - unfold detachPeerRouting in *. rewrite Hsg in *. simplify_eq. simpl.
    apply inv_take_down. by apply (inv_drop h _ _ _ Hi).
  - unfold installControlSession. destruct Hctl as [->| ->]; simpl; rewrite ?orb_true_r; simpl;
      by apply (inv_drop h _ _ _ Hi).
  - destruct task as [|b [|? ?]]; [done| |done]. simpl in Hok. destruct Hok as [Hb Hh].
    apply refuse_inv. unfold goTracked. destruct (svDone _); simpl; [by apply (inv_drop h _ _ _ Hi)|].
    apply (inv_goes_on h _ _ [b] l Hi); [| |simpl; set_solver|done].
    + apply Forall_singleton. by destruct b.
    + intros pid. destruct b; try done; simpl; lia.
  - apply (inv_drop h _ (APushData pid data)); [|done|done].
    destruct Hok as (p & Hp & Hr). rewrite Hp. simpl. apply push_inv; [done|].
    intros c Hc. simpl. eauto 10.
  - apply (inv_drop h _ (APushControl pid data)); [|done|done].
    destruct Hok as (p & Hp & Hr). rewrite Hp. simpl. apply push_inv; [done|].
    intros c Hc. simpl. eauto 10.
  - by apply (inv_drop h _ _ _ Hi).
  - by apply (inv_drop h _ _ _ Hi).
  - apply inv_data. apply (inv_goes_on _ _ _ [ACloseData _] l Hi); [by_act_ok|simpl; lia|simpl; set_solver|done].
  - apply inv_data. apply (inv_goes_on _ _ _ [ARelay _ _; ACloseData _] l Hi);
      [by_act_ok|simpl; lia|simpl; set_solver|done].
  - by apply (inv_drop h _ _ _ Hi).
  - by apply (inv_drop h _ _ _ Hi).
  - apply inv_data. by apply (inv_drop h _ _ _ Hi).
  - apply inv_data. by apply (inv_drop h _ _ _ Hi).
  - apply (inv_drop h _ AStartReset); [by apply inv_say|done|done].
  - apply (inv_drop h _ AReconnect); [by apply inv_say|done|done].
Qed.

(** ** Frames from peers *)

Lemma open_session_inv h s ok s1 r l :
  srv_inv h s l -> open_session s ok = (s1, r) ->
  svCfg s1 = svCfg s /\ svPeers s1 = svPeers s /\ svTable s1 = svTable s /\ svNextPeer s1 = svNextPeer s /\
  match r with
  | None => srv_inv h s1 l
  | Some (conn, session) =>
      srv_inv h s1 (ARelease session :: ARelease conn :: l) /\ conn = svNextRes s /\
      (conn < svNextRes s1)%nat
  end.
Proof.
  intros Hi. unfold open_session. simpl. pose proof (inv_open _ _ _ Hi) as H1.
  destruct ok; intros [= <- <-]; split_and!; try done.
  - apply (inv_open _ _ _ H1).
  - simpl. lia.
  - eapply (inv_close_head h _ (ARelease _) _ [] l H1); [done|constructor|simpl; lia].
Qed.

(** A fresh conn belongs to nobody. *)
Lemma fresh_conn h s l pid p :
  srv_inv h s l -> svPeers s !! pid = Some p -> svNextRes s ∉ peer_conns p.
Proof.
  intros Hi Hp Hin. destruct (iv_peer _ _ _ Hi pid p Hp) as (_ & _ & _ & Hc & _).
  eapply Forall_forall in Hc; [|exact Hin]. simpl in Hc. lia.
Qed.

Lemma attach_conflict h s conn session l :
  srv_inv h s (ARelease session :: ARelease conn :: l) -> srv_inv h (close_res s [session; conn]) l.
Proof.
  intros Hi.
  apply (inv_exchange h _ [ARelease session; ARelease conn] [] l); [by apply inv_close|constructor|..].
  - simpl. lia.
  - intros r x Hr [->| ->%list_elem_of_singleton]%elem_of_cons; simpl in *; set_solver.
  - set_solver.
Qed.

Lemma attach_data_inv h s s1 pid p p' conn session l0 l :
  srv_inv h s l0 -> svPeers s1 !! pid = Some p ->
  srv_inv h s1 (ARelease session :: ARelease conn :: l) ->
  conn = svNextRes s -> (conn < svNextRes s1)%nat ->
  (forall pid' p', svPeers s1 !! pid' = Some p' -> svPeers s !! pid' = Some p' \/ peer_conns p' = []) ->
  attachData p conn session = Some p' ->
  srv_inv h (set_peers s1 (<[pid := p']> (svPeers s1))) ([ASpawn [AServe pid]] ++ l).
Proof.
  intros H0 Hp Hi -> Hlt Hold. unfold attachData.
  destruct (spClosed p) eqn:Hcl; [done|]. simpl.
  case_bool_decide as Hc1; [done|]. case_bool_decide as Hc2; [done|]. simpl. intros [= <-].
  destruct (decide (spConn p = None)) as [Hn1|]; [|by destruct Hc1].
  destruct (decide (spSession p = None)) as [Hn2|]; [|by destruct Hc2].
  destruct (iv_peer _ _ _ Hi pid p Hp) as (Hco & Hrd & Hsid & _).
  apply (inv_peer h s1 pid p _ [ARelease session; ARelease (svNextRes s)]
    [ASpawn [AServe pid]] l Hi Hp).
  split; try done.
  - constructor; simpl; [done|done| |done]. congruence.
  - simpl. congruence.
  - left. simpl. congruence.
  - intros c [->|Hc]%elem_of_cons; [right|left; unfold peer_conns; simpl in Hc; set_solver].
    split; [done|]. intros pid2 p2 _ Hp2. destruct (Hold _ _ Hp2) as [Hs2|Hnil]; [|rewrite Hnil; set_solver].
    by eapply fresh_conn.
  - simpl. rewrite Hrd. unfold used. simpl. rewrite Hrd, Hn1.
    destruct (scPeerControl (svCfg s1)); simpl; [lia|]. case_bool_decide; simpl; lia.
  - intros pid2 Hne. simpl. rewrite bool_decide_false by done. by destruct (scPeerControl (svCfg s1)).
  - apply Forall_singleton. simpl. split; [|done]. rewrite lookup_insert_eq. eauto.
  - intros r _ Hr. right. simpl. split; [congruence|]. unfold peer_res in *. simpl. rewrite Hn1, Hn2 in Hr.
    destruct Hr as [(x & [->| ->%list_elem_of_singleton]%elem_of_cons & Hr)|[_ Hr]]; simpl in *; set_solver.
  - set_solver.
Qed.

Lemma attach_control_inv h s s1 pid p p' conn session l0 l :
  srv_inv h s l0 -> svPeers s1 !! pid = Some p -> scPeerControl (svCfg s1) = true ->
  srv_inv h s1 (ARelease session :: ARelease conn :: l) ->
  conn = svNextRes s -> (conn < svNextRes s1)%nat ->
  (forall pid' p', svPeers s1 !! pid' = Some p' -> svPeers s !! pid' = Some p' \/ peer_conns p' = []) ->
  srv_attachControl p conn session = Some p' ->
  srv_inv h (set_peers s1 (<[pid := (startHandshake p').1]> (svPeers s1)))
    ((if (startHandshake p').2 then [ASpawn [AAcceptPeer pid 0]; ASpawn [AExpire pid]] else []) ++ l).
Proof.
  intros H0 Hp Hpc Hi -> Hlt Hold. unfold srv_attachControl, startHandshake.
  destruct (spClosed p) eqn:Hcl; [done|]. simpl.
  case_bool_decide as Hc1; [done|]. case_bool_decide as Hc2; [done|]. simpl. intros [= <-]. simpl.
  destruct (decide (spControlConn p = None)) as [Hn1|]; [|by destruct Hc1].
  destruct (decide (spControlSess p = None)) as [Hn2|]; [|by destruct Hc2].
  destruct (iv_peer _ _ _ Hi pid p Hp) as (Hco & Hrd & Hsid & _). rewrite Hpc in Hrd.
  apply (inv_peer h s1 pid p _ [ARelease session; ARelease (svNextRes s)] _ l Hi Hp).
  split; try done.
  - constructor; simpl; [done|done|done|]. congruence.
  - simpl. congruence.
  - left. simpl. congruence.
  - intros c [Hc|Hc]%elem_of_app; [left; unfold peer_conns; simpl in Hc; set_solver|right].
    simpl in Hc.
    apply list_elem_of_singleton in Hc as ->.
    split; [done|]. intros pid2 p2 _ Hp2. destruct (Hold _ _ Hp2) as [Hs2|Hnil]; [|rewrite Hnil; set_solver].
    by eapply fresh_conn.
  - unfold used. simpl. rewrite Hrd. destruct (spHandshakeOnce p); simpl; [lia|].
    rewrite bool_decide_true by done. lia.
  - intros pid2 Hne. destruct (spHandshakeOnce p); simpl; [lia|]. by rewrite bool_decide_false by done.
  - destruct (spHandshakeOnce p); simpl; [constructor|]. rewrite !Forall_cons, Forall_nil. simpl.
    rewrite lookup_insert_eq. intuition eauto.
  - intros r _ Hr. right. simpl. split; [congruence|]. unfold peer_res in *. simpl. rewrite Hn1, Hn2 in Hr.
    destruct Hr as [(x & [->| ->%list_elem_of_singleton]%elem_of_cons & Hr)|[_ Hr]]; simpl in *; set_solver.
  - set_solver.
Qed.

(** What the frame handlers know about the peer they return. *)
Definition found_peer (s : server) (peerID : string) (r : option nat) : Prop :=
  forall pid, r = Some pid -> exists p, svPeers s !! pid = Some p /\ spID p = peerID.

Lemma found_insert s pid p p' k :
  svPeers s !! pid = Some p -> spID p' = spID p -> found_peer s k (Some pid) ->
  found_peer (set_peers s (<[pid := p']> (svPeers s))) k (Some pid).
Proof.
  intros Hp Hid Hf pid' [= <-]. destruct (Hf pid eq_refl) as (q & Hq & <-). simplify_eq.
  exists p'. simpl. by rewrite lookup_insert_eq.
Qed.

(** The peer of a frame, once its conn and session are open: the one in the table
    or a new one. *)
Lemma locate_inv h s s1 peerID conn session l :
  srv_inv h s l -> srv_inv h s1 (ARelease session :: ARelease conn :: l) ->
  svCfg s1 = svCfg s -> svPeers s1 = svPeers s -> svTable s1 = svTable s ->
  svNextPeer s1 = svNextPeer s ->
  (svTable s !! peerID = None -> Z.of_nat (size (svTable s)) < maxPeerSessions) ->
  forall s2 pid,
  match svTable s !! peerID with
  | Some pid => (s1, pid)
  | None =>
      (set_table (alloc_peer s1 (srv_newPeerSession peerID (scPeerControl (svCfg s1)))).1
         (<[peerID := svNextPeer s1]> (svTable s1)), svNextPeer s1)
  end = (s2, pid) ->
  srv_inv h s2 (ARelease session :: ARelease conn :: l) /\ svCfg s2 = svCfg s1 /\
  svNextRes s2 = svNextRes s1 /\ svTable s2 !! peerID = Some pid /\
  (forall pid' p', svPeers s2 !! pid' = Some p' -> svPeers s !! pid' = Some p' \/ peer_conns p' = []) /\
  exists p, svPeers s2 !! pid = Some p /\ spID p = peerID /\ spCloseOnce p = false.
Proof.
  intros Hi H1 Hc Hp Ht Hn Hadm s2 pid. destruct (svTable s !! peerID) as [pid0|] eqn:Hk; intros [= <- <-].
  - destruct (iv_table _ _ _ Hi _ _ Hk) as (p & Hpp & ? & ?). split_and!; try done.
    + congruence.
    + rewrite Hp. auto.
    + exists p. by rewrite Hp.
  - assert (Hk1 : svTable s1 !! peerID = None) by congruence.
    split_and!; try done.
    + apply inv_admit; [done|done|]. rewrite Ht. auto.
    + simpl. by rewrite lookup_insert_eq.
    + simpl. intros pid' p' [[<- <-]|[_ Hp']]%lookup_insert_Some; [by right|left]. congruence.
    + exists (srv_newPeerSession peerID (scPeerControl (svCfg s1))). simpl. by rewrite lookup_insert_eq.
Qed.

Lemma found_table h s l peerID : srv_inv h s l -> found_peer s peerID (svTable s !! peerID).
Proof. intros Hi pid Hk. destruct (iv_table _ _ _ Hi _ _ Hk) as (p & ? & ? & _). eauto. Qed.

Lemma getPeerSession_inv h s peerID ok s' r acts l :
  srv_inv h s l -> getPeerSession s peerID ok = (s', r, acts) ->
  srv_inv h s' (acts ++ l) /\ found_peer s' peerID r.
Proof.
  intros Hi. unfold getPeerSession. destruct (_ || _); [by intros [= <- <- <-]|].
  set (has := match svTable s !! peerID with Some _ => _ | None => _ end). destruct has.
  { intros [= <- <- <-]. split; [done|]. by eapply found_table. }
  destruct (mayAdmitPeerLocked s (svTable s !! peerID)) eqn:Hadm; simpl; [|by intros [= <- <- <-]].
  destruct (open_session s ok) as [s1 [[conn session]|]] eqn:Hos;
    destruct (open_session_inv h s ok _ _ l Hi Hos) as (Hc & Hp & Ht & Hn & Hr);
    [|by intros [= <- <- <-]].
  destruct Hr as (H1 & -> & Hlt).
  assert (Hroom : svTable s !! peerID = None -> Z.of_nat (size (svTable s)) < maxPeerSessions).
  { intros Hk. rewrite Hk in Hadm. unfold mayAdmitPeerLocked in Hadm. destruct (svDone s); [done|].
    by bool_to_Prop. }
  pose proof (locate_inv h s s1 peerID _ session l Hi H1 Hc Hp Ht Hn Hroom) as Hloc. simpl in Hloc.
  match goal with |- context [match ?m with (_, _) => _ end] =>
    match m with match svTable s !! peerID with _ => _ end => destruct m as [s2 pid] eqn:Hm end end.
  destruct (Hloc s2 pid eq_refl) as (H2 & _ & Hnr & _ & Hold & p & Hpp & Hid & _).
  rewrite Hpp. simpl. destruct (attachData p (svNextRes s) session) as [p'|] eqn:Ha; intros [= <- <- <-].
  - split.
    + eapply (attach_data_inv h s s2 pid p p'); try done. congruence.
    + apply (found_insert _ _ p); [done| |].
      * unfold attachData in Ha. destruct (_ || _); by simplify_eq.
      * intros ? [= <-]. eauto.
  - split; [by apply attach_conflict|]. intros ? [= <-]. simpl. eauto.
Qed.

Lemma getControl_inv h s peerID ok s' r acts l :
  srv_inv h s l -> getOrCreatePeerControlSession s peerID ok = (s', r, acts) ->
  srv_inv h s' (acts ++ l) /\ found_peer s' peerID r.
Proof.
  intros Hi. unfold getOrCreatePeerControlSession.
  destruct (scPeerControl (svCfg s)) eqn:Hpc; [|by rewrite orb_true_r; intros [= <- <- <-]].
  destruct (_ || _); [by intros [= <- <- <-]|].
  set (has := match svTable s !! peerID with Some _ => _ | None => _ end). destruct has.
  { intros [= <- <- <-]. split; [done|]. by eapply found_table. }
  destruct (bool_decide (svTable s !! peerID = None) && _) eqn:Hadm; [by intros [= <- <- <-]|].
  destruct (open_session s ok) as [s1 [[conn session]|]] eqn:Hos;
    destruct (open_session_inv h s ok _ _ l Hi Hos) as (Hc & Hp & Ht & Hn & Hr);
    [|by intros [= <- <- <-]].
  destruct Hr as (H1 & -> & Hlt).
  assert (Hroom : svTable s !! peerID = None -> Z.of_nat (size (svTable s)) < maxPeerSessions).
  { intros Hk. rewrite bool_decide_true in Hadm by done. unfold mayAdmitPeerLocked in Hadm.
    destruct (svDone s); [done|]. simpl in Hadm. apply negb_false_iff in Hadm. by bool_to_Prop. }
  pose proof (locate_inv h s s1 peerID _ session l Hi H1 Hc Hp Ht Hn Hroom) as Hloc.
  assert (Hpc1 : scPeerControl (svCfg s1) = true) by congruence. rewrite Hpc1 in Hloc.
  destruct (svTable s !! peerID) as [pid|] eqn:Hk.
  - destruct (Hloc s1 pid eq_refl) as (_ & _ & _ & Htk & Hold & p & Hpp & Hid & _).
    rewrite Hpp. simpl. destruct (srv_attachControl p (svNextRes s) session) as [p'|] eqn:Ha; intros [= <- <- <-].
    + rewrite (insert_id (svTable s1) peerID pid) by done.
      change (set_table (set_peers s1 ?m) (svTable s1)) with (set_peers s1 m). split.
      * eapply (attach_control_inv h s s1 pid p p'); try done.
      * apply (found_insert _ _ p); [done| |].
        -- unfold srv_attachControl in Ha. destruct (_ || _); by simplify_eq.
        -- intros ? [= <-]. eauto.
    + split; [by apply attach_conflict|]. intros ? [= <-]. simpl. eauto.
  - destruct (Hloc _ _ eq_refl) as (H2 & _ & Hnr & Htk & Hold & p & Hpp & Hid & _). clear Hloc.
    simpl. rewrite lookup_insert_eq. simpl. intros [= <- <- <-]. split.
    + assert (Hq : p = srv_newPeerSession peerID true).
      { simpl in Hpp. rewrite lookup_insert_eq in Hpp. by injection Hpp as <-. }
      subst p.
      exact (attach_control_inv h s _ _ _ _ _ session l l Hi Hpp Hpc1 H2 eq_refl Hlt Hold eq_refl).
    + intros ? [= <-]. simpl. rewrite lookup_insert_eq. eauto.
Qed.

(** ** Runs *)

Lemma concat_pick {A} (ts : list (list A)) i a rest acts new :
  ts !! i = Some (a :: rest) ->
  concat ts ≡ₚ a :: concat (<[i := rest]> ts) /\
  concat (<[i := acts ++ rest]> ts ++ new) ≡ₚ acts ++ concat new ++ concat (<[i := rest]> ts).
Proof.
  intros Hi. pose proof (lookup_lt_Some _ _ _ Hi) as Hlt.
  rewrite <- (take_drop_middle ts i (a :: rest) Hi) at 1. rewrite !insert_take_drop by done.
  rewrite !concat_app, !concat_cons. split.
  - change ((a :: rest) ++ ?x) with ([a] ++ rest ++ x).
    by rewrite (Permutation_app_swap_app (concat (take i ts)) [a]).
  - rewrite <- !app_assoc. rewrite (Permutation_app_swap_app (concat (take i ts)) acts).
    apply Permutation_app_head. rewrite (Permutation_app_comm (concat new)). by rewrite <- !app_assoc.
Qed.

Lemma concat_snoc {A} (ts : list (list A)) t : concat (ts ++ [t]) ≡ₚ t ++ concat ts.
Proof. rewrite concat_app. simpl. rewrite app_nil_r. apply Permutation_app_comm. Qed.

(** A frame is pushed to the conn of the peer it came from. *)
Lemma inv_push_action h s l acts a :
  srv_inv h s (acts ++ l) -> act_ok h s a -> holding a = [] -> (forall c pid, token c pid a = 0%nat) ->
  srv_inv h s ((acts ++ [a]) ++ l).
Proof.
  intros Hi Ha Hh Ht. apply (inv_perm h s ([a] ++ acts ++ l)).
  { rewrite <- app_assoc. apply Permutation_app_swap_app. }
  apply (inv_exchange h s [] [a] (acts ++ l) Hi); [by apply Forall_singleton| | |].
  - intros pid. simpl. by rewrite Ht.
  - set_solver.
  - set_solver.
Qed.

Lemma srv_step_inv h s ev s' :
  srv_inv h s (concat (svTasks s)) -> srv_step s ev = Some s' ->
  srv_inv (h ++ [ev]) s' (concat (svTasks s')).
Proof.
  intros Hi Hstep. pose proof (inv_history h ev _ _ Hi) as Hh.
  destruct ev as [peerID data ok|peerID data ok| | | |ok cok|i ans]; simpl in Hstep.
  - injection Hstep as <-. unfold onPeerData.
    destruct (getPeerSession s peerID ok) as [[s1 r] acts] eqn:Hg.
    destruct (getPeerSession_inv _ _ _ _ _ _ _ _ Hh Hg) as [H1 Hf]. destruct r as [pid|]; simpl.
    + apply inv_tasks. eapply inv_perm; [symmetry; apply concat_snoc|].
      apply inv_push_action; [done| |done|done]. destruct (Hf pid eq_refl) as (p & Hp & <-).
      exists p. split; [done|]. exists ok. set_solver.
    + apply inv_tasks. eapply inv_perm; [symmetry; apply concat_snoc|].
      rewrite (iv_single _ _ _ H1). done.
  - injection Hstep as <-. unfold onPeerControlData.
    destruct (getOrCreatePeerControlSession s peerID ok) as [[s1 r] acts] eqn:Hg.
    destruct (getControl_inv _ _ _ _ _ _ _ _ Hh Hg) as [H1 Hf]. destruct r as [pid|]; simpl.
    + apply inv_tasks. eapply inv_perm; [symmetry; apply concat_snoc|].
      apply inv_push_action; [done| |done|done]. destruct (Hf pid eq_refl) as (p & Hp & <-).
      exists p. split; [done|]. exists ok. set_solver.
    + apply inv_tasks. by eapply inv_perm; [symmetry; apply concat_snoc|].
  - injection Hstep as <-. simpl. apply inv_tasks. eapply inv_perm; [symmetry; apply concat_snoc|].
    unfold handleReconnect, reinstallPeerRouting. rewrite (proj1 (iv_mode _ _ _ Hi)).
    apply (inv_exchange _ s [] _ _ Hh); [by_act_ok|simpl; lia|set_solver|set_solver].
  - injection Hstep as <-. simpl. apply (inv_state _ s _ _ Hh); try done; [by left|].
    exists []. by rewrite app_nil_r.
  - injection Hstep as <-. unfold with_tasks, closeSession, add_tasks.
    rewrite (iv_single _ _ _ Hi). simpl. apply inv_tasks.
    eapply inv_perm; [rewrite concat_app; apply Permutation_app_comm|]. by apply inv_take_down.
  - injection Hstep as <-. unfold bringUpLink, installControlSession.
    destruct (iv_mode _ _ _ Hi) as [-> [->| ->]]; rewrite ?orb_true_r; simpl; apply inv_tasks;
      by eapply inv_perm; [symmetry; apply concat_snoc|].
  - destruct (svTasks s !! i) as [[|a rest]|] eqn:Ht; [done| |done].
    destruct (act s a ans) as [[[s1 acts] ts]|] eqn:Hact; [|done]. injection Hstep as <-.
    destruct (concat_pick (svTasks s) i a rest acts ts Ht) as [Hp1 Hp2].
    simpl. eapply inv_perm; [symmetry; exact Hp2|]. apply inv_tasks.
    eapply act_inv; [|exact Hact]. by eapply inv_perm.
Qed.

Lemma srv_new_inv cfg : peer_mode cfg -> srv_inv [] (newServer cfg) [].
Proof.
  intros Hm. split; try done; simpl.
Qed.

Lemma srv_run_inv h s evs s' :
  srv_inv h s (concat (svTasks s)) -> srv_run s evs = Some s' ->
  srv_inv (h ++ evs) s' (concat (svTasks s')).
Proof.
  revert h s. induction evs as [|ev evs IH]; intros h s Hi; simpl.
  - intros [= <-]. by rewrite app_nil_r.
  - destruct (srv_step s ev) as [s1|] eqn:Hs; [|done]. intros Hr.
    rewrite (app_assoc h [ev] evs : h ++ ev :: evs = (h ++ [ev]) ++ evs).
    apply (IH _ s1); [|done]. by apply (srv_step_inv h s ev s1).
Qed.

(** ** Shutting down *)

(** The table only shrinks and [done] stays as it is. *)
Definition calm (s s' : server) : Prop := svTable s' ⊆ svTable s /\ svDone s' = svDone s.

Lemma calm_same s s' : svTable s' = svTable s -> svDone s' = svDone s -> calm s s'.
Proof. intros E1 E2. unfold calm. by rewrite E1, E2. Qed.

Lemma NewSessionPair_calm s ok cok s' r :
  NewSessionPair s ok cok = (s', r) -> svTable s' = svTable s /\ svDone s' = svDone s.
Proof.
  unfold NewSessionPair. simpl.
  destruct (scControlPlane (svCfg s)), ok, cok; simpl; by intros [= <- <-].
Qed.

Lemma act_calm s a ans s' acts ts : act s a ans = Some (s', acts, ts) -> calm s s'.
Proof.
  intros H. unfold act, acceptPeerHandshake, acceptHandshake, expirePeerHandshake, waitPeerHandshake,
    serve_loop, serveSingle, accept_single, run_ends, installControlSession, open_session,
    reinstall_replace, establishPeerSession, startPeerControlLoop, removePeer, closePeer_begin,
    closePeer_finish, swapSession, push_to, detachPeerRouting, relay_dispatch, watch_stream, open_data, refuse,
    with_acts, goes_on in H.
  repeat (case_match; simplify_eq; simpl in * );
    try (by apply calm_same); try (by split; [apply map_empty_subseteq|]).
  - split; [apply delete_subseteq|done].
  - match goal with H : NewSessionPair _ _ _ = _ |- _ => apply NewSessionPair_calm in H as [? ?] end.
    by apply calm_same.
  - match goal with H : NewSessionPair _ _ _ = _ |- _ => apply NewSessionPair_calm in H as [? ?] end.
    by apply calm_same.
Qed.

(** A stopped server with an empty table admits nobody. *)
Lemma stopped_step s ev s' :
  peer_mode (svCfg s) -> svDone s = true -> svTable s = ∅ -> srv_step s ev = Some s' ->
  svDone s' = true /\ svTable s' = ∅.
Proof.
  intros [Hln Hctl] Hd Ht. destruct ev as [peerID data ok|peerID data ok| | | |ok cok|i ans]; simpl.
  - unfold onPeerData, getPeerSession, mayAdmitPeerLocked. rewrite Hd, Ht, lookup_empty.
    destruct (_ || _); intros [= <-]; simpl; by destruct (sgConn (svSingle s)).
  - unfold onPeerControlData, getOrCreatePeerControlSession, mayAdmitPeerLocked.
    rewrite Hd, Ht, lookup_empty, (bool_decide_true (None = None)) by done.
    destruct (_ || _); by intros [= <-].
  - by intros [= <-].
  - by intros [= <-].
  - by intros [= <-].
  - unfold bringUpLink, installControlSession. rewrite Hln.
    destruct Hctl as [->| ->]; rewrite ?orb_true_r; by intros [= <-].
  - destruct (svTasks s !! i) as [[|a rest]|]; [done| |done].
    destruct (act s a ans) as [[[s1 acts] ts]|] eqn:Hact; [|done]. intros [= <-]. simpl.
    destruct (act_calm _ _ _ _ _ _ Hact) as [Hsub Hdn]. split; [congruence|].
    rewrite Ht in Hsub. apply (anti_symm (⊆)); [done|apply map_empty_subseteq].
Qed.

Lemma srv_run_app s e1 e2 :
  srv_run s (e1 ++ e2) = match srv_run s e1 with Some s1 => srv_run s1 e2 | None => None end.
Proof.
  revert s. induction e1 as [|ev e1 IH]; intros s; [done|]. simpl. destruct (srv_step s ev); [apply IH|done].
Qed.

Lemma stopped_run h s evs s' :
  srv_inv h s (concat (svTasks s)) -> svDone s = true -> svTable s = ∅ -> srv_run s evs = Some s' ->
  svDone s' = true /\ svTable s' = ∅.
Proof.
  revert h s. induction evs as [|ev evs IH]; intros h s Hi Hd Ht; simpl; [by intros [= <-]|].
  destruct (srv_step s ev) as [s1|] eqn:Hs; [|done]. intros Hr.
  destruct (stopped_step s ev s1 (iv_mode _ _ _ Hi) Hd Ht Hs) as [Hd1 Ht1].
  eapply (IH _ s1); [by eapply srv_step_inv|done|done|done].
Qed.

Lemma done_stays s evs s' : svDone s = true -> srv_run s evs = Some s' -> svDone s' = true.
Proof.
  revert s. induction evs as [|ev evs IH]; intros s Hd; simpl; [by intros [= <-]|].
  destruct (srv_step s ev) as [s1|] eqn:Hs; [|done]. apply IH.
  destruct ev as [peerID data ok|peerID data ok| | | |ok cok|i ans]; simpl in Hs;
    try (by injection Hs as <-).
  - injection Hs as <-. unfold onPeerData, getPeerSession, push_to, open_session, alloc_peer.
    repeat (case_match; simplify_eq; simpl in * ); done.
  - injection Hs as <-. unfold onPeerControlData, getOrCreatePeerControlSession, open_session,
      alloc_peer.
    repeat (case_match; simplify_eq; simpl in * ); done.
  - injection Hs as <-. unfold bringUpLink, installControlSession, installSession, open_session.
    repeat (case_match; simplify_eq; simpl in * ); try done.
    all: by match goal with H : NewSessionPair _ _ _ = _ |- _ => destruct (NewSessionPair_calm _ _ _ _ _ H) as [_ ->] end.
  - destruct (svTasks s !! i) as [[|a rest]|]; [done| |done].
    destruct (act s a ans) as [[[s2 acts] ts]|] eqn:Hact; [|done]. injection Hs as <-. simpl.
    destruct (act_calm _ _ _ _ _ _ Hact) as [_ ->]. done.
Qed.

Lemma quiescent_concat s : quiescent s -> concat (svTasks s) = [].
Proof. unfold quiescent. induction 1 as [|t ts -> _ IH]; [done|]. simpl. done. Qed.

(** ** Data streams *)

(** The data stream or target connection an action is going to close. *)
Definition data_of (a : action) : list nat :=
  match a with
  | AHandleStream _ _ r _ | AHandleSingle _ r | ACloseData r
  | ASpawn [AHandleStream _ _ r _] | ASpawn [AHandleSingle _ r] => [r]
  | _ => []
  end.

Definition refused (s : server) (r : nat) : Prop := exists session, (session, r) ∈ dsRefused (svData s).

(** What is open is going to be closed by a goroutine, or was refused. *)
Definition data_inv (s : server) : Prop :=
  (forall r, r ∈ dsOpen (svData s) -> (exists a, a ∈ concat (svTasks s) /\ r ∈ data_of a) \/ refused s r) /\
  (svDone s = false -> dsRefused (svData s) = []).

Record data_step (s : server) (a : action) (s' : server) (new : list action) : Prop := {
  dt_open : forall r, r ∈ dsOpen (svData s') ->
    (r ∈ dsOpen (svData s) /\ r ∉ data_of a) \/ (exists b, b ∈ new /\ r ∈ data_of b) \/ refused s' r;
  dt_refused : forall x, x ∈ dsRefused (svData s) -> x ∈ dsRefused (svData s');
  dt_done : svDone s' = svDone s;
  dt_running : svDone s = false -> dsRefused (svData s') = dsRefused (svData s);
}.

Lemma data_same s a s' new :
  svData s' = svData s -> svDone s' = svDone s -> data_of a = [] -> data_step s a s' new.
Proof.
  intros E1 E2 E3. constructor; rewrite ?E1; try done.
  intros r Hr. left. rewrite E3. split; [done|]. by intros ?%elem_of_nil.
Qed.

Lemma NewSessionPair_data s ok cok s' r :
  NewSessionPair s ok cok = (s', r) ->
  svData s' = svData s /\ svDone s' = svDone s /\ svTasks s' = svTasks s.
Proof.
  unfold NewSessionPair. simpl.
  destruct (scControlPlane (svCfg s)), ok, cok; simpl; by intros [= <- <-].
Qed.

(** A stream that was just accepted, or a connection that was just dialled. *)
Lemma data_opened s a b new :
  data_of a = [] -> b ∈ new -> dsNext (svData s) ∈ data_of b -> data_step s a (open_data s).1 new.
Proof.
  intros Ha Hb Hr. constructor; try done. simpl. intros r [->%elem_of_singleton|Ho]%elem_of_union.
  - right; left. by exists b.
  - left. rewrite Ha. split; [done|]. by intros ?%elem_of_nil.
Qed.

Lemma data_closed s a r new : (forall x, x ∈ data_of a -> x = r) -> data_step s a (close_data s r) new.
Proof.
  intros Ha. constructor; try done. simpl. intros x [Hx Hn]%elem_of_difference. left. split; [done|].
  intros Hin. apply Hn. apply Ha in Hin as ->. by apply elem_of_singleton.
Qed.

Lemma data_spawned s task : data_step s (ASpawn task) (refuse s task) (concat (goTracked s task)).
Proof.
  unfold refuse, goTracked. destruct (svDone s) eqn:Hd; simpl.
  - assert (Hadd : forall session stream, (forall x, x ∈ data_of (ASpawn task) -> x = stream) ->
      data_step s (ASpawn task) (set_data s (MkData (dsOpen (svData s)) (dsNext (svData s))
        (dsRefused (svData s) ++ [(session, stream)]))) []).
    { intros session stream Ht. constructor; simpl; try done; [|set_solver|congruence]. intros r Hr.
      destruct (decide (r = stream)) as [->|Hne]; [right; right; exists session; simpl; set_solver|].
      left. split; [done|]. by intros ->%Ht. }
    destruct task as [|[] [|? ?]]; try (by apply data_same);
      apply Hadd; simpl; by intros x ->%list_elem_of_singleton.
  - constructor; try done. intros r Hr. rewrite app_nil_r.
    destruct (decide (r ∈ data_of (ASpawn task))) as [Hin|]; [right; left|by left].
    destruct task as [|b [|? ?]]; [by apply elem_of_nil in Hin| |destruct b; by apply elem_of_nil in Hin].
    exists b. split; [by left|]. destruct b; try done; by apply elem_of_nil in Hin.
Qed.

Lemma act_data s a ans s' acts ts :
  act s a ans = Some (s', acts, ts) -> data_step s a s' (acts ++ concat ts).
Proof.
  intros H. assert (Hsp : (exists task, a = ASpawn task) \/ forall task, a <> ASpawn task)
    by (destruct a; eauto).
  destruct Hsp as [[task ->]|Hns].
  { simpl in H. destruct ans; try done. injection H as <- <- <-. apply data_spawned. }
  unfold act, acceptPeerHandshake, acceptHandshake, expirePeerHandshake, waitPeerHandshake,
    serve_loop, serveSingle, accept_single, run_ends, installControlSession, open_session,
    reinstall_replace, establishPeerSession, startPeerControlLoop, removePeer, closePeer_begin,
    closePeer_finish, swapSession, push_to, detachPeerRouting, relay_dispatch, watch_stream,
    with_acts, goes_on in H.
  destruct a; try (destruct ans; discriminate H);
    try (by edestruct Hns);
    repeat (case_match; simplify_eq; simpl in * );
    try (by apply data_same);
    try (injection H as <- <- <-; by apply data_same);
    try (match goal with H : NewSessionPair _ _ _ = _ |- _ => apply NewSessionPair_data in H as (? & ? & _) end;
         by apply data_same).
  - injection H as <- <- <-.
    apply (data_opened s _ (ASpawn [AHandleStream pid session (dsNext (svData s)) sid]));
      [done|by left|by left].
  - injection H as <- <- <-. constructor; simpl; try done. intros r Hr.
    destruct (decide (r = stream)) as [->|Hne]; [right; left|left].
    + exists (ACloseData stream). split; [right; by left|by left].
    + split; [done|]. by intros ?%list_elem_of_singleton.
  - injection H as <- <- <-.
    apply (data_opened s _ (ASpawn [AHandleSingle session (dsNext (svData s))])); [done|by left|by left].
  - injection H as <- <- <-. constructor; simpl; try done. intros r Hr.
    destruct (decide (r = stream)) as [->|Hne]; [right; left|left].
    + exists (ACloseData stream). split; [right; by left|by left].
    + split; [done|]. by intros ?%list_elem_of_singleton.
  - injection H as <- <- <-. apply (data_opened s _ (ACloseData (dsNext (svData s)))); [done|by left|by left].
  - injection H as <- <- <-.
    apply (data_opened s _ (ACloseData (dsNext (svData s)))); [done|right; by left|by left].
  - apply data_closed. by intros x ?%elem_of_nil.
  - apply data_closed. by intros x ?%list_elem_of_singleton.
Qed.

(** Frames, the provider and the end of the server leave the data streams alone. *)
Lemma srv_step_data s ev s' :
  (forall i ans, ev <> EvTask i ans) -> srv_step s ev = Some s' ->
  svData s' = svData s /\ (svDone s' = false -> svDone s = false) /\
  exists ts, svTasks s' = svTasks s ++ ts.
Proof.
  intros Hne Hs. destruct ev as [peerID data ok|peerID data ok| | | |ok cok|i ans]; simpl in Hs;
    try (by destruct (Hne i ans)); injection Hs as <-.
  - unfold onPeerData, getPeerSession, push_to, open_session, alloc_peer.
    repeat (case_match; simplify_eq; simpl in * ); split_and!; try done; by eexists.
  - unfold onPeerControlData, getOrCreatePeerControlSession, open_session, alloc_peer.
    repeat (case_match; simplify_eq; simpl in * ); split_and!; try done; by eexists.
  - split_and!; [done|done|by eexists].
  - split_and!; [done|done|]. exists []. simpl. by rewrite app_nil_r.
  - split_and!; [done|done|by eexists].
  - unfold bringUpLink, installControlSession, installSession, open_session.
    repeat (case_match; simplify_eq; simpl in * ); split_and!; try done; try (by eexists).
    all: match goal with H : NewSessionPair _ _ _ = _ |- _ =>
           destruct (NewSessionPair_data _ _ _ _ _ H) as (E1 & E2 & E3) end.
    all: first [exact E1|congruence|rewrite E3; by eexists].
Qed.

Lemma srv_step_data_inv s ev s' : data_inv s -> srv_step s ev = Some s' -> data_inv s'.
Proof.
  intros [Ho Hd] Hs.
  assert (Hev : (exists i ans, ev = EvTask i ans) \/ forall i ans, ev <> EvTask i ans) by (destruct ev; eauto).
  destruct Hev as [(i & ans & ->)|Hne]; cycle 1.
  { destruct (srv_step_data s ev s' Hne Hs) as (E1 & E2 & ts & E3). split; rewrite E1; [|auto].
    unfold refused. rewrite E1, E3, concat_app. intros r Hr. destruct (Ho r Hr) as [(a & Ha & Hra)|?]; [left|by right].
    exists a. split; [apply elem_of_app; by left|done]. }
  simpl in Hs. destruct (svTasks s !! i) as [[|a rest]|] eqn:Ht; [done| |done].
  destruct (act s a ans) as [[[s1 acts] ts]|] eqn:Hact; [|done]. injection Hs as <-.
  destruct (concat_pick (svTasks s) i a rest acts ts Ht) as [Hp1 Hp2].
  destruct (act_data s a ans s1 acts ts Hact) as [D1 D2 D3 D4]. split; simpl.
  - intros r Hr. setoid_rewrite Hp2. destruct (D1 r Hr) as [[Hold Hna]|[(b & Hb & Hrb)|?]]; [|left|by right].
    + destruct (Ho r Hold) as [(b & Hb & Hrb)|(session & Hx)]; [left|right; exists session; by apply D2].
      rewrite Hp1 in Hb. apply elem_of_cons in Hb as [->|Hb]; [done|]. exists b. set_solver.
    + exists b. set_solver.
  - intros Hdn. assert (Hd0 : svDone s = false) by congruence. rewrite D4 by done. auto.
Qed.

Lemma srv_run_data_inv s evs s' : data_inv s -> srv_run s evs = Some s' -> data_inv s'.
Proof.
  revert s. induction evs as [|ev evs IH]; intros s Hi; simpl; [by intros [= <-]|].
  destruct (srv_step s ev) as [s1|] eqn:Hs; [|done]. apply IH. by eapply srv_step_data_inv.
Qed.

Lemma srv_new_data cfg : data_inv (newServer cfg).
Proof. split; [|done]. intros r Hr. by apply not_elem_of_empty in Hr. Qed.
