(* ===== verification/ServerProps.v ===== *)
(** * ServerProps: the guarantees of the server *)

From S2P Require Import Prelude Server ServerFacts ServerRuns.

(** A server of a transport with a control plane per peer, and one of a transport
    without. *)
Definition vp8_server : srvConfig := MkSrvConfig true true true.
Definition dc_server : srvConfig := MkSrvConfig true false false.

Lemma srv_reachable_inv cfg evs s :
  peer_mode cfg -> srv_run (newServer cfg) evs = Some s -> srv_inv evs s (concat (svTasks s)).
Proof. intros Hm Hr. apply (srv_run_inv [] (newServer cfg) evs s); [|done]. by apply srv_new_inv. Qed.

(** ** Shutting down *)

(** C15: shutting the server down releases everything.  In any run of a server
    that routes by peer, in whatever order frames arrive, handshakes succeed, fail
    or time out, streams are accepted and served, control loops die and the provider
    reconnects: if [done] is closed, [closeSession] runs after that and all
    goroutines have finished, then no connection, smux session, control stream or
    control context is left open and the peer table is empty.  Of the data streams
    and target connections none is left open either, except data streams that were
    accepted while the server was stopping: for these [goTracked] starts no handler,
    so they end only with their smux session, which is closed.  Before that the
    table never exceeds its cap, every peer in it is open and registered under its
    own identifier, and as long as [done] is open no stream is refused. *)
Theorem server_shutdown_releases_all (cfg : srvConfig) (e1 e2 e3 : list srv_event) (s1 s : server)
    (Hmode : peer_mode cfg)
    (Hrun1 : srv_run (newServer cfg) e1 = Some s1)
    (Hrun : srv_run (newServer cfg) (e1 ++ [EvDone] ++ e2 ++ [EvCloseSession] ++ e3) = Some s)
    (Hquiet : quiescent s) :
  svOpen s = ∅ /\ svTable s = ∅ /\
  (forall r, r ∈ dsOpen (svData s) -> exists session, (session, r) ∈ dsRefused (svData s) /\ session ∉ svOpen s) /\
  Z.of_nat (size (svTable s1)) <= maxPeerSessions /\
  (forall k pid, svTable s1 !! k = Some pid ->
     exists p, svPeers s1 !! pid = Some p /\ spID p = k /\ spClosed p = false) /\
  (svDone s1 = false -> dsRefused (svData s1) = []).
Proof.
  assert (Ht : svTable s = ∅).
  { rewrite srv_run_app, Hrun1 in Hrun. rewrite srv_run_app in Hrun. simpl in Hrun.
    set (sd := MkServer _ _ _ _ _ _ true _ _ _ _ _) in Hrun.
    assert (Hid : srv_inv (e1 ++ [EvDone]) sd (concat (svTasks sd))).
    { apply (srv_step_inv e1 s1 EvDone); [by apply (srv_reachable_inv cfg)|done]. }
    rewrite srv_run_app in Hrun. destruct (srv_run sd e2) as [s2|] eqn:H2; [|done].
    pose proof (srv_run_inv _ _ _ _ Hid H2) as Hi2. simpl in Hrun.
    pose proof (done_stays sd e2 s2 eq_refl H2) as Hd2.
    assert (Hstep : srv_step s2 EvCloseSession = Some (with_tasks (closeSession s2))) by done.
    eapply (stopped_run _ _ _ _ (srv_step_inv _ _ _ _ Hi2 Hstep)); [done|done|exact Hrun]. }
  pose proof (srv_reachable_inv cfg _ _ Hmode Hrun) as Hi. rewrite (quiescent_concat s Hquiet) in Hi.
  pose proof (srv_reachable_inv cfg _ _ Hmode Hrun1) as Hi1.
  assert (Hempty : svOpen s = ∅).
  { apply leibniz_equiv, set_equiv. intros r. split; [|set_solver]. intros Hr.
    destruct (iv_own _ _ _ Hi r Hr) as [(a & Ha & _)|(pid & p & Hp & Hc & _)]; [set_solver|].
    destruct (iv_peer _ _ _ Hi pid p Hp) as (_ & _ & _ & _ & _ & Hreach).
    destruct (Hreach Hc) as [Hk|(re & Hin)]; [by rewrite Ht in Hk|set_solver]. }
  split_and!; [done|done| | | |].
  - intros r Hr. destruct (srv_run_data_inv _ _ _ (srv_new_data cfg) Hrun) as [Ho _].
    destruct (Ho r Hr) as [(a & Ha & _)|(session & Hx)].
    + rewrite (quiescent_concat s Hquiet) in Ha. by apply elem_of_nil in Ha.
    + exists session. split; [done|]. rewrite Hempty. apply not_elem_of_empty.
  - apply (iv_size _ _ _ Hi1).
  - intros k pid Hk. destruct (iv_table _ _ _ Hi1 k pid Hk) as (p & Hp & Hid & Hc).
    exists p. split_and!; [done|done|]. destruct (iv_peer _ _ _ Hi1 pid p Hp) as (-> & _). done.
  - apply (srv_run_data_inv _ _ _ (srv_new_data cfg) Hrun1).
Qed.

(** A client connects, is served a stream whose target is dialled, and the server
    shuts down.  Another stream is accepted just as it does. *)
Definition demo_life : list srv_event :=
  [ EvPeerControl "p1" [1] true; EvTask 0 Go; EvTask 0 Go; EvTask 0 Go;
    EvTask 1 Accepted; EvTask 1 (HsOk "s1" "d1"); EvTask 1 Go; EvTask 1 Go; EvTask 1 Go; EvTask 1 Go;
    EvPeerData "p1" [2] true; EvTask 4 Go; EvTask 4 Go; EvTask 5 Go; EvTask 5 Accepted; EvTask 5 Go;
    EvTask 6 Go; EvTask 6 Connected; EvTask 2 ReadyCloses ].
Definition demo_end : list srv_event :=
  [ EvTask 9 Go; EvTask 9 Go; EvTask 9 Go; EvTask 9 Go; EvTask 5 DoneCloses;
    EvTask 3 (RunEnds true); EvTask 3 Go; EvTask 6 Go; EvTask 6 Go; EvTask 6 Go; EvTask 7 Cancelled ].

Lemma server_shutdown_releases_all_witness :
  exists s1 s,
    srv_run (newServer vp8_server) demo_life = Some s1 /\ (size (svOpen s1) = 6)%nat /\
    dsOpen (svData s1) = {[0%nat; 1%nat]} /\
    srv_run (newServer vp8_server)
      (demo_life ++ [EvDone] ++ [EvTask 5 Accepted; EvTask 5 Go] ++ [EvCloseSession] ++ demo_end) = Some s /\
    svOpen s = ∅ /\ svTable s = ∅ /\ dsOpen (svData s) = {[2%nat]} /\ 
    exists session, (session, 2%nat) ∈ dsRefused (svData s) /\ session ∉ svOpen s.
Proof.
  eexists _, _. split; [vm_compute; reflexivity|]. split; [vm_compute; reflexivity|].
  split; [vm_compute; reflexivity|]. split; [vm_compute; reflexivity|].
  edestruct (server_shutdown_releases_all vp8_server demo_life [EvTask 5 Accepted; EvTask 5 Go] demo_end)
    as (H1 & H2 & H3 & _);
    [by split; [|left]|vm_compute; reflexivity|vm_compute; reflexivity| |].
  - unfold quiescent. simpl. repeat constructor.
  - split; [exact H1|]. split; [exact H2|]. split; [vm_compute; reflexivity|].
    apply H3. vm_compute. reflexivity.
Defined.

(** ** Routing and authentication *)

(** C16: a peer gets its own frames and is served only once it is authenticated.
    In any run of a server that routes by peer: a frame is handed to a connection
    only if it came in under the identifier of the one peer that owns the
    connection, and on the plane the connection belongs to; and a data stream is
    served only for a peer whose handshake succeeded, under the session identifier
    that this handshake returned.  [OnSessionClose] names only such sessions. *)
Theorem server_routes_and_authenticates (cfg : srvConfig) (evs : list srv_event) (s : server)
    (Hmode : peer_mode cfg) (Hrun : srv_run (newServer cfg) evs = Some s) :
  (forall conn data, LPush conn data ∈ svLog s -> exists pid p, svPeers s !! pid = Some p /\
     ((spConn p = Some conn /\ exists ok, EvPeerData (spID p) data ok ∈ evs) \/
      (spControlConn p = Some conn /\ exists ok, EvPeerControl (spID p) data ok ∈ evs)) /\
     forall pid' p', svPeers s !! pid' = Some p' ->
       spConn p' = Some conn \/ spControlConn p' = Some conn -> pid' = pid) /\
  (forall pid sid, LServe pid sid ∈ svLog s -> exists device, LHandshake pid sid device ∈ svLog s) /\
  (forall sid reason, LClose sid reason ∈ svLog s ->
     exists pid device, LHandshake pid sid device ∈ svLog s).
Proof.
  pose proof (srv_reachable_inv cfg evs s Hmode Hrun) as Hi. pose proof (iv_log _ _ _ Hi) as Hlog.
  rewrite Forall_forall in Hlog.
  assert (Hconn : forall p conn, spConn p = Some conn \/ spControlConn p = Some conn -> conn ∈ peer_conns p).
  { intros p conn [H|H]; unfold peer_conns; rewrite H; simpl; set_solver. }
  split_and!.
  - intros conn data Hin. destruct (Hlog _ Hin) as (pid & p & Hp & Hd). exists pid, p. split_and!; [done|done|].
    intros pid' p' Hp' Hc. apply (iv_disjoint _ _ _ Hi pid' pid p' p conn Hp' Hp); [by apply Hconn|].
    apply Hconn. by destruct Hd as [[? _]|[? _]]; [left|right].
  - intros pid sid Hin. apply (Hlog _ Hin).
  - intros sid reason Hin. apply (Hlog _ Hin).
Qed.

Lemma server_routes_and_authenticates_witness :
  exists s, srv_run (newServer vp8_server) demo_life = Some s /\
    LServe 0 "s1" ∈ svLog s /\ LPush 4 [2] ∈ svLog s /\
    exists device, LHandshake 0 "s1" device ∈ svLog s.
Proof.
  eexists. split; [vm_compute; reflexivity|]. cbn [svLog].
  split; [set_solver|]. split; [set_solver|].
  edestruct (server_routes_and_authenticates vp8_server demo_life) as (_ & H & _);
    [by split; [|left]|vm_compute; reflexivity|]. apply (H 0%nat "s1"). set_solver.
Defined.

(** ** Two defects *)

(** One failed handshake takes every peer down.  On a transport that routes
    by peer without a control plane, the handshake of each peer runs through
    [acceptHandshake]; when it fails for any one of them, the whole peer table is
    detached and every other peer, authenticated or not, is closed with reason
    "reconnect". *)
Theorem failed_handshake_drops_all_peers (s : server) (i pid session retry stream : nat)
    (rest : list action)
    (Hmode : scPeerLn (svCfg s) = true)
    (Htask : svTasks s !! i = Some (AHandshake (OPeer pid) session retry stream :: rest)) :
  exists s', srv_run s [EvTask i HsFails; EvTask i Go] = Some s' /\ svTable s' = ∅ /\
    forall k other, svTable s !! k = Some other -> [AClose other "reconnect"] ∈ svTasks s'.
Proof.
  pose proof (lookup_lt_Some _ _ _ Htask) as Hlt. simpl. rewrite Htask. simpl.
  unfold reinstallSession. simpl. rewrite Hmode. simpl.
  rewrite app_nil_r, list_lookup_insert_eq by done. simpl.
  eexists. split; [reflexivity|]. split; [done|]. intros k other Hk. simpl.
  apply elem_of_app. right. apply list_elem_of_fmap. exists (k, other). split; [done|].
  by apply elem_of_map_to_list.
Qed.

Definition demo_two_peers : list srv_event :=
  [ EvPeerData "a" [1] true; EvTask 0 Go; EvTask 0 Go; EvTask 1 Go; EvTask 1 Accepted;
    EvTask 1 (HsOk "sa" "da"); EvTask 1 Go; EvTask 1 Go; EvTask 1 Go; EvTask 1 Go;
    EvPeerData "b" [2] true; EvTask 3 Go; EvTask 3 Go; EvTask 4 Go; EvTask 4 Accepted ].

Definition two_peers : server :=
  default (newServer dc_server) (srv_run (newServer dc_server) demo_two_peers).

Lemma failed_handshake_drops_all_peers_witness :
  svLog two_peers !! 2%nat = Some (LHandshake 0 "sa" "da") /\
  exists s', srv_run two_peers [EvTask 4 HsFails; EvTask 4 Go] = Some s' /\
    [AClose 0 "reconnect"] ∈ svTasks s'.
Proof.
  split; [vm_compute; reflexivity|].
  destruct (failed_handshake_drops_all_peers two_peers 4 1 5 0 6 []) as (s' & H1 & _ & H3);
    [vm_compute; reflexivity|vm_compute; reflexivity|].
  exists s'. split; [exact H1|]. apply (H3 "a" 0%nat). vm_compute. reflexivity.
Defined.

(** A session removed right after its handshake stays in the books for ever.
    [acceptPeerHandshake] publishes the session identifier with [setHandshake]
    and only later calls [onOpen] and [trackPeerOpen]; when the peer is removed in
    between, the caller is told first that the session closed and then that it
    opened, and its entry in [peerStats] is never deleted: this run ends with all
    goroutines finished, nothing open, and the session still listed. *)
Theorem session_opened_after_close :
  exists evs s, srv_run (newServer vp8_server) evs = Some s /\ quiescent s /\
    svOpen s = ∅ /\ svTable s = ∅ /\
    svLog s = [LPush 0 []; LHandshake 0 "s1" "d1"; LClose "s1" "reconnect"; LOpen "s1" "d1"] /\
    svStats s = {["s1" := "d1"]}.
Proof.
  exists [ EvPeerControl "p1" [] true; EvTask 0 Go; EvTask 0 Go; EvTask 0 Go;
           EvTask 1 Accepted; EvTask 1 (HsOk "s1" "d1"); EvTask 2 ReadyCloses;
           EvProvider; EvTask 3 Go; EvTask 3 (Smux true true);
           EvTask 4 Go; EvTask 4 Go; EvTask 4 Go; EvTask 4 Go;
           EvTask 1 Go; EvTask 1 Go; EvTask 1 Go ].
  eexists. split; [vm_compute; reflexivity|]. split; [repeat constructor|].
  split_and!; vm_compute; reflexivity.
Qed.

(** A stale request to reinstall kills the live session.  [reinstallSession]
    closes the installed pair before [swapSession] finds out whether the session
    reported dead is still the installed one.  When it is not (another goroutine
    has replaced it already), the replacement is thrown away and the server is
    left with the current pair installed although all its sessions and
    connections have just been closed. *)
Theorem stale_reinstall_kills_live_session (s : server) (i dead : nat) (rest : list action)
    (p : SessionPair)
    (Hsingle : scPeerLn (svCfg s) = false)
    (Htask : svTasks s !! i = Some (AReinstall (Some dead) :: rest))
    (Hpair : sgPair (svSingle s) = Some p)
    (Hstale : staleReinstall (svSingle s) (Some dead) = true) :
  exists s', srv_run s [EvTask i Go; EvTask i (Smux true true); EvTask i Go] = Some s' /\
    svSingle s' = svSingle s /\ forall r, r ∈ pair_Close p -> r ∉ svOpen s'.
Proof.
  pose proof (lookup_lt_Some _ _ _ Htask) as Hlt. simpl. rewrite Htask. simpl.
  rewrite app_nil_r, list_lookup_insert_eq by done. simpl.
  unfold reinstall_replace, NewSessionPair. simpl.
  destruct (scControlPlane (svCfg s)); simpl;
    rewrite app_nil_r, list_lookup_insert_eq by (by rewrite length_insert); simpl;
    unfold swapSession; simpl; rewrite Hsingle, Hstale; simpl;
    (eexists; split; [reflexivity|]; split; [done|]); intros r Hr; simpl; rewrite Hpair;
    unfold pair_Close in *; simpl in *; repeat case_bool_decide; try lia; set_unfold; intuition.
Qed.

(** The session is replaced while the accept loop still holds the old one. *)
Definition demo_stale : list srv_event :=
  [ EvBringUp true true; EvTask 1 Go; EvTask 1 Accepted; EvTask 1 (HsOk "s" "d");
    EvTask 1 Go; EvTask 1 Go; EvTask 1 Go; EvTask 1 Go; EvProvider; EvTask 3 Go;
    EvTask 3 (Smux true true); EvTask 3 Go; EvTask 3 Go; EvTask 3 Go;
    EvTask 1 (AcceptFails false) ].
Definition stale_server : server :=
  default (newServer (MkSrvConfig false false false))
    (srv_run (newServer (MkSrvConfig false false false)) demo_stale).

Lemma stale_reinstall_kills_live_session_witness :
  sgSession (svSingle stale_server) = Some 5%nat /\ 5%nat ∈ svOpen stale_server /\
  exists s', srv_run stale_server [EvTask 1 Go; EvTask 1 (Smux true true); EvTask 1 Go] = Some s' /\
    sgSession (svSingle s') = Some 5%nat /\ 5%nat ∉ svOpen s'.
Proof.
  split; [vm_compute; reflexivity|]. split; [vm_compute; reflexivity|].
  destruct (stale_reinstall_kills_live_session stale_server 1 1
              (drop 1 (default [] (svTasks stale_server !! 1%nat))) (MkPair 4 5 None 5))
    as (s' & H1 & H2 & H3); [vm_compute; reflexivity..|].
  exists s'. split; [exact H1|]. split; [rewrite H2; vm_compute; reflexivity|].
  apply H3. vm_compute. left.
Defined.
