(* ===== verification/Reconnect.v ===== *)
(** * Reconnect: the reconnect supervisor of an engine
    (internal/engine/reconnect.go)

    Times are readings of the monotonic clock in nanoseconds; the zero
    [time.Time] is [None].  What happens outside the supervisor is a script: one
    [round] per turn of the attempt loop, with the clock readings of that turn,
    the result of [reconnect], whether other goroutines asked for a reconnect
    meanwhile, and whether the wait was cut short by [ctx] or [done].  The loops
    recurse on the script; [StillTrying] means that it is used up. *)

From S2P Require Import Prelude.

(* go: engine/reconnect.go 11-11 reconnectFailureWindow *)
Definition reconnectFailureWindow : Z := 5 * 60 * 1000000000.
(* go: engine/reconnect.go 12-12 reconnectBackoffStep *)
Definition reconnectBackoffStep : Z := 2 * 1000000000.
(* go: engine/reconnect.go 13-13 reconnectBackoffMax *)
Definition reconnectBackoffMax : Z := 30 * 1000000000.

(* go: engine/reconnect.go 16-26 ReconnectRequest *)
Inductive ReconnectRequest := ReconnectRejected | ReconnectQueued | ReconnectCoalesced.

#[export] Instance ReconnectRequest_eq_dec : EqDecision ReconnectRequest.
Proof. solve_decision. Defined.

(* go: engine/reconnect.go 28-37 ReconnectorConfig *)
Record ReconnectorConfig := MkReconnectorConfig {
  cfgMaxAttempts : Z;
  cfgCountFailures : bool;
  cfgHasLimit : bool;
  cfgLimitReason : string;
}.

(** The callbacks are represented by whether they are registered. *)
(* go: engine/reconnect.go 39-61 Reconnector *)
Record Reconnector := MkReconnector {
  rcCfg : ReconnectorConfig;
  rcQueue : bool;
  rcHasReconnect : bool;
  rcHasShould : bool;
  rcHasEnded : bool;
  rcCount : Z;
  rcWindowStart : option Z;
  rcLastRequest : option Z;
}.

(* go: engine/reconnect.go 63-81 NewReconnector *)
Definition NewReconnector (cfg : ReconnectorConfig) : Reconnector :=
  MkReconnector cfg false false false false 0 None None.

Definition set_count (r : Reconnector) (count : Z) (window last : option Z) : Reconnector :=
  MkReconnector (rcCfg r) (rcQueue r) (rcHasReconnect r) (rcHasShould r) (rcHasEnded r) count window last.
Definition set_rqueue (r : Reconnector) (q : bool) : Reconnector :=
  MkReconnector (rcCfg r) q (rcHasReconnect r) (rcHasShould r) (rcHasEnded r) (rcCount r)
    (rcWindowStart r) (rcLastRequest r).

(* go: engine/reconnect.go 83-90 SetReconnectCallback *)
Definition SetReconnectCallback (r : Reconnector) (present : bool) : Reconnector :=
  MkReconnector (rcCfg r) (rcQueue r) present (rcHasShould r) (rcHasEnded r) (rcCount r)
    (rcWindowStart r) (rcLastRequest r).
(* go: engine/reconnect.go 92-99 SetShouldReconnect *)
Definition SetShouldReconnect (r : Reconnector) (present : bool) : Reconnector :=
  MkReconnector (rcCfg r) (rcQueue r) (rcHasReconnect r) present (rcHasEnded r) (rcCount r)
    (rcWindowStart r) (rcLastRequest r).
(* go: engine/reconnect.go 101-108 SetEndedCallback *)
Definition SetEndedCallback (r : Reconnector) (present : bool) : Reconnector :=
  MkReconnector (rcCfg r) (rcQueue r) (rcHasReconnect r) (rcHasShould r) present (rcCount r)
    (rcWindowStart r) (rcLastRequest r).

(** [policy] is what the registered callback answers. *)
(* go: engine/reconnect.go 110-114 ShouldReconnect *)
Definition ShouldReconnect (r : Reconnector) (policy : bool) : bool := negb (rcHasShould r) || policy.

(* go: engine/reconnect.go 116-127 Request *)
Definition rc_Request (r : Reconnector) (closed reconnecting policy : bool) : Reconnector * ReconnectRequest :=
  if closed || reconnecting || negb (ShouldReconnect r policy) then (r, ReconnectRejected)
  else if rcQueue r then (r, ReconnectCoalesced)
  else (set_rqueue r true, ReconnectQueued).

(* go: engine/reconnect.go 265-276 Drain *)
Definition Drain (r : Reconnector) : Reconnector * bool := (set_rqueue r false, rcQueue r).

(* go: engine/reconnect.go 292-298 reconnectBackoff *)
Definition reconnectBackoff (count : Z) : Z :=
  let backoff := i64 (count * reconnectBackoffStep) in
  if reconnectBackoffMax <? backoff then reconnectBackoffMax else backoff.

(** ** Counters *)

(* go: engine/reconnect.go 197-207 nextRequestCount *)
Definition nextRequestCount (r : Reconnector) (now : Z) : Reconnector * Z :=
  let count := match rcLastRequest r with
               | None => 0
               | Some last => if reconnectFailureWindow <? now - last then 0 else rcCount r
               end in
  (set_count r (count + 1) (rcWindowStart r) (Some now), count + 1).

(* go: engine/reconnect.go 209-217 failureCount *)
Definition failureCount (r : Reconnector) (now : Z) : Reconnector * Z :=
  let r := match rcWindowStart r with
           | Some start => if reconnectFailureWindow <? now - start
                           then set_count r 0 None (rcLastRequest r) else r
           | None => r
           end in
  (r, rcCount r).

(* go: engine/reconnect.go 219-226 recordFailure *)
Definition recordFailure (r : Reconnector) (now : Z) : Reconnector :=
  set_count r (rcCount r + 1)
    (match rcWindowStart r with None => Some now | Some start => Some start end) (rcLastRequest r).

(* go: engine/reconnect.go 228-233 resetFailures *)
Definition resetFailures (r : Reconnector) : Reconnector := set_count r 0 None (rcLastRequest r).

(** ** Attempts *)

Inductive rc_result := ROk | RNonFailure | RError.

Record round := MkRound {
  rdAsked : Z;
  rdResult : rc_result;
  rdFailed : Z;
  rdRequested : bool;
  rdStopped : bool;
}.

(** What the owner of the supervisor sees: its [reconnect] is called, an error is reported, the loop waits, or gives up. *)
Inductive rc_call := RcAttempt | RcError | RcWait (delay : Z) | RcLimit (reason : string) | RcEnded (reason : string).

Inductive rc_end := Reconnected | LimitReached | Interrupted | StillTrying.

#[export] Instance rc_end_eq_dec : EqDecision rc_end.
Proof. solve_decision. Defined.

(* go: engine/reconnect.go 252-258 reconnectLimitReached *)
Definition reconnectLimitReached (r : Reconnector) : list rc_call :=
  if cfgHasLimit (rcCfg r) then [RcLimit (cfgLimitReason (rcCfg r))]
  else if rcHasEnded r then [RcEnded (cfgLimitReason (rcCfg r))] else [].

(** While [reconnect] runs other goroutines may leave a request in the queue. *)
Definition meanwhile (r : Reconnector) (rd : round) : Reconnector :=
  if rdRequested rd then set_rqueue r true else r.

(* go: engine/reconnect.go 152-173 handleRequestAttempt *)
Fixpoint handleRequestAttempt (r : Reconnector) (env : list round)
  : Reconnector * rc_end * list rc_call :=
  match env with
  | [] => (r, StillTrying, [])
  | rd :: rest =>
      let '(r, count) := nextRequestCount r (rdAsked rd) in
      if cfgMaxAttempts (rcCfg r) <? count then (r, LimitReached, reconnectLimitReached r)
      else
        let r := meanwhile r rd in
        match rdResult rd with
        | ROk => ((Drain r).1, Reconnected, [RcAttempt])
        | _ =>
            let calls := [RcAttempt; RcError; RcWait (reconnectBackoff count)] in
            if rdStopped rd then (r, Interrupted, calls)
            else let '(r, e, more) := handleRequestAttempt r rest in (r, e, calls ++ more)
        end
  end.

(* go: engine/reconnect.go 175-195 handleFailureAttempts *)
Fixpoint handleFailureAttempts (r : Reconnector) (env : list round)
  : Reconnector * rc_end * list rc_call :=
  match env with
  | [] => (r, StillTrying, [])
  | rd :: rest =>
      let '(r, failures) := failureCount r (rdAsked rd) in
      if cfgMaxAttempts (rcCfg r) <? failures then (r, LimitReached, reconnectLimitReached r)
      else
        let backoff := reconnectBackoff failures in
        let r := meanwhile r rd in
        match rdResult rd with
        | ROk | RNonFailure => ((Drain (resetFailures r)).1, Reconnected, [RcAttempt])
        | RError =>
            let calls := [RcAttempt; RcError; RcWait backoff] in
            let r := recordFailure r (rdFailed rd) in
            if rdStopped rd then (r, Interrupted, calls)
            else let '(r, e, more) := handleFailureAttempts r rest in (r, e, calls ++ more)
        end
  end.

(* go: engine/reconnect.go 145-150 handleAttempt *)
Definition handleAttempt (r : Reconnector) (env : list round) : Reconnector * rc_end * list rc_call :=
  if cfgCountFailures (rcCfg r) then handleFailureAttempts r env else handleRequestAttempt r env.

(** What [Watch] meets: a request of some goroutine, or a turn of its own loop
    with the script of the attempts that follow. *)
Inductive watch_event := WRequest (closed reconnecting policy : bool) | WTurn (env : list round).

(** [None]: the loop has returned. *)
(* go: engine/reconnect.go 129-143 Watch *)
Fixpoint Watch (r : Reconnector) (evs : list watch_event) : option Reconnector * list rc_call :=
  match evs with
  | [] => (Some r, [])
  | WRequest closed reconnecting policy :: rest => Watch (rc_Request r closed reconnecting policy).1 rest
  | WTurn env :: rest =>
      if rcQueue r then
        match handleAttempt (set_rqueue r false) env with
        | (r, Reconnected, calls) => let '(o, more) := Watch r rest in (o, calls ++ more)
        | (r, StillTrying, calls) => (Some r, calls)
        | (r, _, calls) => (None, calls)
        end
      else Watch r rest
  end.

(** ** A dead provider is given up *)

Definition failing (rd : round) : Prop := rdResult rd = RError /\ rdStopped rd = false.

(** The turns follow each other within the failure window. *)
Fixpoint spaced (last : option Z) (env : list round) : Prop :=
  match env with
  | [] => True
  | rd :: rest =>
      (forall t, last = Some t -> rdAsked rd - t <= reconnectFailureWindow) /\ spaced (Some (rdAsked rd)) rest
  end.

(** All turns lie within one failure window. *)
Definition within (start : option Z) (env : list round) : Prop :=
  exists t0, (forall t, start = Some t -> t0 <= t) /\
    Forall (fun rd => t0 <= rdFailed rd /\ rdAsked rd <= t0 + reconnectFailureWindow) env.

Definition timely (r : Reconnector) (env : list round) : Prop :=
  if cfgCountFailures (rcCfg r) then within (rcWindowStart r) env else spaced (rcLastRequest r) env.

Fixpoint attempts (calls : list rc_call) : Z :=
  match calls with
  | [] => 0
  | RcAttempt :: rest => 1 + attempts rest
  | _ :: rest => attempts rest
  end.

Definition waits_bounded (calls : list rc_call) : Prop :=
  Forall (fun c => match c with RcWait d => 0 <= d <= reconnectBackoffMax | _ => True end) calls.

(** [n] attempts that fail, each reported and followed by the wait for its count. *)
Fixpoint reports (count : Z) (n : nat) : list rc_call :=
  match n with
  | O => []
  | S n => [RcAttempt; RcError; RcWait (reconnectBackoff count)] ++ reports (count + 1) n
  end.

(** The count of the first attempt of a call, and how many attempts the limit leaves it. *)
Definition first_count (r : Reconnector) : Z :=
  if cfgCountFailures (rcCfg r) then rcCount r
  else 1 + match rcLastRequest r with None => 0 | Some _ => rcCount r end.
Definition attempts_left (r : Reconnector) : Z := cfgMaxAttempts (rcCfg r) + 1 - first_count r.

Lemma reconnectBackoff_bounds count :
  0 <= count <= 1000000000 -> 0 <= reconnectBackoff count <= reconnectBackoffMax.
Proof.
  intros Hc. unfold reconnectBackoff. rewrite i64_small by (unfold reconnectBackoffStep; lia).
  unfold reconnectBackoffMax, reconnectBackoffStep.
  destruct (_ <? _) eqn:E; bool_to_Prop; lia.
Qed.

Lemma reports_waits count n : 0 <= count -> count + Z.of_nat n <= 1000000001 -> waits_bounded (reports count n).
Proof.
  revert count. induction n as [|n IH]; intros count H0 Hn; [constructor|].
  cbn [reports app]. repeat constructor; [apply reconnectBackoff_bounds; lia..|]. apply IH; lia.
Qed.

Lemma reports_attempts count n : attempts (reports count n) = Z.of_nat n.
Proof.
  revert count. induction n as [|n IH]; intros count; [done|]. cbn [reports app attempts]. rewrite IH. lia.
Qed.

Lemma attempts_app l k : attempts (l ++ k) = attempts l + attempts k.
Proof. induction l as [|[] l IH]; cbn [app attempts]; lia. Qed.

Lemma limit_plain r : attempts (reconnectLimitReached r) = 0 /\ waits_bounded (reconnectLimitReached r).
Proof.
  unfold reconnectLimitReached, waits_bounded. destruct (cfgHasLimit _), (rcHasEnded r); simpl;
    (split; [reflexivity|]); repeat constructor.
Qed.

(** The calls of a run in which every attempt fails; the limit is reported last. *)
Definition gives_up (count left : Z) (r' : Reconnector) (e : rc_end) (calls : list rc_call) : Prop :=
  e = LimitReached /\ calls = reports count (Z.to_nat left) ++ reconnectLimitReached r'.

Lemma gives_up_step count left r' e calls :
  0 < left -> gives_up (count + 1) (left - 1) r' e calls ->
  gives_up count left r' e ([RcAttempt; RcError; RcWait (reconnectBackoff count)] ++ calls).
Proof. intros Hl (He & ->). split; [done|]. replace (Z.to_nat left) with (S (Z.to_nat (left - 1))) by lia. done. Qed.

Lemma request_gives_up_from max env c r0 :
  cfgMaxAttempts (rcCfg r0) = max -> rcCount r0 = c -> 0 <= c <= max -> Forall failing env ->
  rcLastRequest r0 <> None -> spaced (rcLastRequest r0) env -> max - c < len env ->
  let '(r', e, calls) := handleRequestAttempt r0 env in gives_up (c + 1) (max - c) r' e calls.
Proof.
  revert c r0. induction env as [|rd rest IH]; intros c r0 Hcfg Hcount Hc Hf Hl Hs Hlen; [simpl in Hlen; lia|].
  apply Forall_cons in Hf as [[Hres Hst] Hf]. destruct Hs as [Hgap Hs]. cbn [handleRequestAttempt]. unfold nextRequestCount.
  destruct (rcLastRequest r0) as [t|] eqn:El; [|done].
  specialize (Hgap t eq_refl). rewrite (proj2 (Z.ltb_ge reconnectFailureWindow (rdAsked rd - t))) by lia.
  cbn [rcCfg set_count]. rewrite Hcfg, Hcount. destruct (max <? c + 1) eqn:E; bool_to_Prop.
  - replace (max - c) with 0 by lia. done.
  - rewrite Hres, Hst. set (r1 := meanwhile _ rd).
    assert (Hr1 : cfgMaxAttempts (rcCfg r1) = max /\ rcCount r1 = c + 1 /\ rcLastRequest r1 = Some (rdAsked rd)).
    { subst r1. unfold meanwhile. by destruct (rdRequested rd). }
    destruct Hr1 as (H1 & H2 & H3). cbn [length] in Hlen.
    specialize (IH (c + 1) r1 H1 H2 ltac:(lia) Hf ltac:(by rewrite H3) ltac:(by rewrite H3) ltac:(lia)).
    destruct (handleRequestAttempt r1 rest) as [[r2 e2] calls2].
    apply gives_up_step; [lia|]. by replace (max - c - 1) with (max - (c + 1)) by lia.
Qed.

Lemma request_gives_up env r :
  cfgCountFailures (rcCfg r) = false -> 0 <= rcCount r <= cfgMaxAttempts (rcCfg r) ->
  Forall failing env -> spaced (rcLastRequest r) env -> cfgMaxAttempts (rcCfg r) < len env ->
  let '(r', e, calls) := handleRequestAttempt r env in gives_up (first_count r) (attempts_left r) r' e calls.
Proof.
  intros Hk Hc Hf Hs Hlen. unfold attempts_left, first_count. rewrite Hk. set (max := cfgMaxAttempts (rcCfg r)) in *.
  destruct (rcLastRequest r) as [t|] eqn:El.
  { rewrite (Z.add_comm 1). replace (max + 1 - (rcCount r + 1)) with (max - rcCount r) by lia.
    apply request_gives_up_from; try done; [by rewrite El|by rewrite El|lia]. }
  replace (max + 1 - (1 + 0)) with (max - 0) by lia. destruct env as [|rd rest]; [simpl in Hlen; lia|].
  pose proof (request_gives_up_from max (rd :: rest) 0 (set_count r 0 (rcWindowStart r) (Some (rdAsked rd))) eq_refl eq_refl ltac:(lia) Hf) as H0.
  cbn [rcLastRequest set_count handleRequestAttempt] in H0 |- *. unfold nextRequestCount in H0 |- *.
  cbn [rcLastRequest rcCount set_count rcWindowStart rcCfg] in H0 |- *. rewrite El.
  rewrite Z.sub_diag, (proj2 (Z.ltb_ge reconnectFailureWindow 0)) in H0 by (unfold reconnectFailureWindow; lia).
  apply H0; [done| |lia]. split; [|by destruct Hs]. intros ? [= <-]. unfold reconnectFailureWindow. lia.
Qed.

Lemma failure_gives_up max t0 env r0 :
  cfgMaxAttempts (rcCfg r0) = max -> 0 <= rcCount r0 <= max + 1 ->
  (forall t, rcWindowStart r0 = Some t -> t0 <= t) -> Forall failing env ->
  Forall (fun rd => t0 <= rdFailed rd /\ rdAsked rd <= t0 + reconnectFailureWindow) env ->
  max + 1 - rcCount r0 < len env ->
  let '(r', e, calls) := handleFailureAttempts r0 env in gives_up (rcCount r0) (max + 1 - rcCount r0) r' e calls.
Proof.
  revert r0. induction env as [|rd rest IH]; intros r0 Hcfg Hc Hst Hf Hw Hlen; [simpl in Hlen; lia|].
  apply Forall_cons in Hf as [[Hres Hs] Hf]. apply Forall_cons in Hw as [[Hw1 Hw2] Hw].
  cbn [handleFailureAttempts]. unfold failureCount.
  set (ra := match rcWindowStart r0 with Some _ => _ | None => _ end).
  assert (Hra : ra = r0).
  { subst ra. destruct (rcWindowStart r0) as [t|] eqn:E; [|done]. specialize (Hst t eq_refl).
    rewrite (proj2 (Z.ltb_ge _ _)) by lia. done. }
  clearbody ra. subst ra. rewrite Hcfg. destruct (max <? rcCount r0) eqn:E; bool_to_Prop.
  - replace (max + 1 - rcCount r0) with 0 by lia. done.
  - rewrite Hres, Hs. set (r1 := recordFailure (meanwhile r0 rd) (rdFailed rd)).
    assert (Hr1 : cfgMaxAttempts (rcCfg r1) = max /\ rcCount r1 = rcCount r0 + 1 /\ forall t, rcWindowStart r1 = Some t -> t0 <= t).
    { subst r1. unfold recordFailure, meanwhile. destruct (rdRequested rd); simpl; split_and!; try done;
        destruct (rcWindowStart r0); simpl; intros ? [= <-]; auto. }
    destruct Hr1 as (H1 & H2 & H3). cbn [length] in Hlen.
    specialize (IH r1 H1 ltac:(lia) H3 Hf Hw ltac:(lia)).
    destruct (handleFailureAttempts r1 rest) as [[r2 e2] calls2]. rewrite H2 in IH.
    apply gives_up_step; [lia|]. by replace (max + 1 - rcCount r0 - 1) with (max + 1 - (rcCount r0 + 1)) by lia.
Qed.

(** C38: a dead provider is given up and reported.  If every reconnect fails and
    the supervisor is not stopped, then what a call of [handleAttempt] does is known call by call: it
    attempts to reconnect as often as the limit leaves it, reports the error of each
    attempt, waits after each the time for its count, at most 30 seconds, and then calls the
    limit callback (or the ended callback when there is none).  Counting requests that makes [MaxAttempts] attempts,
    less those counted before (at most [MaxAttempts], which is at most a billion); counting failures one more.  When
    requests are counted this holds as long as consecutive attempts start at most
    five minutes apart; when failures are counted, as long as they fall into one
    window of five minutes, which the counter is meant to measure. *)
Theorem dead_provider_is_reported (r : Reconnector) (env : list round)
    (Hcount : 0 <= rcCount r <= cfgMaxAttempts (rcCfg r))
    (Hmax : cfgMaxAttempts (rcCfg r) <= 1000000000)
    (Hfail : Forall failing env)
    (Htime : timely r env)
    (Hlong : cfgMaxAttempts (rcCfg r) + 1 < len env) :
  let '(r', e, calls) := handleAttempt r env in
  e = LimitReached /\
  calls = reports (first_count r) (Z.to_nat (attempts_left r)) ++ reconnectLimitReached r' /\
  attempts calls = attempts_left r /\
  attempts_left r <= cfgMaxAttempts (rcCfg r) + (if cfgCountFailures (rcCfg r) then 1 else 0) /\
  waits_bounded calls.
Proof.
  assert (Hleft : 0 <= first_count r /\ 0 <= attempts_left r <= cfgMaxAttempts (rcCfg r) + (if cfgCountFailures (rcCfg r) then 1 else 0)).
  { unfold attempts_left, first_count. destruct (cfgCountFailures _), (rcLastRequest r); lia. }
  assert (H : let '(r', e, calls) := handleAttempt r env in gives_up (first_count r) (attempts_left r) r' e calls).
  { unfold handleAttempt, timely in *. destruct (cfgCountFailures (rcCfg r)) eqn:Ek; [|apply request_gives_up; try done; lia].
    destruct Htime as (t0 & Hst & Hw). unfold attempts_left, first_count. rewrite Ek. apply (failure_gives_up _ t0); try done; lia. }
  destruct (handleAttempt r env) as [[r' e] calls]. destruct H as [-> ->]. destruct (limit_plain r') as [Ha Hw].
  split_and!; [done|done| |lia|].
  - rewrite attempts_app, reports_attempts, Ha. lia.
  - apply Forall_app. split; [|done]. apply reports_waits; [lia|]. unfold attempts_left in *. lia.
Qed.

(** Jitsi counts failures with five attempts, the other engines requests with
    ten; the provider refuses at once. *)
Definition jitsi_reconnector : Reconnector :=
  NewReconnector (MkReconnectorConfig 5 true true "jitsi: reconnect failed").
Definition dead_round (i : nat) : round :=
  let t := 30 * 1000000000 * Z.of_nat i in MkRound t RError t false false.

Lemma dead_provider_is_reported_witness :
  exists r' calls, handleAttempt jitsi_reconnector (dead_round <$> seq 0 8) = (r', LimitReached, calls) /\
    attempts calls = 6 /\ waits_bounded calls.
Proof.
  assert (Htime : timely jitsi_reconnector (dead_round <$> seq 0 8)).
  { exists 0. split; [done|]. unfold reconnectFailureWindow. repeat constructor; simpl; lia. }
  assert (Hfail : Forall failing (dead_round <$> seq 0 8)) by (repeat constructor).
  pose proof (dead_provider_is_reported jitsi_reconnector (dead_round <$> seq 0 8)
                ltac:(simpl; lia) ltac:(simpl; lia) Hfail Htime ltac:(simpl; lia)) as H.
  destruct (handleAttempt jitsi_reconnector (dead_round <$> seq 0 8)) as [[r' e] calls].
  destruct H as (-> & _ & Ha & _ & Hw). exists r', calls. split; [reflexivity|]. split; [exact Ha|exact Hw].
Defined.
