(* ===== verification/Supervisor.v ===== *)
(** * Supervisor: ordered profiles with failover
    (internal/supervisor/supervisor.go)

    Running a profile is the caller's business: a script of [attempt]s says when
    each one started and ended, with which error, and whether the context was
    cancelled during it or during the delay after it.  Once cancelled the context
    stays so.  Formatted error texts are kept as constructors. *)

From S2P Require Import Prelude.

(* go: supervisor/supervisor.go 13-14 DefaultRetryDelay *)
Definition DefaultRetryDelay : Z := 2 * 1000000000.
(* go: supervisor/supervisor.go 16-17 DefaultHistoryLimit *)
Definition DefaultHistoryLimit : Z := 20.

(* go: supervisor/supervisor.go 26-32 Err* *)
Inductive sup_error (E : Type) :=
| ErrNoProfiles
| ErrMaxCyclesExceeded (cycle : Z) (profile : string) (cause : option E).
Arguments ErrNoProfiles {E}.
Arguments ErrMaxCyclesExceeded {E} cycle profile cause.

Section supervisor.
Context {E : Type}.

(** [t.status.LastError]: empty, [profile "x": err] or [profile "x" ended]. *)
Inductive sup_last := NoError | ProfileFailed (name : string) (err : E) | ProfileEnded (name : string).

(* go: supervisor/supervisor.go 40-49 ProfileStatus *)
Record ProfileStatus := MkProfileStatus {
  psName : string;
  psStarts : Z;
  psFailures : Z;
  psCleanEnds : Z;
  psLastStarted : option Z;
  psLastEnded : option Z;
  psLastError : option E;
}.

(* go: supervisor/supervisor.go 19-24 Event* *)
Inductive event_type := EventProfileStart | EventProfileEnd.

(* go: supervisor/supervisor.go 51-58 Event *)
Record Event := MkEvent {
  evTime : Z;
  evType : event_type;
  evProfile : string;
  evCycle : Z;
  evError : option E;
}.

(* go: supervisor/supervisor.go 60-68 Status *)
Record Status := MkStatus {
  stCycle : Z;
  stActiveProfile : string;
  stActiveProfileIndex : Z;
  stProfiles : list ProfileStatus;
  stHistory : list Event;
  stLastError : sup_last;
}.

(** [OnProfileStart], [OnProfileEnd] and [OnStatus] are recorded in the log. *)
(* go: supervisor/supervisor.go 73-83 Config *)
Record SupConfig := MkSupConfig {
  scProfiles : list string;
  scRetryDelay : Z;
  scMaxCycles : Z;
  scHistoryLimit : Z;
}.

Record attempt := MkAttempt {
  atStarted : Z;
  atError : option E;
  atCancelled : bool;
  atEnded : Z;
  atWaitCancelled : bool;
}.

Inductive sup_call :=
| SupStart (profile : nat) (cycle : Z)
| SupEnd (profile : nat) (cycle : Z) (err : option E)
| SupStatus (st : Status)
| SupWait (delay : Z).

Record sup := MkSup {
  supStatus : Status;
  supLimit : Z;
  supCtx : bool;
  supScript : list attempt;
  supLog : list sup_call;
}.

Definition set_status (s : sup) (st : Status) : sup :=
  MkSup st (supLimit s) (supCtx s) (supScript s) (supLog s).
Definition sup_say (s : sup) (c : sup_call) : sup :=
  MkSup (supStatus s) (supLimit s) (supCtx s) (supScript s) (supLog s ++ [c]).
Definition sup_cancel (s : sup) (b : bool) : sup :=
  MkSup (supStatus s) (supLimit s) (supCtx s || b) (supScript s) (supLog s).
Definition sup_next (s : sup) (rest : list attempt) : sup :=
  MkSup (supStatus s) (supLimit s) (supCtx s) rest (supLog s).

(* go: supervisor/supervisor.go 173-189 newStatusTracker *)
Definition newStatusTracker (profiles : list string) (historyLimit : Z) (script : list attempt) : sup :=
  MkSup (MkStatus 0 "" (-1) ((fun n => MkProfileStatus n 0 0 0 None None None) <$> profiles) [] NoError)
    (if historyLimit =? 0 then DefaultHistoryLimit else historyLimit) false script [].

(* go: supervisor/supervisor.go 234-242 appendHistory *)
Definition appendHistory (limit : Z) (history : list Event) (event : Event) : list Event :=
  if limit <? 0 then history
  else
    let history := history ++ [event] in
    if limit <? len history then drop (Z.to_nat (len history - limit)) history else history.

(* go: supervisor/supervisor.go 244-255 emit *)
Definition emit (s : sup) : sup := sup_say s (SupStatus (supStatus s)).

(* go: supervisor/supervisor.go 191-206 start *)
Definition tracker_start (s : sup) (i : nat) (cycle now : Z) : outcome Empty_set sup :=
  let st := supStatus s in
  let* p := index (stProfiles st) (Z.of_nat i) in
  let p := MkProfileStatus (psName p) (psStarts p + 1) (psFailures p) (psCleanEnds p) (Some now)
             (psLastEnded p) (psLastError p) in
  Ok (emit (set_status s
    (MkStatus cycle (psName p) (Z.of_nat i) (<[i := p]> (stProfiles st))
       (appendHistory (supLimit s) (stHistory st) (MkEvent now EventProfileStart (psName p) cycle None))
       (stLastError st)))).

(* go: supervisor/supervisor.go 208-232 end *)
Definition tracker_end (s : sup) (i : nat) (cycle now : Z) (err : option E) : outcome Empty_set sup :=
  let st := supStatus s in
  let* p := index (stProfiles st) (Z.of_nat i) in
  let '(p, lastError) :=
    match err with
    | Some e =>
        (MkProfileStatus (psName p) (psStarts p) (psFailures p + 1) (psCleanEnds p) (psLastStarted p)
           (Some now) (Some e), ProfileFailed (psName p) e)
    | None =>
        (MkProfileStatus (psName p) (psStarts p) (psFailures p) (psCleanEnds p + 1) (psLastStarted p)
           (Some now) None, ProfileEnded (psName p))
    end in
  Ok (emit (set_status s
    (MkStatus (stCycle st) "" (-1) (<[i := p]> (stProfiles st))
       (appendHistory (supLimit s) (stHistory st) (MkEvent now EventProfileEnd (psName p) cycle err))
       lastError))).

(** [RunBlocked]: a profile is running and the script says nothing about it. *)
Inductive run_result := RunNil | RunErr (e : sup_error E) | RunBlocked | RunPanic.

(* go: supervisor/supervisor.go 257-269 waitRetryDelay *)
Definition waitRetryDelay (s : sup) (delay : Z) (cancelled : bool) : sup :=
  if delay <=? 0 then s else sup_cancel (sup_say s (SupWait delay)) cancelled.

(* go: supervisor/supervisor.go 124-158 runProfile *)
Definition runProfile (cfg : SupConfig) (s : sup) (cycle : Z) (i : nat) (name : string)
  : sup * run_result :=
  if supCtx s then (s, RunNil)
  else
    match supScript s with
    | [] => (s, RunBlocked)
    | at_ :: rest =>
        match tracker_start (sup_next s rest) i cycle (atStarted at_) with
        | Ok s =>
            let s := sup_cancel (sup_say s (SupStart i cycle)) (atCancelled at_) in
            if supCtx s then (s, RunNil)
            else
              match tracker_end s i cycle (atEnded at_) (atError at_) with
              | Ok s =>
                  let s := sup_say s (SupEnd i cycle (atError at_)) in
                  if (0 <? scMaxCycles cfg) && (scMaxCycles cfg <=? cycle) &&
                     (Z.of_nat i =? len (scProfiles cfg) - 1)
                  then (s, RunErr (ErrMaxCyclesExceeded cycle name (atError at_)))
                  else (waitRetryDelay s (scRetryDelay cfg) (atWaitCancelled at_), RunNil)
              | _ => (s, RunPanic)
              end
        | _ => (s, RunPanic)
        end
    end.

(* go: supervisor/supervisor.go 109-122 runCycle *)
Fixpoint runCycle (cfg : SupConfig) (s : sup) (cycle : Z) (i : nat) (profiles : list string)
  : sup * run_result :=
  match profiles with
  | [] => (s, RunNil)
  | name :: rest =>
      match runProfile cfg s cycle i name with
      | (s, RunNil) => runCycle cfg s cycle (S i) rest
      | r => r
      end
  end.

(** The loop of [Run] on fuel, one unit per cycle; [None] would be a loop that
    goes on although the fuel is used up. *)
Fixpoint run_cycles (fuel : nat) (cfg : SupConfig) (s : sup) (cycle : Z) : option (sup * run_result) :=
  match fuel with
  | O => None
  | S fuel =>
      match runCycle cfg s cycle 0 (scProfiles cfg) with
      | (s, RunNil) => if supCtx s then Some (s, RunNil) else run_cycles fuel cfg s (cycle + 1)
      | r => Some r
      end
  end.

(** Every cycle uses up at least one attempt of the script. *)
(* go: supervisor/supervisor.go 85-107 Run *)
Definition sup_Run (cfg : SupConfig) (script : list attempt) : option (sup * run_result) :=
  if len (scProfiles cfg) =? 0
  then Some (newStatusTracker [] (scHistoryLimit cfg) script, RunErr ErrNoProfiles)
  else
    let cfg := if scRetryDelay cfg <=? 0
               then MkSupConfig (scProfiles cfg) DefaultRetryDelay (scMaxCycles cfg) (scHistoryLimit cfg)
               else cfg in
    run_cycles (S (length script)) cfg (newStatusTracker (scProfiles cfg) (scHistoryLimit cfg) script) 1.
End supervisor.

(** ** The schedule *)

Section schedule.
Context {E : Type}.
Implicit Types s : sup (E := E).

(** The reference: profiles in turn, the attempts of the script one after the
    other, until the context is cancelled, the last profile of the last cycle has
    ended, or the script says no more. *)
Fixpoint round_robin (cfg : SupConfig) (cycle : Z) (i : nat) (script : list attempt)
  : list (sup_call (E := E)) * run_result :=
  match script with
  | [] => ([], RunBlocked)
  | a :: rest =>
      let last := Z.of_nat i =? len (scProfiles cfg) - 1 in
      if atCancelled a then ([SupStart i cycle], RunNil)
      else
        let ran := [SupStart i cycle; SupEnd i cycle (atError a)] in
        if (0 <? scMaxCycles cfg) && (scMaxCycles cfg <=? cycle) && last
        then (ran, RunErr (ErrMaxCyclesExceeded cycle (default "" (scProfiles cfg !! i)) (atError a)))
        else if atWaitCancelled a then (ran ++ [SupWait (scRetryDelay cfg)], RunNil)
        else
          let '(calls, r) :=
            if last then round_robin cfg (cycle + 1) 0 rest else round_robin cfg cycle (S i) rest in
          (ran ++ [SupWait (scRetryDelay cfg)] ++ calls, r)
  end.

(** The log without the status snapshots. *)
Definition is_call (c : sup_call (E := E)) : bool := match c with SupStatus _ => false | _ => true end.
Fixpoint sup_calls (log : list (sup_call (E := E))) : list sup_call :=
  match log with
  | [] => []
  | c :: rest => if is_call c then c :: sup_calls rest else sup_calls rest
  end.

Lemma sup_calls_app l k : sup_calls (l ++ k) = sup_calls l ++ sup_calls k.
Proof. induction l as [|c l IH]; [done|]. simpl. destruct (is_call c); simpl; by rewrite IH. Qed.

(** How often profile [i] was started, failed and ended cleanly. *)
Fixpoint tally (i : nat) (calls : list (sup_call (E := E))) : Z * Z * Z :=
  match calls with
  | [] => (0, 0, 0)
  | c :: rest =>
      let '(a, b, d) := tally i rest in
      match c with
      | SupStart j _ => (if bool_decide (j = i) then a + 1 else a, b, d)
      | SupEnd j _ (Some _) => (a, if bool_decide (j = i) then b + 1 else b, d)
      | SupEnd j _ None => (a, b, if bool_decide (j = i) then d + 1 else d)
      | _ => (a, b, d)
      end
  end.

Definition sum3 (x y : Z * Z * Z) : Z * Z * Z := (x.1.1 + y.1.1, x.1.2 + y.1.2, x.2 + y.2).

Lemma triple_eq (a b c a' b' c' : Z) : a = a' -> b = b' -> c = c' -> (a, b, c) = (a', b', c').
Proof. congruence. Qed.

Lemma tally_app i l k : tally i (l ++ k) = sum3 (tally i l) (tally i k).
Proof.
  induction l as [|c l IH]; simpl.
  - destruct (tally i k) as [[a b] d]. unfold sum3. simpl. apply triple_eq; lia.
  - rewrite IH. destruct (tally i l) as [[a b] d], (tally i k) as [[a' b'] d']. unfold sum3. simpl.
    destruct c as [j ?|j ? [e|]| |]; simpl; repeat case_bool_decide; apply triple_eq; lia.
Qed.

(** The status agrees with the log. *)
Record sup_ok (cfg : SupConfig) (s : sup) : Prop := {
  sk_names : psName <$> stProfiles (supStatus s) = scProfiles cfg;
  sk_tally : forall i p, stProfiles (supStatus s) !! i = Some p ->
    (psStarts p, psFailures p, psCleanEnds p) = tally i (supLog s);
  sk_history : 0 <= supLimit s -> len (stHistory (supStatus s)) <= supLimit s;
}.

Lemma appendHistory_len limit (h : list (Event (E := E))) e :
  0 <= limit -> len h <= limit -> len (appendHistory limit h e) <= limit.
Proof.
  intros Hl Hh. unfold appendHistory. rewrite (proj2 (Z.ltb_ge _ _)) by lia.
  destruct (limit <? len (h ++ [e])) eqn:Hlt; bool_to_Prop; [|lia]. rewrite length_drop. lia.
Qed.

Lemma names_index cfg s i name :
  sup_ok cfg s -> scProfiles cfg !! i = Some name ->
  exists p, stProfiles (supStatus s) !! i = Some p /\ psName p = name /\
    index (E := Empty_set) (stProfiles (supStatus s)) (Z.of_nat i) = Ok p.
Proof.
  intros Hok Hi. pose proof (sk_names _ _ Hok) as Hn. rewrite <- Hn, list_lookup_fmap in Hi.
  destruct (stProfiles (supStatus s) !! i) as [p|] eqn:Hp; [|done]. injection Hi as <-.
  exists p. split_and!; [done|done|]. unfold index. rewrite (proj2 (Z.leb_le _ _)) by lia.
  by rewrite Nat2Z.id, Hp.
Qed.

Lemma names_insert (l : list ProfileStatus) i p p' :
  l !! i = Some p -> psName p' = psName (E := E) p -> psName <$> <[i := p']> l = psName <$> l.
Proof.
  intros Hp Hn. rewrite list_fmap_insert. apply list_insert_id. rewrite list_lookup_fmap, Hp. simpl. congruence.
Qed.

(** ** One profile *)

Lemma sup_say_ok cfg s c :
  sup_ok cfg s -> (forall i, tally i [c] = (0, 0, 0)) -> sup_ok cfg (sup_say s c).
Proof.
  intros [Hn Ht Hh] Hc. split; [done| |done]. intros i p Hp.
  change (supLog (sup_say s c)) with (supLog s ++ [c]). rewrite tally_app, Hc, <- (Ht i p Hp). unfold sum3. simpl. apply triple_eq; lia.
Qed.

Lemma start_spec cfg s i name cycle now :
  sup_ok cfg s -> scProfiles cfg !! i = Some name ->
  exists s', tracker_start s i cycle now = Ok s' /\ sup_ok cfg (sup_say s' (SupStart i cycle)) /\
    supScript s' = supScript s /\ supCtx s' = supCtx s /\ sup_calls (supLog s') = sup_calls (supLog s).
Proof.
  intros Hok Hi. destruct (names_index _ _ _ _ Hok Hi) as (p & Hp & Hn & Hidx).
  unfold tracker_start. rewrite Hidx. simpl. eexists. split; [reflexivity|]. destruct Hok as [Hnm Ht Hh].
  split_and!; try done.
  - split; simpl.
    + by rewrite (names_insert _ _ p).
    + intros j q Hq. rewrite !tally_app. simpl.
      apply list_lookup_insert_Some in Hq as [(-> & <- & _)|(Hne & Hq)].
      * rewrite <- (Ht _ p Hp). unfold sum3. simpl. rewrite bool_decide_true by done.
        apply triple_eq; lia.
      * rewrite <- (Ht j q Hq). unfold sum3. simpl. rewrite bool_decide_false by done.
        apply triple_eq; lia.
    + intros Hl. by apply appendHistory_len; auto.
  - simpl. rewrite sup_calls_app. simpl. by rewrite app_nil_r.
Qed.

Lemma end_spec cfg s i name cycle now err :
  sup_ok cfg s -> scProfiles cfg !! i = Some name ->
  exists s', tracker_end s i cycle now err = Ok s' /\ sup_ok cfg (sup_say s' (SupEnd i cycle err)) /\
    supScript s' = supScript s /\ supCtx s' = supCtx s /\ sup_calls (supLog s') = sup_calls (supLog s).
Proof.
  intros Hok Hi. destruct (names_index _ _ _ _ Hok Hi) as (p & Hp & Hn & Hidx).
  unfold tracker_end. rewrite Hidx. destruct Hok as [Hnm Ht Hh].
  destruct err as [e|]; simpl; (eexists; split; [reflexivity|]); split_and!; try done;
    try (simpl; rewrite sup_calls_app; simpl; by rewrite app_nil_r).
  all: split; simpl; [by rewrite (names_insert _ _ p)| |intros Hl; by apply appendHistory_len; auto].
  all: intros j q Hq; rewrite !tally_app; simpl.
  all: apply list_lookup_insert_Some in Hq as [(-> & <- & _)|(Hne & Hq)];
    [rewrite <- (Ht _ p Hp); unfold sum3; simpl; rewrite bool_decide_true by done
    |rewrite <- (Ht j q Hq); unfold sum3; simpl; rewrite bool_decide_false by done].
  all: apply triple_eq; lia.
Qed.

Lemma sup_cancel_ok cfg s b : sup_ok cfg s -> sup_ok cfg (sup_cancel s b).
Proof. intros [Hn Ht Hh]. by split. Qed.

Lemma sup_next_ok cfg s rest : sup_ok cfg s -> sup_ok cfg (sup_next s rest).
Proof. intros [Hn Ht Hh]. by split. Qed.

(** What is left of the reference after profile [i] returned nil with the context
    still alive. *)
Definition after (cfg : SupConfig) (cycle : Z) (i : nat) (script : list attempt) :=
  if Z.of_nat i =? len (scProfiles cfg) - 1 then round_robin cfg (cycle + 1) 0 script
  else round_robin cfg cycle (S i) script.

Lemma runProfile_spec cfg s cycle i name :
  0 < scRetryDelay cfg -> sup_ok cfg s -> supCtx s = false -> scProfiles cfg !! i = Some name ->
  let '(s', r) := runProfile cfg s cycle i name in
  sup_ok cfg s' /\
  ((r = RunNil /\ supCtx s' = false /\
    exists a calls, supScript s = a :: supScript s' /\
      sup_calls (supLog s') = sup_calls (supLog s) ++ calls /\
      forall rest, rest = supScript s' ->
        round_robin cfg cycle i (supScript s) = (calls ++ (after cfg cycle i rest).1, (after cfg cycle i rest).2)) \/
   ((r = RunNil -> supCtx s' = true) /\
    sup_calls (supLog s') = sup_calls (supLog s) ++ (round_robin cfg cycle i (supScript s)).1 /\
    r = (round_robin cfg cycle i (supScript s)).2)).
Proof.
  intros Hd Hok Hctx Hi. unfold runProfile. rewrite Hctx.
  destruct (supScript s) as [|a rest] eqn:Hs.
  { split; [done|]. right. simpl. by rewrite app_nil_r. }
  destruct (start_spec cfg (sup_next s rest) i name cycle (atStarted a)) as (s1 & -> & Hok1 & Hs1 & Hc1 & Hl1);
    [by apply sup_next_ok|done|]. simpl in Hs1, Hc1, Hl1.
  set (s2 := sup_cancel (sup_say s1 (SupStart i cycle)) (atCancelled a)).
  assert (Hok2 : sup_ok cfg s2) by by apply sup_cancel_ok.
  assert (Hl2 : sup_calls (supLog s2) = sup_calls (supLog s) ++ [SupStart i cycle]).
  { simpl. rewrite sup_calls_app, Hl1. done. }
  assert (Hc2 : supCtx s2 = atCancelled a) by (simpl; by rewrite Hc1, Hctx).
  cbn [round_robin]. destruct (atCancelled a) eqn:Hca; rewrite Hc2.
  { split; [done|]. right. by rewrite Hl2. }
  destruct (end_spec cfg s2 i name cycle (atEnded a) (atError a) Hok2 Hi) as (s3 & -> & Hok3 & Hs3 & Hc3 & Hl3).
  set (s4 := sup_say s3 (SupEnd i cycle (atError a))) in *.
  assert (Hl4 : sup_calls (supLog s4) =
            sup_calls (supLog s) ++ [SupStart i cycle; SupEnd i cycle (atError a)]).
  { simpl. rewrite sup_calls_app, Hl3, Hl2, <- app_assoc. done. }
  destruct ((0 <? scMaxCycles cfg) && (scMaxCycles cfg <=? cycle) && (Z.of_nat i =? len (scProfiles cfg) - 1)).
  { split; [done|]. right. rewrite Hi. by rewrite Hl4. }
  unfold waitRetryDelay. rewrite (proj2 (Z.leb_gt _ _)) by lia.
  set (s5 := sup_cancel (sup_say s4 (SupWait (scRetryDelay cfg))) (atWaitCancelled a)).
  assert (Hok5 : sup_ok cfg s5) by (by apply sup_cancel_ok, sup_say_ok).
  assert (Hl5 : sup_calls (supLog s5) = sup_calls (supLog s) ++
            [SupStart i cycle; SupEnd i cycle (atError a)] ++ [SupWait (scRetryDelay cfg)]).
  { change (supLog s5) with (supLog s4 ++ [SupWait (scRetryDelay cfg)]).
    rewrite sup_calls_app, Hl4, <- app_assoc. done. }
  assert (Hc5 : supCtx s5 = atWaitCancelled a) by (simpl; by rewrite Hc3, Hc2).
  assert (Hs5 : supScript s5 = rest) by (simpl; by rewrite Hs3).
  split; [done|]. destruct (atWaitCancelled a) eqn:Hwa.
  - right. by rewrite Hl5.
  - left. split_and!; [done|done|]. exists a, ([SupStart i cycle; SupEnd i cycle (atError a)] ++ [SupWait (scRetryDelay cfg)]).
    split_and!; [by rewrite Hs5|done|]. rewrite Hs5. intros ? ->. unfold after.
    destruct (Z.of_nat i =? len (scProfiles cfg) - 1).
    + destruct (round_robin cfg (cycle + 1) 0 rest); done.
    + destruct (round_robin cfg cycle (S i) rest); done.
Qed.

(** ** Cycles *)

Lemma runCycle_cancelled cfg s cycle i profiles :
  supCtx s = true -> runCycle cfg s cycle i profiles = (s, RunNil).
Proof.
  intros Hc. revert i. induction profiles as [|name rest IH]; intros i; [done|]. simpl.
  unfold runProfile. rewrite Hc. apply IH.
Qed.

Lemma runCycle_spec cfg cycle profiles : forall s i,
  0 < scRetryDelay cfg -> sup_ok cfg s -> supCtx s = false ->
  drop i (scProfiles cfg) = profiles -> profiles <> [] ->
  let '(s', r) := runCycle cfg s cycle i profiles in
  sup_ok cfg s' /\
  ((r = RunNil /\ supCtx s' = false /\ (length (supScript s') < length (supScript s))%nat /\
    exists calls, sup_calls (supLog s') = sup_calls (supLog s) ++ calls /\
      round_robin cfg cycle i (supScript s) =
        (calls ++ (round_robin cfg (cycle + 1) 0 (supScript s')).1,
         (round_robin cfg (cycle + 1) 0 (supScript s')).2)) \/
   ((r = RunNil -> supCtx s' = true) /\
    sup_calls (supLog s') = sup_calls (supLog s) ++ (round_robin cfg cycle i (supScript s)).1 /\
    r = (round_robin cfg cycle i (supScript s)).2)).
Proof.
  induction profiles as [|name rest IH]; intros s i Hd Hok Hctx Hdrop Hne; [done|].
  assert (Hi : scProfiles cfg !! i = Some name).
  { pose proof (lookup_drop (scProfiles cfg) i 0) as Hl. rewrite Hdrop, Nat.add_0_r in Hl. by simpl in Hl. }
  assert (Hrest : drop (S i) (scProfiles cfg) = rest).
  { rewrite <- Nat.add_1_r, <- drop_drop, Hdrop. done. }
  assert (Hlen : length (scProfiles cfg) = (i + S (length rest))%nat).
  { pose proof (lookup_lt_Some _ _ _ Hi). pose proof (f_equal length Hdrop) as Hl.
    rewrite length_drop in Hl. simpl in Hl. lia. }
  cbn [runCycle]. pose proof (runProfile_spec cfg s cycle i name Hd Hok Hctx Hi) as Hp.
  destruct (runProfile cfg s cycle i name) as [s1 r1]. destruct Hp as [Hok1 Hp].
  destruct Hp as [(-> & Hc1 & a & calls & Hs & Hl1 & Hrr)|(Hnil & Hl1 & Hr)].
  2: { destruct r1; try by (split; [done|]; right).
    rewrite runCycle_cancelled by auto. split; [done|]. right. auto. }
  specialize (Hrr _ eq_refl). unfold after in Hrr. destruct rest as [|name2 rest].
  - rewrite (proj2 (Z.eqb_eq _ _)) in Hrr by (simpl in Hlen; lia). simpl. split; [done|]. left.
    split_and!; [done|done|rewrite Hs; simpl; lia|]. eauto.
  - rewrite (proj2 (Z.eqb_neq _ _)) in Hrr by (simpl in Hlen; lia).
    specialize (IH s1 (S i) Hd Hok1 Hc1 Hrest ltac:(done)).
    destruct (runCycle cfg s1 cycle (S i) (name2 :: rest)) as [s2 r2]. destruct IH as [Hok2 IH].
    split; [done|]. destruct IH as [(-> & Hc2 & Hlt & calls2 & Hl2 & Hrr2)|(Hnil & Hl2 & Hr)].
    + left. split_and!; [done|done|rewrite Hs; simpl; lia|]. exists (calls ++ calls2).
      rewrite Hrr, Hrr2, Hl2, Hl1. simpl. by rewrite <- !app_assoc.
    + right. rewrite Hrr, Hl2, Hl1. simpl. by rewrite <- app_assoc.
Qed.

Lemma run_cycles_spec fuel cfg : forall s cycle,
  0 < scRetryDelay cfg -> sup_ok cfg s -> supCtx s = false -> scProfiles cfg <> [] ->
  (length (supScript s) < fuel)%nat ->
  exists s' r, run_cycles fuel cfg s cycle = Some (s', r) /\ sup_ok cfg s' /\
    sup_calls (supLog s') = sup_calls (supLog s) ++ (round_robin cfg cycle 0 (supScript s)).1 /\
    r = (round_robin cfg cycle 0 (supScript s)).2.
Proof.
  induction fuel as [|fuel IH]; intros s cycle Hd Hok Hctx Hne Hlt; [lia|].
  cbn [run_cycles]. pose proof (runCycle_spec cfg cycle (scProfiles cfg) s 0 Hd Hok Hctx eq_refl Hne) as Hc.
  destruct (runCycle cfg s cycle 0 (scProfiles cfg)) as [s1 r1]. destruct Hc as [Hok1 Hc].
  destruct Hc as [(-> & Hc1 & Hlt1 & calls & Hl1 & Hrr)|(Hnil & Hl1 & Hr)].
  - rewrite Hc1. destruct (IH s1 (cycle + 1)) as (s2 & r2 & -> & Hok2 & Hl2 & Hr2); try done; [lia|].
    exists s2, r2. split_and!; [done|done| |by rewrite Hrr].
    rewrite Hl2, Hl1, Hrr. simpl. by rewrite <- app_assoc.
  - exists s1, r1. destruct r1; try done. by rewrite Hnil.
Qed.

Lemma newStatusTracker_ok cfg limit script :
  sup_ok cfg (newStatusTracker (scProfiles cfg) limit script).
Proof.
  split; simpl.
  - induction (scProfiles cfg) as [|n l IH]; [done|]. cbn. by f_equal.
  - intros i p Hp. rewrite list_lookup_fmap in Hp. destruct (scProfiles cfg !! i); [|done].
    by injection Hp as <-.
  - done.
Qed.

(** C37: the supervisor is the round robin it promises to be.  For any list of
    profiles and any course of the attempts, [Run] terminates or waits for a
    profile that is still running, and the profiles it starts and ends, the delays
    it waits (never zero: an unset or negative delay is replaced by the default)
    and its result are those of the reference: profiles in order, cycle after
    cycle, no start after a cancellation, [ErrMaxCyclesExceeded] exactly after the
    last profile of the last cycle.  The status counts exactly these starts,
    failures and clean ends, and the history stays within its limit. *)
Theorem supervisor_is_round_robin (cfg : SupConfig) (script : list (attempt (E := E)))
    (Hne : scProfiles cfg <> []) :
  exists cfg' s r,
    sup_Run cfg script = Some (s, r) /\
    scProfiles cfg' = scProfiles cfg /\ scMaxCycles cfg' = scMaxCycles cfg /\
    scRetryDelay cfg' = (if scRetryDelay cfg <=? 0 then DefaultRetryDelay else scRetryDelay cfg) /\
    (sup_calls (supLog s), r) = round_robin cfg' 1 0 script /\
    (forall i p, stProfiles (supStatus s) !! i = Some p ->
       (psStarts p, psFailures p, psCleanEnds p) = tally i (supLog s)) /\
    (0 <= supLimit s -> len (stHistory (supStatus s)) <= supLimit s).
Proof.
  unfold sup_Run. rewrite (proj2 (Z.eqb_neq _ _)).
  2: { destruct (scProfiles cfg); [done|]. simpl. lia. }
  set (cfg' := if scRetryDelay cfg <=? 0 then _ else _).
  assert (Hcfg : scProfiles cfg' = scProfiles cfg /\ scMaxCycles cfg' = scMaxCycles cfg /\
            scRetryDelay cfg' = (if scRetryDelay cfg <=? 0 then DefaultRetryDelay else scRetryDelay cfg)).
  { subst cfg'. by destruct (scRetryDelay cfg <=? 0) eqn:Hz. }
  destruct Hcfg as (Hp & Hm & Hr).
  assert (Hpos : 0 < scRetryDelay cfg').
  { rewrite Hr. unfold DefaultRetryDelay. destruct (scRetryDelay cfg <=? 0) eqn:Hz; bool_to_Prop; lia. }
  destruct (run_cycles_spec (S (length script)) cfg'
              (newStatusTracker (scProfiles cfg') (scHistoryLimit cfg') script) 1)
    as (s & r & Hrun & Hok & Hl & Hres); [done|by apply newStatusTracker_ok|done|by rewrite Hp|simpl; lia|].
  exists cfg', s, r. split_and!; try done.
  - simpl in Hl, Hres. rewrite Hl, Hres. by destruct (round_robin cfg' 1 0 script).
  - apply (sk_tally _ _ Hok).
  - apply (sk_history _ _ Hok).
Qed.
End schedule.

(** Two profiles, two cycles: three failures and one clean end. *)
Definition demo_sup : SupConfig := MkSupConfig ["home"; "backup"] 0 2 3.
Definition demo_attempts : list (attempt (E := string)) :=
  [ MkAttempt 1 (Some "dial") false 2 false; MkAttempt 3 (Some "auth") false 4 false;
    MkAttempt 5 None false 6 false; MkAttempt 7 (Some "dial") false 8 false; MkAttempt 9 None false 10 false ].

Lemma supervisor_is_round_robin_witness :
  exists s, sup_Run demo_sup demo_attempts =
      Some (s, RunErr (ErrMaxCyclesExceeded 2 "backup" (Some "dial"))) /\
    len (stHistory (supStatus s)) <= 3 /\
    sup_calls (supLog s) =
      [SupStart 0 1; SupEnd 0 1 (Some "dial"); SupWait DefaultRetryDelay;
       SupStart 1 1; SupEnd 1 1 (Some "auth"); SupWait DefaultRetryDelay;
       SupStart 0 2; SupEnd 0 2 None; SupWait DefaultRetryDelay;
       SupStart 1 2; SupEnd 1 2 (Some "dial")].
Proof.
  destruct (supervisor_is_round_robin demo_sup demo_attempts) as (cfg' & s & r & H1 & _ & _ & _ & _ & _ & H6);
    [discriminate|].
  exists s. vm_compute in H1. injection H1 as <- <-. split; [reflexivity|]. split; [|reflexivity].
  apply H6. vm_compute. discriminate.
Defined.
