(* ===== verification/Socks.v ===== *)
(** * Socks: from a SOCKS5 request to the target and back
    (internal/client/socks.go, internal/client/tunnel.go,
    internal/server/egress.go, the request half of internal/server/serve.go)

    An application speaks SOCKS5 to the client; the client asks the server for the
    target in a JSON request on a fresh stream; the server dials the target,
    possibly through another SOCKS5 proxy.  A network connection is what it will
    still deliver before EOF and the writer of [Framing]; code that reads and
    writes it is written in the monad [SM].  Go strings are lists of bytes.
    Deadlines only turn a silent peer into a failed read.  The text form of
    addresses is the interface [NetIP], the JSON of a request the interface
    [ConnectJSON]. *)

From S2P Require Import Prelude Bytes Text Framing.

(** ** Connections *)

Record conn := MkConn { cnIn : bytes; cnOut : writer }.

Inductive socks_error :=
| SkRead | SkWrite
| ErrInvalidSOCKSVersion (v : Z)
| ErrUnsupportedSOCKSCommand (c : Z)
| ErrUnsupportedAddressType (t : Z)
| ErrEmptySOCKSDomain
| ErrSOCKSAuthFailed
| ErrSocks5AuthFailed
| ErrSocks5ConnectFailed (code : Z)
| ErrInvalidTarget
| ErrDial.

(** The state and error monad of code that talks on one connection. *)
Definition SM (A : Type) : Type := conn -> conn * outcome socks_error A.

#[export] Instance SM_ret : MRet SM := fun A a c => (c, Ok a).
#[export] Instance SM_bind : MBind SM := fun A B f m c =>
  match m c with
  | (c, Ok a) => f a c
  | (c, Err e) => (c, Err e)
  | (c, Panic) => (c, Panic)
  end.

Definition sm_fail {A} (e : socks_error) : SM A := fun c => (c, Err e).

Definition sm_read (n : Z) : SM bytes := fun c =>
  match ReadFull (cnIn c) n with
  | (rest, Ok l) => (MkConn rest (cnOut c), Ok l)
  | (rest, _) => (MkConn rest (cnOut c), Err SkRead)
  end.

Definition sm_write (p : bytes) : SM unit := fun c =>
  match io_Write (cnOut c) p with
  | (w, true) => (MkConn (cnIn c) w, Ok tt)
  | (w, false) => (MkConn (cnIn c) w, Err SkWrite)
  end.

(** [_, _ = conn.Write(p)]. *)
Definition sm_try_write (p : bytes) : SM unit := fun c =>
  (MkConn (cnIn c) (io_Write (cnOut c) p).1, Ok tt).

(** [buf[i]] of a slice just filled. *)
Definition sm_byte (l : bytes) (i : Z) : SM Z := fun c =>
  match index (E := socks_error) l i with Ok b => (c, Ok b) | Err e => (c, Err e) | Panic => (c, Panic) end.

(** ** net.IP *)

Definition v4InV6Prefix : bytes := [0; 0; 0; 0; 0; 0; 0; 0; 0; 0; 255; 255].

(** [IP.To4] and [IP.To16]. *)
Definition To4 (ip : bytes) : option bytes :=
  if len ip =? 4 then Some ip
  else if (len ip =? 16) && bool_decide (take 12 ip = v4InV6Prefix) then Some (drop 12 ip)
  else None.
Definition To16 (ip : bytes) : option bytes :=
  if len ip =? 4 then Some (v4InV6Prefix ++ ip) else if len ip =? 16 then Some ip else None.

(** The text form of addresses: [IP.String] and [net.ParseIP]. *)
Class NetIP : Type := {
  IP_String : bytes -> bytes;
  ParseIP : bytes -> option bytes;
}.

(** What the package documents: the text of an address parses to that address in
    16-byte form, and the empty text is not an address. *)
Class NetIPLaws (N : NetIP) : Prop := {
  ParseIP_String : forall ip ip16, To16 ip = Some ip16 -> ParseIP (IP_String ip) = Some ip16;
  ParseIP_length : forall s ip, ParseIP s = Some ip -> length ip = 16%nat;
  ParseIP_empty : ParseIP [] = None;
}.

(** ** The client's SOCKS5 server *)

(* go: client/socks.go 15-22 socks* *)
Definition socksVersion : Z := 5.
Definition socksAddrIPv4 : Z := 1.
Definition socksAddrDomain : Z := 3.
Definition socksAddrIPv6 : Z := 4.
Definition socksRepSuccess : Z := 0.
Definition socksRepHostUnreachable : Z := 4.

(* go: client/socks.go 35-38 acceptRetryDelay *)
Definition acceptRetryDelay : Z := 10 * 1000000.
(* go: client/socks.go 39-39 maxAcceptRetryDelay *)
Definition maxAcceptRetryDelay : Z := 1000000000.

(* go: client/socks.go 71-79 nextAcceptDelay *)
Definition nextAcceptDelay (current : Z) : Z :=
  if current <=? 0 then acceptRetryDelay
  else let next := i64 (current * 2) in
       if next <? maxAcceptRetryDelay then next else maxAcceptRetryDelay.

(* go: client/socks.go 138-170 socks5UserPassAuth *)
Definition socks5UserPassAuth (socksUser socksPass : bytes) : SM unit :=
  header ← sm_read 2;
  version ← sm_byte header 0;
  if negb (version =? 1) then sm_fail (ErrInvalidSOCKSVersion version)
  else
    ulen ← sm_byte header 1;
    user ← sm_read ulen;
    passwordLength ← sm_read 1;
    plen ← sm_byte passwordLength 0;
    password ← sm_read plen;
    let userOK := bool_decide (user = socksUser) in
    let passOK := bool_decide (password = socksPass) in
    if negb userOK || negb passOK
    then _ ← sm_try_write [1; 1]; sm_fail ErrSOCKSAuthFailed
    else sm_write [1; 0].

(* go: client/socks.go 114-136 socks5Handshake *)
Definition socks5Handshake (socksUser socksPass : bytes) : SM unit :=
  header ← sm_read 2;
  version ← sm_byte header 0;
  if negb (version =? socksVersion) then sm_fail (ErrInvalidSOCKSVersion version)
  else
    nmethods ← sm_byte header 1;
    _ ← sm_read nmethods;
    if bool_decide (socksUser <> []) then
      _ ← sm_write [socksVersion; 2]; socks5UserPassAuth socksUser socksPass
    else sm_write [socksVersion; 0].

Section client.
Context `{N : NetIP}.

(* go: client/socks.go 215-221 readIP *)
Definition readIP (length : Z) : SM bytes :=
  buffer ← sm_read length; mret (IP_String buffer).

(* go: client/socks.go 191-213 readSocks5Addr *)
Definition readSocks5Addr (addrType : Z) : SM bytes :=
  if addrType =? socksAddrIPv4 then readIP 4
  else if addrType =? socksAddrIPv6 then readIP 16
  else if addrType =? socksAddrDomain then
    length ← sm_read 1;
    n ← sm_byte length 0;
    if n =? 0 then sm_fail ErrEmptySOCKSDomain else sm_read n
  else sm_fail (ErrUnsupportedAddressType addrType).

(* go: client/socks.go 172-189 socks5Request *)
Definition socks5Request : SM (bytes * Z) :=
  header ← sm_read 4;
  command ← sm_byte header 1;
  if negb (command =? 1) then sm_fail (ErrUnsupportedSOCKSCommand command)
  else
    addrType ← sm_byte header 3;
    addr ← readSocks5Addr addrType;
    portBytes ← sm_read 2;
    mret (addr, be_get portBytes).

(* go: client/socks.go 223-233 socks5Reply *)
Definition socks5Reply (rep : Z) (target : bytes) : bytes :=
  let is_v6 := match ParseIP target with Some ip => bool_decide (To4 ip = None) | None => false end in
  [socksVersion; rep; 0; if is_v6 then socksAddrIPv6 else socksAddrIPv4] ++
  repeat 0 (if is_v6 then 18 else 6).

(* go: client/socks.go 235-237 replySuccess *)
Definition replySuccess (target : bytes) : bytes := socks5Reply socksRepSuccess target.
(* go: client/socks.go 239-241 replyHostUnreachable *)
Definition replyHostUnreachable (target : bytes) : bytes := socks5Reply socksRepHostUnreachable target.

(** ** The server as a SOCKS5 client of an upstream proxy *)

(* go: server/egress.go 102-121 socks5ConnectRequest *)
Definition socks5ConnectRequest (targetAddr : bytes) (targetPort : Z) : bytes :=
  let domain :=
    let targetAddr := if 255 <? len targetAddr then take 255 targetAddr else targetAddr in
    [3; u8 (len targetAddr)] ++ targetAddr in
  [5; 1; 0] ++
  match ParseIP targetAddr with
  | Some ip =>
      match To4 ip with
      | Some ip4 => [1] ++ ip4
      | None => [4] ++ default [] (To16 ip)
      end
  | None => domain
  end ++ [u8 (Z.shiftr targetPort 8); u8 targetPort].
End client.

(* go: server/egress.go 141-156 socks5ReplyAddrLen *)
Definition socks5ReplyAddrLen (addrType : Z) : SM Z :=
  if addrType =? 1 then mret 4
  else if addrType =? 4 then mret 16
  else if addrType =? 3 then (length ← sm_read 1; sm_byte length 0)
  else sm_fail (ErrSocks5ConnectFailed addrType).

(* go: server/egress.go 123-139 readSocks5ConnectReply *)
Definition readSocks5ConnectReply : SM unit :=
  header ← sm_read 4;
  addrType ← sm_byte header 3;
  addrLen ← socks5ReplyAddrLen addrType;
  _ ← sm_read (addrLen + 2);
  h0 ← sm_byte header 0;
  h1 ← sm_byte header 1;
  if negb (h0 =? 5) || negb (h1 =? 0) then sm_fail (ErrSocks5ConnectFailed h1) else mret tt.

(* go: server/egress.go 186-211 socks5SendCredentials *)
Definition socks5SendCredentials (socksProxyUser socksProxyPass : bytes) : SM unit :=
  let user := if 255 <? len socksProxyUser then take 255 socksProxyUser else socksProxyUser in
  let password := if 255 <? len socksProxyPass then take 255 socksProxyPass else socksProxyPass in
  _ ← sm_write ([1; u8 (len user)] ++ user ++ [u8 (len password)] ++ password);
  response ← sm_read 2;
  r1 ← sm_byte response 1;
  if negb (r1 =? 0) then sm_fail ErrSocks5AuthFailed else mret tt.

(* go: server/egress.go 158-184 socks5Authenticate *)
Definition socks5Authenticate (socksProxyUser socksProxyPass : bytes) : SM unit :=
  let method := if bool_decide (socksProxyUser <> []) then 2 else 0 in
  _ ← sm_write [5; 1; method];
  response ← sm_read 2;
  r0 ← sm_byte response 0;
  if negb (r0 =? 5) then sm_fail ErrSocks5AuthFailed
  else
    r1 ← sm_byte response 1;
    if r1 =? 0 then
      if bool_decide (socksProxyUser <> []) then sm_fail ErrSocks5AuthFailed else mret tt
    else if r1 =? 2 then socks5SendCredentials socksProxyUser socksProxyPass
    else sm_fail ErrSocks5AuthFailed.

(* go: server/egress.go 90-100 socks5Connect *)
Definition socks5Connect `{N : NetIP} (socksProxyUser socksProxyPass targetAddr : bytes) (targetPort : Z)
  : SM unit :=
  _ ← socks5Authenticate socksProxyUser socksProxyPass;
  _ ← sm_write (socks5ConnectRequest targetAddr targetPort);
  readSocks5ConnectReply.

(** ** The tunnel request *)

(* go: server/egress.go 22-27 ConnectRequest *)
Record ConnectRequest := MkConnectRequest { crCmd : bytes; crAddr : bytes; crPort : Z }.

#[export] Instance ConnectRequest_eq_dec : EqDecision ConnectRequest.
Proof. solve_decision. Defined.

(** The bytes of ["connect"]. *)
(* go: server/server.go 23-23 connectCommand *)
Definition connectCommand : bytes := [99; 111; 110; 110; 101; 99; 116].

(* go: tunnelcore/core.go 18-22 ConnectAckOK *)
Definition ConnectAckOK : Z := 0.
(* go: tunnelcore/core.go 21-21 ConnectAckHostUnreachable *)
Definition ConnectAckHostUnreachable : Z := 4.

(** [json.Marshal] of the request map and [json.Unmarshal] into the struct. *)
Class ConnectJSON : Type := {
  cj_marshal : ConnectRequest -> bytes;
  cj_unmarshal : bytes -> option ConnectRequest;
}.

(** A request as the server decodes it: encoding/json replaces what is not UTF-8. *)
Definition request_decoded (r : ConnectRequest) : ConnectRequest :=
  MkConnectRequest (utf8_coerce (crCmd r)) (utf8_coerce (crAddr r)) (crPort r).

(** Decoding undoes encoding up to that, and a JSON text cut short does not parse. *)
Class ConnectJSONLaws (J : ConnectJSON) : Prop := {
  cj_roundtrip : forall r, cj_unmarshal (cj_marshal r) = Some (request_decoded r);
  cj_prefix : forall r p s, cj_marshal r = p ++ s -> s <> [] -> cj_unmarshal p = None;
}.

(* go: server/egress.go 29-41 validate *)
Definition validate (r : ConnectRequest) : outcome socks_error unit :=
  if bool_decide (crAddr r = []) then Err ErrInvalidTarget
  else if (crPort r <=? 0) || (65535 <? crPort r) then Err ErrInvalidTarget
  else Ok tt.

Section request.
Context `{J : ConnectJSON}.

(* go: server/serve.go 228-234 parseConnectRequest *)
Definition parseConnectRequest (buffer : bytes) : option ConnectRequest :=
  match cj_unmarshal buffer with
  | Some r => if bool_decide (crCmd r = connectCommand) then Some r else None
  | None => None
  end.

(* go: server/serve.go 208-208 maxConnectRequest *)
Definition maxConnectRequest : Z := 4096.

(** [reads] are the results of the successive [stream.Read]s: the bytes (possibly
    none) and whether an error came with them.  [None]: the stream is dropped, or
    nothing more arrives. *)
(* go: server/serve.go 212-225 handleStream *)
Fixpoint read_request (header : bytes) (reads : list (bytes * bool)) : option ConnectRequest :=
  match reads with
  | [] => None
  | (chunk, failed) :: rest =>
      let header := header ++ chunk in
      match (if 0 <? len chunk then parseConnectRequest header else None) with
      | Some r => Some r
      | None => if failed || (maxConnectRequest <? len header) then None else read_request header rest
      end
  end.

(* go: client/tunnel.go 45-67 sendConnectRequest *)
Definition sendConnectRequest (targetAddr : bytes) (targetPort : Z) : SM Z :=
  _ ← sm_write (cj_marshal (MkConnectRequest connectCommand targetAddr targetPort));
  ack ← sm_read 1;
  sm_byte ack 0.

Context `{N : NetIP}.

(** [net] is the network: the connection [Dial] returns for a host and a port. *)
(* go: server/egress.go 65-88 dial *)
Definition dial (net : bytes -> Z -> option conn) (proxy : option (bytes * Z)) (user pass : bytes)
    (request : ConnectRequest) : outcome socks_error conn :=
  match validate request with
  | Err e => Err e
  | Panic => Panic
  | Ok _ =>
      match proxy with
      | None => match net (crAddr request) (crPort request) with Some c => Ok c | None => Err ErrDial end
      | Some (proxyAddr, proxyPort) =>
          match net proxyAddr proxyPort with
          | None => Err ErrDial
          | Some c =>
              match socks5Connect user pass (crAddr request) (crPort request) c with
              | (c, Ok _) => Ok c
              | (_, Err e) => Err e
              | (_, Panic) => Panic
              end
          end
      end
  end.

(** The byte the server answers with, and the connection it then copies to. *)
(* go: server/egress.go 43-59 dispatch *)
Definition dispatch (net : bytes -> Z -> option conn) (proxy : option (bytes * Z)) (user pass : bytes)
    (request : ConnectRequest) : outcome Empty_set (Z * option conn) :=
  match dial net proxy user pass request with
  | Ok c => Ok (ConnectAckOK, Some c)
  | Err _ => Ok (ConnectAckHostUnreachable, None)
  | Panic => Panic
  end.
End request.
