(* ===== verification/SocksFacts.v ===== *)
(** * SocksFacts: a target reaches the upstream proxy unchanged, and the two ends
    of SOCKS5 agree *)

From S2P Require Import Prelude Bytes Text Framing Socks.

(** ** Running the monad *)

Lemma bind_ok {A B} (m : SM A) (f : A -> SM B) c c' a :
  m c = (c', Ok a) -> (m ≫= f) c = f a c'.
Proof. intros H. unfold mbind, SM_bind. by rewrite H. Qed.

Lemma bind_inv {A B} (m : SM A) (f : A -> SM B) c c' b :
  (m ≫= f) c = (c', Ok b) -> exists a c1, m c = (c1, Ok a) /\ f a c1 = (c', Ok b).
Proof.
  unfold mbind, SM_bind. destruct (m c) as [c1 [a|e|]]; [eauto|by intros [=]|by intros [=]].
Qed.

Lemma read_exact l rest w n :
  n = len l -> sm_read n (MkConn (l ++ rest) w) = (MkConn rest w, Ok l).
Proof.
  intros ->. unfold sm_read, ReadFull. simpl. rewrite length_app, (proj2 (Z.ltb_ge _ _)) by lia.
  by rewrite Nat2Z.id, take_app_length, drop_app_length.
Qed.

Lemma read_inv n c c' l :
  sm_read n c = (c', Ok l) -> 0 <= n -> cnIn c = l ++ cnIn c' /\ len l = n /\ cnOut c' = cnOut c.
Proof.
  unfold sm_read, ReadFull. destruct (len (cnIn c) <? n) eqn:E; [by intros [=]|]. intros [= <- <-] Hn.
  bool_to_Prop. simpl. rewrite take_drop, length_take. split_and!; [done|lia|done].
Qed.

Lemma write_open p i o : sm_write p (MkConn i (Writer o [])) = (MkConn i (Writer (o ++ p) []), Ok tt).
Proof. reflexivity. Qed.

Lemma byte_at l i c b : l !! Z.to_nat i = Some b -> 0 <= i -> sm_byte l i c = (c, Ok b).
Proof. intros Hl Hi. unfold sm_byte, index. rewrite (proj2 (Z.leb_le _ _)) by lia. by rewrite Hl. Qed.

Lemma byte_inv l i c c' b : sm_byte l i c = (c', Ok b) -> c' = c /\ l !! Z.to_nat i = Some b.
Proof.
  unfold sm_byte, index. destruct (0 <=? i); [|by intros [=]].
  destruct (l !! Z.to_nat i) eqn:E; [|by intros [=]]. by intros [= <- <-].
Qed.

Lemma write_inv p c c' : sm_write p c = (c', Ok tt) -> cnIn c' = cnIn c.
Proof. unfold sm_write. destruct (io_Write (cnOut c) p) as [w []]; by intros [= <-]. Qed.

(** One step of a computation whose input is known. *)
Lemma read_bind {A} (k : bytes -> SM A) l rest w n :
  n = len l -> (sm_read n ≫= k) (MkConn (l ++ rest) w) = k l (MkConn rest w).
Proof. intros. by apply bind_ok, read_exact. Qed.

Lemma byte_bind {A} (k : Z -> SM A) l i c b :
  l !! Z.to_nat i = Some b -> 0 <= i -> (sm_byte l i ≫= k) c = k b c.
Proof. intros. by apply bind_ok, byte_at. Qed.

Lemma write_bind {A} (k : unit -> SM A) p i o :
  (sm_write p ≫= k) (MkConn i (Writer o [])) = k tt (MkConn i (Writer (o ++ p) [])).
Proof. by apply bind_ok, write_open. Qed.

Lemma bind_assoc {A B C} (m : SM A) (f : A -> SM B) (g : B -> SM C) c :
  ((m ≫= f) ≫= g) c = (m ≫= fun a => f a ≫= g) c.
Proof. unfold mbind, SM_bind. by destruct (m c) as [c1 [a|e|]]. Qed.

Lemma ret_bind {A B} (a : A) (f : A -> SM B) c : (mret a ≫= f) c = f a c.
Proof. reflexivity. Qed.

(** ** Targets *)

Inductive target := TIPv4 (ip : bytes) | TIPv6 (ip : bytes) | TDomain (name : bytes).

Section targets.
Context `{N : NetIP} `{L : !NetIPLaws N}.

(** An address as SOCKS5 writes it, and as text. *)
Definition target_wire (t : target) : bytes :=
  match t with
  | TIPv4 ip => [1] ++ ip
  | TIPv6 ip => [4] ++ ip
  | TDomain name => [3; len name] ++ name
  end.
Definition target_text (t : target) : bytes :=
  match t with TIPv4 ip => IP_String ip | TIPv6 ip => IP_String ip | TDomain name => name end.

(** Well-formed: an IPv6 address is not an IPv4 address in disguise, a domain is
    not the text of an address. *)
Definition target_ok (t : target) : Prop :=
  match t with
  | TIPv4 ip => length ip = 4%nat
  | TIPv6 ip => length ip = 16%nat /\ To4 ip = None
  | TDomain name => 1 <= len name <= 255 /\ ParseIP name = None
  end.

Definition request_wire (t : target) (port : Z) : bytes := target_wire t ++ be_put 2 port.

Lemma IP_String_nonempty ip ip16 : To16 ip = Some ip16 -> IP_String ip <> [].
Proof.
  intros Hip Heq. pose proof (ParseIP_String ip ip16 Hip) as H. rewrite Heq, ParseIP_empty in H. done.
Qed.

Lemma target_text_nonempty t : target_ok t -> target_text t <> [].
Proof.
  destruct t as [ip|ip|name]; simpl.
  - intros H. eapply (IP_String_nonempty ip). unfold To16. by rewrite H.
  - intros [H _]. eapply (IP_String_nonempty ip). unfold To16. by rewrite H.
  - intros [H _] ->. simpl in H. lia.
Qed.

Lemma be_put_2 port : be_put 2 port = [u8 (Z.shiftr port 8); u8 port].
Proof. unfold be_put. simpl. by rewrite Z.shiftr_0_r. Qed.

(** What the server writes for a target is its wire form. *)
Lemma connect_request_wire t port :
  target_ok t -> socks5ConnectRequest (target_text t) port = [5; 1; 0] ++ request_wire t port.
Proof.
  intros Hok. unfold socks5ConnectRequest, request_wire. rewrite be_put_2. f_equal.
  destruct t as [ip|ip|name]; simpl in Hok |- *.
  - rewrite (ParseIP_String ip (v4InV6Prefix ++ ip)) by (unfold To16; by rewrite Hok).
    unfold To4. rewrite length_app, Hok. change (take 12 (v4InV6Prefix ++ ip)) with v4InV6Prefix.
    by rewrite bool_decide_true.
  - destruct Hok as [Hl Hn]. rewrite (ParseIP_String ip ip) by (unfold To16; by rewrite Hl).
    rewrite Hn. unfold To16. by rewrite Hl.
  - destruct Hok as [Hl Hn]. rewrite Hn, (proj2 (Z.ltb_ge _ _)) by lia.
    assert (Hu : u8 (len name) = len name) by (unfold u8; apply Z.mod_small; lia). by rewrite Hu.
Qed.

(** What the client reads from the wire form of a target. *)
Lemma read_target t port v rsv rest w :
  target_ok t -> is_u16 port ->
  socks5Request (MkConn ([v; 1; rsv] ++ request_wire t port ++ rest) w) = (MkConn rest w, Ok (target_text t, port)).
Proof.
  intros Hok Hp. assert (Hport : be_get (be_put 2 port) = port) by (by apply be_get_put).
  assert (Hlen : 2 = len (be_put 2 port)) by (by rewrite length_be_put).
  unfold socks5Request, request_wire. rewrite <- app_assoc.
  revert Hport Hlen. generalize (be_put 2 port). intros pb Hport Hlen.
  destruct t as [ip|ip|name]; simpl in Hok.
  - rewrite (read_bind _ [v; 1; rsv; 1] (ip ++ pb ++ rest)) by done.
    erewrite byte_bind by done. cbn [Z.eqb Pos.eqb negb]. erewrite byte_bind by done. unfold readSocks5Addr, readIP. simpl.
    rewrite bind_assoc, (read_bind _ ip) by lia. rewrite ret_bind, (read_bind _ (pb)) by done.
    by rewrite Hport.
  - destruct Hok as [Hl _].
    rewrite (read_bind _ [v; 1; rsv; 4] (ip ++ pb ++ rest)) by done.
    erewrite byte_bind by done. cbn [Z.eqb Pos.eqb negb]. erewrite byte_bind by done. unfold readSocks5Addr, readIP. simpl.
    rewrite bind_assoc, (read_bind _ ip) by lia. rewrite ret_bind, (read_bind _ (pb)) by done.
    by rewrite Hport.
  - destruct Hok as [Hl _].
    rewrite (read_bind _ [v; 1; rsv; 3] ([len name] ++ name ++ pb ++ rest)) by done.
    erewrite byte_bind by done. cbn [Z.eqb Pos.eqb negb]. erewrite byte_bind by done. unfold readSocks5Addr. simpl.
    change (len name :: ?x) with ([len name] ++ x). rewrite bind_assoc, (read_bind _ [len name]) by done. rewrite bind_assoc. erewrite byte_bind by done.
    rewrite (proj2 (Z.eqb_neq _ _)) by lia. rewrite (read_bind _ name) by done.
    rewrite (read_bind _ (pb)) by done. by rewrite Hport.
Qed.
End targets.

(** ** The request on the tunnel stream *)

Lemma read_request_chunks `{J : ConnectJSON} `{LJ : !ConnectJSONLaws J} r reads : forall header,
  crCmd r = connectCommand -> len (cj_marshal r) <= maxConnectRequest ->
  cj_marshal r = header ++ concat reads.*1 -> concat reads.*1 <> [] ->
  Forall (fun rd => rd.2 = false) reads -> read_request header reads = Some (request_decoded r).
Proof.
  induction reads as [|[chunk failed] reads IH]; intros header Hcmd Hlen Hm Hne Hf; [done|].
  apply Forall_cons in Hf as [Hff Hf]. simpl in Hff. subst failed.
  cbn [fmap list_fmap concat fst] in Hm, Hne. cbn [read_request]. rewrite app_assoc in Hm.
  destruct (concat reads.*1) as [|b s] eqn:Hs.
  - rewrite app_nil_r in Hm, Hne. destruct chunk as [|c chunk]; [done|].
    rewrite (proj2 (Z.ltb_lt _ _)) by (simpl; lia). unfold parseConnectRequest.
    rewrite <- Hm, cj_roundtrip. cbn [request_decoded crCmd]. rewrite Hcmd. by rewrite bool_decide_true.
  - assert (Hnone : (if 0 <? len chunk then parseConnectRequest (header ++ chunk) else None) = None).
    { destruct (0 <? len chunk); [|done]. unfold parseConnectRequest. by rewrite (cj_prefix r _ (b :: s)). }
    rewrite Hnone. pose proof (f_equal length Hm) as Hl. rewrite length_app in Hl. simpl in Hl.
    rewrite (proj2 (Z.ltb_ge _ _)) by lia. simpl. apply IH; [done|done| |done|done]. by rewrite Hm.
Qed.

(** C20: the target an application asks for is the target that is dialled.  A
    SOCKS5 request for an IPv4 address, an IPv6 address that is not an IPv4 address in disguise, or a domain of 1 to 255 bytes that is not
    the text of an address, with a port from 1, is read by the
    client as a text and a port, without taking a byte more.  The JSON request that
    carries them, if it is at most 4096 bytes long and no read fails, is found by the server however the stream cuts it into pieces;
    encoding/json has replaced what is not UTF-8 in the text.  A text that is UTF-8 arrives as it is, is valid, and
    makes the server ask an upstream proxy for exactly the address and port bytes the application sent. *)
Theorem target_survives_tunnel `{NL : NetIPLaws} `{JL : ConnectJSONLaws}
    (t : target) (port v rsv : Z) (rest : bytes) (w : writer) (reads : list (bytes * bool))
    (Ht : target_ok t) (Hport : 1 <= port <= 65535)
    (Hsize : len (cj_marshal (MkConnectRequest connectCommand (target_text t) port)) <= maxConnectRequest)
    (Hreads : concat reads.*1 = cj_marshal (MkConnectRequest connectCommand (target_text t) port))
    (Hsome : concat reads.*1 <> [])
    (Hok : Forall (fun rd => rd.2 = false) reads) :
  socks5Request (MkConn ([v; 1; rsv] ++ request_wire t port ++ rest) w) =
    (MkConn rest w, Ok (target_text t, port)) /\
  read_request [] reads = Some (MkConnectRequest connectCommand (utf8_coerce (target_text t)) port) /\
  (utf8_valid (target_text t) ->
   read_request [] reads = Some (MkConnectRequest connectCommand (target_text t) port) /\
   validate (MkConnectRequest connectCommand (target_text t) port) = Ok tt /\
   socks5ConnectRequest (target_text t) port = [5; 1; 0] ++ request_wire t port).
Proof.
  assert (Hread : read_request [] reads = Some (MkConnectRequest connectCommand (utf8_coerce (target_text t)) port))
    by exact (read_request_chunks (MkConnectRequest connectCommand (target_text t) port) reads [] eq_refl Hsize (eq_sym Hreads) Hsome Hok).
  split; [apply read_target; [done|lia]|]. split; [done|]. intros Hv. split; [by rewrite Hread, Hv|]. split.
  - unfold validate. simpl. rewrite bool_decide_false by (by apply target_text_nonempty).
    rewrite (proj2 (Z.leb_gt _ _)), (proj2 (Z.ltb_ge _ _)) by lia. done.
  - by apply connect_request_wire.
Qed.

(** Two codecs that satisfy the laws: an address is a zero byte and its bytes, a
    request the list of its fields with a mark before every byte and at the end. *)
Definition toy_ip : NetIP := {|
  IP_String := fun ip => 0 :: ip;
  ParseIP := fun s => match s with 0 :: ip => To16 ip | _ => None end;
|}.

Lemma toy_ip_laws : NetIPLaws toy_ip.
Proof.
  split; simpl; [done| |done]. intros s ip. destruct s as [|[] s]; try done.
  unfold To16. destruct (len s =? 4) eqn:E; bool_to_Prop.
  - intros [= <-]. simpl. lia.
  - destruct (len s =? 16) eqn:E2; [|done]. bool_to_Prop. intros [= <-]. lia.
Qed.

Fixpoint mark (l : bytes) : bytes := match l with [] => [0] | b :: l => 1 :: b :: mark l end.
Fixpoint unmark (s : bytes) : option (bytes * bytes) :=
  match s with
  | 0 :: rest => Some ([], rest)
  | 1 :: b :: rest => match unmark rest with Some (l, r) => Some (b :: l, r) | None => None end
  | _ => None
  end.

Definition toy_connect : ConnectJSON := {|
  cj_marshal := fun r => mark (utf8_coerce (crCmd r)) ++ mark (utf8_coerce (crAddr r)) ++ mark [crPort r];
  cj_unmarshal := fun s =>
    match unmark s with
    | Some (cmd, s) =>
        match unmark s with
        | Some (addr, s) =>
            match unmark s with Some ([port], []) => Some (MkConnectRequest cmd addr port) | _ => None end
        | None => None
        end
    | None => None
    end;
|}.

Lemma unmark_mark l rest : unmark (mark l ++ rest) = Some (l, rest).
Proof. induction l as [|b l IH]; simpl; [done|]. by rewrite IH. Qed.

Lemma unmark_more (n : nat) : forall p l r s, (length p <= n)%nat -> unmark p = Some (l, r) -> unmark (p ++ s) = Some (l, r ++ s).
Proof.
  induction n as [|n IH]; intros p l r s Hn; (destruct p as [|[|[q|q|]|] p]; [done|..]); simpl in Hn |- *; try done; try lia.
  - by intros [= <- <-].
  - destruct p as [|b p]; [done|]. simpl in Hn |- *. destruct (unmark p) as [[l' r']|] eqn:E; [|done].
    intros [= <- <-]. by rewrite (IH p l' r' s) by (simpl in Hn; lia || done).
Qed.

Lemma toy_connect_laws : ConnectJSONLaws toy_connect.
Proof.
  split.
  - intros [cmd addr port]. simpl. rewrite !unmark_mark. done.
  - intros r p s Hm Hne. assert (Hw : @cj_unmarshal toy_connect (p ++ s) = Some (request_decoded r)).
    { rewrite <- Hm. destruct r as [cmd addr port]. simpl. rewrite !unmark_mark. done. }
    simpl in *. destruct (unmark p) as [[cmd p1]|] eqn:E1; [|done].
    rewrite (unmark_more (length p) p _ _ s ltac:(lia) E1) in Hw.
    destruct (unmark p1) as [[addr p2]|] eqn:E2; [|done].
    rewrite (unmark_more (length p1) p1 _ _ s ltac:(lia) E2) in Hw.
    destruct (unmark p2) as [[[|port [|? ?]] [|? ?]]|] eqn:E3; try done.
    rewrite (unmark_more (length p2) p2 _ _ s ltac:(lia) E3) in Hw. by destruct s.
Qed.

Lemma target_survives_tunnel_witness :
  exists reads, length reads = 2%nat /\
    @socks5Request toy_ip (MkConn ([5; 1; 0] ++ request_wire (TDomain [97; 98]) 443 ++ [9]) (Writer [] [])) =
      (MkConn [9] (Writer [] []), Ok ([97; 98], 443)) /\
    @read_request toy_connect [] reads = Some (MkConnectRequest connectCommand [97; 98] 443) /\
    @socks5ConnectRequest toy_ip [97; 98] 443 = [5; 1; 0; 3; 2; 97; 98; 1; 187].
Proof.
  set (whole := @cj_marshal toy_connect (MkConnectRequest connectCommand [97; 98] 443)).
  exists [(take 7 whole, false); (drop 7 whole, false)].
  pose proof (@target_survives_tunnel toy_ip toy_ip_laws toy_connect toy_connect_laws
    (TDomain [97; 98]) 443 5 0 [9] (Writer [] []) [(take 7 whole, false); (drop 7 whole, false)]) as H.
  destruct H as (H1 & _ & H).
  - split; [simpl; lia|reflexivity].
  - lia.
  - vm_compute. discriminate.
  - reflexivity.
  - discriminate.
  - repeat constructor.
  - destruct (H eq_refl) as (H2 & _ & H4). split; [reflexivity|]. split; [exact H1|]. split; [exact H2|exact H4].
Defined.

(** ** The two ends of SOCKS5 *)

(** What the client does on a connection whose tunnel comes up: [handleSocks5] and
    [tunnel] up to the copy loops. *)
(* go: client/socks.go 81-112 handleSocks5 *)
Definition socks_session `{N : NetIP} (user pass : bytes) : SM (bytes * Z) :=
  _ ← socks5Handshake user pass;
  t ← socks5Request;
  _ ← sm_write (replySuccess t.1);
  mret t.

(** What the dialling end sends, and what the listening end answers. *)
Definition credentials (user pass : bytes) : bytes :=
  if bool_decide (user <> []) then [1; len user] ++ user ++ [len pass] ++ pass else [].
Definition auth_method (user : bytes) : Z := if bool_decide (user <> []) then 2 else 0.
Definition auth_answer (user : bytes) : bytes :=
  [5; auth_method user] ++ (if bool_decide (user <> []) then [1; 0] else []).

Lemma u8_len (l : bytes) : len l <= 255 -> u8 (len l) = len l.
Proof. intros H. unfold u8. apply Z.mod_small. lia. Qed.

Lemma handshake_listens user pass rest :
  len user <= 255 -> len pass <= 255 ->
  socks5Handshake user pass
    (MkConn ([5; 1; auth_method user] ++ credentials user pass ++ rest) (Writer [] [])) =
  (MkConn rest (Writer (auth_answer user) []), Ok tt).
Proof.
  intros Hu Hp. unfold socks5Handshake, credentials, auth_answer, auth_method.
  change ([5; 1; ?m] ++ ?x) with ([5; 1] ++ [m] ++ x).
  rewrite (read_bind _ [5; 1]) by done. erewrite byte_bind by done. cbn [Z.eqb Pos.eqb negb socksVersion].
  erewrite byte_bind by done. rewrite (read_bind _ [_]) by done.
  case_bool_decide as Hne.
  - rewrite write_bind. unfold socks5UserPassAuth. rewrite <- !app_assoc.
    rewrite (read_bind _ [1; len user]) by done. erewrite byte_bind by done. cbn [Z.eqb Pos.eqb negb].
    erewrite byte_bind by done. rewrite (read_bind _ user) by done. rewrite (read_bind _ [len pass]) by done.
    erewrite byte_bind by done. rewrite (read_bind _ pass) by done.
    rewrite !bool_decide_true by done. done.
  - done.
Qed.

Lemma authenticate_dials user pass rest out :
  len user <= 255 -> len pass <= 255 ->
  socks5Authenticate user pass (MkConn (auth_answer user ++ rest) (Writer out [])) =
  (MkConn rest (Writer (out ++ [5; 1; auth_method user] ++ credentials user pass) []), Ok tt).
Proof.
  intros Hu Hp. unfold socks5Authenticate, credentials, auth_answer, auth_method.
  rewrite write_bind, <- !app_assoc. rewrite (read_bind _ [5; _]) by done. erewrite byte_bind by done.
  cbn [Z.eqb Pos.eqb negb]. erewrite byte_bind by done.
  case_bool_decide as Hne; cbn [Z.eqb Pos.eqb negb].
  - unfold socks5SendCredentials. rewrite !(proj2 (Z.ltb_ge _ _)), !u8_len by lia.
    rewrite write_bind. rewrite (read_bind _ [1; 0]) by done. erewrite byte_bind by done.
    cbn [Z.eqb negb]. unfold mret, SM_ret. by rewrite <- !app_assoc.
  - by rewrite app_nil_r.
Qed.

Lemma handshake_refuses user pass pass' rest :
  user <> [] -> pass' <> pass ->
  socks5Handshake user pass' (MkConn ([5; 1; 2] ++ credentials user pass ++ rest) (Writer [] [])) =
  (MkConn rest (Writer [5; 2; 1; 1] []), Err ErrSOCKSAuthFailed).
Proof.
  intros Hne Hdiff. unfold socks5Handshake, credentials. rewrite !(bool_decide_true (user <> [])) by done.
  change ([5; 1; 2] ++ ?x) with ([5; 1] ++ [2] ++ x).
  rewrite (read_bind _ [5; 1]) by done. erewrite byte_bind by done. cbn [Z.eqb Pos.eqb negb socksVersion].
  erewrite byte_bind by done. rewrite (read_bind _ [2]) by done. rewrite write_bind.
  unfold socks5UserPassAuth. rewrite <- !app_assoc.
  rewrite (read_bind _ [1; len user]) by done. erewrite byte_bind by done. cbn [Z.eqb Pos.eqb negb].
  erewrite byte_bind by done. rewrite (read_bind _ user) by done. rewrite (read_bind _ [len pass]) by done.
  erewrite byte_bind by done. rewrite (read_bind _ pass) by done.
  rewrite (bool_decide_false (pass = pass')) by done. rewrite orb_true_r. done.
Qed.

Lemma authenticate_refused user pass :
  user <> [] ->
  (socks5Authenticate user pass (MkConn [5; 2; 1; 1] (Writer [] []))).2 = Err ErrSocks5AuthFailed.
Proof.
  intros Hne. unfold socks5Authenticate. rewrite write_bind.
  rewrite (read_bind _ [5; 2] [1; 1]) by done. erewrite byte_bind by done. cbn [Z.eqb Pos.eqb negb].
  erewrite byte_bind by done. cbn [Z.eqb Pos.eqb]. unfold socks5SendCredentials. rewrite write_bind.
  rewrite (read_bind _ [1; 1] []) by done. erewrite byte_bind by done. done.
Qed.

Section ends.
Context `{N : NetIP} `{L : !NetIPLaws N}.

Lemma reply_read rep target rest w :
  readSocks5ConnectReply (MkConn (socks5Reply rep target ++ rest) w) =
  (MkConn rest w, if rep =? 0 then Ok tt else Err (ErrSocks5ConnectFailed rep)).
Proof.
  unfold readSocks5ConnectReply, socks5Reply.
  set (v6 := match ParseIP target with Some _ => _ | None => _ end).
  rewrite <- app_assoc, (read_bind _ [_; _; _; _]) by done. erewrite byte_bind by done.
  destruct v6; unfold socks5ReplyAddrLen; cbn [socksAddrIPv6 socksAddrIPv4 Z.eqb Pos.eqb];
    rewrite ret_bind, (read_bind _ (repeat 0 _)) by done; do 2 (erewrite byte_bind by done);
    simpl; by destruct (rep =? 0).
Qed.

(** C21: the server's SOCKS5 client and the client's SOCKS5 server agree, for a user name and a password of at most 255 bytes each
    and a target that is an IPv4 address, an IPv6 address that is not an IPv4 address in disguise, or a domain of 1 to 255 bytes that is not
    the text of an address.  With
    the same credentials (or none) on both ends, what one end writes is exactly
    what the other expects: the listening end accepts, reads the target and port
    that were asked for and answers success, the dialling end accepts the answer,
    and neither leaves bytes unread.  With a wrong password both ends report an
    authentication failure.  Any reply code other than zero is reported to the
    dialling end as a failed connect.  (What is longer is cut to its first 255 bytes, so the other end is asked for
    something else: [long_target_is_truncated].) *)
Theorem socks_ends_agree (user pass : bytes) (t : target) (port : Z)
    (Huser : len user <= 255) (Hpass : len pass <= 255)
    (Ht : target_ok t) (Hport : is_u16 port) :
  let up := [5; 1; auth_method user] ++ credentials user pass ++ [5; 1; 0] ++ request_wire t port in
  let down := auth_answer user ++ replySuccess (target_text t) in
  socks_session user pass (MkConn up (Writer [] [])) =
    (MkConn [] (Writer down []), Ok (target_text t, port)) /\
  socks5Connect user pass (target_text t) port (MkConn down (Writer [] [])) =
    (MkConn [] (Writer up []), Ok tt) /\
  (forall pass', user <> [] -> pass' <> pass ->
     (socks5Handshake user pass' (MkConn up (Writer [] []))).2 = Err ErrSOCKSAuthFailed /\
     cnOut (socks5Handshake user pass' (MkConn up (Writer [] []))).1 = Writer [5; 2; 1; 1] [] /\
     (socks5Authenticate user pass (MkConn [5; 2; 1; 1] (Writer [] []))).2 = Err ErrSocks5AuthFailed) /\
  (forall rep, (readSocks5ConnectReply (MkConn (socks5Reply rep (target_text t)) (Writer [] []))).2 =
     if rep =? 0 then Ok tt else Err (ErrSocks5ConnectFailed rep)).
Proof.
  intros up down. split_and!.
  - unfold socks_session, up. rewrite (bind_ok _ _ _ _ _ (handshake_listens user pass _ Huser Hpass)).
    rewrite <- (app_nil_r (request_wire t port)), (bind_ok _ _ _ _ _ (read_target t port 5 0 [] _ Ht Hport)).
    rewrite write_bind. done.
  - unfold socks5Connect, down. rewrite (bind_ok _ _ _ _ _ (authenticate_dials user pass _ [] Huser Hpass)).
    rewrite write_bind, connect_request_wire by done.
    rewrite <- (app_nil_r (replySuccess (target_text t))). unfold replySuccess. rewrite reply_read.
    unfold up. by rewrite app_nil_l, <- !app_assoc.
  - intros pass' Hne Hdiff. unfold up, auth_method. rewrite bool_decide_true by done.
    rewrite handshake_refuses by done. split_and!; [done|done|]. by rewrite authenticate_refused.
  - intros rep. rewrite <- (app_nil_r (socks5Reply rep (target_text t))). by rewrite reply_read.
Qed.
End ends.

Lemma socks_ends_agree_witness :
  @socks_session toy_ip [117] [112] (MkConn ([5; 1; 2; 1; 1; 117; 1; 112; 5; 1; 0; 3; 1; 97; 0; 80]) (Writer [] [])) =
    (MkConn [] (Writer [5; 2; 1; 0; 5; 0; 0; 1; 0; 0; 0; 0; 0; 0] []), Ok ([97], 80)) /\
  target_ok (N := toy_ip) (TDomain [97]).
Proof.
  assert (Ht : target_ok (N := toy_ip) (TDomain [97])) by (split; [simpl; lia|reflexivity]).
  split; [|exact Ht].
  exact (proj1 (@socks_ends_agree toy_ip toy_ip_laws [117] [112] (TDomain [97]) 80
                  ltac:(simpl; lia) ltac:(simpl; lia) Ht ltac:(lia))).
Defined.

(** ** Access control *)

(** Reading bytes from a stream of bytes. *)
Lemma read_bytes_inv n c c' l :
  sm_read n c = (c', Ok l) -> 0 <= n -> byte_list (cnIn c) ->
  cnIn c = l ++ cnIn c' /\ len l = n /\ byte_list l /\ byte_list (cnIn c').
Proof.
  intros H Hn Hb. apply read_inv in H as (E & L & _); [|done]. rewrite E in Hb.
  by apply Forall_app in Hb as [? ?].
Qed.

Lemma two_bytes l : len l = 2 -> byte_list l -> exists a b, l = [a; b] /\ is_byte a /\ is_byte b.
Proof.
  destruct l as [|a [|b [|? ?]]]; simpl; try lia. intros _ Hb.
  apply Forall_cons in Hb as [? Hb]. apply Forall_cons in Hb as [? _]. eauto.
Qed.

Lemma one_byte l : len l = 1 -> byte_list l -> exists a, l = [a] /\ is_byte a.
Proof.
  destruct l as [|a [|? ?]]; simpl; try lia. intros _ Hb. apply Forall_cons in Hb as [? _]. eauto.
Qed.

Lemma userpass_inv user pass c c' :
  byte_list (cnIn c) -> socks5UserPassAuth user pass c = (c', Ok tt) ->
  cnIn c = [1; len user] ++ user ++ [len pass] ++ pass ++ cnIn c'.
Proof.
  intros Hb Hok. unfold socks5UserPassAuth in Hok.
  apply bind_inv in Hok as (hdr & c1 & H1 & Hok). apply read_bytes_inv in H1 as (E1 & L1 & B1 & Hb1); [|lia|done].
  apply two_bytes in L1 as (v & n & -> & _ & Hn); [|done].
  apply bind_inv in Hok as (v' & c2 & H2 & Hok). apply byte_inv in H2 as [-> [= <-]].
  destruct (v =? 1) eqn:Ev; [|done]. bool_to_Prop. subst v. cbn [negb] in Hok.
  apply bind_inv in Hok as (n' & c2 & H2 & Hok). apply byte_inv in H2 as [-> [= <-]].
  apply bind_inv in Hok as (u & c2 & H2 & Hok). apply read_bytes_inv in H2 as (E2 & L2 & B2 & Hb2); [|lia|done].
  apply bind_inv in Hok as (pl & c3 & H3 & Hok). apply read_bytes_inv in H3 as (E3 & L3 & B3 & Hb3); [|lia|done].
  apply one_byte in L3 as (m & -> & Hm); [|done].
  apply bind_inv in Hok as (m' & c4 & H4 & Hok). apply byte_inv in H4 as [-> [= <-]].
  apply bind_inv in Hok as (pw & c4 & H4 & Hok). apply read_bytes_inv in H4 as (E4 & L4 & _ & _); [|lia|done].
  case_bool_decide as Hu; [|done]. case_bool_decide as Hp; [|done]. cbn [negb orb] in Hok.
  apply write_inv in Hok. subst u pw. rewrite E1, E2, E3, E4, Hok, L2, L4. done.
Qed.

(** The SOCKS5 port is not open to strangers.  If credentials are
    configured, [socks5Handshake] succeeds only on input that contains, after the
    greeting, exactly the configured user name and password; nothing else makes
    it return nil, and it consumes no byte after the password. *)
Theorem socks_auth_required (user pass : bytes) (c c' : conn)
    (Hbytes : byte_list (cnIn c)) (Huser : user <> [])
    (Hok : socks5Handshake user pass c = (c', Ok tt)) :
  exists methods, cnIn c =
    [5; len methods] ++ methods ++ [1; len user] ++ user ++ [len pass] ++ pass ++ cnIn c'.
Proof.
  unfold socks5Handshake in Hok.
  apply bind_inv in Hok as (hdr & c1 & H1 & Hok).
  apply read_bytes_inv in H1 as (E1 & L1 & B1 & Hb1); [|lia|done].
  apply two_bytes in L1 as (v & n & -> & _ & Hn); [|done].
  apply bind_inv in Hok as (v' & c2 & H2 & Hok). apply byte_inv in H2 as [-> [= <-]].
  destruct (v =? socksVersion) eqn:Ev; [|done]. bool_to_Prop. subst v. cbn [negb] in Hok.
  apply bind_inv in Hok as (n' & c2 & H2 & Hok). apply byte_inv in H2 as [-> [= <-]].
  apply bind_inv in Hok as (methods & c2 & H2 & Hok).
  apply read_bytes_inv in H2 as (E2 & L2 & B2 & Hb2); [|lia|done].
  rewrite bool_decide_true in Hok by done.
  apply bind_inv in Hok as ([] & c3 & H3 & Hok). apply write_inv in H3.
  rewrite <- H3 in Hb2. apply userpass_inv in Hok; [|done].
  exists methods. by rewrite E1, E2, <- H3, Hok, L2.
Qed.

Lemma socks_auth_required_witness :
  exists c', socks5Handshake [117] [112] (MkConn [5; 1; 2; 1; 1; 117; 1; 112; 9] (Writer [] [])) = (c', Ok tt) /\
    exists methods, [5; 1; 2; 1; 1; 117; 1; 112; 9] =
      [5; len methods] ++ methods ++ [1; 1] ++ [117] ++ [1] ++ [112] ++ cnIn c'.
Proof.
  eexists. split; [vm_compute; reflexivity|].
  eapply (socks_auth_required [117] [112] (MkConn [5; 1; 2; 1; 1; 117; 1; 112; 9] (Writer [] [])));
    [repeat constructor; lia|discriminate|vm_compute; reflexivity].
Defined.

(** ** A defect *)

(** A long host name is dialled as another host.  [validate] accepts a host
    of any length, but a domain of more than 255 bytes is cut to its first 255
    bytes in the request to the upstream proxy: the same request is sent as for
    the shorter name, so the proxy is asked for a host the peer did not name. *)
Theorem long_target_is_truncated `{NL : NetIPLaws} (addr : bytes) (port : Z)
    (Hlong : 255 < len addr) (Hport : 1 <= port <= 65535)
    (Hname : ParseIP addr = None) (Hname' : ParseIP (take 255 addr) = None) :
  validate (MkConnectRequest connectCommand addr port) = Ok tt /\ take 255 addr <> addr /\
  socks5ConnectRequest addr port = socks5ConnectRequest (take 255 addr) port.
Proof.
  split_and!.
  - unfold validate. simpl. rewrite bool_decide_false by (by intros ->; simpl in Hlong).
    rewrite (proj2 (Z.leb_gt _ _)), (proj2 (Z.ltb_ge _ _)) by lia. done.
  - intros Heq. pose proof (f_equal length Heq) as Hl. rewrite length_take in Hl. lia.
  - unfold socks5ConnectRequest. rewrite Hname, Hname', (proj2 (Z.ltb_lt _ _)) by lia.
    by rewrite (proj2 (Z.ltb_ge 255 (len (take 255 addr)))) by (rewrite length_take; lia).
Qed.

Lemma long_target_is_truncated_witness :
  @socks5ConnectRequest toy_ip (repeat 97 300) 80 = @socks5ConnectRequest toy_ip (repeat 97 255) 80.
Proof.
  exact (proj2 (proj2 (@long_target_is_truncated toy_ip toy_ip_laws (repeat 97 300) 80
    ltac:(rewrite repeat_length; lia) ltac:(lia) eq_refl eq_refl))).
Defined.
