(* ===== verification/NetAddr.v ===== *)
(** * NetAddr: the text of network addresses (net.SplitHostPort, net.JoinHostPort,
    strconv.Atoi)

    Host names and ports are byte strings.  Both functions are modelled as the standard library has
    them, with the two kinds of error the program tells apart. *)

From S2P Require Import Prelude Bytes Text.

Definition colon : Z := 58.
Definition lbracket : Z := 91.
Definition rbracket : Z := 93.

(** The position of the first and of the last [c]. *)
Fixpoint index_byte (c : Z) (l : bytes) : option nat :=
  match l with
  | [] => None
  | b :: l => if b =? c then Some 0%nat else S <$> index_byte c l
  end.
Definition last_byte (c : Z) (l : bytes) : option nat :=
  (fun i => (length l - 1 - i)%nat) <$> index_byte c (rev l).

(** [net.AddrError]: "missing port in address" and the others. *)
Inductive addr_error := MissingPort | BadAddress.

(** The host, and where brackets may no longer occur. *)
Definition split_host (hp : bytes) (i : nat) : outcome addr_error (bytes * nat * nat) :=
  match hp with
  | b :: _ =>
      if b =? lbracket then
        match index_byte rbracket hp with
        | None => Err BadAddress
        | Some e =>
            if (S e =? length hp)%nat then Err MissingPort
            else if (S e =? i)%nat then Ok (drop 1 (take e hp), 1%nat, S e)
            else match hp !! S e with
                 | Some 58 => Err BadAddress
                 | _ => Err MissingPort
                 end
        end
      else match index_byte colon (take i hp) with
           | Some _ => Err BadAddress
           | None => Ok (take i hp, 0%nat, 0%nat)
           end
  | [] => Err MissingPort
  end.

Definition SplitHostPort (hp : bytes) : outcome addr_error (bytes * bytes) :=
  match last_byte colon hp with
  | None => Err MissingPort
  | Some i =>
      let* (host, j, k) := split_host hp i in
      match index_byte lbracket (drop j hp), index_byte rbracket (drop k hp) with
      | None, None => Ok (host, drop (S i) hp)
      | _, _ => Err BadAddress
      end
  end.

Definition JoinHostPort (host port : bytes) : bytes :=
  match index_byte colon host with
  | Some _ => [lbracket] ++ host ++ [rbracket; colon] ++ port
  | None => host ++ [colon] ++ port
  end.

Fixpoint decimal (l : bytes) (acc : Z) : option Z :=
  match l with
  | [] => Some acc
  | b :: l => if (48 <=? b) && (b <=? 57) then decimal l (acc * 10 + (b - 48)) else None
  end.

(** [strconv.Atoi], without its range check: every use compares the value with
    65535. *)
Definition Atoi (l : bytes) : option Z :=
  match l with
  | [] => None
  | b :: rest =>
      if (b =? 45) && negb (len rest =? 0) then Z.opp <$> decimal rest 0
      else if (b =? 43) && negb (len rest =? 0) then decimal rest 0
      else decimal l 0
  end.

(** [strconv.Itoa], which is also what [%d] prints; a number has at most as many
    digits as bits. *)
Fixpoint itoa_digits (fuel : nat) (n : Z) (acc : bytes) : bytes :=
  match fuel with
  | O => acc
  | S fuel =>
      let acc := (48 + n mod 10) :: acc in if n <? 10 then acc else itoa_digits fuel (n / 10) acc
  end.
Definition Itoa (n : Z) : bytes :=
  let digits n := itoa_digits (S (Z.to_nat (Z.log2 n))) n [] in
  if n <? 0 then 45 :: digits (- n) else digits n.

Example host_port_values :
  SplitHostPort (string_bytes "8.8.8.8:53") = Ok (string_bytes "8.8.8.8", string_bytes "53") /\
  SplitHostPort (string_bytes "[::1]:53") = Ok (string_bytes "::1", string_bytes "53") /\
  SplitHostPort (string_bytes "::1:53") = Err BadAddress /\ SplitHostPort (string_bytes "[a]b:1") = Err MissingPort /\
  SplitHostPort (string_bytes "host") = Err MissingPort /\ SplitHostPort (string_bytes "[::1]") = Err MissingPort /\
  SplitHostPort (string_bytes "a[b:1") = Err BadAddress /\
  JoinHostPort (string_bytes "::1") (string_bytes "1") = string_bytes "[::1]:1" /\
  Itoa 0 = string_bytes "0" /\ Itoa (-12) = string_bytes "-12" /\ Itoa 65535 = string_bytes "65535" /\
  Atoi (string_bytes "-12") = Some (-12) /\ Atoi (string_bytes "+7") = Some 7 /\ Atoi (string_bytes "+") = None.
Proof. by vm_compute. Qed.

(** ** Facts *)

Lemma index_byte_None c l : index_byte c l = None <-> c ∉ l.
Proof.
  induction l as [|b l IH]; cbn; [split; [intros _; apply not_elem_of_nil|done]|].
  rewrite not_elem_of_cons. destruct (Z.eqb_spec b c) as [->|Hne]; [naive_solver|].
  rewrite fmap_None, IH. naive_solver.
Qed.

Lemma index_byte_skip c a b :
  c ∉ a -> index_byte c (a ++ b) = (fun i => (length a + i)%nat) <$> index_byte c b.
Proof.
  induction a as [|x a IH]; cbn; [by destruct (index_byte c b)|]. rewrite not_elem_of_cons. intros [Hx Ha].
  destruct (Z.eqb_spec x c); [congruence|]. rewrite IH by done. by destruct (index_byte c b).
Qed.

Lemma last_byte_at c a b : c ∉ b -> last_byte c (a ++ c :: b) = Some (length a).
Proof.
  intros Hb. unfold last_byte. rewrite rev_app_distr. cbn. rewrite <- app_assoc, index_byte_skip.
  2: { by rewrite list_elem_of_In, <- in_rev, <- list_elem_of_In. }
  cbn. rewrite Z.eqb_refl. cbn. rewrite length_app, length_rev. cbn. f_equal. lia.
Qed.

(** The two forms [JoinHostPort] writes. *)
Lemma SplitHostPort_bracketed host port :
  lbracket ∉ host -> rbracket ∉ host -> lbracket ∉ port -> rbracket ∉ port -> colon ∉ port ->
  SplitHostPort ([lbracket] ++ host ++ [rbracket; colon] ++ port) = Ok (host, port).
Proof.
  intros Hl Hr Hl' Hr' Hc.
  replace ([lbracket] ++ host ++ [rbracket; colon] ++ port) with
    ((lbracket :: host ++ [rbracket]) ++ colon :: port) by (cbn; by rewrite <- !app_assoc).
  unfold SplitHostPort. rewrite last_byte_at by done.
  assert (Hs : split_host ((lbracket :: host ++ [rbracket]) ++ colon :: port) (length (lbracket :: host ++ [rbracket])) =
               Ok (host, 1%nat, length (lbracket :: host ++ [rbracket]))).
  { change ((lbracket :: host ++ [rbracket]) ++ colon :: port) with (lbracket :: (host ++ [rbracket]) ++ colon :: port).
    unfold split_host. rewrite Z.eqb_refl.
    assert (Hi : index_byte rbracket (lbracket :: (host ++ [rbracket]) ++ colon :: port) = Some (S (length host))).
    { cbn. rewrite <- app_assoc, index_byte_skip by done. cbn. f_equal. lia. }
    rewrite Hi. cbn [length]. rewrite !length_app. cbn [length].
    destruct (Nat.eqb_spec (S (S (length host))) (S (length host + 1 + S (length port)))); [lia|].
    destruct (Nat.eqb_spec (S (S (length host))) (S (length host + 1))); [|lia].
    do 3 f_equal; [|lia]. cbn [take drop]. rewrite <- app_assoc, take_app_length. done. }
  rewrite Hs. cbn [obind drop app]. rewrite drop_0, <- app_assoc. cbn [app].
  replace (index_byte lbracket (host ++ rbracket :: colon :: port)) with (@None nat).
  2: { symmetry. apply index_byte_None. by rewrite not_elem_of_app, !not_elem_of_cons. }
  replace (drop (length (lbracket :: host ++ [rbracket])) (lbracket :: host ++ rbracket :: colon :: port))
    with (colon :: port).
  2: { cbn [length drop]. replace (host ++ rbracket :: colon :: port) with ((host ++ [rbracket]) ++ colon :: port)
         by by rewrite <- app_assoc. by rewrite drop_app_length. }
  replace (index_byte rbracket (colon :: port)) with (@None nat).
  2: { symmetry. apply index_byte_None. by rewrite not_elem_of_cons. }
  do 2 f_equal. cbn [length drop].
  replace (host ++ rbracket :: colon :: port) with ((host ++ [rbracket; colon]) ++ port) by by rewrite <- app_assoc.
  rewrite drop_app_length'; [done|]. rewrite !length_app. cbn. lia.
Qed.

Lemma SplitHostPort_plain host port :
  colon ∉ host -> lbracket ∉ host -> rbracket ∉ host -> lbracket ∉ port -> rbracket ∉ port -> colon ∉ port ->
  SplitHostPort (host ++ [colon] ++ port) = Ok (host, port).
Proof.
  intros Hcol Hl Hr Hl' Hr' Hc.
  cbn [app]. unfold SplitHostPort. rewrite last_byte_at by done.
  assert (Hs : split_host (host ++ colon :: port) (length host) = Ok (host, 0%nat, 0%nat)).
  { assert (Ht : index_byte colon (take (length host) (host ++ colon :: port)) = None)
      by (rewrite take_app_length; by apply index_byte_None).
    unfold split_host. destruct host as [|b host]; [done|]. cbn [app] in *.
    destruct (Z.eqb_spec b lbracket) as [->|_]; [by apply not_elem_of_cons in Hl as [? _]|].
    rewrite Ht. do 3 f_equal. apply (take_app_length (b :: host)). }
  rewrite Hs. cbn [obind]. rewrite !drop_0.
  replace (index_byte lbracket (host ++ colon :: port)) with (@None nat).
  2: { symmetry. apply index_byte_None. by rewrite not_elem_of_app, not_elem_of_cons. }
  replace (index_byte rbracket (host ++ colon :: port)) with (@None nat).
  2: { symmetry. apply index_byte_None. by rewrite not_elem_of_app, not_elem_of_cons. }
  do 2 f_equal. replace (host ++ colon :: port) with ((host ++ [colon]) ++ port) by by rewrite <- app_assoc.
  rewrite drop_app_length'; [done|]. rewrite length_app. cbn. lia.
Qed.

(** A host without brackets and a port without brackets or colons survive the round trip. *)
Lemma SplitHostPort_Join host port :
  lbracket ∉ host -> rbracket ∉ host -> lbracket ∉ port -> rbracket ∉ port -> colon ∉ port ->
  SplitHostPort (JoinHostPort host port) = Ok (host, port).
Proof.
  intros. unfold JoinHostPort. destruct (index_byte colon host) eqn:Hcol; [by apply SplitHostPort_bracketed|].
  apply index_byte_None in Hcol. by apply SplitHostPort_plain.
Qed.

(** A host with a colon needs brackets. *)
Lemma SplitHostPort_colon host port :
  colon ∈ host -> lbracket ∉ host -> colon ∉ port -> SplitHostPort (host ++ [colon] ++ port) = Err BadAddress.
Proof.
  intros Hcol Hl Hc. cbn [app]. unfold SplitHostPort. rewrite last_byte_at by done.
  destruct (index_byte colon host) as [i|] eqn:Hi; [|by apply index_byte_None in Hi].
  unfold split_host. destruct host as [|b host]; [done|]. cbn [app] in *.
  destruct (Z.eqb_spec b lbracket) as [->|_]; [by apply not_elem_of_cons in Hl as [? _]|].
  change (b :: host ++ colon :: port) with ((b :: host) ++ colon :: port).
  by rewrite take_app_length, Hi.
Qed.

(** ** Decimal numbers *)

Lemma itoa_digits_decimal fuel n acc :
  0 <= n < 10 ^ Z.of_nat fuel -> fuel <> O ->
  decimal (itoa_digits fuel n acc) 0 = decimal acc n /\
  (Forall (fun b => 48 <= b <= 57) acc -> Forall (fun b => 48 <= b <= 57) (itoa_digits fuel n acc)).
Proof.
  revert n acc. induction fuel as [|fuel IH]; intros n acc Hn Hf; [done|]. cbn [itoa_digits].
  pose proof (Z.mod_pos_bound n 10 ltac:(lia)) as Hm.
  destruct (Z.ltb_spec n 10) as [Hlt|Hge].
  - rewrite Z.mod_small by lia. split; [|constructor; [lia|done]]. cbn [decimal].
    destruct (Z.leb_spec 48 (48 + n)); [|lia]. destruct (Z.leb_spec (48 + n) 57); [|lia]. cbn. f_equal. lia.
  - assert (Hfuel : fuel <> O) by (intros ->; cbn in Hn; lia).
    rewrite Nat2Z.inj_succ, Z.pow_succ_r in Hn by lia.
    destruct (IH (n / 10) ((48 + n mod 10) :: acc)) as [H1 H2]; [|done|].
    + split; [apply Z.div_pos; lia|apply Z.div_lt_upper_bound; lia].
    + split; [|intros Ha; apply H2; constructor; [lia|done]]. rewrite H1. cbn [decimal].
      destruct (Z.leb_spec 48 (48 + n mod 10)); [|lia]. destruct (Z.leb_spec (48 + n mod 10) 57); [|lia].
      cbn [andb]. f_equal. pose proof (Z.div_mod n 10 ltac:(lia)). lia.
Qed.

Lemma Itoa_digits n :
  0 <= n -> decimal (Itoa n) 0 = Some n /\ Forall (fun b => 48 <= b <= 57) (Itoa n) /\ Itoa n <> [].
Proof.
  intros Hn. unfold Itoa. destruct (Z.ltb_spec n 0); [lia|].
  destruct (itoa_digits_decimal (S (Z.to_nat (Z.log2 n))) n []) as [H1 H2].
  - split; [done|]. rewrite Nat2Z.inj_succ, Z2Nat.id by apply Z.log2_nonneg.
    destruct (decide (n = 0)) as [->|Hne]; [done|]. destruct (Z.log2_spec n) as [_ Hlt]; [lia|].
    eapply Z.lt_le_trans; [exact Hlt|]. apply Z.pow_le_mono_l. lia.
  - done.
  - rewrite H1. split_and!; [done|by apply H2|]. cbn [itoa_digits]. case_if; [done|].
    assert (Hne : forall fuel m acc, acc <> [] -> itoa_digits fuel m acc <> []).
    { induction fuel as [|fuel IH]; intros m acc Ha; [done|]. cbn. case_if; [done|]. by apply IH. }
    by apply Hne.
Qed.

Lemma Atoi_Itoa n : 0 <= n -> Atoi (Itoa n) = Some n.
Proof.
  intros Hn. destruct (Itoa_digits n Hn) as (H1 & H2 & H3). unfold Atoi.
  destruct (Itoa n) as [|b rest]; [done|]. apply Forall_cons_iff in H2 as [Hb _].
  destruct (Z.eqb_spec b 45); [lia|]. destruct (Z.eqb_spec b 43); [lia|]. done.
Qed.

Lemma Itoa_plain n c : 0 <= n -> c < 48 \/ 57 < c -> c ∉ Itoa n.
Proof.
  intros Hn Hc Hin. destruct (Itoa_digits n Hn) as (_ & H2 & _). rewrite Forall_forall in H2.
  specialize (H2 c Hin). lia.
Qed.
