(* ===== verification/SessionConfig.v ===== *)
(** * SessionConfig: the session configuration
    (internal/app/session, the registries of transport/transport.go,
    auth/auth.go and engine/builtin/builtin.go)

    [Config] with its defaults and its validation.  A [*net.Resolver] is a number.  A
    check returns [None] for a nil error; wrapped errors keep the sentinel that
    [errors.Is] sees.  The text form of IP addresses is the interface [NetIP]. *)

From stdpp Require Import sorting.
From S2P Require Import Prelude Bytes Text Durations Traffic Control Crypto SeiTransport Socks.

(** ** Registries

    The process-wide maps from names to factories and providers; three packages
    repeat the same code. *)

(* go: transport/transport.go 262-269 Register *)
Definition registry_Register {A} (registry : gmap string A) (name : string) (v : A) : gmap string A :=
  <[name := v]> registry.

Definition string_le (a b : string) : Prop := String.leb a b = true.
#[export] Instance string_le_dec a b : Decision (string_le a b).
Proof. unfold string_le. apply _. Defined.

(* go: transport/transport.go 283-297 Available *)
Definition Available {A} (registry : gmap string A) : list string :=
  merge_sort string_le (map_to_list registry).*1.

(* go: auth/auth.go 56-76 Provider *)
Record Provider := MkProvider {
  pvEngine : string;
  pvDefaultServiceURL : string;
  pvRoomCreator : bool;
}.

(* go: auth/telemost/telemost.go 22-26 Provider *)
Definition telemost_Provider : Provider := MkProvider "goolom" "https://telemost.yandex.ru" false.
(* go: auth/wbstream/wbstream.go 19-23 Provider *)
Definition wbstream_Provider : Provider := MkProvider "livekit" "https://stream.wb.ru" false.
(* go: auth/jitsi/jitsi.go 41-49 Provider *)
Definition jitsi_Provider : Provider := MkProvider "jitsi" "https://meet.handyweb.org" false.

(** The four transports that register a factory. *)
Inductive TransportKind := KDatachannel | KVideochannel | KSeichannel | KVp8channel.

Record Registries := MkRegistries {
  rgAuth : gmap string Provider;
  rgBuiltin : gmap string (option Provider);
  rgTransport : gmap string TransportKind;
}.

(* go: engine/builtin/builtin.go 117-149 register *)
Definition builtin_register (R : Registries) (name : string) (provider : option Provider) : Registries :=
  MkRegistries
    (match provider with Some p => registry_Register (rgAuth R) name p | None => rgAuth R end)
    (registry_Register (rgBuiltin R) name provider) (rgTransport R).

(* go: engine/builtin/builtin.go 105-115 RegisterDefaults *)
Definition builtin_RegisterDefaults (R : Registries) : Registries :=
  let R := builtin_register R "wbstream" (Some wbstream_Provider) in
  let R := builtin_register R "telemost" (Some telemost_Provider) in
  let R := builtin_register R "jitsi" (Some jitsi_Provider) in
  builtin_register R "none" None.

(* go: app/session/config.go 162-169 RegisterDefaults *)
Definition RegisterDefaults (R : Registries) : Registries :=
  let R := builtin_RegisterDefaults R in
  let ts := registry_Register (rgTransport R) "datachannel" KDatachannel in
  let ts := registry_Register ts "videochannel" KVideochannel in
  let ts := registry_Register ts "seichannel" KSeichannel in
  let ts := registry_Register ts "vp8channel" KVp8channel in
  MkRegistries (rgAuth R) (rgBuiltin R) ts.

(** ** Configuration *)

(* go: app/session/config.go 17-22 Mode* *)
Definition ModeSrv : string := "srv".
Definition ModeCnc : string := "cnc".
Definition ModeGen : string := "gen".

(* go: app/session/config.go 24-31 providerNone *)
Definition providerNone : string := "none".
Definition transportVideo : string := "videochannel".
Definition transportVP8 : string := "vp8channel".
Definition transportSEI : string := "seichannel".
Definition videoCodecQRCode : string := "qrcode".
Definition videoCodecTile : string := "tile".

(* go: app/session/config.go 33-44 default* *)
Definition defaultVideoWidth : Z := 1920.
Definition defaultVideoHeight : Z := 1080.
Definition defaultVideoFPS : Z := 30.
Definition defaultVideoQRRecovery : string := "low".
Definition defaultVP8FPS : Z := 30.
Definition defaultVP8BatchSize : Z := 64.
Definition defaultSEIFPS : Z := 30.
Definition defaultSEIBatchSize : Z := 64.
Definition defaultSEIFragmentSize : Z := 900.
Definition defaultSEIAckTimeoutMS : Z := 2000.

(* go: app/session/config.go 46-99 Err* *)
Inductive cfg_error :=
| ErrRoomIDRequired
| ErrModeRequired
| ErrAmountRequired
| ErrProviderRequired
| ErrUnsupportedProvider
| ErrUnsupportedTransport
| ErrTransportRequired
| ErrCfgKeyRequired
| ErrDNSServerRequired
| ErrVideoWidthRequired
| ErrVideoHeightRequired
| ErrVideoFPSRequired
| ErrVideoCodecInvalid
| ErrTileCodecDimensions
| ErrVideoDimensionsInvalid
| ErrVideoQRRecoveryInvalid
| ErrVideoTileModuleInvalid
| ErrVideoTileRSInvalid
| ErrFPSInvalid
| ErrKeyInvalid
| ErrSOCKSPortInvalid
| ErrSEIFragmentSizeInvalid
| ErrVP8FPSRequired
| ErrVP8BatchSizeRequired
| ErrSEIFPSRequired
| ErrSEIBatchSizeRequired
| ErrSEIFragmentSizeRequired
| ErrSEIAckTimeoutRequired
| ErrSOCKSHostRequired
| ErrSOCKSPortRequired
| ErrSOCKSAuthRequired
| ErrLivenessIntervalInvalid
| ErrLivenessTimeoutInvalid
| ErrLivenessFailuresInvalid
| ErrLifecycleMaxSessionDurationInvalid
| ErrTrafficMaxPayloadSizeInvalid
| ErrTrafficMinDelayInvalid
| ErrTrafficMaxDelayInvalid
| errPositiveDuration
| errNonNegativeDuration
| errParseDuration.

(* go: app/session/config.go 101-111 VideoConfig *)
Record VideoConfig := MkVideoConfig {
  vcWidth : Z;
  vcHeight : Z;
  vcFPS : Z;
  vcQRSize : Z;
  vcQRRecovery : string;
  vcCodec : string;
  vcTileModule : Z;
  vcTileRS : Z;
}.

(* go: app/session/config.go 113-117 VP8Config *)
Record VP8Config := MkVP8Config { v8FPS : Z; v8BatchSize : Z }.

(* go: app/session/config.go 119-125 SEIConfig *)
Record SEIConfig := MkSEIConfig {
  seFPS : Z;
  seBatchSize : Z;
  seFragmentSize : Z;
  seAckTimeoutMS : Z;
}.

(* go: app/session/config.go 127-160 Config *)
Record Config := MkConfig {
  cfMode : string;
  cfTransport : string;
  cfProvider : string;
  cfProviderToken : string;
  cfEngine : string;
  cfURL : string;
  cfToken : string;
  cfRoomID : string;
  cfChannelID : string;
  cfKeyHex : string;
  cfSOCKSHost : string;
  cfSOCKSPort : Z;
  cfSOCKSUser : string;
  cfSOCKSPass : string;
  cfDNSServer : string;
  cfResolver : option nat;
  cfSOCKSProxyAddr : string;
  cfSOCKSProxyPort : Z;
  cfSOCKSProxyUser : string;
  cfSOCKSProxyPass : string;
  cfVideo : VideoConfig;
  cfVP8 : VP8Config;
  cfSEI : SEIConfig;
  cfLivenessInterval : string;
  cfLivenessTimeout : string;
  cfLivenessFailures : Z;
  cfMaxSessionDuration : string;
  cfTrafficMaxPayloadSize : Z;
  cfTrafficMinDelay : string;
  cfTrafficMaxDelay : string;
  cfAmount : Z;
}.

Definition set_Mode (v : string) (c : Config) : Config :=
  MkConfig v (cfTransport c) (cfProvider c) (cfProviderToken c) (cfEngine c) (cfURL c) (cfToken
    c) (cfRoomID c) (cfChannelID c) (cfKeyHex c) (cfSOCKSHost c) (cfSOCKSPort c) (cfSOCKSUser c)
    (cfSOCKSPass c) (cfDNSServer c) (cfResolver c) (cfSOCKSProxyAddr c) (cfSOCKSProxyPort c)
    (cfSOCKSProxyUser c) (cfSOCKSProxyPass c) (cfVideo c) (cfVP8 c) (cfSEI c)
    (cfLivenessInterval c) (cfLivenessTimeout c) (cfLivenessFailures c) (cfMaxSessionDuration c)
    (cfTrafficMaxPayloadSize c) (cfTrafficMinDelay c) (cfTrafficMaxDelay c) (cfAmount c).

Definition set_Resolver (v : option nat) (c : Config) : Config :=
  MkConfig (cfMode c) (cfTransport c) (cfProvider c) (cfProviderToken c) (cfEngine c) (cfURL c)
    (cfToken c) (cfRoomID c) (cfChannelID c) (cfKeyHex c) (cfSOCKSHost c) (cfSOCKSPort c)
    (cfSOCKSUser c) (cfSOCKSPass c) (cfDNSServer c) v (cfSOCKSProxyAddr c) (cfSOCKSProxyPort c)
    (cfSOCKSProxyUser c) (cfSOCKSProxyPass c) (cfVideo c) (cfVP8 c) (cfSEI c)
    (cfLivenessInterval c) (cfLivenessTimeout c) (cfLivenessFailures c) (cfMaxSessionDuration c)
    (cfTrafficMaxPayloadSize c) (cfTrafficMinDelay c) (cfTrafficMaxDelay c) (cfAmount c).

Definition set_Video (v : VideoConfig) (c : Config) : Config :=
  MkConfig (cfMode c) (cfTransport c) (cfProvider c) (cfProviderToken c) (cfEngine c) (cfURL c)
    (cfToken c) (cfRoomID c) (cfChannelID c) (cfKeyHex c) (cfSOCKSHost c) (cfSOCKSPort c)
    (cfSOCKSUser c) (cfSOCKSPass c) (cfDNSServer c) (cfResolver c) (cfSOCKSProxyAddr c)
    (cfSOCKSProxyPort c) (cfSOCKSProxyUser c) (cfSOCKSProxyPass c) v (cfVP8 c) (cfSEI c)
    (cfLivenessInterval c) (cfLivenessTimeout c) (cfLivenessFailures c) (cfMaxSessionDuration c)
    (cfTrafficMaxPayloadSize c) (cfTrafficMinDelay c) (cfTrafficMaxDelay c) (cfAmount c).

Definition set_VP8 (v : VP8Config) (c : Config) : Config :=
  MkConfig (cfMode c) (cfTransport c) (cfProvider c) (cfProviderToken c) (cfEngine c) (cfURL c)
    (cfToken c) (cfRoomID c) (cfChannelID c) (cfKeyHex c) (cfSOCKSHost c) (cfSOCKSPort c)
    (cfSOCKSUser c) (cfSOCKSPass c) (cfDNSServer c) (cfResolver c) (cfSOCKSProxyAddr c)
    (cfSOCKSProxyPort c) (cfSOCKSProxyUser c) (cfSOCKSProxyPass c) (cfVideo c) v (cfSEI c)
    (cfLivenessInterval c) (cfLivenessTimeout c) (cfLivenessFailures c) (cfMaxSessionDuration c)
    (cfTrafficMaxPayloadSize c) (cfTrafficMinDelay c) (cfTrafficMaxDelay c) (cfAmount c).

Definition set_SEI (v : SEIConfig) (c : Config) : Config :=
  MkConfig (cfMode c) (cfTransport c) (cfProvider c) (cfProviderToken c) (cfEngine c) (cfURL c)
    (cfToken c) (cfRoomID c) (cfChannelID c) (cfKeyHex c) (cfSOCKSHost c) (cfSOCKSPort c)
    (cfSOCKSUser c) (cfSOCKSPass c) (cfDNSServer c) (cfResolver c) (cfSOCKSProxyAddr c)
    (cfSOCKSProxyPort c) (cfSOCKSProxyUser c) (cfSOCKSProxyPass c) (cfVideo c) (cfVP8 c) v
    (cfLivenessInterval c) (cfLivenessTimeout c) (cfLivenessFailures c) (cfMaxSessionDuration c)
    (cfTrafficMaxPayloadSize c) (cfTrafficMinDelay c) (cfTrafficMaxDelay c) (cfAmount c).

Definition set_Amount (v : Z) (c : Config) : Config :=
  MkConfig (cfMode c) (cfTransport c) (cfProvider c) (cfProviderToken c) (cfEngine c) (cfURL c)
    (cfToken c) (cfRoomID c) (cfChannelID c) (cfKeyHex c) (cfSOCKSHost c) (cfSOCKSPort c)
    (cfSOCKSUser c) (cfSOCKSPass c) (cfDNSServer c) (cfResolver c) (cfSOCKSProxyAddr c)
    (cfSOCKSProxyPort c) (cfSOCKSProxyUser c) (cfSOCKSProxyPass c) (cfVideo c) (cfVP8 c) (cfSEI
    c) (cfLivenessInterval c) (cfLivenessTimeout c) (cfLivenessFailures c) (cfMaxSessionDuration
    c) (cfTrafficMaxPayloadSize c) (cfTrafficMinDelay c) (cfTrafficMaxDelay c) v.


Definition set_Liveness (interval timeout : string) (failures : Z) (c : Config) : Config :=
  MkConfig (cfMode c) (cfTransport c) (cfProvider c) (cfProviderToken c) (cfEngine c) (cfURL c)
    (cfToken c) (cfRoomID c) (cfChannelID c) (cfKeyHex c) (cfSOCKSHost c) (cfSOCKSPort c)
    (cfSOCKSUser c) (cfSOCKSPass c) (cfDNSServer c) (cfResolver c) (cfSOCKSProxyAddr c)
    (cfSOCKSProxyPort c) (cfSOCKSProxyUser c) (cfSOCKSProxyPass c) (cfVideo c) (cfVP8 c) (cfSEI
    c) interval timeout failures (cfMaxSessionDuration c) (cfTrafficMaxPayloadSize c)
    (cfTrafficMinDelay c) (cfTrafficMaxDelay c) (cfAmount c).

Definition set_EngineURL (engine url : string) (c : Config) : Config :=
  MkConfig (cfMode c) (cfTransport c) (cfProvider c) (cfProviderToken c) engine url (cfToken c)
    (cfRoomID c) (cfChannelID c) (cfKeyHex c) (cfSOCKSHost c) (cfSOCKSPort c) (cfSOCKSUser c)
    (cfSOCKSPass c) (cfDNSServer c) (cfResolver c) (cfSOCKSProxyAddr c) (cfSOCKSProxyPort c)
    (cfSOCKSProxyUser c) (cfSOCKSProxyPass c) (cfVideo c) (cfVP8 c) (cfSEI c)
    (cfLivenessInterval c) (cfLivenessTimeout c) (cfLivenessFailures c) (cfMaxSessionDuration c)
    (cfTrafficMaxPayloadSize c) (cfTrafficMinDelay c) (cfTrafficMaxDelay c) (cfAmount c).

(** Go's comparisons with the empty string and between strings. *)
Abbreviation str_eqb a b := (String.eqb a b).

(** [slices.Contains]. *)
Definition slices_Contains (l : list string) (s : string) : bool := bool_decide (s ∈ l).

(** ** Defaults *)

Definition or_string (v def : string) : string := if str_eqb v "" then def else v.
Definition or_int (v def : Z) : Z := if v =? 0 then def else v.

(* go: app/session/defaults.go 14-30 ApplyProviderDefaults *)
Definition ApplyProviderDefaults (R : Registries) (cfg : Config) : Config :=
  if str_eqb (cfProvider cfg) providerNone || str_eqb (cfProvider cfg) "" then cfg
  else
    match rgAuth R !! cfProvider cfg with
    | None => cfg
    | Some provider =>
        set_EngineURL (or_string (cfEngine cfg) (pvEngine provider))
          (or_string (cfURL cfg) (pvDefaultServiceURL provider)) cfg
    end.

(* go: app/session/defaults.go 60-81 applyVideoDefaults *)
Definition applyVideoDefaults (cfg : Config) : Config :=
  let v := cfVideo cfg in
  let codec := or_string (vcCodec v) videoCodecQRCode in
  let width := if str_eqb codec videoCodecTile then defaultVideoHeight else defaultVideoWidth in
  set_Video
    (MkVideoConfig (or_int (vcWidth v) width) (or_int (vcHeight v) defaultVideoHeight)
       (or_int (vcFPS v) defaultVideoFPS) (vcQRSize v)
       (or_string (vcQRRecovery v) defaultVideoQRRecovery) codec (vcTileModule v) (vcTileRS v)) cfg.

(* go: app/session/defaults.go 83-91 applyVP8Defaults *)
Definition applyVP8Defaults (cfg : Config) : Config :=
  let v := cfVP8 cfg in
  set_VP8 (MkVP8Config (or_int (v8FPS v) defaultVP8FPS) (or_int (v8BatchSize v) defaultVP8BatchSize)) cfg.

(* go: app/session/defaults.go 93-107 applySEIDefaults *)
Definition applySEIDefaults (cfg : Config) : Config :=
  let v := cfSEI cfg in
  set_SEI
    (MkSEIConfig (or_int (seFPS v) defaultSEIFPS) (or_int (seBatchSize v) defaultSEIBatchSize)
       (or_int (seFragmentSize v) defaultSEIFragmentSize)
       (or_int (seAckTimeoutMS v) defaultSEIAckTimeoutMS)) cfg.

(* go: app/session/defaults.go 32-44 ApplyTransportDefaults *)
Definition ApplyTransportDefaults (cfg : Config) : Config :=
  if str_eqb (cfTransport cfg) transportVideo then applyVideoDefaults cfg
  else if str_eqb (cfTransport cfg) transportVP8 then applyVP8Defaults cfg
  else if str_eqb (cfTransport cfg) transportSEI then applySEIDefaults cfg
  else cfg.

(** [Duration.String] of the two default durations. *)
Definition DefaultInterval_String : string := "10s".
Definition DefaultTimeout_String : string := "15s".

(* go: app/session/defaults.go 46-58 ApplyLivenessDefaults *)
Definition ApplyLivenessDefaults (cfg : Config) : Config :=
  set_Liveness (or_string (cfLivenessInterval cfg) DefaultInterval_String)
    (or_string (cfLivenessTimeout cfg) DefaultTimeout_String)
    (or_int (cfLivenessFailures cfg) DefaultFailures) cfg.

(* go: app/session/defaults.go 8-12 ApplyDefaults *)
Definition ApplyDefaults (R : Registries) (cfg : Config) : Config :=
  let cfg := ApplyProviderDefaults R cfg in
  ApplyLivenessDefaults (ApplyTransportDefaults cfg).

(** ** Limits of internal/runtime/runtime.go *)

(* go: runtime/runtime.go 22-25 SmuxFrameOverhead *)
Definition SmuxFrameOverhead : Z := 8.
(* go: runtime/runtime.go 26-28 SmuxWireOverhead *)
Definition SmuxWireOverhead : Z := WireOverhead + SmuxFrameOverhead.
(* go: runtime/runtime.go 29-31 MinSmuxWirePayload *)
Definition MinSmuxWirePayload : Z := SmuxWireOverhead + 1.

(** ** Validation *)

(* go: app/session/validate.go 18-27 minVideoDimension *)
Definition minVideoDimension : Z := 16.
Definition maxVideoDimension : Z := 8192.
Definition maxVideoTileModule : Z := 270.
Definition maxVideoTileRS : Z := 200.
Definition maxSEIFragmentSize : Z := 60000.
Definition maxPort : Z := 65535.

(* go: app/session/validate.go 29-33 videoQRRecoveryLevels *)
Definition videoQRRecoveryLevels : list string := [defaultVideoQRRecovery; "medium"; "high"; "highest"].

(* go: app/session/validate.go 56-63 validateMode *)
Definition validateMode (cfg : Config) : option cfg_error :=
  if str_eqb (cfMode cfg) ModeSrv || str_eqb (cfMode cfg) ModeCnc || str_eqb (cfMode cfg) ModeGen
  then None else Some ErrModeRequired.

(* go: app/session/validate.go 65-73 validateProvider *)
Definition validateProvider (R : Registries) (cfg : Config) : option cfg_error :=
  if str_eqb (cfProvider cfg) "" then Some ErrProviderRequired
  else if negb (slices_Contains (Available (rgBuiltin R)) (cfProvider cfg)) then Some ErrUnsupportedProvider
  else None.

(* go: app/session/validate.go 75-83 validateTransportRegistration *)
Definition validateTransportRegistration (R : Registries) (cfg : Config) : option cfg_error :=
  if str_eqb (cfTransport cfg) "" then Some ErrTransportRequired
  else if negb (slices_Contains (Available (rgTransport R)) (cfTransport cfg))
       then Some ErrUnsupportedTransport
  else None.

(* go: app/session/validate.go 98-110 validateKey *)
Definition validateKey (keyHex : string) : option cfg_error :=
  if str_eqb keyHex "" then Some ErrCfgKeyRequired
  else
    match hex_DecodeString keyHex with
    | None => Some ErrKeyInvalid
    | Some key => if negb (len key =? KeySize) then Some ErrKeyInvalid else None
    end.

(* go: app/session/validate.go 85-96 validateCommon *)
Definition validateCommon (cfg : Config) : option cfg_error :=
  if str_eqb (cfRoomID cfg) "" && negb (str_eqb (cfProvider cfg) providerNone) then Some ErrRoomIDRequired
  else
    match validateKey (cfKeyHex cfg) with
    | Some err => Some err
    | None =>
        if str_eqb (cfDNSServer cfg) "" && bool_decide (cfResolver cfg = None)
        then Some ErrDNSServerRequired else None
    end.

(* go: app/session/validate.go 112-123 validateFPS *)
Definition validateFPS (fps : Z) (missing : cfg_error) : option cfg_error :=
  if fps =? 0 then Some missing
  else if (fps <? 0) || (MaxFPS <? fps) then Some ErrFPSInvalid
  else None.

(* go: app/session/validate.go 138-146 validateVideoCodec *)
Definition validateVideoCodec (cfg : Config) : option cfg_error :=
  let v := cfVideo cfg in
  if negb (str_eqb (vcCodec v) "") && negb (str_eqb (vcCodec v) videoCodecQRCode)
     && negb (str_eqb (vcCodec v) videoCodecTile)
  then Some ErrVideoCodecInvalid
  else if str_eqb (vcCodec v) videoCodecTile && (negb (vcWidth v =? 1080) || negb (vcHeight v =? 1080))
  then Some ErrTileCodecDimensions
  else None.

(* go: app/session/validate.go 148-167 validateVideoVisual *)
Definition validateVideoVisual (cfg : Config) : option cfg_error :=
  let v := cfVideo cfg in
  if (vcWidth v <? minVideoDimension) || (maxVideoDimension <? vcWidth v)
     || (vcHeight v <? minVideoDimension) || (maxVideoDimension <? vcHeight v)
  then Some ErrVideoDimensionsInvalid
  else if negb (str_eqb (vcQRRecovery v) "") && negb (slices_Contains videoQRRecoveryLevels (vcQRRecovery v))
  then Some ErrVideoQRRecoveryInvalid
  else if (vcTileModule v <? 0) || (maxVideoTileModule <? vcTileModule v) then Some ErrVideoTileModuleInvalid
  else if (vcTileRS v <? 0) || (maxVideoTileRS <? vcTileRS v) then Some ErrVideoTileRSInvalid
  else None.

(** The error of [a], or else that of [b]. *)
Definition or_else (a b : option cfg_error) : option cfg_error :=
  match a with Some err => Some err | None => b end.

(* go: app/session/validate.go 169-183 validateVideoChannel *)
Definition validateVideoChannel (cfg : Config) : option cfg_error :=
  if vcWidth (cfVideo cfg) =? 0 then Some ErrVideoWidthRequired
  else if vcHeight (cfVideo cfg) =? 0 then Some ErrVideoHeightRequired
  else
    or_else (validateFPS (vcFPS (cfVideo cfg)) ErrVideoFPSRequired)
      (or_else (validateVideoCodec cfg) (validateVideoVisual cfg)).

(* go: app/session/validate.go 185-193 validateVP8Channel *)
Definition validateVP8Channel (cfg : Config) : option cfg_error :=
  or_else (validateFPS (v8FPS (cfVP8 cfg)) ErrVP8FPSRequired)
    (if v8BatchSize (cfVP8 cfg) =? 0 then Some ErrVP8BatchSizeRequired else None).

(* go: app/session/validate.go 195-212 validateSEIChannel *)
Definition validateSEIChannel (cfg : Config) : option cfg_error :=
  let s := cfSEI cfg in
  or_else (validateFPS (seFPS s) ErrSEIFPSRequired)
    (if seBatchSize s =? 0 then Some ErrSEIBatchSizeRequired
     else if seFragmentSize s =? 0 then Some ErrSEIFragmentSizeRequired
     else if (seFragmentSize s <? 0) || (maxSEIFragmentSize <? seFragmentSize s)
     then Some ErrSEIFragmentSizeInvalid
     else if seAckTimeoutMS s =? 0 then Some ErrSEIAckTimeoutRequired
     else None).

(* go: app/session/validate.go 125-136 validateTransportConfig *)
Definition validateTransportConfig (cfg : Config) : option cfg_error :=
  if str_eqb (cfTransport cfg) transportVideo then validateVideoChannel cfg
  else if str_eqb (cfTransport cfg) transportVP8 then validateVP8Channel cfg
  else if str_eqb (cfTransport cfg) transportSEI then validateSEIChannel cfg
  else None.

(* go: app/session/validate.go 251-263 parseLivenessDuration *)
Definition parseLivenessDuration (value : string) (def : Z) : outcome cfg_error Z :=
  if str_eqb value "" then Ok def
  else
    match ParseDuration value with
    | None => Err errParseDuration
    | Some duration => if duration <=? 0 then Err errPositiveDuration else Ok duration
    end.

(* go: app/session/validate.go 326-338 parseOptionalNonNegativeDuration *)
Definition parseOptionalNonNegativeDuration (value : string) : outcome cfg_error Z :=
  if str_eqb value "" then Ok 0
  else
    match ParseDuration value with
    | None => Err errParseDuration
    | Some duration => if duration <? 0 then Err errNonNegativeDuration else Ok duration
    end.

(** [fmt.Errorf] with a sentinel in front of the cause. *)
Definition wrap {A} (sentinel : cfg_error) (r : outcome cfg_error A) : outcome cfg_error A :=
  match r with Err _ => Err sentinel | _ => r end.
Definition failure {A} (r : outcome cfg_error A) : option cfg_error :=
  match r with Err e => Some e | _ => None end.

(* go: app/session/validate.go 233-244 validateLivenessConfig *)
Definition validateLivenessConfig (cfg : Config) : option cfg_error :=
  or_else (failure (wrap ErrLivenessIntervalInvalid
                      (parseLivenessDuration (cfLivenessInterval cfg) DefaultInterval)))
    (or_else (failure (wrap ErrLivenessTimeoutInvalid
                         (parseLivenessDuration (cfLivenessTimeout cfg) DefaultTimeout)))
       (if cfLivenessFailures cfg <? 0 then Some ErrLivenessFailuresInvalid else None)).

(* go: app/session/validate.go 265-282 livenessConfig *)
Definition livenessConfig (cfg : Config) : outcome cfg_error CtlConfig :=
  let* interval := wrap ErrLivenessIntervalInvalid
                     (parseLivenessDuration (cfLivenessInterval cfg) DefaultInterval) in
  let* timeout := wrap ErrLivenessTimeoutInvalid
                    (parseLivenessDuration (cfLivenessTimeout cfg) DefaultTimeout) in
  let failures := or_int (cfLivenessFailures cfg) DefaultFailures in
  if failures <? 0 then Err ErrLivenessFailuresInvalid
  else Ok (MkCtlConfig interval timeout failures).

(* go: app/session/validate.go 284-296 maxSessionDuration *)
Definition maxSessionDuration (cfg : Config) : outcome cfg_error Z :=
  if str_eqb (cfMaxSessionDuration cfg) "" then Ok 0
  else
    match ParseDuration (cfMaxSessionDuration cfg) with
    | None => Err ErrLifecycleMaxSessionDurationInvalid
    | Some duration =>
        if duration <=? 0 then Err ErrLifecycleMaxSessionDurationInvalid else Ok duration
    end.

(* go: app/session/validate.go 246-249 validateLifecycleConfig *)
Definition validateLifecycleConfig (cfg : Config) : option cfg_error := failure (maxSessionDuration cfg).

(* go: app/session/validate.go 303-324 trafficConfig *)
Definition trafficConfig (cfg : Config) : outcome cfg_error TrafficConfig :=
  let cap := cfTrafficMaxPayloadSize cfg in
  if (cap <? 0) || ((0 <? cap) && (cap <? MinSmuxWirePayload)) then Err ErrTrafficMaxPayloadSizeInvalid
  else
    let* minDelay := wrap ErrTrafficMinDelayInvalid
                       (parseOptionalNonNegativeDuration (cfTrafficMinDelay cfg)) in
    let* maxDelay := wrap ErrTrafficMaxDelayInvalid
                       (parseOptionalNonNegativeDuration (cfTrafficMaxDelay cfg)) in
    if (0 <? maxDelay) && (maxDelay <? minDelay) then Err ErrTrafficMaxDelayInvalid
    else Ok (MkTraffic cap minDelay maxDelay).

(* go: app/session/validate.go 298-301 validateTrafficConfig *)
Definition validateTrafficConfig (cfg : Config) : option cfg_error := failure (trafficConfig cfg).

(** [IP.IsLoopback]. *)
Definition IP_IsLoopback (ip : bytes) : bool :=
  match To4 ip with
  | Some ip4 => bool_decide (ip4 !! 0%nat = Some 127)
  | None => bool_decide (ip = repeat 0 15 ++ [1])
  end.

(* go: app/session/validate.go 340-346 isLoopbackListenHost *)
Definition isLoopbackListenHost `{NetIP} (host : string) : bool :=
  if str_eqb host "localhost" then true
  else
    match ParseIP (string_bytes host) with
    | Some ip => IP_IsLoopback ip
    | None => false
    end.

(* go: app/session/validate.go 214-231 validateModeConfig *)
Definition validateModeConfig `{NetIP} (cfg : Config) : option cfg_error :=
  if negb (str_eqb (cfMode cfg) ModeCnc) then None
  else if str_eqb (cfSOCKSHost cfg) "" then Some ErrSOCKSHostRequired
  else if cfSOCKSPort cfg =? 0 then Some ErrSOCKSPortRequired
  else if (cfSOCKSPort cfg <? 0) || (maxPort <? cfSOCKSPort cfg) then Some ErrSOCKSPortInvalid
  else if negb (isLoopbackListenHost (cfSOCKSHost cfg))
          && (str_eqb (cfSOCKSUser cfg) "" || str_eqb (cfSOCKSPass cfg) "")
  then Some ErrSOCKSAuthRequired
  else None.

(** The loop over the checks: the first error. *)
Fixpoint first_error (checks : list (Config -> option cfg_error)) (cfg : Config) : option cfg_error :=
  match checks with
  | [] => None
  | check :: rest => or_else (check cfg) (first_error rest cfg)
  end.

(* go: app/session/validate.go 35-54 Validate *)
Definition Validate `{NetIP} (R : Registries) (cfg : Config) : option cfg_error :=
  first_error
    [ validateMode;
      validateProvider R;
      validateTransportRegistration R;
      validateCommon;
      validateTransportConfig;
      validateLivenessConfig;
      validateLifecycleConfig;
      validateTrafficConfig;
      validateModeConfig ] cfg.
