(* ===== verification/SessionRun.v ===== *)
(** * SessionRun: from a configuration to a running tunnel
    (internal/app/session/run.go and transport_options.go, internal/runtime,
    the options of the transports, cmd/olcrtc/main.go's use of them)

    [Run] up to the call of the server's or the client's [Run], which receive the
    configuration computed here; the session rotation around that call; the
    smux settings and the payload limit the opened transport advertises; the
    health tracker.  [smux.DefaultConfig] is an argument. *)

From S2P Require Import Prelude Bytes Text Durations Traffic Control Crypto Reassembly SeiTransport Socks NetAddr SessionConfig.

(** ** Transport options *)

(* go: transport/vp8channel/options.go 12-16 Options *)
Record Vp8Options := MkVp8Options { voFPS : Z; voBatchSize : Z }.

(* go: transport/vp8channel/options.go 21-31 withDefaults *)
Definition vp8_withDefaults (o : Vp8Options) : Vp8Options :=
  MkVp8Options (NormalizeFPS (voFPS o) 30) (if voBatchSize o <=? 0 then 64 else voBatchSize o).

(* go: transport/videochannel/options.go 21-31 Options *)
Record VideoOptions := MkVideoOptions {
  woWidth : Z;
  woHeight : Z;
  woFPS : Z;
  woQRSize : Z;
  woQRRecovery : string;
  woCodec : string;
  woTileModule : Z;
  woTileRS : Z;
}.

(** The frame size of the tile codec, constants of the gr/tile library. *)
Class TileFrame : Type := { grtile_FrameW : Z; grtile_FrameH : Z }.

(* go: transport/videochannel/options.go 36-72 withDefaults *)
Definition video_withDefaults `{TileFrame} (o : VideoOptions) : VideoOptions :=
  let tile := str_eqb (woCodec o) "tile" in
  MkVideoOptions
    (if woWidth o <=? 0 then (if tile then grtile_FrameW else 1920) else woWidth o)
    (if woHeight o <=? 0 then (if tile then grtile_FrameH else 1080) else woHeight o)
    (NormalizeFPS (woFPS o) 30)
    (if woQRSize o <=? 0 then 256 else woQRSize o)
    (woQRRecovery o) (woCodec o)
    (if woTileModule o <=? 0 then 4 else woTileModule o)
    (if woTileRS o <? 0 then 20 else woTileRS o).

(** [transport.Options]: nil or one of the transports' structs. *)
Inductive TransportOptions :=
| OptNil
| OptVideo (o : VideoOptions)
| OptVP8 (o : Vp8Options)
| OptSEI (o : SeiOptions).

(* go: app/session/transport_options.go 10-41 buildTransportOptions *)
Definition buildTransportOptions (cfg : Config) : TransportOptions :=
  if str_eqb (cfTransport cfg) transportVideo then
    let v := cfVideo cfg in
    OptVideo (MkVideoOptions (vcWidth v) (vcHeight v) (vcFPS v) (vcQRSize v) (vcQRRecovery v)
                (vcCodec v) (vcTileModule v) (vcTileRS v))
  else if str_eqb (cfTransport cfg) transportVP8 then
    OptVP8 (MkVp8Options (v8FPS (cfVP8 cfg)) (v8BatchSize (cfVP8 cfg)))
  else if str_eqb (cfTransport cfg) transportSEI then
    let s := cfSEI cfg in
    OptSEI (MkSeiOptions (seFPS s) (seBatchSize s) (seFragmentSize s) (seAckTimeoutMS s))
  else OptNil.

(** What a factory does with its options: the settings the transport runs with,
    [None] for ErrOptionsTypeMismatch. *)
Inductive Settings :=
| RunDatachannel
| RunVideo (o : VideoOptions)
| RunVP8 (o : Vp8Options)
| RunSEI (o : SeiOptions).

(* go: transport/videochannel/options.go 74-80 optionsFrom *)
Definition video_optionsFrom `{TileFrame} (o : TransportOptions) : option VideoOptions :=
  match o with
  | OptNil => Some (video_withDefaults (MkVideoOptions 0 0 0 0 "" "" 0 0))
  | OptVideo o => Some (video_withDefaults o)
  | _ => None
  end.

(* go: transport/vp8channel/options.go 33-39 optionsFrom *)
Definition vp8_optionsFrom (o : TransportOptions) : option Vp8Options :=
  match o with
  | OptNil => Some (vp8_withDefaults (MkVp8Options 0 0))
  | OptVP8 o => Some (vp8_withDefaults o)
  | _ => None
  end.

(* go: transport/seichannel/options.go 35-41 optionsFrom *)
Definition sei_optionsFrom (o : TransportOptions) : option SeiOptions :=
  match o with
  | OptNil => Some (sei_withDefaults (MkSeiOptions 0 0 0 0))
  | OptSEI o => Some (sei_withDefaults o)
  | _ => None
  end.

(** [transport.New]: the factory registered under the name, on its options. *)
(* go: transport/transport.go 271-282 New *)
Definition transport_New `{TileFrame} (R : Registries) (name : string) (o : TransportOptions) : option Settings :=
  match rgTransport R !! name with
  | None => None
  | Some KDatachannel => Some RunDatachannel
  | Some KVideochannel => RunVideo <$> video_optionsFrom o
  | Some KVp8channel => RunVP8 <$> vp8_optionsFrom o
  | Some KSeichannel => RunSEI <$> sei_optionsFrom o
  end.

(** ** The payload limit of each transport *)

(* go: transport/datachannel/transport.go 13-13 defaultMaxPayloadSize *)
Definition dc_maxPayload : Z := 12 * 1024.
(* go: transport/videochannel/transport.go 28-28 defaultMaxPayloadSize *)
Definition video_maxPayload : Z := 16 * 1024.
Definition vp8_maxPayload : Z := 60 * 1024.

(** [Features] of a transport without its shaper. *)
(* go: transport/videochannel/transport.go 294-301 Features *)
Definition raw_features (s : Settings) : Features :=
  MkFeatures
    match s with
    | RunDatachannel => dc_maxPayload
    | RunVideo o => if video_maxPayload <? i64 (woQRSize o * 64) then i64 (woQRSize o * 64) else video_maxPayload
    | RunVP8 _ => vp8_maxPayload
    | RunSEI o => i64 (oFragmentSize o * 8)
    end.

(** Every constructor builds the shaper from the features of the transport
    whose shaper is still nil. *)
Definition shaper_of (s : Settings) (tc : TrafficConfig) : option Shaper := NewShaper tc (raw_features s).

(* go: transport/datachannel/transport.go 144-147 Features *)
Definition tr_features (s : Settings) (tc : TrafficConfig) : Features :=
  ShaperFeatures (shaper_of s tc) (raw_features s).

(** The fragments a record of [n] bytes is split into, for the transports that
    send through the ack sender; [None] for the others. *)
Definition fragment_size (s : Settings) : option Z :=
  match s with
  | RunVideo o => Some (woQRSize o)
  | RunSEI o => Some (oFragmentSize o)
  | _ => None
  end.

(** ** Smux settings *)

Record SmuxCfg := MkSmuxCfg {
  smVersion : Z;
  smKeepAliveDisabled : bool;
  smKeepAliveInterval : Z;
  smKeepAliveTimeout : Z;
  smMaxFrameSize : Z;
  smMaxReceiveBuffer : Z;
  smMaxStreamBuffer : Z;
}.

(* go: runtime/runtime.go 33-35 smux* *)
Definition smuxMaxFrameSize : Z := 32 * 1024.
Definition smuxMaxReceiveBuffer : Z := 32 * 1024 * 1024.
Definition smuxMaxStreamBuffer : Z := 4 * 1024 * 1024.

(* go: runtime/runtime.go 152-159 clampMaxFrameSize *)
Definition clampMaxFrameSize (maxFrameSize maxWirePayload : Z) : Z :=
  if MinSmuxWirePayload <=? maxWirePayload
  then let clamped := maxWirePayload - SmuxWireOverhead in
       if clamped <? maxFrameSize then clamped else maxFrameSize
  else maxFrameSize.

(* go: runtime/runtime.go 63-78 SmuxConfig *)
Definition SmuxConfig (maxWirePayload : Z) : SmuxCfg :=
  MkSmuxCfg 2 false (10 * 1000000000) (30 * 1000000000)
    (clampMaxFrameSize smuxMaxFrameSize maxWirePayload) smuxMaxReceiveBuffer smuxMaxStreamBuffer.

(* go: runtime/runtime.go 80-92 SmuxConfigLong *)
Definition SmuxConfigLong (maxWirePayload : Z) : SmuxCfg :=
  let cfg := SmuxConfig maxWirePayload in
  MkSmuxCfg (smVersion cfg) (smKeepAliveDisabled cfg) (smKeepAliveInterval cfg) (120 * 1000000000)
    (smMaxFrameSize cfg) (smMaxReceiveBuffer cfg) (smMaxStreamBuffer cfg).

(* go: runtime/runtime.go 94-111 SmuxConfigFor *)
Definition SmuxConfigFor (isControlPlane : bool) (features : Features) : SmuxCfg :=
  if isControlPlane then SmuxConfigLong (MaxPayloadSize features) else SmuxConfig (MaxPayloadSize features).

(* go: runtime/runtime.go 113-122 LivenessTimeout *)
Definition LivenessTimeout (isControlPlane : bool) : Z :=
  if isControlPlane then 45 * 1000000000 else DefaultTimeout.

(* go: runtime/runtime.go 124-133 ConnectAckTimeout *)
Definition ConnectAckTimeout (isControlPlane : bool) : Z :=
  if isControlPlane then 90 * 1000000000 else 15 * 1000000000.

(** The fields left at [smux.DefaultConfig] are the argument's. *)
(* go: runtime/runtime.go 135-150 ControlSmuxConfig *)
Definition ControlSmuxConfig (dflt : SmuxCfg) (maxWirePayload : Z) : SmuxCfg :=
  MkSmuxCfg 2 true (smKeepAliveInterval dflt) (smKeepAliveTimeout dflt)
    (clampMaxFrameSize smuxMaxFrameSize maxWirePayload) (256 * 1024) (32 * 1024).

(** ** Keys *)

(* go: runtime/runtime.go 38-42 Err* *)
Inductive key_error := ErrKeyRequired | ErrKeyDecode | ErrKeySize | ErrKeySet (e : crypto_error).

(* go: runtime/runtime.go 44-61 SetupKeySet *)
Definition SetupKeySet `{CipherSuite} (keyHex : string) (role : Role) (rnd : option bytes)
  : outcome key_error KeySet :=
  if str_eqb keyHex "" then Err ErrKeyRequired
  else
    match hex_DecodeString keyHex with
    | None => Err ErrKeyDecode
    | Some key =>
        if negb (len key =? 32) then Err ErrKeySize
        else
          match NewKeySet key role rnd with
          | Ok keys => Ok keys
          | Err e => Err (ErrKeySet e)
          | Panic => Panic
          end
    end.

(** ** Run *)

(* go: app/session/run.go 49-55 prepareRunConfig *)
Definition prepareRunConfig `{NetIP} (R : Registries) (cfg : Config) : outcome cfg_error Config :=
  let prepared := ApplyDefaults R cfg in
  match Validate R prepared with
  | Some err => Err err
  | None => Ok prepared
  end.

(** The number a [*net.Resolver] built for a DNS server gets. *)
Definition fresh_resolver : nat := 0%nat.

(* go: tunnelcore/core.go 33-39 Resolver *)
Definition tc_Resolver (resolver : option nat) : option nat :=
  match resolver with Some r => Some r | None => Some fresh_resolver end.

(** What [runOnce] starts, with the arguments that do not depend on the mode. *)
Inductive role_run :=
| StartServer (cfg : Config)
| StartClient (cfg : Config).

(** The address the client listens on, [host:port] as [Sprintf] writes it. *)
(* go: app/session/run.go 107-127 runClient *)
Definition client_LocalAddr (cfg : Config) : bytes :=
  string_bytes (cfSOCKSHost cfg) ++ [colon] ++ Itoa (cfSOCKSPort cfg).

Record run_plan := MkPlan {
  rpRole : role_run;
  rpOptions : TransportOptions;
  rpLiveness : CtlConfig;
  rpTraffic : TrafficConfig;
  rpMaxDuration : Z;
}.

(* go: app/session/run.go 57-73 runOnce *)
Definition runOnce (cfg : Config) (liveness : CtlConfig) (traffic : TrafficConfig) (maxDuration : Z)
  : outcome cfg_error run_plan :=
  let opts := buildTransportOptions cfg in
  if str_eqb (cfMode cfg) ModeSrv then Ok (MkPlan (StartServer cfg) opts liveness traffic maxDuration)
  else if str_eqb (cfMode cfg) ModeCnc then Ok (MkPlan (StartClient cfg) opts liveness traffic maxDuration)
  else Err ErrModeRequired.

(** [Run] up to the first start of the role. *)
(* go: app/session/run.go 19-47 Run *)
Definition session_Run `{NetIP} (R : Registries) (cfg : Config) : outcome cfg_error run_plan :=
  let R := RegisterDefaults R in
  let* prepared := prepareRunConfig R cfg in
  let cfg := set_Resolver (tc_Resolver (cfResolver prepared)) prepared in
  let* liveness := livenessConfig cfg in
  let* maxDuration := maxSessionDuration cfg in
  let* traffic := trafficConfig cfg in
  runOnce cfg liveness traffic maxDuration.

(** ** Session rotation

    One cycle of the script: whether the timer fired before the role returned,
    what the role returned, whether the parent context is cancelled when it has
    returned, and whether it is cancelled while waiting for the restart. *)

Section rotation.
Context {E : Type}.

Record cycle := MkCycle {
  cyTimer : bool;
  cyErr : option E;
  cyCanceled : bool;
  cyWaitCanceled : bool;
}.

(** [Returned] is the result of the loop after a number of cycles, [Running] that
    it goes on after the script. *)
Inductive rotation_result := Returned (cycles : nat) (err : option E) | Running.

(* go: app/session/run.go 152-172 runSessionCycle *)
Definition runSessionCycle (c : cycle) : bool * option E := (cyTimer c, cyErr c).

(* go: app/session/run.go 128-150 runWithSessionRotation *)
Fixpoint runWithSessionRotation (n : nat) (script : list cycle) : rotation_result :=
  match script with
  | [] => Running
  | c :: rest =>
      let '(rotated, err) := runSessionCycle c in
      if cyCanceled c then Returned (S n) None
      else
        match err with
        | Some e =>
            if rotated
            then if cyWaitCanceled c then Returned (S n) None else runWithSessionRotation (S n) rest
            else Returned (S n) (Some e)
        | None => if cyWaitCanceled c then Returned (S n) None else runWithSessionRotation (S n) rest
        end
  end.

End rotation.

(** ** Health tracker

    Times are nanoseconds, [None] the zero time.  The log is what [notify] was
    called with. *)

(* go: control/control.go 87-97 Status *)
Record CtlStatus := MkCtlStatus {
  stSessionID : string;
  stLastPong : option Z;
  stLastRTT : Z;
  stMissedPongs : Z;
  stReconnects : Z;
  stUnhealthyEvents : Z;
  stLastUnhealthy : option Z;
}.

(* go: runtime/runtime.go 168-185 HealthTracker *)
Record HealthTracker := MkTracker { htStatus : CtlStatus; htNotified : list CtlStatus }.

Definition NewHealthTracker : HealthTracker := MkTracker (MkCtlStatus "" None 0 0 0 0 None) [].

(* go: runtime/runtime.go 239-248 update *)
Definition ht_update (mutate : CtlStatus -> CtlStatus) (h : HealthTracker) : HealthTracker :=
  let snapshot := mutate (htStatus h) in MkTracker snapshot (htNotified h ++ [snapshot]).

(* go: runtime/runtime.go 199-205 RecordSession *)
Definition RecordSession (id : string) : HealthTracker -> HealthTracker :=
  ht_update (fun s => MkCtlStatus id (stLastPong s) (stLastRTT s) 0 (stReconnects s) (stUnhealthyEvents s)
                        (stLastUnhealthy s)).

(* go: runtime/runtime.go 207-214 RecordPong *)
Definition RecordPong (p : Health) : HealthTracker -> HealthTracker :=
  ht_update (fun s => MkCtlStatus (stSessionID s) (Some (hLastSeen p)) (hRTT p) 0 (stReconnects s)
                        (stUnhealthyEvents s) (stLastUnhealthy s)).

(* go: runtime/runtime.go 216-221 RecordMissed *)
Definition RecordMissed (missed : Z) : HealthTracker -> HealthTracker :=
  ht_update (fun s => MkCtlStatus (stSessionID s) (stLastPong s) (stLastRTT s) missed (stReconnects s)
                        (stUnhealthyEvents s) (stLastUnhealthy s)).

(* go: runtime/runtime.go 223-230 RecordUnhealthy *)
Definition RecordUnhealthy (missed now : Z) : HealthTracker -> HealthTracker :=
  ht_update (fun s => MkCtlStatus (stSessionID s) (stLastPong s) (stLastRTT s) missed (stReconnects s)
                        (u64 (stUnhealthyEvents s + 1)) (Some now)).

(* go: runtime/runtime.go 232-237 RecordReconnect *)
Definition RecordReconnect : HealthTracker -> HealthTracker :=
  ht_update (fun s => MkCtlStatus (stSessionID s) (stLastPong s) (stLastRTT s) (stMissedPongs s)
                        (u64 (stReconnects s + 1)) (stUnhealthyEvents s) (stLastUnhealthy s)).
