(* ===== verification/SessionFacts.v ===== *)
(** * SessionFacts: what a validated configuration guarantees

    The defaults are idempotent, [Validate] and the functions that later read
    the configuration agree, and the limits that follow from it fit together down to the
    fragments of the transports. *)

From stdpp Require Import sorting.
From S2P Require Import Prelude Bytes Text Durations Traffic Control Crypto CryptoRecord Reassembly Sender SeiTransport Socks SocksFacts SessionConfig SessionRun.

#[local] Arguments String.eqb : simpl never.
#[local] Arguments or_string : simpl never.
#[local] Arguments or_int : simpl never.

(** ** Registries *)

Lemma elem_of_Available {A} (m : gmap string A) n : n ∈ Available m <-> is_Some (m !! n).
Proof.
  unfold Available. rewrite merge_sort_Permutation, list_elem_of_fmap. split.
  - intros ([k v] & -> & Hin). apply elem_of_map_to_list in Hin. by exists v.
  - intros [v Hv]. exists (n, v). split; [done|]. by apply elem_of_map_to_list.
Qed.

Lemma slices_Contains_Available {A} (m : gmap string A) n :
  slices_Contains (Available m) n = true <-> is_Some (m !! n).
Proof. unfold slices_Contains. rewrite bool_decide_eq_true. apply elem_of_Available. Qed.

(** ** Defaults *)

Lemma or_string_idem v d : or_string (or_string v d) d = or_string v d.
Proof. unfold or_string. destruct (String.eqb v "") eqn:E; [|by rewrite E]. by case_match. Qed.

Lemma or_int_idem v d : or_int (or_int v d) d = or_int v d.
Proof. unfold or_int. destruct (v =? 0) eqn:E; [|by rewrite E]. by case_match. Qed.

Lemma or_string_fix v d : str_eqb v "" = false -> or_string v d = v.
Proof. unfold or_string. by intros ->. Qed.


Lemma ApplyTransportDefaults_idem c :
  ApplyTransportDefaults (ApplyTransportDefaults c) = ApplyTransportDefaults c.
Proof.
  unfold ApplyTransportDefaults.
  destruct (str_eqb (cfTransport c) transportVideo) eqn:E1;
    [|destruct (str_eqb (cfTransport c) transportVP8) eqn:E2;
      [|destruct (str_eqb (cfTransport c) transportSEI) eqn:E3]];
    cbn [applyVideoDefaults applyVP8Defaults applySEIDefaults set_Video set_VP8 set_SEI cfTransport];
    rewrite ?E1, ?E2, ?E3; try done.
  - destruct c. unfold applyVideoDefaults, set_Video. cbn. rewrite ?or_string_idem, ?or_int_idem. done.
  - destruct c. unfold applyVP8Defaults, set_VP8. cbn. rewrite ?or_string_idem, ?or_int_idem. done.
  - destruct c. unfold applySEIDefaults, set_SEI. cbn. rewrite ?or_string_idem, ?or_int_idem. done.
Qed.

(** The three groups of defaults write different fields and read none of the
    others'. *)
Lemma ApplyLivenessDefaults_transport c :
  ApplyTransportDefaults (ApplyLivenessDefaults c) = ApplyLivenessDefaults (ApplyTransportDefaults c).
Proof.
  unfold ApplyTransportDefaults. change (cfTransport (ApplyLivenessDefaults c)) with (cfTransport c).
  by repeat case_match.
Qed.

Lemma ApplyLivenessDefaults_idem c : ApplyLivenessDefaults (ApplyLivenessDefaults c) = ApplyLivenessDefaults c.
Proof. unfold ApplyLivenessDefaults, set_Liveness. cbn. rewrite !or_string_idem, or_int_idem. done. Qed.

Lemma ApplyProviderDefaults_liveness R c :
  ApplyProviderDefaults R (ApplyLivenessDefaults c) = ApplyLivenessDefaults (ApplyProviderDefaults R c).
Proof.
  unfold ApplyProviderDefaults. change (cfProvider (ApplyLivenessDefaults c)) with (cfProvider c).
  by repeat case_match.
Qed.

Lemma ApplyTransportDefaults_provider c : cfProvider (ApplyTransportDefaults c) = cfProvider c.
Proof. unfold ApplyTransportDefaults. by repeat case_match. Qed.

Lemma ApplyProviderDefaults_transport R c :
  ApplyProviderDefaults R (ApplyTransportDefaults c) = ApplyTransportDefaults (ApplyProviderDefaults R c).
Proof.
  unfold ApplyProviderDefaults. rewrite ApplyTransportDefaults_provider.
  case_match; [done|]. destruct (rgAuth R !! cfProvider c) as [p|]; [|done].
  unfold ApplyTransportDefaults. cbn [set_EngineURL cfTransport]. by repeat case_match.
Qed.

Lemma ApplyProviderDefaults_idem R c :
  ApplyProviderDefaults R (ApplyProviderDefaults R c) = ApplyProviderDefaults R c.
Proof.
  unfold ApplyProviderDefaults.
  destruct (str_eqb (cfProvider c) providerNone || str_eqb (cfProvider c) "") eqn:E; [by rewrite E|].
  destruct (rgAuth R !! cfProvider c) as [p|] eqn:Ep; [|by rewrite E, Ep].
  cbn [set_EngineURL cfProvider cfEngine cfURL]. rewrite E, Ep. unfold set_EngineURL. cbn.
  rewrite !or_string_idem. done.
Qed.

Lemma ApplyDefaults_idem R c : ApplyDefaults R (ApplyDefaults R c) = ApplyDefaults R c.
Proof.
  unfold ApplyDefaults.
  rewrite ApplyProviderDefaults_liveness, ApplyProviderDefaults_transport, ApplyProviderDefaults_idem,
    ApplyLivenessDefaults_transport, ApplyTransportDefaults_idem, ApplyLivenessDefaults_idem. done.
Qed.

Lemma RegisterDefaults_idem R : RegisterDefaults (RegisterDefaults R) = RegisterDefaults R.
Proof.
  destruct R as [a b t]. unfold RegisterDefaults, builtin_RegisterDefaults, builtin_register, registry_Register.
  cbn [rgAuth rgBuiltin rgTransport].
  f_equal; apply map_eq; intros k; rewrite !lookup_insert; repeat case_decide; congruence.
Qed.

(** ** What the checks establish *)

Lemma or_else_None a b : or_else a b = None <-> a = None /\ b = None.
Proof. destruct a; cbn; naive_solver. Qed.

Lemma first_error_None checks c : first_error checks c = None <-> Forall (fun check => check c = None) checks.
Proof.
  induction checks as [|check checks IH]; cbn; [naive_solver|].
  rewrite or_else_None, IH, Forall_cons. done.
Qed.

Lemma failure_wrap {A} e (r : outcome cfg_error A) :
  failure (wrap e r) = None -> r <> Panic -> exists a, r = Ok a.
Proof. destruct r; cbn; naive_solver. Qed.

Lemma parseLivenessDuration_spec v d :
  0 < d -> parseLivenessDuration v d <> Panic /\
  forall t, parseLivenessDuration v d = Ok t -> 0 < t.
Proof.
  intros Hd. unfold parseLivenessDuration. destruct (str_eqb v "").
  - split; [done|]. intros; inv_ok; lia.
  - destruct (ParseDuration v) as [t|]; [|done]. case_if; (split; [done|]); intros; inv_ok; lia.
Qed.

Lemma parseOptional_spec v :
  parseOptionalNonNegativeDuration v <> Panic /\
  forall t, parseOptionalNonNegativeDuration v = Ok t -> 0 <= t < 2 ^ 63.
Proof.
  unfold parseOptionalNonNegativeDuration.
  destruct (str_eqb v ""); [split; [done|]; intros; inv_ok; lia|].
  destruct (ParseDuration v) as [t|] eqn:Hp; [|done]. apply ParseDuration_range in Hp.
  case_if; (split; [done|]); intros; inv_ok; lia.
Qed.

Lemma livenessConfig_ok c :
  validateLivenessConfig c = None ->
  exists l, livenessConfig c = Ok l /\ 0 < ccInterval l /\ 0 < ccTimeout l /\ 0 < ccFailures l.
Proof.
  unfold validateLivenessConfig, livenessConfig. rewrite !or_else_None. intros (Hi & Ht & Hf).
  destruct (parseLivenessDuration_spec (cfLivenessInterval c) DefaultInterval) as [Hpi Hsi]; [done|].
  destruct (parseLivenessDuration_spec (cfLivenessTimeout c) DefaultTimeout) as [Hpt Hst]; [done|].
  apply failure_wrap in Hi as [i Hi]; [|done]. apply failure_wrap in Ht as [t Ht]; [|done].
  rewrite Hi, Ht. cbn [wrap obind].
  destruct (cfLivenessFailures c <? 0) eqn:Hneg; [done|]. bool_to_Prop. unfold or_int, DefaultFailures.
  repeat case_if; try lia; eexists; (split; [done|]); cbn; split_and!; eauto; lia.
Qed.

Lemma maxSessionDuration_ok c :
  validateLifecycleConfig c = None -> exists d, maxSessionDuration c = Ok d /\ 0 <= d.
Proof.
  unfold validateLifecycleConfig, maxSessionDuration.
  destruct (str_eqb _ _); [by exists 0|]. destruct (ParseDuration _) as [d|]; [|done].
  case_if; [done|]. exists d. split; [done|lia].
Qed.

Record traffic_ok (tc : TrafficConfig) : Prop := {
  tk_cap : tcMaxPayloadSize tc = 0 \/ MinSmuxWirePayload <= tcMaxPayloadSize tc;
  tk_min : 0 <= tcMinDelay tc < 2 ^ 63;
  tk_max : 0 <= tcMaxDelay tc < 2 ^ 63;
  tk_order : tcMaxDelay tc = 0 \/ tcMinDelay tc <= tcMaxDelay tc;
}.

Lemma trafficConfig_ok c :
  validateTrafficConfig c = None -> exists tc, trafficConfig c = Ok tc /\ traffic_ok tc.
Proof.
  unfold validateTrafficConfig, trafficConfig.
  destruct (parseOptional_spec (cfTrafficMinDelay c)) as [Hpm Hsm].
  destruct (parseOptional_spec (cfTrafficMaxDelay c)) as [HpM HsM].
  destruct (_ || _) eqn:Hcap; [done|].
  destruct (parseOptionalNonNegativeDuration (cfTrafficMinDelay c)) as [m| |]; try done.
  destruct (parseOptionalNonNegativeDuration (cfTrafficMaxDelay c)) as [M| |]; try done.
  specialize (Hsm m eq_refl). specialize (HsM M eq_refl). cbn [wrap obind].
  destruct ((0 <? M) && (M <? m)) eqn:Ho; [done|]. intros _. eexists. split; [done|].
  apply orb_false_iff in Hcap as [Hneg Hcap]. apply andb_false_iff in Hcap, Ho.
  constructor; cbn; destruct Hcap, Ho; bool_to_Prop; lia.
Qed.

(** Passes one guard of a check whose result is [None]. *)
Ltac pass_guard :=
  match goal with
  | |- (if ?b then Some _ else _) = None -> _ => destruct b eqn:?; [discriminate|]
  end.

(** ** The settings a transport runs with *)

(** The registries of the process after [RegisterDefaults]. *)
Definition process : Registries := RegisterDefaults (MkRegistries ∅ ∅ ∅).

Lemma process_stable : RegisterDefaults process = process.
Proof. apply RegisterDefaults_idem. Qed.

(** What the writer loops, the codecs and the fragmentation rely on. *)
Definition fps_ok (fps : Z) : Prop := 1 <= fps <= MaxFPS /\ 0 < Z.quot 1000000000 fps.

Definition settings_ok (s : Settings) : Prop :=
  match s with
  | RunDatachannel => True
  | RunVideo o =>
      fps_ok (woFPS o) /\ 16 <= woWidth o <= 8192 /\ 16 <= woHeight o <= 8192 /\ 1 <= woQRSize o /\
      1 <= woTileModule o <= 270 /\ 0 <= woTileRS o <= 200
  | RunVP8 o => fps_ok (voFPS o) /\ 1 <= voBatchSize o
  | RunSEI o =>
      fps_ok (oFPS o) /\ 1 <= oBatchSize o /\ 1 <= oFragmentSize o <= 60000 /\ 1 <= oAckTimeoutMS o
  end.

Lemma validateFPS_ok fps e d : validateFPS fps e = None -> NormalizeFPS fps d = fps /\ fps_ok fps.
Proof.
  unfold validateFPS. case_if; [done|]. case_if; [done|]. intros _. unfold MaxFPS in *.
  assert (Hr : 1 <= fps <= 240) by lia. unfold NormalizeFPS, fps_ok, MaxFPS.
  repeat case_if; try lia. split_and!; try lia. apply Z.quot_str_pos. lia.
Qed.

Lemma process_transport name k :
  rgTransport process !! name = Some k ->
  match k with
  | KDatachannel => name = "datachannel"%string
  | KVideochannel => name = transportVideo
  | KVp8channel => name = transportVP8
  | KSeichannel => name = transportSEI
  end.
Proof.
  unfold process, RegisterDefaults, registry_Register. cbn [rgTransport builtin_RegisterDefaults builtin_register].
  rewrite !lookup_insert. repeat case_decide; intros; simplify_eq; try done.
Qed.

Section settings.
Context {T : TileFrame}.

Lemma video_settings_ok c :
  cfTransport c = transportVideo -> validateTransportConfig c = None ->
  exists o, video_optionsFrom (buildTransportOptions c) = Some o /\ settings_ok (RunVideo o).
Proof.
  intros Ht. unfold validateTransportConfig, buildTransportOptions. rewrite Ht. cbn [String.eqb transportVideo].
  change (str_eqb transportVideo transportVideo) with true. cbn iota. unfold validateVideoChannel.
  case_if; [done|]. case_if; [done|]. rewrite !or_else_None. intros (Hf & _ & Hv).
  eexists. split; [done|]. apply (validateFPS_ok _ _ 30) in Hf as [Hn Hf].
  unfold validateVideoVisual in Hv. unfold video_withDefaults. cbn [settings_ok woFPS woWidth woHeight
    woQRSize woTileModule woTileRS woCodec]. rewrite Hn. revert Hv.
  repeat pass_guard.
  intros _. unfold minVideoDimension, maxVideoDimension, maxVideoTileModule, maxVideoTileRS in *.
  bool_to_Prop. split; [done|]. repeat case_if; lia.
Qed.

Lemma vp8_settings_ok c :
  cfTransport c = transportVP8 -> validateTransportConfig c = None ->
  exists o, vp8_optionsFrom (buildTransportOptions c) = Some o /\ settings_ok (RunVP8 o).
Proof.
  intros Ht. unfold validateTransportConfig, buildTransportOptions. rewrite Ht.
  change (str_eqb transportVP8 transportVideo) with false.
  change (str_eqb transportVP8 transportVP8) with true. cbn iota. unfold validateVP8Channel.
  rewrite or_else_None. intros (Hf & _). eexists. split; [done|].
  apply (validateFPS_ok _ _ 30) in Hf as [Hn Hf]. cbn. rewrite Hn. split; [done|]. case_if; lia.
Qed.

Lemma sei_settings_ok c :
  cfTransport c = transportSEI -> validateTransportConfig c = None ->
  exists o, sei_optionsFrom (buildTransportOptions c) = Some o /\ settings_ok (RunSEI o) /\
    oFragmentSize o = seFragmentSize (cfSEI c).
Proof.
  intros Ht. unfold validateTransportConfig, buildTransportOptions. rewrite Ht.
  change (str_eqb transportSEI transportVideo) with false.
  change (str_eqb transportSEI transportVP8) with false.
  change (str_eqb transportSEI transportSEI) with true. cbn iota. unfold validateSEIChannel.
  rewrite or_else_None. intros (Hf & Hs). eexists. split; [done|].
  apply (validateFPS_ok _ _ 30) in Hf as [Hn Hf]. cbn. rewrite Hn. revert Hs.
  repeat pass_guard. unfold maxSEIFragmentSize in *. bool_to_Prop. intros _. repeat case_if; try lia; split_and!; done || lia.
Qed.

Lemma transport_settings_ok c :
  validateTransportRegistration process c = None -> validateTransportConfig c = None ->
  exists s, transport_New process (cfTransport c) (buildTransportOptions c) = Some s /\ settings_ok s.
Proof.
  unfold validateTransportRegistration. case_if; [done|]. case_if; [done|].
  intros _ Hc. rename select (slices_Contains _ _ = true) into Hin.
  apply slices_Contains_Available in Hin as [k Hk]. unfold transport_New. rewrite Hk.
  apply process_transport in Hk. destruct k.
  - by exists RunDatachannel.
  - destruct (video_settings_ok c Hk Hc) as (o & -> & Ho). by exists (RunVideo o).
  - destruct (sei_settings_ok c Hk Hc) as (o & -> & Ho & _). by exists (RunSEI o).
  - destruct (vp8_settings_ok c Hk Hc) as (o & -> & Ho). by exists (RunVP8 o).
Qed.
End settings.
