(* ===== verification/SessionProps.v ===== *)
(** * SessionProps: the properties of the configuration layer *)

From S2P Require Import Prelude Bytes Text Durations Traffic Control Crypto CryptoRecord Reassembly SeiTransport Socks SocksFacts NetAddr SessionConfig SessionRun SessionFacts.

Lemma validate_ok `{NetIP} R c :
  Validate R c = None ->
  validateMode c = None /\ validateTransportRegistration R c = None /\ validateCommon c = None /\
  validateTransportConfig c = None /\ validateLivenessConfig c = None /\
  validateLifecycleConfig c = None /\ validateTrafficConfig c = None /\ validateModeConfig c = None.
Proof.
  unfold Validate. rewrite first_error_None, !Forall_cons. intros. destruct_and!. done.
Qed.

Lemma validateKey_ok key :
  validateKey key = None -> key <> "" /\ exists k, hex_DecodeString key = Some k /\ len k = KeySize.
Proof.
  unfold validateKey. destruct (String.eqb_spec key ""); [done|].
  destruct (hex_DecodeString key) as [k|]; [|done]. case_if; [done|]. intros _. eauto.
Qed.

Lemma validateModeConfig_ok `{NetIP} c :
  validateModeConfig c = None -> cfMode c = ModeCnc ->
  1 <= cfSOCKSPort c <= 65535 /\
  (isLoopbackListenHost (cfSOCKSHost c) = true \/ cfSOCKSUser c <> "" /\ cfSOCKSPass c <> "").
Proof.
  unfold validateModeConfig. intros Hv Hm. rewrite Hm in Hv. revert Hv.
  change (str_eqb ModeCnc ModeCnc) with true. cbn [negb].
  repeat pass_guard. intros _. unfold maxPort in *. bool_to_Prop.
  split; [lia|]. rename select (_ \/ _) into Ho. destruct Ho as [Ho|Ho]; bool_to_Prop.
  - by left.
  - right. split; by apply String.eqb_neq.
Qed.

Lemma ApplyDefaults_fields R c :
  cfTransport (ApplyDefaults R c) = cfTransport c /\ cfMode (ApplyDefaults R c) = cfMode c /\
  cfKeyHex (ApplyDefaults R c) = cfKeyHex c /\ cfSOCKSPort (ApplyDefaults R c) = cfSOCKSPort c /\
  cfSOCKSHost (ApplyDefaults R c) = cfSOCKSHost c /\ cfSOCKSUser (ApplyDefaults R c) = cfSOCKSUser c /\
  cfSOCKSPass (ApplyDefaults R c) = cfSOCKSPass c.
Proof.
  unfold ApplyDefaults, ApplyTransportDefaults, ApplyProviderDefaults.
  repeat case_match; split_and!; reflexivity.
Qed.

Lemma validateMode_ok c : validateMode c = None -> cfMode c = ModeSrv \/ cfMode c = ModeCnc \/ cfMode c = ModeGen.
Proof.
  unfold validateMode. destruct (String.eqb_spec (cfMode c) ModeSrv), (String.eqb_spec (cfMode c) ModeCnc),
    (String.eqb_spec (cfMode c) ModeGen); naive_solver.
Qed.

Lemma SetupKeySet_error `{CipherSuite} keyHex key role rnd e :
  keyHex <> "" -> hex_DecodeString keyHex = Some key -> len key = KeySize ->
  SetupKeySet keyHex role rnd = Err e -> exists e', e = ErrKeySet e' /\ NewKeySet key role rnd = Err e'.
Proof.
  intros Hne Hhex Hlen. unfold SetupKeySet. rewrite (proj2 (String.eqb_neq _ _) Hne), Hhex.
  unfold KeySize in Hlen. rewrite Hlen. cbn.
  destruct (NewKeySet key role rnd) eqn:Hk; intros; inv_ok; eauto.
Qed.

Lemma ctl_withDefaults_positive l :
  0 < ccInterval l -> 0 < ccTimeout l -> 0 < ccFailures l -> ctl_withDefaults l = l.
Proof. destruct l. unfold ctl_withDefaults. cbn. intros. repeat case_if; lia || done. Qed.

(** [Run] on a validated configuration comes down to [runOnce]. *)
Lemma session_Run_valid `{NetIP} c l d tc :
  let p := ApplyDefaults process c in
  Validate process p = None -> livenessConfig p = Ok l -> maxSessionDuration p = Ok d ->
  trafficConfig p = Ok tc ->
  session_Run process c = runOnce (set_Resolver (tc_Resolver (cfResolver p)) p) l tc d.
Proof.
  intros p Hv Hl Hd Htc. unfold session_Run, prepareRunConfig. rewrite process_stable. fold p.
  rewrite Hv. cbn [obind]. change (livenessConfig (set_Resolver _ p)) with (livenessConfig p).
  rewrite Hl. cbn [obind]. change (maxSessionDuration (set_Resolver _ p)) with (maxSessionDuration p).
  rewrite Hd. cbn [obind]. change (trafficConfig (set_Resolver _ p)) with (trafficConfig p). by rewrite Htc.
Qed.

(** What [net.SplitHostPort] makes of the address a client listens on. *)
Definition listens_on (addr host : bytes) (port : Z) : Prop :=
  (colon ∉ host -> lbracket ∉ host -> rbracket ∉ host ->
   SplitHostPort addr = Ok (host, Itoa port) /\ Atoi (Itoa port) = Some port) /\
  (colon ∈ host -> lbracket ∉ host -> SplitHostPort addr = Err BadAddress).

Lemma client_LocalAddr_ok cfg :
  0 <= cfSOCKSPort cfg ->
  listens_on (client_LocalAddr cfg) (string_bytes (cfSOCKSHost cfg)) (cfSOCKSPort cfg).
Proof.
  intros Hp. unfold client_LocalAddr, colon, lbracket, rbracket in *. split.
  - intros Hc Hl Hr. split; [|by apply Atoi_Itoa].
    apply SplitHostPort_plain; try done; apply Itoa_plain; unfold colon, lbracket, rbracket; lia.
  - intros Hc Hl. apply SplitHostPort_colon; try done. apply Itoa_plain; unfold colon; lia.
Qed.

(** C32: a configuration that was validated at start-up is accepted by [Run].  If the
    configuration passes [Validate] once the defaults are applied, as the command checks
    it for every profile, then [Run] accepts it and computes the same plan
    with or without the defaults applied; the transport accepts the
    options, and every value it runs with is in range; the liveness loop gets positive settings,
    pacing ordered delays and a cap that carries a frame, and the key set-up
    can fail only in key derivation or for want of randomness.  A client's
    SOCKS5 port is valid, and its host is localhost or a loopback address unless a
    user name and a password are set; the address it is given to listen
    on is host:port, which [net.SplitHostPort] takes apart into exactly these when the host has
    neither colon nor bracket.  A host with a colon and no bracket, such as ::1, is
    validated but gives an address that [net.SplitHostPort] refuses.  Whether
    the system lets the client listen is not part of it. *)
Theorem validated_config_accepted `{N : NetIP} `{C : CipherSuite} `{T : TileFrame} (cfg : Config)
    (Hmode : cfMode cfg <> ModeGen) (Hv : Validate process (ApplyDefaults process cfg) = None) :
  exists plan s key,
    session_Run process (ApplyDefaults process cfg) = Ok plan /\ session_Run process cfg = Ok plan /\
    transport_New process (cfTransport cfg) (rpOptions plan) = Some s /\ settings_ok s /\
    ctl_withDefaults (rpLiveness plan) = rpLiveness plan /\ 0 < ccInterval (rpLiveness plan) /\
    0 <= rpMaxDuration plan /\ traffic_ok (rpTraffic plan) /\
    hex_DecodeString (cfKeyHex cfg) = Some key /\ len key = KeySize /\
    (forall role rnd e, SetupKeySet (cfKeyHex cfg) role rnd = Err e ->
       exists e', e = ErrKeySet e' /\ NewKeySet key role rnd = Err e') /\
    match rpRole plan with
    | StartServer c => cfMode cfg = ModeSrv
    | StartClient c =>
        cfMode cfg = ModeCnc /\ 1 <= cfSOCKSPort c <= 65535 /\
        (isLoopbackListenHost (cfSOCKSHost c) = true \/ cfSOCKSUser c <> "" /\ cfSOCKSPass c <> "") /\
        listens_on (client_LocalAddr c) (string_bytes (cfSOCKSHost c)) (cfSOCKSPort c)
    end.
Proof.
  pose proof (ApplyDefaults_fields process cfg) as (Ftr & Fmode & Fkey & _).
  set (p := ApplyDefaults process cfg) in *.
  assert (Hidem : ApplyDefaults process p = p) by apply ApplyDefaults_idem.
  pose proof Hv as (Hm & Htr & Hco & Hto & Hli & Hcy & Htf & Hmc)%validate_ok.
  assert (Hkey : validateKey (cfKeyHex p) = None).
  { unfold validateCommon in Hco. destruct (_ && _); [done|]. by destruct (validateKey (cfKeyHex p)). }
  apply validateKey_ok in Hkey as (Hne & key & Hhex & Hlen).
  apply livenessConfig_ok in Hli as (l & Hl & Hi & Ht & Hf).
  apply maxSessionDuration_ok in Hcy as (d & Hd & Hd0).
  apply trafficConfig_ok in Htf as (tc & Htc & Htok).
  destruct (transport_settings_ok p Htr Hto) as (s & Hs & Hsok).
  rewrite (session_Run_valid cfg l d tc), (session_Run_valid p l d tc) by (rewrite ?Hidem; done).
  rewrite Hidem. fold p. rewrite <- Fkey, <- Ftr, <- Fmode.
  pose proof (fun role rnd e => SetupKeySet_error (cfKeyHex p) key role rnd e Hne Hhex Hlen) as Hset.
  pose proof (ctl_withDefaults_positive l Hi Ht Hf) as Hctl.
  unfold runOnce. cbn [set_Resolver cfMode].
  apply validateMode_ok in Hm as [Hm|[Hm|Hm]]; [| |congruence]; rewrite Hm; cbn;
    eexists _, s, key; (split; [done|]); cbn; split_and!; try done; try (by apply validateModeConfig_ok).
  apply client_LocalAddr_ok. change (0 <= cfSOCKSPort p). destruct (validateModeConfig_ok p) as [? _]; [done..|lia].
Qed.

(** A configuration for concrete runs: the client over seichannel, behind a
    user name and a password on every interface. *)
Definition sample_config (fragmentSize : Z) : Config :=
  MkConfig ModeCnc transportSEI "jitsi" "" "" "" "" "room" "" 
    "000102030405060708090a0b0c0d0e0f101112131415161718191a1b1c1d1e1f"
    "0.0.0.0" 1080 "user" "pass" "1.1.1.1:53" None "" 0 "" "" (MkVideoConfig 0 0 0 0 "" "" 0 0)
    (MkVP8Config 0 0) (MkSEIConfig 0 0 fragmentSize 0) "" "" 0 "1h" 0 "1ms" "5ms" 0.

Lemma validated_config_accepted_witness :
  Validate (H := toy_ip) process (ApplyDefaults process (sample_config 0)) = None /\
  exists plan, session_Run (H := toy_ip) process (sample_config 0) = Ok plan /\
    rpMaxDuration plan = 3600000000000 /\
    match rpRole plan with
    | StartClient c => listens_on (client_LocalAddr c) (string_bytes (cfSOCKSHost c)) (cfSOCKSPort c)
    | StartServer _ => False
    end.
Proof.
  assert (Hv : Validate (H := toy_ip) process (ApplyDefaults process (sample_config 0)) = None)
    by (vm_compute; reflexivity).
  split; [exact Hv|].
  destruct (@validated_config_accepted toy_ip toy_suite (Build_TileFrame 1080 1080) (sample_config 0)
              ltac:(discriminate) Hv) as (plan & s & key & _ & Hrun & _ & _ & _ & _ & _ & _ & _ & _ & _ & Hrole).
  exists plan. split; [exact Hrun|].
  assert (Hd : match session_Run (H := toy_ip) process (sample_config 0) with
               | Ok p => rpMaxDuration p = 3600000000000 | _ => True end) by (vm_compute; reflexivity).
  rewrite Hrun in Hd. split; [exact Hd|]. destruct (rpRole plan) as [c|c]; [discriminate Hrole|].
  apply Hrole.
Defined.

(** The address of a host that is an IPv6 literal: no colon may occur in a host without brackets. *)
Example ipv6_host_refused :
  SplitHostPort (string_bytes "::1" ++ [colon] ++ Itoa 1080) = Err BadAddress /\
  SplitHostPort (string_bytes "127.0.0.1" ++ [colon] ++ Itoa 1080) = Ok (string_bytes "127.0.0.1", string_bytes "1080").
Proof. split; vm_compute; reflexivity. Qed.

(** ** Frames fit the transport *)

Lemma tr_features_limit s tc :
  traffic_ok tc -> MinSmuxWirePayload <= MaxPayloadSize (raw_features s) ->
  MinSmuxWirePayload <= MaxPayloadSize (tr_features s tc) <= MaxPayloadSize (raw_features s).
Proof.
  intros [Hcap ? ? ?] Hraw. unfold tr_features, shaper_of, NewShaper.
  assert (Hmin : 0 < MinSmuxWirePayload) by done.
  destruct (raw_features s) as [f]. cbn [MaxPayloadSize] in *.
  set (cap := if _ && _ && _ then f else tcMaxPayloadSize tc).
  assert (Hc : cap = 0 \/ MinSmuxWirePayload <= cap) by (unfold cap; case_if; lia). clearbody cap.
  case_if; cbn [ShaperFeatures shMaxPayloadSize MaxPayloadSize]; [lia|].
  case_if; cbn [MaxPayloadSize]; [lia|]. case_if; cbn [MaxPayloadSize]; lia.
Qed.

Lemma clampMaxFrameSize_bounds limit :
  MinSmuxWirePayload <= limit ->
  1 <= clampMaxFrameSize smuxMaxFrameSize limit <= smuxMaxFrameSize /\
  clampMaxFrameSize smuxMaxFrameSize limit + SmuxWireOverhead <= limit.
Proof.
  intros Hl. unfold clampMaxFrameSize, MinSmuxWirePayload, smuxMaxFrameSize in *.
  repeat case_if; lia.
Qed.

Lemma smMaxFrameSize_clamp cp f : smMaxFrameSize (SmuxConfigFor cp f) = clampMaxFrameSize smuxMaxFrameSize (MaxPayloadSize f).
Proof. by destruct cp. Qed.

(** The fragments of a record that respects the limits of its transport. *)
Lemma fragments_bounded s n (rec : bytes) :
  settings_ok s -> fragment_size s = Some n -> 4 <= n ->
  len rec <= MaxPayloadSize (raw_features s) -> len rec <= smuxMaxFrameSize + SmuxWireOverhead ->
  len (FragmentPayload rec n) <= MaxFragments.
Proof.
  intros Hok Hn Hn4 Hlen Hmax. destruct (FragmentPayload_partition rec n) as (_ & _ & Hcount).
  destruct (Hcount ltac:(lia)) as [_ ->]. unfold MaxFragments, smuxMaxFrameSize in *.
  change SmuxWireOverhead with 52 in Hmax.
  apply Z.max_lub; [lia|]. apply Z.lt_succ_r, Z.div_lt_upper_bound; [lia|]. cbn [Z.succ].
  destruct s as [|o|o|o]; cbn in *; simplify_eq.
  - unfold video_maxPayload in *. destruct (Z.le_gt_cases (woQRSize o) 256); [|lia].
    rewrite i64_small in Hlen by lia. case_if; lia.
  - destruct Hok as (_ & _ & Hf & _). rewrite i64_small in Hlen by lia. lia.
Qed.

Lemma record_of_length `{C : CipherSuite} `{L : !CipherLaws C} key prefix n pt aad :
  len prefix = noncePrefixSize -> len (record_of key prefix n pt aad) = len pt + WireOverhead.
Proof.
  intros Hp. unfold record_of. rewrite !len_app, length_be_put, aead_seal_length, Hp. unfold WireOverhead,
    recordHeaderSize. lia.
Qed.

(** C36: no tunnel frame is too large for its transport.  Take a transport opened
    with checked settings and traffic limits whose own payload limit can
    carry a frame at all.  The frame size handed to smux is between 1 and 32768,
    and any smux frame of at most that payload, sealed into a record, is passed on by the shaper within the
    configured delay, fits the transport's own limit and, on the transports that fragment into pieces
    of at least 4 bytes, needs no more fragments than the receiver accepts. *)
Theorem smux_frames_fit_transport `{C : CipherSuite} `{L : !CipherLaws C} (s : Settings)
    (tc : TrafficConfig) (cp : bool) (k : KeySet) (frame spare aad : bytes) (rnd : Z -> Z)
    (Hs : settings_ok s) (Htc : traffic_ok tc)
    (Hraw : MinSmuxWirePayload <= MaxPayloadSize (raw_features s))
    (Hrnd : forall n, 0 < n -> 0 <= rnd n < n)
    (Hpre : len (send_prefix k) = noncePrefixSize) (Hctr : send_counter k < max_u64)
    (Hframe : len frame <= smMaxFrameSize (SmuxConfigFor cp (tr_features s tc)) + SmuxFrameOverhead) :
  1 <= smMaxFrameSize (SmuxConfigFor cp (tr_features s tc)) <= 32768 /\
  exists k' rec delay,
    SealInto k [] spare frame aad = (k', Ok rec) /\
    ShaperSend (shaper_of s tc) rnd rec = Ok (ShapedSend delay) /\
    0 <= delay <= Z.max (tcMinDelay tc) (tcMaxDelay tc) /\
    len rec <= MaxPayloadSize (raw_features s) /\
    (forall n, fragment_size s = Some n -> 4 <= n -> len (FragmentPayload rec n) <= MaxFragments).
Proof.
  rewrite smMaxFrameSize_clamp in *. pose proof (tr_features_limit s tc Htc Hraw) as [Hlo Hhi].
  destruct (clampMaxFrameSize_bounds _ Hlo) as [Hb Hfit]. split; [exact Hb|].
  set (rec := record_of (send_aead k) (send_prefix k) (send_counter k + 1) frame aad).
  assert (Hlen : len rec = len frame + WireOverhead) by (apply record_of_length; done).
  assert (Hle : len rec <= MaxPayloadSize (tr_features s tc)) by (unfold SmuxWireOverhead in Hfit; lia).
  destruct Htc as [_ Hmin HM _].
  destruct (shaper_limit_honest tc (MaxPayloadSize (raw_features s)) rnd rec) as (_ & _ & Hpass & _);
    [change MinSmuxWirePayload with 53 in *; lia|lia..|done|].
  assert (Heta : MkFeatures (MaxPayloadSize (raw_features s)) = raw_features s) by done.
  rewrite Heta in Hpass. destruct (Hpass Hle) as (delay & Hsend & _ & Hdelay).
  exists (set_counter k (send_counter k + 1)), rec, delay. split_and!; try done; try lia.
  - by rewrite SealInto_layout by done.
  - intros n Hn Hn4. eapply fragments_bounded; [done..|lia|]. unfold SmuxWireOverhead. lia.
Qed.

Lemma smux_frames_fit_transport_witness :
  let s := RunSEI (MkSeiOptions 30 64 900 2000) in
  let tc := MkTraffic 0 1000000 5000000 in
  smMaxFrameSize (SmuxConfigFor false (tr_features s tc)) = 7148 /\
  exists k' rec delay,
    SealInto (C := toy_suite) (MkKeySet [] (repeat 0 16) 0 [] (ReplayCache ∅ [])) [] [] (repeat 7 100) [] = (k', Ok rec) /\
    ShaperSend (shaper_of s tc) (fun n => n - 1) rec = Ok (ShapedSend delay) /\
    0 <= delay <= 5000000.
Proof.
  intros s tc. split; [reflexivity|].
  destruct (@smux_frames_fit_transport toy_suite toy_laws s tc false
              (MkKeySet [] (repeat 0 16) 0 [] (ReplayCache ∅ [])) (repeat 7 100) [] [] (fun n => n - 1))
    as (_ & k' & rec & delay & Hseal & Hsend & Hd & _).
  - cbn. unfold fps_ok, MaxFPS. repeat split; try lia; reflexivity.
  - constructor; cbn; unfold MinSmuxWirePayload; try lia; by left.
  - vm_compute. discriminate.
  - intros; lia.
  - reflexivity.
  - unfold max_u64. cbn. lia.
  - vm_compute. discriminate.
  - exists k', rec, delay. split; [exact Hseal|]. split; [exact Hsend|]. cbn in Hd. lia.
Defined.

(** ** Fragments that are too small *)

Lemma nextDelay_total s rnd :
  0 <= shMinDelay s -> shMaxDelay s < 2 ^ 63 -> exists d, nextDelay s rnd = Ok d.
Proof.
  intros. unfold nextDelay. case_if; [by eexists|]. rewrite i64_small by lia. case_if; [lia|]. by eexists.
Qed.

(** A fragment size the validation accepts can make the tunnel lose every full frame.
    With [sei.fragment_size] between 1 and 6 the configuration is
    valid, but the limit the transport advertises is too small to carry a frame,
    so the smux frame size is left at 32768; a record of a full frame passes the
    shaper and splits into more fragments than the receiver accepts, which
    ignores every one of them. *)
Theorem tiny_fragments_lose_frames `{T : TileFrame} (n : Z) (rnd : Z -> Z) (rec : bytes)
    (Hn : 1 <= n <= 6) (Hrec : len rec = smuxMaxFrameSize + SmuxWireOverhead) :
  let cfg := ApplyDefaults process (sample_config n) in
  Validate (H := toy_ip) process cfg = None /\
  exists plan o,
    session_Run (H := toy_ip) process cfg = Ok plan /\
    transport_New process (cfTransport cfg) (rpOptions plan) = Some (RunSEI o) /\
    smMaxFrameSize (SmuxConfigFor false (tr_features (RunSEI o) (rpTraffic plan))) = smuxMaxFrameSize /\
    (exists delay, ShaperSend (shaper_of (RunSEI o) (rpTraffic plan)) rnd rec = Ok (ShapedSend delay)) /\
    MaxFragments < len (FragmentPayload rec (oFragmentSize o)) /\
    (forall r f, gFragTotal f = len (FragmentPayload rec (oFragmentSize o)) -> Push r f = (r, Ok ResultIgnore)).
Proof.
  intros cfg.
  assert (Hcases : n = 1 \/ n = 2 \/ n = 3 \/ n = 4 \/ n = 5 \/ n = 6) by lia.
  assert (Hbig : MaxFragments < len (FragmentPayload rec n)).
  { destruct (FragmentPayload_partition rec n) as (_ & _ & Hc). destruct (Hc ltac:(lia)) as [_ ->].
    rewrite Hrec. unfold MaxFragments. change (smuxMaxFrameSize + SmuxWireOverhead) with 32820.
    destruct Hcases as [->|[->|[->|[->|[->| ->]]]]]; vm_compute; reflexivity. }
  assert (Hign : forall r f, gFragTotal f = len (FragmentPayload rec n) -> Push r f = (r, Ok ResultIgnore)).
  { intros r f Hf. unfold Push, valid. rewrite Hf, (proj2 (Z.ltb_lt _ _) Hbig), orb_true_r. done. }
  assert (Hv : Validate (H := toy_ip) process cfg = None)
    by (unfold cfg; destruct Hcases as [->|[->|[->|[->|[->| ->]]]]]; vm_compute; reflexivity).
  assert (Hrun : match session_Run (H := toy_ip) process cfg with
                 | Ok plan => rpTraffic plan = MkTraffic 0 1000000 5000000 /\
                     transport_New process transportSEI (rpOptions plan)
                     = Some (RunSEI (MkSeiOptions 30 64 n 2000))
                 | _ => False
                 end).
  { unfold cfg. destruct Hcases as [->|[->|[->|[->|[->| ->]]]]]; vm_compute; split; reflexivity. }
  assert (Ftr : cfTransport cfg = transportSEI) by apply (ApplyDefaults_fields process (sample_config n)).
  clearbody cfg. rewrite Ftr. split; [exact Hv|]. destruct (session_Run (H := toy_ip) process cfg) as [plan| |]; [|done..].
  destruct Hrun as [Htr Hnew]. exists plan, (MkSeiOptions 30 64 n 2000). rewrite Htr.
  split; [reflexivity|]. split; [exact Hnew|]. split; [|split; [|split; [exact Hbig|exact Hign]]].
  - destruct Hcases as [->|[->|[->|[->|[->| ->]]]]]; reflexivity.
  - change (shaper_of _ _) with (Some (MkShaper 0 1000000 5000000)).
    cbn [ShaperSend shMaxPayloadSize]. change (0 <? 0) with false. cbn [andb].
    destruct (nextDelay_total (MkShaper 0 1000000 5000000) rnd) as [d ->]; [cbn; lia..|]. by eexists.
Qed.

Lemma tiny_fragments_lose_frames_witness :
  let rec := repeat 7 (Z.to_nat (smuxMaxFrameSize + SmuxWireOverhead)) in
  Validate (H := toy_ip) process (ApplyDefaults process (sample_config 6)) = None /\
  MaxFragments < len (FragmentPayload rec 6).
Proof.
  intros rec.
  assert (Hl : len rec = smuxMaxFrameSize + SmuxWireOverhead).
  { unfold rec. rewrite repeat_length, Z2Nat.id; [reflexivity|]. vm_compute. discriminate. }
  destruct (@tiny_fragments_lose_frames (Build_TileFrame 1080 1080) 6 (fun _ => 0) rec ltac:(lia) Hl)
    as (Hv & plan & o & Hrun & Hnew & _ & _ & Hbig & _). split; [exact Hv|].
  assert (Hp : match session_Run (H := toy_ip) process (ApplyDefaults process (sample_config 6)) with
               | Ok p => transport_New (H := Build_TileFrame 1080 1080) process transportSEI (rpOptions p)
                         = Some (RunSEI (MkSeiOptions 30 64 6 2000))
               | _ => False end) by (vm_compute; reflexivity).
  rewrite Hrun in Hp. rewrite (proj1 (ApplyDefaults_fields process (sample_config 6))) in Hnew.
  change (cfTransport (sample_config 6)) with transportSEI in Hnew. rewrite Hnew in Hp.
  injection Hp as ->. exact Hbig.
Defined.
