(* ===== verification/CopyLoop.v ===== *)
(** * CopyLoop: the two copy loops of a tunnelled connection
    (internal/tunnelcore/copy.go)

    Two goroutines copy, each in its own direction, and post their result; the function itself takes the results and
    closes the ends.  What the two ends do (bytes that arrive, a clean end, a broken connection) and the cancellation
    of the context are events; one step of a goroutine is one call of Read or Write. *)

From S2P Require Import Prelude Bytes.

(** ** The two ends *)

Inductive read_end := Pending | AtEOF | ReadFails.

Inductive copy_err := CeRead | CeWrite | CeCanceled.

(** [epGot] is all that has arrived at the end and [epIn] what of it has not been read, one chunk for each Read;
    [epHalf] says whether the connection has a CloseWrite. *)
Record endpoint := MkEp {
  epGot : bytes;
  epIn : list bytes;
  epEnd : read_end;
  epOut : bytes;
  epBroken : bool;
  epHalf : bool;
  epWriteClosed : bool;
  epClosed : bool;
}.

Definition new_end (half : bool) : endpoint := MkEp [] [] Pending [] false half false false.

Definition ep_arrive (e : endpoint) (c : bytes) : endpoint :=
  match epEnd e with
  | Pending =>
      MkEp (epGot e ++ c) (epIn e ++ [c]) Pending (epOut e) (epBroken e) (epHalf e) (epWriteClosed e) (epClosed e)
  | _ => e
  end.

Definition ep_finish (e : endpoint) (r : read_end) : endpoint :=
  match epEnd e with
  | Pending => MkEp (epGot e) (epIn e) r (epOut e) (epBroken e) (epHalf e) (epWriteClosed e) (epClosed e)
  | _ => e
  end.

Definition ep_break (e : endpoint) : endpoint :=
  MkEp (epGot e) (epIn e) (epEnd e) (epOut e) true (epHalf e) (epWriteClosed e) (epClosed e).

Definition ep_read (e : endpoint) (rest : list bytes) : endpoint :=
  MkEp (epGot e) rest (epEnd e) (epOut e) (epBroken e) (epHalf e) (epWriteClosed e) (epClosed e).

Definition ep_write (e : endpoint) (c : bytes) : endpoint :=
  MkEp (epGot e) (epIn e) (epEnd e) (epOut e ++ c) (epBroken e) (epHalf e) (epWriteClosed e) (epClosed e).

Definition ep_close (e : endpoint) : endpoint :=
  MkEp (epGot e) (epIn e) (epEnd e) (epOut e) (epBroken e) (epHalf e) (epWriteClosed e) true.

Definition ep_closeWrite (e : endpoint) : endpoint :=
  MkEp (epGot e) (epIn e) (epEnd e) (epOut e) (epBroken e) (epHalf e) true (epClosed e).

(** ** The copier *)

(* go: tunnelcore/copy.go 21-25 CopyCounts *)
Record CopyCounts := MkCounts { LeftToRight : Z; RightToLeft : Z }.

(* go: tunnelcore/copy.go 27-31 copyResult *)
Record copyResult := MkCopyResult { crLeftToRight : bool; crBytes : Z; crErr : option copy_err }.

(** A goroutine: about to read, about to write what it read, or done. *)
Inductive copying :=
| CRead (n : Z)
| CWrite (n : Z) (chunk : bytes)
| CEnded (r : copyResult).

Record copier := MkCp {
  cpLeft : endpoint;
  cpRight : endpoint;
  cpLR : copying;
  cpRL : copying;
  cpResults : list copyResult;
  cpCtxDone : bool;
  cpCompleted : nat;
  cpDraining : bool;
  cpCounts : CopyCounts;
  cpErrs : list copy_err;
  cpReturned : bool;
}.

Definition cp_start (halfL halfR : bool) : copier :=
  MkCp (new_end halfL) (new_end halfR) (CRead 0) (CRead 0) [] false 0 false (MkCounts 0 0) [] false.

Definition cp_src (d : bool) (s : copier) : endpoint := if d then cpLeft s else cpRight s.
Definition cp_dst (d : bool) (s : copier) : endpoint := if d then cpRight s else cpLeft s.
Definition cp_go (d : bool) (s : copier) : copying := if d then cpLR s else cpRL s.

Definition put_ends (s : copier) (l r : endpoint) : copier :=
  MkCp l r (cpLR s) (cpRL s) (cpResults s) (cpCtxDone s) (cpCompleted s) (cpDraining s) (cpCounts s) (cpErrs s)
    (cpReturned s).

Definition put_end (s : copier) (left : bool) (e : endpoint) : copier :=
  if left then put_ends s e (cpRight s) else put_ends s (cpLeft s) e.

Definition put_go (s : copier) (d : bool) (g : copying) (rs : list copyResult) : copier :=
  MkCp (cpLeft s) (cpRight s) (if d then g else cpLR s) (if d then cpRL s else g) rs (cpCtxDone s) (cpCompleted s)
    (cpDraining s) (cpCounts s) (cpErrs s) (cpReturned s).

(** [copyOneWay] posts its result. *)
(* go: tunnelcore/copy.go 73-80 copyOneWay *)
Definition copyOneWay (s : copier) (d : bool) (n : Z) (err : option copy_err) : copier :=
  let r := MkCopyResult d (if 0 <? n then n else 0) err in
  put_go s d (CEnded r) (cpResults s ++ [r]).

(** One call of the loop in [copyStream]; a Read with nothing to return blocks.  [k] bytes of a write that fails went
    out. *)
(* go: tunnelcore/copy.go 86-101 copyStream *)
Definition copyStream (d : bool) (k : nat) (s : copier) : copier :=
  match cp_go d s with
  | CRead n =>
      let src := cp_src d s in
      if epClosed src then copyOneWay s d n (Some CeRead)
      else match epIn src with
           | c :: rest =>
               put_go (put_end s d (ep_read src rest)) d (match c with [] => CRead n | _ => CWrite n c end) (cpResults s)
           | [] =>
               match epEnd src with
               | Pending => s
               | AtEOF => copyOneWay s d n None
               | ReadFails => copyOneWay s d n (Some CeRead)
               end
           end
  | CWrite n c =>
      let dst := cp_dst d s in
      if epClosed dst then copyOneWay s d n (Some CeWrite)
      else if epBroken dst then
        let sent := take k c in
        copyOneWay (put_end s (negb d) (ep_write dst sent)) d (n + len sent) (Some CeWrite)
      else put_go (put_end s (negb d) (ep_write dst c)) d (CRead (n + len c)) (cpResults s)
  | CEnded _ => s
  end.

(* go: tunnelcore/copy.go 103-109 setCopyCount *)
Definition setCopyCount (counts : CopyCounts) (r : copyResult) : CopyCounts :=
  if crLeftToRight r then MkCounts (crBytes r) (RightToLeft counts) else MkCounts (LeftToRight counts) (crBytes r).

Definition close_end (e : endpoint) : endpoint := if epHalf e then ep_closeWrite e else ep_close e.

(* go: tunnelcore/copy.go 111-121 closeCopyWrite *)
Definition closeCopyWrite (leftToRight : bool) (s : copier) : copier :=
  put_end s (negb leftToRight) (close_end (cp_dst leftToRight s)).

Definition close_both (s : copier) : copier := put_ends s (ep_close (cpLeft s)) (ep_close (cpRight s)).

Definition put_main (s : copier) (rs : list copyResult) (completed : nat) (draining : bool) (counts : CopyCounts)
    (errs : list copy_err) : copier :=
  MkCp (cpLeft s) (cpRight s) (cpLR s) (cpRL s) rs (cpCtxDone s) completed draining counts errs
    (if (completed =? 2)%nat then true else cpReturned s).

Definition err_list (o : option copy_err) : list copy_err := match o with Some e => [e] | None => [] end.

(** The select takes a result; in the branch of the cancelled context the rest is awaited and the error of the
    context is added at the end. *)
(* go: tunnelcore/copy.go 33-71 CopyBidirectional *)
Definition CopyBidirectional (take_result : bool) (s : copier) : copier :=
  if cpReturned s then s
  else if take_result then
    match cpResults s with
    | [] => s
    | r :: rest =>
        let counts := setCopyCount (cpCounts s) r in
        let completed := S (cpCompleted s) in
        if cpDraining s then
          put_main s rest completed true counts
            (cpErrs s ++ err_list (crErr r) ++ (if (completed =? 2)%nat then [CeCanceled] else []))
        else match crErr r with
             | Some e => put_main (close_both s) rest completed false counts (cpErrs s ++ [e])
             | None => put_main (closeCopyWrite (crLeftToRight r) s) rest completed false counts (cpErrs s)
             end
    end
  else if cpCtxDone s && negb (cpDraining s) then
    put_main (close_both s) (cpResults s) (cpCompleted s) true (cpCounts s) (cpErrs s)
  else s.

(** ** Runs *)

Inductive copy_event :=
| EvArrive (left : bool) (c : bytes)
| EvEnd (left : bool) (r : read_end)
| EvBreak (left : bool)
| EvCancel
| EvCopy (d : bool) (k : nat)
| EvMain (take_result : bool).

Definition cp_step (s : copier) (e : copy_event) : copier :=
  match e with
  | EvArrive l c => put_end s l (ep_arrive (cp_src l s) c)
  | EvEnd l r => put_end s l (ep_finish (cp_src l s) r)
  | EvBreak l => put_end s l (ep_break (cp_src l s))
  | EvCancel =>
      MkCp (cpLeft s) (cpRight s) (cpLR s) (cpRL s) (cpResults s) true (cpCompleted s) (cpDraining s) (cpCounts s)
        (cpErrs s) (cpReturned s)
  | EvCopy d k => copyStream d k s
  | EvMain t => CopyBidirectional t s
  end.

Definition cp_run (s : copier) (es : list copy_event) : copier := fold_left cp_step es s.

(** ** What is proved: what the copy loops deliver, count and close *)

(** ** One direction *)

(** What is written to the destination is what arrived at the source, in order, and the goroutine counts it. *)
Definition flows (d : bool) (g : copying) (src dst : endpoint) : Prop :=
  match g with
  | CRead n => n = len (epOut dst) /\ epOut dst ++ concat (epIn src) = epGot src
  | CWrite n c => n = len (epOut dst) /\ epOut dst ++ c ++ concat (epIn src) = epGot src
  | CEnded r =>
      crLeftToRight r = d /\ crBytes r = len (epOut dst) /\ epOut dst `prefix_of` epGot src /\
      (crErr r = None -> epOut dst = epGot src /\ epEnd src = AtEOF)
  end.

Definition flow (s : copier) (d : bool) : Prop := flows d (cp_go d s) (cp_src d s) (cp_dst d s).

(** Only these fields matter. *)
Lemma flows_ext d g src dst src' dst' :
  epGot src' = epGot src -> epIn src' = epIn src -> epEnd src' = epEnd src -> epOut dst' = epOut dst ->
  flows d g src dst -> flows d g src' dst'.
Proof. intros E1 E2 E3 E4. unfold flows. by rewrite E1, E2, E3, E4. Qed.

Lemma flows_arrive d g src dst c : flows d g src dst -> flows d g (ep_arrive src c) dst.
Proof.
  unfold ep_arrive. destruct (epEnd src) eqn:He; [|done..].
  destruct g as [n|n k|r]; simpl; rewrite ?concat_app; simpl; rewrite ?app_nil_r.
  - intros [-> <-]. by rewrite app_assoc.
  - intros [-> <-]. by rewrite <- !app_assoc.
  - intros (H1 & H2 & H3 & H4). repeat split; auto using prefix_app_r; destruct (H4 ltac:(done)); congruence.
Qed.

Lemma flows_finish d g src dst e : flows d g src dst -> flows d g (ep_finish src e) dst.
Proof.
  unfold ep_finish. destruct (epEnd src) eqn:He; [|done..]. destruct g as [n|n k|r]; simpl; auto.
  intros (H1 & H2 & H3 & H4). repeat split; auto; destruct (H4 ltac:(done)); congruence.
Qed.

Lemma flows_post d n err src dst :
  n = len (epOut dst) -> epOut dst `prefix_of` epGot src ->
  (err = None -> epOut dst = epGot src /\ epEnd src = AtEOF) ->
  flows d (CEnded (MkCopyResult d (if 0 <? n then n else 0) err)) src dst.
Proof. intros -> Hp He. repeat split; simpl; try done; try (by apply He). destruct (Z.ltb_spec 0 (len (epOut dst))); lia. Qed.

(** ** The invariant *)

Definition has_ended (g : copying) : bool := match g with CEnded _ => true | _ => false end.
Definition in_channel (d : bool) (rs : list copyResult) : bool := existsb (fun r => Bool.eqb (crLeftToRight r) d) rs.

(** The result of direction [d] has been taken. *)
Definition was_taken (s : copier) (d : bool) : bool := has_ended (cp_go d s) && negb (in_channel d (cpResults s)).

Definition count_of (d : bool) (c : CopyCounts) : Z := if d then LeftToRight c else RightToLeft c.

(** A direction whose result was taken is counted, its error kept, its destination closed for writing. *)
Definition settled (s : copier) (d : bool) : Prop :=
  was_taken s d = true ->
  match cp_go d s with
  | CEnded r =>
      count_of d (cpCounts s) = crBytes r /\
      (if crErr r then cpErrs s <> [] else epWriteClosed (cp_dst d s) || epClosed (cp_dst d s) = true)
  | _ => False
  end.

Definition b2n (b : bool) : nat := if b then 1 else 0.

Record cp_inv (s : copier) : Prop := {
  ci_flow : forall d, flow s d;
  ci_posted : Forall (fun r => cp_go (crLeftToRight r) s = CEnded r) (cpResults s);
  ci_once : NoDup (map crLeftToRight (cpResults s));
  ci_count : cpCompleted s = (b2n (was_taken s true) + b2n (was_taken s false))%nat;
  ci_settled : forall d, settled s d;
  ci_closed : cpErrs s <> [] \/ cpDraining s = true -> epClosed (cpLeft s) = true /\ epClosed (cpRight s) = true;
  ci_kept : epHalf (cpLeft s) = true -> epHalf (cpRight s) = true -> cpErrs s = [] -> cpDraining s = false ->
            epClosed (cpLeft s) = false /\ epClosed (cpRight s) = false;
  ci_returned : cpReturned s = (cpCompleted s =? 2)%nat;
  ci_canceled : cpDraining s = true -> cpReturned s = true -> cpErrs s <> [] }.

Lemma cp_inv_start hl hr : cp_inv (cp_start hl hr).
Proof.
  split; simpl; try done; try (by constructor).
  - by intros [].
  - by intros [].
  - by intros [|].
Qed.

(** ** The ends change *)

(** A change of the ends that the rest of the invariant does not see. *)
Definition same_state (e e' : endpoint) : Prop :=
  epOut e' = epOut e /\ epHalf e' = epHalf e /\ epWriteClosed e' = epWriteClosed e /\ epClosed e' = epClosed e.

Lemma cp_inv_ends s l r :
  cp_inv s -> same_state (cpLeft s) l -> same_state (cpRight s) r ->
  (forall g dst, flows true g (cpLeft s) dst -> flows true g l dst) ->
  (forall g dst, flows false g (cpRight s) dst -> flows false g r dst) ->
  cp_inv (put_ends s l r).
Proof.
  intros [I1 I2 I3 I4 I5 I6 I7 I8 I9] (L1 & L2 & L3 & L4) (R1 & R2 & R3 & R4) Hl Hr.
  split; simpl; try done; rewrite ?L2, ?L4, ?R2, ?R4; try done.
  - intros [|]; [specialize (I1 true)|specialize (I1 false)]; unfold flow in *; simpl in *.
    + eapply flows_ext; [..|exact (Hl _ _ I1)]; done.
    + eapply flows_ext; [..|exact (Hr _ _ I1)]; done.
  - intros [|] H; [specialize (I5 true H)|specialize (I5 false H)]; simpl in *; by rewrite ?L3, ?L4, ?R3, ?R4.
Qed.

Lemma same_state_refl e : same_state e e. Proof. done. Qed.
Lemma same_state_arrive e c : same_state e (ep_arrive e c). Proof. unfold ep_arrive. by destruct (epEnd e). Qed.
Lemma same_state_finish e c : same_state e (ep_finish e c). Proof. unfold ep_finish. by destruct (epEnd e). Qed.
Lemma same_state_break e : same_state e (ep_break e). Proof. done. Qed.
#[local] Hint Resolve same_state_refl same_state_arrive same_state_finish same_state_break : core.
#[local] Hint Resolve flows_arrive flows_finish : core.

Lemma cp_inv_environment s e :
  cp_inv s -> match e with EvCopy _ _ | EvMain _ => False | _ => True end -> cp_inv (cp_step s e).
Proof.
  intros H He. destruct e as [[] c|[] r|[]| | |]; simpl in *; try done; try (by apply cp_inv_ends; auto).
  destruct H as [I1 I2 I3 I4 I5 I6 I7 I8 I9]. split; try done.
Qed.

(** ** A goroutine moves *)

Lemma not_in_channel s d : cp_inv s -> has_ended (cp_go d s) = false -> in_channel d (cpResults s) = false.
Proof.
  intros H He. apply not_true_iff_false. intros Hx. apply existsb_exists in Hx as (r & Hr & Hd).
  apply Bool.eqb_prop in Hd. pose proof (ci_posted s H) as Hp. rewrite Forall_forall in Hp.
  apply list_elem_of_In in Hr. specialize (Hp r Hr). simpl in Hp. rewrite Hd in Hp. by rewrite Hp in He.
Qed.

Lemma in_channel_app d rs r : in_channel d (rs ++ [r]) = in_channel d rs || Bool.eqb (crLeftToRight r) d.
Proof. unfold in_channel. rewrite existsb_app. simpl. by rewrite orb_false_r. Qed.

(** The posted results after the move: none new, or the one the goroutine ends with. *)
Definition posts (d : bool) (g : copying) (rs rs' : list copyResult) : Prop :=
  match g with
  | CEnded r => crLeftToRight r = d /\ rs' = rs ++ [r]
  | _ => rs' = rs
  end.

Definition open_state (e e' : endpoint) : Prop :=
  epHalf e' = epHalf e /\ epWriteClosed e' = epWriteClosed e /\ epClosed e' = epClosed e.

Lemma was_taken_move s l r d g rs d' :
  cp_inv s -> has_ended (cp_go d s) = false -> posts d g (cpResults s) rs ->
  was_taken (put_go (put_ends s l r) d g rs) d' = was_taken s d'.
Proof.
  intros H He Hp. pose proof (not_in_channel s d H He) as Hn. unfold was_taken. simpl.
  destruct g as [n|n c|r0]; simpl in Hp.
  1,2: subst rs; destruct d, d'; simpl in *; by rewrite ?He.
  destruct Hp as [Hd ->]. rewrite in_channel_app, Hd.
  destruct d, d'; simpl in *; rewrite ?He, ?Hn, ?orb_false_r; done.
Qed.

Lemma cp_inv_move s l r d g rs :
  cp_inv s -> has_ended (cp_go d s) = false -> posts d g (cpResults s) rs ->
  open_state (cpLeft s) l -> open_state (cpRight s) r ->
  (forall d', flow (put_go (put_ends s l r) d g rs) d') ->
  cp_inv (put_go (put_ends s l r) d g rs).
Proof.
  intros H He Hp (L1 & L2 & L3) (R1 & R2 & R3) Hf. set (t := put_go _ _ _ _).
  assert (forall d', was_taken t d' = was_taken s d') as Ht by (intros; by apply was_taken_move).
  pose proof (not_in_channel s d H He) as Hn. destruct H as [I1 I2 I3 I4 I5 I6 I7 I8 I9].
  assert (forall d', was_taken s d' = true -> cp_go d' t = cp_go d' s) as Hg.
  { intros d' Hw. unfold was_taken in Hw. destruct d, d'; simpl in *; rewrite ?He in Hw; done. }
  split; simpl; rewrite ?Ht, ?L1, ?L3, ?R1, ?R3; try done.
  - apply Forall_forall. rewrite Forall_forall in I2. intros x Hx.
    assert (x ∈ cpResults s -> cp_go (crLeftToRight x) t = CEnded x) as Hold.
    { intros Hin. specialize (I2 x Hin). simpl in I2. unfold t, cp_go in *. simpl.
      destruct d, (crLeftToRight x); simpl in *; rewrite ?I2 in He; done. }
    destruct g as [n|n c|r0]; simpl in Hp; [subst rs; auto..|].
    destruct Hp as [Hd ->]. apply elem_of_app in Hx as [Hx|Hx]; [auto|].
    apply list_elem_of_singleton in Hx as ->. rewrite Hd. unfold t. by destruct d.
  - destruct g as [n|n c|r0]; simpl in Hp; [by subst rs..|]. destruct Hp as [Hd ->].
    rewrite map_app. apply NoDup_app. split; [done|]. split; [|apply NoDup_singleton].
    intros x Hx1 Hx2. simpl in Hx2. apply list_elem_of_singleton in Hx2 as ->.
    apply list_elem_of_fmap in Hx1 as (y & Hy & Hin). apply not_true_iff_false in Hn. apply Hn.
    apply existsb_exists. exists y. split; [by apply list_elem_of_In|]. rewrite <- Hy, Hd. apply Bool.eqb_reflx.
  - intros d' Hw. rewrite Ht in Hw. specialize (I5 d' Hw). rewrite (Hg d' Hw).
    unfold t. destruct d'; simpl in *; by rewrite ?L2, ?L3, ?R2, ?R3.
Qed.

Lemma put_ends_id s : put_ends s (cpLeft s) (cpRight s) = s.
Proof. by destruct s. Qed.

Lemma cp_inv_post s d n err :
  cp_inv s -> has_ended (cp_go d s) = false ->
  n = len (epOut (cp_dst d s)) -> epOut (cp_dst d s) `prefix_of` epGot (cp_src d s) ->
  (err = None -> epOut (cp_dst d s) = epGot (cp_src d s) /\ epEnd (cp_src d s) = AtEOF) ->
  cp_inv (copyOneWay s d n err).
Proof.
  intros H He Hn Hp Hf. unfold copyOneWay. rewrite <- (put_ends_id s) at 1.
  apply cp_inv_move; [done|done|done|done|done|].
  intros d'. pose proof (ci_flow s H d') as Hd. unfold flow in *.
  destruct d, d'; simpl in *; try done; by apply flows_post.
Qed.

Lemma cp_inv_write s d n c sent g rs :
  cp_inv s -> cp_go d s = CWrite n c -> posts d g (cpResults s) rs ->
  flows d g (cp_src d s) (ep_write (cp_dst d s) sent) ->
  cp_inv (put_go (put_end s (negb d) (ep_write (cp_dst d s) sent)) d g rs).
Proof.
  intros H Hg Hp Hf. pose proof (ci_flow s H (negb d)) as Ho. unfold flow in Ho.
  destruct d; simpl in *; (apply cp_inv_move; [done|by simpl; rewrite Hg|done|done|done|]);
    intros []; unfold flow; simpl; try done; by eapply flows_ext; [..|exact Ho].
Qed.

Lemma cp_inv_read s d n c rest :
  cp_inv s -> cp_go d s = CRead n -> epIn (cp_src d s) = c :: rest ->
  cp_inv (put_go (put_end s d (ep_read (cp_src d s) rest)) d (match c with [] => CRead n | _ => CWrite n c end)
            (cpResults s)).
Proof.
  intros H Hg Hin. pose proof (ci_flow s H d) as Hf. pose proof (ci_flow s H (negb d)) as Ho. unfold flow in *.
  rewrite Hg in Hf. destruct Hf as [Hn Hc]. rewrite Hin in Hc.
  assert (posts d (match c with [] => CRead n | _ => CWrite n c end) (cpResults s) (cpResults s)) as Hp by (by destruct c).
  destruct d; simpl in *; (apply cp_inv_move; [done|by simpl; rewrite Hg|done|done|done|]);
    intros []; unfold flow; simpl; try (by eapply flows_ext; [..|exact Ho]);
    by destruct c; split.
Qed.

Lemma cp_inv_copy s d k : cp_inv s -> cp_inv (copyStream d k s).
Proof.
  intros H. unfold copyStream. pose proof (ci_flow s H d) as Hf. unfold flow in Hf.
  destruct (cp_go d s) as [n|n c|r] eqn:Hg; [| |done].
  - destruct Hf as [Hn Hc].
    assert (epOut (cp_dst d s) `prefix_of` epGot (cp_src d s)) as Hp by (rewrite <- Hc; by apply prefix_app_r).
    assert (has_ended (cp_go d s) = false) as He by (by rewrite Hg).
    destruct (epClosed (cp_src d s)); [by apply cp_inv_post|].
    destruct (epIn (cp_src d s)) as [|c rest] eqn:Hin; [|by apply cp_inv_read].
    simpl in Hc. rewrite app_nil_r in Hc.
    destruct (epEnd (cp_src d s)) eqn:Hend; [done|by apply cp_inv_post|by apply cp_inv_post].
  - destruct Hf as [Hn Hc].
    assert (epOut (cp_dst d s) `prefix_of` epGot (cp_src d s)) as Hp by (rewrite <- Hc; by apply prefix_app_r).
    destruct (epClosed (cp_dst d s)); [by apply cp_inv_post; [..|by rewrite Hg| | |]|].
    destruct (epBroken (cp_dst d s)).
    + unfold copyOneWay.
      replace (cpResults (put_end s (negb d) (ep_write (cp_dst d s) (take k c)))) with (cpResults s) by (by destruct d).
      eapply cp_inv_write; [done|done|by split|]. apply flows_post; [|..|done]; simpl.
      * rewrite length_app. lia.
      * exists (drop k c ++ concat (epIn (cp_src d s))).
        by rewrite <- Hc, <- app_assoc, (app_assoc (take k c)), take_drop.
    + eapply cp_inv_write; [done|done|done|]. simpl. rewrite length_app, <- app_assoc. split; [lia|done].
Qed.

(** ** The function takes a result *)

Definition same_flow (e e' : endpoint) : Prop :=
  epGot e' = epGot e /\ epIn e' = epIn e /\ epEnd e' = epEnd e /\ epOut e' = epOut e /\ epHalf e' = epHalf e.

Lemma flow_main s l r rs c dr n errs d :
  same_flow (cpLeft s) l -> same_flow (cpRight s) r -> flow s d -> flow (put_main (put_ends s l r) rs c dr n errs) d.
Proof.
  intros (L1 & L2 & L3 & L4 & _) (R1 & R2 & R3 & R4 & _) H. unfold flow in *.
  destruct d; simpl in *; by eapply flows_ext; [..|exact H].
Qed.

Lemma was_taken_main s r rest l rt c dr n errs d :
  cp_inv s -> cpResults s = r :: rest ->
  was_taken (put_main (put_ends s l rt) rest c dr n errs) d = Bool.eqb (crLeftToRight r) d || was_taken s d.
Proof.
  intros H Hrs. pose proof (ci_posted s H) as Hp. pose proof (ci_once s H) as Ho. rewrite Hrs in Hp, Ho.
  apply Forall_cons in Hp as [Hp _]. simpl in Ho. apply NoDup_cons in Ho as [Ho _].
  unfold was_taken. simpl. rewrite Hrs. simpl. fold (cp_go d s).
  change (cp_go d (put_main (put_ends s l rt) rest c dr n errs)) with (cp_go d s).
  destruct (Bool.eqb (crLeftToRight r) d) eqn:Hd; simpl; [|done].
  apply Bool.eqb_prop in Hd. subst d. rewrite Hp. simpl. apply negb_true_iff, not_true_iff_false. intros Hx.
  apply existsb_exists in Hx as (y & Hy & Hd). apply Bool.eqb_prop in Hd. apply Ho. rewrite <- Hd.
  apply list_elem_of_fmap. exists y. split; [done|by apply list_elem_of_In].
Qed.

Lemma head_not_taken s r rest : cp_inv s -> cpResults s = r :: rest -> was_taken s (crLeftToRight r) = false.
Proof.
  intros H Hrs. unfold was_taken. rewrite Hrs. simpl. rewrite Bool.eqb_reflx. simpl. apply andb_false_r.
Qed.

(** What taking result [r] has to establish. *)
Lemma cp_inv_take s r rest l rt dr errs :
  cp_inv s -> cpResults s = r :: rest -> cpReturned s = false ->
  same_flow (cpLeft s) l -> same_flow (cpRight s) rt ->
  let t := put_main (put_ends s l rt) rest (S (cpCompleted s)) dr (setCopyCount (cpCounts s) r) errs in
  (forall d, epClosed (cp_dst d s) = true -> epClosed (cp_dst d t) = true) ->
  (forall d, epWriteClosed (cp_dst d s) = true -> epWriteClosed (cp_dst d t) = true) ->
  (cpErrs s <> [] -> errs <> []) ->
  (if crErr r then errs <> []
   else epWriteClosed (cp_dst (crLeftToRight r) t) || epClosed (cp_dst (crLeftToRight r) t) = true) ->
  (errs <> [] \/ dr = true -> epClosed l = true /\ epClosed rt = true) ->
  (epHalf l = true -> epHalf rt = true -> errs = [] -> dr = false -> epClosed l = false /\ epClosed rt = false) ->
  (dr = true -> cpReturned t = true -> errs <> []) ->
  cp_inv t.
Proof.
  intros H Hrs Hret Hl Hr t Hcl Hwc Herr Hset Hclosed Hkept Hcan.
  assert (forall d, was_taken t d = Bool.eqb (crLeftToRight r) d || was_taken s d) as Hw
    by (intros; by eapply was_taken_main).
  pose proof (head_not_taken s r rest H Hrs) as Hn. pose proof (ci_posted s H) as Hp. pose proof (ci_once s H) as Ho.
  rewrite Hrs in Hp, Ho. apply Forall_cons in Hp as [Hp Hp']. apply NoDup_cons in Ho as [_ Ho].
  split; try done.
  - intros d. apply flow_main; [done|done|apply (ci_flow s H)].
  - rewrite !Hw. simpl. rewrite (ci_count s H). by destruct (crLeftToRight r); rewrite Hn; simpl; destruct (was_taken s _).
  - intros d Hd. change (cp_go d t) with (cp_go d s). rewrite Hw in Hd. destruct (Bool.eqb (crLeftToRight r) d) eqn:Hrd.
    + apply Bool.eqb_prop in Hrd. subst d. rewrite Hp. split; [|done]. simpl. unfold setCopyCount.
      by destruct (crLeftToRight r).
    + pose proof (ci_settled s H d Hd) as Hs. destruct (cp_go d s) as [| |r0]; [done|done|].
      destruct Hs as [Hc He]. split.
      * simpl. unfold setCopyCount. by destruct (crLeftToRight r), d.
      * destruct (crErr r0); [by apply Herr|]. apply orb_true_iff in He as [He|He]; apply orb_true_iff; auto.
  - simpl. rewrite Hret. by destruct (cpCompleted s) as [|[|?]].
Qed.

Lemma same_flow_close e : same_flow e (ep_close e). Proof. done. Qed.
Lemma same_flow_close_end e : same_flow e (close_end e). Proof. unfold close_end. by destruct (epHalf e). Qed.
Lemma same_flow_refl e : same_flow e e. Proof. done. Qed.
#[local] Hint Resolve same_flow_close same_flow_close_end same_flow_refl : core.

Lemma close_end_closed e : epClosed e = true -> epClosed (close_end e) = true.
Proof. unfold close_end. by destruct (epHalf e). Qed.

Lemma close_end_write_closed e : epWriteClosed e = true -> epWriteClosed (close_end e) = true.
Proof. unfold close_end. by destruct (epHalf e). Qed.

Lemma close_end_ends e : epWriteClosed (close_end e) || epClosed (close_end e) = true.
Proof. unfold close_end. destruct (epHalf e); simpl; [done|apply orb_true_r]. Qed.

Lemma close_end_half e : epHalf (close_end e) = true -> epClosed (close_end e) = epClosed e.
Proof. unfold close_end. by destruct (epHalf e) eqn:E; simpl; rewrite ?E. Qed.

#[local] Hint Resolve close_end_closed close_end_write_closed close_end_ends : core.

(** A clean end. *)
Lemma cp_inv_take_clean s r rest :
  cp_inv s -> cpResults s = r :: rest -> cpReturned s = false -> cpDraining s = false -> crErr r = None ->
  cp_inv (put_main (closeCopyWrite (crLeftToRight r) s) rest (S (cpCompleted s)) false (setCopyCount (cpCounts s) r)
            (cpErrs s)).
Proof.
  intros H Hrs Hret Hdr Hre. pose proof (ci_closed s H) as Hc. pose proof (ci_kept s H) as Hk.
  assert (forall l rt, cpErrs s <> [] \/ false = true ->
    (epClosed (cpLeft s) = true -> epClosed l = true) -> (epClosed (cpRight s) = true -> epClosed rt = true) ->
    epClosed l = true /\ epClosed rt = true) as Hcl by (intros l rt [He|He]; [destruct (Hc (or_introl He)); auto|done]).
  unfold closeCopyWrite. destruct (crLeftToRight r) eqn:Hd; simpl; apply (cp_inv_take s r rest); auto; simpl;
    rewrite ?Hre, ?Hd; simpl; auto; try (intros []; simpl; by auto); try done.
  - intros H1 H2 H3 _. rewrite close_end_half by done. destruct (epHalf (cpRight s)) eqn:E; [by apply Hk|].
    by unfold close_end in H2; rewrite E in H2; simpl in H2; rewrite E in H2.
  - intros H1 H2 H3 _. rewrite close_end_half by done. destruct (epHalf (cpLeft s)) eqn:E; [by apply Hk|].
    by unfold close_end in H1; rewrite E in H1; simpl in H1; rewrite E in H1.
Qed.

Lemma cp_inv_drain s :
  cp_inv s -> cpReturned s = false ->
  cp_inv (put_main (close_both s) (cpResults s) (cpCompleted s) true (cpCounts s) (cpErrs s)).
Proof.
  intros H Hret. pose proof (ci_returned s H) as Hr. rewrite Hret in Hr.
  destruct H as [I1 I2 I3 I4 I5 I6 I7 I8 I9]. split; try done.
  - intros d. apply flow_main; auto.
  - intros d Hd. specialize (I5 d Hd). change (cp_go d _) with (cp_go d s). destruct (cp_go d s) as [| |r]; [done|done|].
    destruct I5 as [Hc He]. split; [done|]. destruct (crErr r); [done|]. destruct d; simpl; apply orb_true_r.
  - simpl. by rewrite <- Hr.
  - simpl. rewrite <- Hr. congruence.
Qed.

Lemma cp_inv_main s b : cp_inv s -> cp_inv (CopyBidirectional b s).
Proof.
  intros H. unfold CopyBidirectional. destruct (cpReturned s) eqn:Hret; [done|]. destruct b.
  - destruct (cpResults s) as [|r rest] eqn:Hrs; [done|].
    destruct (cpDraining s) eqn:Hdr; [|destruct (crErr r) eqn:Hre; [|by apply cp_inv_take_clean]].
    + destruct (ci_closed s H (or_intror Hdr)) as [Cl Cr]. rewrite <- (put_ends_id s) at 1.
      apply (cp_inv_take s r rest); try done; simpl.
      * intros Hx. by destruct (cpErrs s).
      * destruct (crErr r); [|by destruct (crLeftToRight r); simpl; rewrite ?Cl, ?Cr, orb_true_r].
        by destruct (cpErrs s).
      * intros _ Hx. destruct (cpCompleted s) as [|[|?]]; simpl in Hx; try congruence.
        simpl. intros E. apply app_eq_nil in E as [_ E]. by apply app_eq_nil in E as [_ ?].
    + apply (cp_inv_take s r rest); try done; simpl; auto.
      * intros []; done.
      * by intros [].
      * by destruct (cpErrs s).
      * rewrite Hre. by destruct (cpErrs s).
      * intros _ _ E. by destruct (cpErrs s).
  - destruct (cpCtxDone s && negb (cpDraining s)); [|done]. by apply cp_inv_drain.
Qed.

Lemma cp_inv_run es s : cp_inv s -> cp_inv (cp_run s es).
Proof.
  revert s. induction es as [|e es IH]; intros s H; [done|]. apply IH.
  destruct e; try (by apply cp_inv_environment); [by apply cp_inv_copy|by apply cp_inv_main].
Qed.

(** ** The function returns *)

Definition both_closed (s : copier) : Prop := epClosed (cpLeft s) = true /\ epClosed (cpRight s) = true.
Definition both_ended (s : copier) : Prop := forall d, has_ended (cp_go d s) = true.

Lemma copy_of_closed s d :
  both_closed s -> both_closed (copyStream d 0 s) /\ has_ended (cp_go d (copyStream d 0 s)) = true /\
  cp_go (negb d) (copyStream d 0 s) = cp_go (negb d) s.
Proof.
  intros [Hl Hr]. unfold copyStream, both_closed. destruct (cp_go d s) eqn:Hg.
  - replace (epClosed (cp_src d s)) with true by (by destruct d). by destruct d.
  - replace (epClosed (cp_dst d s)) with true by (by destruct d). by destruct d.
  - by rewrite Hg.
Qed.

Lemma ended_has_result s : cp_inv s -> both_ended s -> cpReturned s = false -> cpResults s <> [].
Proof.
  intros H He Hr Hn. rewrite (ci_returned s H), (ci_count s H) in Hr. unfold was_taken in Hr.
  by rewrite Hn, !He in Hr.
Qed.

Lemma take_when_ended s :
  cp_inv s -> both_ended s ->
  both_ended (CopyBidirectional true s) /\
  (cpReturned (CopyBidirectional true s) = true \/
   (cpCompleted (CopyBidirectional true s) = S (cpCompleted s) /\ cpReturned s = false)).
Proof.
  intros H He. unfold CopyBidirectional. destruct (cpReturned s) eqn:Hr; [auto|].
  pose proof (ended_has_result s H He Hr) as Hn. destruct (cpResults s) as [|r rest]; [done|].
  destruct (cpDraining s); [|destruct (crErr r)];
    (split; [|by right]); intros d; specialize (He d); unfold closeCopyWrite; try done; destruct d, (crLeftToRight r); done.
Qed.

Lemma ended_returns s : cp_inv s -> both_ended s -> cpReturned (cp_run s [EvMain true; EvMain true]) = true.
Proof.
  intros H He. simpl. pose proof (cp_inv_main s true H) as H1. destruct (take_when_ended s H He) as [He1 [Hr|[Hc Hr]]].
  { unfold CopyBidirectional at 1. by rewrite Hr. }
  pose proof (cp_inv_main _ true H1) as H2. destruct (take_when_ended _ H1 He1) as [_ [Hr2|[Hc2 Hr2]]]; [done|].
  rewrite (ci_returned _ H2), Hc2, Hc. rewrite (ci_returned _ H1), Hc in Hr2.
  pose proof (ci_count _ H) as Hn. rewrite (ci_returned _ H) in Hr.
  destruct (cpCompleted s) as [|[|[|?]]]; try done.
  destruct (was_taken s true), (was_taken s false); simpl in Hn; lia.
Qed.

(** Nothing of what this takes is asked of either end. *)
Definition unwind : list copy_event := [EvMain false; EvCopy true 0; EvCopy false 0; EvMain true; EvMain true].

Lemma closed_returns s :
  cp_inv s -> cpCtxDone s = true \/ both_closed s -> cpReturned (cp_run s unwind) = true.
Proof.
  intros H Hc. set (s1 := CopyBidirectional false s).
  assert (cp_inv s1 /\ (cpReturned s1 = true \/ both_closed s1)) as [H1 [Hr|Hc1]].
  { split; [by apply cp_inv_main|]. unfold s1, CopyBidirectional. destruct (cpReturned s) eqn:Hr; [by left|]. right.
    destruct (cpCtxDone s) eqn:Hx; simpl; [|by destruct Hc]. destruct (cpDraining s) eqn:Hd; simpl; [|done].
    by apply (ci_closed s H); right. }
  - assert (forall t d, cpReturned t = true -> cpReturned (copyStream d 0 t) = true) as Hk.
    { intros t d Ht. unfold copyStream, copyOneWay. repeat case_match; simpl; try done; by destruct d. }
    unfold unwind, cp_run. simpl. fold s1. pose proof (Hk _ false (Hk s1 true Hr)) as Hr2.
    unfold CopyBidirectional. by rewrite Hr2, Hr2.
  - destruct (copy_of_closed s1 true Hc1) as (Hc2 & He2 & _). set (s2 := copyStream true 0 s1) in *.
    destruct (copy_of_closed s2 false Hc2) as (Hc3 & He3 & Hk3). set (s3 := copyStream false 0 s2) in *.
    change (cpReturned (cp_run s3 [EvMain true; EvMain true]) = true).
    apply ended_returns; [by do 2 apply cp_inv_copy|]. intros []; [|done]. simpl in *. by rewrite Hk3.
Qed.

Lemma flows_prefix d g src dst : flows d g src dst -> epOut dst `prefix_of` epGot src.
Proof.
  destruct g; simpl; [intros [_ <-]; by apply prefix_app_r|intros [_ <-]; by apply prefix_app_r|by intros (_ & _ & ? & _)].
Qed.

Lemma settled_count s d : cp_inv s -> was_taken s d = true -> count_of d (cpCounts s) = len (epOut (cp_dst d s)).
Proof.
  intros H Ht. pose proof (ci_settled s H d Ht) as Hs. pose proof (ci_flow s H d) as Hf. unfold flow in Hf.
  destruct (cp_go d s); [done|done|]. destruct Hs as [-> _]. by destruct Hf as (_ & ? & _).
Qed.

Lemma settled_clean s d :
  cp_inv s -> was_taken s d = true -> cpErrs s = [] ->
  epOut (cp_dst d s) = epGot (cp_src d s) /\ epEnd (cp_src d s) = AtEOF /\
  epWriteClosed (cp_dst d s) || epClosed (cp_dst d s) = true.
Proof.
  intros H Ht Hn. pose proof (ci_settled s H d Ht) as Hs. pose proof (ci_flow s H d) as Hf. unfold flow in Hf.
  destruct (cp_go d s) as [| |r]; [done|done|]. destruct Hs as [_ Hs], Hf as (_ & _ & _ & Hf).
  destruct (crErr r); [done|]. destruct (Hf eq_refl). done.
Qed.

(** C22: In every interleaving of the two copy loops, of what the two connections do and of a cancelled context: what has
    been written to one end is a prefix of what arrived at the other, neither lost, repeated nor reordered.  When
    [CopyBidirectional] has returned it has the result of both loops and the counts are the bytes written.  When it returns no
    error, both ends were read to a clean end of file, everything was delivered, and both destinations were closed for
    writing.  When it returns an error both connections are closed.  Where both connections can be half-closed, the
    clean end of one direction leaves the other open.  Once the context is cancelled or both connections are closed, five
    steps of its own goroutines make it return, whatever the two ends do. *)
Theorem copy_bidirectional_faithful (halfL halfR : bool) (es : list copy_event) :
  let s := cp_run (cp_start halfL halfR) es in
  let l := cpLeft s in
  let r := cpRight s in
  (epOut r `prefix_of` epGot l /\ epOut l `prefix_of` epGot r) /\
  (cpReturned s = true -> both_ended s /\ cpCounts s = MkCounts (len (epOut r)) (len (epOut l))) /\
  (cpReturned s = true -> cpErrs s = [] ->
     (epOut r = epGot l /\ epEnd l = AtEOF /\ epWriteClosed r || epClosed r = true) /\
     (epOut l = epGot r /\ epEnd r = AtEOF /\ epWriteClosed l || epClosed l = true)) /\
  (cpErrs s <> [] -> both_closed s) /\
  (epHalf l = true -> epHalf r = true -> cpErrs s = [] -> cpDraining s = false -> epClosed l = false /\ epClosed r = false) /\
  (cpCtxDone s = true \/ both_closed s -> cpReturned (cp_run s unwind) = true).
Proof.
  intros s l r. assert (cp_inv s) as H by apply cp_inv_run, cp_inv_start.
  assert (cpReturned s = true -> forall d, was_taken s d = true) as Ht.
  { intros Hr. rewrite (ci_returned s H) in Hr. apply Nat.eqb_eq in Hr. rewrite (ci_count s H) in Hr.
    intros []; destruct (was_taken s true), (was_taken s false); simpl in Hr; done. }
  assert (cpReturned s = true -> forall d, has_ended (cp_go d s) = true) as He.
  { intros Hr d. specialize (Ht Hr d). unfold was_taken in Ht. by apply andb_true_iff in Ht as [? _]. }
  split; [|split; [|split; [|split; [|split]]]].
  - split; [pose proof (ci_flow s H true) as Hf|pose proof (ci_flow s H false) as Hf]; unfold flow in Hf; simpl in Hf.
    all: by eapply flows_prefix.
  - intros Hr. split; [exact (He Hr)|]. destruct (cpCounts s) as [a b] eqn:Ec.
    pose proof (settled_count s true H (Ht Hr true)) as H1. pose proof (settled_count s false H (Ht Hr false)) as H2.
    rewrite Ec in H1, H2. simpl in H1, H2. by subst a b.
  - intros Hr Hn. split.
    + exact (settled_clean s true H (Ht Hr true) Hn).
    + exact (settled_clean s false H (Ht Hr false) Hn).
  - intros Hn. apply (ci_closed s H). by left.
  - apply (ci_kept s H).
  - by apply closed_returns.
Qed.

(** A request and its answer; the client half-closes first. *)
Definition demo_copy : list copy_event :=
  [EvArrive true [71; 69; 84]; EvCopy true 0; EvCopy true 0; EvEnd true AtEOF; EvCopy true 0; EvMain true;
   EvArrive false [79; 75]; EvCopy false 0; EvCopy false 0; EvEnd false AtEOF; EvCopy false 0; EvMain true].

Lemma copy_bidirectional_faithful_witness :
  let s := cp_run (cp_start true true) demo_copy in
  cpReturned s = true /\ cpErrs s = [] /\ epOut (cpRight s) = [71; 69; 84] /\ cpCounts s = MkCounts 3 2 /\
  (epOut (cpLeft s) = epGot (cpRight s) /\ epEnd (cpRight s) = AtEOF /\
   epWriteClosed (cpLeft s) || epClosed (cpLeft s) = true).
Proof.
  intros s. split; [by vm_compute|]. split; [by vm_compute|]. split; [by vm_compute|]. split; [by vm_compute|].
  destruct (copy_bidirectional_faithful true true demo_copy) as (_ & _ & H & _).
  apply H; by vm_compute.
Defined.

(** Without CloseWrite at the right end the same exchange loses the answer. *)
Example answer_lost_without_half_close :
  let s := cp_run (cp_start true false) demo_copy in
  cpReturned s = true /\ cpErrs s = [CeRead] /\ epOut (cpLeft s) = [].
Proof. by vm_compute. Qed.
