(* ===== verification/Client.v ===== *)
(** * Client: the session life cycle of the tunnel client
    (internal/client: client.go, link.go, health.go)

    [reconnectMu] lets one goroutine at a time bring the link up or rebuild it: its
    position is [clPhase], and goroutines that wait for the lock are in
    [clWaiting].  What the code does under [sessMu] is one step; [shutdown], the
    delivery goroutine and the SOCKS handlers run in between.  Connections, smux
    sessions and the contexts of the control loops are resources with an
    allocation number, [clOpen] holds those opened and not closed; a stream
    belongs to its session and is represented by it.  Results of smux, of the
    handshake and of the transport are the oracle of a step.  Delays are kept as
    values, clocks are not. *)

From S2P Require Import Prelude Bytes Server Handshake.

(** ** Data *)

(* go: client/client.go 41-45 reconnect* *)
Inductive reason := RProvider | RLiveness | RFallback.

#[export] Instance reason_eq_dec : EqDecision reason.
Proof. solve_decision. Defined.

(** The fields guarded by [sessMu]. *)
(* go: client/client.go 52-84 Client *)
Record link := MkLink {
  lkPair : option SessionPair;
  lkConn : option nat;
  lkControlConn : option nat;
  lkSession : option nat;
  lkControlSess : option nat;
  lkControlStrm : option nat;
  lkControlStop : option nat;
  lkSessionID : string;
}.

Definition no_link : link := MkLink None None None None None None None "".

(** Who runs the attempt to open a session: [bringUpLink], or attempt number
    [attempt] of [retryHandshake], with its next delay. *)
Inductive attempt_of := Boot | Retry (r : reason) (attempt delay : Z).

(** The goroutine started by [scheduleLivenessFallback]: waiting for its timer,
    for the lock, inside the lock, or past it with [fallbackPending] still set.
    The flag is set in every state but the first. *)
(* go: client/link.go 238-265 scheduleLivenessFallback *)
Inductive fallback := FbNone | FbTimer | FbLock | FbHolds | FbEnding.

#[export] Instance fallback_eq_dec : EqDecision fallback.
Proof. solve_decision. Defined.

(** The position of the goroutine that holds [reconnectMu]. *)
Inductive phase :=
| PEnter (r : reason)
| PDetach (r : reason)
| PCloseOld (r : reason) (old : list nat)
| PFallback
| PConns (a : attempt_of)
| POpen (a : attempt_of)
| PSessions (a : attempt_of) (conn : nat) (controlConn : option nat)
| PHandshake (a : attempt_of) (p : SessionPair)
| PConfirm (a : attempt_of) (p : SessionPair) (sid peer : string)
| PWaitPeer (a : attempt_of) (p : SessionPair) (sid : string)
| PInstall (a : attempt_of) (p : SessionPair) (sid : string)
| PSignal (strm : nat)
| PStart (strm : nat)
| PDelay (r : reason) (attempt delay : Z).

(** What the transport and the application see. *)
Inductive cl_call :=
| CResetPeer
| CReconnect
| CSession (sid : string)
| CConfirm (peer : string)
| CPush (conn : nat) (data : bytes)
| CExhausted (r : reason)
| CFailed
| CCloseNotice (strm : nat)
| CLinkClosed.

Record client := MkClient {
  clLink : link;
  clReady : nat;
  clFallback : fallback;
  clBooted : bool;
  clLoops : gset nat;
  clWaiting : list reason;
  clPhase : option phase;
  clCanceled : bool;
  clShut : bool;
  clOpen : gset nat;
  clNext : nat;
  clSocks : gset nat;
  clSocksClosed : bool;
  clLog : list cl_call;
}.

(** A client whose lock [bringUpLink] has just taken. *)
(* go: client/client.go 139-143 RunWithAddress *)
Definition newClient : client :=
  MkClient no_link 0 FbNone false ∅ [] (Some (PConns Boot)) false false ∅ 0 ∅ false [].

Definition upd_link (c : client) (l : link) : client :=
  MkClient l (clReady c) (clFallback c) (clBooted c) (clLoops c) (clWaiting c) (clPhase c) (clCanceled c) (clShut c)
    (clOpen c) (clNext c) (clSocks c) (clSocksClosed c) (clLog c).
Definition upd_phase (c : client) (p : option phase) : client :=
  MkClient (clLink c) (clReady c) (clFallback c) (clBooted c) (clLoops c) (clWaiting c) p (clCanceled c) (clShut c)
    (clOpen c) (clNext c) (clSocks c) (clSocksClosed c) (clLog c).
Definition upd_open (c : client) (o : gset nat) (n : nat) : client :=
  MkClient (clLink c) (clReady c) (clFallback c) (clBooted c) (clLoops c) (clWaiting c) (clPhase c) (clCanceled c)
    (clShut c) o n (clSocks c) (clSocksClosed c) (clLog c).
Definition upd_waiting (c : client) (ws : list reason) (fb : fallback) (loops : gset nat) : client :=
  MkClient (clLink c) (clReady c) fb (clBooted c) loops ws (clPhase c) (clCanceled c) (clShut c) (clOpen c)
    (clNext c) (clSocks c) (clSocksClosed c) (clLog c).
Definition upd_ready (c : client) (n : nat) : client :=
  MkClient (clLink c) n (clFallback c) (clBooted c) (clLoops c) (clWaiting c) (clPhase c) (clCanceled c) (clShut c)
    (clOpen c) (clNext c) (clSocks c) (clSocksClosed c) (clLog c).
Definition upd_flags (c : client) (canceled shut : bool) : client :=
  MkClient (clLink c) (clReady c) (clFallback c) (clBooted c) (clLoops c) (clWaiting c) (clPhase c) canceled shut
    (clOpen c) (clNext c) (clSocks c) (clSocksClosed c) (clLog c).
Definition upd_socks (c : client) (s : gset nat) (closed : bool) : client :=
  MkClient (clLink c) (clReady c) (clFallback c) (clBooted c) (clLoops c) (clWaiting c) (clPhase c) (clCanceled c)
    (clShut c) (clOpen c) (clNext c) s closed (clLog c).
Definition cl_say (c : client) (call : cl_call) : client :=
  MkClient (clLink c) (clReady c) (clFallback c) (clBooted c) (clLoops c) (clWaiting c) (clPhase c) (clCanceled c)
    (clShut c) (clOpen c) (clNext c) (clSocks c) (clSocksClosed c) (clLog c ++ [call]).

(** Opening the next resource, closing some. *)
Definition cl_open (c : client) : client * nat :=
  (upd_open c ({[clNext c]} ∪ clOpen c) (S (clNext c)), clNext c).
Definition cl_close (c : client) (rs : list nat) : client := upd_open c (clOpen c ∖ list_to_set rs) (clNext c).

(** ** State queries *)

(* go: client/link.go 267-271 sessionEstablished *)
Definition sessionEstablished (c : client) : bool :=
  match lkSession (clLink c) with
  | Some s => bool_decide (s ∈ clOpen c) && negb (bool_decide (lkSessionID (clLink c) = ""))
  | None => false
  end.

(** The generation of the ready channel; a channel is closed once a newer one
    exists. *)
(* go: client/link.go 397-403 sessionSnapshot *)
Definition sessionSnapshot (c : client) : option nat * string * nat :=
  (lkSession (clLink c), lkSessionID (clLink c), clReady c).

Definition ready_closed (c : client) (generation : nat) : bool := bool_decide (generation < clReady c)%nat.

(* go: client/link.go 306-315 maxHandshakeAttempts *)
Definition maxHandshakeAttempts (r : reason) : Z :=
  match r with
  | RProvider => 5
  | RFallback => 3
  | RLiveness => 0
  end.

(* go: client/link.go 274-277 initialDelay *)
Definition initialDelay : Z := 300 * 1000000.
Definition maxDelay : Z := 5 * 1000000000.

(* go: client/link.go 297-302 retryHandshake *)
Definition nextDelay_of (delay : Z) : Z :=
  if delay <? maxDelay then (let d := i64 (delay * 2) in if maxDelay <? d then maxDelay else d) else delay.

(** ** Steps of the goroutine that holds the lock *)

(** The result of what a step calls: failure, the failure of the control session
    alone, or success with the values of the handshake. *)
Inductive oracle := OFail | OControlFail | OOk (sid peer : string).

(* go: client/link.go 375-381 installPairLocked *)
Definition cl_installPairLocked (l : link) (p : SessionPair) : link :=
  MkLink (Some p) (Some (prDataConn p)) (prControlConn p) (Some (prDataSession p))
    (Some (prControlSession p)) (lkControlStrm l) (lkControlStop l) (lkSessionID l).

(** Leaving the critical section.  The first to leave it is [bringUpLink]. *)
Definition release (c : client) : client :=
  MkClient (clLink c) (clReady c) (match clFallback c with FbHolds => FbEnding | f => f end) true
    (clLoops c) (clWaiting c) None (clCanceled c) (clShut c) (clOpen c) (clNext c) (clSocks c)
    (clSocksClosed c) (clLog c).

(** An attempt that failed: [bringUpLink] returns its error and
    [retryHandshake] goes on to the delay or gives up. *)
(* go: client/link.go 288-296 retryHandshake *)
Definition attempt_failed (c : client) (a : attempt_of) : client :=
  match a with
  | Boot => release (cl_say c CFailed)
  | Retry r attempt delay =>
      if (0 <? maxHandshakeAttempts r) && (maxHandshakeAttempts r <=? attempt)
      then release (cl_say c (CExhausted r))
      else upd_phase c (Some (PDelay r attempt delay))
  end.

(** The pair is closed and the attempt has failed. *)
Definition abandon (c : client) (a : attempt_of) (p : SessionPair) : client :=
  attempt_failed (cl_close c (pair_Close p)) a.

(** Whether the transport isolates the control plane. *)
Section client.
Context (controlPlane : bool).

(** [retryHandshake] looks at the context before every attempt; [bringUpLink] does
    not.  Whatever happens after the look does not stop the attempt. *)
(* go: client/link.go 280-284 retryHandshake *)
Definition begin_attempt (c : client) (a : attempt_of) : client :=
  let retrying := match a with Boot => false | Retry _ _ _ => true end in
  if retrying && clCanceled c then release c else upd_phase c (Some (POpen a)).

(** In both callers the fresh connections replace the old ones, which are closed. *)
(* go: client/link.go 317-337 tryReopenSession *)
Definition swap_conns (c : client) (a : attempt_of) : client :=
  let retrying := match a with Boot => false | Retry _ _ _ => true end in
  let '(c, conn) := cl_open c in
  let '(c, controlConn) := if controlPlane then let '(c, n) := cl_open c in (c, Some n) else (c, None) in
  let l := clLink c in
  let old := if retrying then opt_list (lkConn l) ++ opt_list (lkControlConn l) else [] in
  let c := upd_link c (MkLink (lkPair l) (Some conn) controlConn (lkSession l) (lkControlSess l)
                         (lkControlStrm l) (lkControlStop l) (lkSessionID l)) in
  upd_phase (cl_close c old) (Some (PSessions a conn controlConn)).

(* go: tunnelcore/session.go 44-77 NewSessionPairWithConns *)
Definition make_pair (c : client) (a : attempt_of) (conn : nat) (controlConn : option nat) (o : oracle) : client :=
  match o with
  | OFail => attempt_failed (cl_close c (conn :: opt_list controlConn)) a
  | OControlFail | OOk _ _ =>
      let '(c, session) := cl_open c in
      match controlConn with
      | None => upd_phase c (Some (PHandshake a (MkPair conn session None session)))
      | Some cc =>
          match o with
          | OOk _ _ =>
              let '(c, control) := cl_open c in
              upd_phase c (Some (PHandshake a (MkPair conn session (Some cc) control)))
          | _ => abandon (cl_close c [cc]) a (MkPair conn session None session)
          end
      end
  end.

(** The control context is a child of the client's: once that is cancelled, so
    is a new one. *)
(* go: client/health.go 14-44 startControlLoop *)
Definition cl_startControlLoop (c : client) : client :=
  let stop := clNext c in
  let c := if clCanceled c then upd_open c (clOpen c) (S stop) else (cl_open c).1 in
  let l := clLink c in
  let c := upd_link c (MkLink (lkPair l) (lkConn l) (lkControlConn l) (lkSession l) (lkControlSess l)
                         (lkControlStrm l) (Some stop) (lkSessionID l)) in
  release (upd_waiting c (clWaiting c) (clFallback c) ({[stop]} ∪ clLoops c)).

(* go: client/link.go 119-131 confirmPeer *)
Definition confirmPeer (c : client) (peer : string) (o : oracle) : option client :=
  if bool_decide (peer = "") then Some c
  else match o with OOk _ _ => Some (cl_say c (CConfirm peer)) | _ => None end.

(** What [handleReconnect] detaches and closes after the lock. *)
(* go: client/link.go 193-216 handleReconnect *)
Definition detached (l : link) : list nat :=
  opt_list (lkControlStop l) ++
  match lkPair l with
  | Some p => pair_Close p
  | None => opt_list (lkSession l) ++ opt_list (lkControlSess l)
  end.

(* go: client/link.go 175-192 handleReconnect *)
Definition enter_reconnect (c : client) (r : reason) : client :=
  let l := clLink c in
  let conns := match lkPair l with
               | Some p => CloseConns p
               | None => opt_list (lkConn l) ++ opt_list (lkControlConn l)
               end in
  upd_phase (cl_close (cl_say c CResetPeer) conns) (Some (PDetach r)).

(* go: client/link.go 217-223 handleReconnect *)
Definition after_teardown (c : client) (r : reason) : client :=
  match r with
  | RLiveness =>
      release (upd_waiting (cl_say c CReconnect) (clWaiting c)
                 (match clFallback c with FbNone => FbTimer | f => f end) (clLoops c))
  | _ => upd_phase c (Some (PConns (Retry r 1 initialDelay)))
  end.

(** One step of the holder. *)
(* go: client/link.go 317-373 tryReopenSession *)
Definition holder_step (c : client) (ph : phase) (o : oracle) : client :=
  match ph with
  | PEnter r => enter_reconnect c r
  | PDetach r => upd_phase (upd_link c no_link) (Some (PCloseOld r (detached (clLink c))))
  | PCloseOld r old => after_teardown (cl_close c old) r
  | PFallback =>
      if negb (clCanceled c) && negb (sessionEstablished c)
      then upd_phase c (Some (PConns (Retry RFallback 1 initialDelay)))
      else release c
  | PConns a => begin_attempt c a
  | POpen a => swap_conns c a
  | PSessions a conn controlConn => make_pair c a conn controlConn o
  | PHandshake a p =>
      match o with
      | OOk sid peer => upd_phase c (Some (PConfirm a p sid peer))
      | _ => abandon c a p
      end
  | PConfirm a p sid peer =>
      match confirmPeer c peer o with
      | Some c => upd_phase c (Some (PWaitPeer a p sid))
      | None => abandon c a p
      end
  | PWaitPeer a p sid =>
      match o with
      | OOk _ _ => upd_phase c (Some (PInstall a p sid))
      | _ => abandon c a p
      end
  | PInstall a p sid =>
      let l := cl_installPairLocked (clLink c) p in
      let strm := prControlSession p in
      upd_phase
        (upd_link c (MkLink (lkPair l) (lkConn l) (lkControlConn l) (lkSession l) (lkControlSess l)
                       (Some strm) (lkControlStop l) sid)) (Some (PSignal strm))
  | PSignal strm =>
      upd_phase (upd_ready (cl_say c (CSession (lkSessionID (clLink c)))) (S (clReady c))) (Some (PStart strm))
  | PStart strm => cl_startControlLoop c
  | PDelay r attempt delay =>
      match o, clCanceled c with
      | OFail, true => release c
      | _, _ => upd_phase c (Some (PConns (Retry r (attempt + 1) (nextDelay_of delay))))
      end
  end.

(** ** Shutdown and SOCKS connections *)

(* go: client/socks.go 31-33 maxSocksConns *)
Definition maxSocksConns : Z := 512.

(* go: client/client.go 166-184 registerSocksConn *)
Definition registerSocksConn (c : client) (conn : nat) : client * bool :=
  if clSocksClosed c then (c, false)
  else if maxSocksConns <=? Z.of_nat (size (clSocks c)) then (c, false)
  else (upd_socks c ({[conn]} ∪ clSocks c) (clSocksClosed c), true).

(* go: client/client.go 186-190 unregisterSocksConn *)
Definition unregisterSocksConn (c : client) (conn : nat) : client :=
  upd_socks c (clSocks c ∖ {[conn]}) (clSocksClosed c).

(* go: client/client.go 192-204 closeSocksConns *)
Definition closeSocksConns (c : client) : client := upd_socks c ∅ true.

(* go: client/health.go 76-111 shutdown *)
Definition shutdown (c : client) : client :=
  let l := clLink c in
  let c := upd_link c (MkLink None None None None None None None (lkSessionID l)) in
  let c := match lkControlStrm l with Some strm => cl_say c (CCloseNotice strm) | None => c end in
  let c := cl_close c (detached l) in
  let c := match lkPair l with
           | None => cl_close c (opt_list (lkConn l) ++ opt_list (lkControlConn l))
           | Some _ => c
           end in
  upd_flags (closeSocksConns (cl_say c CLinkClosed)) (clCanceled c) true.

(* go: client/health.go 132-137 onData *)
Definition cl_onData (c : client) (data : bytes) : client :=
  match lkConn (clLink c) with Some conn => cl_say c (CPush conn data) | None => c end.

(** ** Events *)

(** Of the holder, of a goroutine that gets the lock, of the transport and the
    control loops, of the fallback goroutine; a resource closed from outside (a
    session by its peer), an incoming frame, SOCKS connections, and the end: the
    context is cancelled and then, once [bringUpLink] has returned, [shutdown]
    runs. *)
Inductive cl_event :=
| EvStep (o : oracle)
| EvAcquire (i : nat)
| EvProvider
| EvDeath (loop : nat)
| EvFallback
| EvSessionDies (session : nat)
| EvData (data : bytes)
| EvAccept (conn : nat)
| EvSocksDone (conn : nat)
| EvCancel
| EvShutdown.

(** [None]: the event cannot happen. *)
Definition client_step (c : client) (e : cl_event) : option client :=
  match e with
  | EvStep o => match clPhase c with Some ph => Some (holder_step c ph o) | None => None end
  | EvAcquire i =>
      match clPhase c, clWaiting c !! i with
      | None, Some r =>
          let c := upd_waiting c (delete i (clWaiting c))
                     (match r with RFallback => FbHolds | _ => clFallback c end) (clLoops c) in
          Some (upd_phase c (Some (match r with RFallback => PFallback | _ => PEnter r end)))
      | _, _ => None
      end
  | EvProvider => if clCanceled c then None else Some (upd_waiting c (clWaiting c ++ [RProvider]) (clFallback c) (clLoops c))
  | EvDeath loop =>
      if bool_decide (loop ∈ clLoops c) && bool_decide (loop ∈ clOpen c) && negb (clCanceled c)
      then Some (upd_waiting c (clWaiting c ++ [RLiveness]) (clFallback c) (clLoops c ∖ {[loop]}))
      else None
  | EvFallback =>
      match clFallback c with
      | FbTimer =>
          if clCanceled c || sessionEstablished c then Some (upd_waiting c (clWaiting c) FbEnding (clLoops c))
          else Some (upd_waiting c (clWaiting c ++ [RFallback]) FbLock (clLoops c))
      | FbEnding => Some (upd_waiting c (clWaiting c) FbNone (clLoops c))
      | _ => None
      end
  | EvSessionDies session => Some (cl_close c [session])
  | EvData data => Some (cl_onData c data)
  | EvAccept conn => Some (registerSocksConn c conn).1
  | EvSocksDone conn => Some (unregisterSocksConn c conn)
  | EvCancel => Some (upd_flags c true (clShut c))
  | EvShutdown => if clCanceled c && clBooted c && negb (clShut c) then Some (shutdown c) else None
  end.

Fixpoint client_run (c : client) (es : list cl_event) : option client :=
  match es with
  | [] => Some c
  | e :: es => match client_step c e with Some c' => client_run c' es | None => None end
  end.
End client.
