(* ===== verification/ClientFacts.v ===== *)
(** * ClientFacts: the client owns one session at a time, leaks nothing and
    wakes its waiters *)

From S2P Require Import Prelude Bytes Server Client.

(** ** Ownership *)

Definition within (o : gset nat) (l : list nat) : Prop := forall r, r ∈ o -> r ∈ l.

(** What a session attempt in progress owns. *)
Definition phase_res (ph : phase) : list nat :=
  match ph with
  | PCloseOld _ old => old
  | PSessions _ conn controlConn => conn :: opt_list controlConn
  | PHandshake _ p | PConfirm _ p _ _ | PWaitPeer _ p _ | PInstall _ p _ => pair_Close p
  | _ => []
  end.

(** What the installed session owns, without and with its control loop. *)
Definition session_res (l : link) : list nat := match lkPair l with Some p => pair_Close p | None => [] end.
Definition installed_res (l : link) : list nat :=
  match lkPair l with Some p => opt_list (lkControlStop l) ++ pair_Close p | None => [] end.

(** The session is installed, its control loop not yet started. *)
Definition starting (ph : phase) : bool := match ph with PSignal _ | PStart _ => true | _ => false end.

Definition phase_inv (l : link) (o : gset nat) (ph : option phase) : Prop :=
  match ph with
  | None | Some (PEnter _) | Some (PDetach _) | Some PFallback => within o (installed_res l)
  | Some (PSignal _) | Some (PStart _) => within o (session_res l)
  | Some ph => lkPair l = None /\ within o (phase_res ph)
  end.

(** The attempt belongs to [bringUpLink]; it has looked at the context and goes on
    to open connections, or already owns some. *)
Definition is_boot (ph : phase) : bool :=
  match ph with
  | PConns Boot | POpen Boot | PSessions Boot _ _ | PHandshake Boot _ | PConfirm Boot _ _ _ | PWaitPeer Boot _ _
  | PInstall Boot _ _ => true
  | _ => false
  end.
Definition inflight (ph : phase) : bool :=
  match ph with
  | POpen _ | PSessions _ _ _ | PHandshake _ _ | PConfirm _ _ _ _ | PWaitPeer _ _ _ | PInstall _ _ _ => true
  | _ => false
  end.

Record client_inv (c : client) : Prop := {
  ci_phase : phase_inv (clLink c) (clOpen c) (clPhase c);
  ci_shut : clShut c = true -> clCanceled c = true /\ clBooted c = true /\ clSocksClosed c = true /\ clOpen c = ∅;
  ci_boot : clBooted c = true -> match clPhase c with Some ph => is_boot ph = false | None => True end;
  ci_starting : match clPhase c with
    | Some ph => starting ph = true -> lkPair (clLink c) = None -> clCanceled c = true
    | None => True
    end;
  ci_quiet : clShut c = true -> match clPhase c with Some ph => inflight ph = false | None => True end;
  ci_socks : Z.of_nat (size (clSocks c)) <= maxSocksConns /\ (clSocksClosed c = true -> clSocks c = ∅);
}.

(** A run in which the end of the client does not overlap an attempt that has passed
    its look at the context, nor the closing of the old session, and the fallback
    does not find a dead session installed. *)
Definition calm (c : client) (e : cl_event) : Prop :=
  match e, clPhase c with
  | EvShutdown, Some ph => phase_res ph = [] /\ inflight ph = false
  | EvStep _, Some PFallback => clCanceled c = true \/ sessionEstablished c = true \/ lkPair (clLink c) = None
  | _, _ => True
  end.

Lemma within_close o l rs : within o l -> within (o ∖ list_to_set rs) (filter (fun r => r ∉ rs) l).
Proof.
  intros H r Hr. apply elem_of_difference in Hr as [Hr Hn]. rewrite elem_of_list_to_set in Hn.
  apply list_elem_of_filter. auto.
Qed.

Lemma within_sub o o' l : within o l -> o' ⊆ o -> within o' l.
Proof. intros H Hs r Hr. apply H, Hs, Hr. Qed.

Lemma within_closed o l rs : within o l -> (forall r, r ∈ l -> r ∈ rs) -> o ∖ list_to_set rs = ∅.
Proof.
  intros H Hs. apply set_eq. intros r. split; [|set_solver]. intros Hr.
  apply elem_of_difference in Hr as [Hr Hn]. destruct Hn. apply elem_of_list_to_set. auto.
Qed.

Lemma within_empty l : within ∅ l.
Proof. intros r. set_solver. Qed.

Lemma within_cons o l n : within o l -> within ({[n]} ∪ o) (n :: l).
Proof. intros H r Hr. apply elem_of_union in Hr as [->%elem_of_singleton|Hr]; [left|right; auto]. Qed.

Lemma within_nil o : within o [] -> o = ∅.
Proof. intros H. apply set_eq. intros r. split; [|set_solver]. intros Hr. by apply H in Hr as ?%not_elem_of_nil. Qed.

Lemma within_weaken o l l' : within o l -> (forall r, r ∈ l -> r ∈ l') -> within o l'.
Proof. intros H Hs r Hr. auto. Qed.

#[export] Hint Resolve within_empty : go.

(** [pair_Close] covers every part of a pair. *)
Lemma pair_Close_spec p r :
  r ∈ pair_Close p <->
  r = prDataSession p \/ r = prControlSession p \/ r = prDataConn p \/ prControlConn p = Some r.
Proof.
  unfold pair_Close, CloseConns. destruct p as [dc ds cc cs]. cbn.
  destruct cc as [cc|]; cbn; case_bool_decide; set_solver.
Qed.

(** ** Preservation by the holder *)

Section preservation.
Context (cp : bool).

(** What no step of the holder changes; the boot flag is never reset. *)
Definition kept (c c' : client) : Prop :=
  clShut c' = clShut c /\ clCanceled c' = clCanceled c /\ clSocks c' = clSocks c /\
  clSocksClosed c' = clSocksClosed c /\ (clBooted c = true -> clBooted c' = true).

Lemma kept_trans c c' c'' : kept c c' -> kept c' c'' -> kept c c''.
Proof. intros (?&?&?&?&?) (?&?&?&?&?). split_and!; [congruence..|auto]. Qed.

Lemma attempt_failed_kept c c' a : kept c c' -> kept c (attempt_failed c' a).
Proof.
  intros H. eapply kept_trans; [exact H|]. unfold attempt_failed. destruct a; [done|]. by case_match.
Qed.

Lemma abandon_kept c c' a p : kept c c' -> kept c (abandon c' a p).
Proof. intros H. apply attempt_failed_kept. exact H. Qed.

Lemma make_pair_kept c a conn cc o : kept c (make_pair c a conn cc o).
Proof.
  unfold make_pair. destruct o; destruct cc; cbn [cl_open]; try done.
  - by apply attempt_failed_kept.
  - by apply attempt_failed_kept.
  - by apply abandon_kept.
Qed.

Lemma holder_kept c ph o : kept c (holder_step cp c ph o).
Proof.
  destruct ph as [r|r|r old| |a|a|a conn cc|a p|a p sid peer|a p sid|a p sid|s|s|r n d]; cbn [holder_step].
  - done.
  - done.
  - by destruct r.
  - by case_match.
  - unfold begin_attempt. by case_match.
  - unfold swap_conns. by destruct cp.
  - apply make_pair_kept.
  - destruct o; [by apply abandon_kept..|done].
  - unfold confirmPeer. case_bool_decide; [done|]. destruct o; [by apply abandon_kept..|done].
  - destruct o; [by apply abandon_kept..|done].
  - done.
  - done.
  - unfold cl_startControlLoop. by destruct (clCanceled c) eqn:E; split_and!; cbn; rewrite ?E.
  - destruct o, (clCanceled c) eqn:E; split_and!; cbn; rewrite ?E; done.
Qed.

Lemma attempt_failed_phase c a :
  lkPair (clLink c) = None -> clOpen c = ∅ ->
  phase_inv (clLink (attempt_failed c a)) (clOpen (attempt_failed c a)) (clPhase (attempt_failed c a)).
Proof.
  intros Hp Ho. unfold attempt_failed. destruct a as [|r n d].
  - cbn. rewrite Ho. auto with go.
  - case_match; cbn; rewrite Ho; auto with go.
Qed.

Lemma abandon_phase c a p :
  lkPair (clLink c) = None -> within (clOpen c) (pair_Close p) ->
  phase_inv (clLink (abandon c a p)) (clOpen (abandon c a p)) (clPhase (abandon c a p)).
Proof.
  intros Hp Ho. unfold abandon. apply attempt_failed_phase; [done|]. by apply (within_closed (clOpen c) _ _ Ho).
Qed.

Lemma make_pair_phase c a conn cc o :
  lkPair (clLink c) = None -> within (clOpen c) (conn :: opt_list cc) ->
  let c' := make_pair c a conn cc o in phase_inv (clLink c') (clOpen c') (clPhase c').
Proof.
  intros Hp Ho. unfold make_pair.
  assert (H1 : within ({[clNext c]} ∪ clOpen c) (clNext c :: conn :: opt_list cc)) by by apply within_cons.
  destruct o.
  - apply attempt_failed_phase; [done|]. by apply (within_closed (clOpen c) _ _ Ho).
  - destruct cc as [cc|]; cbn [cl_open].
    + apply abandon_phase; [done|]. eapply within_weaken; [apply (within_close _ _ [cc] H1)|].
      intros r Hr. apply list_elem_of_filter in Hr. rewrite pair_Close_spec. cbn. set_solver.
    + split; [done|]. eapply within_weaken; [exact H1|]. cbn [phase_res]. intros r Hr. rewrite pair_Close_spec. cbn. set_solver.
  - destruct cc as [cc|]; cbn [cl_open].
    + split; [done|]. eapply within_weaken; [exact (within_cons _ _ (S (clNext c)) H1)|].
      cbn [phase_res]. intros r Hr. rewrite pair_Close_spec. cbn. set_solver.
    + split; [done|]. eapply within_weaken; [exact H1|]. cbn [phase_res]. intros r Hr. rewrite pair_Close_spec. cbn. set_solver.
Qed.

Lemma swap_conns_phase c a :
  lkPair (clLink c) = None -> clOpen c = ∅ ->
  let c' := swap_conns cp c a in phase_inv (clLink c') (clOpen c') (clPhase c').
Proof.
  intros Hp Ho. unfold swap_conns.
  destruct cp; cbn; (split; [done|]); rewrite Ho;
    (eapply within_sub; [|apply subseteq_difference_l; reflexivity]);
    intros r; set_solver.
Qed.

Lemma installed_session l r : r ∈ installed_res l -> r ∈ detached l.
Proof. unfold installed_res, detached. destruct (lkPair l); set_solver. Qed.

Lemma holder_phase c ph o :
  phase_inv (clLink c) (clOpen c) (Some ph) -> calm c (EvStep o) -> clPhase c = Some ph ->
  (starting ph = true -> lkPair (clLink c) = None -> clCanceled c = true) ->
  let c' := holder_step cp c ph o in phase_inv (clLink c') (clOpen c') (clPhase c').
Proof.
  intros Hi Hcalm Hph Hst. unfold calm in Hcalm. rewrite Hph in Hcalm.
  destruct ph as [r|r|r old| |a|a|a conn cc|a p|a p sid peer|a p sid|a p sid|s|s|r n d]; cbn [holder_step].
  - cbn in *. eapply within_sub; [exact Hi|]. set_solver.
  - cbn in *. split; [done|]. eapply within_weaken; [exact Hi|]. apply installed_session.
  - destruct Hi as [Hp Ho]. cbn in Ho.
    assert (He : clOpen c ∖ list_to_set old = ∅) by by eapply within_closed.
    destruct r; cbn; rewrite He; auto with go.
  - cbn in Hi. case_match.
    + bool_to_Prop. destruct Hcalm as [?|[?|Hp]]; [congruence..|]. cbn. split; [done|].
      unfold installed_res in Hi. by rewrite Hp in Hi.
    + done.
  - destruct Hi as [Hp Ho]. unfold begin_attempt. case_match; [|done]. cbn.
    apply within_nil in Ho as ->. auto with go.
  - destruct Hi as [Hp Ho]. apply swap_conns_phase; [done|]. by apply within_nil.
  - destruct Hi as [Hp Ho]. by apply make_pair_phase.
  - destruct Hi as [Hp Ho]. destruct o; [by apply abandon_phase..|done].
  - destruct Hi as [Hp Ho]. unfold confirmPeer. case_bool_decide; [done|].
    destruct o; [by apply abandon_phase..|done].
  - destruct Hi as [Hp Ho]. destruct o; [by apply abandon_phase..|done].
  - destruct Hi as [Hp Ho]. done.
  - done.
  - cbn in Hi. unfold cl_startControlLoop. unfold session_res in Hi.
    destruct (clCanceled c); cbn; unfold installed_res; cbn;
      destruct (lkPair (clLink c)) as [p|]; cbn in *; try done.
    + intros r Hr. right. by apply Hi.
    + by apply within_cons.
    + by specialize (Hst eq_refl eq_refl).
  - destruct Hi as [Hp Ho]. destruct o, (clCanceled c); cbn; unfold installed_res; try rewrite Hp; done.
Qed.

Lemma attempt_failed_boot c a :
  match clPhase (attempt_failed c a) with Some ph => is_boot ph = false /\ starting ph = false | None => True end.
Proof.
  unfold attempt_failed. destruct a as [|r n d]; [done|].
  by destruct ((0 <? maxHandshakeAttempts r) && (maxHandshakeAttempts r <=? n)).
Qed.

Lemma make_pair_boot c a conn cc o :
  match clPhase (make_pair c a conn cc o) with
  | Some ph => starting ph = false /\ (a <> Boot -> is_boot ph = false)
  | None => True
  end.
Proof.
  assert (H : forall c', match clPhase (attempt_failed c' a) with
                | Some ph => starting ph = false /\ (a <> Boot -> is_boot ph = false) | None => True end).
  { intros c'. pose proof (attempt_failed_boot c' a). case_match; naive_solver. }
  unfold make_pair, abandon. destruct o; destruct cc; cbn [cl_open]; try apply H;
    (split; [done|]); destruct a; naive_solver.
Qed.

(** What the next position of the holder is. *)
Lemma holder_next c ph o :
  let c' := holder_step cp c ph o in
  match clPhase c' with
  | Some ph' =>
      (is_boot ph = false -> is_boot ph' = false) /\
      (starting ph' = true -> lkPair (clLink c') = None -> starting ph = true /\ lkPair (clLink c) = None)
  | None => True
  end.
Proof.
  assert (Hleave : forall c' a p, match clPhase (abandon c' a p) with
            | Some ph' => (is_boot ph = false -> is_boot ph' = false) /\
                (starting ph' = true -> lkPair (clLink (abandon c' a p)) = None ->
                 starting ph = true /\ lkPair (clLink c) = None)
            | None => True end).
  { intros c' a p. pose proof (attempt_failed_boot (cl_close c' (pair_Close p)) a) as H. unfold abandon.
    destruct (clPhase (attempt_failed _ a)) as [ph'|]; [|done]. destruct H as [Hb Hs]. split; [done|].
    rewrite Hs. discriminate. }
  destruct ph as [r|r|r old| |a|a|a conn cc|a p|a p sid peer|a p sid|a p sid|s|s|r n d]; cbn [holder_step].
  - done.
  - done.
  - by destruct r.
  - by destruct (negb (clCanceled c) && negb (sessionEstablished c)).
  - unfold begin_attempt. destruct (_ && _); [done|]. by destruct a.
  - unfold swap_conns. by destruct cp, a.
  - pose proof (make_pair_boot c a conn cc o) as Hm. case_match; [|done]. destruct Hm as [Hs Hb].
    split; [|by rewrite Hs]. destruct a; [done|]. intros _. by apply Hb.
  - destruct o; [by apply (Hleave c a p)..|by destruct a].
  - unfold confirmPeer. case_bool_decide; [by destruct a|].
    destruct o; [by apply (Hleave c a p)..|by destruct a].
  - destruct o; [by apply (Hleave c a p)..|by destruct a].
  - done.
  - done.
  - done.
  - by destruct o, (clCanceled c).
Qed.

(** After the end nothing is opened any more. *)
Lemma holder_shut c ph o :
  clCanceled c = true -> clOpen c = ∅ -> inflight ph = false -> is_boot ph = false ->
  let c' := holder_step cp c ph o in
  clOpen c' = ∅ /\ match clPhase c' with Some ph' => inflight ph' = false | None => True end.
Proof.
  intros Hc Ho Hf Hb.
  destruct ph as [r|r|r old| |a|a|a conn cc|a p|a p sid peer|a p sid|a p sid|s|s|r n d]; cbn [holder_step]; try done.
  - split; [|done]. cbn. set_solver.
  - destruct r; (split; [|done]); cbn; set_solver.
  - rewrite Hc. done.
  - destruct a; [done|]. unfold begin_attempt. rewrite Hc. done.
  - unfold cl_startControlLoop. rewrite Hc. done.
  - destruct o; rewrite ?Hc; done.
Qed.

(** The boot flag changes only on leaving the lock. *)
Lemma holder_boots c ph o :
  let c' := holder_step cp c ph o in is_Some (clPhase c') -> clBooted c' = true -> clBooted c = true.
Proof.
  assert (Ha : forall c0 a, is_Some (clPhase (attempt_failed c0 a)) -> clBooted (attempt_failed c0 a) = true ->
                 clBooted c0 = true).
  { intros c0 a. unfold attempt_failed. destruct a; cbn; [by intros [? ?]|]. case_match; cbn; [by intros [? ?]|done]. }
  destruct ph as [r|r|r old| |a|a|a conn cc|a p|a p sid peer|a p sid|a p sid|s|s|r n d]; cbn [holder_step]; try done.
  - destruct r; cbn; try done; by intros [? ?].
  - destruct (_ && _); cbn; [done|]. by intros [? ?].
  - unfold begin_attempt. destruct (_ && _); [cbn; by intros [? ?]|done].
  - unfold swap_conns. by destruct cp.
  - unfold make_pair, abandon. destruct o; destruct cc; cbn [cl_open]; try done; intros H1 H2; by apply Ha in H2.
  - destruct o; try done; intros H1 H2; by apply Ha in H2.
  - unfold confirmPeer. case_bool_decide; [done|]. destruct o; try done; intros H1 H2; by apply Ha in H2.
  - destruct o; try done; intros H1 H2; by apply Ha in H2.
  - unfold cl_startControlLoop. by intros [? ?].
  - destruct o, (clCanceled c); cbn; try done; by intros [? ?].
Qed.

Lemma holder_inv c ph o :
  client_inv c -> calm c (EvStep o) -> clPhase c = Some ph -> client_inv (holder_step cp c ph o).
Proof.
  intros [Hp Hs Hb Hst Hq Hso] Hcalm Hph. rewrite Hph in *.
  pose proof (holder_kept c ph o) as (Ksh & Kca & Kso & Ksc & Kbo).
  pose proof (holder_phase c ph o Hp Hcalm Hph Hst) as Hp'.
  pose proof (holder_next c ph o) as Hn. pose proof (holder_boots c ph o) as Hbo.
  cbv zeta in Hn, Hp', Hbo. set (c' := holder_step cp c ph o) in *. constructor.
  - done.
  - rewrite Ksh, Kca, Ksc. intros H. destruct (Hs H) as (Hc & Hbt & Hsc & Ho). split_and!; auto.
    by apply holder_shut; auto.
  - intros H. destruct (clPhase c') as [ph'|] eqn:E; [|done]. destruct Hn as [Hn _]. apply Hn, Hb, Hbo; [|done]. by eexists.
  - destruct (clPhase c') as [ph'|] eqn:E; [|done]. intros H1 H2. destruct Hn as [_ Hn].
    destruct (Hn H1 H2). rewrite Kca. auto.
  - rewrite Ksh. intros H. destruct (Hs H) as (Hc & Hbt & Hsc & Ho).
    pose proof (holder_shut c ph o Hc Ho (Hq H) (Hb Hbt)) as [_ Hsh]. exact Hsh.
  - by rewrite Kso, Ksc.
Qed.
End preservation.

(** ** Preservation by every event *)

Lemma phase_inv_sub l o o' ph : phase_inv l o ph -> o' ⊆ o -> phase_inv l o' ph.
Proof.
  intros H Hs. destruct ph as [ph|]; [destruct ph|]; cbn in *; try (by eapply within_sub);
    destruct H; split; try done; by eapply within_sub.
Qed.

Lemma phase_inv_empty l ph : lkPair l = None -> phase_inv l ∅ ph.
Proof. intros H. destruct ph as [ph|]; [destruct ph|]; cbn; auto with go. Qed.

Lemma pair_Close_nonempty p : pair_Close p <> [].
Proof. done. Qed.

(** [shutdown] closes whatever no attempt owns. *)
Lemma shutdown_closes c :
  client_inv c -> match clPhase c with Some ph => phase_res ph = [] | None => True end ->
  clOpen (shutdown c) = ∅.
Proof.
  intros Hi Hc. pose proof (ci_phase c Hi) as Hp. unfold shutdown.
  assert (Hs : clOpen c ∖ list_to_set (detached (clLink c)) = ∅).
  { destruct (clPhase c) as [ph|]; [|eapply within_closed; [exact Hp|apply installed_session]].
    assert (Hsr : forall r, r ∈ session_res (clLink c) -> r ∈ detached (clLink c)).
    { unfold session_res, detached. destruct (lkPair (clLink c)); set_solver. }
    destruct ph; cbn in Hp, Hc; try (eapply within_closed; [exact Hp|]; [apply installed_session || exact Hsr]);
      try (destruct Hp as [_ Hp]; rewrite ?Hc in Hp; apply within_nil in Hp; set_solver); done. }
  destruct (lkControlStrm (clLink c)), (lkPair (clLink c)) eqn:E; cbn; rewrite ?Hs; set_solver.
Qed.

Lemma upd_waiting_inv c ws fb loops : client_inv c -> client_inv (upd_waiting c ws fb loops).
Proof. intros [? ? ? ? ? ?]. by constructor. Qed.

Lemma client_step_inv cp c e c' :
  client_inv c -> calm c e -> client_step cp c e = Some c' -> client_inv c'.
Proof.
  intros Hi Hc Hstep. destruct e as [o|i| |loop| |s|d|conn|conn| |]; cbn in Hstep.
  - destruct (clPhase c) as [ph|] eqn:Hph; [|done]. inv_ok. by apply holder_inv.
  - destruct (clPhase c) eqn:Hph; [done|]. destruct (clWaiting c !! i) as [r|]; [|done]. inv_ok.
    destruct Hi as [Hp Hs Hb Hst Hq Hso]. rewrite Hph in *.
    constructor; cbn; try done; by destruct r.
  - destruct (clCanceled c); [done|]. inv_ok. by apply upd_waiting_inv.
  - destruct (_ && _ && _); [|done]. inv_ok. by apply upd_waiting_inv.
  - destruct (clFallback c); try done; [destruct (_ || _)|]; inv_ok; by apply upd_waiting_inv.
  - inv_ok. destruct Hi as [Hp Hs Hb Hst Hq Hso]. constructor; try done.
    + eapply phase_inv_sub; [exact Hp|]. cbn. set_solver.
    + cbn. intros H. destruct (Hs H) as (? & ? & ? & ->). split_and!; try done. set_solver.
  - inv_ok. unfold cl_onData. destruct Hi. by destruct (lkConn (clLink c)); constructor.
  - inv_ok. pose proof Hi as [Hp Hs Hb Hst Hq [Hn He]]. unfold registerSocksConn.
    destruct (clSocksClosed c) eqn:Ec; [exact Hi|]. case_if; [exact Hi|].
    constructor; try done; cbn. split; [|congruence]. unfold maxSocksConns in *.
    pose proof (size_union_alt ({[conn]} : gset nat) (clSocks c)) as Hz. rewrite size_singleton in Hz.
    pose proof (subseteq_size (clSocks c ∖ {[conn]}) (clSocks c) ltac:(set_solver)). lia.
  - inv_ok. destruct Hi as [Hp Hs Hb Hst Hq [Hn He]]. constructor; try done; cbn. split.
    + pose proof (subseteq_size (clSocks c ∖ {[conn]}) (clSocks c) ltac:(set_solver)). lia.
    + intros H. rewrite (He H). set_solver.
  - inv_ok. destruct Hi as [Hp Hs Hb Hst Hq Hso]. constructor; try done; cbn.
    + intros H. by destruct (Hs H) as (? & ? & ? & ?).
    + by destruct (clPhase c).
  - case_if; [|done]. inv_ok. destruct_and?. unfold calm in Hc.
    assert (Hcl : match clPhase c with Some ph => phase_res ph = [] | None => True end)
      by (destruct (clPhase c); [apply Hc|done]).
    pose proof (shutdown_closes c Hi Hcl) as He. destruct Hi as [Hp Hs Hb Hst Hq Hso].
    assert (Hf : clLink (shutdown c) = MkLink None None None None None None None (lkSessionID (clLink c)) /\
                 clPhase (shutdown c) = clPhase c /\ clCanceled (shutdown c) = clCanceled c /\
                 clBooted (shutdown c) = clBooted c /\ clSocksClosed (shutdown c) = true /\
                 clSocks (shutdown c) = ∅)
      by (unfold shutdown; destruct (lkControlStrm (clLink c)), (lkPair (clLink c)); done).
    destruct Hf as (Fl & Fp & Fc & Fb & Fsc & Fs).
    constructor; rewrite ?Fl, ?Fp, ?Fc, ?Fb, ?Fsc, ?Fs, ?He; try done.
    + by apply phase_inv_empty.
    + by destruct (clPhase c).
    + intros _. destruct (clPhase c); [apply Hc|done].
Qed.

(** Runs all of whose events are calm. *)
Fixpoint calm_run (cp : bool) (c : client) (es : list cl_event) : Prop :=
  match es with
  | [] => True
  | e :: es => calm c e /\ match client_step cp c e with Some c' => calm_run cp c' es | None => True end
  end.

Lemma client_run_inv cp c es c' :
  client_inv c -> calm_run cp c es -> client_run cp c es = Some c' -> client_inv c'.
Proof.
  revert c. induction es as [|e es IH]; intros c Hi; cbn; [by intros _ [= <-]|].
  intros [Hc Hr] Hrun. destruct (client_step cp c e) as [c1|] eqn:E; [|done].
  apply (IH c1); auto. by eapply client_step_inv.
Qed.

Lemma newClient_inv : client_inv newClient.
Proof. constructor; cbn; auto with go; try done. Qed.
