(* ===== verification/ClientProps.v ===== *)
(** * ClientProps: the guarantees of the client's session life cycle *)

From S2P Require Import Prelude Bytes Server Client ClientFacts.

(** ** The holder of the lock leaves it *)

(** Attempts are bounded and their delays grow up to the maximum. *)
Definition retry_ok (r : reason) (n d : Z) : Prop := r <> RLiveness /\ 1 <= n <= maxHandshakeAttempts r /\ 0 < d <= maxDelay.

Definition attempt_ok (a : attempt_of) : Prop :=
  match a with Boot => True | Retry r n d => retry_ok r n d end.

Definition phase_ok (ph : phase) : Prop :=
  match ph with
  | PConns a | POpen a | PSessions a _ _ | PHandshake a _ | PConfirm a _ _ _ | PWaitPeer a _ _ | PInstall a _ _ => attempt_ok a
  | PDelay r n d => retry_ok r n d /\ n < maxHandshakeAttempts r
  | _ => True
  end.

(** An upper bound on the steps to the end of the critical section. *)
Definition attempt_fuel (a : attempt_of) : Z :=
  match a with Boot => 0 | Retry r n _ => 10 * (maxHandshakeAttempts r - n) end.

Definition phase_fuel (ph : phase) : Z :=
  match ph with
  | PEnter _ => 52
  | PDetach _ => 51
  | PCloseOld _ _ => 50
  | PFallback => 30
  | PConns a => attempt_fuel a + 9
  | POpen a => attempt_fuel a + 8
  | PSessions a _ _ => attempt_fuel a + 7
  | PHandshake a _ => attempt_fuel a + 6
  | PConfirm a _ _ _ => attempt_fuel a + 5
  | PWaitPeer a _ _ => attempt_fuel a + 4
  | PInstall a _ _ => attempt_fuel a + 3
  | PSignal _ => 2
  | PStart _ => 1
  | PDelay r n _ => 10 * (maxHandshakeAttempts r - n)
  end.

Definition fuel_of (c : client) : Z := match clPhase c with Some ph => phase_fuel ph | None => 0 end.

Lemma nextDelay_of_range d : 0 < d <= maxDelay -> 0 < nextDelay_of d <= maxDelay.
Proof. unfold nextDelay_of, maxDelay. intros. case_if; [|lia]. rewrite i64_small by lia. case_if; lia. Qed.

Lemma phase_fuel_range ph : phase_ok ph -> 0 < phase_fuel ph <= 52.
Proof.
  assert (Ha : forall a, attempt_ok a -> 0 <= attempt_fuel a <= 40).
  { intros [|r n d]; cbn; [lia|]. intros (? & ? & ?). destruct r; cbn in *; try done; lia. }
  destruct ph as [r|r|r old| |a|a|a conn cc|a p|a p sid peer|a p sid|a p sid|s|s|r n d]; cbn; try lia;
    try (intros H; specialize (Ha a H); lia).
  intros [(? & ? & ?) ?]. destruct r; cbn in *; try done; lia.
Qed.

Section ends.
Context (cp : bool).

Lemma attempt_failed_progress c a :
  attempt_ok a ->
  match clPhase (attempt_failed c a) with
  | Some ph => phase_ok ph /\ phase_fuel ph <= attempt_fuel a
  | None => True
  end.
Proof.
  unfold attempt_failed. destruct a as [|r n d]; [done|]. intros (Hr & Hn & Hd).
  destruct ((0 <? maxHandshakeAttempts r) && (maxHandshakeAttempts r <=? n)) eqn:E; [done|].
  cbn [clPhase upd_phase phase_ok phase_fuel attempt_fuel]. split; [|lia]. split; [done|].
  apply andb_false_iff in E as [E|E]; bool_to_Prop; [|lia]. destruct r; cbn in *; lia || done.
Qed.

(** Every step of the holder gets closer to the end of its critical section. *)
Lemma holder_progress c ph o :
  phase_ok ph ->
  match clPhase (holder_step cp c ph o) with
  | Some ph' => phase_ok ph' /\ phase_fuel ph' < phase_fuel ph
  | None => True
  end.
Proof.
  intros Hok.
  assert (Hab : forall c' a p n, attempt_ok a -> attempt_fuel a < n ->
    match clPhase (abandon c' a p) with Some ph' => phase_ok ph' /\ phase_fuel ph' < n | None => True end).
  { intros c' a p n Ha Hn. pose proof (attempt_failed_progress (cl_close c' (pair_Close p)) a Ha) as H.
    unfold abandon. destruct (clPhase (attempt_failed _ a)); [|done]. destruct H. split; [done|lia]. }
  destruct ph as [r|r|r old| |a|a|a conn cc|a p|a p sid peer|a p sid|a p sid|s|s|r n d]; cbn [holder_step].
  - cbn. lia.
  - cbn. lia.
  - destruct r; cbn; unfold retry_ok, initialDelay, maxDelay; cbn; try lia; split_and!; done || lia.
  - destruct (_ && _); cbn; [|done]. unfold retry_ok, initialDelay, maxDelay. cbn. split_and!; done || lia.
  - unfold begin_attempt. destruct (_ && _); [done|]. cbn in *. split; [done|lia].
  - unfold swap_conns. destruct cp; cbn in *; (split; [done|lia]).
  - cbn [phase_ok phase_fuel] in *.
    assert (Hf : forall c', match clPhase (attempt_failed c' a) with
                   | Some ph' => phase_ok ph' /\ phase_fuel ph' < attempt_fuel a + 7 | None => True end).
    { intros c'. pose proof (attempt_failed_progress c' a Hok) as H.
      destruct (clPhase (attempt_failed c' a)); [|done]. destruct H. split; [done|lia]. }
    unfold make_pair, abandon. destruct o; destruct cc; cbn [cl_open]; try apply Hf; cbn; (split; [done|lia]).
  - destruct o; [apply Hab; [done|cbn; lia]..|]. cbn in *. split; [done|lia].
  - unfold confirmPeer. case_bool_decide; [cbn in *; split; [done|lia]|].
    destruct o; [apply Hab; [done|cbn; lia]..|]. cbn in *. split; [done|lia].
  - destruct o; [apply Hab; [done|cbn; lia]..|]. cbn in *. split; [done|lia].
  - cbn in *. destruct (phase_fuel_range (PInstall a p sid) Hok). cbn in *.
    assert (0 <= attempt_fuel a) by (destruct a as [|r n d]; cbn in *; [lia|unfold retry_ok in Hok; lia]). lia.
  - cbn. lia.
  - done.
  - destruct Hok as [(Hr & Hn & Hd) Hlt].
    assert (Hnext : retry_ok r (n + 1) (nextDelay_of d))
      by (split; [done|]; split; [lia|]; by apply nextDelay_of_range).
    destruct o, (clCanceled c); try done; (split; [exact Hnext|cbn; lia]).
Qed.

Lemma client_step_ok c e c' :
  match clPhase c with Some ph => phase_ok ph | None => True end -> client_step cp c e = Some c' ->
  match clPhase c' with Some ph => phase_ok ph | None => True end.
Proof.
  intros Hok Hs. destruct e as [o|i| |loop| |s|d|conn|conn| |]; cbn in Hs.
  - destruct (clPhase c) as [ph|]; [|done]. inv_ok. pose proof (holder_progress c ph o Hok).
    destruct (clPhase (holder_step cp c ph o)); [|done]. naive_solver.
  - destruct (clPhase c); [done|]. destruct (clWaiting c !! i) as [r|]; [|done]. inv_ok. by destruct r.
  - destruct (clCanceled c); [done|]. by inv_ok.
  - destruct (_ && _ && _); [|done]. by inv_ok.
  - destruct (clFallback c); try done; [destruct (_ || _)|]; by inv_ok.
  - by inv_ok.
  - inv_ok. unfold cl_onData. by destruct (lkConn (clLink c)).
  - inv_ok. unfold registerSocksConn. by repeat case_if.
  - by inv_ok.
  - by inv_ok.
  - destruct (_ && _ && _); [|done]. inv_ok. unfold shutdown.
    by destruct (lkControlStrm (clLink c)), (lkPair (clLink c)).
Qed.

Lemma client_run_ok es c c' :
  match clPhase c with Some ph => phase_ok ph | None => True end -> client_run cp c es = Some c' ->
  match clPhase c' with Some ph => phase_ok ph | None => True end.
Proof.
  revert c. induction es as [|e es IH]; intros c Hok; cbn; [by intros [= <-]|].
  destruct (client_step cp c e) as [c1|] eqn:E; [|done]. apply IH. by eapply client_step_ok.
Qed.

Lemma steps_release os c :
  match clPhase c with Some ph => phase_ok ph | None => True end -> fuel_of c <= Z.of_nat (length os) ->
  exists k c', (k <= length os)%nat /\ client_run cp c (EvStep <$> take k os) = Some c' /\ clPhase c' = None.
Proof.
  revert c. induction os as [|o os IH]; intros c Hok Hf; unfold fuel_of in Hf.
  - exists 0%nat, c. destruct (clPhase c) as [ph|] eqn:E; [|done].
    pose proof (phase_fuel_range ph Hok). cbn in Hf. lia.
  - destruct (clPhase c) as [ph|] eqn:E; [|exists 0%nat, c; cbn; split_and!; auto; lia].
    pose proof (holder_progress c ph o Hok) as Hp.
    destruct (IH (holder_step cp c ph o)) as (k & c' & Hk & Hrun & Hd).
    + destruct (clPhase (holder_step cp c ph o)); naive_solver.
    + unfold fuel_of. destruct (clPhase (holder_step cp c ph o)); cbn in Hf; [destruct Hp; lia|lia].
    + exists (S k), c'. cbn. rewrite E. split_and!; auto; lia.
Qed.
End ends.

(** C18: a reconnect always ends.  In every reachable state in which a goroutine
    holds the reconnect lock, it leaves the lock within 52 of its own steps,
    whatever the transport, smux and the handshake answer: the attempts are bounded by the
    reason for the reconnect, and the delays between them stay within 5
    seconds. *)
Theorem client_reconnect_ends (cp : bool) (es : list cl_event) (c : client) (ph : phase) (os : list oracle)
    (Hrun : client_run cp newClient es = Some c) (Hph : clPhase c = Some ph) (Hos : 52 <= len os) :
  (exists k c', (k <= 52)%nat /\ client_run cp c (EvStep <$> take k os) = Some c' /\ clPhase c' = None) /\
  match ph with PDelay r attempt delay => 1 <= attempt < 5 /\ 0 < delay <= 5000000000 | _ => True end.
Proof.
  pose proof (client_run_ok cp es newClient c I Hrun) as Hok. rewrite Hph in Hok.
  pose proof (phase_fuel_range ph Hok) as Hf. split.
  - destruct (steps_release cp (take 52 os) c) as (k & c' & Hk & Hr & Hd).
    + by rewrite Hph.
    + unfold fuel_of. rewrite Hph, length_take. lia.
    + rewrite length_take in Hk. rewrite take_take in Hr. exists k, c'. split_and!; try done; [lia|].
      rewrite <- Hr. do 3 f_equal. lia.
  - destruct ph; try done. destruct Hok as [(Hr & Hn & Hd) Hlt]. unfold maxDelay in Hd.
    destruct r; cbn in *; done || lia.
Qed.

(** A run: the link comes up, the control loop dies, a rebuild fails twice. *)
Definition sample_boot : list cl_event :=
  [EvStep OFail; EvStep OFail; EvStep (OOk "" ""); EvStep (OOk "s1" "p1"); EvStep (OOk "" ""); EvStep (OOk "" "");
   EvStep OFail; EvStep OFail; EvStep OFail].

Lemma client_reconnect_ends_witness :
  exists c, client_run true newClient (sample_boot ++ [EvProvider; EvAcquire 0]) = Some c /\
    exists k c', (k <= 52)%nat /\
      client_run true c (EvStep <$> take k (repeat OFail 52)) = Some c' /\ clPhase c' = None.
Proof.
  eexists. split; [vm_compute; reflexivity|].
  eapply (client_reconnect_ends true (sample_boot ++ [EvProvider; EvAcquire 0]) _ _ (repeat OFail 52));
    [vm_compute; reflexivity|reflexivity|rewrite repeat_length; lia].
Defined.

(** ** Ownership *)

Lemma within_size o l : within o l -> (size o <= length l)%nat.
Proof.
  intros H. etrans; [apply (subseteq_size o (list_to_set l))|].
  - intros r Hr. apply elem_of_list_to_set. auto.
  - clear. induction l as [|a l IH]; cbn; [rewrite size_empty; lia|].
    rewrite size_union_alt, size_singleton.
    pose proof (subseteq_size (list_to_set l ∖ {[a]} : gset nat) (list_to_set l) ltac:(set_solver)). lia.
Qed.

(** C17: the client keeps one session and leaks nothing.  Whatever the order of
    provider reconnects, liveness failures, fallback timers, failed handshakes and
    incoming connections: when no reconnect is in progress, every connection, smux session
    and control loop that is still open belongs to the installed session, so there are
    at most five; at most 512 SOCKS connections are registered; and after
    [shutdown] everything is closed and stays closed.  The run must be calm:
    [shutdown] does not run while an attempt is under way, from its look at the
    context until it has installed its session or failed, nor between detaching the
    old session and closing it, and the fallback does not find a dead session
    installed.  The code does not rule the first out, and then connections are opened
    after [shutdown] (see [shutdown_before_open_leaks], [shutdown_during_reopen_leaks]). *)
Theorem client_sessions_never_leak (cp : bool) (es : list cl_event) (c : client)
    (Hrun : client_run cp newClient es = Some c) (Hcalm : calm_run cp newClient es) :
  (clPhase c = None ->
     (forall r, r ∈ clOpen c -> exists p, lkPair (clLink c) = Some p /\
        (lkControlStop (clLink c) = Some r \/ r ∈ pair_Close p)) /\ (size (clOpen c) <= 5)%nat) /\
  (size (clSocks c) <= 512)%nat /\
  (clShut c = true -> clOpen c = ∅ /\ clSocks c = ∅).
Proof.
  pose proof (client_run_inv cp newClient es c newClient_inv Hcalm Hrun) as [Hp Hs Hb Hst Hq [Hn He]].
  unfold maxSocksConns in Hn. split; [|split; [lia|]].
  - intros Hph. rewrite Hph in Hp. cbn in Hp. split.
    + intros r Hr. apply Hp in Hr. unfold installed_res in Hr.
      destruct (lkPair (clLink c)) as [p|]; [|by apply not_elem_of_nil in Hr]. exists p. split; [done|].
      destruct (lkControlStop (clLink c)); set_solver.
    + etrans; [by apply within_size|]. unfold installed_res.
      destruct (lkPair (clLink c)) as [[dc ds cc cs]|]; [|cbn; lia].
      destruct (lkControlStop (clLink c)), cc; unfold pair_Close; cbn; case_bool_decide; cbn; lia.
  - intros H. destruct (Hs H) as (_ & _ & Hc & Ho). auto.
Qed.

Lemma client_sessions_never_leak_witness :
  exists c, client_run true newClient
      (sample_boot ++ [EvAccept 7; EvProvider; EvAcquire 0] ++ (EvStep <$> repeat (OOk "s2" "p1") 12) ++
       [EvCancel; EvShutdown]) = Some c /\ clShut c = true /\ clOpen c = ∅ /\ clSocks c = ∅.
Proof.
  set (es := sample_boot ++ _). eexists. split; [vm_compute; reflexivity|]. split; [reflexivity|].
  apply (client_sessions_never_leak true es); [vm_compute; reflexivity| |reflexivity].
  vm_compute. repeat split.
Defined.

(** ** Waiters are woken *)

(** Numbers of sessions that exist are below the next free one. *)
Definition numbered (c : client) : Prop :=
  (forall s, lkSession (clLink c) = Some s -> (s < clNext c)%nat) /\
  match clPhase c with
  | Some (PHandshake _ p | PConfirm _ p _ _ | PWaitPeer _ p _ | PInstall _ p _) => (prDataSession p < clNext c)%nat
  | _ => True
  end.

(** The waiter that took generation [g] is woken, or nothing has to wake it yet. *)
Definition waits (g : nat) (c : client) : Prop :=
  (g < clReady c)%nat \/ sessionEstablished c = false \/ (exists s, clPhase c = Some (PSignal s)).

(** A step that does not install: the session and its id stay or go, and only fresh
    numbers are opened. *)
Definition uninstalled (c c' : client) : Prop :=
  (clLink c' = no_link \/ lkSession (clLink c') = None \/
   lkSession (clLink c') = lkSession (clLink c) /\ lkSessionID (clLink c') = lkSessionID (clLink c)) /\
  (forall r, r ∈ clOpen c' -> r ∈ clOpen c \/ (clNext c <= r)%nat) /\ (clNext c <= clNext c')%nat /\
  clReady c' = clReady c.

Lemma uninstalled_refl c : uninstalled c c.
Proof. unfold uninstalled. split_and!; auto. Qed.

Lemma uninstalled_trans c c' c'' : uninstalled c c' -> uninstalled c' c'' -> uninstalled c c''.
Proof.
  intros (Hl & Ho & Hn & Hr) (Hl' & Ho' & Hn' & Hr'). split_and!; try lia; try congruence.
  - destruct Hl' as [?|[?|[Hs Hi]]]; auto. destruct Hl as [Hl|[Hl|[? ?]]].
    + right; left. rewrite Hs, Hl. done.
    + right; left. congruence.
    + right; right. split; congruence.
  - intros r Hr''. destruct (Ho' r Hr'') as [H|H]; [|right; lia]. auto.
Qed.

Lemma uninstalled_established c c' :
  (forall s, lkSession (clLink c) = Some s -> (s < clNext c)%nat) -> uninstalled c c' ->
  sessionEstablished c' = true -> sessionEstablished c = true.
Proof.
  intros Hnum (Hl & Ho & _ & _). unfold sessionEstablished.
  destruct Hl as [->|[->|[-> ->]]]; [done..|].
  destruct (lkSession (clLink c)) as [s|]; [|done]. intros H. apply andb_true_iff in H as [H1 H2].
  apply andb_true_iff. split; [|done]. bool_to_Prop. apply bool_decide_eq_true.
  destruct (Ho s H1); [done|]. specialize (Hnum s eq_refl). lia.
Qed.

Ltac solve_uninstalled := unfold uninstalled; cbn; split_and!; auto; try lia; set_solver by lia.

Lemma attempt_failed_uninstalled c c' a : uninstalled c c' -> uninstalled c (attempt_failed c' a).
Proof.
  intros H. eapply uninstalled_trans; [exact H|]. unfold attempt_failed. destruct a; [solve_uninstalled|].
  case_match; solve_uninstalled.
Qed.

Lemma abandon_uninstalled c c' a p : uninstalled c c' -> uninstalled c (abandon c' a p).
Proof.
  intros H. apply attempt_failed_uninstalled. eapply uninstalled_trans; [exact H|].
  solve_uninstalled.
Qed.

Section wakeup.
Context (cp : bool).

Lemma make_pair_uninstalled c a conn cc o : uninstalled c (make_pair c a conn cc o).
Proof.
  unfold make_pair. destruct o; destruct cc; cbn [cl_open];
    try apply attempt_failed_uninstalled; try apply abandon_uninstalled; solve_uninstalled.
Qed.

Lemma holder_uninstalled c ph o :
  (forall a p sid, ph <> PInstall a p sid) -> (forall s, ph <> PSignal s) ->
  uninstalled c (holder_step cp c ph o).
Proof.
  intros Hni Hns.
  destruct ph as [r|r|r old| |a|a|a conn cc|a p|a p sid peer|a p sid|a p sid|s|s|r n d]; cbn [holder_step].
  - solve_uninstalled.
  - solve_uninstalled.
  - destruct r; solve_uninstalled.
  - destruct (_ && _); solve_uninstalled.
  - unfold begin_attempt. destruct (_ && _); solve_uninstalled.
  - unfold swap_conns. destruct cp; solve_uninstalled.
  - apply make_pair_uninstalled.
  - destruct o; [apply abandon_uninstalled, uninstalled_refl..|solve_uninstalled].
  - unfold confirmPeer. case_bool_decide; [solve_uninstalled|].
    destruct o; [apply abandon_uninstalled, uninstalled_refl..|solve_uninstalled].
  - destruct o; [apply abandon_uninstalled, uninstalled_refl..|solve_uninstalled].
  - by destruct (Hni a p sid).
  - by destruct (Hns s).
  - unfold cl_startControlLoop. destruct (clCanceled c); solve_uninstalled.
  - destruct o, (clCanceled c); solve_uninstalled.
Qed.

Lemma uninstalled_numbered c c' :
  (forall s, lkSession (clLink c) = Some s -> (s < clNext c)%nat) -> uninstalled c c' ->
  forall s, lkSession (clLink c') = Some s -> (s < clNext c')%nat.
Proof.
  intros Hn (Hl & _ & Hle & _) s. destruct Hl as [->|[->|[-> _]]]; [done..|]. intros H. apply Hn in H. lia.
Qed.

Lemma holder_numbered c ph o : numbered c -> clPhase c = Some ph -> numbered (holder_step cp c ph o).
Proof.
  intros [Hn Hp] Hph. rewrite Hph in Hp.
  assert (Hf : forall c0 a m, match clPhase (attempt_failed c0 a) with
            | Some (PHandshake _ p | PConfirm _ p _ _ | PWaitPeer _ p _ | PInstall _ p _) =>
                (prDataSession p < m)%nat
            | _ => True end).
  { intros c0 a m. unfold attempt_failed. destruct a as [|r n d]; [done|].
    by destruct ((0 <? maxHandshakeAttempts r) && (maxHandshakeAttempts r <=? n)). }
  destruct ph as [r|r|r old| |a|a|a conn cc|a p|a p sid peer|a p sid|a p sid|s|s|r n d];
    try (split; [eapply uninstalled_numbered; [exact Hn|]; by apply holder_uninstalled|]); cbn [holder_step].
  - done.
  - done.
  - by destruct r.
  - by destruct (_ && _).
  - unfold begin_attempt. by destruct (_ && _).
  - unfold swap_conns. by destruct cp.
  - unfold make_pair. destruct o; [apply Hf|destruct cc; cbn [cl_open]; [apply Hf|cbn; lia]|
      destruct cc; cbn; lia].
  - destruct o; [apply Hf..|exact Hp].
  - unfold confirmPeer. case_bool_decide; [exact Hp|]. destruct o; [apply Hf..|exact Hp].
  - destruct o; [apply Hf..|exact Hp].
  - split; [|done]. cbn. intros s [= <-]. exact Hp.
  - by split.
  - unfold cl_startControlLoop. by destruct (clCanceled c).
  - by destruct o, (clCanceled c).
Qed.

Lemma holder_waits g c ph o :
  numbered c -> clPhase c = Some ph -> (g <= clReady c)%nat -> waits g c ->
  (g <= clReady (holder_step cp c ph o))%nat /\ waits g (holder_step cp c ph o).
Proof.
  intros [Hn Hp] Hph Hg Hw.
  assert (Hu : uninstalled c (holder_step cp c ph o) -> (forall s, ph <> PSignal s) ->
               (g <= clReady (holder_step cp c ph o))%nat /\ waits g (holder_step cp c ph o)).
  { intros Hu Hns. pose proof Hu as (_ & _ & _ & Hr). split; [lia|].
    destruct Hw as [Hw|[Hw|[s Hs]]]; [left; lia| |naive_solver].
    right; left. apply not_true_iff_false. intros He.
    apply (uninstalled_established c) in He; [congruence|done..]. }
  destruct ph; try (apply Hu; [by apply holder_uninstalled|done]); cbn [holder_step].
  - split; [done|]. right; right. by eexists.
  - split; [cbn; lia|]. left. cbn. lia.
Qed.

Lemma client_step_waits g c e c' :
  numbered c -> (g <= clReady c)%nat -> waits g c -> client_step cp c e = Some c' ->
  numbered c' /\ (g <= clReady c')%nat /\ waits g c'.
Proof.
  intros Hn Hg Hw Hs.
  (* an event outside the lock keeps the phase and installs nothing *)
  assert (Hout : forall c1, uninstalled c c1 -> clPhase c1 = clPhase c ->
                   numbered c1 /\ (g <= clReady c1)%nat /\ waits g c1).
  { intros c1 Hu Hph. pose proof Hu as (_ & _ & Hnx & Hr). destruct Hn as [Hns Hnp]. split_and!; [|lia|].
    - split; [by eapply uninstalled_numbered|]. rewrite Hph. destruct (clPhase c) as [[]|]; done || lia.
    - unfold waits. rewrite Hph, Hr. destruct Hw as [Hw|[Hw|Hw]]; auto. right; left.
      apply not_true_iff_false. intros He. apply (uninstalled_established c) in He; [congruence|done..]. }
  destruct e as [o|i| |loop| |s|d|conn|conn| |]; cbn in Hs.
  - destruct (clPhase c) as [ph|] eqn:Hph; [|done]. inv_ok. split; [by apply holder_numbered|].
    by apply holder_waits.
  - destruct (clPhase c) eqn:Hph; [done|]. destruct (clWaiting c !! i) as [r|]; [|done]. inv_ok.
    destruct Hn as [Hns _]. split; [split; [exact Hns|by destruct r]|]. split; [done|].
    destruct Hw as [Hw|[Hw|[s Hw]]]; [by left|by right; left|congruence].
  - destruct (clCanceled c); [done|]. inv_ok. apply Hout; [solve_uninstalled|done].
  - destruct (_ && _ && _); [|done]. inv_ok. apply Hout; [solve_uninstalled|done].
  - destruct (clFallback c); try done; [destruct (_ || _)|]; inv_ok; (apply Hout; [solve_uninstalled|done]).
  - inv_ok. apply Hout; [solve_uninstalled|done].
  - inv_ok. unfold cl_onData. destruct (lkConn (clLink c)); (apply Hout; [solve_uninstalled|done]).
  - inv_ok. unfold registerSocksConn. repeat case_if; (apply Hout; [solve_uninstalled|done]).
  - inv_ok. apply Hout; [solve_uninstalled|done].
  - inv_ok. apply Hout; [solve_uninstalled|done].
  - destruct (_ && _ && _); [|done]. inv_ok. unfold shutdown.
    destruct (lkControlStrm (clLink c)), (lkPair (clLink c)); (apply Hout; [solve_uninstalled|done]).
Qed.

Lemma client_run_waits g es c c' :
  numbered c -> (g <= clReady c)%nat -> waits g c -> client_run cp c es = Some c' ->
  numbered c' /\ (g <= clReady c')%nat /\ waits g c'.
Proof.
  revert c. induction es as [|e es IH]; intros c Hn Hg Hw; cbn; [by intros [= <-]|].
  destruct (client_step cp c e) as [c1|] eqn:E; [|done].
  destruct (client_step_waits g c e c1) as (? & ? & ?); [done..|]. by apply IH.
Qed.
End wakeup.

(** C19: no waiting request misses a session.  A SOCKS handler takes a snapshot that
    shows no usable session, together with the ready channel.  Whatever happens then, once
    a session is established and announced, that channel is closed, so the
    handler wakes up. *)
Theorem client_waiters_are_woken (cp : bool) (es1 es2 : list cl_event) (c1 c2 : client)
    (Hrun1 : client_run cp newClient es1 = Some c1) (Hsnap : sessionEstablished c1 = false)
    (Hrun2 : client_run cp c1 es2 = Some c2) (Hest : sessionEstablished c2 = true)
    (Hann : match clPhase c2 with Some (PSignal _) => False | _ => True end) :
  ready_closed c2 (sessionSnapshot c1).2 = true.
Proof.
  assert (Hn0 : numbered newClient) by (split; [done|exact I]).
  destruct (client_run_waits cp 0 es1 newClient c1) as (Hn1 & _ & _); [done|lia|by right; left|done|].
  destruct (client_run_waits cp (clReady c1) es2 c1 c2) as (_ & _ & Hw); [done|lia|by right; left|done|].
  unfold ready_closed. cbn. apply bool_decide_eq_true.
  destruct Hw as [Hw|[Hw|[s Hw]]]; [done|congruence|]. by rewrite Hw in Hann.
Qed.

Lemma client_waiters_are_woken_witness :
  exists c1 c2, client_run true newClient (sample_boot ++ [EvSessionDies 2]) = Some c1 /\
    client_run true c1 ([EvProvider; EvAcquire 0] ++ (EvStep <$> repeat (OOk "s2" "p1") 12)) = Some c2 /\
    sessionEstablished c1 = false /\ sessionEstablished c2 = true /\ ready_closed c2 (sessionSnapshot c1).2 = true.
Proof.
  eexists _, _. split; [vm_compute; reflexivity|]. split; [vm_compute; reflexivity|].
  split; [reflexivity|]. split; [vm_compute; reflexivity|].
  eapply (client_waiters_are_woken true (sample_boot ++ [EvSessionDies 2])
            ([EvProvider; EvAcquire 0] ++ (EvStep <$> repeat (OOk "s2" "p1") 12)));
    [vm_compute; reflexivity|reflexivity|vm_compute; reflexivity|vm_compute; reflexivity|exact I].
Defined.

(** ** Defects *)

(** A late death notice kills the session that replaced the dead one.  When a control loop reports
    its death while a provider reconnect already holds the lock, its request
    waits; [handleReconnect] does not ask whose death it was.  In any state with an
    established session and such a request waiting for the free lock, serving the request closes
    the data session that is alive and asks the provider for another
    reconnect. *)
Theorem late_death_kills_fresh_session (cp : bool) (c : client) (i session : nat)
    (Hfree : clPhase c = None) (Hwait : clWaiting c !! i = Some RLiveness)
    (Hpair : exists p, lkPair (clLink c) = Some p /\ prDataSession p = session)
    (Hsess : lkSession (clLink c) = Some session) (Hest : sessionEstablished c = true) :
  session ∈ clOpen c /\
  exists c', client_run cp c [EvAcquire i; EvStep OFail; EvStep OFail; EvStep OFail] = Some c' /\
    session ∉ clOpen c' /\ sessionEstablished c' = false /\ clLink c' = no_link /\
    clLog c' = clLog c ++ [CResetPeer; CReconnect].
Proof.
  destruct Hpair as (p & Hpair & Hds). split.
  { unfold sessionEstablished in Hest. rewrite Hsess in Hest. by bool_to_Prop. }
  cbn [client_run client_step]. rewrite Hfree, Hwait. eexists. split; [reflexivity|]. cbn.
  unfold detached. rewrite Hpair. cbn. split_and!; try done.
  - destruct (lkControlStop (clLink c)); set_solver.
  - by rewrite <- app_assoc.
Qed.

Lemma late_death_kills_fresh_session_witness :
  exists c session, client_run true newClient
      (sample_boot ++ [EvDeath 4; EvProvider; EvAcquire 1] ++ (EvStep <$> repeat (OOk "s2" "p1") 12)) = Some c /\
    lkSessionID (clLink c) = "s2"%string /\ session ∈ clOpen c /\
    exists c', client_run true c [EvAcquire 0; EvStep OFail; EvStep OFail; EvStep OFail] = Some c' /\
      session ∉ clOpen c'.
Proof.
  eexists _, 7%nat. split; [vm_compute; reflexivity|]. split; [reflexivity|].
  match goal with |- 7%nat ∈ clOpen ?c /\ _ =>
    destruct (late_death_kills_fresh_session true c 0 7) as (Hin & c' & Hrun & Hout & _);
      [reflexivity|reflexivity|eexists; split; reflexivity|reflexivity|vm_compute; reflexivity|] end.
  split; [exact Hin|]. exists c'. split; [exact Hrun|exact Hout].
Defined.

(** A shutdown that overlaps an attempt leaks its session.  [shutdown] does not
    take the reconnect lock; if the handshake of an attempt has just succeeded,
    the attempt installs its pair after [shutdown] has cleared the fields, and
    the client does not close it any more: the lock is free, nobody waits, and
    both smux sessions of the pair are open although the client has ended. *)
Theorem shutdown_during_reopen_leaks :
  exists c, client_run true newClient
      (sample_boot ++ [EvProvider; EvAcquire 0] ++ (EvStep <$> repeat (OOk "s2" "p1") 9) ++
       [EvCancel; EvShutdown] ++ (EvStep <$> repeat (OOk "" "") 3)) = Some c /\
    clShut c = true /\ clPhase c = None /\ clWaiting c = [] /\ clFallback c = FbNone /\
    (exists p, lkPair (clLink c) = Some p /\ prDataSession p ∈ clOpen c /\ prControlSession p ∈ clOpen c) /\
    client_step true c EvShutdown = None.
Proof.
  eexists. split; [vm_compute; reflexivity|]. split_and!; try (vm_compute; reflexivity).
  eexists. split; [reflexivity|]. split; apply (bool_decide_eq_true_1 _); vm_compute; reflexivity.
Qed.

(** The same when the attempt has only looked at the context.  Between
    [ctx.Err()] in [retryHandshake] and the new connections of [tryReopenSession] the
    context is cancelled and [shutdown] closes everything; the attempt goes on, opens
    its connections and smux sessions, and when its handshake still succeeds they stay
    open. *)
Theorem shutdown_before_open_leaks :
  exists c c', client_run true newClient
      (sample_boot ++ [EvProvider; EvAcquire 0] ++ (EvStep <$> repeat (OOk "s2" "p1") 4) ++
       [EvCancel; EvShutdown]) = Some c /\
    clShut c = true /\ clOpen c = ∅ /\
    client_run true c (EvStep <$> repeat (OOk "s2" "p1") 8) = Some c' /\
    clPhase c' = None /\ clWaiting c' = [] /\ size (clOpen c') = 4%nat.
Proof. eexists _, _. split; [vm_compute; reflexivity|]. split_and!; vm_compute; reflexivity. Qed.

(** A fallback that is just ending suppresses the next one.  [fallbackPending] is
    cleared after the lock is released: a liveness failure handled in between
    finds it set and schedules no fallback.  The client is left without a session,
    with nobody waiting and no timer, until the provider calls back. *)
Theorem ending_fallback_suppresses_next :
  exists c, client_run false newClient
      (sample_boot ++ [EvDeath 2; EvAcquire 0; EvStep OFail; EvStep OFail; EvStep OFail; EvFallback; EvAcquire 0] ++
       (EvStep <$> repeat (OOk "s2" "p1") 10) ++
       [EvDeath 5; EvAcquire 0; EvStep OFail; EvStep OFail; EvStep OFail; EvFallback]) = Some c /\
    sessionEstablished c = false /\ lkSession (clLink c) = None /\ clPhase c = None /\ clWaiting c = [] /\
    clFallback c = FbNone /\ clCanceled c = false.
Proof. eexists. split; [vm_compute; reflexivity|]. split_and!; reflexivity. Qed.
