(* ===== verification/JitsiBridge.v ===== *)
(** * JitsiBridge: frames and epochs of the jitsi engine
    (internal/engine/jitsi: epoch.go, bridge.go, the epoch part of jitsi.go and
    reconnect.go)

    Every endpoint of a conference draws a random epoch when it joins and again
    on every reconnect; frames carry the epoch of their sender and the epoch they
    are meant for, zero for anybody.  The XMPP session (library j) is a number; a
    received message is its sender and the payload that base64 and JSON held.
    [onPeerData] says whether the session was opened with a per-peer callback.  Each
    atomic variable is read and written by single steps in the code; an operation
    here is one step, since [recvMu] admits one receive loop and the epochs are
    changed by one reconnect at a time. *)

From S2P Require Import Prelude Bytes Text.

(* go: engine/jitsi/bridge.go 16-17 bridgeMaxMessageSize *)
Definition bridgeMaxMessageSize : Z := 16 * 1024.
(* go: engine/jitsi/bridge.go 28-28 bridgeMagic *)
Definition bridgeMagic : bytes := [79; 76; 82; 49].
(* go: engine/jitsi/epoch.go 37-37 epochHeaderLen *)
Definition epochHeaderLen : Z := 8.
(* go: engine/jitsi/epoch.go 99-104 maxPeerEpochs *)
Definition maxPeerEpochs : Z := 256.
(* go: engine/shared.go 7-9 DefaultSendQueueSize *)
Definition DefaultSendQueueSize : Z := 5000.

Inductive bridge_error :=
| ErrSessionClosed
| ErrBridgeNotReady
| ErrSendTooLarge
| ErrSendQueueFull
| ErrBridgePeerID.

(** What the callbacks and the bridge see. *)
Inductive bridge_call :=
| BData (data : bytes)
| BPeerData (from : string) (data : bytes)
| BSent (to : string) (frame : bytes)
| BReconnect.

(* go: engine/jitsi/jitsi.go 53-101 Session *)
Record bridge := MkBridge {
  bgPeerData : bool;
  bgTargeted : bool;
  bgLocal : Z;
  bgPeer : Z;
  bgPeers : gmap string Z;
  bgEndpoint : option string;
  bgReady : bool;
  bgGen : Z;
  bgClosed : bool;
  bgSession : option nat;
  bgSendQ : list bytes;
  bgPeerQ : list (string * bytes);
  bgLog : list bridge_call;
}.

(** [rand.Read] filled the four bytes, or failed and the fallback counter is
    used. *)
(* go: engine/jitsi/epoch.go 20-34 randomEpoch *)
Definition jitsi_randomEpoch (rnd : option bytes) (fallback : Z) : Z * Z :=
  match rnd with
  | None =>
      let v := u32 (fallback + 1) in
      if v =? 0 then let v := u32 (v + 1) in (v, v) else (v, v)
  | Some b => let v := be_get b in (if v =? 0 then 1 else v, fallback)
  end.

(* go: engine/jitsi/jitsi.go 104-160 New *)
Definition newBridge (peerData targeted : bool) (epoch : Z) : bridge :=
  MkBridge peerData targeted epoch 0 ∅ None false 0 false None [] [] [].

Definition upd_epochs (b : bridge) (peer : Z) (peers : gmap string Z) : bridge :=
  MkBridge (bgPeerData b) (bgTargeted b) (bgLocal b) peer peers (bgEndpoint b) (bgReady b) (bgGen b)
    (bgClosed b) (bgSession b) (bgSendQ b) (bgPeerQ b) (bgLog b).
Definition upd_endpoint (b : bridge) (e : option string) : bridge :=
  MkBridge (bgPeerData b) (bgTargeted b) (bgLocal b) (bgPeer b) (bgPeers b) e (bgReady b) (bgGen b)
    (bgClosed b) (bgSession b) (bgSendQ b) (bgPeerQ b) (bgLog b).
Definition upd_queues (b : bridge) (q : list bytes) (pq : list (string * bytes)) : bridge :=
  MkBridge (bgPeerData b) (bgTargeted b) (bgLocal b) (bgPeer b) (bgPeers b) (bgEndpoint b) (bgReady b)
    (bgGen b) (bgClosed b) (bgSession b) q pq (bgLog b).
Definition bridge_say (b : bridge) (c : bridge_call) : bridge :=
  MkBridge (bgPeerData b) (bgTargeted b) (bgLocal b) (bgPeer b) (bgPeers b) (bgEndpoint b) (bgReady b)
    (bgGen b) (bgClosed b) (bgSession b) (bgSendQ b) (bgPeerQ b) (bgLog b ++ [c]).

(** ** Sending *)

(* go: engine/jitsi/epoch.go 50-57 peerEpochFor *)
Definition peerEpochFor (b : bridge) (peerID : string) : Z :=
  if bool_decide (peerID = "") || negb (bgPeerData b) then bgPeer b
  else default 0 (bgPeers b !! peerID).

(** The layout of a frame. *)
Definition bridge_frame (sender receiver : Z) (data : bytes) : bytes :=
  bridgeMagic ++ be_put 4 sender ++ be_put 4 receiver ++ data.

(* go: engine/jitsi/epoch.go 36-48 encodeBridgeFrame *)
Definition encodeBridgeFrame (b : bridge) (data : bytes) (peerID : string) : outcome bridge_error bytes :=
  if bridgeMaxMessageSize <? len data + len bridgeMagic + epochHeaderLen then Err ErrSendTooLarge
  else Ok (bridge_frame (bgLocal b) (peerEpochFor b peerID) data).

(* go: engine/jitsi/bridge.go 97-115 enqueueBridgeFrame *)
Definition enqueueBridgeFrame {A} (b : bridge) (queue : list A) (framed : bytes) (value : A)
  : outcome bridge_error (list A) :=
  if bgClosed b then Err ErrSessionClosed
  else if negb (bgReady b) then Err ErrBridgeNotReady
  else if bridgeMaxMessageSize <? len framed then Err ErrSendTooLarge
  else if len queue <? DefaultSendQueueSize then Ok (queue ++ [value])
  else Err ErrSendQueueFull.

(* go: engine/jitsi/bridge.go 63-76 Send *)
Definition bridge_Send (b : bridge) (data : bytes) : bridge * outcome bridge_error unit :=
  if bgClosed b then (b, Err ErrSessionClosed)
  else if negb (bgReady b) then (b, Err ErrBridgeNotReady)
  else
    match encodeBridgeFrame b data "" with
    | Ok framed =>
        match enqueueBridgeFrame b (bgSendQ b) framed framed with
        | Ok q => (upd_queues b q (bgPeerQ b), Ok tt)
        | Err e => (b, Err e)
        | Panic => (b, Panic)
        end
    | Err e => (b, Err e)
    | Panic => (b, Panic)
    end.

(* go: engine/jitsi/bridge.go 78-95 SendTo *)
Definition bridge_SendTo (b : bridge) (peerID : string) (data : bytes) : bridge * outcome bridge_error unit :=
  if bool_decide (peerID = "") then bridge_Send b data
  else if bgClosed b then (b, Err ErrSessionClosed)
  else if negb (bgReady b) then (b, Err ErrBridgeNotReady)
  else
    match encodeBridgeFrame b data peerID with
    | Ok framed =>
        match enqueueBridgeFrame b (bgPeerQ b) framed (peerID, framed) with
        | Ok q => (upd_queues b (bgSendQ b) q, Ok tt)
        | Err e => (b, Err e)
        | Panic => (b, Panic)
        end
    | Err e => (b, Err e)
    | Panic => (b, Panic)
    end.

(* go: engine/jitsi/epoch.go 59-66 outboundFrameCurrent *)
Definition outboundFrameCurrent (b : bridge) (frame : bytes) : bool :=
  if len frame <? len bridgeMagic + epochHeaderLen then false
  else be_get (take 4 (drop 4 frame)) =? bgLocal b.

(** The epoch may change while [waitJSession] waits; [b'] is the state after
    the wait. *)
(* go: engine/jitsi/bridge.go 136-153 sendBridgeFrame *)
Definition sendBridgeFrame (b b' : bridge) (to : string) (data : bytes) : bridge :=
  if negb (outboundFrameCurrent b data) then b'
  else
    match bgSession b' with
    | None => b'
    | Some _ => if negb (outboundFrameCurrent b' data) then b' else bridge_say b' (BSent to data)
    end.

(** ** Receiving *)

(* go: engine/jitsi/epoch.go 68-72 epochFrame *)
Record epochFrame := MkEpochFrame { efSender : Z; efReceiver : Z; efBody : bytes }.

(* go: engine/jitsi/epoch.go 74-97 parseEpochFrame *)
Definition parseEpochFrame (b : bridge) (payload : bytes) : option epochFrame :=
  if len payload <? len bridgeMagic + epochHeaderLen then None
  else
    let local := bgLocal b in
    let frame := MkEpochFrame (be_get (take 4 (drop 4 payload))) (be_get (take 4 (drop 8 payload)))
                   (drop 12 payload) in
    if (efSender frame =? 0) || (efSender frame =? local) then None
    else if negb (efReceiver frame =? 0) && negb (efReceiver frame =? local) then None
    else Some frame.

(* go: engine/jitsi/epoch.go 106-124 acceptPeerEpochFrame *)
Definition acceptPeerEpochFrame (b : bridge) (from : string) (payload : bytes) : bridge * option bytes :=
  match parseEpochFrame b payload with
  | None => (b, None)
  | Some frame =>
      let b :=
        match bgPeers b !! from with
        | Some prev =>
            if negb (prev =? efSender frame)
            then upd_epochs b (bgPeer b) (<[from := efSender frame]> (bgPeers b)) else b
        | None =>
            if Z.of_nat (size (bgPeers b)) <? maxPeerEpochs
            then upd_epochs b (bgPeer b) (<[from := efSender frame]> (bgPeers b)) else b
        end in
      (b, Some (efBody frame))
  end.

(* go: engine/jitsi/epoch.go 126-163 acceptEpochFrame *)
Definition acceptEpochFrame (b : bridge) (payload : bytes) : bridge * option bytes :=
  match parseEpochFrame b payload with
  | None => (b, None)
  | Some frame =>
      if bgTargeted b && negb (bgPeerData b) then
        if negb (efReceiver frame =? bgLocal b) then (b, None)
        else if negb (bgPeer b =? 0) && negb (efSender frame =? bgPeer b) then (b, None)
        else (b, Some (efBody frame))
      else if bgPeer b =? efSender frame then (b, Some (efBody frame))
      else (upd_epochs b (efSender frame) (bgPeers b), Some (efBody frame))
  end.

(* go: engine/jitsi/epoch.go 192-210 latchPeerEndpoint *)
Definition latchPeerEndpoint (b : bridge) (from : string) : bridge :=
  if bool_decide (from = "") then b
  else if bool_decide (bgEndpoint b = Some from) then b
  else upd_endpoint b (Some from).

(* go: engine/jitsi/bridge.go 314-323 bridgePayload *)
Definition bridgePayload (payload : option bytes) : option bytes :=
  match payload with
  | None => None
  | Some p => if bool_decide (take 4 p = bridgeMagic) then Some p else None
  end.

(* go: engine/jitsi/bridge.go 325-332 deliverPeerBridgePayload *)
Definition deliverPeerBridgePayload (b : bridge) (from : string) (payload : bytes) : bridge :=
  match acceptPeerEpochFrame b from payload with
  | (b, Some data) => if len data =? 0 then b else bridge_say b (BPeerData from data)
  | (b, None) => b
  end.

(** A message of the bridge channel, [None] when the channel was closed; [gen] is
    the generation the receive loop belongs to.  The check of the frame and the call of
    [onData] are one step: a [ConfirmPeer] that comes in between is placed after it. *)
(* go: engine/jitsi/bridge.go 286-312 deliverBridgeMessageGen *)
Definition deliverBridgeMessageGen (b : bridge) (gen : Z) (msg : option (string * option bytes)) : bridge :=
  match msg with
  | None => if bgClosed b then b else if bgGen b =? gen then bridge_say b BReconnect else b
  | Some (from, payload) =>
      match bridgePayload payload with
      | None => b
      | Some payload =>
          if bgPeerData b && negb (bool_decide (from = "")) then deliverPeerBridgePayload b from payload
          else
            match acceptEpochFrame b payload with
            | (b, None) => b
            | (b, Some data) =>
                let b := if negb (bgTargeted b) || negb (bgPeer b =? 0) then latchPeerEndpoint b from else b in
                if len data =? 0 then b else bridge_say b (BData data)
            end
      end
  end.

(** ** Binding and life cycle *)

(* go: engine/jitsi/epoch.go 165-168 LocalPeerID *)
Definition jitsi_LocalPeerID (b : bridge) : string := format_hex 8 (bgLocal b).

(* go: engine/jitsi/epoch.go 170-182 ConfirmPeer *)
Definition jitsi_ConfirmPeer (b : bridge) (peerID : string) : bridge * outcome bridge_error unit :=
  match ParseUint16_32 peerID with
  | Ok epoch => if epoch =? 0 then (b, Err ErrBridgePeerID) else (upd_epochs b epoch (bgPeers b), Ok tt)
  | Err _ => (b, Err ErrBridgePeerID)
  | Panic => (b, Panic)
  end.

(* go: engine/jitsi/jitsi.go 258-263 ResetPeer *)
Definition jitsi_ResetPeer (b : bridge) : bridge := upd_epochs (upd_endpoint b None) 0 ∅.

(** The reset at the start of a reconnect: a fresh epoch, no peers, empty
    queues, no session. *)
(* go: engine/jitsi/reconnect.go 51-62 reconnect *)
Definition reconnect_reset (b : bridge) (epoch : Z) : bridge :=
  MkBridge (bgPeerData b) (bgTargeted b) epoch 0 ∅ (bgEndpoint b) false (bgGen b) (bgClosed b) None [] []
    (bgLog b).

(* go: engine/jitsi/reconnect.go 195-206 finishReconnect *)
Definition finishReconnect (b : bridge) : bridge :=
  let b := MkBridge (bgPeerData b) (bgTargeted b) (bgLocal b) (bgPeer b) (bgPeers b) None true (bgGen b + 1)
             (bgClosed b) (bgSession b) (bgSendQ b) (bgPeerQ b) (bgLog b) in
  (bridge_Send b []).1.

(* go: engine/jitsi/reconnect.go 171-193 installSession *)
Definition jitsi_installSession (b : bridge) (session : nat) : bridge :=
  if bgClosed b then b
  else MkBridge (bgPeerData b) (bgTargeted b) (bgLocal b) (bgPeer b) (bgPeers b) (bgEndpoint b) (bgReady b)
         (bgGen b) (bgClosed b) (Some session) (bgSendQ b) (bgPeerQ b) (bgLog b).

(* go: engine/jitsi/jitsi.go 213-256 Close *)
Definition jitsi_Close (b : bridge) : bridge :=
  MkBridge (bgPeerData b) (bgTargeted b) (bgLocal b) (bgPeer b) (bgPeers b) (bgEndpoint b) false (bgGen b)
    true None (bgSendQ b) (bgPeerQ b) (bgLog b).

(** ** Runs *)

Inductive bridge_event :=
| BvSend (data : bytes)
| BvSendTo (peer : string) (data : bytes)
| BvPump
| BvPumpPeer
| BvReceive (gen : Z) (msg : option (string * option bytes))
| BvConfirm (peer : string)
| BvReset
| BvReconnect (epoch : Z)
| BvInstall (session : nat)
| BvFinish
| BvClose.

Definition bridge_step (b : bridge) (e : bridge_event) : bridge :=
  match e with
  | BvSend data => (bridge_Send b data).1
  | BvSendTo peer data => (bridge_SendTo b peer data).1
  | BvPump =>
      match bgSendQ b with
      | [] => b
      | data :: q => let b := upd_queues b q (bgPeerQ b) in sendBridgeFrame b b "" data
      end
  | BvPumpPeer =>
      match bgPeerQ b with
      | [] => b
      | (to, data) :: q => let b := upd_queues b (bgSendQ b) q in sendBridgeFrame b b to data
      end
  | BvReceive gen msg => deliverBridgeMessageGen b gen msg
  | BvConfirm peer => (jitsi_ConfirmPeer b peer).1
  | BvReset => jitsi_ResetPeer b
  | BvReconnect epoch => if bgClosed b then b else reconnect_reset b epoch
  | BvInstall session => jitsi_installSession b session
  | BvFinish => if bgClosed b then b else finishReconnect b
  | BvClose => jitsi_Close b
  end.

Definition bridge_run (b : bridge) (es : list bridge_event) : bridge := fold_left bridge_step es b.
