(* ===== verification/JitsiFacts.v ===== *)
(** * JitsiFacts: who hears whom on the jitsi bridge *)

From S2P Require Import Prelude Bytes Text JitsiBridge.

(** ** Frames *)

Lemma bridge_frame_fields s r data :
  is_u32 s -> is_u32 r ->
  be_get (take 4 (drop 4 (bridge_frame s r data))) = s /\
  be_get (take 4 (drop 8 (bridge_frame s r data))) = r /\
  drop 12 (bridge_frame s r data) = data /\ take 4 (bridge_frame s r data) = bridgeMagic /\
  len (bridge_frame s r data) = 12 + len data.
Proof.
  intros Hs Hr. unfold bridge_frame.
  pose proof (length_be_put 4 s) as Ls. pose proof (length_be_put 4 r) as Lr.
  assert (H1 : drop 4 (bridgeMagic ++ be_put 4 s ++ be_put 4 r ++ data) = be_put 4 s ++ be_put 4 r ++ data) by done.
  assert (H2 : drop 8 (bridgeMagic ++ be_put 4 s ++ be_put 4 r ++ data) = be_put 4 r ++ data).
  { change 8%nat with (4 + 4)%nat. rewrite <- drop_drop, H1. by rewrite drop_app_length' by lia. }
  assert (H3 : drop 12 (bridgeMagic ++ be_put 4 s ++ be_put 4 r ++ data) = data).
  { change 12%nat with (8 + 4)%nat. rewrite <- drop_drop, H2. by rewrite drop_app_length' by lia. }
  rewrite H1, H2, H3, !take_app_length' by lia. rewrite !be_get_put32 by done.
  split_and!; try done. rewrite !length_app, Ls, Lr. cbn. lia.
Qed.

(** A frame that was parsed is the frame its fields encode. *)
Lemma parsed_frame payload s r :
  byte_list payload -> take 4 payload = bridgeMagic -> 12 <= len payload ->
  s = be_get (take 4 (drop 4 payload)) -> r = be_get (take 4 (drop 8 payload)) ->
  payload = bridge_frame s r (drop 12 payload).
Proof.
  intros Hb Hm Hl -> ->. unfold bridge_frame. rewrite <- Hm.
  assert (H4 : forall n, (n + 4 <= length payload)%nat ->
    be_put 4 (be_get (take 4 (drop n payload))) = take 4 (drop n payload)).
  { intros n Hn. pose proof (be_put_get (take 4 (drop n payload))) as H.
    rewrite length_take, length_drop in H. replace (4 `min` (length payload - n))%nat with 4%nat in H by lia.
    apply H. by apply Forall_take, Forall_drop. }
  rewrite !H4 by lia. rewrite <- (take_drop 4 payload) at 1. f_equal.
  rewrite <- (take_drop 4 (drop 4 payload)) at 1. f_equal. rewrite drop_drop.
  rewrite <- (take_drop 4 (drop (4 + 4) payload)) at 1. f_equal. by rewrite drop_drop.
Qed.

Lemma parseEpochFrame_spec b payload f :
  parseEpochFrame b payload = Some f ->
  12 <= len payload /\ efSender f = be_get (take 4 (drop 4 payload)) /\
  efReceiver f = be_get (take 4 (drop 8 payload)) /\ efBody f = drop 12 payload /\
  efSender f <> 0 /\ efSender f <> bgLocal b /\ (efReceiver f = 0 \/ efReceiver f = bgLocal b).
Proof.
  unfold parseEpochFrame, epochHeaderLen. change (len bridgeMagic) with 4.
  destruct (len payload <? 4 + 8) eqn:Hl; [done|].
  set (f0 := MkEpochFrame _ _ _).
  destruct ((efSender f0 =? 0) || (efSender f0 =? bgLocal b)) eqn:H1; [done|].
  destruct (negb (efReceiver f0 =? 0) && negb (efReceiver f0 =? bgLocal b)) eqn:H2; [done|].
  intros [= <-]. bool_to_Prop. split_and!; try done; lia.
Qed.

Lemma parse_bridge_frame b s r data :
  is_u32 s -> is_u32 r -> s <> 0 -> s <> bgLocal b -> (r = 0 \/ r = bgLocal b) ->
  parseEpochFrame b (bridge_frame s r data) = Some (MkEpochFrame s r data).
Proof.
  intros Hs Hr H0 Hl Hd. destruct (bridge_frame_fields s r data Hs Hr) as (E1 & E2 & E3 & _ & El).
  unfold parseEpochFrame. rewrite El, E1, E2, E3. cbn [efSender efReceiver].
  change (len bridgeMagic + epochHeaderLen) with 12. rewrite (proj2 (Z.ltb_ge _ _)) by lia.
  rewrite (proj2 (Z.eqb_neq s 0)), (proj2 (Z.eqb_neq s (bgLocal b))) by done. cbn [orb].
  destruct Hd as [->| ->]; [done|]. by rewrite Z.eqb_refl, andb_false_r.
Qed.

(** ** What a received message can do *)

Definition unchanged (b b' : bridge) : Prop :=
  bgPeerData b' = bgPeerData b /\ bgTargeted b' = bgTargeted b /\ bgLocal b' = bgLocal b.

Lemma latchPeerEndpoint_keeps b from :
  unchanged b (latchPeerEndpoint b from) /\ bgPeer (latchPeerEndpoint b from) = bgPeer b /\
  bgPeers (latchPeerEndpoint b from) = bgPeers b /\ bgLog (latchPeerEndpoint b from) = bgLog b /\
  bgSendQ (latchPeerEndpoint b from) = bgSendQ b /\ bgPeerQ (latchPeerEndpoint b from) = bgPeerQ b.
Proof. unfold latchPeerEndpoint. by repeat case_bool_decide. Qed.

(** A targeted session: what is delivered was addressed to it by the confirmed
    peer, if one is confirmed, and the binding does not move. *)
Definition heard (b : bridge) (msg : option (string * option bytes)) (c : bridge_call) : Prop :=
  c = BReconnect \/
  exists d from payload s, c = BData d /\ msg = Some (from, Some payload) /\ take 4 payload = bridgeMagic /\
    s = be_get (take 4 (drop 4 payload)) /\ bgLocal b = be_get (take 4 (drop 8 payload)) /\
    d = drop 12 payload /\ s <> 0 /\ s <> bgLocal b /\ (bgPeer b = 0 \/ s = bgPeer b).

Definition receives (b b' : bridge) (msg : option (string * option bytes)) : Prop :=
  unchanged b b' /\ bgPeer b' = bgPeer b /\
  exists calls, bgLog b' = bgLog b ++ calls /\ Forall (heard b msg) calls.

Lemma receives_nothing b b' msg : unchanged b b' -> bgPeer b' = bgPeer b -> bgLog b' = bgLog b -> receives b b' msg.
Proof. intros Hu H1 H2. split_and!; try done. exists []. by rewrite app_nil_r. Qed.

Lemma targeted_receive b gen msg :
  bgTargeted b = true -> bgPeerData b = false -> receives b (deliverBridgeMessageGen b gen msg) msg.
Proof.
  intros Ht Hp. unfold deliverBridgeMessageGen.
  destruct msg as [[from payload]|].
  2:{ destruct (bgClosed b); [by apply receives_nothing|].
      destruct (bgGen b =? gen); [|by apply receives_nothing].
      split_and!; try done. exists [BReconnect]. split; [done|]. constructor; [by left|constructor]. }
  destruct payload as [payload|]; cbn [bridgePayload]; [|by apply receives_nothing].
  case_bool_decide as Hm; [|by apply receives_nothing]. rewrite Hp. cbn [andb]. unfold acceptEpochFrame.
  destruct (parseEpochFrame b payload) as [f|] eqn:Hf; [|by apply receives_nothing].
  apply parseEpochFrame_spec in Hf as (Hl & Hs & Hr & Hb & H0 & Hne & _). rewrite Ht, Hp. cbn [andb negb].
  destruct (efReceiver f =? bgLocal b) eqn:Hrl; cbn [negb]; [|by apply receives_nothing].
  destruct (negb (bgPeer b =? 0) && negb (efSender f =? bgPeer b)) eqn:Hsp; [by apply receives_nothing|].
  set (b1 := if negb (bgTargeted b) || negb (bgPeer b =? 0) then latchPeerEndpoint b from else b).
  assert (Hb1 : unchanged b b1 /\ bgPeer b1 = bgPeer b /\ bgLog b1 = bgLog b).
  { unfold b1. destruct (_ || _); [|done]. by destruct (latchPeerEndpoint_keeps b from) as (? & ? & _ & ? & _). }
  destruct Hb1 as (Hu & H1 & H2). destruct (len (efBody f) =? 0); [by apply receives_nothing|].
  split; [done|]. split; [done|]. exists [BData (efBody f)]. split; [cbn; by rewrite H2|].
  constructor; [|constructor]. right. exists (efBody f), from, payload, (efSender f).
  bool_to_Prop. split_and!; try done; [congruence|]. destruct Hsp; bool_to_Prop; auto.
Qed.

(** ** Runs of a targeted session *)

Definition rebinds (e : bridge_event) : bool :=
  match e with BvConfirm _ | BvReset | BvReconnect _ => true | _ => false end.

(** The calls a step adds: deliveries of frames the confirmed peer addressed to
    this epoch, and sent frames stamped with it. *)
Definition call_ok (local peer : Z) (es : list bridge_event) (c : bridge_call) : Prop :=
  match c with
  | BData d | BPeerData _ d =>
      exists gen from payload, BvReceive gen (Some (from, Some payload)) ∈ es /\
        take 4 payload = bridgeMagic /\ be_get (take 4 (drop 4 payload)) = peer /\
        be_get (take 4 (drop 8 payload)) = local /\ d = drop 12 payload
  | BSent _ frame => be_get (take 4 (drop 4 frame)) = local
  | BReconnect => True
  end.

Definition bound (b b' : bridge) : Prop := unchanged b b' /\ bgPeer b' = bgPeer b.

Lemma bridge_Send_quiet b data : bound b (bridge_Send b data).1 /\ bgLog (bridge_Send b data).1 = bgLog b.
Proof.
  unfold bridge_Send. destruct (bgClosed b); [done|]. destruct (bgReady b); [|done]. cbn [negb].
  destruct (encodeBridgeFrame b data ""); try done. by destruct (enqueueBridgeFrame b (bgSendQ b) a a).
Qed.

Lemma bridge_SendTo_quiet b peer data :
  bound b (bridge_SendTo b peer data).1 /\ bgLog (bridge_SendTo b peer data).1 = bgLog b.
Proof.
  unfold bridge_SendTo. case_bool_decide; [apply bridge_Send_quiet|].
  destruct (bgClosed b); [done|]. destruct (bgReady b); [|done]. cbn [negb].
  destruct (encodeBridgeFrame b data peer); try done. by destruct (enqueueBridgeFrame b (bgPeerQ b) a (peer, a)).
Qed.

Lemma sendBridgeFrame_quiet b to data :
  bound b (sendBridgeFrame b b to data) /\
  exists calls, bgLog (sendBridgeFrame b b to data) = bgLog b ++ calls /\
    Forall (call_ok (bgLocal b) (bgPeer b) []) calls.
Proof.
  unfold sendBridgeFrame. destruct (outboundFrameCurrent b data) eqn:E; cbn [negb].
  - destruct (bgSession b); [|split; [done|]; exists []; by rewrite app_nil_r].
    split; [done|]. exists [BSent to data]. split; [done|]. constructor; [|constructor].
    unfold outboundFrameCurrent in E. case_match; [done|]. by bool_to_Prop.
  - split; [done|]. exists []. by rewrite app_nil_r.
Qed.

Lemma targeted_step b e :
  bgTargeted b = true -> bgPeerData b = false -> bgPeer b <> 0 -> rebinds e = false ->
  bound b (bridge_step b e) /\
  exists calls, bgLog (bridge_step b e) = bgLog b ++ calls /\
    Forall (call_ok (bgLocal b) (bgPeer b) [e]) calls.
Proof.
  intros Ht Hp Hp0 Hr.
  assert (Hq : forall b', bound b b' -> bgLog b' = bgLog b ->
    bound b b' /\ exists calls, bgLog b' = bgLog b ++ calls /\ Forall (call_ok (bgLocal b) (bgPeer b) [e]) calls).
  { intros b' Hb Hl. split; [done|]. exists []. by rewrite app_nil_r. }
  destruct e; cbn [bridge_step rebinds] in *; try done.
  - apply Hq; apply bridge_Send_quiet.
  - apply Hq; apply bridge_SendTo_quiet.
  - destruct (bgSendQ b) as [|data q]; [by apply Hq|].
    destruct (sendBridgeFrame_quiet (upd_queues b q (bgPeerQ b)) "" data) as (Hb & calls & Hl & Hc).
    split; [exact Hb|]. exists calls. split; [exact Hl|]. eapply Forall_impl; [exact Hc|].
    intros [] H; try done; cbn in *; destruct H as (? & ? & ? & H & _); by apply not_elem_of_nil in H.
  - destruct (bgPeerQ b) as [|[to data] q]; [by apply Hq|].
    destruct (sendBridgeFrame_quiet (upd_queues b (bgSendQ b) q) to data) as (Hb & calls & Hl & Hc).
    split; [exact Hb|]. exists calls. split; [exact Hl|]. eapply Forall_impl; [exact Hc|].
    intros [] H; try done; cbn in *; destruct H as (? & ? & ? & H & _); by apply not_elem_of_nil in H.
  - destruct (targeted_receive b gen msg Ht Hp) as (Hu & H1 & calls & Hl & Hc).
    split; [done|]. exists calls. split; [done|]. eapply Forall_impl; [exact Hc|].
    intros c [->|(d & from & payload & s & -> & -> & Hm & -> & Hlo & Hdd & _ & _ & Hor)]; [done|].
    exists gen, from, payload. split; [by left|]. destruct Hor; [done|]. split_and!; congruence.
  - unfold jitsi_installSession. by destruct (bgClosed b); apply Hq.
  - unfold finishReconnect. destruct (bgClosed b); [by apply Hq|].
    match goal with |- context [bridge_Send ?b0 []] => destruct (bridge_Send_quiet b0 []) as (Hb & Hl) end.
    by apply Hq.
  - by apply Hq.
Qed.

Lemma bridge_call_mono local peer es es' c :
  call_ok local peer es c -> (forall e, e ∈ es -> e ∈ es') -> call_ok local peer es' c.
Proof. intros H Hs. destruct c; cbn in *; try done; naive_solver. Qed.

Lemma targeted_run b es :
  bgTargeted b = true -> bgPeerData b = false -> bgPeer b <> 0 -> Forall (fun e => rebinds e = false) es ->
  exists calls, bgLog (bridge_run b es) = bgLog b ++ calls /\ Forall (call_ok (bgLocal b) (bgPeer b) es) calls.
Proof.
  revert b. induction es as [|e es IH]; intros b Ht Hp Hp0 Hq; [by exists []; rewrite app_nil_r|].
  apply Forall_cons in Hq as [He Hq]. destruct (targeted_step b e Ht Hp Hp0 He) as ((Hu & Hpe) & calls & Hl & Hc).
  destruct Hu as (U1 & U2 & U3). unfold bridge_run in *. cbn [fold_left].
  destruct (IH (bridge_step b e)) as (calls' & Hl' & Hc'); [congruence..|done|].
  exists (calls ++ calls'). rewrite Hl', Hl, <- app_assoc. split; [done|]. apply Forall_app. split.
  - eapply Forall_impl; [exact Hc|]. intros c H. eapply bridge_call_mono; [exact H|]. set_solver.
  - rewrite U3, Hpe in Hc'. eapply Forall_impl; [exact Hc'|]. intros c H. eapply bridge_call_mono; [exact H|]. set_solver.
Qed.

(** ** Bounds *)

Definition bridge_bounded (b : bridge) : Prop :=
  Z.of_nat (size (bgPeers b)) <= maxPeerEpochs /\ len (bgSendQ b) <= DefaultSendQueueSize /\
  len (bgPeerQ b) <= DefaultSendQueueSize.

Lemma enqueue_bounded {A} b (q q' : list A) framed v :
  enqueueBridgeFrame b q framed v = Ok q' -> len q' <= DefaultSendQueueSize.
Proof.
  unfold enqueueBridgeFrame. repeat case_if; try done. intros [= <-]. rewrite length_app. cbn. lia.
Qed.

Lemma bridge_Send_bounded b data : bridge_bounded b -> bridge_bounded (bridge_Send b data).1.
Proof.
  intros Hb. unfold bridge_Send. destruct (bgClosed b); [done|]. destruct (bgReady b); [|done]. cbn [negb].
  destruct (encodeBridgeFrame b data ""); try done.
  destruct (enqueueBridgeFrame b (bgSendQ b) a a) eqn:E; try done. apply enqueue_bounded in E.
  destruct Hb as (? & ? & ?). by split_and!.
Qed.

Lemma bridge_step_bounded b e : bridge_bounded b -> bridge_bounded (bridge_step b e).
Proof.
  intros Hb. pose proof Hb as (Hp & Hq & Hq'). destruct e; cbn [bridge_step].
  - by apply bridge_Send_bounded.
  - unfold bridge_SendTo. case_bool_decide; [by apply bridge_Send_bounded|].
    destruct (bgClosed b); [done|]. destruct (bgReady b); [|done]. cbn [negb].
    destruct (encodeBridgeFrame b data peer); try done.
    destruct (enqueueBridgeFrame b (bgPeerQ b) a (peer, a)) eqn:E; try done. apply enqueue_bounded in E. done.
  - destruct (bgSendQ b) as [|d q] eqn:E; [done|]. unfold sendBridgeFrame. cbn in Hq.
    assert (H : bridge_bounded (upd_queues b q (bgPeerQ b))) by (split_and!; cbn; lia).
    destruct (outboundFrameCurrent _ d); [|done]. cbn [negb]. by destruct (bgSession _).
  - destruct (bgPeerQ b) as [|[to d] q] eqn:E; [done|]. unfold sendBridgeFrame. cbn in Hq'.
    assert (H : bridge_bounded (upd_queues b (bgSendQ b) q)) by (split_and!; cbn; lia).
    destruct (outboundFrameCurrent _ d); [|done]. cbn [negb]. by destruct (bgSession _).
  - unfold deliverBridgeMessageGen. destruct msg as [[from payload]|].
    2:{ destruct (bgClosed b); [done|]. by destruct (_ =? _). }
    destruct (bridgePayload payload) as [p|]; [|done].
    destruct (bgPeerData b && negb (bool_decide (from = ""))).
    + unfold deliverPeerBridgePayload, acceptPeerEpochFrame. destruct (parseEpochFrame b p) as [f|]; [|done].
      set (b1 := match bgPeers b !! from with Some _ => _ | None => _ end).
      assert (H : bridge_bounded b1).
      { unfold b1. destruct (bgPeers b !! from) as [prev|] eqn:E.
        - destruct (negb _); [|done]. split_and!; try done. cbn. by rewrite map_size_insert, E.
        - destruct (Z.of_nat (size (bgPeers b)) <? maxPeerEpochs) eqn:Hlt; [|done]. bool_to_Prop.
          split_and!; try done. cbn. rewrite map_size_insert, E. cbn. lia. }
      by destruct (len (efBody f) =? 0).
    + assert (Ha : forall b1 d, acceptEpochFrame b p = (b1, d) -> bridge_bounded b1).
      { intros b1 d. unfold acceptEpochFrame. repeat case_match; intros; simplify_eq; done. }
      destruct (acceptEpochFrame b p) as [b1 [d|]] eqn:E; specialize (Ha _ _ eq_refl); [|done].
      set (b2 := if _ || _ then _ else b1).
      assert (H2 : bridge_bounded b2).
      { unfold b2. destruct (_ || _); [|done]. unfold latchPeerEndpoint. by repeat case_bool_decide. }
      by destruct (len d =? 0).
  - unfold jitsi_ConfirmPeer. destruct (ParseUint16_32 peer); try done. by destruct (_ =? 0).
  - by split_and!.
  - destruct (bgClosed b); [done|]. split_and!; cbn; rewrite ?map_size_empty; done.
  - unfold jitsi_installSession. by destruct (bgClosed b).
  - destruct (bgClosed b); [done|]. by apply bridge_Send_bounded.
  - done.
Qed.

Lemma bridge_run_bounded b es : bridge_bounded b -> bridge_bounded (bridge_run b es).
Proof.
  revert b. induction es as [|e es IH]; intros b Hb; [done|]. apply IH. by apply bridge_step_bounded.
Qed.

(** The mode of a session is fixed when it is made. *)
Lemma bridge_step_mode b e :
  bgTargeted (bridge_step b e) = bgTargeted b /\ bgPeerData (bridge_step b e) = bgPeerData b.
Proof.
  destruct e; cbn [bridge_step].
  - by destruct (bridge_Send_quiet b data) as [[(-> & -> & _) _] _].
  - by destruct (bridge_SendTo_quiet b peer data) as [[(-> & -> & _) _] _].
  - destruct (bgSendQ b) as [|d q]; [done|].
    by destruct (sendBridgeFrame_quiet (upd_queues b q (bgPeerQ b)) "" d) as [[(-> & -> & _) _] _].
  - destruct (bgPeerQ b) as [|[to d] q]; [done|].
    by destruct (sendBridgeFrame_quiet (upd_queues b (bgSendQ b) q) to d) as [[(-> & -> & _) _] _].
  - unfold deliverBridgeMessageGen, deliverPeerBridgePayload, acceptPeerEpochFrame, acceptEpochFrame, latchPeerEndpoint.
    by repeat (case_match; simplify_eq).
  - unfold jitsi_ConfirmPeer. by repeat case_match.
  - done.
  - by destruct (bgClosed b).
  - unfold jitsi_installSession. by destruct (bgClosed b).
  - destruct (bgClosed b); [done|]. unfold finishReconnect.
    match goal with |- context [bridge_Send ?b0 []] => by destruct (bridge_Send_quiet b0 []) as [[(-> & -> & _) _] _] end.
  - done.
Qed.

Lemma bridge_run_mode b es :
  bgTargeted (bridge_run b es) = bgTargeted b /\ bgPeerData (bridge_run b es) = bgPeerData b.
Proof.
  revert b. induction es as [|e es IH]; intros b; [done|]. unfold bridge_run. cbn [fold_left].
  destruct (IH (bridge_step b e)) as [H1 H2]. unfold bridge_run in H1, H2. rewrite H1, H2. apply bridge_step_mode.
Qed.

(** ** A server and a client *)

(** A bridge that can send, with nothing queued. *)
Definition sendable (b : bridge) : Prop :=
  bgClosed b = false /\ bgReady b = true /\ is_Some (bgSession b) /\ bgSendQ b = [] /\ bgPeerQ b = [] /\
  is_u32 (bgLocal b) /\ is_u32 (bgPeer b).

Lemma frame_current b s r data :
  s = bgLocal b -> is_u32 s -> is_u32 r -> outboundFrameCurrent b (bridge_frame s r data) = true.
Proof.
  intros -> H1 H2. destruct (bridge_frame_fields (bgLocal b) r data H1 H2) as (E & _ & _ & _ & El).
  unfold outboundFrameCurrent. rewrite E, El. change (len bridgeMagic + epochHeaderLen) with 12.
  rewrite (proj2 (Z.ltb_ge _ _)) by lia. apply Z.eqb_refl.
Qed.

Lemma encode_fits b peer data :
  len data + 12 <= bridgeMaxMessageSize -> encodeBridgeFrame b data peer = Ok (bridge_frame (bgLocal b) (peerEpochFor b peer) data).
Proof.
  intros H. unfold encodeBridgeFrame. change (len bridgeMagic) with 4. change epochHeaderLen with 8.
  by rewrite (proj2 (Z.ltb_ge _ _)) by lia.
Qed.

Lemma enqueue_fits {A} b r data (v : A) :
  bgClosed b = false -> bgReady b = true -> is_u32 (bgLocal b) -> is_u32 r ->
  len data + 12 <= bridgeMaxMessageSize -> enqueueBridgeFrame b [] (bridge_frame (bgLocal b) r data) v = Ok [v].
Proof.
  intros H1 H2 H3 H4 H5. unfold enqueueBridgeFrame. rewrite H1, H2. cbn [negb].
  destruct (bridge_frame_fields (bgLocal b) r data H3 H4) as (_ & _ & _ & _ & ->).
  by rewrite (proj2 (Z.ltb_ge _ _)) by lia.
Qed.

Lemma send_pump b data :
  sendable b -> len data + 12 <= bridgeMaxMessageSize ->
  bridge_run b [BvSend data; BvPump] = bridge_say b (BSent "" (bridge_frame (bgLocal b) (bgPeer b) data)).
Proof.
  intros (H1 & H2 & [j H3] & H4 & H5 & H6 & H7) Hl. unfold bridge_run. cbn [fold_left bridge_step].
  unfold bridge_Send. rewrite H1, H2. cbn [negb]. rewrite encode_fits by done. change (peerEpochFor b "") with (bgPeer b).
  rewrite H4, enqueue_fits by done. cbn [fst upd_queues bgSendQ].
  unfold sendBridgeFrame. rewrite frame_current by done. destruct b; cbn in *; by subst.
Qed.

Lemma sendto_pump b peer data :
  sendable b -> peer <> "" -> is_u32 (peerEpochFor b peer) -> len data + 12 <= bridgeMaxMessageSize ->
  bridge_run b [BvSendTo peer data; BvPumpPeer] =
    bridge_say b (BSent peer (bridge_frame (bgLocal b) (peerEpochFor b peer) data)).
Proof.
  intros (H1 & H2 & [j H3] & H4 & H5 & H6 & H7) Hp Hr Hl. unfold bridge_run. cbn [fold_left bridge_step].
  unfold bridge_SendTo. rewrite bool_decide_eq_false_2, H1, H2 by done. cbn [negb]. rewrite encode_fits by done.
  rewrite H5, enqueue_fits by done. cbn [fst upd_queues bgPeerQ].
  unfold sendBridgeFrame. rewrite frame_current by done. destruct b; cbn in *; by subst.
Qed.

(** The client's first frame at the server: filed if the table has room, handed
    up in any case. *)
Lemma hello_received b c from hello :
  sendable b -> bgPeerData b = true -> from <> "" -> is_u32 (bgLocal c) -> bgLocal c <> 0 ->
  bgLocal b <> bgLocal c -> 0 < len hello ->
  let b' := deliverBridgeMessageGen b (bgGen b) (Some (from, Some (bridge_frame (bgLocal c) 0 hello))) in
  sendable b' /\ bgLog b' = bgLog b ++ [BPeerData from hello] /\ bgLocal b' = bgLocal b /\
  peerEpochFor b' from =
    if bool_decide (is_Some (bgPeers b !! from) \/ Z.of_nat (size (bgPeers b)) < maxPeerEpochs)
    then bgLocal c else 0.
Proof.
  intros Hs Hp Hf Hu H0 Hne Hl. cbn zeta. unfold deliverBridgeMessageGen, bridgePayload.
  destruct (bridge_frame_fields (bgLocal c) 0 hello Hu ltac:(lia)) as (_ & _ & _ & Hm & _).
  rewrite Hm, bool_decide_eq_true_2, Hp, bool_decide_eq_false_2 by done. cbn [negb andb].
  unfold deliverPeerBridgePayload, acceptPeerEpochFrame.
  rewrite parse_bridge_frame by first [done | lia | by left]. cbn [efSender efBody].
  set (b1 := match bgPeers b !! from with Some _ => _ | None => _ end).
  assert (Hb1 : exists ps, b1 = upd_epochs b (bgPeer b) ps /\ default 0 (ps !! from) =
    if bool_decide (is_Some (bgPeers b !! from) \/ Z.of_nat (size (bgPeers b)) < maxPeerEpochs) then bgLocal c else 0).
  { unfold b1. destruct (bgPeers b !! from) as [prev|] eqn:E.
    - rewrite bool_decide_eq_true_2 by eauto. destruct (prev =? bgLocal c) eqn:Ep; cbn [negb]; bool_to_Prop.
      + exists (bgPeers b). rewrite E. split; [by destruct b|done].
      + eexists. split; [done|]. by rewrite lookup_insert_eq.
    - destruct (Z.of_nat (size (bgPeers b)) <? maxPeerEpochs) eqn:Hlt; bool_to_Prop.
      + rewrite bool_decide_eq_true_2 by auto. eexists. split; [done|]. by rewrite lookup_insert_eq.
      + rewrite bool_decide_eq_false_2; [|intros [[? ?]|?]; [done|lia]].
        exists (bgPeers b). rewrite E. split; [by destruct b|done]. }
  destruct Hb1 as (ps & -> & Hps). rewrite (proj2 (Z.eqb_neq (len hello) 0)) by lia.
  split_and!; try done. unfold peerEpochFor. rewrite bool_decide_eq_false_2 by done. cbn. by rewrite Hp.
Qed.

(** What a targeted client that has confirmed nobody does with a frame. *)
Lemma targeted_hears s r c reply :
  bgTargeted c = true -> bgPeerData c = false -> bgPeer c = 0 -> is_u32 s -> is_u32 r -> s <> 0 ->
  s <> bgLocal c -> (r = 0 \/ r = bgLocal c) -> 0 < len reply ->
  bgLog (deliverBridgeMessageGen c (bgGen c) (Some ("", Some (bridge_frame s r reply)))) =
    bgLog c ++ (if r =? bgLocal c then [BData reply] else []).
Proof.
  intros Ht Hp Hpe Hs Hr H0 Hne Hd Hl. unfold deliverBridgeMessageGen, bridgePayload.
  destruct (bridge_frame_fields s r reply Hs Hr) as (_ & _ & _ & Hm & _).
  rewrite Hm, bool_decide_eq_true_2, Hp by done. cbn [andb]. unfold acceptEpochFrame.
  rewrite parse_bridge_frame by done. cbn [efSender efReceiver efBody]. rewrite Ht, Hp, Hpe. cbn [andb negb].
  destruct (r =? bgLocal c); cbn [negb]; [|by rewrite app_nil_r]. rewrite Z.eqb_refl. cbn [negb andb].
  rewrite Ht, Hpe, Z.eqb_refl. cbn [negb orb]. by rewrite (proj2 (Z.eqb_neq (len reply) 0)) by lia.
Qed.

(** ** Properties *)

(** C24: a jitsi client hears only the peer it has confirmed.  After a single-peer
    client has confirmed the epoch the handshake named, and until it reconnects or
    is bound anew, every payload it hands up comes from a received
    frame whose sender epoch is the confirmed one and which is addressed to the client's
    current epoch, and every frame it sends carries that current epoch:
    frames of other participants, echoes of its own and frames from before a
    reconnect pass in neither direction.  The tables it keeps stay bounded. *)
Theorem jitsi_client_hears_only_confirmed_peer (epoch peer : Z) (before es : list bridge_event)
    (Hpeer : is_u32 peer) (Hnz : peer <> 0) (Hes : Forall (fun e => rebinds e = false) es) :
  let b0 := bridge_run (newBridge false true epoch) before in
  let b := bridge_step b0 (BvConfirm (format_hex 8 peer)) in
  bgLog b = bgLog b0 /\ bridge_bounded (bridge_run b es) /\
  exists calls, bgLog (bridge_run b es) = bgLog b ++ calls /\
    Forall (call_ok (bgLocal b0) peer es) calls.
Proof.
  intros b0 b. destruct (bridge_run_mode (newBridge false true epoch) before) as [Ht Hp]. fold b0 in Ht, Hp.
  assert (Hb : b = upd_epochs b0 peer (bgPeers b0)).
  { unfold b. cbn [bridge_step]. unfold jitsi_ConfirmPeer. rewrite ParseUint_format by done.
    by rewrite (proj2 (Z.eqb_neq _ _)). }
  assert (Hbd : bridge_bounded b).
  { unfold b. apply bridge_step_bounded. unfold b0. apply bridge_run_bounded. by split_and!. }
  split_and!; [by rewrite Hb|by apply bridge_run_bounded|].
  destruct (targeted_run b es) as (calls & Hl & Hc); [by rewrite Hb..|done|].
  exists calls. split; [done|]. by rewrite Hb in Hc.
Qed.

(** The first exchange of a client and a server over the bridge.  The client's frame
    is addressed to anybody and is handed up by the server under the endpoint it
    came from; the reply to that endpoint reaches the client exactly when the
    endpoint was known or the server's epoch table has room.  With 256 names in the
    table, all of which any participant can put there before anything is authenticated,
    the reply is addressed to epoch zero and every new client drops it, so that no
    handshake can be completed any more. *)
Theorem jitsi_first_exchange (b c : bridge) (from : string) (hello reply : bytes)
    (Hb : sendable b) (Hc : sendable c) (Hbp : bgPeerData b = true) (Hcp : bgPeerData c = false)
    (Hct : bgTargeted c = true) (Hpeer : bgPeer c = 0) (Hfrom : from <> "")
    (Hb0 : bgLocal b <> 0) (Hc0 : bgLocal c <> 0) (Hne : bgLocal b <> bgLocal c)
    (Hhello : 0 < len hello /\ len hello + 12 <= bridgeMaxMessageSize)
    (Hreply : 0 < len reply /\ len reply + 12 <= bridgeMaxMessageSize) :
  exists f1 f2,
    let c1 := bridge_run c [BvSend hello; BvPump] in
    let b1 := bridge_run b [BvReceive (bgGen b) (Some (from, Some f1)); BvSendTo from reply; BvPumpPeer] in
    let c2 := bridge_step c1 (BvReceive (bgGen c1) (Some ("", Some f2))) in
    bgLog c1 = bgLog c ++ [BSent "" f1] /\
    bgLog b1 = bgLog b ++ [BPeerData from hello; BSent from f2] /\
    bgLog c2 = bgLog c1 ++
      (if bool_decide (is_Some (bgPeers b !! from) \/ Z.of_nat (size (bgPeers b)) < maxPeerEpochs)
       then [BData reply] else []).
Proof.
  exists (bridge_frame (bgLocal c) 0 hello).
  set (b' := deliverBridgeMessageGen b (bgGen b) (Some (from, Some (bridge_frame (bgLocal c) 0 hello)))).
  exists (bridge_frame (bgLocal b) (peerEpochFor b' from) reply). cbn zeta.
  pose proof Hc as (_ & _ & _ & _ & _ & Hcu & _). pose proof Hb as (_ & _ & _ & _ & _ & Hbu & _).
  destruct (hello_received b c from hello) as (Hs & Hlog & Hlo & He); [tauto..|]. fold b' in Hs, Hlog, Hlo, He.
  rewrite (send_pump c hello) by tauto. rewrite Hpeer.
  change (bridge_run b _) with (bridge_run b' [BvSendTo from reply; BvPumpPeer]).
  rewrite (sendto_pump b' from reply), Hlo; [|done|done|by rewrite He; case_bool_decide|tauto].
  split_and!; [done|cbn [bridge_say bgLog]; by rewrite Hlog, <- app_assoc|].
  cbn [bridge_step]. rewrite He. case_bool_decide.
  - rewrite (targeted_hears (bgLocal b) (bgLocal c)); try done; auto; [by rewrite Z.eqb_refl|lia].
  - rewrite (targeted_hears (bgLocal b) 0); try done; auto; [|lia].
    cbn [bridge_say bgLocal bgLog]. by rewrite (proj2 (Z.eqb_neq 0 (bgLocal c))).
Qed.

(** Witnesses: a client with epoch 7 that has confirmed the server's epoch 9. *)
Definition ex_client : bridge := bridge_run (newBridge false true 7) [BvInstall 0; BvFinish; BvPump].
Definition ex_server (n : nat) : bridge :=
  bridge_run (newBridge true false 9)
    ([BvInstall 1; BvFinish; BvPump] ++
     map (fun i => BvReceive 0 (Some (format_hex 8 (Z.of_nat i), Some (bridge_frame (100 + Z.of_nat i) 0 [1]))))
       (seq 0 n)).

Lemma jitsi_client_hears_only_confirmed_peer_witness :
  let b := bridge_step ex_client (BvConfirm (format_hex 8 9)) in
  exists calls,
    bgLog (bridge_run b [BvReceive 1 (Some ("srv", Some (bridge_frame 9 7 [5])));
                         BvReceive 1 (Some ("evil", Some (bridge_frame 8 7 [6])))]) = bgLog b ++ calls /\
    calls = [BData [5]] /\
    Forall (call_ok 7 9 [BvReceive 1 (Some ("srv", Some (bridge_frame 9 7 [5])));
                         BvReceive 1 (Some ("evil", Some (bridge_frame 8 7 [6])))]) calls.
Proof.
  destruct (jitsi_client_hears_only_confirmed_peer 7 9 [BvInstall 0; BvFinish; BvPump]
    [BvReceive 1 (Some ("srv", Some (bridge_frame 9 7 [5]))); BvReceive 1 (Some ("evil", Some (bridge_frame 8 7 [6])))]
    ltac:(lia) ltac:(lia)) as (_ & _ & calls & Hl & Hc); [by repeat constructor|].
  exists calls. vm_compute in Hl. injection Hl as <-. by split_and!.
Defined.

Lemma jitsi_first_exchange_witness :
  size (bgPeers (ex_server 256)) = 256%nat /\
  exists f1 f2,
    let c1 := bridge_run ex_client [BvSend [1]; BvPump] in
    let b1 := bridge_run (ex_server 256) [BvReceive 1 (Some ("new", Some f1)); BvSendTo "new" [2]; BvPumpPeer] in
    let c2 := bridge_step c1 (BvReceive (bgGen c1) (Some ("", Some f2))) in
    bgLog b1 = bgLog (ex_server 256) ++ [BPeerData "new" [1]; BSent "new" f2] /\ bgLog c2 = bgLog c1.
Proof.
  assert (Hs : sendable (ex_server 256)).
  { split_and!; vm_compute; first [reflexivity | eexists; reflexivity | intros [=]]. }
  assert (Hc : sendable ex_client).
  { split_and!; vm_compute; first [reflexivity | eexists; reflexivity | intros [=]]. }
  split; [by vm_compute|].
  destruct (jitsi_first_exchange (ex_server 256) ex_client "new" [1] [2] Hs Hc) as (f1 & f2 & _ & H1 & H2);
    [by vm_compute..|].
  exists f1, f2. split; [exact H1|]. etransitivity; [exact H2|].
  match goal with |- context [bool_decide ?P] => replace (bool_decide P) with false by (vm_compute; reflexivity) end.
  by rewrite app_nil_r.
Defined.
