(* ===== verification/JitsiSignals.v ===== *)
(** * JitsiSignals: the payload on the bridge, the session signal and the keep-alives of the jitsi engine
    (internal/engine/jitsi: bridge.go, keepalive.go)

    What an EndpointMessage carries and how it is read back, with base64 of the Go library; the signal that tells the send loop
    that a session is there, with its lock, under every interleaving; the three keep-alive loops, one step per tick. *)

From S2P Require Import Prelude Bytes Text JitsiBridge.

(** ** Base64 *)

Definition b64_char (v : Z) : Z :=
  if v <? 26 then 65 + v else if v <? 52 then 97 + (v - 26) else if v <? 62 then 48 + (v - 52) else if v =? 62 then 43 else 47.

Definition b64_val (c : Z) : option Z :=
  if (65 <=? c) && (c <=? 90) then Some (c - 65)
  else if (97 <=? c) && (c <=? 122) then Some (c - 97 + 26)
  else if (48 <=? c) && (c <=? 57) then Some (c - 48 + 52)
  else if c =? 43 then Some 62 else if c =? 47 then Some 63 else None.

(** [base64.StdEncoding.EncodeToString]. *)
Fixpoint b64_encode (l : bytes) : bytes :=
  match l with
  | [] => []
  | [a] => let n := a * 16 in [b64_char (n / 64); b64_char (n mod 64); 61; 61]
  | [a; b] => let n := (a * 256 + b) * 4 in [b64_char (n / 4096); b64_char (n / 64 mod 64); b64_char (n mod 64); 61]
  | a :: b :: c :: l =>
      let n := (a * 256 + b) * 256 + c in
      [b64_char (n / 262144); b64_char (n / 4096 mod 64); b64_char (n / 64 mod 64); b64_char (n mod 64)] ++ b64_encode l
  end.

(** Only the last group may be padded. *)
Fixpoint b64_groups (l : bytes) : option bytes :=
  match l with
  | [] => Some []
  | a :: b :: c :: d :: l =>
      x ← b64_val a; y ← b64_val b;
      if (d =? 61) && bool_decide (l = []) then
        if c =? 61 then Some [(x * 64 + y) / 16]
        else z ← b64_val c; let n := ((x * 64 + y) * 64 + z) / 4 in Some [n / 256; n mod 256]
      else
        z ← b64_val c; w ← b64_val d; rest ← b64_groups l;
        let n := ((x * 64 + y) * 64 + z) * 64 + w in Some ([n / 65536; n / 256 mod 256; n mod 256] ++ rest)
  | _ => None
  end.

(** [base64.StdEncoding.DecodeString], which skips the ends of lines. *)
Definition b64_decode (l : bytes) : option bytes := b64_groups (List.filter (fun c => negb ((c =? 10) || (c =? 13))) l).

Lemma b64_val_char v : 0 <= v < 64 -> b64_val (b64_char v) = Some v.
Proof.
  intros Hv. unfold b64_char, b64_val.
  repeat (case_match; try (f_equal; lia); try lia).
Qed.

Lemma b64_char_not v c : 0 <= v < 64 -> c = 10 \/ c = 13 \/ c = 61 -> b64_char v <> c.
Proof. intros Hv Hc. unfold b64_char. repeat case_match; lia. Qed.

Example base64_values :
  b64_encode (string_bytes "hello!!") = string_bytes "aGVsbG8hIQ==" /\ b64_decode (string_bytes "aGVs
bG8hIQ==") = Some (string_bytes "hello!!") /\ b64_decode (string_bytes "aGVsbG8hIQ") = None /\
  b64_decode (string_bytes "aGV=bG8h") = None /\ b64_encode [255; 254] = string_bytes "//4=".
Proof. by vm_compute. Qed.

(** Linear arithmetic with quotients and remainders. *)
Ltac divlia := Z.to_euclidean_division_equations; lia.

(** Induction in steps of three. *)
Lemma list_ind3 {A} (P : list A -> Prop) :
  P [] -> (forall a, P [a]) -> (forall a b, P [a; b]) -> (forall a b c l, P l -> P (a :: b :: c :: l)) -> forall l, P l.
Proof.
  intros H0 H1 H2 H3 l. assert (P l /\ (forall a, P (a :: l)) /\ forall a b, P (a :: b :: l)) as [? _]; [|done].
  induction l as [|x l (IH0 & IH1 & IH2)]; [done|]. split; [apply IH1|]. split; [intros a; apply IH2|]. intros a b. by apply H3.
Qed.

Lemma b64_groups_encode l : byte_list l -> b64_groups (b64_encode l) = Some l.
Proof.
  induction l as [|a|a b|a b c l IH] using list_ind3; intros Hl; [done|..].
  - apply Forall_cons in Hl as [Ha _]. cbn [b64_encode b64_groups]. rewrite !b64_val_char by divlia. cbn [mbind option_bind andb Z.eqb Pos.eqb bool_decide]. rewrite bool_decide_true by done. cbn [andb]. do 2 f_equal. divlia.
  - apply Forall_cons in Hl as [Ha Hl]. apply Forall_cons in Hl as [Hb _].
    pose proof (b64_char_not ((a * 256 + b) * 4 mod 64) 61 ltac:(divlia) ltac:(auto)) as Hne%Z.eqb_neq.
    cbn [b64_encode b64_groups]. rewrite !b64_val_char by divlia. cbn [mbind option_bind andb Z.eqb Pos.eqb bool_decide].
    rewrite Hne. cbn [andb]. f_equal.
    replace ((_ + _) / 4) with (a * 256 + b) by divlia. f_equal; [|f_equal]; divlia.
  - apply Forall_cons in Hl as [Ha Hl]. apply Forall_cons in Hl as [Hb Hl]. apply Forall_cons in Hl as [Hc Hl].
    cbn [b64_encode]. set (n := (a * 256 + b) * 256 + c). assert (0 <= n < 16777216) as Hn by (unfold n; divlia).
    pose proof (b64_char_not (n mod 64) 61 ltac:(divlia) ltac:(auto)) as Hne%Z.eqb_neq.
    cbn [app b64_groups]. rewrite Hne, !b64_val_char by divlia. cbn [mbind option_bind andb]. rewrite (IH Hl). cbn [mbind option_bind].
    replace (((_ + _) * 64 + _) * 64 + _) with n by divlia. f_equal. unfold n. f_equal; [|f_equal; [|f_equal]]; divlia.
Qed.

Lemma b64_encode_plain l : byte_list l -> Forall (fun c => negb ((c =? 10) || (c =? 13)) = true) (b64_encode l).
Proof.
  assert (forall v, 0 <= v < 64 -> negb ((b64_char v =? 10) || (b64_char v =? 13)) = true) as Hv.
  { intros v Hv. pose proof (b64_char_not v 10 Hv ltac:(auto)). pose proof (b64_char_not v 13 Hv ltac:(auto)). lia. }
  induction l as [|a|a b|a b c l IH] using list_ind3; intros Hl; [constructor|..]; cbn [b64_encode];
    repeat (apply Forall_cons in Hl as [? Hl]).
  - repeat constructor; apply Hv; divlia.
  - repeat constructor; apply Hv; divlia.
  - cbn [app]. repeat (constructor; [apply Hv; divlia|]). by apply IH.
Qed.

Lemma b64_roundtrip l : byte_list l -> b64_decode (b64_encode l) = Some l.
Proof.
  intros Hl. unfold b64_decode. replace (List.filter _ (b64_encode l)) with (b64_encode l); [by apply b64_groups_encode|].
  pose proof (b64_encode_plain l Hl) as Hp. induction Hp as [|c cs Hc Hp IH]; [done|]. simpl. rewrite Hc. by rewrite <- IH at 1.
Qed.

(** ** Endpoint messages *)

(** A JSON value, as far as the code looks into it. *)
Inductive jval := JStr (s : bytes) | JObj (fields : list (string * jval)) | JOther.

Definition field (fields : list (string * jval)) (name : string) : option jval :=
  snd <$> find (fun p => String.eqb (fst p) name) fields.

(** A message of the bridge channel: its class and its fields. *)
Record BridgeMessage := MkBridgeMessage { bmClass : string; bmFields : list (string * jval) }.

Definition colibriClassEndpointMessage : string := "EndpointMessage".

(** The fields of the two shapes: the one [sendEndpointRaw] sends, and the older one of the library. *)
(* go: engine/jitsi/bridge.go 171-192 sendEndpointRaw *)
Definition endpoint_fields (to : bytes) (data : bytes) : list (string * jval) :=
  [("colibriClass", JStr (string_bytes colibriClassEndpointMessage)); ("to", JStr to);
   ("msgPayload", JObj [("raw", JStr (b64_encode data))])]%string.

Definition legacy_fields (to : bytes) (data : bytes) : list (string * jval) :=
  [("colibriClass", JStr (string_bytes colibriClassEndpointMessage)); ("to", JStr to); ("raw", JStr (b64_encode data))]%string.

(* go: engine/jitsi/bridge.go 354-362 rawFieldFrom *)
Definition rawFieldFrom (fields : list (string * jval)) : option bytes :=
  match (match field fields "msgPayload" with
         | Some (JObj payload) => match field payload "raw" with Some (JStr raw) => Some raw | _ => None end
         | _ => None
         end) with
  | Some raw => Some raw
  | None => match field fields "raw" with Some (JStr raw) => Some raw | _ => None end
  end.

(* go: engine/jitsi/bridge.go 334-352 decodeRaw *)
Definition decodeRaw (m : BridgeMessage) : option bytes :=
  if negb (String.eqb (bmClass m) colibriClassEndpointMessage) then None
  else match rawFieldFrom (bmFields m) with Some enc => b64_decode enc | None => None end.

(** A payload comes back from the bridge byte for byte, in the shape this program sends and in the older one, with whatever other
    fields the bridge adds in front or behind as long as they have other names; messages of other classes carry nothing. *)
Theorem endpoint_roundtrip (to data : bytes) (before after : list (string * jval)) (class : string) :
  byte_list data ->
  Forall (fun f => negb (String.eqb (fst f) "msgPayload") && negb (String.eqb (fst f) "raw") = true) (before ++ after) ->
  decodeRaw (MkBridgeMessage colibriClassEndpointMessage (before ++ endpoint_fields to data ++ after)) = Some data /\
  decodeRaw (MkBridgeMessage colibriClassEndpointMessage (before ++ legacy_fields to data ++ after)) = Some data /\
  (class <> colibriClassEndpointMessage -> decodeRaw (MkBridgeMessage class (before ++ endpoint_fields to data ++ after)) = None).
Proof.
  intros Hd [Hb Ha]%Forall_app.
  assert (forall n l l', Forall (fun f => negb (String.eqb (fst f) n) = true) l -> field (l ++ l') n = field l' n) as Hskip.
  { intros n l l' Hl. induction Hl as [|f l Hf Hl IH]; [done|]. unfold field in *. simpl. apply negb_true_iff in Hf. by rewrite Hf. }
  assert (Forall (fun f => negb (String.eqb (fst f) "msgPayload") = true) before /\ Forall (fun f => negb (String.eqb (fst f) "raw") = true) before) as [Hb1 Hb2]
    by (split; eapply Forall_impl; [exact Hb| |exact Hb|]; intros f Hf; by apply andb_true_iff in Hf as [? ?]).
  assert (Forall (fun f => negb (String.eqb (fst f) "msgPayload") = true) after) as Ha1
    by (eapply Forall_impl; [exact Ha|]; intros f Hf; by apply andb_true_iff in Hf as [? ?]).
  assert (field after "msgPayload" = None) as Hn.
  { specialize (Hskip "msgPayload" after [] Ha1). by rewrite app_nil_r in Hskip. }
  split; [|split].
  - unfold decodeRaw, rawFieldFrom. simpl. rewrite (Hskip "msgPayload" before) by done. cbn. by apply b64_roundtrip.
  - unfold decodeRaw, rawFieldFrom. simpl. rewrite (Hskip "msgPayload" before), (Hskip "raw" before) by done.
    unfold legacy_fields. unfold field at 1. cbn. unfold field in Hn. rewrite Hn. cbn. by apply b64_roundtrip.
  - intros Hc. unfold decodeRaw. simpl. by rewrite (proj2 (String.eqb_neq _ _) Hc).
Qed.

Lemma endpoint_roundtrip_witness :
  decodeRaw (MkBridgeMessage colibriClassEndpointMessage ([("from", JStr [97])]%string ++ endpoint_fields [98] [0; 255; 7; 8] ++ [])) = Some [0; 255; 7; 8].
Proof.
  refine (proj1 (endpoint_roundtrip [98] [0; 255; 7; 8] [("from", JStr [97])]%string [] "" _ _)); [repeat constructor; lia|by repeat constructor].
Defined.

(** ** The signal of a session *)

(** The session, the generation of the ready channel and whether it is closed: those before it are.  A call of [setJSession] swaps the
    session first and looks at the channel later, under the lock; [jrPending] are the calls in between. *)
Record jready := MkJr { jrCur : option nat; jrGen : nat; jrClosed : bool; jrPending : list (option nat) }.

Definition jready0 : jready := MkJr None 0 false [].

Definition chan_closed (s : jready) (g : nat) : bool := bool_decide (g < jrGen s)%nat || (bool_decide (g = jrGen s) && jrClosed s).

Definition jr_swap (sess : option nat) (s : jready) : jready := MkJr sess (jrGen s) (jrClosed s) (jrPending s ++ [sess]).

(** Under the lock. *)
Definition jr_signal (sess : option nat) (s : jready) : jready :=
  match sess with
  | None => if jrClosed s then MkJr (jrCur s) (S (jrGen s)) false (jrPending s) else s
  | Some _ => MkJr (jrCur s) (jrGen s) true (jrPending s)
  end.

(** One call without another in between. *)
(* go: engine/jitsi/bridge.go 194-218 setJSession *)
Definition setJSession (sess : option nat) (s : jready) : jready :=
  jr_signal sess (MkJr sess (jrGen s) (jrClosed s) (jrPending s)).

(** What a call of [waitJSession] finds when it starts: nothing to wait for, or the generation it waits for. *)
(* go: engine/jitsi/bridge.go 220-233 waitJSession *)
Definition waitJSession (closed : bool) (s : jready) : option nat + nat :=
  if closed then inl None else match jrCur s with Some sess => inl (Some sess) | None => inr (jrGen s) end.

(** It wakes up when its channel is closed, and then takes the session there is. *)
(* go: engine/jitsi/bridge.go 235-245 waitJSession *)
Definition wait_wakes (s : jready) (g : nat) : option (option nat) := if chan_closed s g then Some (jrCur s) else None.

Inductive jr_event := JrSwap (sess : option nat) | JrSignal (i : nat).

Definition jr_step (s : jready) (e : jr_event) : jready :=
  match e with
  | JrSwap sess => jr_swap sess s
  | JrSignal i =>
      match jrPending s !! i with
      | Some sess => jr_signal sess (MkJr (jrCur s) (jrGen s) (jrClosed s) (delete i (jrPending s)))
      | None => s
      end
  end.

Definition jr_run (s : jready) (es : list jr_event) : jready := fold_left jr_step es s.

Lemma jr_step_gen s e : (jrGen s <= jrGen (jr_step s e))%nat.
Proof.
  destruct e as [sess|i]; simpl; [done|]. destruct (jrPending s !! i) as [[sess|]|]; simpl; [done| |done]. destruct (jrClosed s); simpl; lia.
Qed.

Lemma jr_step_closed s e g : chan_closed s g = true -> chan_closed (jr_step s e) g = true.
Proof.
  unfold chan_closed. rewrite !orb_true_iff, !andb_true_iff, !bool_decide_eq_true. intros H.
  destruct e as [sess|i]; simpl; [done|]. destruct (jrPending s !! i) as [[sess|]|]; simpl; [naive_solver| |done].
  destruct (jrClosed s) eqn:E; simpl; [left; lia|]. destruct H as [H|[-> H]]; [by left|done].
Qed.

Lemma jr_run_closed s es g : chan_closed s g = true -> chan_closed (jr_run s es) g = true.
Proof. revert s. induction es as [|e es IH]; intros s H; [done|]. by apply IH, jr_step_closed. Qed.

(** The signal of a session loses no waiter that waits when it is given: whatever other calls overlap, once a call that brings a
    session has been under the lock, every channel taken before is closed and stays closed.  When calls do not
    overlap the channel is closed exactly while there is a session, so a waiter gets the session there is, or else waits for the
    next call that brings one. *)
Theorem session_signal (es1 es2 : list jr_event) (i sess g : nat) (calls : list (option nat)) :
  let s := jr_run jready0 es1 in
  (jrPending s !! i = Some (Some sess) -> (g <= jrGen s)%nat -> chan_closed (jr_run s (JrSignal i :: es2)) g = true) /\
  (let q := fold_left (fun s c => setJSession c s) calls jready0 in
   jrCur q = default None (last calls) /\ jrClosed q = bool_decide (is_Some (jrCur q)) /\
   forall new, match waitJSession false q with
   | inl r => r = jrCur q /\ is_Some r
   | inr g' => jrCur q = None /\ wait_wakes q g' = None /\ wait_wakes (setJSession (Some new) q) g' = Some (Some new)
   end).
Proof.
  intros s. split.
  - intros Hp Hg. change (chan_closed (jr_run (jr_step s (JrSignal i)) es2) g = true). apply jr_run_closed. simpl. rewrite Hp. unfold chan_closed. simpl. rewrite orb_true_iff, andb_true_iff, !bool_decide_eq_true. lia.
  - intros q. assert (jrCur q = default None (last calls) /\ jrClosed q = bool_decide (is_Some (jrCur q))) as [Hc Hq].
    { unfold q. induction calls as [|c calls IH] using rev_ind; [done|]. rewrite fold_left_app, last_snoc. simpl. destruct IH as [_ IH].
      destruct c as [c|]; simpl; [done|]. set (p := fold_left _ calls _) in *. destruct (jrClosed p); simpl; by split. }
    split; [done|]. split; [done|]. intros new. unfold waitJSession. destruct (jrCur q) as [c|] eqn:E; [by split; [|eexists]|].
    unfold wait_wakes, chan_closed. simpl. rewrite Hq. simpl. rewrite andb_false_r, andb_true_r, orb_false_r.
    rewrite bool_decide_false by lia. by rewrite (bool_decide_true (jrGen q = jrGen q)), orb_true_r.
Qed.

Lemma session_signal_witness :
  let s := jr_run jready0 [JrSwap (Some 1%nat); JrSwap None] in
  jrPending s !! 0%nat = Some (Some 1%nat) /\ chan_closed (jr_run s [JrSignal 0; JrSignal 0]) 0 = true.
Proof. intros s. split; [done|]. exact (proj1 (session_signal [JrSwap (Some 1%nat); JrSwap None] [JrSignal 0] 0 1 0 []) eq_refl ltac:(cbn; lia)). Defined.

(** Overlapping calls can leave a session with a signal that says there is none: a call that removes the session is overtaken by one
    that brings a new one.  A waiter that has looked before waits for its timeout then. *)
Example overlapping_calls :
  let s := jr_run jready0 [JrSwap (Some 1%nat); JrSignal 0; JrSwap None; JrSwap (Some 2%nat); JrSignal 1; JrSignal 0] in
  jrCur s = Some 2%nat /\ jrPending s = [] /\ wait_wakes s (jrGen s) = None.
Proof. done. Qed.

(** ** Keep-alives *)

(** A tick of the XMPP loop: no session, an answer, or an error; [last] is the error of the last request for a reconnect. *)
Inductive ping_result := PingNoSession | PingOk | PingErr (reason : string).

(* go: engine/jitsi/keepalive.go 84-122 xmppKeepalive *)
Definition xmppKeepalive (last : string) (r : ping_result) : string * option string :=
  match r with
  | PingNoSession => (last, None)
  | PingOk => ("", None)
  | PingErr reason => if String.eqb reason last then (last, None) else (reason, Some reason)
  end.

Fixpoint xmpp_requests (last : string) (rs : list ping_result) : list string :=
  match rs with
  | [] => []
  | r :: rs => match xmppKeepalive last r with (last, None) => xmpp_requests last rs | (last, Some reason) => reason :: xmpp_requests last rs end
  end.

(** A failure asks for a reconnect unless it says the same as the one that asked last; until a ping succeeds, a session that was
    rebuilt and fails in the same way is not asked to be rebuilt again. *)
Lemma xmpp_requests_once last reason rs :
  reason <> "" -> last <> reason -> Forall (fun r => r = PingNoSession \/ r = PingErr reason) rs ->
  xmpp_requests last (PingErr reason :: rs) = [reason] /\ xmpp_requests last (PingErr reason :: rs ++ [PingOk; PingErr reason]) = [reason; reason].
Proof.
  intros Hne Hl Hrs. cbn [xmpp_requests xmppKeepalive app]. assert (String.eqb reason last = false) as -> by (apply String.eqb_neq; congruence).
  assert (forall rest, xmpp_requests reason (rs ++ rest) = xmpp_requests reason rest) as H.
  { intros rest. induction Hrs as [|r rs Hr Hrs IH]; [done|]. simpl. destruct Hr as [-> | ->]; simpl; [done|]. by rewrite String.eqb_refl. }
  split; [by rewrite <- (app_nil_r rs), H|]. rewrite H. simpl. by rewrite (proj2 (String.eqb_neq _ _) Hne).
Qed.

(** A tick of the bridge loop sends an empty frame, in the older shape. *)
(* go: engine/jitsi/keepalive.go 56-82 bridgeKeepalive *)
Definition bridgeKeepalive (b : bridge) : option (list (string * jval)) :=
  if negb (bgReady b) then None
  else match bgSession b with
       | None => None
       | Some _ => match encodeBridgeFrame b [] "" with Ok frame => Some (legacy_fields [] frame) | _ => None end
       end.

(** What a keep-alive carries is the empty frame of this session. *)
Lemma keepalive_frame b fields :
  bridgeKeepalive b = Some fields ->
  decodeRaw (MkBridgeMessage colibriClassEndpointMessage fields) = Some (bridge_frame (bgLocal b) (peerEpochFor b "") []).
Proof.
  unfold bridgeKeepalive, encodeBridgeFrame. destruct (bgReady b); [|done]. destruct (bgSession b); [|done]. cbn [negb].
  destruct (_ <? _); [done|]. intros [= <-]. set (fr := bridge_frame _ _ _).
  change (b64_decode (b64_encode fr) = Some fr). apply b64_roundtrip. unfold fr, bridge_frame, bridgeMagic.
  repeat (apply Forall_app; split); try apply be_put_bytes; repeat constructor; lia.
Qed.
