(* ===== verification/ConfigFile.v ===== *)
(** * ConfigFile: the configuration file (internal/config/config.go)

    [Load] and [ApplySettings], with the parts of the Go library they use:
    [utf8.Valid], [strings.TrimSpace] and the lexical path functions of
    path/filepath on Unix.  A string is its sequence of bytes.  The file system
    and the YAML decoder are the interfaces [OS] and [Yaml]. *)

From S2P Require Import Prelude Bytes Text Socks SessionConfig.

(** ** Library *)

Module Utf8.

Definition cont (b : Z) : bool := (128 <=? b) && (b <=? 191).
Definition within (b lo hi : Z) : bool := (lo <=? b) && (b <=? hi).

(** [utf8.Valid]: no overlong forms, surrogates or values past U+10FFFF. *)
Fixpoint Valid (l : bytes) : bool :=
  match l with
  | [] => true
  | b0 :: l1 =>
      if b0 <? 128 then Valid l1
      else
        match l1 with
        | [] => false
        | b1 :: l2 =>
            if within b0 194 223 then cont b1 && Valid l2
            else
              match l2 with
              | [] => false
              | b2 :: l3 =>
                  if within b0 224 239 then
                    (if b0 =? 224 then within b1 160 191
                     else if b0 =? 237 then within b1 128 159 else cont b1) && cont b2 && Valid l3
                  else
                    match l3 with
                    | [] => false
                    | b3 :: l4 =>
                        within b0 240 244 &&
                        (if b0 =? 240 then within b1 144 191
                         else if b0 =? 244 then within b1 128 143 else cont b1)
                        && cont b2 && cont b3 && Valid l4
                    end
              end
        end
  end.

End Utf8.

(** The encodings of the code points [unicode.IsSpace] accepts. *)
Definition spaces : list bytes :=
  [[9]; [10]; [11]; [12]; [13]; [32]; [194; 133]; [194; 160]; [225; 154; 128]]
  ++ ((fun b => [226; 128; b]) <$> [128; 129; 130; 131; 132; 133; 134; 135; 136; 137; 138; 168; 169; 175])
  ++ [[226; 129; 159]; [227; 128; 128]].

(** The length of the space at the front of a text, zero if there is none. *)
Definition space_at (sp : list bytes) (l : bytes) : nat :=
  match find (fun s => bool_decide (take (length s) l = s)) sp with
  | Some s => length s
  | None => 0%nat
  end.

Fixpoint trim_left (fuel : nat) (sp : list bytes) (l : bytes) : bytes :=
  match fuel with
  | O => l
  | S fuel =>
      match space_at sp l with
      | O => l
      | n => trim_left fuel sp (drop n l)
      end
  end.

(** [strings.TrimSpace]; a text of [n] bytes begins with at most [n] spaces. *)
Definition trim_bytes (l : bytes) : bytes :=
  let l := trim_left (length l) spaces l in
  rev (trim_left (length l) (@rev Z <$> spaces) (rev l)).

Definition TrimSpace (s : string) : string := bytes_string (trim_bytes (string_bytes s)).

Module Path.

Definition sep : Ascii.ascii := Ascii.ascii_of_N 47.

(** [strings.Split] at a character. *)
Fixpoint split (c : Ascii.ascii) (s : string) : list string :=
  match s with
  | EmptyString => [""]
  | String a s =>
      if Ascii.eqb a c then "" :: split c s
      else match split c s with
           | [] => [String a ""]
           | w :: ws => String a w :: ws
           end
  end.

Definition IsAbs (p : string) : bool := match p with String a _ => Ascii.eqb a sep | _ => false end.

(** The elements kept so far, the last one first. *)
Fixpoint clean_elements (rooted : bool) (kept : list string) (elems : list string) : list string :=
  match elems with
  | [] => rev kept
  | e :: elems =>
      if str_eqb e "" || str_eqb e "." then clean_elements rooted kept elems
      else if str_eqb e ".." then
        match kept with
        | k :: kept' =>
            if str_eqb k ".." then clean_elements rooted (".." :: kept) elems
            else clean_elements rooted kept' elems
        | [] => if rooted then clean_elements rooted [] elems else clean_elements rooted [".."] elems
        end
      else clean_elements rooted (e :: kept) elems
  end.

(** [filepath.Clean] on Unix. *)
Definition Clean (p : string) : string :=
  let rooted := IsAbs p in
  let body := String.concat "/" (clean_elements rooted [] (split sep p)) in
  if rooted then String sep body
  else if str_eqb body "" then "." else body.

(** The part of a path up to and with the last separator. *)
Fixpoint up_to_last_sep (p : string) : string :=
  match p with
  | EmptyString => EmptyString
  | String a p' =>
      match up_to_last_sep p' with
      | EmptyString => if Ascii.eqb a sep then String a "" else ""
      | d => String a d
      end
  end.

Definition Dir (p : string) : string := Clean (up_to_last_sep p).

(** [filepath.Join] of two elements. *)
Definition Join (a b : string) : string :=
  if negb (str_eqb a "") then Clean (a ++ "/" ++ b)%string
  else if negb (str_eqb b "") then Clean b
  else "".

End Path.

Example path_values :
  (Path.Clean "a/../../b//./c/" = "../b/c" /\ Path.Clean "/../x" = "/x" /\ Path.Clean "" = "." /\
   Path.Dir "/etc/olcrtc/config.yaml" = "/etc/olcrtc" /\ Path.Dir "config.yaml" = "." /\
   Path.Join "/etc/olcrtc" "../key" = "/etc/key" /\ TrimSpace (" ab c" ++ String (Ascii.ascii_of_N 10) "") = "ab c")%string.
Proof. by vm_compute. Qed.

(** ** Environment *)

Inductive os_error := ErrNotExist | OtherOSError.

(** The file system while the configuration is read. *)
Class OS : Type := { ReadFile : string -> outcome os_error string }.

(** ** The schema *)

(* go: config/config.go 84-88 Auth *)
Record Auth := MkAuth { auProvider : string; auToken : string }.
(* go: config/config.go 90-94 Room *)
Record Room := MkRoom { roID : string; roChannel : string }.
(* go: config/config.go 96-100 Crypto *)
Record CryptoSection := MkCrypto { crKey : string; crKeyFile : string }.
(* go: config/config.go 102-106 Net *)
Record Net := MkNet { ntTransport : string; ntDNS : string }.

(* go: config/config.go 108-118 SOCKS *)
Record SOCKS := MkSOCKS {
  soHost : string;
  soPort : Z;
  soUser : string;
  soPass : string;
  soProxyAddr : string;
  soProxyPort : Z;
  soProxyUser : string;
  soProxyPass : string;
}.

(* go: config/config.go 120-125 Engine *)
Record EngineSection := MkEngineSection { enName : string; enURL : string; enToken : string }.

(* go: config/config.go 127-145 Video *)
Record Video := MkVideo {
  viWidth : Z;
  viHeight : Z;
  viFPS : Z;
  viBitrate : string;
  viHW : string;
  viQRSize : Z;
  viQRRecovery : string;
  viCodec : string;
  viTileModule : Z;
  viTileRS : Z;
}.

(* go: config/config.go 147-151 VP8 *)
Record VP8 := MkVP8 { vpFPS : Z; vpBatchSize : Z }.
(* go: config/config.go 153-159 SEI *)
Record SEI := MkSEI { siFPS : Z; siBatchSize : Z; siFragmentSize : Z; siAckTimeoutMS : Z }.
(* go: config/config.go 161-166 Liveness *)
Record Liveness := MkLiveness { liInterval : string; liTimeout : string; liFailures : Z }.
(* go: config/config.go 168-171 Lifecycle *)
Record Lifecycle := MkLifecycle { lcMaxSessionDuration : string }.
(* go: config/config.go 173-178 Traffic *)
Record TrafficSection := MkTrafficSection { tfMaxPayloadSize : Z; tfMinDelay : string; tfMaxDelay : string }.
(* go: config/config.go 180-183 Gen *)
Record GenSection := MkGen { gnAmount : Z }.

(* go: config/config.go 35-51 Settings *)
Record FileSettings := MkSettings {
  stAuth : Auth;
  stRoom : Room;
  stCrypto : CryptoSection;
  stNet : Net;
  stSOCKS : SOCKS;
  stEngine : EngineSection;
  stVideo : Video;
  stVP8 : VP8;
  stSEI : SEI;
  stLiveness : Liveness;
  stLifecycle : Lifecycle;
  stTraffic : TrafficSection;
}.

(* go: config/config.go 72-76 Profile *)
Record FileProfile := MkFileProfile { fpName : string; fpSettings : FileSettings }.
(* go: config/config.go 78-82 Failover *)
Record Failover := MkFailover { foRetryDelay : string; foMaxCycles : Z }.

(* go: config/config.go 53-70 File *)
Record File := MkFile {
  flMode : string;
  flLink : string;
  flFFmpeg : string;
  flSettings : FileSettings;
  flGen : GenSection;
  flProfiles : list FileProfile;
  flFailover : Failover;
  flData : string;
  flDebug : bool;
}.

(** The zero values. *)
Definition no_settings : FileSettings :=
  MkSettings (MkAuth "" "") (MkRoom "" "") (MkCrypto "" "") (MkNet "" "") (MkSOCKS "" 0 "" "" "" 0 "" "")
    (MkEngineSection "" "" "") (MkVideo 0 0 0 "" "" 0 "" "" 0 0) (MkVP8 0 0) (MkSEI 0 0 0 0)
    (MkLiveness "" "" 0) (MkLifecycle "") (MkTrafficSection 0 "" "").
Definition no_file : File :=
  MkFile "" "" "" no_settings (MkGen 0) [] (MkFailover "" 0) "" false.
Definition no_config : Config :=
  MkConfig "" "" "" "" "" "" "" "" "" "" "" 0 "" "" "" None "" 0 "" "" (MkVideoConfig 0 0 0 0 "" "" 0 0)
    (MkVP8Config 0 0) (MkSEIConfig 0 0 0 0) "" "" 0 "" 0 "" "" 0.

(** What the decoder of gopkg.in/yaml.v3 does with a document, with unknown
    fields refused; an empty document is [io.EOF]. *)
Inductive yaml_result := Decoded (f : File) | DecodeEOF | DecodeError.
Class Yaml : Type := { DecodeFile : string -> yaml_result }.

(** ** Loading *)

(* go: config/config.go 24-33 Err* *)
Inductive load_error :=
| ErrConfigNotFound
| ErrReadConfig
| ErrConfigInvalidUTF8
| ErrParseConfig
| ErrCryptoKeyConflict
| ErrCryptoKeyFileEmpty
| ErrReadKeyFile
| ErrInProfile (i : nat) (e : load_error).

Section loading.
  Context `{OS} `{Yaml}.

(* go: config/config.go 250-268 readKeyFile *)
Definition readKeyFile (configPath keyFile : string) : outcome load_error string :=
  let keyPath := if negb (Path.IsAbs keyFile) then Path.Join (Path.Dir configPath) keyFile else keyFile in
  match ReadFile keyPath with
  | Ok data =>
      let key := TrimSpace data in
      if str_eqb key "" then Err ErrCryptoKeyFileEmpty else Ok key
  | Err _ => Err ErrReadKeyFile
  | Panic => Panic
  end.

(* go: config/config.go 238-248 resolveKey *)
Definition resolveKey (configPath : string) (crypto : CryptoSection) : outcome load_error string :=
  if str_eqb (crKeyFile crypto) "" then Ok (crKey crypto)
  else if negb (str_eqb (crKey crypto) "") then Err ErrCryptoKeyConflict
  else readKeyFile configPath (crKeyFile crypto).

Definition set_key (key : string) (s : FileSettings) : FileSettings :=
  MkSettings (stAuth s) (stRoom s) (MkCrypto key (crKeyFile (stCrypto s))) (stNet s) (stSOCKS s) (stEngine s)
    (stVideo s) (stVP8 s) (stSEI s) (stLiveness s) (stLifecycle s) (stTraffic s).

(** The loop over the profiles. *)
Fixpoint resolve_profiles (configPath : string) (i : nat) (ps : list FileProfile)
  : outcome load_error (list FileProfile) :=
  match ps with
  | [] => Ok []
  | p :: ps =>
      match resolveKey configPath (stCrypto (fpSettings p)) with
      | Ok key =>
          let* ps := resolve_profiles configPath (S i) ps in
          Ok (MkFileProfile (fpName p) (set_key key (fpSettings p)) :: ps)
      | Err e => Err (ErrInProfile i e)
      | Panic => Panic
      end
  end.

(* go: config/config.go 218-236 loadExternalSecrets *)
Definition loadExternalSecrets (configPath : string) (file : File) : outcome load_error File :=
  let* key := resolveKey configPath (stCrypto (flSettings file)) in
  let* ps := resolve_profiles configPath 0 (flProfiles file) in
  Ok (MkFile (flMode file) (flLink file) (flFFmpeg file) (set_key key (flSettings file)) (flGen file) ps
        (flFailover file) (flData file) (flDebug file)).

(* go: config/config.go 185-216 Load *)
Definition Load (path : string) : outcome load_error File :=
  match ReadFile path with
  | Err ErrNotExist => Err ErrConfigNotFound
  | Err _ => Err ErrReadConfig
  | Panic => Panic
  | Ok data =>
      if negb (Utf8.Valid (string_bytes data)) then Err ErrConfigInvalidUTF8
      else
        match DecodeFile data with
        | DecodeError => Err ErrParseConfig
        | DecodeEOF => loadExternalSecrets path no_file
        | Decoded file => loadExternalSecrets path file
        end
  end.

End loading.

(** ** Applying *)

(** [overlay] at the two types it is used with. *)
(* go: config/config.go 340-348 overlay *)
Definition overlay (base override : string) : string := if negb (str_eqb override "") then override else base.
Definition overlayZ (base override : Z) : Z := if negb (override =? 0) then override else base.

(* go: config/config.go 284-338 ApplySettings *)
Definition ApplySettings (dst : Config) (s : FileSettings) : Config :=
  {| cfMode := cfMode dst;
     cfTransport := overlay (cfTransport dst) (ntTransport (stNet s));
     cfDNSServer := overlay (cfDNSServer dst) (ntDNS (stNet s));
     cfProvider := overlay (cfProvider dst) (auProvider (stAuth s));
     cfProviderToken := overlay (cfProviderToken dst) (auToken (stAuth s));
     cfEngine := overlay (cfEngine dst) (enName (stEngine s));
     cfURL := overlay (cfURL dst) (enURL (stEngine s));
     cfToken := overlay (cfToken dst) (enToken (stEngine s));
     cfRoomID := overlay (cfRoomID dst) (roID (stRoom s));
     cfChannelID := overlay (cfChannelID dst) (roChannel (stRoom s));
     cfKeyHex := overlay (cfKeyHex dst) (crKey (stCrypto s));
     cfSOCKSHost := overlay (cfSOCKSHost dst) (soHost (stSOCKS s));
     cfSOCKSPort := overlayZ (cfSOCKSPort dst) (soPort (stSOCKS s));
     cfSOCKSUser := overlay (cfSOCKSUser dst) (soUser (stSOCKS s));
     cfSOCKSPass := overlay (cfSOCKSPass dst) (soPass (stSOCKS s));
     cfSOCKSProxyAddr := overlay (cfSOCKSProxyAddr dst) (soProxyAddr (stSOCKS s));
     cfSOCKSProxyPort := overlayZ (cfSOCKSProxyPort dst) (soProxyPort (stSOCKS s));
     cfSOCKSProxyUser := overlay (cfSOCKSProxyUser dst) (soProxyUser (stSOCKS s));
     cfSOCKSProxyPass := overlay (cfSOCKSProxyPass dst) (soProxyPass (stSOCKS s));
     cfResolver := cfResolver dst;
     cfVideo :=
       {| vcWidth := overlayZ (vcWidth (cfVideo dst)) (viWidth (stVideo s));
          vcHeight := overlayZ (vcHeight (cfVideo dst)) (viHeight (stVideo s));
          vcFPS := overlayZ (vcFPS (cfVideo dst)) (viFPS (stVideo s));
          vcQRSize := overlayZ (vcQRSize (cfVideo dst)) (viQRSize (stVideo s));
          vcQRRecovery := overlay (vcQRRecovery (cfVideo dst)) (viQRRecovery (stVideo s));
          vcCodec := overlay (vcCodec (cfVideo dst)) (viCodec (stVideo s));
          vcTileModule := overlayZ (vcTileModule (cfVideo dst)) (viTileModule (stVideo s));
          vcTileRS := overlayZ (vcTileRS (cfVideo dst)) (viTileRS (stVideo s)) |};
     cfVP8 :=
       {| v8FPS := overlayZ (v8FPS (cfVP8 dst)) (vpFPS (stVP8 s));
          v8BatchSize := overlayZ (v8BatchSize (cfVP8 dst)) (vpBatchSize (stVP8 s)) |};
     cfSEI :=
       {| seFPS := overlayZ (seFPS (cfSEI dst)) (siFPS (stSEI s));
          seBatchSize := overlayZ (seBatchSize (cfSEI dst)) (siBatchSize (stSEI s));
          seFragmentSize := overlayZ (seFragmentSize (cfSEI dst)) (siFragmentSize (stSEI s));
          seAckTimeoutMS := overlayZ (seAckTimeoutMS (cfSEI dst)) (siAckTimeoutMS (stSEI s)) |};
     cfLivenessInterval := overlay (cfLivenessInterval dst) (liInterval (stLiveness s));
     cfLivenessTimeout := overlay (cfLivenessTimeout dst) (liTimeout (stLiveness s));
     cfLivenessFailures := overlayZ (cfLivenessFailures dst) (liFailures (stLiveness s));
     cfMaxSessionDuration := overlay (cfMaxSessionDuration dst) (lcMaxSessionDuration (stLifecycle s));
     cfTrafficMaxPayloadSize := overlayZ (cfTrafficMaxPayloadSize dst) (tfMaxPayloadSize (stTraffic s));
     cfTrafficMinDelay := overlay (cfTrafficMinDelay dst) (tfMinDelay (stTraffic s));
     cfTrafficMaxDelay := overlay (cfTrafficMaxDelay dst) (tfMaxDelay (stTraffic s));
     cfAmount := cfAmount dst |}.

(* go: config/config.go 270-277 Apply *)
Definition Apply (file : File) : Config :=
  set_Amount (gnAmount (flGen file)) (set_Mode (flMode file) (ApplySettings no_config (flSettings file))).

(* go: config/config.go 279-282 ApplyProfile *)
Definition ApplyProfile (base : Config) (profile : FileProfile) : Config := ApplySettings base (fpSettings profile).
