(* ===== verification/ClientRun.v ===== *)
(** * ClientRun: around the client's session
    (internal/client: client.go, tunnel.go, health.go; internal/tunnelcore/control.go)

    The identity of the device and its file, the run of a client from its keys to its shutdown, one SOCKS tunnel with the
    replies the application sees, and the control loop's evidence about the link. *)

From S2P Require Import Prelude Bytes Text Durations Framing Traffic Control Socks SessionConfig SessionRun ConfigFile CopyLoop.

(** ** The device id *)

(** A file: its content, or what cannot be read. *)
Notation files := (gmap string (option string)).

Inductive device_error := ErrReadDeviceID | ErrMkdirDeviceID | ErrWriteDeviceID.

Definition newline : string := String (Ascii.ascii_of_nat 10) "".

(** [uuid] is the fresh identifier; whether the directory and the file can be written is an argument. *)
(* go: client/client.go 214-237 resolveDeviceID *)
Definition resolveDeviceID (uuid : string) (mkdirOk writeOk : bool) (deviceID path : string) (fs : files)
  : files * outcome device_error string :=
  if negb (str_eqb deviceID "") then (fs, Ok deviceID)
  else if str_eqb path "" then (fs, Ok uuid)
  else
    match fs !! path with
    | Some None => (fs, Err ErrReadDeviceID)
    | entry =>
        let id := match entry with Some (Some data) => TrimSpace data | _ => "" end in
        if negb (str_eqb id "") then (fs, Ok id)
        else if negb mkdirOk then (fs, Err ErrMkdirDeviceID)
        else if negb writeOk then (fs, Err ErrWriteDeviceID)
        else (<[path := Some (uuid ++ newline)%string]> fs, Ok uuid)
    end.

(** The text of an identifier survives the file. *)
Definition plain_id (uuid : string) : Prop := uuid <> "" /\ TrimSpace (uuid ++ newline)%string = uuid.

(** A device keeps its identity: once a path has given an id, every later run with that path gets the same one, whatever it would have
    generated and whether or not it could write; no file but that of the path is touched, and a file that holds an id is
    never written. *)
Theorem device_id_stable (uuid path id : string) (mkdirOk writeOk : bool) (fs fs' : files) :
  plain_id uuid -> path <> "" -> resolveDeviceID uuid mkdirOk writeOk "" path fs = (fs', Ok id) ->
  (forall uuid' mkdirOk' writeOk', resolveDeviceID uuid' mkdirOk' writeOk' "" path fs' = (fs', Ok id)) /\
  (forall p, p <> path -> fs' !! p = fs !! p) /\
  (forall data, fs !! path = Some (Some data) -> TrimSpace data <> "" -> fs' = fs /\ id = TrimSpace data).
Proof.
  intros [Hne Hplain] Hpath. unfold resolveDeviceID. cbn [negb]. change (str_eqb "" "") with true. cbn [negb].
  destruct (String.eqb_spec path "") as [|_]; [done|].
  assert (forall a b : string, a <> b -> str_eqb a b = false) as Hneq by (intros; by apply String.eqb_neq).
  destruct (fs !! path) as [[data|]|] eqn:Ef; [|done|].
  - destruct (String.eqb_spec (TrimSpace data) "") as [Et|Et]; cbn [negb].
    + destruct mkdirOk; cbn [negb]; [|done]. destruct writeOk; cbn [negb]; [|done]. intros [= <- <-].
      split; [|split; [by intros; apply lookup_insert_ne|naive_solver]].
      intros. by rewrite lookup_insert_eq, Hplain, Hneq.
    + intros [= <- <-]. split; [intros; by rewrite Ef, Hneq|]. naive_solver.
  - cbn [negb str_eqb]. change (str_eqb "" "") with true. cbn [negb].
    destruct mkdirOk; cbn [negb]; [|done]. destruct writeOk; cbn [negb]; [|done]. intros [= <- <-].
    split; [|split; [by intros; apply lookup_insert_ne|done]]. intros. by rewrite lookup_insert_eq, Hplain, Hneq.
Qed.

Lemma device_id_stable_witness :
  let fs := <["/id" := Some ("f47ac10b" ++ newline)%string]> (<["/other" := None]> ∅ : files) in
  resolveDeviceID "new" false false "" "/id" fs = (fs, Ok "f47ac10b").
Proof.
  intros fs.
  refine (proj1 (device_id_stable "f47ac10b" "/id" "f47ac10b" true true (<["/other" := None]> ∅) _ _ _ eq_refl) "new" false false);
    [split; [done|by vm_compute]|done].
Defined.

(** ** One tunnel *)

Section tunnel.
Context `{J : ConnectJSON, N : NetIP}.

(** The acknowledgement is an error of its own. *)
(* go: client/tunnel.go 69-72 connectAckError *)
Inductive connect_error := ConnectAckError (code : Z) | ConnectFailed (e : socks_error).

(* go: client/tunnel.go 80-86 replyForConnectError *)
Definition replyForConnectError (e : connect_error) (target : bytes) : bytes :=
  match e with ConnectAckError code => socks5Reply code target | ConnectFailed _ => replyHostUnreachable target end.

(** [sendConnectRequest] returns the acknowledgement it read. *)
Definition connect_result (r : outcome socks_error Z) : option connect_error :=
  match r with
  | Ok code => if code =? ConnectAckOK then None else Some (ConnectAckError code)
  | Err e => Some (ConnectFailed e)
  | Panic => None
  end.

(** The application's connection, the stream if it can be opened; the result is both after the exchange and whether the copy
    loops run. *)
(* go: client/tunnel.go 19-43 tunnel *)
Definition tunnel (app : conn) (stream : option conn) (targetAddr : bytes) (targetPort : Z) : conn * option conn * bool :=
  match stream with
  | None => ((sm_try_write (replyHostUnreachable targetAddr) app).1, None, false)
  | Some stream =>
      let (stream, r) := sendConnectRequest targetAddr targetPort stream in
      match connect_result r with
      | Some e => ((sm_try_write (replyForConnectError e targetAddr) app).1, Some stream, false)
      | None =>
          match sm_write (replySuccess targetAddr) app with
          | (app, Ok _) => (app, Some stream, true)
          | (app, _) => (app, Some stream, false)
          end
      end
  end.

(** What the application is told: the code in the reply. *)
Definition tunnel_code (stream : option conn) (targetAddr : bytes) (targetPort : Z) : Z :=
  match stream with
  | None => socksRepHostUnreachable
  | Some s => match (sendConnectRequest targetAddr targetPort s).2 with Ok code => code | _ => socksRepHostUnreachable end
  end.

(** The request goes out whole or the exchange fails, and the acknowledgement is the first byte of the stream. *)
Lemma sendConnectRequest_cases addr port s :
  (exists code rest s', sendConnectRequest addr port s = (s', Ok code) /\ cnIn s = code :: rest /\ cnIn s' = rest /\
     sink (cnOut s') = sink (cnOut s) ++ cj_marshal (MkConnectRequest connectCommand addr port)) \/
  exists s' e, sendConnectRequest addr port s = (s', Err e).
Proof.
  unfold sendConnectRequest, mbind, SM_bind, sm_write. destruct (io_Write (cnOut s) _) as [w []] eqn:Ew; cbn; [|right; by eexists _, _].
  unfold sm_read. cbn [cnIn]. destruct (cnIn s) as [|b l]; [right; by eexists _, _|]. left.
  change (b :: l) with ([b] ++ l). rewrite ReadFull_app by done. cbn. exists b, l. eexists. split; [done|]. split; [done|]. split; [done|].
  cbn. unfold io_Write in Ew. destruct (script (cnOut s)) as [|[n|] sc]; by injection Ew as <-.
Qed.

(** C23: One request of an application over the tunnel: it gets exactly one reply, and the reply is success exactly when the server has
    acknowledged the connection; the server's refusal code is passed on, and every other failure is "host unreachable".
    The copy loops start exactly when a success reply has gone out whole, and what they find in the stream is what follows the
    acknowledgement. *)
Theorem tunnel_replies (app : conn) (stream : option conn) (addr : bytes) (port : Z) :
  let code := tunnel_code stream addr port in
  let '(app', stream', copying) := tunnel app stream addr port in
  cnOut app' = (io_Write (cnOut app) (socks5Reply code addr)).1 /\ cnIn app' = cnIn app /\
  copying = (code =? socksRepSuccess) && (io_Write (cnOut app) (socks5Reply code addr)).2 /\
  (copying = true -> exists s s' rest, stream = Some s /\ stream' = Some s' /\ cnIn s = ConnectAckOK :: rest /\ cnIn s' = rest).
Proof.
  unfold tunnel, tunnel_code. destruct stream as [s|]; [|by split].
  destruct (sendConnectRequest_cases addr port s) as [(code & rest & s' & E & Hin & Hrest & _)|(s' & e & E)]; rewrite E; [|by split].
  cbn [snd connect_result]. change ConnectAckOK with 0. change socksRepSuccess with 0. destruct (Z.eqb_spec code 0) as [->|Hc]; [|by split].
  unfold sm_write, replySuccess. change socksRepSuccess with 0. destruct (io_Write (cnOut app) _) as [w []]; [|by split]. cbn. split; [done|]. split; [done|].
  split; [done|]. intros _. by exists s, s', rest.
Qed.
End tunnel.

(** ** The control loop and its evidence *)

(** The timeout of the liveness checks is raised on transports with a control plane of their own. *)
(* go: tunnelcore/control.go 48-52 tunedConfig *)
Definition tunedConfig (isControlPlane : bool) (cfg : CtlConfig) : CtlConfig :=
  if isControlPlane && (ccTimeout cfg <=? DefaultTimeout)
  then MkCtlConfig (ccInterval cfg) (LivenessTimeout isControlPlane) (ccFailures cfg) else cfg.

(** The callbacks of the loop go to the health tracker. *)
(* go: tunnelcore/control.go 53-81 tunedConfig *)
Definition runner_call (now : Z) (h : HealthTracker) (call : ctl_call) : HealthTracker :=
  match call with
  | OnPong p => RecordPong p h
  | OnMissedPong missed => RecordMissed missed h
  | OnUnhealthy missed => RecordUnhealthy missed now h
  end.

(** The last pong, which outlives the session, and what the transport was last told. *)
Record link_health := MkLh { lhLastPong : option Z; lhUnhealthy : bool }.

Inductive lh_event := LhPong (now : Z) | LhTick (now : Z).

Definition staleFactor : Z := 2.

(* go: client/health.go 46-63 watchControlStaleness *)
Definition watchControlStaleness (interval : Z) (s : link_health) (e : lh_event) : link_health :=
  match e with
  | LhPong now => MkLh (Some now) false
  | LhTick now =>
      MkLh (lhLastPong s) (match lhLastPong s with Some last => i64 (staleFactor * interval) <? now - last | None => false end)
  end.

Definition lh_run (interval : Z) (s : link_health) (es : list lh_event) : link_health := fold_left (watchControlStaleness interval) es s.

Definition last_pong (s : link_health) (es : list lh_event) : option Z :=
  fold_left (fun l e => match e with LhPong now => Some now | LhTick _ => l end) es (lhLastPong s).

Lemma lh_run_last interval s es : lhLastPong (lh_run interval s es) = last_pong s es.
Proof.
  unfold lh_run, last_pong. revert s. induction es as [|e es IH]; intros s; [done|]. simpl. rewrite IH. by destruct e.
Qed.

(** The transport is told that the link is in trouble at a tick exactly when the last pong, of any session, is more than two
    intervals old, and a pong takes it back.  Because the last pong survives a reconnect, a session that replaces one which
    has been silent for longer than the interval is reported as in trouble at its first tick, when its first ping is only
    being sent and it has missed nothing. *)
Theorem staleness_evidence (cfg : CtlConfig) (s : link_health) (es : list lh_event) (now start : Z) :
  let interval := ccInterval (ctl_withDefaults cfg) in
  interval < 2 ^ 62 ->
  (lhUnhealthy (lh_run interval s (es ++ [LhTick now])) = true <->
     exists last, last_pong s es = Some last /\ 2 * interval < now - last) /\
  lhUnhealthy (lh_run interval s (es ++ [LhPong now])) = false /\
  (forall last, last_pong s es = Some last -> last + interval < start ->
     lhUnhealthy (lh_run interval s (es ++ [LhTick (start + interval)])) = true /\
     exists ctl ping, probe_section (ctl_start cfg) (start + interval) = (ctl, [], Ok ping)).
Proof.
  intros interval Hi.
  assert (0 < interval) as Hp.
  { unfold interval, ctl_withDefaults. simpl. destruct (Z.leb_spec (ccInterval cfg) 0); [by vm_compute|lia]. }
  assert (i64 (staleFactor * interval) = 2 * interval) as Hw by (unfold staleFactor; apply i64_small; lia).
  assert (forall t, lhUnhealthy (lh_run interval s (es ++ [LhTick t])) = true <->
     exists last, last_pong s es = Some last /\ 2 * interval < t - last) as Ht.
  { intros t. unfold lh_run. rewrite fold_left_app. simpl. fold (lh_run interval s es). rewrite lh_run_last, Hw.
    destruct (last_pong s es) as [last|]; [|naive_solver]. rewrite Z.ltb_lt. naive_solver. }
  split; [apply Ht|]. split; [unfold lh_run; by rewrite fold_left_app|]. intros last Hl Hs. split; [apply Ht; exists last; split; [done|lia]|].
  assert (0 < ccFailures (ctl_withDefaults cfg)) as Hf.
  { unfold ctl_withDefaults. simpl. destruct (Z.leb_spec (ccFailures cfg) 0); [by vm_compute|lia]. }
  unfold probe_section, ctl_start, overdue. cbn [ctlCfg ctlPending ctlFailures]. rewrite map_filter_empty, map_size_empty.
  rewrite (proj2 (Z.leb_gt _ _)) by (simpl Z.of_nat; lia). by eexists _, _.
Qed.

Lemma staleness_evidence_witness :
  lhUnhealthy (lh_run DefaultInterval (MkLh (Some 0) false) ([] ++ [LhTick (100 * 1000000000 + DefaultInterval)])) = true.
Proof.
  apply (proj2 (proj2 (staleness_evidence (MkCtlConfig 0 0 0) (MkLh (Some 0) false) [] 0 (100 * 1000000000) eq_refl)) 0 eq_refl eq_refl).
Defined.

(** ** The run of a client *)

(** What happens outside the session, in order; the wait for the end of the context is [RcWait]. *)
Inductive rc_event := RcBringUp | RcListen | RcReady (addr : string) | RcAccept | RcWait | RcCloseListener | RcCancel | RcShutdown.

Inductive rc_error := RcKeys | RcDevice (e : device_error) | RcLink | RcListenFailed.

(** The outcomes of the key set-up, of the device id, of the link and of the listener are arguments; [ready] is whether the caller
    wants the address. *)
(* go: client/client.go 127-164 RunWithAddress *)
Definition RunWithAddress (keysOk : bool) (device : outcome device_error string) (linkOk : bool) (listener : option string) (ready : bool)
  : list rc_event * outcome rc_error unit :=
  if negb keysOk then ([RcCancel], Err RcKeys)
  else
    match device with
    | Err e => ([RcCancel], Err (RcDevice e))
    | Panic => ([RcCancel], Panic)
    | Ok _ =>
        let deferred := [RcCancel; RcShutdown; RcCancel] in
        if negb linkOk then (RcBringUp :: deferred, Err RcLink)
        else
          match listener with
          | None => ([RcBringUp; RcListen] ++ deferred, Err RcListenFailed)
          | Some addr =>
              ([RcBringUp; RcListen] ++ (if ready then [RcReady addr] else []) ++ [RcAccept; RcWait; RcCloseListener] ++ deferred, Ok tt)
          end
    end.
