(* ===== verification/Command.v ===== *)
(** * Command: the olcrtc command (cmd/olcrtc/main.go, internal/names/names.go,
    internal/app/session/gen.go)

    From the argument list to what is run: [runWithArgs] ends in an error or in the
    work it hands to [runManaged], here a [command].  Log output is left out. *)

From stdpp Require Import pretty.
From S2P Require Import Prelude Bytes Text Durations Socks SessionConfig SessionRun Supervisor ConfigFile Crypto SocksFacts SessionFacts SessionProps.

(** ** Display names *)

(* go: names/names.go 35-38 pool *)
Record pool := MkPool { poFirst : list string; poLast : list string }.

Definition newline : Ascii.ascii := Ascii.ascii_of_N 10.

(** The loop of both readers: trimmed lines, blank ones left out. *)
Definition usable_lines (lines : list string) : list string :=
  filter (fun l => l <> "") (TrimSpace <$> lines).

(* go: names/names.go 48-59 parseLines *)
Definition parseLines (raw : string) : list string := usable_lines (Path.split newline raw).

(* go: names/names.go 40-46 init *)
Definition embedded_pool (embeddedNames embeddedSurnames : string) : pool :=
  MkPool (parseLines embeddedNames) (parseLines embeddedSurnames).

(** [bufio.MaxScanTokenSize]: a line must end within the buffer. *)
Definition MaxScanTokenSize : Z := 64 * 1024.

Fixpoint dropCR (s : string) : string :=
  match s with
  | EmptyString => EmptyString
  | String a EmptyString => if Ascii.eqb a (Ascii.ascii_of_N 13) then "" else s
  | String a s => String a (dropCR s)
  end.

(** [bufio.Scanner] with [ScanLines] over a whole file, [None] for
    [bufio.ErrTooLong]. *)
Fixpoint scan_lines (pieces : list string) : option (list string) :=
  match pieces with
  | [] => Some []
  | [l] => if MaxScanTokenSize <=? Z.of_nat (String.length l) then None
           else Some (if str_eqb l "" then [] else [dropCR l])
  | l :: pieces =>
      if MaxScanTokenSize <=? Z.of_nat (String.length l) then None
      else match scan_lines pieces with Some ls => Some (dropCR l :: ls) | None => None end
  end.

Inductive names_error := ErrOpenNames | ErrScanNames | ErrEmptyDictionary.

Section names.
  Context `{OS}.

(* go: names/names.go 61-88 loadFile *)
Definition loadFile (path : string) : outcome names_error (list string) :=
  match ReadFile path with
  | Err _ => Err ErrOpenNames
  | Panic => Panic
  | Ok data =>
      match scan_lines (Path.split newline data) with
      | None => Err ErrScanNames
      | Some lines =>
          let out := usable_lines lines in
          if len out =? 0 then Err ErrEmptyDictionary else Ok out
      end
  end.

(** The pool that is stored, or the error and no change. *)
(* go: names/names.go 90-107 LoadNameFiles *)
Definition LoadNameFiles (firstPath lastPath : string) : outcome names_error pool :=
  let* first := loadFile firstPath in
  let* last := loadFile lastPath in
  Ok (MkPool first last).

(* go: src/native/olcrtc/cmd/olcrtc/main.go 356-371 loadNameOverrides *)
Definition loadNameOverrides (p : pool) (dataDir : string) : outcome names_error pool :=
  if str_eqb dataDir "" then Ok p
  else LoadNameFiles (Path.Join dataDir "names") (Path.Join dataDir "surnames").

End names.

(** [rnd] is what [rand.Int] returned, [None] for an error. *)
(* go: names/names.go 119-130 randomIndex *)
Definition randomIndex (limit : Z) (rnd : option Z) : Z :=
  if limit <=? 1 then 0 else match rnd with None => 0 | Some n => n end.

(* go: names/names.go 109-117 Generate *)
Definition Generate (p : pool) (rnd1 rnd2 : option Z) : outcome names_error string :=
  if (len (poFirst p) =? 0) || (len (poLast p) =? 0) then Ok "anonymous user"
  else
    match poFirst p !! Z.to_nat (randomIndex (len (poFirst p)) rnd1),
          poLast p !! Z.to_nat (randomIndex (len (poLast p)) rnd2) with
    | Some f, Some l => Ok (f ++ " " ++ l)%string
    | _, _ => Panic
    end.

(** ** Room generation *)

(* go: app/session/gen.go 16-38 ValidateGen *)
Definition ValidateGen (R : Registries) (cfg : Config) : option cfg_error :=
  if str_eqb (cfProvider cfg) "" then Some ErrProviderRequired
  else if negb (slices_Contains (Available (rgBuiltin R)) (cfProvider cfg)) then Some ErrUnsupportedProvider
  else if str_eqb (cfDNSServer cfg) "" && bool_decide (cfResolver cfg = None) then Some ErrDNSServerRequired
  else if cfAmount cfg <? 1 then Some ErrAmountRequired
  else
    match rgAuth R !! cfProvider cfg with
    | None => Some ErrUnsupportedProvider
    | Some provider => if pvRoomCreator provider then None else Some ErrUnsupportedProvider
    end.

(* go: app/session/gen.go 53-56 genMaxAttempts *)
Definition genMaxAttempts : nat := 5.

(** One call of [CreateRoom], and whether the context is done during the delay
    after it. *)
Record gen_attempt {E : Type} := MkGenAttempt { gaResult : E + string; gaCancelled : bool }.
Arguments gen_attempt : clear implicits.

Inductive gen_error (E : Type) := ErrCreateRoom (e : E) | ErrGenCanceled | ErrGenProvider.
Arguments ErrCreateRoom {E} e.
Arguments ErrGenCanceled {E}.
Arguments ErrGenProvider {E}.

Section gen.
  Context {E : Type}.

(** The attempts still to be made, after [lastErr]; a script that is too short is a
    call that has not returned. *)
Fixpoint gen_retry (more : nat) (lastErr : option E) (script : list (gen_attempt E))
  : option (outcome (gen_error E) string * list (gen_attempt E)) :=
  match more with
  | O => match lastErr with
         | Some e => Some (Err (ErrCreateRoom e), script)
         | None => Some (Ok "", script)
         end
  | S more =>
      match script with
      | [] => None
      | a :: script =>
          match gaResult a with
          | inr id => Some (Ok id, script)
          | inl e =>
              if (more =? 0)%nat then gen_retry more (Some e) script
              else if gaCancelled a then Some (Err ErrGenCanceled, script)
              else gen_retry more (Some e) script
          end
      end
  end.

(* go: app/session/gen.go 58-75 genRetry *)
Definition genRetry (script : list (gen_attempt E)) := gen_retry genMaxAttempts None script.

Fixpoint gen_rooms (n : nat) (script : list (gen_attempt E)) : option (list string * option (gen_error E)) :=
  match n with
  | O => Some ([], None)
  | S n =>
      match genRetry script with
      | None => None
      | Some (Ok id, script) =>
          match gen_rooms n script with
          | Some (ids, err) => Some (id :: ids, err)
          | None => None
          end
      | Some (Err e, _) => Some ([], Some e)
      | Some (Panic, _) => None
      end
  end.

(** The rooms that are written out and the error. *)
(* go: app/session/gen.go 77-106 Gen *)
Definition Gen (R : Registries) (cfg : Config) (script : list (gen_attempt E))
  : option (list string * option (gen_error E)) :=
  match rgAuth R !! cfProvider cfg with
  | None => Some ([], Some ErrGenProvider)
  | Some provider =>
      if negb (pvRoomCreator provider) then Some ([], Some ErrGenProvider)
      else gen_rooms (Z.to_nat (cfAmount cfg)) script
  end.

End gen.

(** ** The command *)

Inductive cmd_error :=
| ErrConfigPathRequired
| ErrLoadConfig (e : load_error)
| ErrParseRetryDelay
| ErrProfilesUnsupportedForGen
| ErrValidateGen (e : cfg_error)
| ErrValidateConfig (e : cfg_error)
| ErrValidateProfile (name : string) (e : cfg_error)
| ErrLoadNames (e : names_error).

(* go: src/native/olcrtc/cmd/olcrtc/main.go 55-58 failoverConfig *)
Record failoverConfig := MkFailoverConfig { fcRetryDelay : Z; fcMaxCycles : Z }.

(* go: src/native/olcrtc/cmd/olcrtc/main.go 46-53 loadedConfig *)
Record loadedConfig := MkLoaded {
  ldCfg : Config;
  ldProfiles : list (string * Config);
  ldFailover : failoverConfig;
  ldDataDir : string;
  ldDebug : bool;
}.

(** What is handed to [runManaged]: one session, the supervisor over profiles, or
    room generation. *)
Inductive command :=
| RunSession (cfg : Config)
| RunFailover (profiles : list (string * Config)) (retryDelay maxCycles : Z)
| RunGen (cfg : Config).

(* go: src/native/olcrtc/cmd/olcrtc/main.go 132-145 parseFailoverConfig *)
Definition parseFailoverConfig (f : Failover) : outcome cmd_error failoverConfig :=
  if negb (str_eqb (foRetryDelay f) "") then
    match ParseDuration (foRetryDelay f) with
    | None => Err ErrParseRetryDelay
    | Some parsed => Ok (MkFailoverConfig parsed (foMaxCycles f))
    end
  else Ok (MkFailoverConfig DefaultRetryDelay (foMaxCycles f)).

(* go: src/native/olcrtc/cmd/olcrtc/main.go 345-354 resolveDataDir *)
Definition resolveDataDir (configPath dataDir : string) : string :=
  if str_eqb dataDir "" || Path.IsAbs dataDir then dataDir
  else Path.Join (Path.Dir configPath) dataDir.

(** The decimal digits [%d] prints for the position of a profile. *)
Definition profile_name (i : nat) (name : string) : string :=
  if str_eqb name "" then ("profile-" ++ pretty (i + 1)%nat)%string else name.

Section command.
  Context `{OS} `{Yaml} `{NetIP}.

(* go: src/native/olcrtc/cmd/olcrtc/main.go 97-130 loadConfig *)
Definition loadConfig (path : string) : outcome cmd_error loadedConfig :=
  match Load path with
  | Err e => Err (ErrLoadConfig e)
  | Panic => Panic
  | Ok file =>
      let base := Apply file in
      let profiles := imap (fun i p => (profile_name i (fpName p), ApplyProfile base p)) (flProfiles file) in
      let* failover := parseFailoverConfig (flFailover file) in
      Ok (MkLoaded base profiles failover (resolveDataDir path (flData file)) (flDebug file))
  end.

(* go: src/native/olcrtc/cmd/olcrtc/main.go 168-177 prepareProfiles *)
Definition prepareProfiles (R : Registries) (profiles : list (string * Config)) : list (string * Config) :=
  (fun p => (p.1, ApplyDefaults R p.2)) <$> profiles.

(* go: src/native/olcrtc/cmd/olcrtc/main.go 179-191 runSessionMode *)
Definition runSessionMode (R : Registries) (names : pool) (dataDir : string) (scfg : Config)
  : outcome cmd_error (pool * command) :=
  match Validate R scfg with
  | Some e => Err (ErrValidateConfig e)
  | None =>
      match loadNameOverrides names dataDir with
      | Ok names => Ok (names, RunSession scfg)
      | Err e => Err (ErrLoadNames e)
      | Panic => Panic
      end
  end.

Fixpoint validate_profiles (R : Registries) (profiles : list (string * Config)) : option cmd_error :=
  match profiles with
  | [] => None
  | (name, cfg) :: profiles =>
      match Validate R cfg with
      | Some e => Some (ErrValidateProfile name e)
      | None => validate_profiles R profiles
      end
  end.

(* go: src/native/olcrtc/cmd/olcrtc/main.go 193-225 runFailoverSessionMode *)
Definition runFailoverSessionMode (R : Registries) (names : pool) (dataDir : string)
    (profiles : list (string * Config)) (failover : failoverConfig) : outcome cmd_error (pool * command) :=
  match validate_profiles R profiles with
  | Some e => Err e
  | None =>
      match loadNameOverrides names dataDir with
      | Ok names => Ok (names, RunFailover profiles (fcRetryDelay failover) (fcMaxCycles failover))
      | Err e => Err (ErrLoadNames e)
      | Panic => Panic
      end
  end.

(* go: src/native/olcrtc/cmd/olcrtc/main.go 290-298 execGen *)
Definition execGen (R : Registries) (names : pool) (scfg : Config) : outcome cmd_error (pool * command) :=
  match ValidateGen R scfg with
  | Some e => Err (ErrValidateGen e)
  | None => Ok (names, RunGen scfg)
  end.

(* go: src/native/olcrtc/cmd/olcrtc/main.go 147-166 runWithConfig *)
Definition runWithConfig (R : Registries) (names : pool) (cfg : loadedConfig) : outcome cmd_error (pool * command) :=
  let scfg := ApplyDefaults R (ldCfg cfg) in
  if str_eqb (cfMode scfg) ModeGen then
    if 0 <? len (ldProfiles cfg) then Err ErrProfilesUnsupportedForGen
    else execGen R names scfg
  else if 0 <? len (ldProfiles cfg) then
    runFailoverSessionMode R names (ldDataDir cfg) (prepareProfiles R (ldProfiles cfg)) (ldFailover cfg)
  else runSessionMode R names (ldDataDir cfg) scfg.

(* go: src/native/olcrtc/cmd/olcrtc/main.go 81-95 runWithArgs *)
Definition runWithArgs (R : Registries) (names : pool) (args : list string) : outcome cmd_error (pool * command) :=
  let R := RegisterDefaults R in
  match args with
  | [path] =>
      if str_eqb path "-h" || str_eqb path "--help" || str_eqb path "-help" then Err ErrConfigPathRequired
      else let* cfg := loadConfig path in runWithConfig R names cfg
  | _ => Err ErrConfigPathRequired
  end.

End command.

(** ** Running until a signal *)

(** What [runManaged] selects on, in the order in which it happens. *)
Inductive managed_event {E : Type} := RunReturned (err : option E) | SignalArrives | GraceElapsed.
Arguments managed_event : clear implicits.

Section managed.
  Context {E : Type}.

(* go: src/native/olcrtc/cmd/olcrtc/main.go 373-386 waitForShutdown *)
Fixpoint waitForShutdown (events : list (managed_event E)) : option (option E) :=
  match events with
  | [] => None
  | RunReturned err :: _ => Some err
  | GraceElapsed :: _ => Some None
  | SignalArrives :: events => waitForShutdown events
  end.

(** Whether the context was cancelled, and the result, [None] while it waits. *)
(* go: src/native/olcrtc/cmd/olcrtc/main.go 264-288 runManaged *)
Fixpoint runManaged (events : list (managed_event E)) : bool * option (option E) :=
  match events with
  | [] => (false, None)
  | SignalArrives :: events => (true, waitForShutdown events)
  | RunReturned err :: _ => (false, Some err)
  | GraceElapsed :: events => runManaged events
  end.

End managed.

(** ** What is proved: what a configuration file makes the command run *)

(** ** Profiles are overlays *)

(** The settings a session configuration stands for. *)
Definition settings_of (c : Config) : FileSettings :=
  MkSettings (MkAuth (cfProvider c) (cfProviderToken c)) (MkRoom (cfRoomID c) (cfChannelID c))
    (MkCrypto (cfKeyHex c) "") (MkNet (cfTransport c) (cfDNSServer c))
    (MkSOCKS (cfSOCKSHost c) (cfSOCKSPort c) (cfSOCKSUser c) (cfSOCKSPass c)
       (cfSOCKSProxyAddr c) (cfSOCKSProxyPort c) (cfSOCKSProxyUser c) (cfSOCKSProxyPass c))
    (MkEngineSection (cfEngine c) (cfURL c) (cfToken c))
    (MkVideo (vcWidth (cfVideo c)) (vcHeight (cfVideo c)) (vcFPS (cfVideo c)) "" "" (vcQRSize (cfVideo c))
       (vcQRRecovery (cfVideo c)) (vcCodec (cfVideo c)) (vcTileModule (cfVideo c)) (vcTileRS (cfVideo c)))
    (MkVP8 (v8FPS (cfVP8 c)) (v8BatchSize (cfVP8 c)))
    (MkSEI (seFPS (cfSEI c)) (seBatchSize (cfSEI c)) (seFragmentSize (cfSEI c)) (seAckTimeoutMS (cfSEI c)))
    (MkLiveness (cfLivenessInterval c) (cfLivenessTimeout c) (cfLivenessFailures c))
    (MkLifecycle (cfMaxSessionDuration c))
    (MkTrafficSection (cfTrafficMaxPayloadSize c) (cfTrafficMinDelay c) (cfTrafficMaxDelay c)).

(** The settings without the key file, which is resolved by then, and the two
    fields that nothing reads. *)
Definition plain (s : FileSettings) : FileSettings :=
  MkSettings (stAuth s) (stRoom s) (MkCrypto (crKey (stCrypto s)) "") (stNet s) (stSOCKS s) (stEngine s)
    (let v := stVideo s in
     MkVideo (viWidth v) (viHeight v) (viFPS v) "" "" (viQRSize v) (viQRRecovery v) (viCodec v)
       (viTileModule v) (viTileRS v))
    (stVP8 s) (stSEI s) (stLiveness s) (stLifecycle s) (stTraffic s).

(** Field by field: the value of [t] where it is set, else that of [s]. *)
Definition merge (s t : FileSettings) : FileSettings :=
  MkSettings
    (MkAuth (overlay (auProvider (stAuth s)) (auProvider (stAuth t)))
            (overlay (auToken (stAuth s)) (auToken (stAuth t))))
    (MkRoom (overlay (roID (stRoom s)) (roID (stRoom t))) (overlay (roChannel (stRoom s)) (roChannel (stRoom t))))
    (MkCrypto (overlay (crKey (stCrypto s)) (crKey (stCrypto t))) "")
    (MkNet (overlay (ntTransport (stNet s)) (ntTransport (stNet t))) (overlay (ntDNS (stNet s)) (ntDNS (stNet t))))
    (let a := stSOCKS s in let b := stSOCKS t in
     MkSOCKS (overlay (soHost a) (soHost b)) (overlayZ (soPort a) (soPort b)) (overlay (soUser a) (soUser b))
       (overlay (soPass a) (soPass b)) (overlay (soProxyAddr a) (soProxyAddr b))
       (overlayZ (soProxyPort a) (soProxyPort b)) (overlay (soProxyUser a) (soProxyUser b))
       (overlay (soProxyPass a) (soProxyPass b)))
    (let a := stEngine s in let b := stEngine t in
     MkEngineSection (overlay (enName a) (enName b)) (overlay (enURL a) (enURL b)) (overlay (enToken a) (enToken b)))
    (let a := stVideo s in let b := stVideo t in
     MkVideo (overlayZ (viWidth a) (viWidth b)) (overlayZ (viHeight a) (viHeight b)) (overlayZ (viFPS a) (viFPS b))
       "" "" (overlayZ (viQRSize a) (viQRSize b)) (overlay (viQRRecovery a) (viQRRecovery b))
       (overlay (viCodec a) (viCodec b)) (overlayZ (viTileModule a) (viTileModule b))
       (overlayZ (viTileRS a) (viTileRS b)))
    (MkVP8 (overlayZ (vpFPS (stVP8 s)) (vpFPS (stVP8 t))) (overlayZ (vpBatchSize (stVP8 s)) (vpBatchSize (stVP8 t))))
    (let a := stSEI s in let b := stSEI t in
     MkSEI (overlayZ (siFPS a) (siFPS b)) (overlayZ (siBatchSize a) (siBatchSize b))
       (overlayZ (siFragmentSize a) (siFragmentSize b)) (overlayZ (siAckTimeoutMS a) (siAckTimeoutMS b)))
    (let a := stLiveness s in let b := stLiveness t in
     MkLiveness (overlay (liInterval a) (liInterval b)) (overlay (liTimeout a) (liTimeout b))
       (overlayZ (liFailures a) (liFailures b)))
    (MkLifecycle (overlay (lcMaxSessionDuration (stLifecycle s)) (lcMaxSessionDuration (stLifecycle t))))
    (let a := stTraffic s in let b := stTraffic t in
     MkTrafficSection (overlayZ (tfMaxPayloadSize a) (tfMaxPayloadSize b)) (overlay (tfMinDelay a) (tfMinDelay b))
       (overlay (tfMaxDelay a) (tfMaxDelay b))).

Lemma overlay_empty v : overlay "" v = v.
Proof. unfold overlay. by destruct (String.eqb_spec v ""). Qed.

Lemma overlayZ_zero v : overlayZ 0 v = v.
Proof. unfold overlayZ. by destruct (Z.eqb_spec v 0). Qed.

Lemma settings_of_Apply f : settings_of (Apply f) = plain (flSettings f).
Proof.
  destruct f as [? ? ? [[][][][][][][][][][][][]] ? ? ? ? ?].
  cbv -[overlay overlayZ]. by rewrite !overlay_empty, !overlayZ_zero.
Qed.

Lemma settings_of_ApplySettings c s : settings_of (ApplySettings c s) = merge (settings_of c) s.
Proof. done. Qed.

Lemma merge_plain s t : merge (plain s) t = merge s t.
Proof. done. Qed.

(** ** Key files *)

(** Where the key of a section comes from. *)
Definition key_of `{OS} (path : string) (c : CryptoSection) (key : string) : Prop :=
  (crKeyFile c = "" /\ key = crKey c) \/
  (crKeyFile c <> "" /\ crKey c = "" /\ key <> "" /\ exists data, key = TrimSpace data /\
   ReadFile (if Path.IsAbs (crKeyFile c) then crKeyFile c else Path.Join (Path.Dir path) (crKeyFile c)) = Ok data).

Lemma resolveKey_ok `{OS} path c key : resolveKey path c = Ok key -> key_of path c key.
Proof.
  unfold resolveKey, readKeyFile, key_of. destruct (String.eqb_spec (crKeyFile c) ""); [intros [= <-]; by left|].
  destruct (String.eqb_spec (crKey c) ""); [cbn [negb]|done]. intros Hr. right. split_and!; try done.
  all: destruct (Path.IsAbs (crKeyFile c)); cbn [negb] in Hr; destruct (ReadFile _) as [data| |]; try done.
  all: destruct (String.eqb_spec (TrimSpace data) ""); [done|]; injection Hr as <-; eauto.
Qed.

Lemma resolve_profiles_ok `{OS} path i ps ps' :
  resolve_profiles path i ps = Ok ps' ->
  Forall2 (fun p p' => fpName p' = fpName p /\ exists key, key_of path (stCrypto (fpSettings p)) key /\
             fpSettings p' = set_key key (fpSettings p)) ps ps'.
Proof.
  revert i ps'. induction ps as [|p ps IH]; intros i ps'; cbn; [intros [= <-]; constructor|].
  destruct (resolveKey path (stCrypto (fpSettings p))) as [key| |] eqn:Hk; try done.
  destruct (resolve_profiles path (S i) ps) as [rest| |] eqn:Hr; try done. intros [= <-].
  constructor; [|by eapply IH]. split; [done|]. exists key. split; [by apply resolveKey_ok|done].
Qed.

(** What [Load] returns: the decoded document with its keys resolved. *)
Definition loaded_from `{OS} `{Yaml} (path : string) (raw file : File) : Prop :=
  exists data key, ReadFile path = Ok data /\ Utf8.Valid (string_bytes data) = true /\
    (DecodeFile data = Decoded raw \/ DecodeFile data = DecodeEOF /\ raw = no_file) /\
    key_of path (stCrypto (flSettings raw)) key /\ flSettings file = set_key key (flSettings raw) /\
    flMode file = flMode raw /\ flGen file = flGen raw /\ flData file = flData raw /\
    Forall2 (fun p p' => fpName p' = fpName p /\ exists key, key_of path (stCrypto (fpSettings p)) key /\
               fpSettings p' = set_key key (fpSettings p)) (flProfiles raw) (flProfiles file).

Lemma Load_ok `{OS} `{Yaml} path file : Load path = Ok file -> exists raw, loaded_from path raw file.
Proof.
  unfold Load. destruct (ReadFile path) as [data|[]|] eqn:Hd; try done.
  destruct (Utf8.Valid (string_bytes data)) eqn:Hu; [cbn [negb]|done].
  assert (Hs : forall raw, (DecodeFile data = Decoded raw \/ DecodeFile data = DecodeEOF /\ raw = no_file) ->
    loadExternalSecrets path raw = Ok file -> exists raw, loaded_from path raw file).
  { intros raw Hraw. unfold loadExternalSecrets.
    destruct (resolveKey path (stCrypto (flSettings raw))) as [key| |] eqn:Hk; try done. cbn [obind].
    destruct (resolve_profiles path 0 (flProfiles raw)) as [ps| |] eqn:Hp; try done. intros [= <-].
    exists raw, data, key. split_and!; try done; [by apply resolveKey_ok|by eapply resolve_profiles_ok]. }
  destruct (DecodeFile data) as [raw| |] eqn:Hy; try done; apply Hs; auto.
Qed.

(** ** Configurations that start *)

(** [Run] plans the session, the transport accepts its options, the key has its
    length, and the role is that of the mode. *)
Definition startable `{NetIP} `{TileFrame} (c : Config) : Prop :=
  exists plan s key,
    session_Run process c = Ok plan /\ transport_New process (cfTransport c) (rpOptions plan) = Some s /\
    settings_ok s /\ hex_DecodeString (cfKeyHex c) = Some key /\ len key = KeySize /\
    match rpRole plan with StartServer _ => cfMode c = ModeSrv | StartClient _ => cfMode c = ModeCnc end.

Lemma valid_startable `{NetIP} `{TileFrame} c0 :
  let c := ApplyDefaults process c0 in
  cfMode c <> ModeGen -> Validate process c = None -> startable c.
Proof.
  intros c Hgen Hv. pose proof Hv as (Hm & Htr & Hco & Hto & Hli & Hcy & Htf & _)%validate_ok.
  assert (Hidem : ApplyDefaults process c = c) by apply ApplyDefaults_idem.
  assert (Hkey : validateKey (cfKeyHex c) = None).
  { unfold validateCommon in Hco. destruct (_ && _); [done|]. by destruct (validateKey (cfKeyHex c)). }
  apply validateKey_ok in Hkey as (_ & key & Hhex & Hlen).
  apply livenessConfig_ok in Hli as (l & Hl & _). apply maxSessionDuration_ok in Hcy as (d & Hd & _).
  apply trafficConfig_ok in Htf as (tc & Htc & _). destruct (transport_settings_ok c Htr Hto) as (s & Hs & Hsok).
  unfold startable. rewrite (session_Run_valid c l d tc) by (rewrite ?Hidem; done). rewrite Hidem.
  unfold runOnce. cbn [set_Resolver cfMode].
  apply validateMode_ok in Hm as [Hm|[Hm|Hm]]; [| |done]; rewrite Hm; cbn;
    eexists _, s, key; (split; [done|]); by split_and!.
Qed.

Lemma validate_profiles_ok `{NetIP} R ps :
  validate_profiles R ps = None -> Forall (fun p => Validate R p.2 = None) ps.
Proof.
  induction ps as [|[n c] ps IH]; cbn [validate_profiles]; [constructor|]. destruct (Validate R c) eqn:Hv; [done|].
  constructor; auto.
Qed.

(** No provider of the process creates rooms. *)
Lemma no_room_creator cfg : is_Some (ValidateGen process cfg).
Proof.
  unfold ValidateGen. repeat (case_if; [by eexists|]).
  assert (Hn : map_Forall (fun _ p => pvRoomCreator p = false) (rgAuth process)).
  { apply (bool_decide_eq_true (map_Forall _ _)). by vm_compute. }
  destruct (rgAuth process !! cfProvider cfg) as [p|] eqn:E; [|by eexists].
  rewrite (Hn _ _ E). by eexists.
Qed.

(** Dictionaries: what was loaded has an entry for each part of a name. *)
Lemma loadNameOverrides_ok `{OS} p dir p' :
  loadNameOverrides p dir = Ok p' -> p' = p /\ dir = "" \/ poFirst p' <> [] /\ poLast p' <> [].
Proof.
  unfold loadNameOverrides. destruct (String.eqb_spec dir ""); [intros [= <-]; by left|]. intros Hl. right.
  assert (Hf : forall path l, loadFile path = Ok l -> l <> []).
  { intros path l. unfold loadFile. destruct (ReadFile path); try done. destruct (scan_lines _) as [ls|]; [|done].
    destruct (len (usable_lines ls) =? 0) eqn:E; [done|]. intros [= <-] Hn. rewrite Hn in E. done. }
  unfold LoadNameFiles in Hl. destruct (loadFile _) as [f| |] eqn:E1 in Hl; try done. cbn [obind] in Hl.
  destruct (loadFile _) as [l| |] eqn:E2 in Hl; try done. injection Hl as <-. split; eapply Hf; eauto.
Qed.

(** ** From the file to the run *)

(** A configuration that carries exactly the settings [s], with the defaults
    filled in. *)
Definition configured (file : File) (s : FileSettings) (c : Config) : Prop :=
  exists c0, c = ApplyDefaults process c0 /\ settings_of c0 = s /\ cfMode c0 = flMode file.

Lemma configured_base file : configured file (plain (flSettings file)) (ApplyDefaults process (Apply file)).
Proof. exists (Apply file). split_and!; [done|apply settings_of_Apply|done]. Qed.

Lemma configured_profile file p :
  configured file (merge (flSettings file) (fpSettings p)) (ApplyDefaults process (ApplyProfile (Apply file) p)).
Proof.
  exists (ApplyProfile (Apply file) p). split_and!; [done| |done]. unfold ApplyProfile.
  by rewrite settings_of_ApplySettings, settings_of_Apply, merge_plain.
Qed.

Lemma configured_mode file s c : configured file s c -> cfMode c = flMode file.
Proof. intros (c0 & -> & _ & <-). by destruct (ApplyDefaults_fields process c0) as (_ & ? & _). Qed.

Lemma configured_startable `{NetIP} `{TileFrame} file s c :
  configured file s c -> flMode file <> ModeGen -> Validate process c = None -> startable c.
Proof.
  intros Hc Hm Hv. pose proof (configured_mode _ _ _ Hc) as Hmode. destruct Hc as (c0 & -> & _).
  apply valid_startable; [congruence|done].
Qed.

Lemma profile_name_nonempty i n : profile_name i n <> "".
Proof. unfold profile_name. by destruct (String.eqb_spec n ""). Qed.

Lemma profiles_startable `{NetIP} `{TileFrame} file (name : nat -> string -> string) ps :
  (forall i n, name i n <> "") -> flMode file <> ModeGen ->
  let qs := prepareProfiles process (imap (fun i p => (name i (fpName p), ApplyProfile (Apply file) p)) ps) in
  Forall (fun q => Validate process q.2 = None) qs ->
  Forall2 (fun p q => q.1 <> "" /\ configured file (merge (flSettings file) (fpSettings p)) q.2 /\ startable q.2) ps qs.
Proof.
  intros Hname Hm. revert name Hname. induction ps as [|p ps IH]; intros name Hname qs Hv; [constructor|].
  unfold qs in *. cbn [imap prepareProfiles fmap list_fmap] in *. apply Forall_cons in Hv as [Hv Hvs]. constructor.
  - pose proof (configured_profile file p) as Hc. split_and!; [apply Hname|done|by eapply configured_startable].
  - apply (IH (name ∘ S)); [intros; apply Hname|done].
Qed.

(** What [loadConfig] makes of a file. *)
Definition loads (file : File) (cfg : loadedConfig) : Prop :=
  ldCfg cfg = Apply file /\
  ldProfiles cfg = imap (fun i p => (profile_name i (fpName p), ApplyProfile (Apply file) p)) (flProfiles file).

Lemma obind_ok {E A B} (r : outcome E A) (f : A -> outcome E B) x :
  obind r f = Ok x -> exists a, r = Ok a /\ f a = Ok x.
Proof. destruct r as [a| |]; [|done..]. eauto. Qed.

Lemma loadConfig_inv `{OS} `{Yaml} path cfg :
  loadConfig path = Ok cfg -> exists file, Load path = Ok file /\ loads file cfg.
Proof.
  unfold loadConfig. destruct (Load path) as [file| |]; [|done..]. intros (fo & _ & [= <-])%obind_ok. by exists file.
Qed.

Lemma runWithArgs_inv `{OS} `{Yaml} `{NetIP} R names args r :
  runWithArgs R names args = Ok r ->
  exists path file cfg, args = [path] /\ Load path = Ok file /\ loads file cfg /\
    runWithConfig (RegisterDefaults R) names cfg = Ok r.
Proof.
  unfold runWithArgs. destruct args as [|path [|]]; [done| |done].
  destruct (_ || _); [done|]. intros (cfg & Hc & Hrun)%obind_ok.
  apply loadConfig_inv in Hc as (file & Hl & Hf). by exists path, file, cfg.
Qed.

(** The two ways to run; the names and the configurations. *)
Lemma runSessionMode_inv `{OS} `{NetIP} R names dir c r :
  runSessionMode R names dir c = Ok r ->
  r.2 = RunSession c /\ Validate R c = None /\ (r.1 = names \/ poFirst r.1 <> [] /\ poLast r.1 <> []).
Proof.
  unfold runSessionMode. destruct (Validate R c); [done|].
  destruct (loadNameOverrides names dir) as [p| |] eqn:Hn; [|done..]. intros [= <-].
  apply loadNameOverrides_ok in Hn. split_and!; [done..|]. destruct Hn as [[-> _]|?]; auto.
Qed.

Lemma runFailover_inv `{OS} `{NetIP} R names dir ps fo r :
  runFailoverSessionMode R names dir ps fo = Ok r ->
  r.2 = RunFailover ps (fcRetryDelay fo) (fcMaxCycles fo) /\ Forall (fun q => Validate R q.2 = None) ps /\
  (r.1 = names \/ poFirst r.1 <> [] /\ poLast r.1 <> []).
Proof.
  unfold runFailoverSessionMode. destruct (validate_profiles R ps) eqn:Hv; [done|].
  destruct (loadNameOverrides names dir) as [p| |] eqn:Hn; [|done..]. intros [= <-].
  apply loadNameOverrides_ok in Hn. split_and!; [done|by apply validate_profiles_ok|].
  destruct Hn as [[-> _]|?]; auto.
Qed.

Lemma execGen_refused R names c r : is_Some (ValidateGen R c) -> execGen R names c <> Ok r.
Proof. intros [e He]. unfold execGen. by rewrite He. Qed.

Lemma runWithConfig_cases `{OS} `{NetIP} R names cfg r :
  runWithConfig R names cfg = Ok r ->
  (cfMode (ApplyDefaults R (ldCfg cfg)) = ModeGen /\ execGen R names (ApplyDefaults R (ldCfg cfg)) = Ok r) \/
  (cfMode (ApplyDefaults R (ldCfg cfg)) <> ModeGen /\ ldProfiles cfg <> [] /\
   runFailoverSessionMode R names (ldDataDir cfg) (prepareProfiles R (ldProfiles cfg)) (ldFailover cfg) = Ok r) \/
  (cfMode (ApplyDefaults R (ldCfg cfg)) <> ModeGen /\ ldProfiles cfg = [] /\
   runSessionMode R names (ldDataDir cfg) (ApplyDefaults R (ldCfg cfg)) = Ok r).
Proof.
  unfold runWithConfig. destruct (String.eqb_spec (cfMode (ApplyDefaults R (ldCfg cfg))) ModeGen) as [Hm|Hm].
  - destruct (0 <? len (ldProfiles cfg)); [done|]. auto.
  - right. destruct (ldProfiles cfg) as [|p ps]; [by right|]. by left.
Qed.

Lemma runWithConfig_inv `{OS} `{NetIP} `{TileFrame} names file cfg names' cmd :
  loads file cfg -> runWithConfig process names cfg = Ok (names', cmd) ->
  flMode file <> ModeGen /\ (names' = names \/ poFirst names' <> [] /\ poLast names' <> []) /\
  match cmd with
  | RunSession c => flProfiles file = [] /\ configured file (plain (flSettings file)) c /\ startable c
  | RunFailover ps _ _ =>
      flProfiles file <> [] /\
      Forall2 (fun p q => q.1 <> "" /\ configured file (merge (flSettings file) (fpSettings p)) q.2 /\
                          startable q.2) (flProfiles file) ps
  | RunGen _ => False
  end.
Proof.
  intros [Hc Hp] Hrun%runWithConfig_cases. rewrite Hc, Hp in Hrun.
  pose proof (configured_base file) as Hbase. pose proof (configured_mode _ _ _ Hbase) as Hm.
  destruct Hrun as [[_ Hrun]|[(Hgen & Hps & Hrun)|(Hgen & Hps & Hrun)]].
  - destruct (execGen_refused _ _ _ _ (no_room_creator _) Hrun).
  - apply runFailover_inv in Hrun as (Hcmd & Hv & Hn). cbn [fst snd] in Hcmd, Hn. subst cmd. split_and!; [congruence|done| |].
    + intros Hnil. by rewrite Hnil in Hps.
    + apply (profiles_startable file profile_name); [apply profile_name_nonempty|congruence|done].
  - apply runSessionMode_inv in Hrun as (Hcmd & Hv & Hn). cbn [fst snd] in Hcmd, Hn. subst cmd. split_and!; [congruence|done| |done|].
    + by apply (f_equal length) in Hps; rewrite length_imap in Hps; apply nil_length_inv in Hps.
    + eapply configured_startable; [done|congruence|done].
Qed.

(** C33: the command runs what its file says, and only if it can start.  If the command
    gets as far as running anything, it was given one path, the file there
    was valid UTF-8 that decoded, and every key was written in its section or is the trimmed
    content of the key file, relative to the directory of the configuration.  A
    file without profiles runs one session, whose configuration carries the
    settings of the file field by field with the defaults filled in; a file with
    profiles runs the supervisor over as many named configurations, each of which carries
    the file's settings with the profile's own written over them.  Each
    configuration starts: [Run] accepts it in the role of the mode, the transport
    accepts its options and the key has its length.  Room generation never
    runs, since no registered provider can create rooms, and the display names are
    the old ones or come from two dictionaries that are not empty. *)
Theorem command_runs_only_startable `{OS} `{Yaml} `{NetIP} `{TileFrame} (names names' : pool)
    (args : list string) (cmd : command)
    (Hrun : runWithArgs (MkRegistries ∅ ∅ ∅) names args = Ok (names', cmd)) :
  exists path raw file,
    args = [path] /\ loaded_from path raw file /\ flMode file <> ModeGen /\
    (names' = names \/ poFirst names' <> [] /\ poLast names' <> []) /\
    match cmd with
    | RunSession c => flProfiles file = [] /\ configured file (plain (flSettings file)) c /\ startable c
    | RunFailover ps _ _ =>
        flProfiles file <> [] /\
        Forall2 (fun p q => q.1 <> "" /\ configured file (merge (flSettings file) (fpSettings p)) q.2 /\
                            startable q.2) (flProfiles file) ps
    | RunGen _ => False
    end.
Proof.
  apply runWithArgs_inv in Hrun as (path & file & cfg & -> & Hl & Hcfg & Hrun).
  destruct (Load_ok _ _ Hl) as [raw Hraw]. exists path, raw, file. split; [done|]. split; [done|].
  by eapply runWithConfig_inv.
Qed.

(** A file for a client with two profiles; the key is in a file beside it, and the
    second profile has its own transport. *)
Definition demo_os : OS := {|
  ReadFile p :=
    if str_eqb p "/etc/olcrtc/client.yaml" then Ok "mode: cnc"
    else if str_eqb p "/etc/olcrtc/secret/key"
    then Ok ("000102030405060708090a0b0c0d0e0f101112131415161718191a1b1c1d1e1f" ++ String newline "")%string
    else Err ErrNotExist |}.

Definition demo_profile (name transport : string) : FileProfile :=
  MkFileProfile name
    (MkSettings (MkAuth "" "") (MkRoom "" "") (MkCrypto "" "") (MkNet transport "") (MkSOCKS "" 0 "" "" "" 0 "" "")
       (MkEngineSection "" "" "") (MkVideo 0 0 0 "" "" 0 "" "" 0 0) (MkVP8 0 0) (MkSEI 0 0 0 0)
       (MkLiveness "" "" 0) (MkLifecycle "") (MkTrafficSection 0 "" "")).

Definition demo_file : File :=
  MkFile "cnc" "" ""
    (MkSettings (MkAuth "jitsi" "") (MkRoom "room" "") (MkCrypto "" "secret/key") (MkNet "datachannel" "1.1.1.1:53")
       (MkSOCKS "localhost" 1080 "" "" "" 0 "" "") (MkEngineSection "" "" "") (MkVideo 0 0 0 "" "" 0 "" "" 0 0)
       (MkVP8 0 0) (MkSEI 0 0 0 0) (MkLiveness "" "" 0) (MkLifecycle "") (MkTrafficSection 0 "" ""))
    (MkGen 0) [demo_profile "home" ""; demo_profile "" "vp8channel"] (MkFailover "5s" 0) "" false.

Definition demo_yaml : Yaml := {| DecodeFile _ := Decoded demo_file |}.

Lemma command_runs_only_startable_witness :
  exists ps,
    @runWithArgs demo_os demo_yaml toy_ip (MkRegistries ∅ ∅ ∅) (MkPool [] []) ["/etc/olcrtc/client.yaml"] =
      Ok (MkPool [] [], RunFailover ps 5000000000 0) /\
    ps.*1 = ["home"; "profile-2"] /\ (cfTransport ∘ snd <$> ps) = ["datachannel"; "vp8channel"] /\
    Forall (fun q => @startable toy_ip (Build_TileFrame 1080 1080) q.2) ps.
Proof.
  destruct (@runWithArgs demo_os demo_yaml toy_ip (MkRegistries ∅ ∅ ∅) (MkPool [] []) ["/etc/olcrtc/client.yaml"])
    as [[names' cmd]| |] eqn:Hrun.
  - destruct (@command_runs_only_startable demo_os demo_yaml toy_ip (Build_TileFrame 1080 1080) _ _ _ _ Hrun)
      as (path & raw & file & _ & _ & _ & _ & Hcmd).
    vm_compute in Hrun. injection Hrun as <- <-. eexists. split; [reflexivity|]. split; [reflexivity|].
    split; [reflexivity|]. destruct Hcmd as [_ Hall].
    apply (Forall2_Forall_r _ _ _ _ Hall), Forall_true. by intros x q (_ & _ & Hs).
  - vm_compute in Hrun. discriminate.
  - vm_compute in Hrun. discriminate.
Defined.
