(* ===== verification/VideoTransport.v ===== *)
(** * VideoTransport: the videochannel transport
    (internal/transport/videochannel: transport.go, visual.go, gocodec.go,
    codec_spec.go)

    Fragments travel as pictures.  The QR and tile codecs (zarazaex69/gr) and the VP8
    codec (kc/vp8) are the interface [VisualLib]; the stream, the local track and
    the RTP sample builder are libraries too, and what they hand over is an
    argument of the steps.  Every critical section and every operation of a goroutine
    is one step, so that [Connect], [Close], the writer and the two goroutines of each
    remote track interleave. *)

From S2P Require Import Prelude Bytes Text Frame Reassembly Sender Traffic SeiTransport Socks SessionConfig SessionRun.

(** ** Libraries *)

(* go: transport/videochannel/visual.go 108-119 eccLevel *)
Inductive ECCLevel := ECCLow | ECCMedium | ECCQuartile | ECCHigh.

Inductive qr_result := QrData (data : bytes) | QrNotFound | QrError.

(** [New] tells whether a configuration is accepted; a VP8 decoder sees all the samples
    it was given before. *)
Class VisualLib : Type := {
  qr_New : Z -> Z -> ECCLevel -> bool;
  qr_Encode : Z -> Z -> ECCLevel -> bytes -> option bytes;
  qr_Decode : Z -> Z -> ECCLevel -> bytes -> qr_result;
  tile_New : Z -> Z -> bool;
  tile_Encode : Z -> Z -> bytes -> option bytes;
  tile_Decode : Z -> Z -> bytes -> option bytes;
  vp8_Encode : Z -> Z -> bytes -> option bytes;
  vp8_Decode : list bytes -> bytes -> option bytes;
}.

(* go: transport/videochannel/visual.go 108-119 eccLevel *)
Definition eccLevel (level : string) : ECCLevel :=
  if str_eqb level "medium" then ECCMedium
  else if str_eqb level "high" then ECCQuartile
  else if str_eqb level "highest" then ECCHigh
  else ECCLow.

(* go: transport/videochannel/options.go 12-19 codecTile *)
Definition codecTile : string := "tile".

(** ** The visual codec *)

Inductive visual_error := ErrTileCodec | ErrQRCodec | ErrTileEncode | ErrQREncode | ErrQRDecode | ErrUnexpectedQRFrameSize.

(** The codec is a function of the options: building it once and keeping it makes
    no difference. *)
(* go: transport/videochannel/visual.go 16-24 visualCodec *)
Record visualCodec := MkVisual {
  vsTile : bool;
  vsIdle : bytes;
  vsWidth : Z;
  vsHeight : Z;
  vsECC : ECCLevel;
  vsTileModule : Z;
  vsTileRS : Z;
}.

Section visual.
  Context `{VisualLib} `{TileFrame}.

(* go: transport/videochannel/visual.go 26-59 newVisualCodec *)
Definition newVisualCodec (width height : Z) (codec recoveryLevel : string) (tileModule tileRS : Z)
  : outcome visual_error visualCodec :=
  let tile := str_eqb codec codecTile in
  let visual := MkVisual tile (replicate (Z.to_nat (width * height)) 255) width height (eccLevel recoveryLevel)
                  tileModule tileRS in
  if tile then if tile_New tileModule tileRS then Ok visual else Err ErrTileCodec
  else if qr_New width height (eccLevel recoveryLevel) then Ok visual else Err ErrQRCodec.

(* go: transport/videochannel/visual.go 61-79 render *)
Definition render (c : visualCodec) (payload : bytes) : outcome visual_error bytes :=
  if len payload =? 0 then Ok (vsIdle c)
  else if vsTile c then
    match tile_Encode (vsTileModule c) (vsTileRS c) payload with
    | Some frame => Ok frame
    | None => Err ErrTileEncode
    end
  else
    match qr_Encode (vsWidth c) (vsHeight c) (vsECC c) payload with
    | Some frame => Ok frame
    | None => Err ErrQREncode
    end.

(** [Ok []] also stands for the nil slice. *)
(* go: transport/videochannel/visual.go 81-106 extract *)
Definition extract (c : visualCodec) (frame : bytes) : outcome visual_error bytes :=
  if vsTile c && negb (len frame =? grtile_FrameW * grtile_FrameH) then Ok []
  else if negb (vsTile c) && negb (len frame =? vsWidth c * vsHeight c) then Err ErrUnexpectedQRFrameSize
  else if vsTile c then Ok (default [] (tile_Decode (vsTileModule c) (vsTileRS c) frame))
  else
    match qr_Decode (vsWidth c) (vsHeight c) (vsECC c) frame with
    | QrData data => Ok data
    | QrNotFound => Ok []
    | QrError => Err ErrQRDecode
    end.

End visual.

(** ** VP8 *)

(** An encoder is its dimensions and whether it is closed. *)
(* go: transport/videochannel/gocodec.go 12-20 goEncoder *)
Record goEncoder := MkEncoder { enWidth : Z; enHeight : Z; enClosed : bool }.

(* go: transport/videochannel/gocodec.go 22-31 newGoEncoder *)
Definition newGoEncoder (width height : Z) : goEncoder := MkEncoder width height false.

(* go: transport/videochannel/gocodec.go 33-47 EncodeFrame *)
Definition EncodeFrame `{VisualLib} (e : goEncoder) (frame : bytes) : option bytes :=
  if enClosed e then None
  else if negb (len frame =? enWidth e * enHeight e) then None
  else vp8_Encode (enWidth e) (enHeight e) frame.

(* go: transport/videochannel/gocodec.go 49-52 Close *)
Definition encoder_Close (e : goEncoder) : goEncoder := MkEncoder (enWidth e) (enHeight e) true.

(* go: transport/videochannel/gocodec.go 55-60 decoderQueueDepth *)
Definition decoderQueueDepth : Z := 8.

(* go: transport/videochannel/gocodec.go 62-68 goDecoder *)
Record goDecoder := MkDecoder { gdSeen : list bytes; gdFrames : list bytes; gdClosed : bool }.

(* go: transport/videochannel/gocodec.go 70-76 newGoDecoder *)
Definition newGoDecoder : goDecoder := MkDecoder [] [] false.

(** [PushSample] up to its [select]: [None] for an error, the frame that is to be
    queued otherwise, if the sample gave one. *)
(* go: transport/videochannel/gocodec.go 78-89 PushSample *)
Definition PushSample `{VisualLib} (d : goDecoder) (sample : bytes) : goDecoder * option (option bytes) :=
  if gdClosed d then (d, None)
  else (MkDecoder (gdSeen d ++ [sample]) (gdFrames d) (gdClosed d), Some (vp8_Decode (gdSeen d) sample)).

(* go: transport/videochannel/gocodec.go 113-119 Close *)
Definition decoder_Close (d : goDecoder) : goDecoder := MkDecoder (gdSeen d) (gdFrames d) true.

(** ** Codecs of remote tracks *)

(* go: transport/videochannel/codec_spec.go 22-35 codecSpecForMime *)
Definition codecSpecForMime (mimeType : string) : bool :=
  let m := ToLower (string_bytes mimeType) in
  bool_decide (m = string_bytes "video/h264") || bool_decide (m = string_bytes "video/vp9")
  || bool_decide (m = string_bytes "video/vp8").

(** ** The transport *)

(* go: transport/videochannel/transport.go 27-46 maxSendAttempts *)
Definition video_maxSendAttempts : Z := 20.
Definition maxRemoteDecoders : Z := 8.
Definition writerBatchSize : Z := 1.
Definition video_ackTimeout : Z := 1000000000.

(** What the goroutine that reads a remote track is doing; the frame is the one it waits
    to queue. *)
Inductive reader := Reading | Queueing (frame : bytes) | ReaderDone.

(** A decoder with its two goroutines; [drPops] while [popDecoderFrames] runs. *)
Record decoder_run := MkRun { drDec : goDecoder; drPops : bool; drReader : reader }.

(** Where the call of [Close] is that found the transport open. *)
Inductive close_phase := NotClosing | ClosingEncoder | ClosingDecoders | WaitingWriter | CloseReturned.
Inductive writer_state := WriterOff | WriterOn | WriterDone.

(** Every encoder made; the installed one; those of [Connect] calls that wait for the
    stream; the number of calls about to start the writer. *)
Record encoders := MkEncs {
  ecAll : gmap nat goEncoder;
  ecNow : option nat;
  ecConnecting : list nat;
  ecStarting : nat;
  ecWriter : writer_state;
}.

(** The map [decoders], nil after [Close], and every decoder that was started. *)
Record decoders := MkDecs { dcSet : option (gset nat); dcRuns : gmap nat decoder_run }.

(* go: transport/videochannel/transport.go 57-92 streamTransport *)
Record video := MkVid {
  vdOpts : VideoOptions;
  vdRemoteRole : Z;
  vdBinding : Z;
  vdShaper : option Shaper;
  vdSender : Sender;
  vdReasm : Reassembler;
  vdClosed : bool;
  vdPhase : close_phase;
  vdEnc : encoders;
  vdDec : decoders;
  vdSamples : list bytes;
  vdLog : list rx_call;
}.

(* go: transport/videochannel/transport.go 235-243 frameInterval *)
Definition frameInterval (fps : Z) : Z :=
  let fps := if fps <=? 0 then 30 else fps in Z.quot 1000000000 fps.

(* go: transport/videochannel/transport.go 136-180 newStreamTransport *)
Definition newVideo (deviceID channelID roomURL : string) (traffic : TrafficConfig) (opts : VideoOptions) : video :=
  let binding := BindingToken channelID roomURL in
  let cfg := MkSenderConfig (LocalRole deviceID) binding (woQRSize opts) video_maxSendAttempts
               (frameInterval (woFPS opts)) writerBatchSize video_ackTimeout in
  MkVid opts (RemoteRole deviceID) binding (shaper_of (RunVideo opts) traffic) (NewSender cfg NewOutboundQueue)
    (NewReassembler 256) false NotClosing (MkEncs ∅ None [] 0 WriterOff) (MkDecs (Some ∅) ∅) [] [].

Definition set_enc (v : video) (e : encoders) : video :=
  MkVid (vdOpts v) (vdRemoteRole v) (vdBinding v) (vdShaper v) (vdSender v) (vdReasm v) (vdClosed v) (vdPhase v)
    e (vdDec v) (vdSamples v) (vdLog v).
Definition set_dec (v : video) (d : decoders) : video :=
  MkVid (vdOpts v) (vdRemoteRole v) (vdBinding v) (vdShaper v) (vdSender v) (vdReasm v) (vdClosed v) (vdPhase v)
    (vdEnc v) d (vdSamples v) (vdLog v).
Definition set_phase (v : video) (p : close_phase) : video :=
  MkVid (vdOpts v) (vdRemoteRole v) (vdBinding v) (vdShaper v) (vdSender v) (vdReasm v) (vdClosed v) p
    (vdEnc v) (vdDec v) (vdSamples v) (vdLog v).
Definition set_out (v : video) (q : OutboundQueue) (samples : list bytes) : video :=
  MkVid (vdOpts v) (vdRemoteRole v) (vdBinding v) (vdShaper v) (set_queue (vdSender v) q) (vdReasm v) (vdClosed v)
    (vdPhase v) (vdEnc v) (vdDec v) (vdSamples v ++ samples) (vdLog v).
Definition set_video_reasm (v : video) (r : Reassembler) : video :=
  MkVid (vdOpts v) (vdRemoteRole v) (vdBinding v) (vdShaper v) (vdSender v) r (vdClosed v) (vdPhase v)
    (vdEnc v) (vdDec v) (vdSamples v) (vdLog v).
Definition video_say (v : video) (calls : list rx_call) : video :=
  MkVid (vdOpts v) (vdRemoteRole v) (vdBinding v) (vdShaper v) (vdSender v) (vdReasm v) (vdClosed v) (vdPhase v)
    (vdEnc v) (vdDec v) (vdSamples v) (vdLog v ++ calls).

(** ** Sending *)

Section video.
  Context `{VisualLib} `{TileFrame}.

(* go: transport/videochannel/transport.go 289-292 CanSend *)
Definition video_CanSend (v : video) (streamCanSend : bool) : bool := negb (vdClosed v) && streamCanSend.

(** [Send] up to the call of [Sender.Send]: what is refused before it. *)
(* go: transport/videochannel/transport.go 214-233 Send *)
Definition video_SendStart (v : video) (rnd : Z -> Z) (data : bytes) : outcome sei_send_error (Sender * send_call) :=
  match ShaperSend (vdShaper v) rnd data with
  | Ok ShapedTooLarge => Err SeiTooLarge
  | Ok (ShapedSend _) => if vdClosed v then Err SeiClosed else Ok (SendStart (vdSender v) data)
  | _ => Panic
  end.

(* go: transport/videochannel/transport.go 385-394 getVisualCodec *)
Definition getVisualCodec (o : VideoOptions) : outcome visual_error visualCodec :=
  newVisualCodec (woWidth o) (woHeight o) (woCodec o) (woQRRecovery o) (woTileModule o) (woTileRS o).

(* go: transport/videochannel/transport.go 377-383 renderFrame *)
Definition renderFrame (o : VideoOptions) (payload : bytes) : outcome visual_error bytes :=
  let* visual := getVisualCodec o in render visual payload.

(* go: transport/videochannel/transport.go 396-402 extractFrame *)
Definition extractFrame (o : VideoOptions) (frame : bytes) : outcome visual_error bytes :=
  let* visual := getVisualCodec o in extract visual frame.

(** The sample that is written to the track, if rendering and encoding succeed; the idle
    frame is an empty payload. *)
(* go: transport/videochannel/transport.go 303-334 writePayloadFrame *)
Definition writeFrame (o : VideoOptions) (enc : goEncoder) (payload : bytes) : list bytes :=
  match renderFrame o payload with
  | Ok raw => match EncodeFrame enc raw with Some sample => [sample] | None => [] end
  | _ => []
  end.

(** ** Encoders and the writer *)

Definition close_encoder (e : encoders) (i : nat) : encoders :=
  MkEncs (alter encoder_Close i (ecAll e)) (ecNow e) (ecConnecting e) (ecStarting e) (ecWriter e).
Definition close_now (e : encoders) : encoders :=
  match ecNow e with Some i => close_encoder e i | None => e end.
Definition set_writer (e : encoders) (w : writer_state) : encoders :=
  MkEncs (ecAll e) (ecNow e) (ecConnecting e) (ecStarting e) w.

(** [Connect] makes its encoder and calls the stream. *)
(* go: transport/videochannel/transport.go 182-187 Connect *)
Definition connect_begin (v : video) : video :=
  let e := vdEnc v in
  let i := fresh (dom (ecAll e)) in
  set_enc v (MkEncs (<[i := newGoEncoder (woWidth (vdOpts v)) (woHeight (vdOpts v))]> (ecAll e)) (ecNow e)
               (ecConnecting e ++ [i]) (ecStarting e) (ecWriter e)).

(** The stream has answered [Connect] number [i]. *)
(* go: transport/videochannel/transport.go 189-204 Connect *)
Definition connect_answered (v : video) (i : nat) (ok : bool) : video :=
  let e := vdEnc v in
  if bool_decide (i ∈ ecConnecting e) then
    let e := MkEncs (ecAll e) (ecNow e) (filter (fun j => j <> i) (ecConnecting e)) (ecStarting e) (ecWriter e) in
    if negb ok then set_enc v (close_encoder e i)
    else if vdClosed v then set_enc v (close_encoder e i)
    else
      let e := close_now e in
      set_enc v (MkEncs (ecAll e) (Some i) (ecConnecting e) (S (ecStarting e)) (ecWriter e))
  else v.

(* go: transport/videochannel/transport.go 206-212 Connect *)
Definition connect_start (v : video) : video :=
  let e := vdEnc v in
  match ecStarting e with
  | O => v
  | S n =>
      set_enc v (MkEncs (ecAll e) (ecNow e) (ecConnecting e) n
                   (match ecWriter e with WriterOff => WriterOn | w => w end))
  end.

(** The deferred calls of the writer. *)
Definition writer_ends (v : video) : video := set_enc v (set_writer (close_now (vdEnc v)) WriterDone).

(** One tick of the writer. *)
(* go: transport/videochannel/transport.go 336-375 writerLoop *)
Definition writer_turn (v : video) (coins : nat * nat) : video :=
  match ecWriter (vdEnc v) with
  | WriterOn =>
      match Next coins.1 coins.2 (sQueue (vdSender v)) (sQueue (vdSender v)) with
      | (NextStop, q) => writer_ends (set_out v q [])
      | (next, q) =>
          match ecNow (vdEnc v) with
          | None => set_out v q []
          | Some i =>
              match ecAll (vdEnc v) !! i with
              | None => set_out v q []
              | Some enc =>
                  set_out v q (writeFrame (vdOpts v) enc (match next with NextFrame p => p | _ => [] end))
              end
          end
      end
  | _ => v
  end.

(* go: transport/videochannel/transport.go 336-353 writerLoop *)
Definition writer_stop (v : video) : video :=
  match ecWriter (vdEnc v) with
  | WriterOn => if vdClosed v then writer_ends v else v
  | _ => v
  end.

(** ** Remote tracks *)

Definition set_run (d : decoders) (i : nat) (r : decoder_run) : decoders := MkDecs (dcSet d) (<[i := r]> (dcRuns d)).

(** The code makes the decoder before it looks for a place under [decoderMu]; without a
    place it closes it again, and nobody else has seen it. *)
(* go: transport/videochannel/transport.go 459-483 handleRemoteTrack *)
Definition handleRemoteTrack (v : video) (mime : string) : video :=
  if negb (codecSpecForMime mime) then v
  else
    match dcSet (vdDec v) with
    | None => v
    | Some ds =>
        if vdClosed v || (maxRemoteDecoders <=? Z.of_nat (size ds)) then v
        else
          let i := fresh (dom (dcRuns (vdDec v))) in
          set_dec v (MkDecs (Some ({[i]} ∪ ds)) (<[i := MkRun newGoDecoder true Reading]> (dcRuns (vdDec v))))
    end.

(** The reader of track [i]: a sample of the sample builder, the end of the track, the
    closed transport, and both ways out of the [select] of [PushSample]. *)
Inductive reader_event := RSample (sample : bytes) | REnd | RClosed | RQueue | RQueueClosed.

(* go: transport/videochannel/transport.go 432-457 readDecoderInput *)
Definition readDecoderInput (closed : bool) (r : decoder_run) (ev : reader_event) : decoder_run :=
  match drReader r, ev with
  | Reading, RSample sample =>
      match PushSample (drDec r) sample with
      | (d, None) => MkRun d (drPops r) ReaderDone
      | (d, Some None) => MkRun d (drPops r) Reading
      | (d, Some (Some gray)) => MkRun d (drPops r) (Queueing gray)
      end
  | Reading, REnd => MkRun (drDec r) (drPops r) ReaderDone
  | Reading, RClosed => if closed then MkRun (drDec r) (drPops r) ReaderDone else r
  | Queueing gray, RQueue =>
      let d := drDec r in
      if len (gdFrames d) <? decoderQueueDepth
      then MkRun (MkDecoder (gdSeen d) (gdFrames d ++ [gray]) (gdClosed d)) (drPops r) Reading
      else r
  | Queueing _, RQueueClosed => if gdClosed (drDec r) then MkRun (drDec r) (drPops r) ReaderDone else r
  | _, _ => r
  end.

(* go: transport/videochannel/transport.go 525-529 acceptFrame *)
Definition acceptFrame (v : video) (frame : Frame) : bool := AcceptedBy frame (vdRemoteRole v) (vdBinding v).

(* go: transport/videochannel/transport.go 513-515 handleInboundFrame *)
Definition video_handleInboundFrame (v : video) (frame : Frame) : outcome Empty_set video :=
  let '(r, d) := DeliverFragment (vdReasm v) frame in
  let* d := d in Ok (video_say (set_video_reasm v r) (inbound_calls d)).

(** A decoded picture: what is extracted, decoded and accepted becomes calls of the
    sender and the application, in the order in which they are made. *)
(* go: transport/videochannel/transport.go 485-511 handleFrame *)
Definition handleFrame (v : video) (frame : bytes) : outcome Empty_set video :=
  match extractFrame (vdOpts v) frame with
  | Ok payload =>
      if len payload =? 0 then Ok v
      else
        match DecodeFrame payload with
        | Panic => Panic
        | Err _ => Ok v
        | Ok decoded =>
            if negb (acceptFrame v decoded) then Ok v
            else if fType decoded =? FrameTypeAck then
              Ok (video_say v [CallResolve (fSeq decoded) (fCRC decoded) (fFragIdx decoded)])
            else if fType decoded =? FrameTypeData then video_handleInboundFrame v decoded
            else Ok v
        end
  | Err _ => Ok v
  | Panic => Panic
  end.

(** The end of [popDecoderFrames]: the deferred call. *)
(* go: transport/videochannel/transport.go 404-412 popDecoderFrames *)
Definition pop_ends (v : video) (i : nat) (r : decoder_run) : video :=
  set_dec v (MkDecs ((fun ds => ds ∖ {[i]}) <$> dcSet (vdDec v))
               (<[i := MkRun (decoder_Close (drDec r)) false (drReader r)]> (dcRuns (vdDec v)))).

(** One round of [popDecoderFrames] on track [i]: it ends if the transport or the decoder is
    closed, or takes a frame if there is one; [stop] chooses when both are
    possible. *)
(* go: transport/videochannel/transport.go 404-430 popDecoderFrames *)
Definition popDecoderFrames (v : video) (i : nat) (stop : bool) : outcome Empty_set video :=
  match dcRuns (vdDec v) !! i with
  | Some r =>
      if negb (drPops r) then Ok v
      else if stop then Ok (if vdClosed v || gdClosed (drDec r) then pop_ends v i r else v)
      else
        match gdFrames (drDec r) with
        | [] => Ok v
        | frame :: frames =>
            let d := MkDecoder (gdSeen (drDec r)) frames (gdClosed (drDec r)) in
            handleFrame (set_dec v (set_run (vdDec v) i (MkRun d true (drReader r)))) frame
        end
  | None => Ok v
  end.

(** ** Close *)

(** The call that wins the compare-and-swap closes the queue with [closeCh]. *)
(* go: transport/videochannel/transport.go 256-259 Close *)
Definition close_begin (v : video) : video :=
  if vdClosed v then v
  else
    let q := sQueue (vdSender v) in
    MkVid (vdOpts v) (vdRemoteRole v) (vdBinding v) (vdShaper v)
      (set_queue (vdSender v) (MkQueue (qData q) (qAcks q) true)) (vdReasm v) true ClosingEncoder
      (vdEnc v) (vdDec v) (vdSamples v) (vdLog v).

Definition close_run (r : decoder_run) : decoder_run := MkRun (decoder_Close (drDec r)) (drPops r) (drReader r).

(** Its next section; it waits while the writer runs. *)
(* go: transport/videochannel/transport.go 261-282 Close *)
Definition close_next (v : video) : video :=
  match vdPhase v with
  | ClosingEncoder => set_phase (set_enc v (close_now (vdEnc v))) ClosingDecoders
  | ClosingDecoders =>
      let ds := default ∅ (dcSet (vdDec v)) in
      set_phase (set_dec v (MkDecs None
        (map_imap (fun i r => Some (if bool_decide (i ∈ ds) then close_run r else r)) (dcRuns (vdDec v)))))
        WaitingWriter
  | WaitingWriter => match ecWriter (vdEnc v) with WriterOn => v | _ => set_phase v CloseReturned end
  | _ => v
  end.

(** ** Runs *)

Inductive video_event :=
| VConnect
| VConnected (i : nat) (ok : bool)
| VStartWriter
| VTick (coins : nat * nat)
| VWriterStop
| VTrack (mime : string)
| VRead (i : nat) (ev : reader_event)
| VPop (i : nat) (stop : bool)
| VClose
| VCloseNext.

Definition video_step (v : video) (ev : video_event) : outcome Empty_set video :=
  match ev with
  | VConnect => Ok (connect_begin v)
  | VConnected i ok => Ok (connect_answered v i ok)
  | VStartWriter => Ok (connect_start v)
  | VTick coins => Ok (writer_turn v coins)
  | VWriterStop => Ok (writer_stop v)
  | VTrack mime => Ok (handleRemoteTrack v mime)
  | VRead i ev =>
      match dcRuns (vdDec v) !! i with
      | Some r => Ok (set_dec v (set_run (vdDec v) i (readDecoderInput (vdClosed v) r ev)))
      | None => Ok v
      end
  | VPop i stop => popDecoderFrames v i stop
  | VClose => Ok (close_begin v)
  | VCloseNext => Ok (close_next v)
  end.

Fixpoint video_run (v : video) (es : list video_event) : outcome Empty_set video :=
  match es with
  | [] => Ok v
  | e :: es => let* v := video_step v e in video_run v es
  end.

End video.
