(* ===== verification/VideoFacts.v ===== *)
(** * VideoFacts: resources and delivery of the videochannel transport *)

From S2P Require Import Prelude Bytes Text Frame Reassembly ReassemblyFacts Sender SenderFacts SenderRuns Traffic SeiTransport EndToEnd Socks SessionConfig SessionRun VideoTransport.

(** ** Invariant *)

Definition past_encoder (p : close_phase) : bool :=
  match p with ClosingDecoders | WaitingWriter | CloseReturned => true | _ => false end.
Definition past_decoders (p : close_phase) : bool :=
  match p with WaitingWriter | CloseReturned => true | _ => false end.

#[export] Instance close_phase_eq : EqDecision close_phase.
Proof. solve_decision. Defined.

(** An encoder is closed, or belongs to a [Connect] that waits for the stream, or is the
    installed one while [Close] has not come to it. *)
Record enc_inv (past : bool) (e : encoders) : Prop := {
  ei_now : forall i, ecNow e = Some i -> is_Some (ecAll e !! i) /\ i ∉ ecConnecting e;
  ei_connecting : forall i, i ∈ ecConnecting e -> is_Some (ecAll e !! i);
  ei_all : forall i enc, ecAll e !! i = Some enc ->
    enClosed enc = true \/ i ∈ ecConnecting e \/ (past = false /\ ecNow e = Some i);
}.

(** A decoder is registered while its frames are popped, and closed otherwise. *)
Record dec_inv (past : bool) (d : decoders) : Prop := {
  di_set : if past then dcSet d = None else exists ds, dcSet d = Some ds /\ Z.of_nat (size ds) <= maxRemoteDecoders /\
             forall i, i ∈ ds <-> exists r, dcRuns d !! i = Some r /\ drPops r = true /\ gdClosed (drDec r) = false;
  di_closed : forall i r, dcRuns d !! i = Some r -> gdClosed (drDec r) = false -> drPops r = true;
  di_pops : past = false -> forall i r, dcRuns d !! i = Some r -> drPops r = true -> gdClosed (drDec r) = false;
  di_past : past = true -> forall i r, dcRuns d !! i = Some r -> gdClosed (drDec r) = true;
  di_queue : forall i r, dcRuns d !! i = Some r -> len (gdFrames (drDec r)) <= decoderQueueDepth;
}.

Record video_inv (v : video) : Prop := {
  vi_closed : vdClosed v = bool_decide (vdPhase v <> NotClosing);
  vi_enc : enc_inv (past_encoder (vdPhase v)) (vdEnc v);
  vi_dec : dec_inv (past_decoders (vdPhase v)) (vdDec v);
}.

(** *** Encoders *)

Lemma close_encoder_all e i j enc :
  ecAll (close_encoder e i) !! j = Some enc ->
  exists enc0, ecAll e !! j = Some enc0 /\ (enClosed enc0 = true -> enClosed enc = true) /\
    (i = j -> enClosed enc = true).
Proof.
  cbn. destruct (decide (i = j)) as [<-|Hne].
  - rewrite lookup_alter_eq. destruct (ecAll e !! i) as [enc0|]; [|done]. intros [= <-]. by exists enc0.
  - rewrite lookup_alter_ne by done. intros H. by exists enc.
Qed.

Lemma close_encoder_dom e i j : is_Some (ecAll e !! j) -> is_Some (ecAll (close_encoder e i) !! j).
Proof.
  intros [enc H]. cbn. destruct (decide (i = j)) as [<-|Hne];
    [rewrite lookup_alter_eq, H|rewrite lookup_alter_ne, H by done]; by eexists.
Qed.

Lemma close_encoder_inv past e i : enc_inv past e -> enc_inv past (close_encoder e i).
Proof.
  intros [H1 H2 H3]. split.
  - intros j Hj. destruct (H1 j Hj). split; [by apply close_encoder_dom|done].
  - intros j Hj. by apply close_encoder_dom, H2.
  - intros j enc Hj. apply close_encoder_all in Hj as (enc0 & H0 & Hc & _).
    destruct (H3 j enc0 H0) as [?|[?|?]]; auto.
Qed.

Lemma close_now_inv past past' e : enc_inv past e -> enc_inv past' (close_now e).
Proof.
  intros [H1 H2 H3]. unfold close_now. destruct (ecNow e) as [i|] eqn:En.
  - split.
    + intros j Hj. cbn in Hj. rewrite En in Hj. simplify_eq. destruct (H1 j eq_refl). split; [by apply close_encoder_dom|done].
    + intros j Hj. by apply close_encoder_dom, H2.
    + intros j enc Hj. apply close_encoder_all in Hj as (enc0 & H0 & Hc & Hi).
      destruct (H3 j enc0 H0) as [?|[?|[_ [= ->]]]]; auto.
  - split; [congruence|done|]. intros j enc Hj. destruct (H3 j enc Hj) as [?|[?|[_ ?]]]; auto; congruence.
Qed.

Lemma set_writer_inv past e w : enc_inv past e -> enc_inv past (set_writer e w).
Proof. intros [H1 H2 H3]. by split. Qed.

Lemma connect_begin_inv `{VisualLib} v past :
  enc_inv past (vdEnc v) -> enc_inv past (vdEnc (connect_begin v)).
Proof.
  intros [H1 H2 H3]. unfold connect_begin. cbn [vdEnc set_enc]. set (e := vdEnc v) in *.
  generalize (is_fresh (dom (ecAll e))). generalize (fresh (dom (ecAll e))). intros i Hi%not_elem_of_dom.

  assert (Hne : forall j, is_Some (ecAll e !! j) -> i <> j) by (intros j [? ?] ->; congruence).
  split; cbn.
  - intros j Hj. destruct (H1 j Hj) as [Hs Hn]. rewrite lookup_insert_ne by auto. split; [done|].
    rewrite elem_of_app, list_elem_of_singleton. intros [?|Heq]; [done|]. by apply (Hne j).
  - intros j [Hj| ->%list_elem_of_singleton]%elem_of_app; [|rewrite lookup_insert_eq; by eexists].
    rewrite lookup_insert_ne by auto. auto.
  - intros j enc. destruct (decide (i = j)) as [<-|Hij].
    + intros _. right; left. apply elem_of_app. right. by apply list_elem_of_singleton.
    + rewrite lookup_insert_ne by done. intros Hj. rewrite elem_of_app. destruct (H3 j enc Hj) as [?|[?|?]]; auto.
Qed.

(** Taking a call out of the list: its encoder is closed or installed. *)
Lemma answered_inv past e i :
  enc_inv past e ->
  let e' := MkEncs (ecAll e) (ecNow e) (filter (fun j => j <> i) (ecConnecting e)) (ecStarting e) (ecWriter e) in
  enc_inv past (close_encoder e' i).
Proof.
  intros [H1 H2 H3]. split; cbn.
  - intros j Hj. destruct (H1 j Hj) as [Hs Hn]. split.
    + by apply (close_encoder_dom (MkEncs (ecAll e) None [] 0 WriterOff)).
    + rewrite list_elem_of_filter. tauto.
  - intros j [Hj Hin]%list_elem_of_filter.
    by apply (close_encoder_dom (MkEncs (ecAll e) None [] 0 WriterOff)), H2.
  - intros j enc Hj. apply (close_encoder_all (MkEncs (ecAll e) None [] 0 WriterOff)) in Hj as (enc0 & H0 & Hc & Hi).
    rewrite list_elem_of_filter. destruct (decide (i = j)) as [->|Hne]; [left; auto|].
    destruct (H3 j enc0 H0) as [?|[?|?]]; auto.
Qed.

Lemma connect_answered_inv `{VisualLib} v i ok :
  video_inv v -> enc_inv (past_encoder (vdPhase v)) (vdEnc (connect_answered v i ok)).
Proof.
  intros [Hc He _]. unfold connect_answered. destruct (bool_decide (i ∈ ecConnecting (vdEnc v))) eqn:Hin; [|done]. apply bool_decide_eq_true in Hin.
  destruct ok; cbn [negb]; [|by apply answered_inv]. destruct (vdClosed v) eqn:Hcl; [by apply answered_inv|].
  assert (Hp : vdPhase v = NotClosing).
  { symmetry in Hc. apply bool_decide_eq_false in Hc. by destruct (decide (vdPhase v = NotClosing)); [|naive_solver]. }
  rewrite Hp in *. destruct He as [H1 H2 H3].
  set (e := MkEncs (ecAll (vdEnc v)) (ecNow (vdEnc v)) (filter (fun j => j <> i) (ecConnecting (vdEnc v)))
              (ecStarting (vdEnc v)) (ecWriter (vdEnc v))).
  assert (Hdom : forall j, is_Some (ecAll (vdEnc v) !! j) -> is_Some (ecAll (close_now e) !! j)).
  { intros j Hj. unfold close_now. destruct (ecNow e); [by apply close_encoder_dom|done]. }
  assert (Hcon : ecConnecting (close_now e) = filter (fun j => j <> i) (ecConnecting (vdEnc v))).
  { unfold close_now. by destruct (ecNow e). }
  cbn [vdEnc set_enc]. split; cbn [ecNow ecAll ecConnecting]; rewrite ?Hcon.
  - intros j [= <-]. split; [auto|]. rewrite list_elem_of_filter. naive_solver.
  - intros j [Hj Hin']%list_elem_of_filter. auto.
  - intros j enc Hj. rewrite list_elem_of_filter. destruct (decide (j = i)) as [->|Hne]; [auto|].
    unfold close_now in Hj. destruct (ecNow e) as [k|] eqn:Ek; cbn in Ek.
    + apply close_encoder_all in Hj as (enc0 & H0 & Hc0 & Hk). cbn in H0.
      destruct (H3 j enc0 H0) as [?|[?|[_ Hn]]]; auto. left. apply Hk. congruence.
    + cbn in Hj. destruct (H3 j enc Hj) as [?|[?|[_ Hn]]]; auto. congruence.
Qed.

(** *** Decoders *)

Lemma set_run_inv past d i r r' :
  dec_inv past d -> dcRuns d !! i = Some r -> drPops r' = drPops r -> gdClosed (drDec r') = gdClosed (drDec r) ->
  len (gdFrames (drDec r')) <= decoderQueueDepth -> dec_inv past (set_run d i r').
Proof.
  intros [H1 H2 H5 H3 H4] Hi Hp Hc Hq.
  assert (Hl : forall j s, dcRuns (set_run d i r') !! j = Some s ->
    exists s0, dcRuns d !! j = Some s0 /\ drPops s = drPops s0 /\ gdClosed (drDec s) = gdClosed (drDec s0) /\
      (s = s0 \/ s = r')).
  { intros j s. cbn. destruct (decide (i = j)) as [<-|Hne];
      [rewrite lookup_insert_eq|rewrite lookup_insert_ne by done]; naive_solver. }
  split.
  - destruct past; [done|]. destruct H1 as (ds & Hs & Hn & Hin). exists ds. split_and!; [done..|].
    intros j. rewrite Hin. cbn. destruct (decide (i = j)) as [<-|Hne];
      [rewrite lookup_insert_eq|by rewrite lookup_insert_ne]. naive_solver.
  - intros j s (s0 & Hs0 & -> & -> & _)%Hl. eauto.
  - intros Hpast j s (s0 & Hs0 & -> & -> & _)%Hl. eauto.
  - intros Hpast j s (s0 & Hs0 & _ & -> & _)%Hl. eauto.
  - intros j s (s0 & Hs0 & _ & _ & [->| ->])%Hl; eauto.
Qed.

Lemma readDecoderInput_fields `{VisualLib} closed r ev :
  drPops (readDecoderInput closed r ev) = drPops r /\
  gdClosed (drDec (readDecoderInput closed r ev)) = gdClosed (drDec r) /\
  (len (gdFrames (drDec r)) <= decoderQueueDepth ->
   len (gdFrames (drDec (readDecoderInput closed r ev))) <= decoderQueueDepth).
Proof.
  unfold readDecoderInput. destruct (drReader r), ev; try done.
  - unfold PushSample. destruct (gdClosed (drDec r)) eqn:E; [done|].
    by destruct (vp8_Decode _ _).
  - by destruct closed.
  - destruct (len (gdFrames (drDec r)) <? decoderQueueDepth) eqn:E; [|done]. split_and!; [done..|].
    intros _. bool_to_Prop. cbn. rewrite length_app. cbn. lia.
  - by destruct (gdClosed (drDec r)) eqn:E.
Qed.

Lemma handleRemoteTrack_inv `{VisualLib} v mime past :
  dec_inv past (vdDec v) -> dec_inv past (vdDec (handleRemoteTrack v mime)).
Proof.
  intros Hd. unfold handleRemoteTrack. destruct (codecSpecForMime mime); [cbn [negb]|done].
  destruct (dcSet (vdDec v)) as [ds|] eqn:Hds; [|done].
  destruct (vdClosed v || (maxRemoteDecoders <=? Z.of_nat (size ds))) eqn:Hg; [done|].
  apply orb_false_iff in Hg as [_ Hg]. bool_to_Prop. destruct Hd as [H1 H2 H5 H3 H4]. cbn [vdDec set_dec].
  generalize (is_fresh (dom (dcRuns (vdDec v)))). generalize (fresh (dom (dcRuns (vdDec v)))).
  intros i Hi%not_elem_of_dom. destruct past; [by rewrite H1 in Hds|].
  destruct H1 as (ds' & Hs & Hn & Hin). simplify_eq.
  assert (Hni : i ∉ ds') by (rewrite Hin; intros (? & ? & _); congruence).
  split; cbn [dcSet dcRuns].
  - eexists. split; [done|]. split; [rewrite size_union, size_singleton by set_solver; lia|].
    intros j. rewrite elem_of_union, elem_of_singleton, Hin. destruct (decide (i = j)) as [<-|Hne].
    + rewrite lookup_insert_eq. split; [intros _; by eexists|auto].
    + rewrite lookup_insert_ne by done. split; [intros [?|?]; [congruence|done]|auto].
  - intros j r. destruct (decide (i = j)) as [<-|Hne]; [rewrite lookup_insert_eq; by intros [= <-]|].
    rewrite lookup_insert_ne by done. eauto.
  - intros _ j r. destruct (decide (i = j)) as [<-|Hne]; [rewrite lookup_insert_eq; by intros [= <-]|].
    rewrite lookup_insert_ne by done. eauto.
  - done.
  - intros j r. destruct (decide (i = j)) as [<-|Hne]; [rewrite lookup_insert_eq; by intros [= <-]|].
    rewrite lookup_insert_ne by done. eauto.
Qed.

Lemma pop_ends_inv past v i r :
  dec_inv past (vdDec v) -> dcRuns (vdDec v) !! i = Some r -> dec_inv past (vdDec (pop_ends v i r)).
Proof.
  intros [H1 H2 H5 H3 H4] Hi. cbn [vdDec set_dec pop_ends].
  assert (Hl : forall j s, <[i := MkRun (decoder_Close (drDec r)) false (drReader r)]> (dcRuns (vdDec v)) !! j = Some s ->
    (j = i /\ gdClosed (drDec s) = true /\ drPops s = false /\ gdFrames (drDec s) = gdFrames (drDec r)) \/
    (j <> i /\ dcRuns (vdDec v) !! j = Some s)).
  { intros j s. destruct (decide (i = j)) as [<-|Hne];
      [rewrite lookup_insert_eq; intros [= <-]; by left|rewrite lookup_insert_ne by done; auto]. }
  split; cbn [dcSet dcRuns].
  - destruct past; [by rewrite H1|]. destruct H1 as (ds & Hs & Hn & Hin). rewrite Hs. eexists. split; [done|].
    split. { etransitivity; [|exact Hn]. apply inj_le, subseteq_size. set_solver. }
    intros j. rewrite elem_of_difference, elem_of_singleton, Hin. split.
    + intros [(s & Hs1 & Hs2) Hne]. exists s. by rewrite lookup_insert_ne.
    + intros (s & [(-> & ? & ? & _)|[? ?]]%Hl & ? & ?); [congruence|]. eauto.
  - intros j s [(-> & ? & _)|[_ ?]]%Hl; [congruence|eauto].
  - intros Hp j s [(-> & _ & ? & _)|[_ ?]]%Hl; [congruence|eauto].
  - intros Hp j s [(-> & ? & _)|[_ ?]]%Hl; eauto.
  - intros j s [(-> & _ & _ & ->)|[_ ?]]%Hl; eauto.
Qed.

Lemma close_decoders_inv d :
  dec_inv false d ->
  dec_inv true (MkDecs None (map_imap (fun i r => Some (if bool_decide (i ∈ default ∅ (dcSet d)) then close_run r else r))
                               (dcRuns d))).
Proof.
  intros [(ds & Hs & _ & Hin) H2 _ _ H4].
  assert (Hl : forall j s, map_imap (fun i r => Some (if bool_decide (i ∈ default ∅ (dcSet d)) then close_run r else r))
      (dcRuns d) !! j = Some s ->
    exists r, dcRuns d !! j = Some r /\ gdClosed (drDec s) = true /\ gdFrames (drDec s) = gdFrames (drDec r)).
  { intros j s. rewrite map_lookup_imap. destruct (dcRuns d !! j) as [r|] eqn:Hr; cbn; [|done]. intros [= <-].
    exists r. rewrite Hs. cbn [default]. case_bool_decide as Hj; [done|]. split_and!; [done| |done].
    destruct (gdClosed (drDec r)) eqn:Hc; [done|]. exfalso. apply Hj, Hin. eauto. }
  split; cbn [dcSet dcRuns].
  - done.
  - intros j s (r & _ & ? & _)%Hl. congruence.
  - done.
  - intros _ j s (r & _ & ? & _)%Hl. done.
  - intros j s (r & ? & _ & ->)%Hl. eauto.
Qed.

(** *** Steps *)

(** What handling a picture leaves alone. *)
Definition same_machine (v v' : video) : Prop :=
  vdEnc v' = vdEnc v /\ vdDec v' = vdDec v /\ vdPhase v' = vdPhase v /\ vdClosed v' = vdClosed v /\
  vdSamples v' = vdSamples v /\ vdOpts v' = vdOpts v.

Lemma handleFrame_same `{VisualLib} `{TileFrame} v frame v' : handleFrame v frame = Ok v' -> same_machine v v'.
Proof.
  unfold handleFrame. destruct (extractFrame (vdOpts v) frame) as [payload| |]; [|by intros [= <-]|done].
  destruct (len payload =? 0); [by intros [= <-]|].
  destruct (DecodeFrame payload) as [d| |]; [|by intros [= <-]|done].
  destruct (acceptFrame v d); cbn [negb]; [|by intros [= <-]].
  destruct (fType d =? FrameTypeAck); [by intros [= <-]|].
  destruct (fType d =? FrameTypeData); [|by intros [= <-]]. unfold video_handleInboundFrame.
  destruct (DeliverFragment (vdReasm v) d) as [r [c| |]]; cbn [obind]; [by intros [= <-]|done..].
Qed.

Lemma writer_ends_inv v : video_inv v -> video_inv (writer_ends v).
Proof.
  intros [H1 H2 H3]. split; [done| |done]. unfold writer_ends. cbn [vdEnc set_enc vdPhase].
  by eapply set_writer_inv, close_now_inv.
Qed.

Lemma set_out_inv v q ss : video_inv v -> video_inv (set_out v q ss).
Proof. intros [H1 H2 H3]. by split. Qed.

Lemma writer_turn_inv `{VisualLib} `{TileFrame} v coins : video_inv v -> video_inv (writer_turn v coins).
Proof.
  intros Hv. unfold writer_turn. destruct (ecWriter (vdEnc v)); [done| |done].
  destruct (Next _ _ _ _) as [[] q]; try by apply writer_ends_inv, set_out_inv.
  all: (destruct (ecNow (vdEnc v)) as [i|]; [destruct (ecAll (vdEnc v) !! i)|]; by apply set_out_inv).
Qed.

Lemma close_next_inv v : video_inv v -> video_inv (close_next v).
Proof.
  intros Hv. pose proof Hv as [H1 H2 H3]. unfold close_next. destruct (vdPhase v) eqn:Hp; try done.
  - split; cbn; [done|by eapply close_now_inv|done].
  - split; cbn; [done|done|by apply close_decoders_inv].
  - destruct (ecWriter (vdEnc v)); [by split|done|by split].
Qed.

Lemma popDecoderFrames_inv `{VisualLib} `{TileFrame} v i stop v' :
  video_inv v -> popDecoderFrames v i stop = Ok v' -> video_inv v'.
Proof.
  intros Hv. unfold popDecoderFrames. destruct (dcRuns (vdDec v) !! i) as [r|] eqn:Hr; [|by intros [= <-]].
  destruct (drPops r) eqn:Hp; cbn [negb]; [|by intros [= <-]]. destruct Hv as [H1 H2 H3].
  destruct stop.
  - destruct (_ || _); intros [= <-]; [|by split]. split; [done|done|by apply pop_ends_inv].
  - destruct (gdFrames (drDec r)) as [|frame frames] eqn:Hf; [by intros [= <-]|].
    intros (E1 & E2 & E3 & E4 & _)%handleFrame_same. split; rewrite ?E1, ?E2, ?E3, ?E4; [done|done|].
    eapply set_run_inv; [done..|]. cbn. pose proof (di_queue _ _ H3 i r Hr) as Hq. rewrite Hf in Hq. cbn in Hq. lia.
Qed.

Lemma connect_answered_eq v i ok : connect_answered v i ok = set_enc v (vdEnc (connect_answered v i ok)).
Proof.
  unfold connect_answered. destruct (bool_decide (i ∈ ecConnecting (vdEnc v))), ok, (vdClosed v) eqn:Hc; cbn;
    by destruct v.
Qed.

Lemma handleRemoteTrack_eq v mime : handleRemoteTrack v mime = set_dec v (vdDec (handleRemoteTrack v mime)).
Proof.
  unfold handleRemoteTrack. destruct (codecSpecForMime mime); cbn [negb]; [|by destruct v].
  destruct (dcSet (vdDec v)); [|by destruct v]. by destruct (_ || _); destruct v.
Qed.

Lemma video_step_inv `{VisualLib} `{TileFrame} v ev v' : video_inv v -> video_step v ev = Ok v' -> video_inv v'.
Proof.
  intros Hv. pose proof Hv as [H1 H2 H3]. destruct ev; cbn [video_step].
  - intros [= <-]. split; [done|by apply connect_begin_inv|done].
  - intros [= <-]. pose proof (connect_answered_inv v i ok Hv) as He.
    rewrite connect_answered_eq. by split.
  - intros [= <-]. unfold connect_start. destruct (ecStarting (vdEnc v)); [done|]. split; [done| |done].
    destruct H2 as [E1 E2 E3]. by split.
  - intros [= <-]. by apply writer_turn_inv.
  - intros [= <-]. unfold writer_stop. destruct (ecWriter (vdEnc v)); [done| |done].
    destruct (vdClosed v); [by apply writer_ends_inv|done].
  - intros [= <-]. pose proof (handleRemoteTrack_inv v mime _ H3) as Hd.
    rewrite handleRemoteTrack_eq. by split.
  - destruct (dcRuns (vdDec v) !! i) as [r|] eqn:Hr; [|by intros [= <-]]. intros [= <-].
    destruct (readDecoderInput_fields (vdClosed v) r ev) as (Hp & Hc & Hq).
    split; [done|done|]. eapply set_run_inv; [done..|]. apply Hq, (di_queue _ _ H3 i r Hr).
  - by apply popDecoderFrames_inv.
  - intros [= <-]. unfold close_begin. destruct (vdClosed v) eqn:Hc; [done|].
    assert (Hp : vdPhase v = NotClosing).
    { symmetry in H1. apply bool_decide_eq_false in H1. by destruct (vdPhase v); naive_solver. }
    rewrite Hp in *. by split.
  - intros [= <-]. by apply close_next_inv.
Qed.

Lemma newVideo_inv dev chan room tc opts : video_inv (newVideo dev chan room tc opts).
Proof.
  split; [done|split|split]; cbn; try done; intros; try (by apply elem_of_nil in H || by rewrite lookup_empty in H);
    try (exfalso; set_solver).
  exists ∅. split_and!; [done|done|]. intros i. rewrite lookup_empty. split; [set_solver|naive_solver].
Qed.

Lemma video_run_inv `{VisualLib} `{TileFrame} v es v' : video_inv v -> video_run v es = Ok v' -> video_inv v'.
Proof.
  revert v. induction es as [|e es IH]; intros v Hv; cbn [video_run]; [by intros [= <-]|].
  destruct (video_step v e) as [v1| |] eqn:Hs; cbn [obind]; [|done..]. intros Hr.
  eapply IH; [|done]. by eapply video_step_inv.
Qed.

(** *** After Close *)

Lemma writeFrame_closed `{VisualLib} `{TileFrame} o enc p : enClosed enc = true -> writeFrame o enc p = [].
Proof. intros Hc. unfold writeFrame, EncodeFrame. rewrite Hc. by destruct (renderFrame o p). Qed.

Definition silent (v v' : video) : Prop :=
  vdSamples v' = vdSamples v /\ dom (dcRuns (vdDec v')) = dom (dcRuns (vdDec v)) /\ vdPhase v' = CloseReturned.

Lemma silent_out v q : vdPhase v = CloseReturned -> silent v (set_out v q []).
Proof. intros Hp. split_and!; [apply app_nil_r|done..]. Qed.

Lemma writer_turn_silent `{VisualLib} `{TileFrame} v coins :
  video_inv v -> vdPhase v = CloseReturned -> silent v (writer_turn v coins).
Proof.
  intros [H1 H2 H3] Hp. unfold writer_turn. destruct (ecWriter (vdEnc v)); [done| |done].
  assert (Hnow : forall q next, silent v (match ecNow (vdEnc v) with
    | None => set_out v q []
    | Some i => match ecAll (vdEnc v) !! i with
                | None => set_out v q []
                | Some enc => set_out v q (writeFrame (vdOpts v) enc next) end end)).
  { intros q next. destruct (ecNow (vdEnc v)) as [i|] eqn:En; [|by apply silent_out].
    destruct (ecAll (vdEnc v) !! i) as [enc|] eqn:Ei; [|by apply silent_out].
    rewrite Hp in H2. destruct H2 as [E1 _ E3]. destruct (E1 i En) as [_ Hni].
    destruct (E3 i enc Ei) as [Hc|[?|[? _]]]; [|done..]. rewrite writeFrame_closed by done. by apply silent_out. }
  destruct (Next _ _ _ _) as [[] q]; [apply Hnow|..].
  all: first [apply Hnow | by apply silent_out].
Qed.

Lemma set_run_dom d i r r' : dcRuns d !! i = Some r -> dom (dcRuns (set_run d i r')) = dom (dcRuns d).
Proof. intros Hi. cbn. rewrite dom_insert_L. apply elem_of_dom_2 in Hi. set_solver. Qed.

Lemma video_step_silent `{VisualLib} `{TileFrame} v ev v' :
  video_inv v -> vdPhase v = CloseReturned -> video_step v ev = Ok v' -> silent v v'.
Proof.
  intros Hv Hp. pose proof Hv as [H1 H2 H3]. rewrite Hp in *. destruct ev; cbn [video_step].
  - by intros [= <-].
  - intros [= <-]. by rewrite connect_answered_eq.
  - intros [= <-]. unfold connect_start. by destruct (ecStarting (vdEnc v)).
  - intros [= <-]. by apply writer_turn_silent.
  - intros [= <-]. unfold writer_stop. destruct (ecWriter (vdEnc v)); [done| |done]. by destruct (vdClosed v).
  - intros [= <-]. unfold handleRemoteTrack. destruct (negb _); [done|]. destruct (dcSet (vdDec v)) as [ds|]; [|done].
    by rewrite H1.
  - destruct (dcRuns (vdDec v) !! i) as [r|] eqn:Hr; intros [= <-]; [|done].
    split_and!; [done|by eapply set_run_dom|done].
  - unfold popDecoderFrames. destruct (dcRuns (vdDec v) !! i) as [r|] eqn:Hr; [|by intros [= <-]].
    destruct (drPops r); cbn [negb]; [|by intros [= <-]]. destruct stop.
    + destruct (_ || _); intros [= <-]; [|done]. split_and!; [done| |done]. cbn. rewrite dom_insert_L.
      apply elem_of_dom_2 in Hr. set_solver.
    + destruct (gdFrames (drDec r)) as [|frame frames]; [by intros [= <-]|].
      intros (_ & E2 & E3 & _ & E5 & _)%handleFrame_same. split_and!; [done| |by rewrite E3].
      rewrite E2. by eapply set_run_dom.
  - intros [= <-]. unfold close_begin. by rewrite H1.
  - intros [= <-]. unfold close_next. by rewrite Hp.
Qed.

Lemma video_run_silent `{VisualLib} `{TileFrame} v es v' :
  video_inv v -> vdPhase v = CloseReturned -> video_run v es = Ok v' -> silent v v'.
Proof.
  revert v. induction es as [|e es IH]; intros v Hv Hp; cbn [video_run]; [by intros [= <-]|].
  destruct (video_step v e) as [v1| |] eqn:Hs; cbn [obind]; [|done..]. intros Hr.
  destruct (video_step_silent _ _ _ Hv Hp Hs) as (E1 & E2 & E3).
  destruct (IH v1 (video_step_inv _ _ _ Hv Hs) E3 Hr) as (F1 & F2 & F3). split_and!; congruence.
Qed.

Definition open_runs (v : video) : gmap nat decoder_run :=
  filter (fun ir => gdClosed (drDec ir.2) = false) (dcRuns (vdDec v)).

Lemma open_runs_bounded v : video_inv v -> Z.of_nat (size (open_runs v)) <= maxRemoteDecoders.
Proof.
  intros [_ _ [H1 H2 _ H3 _]]. unfold open_runs. rewrite <- (size_dom (D := gset nat)).
  destruct (past_decoders (vdPhase v)).
  - replace (dom _) with (∅ : gset nat); [done|]. symmetry. apply elem_of_equiv_empty_L. intros i.
    rewrite elem_of_dom. intros [r Hr]. apply map_lookup_filter_Some in Hr as [Hr Hc]. cbn in Hc.
    rewrite (H3 eq_refl i r Hr) in Hc. done.
  - destruct H1 as (ds & _ & Hn & Hin). etransitivity; [|exact Hn]. apply inj_le, subseteq_size.
    intros i. rewrite elem_of_dom, Hin. intros [r Hr]. apply map_lookup_filter_Some in Hr as [Hr Hc]. cbn in Hc.
    exists r. split_and!; [done|by eapply H2|done].
Qed.

(** ** Delivery *)

(** The part of the state that a picture can change, as the state of the ack-based
    transport that carries payloads directly. *)
Definition payload_view (v : video) : SeiTransport :=
  MkSei (vdSender v) (vdReasm v) (vdClosed v) true (woQRSize (vdOpts v)) (frameInterval (woFPS (vdOpts v)))
    writerBatchSize (vdRemoteRole v) (vdBinding v) (vdShaper v).

(** The payload of a picture, empty if there is none. *)
Definition picture `{VisualLib} `{TileFrame} (o : VideoOptions) (frame : bytes) : bytes :=
  match extractFrame o frame with Ok p => p | _ => [] end.

Lemma handleFrame_payload `{VisualLib} `{TileFrame} v frame :
  handleFrame v frame =
    (let* r := handle_payload (payload_view v) (picture (vdOpts v) frame) in
     Ok (video_say (set_video_reasm v (tReassembler r.1)) r.2)).
Proof.
  assert (Hsame : video_say (set_video_reasm v (vdReasm v)) [] = v).
  { destruct v. unfold video_say, set_video_reasm. cbn. by rewrite app_nil_r. }
  assert (Hnil : handle_payload (payload_view v) [] = Ok (payload_view v, [])) by done.
  unfold handleFrame, picture. destruct (extractFrame (vdOpts v) frame) as [p| |] eqn:He.
  - destruct (len p =? 0) eqn:Hl.
    { bool_to_Prop. assert (p = []) as -> by (apply nil_length_inv; lia). rewrite Hnil. cbn [obind fst snd payload_view tReassembler].
      by rewrite Hsame. }
    unfold handle_payload, acceptFrame. cbn [payload_view tRemoteRole tBindingToken tReassembler].
    destruct (DecodeFrame p) as [d| |]; [|cbn [obind fst snd payload_view tReassembler]; by rewrite Hsame|done].
    destruct (AcceptedBy d _ _); cbn [negb]; [|cbn [obind fst snd payload_view tReassembler]; by rewrite Hsame].
    destruct (fType d =? FrameTypeAck); [done|].
    destruct (fType d =? FrameTypeData); [|cbn [obind fst snd set_reasm payload_view tReassembler]; by rewrite Hsame].
    unfold video_handleInboundFrame. by destruct (DeliverFragment (vdReasm v) d) as [r [c| |]].
  - rewrite Hnil. cbn [obind fst snd payload_view tReassembler]. by rewrite Hsame.
  - exfalso. revert He. unfold extractFrame, getVisualCodec, newVisualCodec.
    destruct (str_eqb _ _); [destruct (tile_New _ _)|destruct (qr_New _ _ _)]; cbn [obind]; try done;
      unfold extract; cbn; repeat case_match; done.
Qed.

(** Pictures, one after the other. *)
Fixpoint handle_frames `{VisualLib} `{TileFrame} (v : video) (frames : list bytes) : outcome Empty_set video :=
  match frames with
  | [] => Ok v
  | f :: frames => let* v := handleFrame v f in handle_frames v frames
  end.

Lemma handle_payload_view v t p t' calls :
  tRemoteRole t = vdRemoteRole v -> tBindingToken t = vdBinding v -> tReassembler t = vdReasm v ->
  handle_payload t p = Ok (t', calls) ->
  exists t'', handle_payload (payload_view v) p = Ok (t'', calls) /\ tReassembler t'' = tReassembler t' /\
    tRemoteRole t' = tRemoteRole t /\ tBindingToken t' = tBindingToken t.
Proof.
  intros Hr Hb Hre. unfold handle_payload. cbn [payload_view tRemoteRole tBindingToken tReassembler].
  rewrite Hr, Hb, Hre. destruct (DecodeFrame p) as [d| |]; [|intros [= <- <-]; by eexists|done].
  destruct (AcceptedBy d _ _); cbn [negb]; [|intros [= <- <-]; by eexists].
  destruct (fType d =? FrameTypeAck); [intros [= <- <-]; eexists; by split_and!|].
  destruct (fType d =? FrameTypeData); [|intros [= <- <-]; eexists; by split_and!].
  destruct (DeliverFragment (vdReasm v) d) as [r [c| |]]; cbn [obind]; [|done..].
  intros [= <- <-]. eexists. by split_and!.
Qed.

Lemma handle_frames_payloads `{VisualLib} `{TileFrame} v t frames t' calls :
  tRemoteRole t = vdRemoteRole v -> tBindingToken t = vdBinding v -> tReassembler t = vdReasm v ->
  handle_payloads t (picture (vdOpts v) <$> frames) = Ok (t', calls) ->
  exists v', handle_frames v frames = Ok v' /\ vdLog v' = vdLog v ++ calls.
Proof.
  revert v t calls. induction frames as [|f frames IH]; intros v t calls Hr Hb Hre; cbn [handle_frames fmap list_fmap handle_payloads].
  - intros [= <- <-]. exists v. by rewrite app_nil_r.
  - destruct (handle_payload t (picture (vdOpts v) f)) as [[t1 c1]| |] eqn:Hp; cbn [obind fst snd]; [|done..].
    destruct (handle_payload_view v _ _ _ _ Hr Hb Hre Hp) as (t'' & Hv & Hre' & Hr' & Hb').
    destruct (handle_payloads t1 _) as [[t2 c2]| |] eqn:Hps; cbn [obind fst snd]; [|done..]. intros [= <- <-].
    rewrite handleFrame_payload, Hv. cbn [obind fst snd].
    set (v1 := video_say (set_video_reasm v (tReassembler t'')) c1).
    destruct (IH v1 t1 c2) as (v' & Hv' & Hlog); [by rewrite Hr'|by rewrite Hb'|by cbn|done|].
    exists v'. split; [done|]. rewrite Hlog. cbn. by rewrite <- app_assoc.
Qed.

(** ** Decoders of tracks that have ended *)

(** An open transport with [n] registered decoders, all of whose tracks have ended. *)
Record spent (n : nat) (v : video) : Prop := {
  sp_open : vdClosed v = false;
  sp_inv : video_inv v;
  sp_set : exists ds, dcSet (vdDec v) = Some ds /\ size ds = n;
  sp_done : forall i r, dcRuns (vdDec v) !! i = Some r -> drReader r = ReaderDone /\ gdFrames (drDec r) = [];
  sp_log : vdLog v = [];
}.

Lemma spent_phase n v : spent n v -> vdPhase v = NotClosing.
Proof.
  intros [Ho [H1 _ _] _ _ _]. rewrite Ho in H1. symmetry in H1. apply bool_decide_eq_false in H1.
  by destruct (vdPhase v); naive_solver.
Qed.

(** One more track that comes and goes. *)
Lemma spent_more `{VisualLib} `{TileFrame} n v :
  spent n v -> (n < 8)%nat ->
  exists i v', video_run v [VTrack "video/VP8"; VRead i REnd] = Ok v' /\ spent (S n) v'.
Proof.
  intros Hs Hn. pose proof Hs as [Ho Hi (ds & Hds & Hsz) Hd Hl].
  set (i := fresh (dom (dcRuns (vdDec v)))). exists i.
  set (v1 := handleRemoteTrack v "video/VP8").
  assert (Hv1 : v1 = set_dec v (MkDecs (Some ({[i]} ∪ ds)) (<[i := MkRun newGoDecoder true Reading]> (dcRuns (vdDec v))))).
  { unfold v1, handleRemoteTrack. change (codecSpecForMime "video/VP8") with true. cbn [negb]. rewrite Hds, Ho, Hsz.
    cbn [orb]. by rewrite (proj2 (Z.leb_gt _ _)) by (unfold maxRemoteDecoders; lia). }
  assert (Hr1 : dcRuns (vdDec v1) !! i = Some (MkRun newGoDecoder true Reading)).
  { rewrite Hv1. cbn. apply lookup_insert_eq. }
  set (v2 := set_dec v1 (set_run (vdDec v1) i (MkRun newGoDecoder true ReaderDone))). exists v2.
  assert (Hrun : video_run v [VTrack "video/VP8"; VRead i REnd] = Ok v2).
  { cbn [video_run video_step obind]. fold v1. rewrite Hr1. done. }
  split; [done|]. split.
  - unfold v2. by rewrite <- Ho, Hv1.
  - by eapply video_run_inv.
  - eexists. split; [unfold v2; by rewrite Hv1|]. rewrite size_union, size_singleton by
      (apply disjoint_singleton_l; intros Hin; destruct Hi as [_ _ [H1 _ _ _ _]];
       rewrite (spent_phase _ _ Hs) in H1; destruct H1 as (ds' & Hds' & _ & Hin'); rewrite Hds in Hds'; simplify_eq;
       apply Hin' in Hin as (r & Hr & _); apply (is_fresh (dom (dcRuns (vdDec v)))); by eapply elem_of_dom_2).
    lia.
  - intros j r. unfold v2. rewrite Hv1. cbn. destruct (decide (i = j)) as [<-|Hne].
    + rewrite lookup_insert_eq. by intros [= <-].
    + rewrite !lookup_insert_ne by done. apply Hd.
  - unfold v2. by rewrite <- Hl, Hv1.
Qed.

Lemma video_run_app `{VisualLib} `{TileFrame} v es es' :
  video_run v (es ++ es') = (let* v := video_run v es in video_run v es').
Proof.
  revert v. induction es as [|e es IH]; intros v; [done|]. cbn [app video_run].
  destruct (video_step v e); cbn [obind]; [apply IH|done..].
Qed.

(** Tracks that come and go one after the other. *)
Definition come_and_go (ids : list nat) : list video_event :=
  concat ((fun i => [VTrack "video/VP8"; VRead i REnd]) <$> ids).

Lemma spent_reachable `{VisualLib} `{TileFrame} n dev chan room tc opts :
  (n <= 8)%nat ->
  exists ids v, length ids = n /\ video_run (newVideo dev chan room tc opts) (come_and_go ids) = Ok v /\ spent n v.
Proof.
  induction n as [|n IH]; intros Hn.
  - exists [], (newVideo dev chan room tc opts). split_and!; [done..|]. split; [done|apply newVideo_inv| |done|done].
    by exists ∅.
  - destruct IH as (ids & v & Hlen & Hrun & Hs); [lia|]. destruct (spent_more n v Hs) as (i & v' & Hstep & Hs'); [lia|].
    exists (ids ++ [i]), v'. rewrite length_app, Hlen. split; [cbn; lia|]. split; [|done].
    unfold come_and_go. rewrite fmap_app, concat_app, video_run_app. unfold come_and_go in Hrun. rewrite Hrun.
    cbn [obind fmap list_fmap concat]. rewrite app_nil_r. exact Hstep.
Qed.

(** With the table full nothing is heard any more. *)
Lemma spent_step `{VisualLib} `{TileFrame} v ev :
  spent 8 v -> ev <> VClose ->
  exists v', video_step v ev = Ok v' /\ spent 8 v' /\ dom (dcRuns (vdDec v')) = dom (dcRuns (vdDec v)).
Proof.
  intros Hs Hne. pose proof Hs as [Ho Hi (ds & Hds & Hsz) Hd Hl]. pose proof (spent_phase _ _ Hs) as Hp.
  assert (Hkeep : forall v', video_step v ev = Ok v' -> vdClosed v' = false -> vdDec v' = vdDec v -> vdLog v' = [] ->
    exists v', video_step v ev = Ok v' /\ spent 8 v' /\ dom (dcRuns (vdDec v')) = dom (dcRuns (vdDec v))).
  { intros v' Hstep E1 E2 E3. exists v'. split; [done|]. split; [|by rewrite E2].
    split; [done|by eapply video_step_inv|rewrite E2; eauto|by rewrite E2|done]. }
  destruct ev; cbn [video_step] in *; try done.
  - by eapply Hkeep.
  - eapply Hkeep; [done|by rewrite connect_answered_eq..].
  - eapply Hkeep; [done|unfold connect_start; by destruct (ecStarting (vdEnc v))..].
  - assert (E : vdClosed (writer_turn v coins) = vdClosed v /\ vdDec (writer_turn v coins) = vdDec v /\
      vdLog (writer_turn v coins) = vdLog v).
    { unfold writer_turn. destruct (ecWriter (vdEnc v)); [done| |done]. destruct (Next _ _ _ _) as [[] q]; try done;
        by destruct (ecNow (vdEnc v)) as [i|]; [destruct (ecAll (vdEnc v) !! i)|]. }
    destruct E as (E1 & E2 & E3). eapply Hkeep; [done|congruence..].
  - eapply Hkeep; [done|unfold writer_stop; destruct (ecWriter (vdEnc v)); try done; by rewrite Ho..].
  - assert (E : handleRemoteTrack v mime = v).
    { unfold handleRemoteTrack. destruct (negb _); [done|]. rewrite Hds, Ho, Hsz. done. }
    rewrite E in *. by eapply Hkeep.
  - destruct (dcRuns (vdDec v) !! i) as [r|] eqn:Hr; [|by eapply Hkeep].
    destruct (Hd i r Hr) as [Hrd _].
    assert (E : readDecoderInput (vdClosed v) r ev = r) by (unfold readDecoderInput; by rewrite Hrd).
    rewrite E in *. eapply Hkeep; [done|done| |done]. cbn. unfold set_run. rewrite insert_id by done. by destruct (vdDec v).
  - unfold popDecoderFrames in *. destruct (dcRuns (vdDec v) !! i) as [r|] eqn:Hr; [|by eapply Hkeep].
    destruct (drPops r) eqn:Hpop; cbn [negb] in *; [|by eapply Hkeep].
    destruct (Hd i r Hr) as [Hrd Hfr]. rewrite Hfr in *. destruct stop; [|by eapply Hkeep].
    rewrite Ho in *. cbn [orb] in *. destruct (gdClosed (drDec r)) eqn:Hgc; [|by eapply Hkeep].
    destruct Hi as [_ _ Hdi]. rewrite Hp in Hdi. pose proof (di_pops _ _ Hdi eq_refl i r Hr Hpop). congruence.
  - eapply Hkeep; [done|unfold close_next; by rewrite Hp..].
Qed.

Lemma spent_run `{VisualLib} `{TileFrame} v es :
  spent 8 v -> VClose ∉ es ->
  exists v', video_run v es = Ok v' /\ spent 8 v' /\ dom (dcRuns (vdDec v')) = dom (dcRuns (vdDec v)).
Proof.
  revert v. induction es as [|e es IH]; intros v Hs Hn; [by exists v|].
  apply not_elem_of_cons in Hn as [He Hn]. cbn [video_run].
  destruct (spent_step v e Hs) as (v1 & -> & Hs1 & Hd1); [done|]. cbn [obind].
  destruct (IH v1 Hs1 Hn) as (v' & Hv' & Hs' & Hd'). exists v'. by rewrite Hd'.
Qed.

(** ** Properties *)

(** C14: the videochannel's resources are bounded and Close releases them.  In every
    interleaving of [Connect] and [Close] calls, the writer and the goroutines of the remote
    tracks, at most eight decoders are open and each holds at most eight pictures.
    Once [Close] has returned, every decoder is closed, every encoder is closed but those of
    [Connect] calls the stream has not answered, and whatever happens later no
    sample is written to the track and no decoder is started. *)
Theorem video_bounded_and_released `{VisualLib} `{TileFrame} (deviceID channelID roomURL : string)
    (traffic : TrafficConfig) (opts : VideoOptions) (es : list video_event) (v : video)
    (Hrun : video_run (newVideo deviceID channelID roomURL traffic opts) es = Ok v) :
  Z.of_nat (size (open_runs v)) <= maxRemoteDecoders /\
  (forall i r, dcRuns (vdDec v) !! i = Some r -> len (gdFrames (drDec r)) <= decoderQueueDepth) /\
  (vdPhase v = CloseReturned ->
   open_runs v = ∅ /\
   (forall i enc, ecAll (vdEnc v) !! i = Some enc -> enClosed enc = true \/ i ∈ ecConnecting (vdEnc v)) /\
   forall es' v', video_run v es' = Ok v' ->
     vdSamples v' = vdSamples v /\ dom (dcRuns (vdDec v')) = dom (dcRuns (vdDec v))).
Proof.
  assert (Hv : video_inv v) by (eapply video_run_inv; [apply newVideo_inv|done]).
  pose proof Hv as [_ He Hd]. split; [by apply open_runs_bounded|]. split; [apply (di_queue _ _ Hd)|].
  intros Hp. rewrite Hp in *. split_and!.
  - apply map_empty. intros i. apply map_lookup_filter_None. right. intros r Hr. cbn.
    rewrite (di_past _ _ Hd eq_refl i r Hr). done.
  - intros i enc Hi. destruct (ei_all _ _ He i enc Hi) as [?|[?|[? _]]]; auto. done.
  - intros es' v' Hrun'. by destruct (video_run_silent v es' v' Hv Hp Hrun') as (? & ? & _).
Qed.

(** C13: [Send] over the videochannel means delivery.  Let [Send] return nil, under any
    schedule of its loop, on a message of at most [MaxMessageLen] bytes in at most
    [MaxFragments] fragments, and let the peer's transport handle any pictures (of other
    participants, unreadable, repeated or out of order) in which frames under this
    sequence number are the sender's own.  Suppose the sequence number is new to the
    peer (neither partly received nor among the delivered ones it remembers), and the
    sequence numbers partly received plus those the pictures carry are at most
    [maxRecent], so that no partial message is evicted.  Then, if the acks the sender
    saw are ones the peer sent, the peer has handed exactly this message to its
    application. *)
Theorem video_send_ok_means_delivered `{VisualLib} `{TileFrame} (s0 : Sender) (data : bytes) (evs : list event)
    (log : list Z) (s : Sender) (c : send_call) (v : video) (frames : list bytes)
    (Hrun : reaches (SendStart s0 data).1 (SendStart s0 data).2 evs log s c)
    (Hret : returned c = Some SendOk)
    (Hbytes : byte_list data) (Hbind : is_u32 (cfgBinding (sCfg s0)))
    (Hlen : len data <= MaxMessageLen)
    (Hcount : len (FragmentPayload data (cfgFragmentSize (sCfg s0))) <= MaxFragments)
    (Hpictures : Forall (fun f => byte_list (picture (vdOpts v) f)) frames)
    (Hr : reasm_ok (vdReasm v))
    (Hown : forall p f, p ∈ picture (vdOpts v) <$> frames ->
       payload_fragment (vdRemoteRole v) (vdBinding v) p = Some f -> gSeq f = u32 (sSeq s0 + 1) ->
       exists i, (i < length (FragmentPayload data (cfgFragmentSize (sCfg s0))))%nat /\
         p = wire_frame (sCfg s0) (u32 (sSeq s0 + 1)) data i)
    (Hnew : inbound (vdReasm v) !! u32 (sSeq s0 + 1) = None)
    (Hfresh : delivered (vdReasm v) !! u32 (sSeq s0 + 1) = None /\
              previous (vdReasm v) !! u32 (sSeq s0 + 1) = None)
    (Hfit : Z.of_nat (size (dom (inbound (vdReasm v)) ∪ list_to_set (gSeq <$>
              omap (payload_fragment (vdRemoteRole v) (vdBinding v)) (picture (vdOpts v) <$> frames))
              : gset Z)) <= maxRecent (vdReasm v)) :
  exists v' calls, handle_frames v frames = Ok v' /\ vdLog v' = vdLog v ++ calls /\
    ((forall i, EvAck (u32 (sSeq s0 + 1)) (ChecksumIEEE data) i ∈ evs ->
        CallAck (u32 (sSeq s0 + 1)) (ChecksumIEEE data) i ∈ calls) ->
     CallData data ∈ calls).
Proof.
  destruct (payloads_deliver s0 data evs log s c (payload_view v) (picture (vdOpts v) <$> frames))
    as (t' & calls & Hh & Hdel); try done; [by apply Forall_fmap|].
  destruct (handle_frames_payloads v (payload_view v) frames t' calls) as (v' & Hv' & Hlog); [done..|].
  by exists v', calls.
Qed.

(** Tracks that end use up the decoders for good.  A decoder is only given back
    when the transport is closed: after eight remote tracks have come and gone, each ended
    by the peer with nothing left to read, all eight places stay taken, no later
    track gets a decoder, and until [Close] the transport hears nothing from anybody
    whatever is sent to it. *)
Theorem ended_tracks_exhaust_decoders `{VisualLib} `{TileFrame} (deviceID channelID roomURL : string)
    (traffic : TrafficConfig) (opts : VideoOptions) :
  exists ids v,
    length ids = 8%nat /\
    video_run (newVideo deviceID channelID roomURL traffic opts) (come_and_go ids) = Ok v /\
    (forall i r, dcRuns (vdDec v) !! i = Some r -> drReader r = ReaderDone) /\
    forall es, VClose ∉ es ->
      exists v', video_run v es = Ok v' /\ vdLog v' = [] /\ dom (dcRuns (vdDec v')) = dom (dcRuns (vdDec v)).
Proof.
  destruct (spent_reachable 8 deviceID channelID roomURL traffic opts) as (ids & v & Hlen & Hrun & Hs); [lia|].
  exists ids, v. split; [done|]. split; [done|]. split; [intros i r Hr; by apply (sp_done _ _ Hs i r Hr)|].
  intros es Hes. destruct (spent_run v es Hs Hes) as (v' & Hv' & Hs' & Hd). exists v'. split; [done|].
  split; [apply (sp_log _ _ Hs')|done].
Qed.

(** Witnesses: a visual codec that pads the payload to a picture of 8 x 8, and a VP8 codec
    that sends the picture as it is. *)
Definition toy_visual : VisualLib := {|
  qr_New _ _ _ := true;
  qr_Encode w h _ p := if len p <? w * h then Some (len p :: p ++ replicate (Z.to_nat (w * h) - 1 - length p) 0) else None;
  qr_Decode _ _ _ f := match f with n :: p => if n =? 255 then QrNotFound else QrData (take (Z.to_nat n) p) | [] => QrError end;
  tile_New _ _ := false;
  tile_Encode _ _ _ := None;
  tile_Decode _ _ _ := None;
  vp8_Encode _ _ f := Some f;
  vp8_Decode _ s := Some s |}.

Definition toy_opts : VideoOptions := MkVideoOptions 8 8 30 2 "" "qrcode" 4 20.
Definition toy_video : video :=
  MkVid toy_opts RoleClient 7 None (NewSender toy_cfg NewOutboundQueue) (NewReassembler 4) false NotClosing
    (MkEncs ∅ None [] 0 WriterOff) (MkDecs (Some ∅) ∅) [] [].
Definition toy_picture (p : bytes) : bytes :=
  match @renderFrame toy_visual toy_opts p with Ok f => f | _ => [] end.
Definition toy_pictures : list bytes :=
  [toy_picture (toy_frame 1); toy_picture []; toy_picture (toy_frame 0); toy_picture (toy_frame 1)].

Lemma video_bounded_and_released_witness :
  exists v, @video_run toy_visual (Build_TileFrame 1080 1080) (newVideo "" "" "" (MkTraffic 0 0 0) toy_opts)
      [VConnect; VConnected 0 true; VStartWriter; VTrack "video/vp8"; VTick (0, 0)%nat; VClose; VCloseNext; VCloseNext;
       VWriterStop; VCloseNext] = Ok v /\
    vdPhase v = CloseReturned /\ open_runs v = ∅ /\ len (vdSamples v) = 1.
Proof.
  destruct (@video_run toy_visual (Build_TileFrame 1080 1080) (newVideo "" "" "" (MkTraffic 0 0 0) toy_opts)
      [VConnect; VConnected 0 true; VStartWriter; VTrack "video/vp8"; VTick (0, 0)%nat; VClose; VCloseNext; VCloseNext;
       VWriterStop; VCloseNext]) as [v|e|] eqn:Hrun; [|destruct e|exfalso; revert Hrun; vm_compute; discriminate].
  destruct (video_bounded_and_released (H := toy_visual) "" "" "" _ _ _ _ Hrun) as (_ & _ & Hclose).
  assert (Hp : vdPhase v = CloseReturned /\ len (vdSamples v) = 1).
  { clear Hclose. revert Hrun. vm_compute. intros [= <-]. by split. }
  destruct Hp as [Hp Hl]. exists v. split_and!; [done|done| |done]. by apply Hclose.
Defined.

Lemma toy_pictures_payloads :
  (@picture toy_visual (Build_TileFrame 1080 1080) toy_opts <$> toy_pictures) = [toy_frame 1; []; toy_frame 0; toy_frame 1].
Proof. by vm_compute. Qed.

Lemma video_send_ok_means_delivered_witness :
  exists v' calls,
    @handle_frames toy_visual (Build_TileFrame 1080 1080) toy_video toy_pictures = Ok v' /\ vdLog v' = calls /\
    ((forall i, EvAck 1 toy_crc i ∈ toy_events -> CallAck 1 toy_crc i ∈ calls) -> CallData toy_data ∈ calls).
Proof.
  destruct (run_events (SendStart toy_sender toy_data).1 (SendStart toy_sender toy_data).2 toy_events)
    as [[[log s] c]|] eqn:Hrun; [|exfalso; revert Hrun; vm_compute; discriminate].
  assert (Hret : returned c = Some SendOk).
  { change c with (log, s, c).2. revert Hrun. vm_compute. intros H. injection H as <- <- <-. done. }
  apply (video_send_ok_means_delivered (H := toy_visual) (H0 := Build_TileFrame 1080 1080) toy_sender toy_data toy_events
    log s c toy_video toy_pictures
    (run_events_reaches _ _ [] [] _ _ _ _ _ _ (reaches_refl _ _) Hrun) Hret).
  - repeat constructor; lia.
  - simpl. lia.
  - vm_compute. discriminate.
  - vm_compute. discriminate.
  - apply Forall_fmap. change (Forall (λ p, byte_list p) (@picture toy_visual (Build_TileFrame 1080 1080) toy_opts <$> toy_pictures)).
    rewrite toy_pictures_payloads. vm_compute. repeat constructor; discriminate.
  - apply NewReassembler_ok.
  - intros p f Hp Hf _. change (p ∈ @picture toy_visual (Build_TileFrame 1080 1080) toy_opts <$> toy_pictures) in Hp.
    rewrite toy_pictures_payloads in Hp. rewrite !elem_of_cons, elem_of_nil in Hp.
    destruct Hp as [->|[->|[->|[->|[]]]]];
      [exists 1%nat|vm_compute in Hf; discriminate|exists 0%nat|exists 1%nat]; (split; [vm_compute; lia|reflexivity]).
  - reflexivity.
  - split; reflexivity.
  - vm_compute. discriminate.
Defined.
