(* ===== verification/IceServers.v ===== *)
(** * IceServers: the ICE servers handed to pion (internal/engine/iceservers.go)

    Services advertise STUN and TURN servers with missing ports and transports, and pion refuses a
    whole configuration for one bad URL.  [url.Parse] and [url.ParseQuery] are an
    interface; of a parsed URL the code reads the scheme, the opaque part and the query. *)

From S2P Require Import Prelude Bytes Text SessionConfig ConfigFile NetAddr.

(** [query_transport] is the value of "transport" in a query. *)
Class URLs : Type := {
  url_Parse : bytes -> option (bytes * bytes * bytes);
  query_transport : bytes -> option bytes;
}.

Inductive credential := CredNil | CredString (s : string) | CredOther.

Record ICEServer := MkICE { icURLs : list bytes; icUsername : string; icCredential : credential }.

(* go: engine/iceservers.go 14-28 schemeSTUN *)
Definition schemeSTUN : bytes := string_bytes "stun".
Definition schemeSTUNS : bytes := string_bytes "stuns".
Definition schemeTURN : bytes := string_bytes "turn".
Definition schemeTURNS : bytes := string_bytes "turns".
Definition transportUDP : bytes := string_bytes "udp".
Definition transportTCP : bytes := string_bytes "tcp".
Definition defaultPortSTUN : bytes := string_bytes "3478".
Definition defaultPortTLS : bytes := string_bytes "5349".

Definition bytes_eqb (a b : bytes) : bool := bool_decide (a = b).

(* go: engine/iceservers.go 74-87 hasPionTURNCredentials *)
Definition hasPionTURNCredentials (srv : ICEServer) : bool :=
  if str_eqb (icUsername srv) "" then false
  else match icCredential srv with CredString password => negb (str_eqb password "") | _ => false end.

Fixpoint HasPrefix (s prefix : bytes) : bool :=
  match prefix, s with
  | [], _ => true
  | p :: prefix, b :: s => (b =? p) && HasPrefix s prefix
  | _ :: _, [] => false
  end.

(* go: engine/iceservers.go 89-94 isTURNURL *)
Definition isTURNURL (u : bytes) : bool :=
  HasPrefix u (schemeTURN ++ [colon]) || HasPrefix u (schemeTURNS ++ [colon]).

(* go: engine/iceservers.go 136-147 iceDefaultPort *)
Definition iceDefaultPort (scheme : bytes) : option bytes :=
  if bytes_eqb scheme schemeSTUN || bytes_eqb scheme schemeTURN then Some defaultPortSTUN
  else if bytes_eqb scheme schemeSTUNS || bytes_eqb scheme schemeTURNS then Some defaultPortTLS
  else None.

Definition TrimPrefix1 (c : Z) (s : bytes) : bytes :=
  match s with b :: rest => if b =? c then rest else s | [] => [] end.
Definition TrimSuffix1 (c : Z) (s : bytes) : bytes := rev (TrimPrefix1 c (rev s)).

(** Host and port, the port empty when it is missing. *)
Definition ice_split (hostport : bytes) : option (bytes * bytes) :=
  match SplitHostPort hostport with
  | Ok (host, port) => Some (host, port)
  | Err MissingPort => Some (TrimSuffix1 rbracket (TrimPrefix1 lbracket hostport), [])
  | _ => None
  end.

(* go: engine/iceservers.go 149-172 joinICEHostPort *)
Definition joinICEHostPort (hostport defaultPort : bytes) : option bytes :=
  match ice_split hostport with
  | None => None
  | Some (host, port) =>
      if len host =? 0 then None
      else
        let port := if len port =? 0 then defaultPort else port in
        match Atoi port with
        | None => None
        | Some n => if (n <? 1) || (65535 <? n) then None else Some (JoinHostPort host port)
        end
  end.

(* go: engine/iceservers.go 174-192 iceTransport *)
Definition iceTransport `{URLs} (scheme rawQuery : bytes) : option bytes :=
  if negb (bytes_eqb scheme schemeTURN) && negb (bytes_eqb scheme schemeTURNS) then None
  else
    match query_transport rawQuery with
    | None => None
    | Some v =>
        let transport := ToLower v in
        if bytes_eqb transport transportUDP || bytes_eqb transport transportTCP then Some transport else None
    end.

(* go: engine/iceservers.go 96-134 normaliseICEServerURL *)
Definition normaliseICEServerURL `{URLs} (raw : bytes) : option bytes :=
  match url_Parse (trim_bytes raw) with
  | None => None
  | Some (sch, opaque, rawQuery) =>
      if len opaque =? 0 then None
      else
        let scheme := ToLower sch in
        match iceDefaultPort scheme with
        | None => None
        | Some defaultPort =>
            match joinICEHostPort opaque defaultPort with
            | None => None
            | Some hostport =>
                let normalised := scheme ++ [colon] ++ hostport in
                Some match iceTransport scheme rawQuery with
                     | Some transport => normalised ++ string_bytes "?transport=" ++ transport
                     | None => normalised
                     end
            end
        end
  end.

(** The URLs of one server that survive. *)
Definition keep_url `{URLs} (turnOK : bool) (raw : bytes) : option bytes :=
  match normaliseICEServerURL raw with
  | Some u => if negb turnOK && isTURNURL u then None else Some u
  | None => None
  end.

(* go: engine/iceservers.go 29-72 NormaliseICEServers *)
Fixpoint NormaliseICEServers `{URLs} (servers : list ICEServer) : list ICEServer :=
  match servers with
  | [] => []
  | srv :: servers =>
      let urls := omap (keep_url (hasPionTURNCredentials srv)) (icURLs srv) in
      match urls with
      | [] => NormaliseICEServers servers
      | _ => MkICE urls (icUsername srv) (icCredential srv) :: NormaliseICEServers servers
      end
  end.

(** ** Facts *)

(** The characters of a number. *)
Definition port_char (b : Z) : Prop := b = 43 \/ b = 45 \/ 48 <= b <= 57.

Lemma decimal_chars l acc n : decimal l acc = Some n -> Forall port_char l.
Proof.
  revert acc. induction l as [|b l IH]; intros acc; cbn; [constructor|].
  destruct ((48 <=? b) && (b <=? 57)) eqn:E; [|done]. intros Hd. bool_to_Prop.
  constructor; [right; right; lia|by eapply IH].
Qed.

Lemma Atoi_chars l n : Atoi l = Some n -> Forall port_char l.
Proof.
  destruct l as [|b l]; [done|]. unfold Atoi. destruct ((b =? 45) && _) eqn:E1; [|destruct ((b =? 43) && _) eqn:E2].
  - intros (? & ?%decimal_chars & _)%fmap_Some. apply andb_prop in E1 as [E1 _]. constructor; [right; left; lia|done].
  - intros ?%decimal_chars. apply andb_prop in E2 as [E2 _]. constructor; [left; lia|done].
  - apply decimal_chars.
Qed.

Lemma port_char_clean l : Forall port_char l -> lbracket ∉ l /\ rbracket ∉ l /\ colon ∉ l.
Proof.
  intros H. unfold lbracket, rbracket, colon.
  split_and!; intros Hin; rewrite Forall_forall in H; specialize (H _ Hin); unfold port_char in H; lia.
Qed.

Lemma joinICEHostPort_spec hp d out :
  joinICEHostPort hp d = Some out ->
  exists host port n,
    out = JoinHostPort host port /\ host <> [] /\ Atoi port = Some n /\ 1 <= n <= 65535 /\
    (lbracket ∉ host -> rbracket ∉ host -> SplitHostPort out = Ok (host, port)).
Proof.
  unfold joinICEHostPort. destruct (ice_split hp) as [[host port]|]; [|done]. destruct (len host =? 0) eqn:Hh; [done|].
  set (port' := if len port =? 0 then d else port). destruct (Atoi port') as [n|] eqn:Hn; [|done].
  destruct (_ || _) eqn:Hr; [done|]. intros [= <-]. exists host, port', n. bool_to_Prop.
  split_and!; [done|by intros ->|done|lia|lia|]. intros Hl Hrb.
  destruct (port_char_clean _ (Atoi_chars _ _ Hn)) as (? & ? & ?). by apply SplitHostPort_Join.
Qed.

(** What pion is given for one URL. *)
Definition ice_url_ok (turnOK : bool) (u : bytes) : Prop :=
  exists scheme host port n tail,
    u = scheme ++ [colon] ++ JoinHostPort host port ++ tail /\
    scheme ∈ [schemeSTUN; schemeSTUNS; schemeTURN; schemeTURNS] /\ host <> [] /\
    Atoi port = Some n /\ 1 <= n <= 65535 /\
    (lbracket ∉ host -> rbracket ∉ host -> SplitHostPort (JoinHostPort host port) = Ok (host, port)) /\
    (scheme ∈ [schemeTURN; schemeTURNS] -> turnOK = true) /\
    (tail = [] \/
     scheme ∈ [schemeTURN; schemeTURNS] /\
     exists tr, tail = string_bytes "?transport=" ++ tr /\ tr ∈ [transportUDP; transportTCP]).

Lemma iceDefaultPort_scheme s d :
  iceDefaultPort s = Some d -> s ∈ [schemeSTUN; schemeSTUNS; schemeTURN; schemeTURNS].
Proof.
  unfold iceDefaultPort, bytes_eqb. rewrite !elem_of_cons. repeat case_bool_decide; cbn; naive_solver.
Qed.

Lemma iceTransport_spec `{URLs} s q tr :
  iceTransport s q = Some tr -> s ∈ [schemeTURN; schemeTURNS] /\ tr ∈ [transportUDP; transportTCP].
Proof.
  unfold iceTransport, bytes_eqb. destruct (_ && _) eqn:Hs; [done|]. destruct (query_transport q) as [v|]; [|done].
  destruct (_ || _) eqn:Ht; [|done]. intros [= <-]. apply andb_false_iff in Hs. apply orb_prop in Ht.
  rewrite !negb_false_iff, !bool_decide_eq_true in Hs. rewrite !bool_decide_eq_true in Ht.
  rewrite !elem_of_cons. tauto.
Qed.

Lemma HasPrefix_app p s : HasPrefix (p ++ s) p = true.
Proof. induction p as [|b p IH]; [by destruct s|]. cbn. by rewrite Z.eqb_refl, IH. Qed.

Lemma turn_prefix s rest : s ∈ [schemeTURN; schemeTURNS] -> isTURNURL (s ++ [colon] ++ rest) = true.
Proof.
  unfold isTURNURL. rewrite !elem_of_cons, elem_of_nil. intros [-> | [-> | []]]; rewrite app_assoc, HasPrefix_app;
    [done|apply orb_true_r].
Qed.

Lemma keep_url_ok `{URLs} t raw u : keep_url t raw = Some u -> ice_url_ok t u.
Proof.
  unfold keep_url, normaliseICEServerURL. destruct (url_Parse _) as [[[sch op] q]|]; [|done].
  destruct (len op =? 0); [done|]. destruct (iceDefaultPort (ToLower sch)) as [d|] eqn:Hd; [|done].
  destruct (joinICEHostPort op d) as [hp|] eqn:Hj; [|done].
  apply joinICEHostPort_spec in Hj as (host & port & n & -> & Hh & Ha & Hn & Hsp). apply iceDefaultPort_scheme in Hd.
  set (tail := match iceTransport (ToLower sch) q with Some tr => string_bytes "?transport=" ++ tr | None => [] end).
  replace (match iceTransport (ToLower sch) q with Some _ => _ | None => _ end)
    with (ToLower sch ++ [colon] ++ JoinHostPort host port ++ tail).
  2: { subst tail. destruct (iceTransport _ q); [by rewrite <- !app_assoc|by rewrite app_nil_r]. }
  destruct (negb t && _) eqn:Ht; [done|]. intros [= <-].
  exists (ToLower sch), host, port, n, tail.
  split; [done|]. split; [done|]. split; [done|]. split; [done|]. split; [done|]. split; [done|]. split.
  - intros Hs. rewrite andb_false_iff, (turn_prefix _ _ Hs), negb_false_iff in Ht. by destruct Ht.
  - subst tail. destruct (iceTransport (ToLower sch) q) as [tr|] eqn:Htr; [right|by left].
    apply iceTransport_spec in Htr as [? ?]. split; [done|]. by exists tr.
Qed.

(** The ICE servers given to pion are in the form it accepts, and nothing usable is lost.  Each
    server of the result is one of the advertised servers, in their order, with its credentials and with
    some URLs left; each URL has one of the four schemes, a host, a port from 1 to 65535, a transport
    only behind TURN and then "udp" or "tcp", and TURN only where the server has a user name and a
    password; [net.SplitHostPort] takes the host and the port apart again if the
    host has no brackets.  A URL that the rules accept is kept, and no server is there twice. *)
Theorem ice_servers_normalised `{URLs} (servers : list ICEServer) :
  exists kept : list ICEServer,
    kept `sublist_of` servers /\
    Forall2 (fun srv out =>
      icURLs out = omap (keep_url (hasPionTURNCredentials srv)) (icURLs srv) /\ icURLs out <> [] /\
      icUsername out = icUsername srv /\ icCredential out = icCredential srv /\
      Forall (ice_url_ok (hasPionTURNCredentials srv)) (icURLs out)) kept (NormaliseICEServers servers) /\
    Forall (fun srv => srv ∈ kept \/ Forall (fun raw => keep_url (hasPionTURNCredentials srv) raw = None) (icURLs srv))
      servers.
Proof.
  induction servers as [|srv servers (kept & Hsub & Hall & Hkeep)]; cbn [NormaliseICEServers].
  { exists []. split_and!; constructor. }
  set (urls := omap _ (icURLs srv)).
  assert (Hok : Forall (ice_url_ok (hasPionTURNCredentials srv)) urls).
  { apply Forall_forall. intros u (raw & _ & Hu)%list_elem_of_omap. by eapply keep_url_ok. }
  destruct urls as [|u urls'] eqn:Hurls.
  - exists kept. split_and!; [by apply sublist_cons|done|]. constructor; [right|done].
    apply Forall_forall. intros raw Hin. destruct (keep_url _ raw) as [u|] eqn:Hu; [|done]. exfalso.
    assert (Hin' : u ∈ urls) by (apply list_elem_of_omap; by exists raw). rewrite Hurls in Hin'. by apply elem_of_nil in Hin'.
  - exists (srv :: kept). split_and!; [by apply sublist_skip| |].
    + constructor; [|done]. cbn [icURLs icUsername icCredential]. split_and!; try done.
    + constructor; [left; by left|]. eapply Forall_impl; [done|]. intros s [?|?]; [left; by right|by right].
Qed.

(** URLs of the form "scheme:opaque?transport=value". *)
Definition toy_urls : URLs := {|
  url_Parse s :=
    match index_byte colon s with
    | None => None
    | Some i =>
        let rest := drop (S i) s in
        let q := default (length rest) (index_byte 63 rest) in
        Some (take i s, take q rest, drop (S q) rest)
    end;
  query_transport q := Some (drop 10 q)
|}.

Example ice_values :
  let srv u := MkICE (string_bytes <$> u) "user" (CredString "secret") in
  let bare u := MkICE (string_bytes <$> u) "" CredNil in
  NormaliseICEServers (H := toy_urls)
    [srv ["stun:a:"; "TURN:b:443?transport=TCP"; "turns:[::1]?transport="; "http:x:1"; "stun:c:0"];
     bare ["turn:d:1"]; bare ["turn:e:1"; "stuns:f"]] =
  [srv ["stun:a:3478"; "turn:b:443?transport=tcp"; "turns:[::1]:5349"]; bare ["stuns:f:5349"]].
Proof. by vm_compute. Qed.

(** A host with a bracket in it passes, and the URL is one that [net.SplitHostPort] refuses. *)
Lemma bracket_in_host_survives :
  normaliseICEServerURL (H := toy_urls) (string_bytes "stun:a[b") = Some (string_bytes "stun:a[b:3478") /\
  SplitHostPort (string_bytes "a[b:3478") = Err BadAddress.
Proof. by vm_compute. Qed.
