(* ===== verification/JitsiText.v ===== *)
(** * JitsiText: the texts of the Jitsi engine
    (internal/engine/jitsi: nick.go, trickle.go, keepalive.go)

    Nicknames, host names, ICE candidates and XMPP domains; a string is its sequence of bytes, and [range] over
    a string yields its code points. *)

From S2P Require Import Prelude Bytes Text Socks SessionConfig ConfigFile NetAddr IceServers.

(** ** Code points *)

Definition RuneError : Z := 65533.

(** The code point at the front of a text and its length; an invalid byte counts as U+FFFD of length one. *)
Definition decode_rune (l : bytes) : Z * nat :=
  match l with
  | [] => (RuneError, 0%nat)
  | b0 :: l1 =>
      if b0 <? 128 then (b0, 1%nat)
      else if Utf8.Valid (take 2 l) && (2 <=? len l) then
        ((b0 - 192) * 64 + (nth 0 l1 0 - 128), 2%nat)
      else if Utf8.within b0 224 239 && Utf8.Valid (take 3 l) && (3 <=? len l) then
        ((b0 - 224) * 4096 + (nth 0 l1 0 - 128) * 64 + (nth 1 l1 0 - 128), 3%nat)
      else if Utf8.within b0 240 244 && Utf8.Valid (take 4 l) && (4 <=? len l) then
        ((b0 - 240) * 262144 + (nth 0 l1 0 - 128) * 4096 + (nth 1 l1 0 - 128) * 64 + (nth 2 l1 0 - 128), 4%nat)
      else (RuneError, 1%nat)
  end.

(** [range] over a string of at most [fuel] bytes. *)
Fixpoint runes_of (fuel : nat) (l : bytes) : list Z :=
  match fuel, l with
  | O, _ | _, [] => []
  | S fuel, _ => let '(r, n) := decode_rune l in r :: runes_of fuel (drop n l)
  end.

Definition runes (l : bytes) : list Z := runes_of (length l) l.

(** ** Nicknames *)

(* go: engine/jitsi/nick.go 5-18 cyrillicToLatin *)
Definition cyrillicToLatin : list (Z * string) :=
  [(1040, "A"); (1072, "a"); (1041, "B"); (1073, "b"); (1042, "V"); (1074, "v"); (1043, "G"); (1075, "g");
    (1044, "D"); (1076, "d"); (1045, "E"); (1077, "e"); (1025, "Yo"); (1105, "yo"); (1046, "Zh"); (1078, "zh");
    (1047, "Z"); (1079, "z"); (1048, "I"); (1080, "i"); (1049, "Y"); (1081, "y"); (1050, "K"); (1082, "k");
    (1051, "L"); (1083, "l"); (1052, "M"); (1084, "m"); (1053, "N"); (1085, "n"); (1054, "O"); (1086, "o");
    (1055, "P"); (1087, "p"); (1056, "R"); (1088, "r"); (1057, "S"); (1089, "s"); (1058, "T"); (1090, "t");
    (1059, "U"); (1091, "u"); (1060, "F"); (1092, "f"); (1061, "Kh"); (1093, "kh"); (1062, "Ts"); (1094, "ts");
    (1063, "Ch"); (1095, "ch"); (1064, "Sh"); (1096, "sh"); (1065, "Shch"); (1097, "shch"); (1066, ""); (1098, "");
    (1067, "Y"); (1099, "y"); (1068, ""); (1100, ""); (1069, "E"); (1101, "e"); (1070, "Yu"); (1102, "yu");
    (1071, "Ya"); (1103, "ya")].

Definition lookup_latin (r : Z) : option bytes :=
  match find (fun p => fst p =? r) cyrillicToLatin with
  | Some p => Some (string_bytes (snd p))
  | None => None
  end.

(* go: engine/jitsi/nick.go 55-67 isNickRune *)
Definition isNickRune (r : Z) : bool :=
  ((97 <=? r) && (r <=? 122)) || ((65 <=? r) && (r <=? 90)) || ((48 <=? r) && (r <=? 57)) || (r =? 45) || (r =? 95).

(* go: engine/jitsi/nick.go 24-24 maxNickLen *)
Definition maxNickLen : Z := 16.
Definition dash : Z := 45.

(** The inner loop writes the transliteration as far as there is room. *)
Fixpoint write_latin (b lat : bytes) : bytes :=
  match lat with
  | [] => b
  | lr :: lat => if maxNickLen <=? len b then b else write_latin (b ++ [lr]) lat
  end.

Fixpoint nick_loop (b : bytes) (prevDash : bool) (rs : list Z) : bytes :=
  match rs with
  | [] => b
  | r :: rs =>
      if maxNickLen <=? len b then b
      else if isNickRune r then nick_loop (b ++ [r]) false rs
      else
        match lookup_latin r with
        | Some lat => nick_loop (write_latin b lat) false rs
        | None => if negb prevDash && (0 <? len b) then nick_loop (b ++ [dash]) true rs else nick_loop b prevDash rs
        end
  end.

Fixpoint trim_dashes (l : bytes) : bytes :=
  match l with
  | c :: l' => if c =? dash then trim_dashes l' else l
  | [] => []
  end.

(** [strings.Trim] with the cutset "-". *)
Definition TrimDash (l : bytes) : bytes := rev (trim_dashes (rev (trim_dashes l))).

(* go: engine/jitsi/nick.go 20-53 sanitiseNick *)
Definition sanitiseNick (raw : bytes) : bytes := TrimDash (nick_loop [] false (runes raw)).

(** ** Host names *)

(** [strings.Index]. *)
Fixpoint Index (s sub : bytes) : option nat :=
  if HasPrefix s sub then Some 0%nat
  else match s with
       | [] => None
       | _ :: s => S <$> Index s sub
       end.

Definition slash : Z := 47.

(* go: engine/jitsi/nick.go 69-81 normaliseHost *)
Definition normaliseHost (raw : bytes) : bytes :=
  let raw := trim_bytes raw in
  let raw := match Index raw (string_bytes "://") with Some i => drop (i + 3) raw | None => raw end in
  let raw := if HasPrefix raw [slash; slash] then drop 2 raw else raw in
  let raw := TrimSuffix1 slash raw in
  match Index raw [slash] with Some i => take i raw | None => raw end.

(** ** ICE candidates *)

(* go: engine/jitsi/trickle.go 49-60 xmlCandidate *)
Record xmlCandidate := MkCand {
  cComponent : bytes; cFoundation : bytes; cGeneration : bytes; cIP : bytes; cPort : bytes;
  cPriority : bytes; cProtocol : bytes; cType : bytes; cRelAddr : bytes; cRelPort : bytes }.

Definition or_default (s : bytes) (d : string) : bytes := match s with [] => string_bytes d | _ => s end.

Definition sp : bytes := string_bytes " ".

(** [lower] is [strings.ToLower]. *)
(* go: engine/jitsi/trickle.go 96-125 buildSDPCandidate *)
Definition buildSDPCandidate (lower : bytes -> bytes) (c : xmlCandidate) : bytes :=
  match cIP c, cPort c with
  | [], _ | _, [] => []
  | ip, port =>
      let component := or_default (cComponent c) "1" in
      let protocol := or_default (lower (cProtocol c)) "udp" in
      let priority := or_default (cPriority c) "1" in
      let candidateType := or_default (cType c) "host" in
      let sdp := string_bytes "candidate:" ++ cFoundation c ++ sp ++ component ++ sp ++ protocol ++ sp ++ priority ++ sp
                 ++ ip ++ sp ++ port ++ string_bytes " typ " ++ candidateType in
      let sdp := match cRelAddr c, cRelPort c with
                 | [], _ | _, [] => sdp
                 | ra, rp => sdp ++ string_bytes " raddr " ++ ra ++ string_bytes " rport " ++ rp
                 end in
      match cGeneration c with
      | [] => sdp
      | g => sdp ++ string_bytes " generation " ++ g
      end
  end.

(** The candidates of one content of a transport-info stanza, as they are given to the peer connection. *)
(* go: engine/jitsi/trickle.go 80-92 applyTrickleICE *)
Definition trickle_candidates (lower : bytes -> bytes) (contents : list (bytes * list xmlCandidate)) : list (bytes * bytes) :=
  concat ((fun '(mid, cs) =>
    concat ((fun c => match buildSDPCandidate lower c with [] => [] | line => [(mid, line)] end) <$> cs)) <$> contents).

(** ** XMPP domains *)

(** [strings.Cut] at one byte. *)
Definition Cut (s : bytes) (c : Z) : option (bytes * bytes) :=
  match index_byte c s with
  | Some i => Some (take i s, drop (S i) s)
  | None => None
  end.

(* go: engine/jitsi/keepalive.go 124-136 xmppDomain *)
Definition xmppDomain (jid fallback : bytes) : bytes :=
  match Cut jid 64 with
  | None | Some (_, []) => fallback
  | Some (_, rest) =>
      let rest := match Cut rest slash with Some (domain, _) => domain | None => rest end in
      match rest with [] => fallback | _ => rest end
  end.

(** ** Remote tracks *)

(** A video track is the peer's when no track was latched or when it is the latched one; any other is drained. *)
(* go: engine/jitsi/negotiate.go 343-355 handleRemoteTrack *)
Definition jitsi_handleRemoteTrack (peerVideoSSRC : Z) (video : bool) (ssrc : Z) : Z * bool :=
  if negb video then (peerVideoSSRC, false)
  else if peerVideoSSRC =? 0 then (ssrc, true)
  else (peerVideoSSRC, peerVideoSSRC =? ssrc).

(** ** Facts *)

Definition nick_ok (b : bytes) : Prop := Forall (fun r => isNickRune r = true) b /\ len b <= maxNickLen.

Lemma latin_is_nick r lat : lookup_latin r = Some lat -> Forall (fun r => isNickRune r = true) lat.
Proof.
  assert (forallb (fun p => forallb isNickRune (string_bytes (snd p))) cyrillicToLatin = true) as H by (by vm_compute).
  rewrite forallb_forall in H. unfold lookup_latin. destruct (find _ _) as [p|] eqn:E; [|done]. intros [= <-].
  apply find_some in E as [E _]. specialize (H p E). rewrite forallb_forall in H.
  apply Forall_forall. intros x Hx. apply H. by apply list_elem_of_In.
Qed.

Lemma nick_ok_snoc b r : nick_ok b -> isNickRune r = true -> (maxNickLen <=? len b) = false -> nick_ok (b ++ [r]).
Proof.
  intros [H1 H2] Hr Hl. apply Z.leb_gt in Hl. split; [by apply Forall_app; split; [|constructor]|].
  rewrite length_app. simpl. lia.
Qed.

Lemma nick_ok_latin lat : Forall (fun r => isNickRune r = true) lat -> forall b, nick_ok b -> nick_ok (write_latin b lat).
Proof.
  induction 1 as [|r lat Hr _ IH]; intros b Hb; simpl; [done|].
  destruct (maxNickLen <=? len b) eqn:E; [done|]. apply IH. by apply nick_ok_snoc.
Qed.

Lemma nick_ok_loop rs : forall b p, nick_ok b -> nick_ok (nick_loop b p rs).
Proof.
  induction rs as [|r rs IH]; intros b p Hb; simpl; [done|].
  destruct (maxNickLen <=? len b) eqn:E; [done|].
  destruct (isNickRune r) eqn:Er; [apply IH; by apply nick_ok_snoc|].
  destruct (lookup_latin r) as [lat|] eqn:El; [apply IH, nick_ok_latin; [by eapply latin_is_nick|done]|].
  destruct (negb p && (0 <? len b)); apply IH; [by apply nick_ok_snoc|done].
Qed.

(** Neither end of a trimmed text is a dash. *)
Lemma trim_dashes_head l : head (trim_dashes l) <> Some dash.
Proof. induction l as [|c l IH]; simpl; [done|]. destruct (c =? dash) eqn:E; [done|]. apply Z.eqb_neq in E. simpl. congruence. Qed.

Lemma trim_dashes_id l : head l <> Some dash -> trim_dashes l = l.
Proof. destruct l as [|c l]; simpl; [done|]. intros H. destruct (Z.eqb_spec c dash); [congruence|done]. Qed.

Lemma trim_dashes_suffix l : exists p, l = p ++ trim_dashes l.
Proof.
  induction l as [|c l [p IH]]; simpl; [by exists []|]. destruct (c =? dash); [|by exists []].
  exists (c :: p). simpl. by rewrite <- IH.
Qed.

Lemma trim_parts l : exists p q, l = p ++ TrimDash l ++ q.
Proof.
  destruct (trim_dashes_suffix l) as [p Hp]. destruct (trim_dashes_suffix (rev (trim_dashes l))) as [q Hq].
  exists p, (rev q). rewrite Hp at 1. f_equal. unfold TrimDash. rewrite <- rev_app_distr, <- Hq. by rewrite rev_involutive.
Qed.

Lemma trim_ends l : head (TrimDash l) <> Some dash /\ head (rev (TrimDash l)) <> Some dash.
Proof.
  unfold TrimDash. rewrite rev_involutive. split; [|apply trim_dashes_head].
  destruct (trim_dashes_suffix (rev (trim_dashes l))) as [q Hq]. pose proof (trim_dashes_head l) as Hh.
  apply (f_equal (@rev Z)) in Hq. rewrite rev_involutive, rev_app_distr in Hq. rewrite Hq in Hh.
  by destruct (rev (trim_dashes (rev (trim_dashes l)))).
Qed.

Lemma trim_id l : head l <> Some dash -> head (rev l) <> Some dash -> TrimDash l = l.
Proof. intros H1 H2. unfold TrimDash. rewrite (trim_dashes_id l H1), (trim_dashes_id _ H2). apply rev_involutive. Qed.

Lemma nick_ok_trim b : nick_ok b -> nick_ok (TrimDash b).
Proof.
  intros [H1 H2]. destruct (trim_parts b) as (p & q & E). rewrite E in H1, H2.
  apply Forall_app in H1 as [_ H1]. apply Forall_app in H1 as [H1 _]. rewrite !length_app in H2. split; [done|lia].
Qed.

Lemma nick_rune_ascii r : isNickRune r = true -> r <? 128 = true.
Proof. unfold isNickRune. intros. repeat rewrite orb_true_iff in *. repeat rewrite andb_true_iff in *. lia. Qed.

Lemma runes_ascii l : Forall (fun r => isNickRune r = true) l -> runes l = l.
Proof.
  unfold runes. induction 1 as [|r l Hr _ IH]; [done|].
  cbn [length runes_of]. unfold decode_rune. rewrite (nick_rune_ascii r Hr). cbn [drop]. by rewrite drop_0, IH.
Qed.

Lemma nick_loop_clean rs : forall b p,
  Forall (fun r => isNickRune r = true) rs -> len b + len rs <= maxNickLen -> nick_loop b p rs = b ++ rs.
Proof.
  induction rs as [|r rs IH]; intros b p Hr Hl; simpl; [by rewrite app_nil_r|].
  apply Forall_cons in Hr as [Hr Hrs]. simpl in Hl. destruct (Z.leb_spec maxNickLen (len b)); [lia|].
  rewrite Hr, IH; [by rewrite <- app_assoc|done|]. rewrite length_app. simpl. lia.
Qed.

(** Whatever display name is asked for, the nickname is a slug of at most sixteen ASCII letters, digits, dashes
    and underscores which a dash neither begins nor ends, and a slug is kept as it is. *)
Theorem jitsi_nick_wellformed (raw : bytes) :
  let n := sanitiseNick raw in
  Forall (fun r => isNickRune r = true) n /\ len n <= maxNickLen /\
  head n <> Some dash /\ head (rev n) <> Some dash /\ sanitiseNick n = n.
Proof.
  intros n. assert (nick_ok n) as [H1 H2] by (apply nick_ok_trim, nick_ok_loop; split; [constructor|done]).
  destruct (trim_ends (nick_loop [] false (runes raw))) as [H3 H4]. fold n in H3, H4.
  repeat split; try done. unfold sanitiseNick. rewrite (runes_ascii n H1), nick_loop_clean; [by apply trim_id|done|done].
Qed.

Lemma Index_slash b s : Index (b :: s) [slash] = if b =? slash then Some 0%nat else S <$> Index s [slash].
Proof. simpl. destruct (b =? slash); [by destruct s|done]. Qed.

Lemma index_slash_free s i : Index s [slash] = Some i -> slash ∉ take i s.
Proof.
  revert i. induction s as [|b s IH]; intros i; [done|]. rewrite Index_slash. destruct (Z.eqb_spec b slash) as [->|Hb].
  - intros [= <-]. simpl. apply not_elem_of_nil.
  - destruct (Index s [slash]) as [j|]; [|done]. intros [= <-]. simpl. apply not_elem_of_cons. split; [done|by apply IH].
Qed.

Lemma index_no_slash s : Index s [slash] = None -> slash ∉ s.
Proof.
  induction s as [|b s IH]; [intros _; apply not_elem_of_nil|]. rewrite Index_slash. destruct (Z.eqb_spec b slash); [done|].
  destruct (Index s [slash]); [done|]. intros _. apply not_elem_of_cons. split; [done|by apply IH].
Qed.

(** A host name has neither scheme nor path left. *)
Theorem jitsi_host_has_no_path (raw : bytes) : slash ∉ normaliseHost raw.
Proof.
  unfold normaliseHost. cbv zeta. destruct (Index (TrimSuffix1 _ _) [slash]) eqn:E;
    [by apply index_slash_free|by apply index_no_slash].
Qed.

(** The domain of a bound address, and the fallback where there is none. *)
Lemma xmpp_domain_of_jid user domain resource fallback :
  64 ∉ user -> slash ∉ domain -> domain <> [] ->
  xmppDomain (user ++ [64] ++ domain ++ [slash] ++ resource) fallback = domain.
Proof.
  intros Hu Hd Hn.
  assert (forall a b c, c ∉ a -> index_byte c (a ++ c :: b) = Some (length a)) as Hi.
  { induction a as [|x a IH]; intros b c Hc; simpl; [by rewrite Z.eqb_refl|].
    apply not_elem_of_cons in Hc as [Hx Hc]. destruct (Z.eqb_spec x c); [congruence|]. by rewrite IH. }
  unfold xmppDomain, Cut. cbn [app]. rewrite (Hi user) by done.
  replace (drop (S (length user)) (user ++ 64 :: domain ++ slash :: resource)) with (domain ++ slash :: resource).
  - rewrite (Hi domain) by done. rewrite take_app_length. by destruct domain.
  - rewrite drop_app_ge by lia. by replace (S (length user) - length user)%nat with 1%nat by lia.
Qed.

Example nick_of_cyrillic :
  sanitiseNick [208; 150; 208; 181; 208; 189; 209; 143; 32; 33; 120; 240; 159; 152; 128] = string_bytes "Zhenya-x".
Proof. by vm_compute. Qed.

Example host_of_url : normaliseHost (string_bytes " https://meet.example.org/room ") = string_bytes "meet.example.org".
Proof. by vm_compute. Qed.
