(* ===== verification/Logging.v ===== *)
(** * Logging: which log lines get out
    (internal/logger/logger.go, cmd/olcrtc/stderr_filter_unix.go, and the log filter of cmd/olcrtc/main.go)

    The environment variables that silence Pion, the filter of its messages, and the filters of the program's own log and of
    the standard error stream.  Formatting is left out: a message is its text.  [ToLower] is exact on ASCII text. *)

From S2P Require Import Prelude Bytes Text Socks SessionConfig ConfigFile NetAddr IceServers JitsiText.

Definition has_text (s w : bytes) : bool := match Index s w with Some _ => true | None => false end.

(** ** Pion's environment *)

(** [strings.Split] at a comma and [strings.Join] with one. *)
Fixpoint split_comma (l : bytes) : list bytes :=
  match l with
  | [] => [[]]
  | b :: l => if b =? 44 then [] :: split_comma l else match split_comma l with [] => [[b]] | w :: ws => (b :: w) :: ws end
  end.

Fixpoint join_comma (ws : list bytes) : bytes :=
  match ws with [] => [] | [w] => w | w :: ws => w ++ [44] ++ join_comma ws end.

Definition environ : Type := string -> bytes.
Definition setenv (key : string) (value : bytes) (e : environ) : environ := fun k => if str_eqb k key then value else e k.

Definition is_all (s : bytes) : bool := bool_decide (ToLower s = string_bytes "all").
Definition clean_scope (s : bytes) : bytes := trim_bytes (ToLower s).
Definition nonempty (s : bytes) : bool := match s with [] => false | _ => true end.

(** The scopes a list names. *)
Definition scopes (value : bytes) : list bytes := List.filter nonempty (clean_scope <$> split_comma (trim_bytes value)).

Definition disableKey : string := "PION_LOG_DISABLE".
Definition levelKey (level : string) : string := ("PION_LOG_" ++ level)%string.

Definition add_scope (merged : list bytes) (scope : bytes) : list bytes :=
  let scope := clean_scope scope in
  if negb (nonempty scope) || bool_decide (scope ∈ merged) then merged else merged ++ [scope].

(* go: logger/logger.go 24-52 mergePionLogDisable *)
Definition mergePionLogDisable (scps : list bytes) (e : environ) : environ :=
  if is_all (trim_bytes (e disableKey)) then e
  else setenv disableKey (join_comma (fold_left add_scope scps (scopes (e disableKey)))) e.

(* go: logger/logger.go 62-80 removePionLogScopes *)
Definition removePionLogScope (remove : list bytes) (e : environ) (level : string) : environ :=
  let current := trim_bytes (e (levelKey level)) in
  if negb (nonempty current) || is_all current then e
  else setenv (levelKey level) (join_comma (List.filter (fun s => negb (bool_decide (s ∈ remove))) (scopes (e (levelKey level))))) e.

(* go: logger/logger.go 54-61 removePionLogScopes *)
Definition removePionLogScopes (scps : list bytes) (levels : list string) (e : environ) : environ :=
  fold_left (removePionLogScope (List.filter nonempty (clean_scope <$> scps))) levels e.

Definition turnc : bytes := string_bytes "turnc".
Definition levels : list string := ["ERROR"; "WARN"; "INFO"; "DEBUG"; "TRACE"].

(* go: logger/logger.go 17-22 DisableNoisyPionLogs *)
Definition DisableNoisyPionLogs (e : environ) : environ := removePionLogScopes [turnc] levels (mergePionLogDisable [turnc] e).

(** ** Messages *)

(* go: logger/logger.go 234-242 shouldDropPionLog *)
Definition shouldDropPionLog (scope msg : bytes) : bool :=
  let scope := ToLower scope in
  if bool_decide (scope = string_bytes "srtp") || bool_decide (scope = turnc) then true
  else
    let msg := ToLower msg in
    has_text msg (string_bytes "refresh permissions") || has_text msg (string_bytes "createpermission error response").

Inductive log_level := LTrace | LDebug | LInfo | LWarn | LError.

(** Whether a message of a Pion logger is printed. *)
(* go: logger/logger.go 150-232 PionLeveledLogger *)
Definition pion_prints (verbose : bool) (level : log_level) (scope msg : bytes) : bool :=
  match level with LTrace | LDebug => verbose | _ => negb (shouldDropPionLog scope msg) end.

(** ** The program's own lines *)

(* go: src/native/olcrtc/cmd/olcrtc/main.go 300-303 noisyPrefixes *)
Definition noisyPrefixes : list bytes := string_bytes <$> ["turnc"; "[turn]"; "Fail to refresh permissions"].

(* go: src/native/olcrtc/cmd/olcrtc/main.go 321-329 isNoisyLogLine *)
Definition isNoisyLogLine (line : bytes) : bool := existsb (has_text line) noisyPrefixes.

(** One write to the log: what reaches the standard error stream. *)
(* go: src/native/olcrtc/cmd/olcrtc/main.go 305-319 filteredWriter *)
Definition filteredWrite (out line : bytes) : bytes := if isNoisyLogLine line then out else out ++ line.

(** [ReadBytes('\n')]: the lines of a stream, each with its end; the last may lack it. *)
Fixpoint read_lines (l line : bytes) : list bytes :=
  match l with
  | [] => match line with [] => [] | _ => [line] end
  | b :: l => if b =? 10 then (line ++ [b]) :: read_lines l [] else read_lines l (line ++ [b])
  end.

(** [room] is how many lines the output takes before it fails. *)
(* go: src/native/olcrtc/cmd/olcrtc/stderr_filter_unix.go 69-83 copyFilteredStderr *)
Fixpoint copyFilteredStderr (room : nat) (lines : list bytes) (out : bytes) : bytes :=
  match lines with
  | [] => out
  | line :: lines =>
      if isNoisyLogLine line then copyFilteredStderr room lines out
      else match room with O => out | S room => copyFilteredStderr room lines (out ++ line) end
  end.

(** ** What is proved *)

Lemma read_lines_concat l line : concat (read_lines l line) = line ++ l.
Proof.
  revert line. induction l as [|b l IH]; intros line; simpl; [destruct line; simpl; by rewrite ?app_nil_r|].
  destruct (Z.eqb_spec b 10) as [->|]; simpl; rewrite IH; by rewrite <- app_assoc.
Qed.

(** While the output takes everything, exactly the noisy lines are gone; a stream without noise goes through unchanged. *)
Theorem stderr_filter (l : bytes) (room : nat) :
  (length (read_lines l []) <= room)%nat ->
  copyFilteredStderr room (read_lines l []) [] = concat (List.filter (fun x => negb (isNoisyLogLine x)) (read_lines l [])) /\
  (Forall (fun x => isNoisyLogLine x = false) (read_lines l []) -> copyFilteredStderr room (read_lines l []) [] = l).
Proof.
  intros Hroom.
  assert (forall ls room out, (length ls <= room)%nat ->
    copyFilteredStderr room ls out = out ++ concat (List.filter (fun x => negb (isNoisyLogLine x)) ls)) as H.
  { induction ls as [|x ls IH]; intros r out Hr; simpl in *; [by rewrite app_nil_r|].
    destruct (isNoisyLogLine x); cbn [negb]; [apply IH; lia|]. destruct r as [|r]; [lia|]. rewrite IH by lia. simpl. by rewrite <- app_assoc. }
  split; [by apply H|]. intros Hn. rewrite H by done. simpl.
  replace (List.filter _ (read_lines l [])) with (read_lines l []); [apply (read_lines_concat l [])|].
  clear -Hn. induction Hn as [|x ls Hx Hn IH]; [done|]. simpl. rewrite Hx. simpl. by rewrite <- IH at 1.
Qed.

(** A line split over two writes is not recognised, one that only mentions a noisy word is dropped. *)
Example filter_gaps :
  filteredWrite (filteredWrite [] (string_bytes "tur")) (string_bytes "nc: x") = string_bytes "turnc: x" /\
  filteredWrite [] (string_bytes "failed to dial turnc.example.org") = [].
Proof. by vm_compute. Qed.

Lemma split_comma_no_comma l : Forall (fun w => 44 ∉ w) (split_comma l).
Proof.
  induction l as [|b l IH]; simpl; [by constructor; [apply not_elem_of_nil|]|].
  destruct (Z.eqb_spec b 44); [by constructor; [apply not_elem_of_nil|]|].
  destruct (split_comma l) as [|w ws]; [by constructor; [apply not_elem_of_cons; split; [congruence|apply not_elem_of_nil]|]|].
  apply Forall_cons in IH as [Hw Hws]. constructor; [|done]. apply not_elem_of_cons. split; [congruence|done].
Qed.

(** The scopes that are switched off: those that were, and turnc; "all" stays. *)
Lemma add_scope_turnc merged : add_scope merged turnc = if bool_decide (turnc ∈ merged) then merged else merged ++ [turnc].
Proof. unfold add_scope. replace (clean_scope turnc) with turnc by (by vm_compute). simpl. done. Qed.

Theorem turnc_disabled (e : environ) :
  let v := mergePionLogDisable [turnc] e disableKey in
  (is_all (trim_bytes (e disableKey)) = true /\ v = e disableKey) \/
  exists ws, v = join_comma ws /\ turnc ∈ ws /\ forall w, w ∈ ws <-> w ∈ scopes (e disableKey) \/ w = turnc.
Proof.
  unfold mergePionLogDisable. destruct (is_all _) eqn:E; [by left|right]. exists (add_scope (scopes (e disableKey)) turnc).
  split; [unfold setenv; by rewrite String.eqb_refl|]. rewrite add_scope_turnc. case_bool_decide as H; [naive_solver|].
  split; [by apply elem_of_app; right; apply list_elem_of_singleton|]. intros w. by rewrite elem_of_app, list_elem_of_singleton.
Qed.

Example pion_environment :
  let e := setenv disableKey (string_bytes " ICE,,dtls ") (setenv "PION_LOG_WARN" (string_bytes "TurnC, ice") (fun _ => [])) in
  let e' := DisableNoisyPionLogs e in
  e' disableKey = string_bytes "ice,dtls,turnc" /\ e' "PION_LOG_WARN"%string = string_bytes "ice" /\ e' "PION_LOG_INFO"%string = [] /\
  DisableNoisyPionLogs e' disableKey = e' disableKey /\ shouldDropPionLog (string_bytes "SRTP") [] = true /\
  shouldDropPionLog (string_bytes "ice") (string_bytes "Fail to Refresh Permissions") = true.
Proof. by vm_compute. Qed.
