(* ===== verification/Providers.v ===== *)
(** * Providers: from a room to an engine with credentials
    (internal/auth, internal/engine/builtin, the registry of internal/engine, and pkg/olcrtc/engineconn)

    A provider runs its requests against the service and issues credentials; [open_provider] builds the engine the provider
    names with them.  The services answer through the interface [WebAPI], which also has the escaping and the JSON
    of the Go library; the requests made are kept in order.  A string is its sequence of bytes. *)

From S2P Require Import Prelude Bytes Text Socks SessionConfig ConfigFile NetAddr IceServers JitsiText.

(** ** Requests *)

Inductive http_method := GET | POST.

Record hrequest := MkReq {
  hrMethod : http_method;
  hrBase : bytes;
  hrPath : bytes;
  hrQuery : list (string * bytes);
  hrBearer : option bytes;
  hrBody : bytes }.

(** [api_answer] is what a request gets after the earlier ones: status and body, or no answer; the decoders read the
    fields the code uses. *)
Class WebAPI : Type := {
  api_answer : list hrequest -> hrequest -> option (Z * bytes);
  PathEscape : bytes -> bytes;
  QueryEscape : bytes -> bytes;
  guest_json : bytes -> bytes;
  decode_guest : bytes -> option bytes;
  decode_token : bytes -> option (bytes * bytes);
  decode_info : bytes -> option (bytes * bytes * bytes * bytes) }.

Inductive auth_sentinel := ErrGuestRegister | ErrJoinRoom | ErrGetToken | ErrAPI.

Inductive auth_error :=
| ErrRoomIDRequired
| ErrInvalidRoomURL
| ErrRequest
| ErrStatus (s : auth_sentinel)
| ErrDecode.

(** A computation that makes requests and may fail. *)
Definition api (A : Type) : Type := list hrequest -> list hrequest * outcome auth_error A.
Definition api_ret {A} (a : A) : api A := fun reqs => (reqs, Ok a).
Definition api_fail {A} (e : auth_error) : api A := fun reqs => (reqs, Err e).
Definition api_bind {A B} (c : api A) (k : A -> api B) : api B :=
  fun reqs => match c reqs with
              | (reqs, Ok a) => k a reqs
              | (reqs, Err e) => (reqs, Err e)
              | (reqs, Panic) => (reqs, Panic)
              end.

Declare Scope api_scope.
Delimit Scope api_scope with api.
Notation "'do' x <- c ; k" := (api_bind c (fun x => k)) (at level 200, x pattern, c at level 100, k at level 200) : api_scope.
Local Open Scope api_scope.

(* go: auth/http.go 16-19 successBodyLimit *)
Definition successBodyLimit : Z := 8 * 1024 * 1024.

Section flows.
Context `{WebAPI}.

(** [json.Decoder] sees no more than the limit. *)
(* go: auth/http.go 22-44 DoJSON *)
Definition DoJSON {A} (decode : bytes -> option A) (req : hrequest) (sentinel : auth_sentinel) : api A :=
  fun reqs =>
    let reqs' := reqs ++ [req] in
    match api_answer reqs req with
    | None => (reqs', Err ErrRequest)
    | Some (status, body) =>
        if negb (status =? 200) then (reqs', Err (ErrStatus sentinel))
        else match decode (take (Z.to_nat successBodyLimit) body) with
             | Some a => (reqs', Ok a)
             | None => (reqs', Err ErrDecode)
             end
    end.

(* go: auth/http.go 46-61 Do *)
Definition auth_Do (req : hrequest) (sentinel : auth_sentinel) : api unit :=
  fun reqs =>
    let reqs' := reqs ++ [req] in
    match api_answer reqs req with
    | None => (reqs', Err ErrRequest)
    | Some (status, _) => if negb (status =? 200) then (reqs', Err (ErrStatus sentinel)) else (reqs', Ok tt)
    end.

(** ** Providers *)

(* go: auth/auth.go 30-40 Credentials *)
Record acreds := MkAcreds { acURL : bytes; acToken : bytes; acExtra : list (string * bytes) }.

(* go: auth/auth.go 42-58 Config *)
Record authConfig := MkAuthConfig { auRoomURL : bytes; auName : bytes; auToken : bytes }.

Definition deviceType : bytes := string_bytes "PARTICIPANT_DEVICE_TYPE_WEB_DESKTOP".

(** The zero value of the provider. *)
(* go: auth/wbstream/api.go 18-21 defaultAPIURL *)
Definition wb_defaultAPIURL : bytes := string_bytes "https://stream.wb.ru".
Definition wb_defaultWSURL : bytes := string_bytes "wss://rtc-el-02.wb.ru".

(* go: auth/wbstream/api.go 57-83 registerGuest *)
Definition registerGuest (displayName : bytes) : api bytes :=
  DoJSON decode_guest
    (MkReq POST wb_defaultAPIURL (string_bytes "/auth/api/v1/auth/user/guest-register") [] None (guest_json displayName))
    ErrGuestRegister.

(* go: auth/wbstream/api.go 85-99 joinRoom *)
Definition joinRoom (accessToken roomID : bytes) : api unit :=
  auth_Do
    (MkReq POST wb_defaultAPIURL (string_bytes "/api-room/api/v1/room/" ++ PathEscape roomID ++ string_bytes "/join") []
       (Some accessToken) (string_bytes "{}"))
    ErrJoinRoom.

(* go: auth/wbstream/api.go 101-123 getToken *)
Definition getToken (accessToken roomID displayName : bytes) : api (bytes * bytes) :=
  DoJSON decode_token
    (MkReq GET wb_defaultAPIURL
       (string_bytes "/api-room-manager/v2/room/" ++ PathEscape roomID ++ string_bytes "/connection-details")
       [("deviceType", deviceType); ("displayName", displayName)] (Some accessToken) [])
    ErrGetToken.

Definition is_empty (s : bytes) : bool := match s with [] => true | _ => false end.

(* go: auth/wbstream/wbstream.go 25-76 Issue *)
Definition wbstream_Issue (cfg : authConfig) : api acreds :=
  if is_empty (auRoomURL cfg) || bytes_eqb (auRoomURL cfg) (string_bytes "any") then api_fail ErrRoomIDRequired
  else
    do accessToken <- (if is_empty (auToken cfg) then registerGuest (auName cfg) else api_ret (auToken cfg));
    do _ <- joinRoom accessToken (auRoomURL cfg);
    do tok <- getToken accessToken (auRoomURL cfg) (auName cfg);
    let '(roomToken, serverURL) := tok in
    api_ret (MkAcreds (if is_empty serverURL then wb_defaultWSURL else serverURL) roomToken [("roomID", auRoomURL cfg)]).

(* go: auth/telemost/api.go 21-21 defaultAPIURL *)
Definition tm_defaultAPIURL : bytes := string_bytes "https://cloud-api.yandex.ru/telemost_front/v2/telemost".
(* go: auth/telemost/telemost.go 12-12 roomURLPrefix *)
Definition roomURLPrefix : bytes := string_bytes "https://telemost.yandex.ru/j/".

(** Media server, peer, room and credentials. *)
(* go: auth/telemost/api.go 44-75 connectionInfo *)
Definition connectionInfo (roomURL displayName : bytes) : api (bytes * bytes * bytes * bytes) :=
  DoJSON decode_info
    (MkReq GET tm_defaultAPIURL (string_bytes "/conferences/" ++ QueryEscape roomURL ++ string_bytes "/connection")
       [("next_gen_media_platform_allowed", string_bytes "true"); ("display_name", displayName);
        ("waiting_room_supported", string_bytes "true")] None [])
    ErrAPI.

(* go: auth/telemost/telemost.go 28-60 Issue *)
Definition telemost_Issue (cfg : authConfig) : api acreds :=
  if is_empty (auRoomURL cfg) then api_fail ErrRoomIDRequired
  else
    let roomURL := if HasPrefix (auRoomURL cfg) (string_bytes "https://") then auRoomURL cfg
                   else roomURLPrefix ++ auRoomURL cfg in
    do info <- connectionInfo roomURL (auName cfg);
    let '(mediaServer, peerID, roomID, credentials) := info in
    api_ret (MkAcreds mediaServer peerID
      [("roomID", roomID); ("credentials", credentials); ("roomURL", roomURL); ("telemetryReferer", roomURL)]).

Definition TrimPrefixOf (s prefix : bytes) : bytes := if HasPrefix s prefix then drop (length prefix) s else s.

Fixpoint trim_slashes (l : bytes) : bytes :=
  match l with
  | c :: l' => if c =? slash then trim_slashes l' else l
  | [] => []
  end.

(** [strings.Trim] with the cutset "/". *)
Definition TrimSlashes (l : bytes) : bytes := rev (trim_slashes (rev (trim_slashes l))).

(* go: auth/jitsi/jitsi.go 68-93 parseRoomURL *)
Definition parseRoomURL (raw : bytes) : outcome auth_error (bytes * bytes) :=
  let raw := trim_bytes raw in
  if is_empty raw then Err ErrRoomIDRequired
  else
    let raw := match Index raw (string_bytes "://") with Some i => drop (i + 3) raw | None => raw end in
    let raw := TrimPrefixOf raw [slash; slash] in
    let raw := TrimPrefixOf raw [slash] in
    match Index raw [slash] with
    | None | Some O => Err ErrInvalidRoomURL
    | Some i =>
        let host := trim_bytes (take i raw) in
        let room := TrimSlashes (drop (i + 1) raw) in
        if is_empty host || is_empty room then Err ErrInvalidRoomURL else Ok (host, room)
    end.

(* go: auth/jitsi/jitsi.go 51-66 Issue *)
Definition jitsi_Issue (cfg : authConfig) : api acreds :=
  fun reqs => match parseRoomURL (auRoomURL cfg) with
              | Ok (host, room) => (reqs, Ok (MkAcreds host [] [("room", room)]))
              | Err e => (reqs, Err e)
              | Panic => (reqs, Panic)
              end.

(** ** Opening an engine *)

Inductive provider_name := PWbstream | PTelemost | PJitsi.

Definition issue (p : provider_name) : authConfig -> api acreds :=
  match p with PWbstream => wbstream_Issue | PTelemost => telemost_Issue | PJitsi => jitsi_Issue end.

Definition provider_engine (p : provider_name) : string :=
  pvEngine (match p with PWbstream => wbstream_Provider | PTelemost => telemost_Provider | PJitsi => jitsi_Provider end).

(* go: engine/builtin/builtin.go 37-58 Config *)
Record openConfig := MkOpen {
  ocRoomURL : bytes; ocName : bytes; ocEngine : string; ocURL : bytes; ocToken : bytes; ocProviderToken : bytes }.

Inductive open_error := ErrProviderNotFound | ErrAuthFailed (e : auth_error) | ErrEngineNotFound | ErrEngine.

Definition auth_config (cfg : openConfig) : authConfig := MkAuthConfig (ocRoomURL cfg) (ocName cfg) (ocProviderToken cfg).

(** Engine, credentials, and what re-issues them. *)
(* go: engine/builtin/builtin.go 151-193 resolveCredentials *)
Definition resolveCredentials (provider : option provider_name) (cfg : openConfig) (reqs : list hrequest)
  : list hrequest * outcome open_error (string * acreds * option (api acreds)) :=
  match provider with
  | None =>
      let engineName := if str_eqb (ocEngine cfg) "" then "livekit" else ocEngine cfg in
      (reqs, Ok (engineName, MkAcreds (ocURL cfg) (ocToken cfg) [], None))
  | Some p =>
      match issue p (auth_config cfg) reqs with
      | (reqs, Ok creds) => (reqs, Ok (provider_engine p, creds, Some (issue p (auth_config cfg))))
      | (reqs, Err e) => (reqs, Err (ErrAuthFailed e))
      | (reqs, Panic) => (reqs, Panic)
      end
  end.

(** [engine_new] is the factory of an engine: whether it accepts the credentials. *)
Definition engines : list string := ["livekit"; "goolom"; "jitsi"].

(* go: engine/engine.go 137-146 New *)
Definition engine_New (accepts : string -> acreds -> bool) (name : string) (creds : acreds) : outcome open_error unit :=
  if negb (bool_decide (name ∈ engines)) then Err ErrEngineNotFound
  else if accepts name creds then Ok tt else Err ErrEngine.

Definition provider_of (name : string) : option (option provider_name) :=
  if str_eqb name "wbstream" then Some (Some PWbstream)
  else if str_eqb name "telemost" then Some (Some PTelemost)
  else if str_eqb name "jitsi" then Some (Some PJitsi)
  else if str_eqb name "none" then Some None
  else None.

(** With the built-in registrations. *)
(* go: engine/builtin/builtin.go 77-88 Open *)
Definition open_provider (accepts : string -> acreds -> bool) (name : string) (cfg : openConfig) (reqs : list hrequest)
  : list hrequest * outcome open_error (string * acreds) :=
  match provider_of name with
  | None => (reqs, Err ErrProviderNotFound)
  | Some provider =>
      match resolveCredentials provider cfg reqs with
      | (reqs, Ok (engineName, creds, _)) =>
          (reqs, match engine_New accepts engineName creds with
                 | Ok _ => Ok (engineName, creds)
                 | Err e => Err e
                 | Panic => Panic
                 end)
      | (reqs, Err e) => (reqs, Err e)
      | (reqs, Panic) => (reqs, Panic)
      end
  end.

(** The checks of the jitsi engine. *)
(* go: engine/jitsi/jitsi.go 104-116 New *)
Definition jitsi_accepts (creds : acreds) : bool :=
  negb (is_empty (normaliseHost (acURL creds))) &&
  negb (is_empty (trim_bytes (default [] (snd <$> find (fun p => str_eqb (fst p) "room") (acExtra creds))))).

(** ** The raw engine connection *)

Inductive conn_error := ErrURLRequired | ErrTokenRequired | ErrConn (e : open_error).

(* go: src/native/olcrtc/pkg/olcrtc/engineconn/engineconn.go 112-124 newDirect *)
Definition engineconn_newDirect (accepts : string -> acreds -> bool) (cfg : openConfig) : outcome conn_error (string * acreds) :=
  if is_empty (ocURL cfg) then Err ErrURLRequired
  else if is_empty (ocToken cfg) then Err ErrTokenRequired
  else
    let engineName := if str_eqb (ocEngine cfg) "" then "livekit" else ocEngine cfg in
    let creds := MkAcreds (ocURL cfg) (ocToken cfg) [] in
    match engine_New accepts engineName creds with
    | Ok _ => Ok (engineName, creds)
    | Err e => Err (ErrConn e)
    | Panic => Panic
    end.
End flows.

(** ** What a provider sends and returns *)

Section provider_facts.
Context `{WebAPI}.

Lemma DoJSON_trace {A} (decode : bytes -> option A) req s reqs : (DoJSON decode req s reqs).1 = reqs ++ [req].
Proof. unfold DoJSON. repeat case_match; done. Qed.

Lemma auth_Do_trace req s reqs : (auth_Do req s reqs).1 = reqs ++ [req].
Proof. unfold auth_Do. repeat case_match; done. Qed.

(** The requests of a flow are those of its first part, followed by those of the rest where it succeeded. *)
Lemma api_bind_cases {A B} (c : api A) (k : A -> api B) reqs :
  match (c reqs).2 with
  | Ok a => api_bind c k reqs = k a (c reqs).1
  | Err e => api_bind c k reqs = ((c reqs).1, Err e)
  | Panic => api_bind c k reqs = ((c reqs).1, Panic)
  end.
Proof. unfold api_bind. by destruct (c reqs) as [r [a|e|]]. Qed.

(** [c] only adds requests that satisfy [P], at most [n] of them. *)
Definition only_sends {A} (P : hrequest -> Prop) (n : nat) (c : api A) : Prop :=
  forall reqs, exists new, (c reqs).1 = reqs ++ new /\ Forall P new /\ (length new <= n)%nat.

Lemma only_sends_bind {A B} P n m (c : api A) (k : A -> api B) :
  only_sends P n c -> (forall a, only_sends P m (k a)) -> only_sends P (n + m) (api_bind c k).
Proof.
  intros Hc Hk reqs. destruct (Hc reqs) as (new & E & F & L). pose proof (api_bind_cases c k reqs) as Hb.
  destruct (c reqs).2 as [a|e|]; rewrite Hb; simpl.
  - destruct (Hk a (c reqs).1) as (new' & E' & F' & L'). exists (new ++ new').
    rewrite E', E, <- app_assoc. split; [done|]. split; [by apply Forall_app|]. rewrite length_app. lia.
  - exists new. split; [done|]. split; [done|lia].
  - exists new. split; [done|]. split; [done|lia].
Qed.

Lemma only_sends_ret {A} P (a : A) : only_sends P 0 (api_ret a).
Proof. intros reqs. exists []. by rewrite app_nil_r. Qed.

Lemma only_sends_DoJSON {A} (P : hrequest -> Prop) (decode : bytes -> option A) req s :
  P req -> only_sends P 1 (DoJSON decode req s).
Proof. intros HP reqs. exists [req]. rewrite DoJSON_trace. split; [done|]. split; [by constructor|done]. Qed.

Lemma only_sends_Do (P : hrequest -> Prop) req s : P req -> only_sends P 1 (auth_Do req s).
Proof. intros HP reqs. exists [req]. rewrite auth_Do_trace. split; [done|]. split; [by constructor|done]. Qed.

(** The last two calls of the WB Stream flow. *)
Lemma wb_join_sends cfg tok (P : hrequest -> Prop) :
  P (MkReq POST wb_defaultAPIURL (string_bytes "/api-room/api/v1/room/" ++ PathEscape (auRoomURL cfg) ++ string_bytes "/join") []
       (Some tok) (string_bytes "{}")) ->
  P (MkReq GET wb_defaultAPIURL
       (string_bytes "/api-room-manager/v2/room/" ++ PathEscape (auRoomURL cfg) ++ string_bytes "/connection-details")
       [("deviceType", deviceType); ("displayName", auName cfg)] (Some tok) []) ->
  only_sends P 2
    (api_bind (joinRoom tok (auRoomURL cfg)) (fun _ =>
     api_bind (getToken tok (auRoomURL cfg) (auName cfg)) (fun t => let '(roomToken, serverURL) := t in
     api_ret (MkAcreds (if is_empty serverURL then wb_defaultWSURL else serverURL) roomToken [("roomID", auRoomURL cfg)])))).
Proof.
  intros H1 H2. apply (only_sends_bind P 1 1); [by apply only_sends_Do|]. intros _.
  apply (only_sends_bind P 1 0); [by apply only_sends_DoJSON|]. intros [roomToken serverURL]. apply only_sends_ret.
Qed.

(** With an account token the WB Stream provider makes at most two requests, to its own service, each with that
    token; without one it first registers a guest, without any token, and three requests at most are made. *)
Theorem wbstream_requests (cfg : authConfig) (reqs : list hrequest) :
  exists new, (wbstream_Issue cfg reqs).1 = reqs ++ new /\ Forall (fun r => hrBase r = wb_defaultAPIURL) new /\
    (auToken cfg <> [] -> (length new <= 2)%nat /\ Forall (fun r => hrBearer r = Some (auToken cfg)) new) /\
    (auToken cfg = [] -> (length new <= 3)%nat /\ (forall r, head new = Some r -> hrBearer r = None)).
Proof.
  unfold wbstream_Issue. destruct (_ || _).
  { exists []. cbn. rewrite app_nil_r. split_and!; try done; intros _; (split; [lia|done]). }
  destruct (auToken cfg) as [|b tok] eqn:Et; cbn [is_empty].
  - unfold registerGuest, api_bind at 1. set (req := MkReq POST _ _ _ _ _).
    assert (exists new, Forall (fun r => hrBase r = wb_defaultAPIURL) new /\ (length new <= 2)%nat /\
      (match DoJSON decode_guest req ErrGuestRegister reqs with
       | (reqs, Ok a) => api_bind (joinRoom a (auRoomURL cfg)) (fun _ =>
           api_bind (getToken a (auRoomURL cfg) (auName cfg)) (fun t => let '(roomToken, serverURL) := t in
           api_ret (MkAcreds (if is_empty serverURL then wb_defaultWSURL else serverURL) roomToken [("roomID", auRoomURL cfg)]))) reqs
       | (reqs, Err e) => (reqs, Err e)
       | (reqs, Panic) => (reqs, Panic)
       end).1 = reqs ++ [req] ++ new) as (new & F & L & E).
    { pose proof (DoJSON_trace decode_guest req ErrGuestRegister reqs) as T.
      destruct (DoJSON decode_guest req ErrGuestRegister reqs) as [r1 [a|e|]]; simpl in T; subst r1;
        [|by exists []; split_and!; [done|simpl; lia|]..].
      destruct (wb_join_sends cfg a (fun r => hrBase r = wb_defaultAPIURL)) with (reqs := reqs ++ [req])
        as (new & E & F & L); [done|done|]. exists new. split_and!; [done|done|]. by rewrite E, <- app_assoc. }
    exists ([req] ++ new). split_and!; [exact E|by constructor|done|].
    intros _. split; [simpl; lia|]. intros r [= <-]. done.
  - unfold api_bind at 1. cbn [api_ret].
    destruct (wb_join_sends cfg (b :: tok)
      (fun r => hrBase r = wb_defaultAPIURL /\ hrBearer r = Some (b :: tok))) with (reqs := reqs) as (new & E & F & L);
      [done|done|]. exists new. split_and!; [exact E| | |done].
    + eapply Forall_impl; [exact F|]. by intros r [? _].
    + intros _. split; [done|]. eapply Forall_impl; [exact F|]. by intros r [_ ?].
Qed.
End provider_facts.

(** ** Jitsi rooms *)

Lemma trim_slashes_head l : head (trim_slashes l) <> Some slash.
Proof. induction l as [|c l IH]; simpl; [done|]. destruct (Z.eqb_spec c slash); [done|]. simpl. congruence. Qed.

Lemma trim_slashes_id l : head l <> Some slash -> trim_slashes l = l.
Proof. destruct l as [|c l]; simpl; [done|]. intros H. destruct (Z.eqb_spec c slash); [congruence|done]. Qed.

Lemma TrimSlashes_id l : head l <> Some slash -> head (rev l) <> Some slash -> TrimSlashes l = l.
Proof. intros H1 H2. unfold TrimSlashes. rewrite (trim_slashes_id l H1), (trim_slashes_id _ H2). apply rev_involutive. Qed.

Lemma TrimSlashes_end l : head (rev (TrimSlashes l)) <> Some slash.
Proof. unfold TrimSlashes. rewrite rev_involutive. apply trim_slashes_head. Qed.

Lemma trim_left_suffix fuel sp l : exists p, l = p ++ trim_left fuel sp l.
Proof.
  revert l. induction fuel as [|fuel IH]; intros l; simpl; [by exists []|].
  destruct (space_at sp l) as [|n]; [by exists []|]. destruct (IH (drop (S n) l)) as [p Hp].
  exists (take (S n) l ++ p). rewrite <- app_assoc, <- Hp. by rewrite take_drop.
Qed.

Lemma trim_bytes_elem x l : x ∈ trim_bytes l -> x ∈ l.
Proof.
  unfold trim_bytes. set (m := trim_left (length l) spaces l).
  destruct (trim_left_suffix (length l) spaces l) as [p Hp]. fold m in Hp.
  destruct (trim_left_suffix (length m) (@rev Z <$> spaces) (rev m)) as [q Hq].
  rewrite Hp at 1. rewrite !list_elem_of_In, <- in_rev. intros Hx. apply in_or_app. right.
  apply in_rev. rewrite Hq. apply in_or_app. by right.
Qed.

Lemma Index_at a b : slash ∉ a -> Index (a ++ slash :: b) [slash] = Some (length a).
Proof.
  induction a as [|x a IH]; intros Hn; [by rewrite app_nil_l, Index_slash|].
  apply not_elem_of_cons in Hn as [Hx Hn]. rewrite <- app_comm_cons, Index_slash.
  destruct (Z.eqb_spec x slash); [congruence|]. by rewrite IH.
Qed.

Lemma Index_none s sub : (forall x, x ∈ sub -> x ∉ s) -> sub <> [] -> Index s sub = None.
Proof.
  intros H Hn. destruct sub as [|c sub]; [done|]. induction s as [|b s IH]; simpl; [done|].
  destruct (Z.eqb_spec b c) as [->|Hb]; simpl.
  - exfalso. apply (H c); [left|left].
  - rewrite IH; [done|]. intros x Hx Hs. apply (H x Hx). by right.
Qed.

Lemma HasPrefix_slash s l : slash ∉ s -> HasPrefix s (slash :: l) = false.
Proof. destruct s as [|b s]; simpl; [done|]. intros [Hb _]%not_elem_of_cons. destruct (Z.eqb_spec b slash); [congruence|done]. Qed.

Lemma TrimPrefixOf_id s l : slash ∉ s -> forall r, s <> [] -> TrimPrefixOf (s ++ r) (slash :: l) = s ++ r.
Proof.
  intros Hs r Hn. destruct s as [|b s]; [done|]. apply not_elem_of_cons in Hs as [Hb _].
  unfold TrimPrefixOf. simpl. destruct (Z.eqb_spec b slash); [congruence|done].
Qed.

(** A host without slashes that is not padded is its own normal form. *)
Lemma normaliseHost_id host : slash ∉ host -> trim_bytes host = host -> normaliseHost host = host.
Proof.
  intros Hs Ht. unfold normaliseHost. rewrite Ht.
  assert (Index host (string_bytes "://") = None) as ->.
  { clear Ht. change (string_bytes "://") with [58; 47; 47]. induction host as [|b h IH]; [done|].
    apply not_elem_of_cons in Hs as [_ Hs]. cbn [Index]. rewrite IH by done. simpl.
    rewrite (HasPrefix_slash h) by done. by destruct (b =? 58). }
  cbv zeta. rewrite HasPrefix_slash by done.
  assert (TrimSuffix1 slash host = host) as ->.
  { unfold TrimSuffix1. destruct (rev host) as [|b r] eqn:E; simpl.
    - by rewrite <- (rev_involutive host), E.
    - destruct (Z.eqb_spec b slash) as [->|]; [|rewrite <- E; apply rev_involutive].
      exfalso. apply Hs, list_elem_of_In, in_rev. rewrite E. by left. }
  rewrite Index_none; [done| |done]. intros x Hx. apply list_elem_of_singleton in Hx. by subst.
Qed.

(** A room URL gives the engine a host it takes as it is and a room that does not end in a slash; the engine accepts them
    unless the room is blank.  A plain address gives back its host and room. *)
Theorem jitsi_room_urls (raw host room : bytes) :
  (parseRoomURL raw = Ok (host, room) -> host <> [] /\ slash ∉ host /\ room <> [] /\ head (rev room) <> Some slash) /\
  (host <> [] -> slash ∉ host -> trim_bytes host = host -> room <> [] ->
   head room <> Some slash -> head (rev room) <> Some slash ->
   let url := string_bytes "https://" ++ host ++ [slash] ++ room in
   trim_bytes url = url ->
   parseRoomURL url = Ok (host, room) /\
   jitsi_accepts (MkAcreds host [] [("room", room)]) = negb (is_empty (trim_bytes room))).
Proof.
  split.
  - unfold parseRoomURL. destruct (is_empty (trim_bytes raw)); [done|]. cbv zeta.
    set (r := TrimPrefixOf _ [slash]). destruct (Index r [slash]) as [[|i]|] eqn:Ei; [done| |done].
    set (h := trim_bytes (take (S i) r)). set (m := TrimSlashes (drop (S i + 1) r)).
    destruct (is_empty h) eqn:Eh; [done|]. destruct (is_empty m) eqn:Em; [done|]. intros [= <- <-].
    split; [by destruct h|]. split; [|split; [by destruct m|apply TrimSlashes_end]].
    intros Hx. apply trim_bytes_elem in Hx. by apply (index_slash_free _ _ Ei).
  - intros Hh Hs Ht Hr Hr1 Hr2 url Hu. split.
    + unfold parseRoomURL. rewrite Hu. cbv zeta.
      assert (Index url (string_bytes "://") = Some 5%nat) as -> by (unfold url; by destruct host).
      change (drop (5 + 3) url) with (host ++ slash :: room). change (is_empty url) with false. cbv iota.
      rewrite TrimPrefixOf_id by done. rewrite TrimPrefixOf_id by done. rewrite Index_at by done.
      destruct host as [|b h]; [done|]. cbn [length]. set (hh := b :: h) in *.
      replace (take (S (length h)) (hh ++ slash :: room)) with hh by (symmetry; by apply (take_app_exact (S (length h)) hh)).
      rewrite Ht. replace (drop (S (length h) + 1) (hh ++ slash :: room)) with room.
      * rewrite TrimSlashes_id by done. by destruct room.
      * rewrite drop_app_ge by (simpl; lia). replace (S (length h) + 1 - length hh)%nat with 1%nat by (simpl; lia). done.
    + unfold jitsi_accepts. cbn. rewrite normaliseHost_id by done. by destruct host.
Qed.

(** A path before the room becomes part of the room. *)
Example jitsi_path_prefix :
  parseRoomURL (string_bytes "https://meet.example.com/jitsi/myroom") =
    Ok (string_bytes "meet.example.com", string_bytes "jitsi/myroom").
Proof. by vm_compute. Qed.

(** ** Opening *)

(** What [open_provider] builds for a service is the provider's engine with the credentials just issued for the
    configured room, name and account token, and those the engine accepted. *)
Theorem open_uses_issued `{WebAPI} accepts name p cfg reqs reqs' engine creds :
  provider_of name = Some (Some p) -> open_provider accepts name cfg reqs = (reqs', Ok (engine, creds)) ->
  engine = provider_engine p /\ engine ∈ engines /\ issue p (auth_config cfg) reqs = (reqs', Ok creds) /\
  accepts engine creds = true.
Proof.
  intros Hp. unfold open_provider, resolveCredentials. rewrite Hp.
  destruct (issue p (auth_config cfg) reqs) as [r [c|e|]]; try done. unfold engine_New.
  destruct (bool_decide (provider_engine p ∈ engines)) eqn:He; [|done]. apply bool_decide_eq_true in He. simpl.
  destruct (accepts (provider_engine p) c) eqn:Ha; [|done]. by intros [= <- <- <-].
Qed.

Lemma open_uses_issued_witness :
  let W := Build_WebAPI (fun _ _ => None) id id id (fun _ => None) (fun _ => None) (fun _ => None) in
  let cfg := MkOpen (string_bytes "https://meet.example.com/myroom") [] "" [] [] [] in
  let creds := MkAcreds (string_bytes "meet.example.com") [] [("room", string_bytes "myroom")] in
  provider_engine PJitsi = "jitsi" /\ @issue W PJitsi (auth_config cfg) [] = ([], Ok creds).
Proof.
  intros W cfg creds. split; [done|].
  apply (@open_uses_issued W (fun _ => jitsi_accepts) "jitsi" PJitsi cfg [] [] "jitsi" creds); by vm_compute.
Defined.
