(* ===== verification/EngineConn.v ===== *)
(** * EngineConn: the raw connection over an engine (pkg/olcrtc/engineconn/engineconn.go)

    A session owns an engine and a synchronous pipe.  The engine's receive callback writes to the pipe and is blocked until
    readers have taken its bytes; closing the pipe releases it.  The pipe is io.Pipe of the Go library: it remembers the first
    error it is closed with, and a read on a closed pipe gets that error before anything else.  What goroutines do is a list of
    events in the order in which they take effect. *)

From S2P Require Import Prelude Bytes Text Socks SessionConfig ConfigFile NetAddr IceServers JitsiText Providers.

(** ** Opening *)

Section opening.
Context `{WebAPI}.

(** The provider's name, and the rest of the configuration. *)
(* go: src/native/olcrtc/pkg/olcrtc/engineconn/engineconn.go 89-110 newWithProvider *)
Definition engineconn_newWithProvider (accepts : string -> acreds -> bool) (name : string) (cfg : openConfig) (reqs : list hrequest)
  : list hrequest * outcome conn_error (string * acreds) :=
  match provider_of name with
  | Some (Some p) =>
      match issue p (auth_config cfg) reqs with
      | (reqs, Ok creds) =>
          (reqs, match engine_New accepts (provider_engine p) creds with
                 | Ok _ => Ok (provider_engine p, creds)
                 | Err e => Err (ErrConn e)
                 | Panic => Panic
                 end)
      | (reqs, Err e) => (reqs, Err (ErrConn (ErrAuthFailed e)))
      | (reqs, Panic) => (reqs, Panic)
      end
  | _ => (reqs, Err (ErrConn ErrProviderNotFound))
  end.

(* go: src/native/olcrtc/pkg/olcrtc/engineconn/engineconn.go 72-80 New *)
Definition engineconn_New (accepts : string -> acreds -> bool) (name : string) (cfg : openConfig) (reqs : list hrequest)
  : list hrequest * outcome conn_error (string * acreds) :=
  if negb (str_eqb name "") then engineconn_newWithProvider accepts name cfg reqs
  else (reqs, engineconn_newDirect accepts cfg).

End opening.

(** ** The pipe *)

Inductive pipe_error := ErrSessionEnded | ErrNetClosed | ErrEngineNew.

(** [ppWriters] are the blocked writers, the one that holds the lock first, each with what is left of its data. *)
Record pipe := MkPipe { ppWriters : list bytes; ppErr : option pipe_error }.

Definition pipe0 : pipe := MkPipe [] None.

(** [Write] begins: on a closed pipe it returns at once. *)
Definition pipe_Write (data : bytes) (p : pipe) : pipe :=
  match ppErr p with Some _ => p | None => MkPipe (ppWriters p ++ [data]) None end.

(** [CloseWithError]: the first error stays, and the writers return. *)
Definition pipe_Close (e : pipe_error) (p : pipe) : pipe := MkPipe [] (Some (default e (ppErr p))).

(** [Read] into a buffer of [n] bytes; [None] is a reader that waits. *)
Definition pipe_Read (n : nat) (p : pipe) : option (pipe * outcome pipe_error bytes) :=
  match ppErr p with
  | Some e => Some (p, Err e)
  | None =>
      match ppWriters p with
      | [] => None
      | d :: ws =>
          let rest := drop n d in
          Some (MkPipe (match rest with [] => ws | _ => rest :: ws end) None, Ok (take n d))
      end
  end.

(** ** The session *)

Inductive ec_output := EcWatch | EcCallback (cb : nat) (reason : string) | EcSent (data : bytes).

(** [ecHandler] is whether the engine was given [handleEnded]. *)
(* go: src/native/olcrtc/pkg/olcrtc/engineconn/engineconn.go 48-63 Session *)
Record ec_session := MkEc { ecPipe : pipe; ecWatched : bool; ecOnEnded : option nat; ecHandler : bool; ecOut : list ec_output }.

(* go: src/native/olcrtc/pkg/olcrtc/engineconn/engineconn.go 126-145 newSession *)
Definition newSession (engineOk : bool) : outcome conn_error ec_session :=
  if engineOk then Ok (MkEc pipe0 false None false []) else Err (ErrConn ErrEngine).

Definition put_pipe (p : pipe) (s : ec_session) : ec_session := MkEc p (ecWatched s) (ecOnEnded s) (ecHandler s) (ecOut s).
Definition ec_emit (o : ec_output) (s : ec_session) : ec_session :=
  MkEc (ecPipe s) (ecWatched s) (ecOnEnded s) (ecHandler s) (ecOut s ++ [o]).
Definition set_handler (s : ec_session) : ec_session := MkEc (ecPipe s) (ecWatched s) (ecOnEnded s) true (ecOut s).

Inductive ec_error := EcConnect | EcSend | EcClose | EcRead (e : pipe_error) | EcWrite.

(** The engine's answer is an argument of each operation. *)
(* go: src/native/olcrtc/pkg/olcrtc/engineconn/engineconn.go 163-169 Connect *)
Definition ec_Connect (connected : bool) (s : ec_session) : ec_session * outcome ec_error unit :=
  (s, if connected then Ok tt else Err EcConnect).

(* go: src/native/olcrtc/pkg/olcrtc/engineconn/engineconn.go 147-161 Dial *)
Definition ec_Dial (connected : bool) (s : ec_session) : ec_session * outcome ec_error unit :=
  let s := set_handler s in
  match ec_Connect connected s with
  | (s, Ok _) =>
      if ecWatched s then (s, Ok tt)
      else (ec_emit EcWatch (MkEc (ecPipe s) true (ecOnEnded s) (ecHandler s) (ecOut s)), Ok tt)
  | r => r
  end.

(* go: src/native/olcrtc/pkg/olcrtc/engineconn/engineconn.go 171-177 Send *)
Definition ec_Send (sent : bool) (data : bytes) (s : ec_session) : ec_session * outcome ec_error unit :=
  if sent then (ec_emit (EcSent data) s, Ok tt) else (s, Err EcSend).

(* go: src/native/olcrtc/pkg/olcrtc/engineconn/engineconn.go 179-186 Close *)
Definition ec_Close (closed : bool) (s : ec_session) : ec_session * outcome ec_error unit :=
  (put_pipe (pipe_Close ErrNetClosed (ecPipe s)) s, if closed then Ok tt else Err EcClose).

(* go: src/native/olcrtc/pkg/olcrtc/engineconn/engineconn.go 198-204 SetEndedCallback *)
Definition ec_SetEndedCallback (cb : option nat) (s : ec_session) : ec_session :=
  set_handler (MkEc (ecPipe s) (ecWatched s) cb (ecHandler s) (ecOut s)).

(* go: src/native/olcrtc/pkg/olcrtc/engineconn/engineconn.go 206-214 handleEnded *)
Definition handleEnded (reason : string) (s : ec_session) : ec_session :=
  let s := put_pipe (pipe_Close ErrSessionEnded (ecPipe s)) s in
  match ecOnEnded s with Some cb => ec_emit (EcCallback cb reason) s | None => s end.

(** The engine reports its end to the handler it was given. *)
Definition engine_ends (reason : string) (s : ec_session) : ec_session := if ecHandler s then handleEnded reason s else s.

(** The callback the engine was built with. *)
Definition ec_OnData (data : bytes) (s : ec_session) : ec_session := put_pipe (pipe_Write data (ecPipe s)) s.

(* go: src/native/olcrtc/pkg/olcrtc/engineconn/engineconn.go 225-231 Read *)
Definition stream_Read (n : nat) (s : ec_session) : option (ec_session * outcome ec_error bytes) :=
  match pipe_Read n (ecPipe s) with
  | None => None
  | Some (p, Ok d) => Some (put_pipe p s, Ok d)
  | Some (p, Err e) => Some (put_pipe p s, Err (EcRead e))
  | Some (p, Panic) => Some (put_pipe p s, Panic)
  end.

(* go: src/native/olcrtc/pkg/olcrtc/engineconn/engineconn.go 233-238 Write *)
Definition stream_Write (sent : bool) (data : bytes) (s : ec_session) : ec_session * outcome ec_error Z :=
  if sent then (ec_emit (EcSent data) s, Ok (len data)) else (s, Err EcWrite).

(* go: src/native/olcrtc/pkg/olcrtc/engineconn/engineconn.go 240-242 Close *)
Definition stream_Close (closed : bool) (s : ec_session) : ec_session * outcome ec_error unit := ec_Close closed s.

(** ** Runs *)

Inductive ec_event :=
| EvDial (connected : bool)
| EvData (data : bytes)
| EvRead (n : nat)
| EvWrite (sent : bool) (data : bytes)
| EvSend (sent : bool) (data : bytes)
| EvSetEnded (cb : option nat)
| EvEnds (reason : string)
| EvClose (closed : bool).

(** The session, the data received from the engine, and the results of the reads; a read that waits changes nothing. *)
Record ec_run := MkEcRun { rnSession : ec_session; rnReceived : list bytes; rnReads : list (outcome ec_error bytes) }.

Definition ec_step (r : ec_run) (e : ec_event) : ec_run :=
  let s := rnSession r in
  let keep s := MkEcRun s (rnReceived r) (rnReads r) in
  match e with
  | EvDial connected => keep (ec_Dial connected s).1
  | EvData data => MkEcRun (ec_OnData data s) (rnReceived r ++ [data]) (rnReads r)
  | EvRead n =>
      match stream_Read n s with
      | Some (s, o) => MkEcRun s (rnReceived r) (rnReads r ++ [o])
      | None => r
      end
  | EvWrite sent data => keep (stream_Write sent data s).1
  | EvSend sent data => keep (ec_Send sent data s).1
  | EvSetEnded cb => keep (ec_SetEndedCallback cb s)
  | EvEnds reason => keep (engine_ends reason s)
  | EvClose closed => keep (stream_Close closed s).1
  end.

Definition ec_start : ec_run := MkEcRun (MkEc pipe0 false None false []) [] [].
Definition ec_exec (es : list ec_event) : ec_run := fold_left ec_step es ec_start.

(** ** What is proved of the stream *)

Definition read_ok (o : outcome ec_error bytes) : option bytes := match o with Ok d => Some d | _ => None end.
Definition bytes_read (r : ec_run) : bytes := concat (omap read_ok (rnReads r)).
Definition is_watch (o : ec_output) : bool := match o with EcWatch => true | _ => false end.
Definition watchers (r : ec_run) : nat := length (filter is_watch (ecOut (rnSession r))).

(** The error the pipe was closed with. *)
Definition closed_with (r : ec_run) : option pipe_error := ppErr (ecPipe (rnSession r)).
(** What blocked callbacks have still to deliver. *)
Definition blocked (r : ec_run) : list bytes := ppWriters (ecPipe (rnSession r)).

Record ec_inv (r : ec_run) : Prop := {
  inv_watch : watchers r = if ecWatched (rnSession r) then 1%nat else 0%nat;
  inv_open : closed_with r = None ->
    concat (rnReceived r) = bytes_read r ++ concat (blocked r) /\ exists oks, rnReads r = Ok <$> oks;
  inv_closed : forall e, closed_with r = Some e ->
    blocked r = [] /\ (exists rest, concat (rnReceived r) = bytes_read r ++ rest) /\
    exists oks k, rnReads r = (Ok <$> oks) ++ replicate k (Err (EcRead e))
}.

Lemma ec_inv_start : ec_inv ec_start.
Proof. split; [done|intros _; split; [done|by exists []]|done]. Qed.

(** Two runs that differ in neither the pipe nor what was received and read. *)
Lemma ec_inv_keep r s :
  ec_inv r -> ecPipe s = ecPipe (rnSession r) ->
  length (filter is_watch (ecOut s)) = (if ecWatched s then 1%nat else 0%nat) ->
  ec_inv (MkEcRun s (rnReceived r) (rnReads r)).
Proof. intros [Hw Ho Hc] Hp Hs. split; [done|..]; unfold closed_with, blocked; simpl; rewrite Hp; [exact Ho|exact Hc]. Qed.

Lemma ec_inv_close r s e :
  ec_inv r -> ecPipe s = pipe_Close e (ecPipe (rnSession r)) ->
  length (filter is_watch (ecOut s)) = (if ecWatched s then 1%nat else 0%nat) ->
  ec_inv (MkEcRun s (rnReceived r) (rnReads r)).
Proof.
  intros [Hw Ho Hc] Hp Hs. split; [done|unfold closed_with; simpl; by rewrite Hp|].
  unfold closed_with, blocked. simpl. rewrite Hp. simpl. intros e' [= <-]. split; [done|].
  unfold closed_with in Ho, Hc. destruct (ppErr _) as [e0|] eqn:E; simpl.
  - destruct (Hc e0 eq_refl) as (_ & H1 & H2). done.
  - destruct (Ho eq_refl) as (H1 & oks & H2). split; [by eexists|]. exists oks, 0%nat. by rewrite app_nil_r.
Qed.

Lemma reads_snoc reads o : concat (omap read_ok (reads ++ [o])) = concat (omap read_ok reads) ++ default [] (read_ok o).
Proof. rewrite omap_app, concat_app. simpl. destruct (read_ok o); simpl; by rewrite ?app_nil_r. Qed.

(** The state after a read, by the state of the pipe. *)
Lemma ec_inv_read r n : ec_inv r -> ec_inv (ec_step r (EvRead n)).
Proof.
  intros [Hw Ho Hc]. destruct r as [[p w cb h out] recv reads]. unfold closed_with, blocked, watchers in *. cbn in *.
  unfold stream_Read, pipe_Read. cbn. destruct p as [ws [e|]]; cbn in *.
  - split; [done|done|]. unfold closed_with, blocked. cbn. intros e' [= <-]. destruct (Hc e eq_refl) as (H1 & (rest & H2) & oks & k & H3).
    split; [done|]. split.
    + exists rest. unfold bytes_read. cbn [rnReads]. rewrite reads_snoc. cbn. by rewrite app_nil_r.
    + exists oks, (k + 1)%nat. by rewrite H3, replicate_add, app_assoc.
  - destruct ws as [|d ws]; [by split|]. destruct (Ho eq_refl) as (H1 & oks & H2). split; [done| |done]. unfold closed_with, blocked. cbn. intros _.
    split; [|exists (oks ++ [take n d]); by rewrite H2, fmap_app].
    unfold bytes_read. cbn [rnReads]. rewrite reads_snoc, H1. cbn. rewrite <- app_assoc. f_equal.
    rewrite <- (take_drop n d) at 1. rewrite <- app_assoc. f_equal. by destruct (drop n d).
Qed.

Lemma ec_step_inv r e : ec_inv r -> ec_inv (ec_step r e).
Proof.
  intros Hr. pose proof (inv_watch r Hr) as Hw. unfold watchers in Hw.
  destruct e as [connected|data|n|sent data|sent data|cb|reason|closed]; [..|by apply (ec_inv_close _ _ ErrNetClosed)].
  - simpl. unfold ec_Dial. destruct connected; simpl; [|by apply ec_inv_keep]. destruct (ecWatched (rnSession r)) eqn:E; apply ec_inv_keep; try done; simpl;
      rewrite ?filter_app, ?length_app, Hw; simpl; by rewrite ?E.
  - destruct Hr as [_ Ho Hc]. unfold closed_with, blocked in *. simpl. unfold ec_OnData, pipe_Write. split; [done|..]; unfold closed_with, blocked; simpl;
      destruct (ppErr (ecPipe (rnSession r))) as [e|] eqn:E; simpl; try congruence.
    + intros _. destruct (Ho eq_refl) as (H1 & H2). split; [|done]. rewrite !concat_app, H1. unfold bytes_read. simpl. by rewrite <- app_assoc.
    + rewrite E. intros e' [= <-]. destruct (Hc e eq_refl) as (H1 & (rest & H2) & H3). split; [done|]. split; [|done].
      exists (rest ++ data). rewrite concat_app, H2. unfold bytes_read. simpl. by rewrite app_nil_r, <- app_assoc.
  - by apply ec_inv_read.
  - simpl. unfold stream_Write. destruct sent; apply ec_inv_keep; try done. simpl. by rewrite filter_app, length_app, Hw, Nat.add_0_r.
  - simpl. unfold ec_Send. destruct sent; apply ec_inv_keep; try done. simpl. by rewrite filter_app, length_app, Hw, Nat.add_0_r.
  - by apply ec_inv_keep.
  - simpl. unfold engine_ends, handleEnded. destruct (ecHandler (rnSession r)); [|by apply ec_inv_keep].
    destruct (ecOnEnded _); apply (ec_inv_close _ _ ErrSessionEnded); try done. simpl. by rewrite filter_app, length_app, Hw, Nat.add_0_r.
Qed.

Lemma ec_steps_inv es r : ec_inv r -> ec_inv (fold_left ec_step es r).
Proof. revert r. induction es as [|e es IH]; intros r Hr; [done|]. by apply IH, ec_step_inv. Qed.

Lemma ec_exec_inv es : ec_inv (ec_exec es).
Proof. apply ec_steps_inv, ec_inv_start. Qed.

(** The error of a closed pipe stays. *)
Lemma ec_step_closed r e err : closed_with r = Some err -> closed_with (ec_step r e) = Some err.
Proof.
  unfold closed_with. intros H. destruct r as [[[ws er] w cb h out] recv reads]. simpl in H. subst er.
  destruct e as [[]| | |[]|[]| |reason|]; simpl; try done; [by destruct w|]. unfold engine_ends, handleEnded. simpl. destruct h; [|done]. by destruct cb.
Qed.

Lemma ec_steps_closed es r err : closed_with r = Some err -> closed_with (fold_left ec_step es r) = Some err.
Proof. revert r. induction es as [|e es IH]; intros r H; [done|]. by apply IH, ec_step_closed. Qed.

(** Reads with room for at least one byte take everything from an open pipe. *)
Lemma ec_reads_drain n r : (0 < n)%nat -> closed_with r = None -> exists k, let r' := fold_left ec_step (replicate k (EvRead n)) r in
  closed_with r' = None /\ blocked r' = [] /\ rnReceived r' = rnReceived r.
Proof.
  intros Hn. remember (sum_list_with (fun d => S (length d)) (blocked r)) as m eqn:Em. revert r Em.
  induction m as [m IH] using lt_wf_ind. intros r Em Ho. destruct (blocked r) as [|d ws] eqn:Eb; [by exists 0%nat|].
  destruct r as [[p w cb h out] recv reads]. unfold closed_with, blocked in *. simpl in *. destruct p as [ws' er]. simpl in *. subst.
  set (r1 := ec_step (MkEcRun (MkEc (MkPipe (d :: ws) None) w cb h out) recv reads) (EvRead n)).
  destruct (IH (sum_list_with (fun d => S (length d)) (blocked r1))) with (r := r1) as (k & H1 & H2 & H3); [|done|done|].
  - unfold r1, blocked. simpl. destruct (drop n d) as [|x l] eqn:Ed; simpl; [lia|].
    assert (length (drop n d) = S (length l)) as Hl by (by rewrite Ed). rewrite length_drop in Hl. lia.
  - exists (S k). simpl. split; [exact H1|]. split; [exact H2|]. exact H3.
Qed.

(** A reader of the raw connection gets the bytes the engine received, in order and without gaps: after any history what was read
    is a beginning of what was received, while the connection is open the rest is with blocked callbacks, and enough reads take
    it all.  Once closed or ended, no callback is blocked and every read fails with the first of the two reasons; nothing
    later changes it.  The engine is watched at most once however often the session is dialled. *)
Theorem engineconn_stream (es : list ec_event) :
  let r := ec_exec es in
  (exists rest, concat (rnReceived r) = bytes_read r ++ rest) /\ (watchers r <= 1)%nat /\
  (closed_with r = None ->
   concat (rnReceived r) = bytes_read r ++ concat (blocked r) /\ (exists oks, rnReads r = Ok <$> oks) /\
   forall n, (0 < n)%nat -> exists k, let r' := fold_left ec_step (replicate k (EvRead n)) r in bytes_read r' = concat (rnReceived r)) /\
  (forall e, closed_with r = Some e ->
   blocked r = [] /\ (exists oks k, rnReads r = (Ok <$> oks) ++ replicate k (Err (EcRead e))) /\
   forall es', closed_with (fold_left ec_step es' r) = Some e).
Proof.
  intros r. pose proof (ec_exec_inv es) as Hr. fold r in Hr. pose proof Hr as [Hw Ho Hc].
  split; [|split; [|split]].
  - destruct (closed_with r) as [e|] eqn:E; [by apply (Hc e)|]. destruct (Ho eq_refl) as [H1 _]. by eexists.
  - rewrite Hw. destruct (ecWatched _); lia.
  - intros E. destruct (Ho E) as [H1 H2]. split; [done|]. split; [done|]. intros n Hn.
    destruct (ec_reads_drain n r Hn E) as (k & K1 & K2 & K3). exists k. cbn zeta in *.
    destruct (inv_open _ (ec_steps_inv (replicate k (EvRead n)) r Hr) K1) as [H3 _]. rewrite K2, K3 in H3. simpl in H3. by rewrite app_nil_r in H3.
  - intros e E. destruct (Hc e E) as (H1 & _ & H3). split; [done|]. split; [done|]. intros es'. by apply ec_steps_closed.
Qed.

Lemma engineconn_stream_witness :
  let r := ec_exec [EvDial true; EvData [1; 2; 3]; EvRead 2; EvData [4]; EvDial true; EvEnds "kicked"; EvRead 9; EvClose true; EvRead 9] in
  bytes_read r = [1; 2] /\ closed_with r = Some ErrSessionEnded /\ blocked r = [].
Proof.
  intros r. split; [done|]. split; [done|].
  exact (proj1 (proj2 (proj2 (proj2 (engineconn_stream
    [EvDial true; EvData [1; 2; 3]; EvRead 2; EvData [4]; EvDial true; EvEnds "kicked"; EvRead 9; EvClose true; EvRead 9]))) ErrSessionEnded eq_refl)).
Defined.
