(* ===== verification/Protect.v ===== *)
(** * Protect: sockets that bypass the VPN
    (internal/protect: the dialers of protect.go, and the sockets of pionnet.go)

    On Android every socket must be handed to the VpnService before it is used.  The Go net package calls the control hook
    of a dialer on a new socket and closes the socket when the hook fails; that contract is [open_socket].  The log
    tells, for each socket put to use, whether the protector that was set at that moment had accepted it. *)

From S2P Require Import Prelude Bytes Text Socks SessionConfig ConfigFile NetAddr IceServers JitsiText.

(** ** Sockets *)

Inductive sock_event := SkUse (fd : Z) (dns : bool) (protected : bool) | SkClose (fd : Z).

(** [pwProtector] is the process-wide callback, [pwNext] the next descriptor. *)
(* go: protect/protect.go 41-46 protector *)
Record pworld := MkPw { pwProtector : option (Z -> bool); pwNext : Z; pwLog : list sock_event }.



(* go: protect/protect.go 57-60 HasProtector *)
Definition HasProtector (w : pworld) : bool := match pwProtector w with Some _ => true | None => false end.

Inductive net_error := ErrProtectFd | ErrControl | ErrHook | ErrConnect | ErrUnexpectedConnType | ErrLookup.

(** A control hook; [rawOk] is whether the descriptor can be reached at all. *)
Definition hook : Type := pworld -> bool -> Z -> outcome net_error unit.

(* go: protect/protect.go 62-77 controlFunc *)
Definition controlFunc : hook := fun w rawOk fd =>
  match pwProtector w with
  | None => Ok tt
  | Some protect => if negb rawOk then Err ErrControl else if protect fd then Ok tt else Err ErrProtectFd
  end.






(** ** Dialers *)

(** A resolver is the hook its sockets get. *)
Record dialer := MkDialer { dlControl : option hook; dlControlContext : option hook; dlResolver : option (option hook) }.



(* go: protect/protect.go 84-92 newDialerWithResolver *)
Definition newDialerWithResolver (r : option (option hook)) : dialer := MkDialer (Some controlFunc) None r.

(* go: protect/protect.go 79-82 newDialer *)
Definition newDialer : dialer := newDialerWithResolver None.

(* go: protect/protect.go 269-274 firstResolver *)
Definition firstResolver {A} (rs : list (option A)) : option A := match rs with [] => None | r :: _ => r end.










(** ** The network given to pion *)

(* go: protect/pionnet.go 46-50 ProtectedNet *)
Record ProtectedNet := MkPNet { pnResolver : option (option hook) }.

Definition NewProtectedNet (rs : list (option (option hook))) : ProtectedNet := MkPNet (firstResolver rs).









(** ** Runs *)





(** ** What is proved of the sockets *)














