(* ===== verification/ProtectNet.v ===== *)
(** * ProtectNet: retried requests, interfaces and name resolution
    (internal/protect: the retry transport of protect.go, the interfaces and the resolution of
    pionnet.go, pionnet_android.go, pionnet_android_netlink.go and pionnet_default.go)

    The HTTP client sends a request up to three times.  The network given to pion lists the interfaces of the host without
    the tunnels, and turns names and ports into addresses with the resolver of the program.  The transport below the retries,
    the system calls and the resolver are arguments. *)

From S2P Require Import Prelude Bytes Text Socks SessionConfig NetAddr IceServers JitsiText.

(** ** Retried requests *)

(** An error as [isRetriableError] sees it: whether its chain holds a DNS error, the first [net.OpError] of the chain with
    its Timeout and its text, and the text of the whole. *)
Record go_error := MkGoErr { geDNS : bool; geOp : option (bool * bytes); geText : bytes }.

Definition contains_text (s w : bytes) : bool := match Index s w with Some _ => true | None => false end.

(* go: protect/protect.go 200-216 isRetriableError *)
Definition isRetriableError (err : option go_error) : bool :=
  match err with
  | None => false
  | Some e =>
      if geDNS e then true
      else match geOp e with
           | Some (timeout, text) => timeout || contains_text text (string_bytes "connection refused")
           | None =>
               contains_text (geText e) (string_bytes "no such host") ||
               contains_text (geText e) (string_bytes "connection reset") ||
               contains_text (geText e) (string_bytes "i/o timeout")
           end
  end.

(** A request: its body and how to get the body again, which may fail. *)
Record request := MkRq { rqBody : option bytes; rqGetBody : option (nat -> option bytes) }.

Inductive rt_error := RtRetryWait | RtNotReplayable | RtRecreateBody | RtRoundTrip (e : go_error) | RtAfterRetries (e : go_error).

Inductive rt_event := RtWait (ms : Z) | RtSend (body : option bytes) | RtCloseBody.

(** The time to wait before an attempt, and whether the context ended first. *)
(* go: protect/protect.go 167-179 waitForRetry *)
Definition waitForRetry (cancelled : nat -> bool) (attempt : nat) : list rt_event * outcome rt_error unit :=
  match attempt with
  | O => ([], Ok tt)
  | _ => ([RtWait (Z.of_nat attempt * 500)], if cancelled attempt then Err RtRetryWait else Ok tt)
  end.

(** The body the attempt sends. *)
(* go: protect/protect.go 181-198 requestForAttempt *)
Definition requestForAttempt (req : request) (attempt : nat) : outcome rt_error (option bytes) :=
  match attempt with
  | O => Ok (rqBody req)
  | _ =>
      match rqBody req with
      | None => Ok None
      | Some _ =>
          match rqGetBody req with
          | None => Err RtNotReplayable
          | Some get => match get attempt with Some b => Ok (Some b) | None => Err RtRecreateBody end
          end
      end
  end.

(** A response: its status, and whether it has a body. *)
Definition http_response : Type := Z * bool.

(** The answers of the transport below, by attempt. *)
Definition transport_script : Type := nat -> option http_response * option go_error.

(** What the function returns: a response and an error, either of which may be absent. *)
Definition rt_result : Type := option http_response * option rt_error.

Fixpoint rt_loop (base : transport_script) (cancelled : nat -> bool) (req : request) (attempts : list nat)
    (resp : option http_response) (err : option go_error) : list rt_event * rt_result :=
  match attempts with
  | [] => ([], (resp, match err with Some e => Some (RtAfterRetries e) | None => None end))
  | i :: attempts =>
      match waitForRetry cancelled i with
      | (waited, Ok _) =>
          match requestForAttempt req i with
          | Ok body =>
              let (resp, err) := base i in
              match err with
              | None => (waited ++ [RtSend body], (resp, None))
              | Some e =>
                  if negb (isRetriableError err) then (waited ++ [RtSend body], (resp, Some (RtRoundTrip e)))
                  else
                    let closed := match resp with Some (_, true) => [RtCloseBody] | _ => [] end in
                    let (log, r) := rt_loop base cancelled req attempts resp err in
                    (waited ++ [RtSend body] ++ closed ++ log, r)
              end
          | Err e => (waited, (resp, Some e))
          | Panic => (waited, (resp, None))
          end
      | (waited, Err e) => (waited, (None, Some e))
      | (waited, Panic) => (waited, (None, None))
      end
  end.

Definition maxRetries : nat := 3.

(* go: protect/protect.go 141-165 RoundTrip *)
Definition retry_RoundTrip (base : transport_script) (cancelled : nat -> bool) (req : request) : list rt_event * rt_result :=
  rt_loop base cancelled req (seq 0 maxRetries) None None.

(** *** What is proved of the retries *)

(** The transport's error of an attempt is worth another one. *)
Definition retriable_at (base : transport_script) (i : nat) : bool := isRetriableError (base i).2.

Definition send_of (e : rt_event) : option (option bytes) := match e with RtSend b => Some b | _ => None end.
Definition wait_of (e : rt_event) : Z := match e with RtWait ms => ms | _ => 0 end.

(** A body that can be had again, and is then the same. *)
Definition replayable (req : request) : Prop :=
  match rqBody req with Some b => exists get, rqGetBody req = Some get /\ forall i, get i = Some b | None => True end.

Lemma requestForAttempt_body req i : replayable req -> requestForAttempt req i = Ok (rqBody req).
Proof.
  unfold replayable, requestForAttempt. destruct i; [done|]. destruct (rqBody req) as [b|] eqn:E; [|done].
  intros (get & -> & Hget). by rewrite Hget.
Qed.

Lemma waitForRetry_ok cancelled i :
  (forall i, cancelled i = false) -> waitForRetry cancelled i = (match i with O => [] | _ => [RtWait (Z.of_nat i * 500)] end, Ok tt).
Proof. intros Hc. unfold waitForRetry. destruct i; [done|]. by rewrite Hc. Qed.

Section retries.
Context (base : transport_script) (cancelled : nat -> bool) (req : request).

(** What a loop over the attempts from [i] on sends and returns, whatever happens. *)
Lemma rt_loop_sends n i resp err :
  let r := rt_loop base cancelled req (seq i n) resp err in
  let sends := omap send_of r.1 in
  (length sends <= n)%nat /\ (forall k, (S k < length sends)%nat -> retriable_at base (i + k) = true) /\
  (r.2.2 = None -> n = 0%nat \/ exists k, length sends = S k /\ base (i + k)%nat = (r.2.1, None)).
Proof.
  revert i resp err. induction n as [|n IH]; intros i resp err; simpl; [split; [lia|split; [lia|by left]]|].
  destruct (waitForRetry cancelled i) as [waited ow] eqn:Ew.
  assert (omap send_of waited = []) as Hw by (unfold waitForRetry in Ew; destruct i; by injection Ew as <- _).
  destruct ow as [[]|e|]; simpl; [|rewrite Hw; simpl; split; [lia|split; [lia|done]]| unfold waitForRetry in Ew; destruct i as [|i']; [done|by destruct (cancelled (S i'))]].
  destruct (requestForAttempt req i) as [body|e|] eqn:Er; simpl.
  2: { rewrite Hw. simpl. split; [lia|split; [lia|done]]. }
  2: { unfold requestForAttempt in Er. destruct i; [done|]. destruct (rqBody req); [|done].
       destruct (rqGetBody req) as [get|]; [by destruct (get (S i))|done]. }
  destruct (base i) as [resp' [e|]] eqn:Eb.
  2: { simpl. rewrite omap_app, Hw. simpl. split; [lia|split; [lia|]]. intros _. right. exists 0%nat. by rewrite Nat.add_0_r, Eb. }
  destruct (isRetriableError (Some e)) eqn:Ee; cbn [negb]; [|simpl; rewrite omap_app, Hw; simpl; split; [lia|split; [lia|done]]].
  specialize (IH (S i) resp' (Some e)). destruct (rt_loop base cancelled req (seq (S i) n) resp' (Some e)) as [log r] eqn:El.
  assert (omap send_of (waited ++ [RtSend body] ++ (match resp' with Some (_, true) => [RtCloseBody] | _ => [] end) ++ log)
    = body :: omap send_of log) as Hs.
  { rewrite !omap_app, Hw. by destruct resp' as [[? []]|]. }
  simpl in *. rewrite Hs. simpl. destruct IH as (IH1 & IH2 & IH3). split; [lia|split].
  - intros [|k] Hk; [by rewrite Nat.add_0_r; unfold retriable_at; rewrite Eb|]. rewrite Nat.add_succ_r. apply (IH2 k). lia.
  - intros Hr. destruct (IH3 Hr) as [->|(k & Hk & Hb)].
    + simpl in El. by injection El as <- <-.
    + right. exists (S k). split; [lia|by rewrite Nat.add_succ_r].
Qed.

(** With a body that can be replayed and no cancellation: the first attempt whose answer is not worth a retry decides. *)
Lemma rt_loop_decides n i k resp err :
  replayable req -> (forall i, cancelled i = false) -> (k < n)%nat ->
  (forall j, (j < k)%nat -> retriable_at base (i + j) = true) -> retriable_at base (i + k) = false ->
  let r := rt_loop base cancelled req (seq i n) resp err in
  omap send_of r.1 = replicate (S k) (rqBody req) /\ r.2 = ((base (i + k)%nat).1, RtRoundTrip <$> (base (i + k)%nat).2).
Proof.
  intros Hb Hc. revert i n resp err. induction k as [|k IH]; intros i n resp err Hn Hj Hk;
    (destruct n as [|n]; [lia|]); simpl; rewrite (waitForRetry_ok _ i Hc), (requestForAttempt_body _ i Hb).
  - rewrite Nat.add_0_r in *. unfold retriable_at in Hk. destruct (base i) as [resp' [e|]]; simpl in *; [rewrite Hk|]; cbn [negb fst snd];
      by destruct i.
  - assert (retriable_at base i = true) as H0 by (rewrite <- (Nat.add_0_r i); apply Hj; lia).
    unfold retriable_at in H0. destruct (base i) as [resp' err'] eqn:Eb. cbn [fst snd] in H0.
    destruct err' as [e|]; [|done]. rewrite H0. cbn [negb].
    destruct (IH (S i) n resp' (Some e)) as [IH1 IH2]; [lia| |by rewrite Nat.add_succ_comm|].
    { intros j Hj'. rewrite Nat.add_succ_comm. apply Hj. lia. }
    destruct (rt_loop base cancelled req (seq (S i) n) resp' (Some e)) as [log r]. simpl in *.
    rewrite !omap_app, <- Nat.add_succ_comm. simpl. rewrite omap_app, IH1. split; [|done]. by destruct i, resp' as [[? []]|].
Qed.

(** When every answer is worth a retry the last one is returned. *)
Lemma rt_loop_exhausts n i resp err :
  replayable req -> (forall i, cancelled i = false) -> (forall j, (j < n)%nat -> retriable_at base (i + j) = true) ->
  let r := rt_loop base cancelled req (seq i n) resp err in
  omap send_of r.1 = replicate n (rqBody req) /\
  r.2 = (let last := match n with O => (resp, err) | S m => base (i + m)%nat end in (last.1, RtAfterRetries <$> last.2)).
Proof.
  intros Hb Hc. revert i resp err. induction n as [|n IH]; intros i resp err Hj; simpl; [by destruct err|].
  rewrite (waitForRetry_ok _ i Hc), (requestForAttempt_body _ i Hb).
  assert (retriable_at base i = true) as H0 by (rewrite <- (Nat.add_0_r i); apply Hj; lia).
  unfold retriable_at in H0. destruct (base i) as [resp' err'] eqn:Eb. cbn [fst snd] in H0.
  destruct err' as [e|]; [|done]. rewrite H0. cbn [negb].
  destruct (IH (S i) resp' (Some e)) as [IH1 IH2].
  { intros j Hj'. rewrite Nat.add_succ_comm. apply Hj. lia. }
  destruct (rt_loop base cancelled req (seq (S i) n) resp' (Some e)) as [log r]. simpl in *.
  rewrite !omap_app. simpl. rewrite omap_app, IH1. split; [by destruct i, resp' as [[? []]|]|].
  rewrite IH2. destruct n as [|n]; [by rewrite Nat.add_0_r, Eb|]. by rewrite (Nat.add_succ_r i n).
Qed.

End retries.

(** C31: A request goes out at most three times, an attempt is made only after one whose error was worth a retry, and a response
    without an error is the transport's answer to the last attempt.  When the body can be had again and the context lives on,
    every attempt carries the whole body, and the first answer that is not worth a retry is the result, or else the
    third. *)
Theorem request_retries (base : transport_script) (cancelled : nat -> bool) (req : request) :
  let r := retry_RoundTrip base cancelled req in
  let sends := omap send_of r.1 in
  (length sends <= 3)%nat /\ (forall k, (S k < length sends)%nat -> retriable_at base k = true) /\
  (r.2.2 = None -> exists k, length sends = S k /\ base k = (r.2.1, None)) /\
  (replayable req -> (forall i, cancelled i = false) ->
   (forall k, (k < 3)%nat -> (forall j, (j < k)%nat -> retriable_at base j = true) -> retriable_at base k = false ->
    sends = replicate (S k) (rqBody req) /\ r.2 = ((base k).1, RtRoundTrip <$> (base k).2)) /\
   ((forall j, (j < 3)%nat -> retriable_at base j = true) ->
    sends = replicate 3 (rqBody req) /\ r.2 = ((base 2%nat).1, RtAfterRetries <$> (base 2%nat).2))).
Proof.
  intros r sends. destruct (rt_loop_sends base cancelled req 3 0 None None) as (H1 & H2 & H3).
  split; [exact H1|]. split; [exact H2|]. split; [intros Hr; by destruct (H3 Hr)|].
  intros Hb Hc. split.
  - intros k Hk Hj Hn. by apply (rt_loop_decides base cancelled req 3 0 k None None Hb Hc Hk Hj Hn).
  - intros Hj. by apply (rt_loop_exhausts base cancelled req 3 0 None None Hb Hc Hj).
Qed.

(** A transport whose answer to a POST times out while it is being read: the request goes out three times. *)
Definition read_timeout : go_error := MkGoErr false (Some (true, string_bytes "read tcp: i/o timeout")) (string_bytes "read tcp: i/o timeout").
Definition post : request := MkRq (Some [1; 2; 3]) (Some (fun _ => Some [1; 2; 3])).

Lemma request_retries_witness :
  let r := retry_RoundTrip (fun _ => (None, Some read_timeout)) (fun _ => false) post in
  omap send_of r.1 = replicate 3 (Some [1; 2; 3]) /\ r.2 = (None, Some (RtAfterRetries read_timeout)).
Proof.
  apply (proj2 (proj2 (proj2 (proj2 (request_retries (fun _ => (None, Some read_timeout)) (fun _ => false) post)))
    (ex_intro _ _ (conj eq_refl (fun _ => eq_refl))) (fun _ => eq_refl))).
  done.
Defined.

(** ** Interfaces *)

(** An address of an interface: the address and the mask, which may be absent. *)
Definition ip_net : Type := bytes * option bytes.

Record iface := MkIf { ifIndex : Z; ifName : bytes; ifMTU : Z; ifHardwareAddr : option bytes; ifFlags : Z; ifAddrs : list ip_net }.

(** *** Enumeration through the net package *)

(** [ifs] are the interfaces the library lists, each with its addresses or an error. *)
Fixpoint readable (ifs : list (iface * option (list ip_net))) : list iface :=
  match ifs with
  | [] => []
  | (i, None) :: ifs => readable ifs
  | (i, Some addrs) :: ifs =>
      MkIf (ifIndex i) (ifName i) (ifMTU i) (ifHardwareAddr i) (ifFlags i) (ifAddrs i ++ addrs) :: readable ifs
  end.

Inductive if_error := ErrNetInterfaces | ErrInterfacesUnavailable | ErrLoadInterfaces (e : if_error) | ErrInterfaceNotFound.

Definition if_listing : Type := option (list (iface * option (list ip_net))).

(* go: protect/pionnet_default.go 14-40 loadInterfaces *)
Definition loadInterfaces_default (listing : if_listing) : outcome if_error (list iface) :=
  match listing with None => Err ErrNetInterfaces | Some ifs => Ok (readable ifs) end.

(* go: protect/pionnet_android_netlink.go 14-42 loadInterfacesNetlink *)
Definition loadInterfacesNetlink (listing : if_listing) : outcome if_error (list iface) :=
  match listing with None => Err ErrNetInterfaces | Some ifs => Ok (readable ifs) end.

(* go: protect/pionnet_android_nocgo.go 11-15 loadInterfaces *)
Definition loadInterfaces_nocgo (listing : if_listing) : outcome if_error (list iface) := loadInterfacesNetlink listing.

(** *** Enumeration through getifaddrs *)

(** A socket address: its family and the bytes after it. *)
Record sockaddr := MkSa { saFamily : Z; saData : bytes }.

Definition AF_INET : Z := 2.
Definition AF_INET6 : Z := 10.

(** The address follows the port, and in the second form the flow information as well. *)
Definition sin_addr (sa : sockaddr) : bytes := take 4 (drop 2 (saData sa)).
Definition sin6_addr (sa : sockaddr) : bytes := take 16 (drop 6 (saData sa)).

(* go: protect/pionnet_android.go 203-212 parseIPv4 *)
Definition parseIPv4 (sa : sockaddr) (mask : option sockaddr) : ip_net :=
  (sin_addr sa, match mask with Some m => if saFamily m =? AF_INET then Some (sin_addr m) else None | None => None end).

(* go: protect/pionnet_android.go 214-223 parseIPv6 *)
Definition parseIPv6 (sa : sockaddr) (mask : option sockaddr) : ip_net :=
  (sin6_addr sa, match mask with Some m => if saFamily m =? AF_INET6 then Some (sin6_addr m) else None | None => None end).

(* go: protect/pionnet_android.go 190-201 parseIfaddr *)
Definition parseIfaddr (sa mask : option sockaddr) : option ip_net :=
  match sa with
  | None => None
  | Some sa =>
      if saFamily sa =? AF_INET then Some (parseIPv4 sa mask)
      else if saFamily sa =? AF_INET6 then Some (parseIPv6 sa mask)
      else None
  end.

(** The flags of the kernel and of the net package. *)
(* go: protect/pionnet_android.go 225-246 mapIfFlags *)
Definition mapIfFlags (flags : Z) : Z :=
  let bit f mask goFlag := if negb (Z.land flags mask =? 0) then Z.lor f goFlag else f in
  let f := bit 0 1 1 in
  let f := bit f 2 2 in
  let f := bit f 8 4 in
  let f := bit f 16 8 in
  let f := bit f 4096 16 in
  bit f 64 32.

(** The three requests to the kernel; the name is cut at the size of its field. *)
Record ioctls := MkIoctl { ioIndex : bytes -> option Z; ioMtu : bytes -> option Z; ioHwaddr : bytes -> option bytes }.

Definition ifr_name (name : bytes) : bytes := take 15 name.

(* go: protect/pionnet_android.go 33-43 ifc_name_to_index *)
Definition ifc_name_to_index (io : ioctls) (name : bytes) : Z :=
  match ioIndex io (ifr_name name) with Some i => u32 i | None => 0 end.

(* go: protect/pionnet_android.go 56-67 ifc_get_mtu *)
Definition ifc_get_mtu (io : ioctls) (name : bytes) : option Z := ioMtu io (ifr_name name).

(* go: protect/pionnet_android.go 69-81 ifc_get_hwaddr *)
Definition ifc_get_hwaddr (io : ioctls) (name : bytes) : option bytes := take 6 <$> ioHwaddr io (ifr_name name).

(** An entry of the list the C library returns. *)
Record ifaddrs := MkIfa { ifaName : option bytes; ifaFlags : Z; ifaAddr : option sockaddr; ifaMask : option sockaddr }.

(** The entry made for a name when it is first seen. *)
Definition new_entry (io : ioctls) (name : bytes) (p : ifaddrs) : iface :=
  MkIf (ifc_name_to_index io name) name
       (match ifc_get_mtu io name with Some mtu => if 0 <? mtu then mtu else 0 | None => 0 end)
       (ifc_get_hwaddr io name) (mapIfFlags (ifaFlags p)) [].

Definition add_addr (i : iface) (p : ifaddrs) : iface :=
  match parseIfaddr (ifaAddr p) (ifaMask p) with
  | Some a => MkIf (ifIndex i) (ifName i) (ifMTU i) (ifHardwareAddr i) (ifFlags i) (ifAddrs i ++ [a])
  | None => i
  end.

(** The map by name and the names in the order they were seen. *)
Definition by_name : Type := gmap bytes iface * list bytes.

Definition getifaddrs_step (io : ioctls) (st : by_name) (p : ifaddrs) : by_name :=
  match ifaName p with
  | None | Some [] => st
  | Some name =>
      match st.1 !! name with
      | Some entry => (<[name := add_addr entry p]> st.1, st.2)
      | None => (<[name := add_addr (new_entry io name p) p]> st.1, st.2 ++ [name])
      end
  end.

(* go: protect/pionnet_android.go 126-188 loadInterfacesGetifaddrs *)
Definition loadInterfacesGetifaddrs (io : ioctls) (head : option (list ifaddrs)) : outcome if_error (list iface) :=
  match head with
  | None => Err ErrInterfacesUnavailable
  | Some l => let st := fold_left (getifaddrs_step io) l (∅, []) in Ok (omap (fun name => st.1 !! name) st.2)
  end.

Definition android11ApiLevel : Z := 30.

(* go: protect/pionnet_android.go 108-124 loadInterfaces *)
Definition loadInterfaces_android (apiLevel : Z) (listing : if_listing) (io : ioctls) (head : option (list ifaddrs)) :
    outcome if_error (list iface) :=
  if apiLevel <? android11ApiLevel then loadInterfacesNetlink listing else loadInterfacesGetifaddrs io head.

(** *** The filter *)

(* go: protect/pionnet.go 34-38 tunInterfacePrefixes *)
Definition tunInterfacePrefixes : list bytes := string_bytes <$> ["tun"; "ppp"; "pptp"].

(* go: protect/pionnet.go 115-122 isTunInterface *)
Definition isTunInterface (name : bytes) : bool := existsb (HasPrefix name) tunInterfacePrefixes.

(** The functions take what [loadInterfaces] returned. *)
(* go: protect/pionnet.go 66-79 Interfaces *)
Definition Interfaces (loaded : outcome if_error (list iface)) : outcome if_error (list iface) :=
  match loaded with
  | Ok l => Ok (filter (fun i => negb (isTunInterface (ifName i))) l)
  | Err e => Err (ErrLoadInterfaces e)
  | Panic => Panic
  end.

(* go: protect/pionnet.go 81-96 InterfaceByIndex *)
Definition InterfaceByIndex (loaded : outcome if_error (list iface)) (index : Z) : outcome if_error iface :=
  match loaded with
  | Ok l =>
      match List.find (fun i => ifIndex i =? index) l with
      | Some i => if isTunInterface (ifName i) then Err ErrInterfaceNotFound else Ok i
      | None => Err ErrInterfaceNotFound
      end
  | Err e => Err (ErrLoadInterfaces e)
  | Panic => Panic
  end.

(* go: protect/pionnet.go 98-113 InterfaceByName *)
Definition InterfaceByName (loaded : outcome if_error (list iface)) (name : bytes) : outcome if_error iface :=
  if isTunInterface name then Err ErrInterfaceNotFound
  else
    match loaded with
    | Ok l =>
        match List.find (fun i => bool_decide (ifName i = name)) l with
        | Some i => Ok i
        | None => Err ErrInterfaceNotFound
        end
    | Err e => Err (ErrLoadInterfaces e)
    | Panic => Panic
    end.

(** *** What is proved of the interfaces *)

(** The reference for the grouping: the entries with a name, the names in the order of their first entry, and the interface
    the entries of a name make up. *)
Definition entry_name (p : ifaddrs) : option bytes := match ifaName p with None | Some [] => None | n => n end.
Definition add_first (acc : list bytes) (n : bytes) : list bytes := if bool_decide (n ∈ acc) then acc else acc ++ [n].
Definition firsts (l : list bytes) : list bytes := fold_left add_first l [].
Definition entries_of (n : bytes) (l : list ifaddrs) : list ifaddrs := filter (fun p => entry_name p = Some n) l.

Definition group_of (io : ioctls) (l : list ifaddrs) (n : bytes) : option iface :=
  match entries_of n l with
  | [] => None
  | (p :: _) as ps =>
      let i := new_entry io n p in
      Some (MkIf (ifIndex i) n (ifMTU i) (ifHardwareAddr i) (ifFlags i) (omap (fun p => parseIfaddr (ifaAddr p) (ifaMask p)) ps))
  end.

Lemma firsts_snoc l n : firsts (l ++ [n]) = add_first (firsts l) n.
Proof. unfold firsts. by rewrite fold_left_app. Qed.

Lemma firsts_elem l n : n ∈ firsts l <-> n ∈ l.
Proof.
  induction l as [|m l IH] using rev_ind; [done|]. rewrite firsts_snoc, elem_of_app, <- IH, list_elem_of_singleton.
  unfold add_first. case_bool_decide; [|by rewrite elem_of_app, list_elem_of_singleton]. naive_solver.
Qed.

Lemma firsts_NoDup l : NoDup (firsts l).
Proof.
  induction l as [|m l IH] using rev_ind; [constructor|]. rewrite firsts_snoc. unfold add_first. case_bool_decide; [done|].
  apply NoDup_app. split; [done|]. split; [|apply NoDup_singleton]. intros x Hx Hm. apply list_elem_of_singleton in Hm. congruence.
Qed.

Lemma entry_name_step io st p :
  getifaddrs_step io st p =
  match entry_name p with
  | None => st
  | Some name =>
      match st.1 !! name with
      | Some entry => (<[name := add_addr entry p]> st.1, st.2)
      | None => (<[name := add_addr (new_entry io name p) p]> st.1, st.2 ++ [name])
      end
  end.
Proof. unfold getifaddrs_step, entry_name. by destruct (ifaName p) as [[|]|]. Qed.

Lemma entries_of_snoc n l p : entries_of n (l ++ [p]) = entries_of n l ++ if bool_decide (entry_name p = Some n) then [p] else [].
Proof. unfold entries_of. rewrite filter_app. f_equal. rewrite filter_cons. case_decide; case_bool_decide; done. Qed.

(** One more entry of the name. *)
Lemma group_of_snoc io l n p :
  group_of io (l ++ [p]) n =
  if bool_decide (entry_name p = Some n) then
    Some (match group_of io l n with Some i => add_addr i p | None => add_addr (new_entry io n p) p end)
  else group_of io l n.
Proof.
  unfold group_of. rewrite entries_of_snoc. case_bool_decide; [|by rewrite app_nil_r].
  destruct (entries_of n l) as [|q ps]; cbn -[new_entry omap]; f_equal; unfold add_addr.
  - simpl. by destruct (parseIfaddr _ _).
  - rewrite app_comm_cons, omap_app. simpl.
    by destruct (parseIfaddr (ifaAddr p) (ifaMask p)); simpl; rewrite ?app_nil_r.
Qed.

Lemma getifaddrs_invariant io l :
  let st := fold_left (getifaddrs_step io) l (∅, []) in
  (forall n, st.1 !! n = group_of io l n) /\ st.2 = firsts (omap entry_name l) /\
  (forall n, group_of io l n = None <-> n ∉ omap entry_name l).
Proof.
  induction l as [|p l IH] using rev_ind.
  { split; [intros n; apply lookup_empty|]. split; [done|]. intros n. split; [intros _; apply not_elem_of_nil|done]. }
  rewrite fold_left_app. cbn [fold_left]. rewrite entry_name_step. destruct (fold_left _ l _) as [m order]. simpl in *.
  destruct IH as (Hm & -> & Hn). rewrite omap_app. simpl.
  destruct (entry_name p) as [name|] eqn:Ep.
  2: { rewrite app_nil_r. split; [intros n; by rewrite Hm, group_of_snoc, Ep|]. split; [done|]. intros n. rewrite group_of_snoc, Ep.
       rewrite bool_decide_false by done. apply Hn. }
  assert (forall n, group_of io (l ++ [p]) n = None <-> n ∉ omap entry_name l ++ [name]) as H3.
  { intros n. rewrite group_of_snoc, Ep, not_elem_of_app, list_elem_of_singleton, <- Hn. case_bool_decide as Hb; [split; [done|naive_solver]|].
    naive_solver. }
  rewrite Hm. destruct (group_of io l name) as [i|] eqn:Eg; simpl; (split; [|split; [|done]]).
  - intros n. rewrite group_of_snoc, Ep. case_bool_decide as Hb; [injection Hb as <-; by rewrite lookup_insert_eq, Eg|].
    rewrite lookup_insert_ne by congruence. apply Hm.
  - rewrite firsts_snoc. unfold add_first. rewrite bool_decide_true; [done|]. apply firsts_elem, dec_stable. intros Hx.
    apply Hn in Hx. congruence.
  - intros n. rewrite group_of_snoc, Ep. case_bool_decide as Hb; [injection Hb as <-; by rewrite lookup_insert_eq, Eg|].
    rewrite lookup_insert_ne by congruence. apply Hm.
  - rewrite firsts_snoc. unfold add_first. rewrite bool_decide_false; [done|]. rewrite firsts_elem. by apply Hn.
Qed.

(** The interfaces that are assembled from the flat list of getifaddrs in one pass are: one for each name, in the order in which
    the names first occur, with the flags of its first entry and the IPv4 and IPv6 addresses of all its entries in
    order. *)
Theorem getifaddrs_groups (io : ioctls) (l : list ifaddrs) :
  loadInterfacesGetifaddrs io (Some l) = Ok (omap (group_of io l) (firsts (omap entry_name l))) /\
  (forall n, n ∈ omap entry_name l -> exists i, group_of io l n = Some i /\ ifName i = n) /\
  NoDup (firsts (omap entry_name l)).
Proof.
  destruct (getifaddrs_invariant io l) as (Hm & Ho & Hn). split; [|split; [|apply firsts_NoDup]].
  - unfold loadInterfacesGetifaddrs. rewrite Ho. f_equal. clear Ho.
    induction (firsts _) as [|n ns IH]; [done|]. cbn [omap list_omap]. by rewrite Hm; destruct (group_of io l n); rewrite IH.
  - intros n Hin. destruct (group_of io l n) as [i|] eqn:E; [|by apply Hn in E]. exists i. split; [done|].
    revert E. unfold group_of. destruct (entries_of n l); [done|]. by intros [= <-].
Qed.

Lemma find_unique {A B} (f : A -> B) (t : A -> bool) (l : list A) (x : A) :
  NoDup (f <$> l) -> x ∈ l -> t x = true -> (forall y, t y = true -> f y = f x) -> List.find t l = Some x.
Proof.
  intros Hnd Hx Ht Hf. induction l as [|y l IH]; [by apply not_elem_of_nil in Hx|]. simpl. apply NoDup_cons in Hnd as [Hy Hnd].
  apply elem_of_cons in Hx as [->|Hx]; [by rewrite Ht|]. destruct (t y) eqn:E; [|by apply IH].
  destruct Hy. rewrite (Hf y E). by apply list_elem_of_fmap_2.
Qed.

(** The three ways to an interface agree: none hands out a tunnel, what is found by name or by index is in the list, and what is in
    the list is found by name and by index when those are unique. *)
Theorem tunnels_hidden (l vis : list iface) (i : iface) :
  Interfaces (Ok l) = Ok vis ->
  (i ∈ vis <-> i ∈ l /\ isTunInterface (ifName i) = false) /\
  (forall name, InterfaceByName (Ok l) name = Ok i -> i ∈ vis /\ ifName i = name) /\
  (forall index, InterfaceByIndex (Ok l) index = Ok i -> i ∈ vis /\ ifIndex i = index) /\
  (i ∈ vis -> NoDup (ifName <$> l) -> InterfaceByName (Ok l) (ifName i) = Ok i) /\
  (i ∈ vis -> NoDup (ifIndex <$> l) -> InterfaceByIndex (Ok l) (ifIndex i) = Ok i).
Proof.
  intros [= <-].
  assert (forall j, j ∈ filter (fun i => negb (isTunInterface (ifName i))) l <-> j ∈ l /\ isTunInterface (ifName j) = false) as Hv.
  { intros j. rewrite list_elem_of_filter. destruct (isTunInterface (ifName j)); simpl; naive_solver. }
  split; [apply Hv|]. split; [|split; [|split]].
  - intros name. unfold InterfaceByName. destruct (isTunInterface name) eqn:Et; [done|].
    destruct (List.find _ l) as [j|] eqn:Ef; [|done]. intros [= ->]. apply find_some in Ef as [Hin Hn].
    apply bool_decide_eq_true in Hn as <-. rewrite Hv, list_elem_of_In. naive_solver.
  - intros index. unfold InterfaceByIndex. destruct (List.find _ l) as [j|] eqn:Ef; [|done].
    destruct (isTunInterface (ifName j)) eqn:Et; [done|]. intros [= ->]. apply find_some in Ef as [Hin Hn].
    apply Z.eqb_eq in Hn as <-. rewrite Hv, list_elem_of_In. naive_solver.
  - intros Hi Hnd. apply Hv in Hi as [Hin Ht]. unfold InterfaceByName. rewrite Ht, (find_unique ifName _ l i Hnd Hin); [done| |].
    + by apply bool_decide_eq_true.
    + by intros y Hy%bool_decide_eq_true.
  - intros Hi Hnd. apply Hv in Hi as [Hin Ht]. unfold InterfaceByIndex. rewrite (find_unique ifIndex _ l i Hnd Hin); [by rewrite Ht| |].
    + apply Z.eqb_refl.
    + by intros y Hy%Z.eqb_eq.
Qed.

(** Where an index cannot be read it is zero: a tunnel with that index hides every interface behind it. *)
Example tunnels_hidden_by_index :
  let i name := MkIf 0 (string_bytes name) 1500 None 1 [] in
  InterfaceByIndex (Ok [i "tun0"; i "wlan0"]) 0 = Err ErrInterfaceNotFound /\
  Interfaces (Ok [i "tun0"; i "wlan0"; i "pptp1"; i "rmnet0"]) = Ok [i "wlan0"; i "rmnet0"].
Proof. by vm_compute. Qed.

(** ** Name resolution *)

(** [net.IPAddr]; the zero value has no address. *)
Record IPAddr := MkIPAddr { iaIP : bytes; iaZone : bytes }.

Definition IPAddr0 : IPAddr := MkIPAddr [] [].

(** The resolver, and the check of a protocol name by the net package. *)
Class Resolver : Type := {
  LookupPort : bytes -> bytes -> option Z;
  LookupIP : bytes -> bytes -> option (list bytes);
  valid_ip_network : bytes -> bool
}.

Inductive res_error := ErrUnknownNetwork | ErrIPNetwork | ErrSplit (e : addr_error) | ErrLookupPort | ErrLookupIP | ErrNoSuitableAddress.

Definition HasSuffix (s suffix : bytes) : bool := HasPrefix (rev s) (rev suffix).

Section resolution.
Context `{NetIP, Resolver}.

(* go: protect/pionnet.go 373-381 firstIPAddr *)
Fixpoint firstIPAddr (ips : list IPAddr) (ipv4 : bool) : option IPAddr :=
  match ips with
  | [] => None
  | ip :: ips =>
      let is4 := bool_decide (is_Some (To4 (iaIP ip))) in
      if (ipv4 && is4) || (negb ipv4 && negb is4 && (len (iaIP ip) =? 16)) then Some ip else firstIPAddr ips ipv4
  end.

(* go: protect/pionnet.go 350-371 selectIPAddr *)
Definition selectIPAddr (ips : list IPAddr) (network : bytes) : outcome res_error IPAddr :=
  if HasSuffix network (string_bytes "4") then
    match firstIPAddr ips true with Some ip => Ok ip | None => Err ErrNoSuitableAddress end
  else if HasSuffix network (string_bytes "6") then
    match firstIPAddr ips false with Some ip => Ok ip | None => Err ErrNoSuitableAddress end
  else
    match firstIPAddr ips true with
    | Some ip => Ok ip
    | None => match firstIPAddr ips false with Some ip => Ok ip | None => Err ErrNoSuitableAddress end
    end.

(* go: protect/pionnet.go 328-348 lookupIPAddr *)
Definition lookupIPAddr (network host : bytes) : outcome res_error IPAddr :=
  if len host =? 0 then Ok IPAddr0
  else
    let '(address, zone) := match last_byte 37 host with Some i => (take i host, drop (S i) host) | None => (host, []) end in
    match ParseIP address with
    | Some ip => selectIPAddr [MkIPAddr ip zone] network
    | None =>
        match LookupIP network host with
        | None => Err ErrLookupIP
        | Some ips => selectIPAddr ((fun ip => MkIPAddr ip []) <$> ips) network
        end
    end.

(* go: protect/pionnet.go 303-326 resolveHostPort *)
Definition resolveHostPort (network address : bytes) : outcome res_error (IPAddr * Z) :=
  if len address =? 0 then Ok (IPAddr0, 0)
  else
    match SplitHostPort address with
    | Err e => Err (ErrSplit e)
    | Panic => Panic
    | Ok (host, portText) =>
        match LookupPort network portText with
        | None => Err ErrLookupPort
        | Some port =>
            let ipNetwork :=
              if HasSuffix network (string_bytes "4") then string_bytes "ip4"
              else if HasSuffix network (string_bytes "6") then string_bytes "ip6" else string_bytes "ip" in
            let* ip := lookupIPAddr ipNetwork host in Ok (ip, port)
        end
    end.

(* go: protect/pionnet.go 276-284 resolveTransportNetwork *)
Definition resolveTransportNetwork (network protocol : bytes) : outcome res_error bytes :=
  if len network =? 0 then Ok protocol
  else if bool_decide (network = protocol \/ network = protocol ++ string_bytes "4" \/ network = protocol ++ string_bytes "6")
  then Ok network
  else Err ErrUnknownNetwork.

(* go: protect/pionnet.go 286-301 resolveIPNetwork *)
Definition resolveIPNetwork (network : bytes) : outcome res_error bytes :=
  if len network =? 0 then Ok (string_bytes "ip")
  else if bool_decide (network = string_bytes "ip" \/ network = string_bytes "ip4" \/ network = string_bytes "ip6") then Ok network
  else match last_byte colon network with
       | Some i => if valid_ip_network network then Ok (take i network) else Err ErrIPNetwork
       | None => Err ErrUnknownNetwork
       end.

(** The three functions where the network has a resolver; without one they are those of the net package. *)
(* go: protect/pionnet.go 214-232 ResolveIPAddr *)
Definition ResolveIPAddr (network address : bytes) : outcome res_error IPAddr :=
  let* ipNetwork := resolveIPNetwork network in lookupIPAddr ipNetwork address.

(* go: protect/pionnet.go 234-253 ResolveUDPAddr *)
Definition ResolveUDPAddr (network address : bytes) : outcome res_error (IPAddr * Z) :=
  let* network := resolveTransportNetwork network (string_bytes "udp") in resolveHostPort network address.

(* go: protect/pionnet.go 255-274 ResolveTCPAddr *)
Definition ResolveTCPAddr (network address : bytes) : outcome res_error (IPAddr * Z) :=
  let* network := resolveTransportNetwork network (string_bytes "tcp") in resolveHostPort network address.

End resolution.

(** *** What is proved of the resolution *)

(** The reference: the addresses of the network's family, IPv4 first where both will do. *)
Definition is_v4 (a : IPAddr) : bool := bool_decide (is_Some (To4 (iaIP a))).
Definition is_v6 (a : IPAddr) : bool := negb (is_v4 a) && (len (iaIP a) =? 16).
Definition wanted (network : bytes) (ips : list IPAddr) : list IPAddr :=
  if HasSuffix network (string_bytes "4") then filter is_v4 ips
  else if HasSuffix network (string_bytes "6") then filter is_v6 ips
  else filter is_v4 ips ++ filter is_v6 ips.

Lemma firstIPAddr_v4 ips : firstIPAddr ips true = head (filter is_v4 ips).
Proof.
  induction ips as [|a ips IH]; [done|]. cbn [firstIPAddr]. rewrite IH, filter_cons. fold (is_v4 a). by destruct (is_v4 a).
Qed.

Lemma firstIPAddr_v6 ips : firstIPAddr ips false = head (filter is_v6 ips).
Proof.
  induction ips as [|a ips IH]; [done|]. cbn [firstIPAddr]. rewrite IH, filter_cons. fold (is_v4 a).
  change (_ || _) with (is_v6 a). by destruct (is_v6 a).
Qed.

Lemma selectIPAddr_wanted ips network :
  selectIPAddr ips network = match head (wanted network ips) with Some ip => Ok ip | None => Err ErrNoSuitableAddress end.
Proof.
  unfold selectIPAddr, wanted. rewrite firstIPAddr_v4, firstIPAddr_v6. destruct (HasSuffix network _); [done|].
  destruct (HasSuffix network _); [done|]. by destruct (filter is_v4 ips), (filter is_v6 ips).
Qed.

Lemma wanted_family network ips ip :
  head (wanted network ips) = Some ip ->
  ip ∈ ips /\ (is_v4 ip = true \/ is_v6 ip = true) /\
  (HasSuffix network (string_bytes "4") = true -> is_v4 ip = true) /\
  (HasSuffix network (string_bytes "4") = false -> HasSuffix network (string_bytes "6") = true -> is_v6 ip = true) /\
  (HasSuffix network (string_bytes "4") = false -> HasSuffix network (string_bytes "6") = false -> is_v6 ip = true ->
   Forall (fun a => is_v4 a = false) ips).
Proof.
  intros E. assert (ip ∈ wanted network ips) as Hin by (destruct (wanted network ips); [done|injection E as ->; apply list_elem_of_here]).
  unfold wanted in *. destruct (HasSuffix network (string_bytes "4")), (HasSuffix network (string_bytes "6"));
    rewrite ?elem_of_app, ?list_elem_of_filter, ?Is_true_true in Hin;
    [destruct Hin; by repeat split; auto|destruct Hin; by repeat split; auto|destruct Hin; by repeat split; auto|].
  destruct (filter is_v4 ips) as [|a l] eqn:Ef; simpl in *.
  - assert (Forall (fun a => is_v4 a = false) ips).
    { apply Forall_forall. intros a Ha. destruct (is_v4 a) eqn:Ea; [|done]. exfalso. apply (not_elem_of_nil a). rewrite <- Ef.
      apply list_elem_of_filter. by rewrite Ea. }
    destruct Hin as [[]|[]]; naive_solver.
  - injection E as ->. assert (ip ∈ filter is_v4 ips) as [H4 Hi]%list_elem_of_filter by (rewrite Ef; apply list_elem_of_here).
    apply Is_true_true in H4. split; [done|]. split; [by left|]. repeat split; try done. intros _ _. unfold is_v6. by rewrite H4.
Qed.

(** The candidates of a host: the literal alone, with its zone, or what the resolver answers. *)
Definition candidates `{NetIP, Resolver} (network host : bytes) (ips : list IPAddr) : Prop :=
  (exists address zone ip, (host = address /\ zone = [] \/ host = address ++ [37] ++ zone) /\ ParseIP address = Some ip /\
     ips = [MkIPAddr ip zone]) \/
  (exists l, LookupIP network host = Some l /\ ips = (fun ip => MkIPAddr ip []) <$> l).

Lemma last_byte_split c l i : last_byte c l = Some i -> l = take i l ++ [c] ++ drop (S i) l.
Proof.
  intros H. destruct (decide (c ∈ l)) as [Hin|Hn].
  2: { unfold last_byte in H. assert (index_byte c (rev l) = None) as E; [|by rewrite E in H].
       apply index_byte_None. by rewrite list_elem_of_In, <- in_rev, <- list_elem_of_In. }
  apply list_elem_of_split_r in Hin as (a & b & -> & Hb). rewrite last_byte_at in H by done. injection H as <-.
  rewrite take_app_length. f_equal. simpl. f_equal. rewrite cons_middle, app_assoc.
  replace (S (length a)) with (length (a ++ [c])) by (rewrite length_app; simpl; lia). by rewrite drop_app_length.
Qed.

Lemma lookupIPAddr_wanted `{NetIP, Resolver} network host ip :
  lookupIPAddr network host = Ok ip ->
  host = [] /\ ip = IPAddr0 \/ exists ips, candidates network host ips /\ head (wanted network ips) = Some ip.
Proof.
  unfold lookupIPAddr. destruct (Z.eqb_spec (len host) 0) as [Hl|_].
  { intros [= <-]. left. by destruct host. }
  set (az := match last_byte 37 host with Some i => _ | None => _ end).
  assert (host = az.1 /\ az.2 = [] \/ host = az.1 ++ [37] ++ az.2) as Haz.
  { unfold az. destruct (last_byte 37 host) as [i|] eqn:E; [right; by apply last_byte_split|by left]. }
  destruct az as [address zone]. cbn [fst snd] in Haz. destruct (ParseIP address) as [lit|] eqn:Ep.
  - rewrite selectIPAddr_wanted. destruct (head _) as [a|] eqn:Eh; [|done]. intros [= <-]. right.
    exists [MkIPAddr lit zone]. split; [left; by exists address, zone, lit|done].
  - destruct (LookupIP network host) as [l|] eqn:El; [|done]. rewrite selectIPAddr_wanted. destruct (head _) as [a|] eqn:Eh; [|done].
    intros [= <-]. right. eexists. split; [right; by exists l|done].
Qed.

(** An address that is resolved for "udp4" is an IPv4 address and one for "udp6" an IPv6 address; for "udp" it is an IPv6 address
    only when the name has no IPv4 address at all.  It is the host when that is a literal, or else one of the resolver's
    answers; only an empty host gives no address.  No other network is accepted. *)
Theorem resolved_family `{NetIP, Resolver} (network address : bytes) (ip : IPAddr) (port : Z) :
  ResolveUDPAddr network address = Ok (ip, port) ->
  (network = [] \/ network = string_bytes "udp" \/ network = string_bytes "udp4" \/ network = string_bytes "udp6") /\
  (ip = IPAddr0 \/ exists host portText ipNetwork ips,
     SplitHostPort address = Ok (host, portText) /\ candidates ipNetwork host ips /\ ip ∈ ips /\
     (is_v4 ip = true \/ is_v6 ip = true) /\
     (network = string_bytes "udp4" -> is_v4 ip = true) /\ (network = string_bytes "udp6" -> is_v6 ip = true) /\
     (network = [] \/ network = string_bytes "udp" -> is_v6 ip = true -> Forall (fun a => is_v4 a = false) ips)).
Proof.
  unfold ResolveUDPAddr, resolveTransportNetwork. intros Hr.
  assert (exists n, (network = [] /\ n = string_bytes "udp" \/ network = n) /\
    (n = string_bytes "udp" \/ n = string_bytes "udp4" \/ n = string_bytes "udp6") /\ resolveHostPort n address = Ok (ip, port))
    as (n & Hn & Hu & Hp).
  { destruct (Z.eqb_spec (len network) 0) as [Hl|_]; [exists (string_bytes "udp"); destruct network; [naive_solver|done]|].
    case_bool_decide as Hb; [|done]. exists network. naive_solver. }
  assert (network = [] \/ network = string_bytes "udp" \/ network = string_bytes "udp4" \/ network = string_bytes "udp6") as Hnet
    by naive_solver.
  split; [done|]. clear Hr. unfold resolveHostPort in Hp. destruct (len address =? 0); [left; by injection Hp as <- _|].
  destruct (SplitHostPort address) as [[host portText]|e|] eqn:Es; [|done|done]. destruct (LookupPort n portText); [|done].
  set (nw := if HasSuffix n (string_bytes "4") then _ else _) in Hp.
  destruct (lookupIPAddr nw host) as [a|e|] eqn:El; [|done|done]. injection Hp as -> _.
  destruct (lookupIPAddr_wanted _ _ _ El) as [[_ ->]|(ips & Hc & Hh)]; [by left|]. right. exists host, portText, nw, ips.
  destruct (wanted_family _ _ _ Hh) as (Hin & H46 & H4 & H6 & Hany). split; [done|]. split; [done|]. split; [done|]. split; [done|].
  assert (forall (a b : bytes), a = b -> bool_decide (a = b) = true) as Heq by (intros; by apply bool_decide_eq_true).
  destruct Hu as [-> | [-> | ->]]; subst nw; (split; [|split]);
    (destruct Hn as [[-> Hn]| ->]; try (by vm_compute in Hn); intros Hx; try (by vm_compute in Hx));
    try (by destruct Hx as [Hx|Hx]; vm_compute in Hx); auto.
Qed.

(** A resolver that answers every name with an IPv6 and an IPv4 address, and a parser that knows no literal. *)
Definition demo_ip : NetIP := {| IP_String := fun ip => ip; ParseIP := fun _ => None |}.
Definition demo_v6 : bytes := replicate 16 1.
Definition demo_resolver : Resolver :=
  {| LookupPort := fun _ _ => Some 53; LookupIP := fun _ _ => Some [demo_v6; [9; 9; 9; 9]]; valid_ip_network := fun _ => true |}.

Lemma resolved_family_witness :
  let resolve n := @ResolveUDPAddr demo_ip demo_resolver (string_bytes n) (string_bytes "host:domain") in
  resolve "udp" = Ok (MkIPAddr [9; 9; 9; 9] [], 53) /\ resolve "udp6" = Ok (MkIPAddr demo_v6 [], 53) /\
  resolve "tcp" = Err ErrUnknownNetwork /\ is_v6 (MkIPAddr demo_v6 []) = true.
Proof.
  intros resolve. split; [by vm_compute|]. assert (resolve "udp6" = Ok (MkIPAddr demo_v6 [], 53)) as E by (by vm_compute).
  split; [exact E|]. split; [by vm_compute|].
  destruct (@resolved_family demo_ip demo_resolver (string_bytes "udp6") _ _ _ E) as [_ [Hn|Hn]]; [by vm_compute in Hn|].
  destruct Hn as (_ & _ & _ & _ & _ & _ & _ & _ & _ & H6 & _). by apply H6.
Defined.
