(* ===== verification/Redact.v ===== *)
(** * Redact: error texts without credentials (internal/protect/protect.go: StatusError)

    The body of an error response is cut, trimmed and freed of token-like values by two regular expressions.  The
    expressions are deterministic at every position, so a match is a parser over the bytes: it returns what is left after the
    part that is kept and after the value that is replaced.  Case folding follows package regexp: the long s (U+017F) and the
    Kelvin sign (U+212A) count as letters. *)

From S2P Require Import Prelude Bytes Text Socks SessionConfig ConfigFile NetAddr IceServers.

(** ** Regular expressions *)

Definition re : Type := bytes -> option bytes.

(** One letter, given in lower case, whatever its case. *)
Definition re_letter (c : Z) : re := fun l =>
  match l with
  | [] => None
  | b :: l' =>
      if (b =? c) || (b =? c - 32) then Some l'
      else if (c =? 115) && HasPrefix l [197; 191] then Some (drop 2 l)
      else if (c =? 107) && HasPrefix l [226; 132; 170] then Some (drop 3 l)
      else None
  end.

Fixpoint re_word (w : bytes) : re := fun l => match w with [] => Some l | c :: w => re_letter c l ≫= re_word w end.

(** One byte of a class, at most one, and as many as there are. *)
Definition re_one (f : Z -> bool) : re := fun l => match l with b :: l => if f b then Some l else None | [] => None end.
Definition re_opt (f : Z -> bool) (l : bytes) : bytes := match l with b :: l' => if f b then l' else l | [] => [] end.
Fixpoint re_star (f : Z -> bool) (l : bytes) : bytes :=
  match l with b :: l' => if f b then re_star f l' else l | [] => [] end.

Definition re_or (f g : re) : re := fun l => match f l with Some r => Some r | None => g l end.

(** The class [\s], the quote, and the separators. *)
Definition re_space (b : Z) : bool := bool_decide (b ∈ [9; 10; 12; 13; 32]).
Definition re_quote (b : Z) : bool := b =? 34.
Definition re_separator (b : Z) : bool := (b =? 58) || (b =? 61).
Definition re_dash (b : Z) : bool := (b =? 95) || (b =? 45).

(** A match: what is left from the value on, and what is left after it. *)
Definition matcher : Type := bytes -> option (bytes * bytes).

Definition re_token : bytes := string_bytes "token".
Definition re_credentials : bytes := string_bytes "credentials".

(** The words have different first letters: at most one alternative can match. *)
Definition field_name : re :=
  re_or (fun l => re_word (string_bytes "access") l ≫= fun l => re_word re_token (re_opt re_dash l))
 (re_or (fun l => re_word (string_bytes "room") l ≫= fun l => re_word re_token (re_opt re_dash l))
 (re_or (re_word re_token) (re_word re_credentials))).

Definition field_key : re := fun l => l' ← field_name l; Some (re_star re_space (re_opt re_quote l')).

Definition field_value_byte (b : Z) : bool := negb (re_quote b || (b =? 44) || re_space b || (b =? 125)).

(* go: protect/protect.go 34-37 sensitiveFieldRE *)
Definition sensitiveFieldRE : matcher := fun l =>
  l ← field_key l;
  l ← re_one re_separator l;
  let value := re_opt re_quote (re_star re_space l) in
  rest ← re_one field_value_byte value;
  Some (value, re_star field_value_byte rest).

(** The class of a bearer token; folding adds the two letters. *)
Definition bearer_byte (b : Z) : bool :=
  ((65 <=? b) && (b <=? 90)) || ((97 <=? b) && (b <=? 122)) || ((48 <=? b) && (b <=? 57)) || bool_decide (b ∈ [46; 95; 126; 43; 47; 61; 45]).

Fixpoint bearer_run (l : bytes) : bytes :=
  match l with
  | 197 :: 191 :: l => bearer_run l
  | 226 :: 132 :: 170 :: l => bearer_run l
  | b :: l' => if bearer_byte b then bearer_run l' else l
  | [] => []
  end.

(* go: protect/protect.go 38-38 sensitiveBearerRE *)
Definition sensitiveBearerRE : matcher := fun l =>
  l ← re_word (string_bytes "bearer") l;
  l ← re_one re_space l;
  let value := re_star re_space l in
  let rest := bearer_run value in
  if (length rest =? length value)%nat then None else Some (value, rest).

Definition redacted : bytes := string_bytes "<redacted>".

(** [ReplaceAllString] with the first group and the mark; [n] bounds the length of the text. *)
Fixpoint replace_n (m : matcher) (n : nat) (l : bytes) : bytes :=
  match n with
  | O => l
  | S n =>
      match m l with
      | Some (value, rest) => take (length l - length value) l ++ redacted ++ replace_n m n rest
      | None => match l with b :: l => b :: replace_n m n l | [] => [] end
      end
  end.

Definition ReplaceAll (m : matcher) (l : bytes) : bytes := replace_n m (length l) l.

(* go: protect/protect.go 244-248 redactSensitive *)
Definition redactSensitive (text : bytes) : bytes := ReplaceAll sensitiveFieldRE (ReplaceAll sensitiveBearerRE text).

(* go: protect/protect.go 29-29 defaultStatusBodyLimit *)
Definition defaultStatusBodyLimit : Z := 1024.

(** The text after "status n", absent when the body is empty. *)
(* go: protect/protect.go 231-242 StatusError *)
Definition StatusError (status : Z) (body : bytes) (limit : Z) : Z * option bytes :=
  let limit := if limit <=? 0 then defaultStatusBodyLimit else limit in
  let bodyText := redactSensitive (trim_bytes (take (Z.to_nat limit) body)) in
  (status, if len bodyText =? 0 then None else Some bodyText).

Definition redact_text (s : string) : string := bytes_string (redactSensitive (string_bytes s)).

Example redact_values :
  redact_text "{'ACCESS_token':abc, x}" = "{'ACCESS_token':abc, x}" /\
  redact_text "room-Token = abc.def;z }" = "room-Token = <redacted> }" /\
  redact_text "Authorization: Bearer  a.b-c, credentials:x,y" = "Authorization: Bearer  <redacted>, credentials:<redacted>,y" /\
  redact_text "tokentoken=a token" = "tokentoken=<redacted> token" /\ redact_text "token: Bearer abc" = "token: <redacted> <redacted>".
Proof. by vm_compute. Qed.

(** What gets through: a key in escaped quotes, a value with a separator before a blank, and a value with a comma. *)
Example redact_gaps :
  redactSensitive (string_bytes "token\" ++ [34] ++ string_bytes ":secret") = string_bytes "token\" ++ [34] ++ string_bytes ":secret" /\
  redact_text "credentials=token: secret" = "credentials=<redacted> secret" /\ redact_text "token=ab,secret" = "token=<redacted>,secret".
Proof. by vm_compute. Qed.

(** ** What is proved of the redaction *)

(** The replacement does not depend on the bound once it covers the text. *)
Definition shrinks (m : matcher) : Prop := forall l v rest, m l = Some (v, rest) -> (length rest < length l)%nat.

Lemma replace_n_enough m n l : shrinks m -> (length l <= n)%nat -> replace_n m n l = ReplaceAll m l.
Proof.
  intros Hm. unfold ReplaceAll. assert (forall k n n' l, (length l <= k)%nat -> (length l <= n)%nat -> (length l <= n')%nat ->
    replace_n m n l = replace_n m n' l) as H; [|intros; apply (H (length l)); lia].
  intros k. induction k as [|k IH]; intros i j t Hk Hi Hj.
  - destruct t; [|simpl in Hk; lia]. assert (forall n, replace_n m n [] = []) as He; [|by rewrite !He].
    intros [|x]; [done|]. simpl. destruct (m []) as [[v r]|] eqn:E; [|done]. apply Hm in E. simpl in E. lia.
  - destruct t as [|b t]; [apply IH; simpl; lia|]. destruct i as [|i]; [simpl in Hi; lia|]. destruct j as [|j]; [simpl in Hj; lia|].
    cbn [replace_n]. simpl in Hk, Hi, Hj. destruct (m (b :: t)) as [[v r]|] eqn:E.
    + apply Hm in E. simpl in E. do 2 f_equal. apply IH; lia.
    + f_equal. apply IH; lia.
Qed.

Lemma ReplaceAll_match m l v rest :
  shrinks m -> m l = Some (v, rest) -> ReplaceAll m l = take (length l - length v) l ++ redacted ++ ReplaceAll m rest.
Proof.
  intros Hm E. pose proof (Hm _ _ _ E) as Hl. destruct l as [|b l]; [simpl in Hl; lia|]. unfold ReplaceAll at 1. cbn [length replace_n].
  rewrite E. rewrite (replace_n_enough m _ rest Hm); [done|]. simpl in Hl. lia.
Qed.

Lemma ReplaceAll_skip m b l : shrinks m -> m (b :: l) = None -> ReplaceAll m (b :: l) = b :: ReplaceAll m l.
Proof. intros Hm E. unfold ReplaceAll at 1. cbn [length replace_n]. by rewrite E. Qed.

(** *** Parsers in front of a separator *)

Section local.
Context (sep : Z) (Hsep : re_separator sep = true).

Local Lemma sep_cases : sep = 58 \/ sep = 61.
Proof. unfold re_separator in Hsep. lia. Qed.

(** A parser that does not look past the separator. *)
Definition local (f : re) : Prop := forall s,
  (exists s', s' `suffix_of` s /\ forall r, f (s ++ sep :: r) = Some (s' ++ sep :: r)) \/ (forall r, f (s ++ sep :: r) = None).

Lemma local_bind f g : local f -> local g -> local (fun l => f l ≫= g).
Proof.
  intros Hf Hg s. destruct (Hf s) as [(s' & Hs & E)|E]; [|right; intros r; by rewrite E].
  destruct (Hg s') as [(s'' & Hs' & E')|E']; [left|right]; [exists s''; split; [by etransitivity|]|]; intros r; rewrite E; simpl; apply E'.
Qed.

Lemma local_or f g : local f -> local g -> local (re_or f g).
Proof.
  intros Hf Hg s. unfold re_or. destruct (Hf s) as [(s' & Hs & E)|E]; [left; exists s'; split; [done|]; intros r; by rewrite E|].
  destruct (Hg s) as [(s' & Hs & E')|E']; [left; exists s'; split; [done|]|right]; intros r; by rewrite E, E'.
Qed.

Lemma local_letter c : 97 <= c -> local (re_letter c).
Proof.
  intros Hc s. pose proof sep_cases as Hs.
  assert (forall x, 97 <= x -> (sep =? x) = false) as Hne by (intros; lia).
  destruct s as [|b s].
  { right. intros r. cbn -[Z.eqb Z.sub]. rewrite (Hne c), (proj2 (Z.eqb_neq sep (c - 32))), !Hne by lia. simpl. by rewrite !andb_false_r. }
  assert (forall n, (n <= length s)%nat -> drop n s `suffix_of` b :: s) as Hsuf
    by (intros n Hn; exists (b :: take n s); by rewrite <- app_comm_cons, take_drop).
  cbn -[Z.eqb Z.sub]. destruct ((b =? c) || (b =? c - 32)); [left; exists s; split; [by apply suffix_cons_r|done]|].
  destruct s as [|b2 s]; simpl; [right; intros r; rewrite !Hne by lia; simpl; by rewrite !andb_false_r|].
  assert (forall l, HasPrefix l [] = true) as Hnil by (by intros []). setoid_rewrite Hnil.
  destruct ((c =? 115) && _); [left; exists s; split; [apply (Hsuf 1%nat); simpl; lia|done]|].
  destruct s as [|b3 s]; simpl; [right; intros r; rewrite !Hne by lia; simpl; by rewrite !andb_false_r|].
  setoid_rewrite Hnil. destruct ((c =? 107) && _); [left; exists s; split; [apply (Hsuf 2%nat); simpl; lia|done]|by right].
Qed.

Lemma local_word w : Forall (fun c => 97 <= c) w -> local (re_word w).
Proof.
  induction 1 as [|c w Hc Hw IH]; [intros s; left; by exists s|]. by apply (local_bind (re_letter c) (re_word w) (local_letter c Hc)).
Qed.

Lemma local_opt f : f sep = false -> local (fun l => Some (re_opt f l)).
Proof.
  intros Hf s. left. destruct s as [|b s]; simpl; [exists []; split; [done|]; intros r; by rewrite Hf|].
  destruct (f b); [exists s|exists (b :: s)]; (split; [|done]); [by apply suffix_cons_r|done].
Qed.

Lemma local_star f : f sep = false -> local (fun l => Some (re_star f l)).
Proof.
  intros Hf s. left. induction s as [|b s IH]; simpl; [exists []; split; [done|]; intros r; by rewrite Hf|].
  destruct (f b); [|exists (b :: s); done]. destruct IH as (s' & Hs & E). exists s'. split; [by apply suffix_cons_r|done].
Qed.

Lemma separator_not b : b = sep -> re_space b = false /\ re_quote b = false /\ re_dash b = false /\ field_value_byte b = true.
Proof. intros ->. by destruct sep_cases as [-> | ->]. Qed.

Lemma local_key : local field_key.
Proof.
  destruct (separator_not sep eq_refl) as (Hs & Hq & Hd & _).
  assert (local (fun l => re_word re_token (re_opt re_dash l))) as Ht.
  { apply (local_bind (fun l => Some (re_opt re_dash l)) (re_word re_token)); [by apply local_opt|].
    apply local_word. by repeat constructor. }
  apply (local_bind field_name (fun l => Some (re_star re_space (re_opt re_quote l)))).
  - apply local_or; [|apply local_or; [|apply local_or]]; try (apply local_word; by repeat constructor);
      (apply local_bind; [|exact Ht]); apply local_word; by repeat constructor.
  - apply (local_bind (fun l => Some (re_opt re_quote l)) (fun l => Some (re_star re_space l))); [by apply local_opt|by apply local_star].
Qed.

Lemma local_open : local (fun l => Some (re_opt re_quote (re_star re_space l))).
Proof.
  destruct (separator_not sep eq_refl) as (Hs & Hq & _).
  apply (local_bind (fun l => Some (re_star re_space l)) (fun l => Some (re_opt re_quote l))); [by apply local_star|by apply local_opt].
Qed.

End local.

(** *** One value of a field *)

(** A value, and a text at which a value ends. *)
Definition is_value (v : bytes) : Prop := v <> [] /\ Forall (fun b => field_value_byte b = true) v.
Definition at_end (q : bytes) : Prop := match q with [] => True | b :: _ => field_value_byte b = false end.

Lemma value_run v q : Forall (fun b => field_value_byte b = true) v -> at_end q -> re_star field_value_byte (v ++ q) = q.
Proof.
  induction 1 as [|b v Hb Hv IH]; simpl; intros Hq; [destruct q as [|b q]; [done|]; simpl in *; by rewrite Hq|]. rewrite Hb. by apply IH.
Qed.

Lemma value_byte_not b : field_value_byte b = true -> re_space b = false /\ re_quote b = false.
Proof. unfold field_value_byte. destruct (re_quote b), (re_space b); simpl; try done; by rewrite ?orb_true_r. Qed.

(** The value stands right after the separator. *)
Lemma value_direct v q :
  is_value v -> at_end q -> re_opt re_quote (re_star re_space (v ++ q)) = v ++ q /\
  exists r, re_one field_value_byte (v ++ q) = Some r /\ re_star field_value_byte r = q.
Proof.
  intros [Hne Hv] Hq. destruct v as [|b v]; [done|]. apply Forall_cons in Hv as [Hb Hv]. destruct (value_byte_not b Hb) as [Hs Hqu].
  simpl. rewrite Hs. simpl. rewrite Hqu, Hb. split; [done|]. eexists. split; [done|by apply value_run].
Qed.

(** A text either has a byte that ends a value or is one. *)
Lemma value_over s :
  (exists w p, s = w ++ p /\ Forall (fun b => field_value_byte b = true) w /\ p <> [] /\ at_end p) \/
  Forall (fun b => field_value_byte b = true) s.
Proof.
  induction s as [|b s IH]; [right; constructor|]. destruct (field_value_byte b) eqn:Hb.
  - destruct IH as [(w & p & -> & Hw & Hp & He)|IH]; [left; exists (b :: w), p|right]; by repeat constructor.
  - left. by exists [], (b :: s).
Qed.

(** A key: the expression's part before the separator takes it whole. *)
Definition is_key (key : bytes) : Prop :=
  (forall sep r, re_separator sep = true -> field_key (key ++ sep :: r) = Some (sep :: r)) /\
  Forall (fun b => field_value_byte b = true) key.

Lemma is_key_separator sep r : re_separator sep = true -> re_star re_space (re_opt re_quote (sep :: r)) = sep :: r.
Proof. intros Hs. destruct (separator_not sep Hs sep eq_refl) as (H1 & H2 & _). simpl. rewrite H2. simpl. by rewrite H1. Qed.

Lemma is_key_intro key :
  (forall l, field_name (key ++ l) = Some l) -> Forall (fun b => field_value_byte b = true) key -> is_key key.
Proof. intros Hn Hv. split; [|done]. intros sep r Hs. unfold field_key. rewrite Hn. cbn [mbind option_bind]. by rewrite is_key_separator. Qed.

Lemma suffix_at_end p key t : Forall (fun b => field_value_byte b = true) key -> t <> [] -> at_end t ->
  t `suffix_of` p ++ key -> exists p2, t = p2 ++ key /\ p2 `suffix_of` p.
Proof.
  intros Hk Hne He [k Hk']. destruct (app_eq_inv _ _ _ _ Hk') as [(d & -> & ->)|(d & -> & ->)]; [exists d; split; [done|by exists k]|].
  destruct t as [|b t]; [done|]. simpl in He. apply Forall_app in Hk as [_ Hk]. apply Forall_cons in Hk as [Hb _]. congruence.
Qed.

(** The text from a field on: [key], the separator, the value. *)
Definition field_text (key : bytes) (sep : Z) (v q : bytes) : bytes := key ++ sep :: v ++ q.

(** A match that starts at or before a field ends before it or takes the value along; which of them, and where, does
    not depend on the value. *)
Lemma match_shape p key sep q :
  re_separator sep = true -> is_key key -> at_end q ->
  (forall v, is_value v -> sensitiveFieldRE (p ++ field_text key sep v q) = None) \/
  (exists g w p2, p = g ++ w ++ p2 /\ w <> [] /\ forall v, is_value v ->
     sensitiveFieldRE (p ++ field_text key sep v q) = Some (w ++ p2 ++ field_text key sep v q, p2 ++ field_text key sep v q)) \/
  (exists g h, p ++ key ++ [sep] = g ++ h /\ forall v, is_value v ->
     sensitiveFieldRE (p ++ field_text key sep v q) = Some (h ++ v ++ q, q)).
Proof.
  intros Hsep [_ Hkey] Hq. unfold field_text, sensitiveFieldRE.
  destruct (local_key sep Hsep (p ++ key)) as [(s1 & [k1 Es1] & E1)|E1].
  2: { left. intros v _. by rewrite app_assoc, E1. }
  destruct s1 as [|b s1].
  { right. right. exists (p ++ key ++ [sep]), []. split; [by rewrite app_nil_r|]. intros v Hv. rewrite app_assoc, E1. simpl.
    rewrite Hsep. simpl. destruct (value_direct v q Hv Hq) as (-> & r & -> & <-). done. }
  destruct (re_separator b) eqn:Hb.
  2: { left. intros v _. rewrite app_assoc, E1. simpl. by rewrite Hb. }
  destruct (local_open sep Hsep s1) as [(s2 & [k2 Es2] & E2)|E2]; [|by specialize (E2 [])].
  assert (forall v, (p ++ key ++ sep :: v ++ q) = (p ++ key) ++ sep :: v ++ q) as Ha by (intros; by rewrite app_assoc).
  assert (exists k, p ++ key = k ++ s2) as [k Ek] by (exists (k1 ++ [b] ++ k2); rewrite Es1, Es2, <- !app_assoc; done).
  destruct (value_over s2) as [(w & t & -> & Hw & Hne & He)|Hall].
  - destruct (suffix_at_end p key t Hkey Hne He) as (p2 & -> & [g Hg]).
    { exists (k ++ w). by rewrite Ek, <- app_assoc. }
    destruct w as [|c w].
    + left. intros v _. rewrite Ha, E1. simpl. rewrite Hb. simpl. specialize (E2 (v ++ q)). injection E2 as ->. simpl.
      destruct (p2 ++ key) as [|x t]; [done|]. simpl in He |- *. by rewrite He.
    + right. left. exists k, (c :: w), p2. apply Forall_cons in Hw as [Hc Hw]. split; [|split; [done|]].
      { rewrite app_assoc in Ek. rewrite app_assoc in Ek. apply app_inj_2 in Ek as [-> _]; [by rewrite app_assoc|done]. }
      intros v _. rewrite Ha, E1. simpl. rewrite Hb. simpl. specialize (E2 (v ++ q)). injection E2 as ->. simpl. rewrite Hc. simpl.
      rewrite <- !app_assoc. simpl. rewrite (value_run w (p2 ++ key ++ sep :: v ++ q)); [done|done|].
      rewrite app_assoc. by destruct (p2 ++ key).
  - right. right. exists k, (s2 ++ [sep]). split; [by rewrite !app_assoc, Ek|]. intros v [Hvn Hv]. rewrite Ha, E1. simpl. rewrite Hb. simpl.
    specialize (E2 (v ++ q)). injection E2 as ->. rewrite <- app_assoc. simpl.
    assert (Forall (fun b => field_value_byte b = true) (s2 ++ sep :: v)) as Hf.
    { apply Forall_app. split; [done|]. constructor; [|done]. by apply (separator_not sep Hsep). }
    replace (s2 ++ sep :: v ++ q) with ((s2 ++ sep :: v) ++ q) by (by rewrite <- app_assoc).
    destruct (s2 ++ sep :: v) as [|x t] eqn:Ex; [by destruct s2|]. apply Forall_cons in Hf as [Hx Ht]. simpl. rewrite Hx. simpl.
    by rewrite value_run.
Qed.


(** *** Progress *)

Definition shortens (f : re) : Prop := forall l r, f l = Some r -> (length r <= length l)%nat.

Lemma shortens_bind f g : shortens f -> shortens g -> shortens (fun l => f l ≫= g).
Proof. intros Hf Hg l r. destruct (f l) as [l'|] eqn:E; [|done]. simpl. intros H%Hg. apply Hf in E. lia. Qed.

Lemma shortens_or f g : shortens f -> shortens g -> shortens (re_or f g).
Proof. intros Hf Hg l r. unfold re_or. destruct (f l) as [l'|] eqn:E; [intros [= ->]; by apply Hf|apply Hg]. Qed.

Lemma shortens_word w : shortens (re_word w).
Proof.
  induction w as [|c w IH]; [intros l r [= ->]; done|]. apply (shortens_bind (re_letter c)); [|done]. intros [|b l] r; [done|].
  cbn -[drop HasPrefix Z.sub]. destruct (_ || _); [intros [= ->]; lia|]. destruct (_ && _); [|destruct (_ && _); [|done]];
    intros [= <-]; rewrite length_drop; simpl; lia.
Qed.

Lemma shortens_opt f : shortens (fun l => Some (re_opt f l)).
Proof. intros [|b l] r [= <-]; simpl; [done|]. destruct (f b); simpl; lia. Qed.

Lemma shortens_star f : shortens (fun l => Some (re_star f l)).
Proof. intros l r [= <-]. induction l as [|b l IH]; simpl; [done|]. destruct (f b); simpl; lia. Qed.

Lemma shortens_key : shortens field_key.
Proof.
  assert (shortens (fun l => re_word re_token (re_opt re_dash l))) as Ht
    by (apply (shortens_bind _ (re_word re_token) (shortens_opt re_dash)), shortens_word).
  apply (shortens_bind field_name (fun l => Some (re_star re_space (re_opt re_quote l)))).
  - apply shortens_or; [|apply shortens_or; [|apply shortens_or]]; try apply shortens_word; apply shortens_bind; [|done| |done]; apply shortens_word.
  - apply (shortens_bind _ (fun l => Some (re_star re_space l)) (shortens_opt re_quote)), shortens_star.
Qed.

Lemma field_shrinks : shrinks sensitiveFieldRE.
Proof.
  intros l v rest. unfold sensitiveFieldRE. destruct (field_key l) as [l1|] eqn:E1; [|done]. simpl.
  destruct (re_one re_separator l1) as [l2|] eqn:E2; [|done]. simpl.
  destruct (re_one field_value_byte _) as [r|] eqn:E3; [|done]. simpl. intros [= <- <-].
  apply shortens_key in E1. assert (forall f x y, re_one f x = Some y -> (length y < length x)%nat) as Hone.
  { intros f [|b x] y; simpl; [done|]. destruct (f b); [intros [= ->]; lia|done]. }
  apply Hone in E2, E3. pose proof (shortens_star field_value_byte r _ eq_refl) as H1.
  pose proof (shortens_opt re_quote (re_star re_space l2) _ eq_refl) as H2. pose proof (shortens_star re_space l2 _ eq_refl) as H3.
  simpl in *. lia.
Qed.

Lemma take_front (g x : bytes) : take (length (g ++ x) - length x) (g ++ x) = g.
Proof. apply take_app_length'. rewrite length_app. lia. Qed.

(** *** The theorem *)

(** Which value a field has cannot be told from the redacted text: wherever a key with its separator stands in a text, in any
    letter case and whatever surrounds it, the text is the same after the replacement for all values that run up to the
    same end. *)
Theorem field_value_hidden (p key : bytes) (sep : Z) (v v' q : bytes) :
  re_separator sep = true -> is_key key -> at_end q -> is_value v -> is_value v' ->
  ReplaceAll sensitiveFieldRE (p ++ key ++ [sep] ++ v ++ q) = ReplaceAll sensitiveFieldRE (p ++ key ++ [sep] ++ v' ++ q).
Proof.
  intros Hsep Hkey Hq Hv Hv'. change (ReplaceAll sensitiveFieldRE (p ++ field_text key sep v q) = ReplaceAll sensitiveFieldRE (p ++ field_text key sep v' q)).
  assert (forall n p, (length p <= n)%nat ->
    ReplaceAll sensitiveFieldRE (p ++ field_text key sep v q) = ReplaceAll sensitiveFieldRE (p ++ field_text key sep v' q)) as H;
    [|by apply (H (length p))].
  clear p. intros n. induction n as [n IH] using lt_wf_ind. intros p Hn.
  pose proof (fun l w r => ReplaceAll_match sensitiveFieldRE l w r field_shrinks) as Hrep.
  destruct (match_shape p key sep q Hsep Hkey Hq) as [E|[(g & w & p2 & -> & Hw & E)|(g & h & Eg & E)]].
  - destruct p as [|b p].
    + destruct Hkey as [Hk _]. specialize (E v Hv). unfold sensitiveFieldRE, field_text in E. simpl in E. rewrite Hk in E by done.
      simpl in E. rewrite Hsep in E. simpl in E. by destruct (value_direct v q Hv Hq) as (Ev & r & Er & _); rewrite Ev, Er in E.
    + rewrite <- !app_comm_cons, !ReplaceAll_skip; try apply field_shrinks; try (by apply E). f_equal. simpl in Hn. apply (IH (length p)); lia.
  - rewrite (Hrep _ _ _ (E v Hv)), (Hrep _ _ _ (E v' Hv')). rewrite <- !app_assoc, !take_front. do 2 f_equal.
    assert (0 < length w)%nat by (destruct w; [done|simpl; lia]). rewrite !length_app in Hn. apply (IH (length p2)); lia.
  - rewrite (Hrep _ _ _ (E v Hv)), (Hrep _ _ _ (E v' Hv')).
    assert (forall x, p ++ field_text key sep x q = g ++ h ++ x ++ q) as Et.
    { intros x. unfold field_text. rewrite (app_assoc g h), <- Eg, <- !app_assoc. done. }
    by rewrite !Et, !take_front.
Qed.

Example redact_keys :
  is_key (string_bytes "token") /\ is_key (string_bytes "Access-Token") /\ is_key (string_bytes "ROOM_TOKEN") /\
  is_key (string_bytes "credentials").
Proof. repeat split; try (intros; apply is_key_intro; by repeat constructor); by repeat constructor. Qed.

Lemma field_value_hidden_witness :
  ReplaceAll sensitiveFieldRE (string_bytes "GET /x?room_" ++ re_token ++ [61] ++ string_bytes "abc" ++ string_bytes " 401") =
  ReplaceAll sensitiveFieldRE (string_bytes "GET /x?room_" ++ re_token ++ [61] ++ string_bytes "x.y.z" ++ string_bytes " 401").
Proof.
  apply (field_value_hidden _ re_token 61); [done|apply is_key_intro; [done|by repeat constructor]|done|..]; (split; [done|by repeat constructor]).
Defined.
