(* ===== verification/JitsiRun.v ===== *)
(** * JitsiRun: the life cycle of a Jitsi session
    (internal/engine/jitsi: jitsi.go, reconnect.go, negotiate.go)

    XMPP sessions (library j) and peer connections (pion) are numbered as they are made; the state says
    which the session points to and which are open.  The thread that connects and reconnects, the goroutines that
    wait for Jicofo and the caller of [Close] are lists of operations still to do, one per
    access to shared state; the answer of a library comes with the step.  The session is one that
    carries data or video, so that it always negotiates a peer connection.  The epochs and the
    frames of the bridge are in JitsiBridge. *)

From S2P Require Import Prelude Bytes Text ConfigFile IceServers.

(** ** Operations *)

(** Where a failed operation leads: a full reconnect, out of the function, parking the joined
    session until a peer comes, or closing it and out. *)
Inductive on_fail := ToFull | ToReturn | ToPark | ToDiscard.

Inductive jinstr :=
| JGuard
| JEnter
| JTeardown
| JDrop
| JJoin (f : on_fail)
| JStore
| JCheck1
| JSwap
| JCheck2
| JWait (f : on_fail)
| JBridge (f : on_fail)
| JNew (f : on_fail)
| JPrepare (f : on_fail)
| JInstall
| JDiscard
| JJingle
| JFinish
| KMark
| KLoadX
| KTakePc
| KClosePc
| KCloseX
| KDropX
| KStop.

(** ** Programs *)

(** [installSession]: the check before, the store, the check after. *)
(* go: engine/jitsi/reconnect.go 171-193 installSession *)
Definition install : list jinstr := [JCheck1; JSwap; JCheck2].

(* go: engine/jitsi/negotiate.go 145-171 negotiatePC *)
Definition negotiatePC (f : on_fail) : list jinstr := [JNew f; JPrepare f; JInstall].

(** The bridge opens before the peer connection over a WebSocket and after it over SCTP. *)
(* go: engine/jitsi/negotiate.go 46-80 completeJingleSetup *)
Definition completeJingleSetup (f : on_fail) : list jinstr := [JBridge f] ++ negotiatePC f ++ [JBridge f].

(* go: engine/jitsi/jitsi.go 184-211 Connect *)
Definition jitsi_Connect : list jinstr := [JGuard; JJoin ToReturn; JStore; JJingle].

(* go: engine/jitsi/reconnect.go 123-169 reconnectFull *)
Definition reconnectFull : list jinstr :=
  [JDrop; JJoin ToReturn; JWait ToPark] ++ completeJingleSetup ToDiscard ++ install ++ [JFinish].

(* go: engine/jitsi/reconnect.go 99-121 reinitiateBridge *)
Definition reinitiateBridge : list jinstr := negotiatePC ToFull ++ [JBridge ToFull].

(* go: engine/jitsi/reconnect.go 40-97 reconnect *)
Definition jitsi_reconnect_prog : list jinstr :=
  [JGuard; JEnter; JTeardown; JDrop; JJoin ToFull] ++ install ++ [JWait ToFull] ++ reinitiateBridge ++ [JFinish].

(* go: engine/jitsi/negotiate.go 20-44 waitForJingle *)
Definition waitForJingle : list jinstr := [JWait ToReturn] ++ completeJingleSetup ToReturn.

(* go: engine/jitsi/jitsi.go 213-256 Close *)
Definition jitsi_Close_prog : list jinstr := [KMark; KLoadX; KTakePc; KClosePc; KCloseX; KDropX; KStop].

Definition fail_prog (f : on_fail) : list jinstr :=
  match f with
  | ToFull => reconnectFull
  | ToReturn => []
  | ToPark => install ++ [JJingle]
  | ToDiscard => [JDiscard]
  end.

(** ** State *)

(** [jsMine] and [jsMyPc] are what the connecting thread has made and not yet handed over; [jsTakenX] and
    [jsTakenPc] what [Close] has read; a waiting goroutine carries the peer connection it negotiates.
    [jsOverlap] records that [Close] began during a [Connect] or reconnect. *)
(* go: engine/jitsi/jitsi.go 52-101 Session *)
Record jsession := MkJs {
  jsClosed : bool;
  jsReconnecting : bool;
  jsGoClosed : bool;
  jsX : option nat;
  jsPc : option nat;
  jsOpenX : gset nat;
  jsOpenPc : gset nat;
  jsNext : nat;
  jsConn : option (list jinstr);
  jsMine : option nat;
  jsMyPc : option nat;
  jsJingles : list (list jinstr * option nat);
  jsClose : option (list jinstr);
  jsTakenX : option nat;
  jsTakenPc : option nat;
  jsOverlap : bool;
}.

Definition jitsi_new : jsession :=
  MkJs false false false None None ∅ ∅ 0 None None None [] None None None false.

Definition close_id (o : option nat) (g : gset nat) : gset nat := match o with Some n => g ∖ {[n]} | None => g end.

(** Field updates. *)
Definition put_conn (s : jsession) (r : list jinstr) : jsession :=
  MkJs (jsClosed s) (jsReconnecting s) (jsGoClosed s) (jsX s) (jsPc s) (jsOpenX s) (jsOpenPc s) (jsNext s) (Some r)
    (jsMine s) (jsMyPc s) (jsJingles s) (jsClose s) (jsTakenX s) (jsTakenPc s) (jsOverlap s).
Definition put_reconnecting (s : jsession) (b : bool) : jsession :=
  MkJs (jsClosed s) b (jsGoClosed s) (jsX s) (jsPc s) (jsOpenX s) (jsOpenPc s) (jsNext s) (jsConn s)
    (jsMine s) (jsMyPc s) (jsJingles s) (jsClose s) (jsTakenX s) (jsTakenPc s) (jsOverlap s).
Definition put_x (s : jsession) (x : option nat) (o : gset nat) (mine : option nat) (next : nat) : jsession :=
  MkJs (jsClosed s) (jsReconnecting s) (jsGoClosed s) x (jsPc s) o (jsOpenPc s) next (jsConn s)
    mine (jsMyPc s) (jsJingles s) (jsClose s) (jsTakenX s) (jsTakenPc s) (jsOverlap s).
Definition put_pc (s : jsession) (p : option nat) (o : gset nat) (my : option nat) (next : nat) : jsession :=
  MkJs (jsClosed s) (jsReconnecting s) (jsGoClosed s) (jsX s) p (jsOpenX s) o next (jsConn s)
    (jsMine s) my (jsJingles s) (jsClose s) (jsTakenX s) (jsTakenPc s) (jsOverlap s).
Definition put_jingles (s : jsession) (l : list (list jinstr * option nat)) : jsession :=
  MkJs (jsClosed s) (jsReconnecting s) (jsGoClosed s) (jsX s) (jsPc s) (jsOpenX s) (jsOpenPc s) (jsNext s) (jsConn s)
    (jsMine s) (jsMyPc s) l (jsClose s) (jsTakenX s) (jsTakenPc s) (jsOverlap s).

(** ** Steps *)

(** Leaves the function. *)
Definition j_return (s : jsession) : jsession := put_conn (put_reconnecting s false) [].

(* go: engine/jitsi/jitsi.go 162-176 goLaunch *)
Definition launch_jingle (s : jsession) : jsession :=
  if jsGoClosed s then s else put_jingles s (jsJingles s ++ [(waitForJingle, None)]).

(* go: engine/jitsi/negotiate.go 364-384 teardownPC *)
Definition teardownPC (s : jsession) : jsession :=
  put_pc s None (close_id (jsPc s) (jsOpenPc s)) (jsMyPc s) (jsNext s).

(** [setJSession] with the old session closed. *)
Definition swap_x (s : jsession) (x mine : option nat) : jsession :=
  put_x s x (close_id (jsX s) (jsOpenX s)) mine (jsNext s).

Definition jconn_step (ok : bool) (s : jsession) : jsession :=
  match jsConn s with
  | Some (i :: rest) =>
      match i with
      | JGuard => if jsClosed s then j_return s else put_conn s rest
      | JEnter => put_conn (put_reconnecting s true) rest
      | JTeardown => put_conn (teardownPC s) rest
      | JDrop => put_conn (swap_x s None (jsMine s)) rest
      | JJoin f =>
          if ok then put_conn (put_x s (jsX s) ({[jsNext s]} ∪ jsOpenX s) (Some (jsNext s)) (S (jsNext s))) rest
          else put_conn s (fail_prog f)
      | JStore => put_conn (put_x s (jsMine s) (jsOpenX s) None (jsNext s)) rest
      | JCheck1 =>
          if jsClosed s then j_return (put_x s (jsX s) (close_id (jsMine s) (jsOpenX s)) None (jsNext s))
          else put_conn s rest
      | JSwap => put_conn (swap_x s (jsMine s) None) rest
      | JCheck2 => if jsClosed s then j_return (swap_x s None None) else put_conn s rest
      | JWait f | JBridge f => if ok then put_conn s rest else put_conn s (fail_prog f)
      | JNew f =>
          if ok then put_conn (put_pc s (jsPc s) ({[jsNext s]} ∪ jsOpenPc s) (Some (jsNext s)) (S (jsNext s))) rest
          else put_conn s (fail_prog f)
      | JPrepare f =>
          if ok then put_conn s rest
          else put_conn (put_pc s (jsPc s) (close_id (jsMyPc s) (jsOpenPc s)) None (jsNext s)) (fail_prog f)
      | JInstall => put_conn (put_pc s (jsMyPc s) (jsOpenPc s) None (jsNext s)) rest
      | JDiscard => j_return (put_x s (jsX s) (close_id (jsMine s) (jsOpenX s)) None (jsNext s))
      | JJingle => put_conn (launch_jingle s) rest
      | JFinish => j_return s
      | _ => put_conn s rest
      end
  | _ => s
  end.

(** A waiting goroutine; it negotiates with a register of its own and gives up on any failure. *)
Definition jingle_step (g : nat) (ok : bool) (s : jsession) : jsession :=
  match jsJingles s !! g with
  | Some (i :: rest, reg) =>
      let put s p := put_jingles s (<[g := p]> (jsJingles s)) in
      match i with
      | JNew _ =>
          if ok then put (put_pc s (jsPc s) ({[jsNext s]} ∪ jsOpenPc s) (jsMyPc s) (S (jsNext s))) (rest, Some (jsNext s))
          else put s ([], reg)
      | JPrepare _ =>
          if ok then put s (rest, reg)
          else put (put_pc s (jsPc s) (close_id reg (jsOpenPc s)) (jsMyPc s) (jsNext s)) ([], None)
      | JInstall => put (put_pc s reg (jsOpenPc s) (jsMyPc s) (jsNext s)) (rest, None)
      | _ => if ok then put s (rest, reg) else put s ([], reg)
      end
  | _ => s
  end.

Definition put_close (s : jsession) (closed go : bool) (r : list jinstr) (tx tp : option nat) (ov : bool) : jsession :=
  MkJs closed (jsReconnecting s) go (jsX s) (jsPc s) (jsOpenX s) (jsOpenPc s) (jsNext s) (jsConn s)
    (jsMine s) (jsMyPc s) (jsJingles s) (Some r) tx tp ov.

(** Whether a [Connect] or reconnect is at work. *)
Definition busy (s : jsession) : bool := match jsConn s with Some (_ :: _) => true | _ => false end.

Definition jclose_step (s : jsession) : jsession :=
  match jsClose s with
  | Some (i :: rest) =>
      let next s := put_close s (jsClosed s) (jsGoClosed s) rest (jsTakenX s) (jsTakenPc s) (jsOverlap s) in
      match i with
      | KMark => put_close s true (jsGoClosed s) rest (jsTakenX s) (jsTakenPc s) (jsOverlap s || busy s)
      | KLoadX => put_close s (jsClosed s) (jsGoClosed s) rest (jsX s) (jsTakenPc s) (jsOverlap s)
      | KTakePc =>
          put_close (put_pc s None (jsOpenPc s) (jsMyPc s) (jsNext s)) (jsClosed s) (jsGoClosed s) rest (jsTakenX s) (jsPc s)
            (jsOverlap s)
      | KClosePc => next (put_pc s (jsPc s) (close_id (jsTakenPc s) (jsOpenPc s)) (jsMyPc s) (jsNext s))
      | KCloseX => next (put_x s (jsX s) (close_id (jsTakenX s) (jsOpenX s)) (jsMine s) (jsNext s))
      | KDropX => next (put_x s None (jsOpenX s) (jsMine s) (jsNext s))
      | KStop => put_close s (jsClosed s) true rest (jsTakenX s) (jsTakenPc s) (jsOverlap s)
      | _ => next s
      end
  | _ => s
  end.

(** ** Runs *)

Inductive jevent :=
| JeConnect
| JeWatch
| JeStep (ok : bool)
| JeJingle (g : nat) (ok : bool)
| JeClose
| JeCloseStep.

Definition jstep (s : jsession) (e : jevent) : jsession :=
  match e with
  | JeConnect => match jsConn s with None => put_conn s jitsi_Connect | Some _ => s end
  | JeWatch => match jsConn s with Some [] => put_conn s jitsi_reconnect_prog | _ => s end
  | JeStep ok => jconn_step ok s
  | JeJingle g ok => jingle_step g ok s
  | JeClose =>
      match jsClose s with
      | None => put_close s (jsClosed s) (jsGoClosed s) jitsi_Close_prog (jsTakenX s) (jsTakenPc s) (jsOverlap s)
      | Some _ => s
      end
  | JeCloseStep => jclose_step s
  end.

Definition jrun (s : jsession) (es : list jevent) : jsession := fold_left jstep es s.

(** ** What is proved: what a Jitsi session leaves open

    Until [Close] begins at most one XMPP session is open, and a [Close] that meets no [Connect]
    or reconnect at work leaves none.  The runs at the end show the four ways in which something
    stays open for good. *)

(** ** Programs that hand over what they join

    [owns m n r]: with a session joined and not yet handed over ([m]) and none published ([n]), the rest [r] of the
    thread joins only when it holds none and none is published, and stores, closes or parks what it joined. *)

Definition fail_owns (m : bool) (f : on_fail) : bool :=
  match f with ToFull | ToReturn => negb m | ToPark | ToDiscard => m end.

Fixpoint owns (m n : bool) (r : list jinstr) : bool :=
  match r with
  | [] => negb m
  | i :: r' =>
      match i with
      | JJoin f => negb m && n && fail_owns false f && owns true n r'
      | JDrop => owns m true r'
      | JStore | JSwap => m && owns false false r'
      | JCheck1 => m && owns m n r'
      | JDiscard => m
      | JGuard | JCheck2 | JFinish => negb m && owns m n r'
      | JWait f | JBridge f | JNew f | JPrepare f => fail_owns m f && owns m n r'
      | _ => owns m n r'
      end
  end.

Definition is_some {A} (o : option A) : bool := match o with Some _ => true | None => false end.

Lemma fail_prog_owns m n f : fail_owns m f = true -> owns m n (fail_prog f) = true.
Proof. by destruct m, n, f. Qed.

Lemma reconnect_owns n : owns false n jitsi_reconnect_prog = true.
Proof. by destruct n. Qed.

Lemma elem_close_id x o g : x ∈ close_id o g -> x ∈ g /\ o <> Some x.
Proof. destruct o as [n|]; simpl; [set_solver|done]. Qed.

Lemma close_id_shrinks x o g : x ∈ close_id o g -> x ∈ g.
Proof. intros H. by apply elem_close_id in H as [? _]. Qed.

(** ** The invariant *)

(** What is open is what the session points to or what the connecting thread holds. *)
Definition held (px mine : option nat) (o : gset nat) (r : list jinstr) : Prop :=
  (forall x, x ∈ o -> px = Some x \/ mine = Some x) /\
  (is_some mine = true -> px = None) /\
  owns (is_some mine) (negb (is_some px)) r = true.

Definition open_inv (s : jsession) : Prop :=
  held (jsX s) (jsMine s) (jsOpenX s) (default [] (jsConn s)) /\
  (jsConn s = None -> jsX s = None /\ jsMine s = None) /\
  (jsClose s = None \/ jsClose s = Some jitsi_Close_prog).

Lemma held_prog px mine o r r' :
  held px mine o r -> owns (is_some mine) (negb (is_some px)) r' = true -> held px mine o r'.
Proof. intros (H1 & H2 & _) H. by split. Qed.

Lemma held_fail px mine o r f : held px mine o r -> fail_owns (is_some mine) f = true -> held px mine o (fail_prog f).
Proof. intros H Hf. eapply held_prog; [done|]. by apply fail_prog_owns. Qed.

Lemma held_drop px mine o r r' :
  held px mine o r -> owns (is_some mine) true r' = true -> held None mine (close_id px o) r'.
Proof.
  intros (H1 & _ & _) Hr. split; [|by split].
  intros x [Hx Hn]%elem_close_id. destruct (H1 x Hx); [done|by right].
Qed.

Lemma held_publish px mine o o' r r' :
  held px mine o r -> is_some mine = true -> (forall x, x ∈ o' -> x ∈ o) -> owns false false r' = true ->
  held mine None o' r'.
Proof.
  intros (H1 & H2 & _) Hm Ho Hr. rewrite (H2 Hm) in H1. split; [|split; [done|by rewrite Hm]].
  intros x Hx. destruct (H1 x (Ho x Hx)); [done|by left].
Qed.

Lemma held_discard px mine o r : held px mine o r -> held px None (close_id mine o) [].
Proof.
  intros (H1 & _ & _). split; [|by split].
  intros x [Hx Hn]%elem_close_id. destruct (H1 x Hx); [by left|done].
Qed.

Lemma held_join px mine o n r r' :
  held px mine o r -> mine = None -> px = None -> owns true true r' = true -> held px (Some n) ({[n]} ∪ o) r'.
Proof.
  intros (H1 & _ & _) -> -> Hr. split; [|by split].
  intros x [->%elem_of_singleton|Hx]%elem_of_union; [by right|]. by destruct (H1 x Hx).
Qed.

Lemma not_some {A} (o : option A) : negb (is_some o) = true -> o = None.
Proof. by destruct o. Qed.

Definition idle_conn (s : jsession) : Prop :=
  jsMine s = None /\
  (jsConn s = None \/ jsConn s = Some [] \/ jsConn s = Some jitsi_Connect \/ jsConn s = Some jitsi_reconnect_prog).

(** [closing_inv k s]: [k] operations of [Close] are done. *)
Definition closing_inv (k : nat) (s : jsession) : Prop :=
  jsClose s = Some (drop k jitsi_Close_prog) /\
  (k <= 1 -> forall x, x ∈ jsOpenX s -> jsX s = Some x)%nat /\
  (2 <= k <= 4 -> forall x, x ∈ jsOpenX s -> jsTakenX s = Some x)%nat /\
  (5 <= k -> jsOpenX s = ∅)%nat.

Definition js_inv (s : jsession) : Prop :=
  (jsClosed s = false -> jsOverlap s = false /\ open_inv s) /\
  (jsClosed s = true -> jsOverlap s = false -> idle_conn s /\ exists k, (1 <= k <= 7)%nat /\ closing_inv k s).

Lemma js_inv_new : js_inv jitsi_new.
Proof. split; [|done]. intros _. split; [done|]. repeat split; simpl; auto. intros x. set_solver. Qed.

(** A thread step keeps the invariant while the session is open. *)
Lemma open_inv_conn ok s : jsClosed s = false -> open_inv s -> open_inv (jconn_step ok s).
Proof.
  intros Hc Hs. unfold jconn_step. destruct (jsConn s) as [[|i r]|] eqn:Hr; [done| |done].
  destruct Hs as (Hh & Hf & Hk). rewrite Hr in Hh.
  pose proof Hh as (_ & Hone & Hp). cbn [default] in Hh, Hp. simpl in Hp.
  destruct i; try destruct ok; rewrite ?Hc; repeat rewrite andb_true_iff in Hp; destruct_and?;
    unfold launch_jingle; try case_match; (split; [|by split; [intros [=]|]]); simpl;
    try (by eapply held_prog; [exact Hh|]);
    try (by eapply held_fail; [exact Hh|]);
    try (by eapply held_drop; [exact Hh|]);
    try (by eapply held_discard);
    try (by eapply held_publish; [exact Hh|..|done]; [|eauto using close_id_shrinks]).
  - apply not_some in H, H3. rewrite H3 in H0. by eapply held_join; [exact Hh|..].
  - apply not_some in H. rewrite H in Hh |- *. by apply (held_fail _ _ _ _ _ Hh).
Qed.

(** ** Every step keeps the invariant *)

(** The fields the invariant reads. *)
Definition same_view (s t : jsession) : Prop :=
  jsClosed t = jsClosed s /\ jsOverlap t = jsOverlap s /\ jsX t = jsX s /\ jsMine t = jsMine s /\
  jsOpenX t = jsOpenX s /\ jsConn t = jsConn s /\ jsClose t = jsClose s /\ jsTakenX t = jsTakenX s.

Lemma js_inv_view s t : same_view s t -> js_inv s -> js_inv t.
Proof.
  intros (E1 & E2 & E3 & E4 & E5 & E6 & E7 & E8) H.
  unfold js_inv, open_inv, idle_conn, closing_inv in *. by rewrite E1, E2, E3, E4, E5, E6, E7, E8.
Qed.

Lemma jingle_step_view g ok s : same_view s (jingle_step g ok s).
Proof. unfold jingle_step. destruct (jsJingles s !! g) as [[[|[] r] reg]|]; try destruct ok; by repeat split. Qed.

(** After [Close] has begun alone, the thread only meets the guard and leaves. *)
Lemma idle_conn_step ok s : jsClosed s = true -> idle_conn s -> 
  idle_conn (jconn_step ok s) /\ jsX (jconn_step ok s) = jsX s /\ jsOpenX (jconn_step ok s) = jsOpenX s /\
  jsClose (jconn_step ok s) = jsClose s /\ jsTakenX (jconn_step ok s) = jsTakenX s.
Proof.
  intros Hc (Hm & Hr). unfold jconn_step, idle_conn.
  destruct Hr as [Hr|[Hr|[Hr|Hr]]]; rewrite Hr; simpl; rewrite ?Hc; simpl; rewrite ?Hr; auto 10.
Qed.

Lemma jconn_step_flags ok s :
  jsClosed (jconn_step ok s) = jsClosed s /\ jsOverlap (jconn_step ok s) = jsOverlap s.
Proof.
  unfold jconn_step. destruct (jsConn s) as [[|[] r]|]; try done; try destruct ok;
    unfold launch_jingle; repeat case_match; done.
Qed.

Lemma js_inv_conn ok s : js_inv s -> js_inv (jconn_step ok s).
Proof.
  intros [Hopen Hshut]. destruct (jconn_step_flags ok s) as [E1 E2]. unfold js_inv. rewrite E1, E2.
  split; intros Hc.
  - destruct (Hopen Hc) as [? Ho]. split; [done|]. by apply open_inv_conn.
  - intros Hov. destruct (Hshut Hc Hov) as [Hi (k & Hk & Hcl)].
    destruct (idle_conn_step ok s Hc Hi) as (Hi' & EX & EO & EC & ET).
    split; [done|]. exists k. split; [done|]. unfold closing_inv in *. by rewrite EX, EO, EC, ET.
Qed.

Lemma js_inv_connect s : js_inv s -> js_inv (jstep s JeConnect).
Proof.
  intros [Hopen Hshut]. simpl. destruct (jsConn s) eqn:Hr; [by split|]. split; simpl.
  - intros Hc. destruct (Hopen Hc) as [? (Hh & Hf & Hk)]. split; [done|].
    destruct (Hf Hr) as [HX HM]. split; [|by split]. simpl. eapply held_prog; [exact Hh|]. by rewrite HX, HM.
  - intros Hc Hov. destruct (Hshut Hc Hov) as [[HM _] ?]. split; [|done]. split; [done|]. simpl. auto.
Qed.

Lemma js_inv_watch s : js_inv s -> js_inv (jstep s JeWatch).
Proof.
  intros [Hopen Hshut]. simpl. destruct (jsConn s) as [[|i r]|] eqn:Hr; [|by split..]. split; simpl.
  - intros Hc. destruct (Hopen Hc) as [? (Hh & Hf & Hk)]. split; [done|].
    split; [|by split]. simpl. eapply held_prog; [exact Hh|]. destruct Hh as (_ & _ & Hp).
    rewrite Hr in Hp. simpl in Hp. apply not_some in Hp. rewrite Hp. apply reconnect_owns.
  - intros Hc Hov. destruct (Hshut Hc Hov) as [[HM _] ?]. split; [|done]. split; [done|]. simpl. auto.
Qed.

Lemma js_inv_close s : js_inv s -> js_inv (jstep s JeClose).
Proof.
  intros [Hopen Hshut]. simpl. destruct (jsClose s) eqn:Hr; [by split|]. split; simpl.
  - intros Hc. destruct (Hopen Hc) as [? (Hh & Hf & Hk)]. split; [done|]. split; [done|]. simpl. auto.
  - intros Hc Hov. destruct (Hshut Hc Hov) as [_ (k & _ & [Hcl _])]. congruence.
Qed.

Lemma idle_of_owns s : open_inv s -> busy s = false -> idle_conn s.
Proof.
  intros (Hh & Hf & _) Hb. unfold busy in Hb. destruct Hh as (_ & _ & Hp).
  destruct (jsConn s) as [[|]|] eqn:Hr; try done.
  - split; [by apply not_some|auto].
  - split; [by apply Hf|auto].
Qed.

Lemma js_inv_close_step s : js_inv s -> js_inv (jstep s JeCloseStep).
Proof.
  intros [Hopen Hshut]. simpl. unfold jclose_step. destruct (jsClosed s) eqn:Hc.
  - destruct (jsClose s) as [[|i r]|] eqn:Hr; [by split; rewrite Hc|..|by split; rewrite Hc].
    destruct (jsOverlap s) eqn:Hov; [destruct i; split; simpl; congruence|].
    destruct (Hshut eq_refl eq_refl) as [Hi (k & Hk & Hcl & H1 & H2 & H3)]. rewrite Hr in Hcl.
    assert (k = 1 \/ k = 2 \/ k = 3 \/ k = 4 \/ k = 5 \/ k = 6 \/ k = 7)%nat as Hcases by lia.
    destruct Hcases as [->|[->|[->|[->|[->|[->| ->]]]]]]; simpl in Hcl; simplify_eq;
      split; simpl; try congruence; intros _ _; (split; [exact Hi|]).
    + exists 2%nat. repeat split; try lia. auto.
    + exists 3%nat. repeat split; try lia. auto.
    + exists 4%nat. repeat split; try lia. auto.
    + exists 5%nat. repeat split; try lia. intros _. simpl. apply set_eq. intros x. split; [|set_solver].
      intros [Hx Hn]%elem_close_id. specialize (H2 ltac:(lia) x Hx). done.
    + exists 6%nat. repeat split; try lia. auto.
    + exists 7%nat. repeat split; try lia. auto.
  - destruct (Hopen eq_refl) as [Hov (Hh & Hf & [Hk|Hk])]; rewrite Hk; [by split; rewrite Hc|].
    simpl. split; simpl; [done|]. intros _ Hb. rewrite Hov in Hb. simpl in Hb.
    assert (idle_conn s) as Hi by (apply idle_of_owns; [by split; [|split; [|right]]|done]).
    split; [exact Hi|]. exists 1%nat. repeat split; try lia.
    intros _ x Hx. destruct Hh as (H1 & _). destruct (H1 x Hx); [done|]. destruct Hi. congruence.
Qed.

Lemma js_inv_step s e : js_inv s -> js_inv (jstep s e).
Proof.
  destruct e; [apply js_inv_connect|apply js_inv_watch|apply js_inv_conn| |apply js_inv_close|apply js_inv_close_step].
  apply js_inv_view, jingle_step_view.
Qed.

Lemma js_inv_run es s : js_inv s -> js_inv (jrun s es).
Proof. revert s. induction es as [|e es IH]; intros s H; [done|]. apply IH. by apply js_inv_step. Qed.

Lemma open_inv_one s : open_inv s -> (size (jsOpenX s) <= 1)%nat.
Proof.
  intros ((H1 & H2 & _) & _).
  destruct (decide (jsOpenX s = ∅)) as [->|Hne]; [rewrite size_empty; lia|].
  apply set_choose_L in Hne as [y Hy].
  transitivity (size ({[y]} : gset nat)); [|by rewrite size_singleton].
  apply subseteq_size. intros x Hx. apply elem_of_singleton.
  destruct (jsMine s) as [m|] eqn:Hm.
  - specialize (H2 eq_refl). destruct (H1 x Hx), (H1 y Hy); congruence.
  - destruct (H1 x Hx), (H1 y Hy); congruence.
Qed.

(** ** Closed for good *)

Definition all_quiet (s : jsession) : bool :=
  jsClosed s && match jsClose s with Some [] => true | _ => false end &&
  match jsConn s with Some [] => true | _ => false end &&
  forallb (fun p => match fst p with [] => true | _ => false end) (jsJingles s).

(** Nothing is at work and nothing will be: what is open stays open. *)
Definition over (s : jsession) : Prop :=
  jsClosed s = true /\ jsClose s = Some [] /\ (jsConn s = Some [] \/ jsConn s = Some jitsi_reconnect_prog) /\
  Forall (fun p => fst p = []) (jsJingles s).

Lemma all_quiet_over s : all_quiet s = true -> over s.
Proof.
  unfold all_quiet. rewrite !andb_true_iff. intros [[[H1 H2] H3] H4].
  repeat split; [done|by destruct (jsClose s) as [[|]|]|..].
  - destruct (jsConn s) as [[|]|]; auto; done.
  - apply Forall_forall. intros [r g] Hp. rewrite forallb_forall in H4. apply list_elem_of_In, H4 in Hp.
    by destruct r.
Qed.

Lemma over_step s e : over s -> over (jstep s e) /\ jsOpenX (jstep s e) = jsOpenX s /\ jsOpenPc (jstep s e) = jsOpenPc s.
Proof.
  intros (H1 & H2 & H3 & H4). destruct e; simpl.
  - destruct H3 as [H3|H3]; rewrite H3; (split; [|done]); repeat split; auto.
  - destruct H3 as [H3|H3]; rewrite H3; (split; [|done]); repeat split; simpl; auto.
  - unfold jconn_step. destruct H3 as [H3|H3]; rewrite H3; simpl; rewrite ?H1; (split; [|done]); repeat split; simpl; auto.
  - unfold jingle_step. destruct (jsJingles s !! g) as [[r reg]|] eqn:Hg; [|split; [by split|done]].
    pose proof (Forall_lookup_1 _ _ _ _ H4 Hg) as Hn. simpl in Hn. subst r. split; [by split|done].
  - rewrite H2. split; [by split|done].
  - unfold jclose_step. rewrite H2. split; [by split|done].
Qed.

Lemma over_run es s : over s -> jsOpenX (jrun s es) = jsOpenX s /\ jsOpenPc (jrun s es) = jsOpenPc s.
Proof.
  revert s. induction es as [|e es IH]; intros s H; [done|].
  destruct (over_step s e H) as (Ho & Ex & Ep). destruct (IH _ Ho) as [Ex' Ep'].
  unfold jrun in *. simpl. by rewrite Ex', Ep', Ex, Ep.
Qed.

(** ** Runs that leave something open *)

Definition steps_ok (n : nat) : list jevent := repeat (JeStep true) n.
Definition close_steps (n : nat) : list jevent := repeat JeCloseStep n.

(** A session that has joined and whose wait for Jicofo ends in an error, so that it reconnects. *)
Definition joined_run : list jevent := [JeConnect] ++ steps_ok 4 ++ [JeJingle 0 false].

(** [Close] reads the session pointer while [installSession] is between its check and its store, and drops
    the pointer before the second check. *)
Definition install_race : list jevent :=
  joined_run ++ [JeWatch] ++ steps_ok 6 ++ [JeClose] ++ close_steps 5 ++ steps_ok 1 ++ close_steps 1 ++ steps_ok 1 ++
  close_steps 1.

(** [Close] runs while [Connect] is joining. *)
Definition connect_race : list jevent := [JeConnect] ++ steps_ok 2 ++ [JeClose] ++ close_steps 7 ++ steps_ok 2.

(** The bridge fails after the peer connection of a reconnect is up; the full reconnect negotiates another. *)
Definition bridge_fails_run : list jevent :=
  joined_run ++ [JeWatch] ++ steps_ok 12 ++ [JeStep false] ++ steps_ok 12 ++ [JeClose] ++ close_steps 7.

(** [Close] runs while a goroutine negotiates. *)
Definition negotiation_race : list jevent :=
  [JeConnect] ++ steps_ok 4 ++ repeat (JeJingle 0 true) 4 ++ [JeClose] ++ close_steps 7 ++ repeat (JeJingle 0 true) 2.

(** Session [x], resp. peer connection [p], is open after the run and after whatever follows. *)
Definition stays_joined (es : list jevent) (x : nat) : Prop := forall es', x ∈ jsOpenX (jrun (jrun jitsi_new es) es').
Definition stays_connected (es : list jevent) (p : nat) : Prop := forall es', p ∈ jsOpenPc (jrun (jrun jitsi_new es) es').

Lemma leak_joined es x :
  all_quiet (jrun jitsi_new es) && bool_decide (x ∈ jsOpenX (jrun jitsi_new es)) = true -> stays_joined es x.
Proof.
  rewrite andb_true_iff, bool_decide_eq_true. intros [Hq Hx] es'.
  by rewrite (proj1 (over_run es' _ (all_quiet_over _ Hq))).
Qed.

Lemma leak_connected es p :
  all_quiet (jrun jitsi_new es) && bool_decide (p ∈ jsOpenPc (jrun jitsi_new es)) = true -> stays_connected es p.
Proof.
  rewrite andb_true_iff, bool_decide_eq_true. intros [Hq Hx] es'.
  by rewrite (proj2 (over_run es' _ (all_quiet_over _ Hq))).
Qed.

(** C25: In every interleaving of [Connect], reconnects, negotiations and [Close], a Jitsi session that is not closed is
    joined to the room at most once, and when [Close] has finished without having met a [Connect] or a reconnect at work
    no XMPP session is left open. *)
Theorem jitsi_joined_once_and_left (es : list jevent) :
  let s := jrun jitsi_new es in
  (jsClosed s = false -> (size (jsOpenX s) <= 1)%nat) /\
  (jsClose s = Some [] -> jsOverlap s = false -> jsOpenX s = ∅).
Proof.
  intros s. destruct (js_inv_run es _ js_inv_new) as [Hopen Hshut]. fold s in Hopen, Hshut. split.
  - intros Hc. by apply open_inv_one, Hopen.
  - intros Hk Hov. destruct (jsClosed s) eqn:Hc.
    + destruct (Hshut eq_refl Hov) as [_ (k & Hk' & Hcl & _ & _ & H)]. apply H.
      rewrite Hk in Hcl. do 5 (destruct k as [|k]; [simpl in Hcl; congruence|]). lia.
    + destruct (Hopen eq_refl) as [_ (_ & _ & [H|H])]; rewrite Hk in H; discriminate H.
Qed.

Lemma jitsi_joined_once_and_left_witness :
  let s := jrun jitsi_new (joined_run ++ [JeWatch] ++ steps_ok 14 ++ [JeClose] ++ close_steps 7) in
  jsNext s = 3%nat /\ jsOpenX s = ∅.
Proof.
  split; [by vm_compute|].
  by apply (proj2 (jitsi_joined_once_and_left (joined_run ++ [JeWatch] ++ steps_ok 14 ++ [JeClose] ++ close_steps 7)));
    vm_compute.
Defined.

(** What a Jitsi session leaves open for good: the XMPP session of a reconnect whose [installSession] overlaps
    [Close], and that of a [Connect] which [Close] overtakes; the first peer connection of a reconnect whose bridge
    fails after it was negotiated, with no overlap at all; and the peer connection of a negotiation which [Close]
    overtakes. *)
Theorem jitsi_leaks :
  stays_joined install_race 1 /\ stays_joined connect_race 0 /\
  stays_connected bridge_fails_run 2 /\ jsOverlap (jrun jitsi_new bridge_fails_run) = false /\
  stays_connected negotiation_race 1 /\ jsOverlap (jrun jitsi_new negotiation_race) = false.
Proof.
  repeat split; try (by vm_compute); try (apply leak_joined; by vm_compute); apply leak_connected; by vm_compute.
Qed.
