(* ===== verification/Goolom.v ===== *)
(** * Goolom: the Goolom engine, its messages and its data path
    (internal/engine/goolom: session.go, signaling.go, media.go, telemetry.go,
    sendqueue.go; internal/engine/shared.go)

    The media server talks JSON over a WebSocket; [json] is what [encoding/json]
    decodes into an [any].  The peer connections (pion), the socket and HTTP are
    libraries: what they answer is an argument.  The life cycle of the session is in
    GoolomRun. *)

From S2P Require Import Prelude Bytes Text SessionConfig ConfigFile NetAddr IceServers.

(** ** JSON *)

(** A number is a rational; the keys of an object are distinct. *)
Inductive json :=
| JNull
| JBool (b : bool)
| JNum (n : Z) (d : positive)
| JStr (s : string)
| JArr (l : list json)
| JObj (l : list (string * json)).

Fixpoint obj_get (k : string) (l : list (string * json)) : option json :=
  match l with
  | [] => None
  | (k', v) :: l => if str_eqb k k' then Some v else obj_get k l
  end.

Definition has_key (k : string) (l : list (string * json)) : bool :=
  match obj_get k l with Some _ => true | None => false end.

(** The type assertions of the code: [v, ok := m[k].(T)]. *)
Definition get_str (k : string) l : option string := match obj_get k l with Some (JStr s) => Some s | _ => None end.
Definition get_obj (k : string) l : option (list (string * json)) :=
  match obj_get k l with Some (JObj o) => Some o | _ => None end.
Definition get_arr (k : string) l : option (list json) := match obj_get k l with Some (JArr a) => Some a | _ => None end.
Definition get_num (k : string) l : option (Z * positive) :=
  match obj_get k l with Some (JNum n d) => Some (n, d) | _ => None end.

(** ** Credentials *)

(* go: engine/engine.go 28-34 Credentials *)
Record Credentials := MkCreds { crURL : string; crToken : string; crExtra : gmap string string }.

Definition refreshed (old new : string) : string := if str_eqb new "" then old else new.

(** The identity of a session, as [credMu] guards it. *)
Record identity := MkIdentity {
  idServer : string;
  idPeer : string;
  idRoom : string;
  idCredentials : string;
  idRoomURL : string;
  idReferer : string;
}.

Definition extra (m : gmap string string) (k : string) : string := default "" (m !! k).

(* go: engine/shared.go 26-39 ApplyRefreshedCredentials *)
Definition ApplyRefreshedCredentials (c : Credentials) (i : identity) : identity :=
  MkIdentity (refreshed (idServer i) (crURL c)) (refreshed (idPeer i) (crToken c))
    (refreshed (idRoom i) (extra (crExtra c) "roomID"))
    (refreshed (idCredentials i) (extra (crExtra c) "credentials"))
    (refreshed (idRoomURL i) (extra (crExtra c) "roomURL"))
    (refreshed (idReferer i) (extra (crExtra c) "telemetryReferer")).

Inductive goolom_error :=
| ErrURLRequired
| ErrPeerIDRequired
| ErrGoolomRoomID
| ErrDataChannelNotReady
| ErrSendQueueClosed
| ErrSendQueueTimeout
| ErrSubscriberGone
| ErrRemoteDesc
| ErrCreateAnswer
| ErrLocalDesc
| ErrSendAnswer
| ErrPublisherNotInitialized
| ErrCreatePubOffer
| ErrLocalPubDesc
| ErrSendPubOffer.

(* go: engine/goolom/session.go 89-94 TrafficShape *)
Record TrafficShape := MkShape { tsMaxMessageSize : Z; tsMinDelay : Z; tsMaxDelay : Z }.

(* go: engine/goolom/session.go 29-29 realDataChannelMessageLimit *)
Definition realDataChannelMessageLimit : Z := 12288.

Definition default_shape : TrafficShape := MkShape realDataChannelMessageLimit (2 * 1000000) (12 * 1000000).

(* go: engine/goolom/session.go 339-348 SetTrafficShape *)
Definition SetTrafficShape (shape : TrafficShape) : TrafficShape :=
  MkShape (if tsMaxMessageSize shape <=? 0 then realDataChannelMessageLimit else tsMaxMessageSize shape)
    (tsMinDelay shape) (if tsMaxDelay shape <? tsMinDelay shape then tsMinDelay shape else tsMaxDelay shape).

(** The identity a session starts with. *)
(* go: engine/goolom/session.go 272-302 New *)
Definition goolom_New (c : Credentials) : outcome goolom_error identity :=
  if str_eqb (crURL c) "" then Err ErrURLRequired
  else if str_eqb (crToken c) "" then Err ErrPeerIDRequired
  else
    let roomURL := extra (crExtra c) "roomURL" in
    let referer := extra (crExtra c) "telemetryReferer" in
    if str_eqb (extra (crExtra c) "roomID") "" then Err ErrGoolomRoomID
    else Ok (MkIdentity (crURL c) (crToken c) (extra (crExtra c) "roomID") (extra (crExtra c) "credentials") roomURL
               (if str_eqb referer "" then roomURL else referer)).

(** ** The data channel *)

(** [dcOpen] is [None] without a data channel; [room] says whether the queue takes the message within
    50 milliseconds. *)
(* go: engine/goolom/session.go 350-364 Send *)
Definition goolom_Send (dcOpen : option bool) (queueClosed room : bool) : outcome goolom_error unit :=
  match dcOpen with
  | Some true =>
      if queueClosed then Err ErrSendQueueClosed else if room then Ok tt else Err ErrSendQueueTimeout
  | _ => Err ErrDataChannelNotReady
  end.

(* go: engine/goolom/session.go 381-394 CanSend *)
Definition goolom_CanSend (onData closed subscriberReady : bool) (dcOpen : option bool) (queued : Z) : bool :=
  if negb onData then negb closed && subscriberReady
  else match dcOpen with Some true => queued <? 4000 | _ => false end.

(* go: engine/goolom/sendqueue.go 70-77 calculateDelay *)
Definition calculateDelay (s : TrafficShape) (rand : Z) : Z :=
  if tsMaxDelay s <=? tsMinDelay s then tsMinDelay s
  else tsMinDelay s + rand mod (tsMaxDelay s - tsMinDelay s).

(** What a send worker does with one message of the queue; [wait] is whether the buffer drained or five
    seconds passed, [false] when the session ended. *)
Inductive worker_step := WSkip | WExit | WSent (pause : Z) | WFailed.
(* go: engine/goolom/sendqueue.go 12-48 processSendQueue *)
Definition processSendQueue (s : TrafficShape) (data : bytes) (wait sent : bool) (rand : Z) : worker_step :=
  if tsMaxMessageSize s <? len data then WSkip
  else if negb wait then WExit
  else if negb sent then WFailed
  else WSent (if 0 <? tsMinDelay s then calculateDelay s rand else 0).

(** ** What the session writes *)

Inductive gmsg :=
| GHello (i : identity) (sendVideo disablePublisher : bool)
| GAck (uid : string)
| GPong (uid : string)
| GPing
| GLeave (uid : string)
| GSubAnswer (pcSeq : Z) (sdp : string)
| GSetSlots (slots : list (Z * Z))
| GPubOffer (sdp : string)
| GCandidate (target : string) (candidate : string).

(** A write and whether it went through. *)
Definition written : Type := gmsg * bool.

(* go: engine/goolom/signaling.go 17-63 sendHello *)
Definition sendHello (i : identity) (tracks : nat) (onData : bool) : gmsg :=
  let video := negb (Nat.eqb tracks 0) in
  GHello i video (negb video && negb onData).

(** [ok] is the answer of the socket to each write. *)
(* go: engine/goolom/signaling.go 157-169 sendAck *)
Definition sendAck (uid : string) (ok : bool) : list written :=
  if str_eqb uid "" then [] else [(GAck uid, ok)].
(* go: engine/goolom/signaling.go 171-178 sendPong *)
Definition sendPong (uid : string) (ok : bool) : list written := [(GPong uid, ok)].

(* go: engine/goolom/media.go 284-307 sendSetSlots *)
Definition sendSetSlots (ok : bool) : list written := [(GSetSlots (replicate 8 (1280, 720)), ok)].

(* go: engine/goolom/signaling.go 130-155 handleCommonMessages *)
Definition handleCommonMessages (msg : list (string * json)) (uid : string) (ok : bool) : list written :=
  let ack k := if has_key k msg then sendAck uid ok else [] in
  ack "updateDescription" ++ ack "upsertDescription" ++ ack "removeDescription" ++ ack "slotsConfig" ++
  ack "slotsMeta" ++ ack "vadActivity" ++ (if has_key "ping" msg then sendPong uid ok else []) ++ ack "pong".

(** ** The server's configuration *)

(** [time.Duration] of a number: its integer part where that fits. *)
Class FloatConv : Type := { f64_to_i64 : Z -> positive -> Z }.
Class FloatConvLaws (F : FloatConv) : Prop := {
  f64_in_range : forall n d, - 2 ^ 63 <= Z.quot n (Zpos d) < 2 ^ 63 -> f64_to_i64 n d = Z.quot n (Zpos d);
  f64_range : forall n d, - 2 ^ 63 <= f64_to_i64 n d < 2 ^ 63;
}.

(** [url.Parse]: scheme and host. *)
Class WebURL : Type := { web_Parse : string -> option (string * string) }.

(* go: engine/goolom/session.go 32-36 defaultTelemetryInterval *)
Definition defaultTelemetryInterval : Z := 20 * 1000000000.
Definition minTelemetryInterval : Z := 1000000000.
Definition maxTelemetryInterval : Z := 5 * 60 * 1000000000.

(* go: engine/goolom/telemetry.go 85-101 telemetryInterval *)
Definition telemetryInterval `{FloatConv} (cfg : list (string * json)) : Z :=
  match get_num "sendingInterval" cfg with
  | None => defaultTelemetryInterval
  | Some (n, d) =>
      let interval := i64 (f64_to_i64 n d * 1000000) in
      if interval <? minTelemetryInterval then minTelemetryInterval
      else if maxTelemetryInterval <? interval then maxTelemetryInterval
      else interval
  end.

(* go: engine/goolom/telemetry.go 70-83 telemetryEndpointAllowed *)
Definition telemetryEndpointAllowed `{WebURL} (endpoint : string) : bool :=
  if str_eqb endpoint "" then false
  else match web_Parse endpoint with
       | None => false
       | Some (scheme, host) => str_eqb scheme "https" && negb (str_eqb host "")
       end.

(** A string that is there and not empty. *)
Definition present (o : option string) : option string :=
  match o with Some s => if str_eqb s "" then None else Some s | None => None end.

(* go: engine/goolom/telemetry.go 48-68 parseTelemetryCfg *)
Definition parseTelemetryCfg `{FloatConv} `{WebURL} (serverHello : list (string * json)) : option (string * Z) :=
  match get_obj "telemetryConfiguration" serverHello with
  | None => None
  | Some cfg =>
      let endpoint :=
        match present (get_str "logEndpoint" cfg) with
        | Some e => e
        | None => match present (get_str "endpoint" cfg) with
                  | Some e => e
                  | None => default "" (get_str "url" cfg)
                  end
        end in
      if negb (telemetryEndpointAllowed endpoint) then None else Some (endpoint, telemetryInterval cfg)
  end.

(* go: engine/goolom/media.go 342-355 parseICEURLs *)
Definition parseICEURLs (server : list (string * json)) : list bytes :=
  match obj_get "urls" server with
  | Some (JArr l) => omap (fun v => match v with JStr s => Some (string_bytes s) | _ => None end) l
  | _ => []
  end.

(* go: engine/goolom/media.go 357-378 parseICEServer *)
Definition parseICEServer `{URLs} (raw : json) : option ICEServer :=
  match raw with
  | JObj server =>
      match parseICEURLs server with
      | [] => None
      | urls =>
          let ice := MkICE urls (default "" (get_str "username" server))
                       (match get_str "credential" server with Some c => CredString c | None => CredNil end) in
          head (NormaliseICEServers [ice])
      end
  | _ => None
  end.

(** The servers given to both peer connections, [None] when they are left alone. *)
(* go: engine/goolom/media.go 380-408 applyServerHelloConfig *)
Definition applyServerHelloConfig `{URLs} (serverHello : list (string * json)) : option (list ICEServer) :=
  match get_obj "rtcConfiguration" serverHello with
  | None => None
  | Some cfg =>
      match get_arr "iceServers" cfg with
      | None => None
      | Some servers => match omap parseICEServer servers with [] => None | l => Some l end
      end
  end.

(** ** Negotiation *)

(** What pion and the socket answer while an offer is handled. *)
Record offer_env := MkOfferEnv {
  oeSub : bool;
  oeRemote : bool;
  oeAnswer : option string;
  oeLocal : bool;
  oeWrite : bool;
  oeAck : bool;
  oeSlots : bool;
  oePub : bool;
  oeOffer : option string;
  oeLocalPub : bool;
  oeWritePub : bool;
}.

(** The answer, its acknowledgement and the request for slots. *)
Definition answer_writes (env : offer_env) (onData : bool) (uid : string) (pcSeq : Z) (sdp : string) : list written :=
  [(GSubAnswer pcSeq sdp, true)] ++ sendAck uid (oeAck env) ++ (if onData then [] else sendSetSlots (oeSlots env)).

(* go: engine/goolom/media.go 116-198 handleSdpOffer *)
Definition handleSdpOffer (env : offer_env) (onData : bool) (offer : list (string * json)) (uid : string) (sendPub : bool)
  : list written * outcome goolom_error unit :=
  if negb (oeSub env) then ([], Err ErrSubscriberGone)
  else
    let pcSeq := match get_num "pcSeq" offer with Some (n, d) => Z.quot n (Zpos d) | None => 0 end in
    if negb (oeRemote env) then ([], Err ErrRemoteDesc)
    else match oeAnswer env with
    | None => ([], Err ErrCreateAnswer)
    | Some sdp =>
        if negb (oeLocal env) then ([], Err ErrLocalDesc)
        else if negb (oeWrite env) then ([(GSubAnswer pcSeq sdp, false)], Err ErrSendAnswer)
        else
          let w := answer_writes env onData uid pcSeq sdp in
          if negb sendPub then (w, Ok tt)
          else if negb (oePub env) then (w, Err ErrPublisherNotInitialized)
          else match oeOffer env with
          | None => (w, Err ErrCreatePubOffer)
          | Some pub =>
              if negb (oeLocalPub env) then (w, Err ErrLocalPubDesc)
              else if negb (oeWritePub env) then (w ++ [(GPubOffer pub, false)], Err ErrSendPubOffer)
              else (w ++ [(GPubOffer pub, true)], Ok tt)
          end
    end.

(** A failed answer closes the publisher, which its state handler turns into a
    reconnect. *)
(* go: engine/goolom/media.go 200-222 handleSdpAnswer *)
Definition handleSdpAnswer (pub : bool) (accepted : bool) (uid : string) (ok : bool) : list written * bool :=
  if negb pub then ([], false) else (sendAck uid ok, negb accepted).

(** The number of fields [strings.Fields] finds; a text of [n] bytes takes at most [n] turns. *)
Fixpoint fields (fuel : nat) (in_word : bool) (s : bytes) : nat :=
  match fuel, s with
  | S fuel, _ :: s' =>
      match space_at spaces s with
      | O => ((if in_word then 0 else 1) + fields fuel true s')%nat
      | n => fields fuel false (drop n s)
      end
  | _, _ => 0
  end.

(** The peer connection a candidate goes to. *)
(* go: engine/goolom/media.go 224-250 handleICE *)
Definition handleICE (cand : list (string * json)) : option (bool * string) :=
  let candStr := default "" (get_str "candidate" cand) in
  let target := default "" (get_str "target" cand) in
  if (fields (String.length candStr) false (string_bytes candStr) <? 8)%nat then None
  else if str_eqb target "SUBSCRIBER" then Some (true, candStr)
  else if str_eqb target "PUBLISHER" then Some (false, candStr)
  else None.

(** ** The signaling loop *)

Inductive geffect :=
| EWrite (w : written)
| EResolve (uid : string)
| ETelemetry (endpoint : string) (interval : Z)
| EConfig (servers : list ICEServer)
| EClosePublisher
| ECandidate (subscriber : bool) (candidate : string)
| EEnded.

(* go: engine/goolom/signaling.go 304-311 isEndedState *)
Definition isEndedState (state : string) : bool :=
  let s := ToLower (string_bytes state) in
  existsb (fun w => bytes_eqb s (string_bytes w)) ["closed"; "ended"; "finished"; "terminated"].

(* go: engine/goolom/signaling.go 285-302 isConferenceEndMessage *)
Definition isConferenceEndMessage (msg : list (string * json)) : bool :=
  let state k := match get_obj k msg with Some o => isEndedState (default "" (get_str "state" o)) | None => false end in
  existsb (fun k => has_key k msg) ["conferenceClosed"; "conferenceEnded"; "roomClosed"; "roomEnded"; "callEnded"] ||
  state "conference" || state "conferenceState".

Section signaling.
Context `{FloatConv} `{WebURL} `{URLs}.

(* go: engine/goolom/signaling.go 107-119 handleMessageEvents *)
Definition handleMessageEvents (msg : list (string * json)) (uid : string) (ok : bool) : list geffect :=
  (if has_key "ack" msg && negb (str_eqb uid "") then [EResolve uid] else []) ++
  match get_obj "serverHello" msg with
  | Some hello =>
      match applyServerHelloConfig hello with Some l => [EConfig l] | None => [] end ++
      match parseTelemetryCfg hello with Some (e, i) => [ETelemetry e i] | None => [] end ++
      (EWrite <$> sendAck uid ok)
  | None => []
  end ++ (EWrite <$> handleCommonMessages msg uid ok).

(** What the environment answers during one message. *)
Record msg_env := MkMsgEnv { meOk : bool; meOffer : offer_env; mePub : bool; meAccepted : bool }.

(* go: engine/goolom/signaling.go 121-128 handleSignalingResponses *)
Definition handleSignalingResponses (env : msg_env) (msg : list (string * json)) (uid : string) : list geffect :=
  match get_obj "publisherSdpAnswer" msg with
  | Some _ =>
      let '(w, close) := handleSdpAnswer (mePub env) (meAccepted env) uid (meOk env) in
      (if close then [EClosePublisher] else []) ++ (EWrite <$> w)
  | None => []
  end ++
  match get_obj "webrtcIceCandidate" msg with
  | Some cand => match handleICE cand with Some (sub, c) => [ECandidate sub c] | None => [] end
  | None => []
  end.

(** One turn of the loop: the new [pubSent], [None] when the loop returns. *)
Definition signaling_turn (env : msg_env) (onData pubSent : bool) (msg : list (string * json)) : option bool * list geffect :=
  let uid := default "" (get_str "uid" msg) in
  let events := handleMessageEvents msg uid (meOk env) in
  if isConferenceEndMessage msg then (None, events ++ [EEnded])
  else
    match get_obj "subscriberSdpOffer" msg with
    | Some offer =>
        let '(w, r) := handleSdpOffer (meOffer env) onData offer uid (negb pubSent) in
        if is_ok r then (Some true, events ++ (EWrite <$> w) ++ handleSignalingResponses env msg uid)
        else (Some pubSent, events ++ (EWrite <$> w))
    | None => (Some pubSent, events ++ handleSignalingResponses env msg uid)
    end.

(** The loop until the socket fails or the conference ends. *)
(* go: engine/goolom/signaling.go 65-105 handleSignaling *)
Fixpoint handleSignaling (onData pubSent : bool) (msgs : list (msg_env * list (string * json))) : list geffect :=
  match msgs with
  | [] => []
  | (env, msg) :: msgs =>
      match signaling_turn env onData pubSent msg with
      | (None, effs) => effs
      | (Some pubSent, effs) => effs ++ handleSignaling onData pubSent msgs
      end
  end.
End signaling.

(** ** Acknowledgements *)

(** [ackWaiters]; a waiter is a channel, numbered. *)
(* go: engine/goolom/signaling.go 180-186 registerAckWaiter *)
Definition registerAckWaiter (w : gmap string nat) (uid : string) (ch : nat) : gmap string nat := <[uid := ch]> w.
(* go: engine/goolom/signaling.go 188-192 removeAckWaiter *)
Definition removeAckWaiter (w : gmap string nat) (uid : string) : gmap string nat := delete uid w.
(** The channel that is closed. *)
(* go: engine/goolom/signaling.go 210-221 resolveAck *)
Definition resolveAck (w : gmap string nat) (uid : string) : gmap string nat * option nat :=
  if str_eqb uid "" then (w, None)
  else match w !! uid with Some ch => (delete uid w, Some ch) | None => (w, None) end.
(** [first] is which of the three channels the [select] took: the acknowledgement, the timer or the
    end of the session. *)
(* go: engine/goolom/signaling.go 194-208 waitForAck *)
Definition waitForAck (w : gmap string nat) (uid : string) (acked : bool) : gmap string nat * bool :=
  if str_eqb uid "" then (w, false) else (removeAckWaiter w uid, acked).
