(* ===== verification/GoolomRun.v ===== *)
(** * GoolomRun: the life cycle of a Goolom session
    (internal/engine/goolom: lifecycle.go, the connection part of session.go and media.go)

    Three threads run side by side: the one that connects and then reconnects (the caller of
    [Connect] and later the reconnector's [Watch], one after the other), the caller of [Close],
    and the callbacks of pion and of the socket.  A thread is the list of the
    operations it has still to do, one per access to shared state; the scheduler picks a thread, and
    the answer of the library comes with the pick.  Peer connections, data channels
    and sockets are numbered as they are made; the state says which the session points to and which
    are open, that is, made and not yet closed by the session. *)

From stdpp Require Import functions.
From S2P Require Import Prelude.

(** ** Shared state *)

(** The subscriber and the publisher peer connection, the data channel, the socket. *)
Inductive kind := KSub | KPub | KDc | KWs.
#[export] Instance kind_eq : EqDecision kind.
Proof. solve_decision. Defined.

Record flags := MkFlags {
  fTerminated : bool;
  fClosed : bool;
  fQueueClosed : bool;
  fGoClosed : bool;
  fCloseCh : bool;
  fReconnecting : bool;
  fRequested : bool;
  fSubReady : bool;
  fPubReady : bool;
}.

(** The operations of the threads; [ILaunch] starts a goroutine through [goLaunch].
    The helper goroutines the code starts with a plain [go] (each [pc.Close] of
    [closePeerConns] with the goroutine that waits for them, [DrainRTCP] of a sender or
    receiver, the wait of [Close]) are not tracked by the session and not modelled. *)
Inductive instr :=
| ICheck
| IReset
| IOpen (k : kind)
| IAttach
| ILaunch
| IWait
| IAbortCheck
| IClose (k : kind)
| IReturnClosed
| IReCheck
| ILeave
| ISleep
| IStopSession
| IRefresh
| ITerminate
| IMarkClosed
| ICloseCh
| IStopLaunching.
#[export] Instance instr_eq : EqDecision instr.
Proof. solve_decision. Defined.

(** How a [Connect] or a [reconnect] ended; [RFailed] is an error of [Connect] other than
    ErrSessionClosed, [RGaveUp] an error of [reconnect] before it reaches [Connect]. *)
Inductive conn_result := RConnected | RClosed | RFailed | RGaveUp.
#[export] Instance conn_result_eq : EqDecision conn_result.
Proof. solve_decision. Defined.

(** [gsConn] is [None] before the first [Connect]; [gsEnds] lists how the attempts ended and
    whether [Close] had begun by then; [gsClose] is [None] before [Close]; [gsWg] counts the
    goroutines started. *)
(* go: engine/goolom/session.go 96-168 Session *)
Record gsession := MkGs {
  gsOnData : bool;
  gsFlags : flags;
  gsPtr : kind -> option nat;
  gsOpen : kind -> gset nat;
  gsNext : nat;
  gsConn : option (list instr);
  gsClose : option (list instr);
  gsEnds : list (conn_result * bool);
  gsWg : nat;
}.

Definition set_flags (s : gsession) (f : flags) : gsession :=
  MkGs (gsOnData s) f (gsPtr s) (gsOpen s) (gsNext s) (gsConn s) (gsClose s) (gsEnds s) (gsWg s).
Definition set_res (s : gsession) (p : kind -> option nat) (w : kind -> gset nat) (n : nat) : gsession :=
  MkGs (gsOnData s) (gsFlags s) p w n (gsConn s) (gsClose s) (gsEnds s) (gsWg s).
Definition set_conn (s : gsession) (c : list instr) : gsession :=
  MkGs (gsOnData s) (gsFlags s) (gsPtr s) (gsOpen s) (gsNext s) (Some c) (gsClose s) (gsEnds s) (gsWg s).
Definition set_closing (s : gsession) (c : list instr) : gsession :=
  MkGs (gsOnData s) (gsFlags s) (gsPtr s) (gsOpen s) (gsNext s) (gsConn s) (Some c) (gsEnds s) (gsWg s).

(* go: engine/goolom/session.go 304-327 New *)
Definition new_session (onData : bool) : gsession :=
  MkGs onData (MkFlags false false false false false false false false false) (fun _ => None) (fun _ => ∅) 0 None None [] 0.

(** ** Programs *)

(* go: engine/goolom/lifecycle.go 23-78 Connect *)
Definition Connect : list instr :=
  [ICheck; IReset; IOpen KSub; IOpen KPub; IAttach; IOpen KDc; IOpen KWs; ILaunch; ILaunch; IWait; IAbortCheck].

(* go: engine/goolom/lifecycle.go 199-225 closePeerConns *)
Definition closePeerConns : list instr := [IClose KPub; IClose KSub].

(* go: engine/goolom/lifecycle.go 80-93 abortIfTerminated *)
Definition abortIfTerminated : list instr := [IClose KDc] ++ closePeerConns ++ [IClose KWs; IReturnClosed].

(* go: engine/goolom/lifecycle.go 313-355 reconnect *)
Definition goolom_reconnect : list instr :=
  [IReCheck; ILeave; ISleep; IStopSession; IClose KDc] ++ closePeerConns ++ [IClose KWs; ISleep; IRefresh] ++ Connect.

(* go: engine/goolom/lifecycle.go 265-306 Close *)
Definition goolom_Close : list instr :=
  [ITerminate; IMarkClosed; ILeave; ICloseCh; IStopSession; IClose KDc] ++ closePeerConns ++ [IClose KWs; IStopLaunching].

(** ** Operations *)

(** The data channel and the socket are taken out of the session before they are closed; the pointers to
    the peer connections stay. *)
Definition keeps_pointer (k : kind) : bool := match k with KSub | KPub => true | _ => false end.

(* go: engine/goolom/lifecycle.go 227-249 closeWebSocket *)
Definition close_res (k : kind) (s : gsession) : gsession :=
  set_res s (if keeps_pointer k then gsPtr s else <[k := None]> (gsPtr s))
    (match gsPtr s k with Some x => <[k := gsOpen s k ∖ {[x]}]> (gsOpen s) | None => gsOpen s end) (gsNext s).

(* go: engine/goolom/media.go 17-39 setupPeerConnections *)
Definition open_res (k : kind) (s : gsession) : gsession :=
  set_res s (<[k := Some (gsNext s)]> (gsPtr s)) (<[k := {[gsNext s]} ∪ gsOpen s k]> (gsOpen s)) (S (gsNext s)).

(** [gsWg] counts the goroutines started here, the ones [Close] waits for. *)
(* go: engine/goolom/session.go 199-216 goLaunch *)
Definition goLaunch (s : gsession) : gsession :=
  if fGoClosed (gsFlags s) then s
  else MkGs (gsOnData s) (gsFlags s) (gsPtr s) (gsOpen s) (gsNext s) (gsConn s) (gsClose s) (gsEnds s) (S (gsWg s)).

(* go: engine/goolom/lifecycle.go 390-396 resetMediaState *)
Definition reset_flags (f : flags) : flags :=
  MkFlags (fTerminated f) false (fQueueClosed f) (fGoClosed f) (fCloseCh f) (fReconnecting f) (fRequested f) false false.

Definition with_reconnecting (b : bool) (f : flags) : flags :=
  MkFlags (fTerminated f) (fClosed f) (fQueueClosed f) (fGoClosed f) (fCloseCh f) b (fRequested f) (fSubReady f)
    (fPubReady f).

(** [Connect] or [reconnect] returns. *)
Definition conn_return (s : gsession) (r : conn_result) : gsession :=
  MkGs (gsOnData s) (with_reconnecting false (gsFlags s)) (gsPtr s) (gsOpen s) (gsNext s) (Some []) (gsClose s)
    (gsEnds s ++ [(r, fTerminated (gsFlags s))]) (gsWg s).

(** One operation of the connecting thread; [ok] is the answer of the library, the timer or the
    credential service. *)
(* go: engine/goolom/lifecycle.go 95-144 startBackgroundGoroutines *)
Definition conn_step (ok : bool) (s : gsession) : gsession :=
  match gsConn s with
  | Some (i :: rest) =>
      match i with
      | ICheck => if fTerminated (gsFlags s) then conn_return s RClosed else set_conn s rest
      | IReset => set_conn (set_flags s (reset_flags (gsFlags s))) rest
      | IOpen k =>
          if bool_decide (k = KDc) && negb (gsOnData s) then set_conn s rest
          else if ok then set_conn (open_res k s) rest
          else conn_return s RFailed
      | IAttach | IWait => if ok then set_conn s rest else conn_return s RFailed
      | ILaunch => set_conn (goLaunch s) rest
      | IAbortCheck => if fTerminated (gsFlags s) then set_conn s abortIfTerminated else conn_return s RConnected
      | IClose k => set_conn (close_res k s) rest
      | IReturnClosed => conn_return s RClosed
      | IReCheck =>
          if fTerminated (gsFlags s) then conn_return s RClosed
          else set_conn (set_flags s (with_reconnecting true (gsFlags s))) rest
      | ISleep | IRefresh => if ok then set_conn s rest else conn_return s RGaveUp
      | _ => set_conn s rest
      end
  | _ => s
  end.

(** One operation of [Close]; what follows [IStopLaunching] is a bounded wait. *)
Definition close_step (s : gsession) : gsession :=
  match gsClose s with
  | Some (i :: rest) =>
      let f := gsFlags s in
      match i with
      | ITerminate =>
          set_closing (set_flags s (MkFlags true (fClosed f) (fQueueClosed f) (fGoClosed f) (fCloseCh f)
                                      (fReconnecting f) (fRequested f) (fSubReady f) (fPubReady f))) rest
      | IMarkClosed =>
          set_closing (set_flags s (MkFlags (fTerminated f) true true (fGoClosed f) (fCloseCh f)
                                      (fReconnecting f) (fRequested f) (fSubReady f) (fPubReady f))) rest
      | ICloseCh =>
          set_closing (set_flags s (MkFlags (fTerminated f) (fClosed f) (fQueueClosed f) (fGoClosed f) true
                                      (fReconnecting f) (fRequested f) (fSubReady f) (fPubReady f))) rest
      | IStopLaunching =>
          set_closing (set_flags s (MkFlags (fTerminated f) (fClosed f) (fQueueClosed f) true (fCloseCh f)
                                      (fReconnecting f) (fRequested f) (fSubReady f) (fPubReady f))) rest
      | IClose k => set_closing (close_res k s) rest
      | _ => set_closing s rest
      end
  | _ => s
  end.

(** ** Callbacks *)

Inductive pc_state := PcNew | PcConnected | PcDisconnected | PcFailed | PcClosed.

Definition with_requested (b : bool) (f : flags) : flags :=
  MkFlags (fTerminated f) (fClosed f) (fQueueClosed f) (fGoClosed f) (fCloseCh f) (fReconnecting f) b (fSubReady f)
    (fPubReady f).
Definition with_ready (sub pub : bool) (f : flags) : flags :=
  MkFlags (fTerminated f) (fClosed f) (fQueueClosed f) (fGoClosed f) (fCloseCh f) (fReconnecting f) (fRequested f) sub pub.

(** [policy] is the caller's [shouldReconnect]. *)
(* go: engine/goolom/lifecycle.go 357-359 queueReconnect *)
Definition queueReconnect (policy : bool) (s : gsession) : gsession :=
  let f := gsFlags s in
  if fClosed f || fReconnecting f || negb policy then s else set_flags s (with_requested true f).

(* go: engine/goolom/lifecycle.go 146-150 onConnectionStateChange *)
Definition onConnectionStateChange (policy : bool) (st : pc_state) (s : gsession) : gsession :=
  match st with PcFailed => if fClosed (gsFlags s) then s else queueReconnect policy s | _ => s end.

(* go: engine/goolom/lifecycle.go 152-167 onSubscriberConnectionStateChange *)
Definition onSubscriberConnectionStateChange (policy : bool) (st : pc_state) (s : gsession) : gsession :=
  let f := gsFlags s in
  let s := match st with
           | PcConnected => set_flags s (with_ready true (fPubReady f) f)
           | PcDisconnected | PcFailed | PcClosed => set_flags s (with_ready false (fPubReady f) f)
           | PcNew => s
           end in
  onConnectionStateChange policy st s.

(* go: engine/goolom/lifecycle.go 169-189 onPublisherConnectionStateChange *)
Definition onPublisherConnectionStateChange (policy : bool) (st : pc_state) (s : gsession) : gsession :=
  let f := gsFlags s in
  match st with
  | PcConnected => set_flags s (with_ready (fSubReady f) true f)
  | PcDisconnected | PcFailed | PcClosed => queueReconnect policy (set_flags s (with_ready (fSubReady f) false f))
  | PcNew => s
  end.

(* go: engine/goolom/lifecycle.go 398-402 signalEnded *)
Definition signalEnded (s : gsession) : gsession :=
  let f := gsFlags s in
  set_flags s (MkFlags (fTerminated f) true (fQueueClosed f) (fGoClosed f) (fCloseCh f) (fReconnecting f) (fRequested f)
                 (fSubReady f) (fPubReady f)).

(* go: engine/goolom/lifecycle.go 361-372 Reconnect *)
Definition Reconnect (policy : bool) (s : gsession) : gsession :=
  if fClosed (gsFlags s) then s else queueReconnect policy s.

(** The publisher whose remote description failed is closed by a goroutine. *)
Definition close_publisher (n : nat) (s : gsession) : gsession :=
  if fGoClosed (gsFlags s) then s
  else set_res (goLaunch s) (gsPtr s) (<[KPub := gsOpen s KPub ∖ {[n]}]> (gsOpen s)) (gsNext s).

(** ** Runs *)

(** [EvFault] stands for a read, ping or send error and for a closed data channel. *)
Inductive gevent :=
| EvConnect
| EvWatch
| EvStep (ok : bool)
| EvClose
| EvCloseStep
| EvSubState (policy : bool) (st : pc_state)
| EvPubState (policy : bool) (st : pc_state)
| EvFault (policy : bool)
| EvDcOpen
| EvEnded
| EvReconnect (policy : bool)
| EvAnswerFailed (n : nat).

Definition gstep (s : gsession) (e : gevent) : gsession :=
  match e with
  | EvConnect => match gsConn s with None => set_conn s Connect | Some _ => s end
  | EvWatch =>
      match gsConn s with
      | Some [] =>
          if fRequested (gsFlags s) then set_conn (set_flags s (with_requested false (gsFlags s))) goolom_reconnect else s
      | _ => s
      end
  | EvStep ok => conn_step ok s
  | EvClose => match gsClose s with None => set_closing s goolom_Close | Some _ => s end
  | EvCloseStep => close_step s
  | EvSubState p st => onSubscriberConnectionStateChange p st s
  | EvPubState p st => onPublisherConnectionStateChange p st s
  | EvFault p => queueReconnect p s
  | EvDcOpen => goLaunch (goLaunch (goLaunch (goLaunch s)))
  | EvEnded => signalEnded s
  | EvReconnect p => Reconnect p s
  | EvAnswerFailed n => close_publisher n s
  end.

Definition grun (s : gsession) (es : list gevent) : gsession := fold_left gstep es s.
