(* ===== verification/GoolomFacts.v ===== *)
(** * GoolomFacts: what a Goolom session leaves open, and what it believes of its server *)

From stdpp Require Import functions.
From S2P Require Import Prelude Bytes Text SessionConfig ConfigFile NetAddr IceServers Goolom GoolomRun.

(** ** Resources *)

Definition kinds : list kind := [KSub; KPub; KDc; KWs].
Lemma in_kinds k : k ∈ kinds.
Proof. destruct k; by vm_compute; repeat constructor. Qed.

(** What the positions of a connecting program promise: a resource is made once, after the old one was closed
    and before the check for a meanwhile [Close]; the places where a program can stop without that check lie before
    anything is made or after everything is closed. *)
Fixpoint well_placed (r : list instr) : bool :=
  match r with
  | [] => true
  | i :: l =>
      match i with
      | IOpen k => bool_decide (IOpen k ∉ l) && bool_decide (IClose k ∉ l) && bool_decide (IAbortCheck ∈ l)
      | ICheck | IReCheck | ISleep | IRefresh => forallb (fun k => bool_decide (IOpen k ∈ l)) kinds
      | IReturnClosed => bool_decide (l = [])
      | _ => true
      end && well_placed l
  end.

Lemma programs_well_placed :
  well_placed Connect = true /\ well_placed goolom_reconnect = true /\ well_placed abortIfTerminated = true.
Proof. by vm_compute. Qed.

(** [Close] is past closing resources of this kind. *)
Definition swept (s : gsession) (k : kind) : Prop := exists c, gsClose s = Some c /\ IClose k ∉ c.

(** The connecting thread has made a resource of this kind and will still look at it. *)
Definition pending (s : gsession) (k : kind) : Prop :=
  exists r, gsConn s = Some r /\ IOpen k ∉ r /\ (IAbortCheck ∈ r \/ IClose k ∈ r).

(** Some [Connect] failed after [Close] had begun. *)
Definition failed_late (s : gsession) : Prop := (RFailed, true) ∈ gsEnds s.

Record gs_ok (s : gsession) : Prop := {
  gk_ptr : forall k x, x ∈ gsOpen s k -> gsPtr s k = Some x;
  gk_idle : gsConn s = None -> forall k, gsOpen s k = ∅;
  gk_wf : forall r, gsConn s = Some r -> well_placed r = true;
  gk_fresh : forall r k, gsConn s = Some r -> IOpen k ∈ r -> IClose k ∉ r -> gsOpen s k = ∅;
  gk_close : match gsClose s with
             | None => fTerminated (gsFlags s) = false
             | Some c => c = goolom_Close /\ fTerminated (gsFlags s) = false \/
                         ITerminate ∉ c /\ fTerminated (gsFlags s) = true
             end;
  gk_swept : forall k, swept s k -> gsOpen s k = ∅ \/ pending s k \/ failed_late s;
}.

Lemma gs_ok_new b : gs_ok (new_session b).
Proof. constructor; try done. by left. Qed.

Lemma swept_terminated s k : gs_ok s -> swept s k -> fTerminated (gsFlags s) = true.
Proof.
  intros Hs (c & Hc & Hn). pose proof (gk_close _ Hs) as H. rewrite Hc in H.
  destruct H as [[-> _]|[_ H]]; [|done]. exfalso. apply Hn. destruct k; vm_compute; repeat constructor.
Qed.

(** A step that touches neither resources nor threads. *)
Lemma gs_ok_quiet s s' :
  gs_ok s -> gsOpen s' = gsOpen s -> gsPtr s' = gsPtr s -> gsConn s' = gsConn s -> gsClose s' = gsClose s ->
  gsEnds s' = gsEnds s -> fTerminated (gsFlags s') = fTerminated (gsFlags s) -> gs_ok s'.
Proof.
  intros [H1 H2 H3 H4 H5 H6] Ho Hp Hc Hcl He Ht.
  constructor; unfold swept, pending, failed_late in *; rewrite ?Ho, ?Hp, ?Hc, ?Hcl, ?He, ?Ht in *; auto.
Qed.

(** Closing through the pointer leaves nothing open of a kind, and only removes. *)
Lemma close_res_open s k : gs_ok s -> gsOpen (close_res k s) k = ∅.
Proof.
  intros Hs. cbn. destruct (gsPtr s k) as [x|] eqn:Hp.
  - rewrite fn_lookup_insert. apply set_eq. intros y. rewrite elem_of_difference, elem_of_singleton.
    split; [|set_solver]. intros [Hy Hne]. apply (gk_ptr _ Hs) in Hy. congruence.
  - apply set_eq. intros y. split; [|set_solver]. intros Hy. apply (gk_ptr _ Hs) in Hy. congruence.
Qed.

Lemma close_res_other s k k' : k' <> k -> gsOpen (close_res k s) k' = gsOpen s k'.
Proof. intros Hne. cbn. destruct (gsPtr s k); [by rewrite fn_lookup_insert_ne by done|done]. Qed.

Lemma close_res_sub s k k' x : x ∈ gsOpen (close_res k s) k' -> x ∈ gsOpen s k'.
Proof.
  destruct (decide (k' = k)) as [->|Hne]; [|by rewrite close_res_other].
  cbn. destruct (gsPtr s k); [|done]. rewrite fn_lookup_insert. set_solver.
Qed.

Lemma close_res_ptr s k k' x : gs_ok s -> x ∈ gsOpen (close_res k s) k' -> gsPtr (close_res k s) k' = Some x.
Proof.
  intros Hs Hx. destruct (decide (k' = k)) as [->|Hne]; [rewrite close_res_open in Hx by done; set_solver|].
  apply close_res_sub, (gk_ptr _ Hs) in Hx. cbn. destruct (keeps_pointer k); [done|]. by rewrite fn_lookup_insert_ne.
Qed.

Lemma empty_sub (s s' : gsession) k :
  (forall x, x ∈ gsOpen s' k -> x ∈ gsOpen s k) -> gsOpen s k = ∅ -> gsOpen s' k = ∅.
Proof. intros Hsub He. apply set_eq. intros x. split; [|set_solver]. intros Hx%Hsub. by rewrite He in Hx. Qed.

(** The return of the connecting thread. *)
Lemma conn_return_ok s r rest i :
  gs_ok s -> gsConn s = Some (i :: rest) ->
  (forall k, pending s k -> (r = RFailed /\ fTerminated (gsFlags s) = true) \/ ~ swept s k) ->
  gs_ok (conn_return s r).
Proof.
  intros Hs Hc Hp. pose proof Hs as [H1 H2 H3 H4 H5 H6]. constructor; cbn; try done.
  - by intros ? [= <-].
  - by intros ? k [= <-] ?%elem_of_nil.
  - intros k Hsw. destruct (H6 k Hsw) as [?|[Hpe|?]]; [by left| |].
    + destruct (Hp k Hpe) as [[-> Ht]|?]; [|done]. right. right. unfold failed_late. cbn. rewrite Ht.
      apply elem_of_app. right. by left.
    + right. right. unfold failed_late. cbn. apply elem_of_app. by left.
Qed.

(** The thread goes on without touching a resource. *)
Lemma conn_next_ok s s' i rest :
  gs_ok s -> gsConn s = Some (i :: rest) -> i <> IAbortCheck -> (forall k, i <> IClose k) ->
  gsOpen s' = gsOpen s -> gsPtr s' = gsPtr s -> gsClose s' = gsClose s -> gsEnds s' = gsEnds s ->
  fTerminated (gsFlags s') = fTerminated (gsFlags s) -> gs_ok (set_conn s' rest).
Proof.
  intros [H1 H2 H3 H4 H5 H6] Hc Hi Hi' Ho Hp Hcl He Ht. constructor; cbn; rewrite ?Ho, ?Hp, ?Hcl, ?Ht; try done.
  - intros r [= <-]. specialize (H3 _ Hc). cbn in H3. by apply andb_prop in H3 as [_ ?].
  - intros r k [= <-] Hin Hnin. apply (H4 _ k Hc); [by right|]. apply not_elem_of_cons. split; [|done]. congruence.
  - intros k Hsw. destruct (H6 k) as [?|[(r & Hr & Hno & Hor)|?]].
    + by unfold swept in *; cbn in *; rewrite Hcl in Hsw.
    + by left.
    + right. left. exists rest. split; [done|]. rewrite Hc in Hr. injection Hr as <-.
      apply not_elem_of_cons in Hno as [_ Hno]. split; [done|].
      rewrite !elem_of_cons in Hor. destruct Hor as [[?|?]|[?|?]]; [congruence|by left|naive_solver|by right].
    + right. right. unfold failed_late in *. cbn. by rewrite He.
Qed.

Lemma open_res_new s k :
  gsOpen (open_res k s) k = {[gsNext s]} ∪ gsOpen s k /\ gsPtr (open_res k s) k = Some (gsNext s).
Proof. unfold open_res, set_res. cbn [gsOpen gsPtr]. by rewrite !fn_lookup_insert. Qed.

Lemma open_res_other s k k' :
  k' <> k -> gsOpen (open_res k s) k' = gsOpen s k' /\ gsPtr (open_res k s) k' = gsPtr s k'.
Proof. intros. unfold open_res, set_res. cbn [gsOpen gsPtr]. by rewrite !fn_lookup_insert_ne. Qed.

Lemma conn_open_ok s k rest :
  gs_ok s -> gsConn s = Some (IOpen k :: rest) -> gs_ok (set_conn (open_res k s) rest).
Proof.
  intros Hs Hc. pose proof Hs as [H1 H2 H3 H4 H5 H6]. pose proof (H3 _ Hc) as Hwf. cbn in Hwf.
  apply andb_prop in Hwf as [Hk Hwf]. apply andb_prop in Hk as [Hk Ha%bool_decide_eq_true].
  apply andb_prop in Hk as [Ho%bool_decide_eq_true Hcl%bool_decide_eq_true].
  assert (Hemp : gsOpen s k = ∅) by (apply (H4 _ k Hc); [by left|by apply not_elem_of_cons]).
  assert (Hne : forall k', k' <> k -> gsOpen (open_res k s) k' = gsOpen s k') by (intros; by apply open_res_other).
  constructor; cbn -[open_res].
  - intros k' x Hx. destruct (decide (k' = k)) as [->|Hn].
    + destruct (open_res_new s k) as [Ho' ->]. rewrite Ho', Hemp in Hx. f_equal. set_solver.
    + rewrite Hne in Hx by done. rewrite (proj2 (open_res_other s k k' Hn)). by apply H1.
  - done.
  - by intros r [= <-].
  - intros r k' [= <-] Hin Hnin. destruct (decide (k' = k)) as [->|Hn]; [done|].
    rewrite Hne by done. apply (H4 _ k' Hc); [by right|by apply not_elem_of_cons].
  - exact H5.
  - intros k' Hsw. destruct (decide (k' = k)) as [->|Hn]; [right; left; exists rest; by auto|].
    destruct (H6 k' Hsw) as [?|[(r & Hr & Hno & Hor)|?]]; [left; by rewrite Hne| |by right; right].
    right. left. exists rest. split; [done|]. rewrite Hc in Hr. injection Hr as <-.
    apply not_elem_of_cons in Hno as [_ Hno]. split; [done|]. rewrite !elem_of_cons in Hor. naive_solver.
Qed.

Lemma conn_close_ok s k rest :
  gs_ok s -> gsConn s = Some (IClose k :: rest) -> gs_ok (set_conn (close_res k s) rest).
Proof.
  intros Hs Hc. pose proof Hs as [H1 H2 H3 H4 H5 H6]. constructor; cbn -[close_res].
  - intros k' x. by apply close_res_ptr.
  - done.
  - intros r [= <-]. specialize (H3 _ Hc). cbn in H3. done.
  - intros r k' [= <-] Hin Hnin. destruct (decide (k' = k)) as [->|Hn]; [by apply close_res_open|].
    rewrite close_res_other by done. apply (H4 _ k' Hc); [by right|]. apply not_elem_of_cons. split; [congruence|done].
  - exact H5.
  - intros k' Hsw. destruct (decide (k' = k)) as [->|Hn]; [left; by apply close_res_open|].
    destruct (H6 k' Hsw) as [?|[(r & Hr & Hno & Hor)|?]]; [left; by rewrite close_res_other| |by right; right].
    right. left. exists rest. split; [done|]. rewrite Hc in Hr. injection Hr as <-.
    apply not_elem_of_cons in Hno as [_ Hno]. split; [done|]. rewrite !elem_of_cons in Hor. naive_solver.
Qed.

Lemma conn_abort_ok s rest :
  gs_ok s -> gsConn s = Some (IAbortCheck :: rest) -> fTerminated (gsFlags s) = true ->
  gs_ok (set_conn s abortIfTerminated).
Proof.
  intros [H1 H2 H3 H4 H5 H6] Hc Ht. constructor; cbn -[abortIfTerminated]; try done.
  - intros r [= <-]. apply programs_well_placed.
  - intros r k [= <-] Hin. exfalso. revert Hin. rewrite <- (bool_decide_eq_true (IOpen k ∈ abortIfTerminated)).
    by destruct k.
  - intros k Hsw. right. left. exists abortIfTerminated. split; [done|].
    split; [apply (bool_decide_eq_true (IOpen k ∉ _)); by destruct k|].
    right. apply (bool_decide_eq_true (IClose k ∈ _)). by destruct k.
Qed.

(** Where every resource has still to be made, nothing is pending. *)
Lemma nothing_pending s i rest k :
  gsConn s = Some (i :: rest) -> forallb (fun k => bool_decide (IOpen k ∈ rest)) kinds = true -> ~ pending s k.
Proof.
  intros Hc Hall (r & Hr & Hno & _). rewrite Hc in Hr. injection Hr as <-. apply Hno. right.
  rewrite forallb_forall in Hall. by apply (bool_decide_eq_true (IOpen k ∈ rest)), Hall, list_elem_of_In, in_kinds.
Qed.

Lemma conn_step_ok ok s : gs_ok s -> gs_ok (conn_step ok s).
Proof.
  intros Hs. unfold conn_step. destruct (gsConn s) as [[|i rest]|] eqn:Hc; [done| |done].
  pose proof (gk_wf _ Hs _ Hc) as Hwf.
  assert (Hfail : forall k, pending s k -> RFailed = RFailed /\ fTerminated (gsFlags s) = true \/ ~ swept s k).
  { intros k _. destruct (fTerminated (gsFlags s)) eqn:Ht; [by left|]. right. intros Hsw.
    by rewrite (swept_terminated _ _ Hs Hsw) in Ht. }
  assert (Hnone : forall r, forallb (fun k => bool_decide (IOpen k ∈ rest)) kinds = true -> gs_ok (conn_return s r)).
  { intros r Hall. eapply conn_return_ok; [done..|]. intros k Hp. by destruct (nothing_pending _ _ _ _ Hc Hall Hp). }
  destruct i; cbn in Hwf; try (apply andb_prop in Hwf as [Hall Hwf]).
  all: try (by eapply conn_next_ok).
  - destruct (fTerminated _); [by apply Hnone|by eapply conn_next_ok].
  - destruct (bool_decide (k = KDc) && negb (gsOnData s)); [by eapply conn_next_ok|].
    destruct ok; [by apply conn_open_ok|by eapply conn_return_ok].
  - destruct ok; [by eapply conn_next_ok|by eapply conn_return_ok].
  - unfold goLaunch. destruct (fGoClosed _); by eapply conn_next_ok.
  - destruct ok; [by eapply conn_next_ok|by eapply conn_return_ok].
  - destruct (fTerminated _) eqn:Ht; [by eapply conn_abort_ok|]. eapply conn_return_ok; [done..|].
    intros k _. right. intros Hsw. by rewrite (swept_terminated _ _ Hs Hsw) in Ht.
  - by apply conn_close_ok.
  - eapply conn_return_ok; [done..|]. intros k (r & Hr & _ & Hor). rewrite Hc in Hr. injection Hr as <-.
    apply bool_decide_eq_true in Hall as ->. rewrite !elem_of_cons, !elem_of_nil in Hor. naive_solver.
  - destruct (fTerminated _); [by apply Hnone|by eapply conn_next_ok].
  - destruct ok; [by eapply conn_next_ok|by apply Hnone].
  - destruct ok; [by eapply conn_next_ok|by apply Hnone].
Qed.

(** [Close] goes on. *)
Lemma close_next_ok s s' i rest :
  gs_ok s -> gsClose s = Some (i :: rest) -> (forall k, i <> IClose k) ->
  gsOpen s' = gsOpen s -> gsPtr s' = gsPtr s -> gsConn s' = gsConn s -> gsEnds s' = gsEnds s ->
  fTerminated (gsFlags s') = (fTerminated (gsFlags s) || bool_decide (i = ITerminate)) ->
  gs_ok (set_closing s' rest).
Proof.
  intros Hs Hc Hi Ho Hp Hcn He Ht. pose proof Hs as [H1 H2 H3 H4 H5 H6].
  constructor; cbn -[goolom_Close]; rewrite ?Ho, ?Hp, ?Hcn, ?Ht; try done.
  - rewrite Hc in H5. right. destruct H5 as [[Heq H5]|[Hn H5]].
    + injection Heq as -> ->. split; [|by rewrite H5]. apply (bool_decide_eq_true (ITerminate ∉ _)). by vm_compute.
    + apply not_elem_of_cons in Hn as [_ Hn]. by rewrite H5.
  - intros k (c & [= <-] & Hn). destruct (H6 k) as [?|[?|?]].
    + exists (i :: rest). split; [done|]. apply not_elem_of_cons. split; [by intros <-; eapply Hi|done].
    + by left.
    + right. left. unfold pending in *. cbn. by rewrite Hcn.
    + right. right. unfold failed_late in *. cbn. by rewrite He.
Qed.

Lemma close_close_ok s k rest :
  gs_ok s -> gsClose s = Some (IClose k :: rest) -> gs_ok (set_closing (close_res k s) rest).
Proof.
  intros Hs Hc. pose proof Hs as [H1 H2 H3 H4 H5 H6].
  assert (Hsub : forall k', gsOpen s k' = ∅ -> gsOpen (close_res k s) k' = ∅).
  { intros k'. apply empty_sub. intros x. apply close_res_sub. }
  constructor; cbn -[goolom_Close close_res].
  - intros k' x. by apply close_res_ptr.
  - intros Hn k'. by apply Hsub, H2.
  - done.
  - intros r k' Hr Hin Hnin. by eapply Hsub, H4.
  - rewrite Hc in H5. destruct H5 as [[Heq _]|[Hn H5]]; [done|]. apply not_elem_of_cons in Hn as [_ Hn]. by right.
  - intros k' (c & [= <-] & Hn). destruct (decide (k' = k)) as [->|Hne]; [left; by apply close_res_open|].
    destruct (H6 k') as [?|[?|?]]; [|by left; apply Hsub|by right; left|by right; right].
    exists (IClose k :: rest). split; [done|]. apply not_elem_of_cons. split; [congruence|done].
Qed.

Lemma close_step_ok s : gs_ok s -> gs_ok (close_step s).
Proof.
  intros Hs. unfold close_step. destruct (gsClose s) as [[|i rest]|] eqn:Hc; [done| |done].
  destruct i; try (eapply close_next_ok; [done|exact Hc|done..|]; cbn; by rewrite ?orb_false_r, ?orb_true_r).
  by apply close_close_ok.
Qed.

Lemma queueReconnect_quiet p s : gs_ok s -> gs_ok (queueReconnect p s).
Proof. intros Hs. unfold queueReconnect. destruct (_ || _ || _); [done|]. by apply (gs_ok_quiet s). Qed.

Lemma goLaunch_ok s : gs_ok s -> gs_ok (goLaunch s).
Proof. intros Hs. unfold goLaunch. destruct (fGoClosed _); [done|]. by apply (gs_ok_quiet s). Qed.

Lemma close_publisher_ok n s : gs_ok s -> gs_ok (close_publisher n s).
Proof.
  intros Hs. unfold close_publisher, goLaunch. destruct (fGoClosed _); [done|]. pose proof Hs as [H1 H2 H3 H4 H5 H6].
  set (s' := set_res _ _ _ _).
  assert (Hsub : forall k x, x ∈ gsOpen s' k -> x ∈ gsOpen s k).
  { intros k x. subst s'. unfold set_res. cbn [gsOpen]. destruct (decide (k = KPub)) as [->|Hne].
    - rewrite fn_lookup_insert. set_solver.
    - by rewrite fn_lookup_insert_ne. }
  constructor; try done.
  - intros k x Hx. by apply H1, Hsub.
  - intros Hn k. apply (empty_sub s); [apply Hsub|by apply H2].
  - intros r k Hr Hin Hnin. apply (empty_sub s); [apply Hsub|by apply (H4 r k)].
  - intros k Hsw. destruct (H6 k Hsw) as [He|[?|?]]; [left|by right; left|by right; right].
    apply (empty_sub s); [apply Hsub|done].
Qed.

Lemma gstep_ok s e : gs_ok s -> gs_ok (gstep s e).
Proof.
  intros Hs. destruct e; cbn [gstep].
  - destruct (gsConn s) eqn:Hc; [done|]. pose proof Hs as [H1 H2 H3 H4 H5 H6]. constructor; cbn -[Connect]; try done.
    + intros r [= <-]. apply programs_well_placed.
    + intros r k _ _ _. by apply H2.
    + intros k _. left. by apply H2.
  - destruct (gsConn s) as [[|]|] eqn:Hc; try done. destruct (fRequested _); [|done].
    pose proof Hs as [H1 H2 H3 H4 H5 H6]. constructor; cbn -[goolom_reconnect]; try done.
    + intros r [= <-]. apply programs_well_placed.
    + intros r k [= <-] _ Hn. exfalso. apply Hn. apply (bool_decide_eq_true (IClose k ∈ _)). by destruct k.
    + intros k Hsw. destruct (H6 k Hsw) as [?|[(r & Hr & _ & Hor)|?]]; [by left| |by right; right].
      rewrite Hc in Hr. injection Hr as <-. rewrite !elem_of_nil in Hor. naive_solver.
  - by apply conn_step_ok.
  - destruct (gsClose s) eqn:Hc; [done|]. pose proof Hs as [H1 H2 H3 H4 H5 H6]. rewrite Hc in H5.
    constructor; cbn -[goolom_Close]; try done; [by left|].
    intros k (c & [= <-] & Hn). exfalso. apply Hn. apply (bool_decide_eq_true (IClose k ∈ _)). by destruct k.
  - by apply close_step_ok.
  - unfold onSubscriberConnectionStateChange, onConnectionStateChange. destruct st; try by apply (gs_ok_quiet s).
    destruct (fClosed _); [by apply (gs_ok_quiet s)|]. apply queueReconnect_quiet. by apply (gs_ok_quiet s).
  - unfold onPublisherConnectionStateChange. destruct st; try by apply (gs_ok_quiet s).
    all: apply queueReconnect_quiet; by apply (gs_ok_quiet s).
  - by apply queueReconnect_quiet.
  - by do 4 apply goLaunch_ok.
  - by apply (gs_ok_quiet s).
  - unfold Reconnect. destruct (fClosed _); [done|]. by apply queueReconnect_quiet.
  - by apply close_publisher_ok.
Qed.

Lemma grun_ok s es : gs_ok s -> gs_ok (grun s es).
Proof. revert s. induction es as [|e es IH]; [done|]. intros s Hs. cbn. by apply IH, gstep_ok. Qed.

(** ** After [Close] *)

Definition closed_for_good (s : gsession) : Prop :=
  gsClose s = Some [] /\ fTerminated (gsFlags s) = true /\ fGoClosed (gsFlags s) = true /\
  (gsConn s = Some [] \/ gsConn s = Some goolom_reconnect).

Lemma queueReconnect_same p s :
  gsOpen (queueReconnect p s) = gsOpen s /\ gsWg (queueReconnect p s) = gsWg s /\ gsConn (queueReconnect p s) = gsConn s /\
  gsClose (queueReconnect p s) = gsClose s /\ fTerminated (gsFlags (queueReconnect p s)) = fTerminated (gsFlags s) /\
  fGoClosed (gsFlags (queueReconnect p s)) = fGoClosed (gsFlags s).
Proof. unfold queueReconnect. by destruct (_ || _ || _). Qed.

Lemma closed_for_good_step s e :
  closed_for_good s -> closed_for_good (gstep s e) /\ gsOpen (gstep s e) = gsOpen s /\ gsWg (gstep s e) = gsWg s.
Proof.
  intros (Hc & Ht & Hg & Hconn). unfold closed_for_good.
  destruct e; cbn [gstep]; unfold onSubscriberConnectionStateChange, onConnectionStateChange,
    onPublisherConnectionStateChange, Reconnect, close_publisher, conn_step, close_step, goLaunch.
  - destruct Hconn as [Hconn|Hconn]; rewrite Hconn; auto 10.
  - destruct Hconn as [Hconn|Hconn]; rewrite Hconn; [|by auto 10]. destruct (fRequested _); cbn -[goolom_reconnect]; auto 10.
  - destruct Hconn as [Hconn|Hconn]; rewrite Hconn; [by auto 10|]. cbn -[goolom_reconnect]. rewrite Ht. cbn. auto 10.
  - rewrite Hc. auto 10.
  - rewrite Hc. auto 10.
  - destruct st; cbn [gsFlags set_flags fClosed with_ready]; auto 10.
    destruct (fClosed _); [by auto 10|].
    match goal with |- context [queueReconnect ?p ?s'] => destruct (queueReconnect_same p s') as (-> & -> & -> & -> & -> & ->) end.
    auto 10.
  - destruct st; cbn [gsFlags set_flags fClosed with_ready]; auto 10.
    all: match goal with |- context [queueReconnect ?p ?s'] =>
           destruct (queueReconnect_same p s') as (-> & -> & -> & -> & -> & ->) end; auto 10.
  - destruct (queueReconnect_same policy s) as (-> & -> & -> & -> & -> & ->). auto 10.
  - do 4 (rewrite Hg; cbn [gsFlags fGoClosed]). auto 10.
  - cbn. auto 10.
  - destruct (fClosed _); [by auto 10|]. destruct (queueReconnect_same policy s) as (-> & -> & -> & -> & -> & ->). auto 10.
  - rewrite Hg. auto 10.
Qed.

Lemma closed_for_good_run s es :
  closed_for_good s -> gsOpen (grun s es) = gsOpen s /\ gsWg (grun s es) = gsWg s.
Proof.
  revert s. induction es as [|e es IH]; [done|]. intros s Hs. change (grun s (e :: es)) with (grun (gstep s e) es).
  destruct (closed_for_good_step s e Hs) as (Hs' & Ho & Hw). destruct (IH _ Hs') as [-> ->]. done.
Qed.

(** The one-way flags [Close] sets. *)
Definition close_flags_ok (s : gsession) : Prop :=
  forall c, gsClose s = Some c ->
    (IMarkClosed ∉ c -> fQueueClosed (gsFlags s) = true) /\ (IStopLaunching ∉ c -> fGoClosed (gsFlags s) = true).

Lemma close_flags_step s e : close_flags_ok s -> close_flags_ok (gstep s e).
Proof.
  intros Hs. destruct e; cbn [gstep]; unfold onSubscriberConnectionStateChange, onConnectionStateChange,
    onPublisherConnectionStateChange, Reconnect, queueReconnect, close_publisher, conn_step, goLaunch;
    try (by repeat case_match).
  - destruct (gsClose s) eqn:Hc; [done|]. intros c [= <-].
    split; intros Hn; exfalso; apply Hn; apply (bool_decide_eq_true (_ ∈ goolom_Close)); by vm_compute.
  - unfold close_step. destruct (gsClose s) as [[|i rest]|] eqn:Hc; [done| |done]. destruct (Hs _ Hc) as [Hq Hg].
    rewrite !not_elem_of_cons in Hq, Hg.
    destruct i; intros c [= <-]; cbn; split; intros Hn; try done; (apply Hq || apply Hg); by split.
Qed.

Lemma close_flags_run s es : close_flags_ok s -> close_flags_ok (grun s es).
Proof. revert s. induction es as [|e es IH]; [done|]. intros s Hs. cbn. by apply IH, close_flags_step. Qed.

Lemma no_launch_step s e : fGoClosed (gsFlags s) = true -> gsWg (gstep s e) = gsWg s.
Proof.
  intros Hg. destruct e; cbn [gstep]; unfold onSubscriberConnectionStateChange, onConnectionStateChange,
    onPublisherConnectionStateChange, Reconnect, queueReconnect, close_publisher, conn_step, close_step, goLaunch;
    rewrite ?Hg; try (by repeat case_match).
Qed.

(** [Close] runs between the check at the top of [Connect] and the first resource; the rest of
    [Connect] then waits in vain. *)
Definition leaking_session : list gevent :=
  [EvConnect; EvStep true; EvStep true; EvClose] ++ replicate 10 EvCloseStep ++
  replicate 7 (EvStep true) ++ [EvStep false].

(** A [Connect] that fails after [Close] leaks: the attempt is torn down only where it would have
    succeeded. *)
Lemma failed_connect_leaks (es : list gevent) :
  let s := grun (new_session true) leaking_session in
  gsClose s = Some [] /\ gsConn s = Some [] /\ gsEnds s = [(RFailed, true)] /\ gsWg s = 0%nat /\
  forall k, gsOpen (grun s es) k <> ∅.
Proof.
  intros s. assert (Hc : gsClose s = Some [] /\ gsConn s = Some [] /\ gsEnds s = [(RFailed, true)] /\ gsWg s = 0%nat)
    by by vm_compute.
  destruct Hc as (Hc & Hn & He & Hw). split_and!; try done.
  assert (Hg : closed_for_good s) by (split_and!; [done|by vm_compute|by vm_compute|by left]).
  intros k. rewrite (proj1 (closed_for_good_run s es Hg)).
  assert (Hk : bool_decide (gsOpen s k = ∅) = false) by (destruct k; by vm_compute).
  by apply bool_decide_eq_false in Hk.
Qed.

(** C26: a Goolom session closes what it opened.  In every interleaving of [Connect] and the reconnects
    that follow, [Close] and the callbacks, at most one subscriber, one publisher, one data channel and one
    socket are open, those the session points to: no reconnect loses those of the attempt before it.
    Once [Close] is through and no [Connect] is at work, the session has called [Close] on
    everything, unless a [Connect] failed, by an error of its own, after [Close] had begun; and
    once [Close] is through, [goLaunch] starts no goroutine any more (helpers that the code starts
    with a plain [go], to close peer connections and drain RTCP, are not counted)
    and [Send] fails.  The exception is real: in the run [leaking_session], [Close] goes through
    while [Connect] is about to make its peer connections; [Connect] makes both, a data channel and a
    socket, cannot start the goroutines that would serve them, times out, and all four stay open
    whatever happens afterwards. *)
Theorem goolom_close_releases (onData : bool) (es es' : list gevent) :
  let s := grun (new_session onData) es in
  (forall k x, x ∈ gsOpen s k -> gsPtr s k = Some x) /\
  (gsClose s = Some [] -> gsConn s = None \/ gsConn s = Some [] ->
   (forall k, gsOpen s k = ∅) \/ (RFailed, true) ∈ gsEnds s) /\
  (gsClose s = Some [] ->
   (forall e, gsWg (gstep s e) = gsWg s) /\
   forall dcOpen room, goolom_Send dcOpen (fQueueClosed (gsFlags s)) room <> Ok tt) /\
  let s' := grun (new_session true) leaking_session in
  gsClose s' = Some [] /\ gsConn s' = Some [] /\ gsEnds s' = [(RFailed, true)] /\ gsWg s' = 0%nat /\
  forall k, gsOpen (grun s' es') k <> ∅.
Proof.
  intros s. assert (Hs : gs_ok s) by apply grun_ok, gs_ok_new. split; [apply (gk_ptr _ Hs)|].
  split; [|split; [|apply failed_connect_leaks]].
  2: { intros Hc. assert (Hf : close_flags_ok s) by by apply close_flags_run. destruct (Hf _ Hc) as [Hq Hg].
       split; [intros e; apply no_launch_step, Hg, not_elem_of_nil|].
       intros dc room. rewrite Hq by apply not_elem_of_nil. by destruct dc as [[]|]. }
  intros Hc [Hn|Hn]; [left; by apply gk_idle|].
  destruct (decide ((RFailed, true) ∈ gsEnds s)) as [?|Hno]; [by right|]. left. intros k.
  destruct (gk_swept _ Hs k) as [?|[(r & Hr & _ & Hor)|?]]; [|done| |done].
  - exists []. split; [done|]. apply not_elem_of_nil.
  - rewrite Hn in Hr. injection Hr as <-. rewrite !elem_of_nil in Hor. naive_solver.
Qed.

(** A session that connects, loses its publisher, reconnects, and is closed while the new attempt has made
    its peer connections; the data channel opens all the same and the attempt aborts. *)
Definition demo_session : list gevent :=
  [EvConnect] ++ replicate 11 (EvStep true) ++ [EvDcOpen; EvPubState true PcFailed; EvWatch] ++
  replicate 15 (EvStep true) ++ [EvClose] ++ replicate 10 EvCloseStep ++ replicate 15 (EvStep true).

Lemma goolom_close_releases_witness :
  let s := grun (new_session true) demo_session in
  gsClose s = Some [] /\ gsConn s = Some [] /\ gsEnds s = [(RConnected, false); (RClosed, true)] /\
  forall k, gsOpen s k = ∅.
Proof.
  intros s.
  assert (Hc : gsClose s = Some []) by (vm_compute; reflexivity).
  assert (Hn : gsConn s = Some []) by (vm_compute; reflexivity).
  assert (He : gsEnds s = [(RConnected, false); (RClosed, true)]) by (vm_compute; reflexivity).
  split; [exact Hc|]. split; [exact Hn|]. split; [exact He|].
  destruct (goolom_close_releases true demo_session []) as (_ & Hrel & _).
  destruct (Hrel Hc (or_intror Hn)) as [H|H]; [exact H|].
  exfalso. change (grun (new_session true) demo_session) with s in H. rewrite He in H.
  apply elem_of_cons in H as [H|H]; [discriminate|]. apply elem_of_cons in H as [H|H]; [discriminate|].
  apply elem_of_nil in H. exact H.
Defined.

(** ** Signaling *)

(** The offers for the publisher that went out. *)
Definition is_pub_offer (e : geffect) : bool := match e with EWrite (GPubOffer _, true) => true | _ => false end.
Definition pub_offers (l : list geffect) : nat := length (List.filter is_pub_offer l).

Lemma pub_offers_app a b : pub_offers (a ++ b) = (pub_offers a + pub_offers b)%nat.
Proof. unfold pub_offers. by rewrite List.filter_app, length_app. Qed.

(** What may come out of the loop. *)
Definition effect_ok `{WebURL} (e : geffect) : Prop :=
  match e with
  | ETelemetry ep i =>
      (exists host, web_Parse ep = Some ("https", host) /\ host <> "") /\ 1000000000 <= i <= 300000000000
  | EConfig l =>
      l <> [] /\ Forall (fun srv => icURLs srv <> [] /\ Forall (ice_url_ok (hasPionTURNCredentials srv)) (icURLs srv)) l
  | EWrite (GAck uid, _) => uid <> ""
  | _ => True
  end.

Lemma sendAck_ok `{WebURL} uid ok : Forall effect_ok (EWrite <$> sendAck uid ok).
Proof.
  unfold sendAck. destruct (String.eqb_spec uid ""); [constructor|]. by constructor.
Qed.

Lemma sendAck_no_offer uid ok : pub_offers (EWrite <$> sendAck uid ok) = 0%nat.
Proof. unfold sendAck. by destruct (str_eqb uid ""). Qed.

Lemma handleCommonMessages_ok `{WebURL} msg uid ok :
  Forall effect_ok (EWrite <$> handleCommonMessages msg uid ok) /\
  pub_offers (EWrite <$> handleCommonMessages msg uid ok) = 0%nat.
Proof.
  unfold handleCommonMessages. rewrite !fmap_app, !Forall_app, !pub_offers_app.
  assert (Hk : forall k, Forall effect_ok (EWrite <$> (if has_key k msg then sendAck uid ok else [])) /\
                         pub_offers (EWrite <$> (if has_key k msg then sendAck uid ok else [])) = 0%nat).
  { intros k. destruct (has_key k msg); [split; [apply sendAck_ok|apply sendAck_no_offer]|split; [constructor|done]]. }
  rewrite !(fun k => proj2 (Hk k)). split.
  - split_and!; try apply (Hk _). destruct (has_key "ping" msg); by repeat constructor.
  - by destruct (has_key "ping" msg).
Qed.

Lemma telemetryInterval_range `{FloatConv} cfg : 1000000000 <= telemetryInterval cfg <= 300000000000.
Proof.
  unfold telemetryInterval, defaultTelemetryInterval, minTelemetryInterval, maxTelemetryInterval.
  destruct (get_num _ _) as [[n d]|]; [|lia]. repeat case_if; lia.
Qed.

Lemma parseTelemetryCfg_ok `{FloatConv} `{WebURL} hello ep i :
  parseTelemetryCfg hello = Some (ep, i) -> effect_ok (ETelemetry ep i).
Proof.
  unfold parseTelemetryCfg. destruct (get_obj _ _) as [cfg|]; [|done]. cbn zeta.
  destruct (telemetryEndpointAllowed _) eqn:Ha; [|done]. intros [= <- <-]. revert Ha.
  match goal with |- telemetryEndpointAllowed ?e = true -> _ => generalize e; intros endpoint Ha end.
  split; [|apply telemetryInterval_range]. unfold telemetryEndpointAllowed in Ha. destruct (str_eqb endpoint ""); [done|].
  destruct (web_Parse endpoint) as [[sch host]|]; [|done].
  apply andb_prop in Ha as [->%String.eqb_eq Hh%negb_true_iff%String.eqb_neq]. by exists host.
Qed.

Lemma parseICEServer_ok `{URLs} raw srv :
  parseICEServer raw = Some srv -> icURLs srv <> [] /\ Forall (ice_url_ok (hasPionTURNCredentials srv)) (icURLs srv).
Proof.
  unfold parseICEServer. destruct raw; try done. destruct (parseICEURLs l) as [|u us]; [done|].
  set (ice := MkICE _ _ _). cbn [NormaliseICEServers]. destruct (omap _ (icURLs ice)) as [|v vs] eqn:Hv; [done|].
  intros [= <-]. split; [done|].
  change (hasPionTURNCredentials (MkICE (v :: vs) (icUsername ice) (icCredential ice))) with (hasPionTURNCredentials ice).
  cbn [icURLs]. rewrite <- Hv. apply Forall_forall. intros w (raw & _ & Hw)%list_elem_of_omap. by eapply keep_url_ok.
Qed.

Lemma applyServerHelloConfig_ok `{URLs} `{WebURL} hello l :
  applyServerHelloConfig hello = Some l -> effect_ok (EConfig l).
Proof.
  unfold applyServerHelloConfig. destruct (get_obj _ _) as [cfg|]; [|done]. destruct (get_arr _ _) as [a|]; [|done].
  destruct (omap parseICEServer a) as [|s ss] eqn:Hs; [done|]. intros [= <-]. split; [done|]. rewrite <- Hs.
  apply Forall_forall. intros srv (raw & _ & Hr)%list_elem_of_omap. by eapply parseICEServer_ok.
Qed.

Section loop.
Context `{FloatConv} `{WebURL} `{URLs}.

Lemma handleMessageEvents_ok msg uid ok :
  Forall effect_ok (handleMessageEvents msg uid ok) /\ pub_offers (handleMessageEvents msg uid ok) = 0%nat.
Proof.
  unfold handleMessageEvents. rewrite !Forall_app, !pub_offers_app.
  destruct (handleCommonMessages_ok msg uid ok) as [Hc ->].
  assert (Ha : Forall effect_ok (if has_key "ack" msg && negb (str_eqb uid "") then [EResolve uid] else []) /\
               pub_offers (if has_key "ack" msg && negb (str_eqb uid "") then [EResolve uid] else []) = 0%nat).
  { destruct (_ && _); split; by repeat constructor. }
  destruct Ha as [Ha ->]. destruct (get_obj "serverHello" msg) as [hello|]; [|split_and!; by try constructor].
  rewrite !Forall_app, !pub_offers_app, sendAck_no_offer. split_and!; [done| | |apply sendAck_ok|done|].
  - destruct (applyServerHelloConfig hello) eqn:E; constructor; [|constructor]. by eapply applyServerHelloConfig_ok.
  - destruct (parseTelemetryCfg hello) as [[e i]|] eqn:E; constructor; [|constructor]. by eapply parseTelemetryCfg_ok.
  - by destruct (applyServerHelloConfig hello), (parseTelemetryCfg hello) as [[]|].
Qed.

Lemma handleSdpOffer_ok env onData offer uid sendPub :
  let '(w, r) := handleSdpOffer env onData offer uid sendPub in
  Forall effect_ok (EWrite <$> w) /\
  (pub_offers (EWrite <$> w) <= if sendPub && is_ok r then 1 else 0)%nat.
Proof.
  unfold handleSdpOffer. destruct (oeSub env); [|by split; [constructor|destruct sendPub]]. cbn [negb].
  destruct (oeRemote env); [|by split; [constructor|destruct sendPub]]. cbn [negb].
  destruct (oeAnswer env) as [sdp|]; [|by split; [constructor|destruct sendPub]].
  destruct (oeLocal env); [|by split; [constructor|destruct sendPub]]. cbn [negb].
  destruct (oeWrite env); [|by split; [repeat constructor|destruct sendPub]]. cbn [negb].
  set (w := answer_writes _ _ _ _ _).
  assert (Hw : Forall effect_ok (EWrite <$> w) /\ pub_offers (EWrite <$> w) = 0%nat).
  { unfold w, answer_writes. rewrite !fmap_app, !Forall_app, !pub_offers_app, sendAck_no_offer.
    split_and!; [by repeat constructor|apply sendAck_ok|destruct onData; by repeat constructor|by destruct onData]. }
  destruct Hw as [Hw H0w]. destruct sendPub; cbn [negb andb]; [|split; [done|by rewrite H0w]].
  destruct (oePub env); [|split; [done|by rewrite H0w]]. cbn [negb].
  destruct (oeOffer env) as [pub|]; [|split; [done|by rewrite H0w]].
  destruct (oeLocalPub env); [|split; [done|by rewrite H0w]]. cbn [negb].
  destruct (oeWritePub env); cbn [negb]; (split; [rewrite fmap_app, Forall_app; split; [done|by repeat constructor]|]);
    rewrite fmap_app, pub_offers_app, H0w; done.
Qed.

Lemma handleSignalingResponses_ok env msg uid :
  Forall effect_ok (handleSignalingResponses env msg uid) /\ pub_offers (handleSignalingResponses env msg uid) = 0%nat.
Proof.
  unfold handleSignalingResponses. rewrite Forall_app, pub_offers_app. unfold handleSdpAnswer.
  assert (Hi : Forall effect_ok (match get_obj "webrtcIceCandidate" msg with
                | Some cand => match handleICE cand with Some (sub, c) => [ECandidate sub c] | None => [] end
                | None => [] end) /\
               pub_offers (match get_obj "webrtcIceCandidate" msg with
                | Some cand => match handleICE cand with Some (sub, c) => [ECandidate sub c] | None => [] end
                | None => [] end) = 0%nat).
  { destruct (get_obj "webrtcIceCandidate" msg) as [c|]; [destruct (handleICE c) as [[]|]|]; split; by repeat constructor. }
  destruct Hi as [Hi ->]. destruct (get_obj "publisherSdpAnswer" msg); [|split; [split; [constructor|done]|done]].
  destruct (mePub env); cbn [negb].
  - rewrite Forall_app, pub_offers_app, sendAck_no_offer.
    destruct (meAccepted env); cbn [negb]; (split; [split; [split; [by repeat constructor|apply sendAck_ok]|done]|done]).
  - split; [split; [constructor|done]|done].
Qed.

Lemma signaling_turn_ok env onData pubSent msg :
  let '(next, effs) := signaling_turn env onData pubSent msg in
  Forall effect_ok effs /\
  (pub_offers effs <= if pubSent then 0 else match next with Some true => 1 | _ => 0 end)%nat /\
  (pubSent = true -> next <> Some false).
Proof.
  unfold signaling_turn. set (uid := default "" _). destruct (handleMessageEvents_ok msg uid (meOk env)) as [He He0].
  destruct (handleSignalingResponses_ok env msg uid) as [Hr Hr0].
  destruct (isConferenceEndMessage msg).
  { rewrite Forall_app, pub_offers_app, He0. split_and!; [done|by repeat constructor|by destruct pubSent|done]. }
  destruct (get_obj "subscriberSdpOffer" msg) as [offer|].
  - pose proof (handleSdpOffer_ok (meOffer env) onData offer uid (negb pubSent)) as Ho.
    destruct (handleSdpOffer _ _ _ _ _) as [w r]. destruct Ho as [Hw Hp].
    destruct (is_ok r); rewrite ?Forall_app, ?pub_offers_app, ?He0, ?Hr0; destruct pubSent; cbn in Hp; split_and!;
      try done; cbn; lia.
  - rewrite Forall_app, pub_offers_app, He0, Hr0. destruct pubSent; by split_and!.
Qed.

Lemma handleSignaling_ok onData pubSent msgs :
  Forall effect_ok (handleSignaling onData pubSent msgs) /\
  (pub_offers (handleSignaling onData pubSent msgs) <= if pubSent then 0 else 1)%nat.
Proof.
  revert pubSent. induction msgs as [|[env msg] msgs IH]; intros pubSent; cbn [handleSignaling];
    [split; [constructor|destruct pubSent; cbn; lia]|].
  pose proof (signaling_turn_ok env onData pubSent msg) as Ht.
  destruct (signaling_turn env onData pubSent msg) as [[next|] effs]; destruct Ht as (Hf & Hp & Hn).
  - destruct (IH next) as [IH1 IH2]. rewrite Forall_app, pub_offers_app. split; [done|].
    destruct pubSent, next; cbn in *; try lia. by destruct Hn.
  - split; [done|]. by destruct pubSent; cbn in *; lia.
Qed.

(** The messages the server wants acknowledged, beside its hello. *)
Definition acked_keys : list string :=
  ["updateDescription"; "upsertDescription"; "removeDescription"; "slotsConfig"; "slotsMeta"; "vadActivity"; "pong"].

Lemma common_answers msg uid ok :
  (forall k, k ∈ acked_keys -> has_key k msg = true -> uid <> "" -> (GAck uid, ok) ∈ handleCommonMessages msg uid ok) /\
  (has_key "ping" msg = true -> (GPong uid, ok) ∈ handleCommonMessages msg uid ok).
Proof.
  unfold handleCommonMessages. split.
  - intros k Hk Hin Hne. rewrite !elem_of_app.
    assert (Ha : (GAck uid, ok) ∈ (if has_key k msg then sendAck uid ok else [])).
    { rewrite Hin. unfold sendAck. destruct (String.eqb_spec uid ""); [done|]. by left. }
    unfold acked_keys in Hk. rewrite !elem_of_cons, elem_of_nil in Hk.
    destruct Hk as [-> | [-> | [-> | [-> | [-> | [-> | [-> | []]]]]]]]; tauto.
  - intros Hin. rewrite !elem_of_app, Hin. do 6 right. left. by left.
Qed.

Lemma turn_events env onData pubSent msg e :
  e ∈ handleMessageEvents msg (default "" (get_str "uid" msg)) (meOk env) -> e ∈ (signaling_turn env onData pubSent msg).2.
Proof.
  intros He. unfold signaling_turn. destruct (isConferenceEndMessage msg); [cbn; apply elem_of_app; by left|].
  destruct (get_obj "subscriberSdpOffer" msg); [|cbn; apply elem_of_app; by left].
  destruct (handleSdpOffer _ _ _ _ _) as [w r]. destruct (is_ok r); cbn; apply elem_of_app; by left.
Qed.

Lemma turn_continues env onData pubSent msg :
  isConferenceEndMessage msg = false -> exists b, (signaling_turn env onData pubSent msg).1 = Some b.
Proof.
  intros Hm. unfold signaling_turn. rewrite Hm. destruct (get_obj "subscriberSdpOffer" msg); [|by eexists].
  destruct (handleSdpOffer _ _ _ _ _) as [w r]. destruct (is_ok r); by eexists.
Qed.

Lemma loop_reaches onData pubSent msgs i env msg e :
  msgs !! i = Some (env, msg) -> Forall (fun m => isConferenceEndMessage m.2 = false) (take i msgs) ->
  e ∈ handleMessageEvents msg (default "" (get_str "uid" msg)) (meOk env) -> e ∈ handleSignaling onData pubSent msgs.
Proof.
  revert pubSent msgs. induction i as [|i IH]; intros pubSent [|[env0 msg0] msgs]; try done; cbn [handleSignaling].
  - intros [= -> ->] _ He. pose proof (turn_events env onData pubSent msg e He) as Ht.
    destruct (signaling_turn env onData pubSent msg) as [[?|] effs]; cbn in Ht; [apply elem_of_app; by left|done].
  - intros Hi [Hm Hall]%Forall_cons He. destruct (turn_continues env0 onData pubSent msg0 Hm) as [b Hb].
    destruct (signaling_turn env0 onData pubSent msg0) as [n effs]. cbn in Hb. subst n.
    apply elem_of_app. right. by eapply IH.
Qed.

(** C27: the signaling loop trusts its server only so far.  Over any messages the server sends and however pion
    and the socket answer, telemetry goes only to absolute https URLs, at a pace between one second and five
    minutes; the peer connections are configured only with servers that have URLs left, all of them
    scheme:host:port with a STUN or TURN scheme, a non-empty host, a port between 1 and 65535, credentials
    where the scheme is TURN and no query but a UDP or TCP transport of a TURN URL; unless the host itself
    contains a bracket, host:port is an address that [net.SplitHostPort] takes apart again (with a bracket
    inside, [bracket_in_host_survives], it may be one that pion refuses); at most one offer for the publisher goes out; an acknowledgement always
    names what it acknowledges.  Every message up to the end of the conference is answered: each of the
    seven notifications with an acknowledgement of its identifier, and a ping with a pong. *)
Theorem goolom_signaling_sound (onData : bool) (msgs : list (msg_env * list (string * json))) :
  let effs := handleSignaling onData false msgs in
  Forall effect_ok effs /\ (pub_offers effs <= 1)%nat /\
  forall i env msg, msgs !! i = Some (env, msg) ->
    Forall (fun m => isConferenceEndMessage m.2 = false) (take i msgs) ->
    let uid := default "" (get_str "uid" msg) in
    (forall k, k ∈ acked_keys -> has_key k msg = true -> uid <> "" -> EWrite (GAck uid, meOk env) ∈ effs) /\
    (has_key "ping" msg = true -> EWrite (GPong uid, meOk env) ∈ effs).
Proof.
  intros effs. destruct (handleSignaling_ok onData false msgs) as [H1' H2']. split; [done|]. split; [done|].
  intros i env msg Hi Hall uid.
  assert (Hc : forall w, w ∈ handleCommonMessages msg uid (meOk env) -> EWrite w ∈ effs).
  { intros w Hw. eapply loop_reaches; [done..|]. unfold handleMessageEvents. rewrite !elem_of_app. right. right.
    by apply list_elem_of_fmap_2. }
  destruct (common_answers msg uid (meOk env)) as [Ha Hp]. split; [intros k Hk Hin Hne; by eapply Hc, Ha|auto].
Qed.
End loop.

(** A hello with a relay, a plaintext endpoint first, and a pace that would be too fast; then two offers. *)
Definition demo_env (pub : bool) : msg_env :=
  MkMsgEnv true (MkOfferEnv true true (Some "answer") true true true true true (Some "offer") true pub) true true.
Definition demo_msgs : list (msg_env * list (string * json)) :=
  [(demo_env true,
    [("uid", JStr "u1");
     ("serverHello", JObj
       [("rtcConfiguration", JObj [("iceServers", JArr
          [JObj [("urls", JArr [JStr "turn:relay:"; JStr "stun:s:3478"])]; JStr "junk"])]);
        ("telemetryConfiguration", JObj [("endpoint", JStr "https"); ("sendingInterval", JNum 1 2)])])]);
   (demo_env true, [("uid", JStr "u2"); ("subscriberSdpOffer", JObj [("sdp", JStr "x"); ("pcSeq", JNum 3 1)])]);
   (demo_env true, [("uid", JStr "u3"); ("subscriberSdpOffer", JObj [("sdp", JStr "y")])]);
   (demo_env true, [("uid", JStr "u4"); ("vadActivity", JNull); ("ping", JNull)])].

Definition demo_float : FloatConv := {| f64_to_i64 n d := Z.quot n (Zpos d) |}.
Definition demo_web : WebURL := {| web_Parse s := if str_eqb s "https" then Some ("https", "host") else None |}.

Lemma goolom_signaling_sound_witness :
  let effs := @handleSignaling demo_float demo_web toy_urls false false demo_msgs in
  effs = [EConfig [MkICE [string_bytes "stun:s:3478"] "" CredNil]; ETelemetry "https" 1000000000; EWrite (GAck "u1", true);
          EWrite (GSubAnswer 3 "answer", true); EWrite (GAck "u2", true); EWrite (GSetSlots (replicate 8 (1280, 720)), true);
          EWrite (GPubOffer "offer", true);
          EWrite (GSubAnswer 0 "answer", true); EWrite (GAck "u3", true); EWrite (GSetSlots (replicate 8 (1280, 720)), true);
          EWrite (GAck "u4", true); EWrite (GPong "u4", true)] /\
  Forall (@effect_ok demo_web) effs /\ EWrite (GPong "u4", true) ∈ effs.
Proof.
  intros effs. destruct (@goolom_signaling_sound demo_float demo_web toy_urls false demo_msgs) as (Hf & _ & Hans).
  split; [vm_compute; reflexivity|]. split; [exact Hf|].
  apply (Hans 3%nat (demo_env true) [("uid", JStr "u4"); ("vadActivity", JNull); ("ping", JNull)]).
  - reflexivity.
  - repeat constructor.
  - reflexivity.
Defined.
