(* ===== verification/GoolomQueue.v ===== *)
(** * GoolomQueue: the send workers of the goolom engine
    (internal/engine/goolom: sendqueue.go, media.go)

    When the data channel opens, four workers start to drain the one send queue.  A worker takes a message, may wait for
    the channel's buffer, sends it and pauses; the workers are steps of an interleaving.  What one worker does with its message is
    [processSendQueue] of Goolom. *)

From S2P Require Import Prelude Bytes Crypto CryptoReplay CryptoRecord Goolom.

(** ** The queue and its workers *)

(** Waiting for a message, holding one on its way to the channel, pausing after a send, or gone. *)
Inductive qworker := QIdle | QHolds (data : bytes) | QPauses (pause : Z) | QGone.

(** [gqSent] is what the channel was given, in order; [gqSkipped] were too large, [gqLost] were in the hands of a worker that
    left. *)
Record gqueue := MkGq {
  gqWaiting : list bytes; gqWorkers : list qworker; gqSent : list bytes; gqSkipped : list bytes; gqLost : list bytes; gqReconnects : nat }.

(* go: engine/goolom/media.go 83-92 setupDataChannelHandlers *)
Definition on_open (numWorkers : nat) (waiting : list bytes) : gqueue := MkGq waiting (replicate numWorkers QIdle) [] [] [] 0.

(* go: engine/goolom/media.go 87-87 setupDataChannelHandlers *)
Definition numWorkers : nat := 4.

(** A message is queued; worker [i] takes the first one, acts on the one it holds, ends its pause, or sees the end of the
    session while it waits for a message. *)
Inductive q_event :=
| QEnqueue (data : bytes)
| QTake (i : nat)
| QAct (i : nat) (wait sent : bool) (rand : Z)
| QWake (i : nat)
| QLeave (i : nat).

Definition put_worker (q : gqueue) (i : nat) (w : qworker) : gqueue :=
  MkGq (gqWaiting q) (<[i := w]> (gqWorkers q)) (gqSent q) (gqSkipped q) (gqLost q) (gqReconnects q).

Section queue.
Context (shape : TrafficShape).

Definition q_step (q : gqueue) (e : q_event) : gqueue :=
  match e with
  | QEnqueue data => MkGq (gqWaiting q ++ [data]) (gqWorkers q) (gqSent q) (gqSkipped q) (gqLost q) (gqReconnects q)
  | QTake i =>
      match gqWorkers q !! i, gqWaiting q with
      | Some QIdle, data :: rest => put_worker (MkGq rest (gqWorkers q) (gqSent q) (gqSkipped q) (gqLost q) (gqReconnects q)) i (QHolds data)
      | _, _ => q
      end
  | QAct i wait sent rand =>
      match gqWorkers q !! i with
      | Some (QHolds data) =>
          match processSendQueue shape data wait sent rand with
          | WSkip => put_worker (MkGq (gqWaiting q) (gqWorkers q) (gqSent q) (gqSkipped q ++ [data]) (gqLost q) (gqReconnects q)) i QIdle
          | WExit => put_worker (MkGq (gqWaiting q) (gqWorkers q) (gqSent q) (gqSkipped q) (gqLost q ++ [data]) (gqReconnects q)) i QGone
          | WFailed => put_worker (MkGq (gqWaiting q) (gqWorkers q) (gqSent q) (gqSkipped q) (gqLost q ++ [data]) (S (gqReconnects q))) i QGone
          | WSent pause =>
              put_worker (MkGq (gqWaiting q) (gqWorkers q) (gqSent q ++ [data]) (gqSkipped q) (gqLost q) (gqReconnects q)) i
                (if 0 <? pause then QPauses pause else QIdle)
          end
      | _ => q
      end
  | QWake i => match gqWorkers q !! i with Some (QPauses _) => put_worker q i QIdle | _ => q end
  | QLeave i => match gqWorkers q !! i with Some QIdle => put_worker q i QGone | _ => q end
  end.

Definition q_run (q : gqueue) (es : list q_event) : gqueue := fold_left q_step es q.

Definition enqueued (es : list q_event) : list bytes := omap (fun e => match e with QEnqueue d => Some d | _ => None end) es.

(** ** What is proved *)

Definition held (q : gqueue) : list bytes := omap (fun w => match w with QHolds d => Some d | _ => None end) (gqWorkers q).

(** Everything that has entered, wherever it is. *)
Definition accounted (q : gqueue) : list bytes := gqSent q ++ gqSkipped q ++ gqLost q ++ held q ++ gqWaiting q.

Lemma held_insert ws i w w' :
  ws !! i = Some w ->
  omap (fun w => match w with QHolds d => Some d | _ => None end) ws ++ (match w' with QHolds d => [d] | _ => [] end) ≡ₚ
  (match w with QHolds d => [d] | _ => [] end) ++ omap (fun w => match w with QHolds d => Some d | _ => None end) (<[i := w']> ws).
Proof.
  revert i. induction ws as [|x ws IH]; intros [|i] H; try done; simpl in H |- *.
  - injection H as ->. destruct w, w'; simpl; rewrite ?app_nil_r; try done; by rewrite <- Permutation_cons_append.
  - specialize (IH i H). destruct x; simpl; rewrite ?IH; try done. rewrite app_comm_cons. destruct w; simpl; try done. by constructor.
Qed.

Lemma accounted_step q e : accounted (q_step q e) ≡ₚ accounted q ++ (match e with QEnqueue d => [d] | _ => [] end).
Proof.
  destruct e as [d|i|i wait sent rand|i|i]; simpl; rewrite ?app_nil_r.
  - unfold accounted, held. simpl. by rewrite <- !app_assoc.
  - destruct (gqWorkers q !! i) as [[]|] eqn:E; try done. destruct (gqWaiting q) as [|d rest] eqn:Ew; [done|].
    pose proof (held_insert _ _ _ (QHolds d) E) as H. simpl in H. unfold accounted, held. simpl. rewrite Ew, <- H. by rewrite <- !app_assoc.
  - destruct (gqWorkers q !! i) as [[|d| |]|] eqn:E; try done. pose proof (fun w' => held_insert _ _ _ w' E) as H.
    destruct (processSendQueue shape d wait sent rand) as [| |pause|].
    + specialize (H QIdle). simpl in H. rewrite app_nil_r in H. unfold accounted, held. simpl. rewrite H, <- !app_assoc. simpl. solve_Permutation.
    + specialize (H QGone). simpl in H. rewrite app_nil_r in H. unfold accounted, held. simpl. rewrite H, <- !app_assoc. simpl. solve_Permutation.
    + specialize (H (if 0 <? pause then QPauses pause else QIdle)).
      assert ((match (if 0 <? pause then QPauses pause else QIdle) with QHolds d => [d] | _ => [] end) = []) as Hn by (by destruct (0 <? pause)).
      rewrite Hn in H. simpl in H. rewrite app_nil_r in H. unfold accounted, held. simpl. rewrite H, <- !app_assoc. simpl. solve_Permutation.
    + specialize (H QGone). simpl in H. rewrite app_nil_r in H. unfold accounted, held. simpl. rewrite H, <- !app_assoc. simpl. solve_Permutation.
  - destruct (gqWorkers q !! i) as [[]|] eqn:E; try done. pose proof (held_insert _ _ _ QIdle E) as H. simpl in H. rewrite app_nil_r in H.
    unfold accounted, held. simpl. by rewrite <- H.
  - destruct (gqWorkers q !! i) as [[]|] eqn:E; try done. pose proof (held_insert _ _ _ QGone E) as H. simpl in H. rewrite app_nil_r in H.
    unfold accounted, held. simpl. by rewrite <- H.
Qed.
Lemma q_run_accounted q es : accounted (q_run q es) ≡ₚ accounted q ++ enqueued es.
Proof.
  revert q. induction es as [|e es IH]; intros q; [by rewrite app_nil_r|]. cbn [q_run fold_left]. fold (q_run (q_step q e) es).
  rewrite IH, accounted_step, <- app_assoc. by destruct e.
Qed.

(** Workers never multiply, and one that leaves loses at most the message in its hands. *)
Definition gone (w : qworker) : bool := match w with QGone => true | _ => false end.

Lemma gone_insert ws i w w' : ws !! i = Some w -> gone w = false ->
  length (List.filter gone (<[i := w']> ws)) = (length (List.filter gone ws) + if gone w' then 1 else 0)%nat.
Proof.
  revert i. induction ws as [|x ws IH]; intros [|i] H Hw; try done; simpl in H |- *.
  - injection H as ->. rewrite Hw. destruct (gone w'); simpl; lia.
  - destruct (gone x); simpl; rewrite (IH i H Hw); lia.
Qed.

Record gq_ok (n : nat) (q : gqueue) : Prop := {
  gq_workers : length (gqWorkers q) = n;
  gq_lost : (length (gqLost q) <= length (List.filter gone (gqWorkers q)))%nat;
  gq_skipped : Forall (fun d => tsMaxMessageSize shape < len d) (gqSkipped q)
}.

Lemma q_step_ok n q e : gq_ok n q -> gq_ok n (q_step q e).
Proof.
  intros [Hw Hl Hs]. destruct e as [d|i|i wait sent rand|i|i]; simpl.
  - by split.
  - destruct (gqWorkers q !! i) as [[]|] eqn:E; try by split. destruct (gqWaiting q); [by split|].
    split; simpl; [by rewrite length_insert|rewrite (gone_insert _ _ _ _ E) by done; lia|done].
  - destruct (gqWorkers q !! i) as [[|d| |]|] eqn:E; try by split. unfold processSendQueue.
    destruct (Z.ltb_spec (tsMaxMessageSize shape) (len d)); [|destruct wait; [destruct sent; cbn [negb]; [case_match|]|]]; split; simpl;
      rewrite ?length_insert, ?(gone_insert _ _ _ _ E), ?length_app by done; simpl; try done; try lia; try (by apply Forall_app; split; [|constructor]);
      repeat case_match; simpl; try lia.
  - destruct (gqWorkers q !! i) as [[]|] eqn:E; try by split. split; simpl; [by rewrite length_insert|rewrite (gone_insert _ _ _ _ E) by done; lia|done].
  - destruct (gqWorkers q !! i) as [[]|] eqn:E; try by split. split; simpl; [by rewrite length_insert|rewrite (gone_insert _ _ _ _ E) by done; simpl; lia|done].
Qed.

Lemma q_run_ok n q es : gq_ok n q -> gq_ok n (q_run q es).
Proof. revert q. induction es as [|e es IH]; intros q H; [done|]. by apply IH, q_step_ok. Qed.

(** With one worker the queue is first in, first out. *)
Definition fifo (l : list bytes) (q : gqueue) : Prop :=
  length (gqWorkers q) = 1%nat /\ exists pre, l = pre ++ held q ++ gqWaiting q /\ gqSent q `sublist_of` pre.

Lemma fifo_step l q e : fifo l q -> fifo (l ++ match e with QEnqueue d => [d] | _ => [] end) (q_step q e).
Proof.
  intros (Hw & pre & -> & Hs). destruct q as [waiting ws sent skipped lost rec]. simpl in *.
  destruct ws as [|w [|]]; [done| |done]. unfold fifo, held in *. cbn in *.
  destruct e as [d|i|i wait ok rand|i|i]; cbn; rewrite ?app_nil_r.
  - split; [done|]. exists pre. by rewrite <- !app_assoc.
  - destruct i as [|i]; cbn; [|split; [done|by exists pre]]. destruct w; cbn; try (split; [done|by exists pre]).
    destruct waiting as [|d rest]; cbn; (split; [done|by exists pre]).
  - destruct i as [|i]; cbn; [|split; [done|by exists pre]]. destruct w as [|d| |]; cbn; try (split; [done|by exists pre]).
    assert (forall s', s' `sublist_of` pre ++ [d] -> s' `sublist_of` pre ++ [d]) by done.
    destruct (processSendQueue shape d wait ok rand) as [| |pause|]; cbn; (split; [done|]); exists (pre ++ [d]); rewrite <- app_assoc; cbn.
    + split; [done|by apply sublist_inserts_r].
    + split; [done|by apply sublist_inserts_r].
    + destruct (0 <? pause); cbn; (split; [done|by apply sublist_app]).
    + split; [done|by apply sublist_inserts_r].
  - destruct i as [|i]; cbn; [|split; [done|by exists pre]]. destruct w; cbn; (split; [done|by exists pre]).
  - destruct i as [|i]; cbn; [|split; [done|by exists pre]]. destruct w; cbn; (split; [done|by exists pre]).
Qed.

Lemma fifo_run l q es : fifo l q -> fifo (l ++ enqueued es) (q_run q es).
Proof.
  revert l q. induction es as [|e es IH]; intros l q H; [by rewrite app_nil_r|]. cbn [q_run fold_left]. fold (q_run (q_step q e) es).
  replace (l ++ enqueued (e :: es)) with ((l ++ match e with QEnqueue d => [d] | _ => [] end) ++ enqueued es)
    by (rewrite <- app_assoc; by destruct e).
  by apply IH, fifo_step.
Qed.

(** C28: Of the messages that are queued each one is waiting, with one worker, sent once, or dropped: because it is too large, or because
    it was in the hands of a worker that left, at most one for each worker.  One worker would keep their order.  The
    four that are started do not: any message can be overtaken on its way to the ordered data channel, so the
    receiver gets the records of the tunnel in another order than they were written. *)
Theorem goolom_workers_reorder (es : list q_event) (a b : bytes) :
  let q := q_run (on_open numWorkers []) es in
  accounted q ≡ₚ enqueued es /\ (length (held q) + length (gqLost q) <= 4)%nat /\
  Forall (fun d => tsMaxMessageSize shape < len d) (gqSkipped q) /\
  gqSent (q_run (on_open 1 []) es) `sublist_of` enqueued es /\
  (len a <= tsMaxMessageSize shape -> len b <= tsMaxMessageSize shape ->
   gqSent (q_run (on_open numWorkers []) [QEnqueue a; QEnqueue b; QTake 0; QTake 1; QAct 1 true true 0; QAct 0 true true 0]) = [b; a]).
Proof.
  intros q. assert (gq_ok numWorkers q) as [Hw Hl Hs] by (apply q_run_ok; by split).
  split; [by apply (q_run_accounted (on_open numWorkers []))|]. split; [|split; [done|split]].
  - assert (length (held q) + length (List.filter gone (gqWorkers q)) <= length (gqWorkers q))%nat as Hh.
    { unfold held. clear. generalize (gqWorkers q). intros ws. induction ws as [|[|d|p|] ws IH]; simpl; try unfold omap in IH; lia. }
    unfold numWorkers in Hw. lia.
  - assert (fifo ([] ++ enqueued es) (q_run (on_open 1 []) es)) as (_ & pre & Hp & Hsub)
      by (apply fifo_run; split; [done|by exists []]).
    simpl in Hp. rewrite Hp. by apply sublist_inserts_r.
  - intros Ha Hb.
    assert (forall d, len d <= tsMaxMessageSize shape ->
      processSendQueue shape d true true 0 = WSent (if 0 <? tsMinDelay shape then calculateDelay shape 0 else 0)) as Hsend.
    { intros d Hd. unfold processSendQueue. by rewrite (proj2 (Z.ltb_ge _ (len d))) by lia. }
    cbn -[processSendQueue Z.ltb]. rewrite (Hsend b Hb). cbn -[processSendQueue Z.ltb]. by rewrite (Hsend a Ha).
Qed.
End queue.

Lemma goolom_workers_reorder_witness :
  gqSent (q_run (MkShape 100 0 0) (on_open numWorkers [])
    [QEnqueue [1]; QEnqueue [2]; QTake 0; QTake 1; QAct 1 true true 0; QAct 0 true true 0]) = [[2]; [1]].
Proof.
  apply (proj2 (proj2 (proj2 (proj2 (goolom_workers_reorder (MkShape 100 0 0) [] [1] [2]))))); by vm_compute.
Defined.

(** The record layer does not notice: it accepts the two records in the other order. *)
#[local] Existing Instance toy_suite.

Example records_accepted_in_other_order :
  match NewKeySet (replicate 32 7) Client (Some (replicate 16 1)), NewKeySet (replicate 32 7) Server (Some (replicate 16 2)) with
  | Ok kc, Ok ks =>
      (open_all ks (rev (seal_all kc [([1; 2; 3], []); ([4; 5], [])]).2) [[]; []]).2 = [Ok [4; 5]; Ok [1; 2; 3]]
  | _, _ => False
  end.
Proof. by vm_compute. Qed.
