(* ===== verification/Livekit.v ===== *)
(** * Livekit: the LiveKit engine (internal/engine/livekit/livekit.go)

    The room is the SDK's: joining one gives a number, and [lvOpen] holds the rooms joined and not yet
    left.  The thread that connects and reconnects, the one that shuts down and the send worker
    interleave; an operation on shared state is a step, and the answer of the SDK comes with it. *)

From S2P Require Import Prelude Bytes Text SessionConfig Goolom.

Inductive lk_error := ErrLkClosed | ErrLkQueueFull | ErrLkURL | ErrLkToken.

(* go: engine/livekit/livekit.go 178-190 New *)
Definition livekit_New (url token : string) : outcome lk_error (string * string) :=
  if str_eqb url "" then Err ErrLkURL else if str_eqb token "" then Err ErrLkToken else Ok (url, token).

(** ** The life of the session *)

Inductive linstr :=
| LClear
| LJoin
| LPublish
| LStart
| LReconnecting
| LLeave
| LRefresh
| LNotify
| LSignal
| LWait.
#[export] Instance linstr_eq : EqDecision linstr.
Proof. solve_decision. Defined.

(** [lvLate] records that a room was joined after the shutdown had begun; [lvNotified] counts the
    calls of the reconnect callback. *)
Record life := MkLife {
  lvClosed : bool;
  lvReconnecting : bool;
  lvDone : bool;
  lvRequested : bool;
  lvRoom : option nat;
  lvOpen : gset nat;
  lvNext : nat;
  lvConn : option (list linstr);
  lvShut : option (list linstr);
  lvLate : bool;
  lvNotified : nat;
}.

(** ** The outbound queue *)

Inductive fate := FPublished (room : nat) | FPublishError | FDropped.

(** The worker: not started, waiting, holding a message (and whether its bytes are
    subtracted), holding it with the room it will go to, gone. *)
Inductive worker := WNone | WIdle | WHolds (data : bytes) (counted : bool) | WReady (data : bytes) (room : nat) | WGone.
#[export] Instance worker_eq : EqDecision worker.
Proof. solve_decision. Defined.

(** [flAdds] holds the sizes of messages queued and not yet added to [queuedBytes]; [flSent] is
    what [Send] accepted, [flOut] what became of it. *)
Record flow := MkFlow {
  flQueue : list bytes;
  flBytes : Z;
  flAdds : list Z;
  flWorker : worker;
  flSent : list bytes;
  flOut : list (bytes * fate);
}.

(* go: engine/livekit/livekit.go 150-176 Session *)
Record lsession := MkLs { lsLife : life; lsFlow : flow }.

(* go: engine/livekit/livekit.go 206-217 New *)
Definition livekit_session : lsession :=
  MkLs (MkLife false false false false None ∅ 0 None None false 0) (MkFlow [] 0 [] WNone [] []).

(** ** Programs *)

(* go: engine/livekit/livekit.go 230-238 Connect *)
Definition livekit_Connect : list linstr := [LClear; LJoin; LPublish; LStart].
(* go: engine/livekit/livekit.go 393-415 reconnect *)
Definition livekit_reconnect : list linstr := [LReconnecting; LLeave; LRefresh; LJoin; LPublish; LNotify].
(* go: engine/livekit/livekit.go 376-386 shutdown *)
Definition livekit_shutdown : list linstr := [LSignal; LLeave; LWait].

Definition next_conn (v : life) (r : list linstr) : life :=
  MkLife (lvClosed v) (lvReconnecting v) (lvDone v) (lvRequested v) (lvRoom v) (lvOpen v) (lvNext v) (Some r) (lvShut v)
    (lvLate v) (lvNotified v).
Definition next_shut (v : life) (r : list linstr) : life :=
  MkLife (lvClosed v) (lvReconnecting v) (lvDone v) (lvRequested v) (lvRoom v) (lvOpen v) (lvNext v) (lvConn v) (Some r)
    (lvLate v) (lvNotified v).

(** [Connect] or [reconnect] returns. *)
Definition lk_return (v : life) : life :=
  MkLife (lvClosed v) false (lvDone v) (lvRequested v) (lvRoom v) (lvOpen v) (lvNext v) (Some []) (lvShut v)
    (lvLate v) (lvNotified v).

(** Takes the room out of the session and leaves it. *)
(* go: engine/livekit/livekit.go 492-498 swapRoom *)
Definition leave_room (v : life) : life :=
  MkLife (lvClosed v) (lvReconnecting v) (lvDone v) (lvRequested v) None
    (match lvRoom v with Some r => lvOpen v ∖ {[r]} | None => lvOpen v end) (lvNext v) (lvConn v) (lvShut v)
    (lvLate v) (lvNotified v).

(** [connectRoom] answered with a room, which becomes the session's. *)
(* go: engine/livekit/livekit.go 267-275 connectSession *)
Definition join_room (v : life) : life :=
  MkLife (lvClosed v) (lvReconnecting v) (lvDone v) (lvRequested v) (Some (lvNext v)) ({[lvNext v]} ∪ lvOpen v)
    (S (lvNext v)) (lvConn v) (lvShut v) (lvLate v || lvDone v) (lvNotified v).

(** [startSendWorker] is once per session. *)
(* go: engine/livekit/livekit.go 294-299 startSendWorker *)
Definition startSendWorker (w : worker) : worker := match w with WNone => WIdle | _ => w end.

Definition lk_conn_step (ok : bool) (s : lsession) : lsession :=
  let v := lsLife s in
  match lvConn v with
  | Some (i :: rest) =>
      match i with
      | LClear =>
          MkLs (next_conn (MkLife false (lvReconnecting v) (lvDone v) (lvRequested v) (lvRoom v) (lvOpen v) (lvNext v)
                             (lvConn v) (lvShut v) (lvLate v) (lvNotified v)) rest) (lsFlow s)
      | LReconnecting =>
          MkLs (next_conn (MkLife (lvClosed v) true (lvDone v) (lvRequested v) (lvRoom v) (lvOpen v) (lvNext v)
                             (lvConn v) (lvShut v) (lvLate v) (lvNotified v)) rest) (lsFlow s)
      | LLeave => MkLs (next_conn (leave_room v) rest) (lsFlow s)
      | LRefresh | LPublish => MkLs (if ok then next_conn v rest else lk_return v) (lsFlow s)
      | LJoin => MkLs (if ok then next_conn (join_room v) rest else lk_return v) (lsFlow s)
      | LStart =>
          let f := lsFlow s in
          MkLs (lk_return v) (MkFlow (flQueue f) (flBytes f) (flAdds f) (startSendWorker (flWorker f)) (flSent f) (flOut f))
      | LNotify =>
          MkLs (lk_return (MkLife (lvClosed v) (lvReconnecting v) (lvDone v) (lvRequested v) (lvRoom v) (lvOpen v)
                             (lvNext v) (lvConn v) (lvShut v) (lvLate v) (S (lvNotified v)))) (lsFlow s)
      | _ => MkLs (next_conn v rest) (lsFlow s)
      end
  | _ => s
  end.

(** The shutdown waits for the worker. *)
Definition lk_shut_step (s : lsession) : lsession :=
  let v := lsLife s in
  match lvShut v with
  | Some (i :: rest) =>
      match i with
      | LSignal =>
          MkLs (next_shut (MkLife (lvClosed v) (lvReconnecting v) true (lvRequested v) (lvRoom v) (lvOpen v) (lvNext v)
                             (lvConn v) (lvShut v) (lvLate v) (lvNotified v)) rest) (lsFlow s)
      | LLeave => MkLs (next_shut (leave_room v) rest) (lsFlow s)
      | LWait => if bool_decide (flWorker (lsFlow s) ∈ [WNone; WGone]) then MkLs (next_shut v rest) (lsFlow s) else s
      | _ => s
      end
  | _ => s
  end.

(* go: engine/livekit/livekit.go 369-374 Close *)
Definition livekit_Close (v : life) : life :=
  let v := MkLife true (lvReconnecting v) (lvDone v) (lvRequested v) (lvRoom v) (lvOpen v) (lvNext v) (lvConn v) (lvShut v)
             (lvLate v) (lvNotified v) in
  match lvShut v with None => next_shut v livekit_shutdown | Some _ => v end.

(** [true] unless the request was rejected. *)
(* go: engine/livekit/livekit.go 417-419 queueReconnect *)
Definition lk_queueReconnect (policy : bool) (v : life) : life * bool :=
  if lvClosed v || lvReconnecting v || negb policy then (v, false)
  else (MkLife (lvClosed v) (lvReconnecting v) (lvDone v) true (lvRoom v) (lvOpen v) (lvNext v) (lvConn v) (lvShut v)
          (lvLate v) (lvNotified v), true).

(** The callback of a room that was lost. *)
(* go: engine/livekit/livekit.go 258-266 connectSession *)
Definition onDisconnected (policy : bool) (v : life) : life :=
  if lvClosed v || lvReconnecting v then v
  else let '(v, queued) := lk_queueReconnect policy v in if queued then v else livekit_Close v.

(* go: engine/livekit/livekit.go 421-430 Reconnect *)
Definition livekit_Reconnect (policy : bool) (v : life) : life :=
  if lvClosed v then v else (lk_queueReconnect policy v).1.

(** ** Sending *)

(** The message is queued; its bytes are counted by a step of their own. *)
(* go: engine/livekit/livekit.go 355-367 Send *)
Definition livekit_Send (closed : bool) (f : flow) (data : bytes) : flow * outcome lk_error unit :=
  if closed then (f, Err ErrLkClosed)
  else if len (flQueue f) <? 5000 then
    (MkFlow (flQueue f ++ [data]) (flBytes f) (flAdds f ++ [len data]) (flWorker f) (flSent f ++ [data]) (flOut f), Ok tt)
  else (f, Err ErrLkQueueFull).

Definition send_count (f : flow) : flow :=
  match flAdds f with
  | n :: rest => MkFlow (flQueue f) (flBytes f + n) rest (flWorker f) (flSent f) (flOut f)
  | [] => f
  end.

(** What the worker does next: it takes a message, subtracts its bytes, waits for a room that is
    connected and publishes into it, drops the message after a minute, or goes when the session is over. *)
Inductive worker_move := MTake | MCount | MRoom | MPublish (ok : bool) | MDrop | MQuit.

(* go: engine/livekit/livekit.go 301-325 processSendQueue *)
Definition worker_do (v : life) (m : worker_move) (f : flow) : flow :=
  match m, flWorker f with
  | MTake, WIdle =>
      match flQueue f with
      | d :: q => MkFlow q (flBytes f) (flAdds f) (WHolds d false) (flSent f) (flOut f)
      | [] => f
      end
  | MCount, WHolds d false => MkFlow (flQueue f) (flBytes f - len d) (flAdds f) (WHolds d true) (flSent f) (flOut f)
  | MRoom, WHolds d true =>
      match lvRoom v with
      | Some r => MkFlow (flQueue f) (flBytes f) (flAdds f) (WReady d r) (flSent f) (flOut f)
      | None => f
      end
  | MPublish ok, WReady d r =>
      MkFlow (flQueue f) (flBytes f) (flAdds f) WIdle (flSent f)
        (flOut f ++ [(d, if ok then FPublished r else FPublishError)])
  | MDrop, WHolds d true => MkFlow (flQueue f) (flBytes f) (flAdds f) WIdle (flSent f) (flOut f ++ [(d, FDropped)])
  | MQuit, WIdle => if lvDone v then MkFlow (flQueue f) (flBytes f) (flAdds f) WGone (flSent f) (flOut f) else f
  | MQuit, WHolds d true =>
      if lvDone v then MkFlow (flQueue f) (flBytes f) (flAdds f) WGone (flSent f) (flOut f ++ [(d, FDropped)]) else f
  | _, _ => f
  end.

(* go: engine/livekit/livekit.go 450-464 GetBufferedAmount *)
Definition livekit_GetBufferedAmount (f : flow) : Z := if flBytes f <=? 0 then 0 else flBytes f.

(* go: engine/livekit/livekit.go 438-445 CanSend *)
Definition livekit_CanSend (s : lsession) (connected : bool) : bool :=
  let v := lsLife s in
  if lvClosed v || lvReconnecting v || (4000 <=? len (flQueue (lsFlow s))) then false
  else match lvRoom v with Some _ => connected | None => false end.

(** ** Runs *)

Inductive levent :=
| LkConnect
| LkWatch
| LkStep (ok : bool)
| LkClose
| LkShutStep
| LkDisconnected (policy : bool)
| LkReconnect (policy : bool)
| LkSend (data : bytes)
| LkCount
| LkWorker (m : worker_move).

Definition lstep (s : lsession) (e : levent) : lsession :=
  let v := lsLife s in
  match e with
  | LkConnect => match lvConn v with None => MkLs (next_conn v livekit_Connect) (lsFlow s) | Some _ => s end
  | LkWatch =>
      match lvConn v with
      | Some [] =>
          if lvRequested v then
            MkLs (next_conn (MkLife (lvClosed v) (lvReconnecting v) (lvDone v) false (lvRoom v) (lvOpen v) (lvNext v)
                               (lvConn v) (lvShut v) (lvLate v) (lvNotified v)) livekit_reconnect) (lsFlow s)
          else s
      | _ => s
      end
  | LkStep ok => lk_conn_step ok s
  | LkClose => MkLs (livekit_Close v) (lsFlow s)
  | LkShutStep => lk_shut_step s
  | LkDisconnected p => MkLs (onDisconnected p v) (lsFlow s)
  | LkReconnect p => MkLs (livekit_Reconnect p v) (lsFlow s)
  | LkSend d => MkLs v (livekit_Send (lvClosed v) (lsFlow s) d).1
  | LkCount => MkLs v (send_count (lsFlow s))
  | LkWorker m => MkLs v (worker_do v m (lsFlow s))
  end.

Definition lrun (s : lsession) (es : list levent) : lsession := fold_left lstep es s.

(** ** What is proved: order and accounting of the outbound queue, and rooms that outlive [Close] *)

(** ** The queue *)

Fixpoint total (l : list bytes) : Z := match l with [] => 0 | d :: l => len d + total l end.
Fixpoint sum (l : list Z) : Z := match l with [] => 0 | n :: l => n + sum l end.

Lemma total_app a b : total (a ++ b) = total a + total b.
Proof. induction a as [|d a IH]; cbn; [done|]. rewrite IH. lia. Qed.
Lemma sum_app a b : sum (a ++ b) = sum a + sum b.
Proof. induction a as [|d a IH]; cbn; [done|]. rewrite IH. lia. Qed.
Lemma total_nonneg l : 0 <= total l.
Proof. induction l as [|d l IH]; cbn [total]; [lia|]. lia. Qed.

Definition held (w : worker) : list bytes := match w with WHolds d _ | WReady d _ => [d] | _ => [] end.
Definition uncounted (w : worker) : Z := match w with WHolds d false => len d | _ => 0 end.

Record flow_ok (f : flow) : Prop := {
  fo_order : flSent f = (flOut f).*1 ++ held (flWorker f) ++ flQueue f;
  fo_bytes : flBytes f + sum (flAdds f) = total (flQueue f) + uncounted (flWorker f);
  fo_cap : len (flQueue f) <= 5000;
  fo_adds : Forall (Z.le 0) (flAdds f);
}.

Lemma flow_ok_new : flow_ok (lsFlow livekit_session).
Proof. by constructor. Qed.

Lemma Send_ok c f d : flow_ok f -> flow_ok (livekit_Send c f d).1.
Proof.
  intros [H1 H2 H3 H4]. unfold livekit_Send. destruct c; [done|]. destruct (_ <? _) eqn:E; [|done]. bool_to_Prop.
  constructor; cbn [fst flSent flOut flWorker flQueue flBytes flAdds].
  - rewrite H1. by rewrite <- !app_assoc.
  - rewrite total_app, sum_app. cbn. lia.
  - rewrite length_app. cbn. lia.
  - apply Forall_app. split; [done|]. constructor; [lia|constructor].
Qed.

Lemma worker_do_ok v m f : flow_ok f -> flow_ok (worker_do v m f).
Proof.
  intros [H1 H2 H3 H4]. unfold worker_do.
  destruct m, (flWorker f) as [| |d []|d r|] eqn:Hw; cbn [held uncounted] in *; try (by constructor; rewrite ?Hw).
  - destruct (flQueue f) as [|d q] eqn:Hq; [by constructor; rewrite ?Hq, ?Hw|].
    constructor; cbn [flSent flOut flWorker flQueue flBytes flAdds held uncounted] in *; [done|cbn in H2; lia| |done].
    cbn in H3. lia.
  - constructor; cbn [flSent flOut flWorker flQueue flBytes flAdds held uncounted]; [done|lia|done|done].
  - destruct (lvRoom v); by constructor; rewrite ?Hw.
  - constructor; cbn [flSent flOut flWorker flQueue flBytes flAdds held uncounted]; [|done|done|done].
    rewrite H1, fmap_app. by rewrite <- app_assoc.
  - constructor; cbn [flSent flOut flWorker flQueue flBytes flAdds held uncounted]; [|done|done|done].
    rewrite H1, fmap_app. by rewrite <- app_assoc.
  - destruct (lvDone v); by constructor; rewrite ?Hw.
  - destruct (lvDone v); [|by constructor; rewrite ?Hw].
    constructor; cbn [flSent flOut flWorker flQueue flBytes flAdds held uncounted]; [|done|done|done].
    rewrite H1, fmap_app. by rewrite <- app_assoc.
Qed.

Lemma lstep_flow s e : flow_ok (lsFlow s) -> flow_ok (lsFlow (lstep s e)).
Proof.
  intros Hf. destruct e; cbn [lstep]; try done.
  - by destruct (lvConn _).
  - destruct (lvConn _) as [[|]|]; try done. by destruct (lvRequested _).
  - unfold lk_conn_step. destruct (lvConn _) as [[|i rest]|]; [done| |done]. destruct i; try done.
    destruct Hf as [H1 H2 H3 H4]. by constructor; cbn; destruct (flWorker (lsFlow s)).
  - unfold lk_shut_step. destruct (lvShut _) as [[|i rest]|]; [done| |done]. destruct i; try done. by case_match.
  - by apply Send_ok.
  - unfold send_count. destruct (flAdds (lsFlow s)) as [|n l] eqn:Ha; [done|].
    destruct Hf as [H1 H2 H3 H4]. rewrite Ha in H2, H4.
    constructor; cbn [lsFlow flSent flOut flWorker flQueue flBytes flAdds] in *; [done| |done|by inversion H4]. cbn in H2. lia.
  - by apply worker_do_ok.
Qed.

Lemma lrun_flow s es : flow_ok (lsFlow s) -> flow_ok (lsFlow (lrun s es)).
Proof. revert s. induction es as [|e es IH]; [done|]. intros s Hs. cbn. by apply IH, lstep_flow. Qed.

(** The outbound queue of the LiveKit engine.  Whatever connects, closes, sends and works in
    between, what [Send] accepted is, in this order, what the worker has dealt with (each message
    published in one room, failed or dropped, once), the one it holds and the queue, which never
    exceeds its 5000 places; the messages published are therefore a subsequence of those sent.  The amount
    reported as buffered is never negative and never more than what is queued or in the worker's
    hands, and it is exact once every [Send] has counted its bytes. *)
Theorem livekit_queue_in_order (es : list levent) :
  let f := lsFlow (lrun livekit_session es) in
  flSent f = (flOut f).*1 ++ held (flWorker f) ++ flQueue f /\ len (flQueue f) <= 5000 /\
  0 <= livekit_GetBufferedAmount f /\
  livekit_GetBufferedAmount f <= total (flQueue f) + uncounted (flWorker f) /\
  (flAdds f = [] -> livekit_GetBufferedAmount f = total (flQueue f) + uncounted (flWorker f)).
Proof.
  intros f. destruct (lrun_flow livekit_session es flow_ok_new) as [H1 H2 H3 H4]. fold f in H1, H2, H3, H4.
  assert (Hu : 0 <= uncounted (flWorker f)) by (destruct (flWorker f) as [| |d []|d r|]; cbn; lia).
  pose proof (total_nonneg (flQueue f)). unfold livekit_GetBufferedAmount.
  split; [done|]. split; [done|]. split; [case_if; lia|]. split.
  - assert (0 <= sum (flAdds f)) by (clear -H4; induction H4; cbn; lia). case_if; lia.
  - intros Ha. rewrite Ha in H2. cbn in H2. case_if; lia.
Qed.

Definition demo_sending : list levent :=
  [LkConnect; LkStep true; LkStep true; LkStep true; LkStep true; LkSend [1; 2]; LkCount; LkSend [3]; LkCount; LkSend [];
   LkCount; LkWorker MTake; LkWorker MCount; LkWorker MRoom; LkWorker (MPublish true); LkWorker MTake].

Lemma livekit_queue_in_order_witness :
  let f := lsFlow (lrun livekit_session demo_sending) in
  flOut f = [([1; 2], FPublished 0)] /\ flWorker f = WHolds [3] false /\ flQueue f = [[]] /\
  livekit_GetBufferedAmount f = 1 /\ flSent f = [[1; 2]; [3]; []].
Proof.
  intros f. destruct (livekit_queue_in_order demo_sending) as (Ho & _ & _ & _ & Hb). fold f in Ho, Hb.
  split; [vm_compute; reflexivity|]. split; [vm_compute; reflexivity|]. split; [vm_compute; reflexivity|].
  split; [rewrite Hb by (vm_compute; reflexivity)|rewrite Ho]; vm_compute; reflexivity.
Defined.

(** ** Rooms *)

(** A program joins once, and leaves only before that. *)
Fixpoint join_once (r : list linstr) : bool :=
  match r with
  | [] => true
  | LJoin :: l => bool_decide (LJoin ∉ l) && bool_decide (LLeave ∉ l) && join_once l
  | _ :: l => join_once l
  end.

Record life_ok (v : life) : Prop := {
  lk_ptr : forall x, x ∈ lvOpen v -> lvRoom v = Some x;
  lk_idle : lvConn v = None -> lvOpen v = ∅;
  lk_wf : forall r, lvConn v = Some r -> join_once r = true;
  lk_fresh : forall r, lvConn v = Some r -> LJoin ∈ r -> LLeave ∉ r -> lvOpen v = ∅;
  lk_shut : forall c, lvShut v = Some c -> c = livekit_shutdown \/ LSignal ∉ c /\ lvDone v = true;
  lk_swept : forall c, lvShut v = Some c -> LLeave ∉ c -> lvOpen v = ∅ \/ lvLate v = true;
}.

Lemma life_ok_new : life_ok (lsLife livekit_session).
Proof. by constructor. Qed.

(** A step that leaves rooms and threads alone. *)
Lemma life_ok_quiet v v' :
  life_ok v -> lvOpen v' = lvOpen v -> lvRoom v' = lvRoom v -> lvConn v' = lvConn v -> lvShut v' = lvShut v ->
  lvDone v' = lvDone v -> lvLate v' = lvLate v -> life_ok v'.
Proof.
  intros [H1 H2 H3 H4 H5 H6] Ho Hr Hc Hs Hd Hl. constructor; rewrite ?Ho, ?Hr, ?Hc, ?Hs, ?Hd, ?Hl; auto.
Qed.

Lemma leave_room_empty v : life_ok v -> lvOpen (leave_room v) = ∅.
Proof.
  intros Hv. cbn. apply set_eq. intros x. destruct (lvRoom v) as [r|] eqn:Hr.
  - rewrite elem_of_difference, elem_of_singleton. split; [|set_solver]. intros [Hx Hne].
    apply (lk_ptr _ Hv) in Hx. congruence.
  - split; [|set_solver]. intros Hx%(lk_ptr _ Hv). congruence.
Qed.

(** The connecting thread goes on: nothing, a room left, a room joined. *)
Lemma lk_next_ok v i rest :
  life_ok v -> lvConn v = Some (i :: rest) -> i <> LLeave -> life_ok (next_conn v rest).
Proof.
  intros [H1 H2 H3 H4 H5 H6] Hc Hi. constructor; cbn; try done.
  - intros r [= <-]. specialize (H3 _ Hc). destruct i; cbn in H3; try done. by apply andb_prop in H3 as [_ ?].
  - intros r [= <-] Hin Hn. apply (H4 _ Hc); [by right|]. by apply not_elem_of_cons.
Qed.

Lemma lk_leave_ok v rest :
  life_ok v -> lvConn v = Some (LLeave :: rest) -> life_ok (next_conn (leave_room v) rest).
Proof.
  intros Hv Hc. pose proof Hv as [H1 H2 H3 H4 H5 H6]. pose proof (leave_room_empty v Hv) as He.
  constructor; cbn -[leave_room]; rewrite ?He; try done.
  - intros r [= <-]. by specialize (H3 _ Hc).
  - intros c Hs Hn. by left.
Qed.

Lemma lk_join_ok v rest :
  life_ok v -> lvConn v = Some (LJoin :: rest) -> life_ok (next_conn (join_room v) rest).
Proof.
  intros Hv Hc. pose proof Hv as [H1 H2 H3 H4 H5 H6]. specialize (H3 _ Hc). cbn in H3.
  apply andb_prop in H3 as [Hk Hwf]. apply andb_prop in Hk as [Hj%bool_decide_eq_true Hl%bool_decide_eq_true].
  assert (He : lvOpen v = ∅) by (apply (H4 _ Hc); [by left|by apply not_elem_of_cons]).
  constructor; cbn; try done.
  - intros x Hx. f_equal. rewrite He in Hx. set_solver.
  - by intros r [= <-].
  - by intros r [= <-] ?.
  - intros c Hs Hn. right. destruct (H5 _ Hs) as [->|[_ Hd]]; [|by rewrite Hd, orb_true_r].
    exfalso. apply Hn. right. by left.
Qed.

Lemma lk_return_ok v : life_ok v -> lvConn v <> None -> life_ok (lk_return v).
Proof.
  intros [H1 H2 H3 H4 H5 H6] Hc. constructor; cbn; try done; [by intros r [= <-]|]. by intros r [= <-] ?%elem_of_nil.
Qed.

Lemma Close_life_ok v : life_ok v -> life_ok (livekit_Close v).
Proof.
  intros Hv. unfold livekit_Close. cbn zeta. cbn [lvShut]. destruct (lvShut v) eqn:Hs; [by apply (life_ok_quiet v)|].
  destruct Hv as [H1 H2 H3 H4 H5 H6]. constructor; cbn -[livekit_shutdown]; try done; [intros c [= <-]; by left|].
  intros c [= <-] Hn. exfalso. apply Hn. right. by left.
Qed.

Lemma queue_life_ok p v : life_ok v -> life_ok (lk_queueReconnect p v).1.
Proof. intros Hv. unfold lk_queueReconnect. destruct (_ || _ || _); [done|]. by apply (life_ok_quiet v). Qed.

Lemma lk_conn_step_ok ok s : life_ok (lsLife s) -> life_ok (lsLife (lk_conn_step ok s)).
Proof.
  intros Hv. unfold lk_conn_step. destruct (lvConn (lsLife s)) as [[|i rest]|] eqn:Hc; [done| |done].
  assert (Hn : lvConn (lsLife s) <> None) by by rewrite Hc.
  destruct i; cbn [lsLife]; try (by eapply lk_next_ok).
  - eapply (lk_next_ok _ LClear); [by apply (life_ok_quiet (lsLife s))|done|done].
  - destruct ok; [by apply lk_join_ok|by apply lk_return_ok].
  - destruct ok; [by eapply lk_next_ok|by apply lk_return_ok].
  - by apply lk_return_ok.
  - eapply (lk_next_ok _ LReconnecting); [by apply (life_ok_quiet (lsLife s))|done|done].
  - by apply lk_leave_ok.
  - destruct ok; [by eapply lk_next_ok|by apply lk_return_ok].
  - apply lk_return_ok; [by apply (life_ok_quiet (lsLife s))|done].
Qed.

Lemma lk_shut_step_ok s : life_ok (lsLife s) -> life_ok (lsLife (lk_shut_step s)).
Proof.
  intros Hv. unfold lk_shut_step. destruct (lvShut (lsLife s)) as [[|i rest]|] eqn:Hs; [done| |done].
  pose proof Hv as [H1 H2 H3 H4 H5 H6]. destruct i; try done.
  - pose proof (leave_room_empty _ Hv) as He. constructor; cbn -[leave_room]; rewrite ?He; try done.
    + intros c [= <-]. right. destruct (H5 _ Hs) as [Heq|[Hn Hd]]; [done|]. by apply not_elem_of_cons in Hn as [_ ?].
    + intros c _ _. by left.
  - constructor; cbn; try done.
    + intros c [= <-]. right. destruct (H5 _ Hs) as [Heq|[Hn _]]; [injection Heq as ->|].
      * split; [|done]. apply (bool_decide_eq_true (LSignal ∉ _)). by vm_compute.
      * split; [|done]. by apply not_elem_of_cons in Hn as [? _].
    + intros c [= <-] Hn. apply (H6 _ Hs). by apply not_elem_of_cons.
  - destruct (bool_decide _); [|done]. constructor; cbn; try done.
    + intros c [= <-]. right. destruct (H5 _ Hs) as [Heq|[Hn Hd]]; [done|]. by apply not_elem_of_cons in Hn as [_ ?].
    + intros c [= <-] Hn. apply (H6 _ Hs). by apply not_elem_of_cons.
Qed.

Lemma lstep_life s e : life_ok (lsLife s) -> life_ok (lsLife (lstep s e)).
Proof.
  intros Hv. destruct e; cbn [lstep lsLife]; try done.
  - destruct (lvConn (lsLife s)) eqn:Hc; [done|]. pose proof Hv as [H1 H2 H3 H4 H5 H6].
    constructor; cbn -[livekit_Connect]; try done; [by intros r [= <-]|]. intros r _ _ _. by apply H2.
  - destruct (lvConn (lsLife s)) as [[|]|] eqn:Hc; try done. destruct (lvRequested _); [|done].
    pose proof Hv as [H1 H2 H3 H4 H5 H6]. constructor; cbn -[livekit_reconnect]; try done; [by intros r [= <-]|].
    intros r [= <-] _ Hn. exfalso. apply Hn. right. by left.
  - by apply lk_conn_step_ok.
  - by apply Close_life_ok.
  - by apply lk_shut_step_ok.
  - unfold onDisconnected. destruct (_ || _); [done|]. pose proof (queue_life_ok policy _ Hv) as Hq.
    destruct (lk_queueReconnect _ _) as [v' []]; [done|by apply Close_life_ok].
  - unfold livekit_Reconnect. destruct (lvClosed _); [done|]. by apply queue_life_ok.
Qed.

Lemma lrun_life s es : life_ok (lsLife s) -> life_ok (lsLife (lrun s es)).
Proof. revert s. induction es as [|e es IH]; [done|]. intros s Hs. cbn. by apply IH, lstep_life. Qed.

(** ** After [Close] *)

Definition shut_for_good (v : life) : Prop :=
  lvClosed v = true /\ lvShut v = Some [] /\ lvConn v = Some [] /\ lvRequested v = false.

Lemma shut_for_good_step s e :
  shut_for_good (lsLife s) -> shut_for_good (lsLife (lstep s e)) /\ lvOpen (lsLife (lstep s e)) = lvOpen (lsLife s).
Proof.
  intros (Hc & Hs & Hn & Hq). unfold shut_for_good.
  destruct e; cbn [lstep lsLife]; unfold lk_conn_step, lk_shut_step, onDisconnected, livekit_Reconnect, livekit_Close;
    rewrite ?Hn, ?Hs, ?Hq, ?Hc; cbn; rewrite ?Hs; cbn; auto 10.
Qed.

Lemma shut_for_good_run s es : shut_for_good (lsLife s) -> lvOpen (lsLife (lrun s es)) = lvOpen (lsLife s).
Proof.
  revert s. induction es as [|e es IH]; [done|]. intros s Hs. change (lrun s (e :: es)) with (lrun (lstep s e) es).
  destruct (shut_for_good_step s e Hs) as [Hs' Ho]. by rewrite IH.
Qed.

(** The engine loses its room, and while it fetches new credentials the session is closed. *)
Definition outliving : list levent :=
  [LkConnect; LkStep true; LkStep true; LkStep true; LkStep true; LkDisconnected true; LkWatch; LkStep true; LkStep true;
   LkClose; LkShutStep; LkShutStep; LkWorker MQuit; LkShutStep; LkStep true; LkStep true; LkStep true; LkStep true].

(** A LiveKit room can outlive its session.  At most one room is joined at any time, the one the
    session points to, so that a reconnect always leaves the old room first; and when the shutdown has passed the
    room is left, unless one was joined after the shutdown had begun.  That does happen: nothing in the
    reconnect asks whether the session was closed.  In the run [outliving], [Close] returns while a
    reconnect waits for its credentials; the reconnect then joins a room, reports itself to the reconnect
    callback, and the room stays joined whatever happens afterwards. *)
Theorem livekit_room_outlives_close (es es' : list levent) :
  let v := lsLife (lrun livekit_session es) in
  (forall x, x ∈ lvOpen v -> lvRoom v = Some x) /\
  (lvShut v = Some [] -> lvOpen v = ∅ \/ lvLate v = true) /\
  let s := lrun livekit_session outliving in
  lvShut (lsLife s) = Some [] /\ lvClosed (lsLife s) = true /\ lvNotified (lsLife s) = 1%nat /\
  lvOpen (lsLife (lrun s es')) = {[1%nat]}.
Proof.
  intros v. assert (Hv : life_ok v) by apply lrun_life, life_ok_new. split; [apply (lk_ptr _ Hv)|].
  split; [intros Hs; apply (lk_swept _ Hv _ Hs), not_elem_of_nil|]. intros s.
  assert (Hg : shut_for_good (lsLife s)) by by vm_compute.
  split; [by vm_compute|]. split; [by vm_compute|]. split; [by vm_compute|].
  rewrite (shut_for_good_run s es' Hg). apply (bool_decide_eq_true (lvOpen (lsLife s) = {[1%nat]})). by vm_compute.
Qed.

Lemma livekit_room_outlives_close_witness :
  let s := lrun livekit_session (take 14 outliving ++ [LkStep false]) in
  lvShut (lsLife s) = Some [] /\ (lvOpen (lsLife s) = ∅ \/ lvLate (lsLife s) = true) /\ lvLate (lsLife s) = false.
Proof.
  intros s. assert (Hs : lvShut (lsLife s) = Some []) by (vm_compute; reflexivity).
  split; [exact Hs|]. split; [|vm_compute; reflexivity].
  exact (proj1 (proj2 (livekit_room_outlives_close (take 14 outliving ++ [LkStep false]) [])) Hs).
Defined.
