(* ===== verification/LivekitTracks.v ===== *)
(** * LivekitTracks: video tracks of the livekit engine
    (internal/engine/video.go, internal/engine/livekit/livekit.go)

    Tracks are stored for current and future rooms.  A connect installs its room and then publishes what is stored; adding a
    track stores it and then publishes it in the room there is.  Both run at the same time: the steps between their critical
    sections are events, in the order in which they take effect. *)

From S2P Require Import Prelude Bytes.

(** ** Stored tracks *)

(** [vtHandler] is the callback for remote tracks. *)
(* go: engine/video.go 9-14 VideoTrackState *)
Record VideoTrackState := MkVt { vtTracks : list nat; vtHandler : option nat }.

(* go: engine/video.go 16-21 StoreVideoTrack *)
Definition StoreVideoTrack (track : nat) (s : VideoTrackState) : VideoTrackState := MkVt (vtTracks s ++ [track]) (vtHandler s).

(* go: engine/video.go 23-28 SetVideoTrackHandler *)
Definition SetVideoTrackHandler (cb : option nat) (s : VideoTrackState) : VideoTrackState := MkVt (vtTracks s) cb.

(* go: engine/video.go 37-42 HasVideoTracks *)
Definition HasVideoTracks (s : VideoTrackState) : bool := match vtTracks s with [] => false | _ => true end.

(* go: engine/video.go 44-49 WantsVideo *)
Definition WantsVideo (s : VideoTrackState) : bool := HasVideoTracks s || match vtHandler s with Some _ => true | None => false end.

(** The callback on every track, with whether remote video is wanted. *)
(* go: engine/video.go 51-62 RangeVideoTracks *)
Definition RangeVideoTracks {A} (fn : A -> nat -> bool -> A) (a : A) (s : VideoTrackState) : A * bool :=
  (fold_left (fun a t => fn a t (match vtHandler s with Some _ => true | None => false end)) (vtTracks s) a, HasVideoTracks s).

(** ** The session *)

(** [ltAdding] are the calls that have stored their track and have not looked at the room yet; [ltJoined] is a room that was installed
    and whose tracks are still to be published; [ltPublished] are the publications that succeeded. *)
Record lk_tracks := MkLt {
  ltStore : VideoTrackState; ltRoom : option nat; ltAdding : list nat; ltJoined : option nat; ltPublished : list (nat * nat); ltFailed : list nat }.

Definition lk_tracks0 : lk_tracks := MkLt (MkVt [] None) None [] None [] [].

(** [accepts] is whether the room takes a publication. *)
Section tracks.
Context (accepts : nat -> nat -> bool).

(** The publications of one pass, which ends at the first error. *)
Fixpoint publish_all (room : nat) (tracks : list nat) : list (nat * nat) * bool :=
  match tracks with
  | [] => ([], true)
  | t :: ts => if accepts room t then let (l, ok) := publish_all room ts in ((room, t) :: l, ok) else ([], false)
  end.

(* go: engine/livekit/livekit.go 277-292 publishPendingTracks *)
Definition publishPendingTracks (s : lk_tracks) : lk_tracks :=
  match ltRoom s with
  | None => s
  | Some room =>
      let (l, ok) := publish_all room (vtTracks (ltStore s)) in
      MkLt (ltStore s) (ltRoom s) (ltAdding s) None (ltPublished s ++ l) (if ok then ltFailed s else ltFailed s ++ [room])
  end.

(* go: engine/livekit/livekit.go 486-490 setRoom *)
Definition setRoom (room : nat) (s : lk_tracks) : lk_tracks :=
  MkLt (ltStore s) (Some room) (ltAdding s) (Some room) (ltPublished s) (ltFailed s).

(** The first half of [AddVideoTrack], and the second. *)
(* go: engine/livekit/livekit.go 466-468 AddVideoTrack *)
Definition AddVideoTrack (track : nat) (s : lk_tracks) : lk_tracks :=
  MkLt (StoreVideoTrack track (ltStore s)) (ltRoom s) (ltAdding s ++ [track]) (ltJoined s) (ltPublished s) (ltFailed s).

(* go: engine/livekit/livekit.go 470-478 AddVideoTrack *)
Definition add_publish (i : nat) (s : lk_tracks) : lk_tracks :=
  match ltAdding s !! i with
  | None => s
  | Some track =>
      let s := MkLt (ltStore s) (ltRoom s) (delete i (ltAdding s)) (ltJoined s) (ltPublished s) (ltFailed s) in
      match ltRoom s with
      | None => s
      | Some room =>
          if accepts room track then MkLt (ltStore s) (ltRoom s) (ltAdding s) (ltJoined s) (ltPublished s ++ [(room, track)]) (ltFailed s)
          else MkLt (ltStore s) (ltRoom s) (ltAdding s) (ltJoined s) (ltPublished s) (ltFailed s ++ [room])
      end
  end.

Inductive lt_event := LtRoom (room : nat) | LtPublish | LtAdd (track : nat) | LtAdded (i : nat).

(** A pass publishes only after a room was installed. *)
Definition lt_step (s : lk_tracks) (e : lt_event) : lk_tracks :=
  match e with
  | LtRoom room => setRoom room s
  | LtPublish => match ltJoined s with Some _ => publishPendingTracks s | None => s end
  | LtAdd track => AddVideoTrack track s
  | LtAdded i => add_publish i s
  end.

Definition lt_run (es : list lt_event) : lk_tracks := fold_left lt_step es lk_tracks0.

(** ** What is proved *)

Record lt_ok (s : lk_tracks) : Prop := {
  lt_joined : ltJoined s = None \/ ltJoined s = ltRoom s;
  lt_published : forall room t, ltRoom s = Some room -> t ∈ vtTracks (ltStore s) ->
    (room, t) ∈ ltPublished s \/ t ∈ ltAdding s \/ ltJoined s = Some room \/ room ∈ ltFailed s
}.

Lemma publish_all_ok room ts t : t ∈ ts -> (publish_all room ts).2 = true -> (room, t) ∈ (publish_all room ts).1.
Proof.
  induction ts as [|x ts IH]; intros Ht; [by apply not_elem_of_nil in Ht|]. simpl. destruct (accepts room x); [|done].
  destruct (publish_all room ts) as [l ok]. simpl in *. intros Hok. apply elem_of_cons. apply elem_of_cons in Ht as [->|Ht]; [by left|right; by apply IH].
Qed.

Lemma lt_step_ok s e : lt_ok s -> lt_ok (lt_step s e).
Proof.
  intros [Hj Hp]. destruct e as [room| |track|i]; simpl.
  - split; simpl; [by right|]. intros r t [= <-] _. by right; right; left.
  - destruct (ltJoined s) as [j|] eqn:Ej; [|by split; rewrite ?Ej]. unfold publishPendingTracks. destruct (ltRoom s) as [room|] eqn:Er; [|by destruct Hj].
    pose proof (publish_all_ok room (vtTracks (ltStore s))) as Ha. destruct (publish_all room _) as [l ok]. simpl in Ha.
    split; simpl; [by left|]. intros r t [= <-] Ht. destruct ok; [left; apply elem_of_app; right; by apply Ha|].
    right; right; right. apply elem_of_app. right. by apply list_elem_of_singleton.
  - split; simpl; [done|]. intros r t Hr Ht. apply elem_of_app in Ht as [Ht|Ht].
    + destruct (Hp r t Hr Ht) as [?|[?|[?|?]]]; auto. right; left. apply elem_of_app. by left.
    + right; left. apply elem_of_app. by right.
  - unfold add_publish. destruct (ltAdding s !! i) as [track|] eqn:Ea; [|by split]. simpl. destruct (ltRoom s) as [room|] eqn:Er; simpl.
    2: { split; simpl; rewrite ?Er; [done|]. intros r t [=]. }
    destruct (accepts room track) eqn:Eacc; (split; simpl; [done|]); intros r t [= <-] Ht;
      (destruct (Hp room t eq_refl Ht) as [?|[Hin|[?|?]]]; [| |auto|]); rewrite ?elem_of_app, ?list_elem_of_singleton; auto;
      destruct (in_delete _ _ _ _ Ea Hin) as [->|?]; auto.
Qed.

(** No track is lost: when nothing is under way, every track that was ever added is published in the room the session is in, unless
    a publication in that room failed. *)
Theorem tracks_published (es : list lt_event) (room track : nat) :
  let s := lt_run es in
  ltAdding s = [] -> ltJoined s = None -> ltRoom s = Some room -> track ∈ vtTracks (ltStore s) -> room ∉ ltFailed s ->
  (room, track) ∈ ltPublished s.
Proof.
  intros s Ha Hj Hr Ht Hf. assert (lt_ok s) as [_ Hp].
  { unfold s, lt_run. assert (lt_ok lk_tracks0) as H by (split; [by left|done]). revert H. generalize lk_tracks0.
    clear. induction es as [|e es IH]; intros s0 H0; [done|]. by apply IH, lt_step_ok. }
  destruct (Hp room track Hr Ht) as [?|[Hin|[?|?]]]; [done| |congruence|done]. rewrite Ha in Hin. by apply not_elem_of_nil in Hin.
Qed.
End tracks.

Lemma tracks_published_witness : (1%nat, 7%nat) ∈ ltPublished (lt_run (fun _ _ => true) [LtAdd 7; LtRoom 1; LtPublish; LtAdded 0]).
Proof.
  apply (tracks_published (fun _ _ => true)); [done|done|done|apply list_elem_of_here|]. apply not_elem_of_nil.
Defined.

(** A track that is added while the session joins is published twice. *)
Example track_published_twice :
  ltPublished (lt_run (fun _ _ => true) [LtAdd 7; LtRoom 1; LtPublish; LtAdded 0]) = [(1%nat, 7%nat); (1%nat, 7%nat)].
Proof. done. Qed.
