(* ===== verification/JitsiMedia.v ===== *)
(** * JitsiMedia: the lines of a jitsi peer connection
    (internal/engine/jitsi: negotiate.go, keepalive.go, AddVideoTrack of jitsi.go)

    A negotiation makes a peer connection, asks it for its media lines, starts the loop that drains trickled stanzas, lets the
    library accept the offer and installs the connection.  Negotiations, added tracks and teardowns overlap: the steps
    between their critical sections are events, in the order in which they take effect.  Whether pion takes a line, and
    whether the library prepares and accepts, are arguments. *)

From S2P Require Import Prelude Bytes LivekitTracks.

(** ** Lines *)

Inductive direction := Recvonly | Sendonly | Sendrecv.

(** What a connection is asked for; [PcTrack None] is the keep-alive track. *)
Inductive pc_op := PcKind (video : bool) (d : direction) | PcTransceiver (track : nat) (d : direction) | PcTrack (track : option nat).

Definition has_handler (st : VideoTrackState) : bool := match vtHandler st with Some _ => true | None => false end.

Section lines.
Context (takes : pc_op -> bool).

(** One request; after one that failed nothing more is asked. *)
Definition pc_ask (op : pc_op) (l : list pc_op * bool) : list pc_op * bool :=
  if l.2 then if takes op then (l.1 ++ [op], true) else (l.1, false) else l.

(* go: engine/jitsi/negotiate.go 260-276 addVideoTransceivers *)
Definition addVideoTransceivers (st : VideoTrackState) (l : list pc_op * bool) : (list pc_op * bool) * bool :=
  RangeVideoTracks (fun l track wantsRemote => pc_ask (PcTransceiver track (if wantsRemote then Sendrecv else Sendonly)) l) l st.

(** The flag is whether there is a keep-alive track. *)
(* go: engine/jitsi/negotiate.go 288-308 addVideoOrKeepaliveTrack *)
Definition addVideoOrKeepaliveTrack (st : VideoTrackState) (l : list pc_op * bool) : (list pc_op * bool) * bool :=
  if has_handler st then (pc_ask (PcKind true Recvonly) l, false) else (pc_ask (PcTrack None) l, true).

(* go: engine/jitsi/negotiate.go 278-286 setupVideoMLine *)
Definition setupVideoMLine (st : VideoTrackState) (hasLocalTracks : bool) (l : list pc_op * bool) : (list pc_op * bool) * bool :=
  if hasLocalTracks then (l, false) else addVideoOrKeepaliveTrack st l.

(** The lines, whether none failed, whether there are local tracks, and whether there is a keep-alive track.  The callback is not
    replaced meanwhile. *)
(* go: engine/jitsi/negotiate.go 195-207 configureConferenceTracks *)
Definition configureConferenceTracks (st : VideoTrackState) (l : list pc_op * bool) : (list pc_op * bool) * bool * bool :=
  let '(l, hasLocalTracks) := addVideoTransceivers st l in
  if l.2 then let '(l, keepalive) := setupVideoMLine st hasLocalTracks l in (l, hasLocalTracks, keepalive)
  else (l, false, false).

(* go: engine/jitsi/negotiate.go 185-191 newConferencePeerConnection *)
Definition conference_audio : list pc_op * bool := pc_ask (PcKind false Recvonly) ([], true).

(** What the lines of a connection are when none is refused. *)
Definition lines_of (st : VideoTrackState) : list pc_op :=
  PcKind false Recvonly ::
  match vtTracks st with
  | [] => [if has_handler st then PcKind true Recvonly else PcTrack None]
  | ts => (fun t => PcTransceiver t (if has_handler st then Sendrecv else Sendonly)) <$> ts
  end.

(** ** The session *)

(** A negotiation under way: its connection, what it found when it configured the lines, and whether the offer is accepted. *)
Record negotiation := MkNeg { ngPc : nat; ngLocal : bool; ngKeepalive : bool; ngAccepted : bool }.

(** [jmPc] is the installed connection, [jmCtx] its context and [jmTrickle] that of the draining loop, each named after its connection;
    [jmDrains] and [jmCtxs] are the contexts that were not cancelled, [jmKeepalives] the contexts of the loops that send
    keep-alive packets; [jmReplaced] are the connections that were overwritten by an installation. *)
Record jmedia := MkJm {
  jmStore : VideoTrackState; jmAdding : list nat; jmNegs : list negotiation; jmNext : nat;
  jmPc : option nat; jmCtx : option nat; jmTrickle : option nat;
  jmLines : gmap nat (list pc_op); jmOpen : gset nat; jmReplaced : gset nat;
  jmDrains : gset nat; jmCtxs : gset nat; jmKeepalives : gset nat; jmSources : list nat }.

Definition jmedia0 : jmedia := MkJm (MkVt [] None) [] [] 0 None None None ∅ ∅ ∅ ∅ ∅ ∅ [].

Definition cancelled (c : option nat) (s : gset nat) : gset nat := match c with Some n => s ∖ {[n]} | None => s end.

(** The first stage of [negotiatePC]: a connection with its lines, closed again when a line is refused. *)
(* go: engine/jitsi/negotiate.go 146-156 negotiatePC *)
Definition jm_configure (s : jmedia) : jmedia :=
  let pc := jmNext s in
  let with_pc lines negs open :=
    MkJm (jmStore s) (jmAdding s) negs (pc + 1) (jmPc s) (jmCtx s) (jmTrickle s) (<[pc := lines]> (jmLines s)) open (jmReplaced s)
      (jmDrains s) (jmCtxs s) (jmKeepalives s) (jmSources s) in
  let audio := conference_audio in
  if audio.2 then
    let '(l, local, keepalive) := configureConferenceTracks (jmStore s) audio in
    if l.2 then with_pc l.1 (jmNegs s ++ [MkNeg pc local keepalive false]) (jmOpen s ∪ {[pc]}) else with_pc l.1 (jmNegs s) (jmOpen s)
  else with_pc audio.1 (jmNegs s) (jmOpen s).

(* go: engine/jitsi/negotiate.go 386-394 setTrickleCancel *)
Definition setTrickleCancel (c : nat) (s : jmedia) : jmedia :=
  MkJm (jmStore s) (jmAdding s) (jmNegs s) (jmNext s) (jmPc s) (jmCtx s) (Some c) (jmLines s) (jmOpen s) (jmReplaced s)
    (cancelled (jmTrickle s) (jmDrains s) ∪ {[c]}) (jmCtxs s) (jmKeepalives s) (jmSources s).

(** The drain loop starts before the offer is accepted; [ok] is whether preparing and accepting succeed. *)
(* go: engine/jitsi/negotiate.go 214-246 preparePeerConnection *)
Definition preparePeerConnection (i : nat) (ok : bool) (s : jmedia) : jmedia :=
  match jmNegs s !! i with
  | Some (MkNeg pc local keepalive false) =>
      let s := setTrickleCancel pc s in
      if ok then
        MkJm (jmStore s) (jmAdding s) (<[i := MkNeg pc local keepalive true]> (jmNegs s)) (jmNext s) (jmPc s) (jmCtx s) (jmTrickle s)
          (jmLines s) (jmOpen s) (jmReplaced s) (jmDrains s) (jmCtxs s) (jmKeepalives s) (if local then jmSources s ++ [pc] else jmSources s)
      else
        MkJm (jmStore s) (jmAdding s) (delete i (jmNegs s)) (jmNext s) (jmPc s) (jmCtx s) (jmTrickle s)
          (jmLines s) (jmOpen s ∖ {[pc]}) (jmReplaced s) (jmDrains s) (jmCtxs s) (jmKeepalives s) (jmSources s)
  | _ => s
  end.

(** The connection is installed, the context of the one before is cancelled, and the keep-alive loop starts if there is a track for it. *)
(* go: engine/jitsi/negotiate.go 248-258 installPeerConnectionState *)
Definition installPeerConnectionState (i : nat) (s : jmedia) : jmedia :=
  match jmNegs s !! i with
  | Some (MkNeg pc local keepalive true) =>
      MkJm (jmStore s) (jmAdding s) (delete i (jmNegs s)) (jmNext s) (Some pc) (Some pc) (jmTrickle s) (jmLines s) (jmOpen s)
        (match jmPc s with Some old => jmReplaced s ∪ {[old]} | None => jmReplaced s end)
        (jmDrains s) (cancelled (jmCtx s) (jmCtxs s) ∪ {[pc]}) (if keepalive then jmKeepalives s ∪ {[pc]} else jmKeepalives s) (jmSources s)
  | _ => s
  end.

(* go: engine/jitsi/negotiate.go 365-384 teardownPC *)
Definition jm_teardown (s : jmedia) : jmedia :=
  MkJm (jmStore s) (jmAdding s) (jmNegs s) (jmNext s) None None None (jmLines s) (cancelled (jmPc s) (jmOpen s)) (jmReplaced s)
    (cancelled (jmTrickle s) (jmDrains s)) (cancelled (jmCtx s) (jmCtxs s)) (jmKeepalives s) (jmSources s).

(** [AddVideoTrack] up to the look at the connection, and the rest. *)
(* go: engine/jitsi/jitsi.go 317-318 AddVideoTrack *)
Definition jm_add (track : nat) (s : jmedia) : jmedia :=
  MkJm (StoreVideoTrack track (jmStore s)) (jmAdding s ++ [track]) (jmNegs s) (jmNext s) (jmPc s) (jmCtx s) (jmTrickle s) (jmLines s)
    (jmOpen s) (jmReplaced s) (jmDrains s) (jmCtxs s) (jmKeepalives s) (jmSources s).

(* go: engine/jitsi/jitsi.go 320-330 AddVideoTrack *)
Definition jm_added (i : nat) (s : jmedia) : jmedia :=
  match jmAdding s !! i with
  | None => s
  | Some track =>
      let lines :=
        match jmPc s with
        | None => jmLines s
        | Some pc => <[pc := (pc_ask (PcTrack (Some track)) (default [] (jmLines s !! pc), true)).1]> (jmLines s)
        end in
      MkJm (jmStore s) (delete i (jmAdding s)) (jmNegs s) (jmNext s) (jmPc s) (jmCtx s) (jmTrickle s) lines
        (jmOpen s) (jmReplaced s) (jmDrains s) (jmCtxs s) (jmKeepalives s) (jmSources s)
  end.

Definition jm_handler (cb : option nat) (s : jmedia) : jmedia :=
  MkJm (SetVideoTrackHandler cb (jmStore s)) (jmAdding s) (jmNegs s) (jmNext s) (jmPc s) (jmCtx s) (jmTrickle s) (jmLines s)
    (jmOpen s) (jmReplaced s) (jmDrains s) (jmCtxs s) (jmKeepalives s) (jmSources s).

Inductive jm_event :=
| JmHandler (cb : option nat) | JmAdd (track : nat) | JmAdded (i : nat)
| JmConfigure | JmPrepare (i : nat) (ok : bool) | JmInstalled (i : nat) | JmTeardown.

Definition jm_step (s : jmedia) (e : jm_event) : jmedia :=
  match e with
  | JmHandler cb => jm_handler cb s
  | JmAdd track => jm_add track s
  | JmAdded i => jm_added i s
  | JmConfigure => jm_configure s
  | JmPrepare i ok => preparePeerConnection i ok s
  | JmInstalled i => installPeerConnectionState i s
  | JmTeardown => jm_teardown s
  end.

Definition jm_run (es : list jm_event) : jmedia := fold_left jm_step es jmedia0.

(** ** What is proved *)

Lemma fold_ask_failed {A} (op : A -> pc_op) ts l : l.2 = false -> fold_left (fun l t => pc_ask (op t) l) ts l = l.
Proof.
  intros Hl. induction ts as [|t ts IH]; [done|]. simpl. assert (pc_ask (op t) l = l) as -> by (unfold pc_ask; by rewrite Hl). done.
Qed.

Lemma pc_ask_ok op l : pc_ask op (l, true) = if takes op then (l ++ [op], true) else (l, false).
Proof. done. Qed.

Lemma fold_ask {A} (op : A -> pc_op) ts l :
  (fold_left (fun l t => pc_ask (op t) l) ts (l, true)).2 = true -> fold_left (fun l t => pc_ask (op t) l) ts (l, true) = (l ++ (op <$> ts), true).
Proof.
  revert l. induction ts as [|t ts IH]; intros l H; [by rewrite app_nil_r|]. simpl in *. rewrite pc_ask_ok in H |- *.
  destruct (takes (op t)); [|by rewrite fold_ask_failed in H]. rewrite IH by done. by rewrite <- app_assoc.
Qed.

Lemma configure_lines st l local keepalive :
  conference_audio.2 = true -> configureConferenceTracks st conference_audio = (l, local, keepalive) -> l.2 = true ->
  l.1 = lines_of st /\ local = HasVideoTracks st /\ keepalive = negb (HasVideoTracks st || has_handler st).
Proof.
  unfold conference_audio, configureConferenceTracks, addVideoTransceivers, RangeVideoTracks, lines_of, setupVideoMLine, addVideoOrKeepaliveTrack.
  rewrite pc_ask_ok. destruct (takes (PcKind false Recvonly)); [|done]. intros _. simpl.
  change (match vtHandler st with Some _ => true | None => false end) with (has_handler st).
  set (f := fold_left _ _ _). intros E Hl. destruct f.2 eqn:Ef; [|injection E as <- <- <-; congruence].
  assert (f = ([PcKind false Recvonly] ++ ((fun t => PcTransceiver t (if has_handler st then Sendrecv else Sendonly)) <$> vtTracks st), true)) as Hf by by apply fold_ask.
  clearbody f. subst f. unfold HasVideoTracks in *. destruct (vtTracks st) as [|t ts] eqn:Et; simpl in E.
  - destruct (has_handler st); unfold pc_ask in E; simpl in E; injection E as <- <- <-; simpl in Hl |- *; destruct (takes _); done.
  - by injection E as <- <- <-.
Qed.

Lemma configure_taken st l local keepalive :
  (forall op, takes op = true) -> configureConferenceTracks st conference_audio = (l, local, keepalive) -> l.2 = true.
Proof.
  intros Ht. unfold conference_audio, configureConferenceTracks, addVideoTransceivers, RangeVideoTracks, setupVideoMLine, addVideoOrKeepaliveTrack.
  rewrite pc_ask_ok, Ht. assert (forall (f : nat -> pc_op) ts l, (fold_left (fun l t => pc_ask (f t) l) ts (l, true)).2 = true) as Hf.
  { intros f ts. induction ts as [|t ts IH]; intros l'; [done|]. simpl. rewrite pc_ask_ok, Ht. apply IH. }
  set (g := fold_left _ _ _). assert (g.2 = true) as Hg by apply Hf. destruct g as [ops b]. simpl in Hg. subst b. simpl.
  destruct (HasVideoTracks st); [by intros [= <- <- <-]|]. destruct (has_handler st); rewrite pc_ask_ok, Ht; by intros [= <- <- <-].
Qed.

(** A connection has the lines of a store that satisfies [P], and then stored tracks that were added to it. *)
Definition offered (s : jmedia) (n : nat) (P : VideoTrackState -> Prop) : Prop :=
  exists st later, jmLines s !! n = Some (lines_of st ++ ((fun t => PcTrack (Some t)) <$> later)) /\
    Forall (fun t => t ∈ vtTracks (jmStore s)) later /\ P st.

Definition neg_offered (g : negotiation) (st : VideoTrackState) : Prop :=
  ngLocal g = HasVideoTracks st /\ ngKeepalive g = negb (HasVideoTracks st || has_handler st).

(** [began n st]: the negotiation of connection [n] began when the store was [st]. *)
Record jm_ok (began : nat -> VideoTrackState -> Prop) (s : jmedia) : Prop := {
  jo_adding : Forall (fun t => t ∈ vtTracks (jmStore s)) (jmAdding s);
  jo_pc : forall n, jmPc s = Some n -> (n < jmNext s)%nat /\ offered s n (began n);
  jo_negs : forall g, g ∈ jmNegs s -> (ngPc g < jmNext s)%nat /\ offered s (ngPc g) (fun st => began (ngPc g) st /\ neg_offered g st);
  jo_ctx : jmCtx s = jmPc s;
  jo_drains : jmDrains s = match jmTrickle s with Some c => {[c]} | None => ∅ end;
  jo_ctxs : jmCtxs s = match jmCtx s with Some c => {[c]} | None => ∅ end;
  jo_open : forall n, n ∈ jmOpen s -> jmPc s = Some n \/ (exists g, g ∈ jmNegs s /\ ngPc g = n) \/ n ∈ jmReplaced s;
  jo_keep : forall n, n ∈ jmKeepalives s -> (n < jmNext s)%nat /\ exists ops, jmLines s !! n = Some ops /\ PcTrack None ∈ ops
}.

(** Steps that leave the lines alone, or add a stored track to a connection, keep what was offered. *)
Lemma offered_mono s s' n (P P' : VideoTrackState -> Prop) :
  (forall t, t ∈ vtTracks (jmStore s) -> t ∈ vtTracks (jmStore s')) -> (forall st, P st -> P' st) ->
  (jmLines s' !! n = jmLines s !! n \/
   exists t ops, t ∈ vtTracks (jmStore s') /\ jmLines s !! n = Some ops /\ jmLines s' !! n = Some (ops ++ [PcTrack (Some t)])) ->
  offered s n P -> offered s' n P'.
Proof.
  intros Hst HP Hl (st & later & E & Hlater & H). assert (Forall (fun t => t ∈ vtTracks (jmStore s')) later) as Hlater' by (eapply Forall_impl; eauto).
  destruct Hl as [Hl|(t & ops & Ht & E1 & Hl)].
  - exists st, later. rewrite Hl. auto.
  - exists st, (later ++ [t]). rewrite E in E1. injection E1 as <-. rewrite Hl, fmap_app, app_assoc. split; [done|]. split; [|auto].
    apply Forall_app. auto.
Qed.

Lemma jm_ok_began (B B' : nat -> VideoTrackState -> Prop) s : (forall n st, B n st -> B' n st) -> jm_ok B s -> jm_ok B' s.
Proof.
  intros HB [Ha Hp Hn Hc Hd Hx Ho Hk]. split; try done.
  - intros n E. destruct (Hp n E) as [? H]. split; [done|]. eapply offered_mono; [..|exact H]; auto.
  - intros g E. destruct (Hn g E) as [? H]. split; [done|]. eapply offered_mono; [..|exact H]; [auto|naive_solver|auto].
Qed.

Section invariant.
Context (B : nat -> VideoTrackState -> Prop).

Lemma cancelled_all c s : s = match c with Some c => {[c]} | None => ∅ end -> cancelled c s = ∅.
Proof. intros ->. destruct c; simpl; set_solver. Qed.

Lemma jm_configure_ok s : B (jmNext s) (jmStore s) -> jm_ok B s -> jm_ok B (jm_configure s).
Proof.
  intros HB [Ha Hp Hn Hc Hd Hx Ho Hk]. assert (forall lines, (forall n P, (n < jmNext s)%nat -> offered s n P ->
    forall s', jmStore s' = jmStore s -> jmLines s' = <[jmNext s := lines]> (jmLines s) -> offered s' n P)) as Hold.
  { intros lines n P Hlt H s' Es El. apply (offered_mono s s' n P P); [by rewrite Es|done|left; rewrite El; by rewrite lookup_insert_ne by lia|done]. }
  assert (forall lines negs open, (forall g, g ∈ negs -> g ∈ jmNegs s \/ ngPc g = jmNext s /\ exists st, st = jmStore s /\ neg_offered g st /\ lines = lines_of st) ->
    (forall g, g ∈ jmNegs s -> g ∈ negs) -> (forall n, n ∈ open -> n ∈ jmOpen s \/ exists g, g ∈ negs /\ ngPc g = n) ->
    jm_ok B (MkJm (jmStore s) (jmAdding s) negs (jmNext s + 1) (jmPc s) (jmCtx s) (jmTrickle s) (<[jmNext s := lines]> (jmLines s)) open (jmReplaced s)
      (jmDrains s) (jmCtxs s) (jmKeepalives s) (jmSources s))) as Hmk.
  { intros lines negs open Hg Hg' Hop. split; simpl; try done.
    - intros n E. destruct (Hp n E) as [Hlt Hof]. split; [lia|]. by eapply Hold.
    - intros g Hin. destruct (Hg g Hin) as [Hin'|[Epc (st & Est & Hneg & El)]].
      + destruct (Hn g Hin') as [Hlt Hof]. split; [lia|]. by eapply Hold.
      + split; [lia|]. exists st, []. simpl. rewrite Epc, lookup_insert_eq, app_nil_r. subst. auto.
    - intros n Hin. destruct (Hop n Hin) as [Hin'|?]; [|by right; left]. destruct (Ho n Hin') as [?|[(g & Hg1 & Hg2)|?]]; auto. right; left. exists g. auto.
    - intros n Hin. destruct (Hk n Hin) as [Hlt (ops & E & Hops)]. split; [lia|]. exists ops. by rewrite lookup_insert_ne by lia. }
  unfold jm_configure. destruct conference_audio.2 eqn:Eau; [|apply Hmk; auto]. destruct (configureConferenceTracks (jmStore s) conference_audio) as [[l local] keepalive] eqn:E.
  destruct l.2 eqn:El; [|apply Hmk; auto]. destruct (configure_lines _ _ _ _ Eau E El) as (E1 & E2 & E3). apply Hmk.
  - intros g Hin. apply elem_of_app in Hin as [?|Hin]; [by left|]. apply list_elem_of_singleton in Hin as ->. right. simpl. split; [done|]. by exists (jmStore s).
  - intros g Hin. apply elem_of_app. by left.
  - intros n Hin. apply elem_of_union in Hin as [?|Hin]; [by left|]. right. apply elem_of_singleton in Hin as ->. exists (MkNeg (jmNext s) local keepalive false).
    split; [|done]. apply elem_of_app. right. by apply list_elem_of_singleton.
Qed.

Lemma preparePeerConnection_ok i ok s : jm_ok B s -> jm_ok B (preparePeerConnection i ok s).
Proof.
  intros [Ha Hp Hn Hc Hd Hx Ho Hk]. unfold preparePeerConnection. destruct (jmNegs s !! i) as [[pc local keepalive []]|] eqn:E; [by split| |by split].
  assert (Hin := E). apply list_elem_of_lookup_2 in Hin. destruct ok; simpl; split; simpl; try done.
  - intros g Hg. apply list_elem_of_lookup in Hg as [j Hg]. destruct (decide (j = i)) as [->|Hne].
    + rewrite list_lookup_insert_eq in Hg by (by eapply lookup_lt_Some). injection Hg as <-. exact (Hn _ Hin).
    + rewrite list_lookup_insert_ne in Hg by done. by apply Hn, list_elem_of_lookup_2 with j.
  - by rewrite cancelled_all, (left_id_L ∅ (∪)).
  - intros n Hopen. destruct (Ho n Hopen) as [?|[(g & Hg & Eg)|?]]; auto. right; left.
    apply list_elem_of_lookup in Hg as [j Hg]. destruct (decide (j = i)) as [->|Hne].
    + rewrite E in Hg. injection Hg as <-. eexists. split; [eapply list_elem_of_lookup_2, list_lookup_insert_eq; by eapply lookup_lt_Some|done].
    + exists g. split; [|done]. eapply list_elem_of_lookup_2. by rewrite list_lookup_insert_ne by done.
  - intros g Hg. apply Hn. by eapply delete_in.
  - by rewrite cancelled_all, (left_id_L ∅ (∪)).
  - intros n Hopen. apply elem_of_difference in Hopen as [Hopen Hne]. destruct (Ho n Hopen) as [?|[(g & Hg & Eg)|?]]; auto. right; left.
    destruct (in_delete _ _ _ _ E Hg) as [->|Hdel]; [|by exists g]. simpl in Eg. set_solver.
Qed.

Lemma installPeerConnectionState_ok i s : jm_ok B s -> jm_ok B (installPeerConnectionState i s).
Proof.
  intros [Ha Hp Hn Hc Hd Hx Ho Hk]. unfold installPeerConnectionState. destruct (jmNegs s !! i) as [[pc local keepalive []]|] eqn:E; [|by split|by split].
  assert (Hin := E). apply list_elem_of_lookup_2 in Hin. destruct (Hn _ Hin) as [Hlt (st & later & El & Hpre & Hbeg & Hneg)]. simpl in *. split; simpl; try done.
  - intros n [= <-]. split; [done|]. by exists st, later.
  - intros g Hg. apply Hn. by eapply delete_in.
  - by rewrite cancelled_all, (left_id_L ∅ (∪)).
  - intros n Hopen. destruct (Ho n Hopen) as [Hpc|[(g & Hg & Eg)|?]].
    + right; right. rewrite Hpc. set_solver.
    + destruct (in_delete _ _ _ _ E Hg) as [->|Hdel]; [left; simpl in Eg; by subst|right; left; by exists g].
    + right; right. destruct (jmPc s); set_solver.
  - intros n Hkeep. assert (n ∈ jmKeepalives s \/ keepalive = true /\ n = pc) as [?|[-> ->]] by (destruct keepalive; set_solver); [auto|].
    split; [done|]. eexists. split; [exact El|]. destruct Hneg as [_ Hneg]. unfold HasVideoTracks in Hneg. simpl in Hneg |- *.
    destruct (vtTracks st); [|done]. destruct (has_handler st); [done|]. right. left.
Qed.

Lemma jm_added_ok i s : jm_ok B s -> jm_ok B (jm_added i s).
Proof.
  intros [Ha Hp Hn Hc Hd Hx Ho Hk]. unfold jm_added. destruct (jmAdding s !! i) as [track|] eqn:Ei; [|by split].
  assert (track ∈ vtTracks (jmStore s)) as Htrack by (eapply (Forall_lookup_1 _ _ _ _ Ha Ei)).
  set (lines := match jmPc s with Some _ => _ | None => _ end).
  assert (forall n ops, jmLines s !! n = Some ops -> lines !! n = Some ops \/ lines !! n = Some (ops ++ [PcTrack (Some track)])) as Hl.
  { intros n ops E. unfold lines. destruct (jmPc s) as [pc|]; [|by left]. destruct (decide (pc = n)) as [->|Hne]; [|left; by rewrite lookup_insert_ne].
    rewrite E, lookup_insert_eq. simpl. rewrite pc_ask_ok. destruct (takes _); [by right|by left]. }
  assert (forall n P, offered s n P -> forall s', jmStore s' = jmStore s -> jmLines s' = lines -> offered s' n P) as Hof.
  { intros n P H s' Es El. apply (offered_mono s s' n P P); [by rewrite Es|done| |done]. destruct H as (st & later & E & _). rewrite El.
    destruct (Hl n _ E) as [-> | ->]; [by left; rewrite E|right; exists track; rewrite Es; eauto]. }
  split; simpl; try done.
  - apply Forall_forall. intros t Ht. rewrite Forall_forall in Ha. by apply Ha, (delete_in _ i).
  - intros n E. destruct (Hp n E) as [Hlt H]. split; [done|]. by eapply Hof.
  - intros g Hg. destruct (Hn g Hg) as [Hlt H]. split; [done|]. by eapply Hof.
  - intros n Hin. destruct (Hk n Hin) as [Hlt (ops & E & Hops)]. split; [done|].
    destruct (Hl n ops E) as [-> | ->]; eexists; (split; [done|]); [done|]. apply elem_of_app. by left.
Qed.

Lemma jm_step_ok s e : (e = JmConfigure -> B (jmNext s) (jmStore s)) -> jm_ok B s -> jm_ok B (jm_step s e).
Proof.
  intros HB. destruct e as [cb|track|i| |i ok|i|]; simpl; [| |apply jm_added_ok|by apply jm_configure_ok; apply HB|apply preparePeerConnection_ok|apply installPeerConnectionState_ok|];
    intros [Ha Hp Hn Hc Hd Hx Ho Hk]; split; simpl; try done.
  - apply Forall_app. split; [|constructor; [|done]]; [eapply Forall_impl; [exact Ha|]; simpl; intros t Ht|]; apply elem_of_app; [by left|right; left].
  - intros n E. destruct (Hp n E) as [Hlt H]. split; [done|]. eapply offered_mono; [| | |exact H]; [|done|by left].
    simpl. intros t Ht. apply elem_of_app. by left.
  - intros g Hg. destruct (Hn g Hg) as [Hlt H]. split; [done|]. eapply offered_mono; [| | |exact H]; [|done|by left].
    simpl. intros t Ht. apply elem_of_app. by left.
  - by apply cancelled_all.
  - by apply cancelled_all.
  - intros n Hin. destruct (jmPc s) as [pc|]; simpl in Hin; [apply elem_of_difference in Hin as [Hin Hne]|];
      (destruct (Ho n Hin) as [E|[?|?]]; [|by right; left|by right; right]); [|done]. injection E as ->. set_solver.
Qed.
End invariant.

(** In the run [es] the negotiation of connection [n] begins with the store [st]. *)
Definition began (es : list jm_event) (n : nat) (st : VideoTrackState) : Prop :=
  exists es1 es2, es = es1 ++ JmConfigure :: es2 /\ jmNext (jm_run es1) = n /\ jmStore (jm_run es1) = st.

Lemma jm_run_ok es : jm_ok (began es) (jm_run es).
Proof.
  induction es as [|e es IH] using rev_ind; [by split; simpl; try done; set_solver|].
  unfold jm_run. rewrite fold_left_app. apply jm_step_ok; [|eapply jm_ok_began; [|exact IH]].
  - intros ->. by exists es, [].
  - intros n st (es1 & es2 & -> & H). exists es1, (es2 ++ [e]). by rewrite <- app_assoc.
Qed.

(** C29: Under every interleaving of negotiations, added tracks and teardowns: the installed connection has one line for receiving audio
    and then one for each track that was stored when its negotiation began, in order, or without tracks one for receiving
    video or the keep-alive track; what follows are stored tracks that were added to it afterwards.  At most one draining loop and at most one context
    are alive, keep-alive packets go out only on connections with a keep-alive track, and a connection that is open is
    installed, being negotiated, or was overwritten.  Where pion takes every line, a negotiation offers all stored tracks. *)
Theorem jitsi_lines (es : list jm_event) :
  let s := jm_run es in
  (forall n, jmPc s = Some n -> exists es1 es2 later,
     es = es1 ++ JmConfigure :: es2 /\ jmNext (jm_run es1) = n /\
     jmLines s !! n = Some (lines_of (jmStore (jm_run es1)) ++ ((fun t => PcTrack (Some t)) <$> later)) /\
     Forall (fun t => t ∈ vtTracks (jmStore s)) later) /\
  jmDrains s = match jmTrickle s with Some c => {[c]} | None => ∅ end /\
  jmCtxs s = match jmPc s with Some c => {[c]} | None => ∅ end /\
  (forall n, n ∈ jmKeepalives s -> exists ops, jmLines s !! n = Some ops /\ PcTrack None ∈ ops) /\
  (forall n, n ∈ jmOpen s -> jmPc s = Some n \/ (exists g, g ∈ jmNegs s /\ ngPc g = n) \/ n ∈ jmReplaced s) /\
  ((forall op, takes op = true) -> jmLines (jm_run (es ++ [JmConfigure])) !! jmNext s = Some (lines_of (jmStore s))).
Proof.
  intros s. destruct (jm_run_ok es) as [_ Hp Hn Hc Hd Hx Ho Hk]. fold s in Hp, Hn, Hc, Hd, Hx, Ho, Hk. split; [|split; [done|split; [by rewrite <- Hc|split; [|split; [done|]]]]].
  - intros n E. destruct (Hp n E) as [_ (st & later & El & Hlater & es1 & es2 & -> & En & <-)]. by exists es1, es2, later.
  - intros n Hin. by destruct (Hk n Hin) as [_ H].
  - intros Ht. unfold jm_run. rewrite fold_left_app. simpl. fold (jm_run es). fold s. unfold jm_configure.
    assert (conference_audio.2 = true) as Ha by (unfold conference_audio; by rewrite pc_ask_ok, Ht). rewrite Ha.
    destruct (configureConferenceTracks _ _) as [[l local] keepalive] eqn:E. assert (l.2 = true) as El by by eapply configure_taken.
    destruct (configure_lines _ _ _ _ Ha E El) as (-> & _). rewrite El. simpl. apply lookup_insert_eq.
Qed.
End lines.

(** A track that is added while a negotiation is under way is in no connection, one that overlaps an installation is there twice. *)
Example jitsi_track_lost :
  let s := jm_run (fun _ => true) [JmConfigure; JmAdd 7; JmPrepare 0 true; JmAdded 0; JmInstalled 0] in
  vtTracks (jmStore s) = [7%nat] /\ jmAdding s = [] /\ jmNegs s = [] /\ jmPc s = Some 0%nat /\
  jmLines s !! 0%nat = Some [PcKind false Recvonly; PcTrack None].
Proof. by vm_compute. Qed.

Example jitsi_track_twice :
  jmLines (jm_run (fun _ => true) [JmAdd 7; JmConfigure; JmPrepare 0 true; JmInstalled 0; JmAdded 0]) !! 0%nat =
    Some [PcKind false Recvonly; PcTransceiver 7 Sendonly; PcTrack (Some 7%nat)].
Proof. by vm_compute. Qed.

(** The loop that drains the stanzas of a connection outlives a negotiation that fails. *)
Example failed_negotiation_drains_on :
  let s := jm_run (fun _ => true) [JmConfigure; JmPrepare 0 false] in jmOpen s = ∅ /\ jmDrains s = {[0%nat]}.
Proof. by vm_compute. Qed.

(** ** Announcing the epoch *)

(** What a round sees: whether the session is closed, the epoch of the peer, and whether the session ends before the next round. *)
Record announce_round := MkAr { arClosed : bool; arEpoch : Z; arDone : bool }.

Fixpoint announce_rounds (n : nat) (rounds : list announce_round) : nat :=
  match n, rounds with
  | S n, r :: rounds =>
      if arClosed r || negb (arEpoch r =? 0) then 0 else if arDone r then 1 else S (announce_rounds n rounds)
  | _, _ => 0
  end.

(** How many empty frames are sent; a send that fails is not repeated before the next round. *)
(* go: engine/jitsi/negotiate.go 82-105 announceEpoch *)
Definition announceEpoch (needBridge : bool) (rounds : list announce_round) : nat :=
  if needBridge then announce_rounds 25 rounds else 0.

Lemma announce_rounds_spec n rounds k :
  (k < announce_rounds n rounds)%nat <-> (k < n)%nat /\ (k < length rounds)%nat /\
    forall j r, (j <= k)%nat -> rounds !! j = Some r -> arClosed r = false /\ arEpoch r = 0 /\ (arDone r = true -> j = k).
Proof.
  revert n k. induction rounds as [|r rounds IH]; intros [|n] k; simpl; [by split; lia..|].
  destruct (arClosed r || negb (arEpoch r =? 0)) eqn:E.
  { split; [lia|]. intros (_ & _ & H). destruct (H 0%nat r ltac:(lia) eq_refl) as (Hc & He & _). by rewrite Hc, He in E. }
  apply orb_false_elim in E as [Hc He]. apply negb_false_iff, Z.eqb_eq in He. destruct (arDone r) eqn:Ed.
  - split.
    + intros Hk. assert (k = 0%nat) as -> by lia. split; [lia|]. split; [lia|]. intros [|j] r' Hj E; [|lia]. by injection E as <-.
    + intros (_ & _ & H). destruct (H 0%nat r ltac:(lia) eq_refl) as (_ & _ & H0). specialize (H0 Ed). lia.
  - destruct k as [|k].
    + split; [|lia]. intros _. split; [lia|]. split; [lia|]. intros [|j] r' Hj E; [|lia]. by injection E as <-.
    + rewrite <- Nat.succ_lt_mono, IH. split.
      * intros (H1 & H2 & H). split; [lia|]. split; [lia|]. intros [|j] r' Hj E; [by injection E as <-; rewrite Ed|].
        destruct (H j r' ltac:(lia) E) as (? & ? & Hd). split; [done|]. split; [done|]. intros Hd'. by rewrite Hd.
      * intros (H1 & H2 & H). split; [lia|]. split; [lia|]. intros j r' Hj E. destruct (H (S j) r' ltac:(lia) E) as (? & ? & Hd).
        split; [done|]. split; [done|]. intros Hd'. specialize (Hd Hd'). lia.
Qed.

(** A round announces exactly when it is one of the first twenty-five and no round up to it has found the peer's epoch or the session closed or ended. *)
Theorem epoch_announced (rounds : list announce_round) (k : nat) :
  (k < announceEpoch true rounds)%nat <-> (k < 25)%nat /\ (k < length rounds)%nat /\
    forall j r, (j <= k)%nat -> rounds !! j = Some r -> arClosed r = false /\ arEpoch r = 0 /\ (arDone r = true -> j = k).
Proof. apply announce_rounds_spec. Qed.

(** ** Keep-alive packets *)

(** A tick of the loop: whether a packet is written, and whether the loop goes on. *)
(* go: engine/jitsi/keepalive.go 30-54 rtpKeepalive *)
Definition rtpKeepalive (cancelled writeOk closed cancelledNow : bool) : bool * bool :=
  if cancelled then (false, false) else (true, writeOk || negb (closed || cancelledNow)).
