(* ===== verification/LegacyWire.v ===== *)
(** * LegacyWire: formats, batching and pacing of the legacy vp8channel
    (src/native/mobilecore/legacyvp8channel: kcp.go, kcpconn.go, options.go, and the header, batching, writer and reader of
    transport.go)

    The older wire format: a header of 32 bytes without a destination, one shared outbound queue of plain frames.  The
    Go library and KCP are taken as in VpWire; a frame is its bytes. *)

From S2P Require Import Prelude Bytes Text Frame VpWire VpRtp.

(** ** Options *)

(* go: src/native/mobilecore/legacyvp8channel/options.go 11-18 defaultFPS *)
Definition lv_defaultFPS : Z := 60.
Definition lv_defaultBatchSize : Z := 64.
Definition lv_defaultMaxBytesPerSec : Z := 0.

(* go: src/native/mobilecore/legacyvp8channel/options.go 20-27 Options *)
Record lvOptions := MkLvOptions { loFPS : Z; loBatchSize : Z; loMaxBytesPerSec : Z }.

(** The option types a configuration may carry. *)
Inductive lv_any_options := LvNil | LvOwn (o : lvOptions) | LvCurrent (fps batch : Z) | LvForeign.

(* go: src/native/mobilecore/legacyvp8channel/options.go 32-47 optionsFrom *)
Definition lv_optionsFrom (o : lv_any_options) : outcome unit lvOptions :=
  match o with
  | LvNil => Ok (MkLvOptions 0 0 0)
  | LvOwn o => Ok o
  | LvCurrent fps batch => Ok (MkLvOptions fps batch 0)
  | LvForeign => Err tt
  end.

Definition lv_epochHdrLen : Z := 32.

(** Frame interval, batch size and bytes for each tick. *)
(* go: src/native/mobilecore/legacyvp8channel/transport.go 217-238 newStreamTransport *)
Definition lv_pacing (o : lvOptions) : Z * Z * Z :=
  let fps := if loFPS o <=? 0 then lv_defaultFPS else loFPS o in
  let batchSize := if loBatchSize o <=? 0 then lv_defaultBatchSize else loBatchSize o in
  let byteRate := if loMaxBytesPerSec o <=? 0 then lv_defaultMaxBytesPerSec else loMaxBytesPerSec o in
  let perTickBytes :=
    if 0 <? byteRate then let b := byteRate / fps in if b <? lv_epochHdrLen then lv_epochHdrLen else b
    else vp8MaxPayloadSize in
  (1000000000 / fps, batchSize, perTickBytes).

(** ** Epoch header *)

(* go: src/native/mobilecore/legacyvp8channel/transport.go 355-360 epochCRC *)
Definition lv_epochCRC (token epoch : Z) : Z :=
  let buf := replicate 8 0 in
  let buf := write_at 0 (be_put 4 token) buf in
  let buf := write_at 4 (be_put 4 epoch) buf in
  ChecksumIEEE buf.

(* go: src/native/mobilecore/legacyvp8channel/transport.go 326-333 buildEpochHeader *)
Definition lv_buildEpochHeader (token epoch : Z) : bytes :=
  let hdr := replicate 32 0 in
  let hdr := write_at 0 vp8Keepalive hdr in
  let hdr := write_at 20 (be_put 4 token) hdr in
  let hdr := write_at 24 (be_put 4 epoch) hdr in
  write_at 28 (be_put 4 (lv_epochCRC token epoch)) hdr.

(* go: src/native/mobilecore/legacyvp8channel/transport.go 362-370 parseEpochHeader *)
Definition lv_parseEpochHeader (frame : bytes) : outcome Empty_set (Z * Z * bool) :=
  if len frame <? lv_epochHdrLen then Ok (0, 0, false)
  else
    let* token := uint_at frame 20 24 in
    let* epoch := uint_at frame 24 28 in
    let* gotCRC := uint_at frame 28 32 in
    Ok (token, epoch, gotCRC =? lv_epochCRC token epoch).

(* go: src/native/mobilecore/legacyvp8channel/transport.go 372-380 bindingToken *)
Definition lv_bindingToken (clientID : string) : Z :=
  let token := fnv32a (string_bytes clientID) in
  if token =? 0 then 1 else token.

(* go: src/native/mobilecore/legacyvp8channel/transport.go 382-394 randomEpoch *)
Definition lv_randomEpoch (raw : option bytes) (nano : Z) : Z :=
  match raw with
  | None => u32 nano
  | Some b => let e := be_get b in if e =? 0 then 1 else e
  end.

(** ** The packet connection under KCP *)

(** [WriteTo] puts the header in front of the packet and its checksum behind. *)
Definition lv_frame (hdr p : bytes) : bytes := hdr ++ p ++ be_put 4 (ChecksumCastagnoli p).

(* go: src/native/mobilecore/legacyvp8channel/kcpconn.go 25-47 kcpConn *)
Record lvConn := MkLvConn {
  lcIn : list bytes;
  lcInCap : Z;
  lcClosed : bool;
  lcHdr : bytes;
  lcReadDeadline : option Z;
  lcWriteDeadline : option Z;
}.

(* go: src/native/mobilecore/legacyvp8channel/kcpconn.go 49-59 newKCPConn *)
Definition lv_newKCPConn (inboundCap : Z) (hdr : bytes) : lvConn :=
  MkLvConn [] (if inboundCap <=? 0 then 1024 else inboundCap) false hdr None None.

Definition lc_set_in (c : lvConn) (q : list bytes) : lvConn :=
  MkLvConn q (lcInCap c) (lcClosed c) (lcHdr c) (lcReadDeadline c) (lcWriteDeadline c).

(** [preferClosed] is the case [select] takes when both are ready. *)
(* go: src/native/mobilecore/legacyvp8channel/kcpconn.go 61-81 deliver *)
Definition lv_deliver (c : lvConn) (preferClosed : bool) (payload : bytes) : outcome Empty_set lvConn :=
  if len payload <? wireCRCLen then Ok c
  else
    let* body := slice payload 0 (len payload - wireCRCLen) in
    let* want := uint_at payload (len payload - wireCRCLen) (len payload) in
    if negb (ChecksumCastagnoli body =? want) then Ok c
    else if (len (lcIn c) <? lcInCap c) && negb (lcClosed c && preferClosed) then Ok (lc_set_in c (lcIn c ++ [body]))
    else Ok c.

(** [None]: the case taken is not ready. *)
(* go: src/native/mobilecore/legacyvp8channel/kcpconn.go 83-108 ReadFrom *)
Definition lv_ReadFrom (c : lvConn) (size now : Z) (which : kcp_case) : option (lvConn * outcome kcp_error bytes) :=
  if expired (lcReadDeadline c) now then Some (c, Err ErrTimeout)
  else match which with
  | CaseQueue =>
      match lcIn c with
      | [] => None
      | msg :: rest => Some (lc_set_in c rest, Ok (take (Z.to_nat size) msg))
      end
  | CaseClosed => if lcClosed c then Some (c, Err ErrNetClosed) else None
  | CaseTimer => if lcReadDeadline c then Some (c, Err ErrTimeout) else None
  end.

(* go: src/native/mobilecore/legacyvp8channel/kcpconn.go 110-141 WriteTo *)
Definition lv_WriteTo (c : lvConn) (out : list bytes) (outCap : Z) (p : bytes) (now : Z) (which : kcp_case)
  : option (list bytes * outcome kcp_error Z) :=
  let buf := lv_frame (lcHdr c) p in
  if expired (lcWriteDeadline c) now then Some (out, Err ErrTimeout)
  else match which with
  | CaseQueue => if len out <? outCap then Some (out ++ [buf], Ok (len p)) else None
  | CaseClosed => if lcClosed c then Some (out, Err ErrNetClosed) else None
  | CaseTimer => if lcWriteDeadline c then Some (out, Err ErrTimeout) else None
  end.

(* go: src/native/mobilecore/legacyvp8channel/kcpconn.go 143-146 Close *)
Definition lv_conn_Close (c : lvConn) : lvConn :=
  MkLvConn (lcIn c) (lcInCap c) true (lcHdr c) (lcReadDeadline c) (lcWriteDeadline c).

(* go: src/native/mobilecore/legacyvp8channel/kcpconn.go 150-168 SetDeadline *)
Definition lv_SetDeadline (c : lvConn) (t : option Z) : lvConn :=
  MkLvConn (lcIn c) (lcInCap c) (lcClosed c) (lcHdr c) t t.

(** ** Messages over the KCP stream *)

(* go: src/native/mobilecore/legacyvp8channel/kcp.go 45-48 kcpMaxMessage *)
Definition lv_kcpMaxMessage : Z := 8 * 1024 * 1024.

(** What [send] writes to the stream. *)
(* go: src/native/mobilecore/legacyvp8channel/kcp.go 135-155 send *)
Definition lv_send (msg : bytes) : outcome unit bytes :=
  if lv_kcpMaxMessage <? len msg then Err tt
  else Ok (be_put 4 (u32 (len msg)) ++ msg).

(** The messages [readLoop] hands over, from what the stream delivers; a message that is not complete blocks.  A round
    takes at least four bytes. *)
Fixpoint lv_read_loop (fuel : nat) (stream : bytes) : list bytes :=
  match fuel with
  | O => []
  | S fuel =>
      if len stream <? 4 then []
      else
        let size := be_get (take 4 stream) in
        let rest := drop 4 stream in
        if size =? 0 then lv_read_loop fuel rest
        else if lv_kcpMaxMessage <? size then []
        else if len rest <? size then []
        else take (Z.to_nat size) rest :: lv_read_loop fuel (drop (Z.to_nat size) rest)
  end.

(* go: src/native/mobilecore/legacyvp8channel/kcp.go 102-128 readLoop *)
Definition lv_readLoop (stream : bytes) : list bytes := lv_read_loop (length stream) stream.

(** ** Batches *)

(* go: src/native/mobilecore/legacyvp8channel/transport.go 685-693 appendBatchPacket *)
Definition lv_appendBatchPacket (dst packet : bytes) : bytes :=
  if 65535 <? len packet then dst else dst ++ be_put 2 (u16 (len packet)) ++ packet.

(** [n] more packets may be added.  The result is the sample, the frames that were taken out of the queue and put
    nowhere, and the rest of the queue. *)
Fixpoint lv_batch_loop (n : nat) (maxBytes : Z) (src : list bytes) (sample : bytes) : bytes * list bytes * list bytes :=
  match n with
  | O => (sample, [], src)
  | S n =>
      match src with
      | [] => (sample, [], [])
      | frame :: src' =>
          if len frame <=? lv_epochHdrLen then
            let '(s, lost, q) := lv_batch_loop n maxBytes src' sample in (s, frame :: lost, q)
          else
            let payload := drop 32 frame in
            if maxBytes <? len sample + 2 + len payload then (sample, [frame], src')
            else lv_batch_loop n maxBytes src' (lv_appendBatchPacket sample payload)
      end
  end.

(* go: src/native/mobilecore/legacyvp8channel/transport.go 654-683 batchSampleFrom *)
Definition lv_batchSampleFrom (batchSize : Z) (src : list bytes) (first : bytes) (maxBytes : Z)
  : bytes * list bytes * list bytes :=
  let maxBytes := if (maxBytes <=? 0) || (vp8MaxPayloadSize <? maxBytes) then vp8MaxPayloadSize else maxBytes in
  if (len first <=? lv_epochHdrLen) || (batchSize <=? 1) then (first, [], src)
  else
    let sample := take 32 first in
    let sample := sample ++ kcpBatchMagic in
    let sample := lv_appendBatchPacket sample (drop 32 first) in
    lv_batch_loop (Z.to_nat (batchSize - 1)) maxBytes src sample.

(* go: src/native/mobilecore/legacyvp8channel/transport.go 1107-1127 splitKCPPayload *)
Definition lv_splitKCPPayload (payload : bytes) : list bytes :=
  if (len payload <? 4) || negb (bool_decide (take 4 payload = kcpBatchMagic)) then [payload]
  else let rest := drop 4 payload in split_loop (length rest) rest.

(** ** The writer *)

(* go: src/native/mobilecore/legacyvp8channel/transport.go 50-50 minSampleDuration *)
Definition lv_minSampleDuration : Z := 1000000000 / 30000.

(** [lwLost] are the frames the batcher dropped; [lwLog] the samples with their durations. *)
Record lvWriter := MkLw {
  lwInterval : Z; lwBatch : Z; lwPerTick : Z;
  lwIdle : Z; lwSince : Z;
  lwQueue : list bytes; lwLost : list bytes;
  lwLastWrite : option Z; lwLog : list (bytes * Z) }.

Definition lw_queue (w : lvWriter) (q lost : list bytes) : lvWriter :=
  MkLw (lwInterval w) (lwBatch w) (lwPerTick w) (lwIdle w) (lwSince w) q lost (lwLastWrite w) (lwLog w).
Definition lw_ticks (w : lvWriter) (idle since : Z) : lvWriter :=
  MkLw (lwInterval w) (lwBatch w) (lwPerTick w) idle since (lwQueue w) (lwLost w) (lwLastWrite w) (lwLog w).

(* go: src/native/mobilecore/legacyvp8channel/transport.go 568-598 writeTrackSample *)
Definition lv_writeTrackSample (w : lvWriter) (now : Z) (data : bytes) : lvWriter :=
  let dur := match lwLastWrite w with
             | None => lwInterval w
             | Some last => let d := now - last in if d <? lv_minSampleDuration then lv_minSampleDuration else d
             end in
  MkLw (lwInterval w) (lwBatch w) (lwPerTick w) (lwIdle w) (lwSince w) (lwQueue w) (lwLost w) (Some now)
    (lwLog w ++ [(data, dur)]).

(** A frame taken from the queue goes out with as many as fit. *)
Definition lv_write_batch (w : lvWriter) (now : Z) (frame : bytes) (q : list bytes) : lvWriter :=
  let '(sample, lost, q') := lv_batchSampleFrom (lwBatch w) q frame (lwPerTick w) in
  lv_writeTrackSample (lw_queue w q' (lwLost w ++ lost)) now sample.

Inductive lw_event := LwEnqueue (f : bytes) | LwData (now : Z) | LwTick (now : Z) (hdr : bytes).

(** The two cases of the select; a queued frame is taken at once. *)
(* go: src/native/mobilecore/legacyvp8channel/transport.go 600-648 writerLoop *)
Definition lv_writer_step (w : lvWriter) (e : lw_event) : lvWriter :=
  let keepaliveEvery := Z.max (100000000 / lwInterval w) 1 in
  let forceKeepaliveEvery := Z.max (2000000000 / lwInterval w) 1 in
  match e with
  | LwEnqueue f => lw_queue w (lwQueue w ++ [f]) (lwLost w)
  | LwData now =>
      match lwQueue w with
      | [] => w
      | frame :: q => lw_ticks (lv_write_batch w now frame q) 0 (lwSince w)
      end
  | LwTick now hdr =>
      let w := lw_ticks w (lwIdle w) (lwSince w + 1) in
      let w := if forceKeepaliveEvery <=? lwSince w then lv_writeTrackSample (lw_ticks w (lwIdle w) 0) now hdr else w in
      match lwQueue w with
      | frame :: q => lw_ticks (lv_write_batch w now frame q) 0 (lwSince w)
      | [] =>
          let w := lw_ticks w (lwIdle w + 1) (lwSince w) in
          if lwIdle w <? keepaliveEvery then w
          else lv_writeTrackSample (lw_ticks w 0 (lwSince w)) now hdr
      end
  end.

Definition lv_writer_run (w : lvWriter) (es : list lw_event) : lvWriter := fold_left lv_writer_step es w.

(** ** The reader *)

(* go: src/native/mobilecore/legacyvp8channel/transport.go 746-750 reorderBuffer *)
Record lvReorder := MkLvReorder { lrPkts : gmap Z RtpPacket; lrNextSeq : Z; lrStarted : bool }.

(* go: src/native/mobilecore/legacyvp8channel/transport.go 752-754 newReorderBuffer *)
Definition lv_newReorderBuffer : lvReorder := MkLvReorder ∅ 0 false.

(* go: src/native/mobilecore/legacyvp8channel/transport.go 786-796 skipToOldest *)
Definition lv_skipToOldest (b : lvReorder) (keys : list Z) : lvReorder :=
  MkLvReorder (lrPkts b) (default 0 (oldest_of keys)) (lrStarted b).

Fixpoint lv_drain_loop (fuel : nat) (b : lvReorder) : lvReorder * list RtpPacket :=
  match fuel with
  | O => (b, [])
  | S fuel =>
      match lrPkts b !! lrNextSeq b with
      | None => (b, [])
      | Some pkt =>
          let b := MkLvReorder (delete (lrNextSeq b) (lrPkts b)) (u16 (lrNextSeq b + 1)) (lrStarted b) in
          let '(b, out) := lv_drain_loop fuel b in (b, pkt :: out)
      end
  end.

(** Each round takes one packet out of the map. *)
(* go: src/native/mobilecore/legacyvp8channel/transport.go 773-784 drain *)
Definition lv_drain (b : lvReorder) : lvReorder * list RtpPacket := lv_drain_loop (size (lrPkts b)) b.

(** [iter] enumerates the keys of the map, in any order. *)
(* go: src/native/mobilecore/legacyvp8channel/transport.go 756-771 push *)
Definition lv_push (iter : gmap Z RtpPacket -> list Z) (b : lvReorder) (pkt : RtpPacket) : lvReorder * list RtpPacket :=
  let b := if lrStarted b then b else MkLvReorder (lrPkts b) (rSeq pkt) true in
  if seqLess (rSeq pkt) (lrNextSeq b) then (b, [])
  else
    let b := MkLvReorder (<[rSeq pkt := pkt]> (lrPkts b)) (lrNextSeq b) (lrStarted b) in
    let b := if reorderWindow <? Z.of_nat (size (lrPkts b)) then lv_skipToOldest b (iter (lrPkts b)) else b in
    lv_drain b.

(** The frame state has the fields of the current transport; there is no limit on the size of a frame. *)
(* go: src/native/mobilecore/legacyvp8channel/transport.go 806-850 processRTPPacket *)
Definition lv_processRTPPacket (vp8Unmarshal : bytes -> option (bool * bytes)) (s : vp8FrameState) (pkt : RtpPacket)
  : vp8FrameState * option bytes :=
  let gap := fsHaveLastSeq s && negb (rSeq pkt =? u16 (fsLastSeq s + 1)) in
  let valid := if gap then false else fsValid s in
  let buf := if gap then [] else fsBuf s in
  match vp8Unmarshal (rPayload pkt) with
  | None => (MkFrameState [] (rSeq pkt) true false, None)
  | Some (start, payload) =>
      let buf := if start then [] else buf in
      let valid := if start then true else valid in
      if negb valid then (MkFrameState buf (rSeq pkt) true valid, None)
      else
        let buf := buf ++ payload in
        if negb (rMarker pkt) then (MkFrameState buf (rSeq pkt) true valid, None)
        else (MkFrameState [] (rSeq pkt) true false, if lv_epochHdrLen <=? len buf then Some buf else None)
  end.

(** ** What is proved: what the legacy formats carry, and what the batcher drops *)

(** ** The epoch header *)

Lemma lv_epochCRC_range token epoch : is_u32 (lv_epochCRC token epoch).
Proof.
  change (lv_epochCRC token epoch) with (ChecksumIEEE (be_put 4 token ++ be_put 4 epoch)).
  apply crc32_range; auto with go. rewrite !Forall_app. auto using be_put_bytes.
Qed.

Lemma lv_header_layout token epoch :
  lv_buildEpochHeader token epoch =
    vp8Keepalive ++ be_put 4 token ++ be_put 4 epoch ++ be_put 4 (lv_epochCRC token epoch).
Proof. unfold lv_buildEpochHeader. generalize (lv_epochCRC token epoch). reflexivity. Qed.

Lemma lv_header_length token epoch : length (lv_buildEpochHeader token epoch) = 32%nat.
Proof. by rewrite lv_header_layout, !length_app, !length_be_put. Qed.

Lemma lv_parse_header token epoch rest :
  is_u32 token -> is_u32 epoch ->
  lv_parseEpochHeader (lv_buildEpochHeader token epoch ++ rest) = Ok (token, epoch, true).
Proof.
  intros Ht Hs. unfold lv_parseEpochHeader, lv_epochHdrLen.
  rewrite len_app, lv_header_length. case_if; [lia|].
  pose proof (lv_epochCRC_range token epoch) as Hc.
  rewrite lv_header_layout, <- !app_assoc.
  do 3 next_field 4%nat. by rewrite Z.eqb_refl.
Qed.

Lemma lv_parse_total frame : exists r, lv_parseEpochHeader frame = Ok r.
Proof.
  unfold lv_parseEpochHeader, lv_epochHdrLen. case_if; [by eexists|].
  rewrite !uint_at_ok by lia. cbn [obind]. by eexists.
Qed.

(** ** One packet *)

Lemma lv_frame_sealed hdr p : lv_frame hdr p = hdr ++ sealed p.
Proof. reflexivity. Qed.

Lemma lv_deliver_sealed c pc p :
  byte_list p -> len (lcIn c) < lcInCap c -> lcClosed c = false ->
  lv_deliver c pc (sealed p) = Ok (lc_set_in c (lcIn c ++ [p])).
Proof.
  intros Hb Hroom Hopen. unfold lv_deliver, sealed, wireCRCLen. rewrite len_app, length_be_put.
  case_if; [lia|]. replace (len p + Z.of_nat 4 - 4) with (len p) by lia.
  rewrite slice_ok, uint_at_ok by (rewrite ?len_app, ?length_be_put; lia). cbn [obind].
  replace (len p + Z.of_nat 4 - len p) with 4 by lia. rewrite Z.sub_0_r, Nat2Z.id.
  rewrite drop_0, take_app_length, drop_app_length, (take_ge (be_put 4 _)) by (rewrite ?length_be_put; simpl; lia).
  rewrite be_get_put32, Z.eqb_refl by (by apply ChecksumCastagnoli_range). cbn [negb].
  by rewrite Hopen, (proj2 (Z.ltb_lt _ _) Hroom).
Qed.

(** ** Messages over the stream *)

Definition lv_framed (m : bytes) : bytes := be_put 4 (len m) ++ m.

Lemma lv_send_framed m : len m <= lv_kcpMaxMessage -> lv_send m = Ok (lv_framed m).
Proof.
  intros H. unfold lv_send. case_if; [lia|]. unfold lv_framed. rewrite u32_small; [done|].
  unfold lv_kcpMaxMessage in H. lia.
Qed.

Lemma lv_read_framed ms fuel :
  Forall (fun m => len m <= lv_kcpMaxMessage) ms -> (length (concat (map lv_framed ms)) <= fuel)%nat ->
  lv_read_loop fuel (concat (map lv_framed ms)) = filter (fun m => m <> []) ms.
Proof.
  intros Hall. revert fuel. induction Hall as [|m ms Hm Hall IH]; intros fuel Hf.
  { by destruct fuel. }
  cbn [map concat] in *. change (lv_framed m) with (be_put 4 (len m) ++ m) in Hf.
  rewrite !length_app, length_be_put in Hf. destruct fuel as [|fuel]; [lia|]. cbn [lv_read_loop].
  set (tail := concat (map lv_framed ms)) in *.
  change (lv_framed m) with (be_put 4 (len m) ++ m). rewrite <- !app_assoc.
  rewrite !len_app, !length_be_put. case_if; [lia|].
  rewrite take_app_exact, drop_app_exact by apply length_be_put.
  unfold lv_kcpMaxMessage in *. rewrite be_get_put32 by lia. rewrite len_app.
  destruct m as [|b m]; [by apply IH; simpl in Hf; lia|]. cbn [length] in *.
  do 3 (case_if; [lia|]). rewrite Nat2Z.id.
  rewrite (take_app_exact (S (length m)) (b :: m)), (drop_app_exact (S (length m)) (b :: m)) by done.
  rewrite filter_cons_True by done. f_equal. apply IH. lia.
Qed.

(** The messages that are not empty arrive as they were sent. *)
Lemma lv_stream_roundtrip ms stream :
  mapM (fun m => match lv_send m with Ok s => Some s | _ => None end) ms = Some stream ->
  lv_readLoop (concat stream) = filter (fun m => m <> []) ms.
Proof.
  intros H.
  assert (Forall (fun m => len m <= lv_kcpMaxMessage) ms /\ stream = map lv_framed ms) as [Hall ->].
  { revert stream H. induction ms as [|m ms IH]; intros stream; cbn [mapM]; [by intros [= <-]|].
    destruct (lv_send m) as [s|e|] eqn:Em; simpl; try done.
    destruct (mapM _ ms) as [l|]; simpl; [|done]. intros [= <-]. destruct (IH l eq_refl) as [H1 ->].
    unfold lv_send in Em. case_if; [done|]. assert (len m <= lv_kcpMaxMessage) as Hm by lia.
    split; [by constructor|]. injection Em as <-. simpl. f_equal. unfold lv_framed.
    rewrite u32_small; [done|]. unfold lv_kcpMaxMessage in Hm. lia. }
  apply lv_read_framed; [done|lia].
Qed.

(** ** Batches *)

(** A frame as [WriteTo] queues it. *)
Definition lv_payload (f : bytes) : bytes := drop 32 f.
Definition lv_queued (f : bytes) : Prop := batchable (lv_payload f) /\ take 4 (lv_payload f) <> kcpBatchMagic.

(** What a sample brings to the other side's KCP. *)
Definition lv_carried (sample : bytes) : list bytes :=
  match drop 32 sample with [] => [] | payload => lv_splitKCPPayload payload end.

Lemma lv_queued_long f : lv_queued f -> lv_epochHdrLen < len f.
Proof. unfold lv_queued, batchable, lv_payload, lv_epochHdrLen. rewrite length_drop. lia. Qed.

Lemma lv_append_prefixed dst p : batchable p -> lv_appendBatchPacket dst p = dst ++ prefixed p.
Proof. apply append_prefixed. Qed.

(** What the loop takes out of the queue is in the sample or, one frame at most, nowhere. *)
Lemma lv_batch_loop_spec n maxBytes src sample sample' lost q :
  Forall lv_queued src -> lv_batch_loop n maxBytes src sample = (sample', lost, q) ->
  exists used, src = used ++ lost ++ q /\ (length lost <= 1)%nat /\
    sample' = sample ++ concat (map prefixed (map lv_payload used)) /\
    (len sample <= maxBytes -> len sample' <= maxBytes).
Proof.
  revert src sample. induction n as [|n IH]; intros src sample Hsrc; cbn [lv_batch_loop].
  { intros [= <- <- <-]. exists []. cbn. rewrite app_nil_r. by split_and!; [|lia|..]. }
  destruct src as [|f src]; [intros [= <- <- <-]; exists []; cbn; rewrite app_nil_r; by split_and!; [|lia|..]|].
  apply Forall_cons_iff in Hsrc as [Hf Hsrc]. pose proof (lv_queued_long f Hf).
  case_if; [lia|]. change (drop 32 f) with (lv_payload f). case_if.
  { intros [= <- <- <-]. exists []. cbn. rewrite app_nil_r. by split_and!; [|lia|..]. }
  rewrite lv_append_prefixed by apply Hf. intros Hloop.
  destruct (IH _ _ Hsrc Hloop) as (used & -> & Hl & -> & Hmax). exists (f :: used).
  split; [done|]. split; [done|]. split; [cbn [map concat]; by rewrite <- app_assoc|].
  intros Hle. apply Hmax. rewrite len_app. unfold prefixed. rewrite len_app, length_be_put. lia.
Qed.

Lemma lv_split_batch packets :
  Forall batchable packets -> lv_splitKCPPayload (kcpBatchMagic ++ concat (map prefixed packets)) = packets.
Proof. apply split_batch. Qed.

Lemma lv_batch_spec batchSize src first maxBytes sample lost q :
  Forall lv_queued (first :: src) -> lv_batchSampleFrom batchSize src first maxBytes = (sample, lost, q) ->
  exists used, src = used ++ lost ++ q /\ (length lost <= 1)%nat /\
    take 32 sample = take 32 first /\ lv_carried sample = map lv_payload (first :: used).
Proof.
  intros [Hf Hsrc]%Forall_cons_iff. pose proof (lv_queued_long first Hf) as Hlong. unfold lv_epochHdrLen in Hlong.
  unfold lv_batchSampleFrom, lv_epochHdrLen. cbv zeta.
  set (m := if (maxBytes <=? 0) || _ then _ else _). clearbody m. case_if.
  { destruct Heqb as [?|?]; bool_to_Prop; [lia|]. intros [= <- <- <-]. exists []. split_and!; [done|simpl; lia|done|].
    unfold lv_carried. fold (lv_payload first). destruct Hf as [Hb Hm]. unfold batchable in Hb.
    destruct (lv_payload first) eqn:E; [simpl in Hb; lia|]. rewrite <- E in *. cbn [map].
    by apply split_single. }
  intros Hloop. apply lv_batch_loop_spec in Hloop as (used & -> & Hl & -> & _); [|done].
  exists used. split; [done|]. split; [done|]. change (drop 32 first) with (lv_payload first).
  rewrite lv_append_prefixed by apply Hf. rewrite <- !app_assoc.
  assert (length (take 32 first) = 32%nat) as Hh by (rewrite length_take; lia).
  split; [by apply take_app_exact|]. unfold lv_carried. rewrite drop_app_exact by done.
  destruct (kcpBatchMagic ++ _) eqn:E; [done|]. rewrite <- E.
  replace (prefixed (lv_payload first) ++ concat (map prefixed (map lv_payload used)))
    with (concat (map prefixed (map lv_payload (first :: used)))) by done.
  apply lv_split_batch. apply Forall_map. constructor; [apply Hf|].
  apply Forall_app in Hsrc as [Hu _]. eapply Forall_impl; [exact Hu|]. by intros x [? _].
Qed.

(** ** The writer accounts for every frame *)

Definition lv_enqueued (es : list lw_event) : list bytes :=
  concat (map (fun e => match e with LwEnqueue f => [f] | _ => [] end) es).

Definition lv_sent (w : lvWriter) : list bytes := concat (map (fun s => lv_carried (fst s)) (lwLog w)).

(** The frames in the order they were queued, with what became of those that left the queue. *)
Definition accounts (w : lvWriter) (enq : list bytes) : Prop :=
  exists tr : list (bytes * bool),
    enq = map fst tr ++ lwQueue w /\
    lv_sent w = map lv_payload (map fst (List.filter snd tr)) /\
    lwLost w = map fst (List.filter (fun p => negb (snd p)) tr) /\
    (length (lwLost w) <= length (lwLog w))%nat.

Definition marked (b : bool) (l : list bytes) : list (bytes * bool) := map (fun f => (f, b)) l.

Lemma marked_fst b l : map fst (marked b l) = l.
Proof. induction l as [|x l IH]; simpl; [done|by rewrite IH]. Qed.
Lemma marked_all b l (P : bytes * bool -> bool) :
  (forall f, P (f, b) = true) -> List.filter P (marked b l) = marked b l.
Proof. intros H. induction l as [|x l IH]; simpl; [done|]. by rewrite H, IH. Qed.
Lemma marked_none b l (P : bytes * bool -> bool) : (forall f, P (f, b) = false) -> List.filter P (marked b l) = [].
Proof. intros H. induction l as [|x l IH]; simpl; [done|]. by rewrite H, IH. Qed.

Lemma lv_sent_snoc w log s d :
  lwLog w = log ++ [(s, d)] ->
  lv_sent w = concat (map (fun s => lv_carried (fst s)) log) ++ lv_carried s.
Proof. intros E. unfold lv_sent. rewrite E, map_app, concat_app. simpl. by rewrite app_nil_r. Qed.

Lemma accounts_batch w enq now frame q :
  accounts w enq -> lwQueue w = frame :: q -> Forall lv_queued (frame :: q) ->
  accounts (lv_write_batch w now frame q) enq.
Proof.
  intros (tr & E1 & E2 & E3 & E4) Hq Hg. unfold lv_write_batch.
  destruct (lv_batchSampleFrom (lwBatch w) q frame (lwPerTick w)) as [[sample lost] q'] eqn:Hb.
  apply lv_batch_spec in Hb as (used & -> & Hl & _ & Hc); [|done].
  exists (tr ++ marked true (frame :: used) ++ marked false lost). unfold lv_writeTrackSample, lw_queue. cbn [lwQueue lwLost lwLog].
  rewrite !map_app, !List.filter_app, !map_app, !marked_fst.
  rewrite (marked_all true _ snd), (marked_none false _ snd) by done.
  rewrite (marked_none true _ (fun p => negb (snd p))), (marked_all false _ (fun p => negb (snd p))) by done.
  rewrite !marked_fst, app_nil_r. split_and!.
  - rewrite E1, Hq, <- !app_assoc. done.
  - erewrite lv_sent_snoc by done. cbn [lwLog]. rewrite Hc. unfold lv_sent in E2. by rewrite E2.
  - by rewrite E3.
  - rewrite !length_app. simpl. lia.
Qed.

Lemma accounts_keepalive w enq now hdr : accounts w enq -> length hdr = 32%nat -> accounts (lv_writeTrackSample w now hdr) enq.
Proof.
  intros (tr & E1 & E2 & E3 & E4) Hh. exists tr. split_and!; [done| |done|].
  - erewrite lv_sent_snoc by done. unfold lv_sent in E2. rewrite E2. unfold lv_carried.
    rewrite drop_ge by lia. by rewrite app_nil_r.
  - unfold lv_writeTrackSample. cbn [lwLost lwLog]. rewrite length_app. lia.
Qed.

Definition lw_event_ok (e : lw_event) : Prop :=
  match e with LwEnqueue f => lv_queued f | LwTick _ hdr => length hdr = 32%nat | LwData _ => True end.

Definition writer_inv (w : lvWriter) (enq : list bytes) : Prop := accounts w enq /\ Forall lv_queued (lwQueue w).

Lemma writer_inv_batch w enq now frame q :
  writer_inv w enq -> lwQueue w = frame :: q -> writer_inv (lv_write_batch w now frame q) enq.
Proof.
  intros [Ha Hq] E. rewrite E in Hq. split; [by apply accounts_batch|].
  unfold lv_write_batch. destruct (lv_batchSampleFrom _ _ _ _) as [[s lost] q'] eqn:Hb.
  apply lv_batch_spec in Hb as (used & -> & _); [|done]. cbn [lwQueue lv_writeTrackSample lw_queue].
  apply Forall_cons in Hq as [_ Hq]. apply Forall_app in Hq as [_ Hq]. by apply Forall_app in Hq as [_ ?].
Qed.

Lemma writer_inv_ticks w enq i s : writer_inv w enq -> writer_inv (lw_ticks w i s) enq.
Proof. done. Qed.

Lemma writer_inv_step w enq e :
  writer_inv w enq -> lw_event_ok e ->
  writer_inv (lv_writer_step w e) (enq ++ match e with LwEnqueue f => [f] | _ => [] end).
Proof.
  intros Hw He. unfold lv_writer_step. cbv zeta. destruct e as [f|now|now hdr]; rewrite ?app_nil_r.
  - destruct Hw as [(tr & E1 & E2 & E3 & E4) Hq]. split.
    + exists tr. split_and!; [cbn; by rewrite E1, app_assoc|done|done|done].
    + apply Forall_app. split; [done|by constructor].
  - destruct (lwQueue w) as [|f q] eqn:E; [done|]. apply writer_inv_ticks. by apply writer_inv_batch.
  - set (w1 := lw_ticks w (lwIdle w) (lwSince w + 1)). set (w2 := if _ <=? lwSince w1 then _ else w1).
    assert (writer_inv w2 enq) as Hw2.
    { unfold w2. destruct (_ <=? lwSince w1); [|done].
      split; [|apply Hw]. apply accounts_keepalive; [apply Hw|done]. }
    destruct (lwQueue w2) as [|f q] eqn:E; [|apply writer_inv_ticks; by apply writer_inv_batch].
    case_if; [done|]. split; [|apply Hw2]. apply accounts_keepalive; [apply Hw2|done].
Qed.

Lemma writer_inv_run es w enq :
  writer_inv w enq -> Forall lw_event_ok es -> writer_inv (lv_writer_run w es) (enq ++ lv_enqueued es).
Proof.
  revert w enq. induction es as [|e es IH]; intros w enq Hw Hes; cbn; [by rewrite app_nil_r|].
  apply Forall_cons in Hes as [He Hes]. rewrite app_assoc. apply IH; [|done]. by apply writer_inv_step.
Qed.

Definition lv_writer_start (o : lvOptions) : lvWriter :=
  let '(interval, batch, perTick) := lv_pacing o in MkLw interval batch perTick 0 0 [] [] None [].

(** ** The reorder buffer is that of the current transport *)

Definition same_buffer (l : lvReorder) (b : reorderBuffer) : Prop :=
  lrPkts l = hPkt <$> rbPkts b /\ lrNextSeq l = rbNextSeq b /\ lrStarted l = rbStarted b.

Lemma same_drain fuel l b :
  same_buffer l b ->
  same_buffer (lv_drain_loop fuel l).1 (drain_loop fuel b).1 /\ (lv_drain_loop fuel l).2 = (drain_loop fuel b).2.
Proof.
  revert l b. induction fuel as [|fuel IH]; intros l b H; [done|]. cbn [lv_drain_loop drain_loop].
  destruct H as (E1 & E2 & E3). rewrite E1, E2, lookup_fmap.
  destruct (rbPkts b !! rbNextSeq b) as [h|]; simpl; [|done].
  edestruct (IH (MkLvReorder (delete (rbNextSeq b) (hPkt <$> rbPkts b)) (u16 (rbNextSeq b + 1)) (lrStarted l))
    (MkReorder (delete (rbNextSeq b) (rbPkts b)) (rb_recycle (rbFree b) h) (u16 (rbNextSeq b + 1)) (rbStarted b)))
    as [H1 H2].
  { split; simpl; [by rewrite fmap_delete|done]. }
  destruct (lv_drain_loop _ _) as [l' o1], (drain_loop _ _) as [b' o2]. simpl in *. by rewrite H2.
Qed.

Definition iter_of (iter : gmap Z RtpPacket -> list Z) (m : gmap Z held) : list Z := iter (hPkt <$> m).

Lemma iter_of_range iter : (forall m, iter m ≡ₚ (map_to_list m).*1) -> map_range (iter_of iter).
Proof.
  intros H m. unfold iter_of. rewrite H. rewrite map_to_list_fmap, <- list_fmap_compose.
  apply Permutation_refl'. apply list_fmap_ext. by intros _ [k h] _.
Qed.

Lemma clone_pkt free pkt : hPkt (rb_clone free pkt).2 = pkt.
Proof. unfold rb_clone. by destruct free. Qed.

Lemma same_push iter l b pkt :
  same_buffer l b ->
  same_buffer (lv_push iter l pkt).1 (rb_push (iter_of iter) b pkt).1 /\
  (lv_push iter l pkt).2 = (rb_push (iter_of iter) b pkt).2.
Proof.
  intros H. unfold lv_push, rb_push.
  set (l0 := if lrStarted l then l else _). set (b0 := if rbStarted b then b else _).
  assert (same_buffer l0 b0) as (E1 & E2 & E3).
  { destruct H as (E1 & E2 & E3). unfold l0, b0. rewrite E3. by destruct (rbStarted b) eqn:Es; unfold same_buffer; simpl; rewrite ?E3, ?Es. }
  clearbody l0 b0. rewrite E2. destruct (seqLess (rSeq pkt) (rbNextSeq b0)); [by split|].
  destruct (rb_clone _ pkt) as [free h] eqn:Ec.
  assert (hPkt h = pkt) as Eh by (change h with (free, h).2; rewrite <- Ec; apply clone_pkt).
  set (l1 := MkLvReorder (<[rSeq pkt:=pkt]> (lrPkts l0)) (rbNextSeq b0) (lrStarted l0)).
  set (b1 := MkReorder (<[rSeq pkt:=h]> (rbPkts b0)) free (rbNextSeq b0) (rbStarted b0)).
  assert (lrPkts l1 = hPkt <$> rbPkts b1) as E4 by (simpl; by rewrite fmap_insert, Eh, E1).
  assert (size (lrPkts l1) = size (rbPkts b1)) as E5 by (by rewrite E4, map_size_fmap).
  rewrite E5. unfold lv_drain, rb_drain.
  destruct (reorderWindow <? Z.of_nat (size (rbPkts b1))).
  - replace (size (lrPkts (lv_skipToOldest l1 (iter (lrPkts l1))))) with (size (rbPkts b1)) by done.
    apply same_drain. unfold lv_skipToOldest, skipToOldest, iter_of. rewrite E4. by split.
  - rewrite E5. by apply same_drain.
Qed.

Fixpoint lv_rb_run (iter : gmap Z RtpPacket -> list Z) (b : lvReorder) (pkts : list RtpPacket)
  : lvReorder * list RtpPacket :=
  match pkts with
  | [] => (b, [])
  | pkt :: rest =>
      let '(b, out) := lv_push iter b pkt in
      let '(b, more) := lv_rb_run iter b rest in
      (b, out ++ more)
  end.

(** The legacy buffer delivers exactly what the current one delivers. *)
Lemma lv_reorder_same iter pkts l b :
  same_buffer l b -> (lv_rb_run iter l pkts).2 = (rb_run (iter_of iter) b pkts).2.
Proof.
  revert l b. induction pkts as [|p pkts IH]; intros l b H; [done|]. cbn [lv_rb_run rb_run].
  destruct (same_push iter l b p H) as [H1 H2].
  destruct (lv_push iter l p) as [l' o1], (rb_push (iter_of iter) b p) as [b' o2]. simpl in *. subst o2.
  specialize (IH l' b' H1). destruct (lv_rb_run iter l' pkts), (rb_run (iter_of iter) b' pkts). simpl in *. by rewrite IH.
Qed.

(** The writer of the legacy vp8channel accounts for every KCP packet that is queued: the packets that have left
    the queue were carried by the samples written, in the order they were queued, except those the batcher took and dropped
    because the sample was full, at most one for each sample; the rest is still queued. *)
Theorem legacy_writer_accounts (o : lvOptions) (es : list lw_event) :
  Forall lw_event_ok es ->
  let w := lv_writer_run (lv_writer_start o) es in
  exists tr : list (bytes * bool),
    lv_enqueued es = map fst tr ++ lwQueue w /\
    lv_sent w = map lv_payload (map fst (List.filter snd tr)) /\
    lwLost w = map fst (List.filter (fun p => negb (snd p)) tr) /\
    (length (lwLost w) <= length (lwLog w))%nat.
Proof.
  intros Hes w. assert (writer_inv (lv_writer_start o) []) as H0.
  { unfold lv_writer_start. destruct (lv_pacing o) as [[i b] t]. split; [|constructor]. exists []. by split_and!. }
  destruct (writer_inv_run es _ [] H0 Hes) as [H _]. exact H.
Qed.

(** Two packets queued together, of which the second does not fit under the rate limit. *)
Definition demo_packet (b : Z) : bytes := replicate 32 0 ++ replicate 40 b.
Definition demo_writer : list lw_event := [LwEnqueue (demo_packet 1); LwEnqueue (demo_packet 2); LwData 5].

Lemma legacy_writer_accounts_witness :
  let w := lv_writer_run (lv_writer_start (MkLvOptions 1 64 100)) demo_writer in
  lwLost w = [demo_packet 2] /\ lv_sent w = [replicate 40 1] /\
  exists tr : list (bytes * bool),
    lv_enqueued demo_writer = map fst tr ++ lwQueue w /\
    lv_sent w = map lv_payload (map fst (List.filter snd tr)).
Proof.
  intros w. split; [by vm_compute|]. split; [by vm_compute|].
  destruct (legacy_writer_accounts (MkLvOptions 1 64 100) demo_writer) as (tr & H1 & H2 & _); [|by exists tr].
  repeat constructor; vm_compute; done.
Defined.
