(* ===== verification/LegacyVp8.v ===== *)
(** * LegacyVp8: the life of a legacy vp8channel transport
    (src/native/mobilecore/legacyvp8channel/transport.go)

    KCP runtimes are numbered as they are started; the state says which the transport points to and which are open.
    [Connect] and every reset run as threads of their own, one step for each access to shared state, and so do the janitor
    and [Close].  A message that a runtime hands over is an event.  The formats are in LegacyWire. *)

From S2P Require Import Prelude Bytes Text Frame VpWire VpTransport LegacyWire.

(* go: src/native/mobilecore/legacyvp8channel/transport.go 43-43 defaultPeerRestartGrace *)
Definition lv_peerRestartGrace : Z := 6 * 1000000000.
(* go: src/native/mobilecore/legacyvp8channel/transport.go 62-62 peerIdleTimeout *)
Definition lv_peerIdleTimeout : Z := 120 * 1000000000.

(** What is left of [restartKCP]: the old runtime to take, the one taken to close, the new one to start and to store. *)
Inductive lv_restart := RsTake | RsCloseOld (old : option nat) | RsStart | RsStore (rt : nat) | RsDone.

(** What is left of [Close]. *)
Inductive lv_close := LkMark | LkReadKcp | LkCloseKcp (rt : option nat) | LkPeers | LkStream | LkDone.

(** [lvMulti] is whether [onPeerData] is set; [lvLog] what was handed to the runtimes, with the epoch of the frame;
    [lvOverlap] records that a [Connect] or a reset began while another was at work or after [Close], or that [Close] began
    while one was at work, or that [Connect] first came after a reset. *)
(* go: src/native/mobilecore/legacyvp8channel/transport.go 113-164 streamTransport *)
Record lvTransport := MkLv {
  lvMulti : bool;
  lvToken : Z;
  lvEpoch : Z;
  lvPeerEpoch : Z;
  lvConfirmed : bool;
  lvLastFrame : Z;
  lvRestarting : bool;
  lvReconnects : nat;
  lvKcp : option nat;
  lvPeers : gmap Z (nat * Z);
  lvOpen : gset nat;
  lvNext : nat;
  lvOnce : bool;
  lvThreads : list lv_restart;
  lvDead : list Z;
  lvClosing : option lv_close;
  lvClosed : bool;
  lvLog : list (nat * Z * bytes);
  lvOverlap : bool;
}.

(* go: src/native/mobilecore/legacyvp8channel/transport.go 240-258 newStreamTransport *)
Definition lv_new (multi : bool) (roomURL : string) (epoch : Z) : lvTransport :=
  MkLv multi (lv_bindingToken roomURL) epoch 0 false 0 false 0 None ∅ ∅ 0 false [] [] None false [] false.

(** ** Field updates *)

Definition put_latch (p : lvTransport) (epoch : Z) (conf : bool) (last : Z) (restarting : bool) (rec : nat) : lvTransport :=
  MkLv (lvMulti p) (lvToken p) (lvEpoch p) epoch conf last restarting rec (lvKcp p) (lvPeers p) (lvOpen p) (lvNext p)
    (lvOnce p) (lvThreads p) (lvDead p) (lvClosing p) (lvClosed p) (lvLog p) (lvOverlap p).
Definition put_local (p : lvTransport) (epoch : Z) : lvTransport :=
  MkLv (lvMulti p) (lvToken p) epoch (lvPeerEpoch p) (lvConfirmed p) (lvLastFrame p) (lvRestarting p) (lvReconnects p)
    (lvKcp p) (lvPeers p) (lvOpen p) (lvNext p) (lvOnce p) (lvThreads p) (lvDead p) (lvClosing p) (lvClosed p) (lvLog p)
    (lvOverlap p).
Definition put_runtimes (p : lvTransport) (kcp : option nat) (peers : gmap Z (nat * Z)) (open : gset nat) (next : nat)
  : lvTransport :=
  MkLv (lvMulti p) (lvToken p) (lvEpoch p) (lvPeerEpoch p) (lvConfirmed p) (lvLastFrame p) (lvRestarting p) (lvReconnects p)
    kcp peers open next (lvOnce p) (lvThreads p) (lvDead p) (lvClosing p) (lvClosed p) (lvLog p) (lvOverlap p).
Definition put_threads (p : lvTransport) (once : bool) (ts : list lv_restart) (ov : bool) : lvTransport :=
  MkLv (lvMulti p) (lvToken p) (lvEpoch p) (lvPeerEpoch p) (lvConfirmed p) (lvLastFrame p) (lvRestarting p) (lvReconnects p)
    (lvKcp p) (lvPeers p) (lvOpen p) (lvNext p) once ts (lvDead p) (lvClosing p) (lvClosed p) (lvLog p) ov.
Definition put_dead (p : lvTransport) (l : list Z) : lvTransport :=
  MkLv (lvMulti p) (lvToken p) (lvEpoch p) (lvPeerEpoch p) (lvConfirmed p) (lvLastFrame p) (lvRestarting p) (lvReconnects p)
    (lvKcp p) (lvPeers p) (lvOpen p) (lvNext p) (lvOnce p) (lvThreads p) l (lvClosing p) (lvClosed p) (lvLog p) (lvOverlap p).
Definition put_closing (p : lvTransport) (c : option lv_close) (closed ov : bool) : lvTransport :=
  MkLv (lvMulti p) (lvToken p) (lvEpoch p) (lvPeerEpoch p) (lvConfirmed p) (lvLastFrame p) (lvRestarting p) (lvReconnects p)
    (lvKcp p) (lvPeers p) (lvOpen p) (lvNext p) (lvOnce p) (lvThreads p) (lvDead p) c closed (lvLog p) ov.
Definition put_log (p : lvTransport) (l : list (nat * Z * bytes)) : lvTransport :=
  MkLv (lvMulti p) (lvToken p) (lvEpoch p) (lvPeerEpoch p) (lvConfirmed p) (lvLastFrame p) (lvRestarting p) (lvReconnects p)
    (lvKcp p) (lvPeers p) (lvOpen p) (lvNext p) (lvOnce p) (lvThreads p) (lvDead p) (lvClosing p) (lvClosed p)
    (lvLog p ++ l) (lvOverlap p).

Definition close_rt (o : option nat) (g : gset nat) : gset nat := match o with Some n => g ∖ {[n]} | None => g end.

(** ** Receiving *)

(** [deliverKCPPayload]: each packet of the payload, in order. *)
(* go: src/native/mobilecore/legacyvp8channel/transport.go 1100-1105 deliverKCPPayload *)
Definition lv_deliverKCPPayload (p : lvTransport) (rt : nat) (epoch : Z) (payload : bytes) : lvTransport :=
  match payload with
  | [] => p
  | _ => put_log p (map (fun pkt => (rt, epoch, pkt)) (lv_splitKCPPayload payload))
  end.

(* go: src/native/mobilecore/legacyvp8channel/transport.go 878-884 handleFirstPeer *)
Definition lv_handleFirstPeer (p : lvTransport) (epoch now : Z) : lvTransport :=
  put_latch p epoch true now false (lvReconnects p).

(** The carrier is asked to reconnect once the latched peer has been silent. *)
(* go: src/native/mobilecore/legacyvp8channel/transport.go 929-948 maybePeerRestart *)
Definition lv_maybePeerRestart (p : lvTransport) (now : Z) : lvTransport :=
  if (lvLastFrame p =? 0) || (now - lvLastFrame p <? lv_peerRestartGrace) then p
  else if lvRestarting p then p
  else put_latch p (lvPeerEpoch p) (lvConfirmed p) (lvLastFrame p) true (S (lvReconnects p)).

(** [ok] is whether [startKCP] succeeds. *)
(* go: src/native/mobilecore/legacyvp8channel/transport.go 966-1011 getOrCreatePeerKCP *)
Definition lv_getOrCreatePeerKCP (p : lvTransport) (ok : bool) (epoch now : Z) : lvTransport * option nat :=
  match lvPeers p !! epoch with
  | Some (rt, _) => (put_runtimes p (lvKcp p) (<[epoch := (rt, now)]> (lvPeers p)) (lvOpen p) (lvNext p), Some rt)
  | None =>
      if ok then
        let rt := lvNext p in
        (put_runtimes p (lvKcp p) (<[epoch := (rt, now)]> (lvPeers p)) ({[rt]} ∪ lvOpen p) (S rt), Some rt)
      else (p, None)
  end.

(* go: src/native/mobilecore/legacyvp8channel/transport.go 950-964 handlePeerFrame *)
Definition lv_handlePeerFrame (p : lvTransport) (ok : bool) (epoch now : Z) (payload : bytes) : lvTransport :=
  match lv_getOrCreatePeerKCP p ok epoch now with
  | (p, Some rt) => lv_deliverKCPPayload p rt epoch payload
  | (p, None) => p
  end.

(* go: src/native/mobilecore/legacyvp8channel/transport.go 886-927 handleIncomingFrame *)
Definition lv_handleIncomingFrame (p : lvTransport) (ok : bool) (now : Z) (frame : bytes) : outcome Empty_set lvTransport :=
  let* hdr := lv_parseEpochHeader frame in
  let '(token, epoch, good) := hdr in
  if negb good then Ok p
  else if negb (token =? lvToken p) then Ok p
  else
    let payload := drop 32 frame in
    if epoch =? lvEpoch p then Ok p
    else if lvMulti p then Ok (lv_handlePeerFrame p ok epoch now payload)
    else
      if lvConfirmed p && negb (lvPeerEpoch p =? epoch) then Ok (lv_maybePeerRestart p now)
      else
        let p := if lvConfirmed p then put_latch p (lvPeerEpoch p) true now (lvRestarting p) (lvReconnects p)
                 else lv_handleFirstPeer p epoch now in
        match lvKcp p with
        | Some rt => Ok (lv_deliverKCPPayload p rt epoch payload)
        | None => Ok p
        end.

(** A runtime hands a message to [onData], which confirms whatever peer is latched. *)
(* go: src/native/mobilecore/legacyvp8channel/transport.go 260-274 newStreamTransport *)
Definition lv_onMessage (p : lvTransport) : lvTransport :=
  if lvMulti p then p
  else put_latch p (lvPeerEpoch p) true (lvLastFrame p) (lvRestarting p) (lvReconnects p).

(** ** Starting, resetting, closing *)

Definition thread_active (t : lv_restart) : bool := match t with RsDone => false | _ => true end.
Definition any_active (p : lvTransport) : bool := existsb thread_active (lvThreads p).

Definition spawn (p : lvTransport) (once : bool) (t : lv_restart) : lvTransport :=
  put_threads p once (lvThreads p ++ [t]) (lvOverlap p || any_active p || lvClosed p).

(** The part of [Connect] after the stream is up. *)
(* go: src/native/mobilecore/legacyvp8channel/transport.go 293-307 Connect *)
Definition lv_Connect (p : lvTransport) : lvTransport :=
  if lvOnce p then p
  else spawn (put_threads p (lvOnce p) (lvThreads p) (lvOverlap p || (if lvKcp p then true else false))) true RsStart.

(** [epoch] is the first random epoch that differs from the current one. *)
(* go: src/native/mobilecore/legacyvp8channel/transport.go 335-347 rotateEpochHeader *)
Definition lv_rotateEpoch (p : lvTransport) (epoch : Z) : lvTransport :=
  if epoch =? lvEpoch p then p else put_local p epoch.

(** [resetKCP] does the same when the carrier has reconnected. *)
(* go: src/native/mobilecore/legacyvp8channel/transport.go 484-492 ResetPeer *)
Definition lv_ResetPeer (p : lvTransport) (epoch : Z) : lvTransport :=
  let p := put_latch p 0 false (lvLastFrame p) (lvRestarting p) (lvReconnects p) in
  spawn (lv_rotateEpoch p epoch) (lvOnce p) RsTake.

Definition put_thread (p : lvTransport) (i : nat) (t : lv_restart) : lvTransport :=
  put_threads p (lvOnce p) (<[i := t]> (lvThreads p)) (lvOverlap p).

(* go: src/native/mobilecore/legacyvp8channel/transport.go 701-717 restartKCP *)
Definition lv_restartKCP (i : nat) (ok : bool) (p : lvTransport) : lvTransport :=
  match lvThreads p !! i with
  | Some RsTake => put_thread (put_runtimes p None (lvPeers p) (lvOpen p) (lvNext p)) i (RsCloseOld (lvKcp p))
  | Some (RsCloseOld old) => put_thread (put_runtimes p (lvKcp p) (lvPeers p) (close_rt old (lvOpen p)) (lvNext p)) i RsStart
  | Some RsStart =>
      if ok then
        put_thread (put_runtimes p (lvKcp p) (lvPeers p) ({[lvNext p]} ∪ lvOpen p) (S (lvNext p))) i (RsStore (lvNext p))
      else put_thread p i RsDone
  | Some (RsStore rt) => put_thread (put_runtimes p (Some rt) (lvPeers p) (lvOpen p) (lvNext p)) i RsDone
  | _ => p
  end.

(* go: src/native/mobilecore/legacyvp8channel/transport.go 1064-1086 evictPeer *)
Definition lv_evictPeer (p : lvTransport) (epoch : Z) : lvTransport :=
  match lvPeers p !! epoch with
  | Some (rt, _) => put_runtimes p (lvKcp p) (delete epoch (lvPeers p)) (close_rt (Some rt) (lvOpen p)) (lvNext p)
  | None => p
  end.

(* go: src/native/mobilecore/legacyvp8channel/transport.go 434-441 DropPeer *)
Definition lv_DropPeer (p : lvTransport) (peerID : string) : lvTransport :=
  match ParseUint16_32 peerID with Ok epoch => lv_evictPeer p epoch | _ => p end.

(** The scan of [evictIdlePeers]; the evictions follow one by one. *)
(* go: src/native/mobilecore/legacyvp8channel/transport.go 1049-1062 evictIdlePeers *)
Definition lv_scan (p : lvTransport) (now : Z) : lvTransport :=
  put_dead p (map fst (List.filter (fun e => snd (snd e) <? now - lv_peerIdleTimeout) (map_to_list (lvPeers p)))).

Definition lv_evict_next (p : lvTransport) : lvTransport :=
  match lvDead p with
  | [] => p
  | epoch :: rest => put_dead (lv_evictPeer p epoch) rest
  end.

Definition close_peers (p : lvTransport) : lvTransport :=
  put_runtimes p (lvKcp p) ∅ (lvOpen p ∖ list_to_set (map (fun e => fst (snd e)) (map_to_list (lvPeers p)))) (lvNext p).

(* go: src/native/mobilecore/legacyvp8channel/transport.go 443-472 Close *)
Definition lv_Close (p : lvTransport) : lvTransport :=
  let ov := lvOverlap p in
  match lvClosing p with
  | Some LkMark => put_closing p (Some LkReadKcp) true (ov || any_active p)
  | Some LkReadKcp => put_closing p (Some (LkCloseKcp (lvKcp p))) true ov
  | Some (LkCloseKcp rt) =>
      put_closing (put_runtimes p (lvKcp p) (lvPeers p) (close_rt rt (lvOpen p)) (lvNext p)) (Some LkPeers) true ov
  | Some LkPeers => put_closing (close_peers p) (Some LkStream) true ov
  | Some LkStream => put_closing p (Some LkDone) true ov
  | _ => p
  end.

(** ** Sending *)

(** Which runtime a message goes to; [None] is ErrTransportClosed. *)
(* go: src/native/mobilecore/legacyvp8channel/transport.go 396-409 Send *)
Definition lv_Send (p : lvTransport) : option nat := if lvClosed p then None else lvKcp p.

(* go: src/native/mobilecore/legacyvp8channel/transport.go 411-427 SendTo *)
Definition lv_SendTo (p : lvTransport) (peerID : string) : outcome bool nat :=
  if lvClosed p then Err true
  else match ParseUint16_32 peerID with
       | Ok epoch => match lvPeers p !! epoch with Some (rt, _) => Ok rt | None => Err true end
       | _ => Err false
       end.

(* go: src/native/mobilecore/legacyvp8channel/transport.go 540-549 CanSend *)
Definition lv_CanSend (p : lvTransport) (streamCanSend : bool) (queued : Z) : bool :=
  negb (lvClosed p) && (if lvKcp p then true else false) && streamCanSend && (queued <? 2048 * 90 / 100).

(** ** Runs *)

Inductive lv_event :=
| LvConnect
| LvFrame (ok : bool) (now : Z) (frame : bytes)
| LvMessage
| LvReset (epoch : Z)
| LvThread (i : nat) (ok : bool)
| LvDrop (peerID : string)
| LvScan (now : Z)
| LvEvict
| LvClose
| LvCloseStep.

Definition lv_step (p : lvTransport) (e : lv_event) : lvTransport :=
  match e with
  | LvConnect => lv_Connect p
  | LvFrame ok now frame => match lv_handleIncomingFrame p ok now frame with Ok p => p | _ => p end
  | LvMessage => lv_onMessage p
  | LvReset epoch => lv_ResetPeer p epoch
  | LvThread i ok => lv_restartKCP i ok p
  | LvDrop peerID => lv_DropPeer p peerID
  | LvScan now => lv_scan p now
  | LvEvict => lv_evict_next p
  | LvClose => match lvClosing p with None => put_closing p (Some LkMark) (lvClosed p) (lvOverlap p) | Some _ => p end
  | LvCloseStep => lv_Close p
  end.

Definition lv_run (p : lvTransport) (es : list lv_event) : lvTransport := fold_left lv_step es p.
