(* ===== verification/LegacyFacts.v ===== *)
(** * LegacyFacts: which frames a legacy transport accepts, and what it leaves open *)

From S2P Require Import Prelude Bytes Text Frame VpWire VpTransport LegacyWire LegacyVp8.

#[export] Instance lv_restart_eq_dec : EqDecision lv_restart.
Proof. solve_decision. Defined.

(** ** Which runtimes are open, in single-peer mode *)

(** The runtime a thread is responsible for. *)
Definition thread_rt (t : lv_restart) : option nat :=
  match t with RsCloseOld old => old | RsStore rt => Some rt | _ => None end.

(** A thread that has taken the old runtime and not stored the new one. *)
Definition mid_restart (t : lv_restart) : bool := match t with RsCloseOld _ | RsStart | RsStore _ => true | _ => false end.

(** At most one thread, the last one, is at work. *)
Definition quiet_but_last (ts : list lv_restart) : Prop := forall i t, ts !! i = Some t -> S i <> length ts -> t = RsDone.

Definition the_thread (p : lvTransport) : lv_restart := default RsDone (last (lvThreads p)).

Record lv_live (p : lvTransport) : Prop := {
  ll_last : quiet_but_last (lvThreads p);
  ll_open : forall x, x ∈ lvOpen p -> lvKcp p = Some x \/ thread_rt (the_thread p) = Some x;
  ll_mid : mid_restart (the_thread p) = true -> lvKcp p = None;
  ll_close : lvClosing p = None \/ lvClosing p = Some LkMark }.

(** [Close] has begun with no thread at work. *)
Definition lv_shut (p : lvTransport) : Prop :=
  any_active p = false /\
  match lvClosing p with
  | Some LkReadKcp => forall x, x ∈ lvOpen p -> lvKcp p = Some x
  | Some (LkCloseKcp rt) => forall x, x ∈ lvOpen p -> rt = Some x
  | Some LkPeers | Some LkStream | Some LkDone => lvOpen p = ∅
  | _ => False
  end.

Definition lv_inv (p : lvTransport) : Prop :=
  lvMulti p = false /\ lvPeers p = ∅ /\
  (lvOverlap p = false -> if lvClosed p then lv_shut p else lv_live p).

Lemma lv_inv_new room epoch : lv_inv (lv_new false room epoch).
Proof.
  split; [done|]. split; [done|]. intros _. split; simpl; try done; try (by left).
Qed.

(** ** Threads *)

Lemma inactive_all ts i t : existsb thread_active ts = false -> ts !! i = Some t -> t = RsDone.
Proof.
  intros H Hi. apply not_true_iff_false in H. destruct t; try done; exfalso; apply H, existsb_exists;
    eexists; (split; [apply list_elem_of_In; exact (list_elem_of_lookup_2 _ _ _ Hi)|done]).
Qed.

Lemma inactive_last ts : existsb thread_active ts = false -> default RsDone (last ts) = RsDone.
Proof.
  intros H. destruct (last ts) as [t|] eqn:E; [|done]. rewrite last_lookup in E. simpl. by eapply inactive_all.
Qed.

Lemma active_is_last ts i t :
  quiet_but_last ts -> ts !! i = Some t -> t <> RsDone -> S i = length ts /\ default RsDone (last ts) = t.
Proof.
  intros Hq Hi Ht. assert (S i = length ts) as E by (destruct (decide (S i = length ts)) as [|Hn]; [done|by destruct (Ht (Hq _ _ Hi Hn))]).
  split; [done|]. rewrite last_lookup, <- E. simpl. by rewrite Hi.
Qed.

Lemma quiet_insert ts i t : quiet_but_last ts -> S i = length ts -> quiet_but_last (<[i := t]> ts).
Proof.
  intros Hq E j u Hj Hn. rewrite length_insert in Hn. rewrite list_lookup_insert_ne in Hj by lia. by eapply Hq.
Qed.

Lemma last_after_insert ts i t : S i = length ts -> default RsDone (last (<[i := t]> ts)) = t.
Proof. intros E. rewrite last_lookup, length_insert, <- E. simpl. by rewrite list_lookup_insert_eq by lia. Qed.

Lemma quiet_snoc ts t : existsb thread_active ts = false -> quiet_but_last (ts ++ [t]).
Proof.
  intros H i u Hi Hn. rewrite length_app in Hn. simpl in Hn.
  apply lookup_app_Some in Hi as [Hi|[Hi1 Hi2]]; [by eapply inactive_all|].
  apply lookup_lt_Some in Hi2. simpl in Hi2. lia.
Qed.

(** Replacing the thread at work. *)
Lemma lv_live_thread p q i t t' :
  lv_live p -> lvThreads p !! i = Some t -> t <> RsDone ->
  lvThreads q = <[i := t']> (lvThreads p) -> lvClosing q = lvClosing p ->
  (forall x, x ∈ lvOpen q -> lvKcp q = Some x \/ thread_rt t' = Some x) ->
  (mid_restart t' = true -> lvKcp q = None) ->
  lv_live q.
Proof.
  intros [H1 H2 H3 H4] Hi Ht E1 E2 Ho Hm. destruct (active_is_last _ _ _ H1 Hi Ht) as [El _].
  assert (the_thread q = t') as Eq by (unfold the_thread; rewrite E1; by apply last_after_insert).
  split; rewrite ?Eq, ?E1, ?E2; try done. by apply quiet_insert.
Qed.

Lemma lv_live_restart p i ok : lv_live p -> lv_live (lv_restartKCP i ok p).
Proof.
  intros Hl. pose proof Hl as [H1 H2 H3 H4]. unfold lv_restartKCP.
  destruct (lvThreads p !! i) as [t|] eqn:Hi; [|done].
  destruct (decide (t = RsDone)) as [->|Ht]; [done|].
  destruct (active_is_last _ _ _ H1 Hi Ht) as [_ Et]. unfold the_thread in H2, H3. rewrite Et in H2, H3.
  destruct t as [|old| |rt|]; [..|done]; simpl in H2, H3.
  - eapply lv_live_thread; [done|done|done|done|done|..]; simpl; [|done].
    intros x Hx. destruct (H2 x Hx); [by right|done].
  - rewrite (H3 eq_refl) in *. eapply lv_live_thread; [done|done|done|done|done|..]; simpl; [|done].
    intros x Hx. exfalso. destruct old as [n|]; simpl in Hx; [|by destruct (H2 x Hx)].
    apply elem_of_difference in Hx as [Hx Hn]. destruct (H2 x Hx) as [?|[= ->]]; [done|]. by apply Hn, elem_of_singleton.
  - rewrite (H3 eq_refl) in *. destruct ok.
    + eapply lv_live_thread; [done|done|done|done|done|..]; simpl; [|done].
      intros x [->%elem_of_singleton|Hx]%elem_of_union; [by right|]. by destruct (H2 x Hx).
    + eapply lv_live_thread; [done|done|done|done|done|..]; simpl; [|done].
      intros x Hx. by destruct (H2 x Hx).
  - rewrite (H3 eq_refl) in *. eapply lv_live_thread; [done|done|done|done|done|..]; simpl; [|done].
    intros x Hx. destruct (H2 x Hx) as [?|[= ->]]; [done|by left].
Qed.

(** A new thread, when none is at work. *)
Lemma lv_live_spawn p q t :
  lv_live p -> any_active p = false ->
  lvThreads q = lvThreads p ++ [t] -> lvClosing q = lvClosing p -> lvOpen q = lvOpen p -> lvKcp q = lvKcp p ->
  (mid_restart t = true -> lvKcp p = None) -> lv_live q.
Proof.
  intros [H1 H2 H3 H4] Ha E1 E2 E3 E4 Hm. unfold the_thread in H2. rewrite (inactive_last _ Ha) in H2.
  assert (the_thread q = t) as Eq by (unfold the_thread; by rewrite E1, last_snoc).
  split; rewrite ?Eq, ?E1, ?E2, ?E3, ?E4; try done; [by apply quiet_snoc|].
  intros x Hx. destruct (H2 x Hx); [by left|done].
Qed.

(** ** Every step keeps the invariant *)

Definition lv_same (p q : lvTransport) : Prop :=
  lvMulti q = lvMulti p /\ lvPeers q = lvPeers p /\ lvOverlap q = lvOverlap p /\ lvClosed q = lvClosed p /\
  lvThreads q = lvThreads p /\ lvOpen q = lvOpen p /\ lvKcp q = lvKcp p /\ lvClosing q = lvClosing p.

Lemma lv_inv_same p q : lv_same p q -> lv_inv p -> lv_inv q.
Proof.
  intros (E1 & E2 & E3 & E4 & E5 & E6 & E7 & E8) (H1 & H2 & H3). unfold lv_inv. rewrite E1, E2, E3, E4.
  split; [done|]. split; [done|]. intros Ho. specialize (H3 Ho). destruct (lvClosed p).
  - unfold lv_shut, any_active in *. by rewrite E5, E6, E7, E8.
  - destruct H3 as [L1 L2 L3 L4]. split; unfold the_thread in *; by rewrite ?E5, ?E6, ?E7, ?E8.
Qed.

Lemma lv_same_frame p ok now frame :
  lvMulti p = false -> exists q, lv_handleIncomingFrame p ok now frame = Ok q /\ lv_same p q.
Proof.
  intros Hm. unfold lv_handleIncomingFrame. destruct (lv_parse_total frame) as [[[token epoch] good] ->]. cbn [obind].
  destruct (negb good); [by eexists|]. destruct (negb (token =? lvToken p)); [by eexists|].
  destruct (epoch =? lvEpoch p); [by eexists|]. rewrite Hm.
  destruct (lvConfirmed p && negb (lvPeerEpoch p =? epoch)).
  { unfold lv_maybePeerRestart. repeat case_match; by eexists. }
  destruct (lvConfirmed p); simpl; (destruct (lvKcp p); [|by eexists]); unfold lv_deliverKCPPayload;
    destruct (drop 32 frame); by eexists.
Qed.

Lemma lv_evict_none p epoch : lvPeers p = ∅ -> lv_evictPeer p epoch = p.
Proof. intros E. unfold lv_evictPeer. by rewrite E, lookup_empty. Qed.

Lemma lv_inv_thread p i ok : lv_inv p -> lv_inv (lv_restartKCP i ok p).
Proof.
  intros (H1 & H2 & H3). 
  assert (lvMulti (lv_restartKCP i ok p) = lvMulti p /\ lvPeers (lv_restartKCP i ok p) = lvPeers p /\
    lvOverlap (lv_restartKCP i ok p) = lvOverlap p /\ lvClosed (lv_restartKCP i ok p) = lvClosed p) as (E1 & E2 & E3 & E4).
  { unfold lv_restartKCP. destruct (lvThreads p !! i) as [[]|]; try done. by destruct ok. }
  unfold lv_inv. rewrite E1, E2, E3, E4. split; [done|]. split; [done|]. intros Ho. specialize (H3 Ho).
  destruct (lvClosed p); [|by apply lv_live_restart].
  assert (lv_restartKCP i ok p = p) as ->; [|done].
  destruct H3 as [Ha _]. unfold lv_restartKCP. destruct (lvThreads p !! i) as [t|] eqn:Hi; [|done].
  by rewrite (inactive_all _ _ _ Ha Hi).
Qed.

Lemma lv_inv_connect p : lv_inv p -> lv_inv (lv_Connect p).
Proof.
  intros (H1 & H2 & H3). unfold lv_Connect. destruct (lvOnce p); [done|]. split; [done|]. split; [done|]. simpl.
  intros Ho. apply orb_false_iff in Ho as [[[Ho Hk]%orb_false_iff Ha]%orb_false_iff Hcl]. rewrite Hcl in *. specialize (H3 Ho).
  eapply lv_live_spawn; try done. intros _. by destruct (lvKcp p).
Qed.

Lemma lv_inv_reset p epoch : lv_inv p -> lv_inv (lv_ResetPeer p epoch).
Proof.
  intros (H1 & H2 & H3). unfold lv_ResetPeer, lv_rotateEpoch. cbn [lvEpoch put_latch].
  destruct (epoch =? lvEpoch p); (split; [done|]; split; [done|]); simpl; intros Ho;
    apply orb_false_iff in Ho as [[Ho Ha]%orb_false_iff Hcl]; rewrite Hcl in *; specialize (H3 Ho);
    by eapply lv_live_spawn.
Qed.

Lemma lv_inv_close p : lv_inv p -> lv_inv (lv_Close p).
Proof.
  intros (H1 & H2 & H3). unfold lv_Close.
  destruct (lvClosing p) as [[| |rt| | |]|] eqn:Hc; try done; (split; [done|]; split; [done|]); simpl; intros Ho.
  - apply orb_false_iff in Ho as [Ho Ha]. specialize (H3 Ho). destruct (lvClosed p).
    { destruct H3 as [_ H3]. by rewrite Hc in H3. }
    destruct H3 as [L1 L2 L3 L4]. split; [done|]. simpl. intros x Hx. unfold the_thread in L2.
    rewrite (inactive_last _ Ha) in L2. by destruct (L2 x Hx).
  - specialize (H3 Ho). destruct (lvClosed p); [|by destruct H3 as [? ? ? [?|?]]; congruence].
    destruct H3 as [Ha H3]. rewrite Hc in H3. by split.
  - specialize (H3 Ho). destruct (lvClosed p); [|by destruct H3 as [? ? ? [?|?]]; congruence].
    destruct H3 as [Ha H3]. rewrite Hc in H3. split; [done|]. simpl. apply set_eq. intros x. split; [|set_solver].
    intros Hx. destruct rt as [n|]; simpl in Hx; [|by specialize (H3 x Hx)].
    apply elem_of_difference in Hx as [Hx Hn]. specialize (H3 x Hx) as [= ->]. by destruct Hn; apply elem_of_singleton.
  - specialize (H3 Ho). destruct (lvClosed p); [|by destruct H3 as [? ? ? [?|?]]; congruence].
    destruct H3 as [Ha H3]. rewrite Hc in H3. split; [done|]. simpl. rewrite H3. set_solver.
  - specialize (H3 Ho). destruct (lvClosed p); [|by destruct H3 as [? ? ? [?|?]]; congruence].
    destruct H3 as [Ha H3]. rewrite Hc in H3. by split.
Qed.

Lemma lv_inv_step p e : lv_inv p -> lv_inv (lv_step p e).
Proof.
  intros H. pose proof H as (H1 & H2 & H3). destruct e; simpl.
  - by apply lv_inv_connect.
  - destruct (lv_same_frame p ok now frame H1) as (q & -> & Hs). by apply (lv_inv_same p).
  - unfold lv_onMessage. rewrite H1. by apply (lv_inv_same p).
  - by apply lv_inv_reset.
  - by apply lv_inv_thread.
  - unfold lv_DropPeer. destruct (ParseUint16_32 peerID); [by rewrite lv_evict_none|done|done].
  - by apply (lv_inv_same p).
  - unfold lv_evict_next. destruct (lvDead p); [done|]. rewrite lv_evict_none by done. by apply (lv_inv_same p).
  - destruct (lvClosing p) eqn:Hc; [done|]. split; [done|]. split; [done|]. simpl. intros Ho. specialize (H3 Ho).
    destruct (lvClosed p); [destruct H3 as [_ H3]; by rewrite Hc in H3|].
    destruct H3 as [L1 L2 L3 L4]. split; simpl; try done. by right.
  - by apply lv_inv_close.
Qed.

Lemma lv_inv_run es p : lv_inv p -> lv_inv (lv_run p es).
Proof. revert p. induction es as [|e es IH]; intros p H; [done|]. by apply IH, lv_inv_step. Qed.

(** ** A runtime that nothing points to stays open *)

Record lv_orphan (x : nat) (p : lvTransport) : Prop := {
  lo_open : x ∈ lvOpen p;
  lo_old : (x < lvNext p)%nat;
  lo_kcp : lvKcp p <> Some x;
  lo_threads : Forall (fun t => thread_rt t <> Some x) (lvThreads p);
  lo_peers : map_Forall (fun _ e => fst e <> x) (lvPeers p);
  lo_closing : forall rt, lvClosing p = Some (LkCloseKcp rt) -> rt <> Some x }.

Lemma close_rt_other x o g : x ∈ g -> o <> Some x -> x ∈ close_rt o g.
Proof. destruct o as [n|]; simpl; [|done]. intros Hx Hn. apply elem_of_difference. split; [done|]. set_solver. Qed.

Lemma orphan_evict x p epoch : lv_orphan x p -> lv_orphan x (lv_evictPeer p epoch).
Proof.
  intros [H1 H2 H3 H4 H5 H6]. unfold lv_evictPeer. destruct (lvPeers p !! epoch) as [[rt s]|] eqn:E; [|by split].
  specialize (H5 epoch _ E) as Hn. simpl in Hn. split; simpl; try done; [apply (close_rt_other x (Some rt)); congruence|].
  by apply map_Forall_delete.
Qed.

Lemma orphan_deliver x p rt epoch payload : lv_orphan x p -> lv_orphan x (lv_deliverKCPPayload p rt epoch payload).
Proof. intros [H1 H2 H3 H4 H5 H6]. unfold lv_deliverKCPPayload. destruct payload; by split. Qed.

Lemma orphan_latch x p e c l r n : lv_orphan x p -> lv_orphan x (put_latch p e c l r n).
Proof. intros [H1 H2 H3 H4 H5 H6]. by split. Qed.

Lemma orphan_frame x p ok now frame q :
  lv_orphan x p -> lv_handleIncomingFrame p ok now frame = Ok q -> lv_orphan x q.
Proof.
  intros H. unfold lv_handleIncomingFrame. destruct (lv_parse_total frame) as [[[token epoch] good] ->]. cbn [obind].
  destruct (negb good); [by intros [= <-]|]. destruct (negb (token =? lvToken p)); [by intros [= <-]|].
  destruct (epoch =? lvEpoch p); [by intros [= <-]|]. destruct (lvMulti p).
  { intros [= <-]. unfold lv_handlePeerFrame, lv_getOrCreatePeerKCP.
    destruct (lvPeers p !! epoch) as [[rt s]|] eqn:E; [|destruct ok; [|done]]; apply orphan_deliver;
      destruct H as [H1 H2 H3 H4 H5 H6]; split; simpl; try done; try lia; try set_solver;
      apply map_Forall_insert_2; try done; simpl; [by apply (H5 epoch _ E)|lia]. }
  destruct (lvConfirmed p && negb (lvPeerEpoch p =? epoch)).
  { unfold lv_maybePeerRestart. repeat case_match; intros [= <-]; by try apply orphan_latch. }
  destruct (lvConfirmed p), (lvKcp p) eqn:Ek; unfold lv_handleFirstPeer; cbn [lvKcp put_latch]; rewrite Ek;
    intros [= <-]; try apply orphan_deliver; by apply orphan_latch.
Qed.

Lemma orphan_spawn x p once t ov e :
  lv_orphan x p -> thread_rt t = None -> lv_orphan x (put_threads (put_local p e) once (lvThreads p ++ [t]) ov).
Proof.
  intros [H1 H2 H3 H4 H5 H6] Ht. split; simpl; try done. apply Forall_app. split; [done|]. constructor; [by rewrite Ht|done].
Qed.

Lemma orphan_thread x p q i t t' :
  lv_orphan x p -> lvThreads p !! i = Some t -> lvThreads q = <[i := t']> (lvThreads p) ->
  x ∈ lvOpen q -> (lvNext p <= lvNext q)%nat -> lvKcp q <> Some x -> thread_rt t' <> Some x ->
  lvPeers q = lvPeers p -> lvClosing q = lvClosing p -> lv_orphan x q.
Proof.
  intros [H1 H2 H3 H4 H5 H6] Hi Et Ho Hn Hk Ht Ep Ec. split; rewrite ?Ep, ?Ec; try done; [lia|].
  rewrite Et. by apply Forall_insert.
Qed.

Lemma orphan_restart x p i ok : lv_orphan x p -> lv_orphan x (lv_restartKCP i ok p).
Proof.
  intros H. pose proof H as [H1 H2 H3 H4 H5 H6]. unfold lv_restartKCP.
  destruct (lvThreads p !! i) as [t|] eqn:Hi; [|done].
  pose proof (Forall_lookup_1 _ _ _ _ H4 Hi) as Ht. simpl in Ht.
  destruct t as [|old| |rt|]; [| |destruct ok| |done];
    (eapply orphan_thread; [exact H|exact Hi|done|..]); simpl in *; try done; try lia; try congruence; try (intros [=]; lia).
  - by apply close_rt_other.
  - set_solver.
Qed.

Lemma orphan_step x p e : lv_orphan x p -> lv_orphan x (lv_step p e).
Proof.
  intros H. pose proof H as [H1 H2 H3 H4 H5 H6]. destruct e; simpl.
  - unfold lv_Connect. destruct (lvOnce p); [done|]. split; simpl; try done.
    apply Forall_app. split; [done|by repeat constructor].
  - destruct (lv_handleIncomingFrame p ok now frame) eqn:E; [by eapply orphan_frame|done|done].
  - unfold lv_onMessage. destruct (lvMulti p); [done|by apply orphan_latch].
  - unfold lv_ResetPeer, lv_rotateEpoch. destruct (epoch =? _); split; simpl; try done;
      (apply Forall_app; split; [done|by repeat constructor]).
  - by apply orphan_restart.
  - unfold lv_DropPeer. destruct (ParseUint16_32 peerID); [by apply orphan_evict|done|done].
  - by split.
  - unfold lv_evict_next. destruct (lvDead p); [done|]. destruct (orphan_evict x p z H). by split.
  - destruct (lvClosing p); [done|]. by split.
  - unfold lv_Close. destruct (lvClosing p) as [[| |rt| | |]|] eqn:Hc; try done; split; simpl; try done.
    + intros rt [= <-]. done.
    + apply close_rt_other; [done|by apply H6].
    + apply elem_of_difference. split; [done|]. intros Hx. apply elem_of_list_to_set, list_elem_of_fmap in Hx as ([k [rt s]] & -> & Hin).
      apply elem_of_map_to_list in Hin. by apply (H5 _ _ Hin).
Qed.

Lemma orphan_run x es p : lv_orphan x p -> x ∈ lvOpen (lv_run p es).
Proof. revert p. induction es as [|e es IH]; intros p H; [by apply lo_open|]. by apply IH, orphan_step. Qed.

(** ** The latched peer *)

Definition is_reset (e : lv_event) : bool := match e with LvReset _ => true | _ => false end.

(** A single-peer transport bound to epoch [e]. *)
Definition latched (e : Z) (p : lvTransport) : Prop := lvMulti p = false /\ lvConfirmed p = true /\ lvPeerEpoch p = e.

(** What a step without a reset adds for a bound transport. *)
Definition only_from (e : Z) (p q : lvTransport) : Prop :=
  latched e q /\ exists new, lvLog q = lvLog p ++ new /\ Forall (fun d => snd (fst d) = e) new.

Lemma only_from_refl e p q : latched e q -> lvLog q = lvLog p -> only_from e p q.
Proof. intros H E. split; [done|]. exists []. by rewrite app_nil_r. Qed.

Lemma latched_frame e p ok now frame q :
  latched e p -> lv_handleIncomingFrame p ok now frame = Ok q -> only_from e p q.
Proof.
  intros (H1 & H2 & H3). unfold lv_handleIncomingFrame.
  destruct (lv_parse_total frame) as [[[token epoch] good] ->]. cbn [obind].
  destruct (negb good); [intros [= <-]; by apply only_from_refl|].
  destruct (negb (token =? lvToken p)); [intros [= <-]; by apply only_from_refl|].
  destruct (epoch =? lvEpoch p); [intros [= <-]; by apply only_from_refl|]. rewrite H1, H2, H3. simpl.
  destruct (Z.eqb_spec e epoch) as [<-|Hne]; simpl.
  - destruct (lvKcp p) as [rt|]; intros [= <-]; [|by apply only_from_refl].
    unfold lv_deliverKCPPayload. destruct (drop 32 frame) as [|b l]; [by apply only_from_refl|].
    split; [done|]. eexists. split; [done|]. by apply Forall_map, Forall_true.
  - intros [= <-]. unfold lv_maybePeerRestart. repeat case_match; by apply only_from_refl.
Qed.

Lemma latched_step e p ev : latched e p -> is_reset ev = false -> only_from e p (lv_step p ev).
Proof.
  intros H Hr. pose proof H as (H1 & H2 & H3). destruct ev; simpl; try done.
  - unfold lv_Connect. destruct (lvOnce p); by apply only_from_refl.
  - destruct (lv_handleIncomingFrame p ok now frame) eqn:E; [by eapply latched_frame|by apply only_from_refl..].
  - unfold lv_onMessage. rewrite H1. by apply only_from_refl.
  - unfold lv_restartKCP. destruct (lvThreads p !! i) as [[]|]; try destruct ok; by apply only_from_refl.
  - unfold lv_DropPeer, lv_evictPeer. repeat case_match; by apply only_from_refl.
  - by apply only_from_refl.
  - unfold lv_evict_next, lv_evictPeer. repeat case_match; by apply only_from_refl.
  - destruct (lvClosing p); by apply only_from_refl.
  - unfold lv_Close. destruct (lvClosing p) as [[]|]; by apply only_from_refl.
Qed.

Lemma latched_run e es p : latched e p -> forallb (fun ev => negb (is_reset ev)) es = true -> only_from e p (lv_run p es).
Proof.
  revert p. induction es as [|ev es IH]; intros p H; [by intros; apply only_from_refl|].
  cbn [forallb]. rewrite andb_true_iff, negb_true_iff. intros [Hr Hes].
  destruct (latched_step e p ev H Hr) as [H1 (n1 & E1 & F1)]. destruct (IH _ H1 Hes) as [H2 (n2 & E2 & F2)].
  split; [done|]. exists (n1 ++ n2). unfold lv_run in *. simpl. rewrite E2, E1, <- app_assoc. split; [done|].
  by apply Forall_app.
Qed.

(** The carrier is asked to reconnect once. *)
Lemma reconnects_step p ev :
  lvConfirmed p = true -> lvMulti p = false -> is_reset ev = false ->
  lvReconnects (lv_step p ev) = lvReconnects p /\ lvRestarting (lv_step p ev) = lvRestarting p \/
  lvReconnects (lv_step p ev) = S (lvReconnects p) /\ lvRestarting p = false /\ lvRestarting (lv_step p ev) = true.
Proof.
  intros H2 H1 Hr. destruct ev; simpl; try done.
  - unfold lv_Connect. destruct (lvOnce p); by left.
  - destruct (lv_handleIncomingFrame p ok now frame) as [q|e|] eqn:E; [|by left|by left]. revert E.
    unfold lv_handleIncomingFrame. destruct (lv_parse_total frame) as [[[token epoch] good] ->]. cbn [obind].
    destruct (negb good); [intros [= <-]; by left|]. destruct (negb (token =? lvToken p)); [intros [= <-]; by left|].
    destruct (epoch =? lvEpoch p); [intros [= <-]; by left|]. rewrite H1, H2. simpl.
    destruct (negb (lvPeerEpoch p =? epoch)).
    + intros [= <-]. unfold lv_maybePeerRestart. destruct (_ || _); [by left|]. destruct (lvRestarting p) eqn:Er; [by left|]. by right.
    + destruct (lvKcp p); intros [= <-]; left; unfold lv_deliverKCPPayload; by destruct (drop 32 frame).
  - unfold lv_onMessage. rewrite H1. by left.
  - unfold lv_restartKCP. destruct (lvThreads p !! i) as [[]|]; try destruct ok; by left.
  - unfold lv_DropPeer, lv_evictPeer. repeat case_match; by left.
  - by left.
  - unfold lv_evict_next, lv_evictPeer. repeat case_match; by left.
  - destruct (lvClosing p); by left.
  - unfold lv_Close. destruct (lvClosing p) as [[]|]; by left.
Qed.

Lemma reconnects_once es p e :
  latched e p -> forallb (fun ev => negb (is_reset ev)) es = true ->
  (lvReconnects (lv_run p es) <= lvReconnects p + (if lvRestarting p then 0 else 1))%nat.
Proof.
  revert p. induction es as [|ev es IH]; intros p H; [intros _; simpl; lia|].
  cbn [forallb]. rewrite andb_true_iff, negb_true_iff. intros [Hr Hes].
  destruct (latched_step e p ev H Hr) as [H1 _]. specialize (IH _ H1 Hes). destruct H as (Hm & Hc & _).
  unfold lv_run in *. simpl. destruct (reconnects_step p ev Hc Hm Hr) as [[E1 E2]|(E1 & E2 & E3)].
  - rewrite E1, E2 in IH. done.
  - rewrite E1, E3 in IH. rewrite E2. lia.
Qed.

(** A legacy client that is bound to a peer hands to its KCP only packets of frames of that peer's epoch, under its own binding
    token, until it is reset, and asks the carrier to reconnect at most once.  If the old KCP runtime hands over one more
    message after [ResetPeer] or a reconnect has cleared the binding, the client is bound to epoch zero, which no peer
    has: from then on no frame of any peer reaches KCP until another reset. *)
Theorem legacy_peer_binding (p : lvTransport) (es : list lv_event) :
  forallb (fun ev => negb (is_reset ev)) es = true ->
  (forall e, latched e p ->
     only_from e p (lv_run p es) /\ (lvReconnects (lv_run p es) <= S (lvReconnects p))%nat) /\
  (lvMulti p = false -> forall epoch,
     let q := lv_run p [LvReset epoch; LvMessage] in
     latched 0 q /\ only_from 0 q (lv_run q es)).
Proof.
  intros Hes. split.
  - intros e H. split; [by apply latched_run|]. pose proof (reconnects_once es p e H Hes) as Hr.
    destruct (lvRestarting p); lia.
  - intros Hm epoch q. assert (latched 0 q) as Hq; [|split; [done|by apply latched_run]].
    unfold q, lv_run. simpl. unfold lv_ResetPeer, lv_rotateEpoch, lv_onMessage, latched. cbn [lvEpoch put_latch].
    destruct (epoch =? lvEpoch p); simpl; by rewrite Hm.
Qed.

(** ** Runs *)

Definition demo_room : string := "room".
Definition demo_frame (epoch : Z) (p : bytes) : bytes :=
  lv_frame (lv_buildEpochHeader (lv_bindingToken demo_room) epoch) p.

Definition thread_steps (i n : nat) : list lv_event := repeat (LvThread i true) n.
Definition lv_connected : list lv_event := [LvConnect] ++ thread_steps 0 2.

Lemma legacy_peer_binding_witness :
  let p := lv_run (lv_new false demo_room 9) (lv_connected ++ [LvFrame true 1 (demo_frame 7 [1; 2])]) in
  latched 7 p /\ length (lvLog p) = 1%nat /\
  only_from 7 p (lv_run p [LvFrame true 2 (demo_frame 7 [3]); LvFrame true 3 (demo_frame 8 [4])]).
Proof.
  intros p. split; [by vm_compute|]. split; [by vm_compute|].
  apply (proj1 (legacy_peer_binding p [LvFrame true 2 (demo_frame 7 [3]); LvFrame true 3 (demo_frame 8 [4])] eq_refl) 7).
  by vm_compute.
Defined.

Definition close_all : list lv_event := [LvClose] ++ repeat LvCloseStep 5.

(** Two resets at once, and a reset that [Close] overtakes. *)
Definition twin_resets : list lv_event :=
  lv_connected ++ [LvReset 10; LvReset 11; LvThread 1 true; LvThread 2 true] ++ thread_steps 1 3 ++ thread_steps 2 3 ++ close_all.
Definition reset_in_close : list lv_event :=
  lv_connected ++ [LvReset 10] ++ thread_steps 1 3 ++ close_all ++ thread_steps 1 1.

(** A frame that a server reads after [Close] has emptied its table. *)
Definition frame_in_close : list lv_event :=
  lv_connected ++ [LvClose] ++ repeat LvCloseStep 4 ++ [LvFrame true 5 (demo_frame 7 [1])] ++ [LvCloseStep].

Definition orphanb (x : nat) (p : lvTransport) : bool :=
  bool_decide (x ∈ lvOpen p) && (x <? lvNext p)%nat && negb (bool_decide (lvKcp p = Some x)) &&
  forallb (fun t => negb (bool_decide (thread_rt t = Some x))) (lvThreads p) &&
  bool_decide (lvPeers p = ∅) && match lvClosing p with Some LkDone => true | _ => false end.

Lemma orphanb_ok x p : orphanb x p = true -> lv_orphan x p.
Proof.
  unfold orphanb. rewrite !andb_true_iff, !bool_decide_eq_true, Nat.ltb_lt, negb_true_iff, bool_decide_eq_false.
  intros [[[[[H1 H2] H3] H4] H5] H6]. split; try done.
  - apply Forall_forall. rewrite forallb_forall in H4. intros t Ht. apply list_elem_of_In, H4 in Ht.
    by apply negb_true_iff, bool_decide_eq_false in Ht.
  - rewrite H5. apply map_Forall_empty.
  - intros rt E. by rewrite E in H6.
Qed.

(** When [Close] of a legacy client has finished, no KCP runtime is open, provided [Connect] and the resets did not run at
    the same time as one another or as [Close].  Where they do, a runtime stays open for good: two resets at once lose the
    runtime of the first, a reset that [Close] overtakes stores one nobody closes.  A server that reads a frame while it
    closes starts one too. *)
Theorem legacy_close_releases (room : string) (epoch : Z) (es : list lv_event) :
  (let p := lv_run (lv_new false room epoch) es in
   lvClosing p = Some LkDone -> lvOverlap p = false -> lvOpen p = ∅) /\
  (forall es', 1%nat ∈ lvOpen (lv_run (lv_run (lv_new false demo_room 9) twin_resets) es')) /\
  (let q := lv_run (lv_new false demo_room 9) reset_in_close in lvClosing q = Some LkDone /\ 1%nat ∈ lvOpen q) /\
  (let q := lv_run (lv_new true demo_room 9) frame_in_close in
   lvClosing q = Some LkDone /\ lvOverlap q = false /\ 1%nat ∈ lvOpen q).
Proof.
  split; [|split; [|split]].
  - intros p Hc Ho. destruct (lv_inv_run es _ (lv_inv_new room epoch)) as (_ & _ & H). fold p in H. specialize (H Ho).
    destruct (lvClosed p); [destruct H as [_ H]; by rewrite Hc in H|].
    by destruct H as [_ _ _ [H|H]]; rewrite Hc in H.
  - intros es'. apply orphan_run, orphanb_ok. by vm_compute.
  - intros q. split; [by vm_compute|]. apply (bool_decide_unpack _). by vm_compute.
  - intros q. split; [by vm_compute|]. split; [by vm_compute|]. apply (bool_decide_unpack _). by vm_compute.
Qed.

Lemma legacy_close_releases_witness :
  let p := lv_run (lv_new false demo_room 9)
    (lv_connected ++ [LvFrame true 1 (demo_frame 7 [1])] ++ [LvReset 10] ++ thread_steps 1 4 ++ close_all) in
  lvNext p = 2%nat /\ lvOpen p = ∅.
Proof.
  split; [by vm_compute|].
  by apply (proj1 (legacy_close_releases demo_room 9
    (lv_connected ++ [LvFrame true 1 (demo_frame 7 [1])] ++ [LvReset 10] ++ thread_steps 1 4 ++ close_all))); vm_compute.
Defined.
