(* ===== verification/Mobile.v ===== *)
(** * Mobile: the library for the Android application
    (mobile/config.go, mobile/runtime.go, mobile/probe.go, mobile/ping.go,
    pkg/olcrtc/client/client.go)

    The settings of a [Runtime] with their setters, and its life cycle: every method takes
    the lock for one section, and what a call does before and after waiting are
    separate steps.  The client that a run starts is the interface of internal/client; here it is
    what it reports, ready or the end with an error. *)

From stdpp Require Import pretty.
From S2P Require Import Prelude Bytes Text NetAddr Traffic Control Crypto SeiTransport Socks SessionConfig SessionRun ConfigFile.

(** ** The public client configuration (pkg/olcrtc/client) *)

(* go: src/native/olcrtc/pkg/olcrtc/client/client.go 21-24 TransportOptions *)
Inductive PubOptions :=
| PubNil
| PubVideo (o : VideoOptions)
| PubVP8 (o : Vp8Options)
| PubSEI (o : SeiOptions).

(** [LivenessConfig] and [TrafficConfig] have the fields of their internal counterparts. *)
(* go: src/native/olcrtc/pkg/olcrtc/client/client.go 78-101 Config *)
Record PubConfig := MkPub {
  pcTransport : string;
  pcProvider : string;
  pcRoomURL : string;
  pcChannelID : string;
  pcEngine : string;
  pcURL : string;
  pcToken : string;
  pcProviderToken : string;
  pcKeyHex : string;
  pcLocalAddr : bytes;
  pcSOCKSUser : string;
  pcSOCKSPass : string;
  pcDNSServer : string;
  pcResolver : option nat;
  pcOptions : PubOptions;
  pcLiveness : CtlConfig;
  pcTraffic : TrafficConfig;
  pcDeviceID : string;
  pcDeviceIDPath : string;
}.

(* go: src/native/olcrtc/pkg/olcrtc/client/client.go 157-168 toTransportOptions *)
Definition toTransportOptions (o : PubOptions) : TransportOptions :=
  match o with
  | PubVideo o => OptVideo o
  | PubVP8 o => OptVP8 o
  | PubSEI o => OptSEI o
  | PubNil => OptNil
  end.

(** ** Settings *)

(* go: src/native/olcrtc/mobile/config.go 25-26 defaultDNSServer *)
Definition mobile_dns : string := "8.8.8.8:53".
Definition mobile_socksHost : string := "127.0.0.1".
(* go: src/native/olcrtc/mobile/config.go 45-45 minTrafficPayloadSize *)
Definition minTrafficPayloadSize : Z := 53.

(* go: src/native/olcrtc/mobile/config.go 48-71 runtimeConfig *)
Record runtimeConfig := MkRuntimeConfig {
  rcProvider : string;
  rcTransport : string;
  rcRoomURL : string;
  rcChannelID : string;
  rcKeyHex : string;
  rcDnsServer : string;
  rcResolver : option nat;
  rcSocksHost : string;
  rcSocksPort : Z;
  rcSocksUser : string;
  rcSocksPass : string;
  rcProviderToken : string;
  rcDeviceID : string;
  rcDeviceIDPath : string;
  rcEngine : string;
  rcServiceURL : string;
  rcEngineToken : string;
  rcLiveness : CtlConfig;
  rcTraffic : TrafficConfig;
  rcVP8 : Vp8Options;
  rcSEI : SeiOptions;
  rcVideo : VideoOptions;
}.

(* go: src/native/olcrtc/mobile/config.go 73-96 defaultRuntimeConfig *)
Definition defaultRuntimeConfig : runtimeConfig :=
  {| rcProvider := ""; rcTransport := "vp8channel"; rcRoomURL := ""; rcChannelID := ""; rcKeyHex := "";
     rcDnsServer := mobile_dns; rcResolver := Some fresh_resolver; rcSocksHost := mobile_socksHost; rcSocksPort := 1080;
     rcSocksUser := ""; rcSocksPass := ""; rcProviderToken := ""; rcDeviceID := ""; rcDeviceIDPath := "";
     rcEngine := ""; rcServiceURL := ""; rcEngineToken := "";
     rcLiveness := MkCtlConfig (10 * 1000000000) (15 * 1000000000) 4;
     rcTraffic := MkTraffic 0 0 0;
     rcVP8 := MkVp8Options 30 64;
     rcSEI := MkSeiOptions 30 64 900 2000;
     rcVideo := MkVideoOptions 1920 1080 30 0 "low" "qrcode" 4 0 |}.

(** Field updates. *)
Definition put_provider (v : string) (c : runtimeConfig) : runtimeConfig :=
  MkRuntimeConfig v (rcTransport c) (rcRoomURL c) (rcChannelID c) (rcKeyHex c) (rcDnsServer c) (rcResolver
    c) (rcSocksHost c) (rcSocksPort c) (rcSocksUser c) (rcSocksPass c) (rcProviderToken c) (rcDeviceID c)
    (rcDeviceIDPath c) (rcEngine c) (rcServiceURL c) (rcEngineToken c) (rcLiveness c) (rcTraffic c) (rcVP8 c)
    (rcSEI c) (rcVideo c).
Definition put_transport (v : string) (c : runtimeConfig) : runtimeConfig :=
  MkRuntimeConfig (rcProvider c) v (rcRoomURL c) (rcChannelID c) (rcKeyHex c) (rcDnsServer c) (rcResolver
    c) (rcSocksHost c) (rcSocksPort c) (rcSocksUser c) (rcSocksPass c) (rcProviderToken c) (rcDeviceID c)
    (rcDeviceIDPath c) (rcEngine c) (rcServiceURL c) (rcEngineToken c) (rcLiveness c) (rcTraffic c) (rcVP8 c)
    (rcSEI c) (rcVideo c).
Definition put_room (v : string) (c : runtimeConfig) : runtimeConfig :=
  MkRuntimeConfig (rcProvider c) (rcTransport c) v (rcChannelID c) (rcKeyHex c) (rcDnsServer c) (rcResolver
    c) (rcSocksHost c) (rcSocksPort c) (rcSocksUser c) (rcSocksPass c) (rcProviderToken c) (rcDeviceID c)
    (rcDeviceIDPath c) (rcEngine c) (rcServiceURL c) (rcEngineToken c) (rcLiveness c) (rcTraffic c) (rcVP8 c)
    (rcSEI c) (rcVideo c).
Definition put_channel (v : string) (c : runtimeConfig) : runtimeConfig :=
  MkRuntimeConfig (rcProvider c) (rcTransport c) (rcRoomURL c) v (rcKeyHex c) (rcDnsServer c) (rcResolver
    c) (rcSocksHost c) (rcSocksPort c) (rcSocksUser c) (rcSocksPass c) (rcProviderToken c) (rcDeviceID c)
    (rcDeviceIDPath c) (rcEngine c) (rcServiceURL c) (rcEngineToken c) (rcLiveness c) (rcTraffic c) (rcVP8 c)
    (rcSEI c) (rcVideo c).
Definition put_key (v : string) (c : runtimeConfig) : runtimeConfig :=
  MkRuntimeConfig (rcProvider c) (rcTransport c) (rcRoomURL c) (rcChannelID c) v (rcDnsServer c)
    (rcResolver c) (rcSocksHost c) (rcSocksPort c) (rcSocksUser c) (rcSocksPass c) (rcProviderToken c)
    (rcDeviceID c) (rcDeviceIDPath c) (rcEngine c) (rcServiceURL c) (rcEngineToken c) (rcLiveness c)
    (rcTraffic c) (rcVP8 c) (rcSEI c) (rcVideo c).
Definition put_dns (v : string) (r : option nat) (c : runtimeConfig) : runtimeConfig :=
  MkRuntimeConfig (rcProvider c) (rcTransport c) (rcRoomURL c) (rcChannelID c) (rcKeyHex c) v r
    (rcSocksHost c) (rcSocksPort c) (rcSocksUser c) (rcSocksPass c) (rcProviderToken c) (rcDeviceID c)
    (rcDeviceIDPath c) (rcEngine c) (rcServiceURL c) (rcEngineToken c) (rcLiveness c) (rcTraffic c) (rcVP8 c)
    (rcSEI c) (rcVideo c).
Definition put_socks (host : string) (port : Z) (c : runtimeConfig) : runtimeConfig :=
  MkRuntimeConfig (rcProvider c) (rcTransport c) (rcRoomURL c) (rcChannelID c) (rcKeyHex c) (rcDnsServer c)
    (rcResolver c) host port (rcSocksUser c) (rcSocksPass c) (rcProviderToken c) (rcDeviceID c)
    (rcDeviceIDPath c) (rcEngine c) (rcServiceURL c) (rcEngineToken c) (rcLiveness c) (rcTraffic c) (rcVP8 c)
    (rcSEI c) (rcVideo c).
Definition put_creds (user pass : string) (c : runtimeConfig) : runtimeConfig :=
  MkRuntimeConfig (rcProvider c) (rcTransport c) (rcRoomURL c) (rcChannelID c) (rcKeyHex c) (rcDnsServer c)
    (rcResolver c) (rcSocksHost c) (rcSocksPort c) user pass (rcProviderToken c) (rcDeviceID c)
    (rcDeviceIDPath c) (rcEngine c) (rcServiceURL c) (rcEngineToken c) (rcLiveness c) (rcTraffic c) (rcVP8 c)
    (rcSEI c) (rcVideo c).
Definition put_token (v : string) (c : runtimeConfig) : runtimeConfig :=
  MkRuntimeConfig (rcProvider c) (rcTransport c) (rcRoomURL c) (rcChannelID c) (rcKeyHex c) (rcDnsServer c)
    (rcResolver c) (rcSocksHost c) (rcSocksPort c) (rcSocksUser c) (rcSocksPass c) v (rcDeviceID c)
    (rcDeviceIDPath c) (rcEngine c) (rcServiceURL c) (rcEngineToken c) (rcLiveness c) (rcTraffic c) (rcVP8 c)
    (rcSEI c) (rcVideo c).
Definition put_device (id path : string) (c : runtimeConfig) : runtimeConfig :=
  MkRuntimeConfig (rcProvider c) (rcTransport c) (rcRoomURL c) (rcChannelID c) (rcKeyHex c) (rcDnsServer c)
    (rcResolver c) (rcSocksHost c) (rcSocksPort c) (rcSocksUser c) (rcSocksPass c) (rcProviderToken c) id
    path (rcEngine c) (rcServiceURL c) (rcEngineToken c) (rcLiveness c) (rcTraffic c) (rcVP8 c) (rcSEI c)
    (rcVideo c).
Definition put_engine (name url token : string) (c : runtimeConfig) : runtimeConfig :=
  MkRuntimeConfig (rcProvider c) (rcTransport c) (rcRoomURL c) (rcChannelID c) (rcKeyHex c) (rcDnsServer c)
    (rcResolver c) (rcSocksHost c) (rcSocksPort c) (rcSocksUser c) (rcSocksPass c) (rcProviderToken c)
    (rcDeviceID c) (rcDeviceIDPath c) name url token (rcLiveness c) (rcTraffic c) (rcVP8 c) (rcSEI c)
    (rcVideo c).
Definition put_liveness (v : CtlConfig) (c : runtimeConfig) : runtimeConfig :=
  MkRuntimeConfig (rcProvider c) (rcTransport c) (rcRoomURL c) (rcChannelID c) (rcKeyHex c) (rcDnsServer c)
    (rcResolver c) (rcSocksHost c) (rcSocksPort c) (rcSocksUser c) (rcSocksPass c) (rcProviderToken c)
    (rcDeviceID c) (rcDeviceIDPath c) (rcEngine c) (rcServiceURL c) (rcEngineToken c) v (rcTraffic c) (rcVP8
    c) (rcSEI c) (rcVideo c).
Definition put_traffic (v : TrafficConfig) (c : runtimeConfig) : runtimeConfig :=
  MkRuntimeConfig (rcProvider c) (rcTransport c) (rcRoomURL c) (rcChannelID c) (rcKeyHex c) (rcDnsServer c)
    (rcResolver c) (rcSocksHost c) (rcSocksPort c) (rcSocksUser c) (rcSocksPass c) (rcProviderToken c)
    (rcDeviceID c) (rcDeviceIDPath c) (rcEngine c) (rcServiceURL c) (rcEngineToken c) (rcLiveness c) v (rcVP8
    c) (rcSEI c) (rcVideo c).
Definition put_vp8 (v : Vp8Options) (c : runtimeConfig) : runtimeConfig :=
  MkRuntimeConfig (rcProvider c) (rcTransport c) (rcRoomURL c) (rcChannelID c) (rcKeyHex c) (rcDnsServer c)
    (rcResolver c) (rcSocksHost c) (rcSocksPort c) (rcSocksUser c) (rcSocksPass c) (rcProviderToken c)
    (rcDeviceID c) (rcDeviceIDPath c) (rcEngine c) (rcServiceURL c) (rcEngineToken c) (rcLiveness c)
    (rcTraffic c) v (rcSEI c) (rcVideo c).
Definition put_sei (v : SeiOptions) (c : runtimeConfig) : runtimeConfig :=
  MkRuntimeConfig (rcProvider c) (rcTransport c) (rcRoomURL c) (rcChannelID c) (rcKeyHex c) (rcDnsServer c)
    (rcResolver c) (rcSocksHost c) (rcSocksPort c) (rcSocksUser c) (rcSocksPass c) (rcProviderToken c)
    (rcDeviceID c) (rcDeviceIDPath c) (rcEngine c) (rcServiceURL c) (rcEngineToken c) (rcLiveness c)
    (rcTraffic c) (rcVP8 c) v (rcVideo c).
Definition put_video (v : VideoOptions) (c : runtimeConfig) : runtimeConfig :=
  MkRuntimeConfig (rcProvider c) (rcTransport c) (rcRoomURL c) (rcChannelID c) (rcKeyHex c) (rcDnsServer c)
    (rcResolver c) (rcSocksHost c) (rcSocksPort c) (rcSocksUser c) (rcSocksPass c) (rcProviderToken c)
    (rcDeviceID c) (rcDeviceIDPath c) (rcEngine c) (rcServiceURL c) (rcEngineToken c) (rcLiveness c)
    (rcTraffic c) (rcVP8 c) (rcSEI c) v.

(** ** Checks *)

Inductive mobile_error :=
| ErrInvalidConfig
| ErrMobileProvider
| ErrMobileTransport
| ErrAlreadyRunning
| ErrNotRunning
| ErrStoppedBeforeReady
| ErrReadyTimeout
| ErrStopTimeout.

(* go: src/native/olcrtc/mobile/config.go 428-435 supportedProvider *)
Definition supportedProvider (p : string) : bool :=
  slices_Contains ["jitsi"; "telemost"; "wbstream"; "none"] p.
(* go: src/native/olcrtc/mobile/config.go 437-444 supportedTransport *)
Definition supportedTransport (t : string) : bool :=
  slices_Contains ["datachannel"; "vp8channel"; "seichannel"; "videochannel"] t.
(* go: src/native/olcrtc/mobile/config.go 446-453 supportedQRRecovery *)
Definition supportedQRRecovery (v : string) : bool :=
  slices_Contains ["low"; "medium"; "high"; "highest"] v.

(* go: src/native/olcrtc/mobile/config.go 455-461 cleanHost *)
Definition cleanHost (host : string) : string :=
  let b := string_bytes (TrimSpace host) in
  match b with
  | 91 :: rest =>
      match rev rest with
      | 93 :: mid => bytes_string (rev mid)
      | _ => bytes_string b
      end
  | _ => bytes_string b
  end.

(* go: src/native/olcrtc/mobile/config.go 463-469 isLoopbackHost *)
Definition isLoopbackHost `{NetIP} (host : string) : bool :=
  if str_eqb host "localhost" then true
  else match ParseIP (string_bytes host) with Some ip => IP_IsLoopback ip | None => false end.

(* go: src/native/olcrtc/mobile/runtime.go 28-28 maxTimeoutMillis *)
Definition maxTimeoutMillis : Z := 9223372036854.

(* go: src/native/olcrtc/mobile/config.go 471-476 checkedDurationMillis *)
Definition checkedDurationMillis (value : Z) : option Z :=
  if (value <? 0) || (maxTimeoutMillis <? value) then None else Some (i64 (value * 1000000)).

(* go: src/native/olcrtc/mobile/config.go 405-414 validateKey *)
Definition mobile_validateKey (keyHex : string) : option mobile_error :=
  match hex_DecodeString keyHex with
  | None => Some ErrInvalidConfig
  | Some key => if negb (len key =? 32) then Some ErrInvalidConfig else None
  end.

(* go: src/native/olcrtc/mobile/config.go 416-426 validateHostPort *)
Definition validateHostPort (address : string) : option mobile_error :=
  match SplitHostPort (string_bytes address) with
  | Err _ | Panic => Some ErrInvalidConfig
  | Ok (host, portText) =>
      match Atoi portText with
      | None => Some ErrInvalidConfig
      | Some port =>
          if (len host =? 0) || (port <? 1) || (65535 <? port) then Some ErrInvalidConfig else None
      end
  end.

(* go: src/native/olcrtc/mobile/config.go 395-403 validateTileOptions *)
Definition validateTileOptions (width height : Z) (codec : string) (tileModule tileRS : Z) : option mobile_error :=
  if (tileModule <? 1) || (270 <? tileModule) || (tileRS <? 0) || (200 <? tileRS) then Some ErrInvalidConfig
  else if str_eqb codec "tile" && (negb (width =? 1080) || negb (height =? 1080)) then Some ErrInvalidConfig
  else None.

(* go: src/native/olcrtc/mobile/config.go 378-393 validateVideoOptions *)
Definition validateVideoOptions (o : VideoOptions) : option mobile_error :=
  if (woWidth o <? 1) || (woHeight o <? 1) || (woFPS o <? 1) || (120 <? woFPS o) || (woQRSize o <? 0)
  then Some ErrInvalidConfig
  else if negb (str_eqb (woCodec o) "qrcode") && negb (str_eqb (woCodec o) "tile") then Some ErrInvalidConfig
  else if negb (supportedQRRecovery (woQRRecovery o)) then Some ErrInvalidConfig
  else validateTileOptions (woWidth o) (woHeight o) (woCodec o) (woTileModule o) (woTileRS o).

(* go: src/native/olcrtc/mobile/config.go 353-376 validateRuntimeConfig *)
Definition validateRuntimeConfig `{NetIP} (cfg : runtimeConfig) : option mobile_error :=
  if negb (supportedProvider (rcProvider cfg)) then Some ErrInvalidConfig
  else if negb (supportedTransport (rcTransport cfg)) then Some ErrInvalidConfig
  else if negb (str_eqb (rcProvider cfg) "none") && str_eqb (rcRoomURL cfg) "" then Some ErrInvalidConfig
  else
    match mobile_validateKey (rcKeyHex cfg) with
    | Some e => Some e
    | None =>
        if str_eqb (rcDnsServer cfg) "" && bool_decide (rcResolver cfg = None) then Some ErrInvalidConfig
        else if str_eqb (rcSocksHost cfg) "" || (rcSocksPort cfg <? 1) || (65535 <? rcSocksPort cfg)
        then Some ErrInvalidConfig
        else if negb (isLoopbackHost (rcSocksHost cfg)) && (str_eqb (rcSocksUser cfg) "" || str_eqb (rcSocksPass cfg) "")
        then Some ErrInvalidConfig
        else None
    end.

(* go: src/native/olcrtc/mobile/config.go 340-351 transportOptions *)
Definition mobile_transportOptions (cfg : runtimeConfig) : PubOptions :=
  if str_eqb (rcTransport cfg) "vp8channel" then PubVP8 (rcVP8 cfg)
  else if str_eqb (rcTransport cfg) "seichannel" then PubSEI (rcSEI cfg)
  else if str_eqb (rcTransport cfg) "videochannel" then PubVideo (rcVideo cfg)
  else PubNil.

(* go: src/native/olcrtc/mobile/config.go 327-338 clientConfig *)
Definition clientConfig (cfg : runtimeConfig) : PubConfig :=
  MkPub (rcTransport cfg) (rcProvider cfg) (rcRoomURL cfg) (rcChannelID cfg) (rcEngine cfg) (rcServiceURL cfg)
    (rcEngineToken cfg) (rcProviderToken cfg) (rcKeyHex cfg)
    (JoinHostPort (string_bytes (rcSocksHost cfg)) (string_bytes (pretty (rcSocksPort cfg))))
    (rcSocksUser cfg) (rcSocksPass cfg) (rcDnsServer cfg) (rcResolver cfg) (mobile_transportOptions cfg)
    (rcLiveness cfg) (rcTraffic cfg) (rcDeviceID cfg) (rcDeviceIDPath cfg).

(** ** Setters

    Each takes the lock once; an error leaves the settings alone. *)

Section setters.
  Implicit Types c : runtimeConfig.

(* go: src/native/olcrtc/mobile/config.go 98-107 SetProvider *)
Definition SetProvider (v : string) c : outcome mobile_error runtimeConfig :=
  if negb (supportedProvider v) then Err ErrMobileProvider else Ok (put_provider v c).

(* go: src/native/olcrtc/mobile/config.go 109-118 SetTransport *)
Definition SetTransport (v : string) c : outcome mobile_error runtimeConfig :=
  if negb (supportedTransport v) then Err ErrMobileTransport else Ok (put_transport v c).

(* go: src/native/olcrtc/mobile/config.go 120-130 SetRoom *)
Definition SetRoom (v : string) c : outcome mobile_error runtimeConfig :=
  let v := TrimSpace v in
  if str_eqb v "" then Err ErrInvalidConfig else Ok (put_room v c).

(* go: src/native/olcrtc/mobile/config.go 132-137 SetChannel *)
Definition SetChannel (v : string) c : outcome mobile_error runtimeConfig := Ok (put_channel (TrimSpace v) c).

(* go: src/native/olcrtc/mobile/config.go 139-148 SetKey *)
Definition SetKey (v : string) c : outcome mobile_error runtimeConfig :=
  match mobile_validateKey v with Some e => Err e | None => Ok (put_key v c) end.

(* go: src/native/olcrtc/mobile/config.go 150-160 SetDNS *)
Definition SetDNS (v : string) c : outcome mobile_error runtimeConfig :=
  match validateHostPort v with Some _ => Err ErrInvalidConfig | None => Ok (put_dns v (Some fresh_resolver) c) end.

(* go: src/native/olcrtc/mobile/config.go 162-170 SetResolver *)
Definition SetResolver (r : option nat) c : outcome mobile_error runtimeConfig :=
  Ok (put_dns (rcDnsServer c) (match r with None => Some fresh_resolver | Some _ => r end) c).

(* go: src/native/olcrtc/mobile/config.go 172-182 SetSocksListenHost *)
Definition SetSocksListenHost (host : string) c : outcome mobile_error runtimeConfig :=
  let host := cleanHost host in
  if str_eqb host "" then Err ErrInvalidConfig else Ok (put_socks host (rcSocksPort c) c).

(* go: src/native/olcrtc/mobile/config.go 184-193 SetSocksPort *)
Definition SetSocksPort (port : Z) c : outcome mobile_error runtimeConfig :=
  if (port <? 1) || (65535 <? port) then Err ErrInvalidConfig else Ok (put_socks (rcSocksHost c) port c).

(* go: src/native/olcrtc/mobile/config.go 195-205 SetSocksCredentials *)
Definition SetSocksCredentials (user pass : string) c : outcome mobile_error runtimeConfig :=
  if (255 <? Z.of_nat (String.length user)) || (255 <? Z.of_nat (String.length pass)) then Err ErrInvalidConfig
  else Ok (put_creds user pass c).

(* go: src/native/olcrtc/mobile/config.go 207-212 SetProviderToken *)
Definition SetProviderToken (v : string) c : outcome mobile_error runtimeConfig := Ok (put_token (TrimSpace v) c).

(* go: src/native/olcrtc/mobile/config.go 214-219 SetDeviceID *)
Definition SetDeviceID (v : string) c : outcome mobile_error runtimeConfig :=
  Ok (put_device (TrimSpace v) (rcDeviceIDPath c) c).

(* go: src/native/olcrtc/mobile/config.go 221-226 SetDeviceIDPath *)
Definition SetDeviceIDPath (v : string) c : outcome mobile_error runtimeConfig :=
  Ok (put_device (rcDeviceID c) (TrimSpace v) c).

(* go: src/native/olcrtc/mobile/config.go 228-235 SetEngine *)
Definition SetEngine (name url token : string) c : outcome mobile_error runtimeConfig :=
  Ok (put_engine (TrimSpace name) (TrimSpace url) (TrimSpace token) c).

(* go: src/native/olcrtc/mobile/config.go 237-255 SetLivenessOptions *)
Definition SetLivenessOptions (interval timeout failures : Z) c : outcome mobile_error runtimeConfig :=
  if (interval <=? 0) || (timeout <=? 0) || (failures <=? 0) then Err ErrInvalidConfig
  else
    match checkedDurationMillis interval, checkedDurationMillis timeout with
    | Some interval, Some timeout => Ok (put_liveness (MkCtlConfig interval timeout failures) c)
    | _, _ => Err ErrInvalidConfig
    end.

(* go: src/native/olcrtc/mobile/config.go 257-278 SetTrafficOptions *)
Definition SetTrafficOptions (maxPayload minDelay maxDelay : Z) c : outcome mobile_error runtimeConfig :=
  if (maxPayload <? 0) || ((0 <? maxPayload) && (maxPayload <? minTrafficPayloadSize)) then Err ErrInvalidConfig
  else if (minDelay <? 0) || (maxDelay <? 0) || ((0 <? maxDelay) && (maxDelay <? minDelay)) then Err ErrInvalidConfig
  else
    match checkedDurationMillis minDelay, checkedDurationMillis maxDelay with
    | Some minDelay, Some maxDelay => Ok (put_traffic (MkTraffic maxPayload minDelay maxDelay) c)
    | _, _ => Err ErrInvalidConfig
    end.

(* go: src/native/olcrtc/mobile/config.go 280-289 SetVP8Options *)
Definition SetVP8Options (fps batchSize : Z) c : outcome mobile_error runtimeConfig :=
  if (fps <? 1) || (120 <? fps) || (batchSize <? 1) then Err ErrInvalidConfig
  else Ok (put_vp8 (MkVp8Options fps batchSize) c).

(* go: src/native/olcrtc/mobile/config.go 291-302 SetSEIOptions *)
Definition SetSEIOptions (fps batchSize fragmentSize ackTimeout : Z) c : outcome mobile_error runtimeConfig :=
  if (fps <? 1) || (120 <? fps) || (batchSize <? 1) || (fragmentSize <? 1) || (ackTimeout <? 1)
  then Err ErrInvalidConfig
  else Ok (put_sei (MkSeiOptions fps batchSize fragmentSize ackTimeout) c).

(* go: src/native/olcrtc/mobile/config.go 304-320 SetVideoOptions *)
Definition SetVideoOptions (o : VideoOptions) c : outcome mobile_error runtimeConfig :=
  match validateVideoOptions o with Some e => Err e | None => Ok (put_video o c) end.

End setters.

(** The calls the application makes. *)
Inductive setting :=
| UseProvider (v : string)
| UseTransport (v : string)
| UseRoom (v : string)
| UseChannel (v : string)
| UseKey (v : string)
| UseDNS (v : string)
| UseResolver (r : option nat)
| UseSocksHost (v : string)
| UseSocksPort (v : Z)
| UseSocksCredentials (user pass : string)
| UseProviderToken (v : string)
| UseDeviceID (v : string)
| UseDeviceIDPath (v : string)
| UseEngine (name url token : string)
| UseLiveness (interval timeout failures : Z)
| UseTraffic (maxPayload minDelay maxDelay : Z)
| UseVP8 (fps batchSize : Z)
| UseSEI (fps batchSize fragmentSize ackTimeout : Z)
| UseVideo (o : VideoOptions).

Definition apply_setting (s : setting) (c : runtimeConfig) : outcome mobile_error runtimeConfig :=
  match s with
  | UseProvider v => SetProvider v c
  | UseTransport v => SetTransport v c
  | UseRoom v => SetRoom v c
  | UseChannel v => SetChannel v c
  | UseKey v => SetKey v c
  | UseDNS v => SetDNS v c
  | UseResolver r => SetResolver r c
  | UseSocksHost v => SetSocksListenHost v c
  | UseSocksPort v => SetSocksPort v c
  | UseSocksCredentials u p => SetSocksCredentials u p c
  | UseProviderToken v => SetProviderToken v c
  | UseDeviceID v => SetDeviceID v c
  | UseDeviceIDPath v => SetDeviceIDPath v c
  | UseEngine n u t => SetEngine n u t c
  | UseLiveness i t f => SetLivenessOptions i t f c
  | UseTraffic m a b => SetTrafficOptions m a b c
  | UseVP8 f b => SetVP8Options f b c
  | UseSEI f b s a => SetSEIOptions f b s a c
  | UseVideo o => SetVideoOptions o c
  end.

Definition configure (s : setting) (c : runtimeConfig) : runtimeConfig :=
  match apply_setting s c with Ok c => c | _ => c end.

(** ** The life cycle *)

Inductive runtimeState := StateIdle | StateStarting | StateRunning | StateStopping | StateStopped.
#[export] Instance runtimeState_eq : EqDecision runtimeState.
Proof. solve_decision. Defined.

(** What the client returns, as [errors.Is(err, context.Canceled)] sees it. *)
Inductive run_error := RunCanceled | RunFailed (code : Z).
#[export] Instance run_error_eq : EqDecision run_error.
Proof. solve_decision. Defined.

(** Where the goroutine of a generation is: in the client, behind [finish] with [done] still
    open, at its end. *)
Inductive run_phase := InClient | Finishing | Ended.

(* go: src/native/olcrtc/mobile/runtime.go 47-57 runGeneration *)
Record generation := MkGeneration {
  gnCfg : PubConfig;
  gnCanceled : bool;
  gnReady : bool;
  gnDone : bool;
  gnStopRequested : bool;
  gnErr : option run_error;
  gnPhase : run_phase;
}.

(** Generations are numbered as they are started; the number stands for the pointer
    too. *)
(* go: src/native/olcrtc/mobile/runtime.go 59-67 Runtime *)
Record runtime := MkRt {
  rtDefaults : runtimeConfig;
  rtState : runtimeState;
  rtCurrent : option nat;
  rtGens : list generation;
}.

(* go: src/native/olcrtc/mobile/runtime.go 74-81 newRuntime *)
Definition newRuntime : runtime := MkRt defaultRuntimeConfig StateIdle None [].

(* go: src/native/olcrtc/mobile/runtime.go 236-238 isActiveLocked *)
Definition isActiveLocked (s : runtimeState) : bool :=
  match s with StateStarting | StateRunning | StateStopping => true | _ => false end.

Definition set_gen (r : runtime) (g : nat) (gen : generation) : runtime :=
  MkRt (rtDefaults r) (rtState r) (rtCurrent r) (<[g := gen]> (rtGens r)).
Definition set_state (r : runtime) (s : runtimeState) : runtime :=
  MkRt (rtDefaults r) s (rtCurrent r) (rtGens r).

(* go: src/native/olcrtc/mobile/runtime.go 90-116 Start *)
Definition rt_Start `{NetIP} (r : runtime) : runtime * outcome mobile_error unit :=
  if isActiveLocked (rtState r) then (r, Err ErrAlreadyRunning)
  else
    match validateRuntimeConfig (rtDefaults r) with
    | Some e => (r, Err e)
    | None =>
        let gen := MkGeneration (clientConfig (rtDefaults r)) false false false false None InClient in
        (MkRt (rtDefaults r) StateStarting (Some (length (rtGens r))) (rtGens r ++ [gen]), Ok tt)
    end.

(** The client of generation [g] calls [onReady]. *)
(* go: src/native/olcrtc/mobile/runtime.go 124-134 markReady *)
Definition markReady (r : runtime) (g : nat) : runtime :=
  match rtGens r !! g with
  | Some gen =>
      if negb (bool_decide (rtCurrent r = Some g)) || negb (bool_decide (rtState r = StateStarting)) then r
      else if gnReady gen then r
      else
        set_state (set_gen r g (MkGeneration (gnCfg gen) (gnCanceled gen) true (gnDone gen) (gnStopRequested gen) (gnErr gen)
                                  (gnPhase gen))) StateRunning
  | None => r
  end.

(** The client of generation [g] returns: the locked part of [finish], in one step with the
    return of the runner and [gen.cancel()] before it, which only this generation sees. *)
(* go: src/native/olcrtc/mobile/runtime.go 136-145 finish *)
Definition finish (r : runtime) (g : nat) (runErr : option run_error) : runtime :=
  match rtGens r !! g with
  | Some gen =>
      match gnPhase gen with
      | InClient =>
          let runErr := if gnStopRequested gen && bool_decide (runErr = Some RunCanceled) then None else runErr in
          let r := set_gen r g (MkGeneration (gnCfg gen) true (gnReady gen) (gnDone gen) (gnStopRequested gen) runErr Finishing) in
          if bool_decide (rtCurrent r = Some g) then set_state r StateStopped else r
      | _ => r
      end
  | None => r
  end.

(** The last statement of [finish], after the lock is released. *)
(* go: src/native/olcrtc/mobile/runtime.go 146-147 finish *)
Definition close_done (r : runtime) (g : nat) : runtime :=
  match rtGens r !! g with
  | Some gen =>
      match gnPhase gen with
      | Finishing =>
          set_gen r g (MkGeneration (gnCfg gen) (gnCanceled gen) (gnReady gen) true (gnStopRequested gen) (gnErr gen) Ended)
      | _ => r
      end
  | None => r
  end.

(** [Stop] up to its [select]: the generation it waits for, [None] when it returns
    nil at once. *)
(* go: src/native/olcrtc/mobile/runtime.go 197-209 Stop *)
Definition stop_begin (r : runtime) : runtime * option nat :=
  match rtState r, rtCurrent r with
  | StateIdle, _ | StateStopped, _ | _, None => (r, None)
  | s, Some g =>
      match rtGens r !! g with
      | Some gen =>
          if bool_decide (s = StateStopping) then (r, Some g)
          else
            (set_state (set_gen r g (MkGeneration (gnCfg gen) true (gnReady gen) (gnDone gen) true (gnErr gen) (gnPhase gen)))
               StateStopping, Some g)
      | None => (r, Some g)
      end
  end.

(** What the [select] of [Stop] returns when it can. *)
(* go: src/native/olcrtc/mobile/runtime.go 211-220 Stop *)
Definition stop_returns (r : runtime) (g : nat) (timer : bool) : option (outcome mobile_error unit) :=
  match rtGens r !! g with
  | Some gen => if gnDone gen then Some (Ok tt) else if timer then Some (Err ErrStopTimeout) else None
  | None => None
  end.

(* go: src/native/olcrtc/mobile/runtime.go 183-195 generationError *)
Definition generationError (gen : generation) : run_error + mobile_error :=
  match gnErr gen with
  | Some e => inl e
  | None => if gnReady gen then inr ErrNotRunning else inr ErrStoppedBeforeReady
  end.

(** One look of [waitGenerationReady] at the generation: [None] while it waits; the order
    is that of its checks, [pickReady] the choice of the [select] when both channels are closed. *)
(* go: src/native/olcrtc/mobile/runtime.go 160-181 waitGenerationReady *)
Definition waitGenerationReady (gen : generation) (selecting pickReady timer : bool)
  : option (outcome (run_error + mobile_error) unit) :=
  if negb selecting then
    if gnDone gen then Some (Err (generationError gen))
    else if gnReady gen then Some (Ok tt)
    else None
  else if gnReady gen && (pickReady || negb (gnDone gen)) then Some (Ok tt)
  else if gnDone gen then Some (Err (generationError gen))
  else if timer then Some (Err (inr ErrReadyTimeout))
  else None.

(* go: src/native/olcrtc/mobile/runtime.go 149-158 WaitReady *)
Definition WaitReady (r : runtime) (selecting pickReady timer : bool)
  : option (outcome (run_error + mobile_error) unit) :=
  match rtCurrent r with
  | None => Some (Err (inr ErrNotRunning))
  | Some g =>
      match rtGens r !! g with
      | Some gen => waitGenerationReady gen selecting pickReady timer
      | None => None
      end
  end.

(* go: src/native/olcrtc/mobile/runtime.go 244-252 timeoutFromMillis *)
Definition timeoutFromMillis (value fallback : Z) : Z :=
  if value <=? 0 then fallback
  else if maxTimeoutMillis <? value then 2 ^ 63 - 1
  else i64 (value * 1000000).

Inductive runtime_event :=
| RvSet (s : setting)
| RvStart
| RvReady (g : nat)
| RvReturn (g : nat) (err : option run_error)
| RvDone (g : nat)
| RvStop.

Definition runtime_step `{NetIP} (r : runtime) (e : runtime_event) : runtime :=
  match e with
  | RvSet s => MkRt (configure s (rtDefaults r)) (rtState r) (rtCurrent r) (rtGens r)
  | RvStart => (rt_Start r).1
  | RvReady g => match rtGens r !! g with Some (MkGeneration _ _ _ _ _ _ InClient) => markReady r g | _ => r end
  | RvReturn g err => finish r g err
  | RvDone g => close_done r g
  | RvStop => (stop_begin r).1
  end.

Definition runtime_run `{NetIP} (r : runtime) (es : list runtime_event) : runtime := fold_left runtime_step es r.

(** ** Probes *)

(* go: src/native/olcrtc/mobile/ping.go 108-116 bestPositiveLatency *)
Definition bestPositiveLatency (currentBest next : Z) : Z :=
  if next <=? 0 then currentBest
  else if (currentBest =? 0) || (next <? currentBest) then next
  else currentBest.

(** A sample, and whether the context ends during the pause after it. *)
(* go: src/native/olcrtc/mobile/ping.go 74-95 bestHTTPPingSample *)
Fixpoint ping_samples {E} (n : nat) (best : Z) (lastErr : option E) (samples : list ((E + Z) * bool))
  : option (option E + Z) :=
  match n, samples with
  | O, _ => Some (if 0 <? best then inr best else inl lastErr)
  | S n, [] => None
  | S n, (s, ended) :: rest =>
      let '(best, lastErr) :=
        match s with inl e => (best, Some e) | inr elapsed => (bestPositiveLatency best elapsed, lastErr) end in
      if (0 <? Z.of_nat n) && ended then Some (if 0 <? best then inr best else inl lastErr)
      else ping_samples n best lastErr rest
  end.

(** [inl None] stands for ErrHTTPPingTimeout. *)
(* go: src/native/olcrtc/mobile/ping.go 74-95 bestHTTPPingSample *)
Definition bestHTTPPingSample {E} (samples : list ((E + Z) * bool)) : option (option E + Z) :=
  ping_samples 3 0 None samples.

(* go: src/native/olcrtc/mobile/probe.go 95-100 validateProbeVP8 *)
Definition validateProbeVP8 (o : Vp8Options) : option mobile_error :=
  if (voFPS o <? 1) || (120 <? voFPS o) || (voBatchSize o <? 1) then Some ErrInvalidConfig else None.

(* go: src/native/olcrtc/mobile/probe.go 85-93 validateProbeConfig *)
Definition validateProbeConfig `{NetIP} (cfg : runtimeConfig) : option mobile_error :=
  if (rcSocksPort cfg <? 0) || (65535 <? rcSocksPort cfg) then Some ErrInvalidConfig
  else
    validateRuntimeConfig
      (if rcSocksPort cfg =? 0 then put_socks (rcSocksHost cfg) 1 cfg else cfg).

(* go: src/native/olcrtc/mobile/probe.go 53-83 probeConfig *)
Definition probeConfig `{NetIP} (r : runtime) (provider transport roomID deviceID keyHex : string)
    (socksPort vp8FPS vp8BatchSize : Z) : outcome mobile_error PubConfig :=
  let t := rtDefaults r in
  let t := put_key keyHex (put_device deviceID (rcDeviceIDPath t) (put_room roomID (put_transport transport
             (put_provider provider t)))) in
  let t := put_creds "" "" (put_socks mobile_socksHost socksPort t) in
  let v := rcVP8 t in
  let t := put_vp8 (MkVp8Options (if 0 <? vp8FPS then vp8FPS else voFPS v)
                      (if 0 <? vp8BatchSize then vp8BatchSize else voBatchSize v)) t in
  match validateProbeConfig t with
  | Some e => Err e
  | None => match validateProbeVP8 (rcVP8 t) with Some e => Err e | None => Ok (clientConfig t) end
  end.

(** What the [select] of a probe wakes for: the address, with the client still at work; the return of the
    client, with the address if it was ready before; the timeout. *)
Inductive probe_wakeup :=
| PbReady (address : bytes)
| PbDone (err : option run_error) (address : option bytes)
| PbTimeout.

(** [action] is [None] for a check; [elapsed] is the time since the start. *)
(* go: src/native/olcrtc/mobile/probe.go 145-165 finishProbe *)
Definition finishProbe (elapsed : Z) (address : bytes) (action : option (bytes -> Z * option run_error))
  : Z * option (run_error + mobile_error) :=
  match action with
  | None => (Z.quot elapsed 1000000, None)
  | Some f => let '(latency, err) := f address in (latency, inl <$> err)
  end.

(* go: src/native/olcrtc/mobile/probe.go 102-134 runProbe *)
Definition runProbe (w : probe_wakeup) (elapsed : Z) (action : option (bytes -> Z * option run_error))
  : Z * option (run_error + mobile_error) :=
  match w with
  | PbReady address => finishProbe elapsed address action
  | PbDone err (Some address) => finishProbe elapsed address action
  | PbDone (Some e) None => (0, Some (inl e))
  | PbDone None None => (0, Some (inr ErrStoppedBeforeReady))
  | PbTimeout => (0, Some (inr ErrReadyTimeout))
  end.
