(* ===== verification/MobileFacts.v ===== *)
(** * MobileFacts: what the settings of the application start, and the life cycle of a
    runtime *)

From stdpp Require Import pretty.
From S2P Require Import Prelude Bytes Text Durations NetAddr Traffic Control Crypto SeiTransport Socks SocksFacts SessionConfig SessionRun SessionFacts ConfigFile Mobile.

(** ** Settings *)

(** What every setter keeps. *)
Record config_ok (c : runtimeConfig) : Prop := {
  ck_vp8 : 1 <= voFPS (rcVP8 c) <= 120 /\ 1 <= voBatchSize (rcVP8 c);
  ck_sei : 1 <= oFPS (rcSEI c) <= 120 /\ 1 <= oBatchSize (rcSEI c) /\ 1 <= oFragmentSize (rcSEI c) /\
           1 <= oAckTimeoutMS (rcSEI c);
  ck_video : validateVideoOptions (rcVideo c) = None;
  ck_liveness : 0 < ccInterval (rcLiveness c) < 2 ^ 63 /\ 0 < ccTimeout (rcLiveness c) < 2 ^ 63 /\
                0 < ccFailures (rcLiveness c);
  ck_traffic : traffic_ok (rcTraffic c);
  ck_creds : (String.length (rcSocksUser c) <= 255)%nat /\ (String.length (rcSocksPass c) <= 255)%nat;
  ck_resolver : rcResolver c <> None;
}.

Lemma default_config_ok : config_ok defaultRuntimeConfig.
Proof. by constructor; [done| | | |constructor| |]; cbn; try lia. Qed.

Lemma checkedDurationMillis_ok v d :
  checkedDurationMillis v = Some d -> d = v * 1000000 /\ 0 <= d < 2 ^ 63.
Proof.
  unfold checkedDurationMillis, maxTimeoutMillis. destruct (_ || _) eqn:E; [done|]. intros [= <-].
  bool_to_Prop. rewrite i64_small by lia. lia.
Qed.

(** The traffic options the setter stores are those [session] would accept. *)
Lemma SetTrafficOptions_ok m a b c c' :
  SetTrafficOptions m a b c = Ok c' -> exists tc, c' = put_traffic tc c /\ traffic_ok tc.
Proof.
  unfold SetTrafficOptions, minTrafficPayloadSize. destruct (_ || _) eqn:Hc; [done|].
  destruct (_ || _ || _) eqn:Hd; [done|].
  destruct (checkedDurationMillis a) as [x|] eqn:Ha; [|done]. destruct (checkedDurationMillis b) as [y|] eqn:Hb; [|done].
  intros [= <-]. eexists. split; [done|]. apply checkedDurationMillis_ok in Ha as [-> Ha], Hb as [-> Hb].
  apply orb_false_iff in Hc as [Hc1 Hc2]. apply orb_false_iff in Hd as [_ Hd]. apply andb_false_iff in Hc2, Hd.
  change MinSmuxWirePayload with 53.
  constructor; cbn [tcMaxPayloadSize tcMinDelay tcMaxDelay]; try done; destruct Hc2, Hd; bool_to_Prop;
    change MinSmuxWirePayload with 53; lia.
Qed.

Lemma SetLivenessOptions_ok i t f c c' :
  SetLivenessOptions i t f c = Ok c' ->
  exists l, c' = put_liveness l c /\ 0 < ccInterval l < 2 ^ 63 /\ 0 < ccTimeout l < 2 ^ 63 /\ 0 < ccFailures l.
Proof.
  unfold SetLivenessOptions. destruct (_ || _) eqn:Hp; [done|].
  destruct (checkedDurationMillis i) as [x|] eqn:Hi; [|done]. destruct (checkedDurationMillis t) as [y|] eqn:Ht; [|done].
  intros [= <-]. eexists. split; [done|]. cbn. apply checkedDurationMillis_ok in Hi as [-> Hi], Ht as [-> Ht].
  bool_to_Prop. lia.
Qed.

Lemma configure_ok s c : config_ok c -> config_ok (configure s c).
Proof.
  intros Hc. unfold configure. destruct (apply_setting s c) as [c'| |] eqn:E; [|done..].
  destruct Hc as [H1 H2 H3 H4 H5 H6 H7].
  destruct s; cbn [apply_setting] in E;
    try (apply SetTrafficOptions_ok in E as (? & -> & ?); by constructor);
    try (apply SetLivenessOptions_ok in E as (? & -> & ?); by constructor).
  all: unfold SetProvider, SetTransport, SetRoom, SetChannel, SetKey, SetDNS, SetResolver, SetSocksListenHost,
         SetSocksPort, SetSocksCredentials, SetProviderToken, SetDeviceID, SetDeviceIDPath, SetEngine,
         SetVP8Options, SetSEIOptions, SetVideoOptions in E.
  all: repeat match type of E with
              | (if ?b then Err _ else _) = _ => destruct b eqn:?; [discriminate|]
              | match ?o with Some _ => Err _ | None => _ end = _ => destruct o eqn:?; [discriminate|]
              end.
  all: injection E as <-; bool_to_Prop; constructor; cbn; try done; try lia.
  by destruct r.
Qed.

(** The settings a transport runs with here: as [settings_ok], with no upper limit on the size of
    a frame and of a fragment. *)
Definition mobile_settings_ok (s : Settings) : Prop :=
  match s with
  | RunDatachannel => True
  | RunVideo o =>
      fps_ok (woFPS o) /\ 1 <= woWidth o /\ 1 <= woHeight o /\ 1 <= woQRSize o /\
      1 <= woTileModule o <= 270 /\ 0 <= woTileRS o <= 200 /\ In (woCodec o) ["qrcode"; "tile"]
  | RunVP8 o => fps_ok (voFPS o) /\ 1 <= voBatchSize o
  | RunSEI o => fps_ok (oFPS o) /\ 1 <= oBatchSize o /\ 1 <= oFragmentSize o /\ 1 <= oAckTimeoutMS o
  end.

(** What a client needs to be started with. *)
Record startable_client `{NetIP} `{TileFrame} (c : PubConfig) : Prop := {
  sc_provider : is_Some (rgBuiltin process !! pcProvider c);
  sc_room : pcProvider c = providerNone \/ pcRoomURL c <> "";
  sc_transport : exists s,
    transport_New process (pcTransport c) (toTransportOptions (pcOptions c)) = Some s /\ mobile_settings_ok s;
  sc_key : exists key, hex_DecodeString (pcKeyHex c) = Some key /\ len key = KeySize;
  sc_resolver : pcResolver c <> None;
  sc_address : exists host port,
    pcLocalAddr c = JoinHostPort (string_bytes host) (string_bytes (pretty port)) /\ 1 <= port <= 65535 /\
    (isLoopbackHost host = true \/ pcSOCKSUser c <> "" /\ pcSOCKSPass c <> "");
  sc_creds : (String.length (pcSOCKSUser c) <= 255)%nat /\ (String.length (pcSOCKSPass c) <= 255)%nat;
  sc_liveness : ctl_withDefaults (pcLiveness c) = pcLiveness c;
  sc_traffic : traffic_ok (pcTraffic c);
}.

Lemma fps_120_ok fps d : 1 <= fps <= 120 -> NormalizeFPS fps d = fps /\ fps_ok fps.
Proof.
  intros. unfold NormalizeFPS, fps_ok, MaxFPS. repeat case_if; try lia. split_and!; try lia.
  apply Z.quot_str_pos. lia.
Qed.

Lemma supportedProvider_registered p : supportedProvider p = true -> is_Some (rgBuiltin process !! p).
Proof.
  unfold supportedProvider, slices_Contains. rewrite bool_decide_eq_true, !elem_of_cons, elem_of_nil.
  intros [->|[->|[->|[->|[]]]]]; vm_compute; by eexists.
Qed.

Lemma supportedTransport_cases t :
  supportedTransport t = true ->
  t = "datachannel" \/ t = transportVP8 \/ t = transportSEI \/ t = transportVideo.
Proof.
  unfold supportedTransport, slices_Contains. rewrite bool_decide_eq_true, !elem_of_cons, elem_of_nil.
  unfold transportVP8, transportSEI, transportVideo. tauto.
Qed.

Lemma video_accepted `{TileFrame} o :
  validateVideoOptions o = None ->
  exists s, video_optionsFrom (OptVideo o) = Some s /\ mobile_settings_ok (RunVideo s).
Proof.
  intros Hv. eexists. split; [done|]. revert Hv. unfold validateVideoOptions, validateTileOptions.
  destruct (_ || _) eqn:Hd; [done|]. destruct (negb _ && negb _) eqn:Hc; [done|]. pass_guard. pass_guard. pass_guard.
  intros _. assert (Hcodec : woCodec o = "qrcode" \/ woCodec o = "tile").
  { unfold str_eqb in Hc. by rewrite andb_false_iff, !negb_false_iff, !String.eqb_eq in Hc. }
  clear Hc. bool_to_Prop. destruct (fps_120_ok (woFPS o) 30) as [Hn Hf]; [lia|].
  unfold video_withDefaults. cbn [mobile_settings_ok woFPS woWidth woHeight woQRSize woTileModule woTileRS woCodec].
  rewrite Hn. split; [done|]. split_and!; try (repeat case_if; lia).
  destruct Hcodec as [-> | ->]; cbn; auto.
Qed.

Lemma transport_accepted `{TileFrame} c :
  config_ok c -> supportedTransport (rcTransport c) = true ->
  exists s, transport_New process (rcTransport c) (toTransportOptions (mobile_transportOptions c)) = Some s /\
    mobile_settings_ok s.
Proof.
  intros Hc Ht. unfold mobile_transportOptions.
  destruct (supportedTransport_cases _ Ht) as [E|[E|[E|E]]]; rewrite E; unfold transport_New.
  - exists RunDatachannel. split; [by vm_compute|done].
  - destruct (ck_vp8 _ Hc) as [H1 H2]. destruct (fps_120_ok _ 30 H1) as [Hn Hf].
    replace (rgTransport process !! transportVP8) with (Some KVp8channel) by by vm_compute.
    eexists. split; [done|]. cbn. rewrite Hn. split; [done|]. case_if; lia.
  - destruct (ck_sei _ Hc) as (H1 & H2 & H3 & H4). destruct (fps_120_ok _ (oFPS sei_defaults) H1) as [Hn Hf].
    replace (rgTransport process !! transportSEI) with (Some KSeichannel) by by vm_compute.
    eexists. split; [done|]. unfold sei_withDefaults.
    cbn [mobile_settings_ok oFPS oBatchSize oFragmentSize oAckTimeoutMS]. rewrite Hn. split; [done|].
    repeat case_if; lia.
  - destruct (video_accepted _ (ck_video _ Hc)) as (s & Hs & Hok).
    replace (rgTransport process !! transportVideo) with (Some KVideochannel) by by vm_compute.
    exists (RunVideo s). split; [|done]. change (RunVideo <$> video_optionsFrom (OptVideo (rcVideo c)) = Some (RunVideo s)).
    by rewrite Hs.
Qed.

Lemma mobile_validateKey_ok k :
  mobile_validateKey k = None -> exists key, hex_DecodeString k = Some key /\ len key = KeySize.
Proof.
  unfold mobile_validateKey. destruct (hex_DecodeString k) as [key|]; [|done].
  destruct (len key =? 32) eqn:E; [|done]. intros _. exists key. split; [done|]. by apply Z.eqb_eq in E.
Qed.

(** Settings that pass the check of [Start] are those of a client that starts. *)
Lemma valid_config_startable `{NetIP} `{TileFrame} c :
  config_ok c -> validateRuntimeConfig c = None -> startable_client (clientConfig c).
Proof.
  intros Hc. unfold validateRuntimeConfig. destruct (supportedProvider _) eqn:Hp; [|done].
  destruct (supportedTransport _) eqn:Ht; [|done]. cbn [negb].
  destruct (negb (str_eqb (rcProvider c) "none") && _) eqn:Hr; [done|].
  destruct (mobile_validateKey _) eqn:Hk; [done|]. destruct (str_eqb (rcDnsServer c) "" && _); [done|].
  destruct (str_eqb (rcSocksHost c) "" || _ || _) eqn:Ha; [done|]. destruct (negb (isLoopbackHost _) && _) eqn:Hl; [done|].
  intros _. constructor; cbn [pcProvider pcRoomURL pcTransport pcOptions pcKeyHex pcResolver pcLocalAddr pcSOCKSUser
    pcSOCKSPass pcLiveness pcTraffic clientConfig].
  - by apply supportedProvider_registered.
  - unfold str_eqb in Hr. apply andb_false_iff in Hr as [Hr|Hr].
    + apply negb_false_iff, String.eqb_eq in Hr. by left.
    + apply String.eqb_neq in Hr. by right.
  - by apply transport_accepted.
  - by apply mobile_validateKey_ok.
  - apply ck_resolver, Hc.
  - exists (rcSocksHost c), (rcSocksPort c). split; [done|]. split; [clear Hl; bool_to_Prop; lia|].
    apply andb_false_iff in Hl as [Hl|Hl]; [left; by apply negb_false_iff|].
    right. unfold str_eqb in Hl. apply orb_false_iff in Hl as [H1 H2]. by apply String.eqb_neq in H1, H2.
  - apply ck_creds, Hc.
  - destruct (ck_liveness _ Hc) as (H1 & H2 & H3). unfold ctl_withDefaults.
    destruct (rcLiveness c) as [a b d]. cbn in *. repeat case_if; try lia; done.
  - apply ck_traffic, Hc.
Qed.

(** ** The life cycle *)

Definition phase_ok (s : runtimeState) (gen : generation) : Prop :=
  match s with
  | StateIdle => False
  | StateStarting =>
      gnPhase gen = InClient /\ gnReady gen = false /\ gnCanceled gen = false /\ gnStopRequested gen = false
  | StateRunning =>
      gnPhase gen = InClient /\ gnReady gen = true /\ gnCanceled gen = false /\ gnStopRequested gen = false
  | StateStopping => gnPhase gen = InClient /\ gnCanceled gen = true /\ gnStopRequested gen = true
  | StateStopped => gnPhase gen <> InClient
  end.

Record gen_ok `{NetIP} `{TileFrame} (gen : generation) : Prop := {
  go_cfg : startable_client (gnCfg gen);
  go_done : gnDone gen = true <-> gnPhase gen = Ended;
  go_left : gnPhase gen <> InClient -> gnCanceled gen = true;
}.

Record runtime_ok `{NetIP} `{TileFrame} (r : runtime) : Prop := {
  ro_defaults : config_ok (rtDefaults r);
  ro_gens : Forall gen_ok (rtGens r);
  ro_current : rtCurrent r = match rtGens r with [] => None | _ => Some (length (rtGens r) - 1)%nat end;
  ro_phase : match last (rtGens r) with Some gen => phase_ok (rtState r) gen | None => rtState r = StateIdle end;
  ro_others : forall g gen, rtGens r !! g = Some gen -> gnPhase gen = InClient -> S g = length (rtGens r);
}.

Section lifecycle.
Context {N : NetIP} {T : TileFrame}.

Lemma runtime_ok_new : runtime_ok newRuntime.
Proof. constructor; cbn; try done. apply default_config_ok. Qed.

Lemma last_at {A} (l : list A) g x : l !! g = Some x -> S g = length l -> last l = Some x.
Proof. intros Hl Hg. rewrite last_lookup, <- Hg. done. Qed.

(** An update of the last generation. *)
Lemma runtime_ok_update r g gen gen' s :
  runtime_ok r -> rtGens r !! g = Some gen -> gen_ok gen' ->
  (gnPhase gen' = InClient -> gnPhase gen = InClient) ->
  (S g = length (rtGens r) -> phase_ok s gen') -> (S g <> length (rtGens r) -> s = rtState r) ->
  runtime_ok (set_state (set_gen r g gen') s).
Proof.
  intros [H1 H2 H3 H4 H5] Hg Hok Hin Hs Hs'. unfold set_state, set_gen. constructor; cbn.
  - done.
  - by apply Forall_insert.
  - rewrite length_insert. destruct (rtGens r); [done|]. by destruct g.
  - assert (g < length (rtGens r))%nat by (by eapply lookup_lt_Some). rewrite last_lookup, length_insert in *.
    destruct (decide (S g = length (rtGens r))) as [e|e].
    + rewrite <- e in *. cbn [pred]. rewrite list_lookup_insert_eq by lia. auto.
    + rewrite list_lookup_insert_ne by lia. by rewrite Hs'.
  - intros g' x. rewrite length_insert. intros [(-> & <- & _)|(Hne & Hx)]%list_lookup_insert_Some; [|by apply H5].
    intros Hp. eapply H5; [done|auto].
Qed.

Lemma current_last r g gen :
  runtime_ok r -> rtCurrent r = Some g -> rtGens r !! g = Some gen -> S g = length (rtGens r) /\ phase_ok (rtState r) gen.
Proof.
  intros [_ _ H3 H4 _] Hc Hg. rewrite Hc in H3. destruct (rtGens r) as [|x l] eqn:E; [done|].
  injection H3 as ->. assert (S (length (x :: l) - 1) = length (x :: l))%nat as He by (cbn; lia).
  split; [exact He|]. by rewrite (last_at _ _ _ Hg He) in H4.
Qed.

Lemma current_is r g : runtime_ok r -> S g = length (rtGens r) -> rtCurrent r = Some g.
Proof. intros [_ _ H3 _ _] Hg. rewrite H3. destruct (rtGens r); [done|]. cbn in *. f_equal. lia. Qed.

Lemma start_runtime_ok r : runtime_ok r -> runtime_ok (rt_Start r).1.
Proof.
  intros Hr. unfold rt_Start. destruct (isActiveLocked (rtState r)) eqn:Ha; [done|].
  destruct (validateRuntimeConfig _) eqn:Hv; [done|]. pose proof Hr as [H1 H2 H3 H4 H5]. constructor; cbn.
  - done.
  - apply Forall_app. split; [done|]. apply Forall_singleton.
    constructor; [by apply valid_config_startable|done|done].
  - rewrite length_app. destruct (rtGens r); cbn; [done|]. f_equal. lia.
  - by rewrite last_snoc.
  - intros g gen [Hl|[Hge Hl]]%lookup_app_Some Hp; rewrite length_app; cbn.
    + pose proof (H5 _ _ Hl Hp) as He. rewrite (last_at _ _ _ Hl He) in H4.
      exfalso. destruct (rtState r); done.
    + destruct (g - length (rtGens r))%nat eqn:E; [lia|done].
Qed.

Lemma markReady_ok r g gen :
  runtime_ok r -> rtGens r !! g = Some gen -> gnPhase gen = InClient -> runtime_ok (markReady r g).
Proof.
  intros Hr Hg Hp. unfold markReady. rewrite Hg. destruct (negb _ || negb _) eqn:E; [done|].
  apply orb_false_iff in E as [E1%negb_false_iff%bool_decide_eq_true E2%negb_false_iff%bool_decide_eq_true].
  destruct (gnReady gen) eqn:Hrd; [done|]. destruct (current_last _ _ _ Hr E1 Hg) as [Hlast Hph]. rewrite E2 in Hph.
  destruct (proj1 (Forall_lookup _ _) (ro_gens _ Hr) _ _ Hg) as [K1 K2 K3].
  eapply runtime_ok_update; [done|done| |done| |done].
  - by constructor.
  - cbn. naive_solver.
Qed.

Lemma finish_runtime_ok r g err : runtime_ok r -> runtime_ok (finish r g err).
Proof.
  intros Hr. unfold finish. destruct (rtGens r !! g) as [gen|] eqn:Hg; [|done].
  destruct (gnPhase gen) eqn:Hp; [|done..]. pose proof (ro_others _ Hr _ _ Hg Hp) as Hlast.
  destruct (proj1 (Forall_lookup _ _) (ro_gens _ Hr) _ _ Hg) as [K1 K2 K3].
  set (gen' := MkGeneration _ _ _ _ _ _ _). cbn zeta. cbn [rtCurrent set_gen].
  rewrite bool_decide_true by (by apply current_is).
  eapply runtime_ok_update; [done|done| |done|done|done]. constructor; cbn; [done| |done].
  split; [|done]. intros Hd%K2. congruence.
Qed.

Lemma close_done_ok r g : runtime_ok r -> runtime_ok (close_done r g).
Proof.
  intros Hr. unfold close_done. destruct (rtGens r !! g) as [gen|] eqn:Hg; [|done].
  destruct (gnPhase gen) eqn:Hp; [done| |done].
  destruct (proj1 (Forall_lookup _ _) (ro_gens _ Hr) _ _ Hg) as [K1 K2 K3].
  set (gen' := MkGeneration _ _ _ _ _ _ _).
  change (set_gen r g gen') with (set_state (set_gen r g gen') (rtState r)).
  eapply runtime_ok_update; [done|done| |done| |done].
  - constructor; cbn; [done|done|]. intros _. apply K3. congruence.
  - intros Hl. pose proof (ro_phase _ Hr) as H4. rewrite (last_at _ _ _ Hg Hl) in H4.
    destruct (rtState r); cbn in *; naive_solver congruence.
Qed.

Lemma stop_begin_ok r : runtime_ok r -> runtime_ok (stop_begin r).1.
Proof.
  intros Hr. unfold stop_begin. destruct (rtCurrent r) as [g|] eqn:Hc; [|by destruct (rtState r)].
  destruct (rtGens r !! g) as [gen|] eqn:Hg; [|by destruct (rtState r)].
  destruct (current_last _ _ _ Hr Hc Hg) as [Hlast Hph].
  destruct (proj1 (Forall_lookup _ _) (ro_gens _ Hr) _ _ Hg) as [K1 K2 K3].
  destruct (rtState r) eqn:Hs; cbn [bool_decide fst]; try done; destruct Hph as [Hp _];
    (eapply runtime_ok_update; [done|done|by constructor|done|done|done]).
Qed.

Lemma runtime_step_ok r e : runtime_ok r -> runtime_ok (runtime_step r e).
Proof.
  intros Hr. destruct e; cbn [runtime_step].
  - destruct Hr as [H1 H2 H3 H4 H5]. constructor; cbn; try done. by apply configure_ok.
  - by apply start_runtime_ok.
  - destruct (rtGens r !! g) as [gen|] eqn:Hg; [|done]. destruct gen as [a b c d e f p] eqn:Hgen.
    destruct p; try done. by eapply markReady_ok.
  - by apply finish_runtime_ok.
  - by apply close_done_ok.
  - by apply stop_begin_ok.
Qed.

Lemma runtime_run_ok es : runtime_ok (runtime_run newRuntime es).
Proof.
  unfold runtime_run. generalize runtime_ok_new. generalize newRuntime. induction es as [|e es IH]; [done|].
  intros r Hr. cbn. by apply IH, runtime_step_ok.
Qed.
End lifecycle.

(** Every client the library starts can start.  Whatever sequence of setters,
    starts, stops and client events the application goes through, each generation
    was given a registered provider with a room, a transport whose factory accepts its options
    and runs with positive sizes and a frame rate of at most 240, a key of 32 bytes, a resolver, a
    port in range behind a loopback address or credentials of at most 255
    bytes, liveness settings that the control stream uses as they are and a
    traffic shape that leaves room for a mux frame. *)
Theorem mobile_clients_are_startable `{NetIP} `{TileFrame} (es : list runtime_event) :
  Forall (fun gen => startable_client (gnCfg gen)) (rtGens (runtime_run newRuntime es)).
Proof. eapply Forall_impl; [apply ro_gens, runtime_run_ok|]. intros gen Hg. apply go_cfg, Hg. Qed.

(** The settings the application makes in the witnesses. *)
Definition demo_settings : list runtime_event :=
  RvSet <$> [UseProvider "jitsi"; UseRoom " meet/room "; UseSocksPort 0; UseSocksPort 9050; UseSocksHost "[localhost]";
             UseKey "000102030405060708090a0b0c0d0e0f101112131415161718191a1b1c1d1e1f";
             UseTransport "seichannel"; UseTraffic 52 0 0; UseTraffic 53 1 5; UseLiveness 0 1 1].

Lemma mobile_clients_are_startable_witness :
  exists gen,
    rtGens (runtime_run (H := toy_ip) newRuntime (demo_settings ++ [RvStart; RvStart])) = [gen] /\
    @startable_client toy_ip (Build_TileFrame 1080 1080) (gnCfg gen) /\
    pcRoomURL (gnCfg gen) = "meet/room" /\ pcLocalAddr (gnCfg gen) = string_bytes "localhost:9050" /\
    pcTraffic (gnCfg gen) = MkTraffic 53 1000000 5000000.
Proof.
  pose proof (@mobile_clients_are_startable toy_ip (Build_TileFrame 1080 1080) (demo_settings ++ [RvStart; RvStart])) as Hall.
  destruct (rtGens (runtime_run (H := toy_ip) newRuntime (demo_settings ++ [RvStart; RvStart]))) as [|gen [|gen' l]] eqn:E.
  - vm_compute in E. discriminate.
  - exists gen. split; [reflexivity|]. split; [exact (Forall_inv Hall)|].
    vm_compute in E. injection E as <-. repeat split; reflexivity.
  - vm_compute in E. discriminate.
Defined.

(** What the generation of a reachable runtime says about its state. *)
Record lifecycle_ok (r : runtime) : Prop := {
  lo_single : forall g gen, rtGens r !! g = Some gen -> gnPhase gen = InClient -> rtCurrent r = Some g;
  lo_active : isActiveLocked (rtState r) = true <->
    exists g gen, rtCurrent r = Some g /\ rtGens r !! g = Some gen /\ gnPhase gen = InClient;
  lo_phase : forall g gen, rtCurrent r = Some g -> rtGens r !! g = Some gen -> phase_ok (rtState r) gen;
  lo_done : forall g gen, rtGens r !! g = Some gen -> gnDone gen = true -> gnCanceled gen = true /\ gnPhase gen = Ended;
}.

Lemma runtime_ok_lifecycle `{NetIP} `{TileFrame} r : runtime_ok r -> lifecycle_ok r.
Proof.
  intros Hr. constructor.
  - intros g gen Hg Hp. apply (current_is r g Hr). by eapply ro_others.
  - split.
    + intros Ha. pose proof (ro_phase _ Hr) as Hph. pose proof (ro_current _ Hr) as Hc.
      destruct (last (rtGens r)) as [gen|] eqn:Hl; [|by rewrite Hph in Ha].
      rewrite last_lookup in Hl. destruct (rtGens r) as [|x l] eqn:E; [done|].
      exists (length (x :: l) - 1)%nat, gen. split; [done|]. split; [|destruct (rtState r); try done; apply Hph].
      rewrite <- Hl. f_equal. cbn. lia.
    + intros (g & gen & Hc & Hg & Hp). destruct (current_last _ _ _ Hr Hc Hg) as [_ Hph]. by destruct (rtState r).
  - intros g gen Hc Hg. by apply (current_last _ _ _ Hr Hc Hg).
  - intros g gen Hg Hd. destruct (proj1 (Forall_lookup _ _) (ro_gens _ Hr) _ _ Hg) as [_ K2 K3].
    apply K2 in Hd. split; [|done]. apply K3. congruence.
Qed.

(** [Stop] of an active runtime marks its generation; the client's return then ends it. *)
Lemma stop_begin_active r g gen :
  lifecycle_ok r -> rtCurrent r = Some g -> rtGens r !! g = Some gen -> gnPhase gen = InClient ->
  exists gen', stop_begin r = (MkRt (rtDefaults r) StateStopping (Some g) (<[g := gen']> (rtGens r)), Some g) /\
    gnPhase gen' = InClient /\ gnStopRequested gen' = true.
Proof.
  intros [_ L2 L3 _] Hc Hg Hp. assert (Ha : isActiveLocked (rtState r) = true) by (apply L2; eauto).
  specialize (L3 _ _ Hc Hg). clear L2. destruct r as [d s c gs]. cbn in *. subst c. unfold stop_begin. cbn.
  rewrite Hg. destruct s; try done; cbn; [eexists; split; [done|by split]..|].
  exists gen. rewrite list_insert_id by done. split; [done|]. by destruct L3 as (_ & _ & ?).
Qed.

Lemma stop_completes `{NetIP} r g gen gen' err :
  rtGens r !! g = Some gen ->
  stop_begin r = (MkRt (rtDefaults r) StateStopping (Some g) (<[g := gen']> (rtGens r)), Some g) ->
  gnPhase gen' = InClient -> gnStopRequested gen' = true ->
  runtime_run r [RvStop; RvReturn g err; RvDone g] =
    MkRt (rtDefaults r) StateStopped (Some g)
      (<[g := MkGeneration (gnCfg gen') true (gnReady gen') true true
                (if bool_decide (err = Some RunCanceled) then None else err) Ended]> (rtGens r)).
Proof.
  intros Hg Hb Hp Hreq. assert (Hlt : (g < length (rtGens r))%nat) by (by eapply lookup_lt_Some).
  unfold runtime_run. cbn [fold_left runtime_step]. rewrite Hb. cbn [fst]. unfold finish. cbn [rtGens].
  rewrite list_lookup_insert_eq by done. rewrite Hp. cbn zeta. cbn [rtCurrent set_gen].
  rewrite bool_decide_true by done. unfold close_done, set_state, set_gen. cbn [rtGens rtDefaults rtCurrent rtState].
  rewrite list_lookup_insert_eq by (by rewrite length_insert). cbn. by rewrite !list_insert_insert_eq, Hreq.
Qed.

(** C35: the life cycle of the application's runtime.  In every run, at most one client
    is at work and it belongs to the current generation; the state is starting,
    running or stopping exactly while it works, running only once it has been ready and before it is
    cancelled, and stopping only with the cancellation sent; a generation whose end is announced has left
    its client and is cancelled.  A [Stop] of an active runtime is not lost: when the client then
    returns, with whatever error, [Stop] returns nil, the state is stopped, [WaitReady] reports an error,
    which is not the cancellation, and the next [Start] is refused only for its settings. *)
Theorem mobile_runtime_lifecycle `{NetIP} (T : TileFrame) (es : list runtime_event) (err : option run_error) :
  let r := runtime_run newRuntime es in
  lifecycle_ok r /\
  (isActiveLocked (rtState r) = true ->
   exists g, (stop_begin r).2 = Some g /\
     let r' := runtime_run r [RvStop; RvReturn g err; RvDone g] in
     lifecycle_ok r' /\ rtState r' = StateStopped /\
     (forall timer, stop_returns r' g timer = Some (Ok tt)) /\
     (exists e, e <> inl RunCanceled /\ forall b timer, WaitReady r' false b timer = Some (Err e)) /\
     (forall e, (rt_Start r').2 = Err e -> validateRuntimeConfig (rtDefaults r) = Some e)).
Proof.
  intros r. assert (Hr : runtime_ok r) by apply runtime_run_ok. clearbody r.
  pose proof (runtime_ok_lifecycle _ Hr) as L. split; [done|].
  intros (g & gen & Hc & Hg & Hp)%(lo_active _ L). exists g.
  destruct (stop_begin_active _ _ _ L Hc Hg Hp) as (gen' & Hb & Hp' & Hreq). split; [by rewrite Hb|].
  assert (Hl' : lifecycle_ok (runtime_run r [RvStop; RvReturn g err; RvDone g])).
  { apply runtime_ok_lifecycle. unfold runtime_run. cbn [fold_left]. by repeat apply runtime_step_ok. }
  revert Hl'. rewrite (stop_completes _ _ _ _ err Hg Hb Hp' Hreq). intros Hl'. split; [done|]. split; [done|].
  unfold stop_returns, WaitReady, waitGenerationReady, generationError. cbn [rtGens rtCurrent].
  rewrite list_lookup_insert_eq by (by eapply lookup_lt_Some). cbn. split; [done|]. split.
  - eexists. split; [|done]. case_bool_decide as He; [|destruct err as [e|]]; [|congruence|]; by destruct (gnReady gen').
  - intros e. unfold rt_Start. cbn. destruct (validateRuntimeConfig _); [|done]. by intros [= ->].
Qed.

Lemma mobile_runtime_lifecycle_witness :
  let r := runtime_run (H := toy_ip) newRuntime (demo_settings ++ [RvStart; RvReady 0]) in
  let r' := runtime_run (H := toy_ip) r [RvStop; RvReturn 0 (Some RunCanceled); RvDone 0] in
  lifecycle_ok r' /\ rtState r' = StateStopped /\ stop_returns r' 0 false = Some (Ok tt) /\
  WaitReady r' false false false = Some (Err (inr ErrNotRunning)) /\ (rt_Start (H := toy_ip) r').2 = Ok tt.
Proof.
  intros r r'.
  destruct (@mobile_runtime_lifecycle toy_ip (Build_TileFrame 1080 1080) (demo_settings ++ [RvStart; RvReady 0])
              (Some RunCanceled)) as [_ Hstop].
  destruct Hstop as (g & Hg & Hl & Hs & Hret & _ & _); [vm_compute; reflexivity|].
  vm_compute in Hg. injection Hg as <-. split; [exact Hl|]. split; [exact Hs|]. split; [exact (Hret false)|].
  split; vm_compute; reflexivity.
Defined.
