(* ===== verification/MobileCore.v ===== *)
(** * MobileCore: what the Android application links (native/mobilecore/mobilecore.go)

    The package keeps one Xray instance, one more for profile probes and one olcRTC runtime, and picks the
    wire format of vp8channel by registering a factory.  Xray is a library: instances are
    numbered, and whether loading, creating and starting one succeeds is an argument.  Every function
    holds its lock for what is one step here. *)

From S2P Require Import Prelude Bytes Text NetAddr Traffic Control Crypto SeiTransport Socks SessionConfig SessionRun ConfigFile IceServers Mobile SocksFacts SessionFacts MobileFacts.

(** ** The registry *)

#[export] Instance TransportKind_eq : EqDecision TransportKind.
Proof. solve_decision. Defined.

(** The factories of internal/transport and that of legacyvp8channel. *)
Inductive factory := Builtin (k : TransportKind) | LegacyVp8.
#[export] Instance factory_eq : EqDecision factory.
Proof. solve_decision. Defined.

(** [session.RegisterDefaults] over these factories. *)
(* go: app/session/config.go 162-169 RegisterDefaults *)
Definition defaults_registered (reg : gmap string factory) : gmap string factory :=
  let reg := registry_Register reg "datachannel" (Builtin KDatachannel) in
  let reg := registry_Register reg "videochannel" (Builtin KVideochannel) in
  let reg := registry_Register reg "seichannel" (Builtin KSeichannel) in
  registry_Register reg "vp8channel" (Builtin KVp8channel).

Inductive core_error :=
| ErrCoreRunning
| ErrCoreNotRunning
| ErrCorePort
| ErrCoreTimeout
| ErrXrayWait
| ErrCoreMode
| ErrCoreSetting (e : mobile_error)
| ErrCoreAssets
| ErrXrayLoad
| ErrXrayCreate
| ErrXrayStart.

(* go: src/native/mobilecore/mobilecore.go 422-436 registerVP8Transport *)
Definition registerVP8Transport (mode : string) (reg : gmap string factory) : outcome core_error (gmap string factory) :=
  let mode := ToLower (string_bytes (TrimSpace mode)) in
  if bytes_eqb mode [] || bytes_eqb mode (string_bytes "current")
  then Ok (registry_Register reg "vp8channel" (Builtin KVp8channel))
  else if bytes_eqb mode (string_bytes "legacy") then Ok (registry_Register reg "vp8channel" LegacyVp8)
  else Err ErrCoreMode.

(** ** State *)

(** [coOpen] holds the Xray instances started and not closed. *)
(* go: src/native/mobilecore/mobilecore.go 30-42 xrayInstance *)
Record core := MkCore {
  coReg : gmap string factory;
  coRuntime : option runtime;
  coProbeOlcrtc : bool;
  coXray : option nat;
  coProbe : option nat;
  coOpen : gset nat;
  coNext : nat;
}.

Definition new_core : core := MkCore ∅ None false None None ∅ 0.

Definition set_runtime (c : core) (r : runtime) (reg : gmap string factory) : core :=
  MkCore reg (Some r) (coProbeOlcrtc c) (coXray c) (coProbe c) (coOpen c) (coNext c).

(** ** olcRTC *)

Record start_args := MkArgs {
  saProvider : string;
  saTransport : string;
  saMode : string;
  saRoom : string;
  saClient : string;
  saToken : string;
  saKey : string;
  saDNS : string;
  saFPS : Z;
  saBatch : Z;
  saKeepalive : Z;
  saPort : Z;
}.

(** [strings.TrimPrefix]. *)
Definition TrimPrefix (s prefix : bytes) : bytes := if HasPrefix s prefix then drop (length prefix) s else s.

Definition bearer_token (t : string) : string :=
  TrimSpace (bytes_string (TrimPrefix (string_bytes (TrimSpace t)) (string_bytes "Bearer "))).

(** The calls of setters, and whether an error ends [StartOlcrtc]. *)
Definition start_settings (a : start_args) : list (setting * bool) :=
  [(UseProvider (saProvider a), true); (UseTransport (saTransport a), true); (UseRoom (saRoom a), true);
   (UseDeviceID (saClient a), false); (UseKey (saKey a), true); (UseDNS (saDNS a), true);
   (UseVP8 (saFPS a) (saBatch a), false); (UseLiveness (i64 (saKeepalive a * 1000)) 0 0, false)] ++
  (if str_eqb (bearer_token (saToken a)) "" then [] else [(UseProviderToken (bearer_token (saToken a)), false)]) ++
  [(UseSocksPort (saPort a), true)].

(** Up to the first error that counts. *)
Fixpoint apply_settings (l : list (setting * bool)) (c : runtimeConfig) : runtimeConfig * option mobile_error :=
  match l with
  | [] => (c, None)
  | (s, required) :: l =>
      match apply_setting s c with
      | Ok c => apply_settings l c
      | Err e => if required then (c, Some e) else apply_settings l c
      | Panic => (c, None)
      end
  end.

Definition with_defaults (r : runtime) (c : runtimeConfig) : runtime := MkRt c (rtState r) (rtCurrent r) (rtGens r).

Definition runtime_active (c : core) : bool :=
  match coRuntime c with Some r => isActiveLocked (rtState r) | None => false end.

(* go: src/native/mobilecore/mobilecore.go 350-420 StartOlcrtc *)
Definition StartOlcrtc `{NetIP} (c : core) (a : start_args) : core * outcome core_error unit :=
  if runtime_active c then (c, Err ErrCoreRunning)
  else
    let r := newRuntime in
    let reg := defaults_registered (coReg c) in
    match registerVP8Transport (saMode a) reg with
    | Err e => (set_runtime c r reg, Err e)
    | Panic => (set_runtime c r reg, Panic)
    | Ok reg =>
        let '(cfg, err) := apply_settings (start_settings a) (rtDefaults r) in
        let r := with_defaults r cfg in
        match err with
        | Some e => (set_runtime c r reg, Err (ErrCoreSetting e))
        | None =>
            match rt_Start r with
            | (r, Ok _) => (set_runtime c r reg, Ok tt)
            | (r, Err e) => (set_runtime c r reg, Err (ErrCoreSetting e))
            | (r, Panic) => (set_runtime c r reg, Panic)
            end
        end
    end.

(** The goroutine of the generation: [runPublicClient] makes a client, which registers the defaults once
    more, and runs it; the client looks its transport up by name. *)
(* go: src/native/olcrtc/mobile/runtime.go 83-88 runPublicClient *)
Definition runPublicClient (c : core) (cfg : PubConfig) : core * option factory :=
  let reg := defaults_registered (coReg c) in
  (MkCore reg (coRuntime c) (coProbeOlcrtc c) (coXray c) (coProbe c) (coOpen c) (coNext c), reg !! pcTransport cfg).

(* go: src/native/mobilecore/mobilecore.go 451-458 StopOlcrtc *)
Definition StopOlcrtc (c : core) : core :=
  match coRuntime c with Some r => set_runtime c (stop_begin r).1 (coReg c) | None => c end.

(* go: src/native/mobilecore/mobilecore.go 460-465 IsOlcrtcRunning *)
Definition IsOlcrtcRunning (c : core) : bool := runtime_active c.

Definition set_probe_olcrtc (c : core) (b : bool) : core :=
  MkCore (coReg c) (coRuntime c) b (coXray c) (coProbe c) (coOpen c) (coNext c).

(* go: src/native/mobilecore/mobilecore.go 228-264 StartProfileProbeOlcrtc *)
Definition StartProfileProbeOlcrtc `{NetIP} (c : core) (a : start_args) : core * outcome core_error unit :=
  match StartOlcrtc c a with
  | (c, Ok u) => (set_probe_olcrtc c true, Ok u)
  | res => res
  end.

(** ** Xray *)

Record xray_env := MkXrayEnv { xeLoad : bool; xeNew : bool; xeStart : bool }.

(** The instance is numbered when it is created; one that does not start is closed. *)
(* go: src/native/mobilecore/mobilecore.go 286-303 newXrayInstance *)
Definition newXrayInstance (env : xray_env) (assets : string) : outcome core_error unit :=
  if str_eqb (TrimSpace assets) "" then Err ErrCoreAssets
  else if negb (xeLoad env) then Err ErrXrayLoad
  else if negb (xeNew env) then Err ErrXrayCreate
  else if negb (xeStart env) then Err ErrXrayStart
  else Ok tt.

Definition with_instance (c : core) (probe : bool) : core :=
  let n := coNext c in
  MkCore (coReg c) (coRuntime c) (coProbeOlcrtc c) (if probe then coXray c else Some n)
    (if probe then Some n else coProbe c) ({[n]} ∪ coOpen c) (S n).

(* go: src/native/mobilecore/mobilecore.go 84-96 StartXray *)
Definition StartXray (env : xray_env) (assets : string) (c : core) : core * outcome core_error unit :=
  match coXray c with
  | Some _ => (c, Err ErrCoreRunning)
  | None =>
      match newXrayInstance env assets with
      | Ok _ => (with_instance c false, Ok tt)
      | r => (c, r)
      end
  end.

(* go: src/native/mobilecore/mobilecore.go 185-197 StartProfileProbe *)
Definition StartProfileProbe (env : xray_env) (assets : string) (c : core) : core * outcome core_error unit :=
  match coProbe c with
  | Some _ => (c, Err ErrCoreRunning)
  | None =>
      match newXrayInstance env assets with
      | Ok _ => (with_instance c true, Ok tt)
      | r => (c, r)
      end
  end.

Definition close_instance (o : option nat) (g : gset nat) : gset nat := match o with Some n => g ∖ {[n]} | None => g end.

(* go: src/native/mobilecore/mobilecore.go 120-134 StopXray *)
Definition StopXray (c : core) : core :=
  MkCore (coReg c) (coRuntime c) (coProbeOlcrtc c) None (coProbe c) (close_instance (coXray c) (coOpen c)) (coNext c).

(* go: src/native/mobilecore/mobilecore.go 266-284 StopProfileProbe *)
Definition StopProfileProbe (c : core) : core :=
  let c' := if coProbeOlcrtc c then StopOlcrtc c else c in
  MkCore (coReg c') (coRuntime c') false (coXray c') None (close_instance (coProbe c') (coOpen c')) (coNext c').

(* go: src/native/mobilecore/mobilecore.go 510-513 StopAll *)
Definition StopAll (c : core) : core := StopXray (StopOlcrtc c).

(** Turns of the loop: whether Xray runs, whether the port answers, whether the time is over. *)
Fixpoint wait_xray (turns : list (bool * bool * bool)) : option (outcome core_error unit) :=
  match turns with
  | [] => None
  | (running, answers, late) :: turns =>
      if negb running then Some (Err ErrCoreNotRunning)
      else if answers then Some (Ok tt)
      else if late then Some (Err ErrXrayWait)
      else wait_xray turns
  end.

(* go: src/native/mobilecore/mobilecore.go 142-166 WaitXrayReady *)
Definition WaitXrayReady (socksPort timeoutMillis : Z) (turns : list (bool * bool * bool)) : option (outcome core_error unit) :=
  if (socksPort <? 1) || (65535 <? socksPort) then Some (Err ErrCorePort)
  else if timeoutMillis <=? 0 then Some (Err ErrCoreTimeout)
  else wait_xray turns.

Fixpoint Contains (s w : bytes) : bool :=
  HasPrefix s w || match s with [] => false | _ :: s => Contains s w end.

(* go: src/native/mobilecore/mobilecore.go 502-508 IsFatalError *)
Definition IsFatalError (message : string) : bool :=
  let m := string_bytes message in
  HasPrefix m (string_bytes "load Xray config:") || HasPrefix m (string_bytes "create Xray instance:") ||
  Contains m (string_bytes "carrier auth failed") || Contains m (string_bytes "SOCKS5 authentication failed") ||
  Contains m (string_bytes "message authentication failed").

(** ** What is proved: what the Android entry points start *)

Lemma apply_setting_ok s c c' : config_ok c -> apply_setting s c = Ok c' -> config_ok c'.
Proof. intros Hc E. pose proof (configure_ok s c Hc) as H. unfold configure in H. by rewrite E in H. Qed.

Lemma apply_settings_ok l c c' e : config_ok c -> apply_settings l c = (c', e) -> config_ok c'.
Proof.
  revert c. induction l as [|[s []] l IH]; intros c Hc; cbn [apply_settings]; [by intros [= <- _]| |];
    (destruct (apply_setting s c) as [c1|e1|] eqn:E; [|by intros [= <- _] || by apply IH|by intros [= <- _]]);
    apply IH; by eapply apply_setting_ok.
Qed.

Lemma apply_required s l c c' :
  apply_settings ((s, true) :: l) c = (c', None) ->
  (exists c1, apply_setting s c = Ok c1 /\ apply_settings l c1 = (c', None)) \/ apply_setting s c = Panic.
Proof. cbn. destruct (apply_setting s c); [eauto|done|by right]. Qed.

Lemma setting_no_panic s c : apply_setting s c <> Panic.
Proof.
  destruct s; cbn; unfold SetProvider, SetTransport, SetRoom, SetChannel, SetKey, SetDNS, SetResolver, SetSocksListenHost,
    SetSocksPort, SetSocksCredentials, SetProviderToken, SetDeviceID, SetDeviceIDPath, SetEngine, SetLivenessOptions,
    SetTrafficOptions, SetVP8Options, SetSEIOptions, SetVideoOptions; repeat case_match; done.
Qed.

Lemma apply_required_inv s l c c' :
  apply_settings ((s, true) :: l) c = (c', None) -> exists c1, apply_setting s c = Ok c1 /\ apply_settings l c1 = (c', None).
Proof. intros [?|H]%apply_required; [done|]. by apply setting_no_panic in H. Qed.

Lemma apply_optional_inv s l c :
  apply_settings ((s, false) :: l) c = apply_settings l (configure s c).
Proof.
  cbn. unfold configure. destruct (apply_setting s c) eqn:E; try done. by apply setting_no_panic in E.
Qed.

(** What [StartOlcrtc] asks of the runtime. *)
Record asked (a : start_args) (c : runtimeConfig) : Prop := {
  as_provider : rcProvider c = saProvider a;
  as_transport : rcTransport c = saTransport a;
  as_room : rcRoomURL c = TrimSpace (saRoom a);
  as_key : rcKeyHex c = saKey a;
  as_dns : rcDnsServer c = saDNS a;
  as_device : rcDeviceID c = TrimSpace (saClient a);
  as_host : rcSocksHost c = "127.0.0.1";
  as_port : rcSocksPort c = saPort a;
  as_liveness : rcLiveness c = rcLiveness defaultRuntimeConfig;
}.

(** Settings whose errors are ignored change what they are about only. *)
Lemma configure_vp8_frame f b c :
  exists v, configure (UseVP8 f b) c = put_vp8 v c \/ configure (UseVP8 f b) c = c.
Proof. unfold configure. cbn. unfold SetVP8Options. destruct (_ || _); exists (MkVp8Options f b); auto. Qed.

(** The keepalive interval comes with a timeout of zero, which the setter refuses. *)
Lemma configure_liveness_frame i c : configure (UseLiveness i 0 0) c = c.
Proof. unfold configure. cbn. unfold SetLivenessOptions. by rewrite orb_true_r. Qed.

Lemma start_settings_asked a c :
  apply_settings (start_settings a) defaultRuntimeConfig = (c, None) -> asked a c.
Proof.
  unfold start_settings. set (tok := if str_eqb (bearer_token _) "" then _ else _). cbn [app].
  intros (c1 & H1 & (c2 & H2 & (c3 & H3 & Hr)%apply_required_inv)%apply_required_inv)%apply_required_inv.
  rewrite apply_optional_inv in Hr.
  apply apply_required_inv in Hr as (c5 & H5 & (c6 & H6 & Hr)%apply_required_inv).
  rewrite !apply_optional_inv, configure_liveness_frame in Hr.
  cbn in H1, H2, H3, H5, H6. unfold SetProvider, SetTransport, SetRoom, SetKey, SetDNS in *.
  destruct (negb _); [done|]. injection H1 as <-. destruct (negb _) in H2; [done|]. injection H2 as <-.
  destruct (str_eqb _ _) in H3; [done|]. injection H3 as <-. destruct (mobile_validateKey _); [done|]. injection H5 as <-.
  destruct (validateHostPort _); [done|]. injection H6 as <-.
  set (c6 := put_dns _ _ _) in Hr. destruct (configure_vp8_frame (saFPS a) (saBatch a) c6) as [v Hv].
  set (c7 := configure (UseVP8 _ _) c6) in *.
  assert (Hp : exists c8, apply_setting (UseSocksPort (saPort a)) c8 = Ok c /\ exists t, c8 = put_token t c7 \/ c8 = c7).
  { revert Hr. unfold tok. destruct (str_eqb _ _); cbn [app].
    - intros (c9 & H9 & [= <-])%apply_required_inv. exists c7. split; [done|]. exists "". by right.
    - rewrite apply_optional_inv. intros (c9 & H9 & [= <-])%apply_required_inv. eexists. split; [exact H9|].
      eexists. left. reflexivity. }
  destruct Hp as (c8 & H8 & t & Ht). cbn in H8. unfold SetSocksPort in H8. destruct (_ || _); [done|]. injection H8 as <-.
  destruct Hv as [-> | ->], Ht as [-> | ->]; by constructor.
Qed.

Definition legacy_mode (mode : string) : bool := bytes_eqb (ToLower (string_bytes (TrimSpace mode))) (string_bytes "legacy").

Lemma registerVP8Transport_reg mode reg reg' :
  registerVP8Transport mode reg = Ok reg' ->
  reg' !! "vp8channel" = Some (if legacy_mode mode then LegacyVp8 else Builtin KVp8channel).
Proof.
  unfold registerVP8Transport, legacy_mode, registry_Register. set (m := ToLower _). unfold bytes_eqb.
  destruct (bool_decide (m = [])) eqn:E1; cbn [orb].
  { apply bool_decide_eq_true in E1. rewrite E1. intros [= <-]. by rewrite lookup_insert_eq. }
  destruct (bool_decide (m = string_bytes "current")) eqn:E2.
  { apply bool_decide_eq_true in E2. rewrite E2. intros [= <-]. by rewrite lookup_insert_eq. }
  destruct (bool_decide (m = string_bytes "legacy")); [|done]. intros [= <-]. by rewrite lookup_insert_eq.
Qed.

Lemma defaults_vp8 reg : defaults_registered reg !! "vp8channel" = Some (Builtin KVp8channel).
Proof. unfold defaults_registered, registry_Register. by rewrite lookup_insert_eq. Qed.

(** What a successful [StartOlcrtc] has done. *)
Lemma StartOlcrtc_inv `{NetIP} c a c' :
  StartOlcrtc c a = (c', Ok tt) ->
  exists cfg reg r,
    apply_settings (start_settings a) defaultRuntimeConfig = (cfg, None) /\
    registerVP8Transport (saMode a) (defaults_registered (coReg c)) = Ok reg /\
    rt_Start (with_defaults newRuntime cfg) = (r, Ok tt) /\ c' = set_runtime c r reg.
Proof.
  unfold StartOlcrtc. destruct (runtime_active c); [done|].
  destruct (registerVP8Transport _ _) as [reg| |] eqn:Hreg; [|done..]. cbn [rtDefaults newRuntime].
  destruct (apply_settings _ _) as [cfg [e|]] eqn:Hs; [done|].
  destruct (rt_Start _) as [r [[]| |]] eqn:Hr; [|done..]. intros [= <-]. by exists cfg, reg, r.
Qed.

Lemma StartOlcrtc_err `{NetIP} c a c' e :
  StartOlcrtc c a = (c', Err e) -> runtime_active c = true /\ c' = c /\ e = ErrCoreRunning \/ runtime_active c' = false.
Proof.
  unfold StartOlcrtc. destruct (runtime_active c) eqn:Ha; [intros [= <- <-]; by left|]. intros Hs. right. revert Hs.
  destruct (registerVP8Transport _ _) as [reg| |]; [|by intros [= <- _]|done].
  destruct (apply_settings _ _) as [cfg [e'|]]; [by intros [= <- _]|]. unfold rt_Start. cbn.
  destruct (validateRuntimeConfig cfg); [|done]. by intros [= <- _].
Qed.

(** What the application's start call starts.  When it succeeds, the runtime has one
    generation, starting, whose client can start and was given the provider, transport, room, key, DNS server,
    device and port of the call, on the loopback address; when it fails, nothing runs, unless something was
    running before and was left alone.  Two arguments do nothing.  The keepalive interval never
    arrives: it is set together with a timeout of zero, which the setter refuses, and the refusal is dropped.
    And the wire format of an old server is never spoken: the mode "legacy" registers the old factory, but the
    generation's client registers the built-in transports once more before it looks its own up. *)
Theorem mobilecore_start_effect `{NetIP} `{TileFrame} (c c' : core) (a : start_args) (res : outcome core_error unit)
    (Hstart : StartOlcrtc c a = (c', res)) :
  match res with
  | Ok _ =>
      exists rt gen cfg,
        coRuntime c' = Some rt /\ rtGens rt = [gen] /\ rtState rt = StateStarting /\ rtCurrent rt = Some 0%nat /\
        gnCfg gen = clientConfig cfg /\ asked a cfg /\ startable_client (gnCfg gen) /\
        pcLiveness (gnCfg gen) = MkCtlConfig 10000000000 15000000000 4 /\
        coReg c' !! "vp8channel" = Some (if legacy_mode (saMode a) then LegacyVp8 else Builtin KVp8channel) /\
        (saTransport a = "vp8channel" -> (runPublicClient c' (gnCfg gen)).2 = Some (Builtin KVp8channel))
  | Err e => c' = c /\ IsOlcrtcRunning c = true \/ IsOlcrtcRunning c' = false
  | Panic => False
  end.
Proof.
  destruct res as [[]|e|].
  - apply StartOlcrtc_inv in Hstart as (cfg & reg & r & Hs & Hreg & Hr & ->).
    pose proof (start_settings_asked _ _ Hs) as Ha. pose proof (apply_settings_ok _ _ _ _ default_config_ok Hs) as Hok.
    unfold rt_Start in Hr. cbn in Hr. destruct (validateRuntimeConfig cfg) eqn:Hv; [done|]. injection Hr as <-.
    eexists _, _, cfg. split; [reflexivity|]. split; [reflexivity|]. split; [done|]. split; [done|]. split; [done|].
    split; [done|]. split; [by apply valid_config_startable|]. split; [cbn; by rewrite (as_liveness _ _ Ha)|].
    split; [cbn; by eapply registerVP8Transport_reg|].
    intros Ht. cbn -[defaults_registered]. rewrite (as_transport _ _ Ha), Ht. apply defaults_vp8.
  - destruct (StartOlcrtc_err _ _ _ _ Hstart) as [(? & ? & _)|?]; [by left|by right].
  - unfold StartOlcrtc in Hstart. destruct (runtime_active c); [done|].
    destruct (registerVP8Transport _ _) as [reg| |] eqn:Hreg; [|done|].
    + destruct (apply_settings _ _) as [cfg [e'|]]; [done|]. unfold rt_Start in Hstart. cbn in Hstart.
      by destruct (validateRuntimeConfig cfg).
    + unfold registerVP8Transport in Hreg. by repeat case_match.
Qed.

(** A loopback address for the witness. *)
Definition loopback_ip : NetIP := {|
  IP_String := fun ip => ip;
  ParseIP := fun s => if bool_decide (s = string_bytes "127.0.0.1") then Some (v4InV6Prefix ++ [127; 0; 0; 1]) else None
|}.

Definition demo_args : start_args :=
  MkArgs "telemost" "vp8channel" " Legacy " "room" "phone" "Bearer token"
    "000102030405060708090a0b0c0d0e0f101112131415161718191a1b1c1d1e1f" "1.1.1.1:53" 25 8 60 9050.

Lemma mobilecore_start_effect_witness :
  exists c' gen,
    @StartOlcrtc loopback_ip new_core demo_args = (c', Ok tt) /\ (rtGens <$> coRuntime c') = Some [gen] /\
    pcProviderToken (gnCfg gen) = "token" /\ pcLiveness (gnCfg gen) = MkCtlConfig 10000000000 15000000000 4 /\
    coReg c' !! "vp8channel" = Some LegacyVp8 /\ (runPublicClient c' (gnCfg gen)).2 = Some (Builtin KVp8channel).
Proof.
  destruct (@StartOlcrtc loopback_ip new_core demo_args) as [c' res] eqn:Hs.
  pose proof (@mobilecore_start_effect loopback_ip (Build_TileFrame 1080 1080) _ _ _ _ Hs) as Heff.
  assert (Hv : match @StartOlcrtc loopback_ip new_core demo_args with
               | (c', Ok _) => match coRuntime c' with
                               | Some rt => (pcProviderToken ∘ gnCfg <$> rtGens rt) = ["token"]
                               | None => False
                               end
               | _ => False
               end) by (vm_compute; reflexivity).
  rewrite Hs in Hv. destruct res as [[]| |]; [|destruct Hv|destruct Hv].
  destruct Heff as (rt & gen & cfg & Hrt & Hgens & _ & _ & _ & _ & _ & Hl & Hreg & Hcur).
  rewrite Hrt, Hgens in Hv. exists c', gen. split; [reflexivity|]. split; [rewrite Hrt; cbn; rewrite Hgens; reflexivity|].
  split; [injection Hv as Hv; exact Hv|]. split; [exact Hl|]. split; [rewrite Hreg; vm_compute; reflexivity|].
  apply Hcur. reflexivity.
Defined.

(** ** Xray instances *)

(** The instances open are those the package holds. *)
Record instances_ok (c : core) : Prop := {
  io_open : forall n, n ∈ coOpen c <-> coXray c = Some n \/ coProbe c = Some n;
  io_fresh : forall n, n ∈ coOpen c -> (n < coNext c)%nat;
  io_apart : forall n, coXray c = Some n -> coProbe c <> Some n;
}.

Lemma with_instance_ok c (probe : bool) :
  instances_ok c -> (if probe then coProbe c else coXray c) = None -> instances_ok (with_instance c probe).
Proof.
  intros [H1 H2 H3] Hn. constructor; destruct probe; cbn in *.
  - intros n. rewrite elem_of_union, elem_of_singleton, H1, Hn. naive_solver.
  - intros n. rewrite elem_of_union, elem_of_singleton, H1, Hn. naive_solver.
  - intros n. rewrite elem_of_union, elem_of_singleton. intros [->|Hin]; [lia|]. apply H2 in Hin. lia.
  - intros n. rewrite elem_of_union, elem_of_singleton. intros [->|Hin]; [lia|]. apply H2 in Hin. lia.
  - intros n Hx [= <-]. assert (Hin : coNext c ∈ coOpen c) by (apply H1; by left). apply H2 in Hin. lia.
  - intros n [= <-] Hp. assert (Hin : coNext c ∈ coOpen c) by (apply H1; by right). apply H2 in Hin. lia.
Qed.

Lemma StartXray_ok env assets c : instances_ok c -> instances_ok (StartXray env assets c).1.
Proof.
  intros Hc. unfold StartXray. destruct (coXray c) eqn:Hx; [done|].
  destruct (newXrayInstance env assets); [|done..]. by apply (with_instance_ok c false).
Qed.

Lemma StartProfileProbe_ok env assets c : instances_ok c -> instances_ok (StartProfileProbe env assets c).1.
Proof.
  intros Hc. unfold StartProfileProbe. destruct (coProbe c) eqn:Hx; [done|].
  destruct (newXrayInstance env assets); [|done..]. by apply (with_instance_ok c true).
Qed.

Lemma StopXray_ok c : instances_ok c -> instances_ok (StopXray c).
Proof.
  intros [H1 H2 H3]. unfold StopXray, close_instance. constructor; cbn.
  - intros n. destruct (coXray c) as [x|] eqn:Hx; [|rewrite H1; naive_solver].
    rewrite elem_of_difference, elem_of_singleton, H1. specialize (H3 x eq_refl). naive_solver.
  - intros n Hn. apply H2. destruct (coXray c); [|done]. set_solver.
  - done.
Qed.

Lemma StopProfileProbe_ok c : instances_ok c -> instances_ok (StopProfileProbe c).
Proof.
  intros [H1 H2 H3]. unfold StopProfileProbe, StopOlcrtc, close_instance.
  assert (Hsame : forall c', coXray c' = coXray c -> coProbe c' = coProbe c -> coOpen c' = coOpen c -> coNext c' = coNext c ->
    instances_ok (MkCore (coReg c') (coRuntime c') false (coXray c') None
                    (match coProbe c' with Some n => coOpen c' ∖ {[n]} | None => coOpen c' end) (coNext c'))).
  { intros c' -> -> -> ->. constructor; cbn.
    - intros n. destruct (coProbe c) as [x|] eqn:Hx; [|rewrite H1; naive_solver].
      rewrite elem_of_difference, elem_of_singleton, H1. specialize (H3 n). naive_solver.
    - intros n Hn. apply H2. destruct (coProbe c); [|done]. set_solver.
    - done. }
  destruct (coProbeOlcrtc c); [|by apply Hsame]. destruct (coRuntime c); by apply Hsame.
Qed.

(** The probe's claim on the runtime survives the runtime: a probe starts olcRTC, the application stops it and
    starts its tunnel, and the stop of the probe stops the tunnel. *)
Lemma probe_stop_hits_tunnel :
  let returned c :=
    MkCore (coReg c) ((fun r => close_done (finish r 0 (Some RunCanceled)) 0) <$> coRuntime c) (coProbeOlcrtc c) (coXray c)
      (coProbe c) (coOpen c) (coNext c) in
  let c := returned (StopOlcrtc (@StartProfileProbeOlcrtc loopback_ip new_core demo_args).1) in
  let tunnel := @StartOlcrtc loopback_ip c demo_args in
  tunnel.2 = Ok tt /\ IsOlcrtcRunning tunnel.1 = true /\
  (rtState <$> coRuntime tunnel.1) = Some StateStarting /\
  (rtState <$> coRuntime (StopProfileProbe tunnel.1)) = Some StateStopping.
Proof. by vm_compute. Qed.
