(* ===== verification/Latency.v ===== *)
(** * Latency: latency tests and the protector on the phone
    (mobile/ping.go, and the URL tests and SetProtector of src/native/mobilecore/mobilecore.go)

    The ping of a probe sends one request to warm the connection up and takes the best of three samples; the URL tests send one
    HEAD request through an Xray instance.  The HTTP client is what it answers: nothing, or a status after some
    milliseconds.  The second part is the socket protector, which is kept once for Xray and once for olcRTC. *)

From S2P Require Import Prelude Bytes Text NetAddr Traffic Control Crypto SeiTransport Socks SessionConfig SessionRun ConfigFile IceServers Mobile MobileCore Protect.

(** [url.ParseRequestURI]: the scheme and the host. *)
Class RequestURI : Type := { ParseRequestURI : string -> option (string * string) }.

(** [HaBad]: the request cannot be built. *)
Inductive http_answer := HaBad | HaError | HaReply (status elapsed : Z).

(** ** The ping (mobile/ping.go) *)

(* go: src/native/olcrtc/mobile/ping.go 13-19 defaultHTTPPingURL *)
Definition defaultHTTPPingURL : string := "https://www.google.com/generate_204".
Definition httpPingWarmupTimeout : Z := 1500 * 1000000.
Definition httpPingSampleTimeout : Z := 1500 * 1000000.

Inductive ping_error := PeParse | PeScheme | PeCreate | PePerform | PeStatus (status : Z).

(* go: src/native/olcrtc/mobile/ping.go 38-50 normalizeHTTPPingURL *)
Definition normalizeHTTPPingURL `{RequestURI} (targetURL : string) : outcome ping_error string :=
  let targetURL := if str_eqb targetURL "" then defaultHTTPPingURL else targetURL in
  match ParseRequestURI targetURL with
  | None => Err PeParse
  | Some (scheme, _) => if negb (str_eqb scheme "http") && negb (str_eqb scheme "https") then Err PeScheme else Ok targetURL
  end.

Record ping_request := MkPr { prURL : string; prTimeout : Z }.

(** The request, if one goes out, and what it measures. *)
(* go: src/native/olcrtc/mobile/ping.go 118-145 singleHTTPPingRequest *)
Definition singleHTTPPingRequest (url : string) (timeout : Z) (a : http_answer) : list ping_request * (ping_error + Z) :=
  match a with
  | HaBad => ([], inl PeCreate)
  | HaError => ([MkPr url timeout], inl PePerform)
  | HaReply status elapsed =>
      ([MkPr url timeout], if (status <? 200) || (308 <? status) then inl (PeStatus status) else inr elapsed)
  end.

(** How many samples are taken, when [ended] tells whether the context ends in the pause after each one. *)
(* go: src/native/olcrtc/mobile/ping.go 97-106 waitPingSample *)
Definition samples_taken (ended : nat -> bool) : nat := if ended 0%nat then 1 else if ended 1%nat then 2 else 3.

(** The requests and the result; [inl None] is ErrHTTPPingTimeout. *)
(* go: src/native/olcrtc/mobile/ping.go 27-36 httpPingThroughSocks *)
Definition httpPingThroughSocks `{RequestURI} (targetURL : string) (warmup : http_answer) (answers : nat -> http_answer) (ended : nat -> bool)
  : list ping_request * (option ping_error + Z) :=
  match normalizeHTTPPingURL targetURL with
  | Ok url =>
      let sample i := singleHTTPPingRequest url httpPingSampleTimeout (answers i) in
      ((singleHTTPPingRequest url httpPingWarmupTimeout warmup).1 ++ concat (fst <$> (sample <$> seq 0 (samples_taken ended))),
       default (inl None) (bestHTTPPingSample [((sample 0%nat).2, ended 0%nat); ((sample 1%nat).2, ended 1%nat); ((sample 2%nat).2, ended 2%nat)]))
  | Err e => ([], inl (Some e))
  | Panic => ([], inl None)
  end.

(** ** URL tests (mobilecore.go) *)

(** What the HTTP client dials for the request, with whether the address parses, and what comes back. *)
Record http_exchange := MkEx { exDials : list (string * bool); exAnswer : http_answer }.

Inductive url_error := UeTimeout | UeURL | UeTag | UeNotRunning | UeCreate | UePerform | UeStatus (status : Z).

(* go: src/native/mobilecore/mobilecore.go 217-226 validateURLTest *)
Definition validateURLTest `{RequestURI} (link : string) (timeoutMillis : Z) : option url_error :=
  if timeoutMillis <=? 0 then Some UeTimeout
  else match ParseRequestURI link with
       | Some (scheme, host) =>
           if (negb (str_eqb scheme "http") && negb (str_eqb scheme "https")) || str_eqb host "" then Some UeURL else None
       | None => Some UeURL
       end.

(** The dials are made of an instance under the tag of an inbound. *)
(* go: src/native/mobilecore/mobilecore.go 311-348 runURLTestWithInboundTag *)
Definition runURLTestWithInboundTag (instance : nat) (inboundTag : string) (ex : http_exchange)
  : list (nat * string * string) * (url_error + Z) :=
  match exAnswer ex with
  | HaBad => ([], inl UeCreate)
  | a =>
      (omap (fun '(address, parses) => if (parses : bool) then Some (instance, address, inboundTag) else None) (exDials ex),
       match a with
       | HaReply status elapsed => if status =? 204 then inr elapsed else inl (UeStatus status)
       | _ => inl UePerform
       end)
  end.

(* go: src/native/mobilecore/mobilecore.go 535-535 latencyTestInboundTag *)
Definition latencyTestInboundTag : string := "latency-test".

(* go: src/native/mobilecore/mobilecore.go 307-309 runURLTest *)
Definition runURLTest (instance : nat) (ex : http_exchange) := runURLTestWithInboundTag instance latencyTestInboundTag ex.

(* go: src/native/mobilecore/mobilecore.go 168-183 UrlTest *)
Definition UrlTest `{RequestURI} (c : core) (link : string) (timeoutMillis : Z) (ex : http_exchange) :=
  match validateURLTest link timeoutMillis with
  | Some e => ([], inl e)
  | None => match coXray c with None => ([], inl UeNotRunning) | Some n => runURLTest n ex end
  end.

(* go: src/native/mobilecore/mobilecore.go 199-215 ProfileProbeUrlTest *)
Definition ProfileProbeUrlTest `{RequestURI} (c : core) (link : string) (timeoutMillis : Z) (inboundTag : string) (ex : http_exchange) :=
  match validateURLTest link timeoutMillis with
  | Some e => ([], inl e)
  | None =>
      if str_eqb (TrimSpace inboundTag) "" then ([], inl UeTag)
      else match coProbe c with None => ([], inl UeNotRunning) | Some n => runURLTestWithInboundTag n inboundTag ex end
  end.

(** ** The protector (mobilecore.go) *)

(** [ptCore] is the protector of Xray, [ptProtect] that of internal/protect; [ptSets] are the calls of [SetProtector] that have
    stored theirs and not looked for a runtime yet; [ptStart] is the start under way, with the protector it has read. *)
Record protectors := MkPt {
  ptCore : option nat; ptRuntime : bool; ptProtect : option nat; ptSets : list (option nat); ptStart : option (option (option nat)) }.

Definition protectors0 : protectors := MkPt None false None [] None.

(* go: src/native/mobilecore/mobilecore.go 67-70 SetProtector *)
Definition pt_store (v : option nat) (s : protectors) : protectors :=
  MkPt v (ptRuntime s) (ptProtect s) (ptSets s ++ [v]) (ptStart s).

(* go: src/native/mobilecore/mobilecore.go 71-76 SetProtector *)
Definition pt_pass (i : nat) (s : protectors) : protectors :=
  match ptSets s !! i with
  | None => s
  | Some v => MkPt (ptCore s) (ptRuntime s) (if ptRuntime s then v else ptProtect s) (delete i (ptSets s)) (ptStart s)
  end.

(** A start makes its runtime, fails at a setting or reads the protector, and hands it on. *)
(* go: src/native/mobilecore/mobilecore.go 364-374 StartOlcrtc *)
Definition pt_create (s : protectors) : protectors :=
  match ptStart s with Some _ => s | None => MkPt (ptCore s) true (ptProtect s) (ptSets s) (Some None) end.

(* go: src/native/mobilecore/mobilecore.go 409-411 StartOlcrtc *)
Definition pt_read (s : protectors) : protectors :=
  match ptStart s with Some None => MkPt (ptCore s) (ptRuntime s) (ptProtect s) (ptSets s) (Some (Some (ptCore s))) | _ => s end.

(* go: src/native/mobilecore/mobilecore.go 412-414 StartOlcrtc *)
Definition pt_apply (s : protectors) : protectors :=
  match ptStart s with
  | Some (Some prot) => MkPt (ptCore s) (ptRuntime s) (match prot with Some _ => prot | None => ptProtect s end) (ptSets s) None
  | _ => s
  end.

Definition pt_fail (s : protectors) : protectors :=
  match ptStart s with Some None => MkPt (ptCore s) (ptRuntime s) (ptProtect s) (ptSets s) None | _ => s end.

Inductive pt_event := PtStore (v : option nat) | PtPass (i : nat) | PtCreate | PtRead | PtApply | PtFail.

Definition pt_step (s : protectors) (e : pt_event) : protectors :=
  match e with
  | PtStore v => pt_store v s
  | PtPass i => pt_pass i s
  | PtCreate => pt_create s
  | PtRead => pt_read s
  | PtApply => pt_apply s
  | PtFail => pt_fail s
  end.

Definition pt_run (es : list pt_event) : protectors := fold_left pt_step es protectors0.

(** Calls that do not overlap; a start reaches the protector or fails before. *)
Inductive pt_call := CallSet (v : option nat) | CallStart (ok : bool).

Definition pt_events (c : pt_call) : list pt_event :=
  match c with
  | CallSet v => [PtStore v; PtPass 0]
  | CallStart true => [PtCreate; PtRead; PtApply]
  | CallStart false => [PtCreate; PtFail]
  end.

(** The control hook of Xray's sockets. *)
(* go: src/native/mobilecore/mobilecore.go 515-533 protectSocket *)
Definition protectSocket : hook := fun w rawOk fd =>
  match pwProtector w with
  | None => Ok tt
  | Some current => if negb rawOk then Err ErrControl else if current fd then Ok tt else Err ErrProtectFd
  end.

(** ** What is proved of the tests *)

(** A sample that counts. *)
Definition measured (a : http_answer) (ms : Z) : Prop := exists status, a = HaReply status ms /\ 200 <= status <= 308 /\ 0 < ms.

Lemma sample_measured url timeout a ms :
  0 < ms -> (singleHTTPPingRequest url timeout a).2 = inr ms <-> measured a ms.
Proof.
  intros Hms. unfold measured. destruct a as [| |status elapsed]; simpl; [split; [done|by intros (? & ? & _)]..|].
  destruct ((status <? 200) || (308 <? status)) eqn:E.
  - split; [done|]. intros (st & [= -> ->] & H & _). lia.
  - split; [intros [= ->]; exists status; repeat split; lia|by intros (st & [= -> ->] & _)].
Qed.

(** The best of the samples that were taken. *)
Lemma best_sample {E} (s : nat -> E + Z) (ended : nat -> bool) :
  exists r, bestHTTPPingSample [(s 0%nat, ended 0%nat); (s 1%nat, ended 1%nat); (s 2%nat, ended 2%nat)] = Some r /\
  match r with
  | inr best => 0 < best /\ (exists i, (i < samples_taken ended)%nat /\ s i = inr best) /\
                forall i ms, (i < samples_taken ended)%nat -> s i = inr ms -> 0 < ms -> best <= ms
  | inl e => forall i ms, (i < samples_taken ended)%nat -> s i = inr ms -> ms <= 0
  end.
Proof.
  assert (forall best (lastErr : option E) n samples, n = length samples -> ping_samples n best lastErr samples <> None) as Htot.
  { intros best lastErr n samples ->. revert best lastErr. induction samples as [|[x b] samples IH]; intros best lastErr; simpl; [done|].
    destruct x; simpl; (destruct ((0 <? Z.of_nat (length samples)) && b); [done|apply IH]). }
  unfold bestHTTPPingSample. destruct (ping_samples 3 0 None _) as [r|] eqn:Er; [|by apply Htot in Er]. exists r. split; [done|].
  simpl in Er. unfold samples_taken.
  destruct (s 0%nat) as [e0|m0] eqn:E0, (ended 0%nat); simpl in Er; try (injection Er as <-);
    try (destruct (s 1%nat) as [e1|m1] eqn:E1, (ended 1%nat); simpl in Er; try (injection Er as <-));
    try (destruct (s 2%nat) as [e2|m2] eqn:E2; simpl in Er; try (injection Er as <-)).
  all: unfold bestPositiveLatency; repeat case_match; simplify_eq; try lia.
  all: try (split; [lia|split; [first [exists 0%nat; split; [lia|congruence]|exists 1%nat; split; [lia|congruence]|exists 2%nat; split; [lia|congruence]]|]]).
  all: intros [|[|[|i]]] ms Hi Hs; try lia; rewrite ?E0, ?E1, ?E2 in Hs; simplify_eq; lia.
Qed.

Lemma requests_ok url timeout a : Forall (fun r => r = MkPr url timeout) (singleHTTPPingRequest url timeout a).1.
Proof. destruct a; simpl; repeat constructor. Qed.

Lemma requests_length url timeout a : (length (singleHTTPPingRequest url timeout a).1 <= 1)%nat.
Proof. destruct a; simpl; lia. Qed.

(** What a ping reports was measured: a latency is positive, one of the samples that were taken and answered with a status from 200
    to 308, and no such sample was faster; the warm-up does not count.  A failure means that no sample that was taken measured
    a whole millisecond.  At most four requests go out, all to the one URL, each given a second and a half, and none when the URL is
    not an HTTP URL. *)
Theorem ping_measures `{RequestURI} (targetURL : string) (warmup : http_answer) (answers : nat -> http_answer) (ended : nat -> bool) :
  let r := httpPingThroughSocks targetURL warmup answers ended in
  match normalizeHTTPPingURL targetURL with
  | Ok url =>
      (length r.1 <= 4)%nat /\ Forall (fun q => q = MkPr url 1500000000) r.1 /\
      match r.2 with
      | inr best => (exists i, (i < samples_taken ended)%nat /\ measured (answers i) best) /\
                    forall i ms, (i < samples_taken ended)%nat -> measured (answers i) ms -> best <= ms
      | inl _ => forall i ms, (i < samples_taken ended)%nat -> ~ measured (answers i) ms
      end
  | _ => r.1 = [] /\ exists e, r.2 = inl (Some e)
  end.
Proof.
  simpl. unfold httpPingThroughSocks. destruct (normalizeHTTPPingURL targetURL) as [url|e|] eqn:En.
  3: { unfold normalizeHTTPPingURL in En. by repeat case_match. }
  2: { split; [done|by eexists]. }
  cbn [fst snd]. cbv zeta. split; [|split].
  - rewrite length_app. pose proof (requests_length url httpPingWarmupTimeout warmup).
    pose proof (requests_length url httpPingSampleTimeout (answers 0%nat)). pose proof (requests_length url httpPingSampleTimeout (answers 1%nat)).
    pose proof (requests_length url httpPingSampleTimeout (answers 2%nat)). unfold samples_taken.
    destruct (ended 0%nat), (ended 1%nat); simpl; rewrite ?length_app; simpl; lia.
  - apply Forall_app. split; [apply requests_ok|]. apply Forall_concat, Forall_fmap, Forall_fmap, Forall_true. intros i. apply requests_ok.
  - destruct (best_sample (fun i => (singleHTTPPingRequest url httpPingSampleTimeout (answers i)).2) ended) as (r & E & Hr). cbv beta in E. rewrite E. simpl. clear E. destruct r as [e|best].
    + intros i ms Hi Hm. assert (Hpos := Hm). destruct Hpos as (_ & _ & _ & Hpos).
      specialize (Hr i ms Hi (proj2 (sample_measured url httpPingSampleTimeout _ _ Hpos) Hm)). lia.
    + destruct Hr as (Hpos & (i & Hi & E) & Hmin). split; [exists i; split; [done|]; by apply (sample_measured url httpPingSampleTimeout)|].
      intros j ms Hj Hm. assert (Hp := Hm). destruct Hp as (_ & _ & _ & Hp). apply (Hmin j ms Hj); [|done].
      by apply (sample_measured url httpPingSampleTimeout _ _ Hp).
Qed.

(** A test dials only the instance it is about, under its tag, and reports the time of an answer 204; with a bad URL or timeout, or
    when the instance does not run, nothing is dialled. *)
Theorem url_tests_sound `{RequestURI} (c : core) (link : string) (timeoutMillis : Z) (inboundTag : string) (ex : http_exchange) :
  (forall n address tag, (n, address, tag) ∈ (UrlTest c link timeoutMillis ex).1 -> coXray c = Some n /\ tag = "latency-test") /\
  (forall n address tag, (n, address, tag) ∈ (ProfileProbeUrlTest c link timeoutMillis inboundTag ex).1 ->
     coProbe c = Some n /\ tag = inboundTag /\ TrimSpace inboundTag <> "") /\
  (forall ms, (UrlTest c link timeoutMillis ex).2 = inr ms \/ (ProfileProbeUrlTest c link timeoutMillis inboundTag ex).2 = inr ms ->
     0 < timeoutMillis /\ exAnswer ex = HaReply 204 ms /\
     exists scheme host, ParseRequestURI link = Some (scheme, host) /\ (scheme = "http" \/ scheme = "https") /\ host <> "").
Proof.
  assert (forall n tag m address tag', (m, address, tag') ∈ (runURLTestWithInboundTag n tag ex).1 -> m = n /\ tag' = tag) as Hd.
  { intros n tag m address tag' Hin. unfold runURLTestWithInboundTag in Hin. destruct (exAnswer ex); [by apply not_elem_of_nil in Hin| |];
      apply list_elem_of_omap in Hin as ([a []] & _ & E); by simplify_eq. }
  assert (forall n tag ms, (runURLTestWithInboundTag n tag ex).2 = inr ms -> exAnswer ex = HaReply 204 ms) as Hr.
  { intros n tag ms. unfold runURLTestWithInboundTag. destruct (exAnswer ex) as [| |status elapsed]; [done..|]. simpl.
    destruct (status =? 204) eqn:E; [|done]. intros [= ->]. f_equal. lia. }
  assert (validateURLTest link timeoutMillis = None -> 0 < timeoutMillis /\
    exists scheme host, ParseRequestURI link = Some (scheme, host) /\ (scheme = "http" \/ scheme = "https") /\ host <> "") as Hv.
  { unfold validateURLTest. destruct (timeoutMillis <=? 0) eqn:Et; [done|]. destruct (ParseRequestURI link) as [[scheme host]|]; [|done].
    destruct (str_eqb host "") eqn:Eh; [by rewrite orb_true_r|]. rewrite orb_false_r.
    destruct (str_eqb scheme "http") eqn:E1, (str_eqb scheme "https") eqn:E2; simpl; try done; intros _;
      (split; [lia|]); exists scheme, host; (split; [done|]); (split; [rewrite ?String.eqb_eq in *; tauto|by apply String.eqb_neq in Eh]). }
  unfold UrlTest, ProfileProbeUrlTest. destruct (validateURLTest link timeoutMillis) as [e|].
  { split; [|split]; [by intros ? ? ? Hin%not_elem_of_nil..|by intros ms []]. }
  destruct (Hv eq_refl) as [Ht Hu]. split; [|split].
  - intros n address tag Hin. destruct (coXray c); [|by apply not_elem_of_nil in Hin]. by destruct (Hd _ _ _ _ _ Hin) as [-> ->].
  - intros n address tag Hin. destruct (str_eqb (TrimSpace inboundTag) "") eqn:E; [by apply not_elem_of_nil in Hin|].
    destruct (coProbe c); [|by apply not_elem_of_nil in Hin]. destruct (Hd _ _ _ _ _ Hin) as [-> ->]. split; [done|]. split; [done|]. by apply String.eqb_neq in E.
  - intros ms Hms. split; [done|]. split; [|done]. destruct Hms as [Hms|Hms].
    + destruct (coXray c); [by eapply Hr|done].
    + destruct (str_eqb (TrimSpace inboundTag) ""); [done|]. destruct (coProbe c); [by eapply Hr|done].
Qed.

(** ** What is proved of the protector *)

Definition protector_ok (started : bool) (s : protectors) : Prop :=
  ptSets s = [] /\ ptStart s = None /\ (ptRuntime s = false -> started = false /\ ptProtect s = None) /\
  (ptProtect s = ptCore s \/ started = false /\ ptProtect s = None).

Definition is_start (c : pt_call) : bool := match c with CallStart ok => ok | CallSet _ => false end.

Lemma pt_call_ok started s c : protector_ok started s -> protector_ok (started || is_start c) (fold_left pt_step (pt_events c) s).
Proof.
  destruct s as [co rt pr sets start]. unfold protector_ok. simpl. intros (-> & -> & Hrt & H). destruct c as [v|[]]; simpl; rewrite ?orb_false_r.
  - split; [done|]. split; [done|]. destruct rt; [split; [done|by left]|]. destruct (Hrt eq_refl) as [-> ->]. split; [done|by right].
  - split; [done|]. split; [done|]. split; [done|]. left. destruct co; [done|]. destruct H as [->|[_ ->]]; done.
  - done.
Qed.

(** C34: While calls do not overlap, once a start has got as far as the protector, olcRTC and Xray have the same one after every later
    call; before that olcRTC has the same or none.  A start that overlaps a call can put the replaced protector back, so
    that the sockets of olcRTC are offered to one that was taken away.  The control hook that is registered for Xray answers for the protector
    at that moment: it passes a socket exactly when there is none, or when the descriptor can be reached and the protector
    accepts it. *)
Theorem protectors_agree (calls : list pt_call) (v : option nat) :
  let s := pt_run (concat (pt_events <$> calls)) in
  (ptProtect s = ptCore s \/ ptProtect s = None) /\ (existsb is_start calls = true -> ptProtect s = ptCore s) /\
  (forall old, let s := pt_run [PtStore (Some old); PtPass 0; PtCreate; PtRead; PtStore v; PtPass 0; PtApply] in
     ptSets s = [] /\ ptStart s = None /\ ptCore s = v /\ ptProtect s = Some old) /\
  (forall w rawOk fd, protectSocket w rawOk fd = Ok tt <->
     pwProtector w = None \/ rawOk = true /\ exists accepts, pwProtector w = Some accepts /\ accepts fd = true).
Proof.
  assert (forall started s, protector_ok started s ->
    protector_ok (started || existsb is_start calls) (fold_left pt_step (concat (pt_events <$> calls)) s)) as H.
  { induction calls as [|c calls IH]; intros started s Hs; [by rewrite orb_false_r|]. simpl. rewrite fold_left_app, orb_assoc. by apply IH, pt_call_ok. }
  destruct (H false protectors0) as (_ & _ & _ & Ho); [by repeat split; auto|]. fold (pt_run (concat (pt_events <$> calls))) in Ho. simpl in Ho.
  intros s. fold s in Ho. split; [tauto|]. split; [|split; [done|]].
  - intros E. rewrite E in Ho. destruct Ho as [?|[? _]]; [done|discriminate].
  - intros w rawOk fd. unfold protectSocket. destruct (pwProtector w) as [f|]; [|by split; [left|]].
    destruct rawOk, (f fd) eqn:E; simpl; (split; [try done|]); [|done|intros [?|(? & g & [= <-] & ?)]; congruence..].
    intros _. right. split; [done|]. by exists f.
Qed.

Lemma protectors_agree_witness :
  let s := pt_run (concat (pt_events <$> [CallSet (Some 1%nat); CallStart false; CallStart true; CallSet (Some 2%nat); CallSet None])) in
  ptProtect s = ptCore s.
Proof.
  exact (proj1 (proj2 (protectors_agree [CallSet (Some 1%nat); CallStart false; CallStart true; CallSet (Some 2%nat); CallSet None] None)) eq_refl).
Defined.
